(* ===== verification/_CoqProject ===== *)
-Q . S2P
Prelude.v
RustStr.v
Float64.v
Text.v
RustPath.v
StateDir.v
RustVec.v
Net.v
RateLimit.v
Auth.v
AuthInv.v
AuthProps.v
AuthStore.v
Router.v
ToyJson.v
Registry.v
Gateway.v
Socket.v
Webui.v
Protocol.v
Firewall.v
Nft.v
FirewallPolicy.v
FirewallProps.v
Service.v
NetConfig.v
Layered.v
Nm.v
NmApply.v
NmProps.v
DhcpRelay.v
RelayProps.v
Network.v
NetworkProps.v
NetApply.v
Nfs.v
NfsProps.v
Smb.v
SmbProps.v
ShareScope.v
ShareRoute.v
Subvol.v
SubvolNames.v
SubvolProps.v
SubvolOwner.v
SubvolResize.v
Alerts.v
AlertProps.v
Stall.v
AlertEval.v
AlertEvalProps.v
Vm.v
VmProps.v
VmLife.v
VmRoute.v
VmConfine.v
Dependents.v
DepProps.v
Cascade.v
CascadeProps.v
CascadeRollback.v
BlockDev.v
AppPolicy.v
ComposeProps.v
Deploy.v
DeployProps.v
Iscsi.v
IscsiRemap.v
IscsiPortals.v
IscsiOps.v
IscsiAcl.v
IscsiNames.v
BlockProps.v
HumanBytes.v
FsCreate.v
FsProps.v
FsSafety.v
Jobs.v
Scheduler.v
GuestShare.v
