(* ===== verification/Prelude.v ===== *)
(** * NASty engine: a verification library

    NASty is a NAS appliance.  Its engine (the Rust workspace under engine/ in
    the repository) is one process that authenticates users, dispatches JSON-RPC
    calls arriving over WebSockets and REST to domain services (filesystems,
    shares, backups, virtual machines, apps, system settings), and runs
    background tasks.  This library models the parts of the engine that decide
    who may do what, and the protocols whose interleavings and failures make
    them hard, and proves what keeps them correct.

    ** Parts and files

    Shared: Prelude.v (this file) has [result] and the state-and-error monad
    [stm] for fallible and stateful code with the invariant rule [keeps],
    wrapping [u64] arithmetic, vectors ([retain], [find_first], [update_first]),
    automation.  RustStr.v, RustVec.v, RustPath.v and Net.v are the string
    functions, the sorting functions, [std::path] and the [std::net] address
    parser and printer of the Rust standard library, on UTF-8 bytes; Float64.v
    is [f64] with its printing.  Text.v has the lines and words of the files
    written for other programs, StateDir.v the directories of state files of
    nasty-common/src/state.rs.

    Who may do what (nasty-engine/src):
    - RateLimit.v: [RateLimitState] of auth.rs, failed sign-ins per user and per
      address (IPv6 per /64), refined to the full log.
    - Auth.v: [AuthState] and every operation of [AuthService] (sessions, API
      tokens, users, OIDC and WebAuthn sign-in, password changes).  argon2, sha2,
      subtle and webauthn-rs are the class [AuthLibs].
    - AuthInv.v: the service as a transition system in which a password login is
      two steps, because the code releases its lock while argon2 runs, and
      commits of auth.json may fail; an abstract machine [update] that every
      operation refines; the well-formedness invariant.  AuthProps.v: what
      validation, lockout, scoping and revocation guarantee.  AuthStore.v:
      loading and saving auth.json with any system call failing.
    - Router.v: nasty-common/src/jsonrpc.rs and router/mod.rs: the role gate,
      [handle_rpc_request], dispatch by prefix, audit and events.  serde_json is
      the class [Json]; the domain handlers are an arbitrary function.  ToyJson.v
      is an instance of those classes that satisfies their laws.
    - Registry.v: registry/mod.rs and registry/methods.rs, the 349 methods with
      their declared roles.  Gateway.v: registry/paths.rs, rest_gateway.rs and
      the credential helpers of main.rs.  Socket.v: [handle_socket] of main.rs,
      with the rest of the engine changing between two iterations.
    - GuestShare.v: guestshare.rs and the unlock handler of main.rs: public
      share links, their limits, unlock grants, and the bounded limiter.

    The appliance's own network (nasty-system/src):
    - Webui.v: webui.rs, the confirm-or-rollback protocol that moves the
      management listeners, with failing calls and restarts.
    - Protocol.v: protocol.rs, the file-sharing protocols and their units.
    - Firewall.v, Nft.v, FirewallPolicy.v, FirewallProps.v: firewall.rs, the
      rules and every operation on them; the text given to nft, read back by a
      parser of the rules used; the packets it admits; and that the live table
      always is the stored policy.
    - Service.v: router/service.rs and the storage-safe start of protocols, the
      composition of Protocol.v and Firewall.v.
    - NetConfig.v, Layered.v: network.rs and network/layered.rs, the two forms
      of the configuration, their translation and validation.
    - Nm.v, NmApply.v, NmProps.v: network/nm.rs and network/nm/dbus.rs, profiles
      for NetworkManager and the diff that applies them.
    - DhcpRelay.v, RelayProps.v: network/dhcp_relay.rs.
    - Network.v, NetworkProps.v, NetApply.v: the transactions of network.rs with
      their rollback timer, and the whole of [apply_config].

    Storage (nasty-storage/src/filesystem.rs):
    - BlockDev.v, BlockProps.v: the inventory of block devices made from lsblk
      and the checks whether a device is free.  HumanBytes.v: sizes as text.
    - FsCreate.v, FsProps.v, FsSafety.v: creating a filesystem and wiping
      devices as traces of observations and commands, a Hoare logic over the
      traces (classes [Mono] and [Stable] say which facts survive), and that
      only vetted devices are destroyed.

    - Subvol.v: subvolume.rs, subvolumes, snapshots, clones, rollback and resize
      over a map from paths to subvolumes; what the bcachefs tool does is a
      parameter with laws.  SubvolNames.v (paths), SubvolProps.v (rollback),
      SubvolOwner.v (requests of an owner), SubvolResize.v (capacity).

    Sharing (nasty-sharing/src):
    - Nfs.v, NfsProps.v: nfs.rs, and a reader of exports(5).  Smb.v, SmbProps.v:
      smb.rs, and a reader of smb.conf(5).
    - ShareScope.v, ShareRoute.v: router/share.rs, which sources a scoped session
      may share, and the NFS and SMB requests.
    - Iscsi.v: iscsi.rs and nasty-common/src/block_volume.rs, the data, names,
      portal planner and the pass at engine start; IscsiOps.v: the operations,
      over the kernel's configuration tree with every call failing at will.
      IscsiRemap.v, IscsiPortals.v, IscsiAcl.v (a Hoare logic for failing calls)
      and IscsiNames.v have the theorems.

    Virtual machines: Vm.v (nasty-vm/src/lib.rs: records, checks, the QEMU
    command line, the life cycle), VmProps.v (a reader of the command line),
    VmLife.v (what runs is what is stored), VmRoute.v and VmConfine.v
    (router/vm.rs: who may attach what).

    Across services (nasty-engine/src): Dependents.v, DepProps.v
    (subvolume_dependents.rs, fs_dependents.rs: what stands on a subvolume or
    filesystem), Cascade.v, CascadeProps.v, CascadeRollback.v (fs_lock.rs,
    subvol_rollback.rs: stopping and restarting it around a lock or a rollback).

    Alerts: Alerts.v, AlertProps.v (nasty-system/src/alerts.rs: rules, and
    instances that keep their acknowledgement), Stall.v, AlertEval.v,
    AlertEvalProps.v (router/mod.rs: the stall detector and one evaluation, any
    reading of which may fail).

    Apps: AppPolicy.v, ComposeProps.v (nasty-engine/src/app_deploy.rs and
    nasty-apps/src/lib.rs: names, host volumes, what a Compose file may ask for),
    Deploy.v, DeployProps.v (the same files: deploying a Compose app under a
    journal, rollback, and recovery at start).  The YAML parser, the host's files
    and Docker's answers are parameters.

    Backups (nasty-backup/src): Jobs.v (jobs.rs and the start functions of
    lib.rs, workers and monitors that may die anywhere) and Scheduler.v
    (scheduler.rs, cron translation and rounds).

    Auth.v is used by Router.v (the session and its gate), Gateway.v and Socket.v
    ([validate]); Router.v by Gateway.v and Socket.v ([handle_rpc_request]);
    Registry.v by Gateway.v; RateLimit.v ([ip_bucket]) by GuestShare.v;
    Protocol.v and Firewall.v by Service.v; Layered.v, Nm.v and DhcpRelay.v by
    NetApply.v, and the rule parser of Nft.v by RelayProps.v.  ShareRoute.v
    composes Nfs.v, Smb.v and ShareScope.v; VmRoute.v takes ShareScope.v and
    Subvol.v; Cascade.v runs the operations of Vm.v, Nfs.v, Smb.v and Subvol.v
    on what Dependents.v finds; AlertEval.v feeds Alerts.v; [deploy_compose] of
    Deploy.v begins with [validate_compose] of AppPolicy.v.

    ** How code is modelled

    An [async fn] over state behind a lock is a function on that state; where the
    code gives up its lock or awaits another task in the middle, it is split into
    steps (login in AuthInv.v, the unlock handler in GuestShare.v, workers in
    Jobs.v, the select loop in Socket.v).  Clocks, random values, and the
    outcomes of system calls and of other services are arguments, so theorems
    hold for all of them.  A failing system call has no effect, except where it is
    an [Outcome], an error reported before or after the change (nft in Firewall.v,
    which can time out after a commit, the relay's commands, NetworkManager,
    unmounting); where a sequence of calls matters (configfs, the cascades, fs.create) the calls are numbered
    and an environment says which fail, so a theorem covers every failure at
    every point.  In Deploy.v a failing write leaves any content, and the world
    keeps every state of the disk passed through: in each of them the engine may
    die.  This is the death of the process; what the disk keeps when power is
    lost is not modelled.  Programs that read what the engine writes (nft, exportfs,
    smbd, QEMU) are small parsers written after their manuals, used only in
    statements.  Third-party crates are type classes; what is assumed
    of them is a second class of documented laws ([AuthLibsOk], [JsonRpcOk],
    [CronOk]) with a concrete instance.  [u64] subtraction wraps, since the
    release profile has no overflow checks.

    ** What the theorems show

    - Authentication: every reachable state is well formed; memory and auth.json
      agree after any commit; tokens and sessions validate only for their
      address and lifetime; scoped credentials stay confined; lockouts count
      exactly the failures of the window.
    - Dispatch: a refused request has no effect, an admitted one exactly its
      handler's effects plus one audit record and event; each registered method
      is enforced with exactly its declared role; a REST call reaches a handler
      only through validation and the gate; a WebSocket keeps the privileges it
      authenticated with and closes when its session is revoked.
    - Listener changes: outside recovery Caddy and the firewall always have the
      pending or confirmed ports; only a timely confirmation changes the
      confirmed ports; ticks after the deadline restore them.
    - Firewall and services: the packets admitted are those of the configuration
      in memory, or those of a batch that took effect though nft was reported
      failed, until the next reported commit; restrictions hold; a failed change
      leaves files, memory and kernel as they were but for that case and a failed
      rollback; at boot a
      protocol opens only after its storage checks; enabling and disabling keep
      units, flags and ports together.
    - Network: a change to the management interface lasts only if confirmed, a
      rollback restores; validation accepts exactly the acyclic, consistent
      configurations; applying makes NetworkManager, if it could be read, hold
      exactly the desired profiles and spares those of others; the relay admits
      only DHCP between its networks and is off whenever it cannot be set up and
      its clean-up works.
    - Storage: creating and wiping destroy only devices that were named or
      confirmed, or partitions the request itself made on a disk it named, seen
      free after the last command; the check misses nothing of the tree lsblk
      prints, a device under several parents included.
    - Backups: one active job per profile, no job left unattended, outcomes
      final, profiles never blocked for good; a round starts exactly the
      profiles that are due.
    - Subvolumes: a rollback never loses data, whatever fails; requests of an
      owner leave what others own alone (but may create inside it, since the owner
      of what encloses a new subvolume is not checked); validated names stay below
      the mount point; a resize never shrinks, provided usage could be read or the
      recorded size is current.
    - Shares: what exportfs and smbd read back is what is stored, for paths,
      hosts and comments that are plain text to them, which validation does not
      ensure; the records a scoped session touches have paths its scope covers.
    - iSCSI: the configuration is restored at boot only with every LUN on the
      device its volume has now; a portal change ends in the requested set
      without conflicting portals on the way, for addresses in their usual
      spelling; adding an initiator never leaves an
      enabled group with an incomplete entry; accepted names give well-formed,
      case-insensitively distinct IQNs.
    - Virtual machines: QEMU's command line reads back as the record, followed by
      its raw arguments; what runs is what is stored, monitors that do not answer
      included, unless the VM was operated on meanwhile; a VM of anyone but an
      unscoped administrator opens only files and devices of the session's scope,
      unless losetup's list confuses two backing files.
    - Dependents and cascades: everything is attributed to exactly the deepest
      subvolume that holds it, devices as losetup's list is read; a filesystem is
      locked and a subvolume exchanged only when nothing on it is seen to run, and
      a lock that fails before the storage layer leaves mounts and keys alone; the
      wait for a guest ends.
    - Alerts: an occurrence keeps its identity and acknowledgement while it
      lasts, over failures and restarts, and ends only when its signal was read, or
      a successful reading no longer lists its resource, or the check is off;
      the stall detector reports exactly the stalled filesystems.
    - Apps: an accepted Compose file reaches only the app's own directory,
      /appdata and /fs and has no elevated privilege, whatever its variables
      expand to, but for the spellings listed by [unseen_mount] and
      [unseen_privilege]; a deployment happens completely or not at all, whatever
      calls fail but the removal of its own files, and however often the engine
      dies before a recovery finishes.
    - Guest shares: caps, expiry and revocation hold over any history; unlock
      attempts are bounded in every window; grants need the password.
    - Defects are exhibited by theorems of their own: a login overlapping a
      demotion keeps the old role, a login overlapping another evicts its fresh
      session by wrap-around, OIDC provisioning can take the name of an API
      token, [backup.status] misses a backup that overlaps one that ended,
      the pass at engine start removes an inherited MAC address, blanks in names
      hide nested subvolumes and mix up loop devices, the lock cascade passes
      names where identifiers are wanted, a rollback can leave shares disabled,
      removing an iSCSI initiator can open a target to everybody, several
      spellings in a Compose file evade its checks ([relative_bind_unchecked] and
      those after it), a rollback whose removals fail starts the app it was to
      remove, a batch committed after its timeout stays live unnoticed, and a VM
      whose monitor does not answer is deleted while it runs.

    ** Fuel

    Fuel appears in [strip_many] and [split_ws_bytes] (the length of the string:
    each step consumes a byte), [digits_of] (40 digits, more than [u128] needs),
    [pick_suffix] (one more than the number of users: [pick_username_total]
    proves that a free name is found), the depth-first search of Layered.v (one
    more than the number of links, proved enough by [visit_total_spec]),
    [desc_loop] of BlockDev.v (the number of edges, by [descendants_spec]), and
    [wait_loop] of Cascade.v (the polls that fit before the deadline, enough by
    [wait_loop_ends]).  [fmt_fixed] of Float64.v keeps 330 digits
    before the point, more than the 309 of the largest double.

    ** Not modelled

    Mounting, unlocking (locking and unmounting are in Cascade.v), member devices,
    scrub and fsck of filesystems; the
    iSCSI and NVMe-oF requests and NVMe-oF itself, whose subsystems live in
    configfs like iSCSI targets; the SMB user database; of apps, simple
    containers, managed networks, image pulls, the relocation of appdata, ingress
    and the firewall synchronisation that follows a deployment;
    updates, settings, directory services, metrics and notifications, which
    mostly run other programs and pass on what these answer; file endpoints and
    descriptor-based path confinement, which rest on openat2; rewriting Caddy's
    JSON; tracing and timing statistics; the WebUI and the NixOS modules, which
    are not Rust. *)

From Stdlib Require Import ZArith Lia.
From stdpp Require Import base list gmap strings.

#[global] Open Scope Z_scope.

Declare Scope nasty_scope.
Delimit Scope nasty_scope with nasty.

(** ** Fallible code

    [result A E] is Rust's [Result<A, E>]. *)

Inductive result (A E : Type) : Type :=
| Ok (a : A)
| Err (e : E).
Arguments Ok {A E} _.
Arguments Err {A E} _.

Definition result_bind {A B E} (m : result A E) (f : A -> result B E) : result B E :=
  match m with
  | Ok a => f a
  | Err e => Err e
  end.

Definition is_ok {A E} (m : result A E) : bool :=
  match m with Ok _ => true | Err _ => false end.

(** [x <-? m ;; k] is [let x = m?; k]. *)
Notation "x '<-?' m ';;' k" := (result_bind m (fun x => k))
  (at level 100, m at next level, right associativity) : nasty_scope.
Notation "'guard?' b 'else' e ';;' k" := (if b then k else Err e)
  (at level 100, b at level 99, e at level 99, k at level 200, right associativity) : nasty_scope.
#[global] Open Scope nasty_scope.

Lemma result_bind_ok {A B E} (m : result A E) (f : A -> result B E) b :
  result_bind m f = Ok b <-> exists a, m = Ok a /\ f a = Ok b.
Proof. destruct m; simpl; naive_solver. Qed.

(** The outcome of a call to another program or service: done, or an error
    reported before ([false]) or after ([true]) the change took effect. *)
Inductive Outcome : Type := Done | Failed (applied : bool) (e : string).

(** ** Stateful fallible code

    [stm S E A] is an [async fn(&self, ..) -> Result<A, E>] over the state [S]
    its service guards with a lock: an error keeps the state changes made
    before it. *)

Definition stm (S E A : Type) : Type := S -> S * result A E.

Section stm.
Context {S E : Type}.
Definition m_ret {A} (a : A) : stm S E A := fun s => (s, Ok a).
Definition m_throw {A} (e : E) : stm S E A := fun s => (s, Err e).
Definition m_bind {A B} (m : stm S E A) (k : A -> stm S E B) : stm S E B :=
  fun s => match m s with
           | (s', Ok a) => k a s'
           | (s', Err e) => (s', Err e)
           end.
Definition m_get : stm S E S := fun s => (s, Ok s).
Definition m_modify (f : S -> S) : stm S E unit := fun s => (f s, Ok tt).
(** [r?] for a [Result] computed without touching the state. *)
Definition m_lift {A} (r : result A E) : stm S E A := fun s => (s, r).
(** [m.await.ok()]: run [m] and drop its outcome. *)
Definition m_ignore {A} (m : stm S E A) : stm S E unit := fun s => (fst (m s), Ok tt).
(** [match m { Ok(a) => a, Err(e) => h(e) }] *)
Definition m_catch {A} (m : stm S E A) (h : E -> stm S E A) : stm S E A :=
  fun s => match m s with (s', Ok a) => (s', Ok a) | (s', Err e) => h e s' end.
End stm.

Notation "x '<~' m ';;' k" := (m_bind m (fun x => k))
  (at level 100, m at next level, right associativity) : nasty_scope.
Notation "m ';;;' k" := (m_bind m (fun _ => k))
  (at level 100, right associativity) : nasty_scope.

Definition is_some {A} (o : option A) : bool :=
  match o with Some _ => true | None => false end.

Definition ok_or {A E} (o : option A) (e : E) : result A E :=
  match o with Some a => Ok a | None => Err e end.

(** *** Invariants of stateful code

    [keeps I m Q]: [m] preserves the invariant [I] on every path, errors
    included, and a value it returns satisfies [Q]. *)

Definition keeps {S E A} (I : S -> Prop) (m : stm S E A) (Q : A -> Prop) : Prop :=
  forall s, I s -> I (fst (m s)) /\ match snd (m s) with Ok a => Q a | Err _ => True end.

Section keeps.
Context {S E : Type} (I : S -> Prop).

Lemma keeps_bind {A B} (m : stm S E A) (k : A -> stm S E B) Q R :
  keeps I m Q -> (forall a, Q a -> keeps I (k a) R) -> keeps I (m_bind m k) R.
Proof.
  intros Hm Hk s Hs. destruct (Hm s Hs) as [HI HQ]. unfold m_bind.
  destruct (m s) as [s' [a|e]]; simpl in *; [by apply Hk|done].
Qed.

Lemma keeps_ret {A} (a : A) (Q : A -> Prop) : Q a -> keeps I (m_ret (E:=E) a) Q.
Proof. by intros ? s. Qed.

Lemma keeps_throw {A} (e : E) (Q : A -> Prop) : keeps I (m_throw e) Q.
Proof. by intros s. Qed.

Lemma keeps_lift {A} (r : result A E) : keeps I (m_lift r) (fun a => r = Ok a).
Proof. intros s. unfold m_lift. simpl. destruct r; done. Qed.

Lemma keeps_ignore {A} (m : stm S E A) Q : keeps I m Q -> keeps I (m_ignore m) (fun _ => True).
Proof. intros H s Hs. split; [by apply H|done]. Qed.

Lemma keeps_weaken {A} (m : stm S E A) (Q Q' : A -> Prop) :
  keeps I m Q -> (forall a, Q a -> Q' a) -> keeps I m Q'.
Proof.
  intros Hm HQ s Hs. destruct (Hm s Hs) as [? H]. split; [done|].
  destruct (snd (m s)); auto.
Qed.
End keeps.

(** ** Fixed-width unsigned integers

    A [u64] is a [Z] in [0, 2^64).  The engine is built in the release profile
    with no [overflow-checks], so [-] and [+] wrap. *)

Definition u64_modulus : Z := 2 ^ 64.
Definition u64_range (x : Z) : Prop := 0 <= x < u64_modulus.
Definition u64_add (x y : Z) : Z := (x + y) mod u64_modulus.
Definition u64_sub (x y : Z) : Z := (x - y) mod u64_modulus.
Definition u64_saturating_sub (x y : Z) : Z := Z.max 0 (x - y).

Lemma u64_sub_le x y : 0 <= y <= x -> x < u64_modulus -> u64_sub x y = x - y.
Proof. intros. unfold u64_sub. apply Z.mod_small. lia. Qed.

Lemma u64_sub_gt x y :
  0 <= x < y -> y < u64_modulus -> u64_sub x y = u64_modulus + x - y.
Proof.
  intros. unfold u64_sub.
  rewrite <- (Z.mod_add _ 1) by (unfold u64_modulus; lia).
  rewrite Z.mod_small; lia.
Qed.

Lemma u64_sub_range x y : u64_range (u64_sub x y).
Proof. unfold u64_range, u64_sub. apply Z.mod_pos_bound. reflexivity. Qed.

(** ** Strings

    A Rust [String] is its UTF-8 bytes, one [ascii] per byte. *)

Definition str_eqb (a b : string) : bool := String.eqb a b.

Definition one_of (ms : list string) (m : string) : bool :=
  existsb (String.eqb m) ms.

Lemma one_of_spec ms m : one_of ms m = true <-> m ∈ ms.
Proof.
  unfold one_of. rewrite existsb_exists, list_elem_of_In.
  split; [intros (x & Hx & ->%String.eqb_eq); done|].
  intros H. exists m. split; [done|apply String.eqb_refl].
Qed.

(** ** Vectors: [retain], [iter().find], [iter_mut().find] *)

Definition retain {A} (p : A -> bool) (l : list A) : list A := List.filter p l.

Fixpoint find_first {A} (p : A -> bool) (l : list A) : option A :=
  match l with
  | [] => None
  | x :: l' => if p x then Some x else find_first p l'
  end.

(** [iter().find_map(f)] *)
Fixpoint find_map {A B} (f : A -> option B) (l : list A) : option B :=
  match l with
  | [] => None
  | x :: l' => match f x with Some r => Some r | None => find_map f l' end
  end.

(** [for x in l { check(x)?; }] *)
Fixpoint try_each {A E} (check : A -> result unit E) (l : list A) : result unit E :=
  match l with
  | [] => Ok tt
  | x :: rest => match check x with Ok _ => try_each check rest | Err e => Err e end
  end.

(** [iter_mut().find(p)] followed by a mutation [f] of the element found;
    [None] when nothing matches. *)
Fixpoint update_first {A} (p : A -> bool) (f : A -> A) (l : list A) : option (list A) :=
  match l with
  | [] => None
  | x :: l' =>
      if p x then Some (f x :: l')
      else match update_first p f l' with
           | Some l'' => Some (x :: l'')
           | None => None
           end
  end.

Lemma elem_of_retain {A} (p : A -> bool) l x : x ∈ retain p l <-> x ∈ l /\ p x = true.
Proof. unfold retain. rewrite !list_elem_of_In. apply filter_In. Qed.

Lemma retain_sublist {A} (p : A -> bool) l : sublist (retain p l) l.
Proof.
  induction l as [|x l IH]; simpl; [constructor|].
  destruct (p x); by constructor.
Qed.

Lemma retain_length_le {A} (p : A -> bool) l : (length (retain p l) <= length l)%nat.
Proof. apply sublist_length, retain_sublist. Qed.

Lemma retain_length_eq {A} (p : A -> bool) l :
  length (retain p l) = length l -> retain p l = l.
Proof.
  induction l as [|x l IH]; simpl; [done|]. pose proof (retain_length_le p l).
  destruct (p x); simpl; [intros; f_equal; apply IH; lia|lia].
Qed.

Lemma retain_all {A} (p : A -> bool) l : (forall x, x ∈ l -> p x = true) -> retain p l = l.
Proof.
  induction l as [|x l IH]; simpl; [done|]. intros H.
  rewrite (H x) by set_solver. f_equal. apply IH. set_solver.
Qed.

Lemma retain_idemp {A} (p : A -> bool) l : retain p (retain p l) = retain p l.
Proof. apply retain_all. intros x Hx%elem_of_retain. tauto. Qed.

Lemma NoDup_map_retain {A B} (f : A -> B) (p : A -> bool) l :
  NoDup (f <$> l) -> NoDup (f <$> retain p l).
Proof.
  intros H. eapply sublist_NoDup; [exact H|].
  apply fmap_sublist, retain_sublist.
Qed.

Lemma Forall_retain {A} (P : A -> Prop) (p : A -> bool) l :
  Forall P l -> Forall P (retain p l).
Proof. rewrite !Forall_forall. intros H x Hx%elem_of_retain. naive_solver. Qed.

Lemma find_first_Some {A} (p : A -> bool) l x :
  find_first p l = Some x -> x ∈ l /\ p x = true.
Proof.
  induction l as [|y l IH]; simpl; [done|].
  destruct (p y) eqn:E; intros H; simplify_eq; set_solver.
Qed.

Lemma find_first_None {A} (p : A -> bool) l :
  find_first p l = None <-> forall x, x ∈ l -> p x = false.
Proof.
  induction l as [|y l IH]; simpl; [set_solver|].
  destruct (p y) eqn:E.
  - split; [done|]. intros H. rewrite H in E; set_solver.
  - rewrite IH. set_solver.
Qed.

Lemma find_map_None {A B} (f : A -> option B) l :
  find_map f l = None <-> forall x, x ∈ l -> f x = None.
Proof.
  induction l as [|y l IH]; simpl; [set_solver|].
  destruct (f y) eqn:E; [|set_solver]. split; [done|]. intros H. rewrite H in E; set_solver.
Qed.

Lemma try_each_spec {A E} (check : A -> result unit E) l :
  try_each check l = Ok tt <-> forall x, x ∈ l -> check x = Ok tt.
Proof.
  induction l as [|x l IH]; cbn.
  { split; [by intros _ x ?%elem_of_nil|done]. }
  destruct (check x) as [[]|e] eqn:Hx.
  - rewrite IH. split.
    + intros H y [->|Hy]%elem_of_cons; auto.
    + intros H y Hy. apply H. by right.
  - split; [done|]. intros H. specialize (H x ltac:(left)). congruence.
Qed.

Lemma update_first_Some {A} (p : A -> bool) f l l' :
  update_first p f l = Some l' ->
  exists l1 x l2, l = l1 ++ x :: l2 /\ l' = l1 ++ f x :: l2 /\ p x = true /\
    find_first p l = Some x.
Proof.
  revert l'. induction l as [|y l IH]; simpl; [done|]. intros l'.
  destruct (p y) eqn:E.
  - intros [= <-]. by exists [], y, l.
  - destruct (update_first p f l) as [l''|]; [|done]. intros [= <-].
    destruct (IH _ eq_refl) as (l1 & x & l2 & -> & -> & Hp & Hf).
    exists (y :: l1), x, l2. done.
Qed.

Lemma update_first_None {A} (p : A -> bool) f l :
  update_first p f l = None <-> find_first p l = None.
Proof.
  induction l as [|y l IH]; simpl; [done|].
  destruct (p y); [naive_solver|]. destruct (update_first p f l); naive_solver.
Qed.

Lemma NoDup_update_first {A B} (g : A -> B) (p : A -> bool) f l l' :
  (forall x, g (f x) = g x) ->
  update_first p f l = Some l' -> g <$> l' = g <$> l.
Proof.
  intros Hg (l1 & x & l2 & -> & -> & _)%update_first_Some.
  rewrite !fmap_app, !fmap_cons, Hg. done.
Qed.

Lemma Forall_update_first {A} (P : A -> Prop) (p : A -> bool) f l l' :
  (forall x, x ∈ l -> p x = true -> P x -> P (f x)) ->
  Forall P l -> update_first p f l = Some l' -> Forall P l'.
Proof.
  intros Hf HP (l1 & x & l2 & -> & -> & Hp & _)%update_first_Some.
  rewrite Forall_app, Forall_cons in *. destruct HP as (? & ? & ?).
  split_and!; auto. apply Hf; set_solver.
Qed.

Lemma elem_of_insert_inv {A} (l : list A) i x y : x ∈ <[i := y]> l -> x = y \/ x ∈ l.
Proof.
  revert i. induction l as [|z l IH]; intros [|i]; simpl; try set_solver.
Qed.

Lemma existsb_false_elem {A} (p : A -> bool) l :
  existsb p l = false <-> forall x, x ∈ l -> p x = false.
Proof.
  induction l as [|y l IH]; simpl; [set_solver|].
  rewrite orb_false_iff, IH. set_solver.
Qed.

Lemma existsb_true_elem {A} (p : A -> bool) l :
  existsb p l = true <-> exists x, x ∈ l /\ p x = true.
Proof. rewrite existsb_exists. by setoid_rewrite list_elem_of_In. Qed.

(** ** Automation *)

(** Keep comparisons folded: the proofs case on them. *)
#[global] Arguments Nat.leb : simpl never.
#[global] Arguments Nat.ltb : simpl never.
#[global] Arguments Z.leb : simpl never.
#[global] Arguments Z.ltb : simpl never.

Create HintDb nasty.
#[export] Hint Resolve NoDup_map_retain Forall_retain u64_sub_range : nasty.

(** Split every boolean connective and comparison in the hypotheses. *)
Ltac bool_hyps :=
  repeat match goal with
  | H : _ && _ = true |- _ => apply andb_true_iff in H as [? ?]
  | H : _ || _ = false |- _ => apply orb_false_iff in H as [? ?]
  | H : negb _ = true |- _ => apply negb_true_iff in H
  | H : negb _ = false |- _ => apply negb_false_iff in H
  | H : String.eqb _ _ = true |- _ => apply String.eqb_eq in H
  | H : String.eqb _ _ = false |- _ => apply String.eqb_neq in H
  | H : Z.leb _ _ = true |- _ => apply Z.leb_le in H
  | H : Z.leb _ _ = false |- _ => apply Z.leb_gt in H
  | H : Z.ltb _ _ = true |- _ => apply Z.ltb_lt in H
  | H : Z.ltb _ _ = false |- _ => apply Z.ltb_ge in H
  | H : Z.eqb _ _ = true |- _ => apply Z.eqb_eq in H
  | H : Z.eqb _ _ = false |- _ => apply Z.eqb_neq in H
  | H : Nat.leb _ _ = true |- _ => apply Nat.leb_le in H
  | H : Nat.leb _ _ = false |- _ => apply Nat.leb_gt in H
  | H : Nat.ltb _ _ = true |- _ => apply Nat.ltb_lt in H
  | H : Nat.ltb _ _ = false |- _ => apply Nat.ltb_ge in H
  | H : Nat.eqb _ _ = true |- _ => apply Nat.eqb_eq in H
  | H : Nat.eqb _ _ = false |- _ => apply Nat.eqb_neq in H
  | H : existsb _ _ = false |- _ => rewrite existsb_false_elem in H
  | H : existsb _ _ = true |- _ => rewrite existsb_true_elem in H
  end.

(** Case on the scrutinee of every [if] and [match] of a hypothesis, closing
    the branches it contradicts. *)
Ltac break_in H :=
  repeat (match type of H with
  | context [match ?x with _ => _ end] => destruct x eqn:?
  end; simplify_eq/=; try done).
