(* ===== verification/RustStr.v ===== *)
(** * The string functions of the Rust standard library the engine uses

    Every function works on the UTF-8 bytes of the string.  Where the engine
    compares with ASCII patterns the byte view and the [char] view agree,
    because no byte of a multi-byte UTF-8 sequence is below 128. *)

From Stdlib Require Import ZArith Lia Ascii String.
From stdpp Require Import base list sets strings.
From S2P Require Import Prelude.

Abbreviation bytes := (list ascii).

Definition to_bytes (s : string) : bytes := list_ascii_of_string s.
Definition of_bytes (l : bytes) : string := string_of_list_ascii l.

Definition code (c : ascii) : Z := Z.of_N (N_of_ascii c).
Definition chr (z : Z) : ascii := ascii_of_N (Z.to_N z).

Lemma of_to_bytes s : of_bytes (to_bytes s) = s.
Proof. apply string_of_list_ascii_of_string. Qed.

Lemma to_of_bytes l : to_bytes (of_bytes l) = l.
Proof. apply list_ascii_of_string_of_list_ascii. Qed.

Lemma to_bytes_inj s t : to_bytes s = to_bytes t -> s = t.
Proof. intros H. by rewrite <- (of_to_bytes s), H, of_to_bytes. Qed.

Lemma of_bytes_inj s t : of_bytes s = of_bytes t -> s = t.
Proof. intros H. by rewrite <- (to_of_bytes s), H, to_of_bytes. Qed.

Lemma to_bytes_app s t : to_bytes (s +:+ t) = to_bytes s ++ to_bytes t.
Proof. induction s as [|c s IH]; simpl; [done|]. unfold to_bytes in *. by rewrite IH. Qed.

Lemma of_bytes_app s t : of_bytes (s ++ t) = of_bytes s +:+ of_bytes t.
Proof. apply to_bytes_inj. by rewrite to_bytes_app, !to_of_bytes. Qed.

(** ** Character classes ([char::is_ascii_*]) *)

Definition in_range (lo hi : Z) (c : ascii) : bool := (lo <=? code c) && (code c <=? hi).
Definition is_ascii_digit (c : ascii) : bool := in_range 48 57 c.
Definition is_ascii_lowercase (c : ascii) : bool := in_range 97 122 c.
Definition is_ascii_uppercase (c : ascii) : bool := in_range 65 90 c.
Definition is_ascii_alphabetic (c : ascii) : bool :=
  is_ascii_lowercase c || is_ascii_uppercase c.
Definition is_ascii_alphanumeric (c : ascii) : bool :=
  is_ascii_alphabetic c || is_ascii_digit c.
Definition is_ascii_hexdigit (c : ascii) : bool :=
  is_ascii_digit c || in_range 97 102 c || in_range 65 70 c.

Definition to_ascii_lowercase_char (c : ascii) : ascii :=
  if is_ascii_uppercase c then chr (code c + 32) else c.
Definition to_ascii_lowercase (s : string) : string :=
  of_bytes (to_ascii_lowercase_char <$> to_bytes s).

(** ** Prefixes, suffixes and substrings *)

Fixpoint bytes_prefix (p l : bytes) : option bytes :=
  match p, l with
  | [], _ => Some l
  | c :: p', d :: l' => if Ascii.eqb c d then bytes_prefix p' l' else None
  | _ :: _, [] => None
  end.

Definition strip_prefix (p s : string) : option string :=
  of_bytes <$> bytes_prefix (to_bytes p) (to_bytes s).
Definition strip_suffix (p s : string) : option string :=
  option_map (fun l => of_bytes (rev l)) (bytes_prefix (rev (to_bytes p)) (rev (to_bytes s))).
Definition starts_with (p s : string) : bool :=
  match bytes_prefix (to_bytes p) (to_bytes s) with Some _ => true | None => false end.
Definition ends_with (p s : string) : bool :=
  match bytes_prefix (rev (to_bytes p)) (rev (to_bytes s)) with Some _ => true | None => false end.

Definition str_contains_char (c : ascii) (s : string) : bool :=
  existsb (Ascii.eqb c) (to_bytes s).

(** [str::contains(pat)] for a string pattern. *)
Fixpoint bytes_contains (p l : bytes) : bool :=
  match bytes_prefix p l with
  | Some _ => true
  | None => match l with [] => false | _ :: l' => bytes_contains p l' end
  end.
Definition str_contains (p s : string) : bool := bytes_contains (to_bytes p) (to_bytes s).

(** [str::replace(c, d)] for single ASCII characters. *)
Definition replace_byte (c d : ascii) (l : bytes) : bytes :=
  (fun x => if Ascii.eqb x c then d else x) <$> l.
Definition str_replace_char (c d : ascii) (s : string) : string :=
  of_bytes (replace_byte c d (to_bytes s)).

(** [str::split(c)] for a single ASCII character: always at least one piece. *)
Fixpoint split_bytes (c : ascii) (l : bytes) : list bytes :=
  match l with
  | [] => [[]]
  | d :: l' =>
      if Ascii.eqb c d then [] :: split_bytes c l'
      else match split_bytes c l' with
           | [] => [[d]]
           | p :: ps => (d :: p) :: ps
           end
  end.
Definition str_split (c : ascii) (s : string) : list string :=
  of_bytes <$> split_bytes c (to_bytes s).

(** [str::split_once(c)]. *)
Fixpoint split_once_bytes (c : ascii) (l : bytes) : option (bytes * bytes) :=
  match l with
  | [] => None
  | d :: l' =>
      if Ascii.eqb c d then Some ([], l')
      else match split_once_bytes c l' with
           | Some (a, b) => Some (d :: a, b)
           | None => None
           end
  end.
Definition split_once (c : ascii) (s : string) : option (string * string) :=
  match split_once_bytes c (to_bytes s) with
  | Some (a, b) => Some (of_bytes a, of_bytes b)
  | None => None
  end.

(** [iter.collect::<Vec<_>>().join(sep)]. *)
Fixpoint join_bytes (sep : bytes) (ls : list bytes) : bytes :=
  match ls with
  | [] => []
  | [l] => l
  | l :: ls' => l ++ sep ++ join_bytes sep ls'
  end.
Definition str_join (sep : string) (ls : list string) : string :=
  of_bytes (join_bytes (to_bytes sep) (to_bytes <$> ls)).

(** ** [str::trim]

    [trim] removes the characters with the Unicode property [White_Space]:
    U+0009-000D, U+0020, U+0085, U+00A0, U+1680, U+2000-200A, U+2028, U+2029,
    U+202F, U+205F and U+3000, here as their UTF-8 encodings. *)

Definition ws_encodings : list bytes :=
  List.map (List.map chr)
  ([[9]; [10]; [11]; [12]; [13]; [32]; [194; 133]; [194; 160]; [225; 154; 128];
    [226; 128; 128]; [226; 128; 129]; [226; 128; 130]; [226; 128; 131]; [226; 128; 132];
    [226; 128; 133]; [226; 128; 134]; [226; 128; 135]; [226; 128; 136]; [226; 128; 137];
    [226; 128; 138]; [226; 128; 168]; [226; 128; 169]; [226; 128; 175]; [226; 129; 159];
    [227; 128; 128]] : list (list Z)).

Definition strip_one (pats : list bytes) (l : bytes) : option bytes :=
  fold_right (fun p acc => match bytes_prefix p l with Some r => Some r | None => acc end)
    None pats.

(** Fuel [length l] is enough: every step drops at least one byte. *)
Fixpoint strip_many (fuel : nat) (pats : list bytes) (l : bytes) : bytes :=
  match fuel with
  | O => l
  | S n => match strip_one pats l with
           | Some r => strip_many n pats r
           | None => l
           end
  end.

Definition trim_start_bytes (l : bytes) : bytes := strip_many (length l) ws_encodings l.
Definition trim_end_bytes (l : bytes) : bytes :=
  rev (strip_many (length l) (List.map (@rev ascii) ws_encodings) (rev l)).
Definition trim (s : string) : string :=
  of_bytes (trim_end_bytes (trim_start_bytes (to_bytes s))).

(** [str::split_whitespace]: the non-empty pieces between white space.  [cur] is
    the piece being read, reversed; fuel [length l] is enough because every step
    consumes at least one byte. *)
Definition push_piece (cur : bytes) (pieces : list bytes) : list bytes :=
  match cur with [] => pieces | _ => rev cur :: pieces end.

Fixpoint split_ws_bytes (fuel : nat) (cur l : bytes) : list bytes :=
  match fuel, l with
  | S n, c :: l' =>
      match strip_one ws_encodings l with
      | Some r => push_piece cur (split_ws_bytes n [] r)
      | None => split_ws_bytes n (c :: cur) l'
      end
  | _, _ => push_piece cur []
  end.

Definition split_whitespace (s : string) : list string :=
  of_bytes <$> split_ws_bytes (length (to_bytes s)) [] (to_bytes s).

Example split_whitespace_ex :
  split_whitespace " 0  3 * *	1-5 " = ["0"; "3"; "*"; "*"; "1-5"].
Proof. vm_compute. reflexivity. Qed.

(** ** [char]s

    A [char] is its UTF-8 encoding.  A byte below 128 is a character; any other
    byte goes with the continuation bytes after it. *)

Definition is_continuation (c : ascii) : bool := in_range 128 191 c.

Fixpoint chars_bytes (l : bytes) : list bytes :=
  match l with
  | [] => []
  | c :: l' =>
      let cs := chars_bytes l' in
      if code c <? 128 then [c] :: cs
      else match cs with
           | (d :: g) :: rest => if is_continuation d then (c :: d :: g) :: rest else [c] :: cs
           | _ => [c] :: cs
           end
  end.

Definition chars (s : string) : list bytes := chars_bytes (to_bytes s).
Definition of_chars (cs : list bytes) : string := of_bytes (mjoin cs).

(** [char::is_control]: U+0000-001F and U+007F-009F. *)
Definition is_control (ch : bytes) : bool :=
  match ch with
  | [c] => (code c <? 32) || (code c =? 127)
  | [c; d] => (code c =? 194) && in_range 128 159 d
  | _ => false
  end.

Definition is_whitespace (ch : bytes) : bool := bool_decide (ch ∈ ws_encodings).

(** A test of single bytes, on characters. *)
Definition one_byte (P : ascii -> bool) (ch : bytes) : bool :=
  match ch with [c] => P c | _ => false end.

Definition eq_ignore_ascii_case (s t : string) : bool :=
  String.eqb (to_ascii_lowercase s) (to_ascii_lowercase t).

Lemma chars_concat l : mjoin (chars_bytes l) = l.
Proof.
  induction l as [|c l IH]; [done|]. cbn. destruct (code c <? 128); [by rewrite <- IH at 2|].
  destruct (chars_bytes l) as [|[|d g] rest]; [by rewrite <- IH|by rewrite <- IH|].
  destruct (is_continuation d); by rewrite <- IH.
Qed.

Lemma of_chars_chars s : of_chars (chars s) = s.
Proof. unfold of_chars, chars. by rewrite chars_concat, of_to_bytes. Qed.

(** Every ASCII byte is a character of its own. *)
Lemma chars_ascii l c : c ∈ l -> code c < 128 -> [c] ∈ chars_bytes l.
Proof.
  induction l as [|d l IH]; [by intros ?%elem_of_nil|]. intros [->|Hin]%elem_of_cons Hc; cbn.
  - replace (code d <? 128) with true by lia. by left.
  - specialize (IH Hin Hc). destruct (code d <? 128); [by right|].
    destruct (chars_bytes l) as [|[|e g] rest]; [by apply elem_of_nil in IH|by right|].
    destruct (is_continuation e) eqn:Ee; [|by right].
    apply elem_of_cons in IH as [[= -> ->]|IH]; [|by right].
    unfold is_continuation, in_range in Ee. lia.
Qed.

(** A string all of whose characters fail a test has no byte that passes it. *)
Lemma no_ascii_char (P : bytes -> bool) s c :
  existsb P (chars s) = false -> P [c] = true -> code c < 128 -> c ∉ to_bytes s.
Proof.
  intros HP Hc Hlt Hin. apply (chars_ascii _ _ Hin), list_elem_of_In in Hlt.
  assert (existsb P (chars s) = true); [|congruence]. apply existsb_exists. by exists [c].
Qed.

(** ** Decimal and hexadecimal numbers *)

Definition digit_value (c : ascii) : Z :=
  if is_ascii_digit c then code c - 48
  else if in_range 97 102 c then code c - 87
  else code c - 55.

(** [char::to_digit(radix)] for radix 10 and 16. *)
Definition to_digit (radix : Z) (c : ascii) : option Z :=
  if is_ascii_hexdigit c && (digit_value c <? radix) then Some (digit_value c) else None.

Fixpoint parse_digits (radix acc : Z) (l : bytes) : option Z :=
  match l with
  | [] => Some acc
  | c :: l' => match to_digit radix c with
               | Some d => parse_digits radix (acc * radix + d) l'
               | None => None
               end
  end.

(** [str::parse::<uN>()]: an optional ['+'], then at least one decimal digit;
    [None] on overflow of [max]. *)
Definition parse_uint (max : Z) (s : string) : option Z :=
  let l := to_bytes s in
  let ds := match l with
            | c :: (_ :: _) as l' => if Ascii.eqb c "+" then tail l else l
            | _ => l
            end in
  match ds with
  | [] => None
  | _ => match parse_digits 10 0 ds with
         | Some v => if v <=? max then Some v else None
         | None => None
         end
  end.

Definition digit_char (d : Z) : ascii := if d <? 10 then chr (48 + d) else chr (87 + d).

(** Most significant digit first; [fuel] digits suffice for [n < radix ^ fuel]. *)
Fixpoint digits_of (fuel : nat) (radix n : Z) : bytes :=
  match fuel with
  | O => []
  | S k => if n <? radix then [digit_char n]
           else digits_of k radix (n / radix) ++ [digit_char (n mod radix)]
  end.

(** [format!("{n}")] and [format!("{n:x}")] of an unsigned integer below [2^128]. *)
Definition fmt_dec (n : Z) : string := of_bytes (digits_of 40 10 n).
Definition fmt_hex (n : Z) : string := of_bytes (digits_of 40 16 n).

(** ** Lemmas *)

Lemma bytes_prefix_Some p l r : bytes_prefix p l = Some r <-> l = p ++ r.
Proof.
  revert l. induction p as [|c p IH]; intros [|d l]; simpl; try naive_solver.
  destruct (Ascii.eqb_spec c d) as [->|Hne]; [rewrite IH|]; naive_solver.
Qed.

Lemma bytes_prefix_refl p r : bytes_prefix p (p ++ r) = Some r.
Proof. by apply bytes_prefix_Some. Qed.

Lemma starts_with_spec p s : starts_with p s = true <-> exists r, s = p +:+ r.
Proof.
  unfold starts_with. destruct (bytes_prefix _ _) as [r|] eqn:E.
  - split; [intros _|done]. apply bytes_prefix_Some in E. exists (of_bytes r).
    apply to_bytes_inj. by rewrite to_bytes_app, to_of_bytes.
  - split; [done|]. intros [r ->]. rewrite to_bytes_app, bytes_prefix_refl in E. done.
Qed.

(** Replacing [c] by [d] and back is the identity where [d] does not occur. *)
Lemma replace_byte_back c d l : d ∉ l -> replace_byte d c (replace_byte c d l) = l.
Proof.
  unfold replace_byte. induction l as [|x l IH]; intros Hl; [done|]. rewrite !fmap_cons.
  rewrite IH by set_solver. f_equal.
  destruct (Ascii.eqb_spec x c) as [->|]; [by rewrite Ascii.eqb_refl|].
  destruct (Ascii.eqb_spec x d); [set_solver|done].
Qed.

Lemma str_replace_char_back c d s :
  d ∉ to_bytes s -> str_replace_char d c (str_replace_char c d s) = s.
Proof.
  intros H. unfold str_replace_char. rewrite to_of_bytes, replace_byte_back by done.
  apply of_to_bytes.
Qed.

Lemma strip_prefix_app p r : strip_prefix p (p +:+ r) = Some r.
Proof. unfold strip_prefix. rewrite to_bytes_app, bytes_prefix_refl. simpl. by rewrite of_to_bytes. Qed.

Lemma split_bytes_nonempty c l : split_bytes c l <> [].
Proof. destruct l; simpl; [done|]. case_match; [done|]. by case_match. Qed.

(** Splitting at [c] and joining with [c] gives the input back. *)
Lemma join_split_bytes c l : join_bytes [c] (split_bytes c l) = l.
Proof.
  induction l as [|d l IH]; simpl; [done|].
  pose proof (split_bytes_nonempty c l) as Hne.
  destruct (Ascii.eqb_spec c d) as [->|Hcd].
  - destruct (split_bytes d l) as [|p ps] eqn:E; [done|]. simpl in *. by rewrite IH.
  - destruct (split_bytes c l) as [|p ps]; [done|].
    destruct ps; simpl in *; by rewrite <- IH.
Qed.

Lemma split_bytes_no_sep c l p : p ∈ split_bytes c l -> c ∉ p.
Proof.
  revert p. induction l as [|d l IH]; simpl; intros p.
  { intros ->%list_elem_of_singleton. apply not_elem_of_nil. }
  destruct (Ascii.eqb_spec c d) as [->|Hcd].
  - intros [->|?]%elem_of_cons; [apply not_elem_of_nil|auto].
  - destruct (split_bytes c l) as [|q qs].
    { intros ->%list_elem_of_singleton. set_solver. }
    intros [->|?]%elem_of_cons; [|apply IH; set_solver].
    intros [?|?]%elem_of_cons; [done|]. eapply IH; set_solver.
Qed.

Lemma split_bytes_no_sep_id c l : c ∉ l -> split_bytes c l = [l].
Proof.
  induction l as [|d l IH]; simpl; [done|]. intros Hl.
  destruct (Ascii.eqb_spec c d); [set_solver|]. rewrite IH by set_solver. done.
Qed.

Lemma split_bytes_app c l r : c ∉ l -> split_bytes c (l ++ c :: r) = l :: split_bytes c r.
Proof.
  induction l as [|d l IH]; simpl; intros Hl; [by rewrite Ascii.eqb_refl|].
  destruct (Ascii.eqb_spec c d); [set_solver|]. rewrite IH by set_solver. done.
Qed.

(** Joining pieces free of [c] and splitting again gives the pieces back. *)
Lemma split_join_bytes c ls :
  ls <> [] -> Forall (fun p => c ∉ p) ls -> split_bytes c (join_bytes [c] ls) = ls.
Proof.
  intros Hne HF. induction HF as [|l ls Hl HF IH]; [done|].
  destruct ls as [|l2 ls]; [by apply split_bytes_no_sep_id|].
  change (join_bytes [c] (l :: l2 :: ls)) with (l ++ c :: join_bytes [c] (l2 :: ls)).
  rewrite split_bytes_app by done. by rewrite IH.
Qed.

Lemma split_once_bytes_spec c l :
  match split_once_bytes c l with
  | Some (a, b) => l = a ++ c :: b /\ c ∉ a
  | None => c ∉ l
  end.
Proof.
  induction l as [|d l IH]; simpl; [set_solver|].
  destruct (Ascii.eqb_spec c d) as [->|Hcd]; [set_solver|].
  destruct (split_once_bytes c l) as [[a b]|]; [|set_solver].
  destruct IH as [-> ?]. split; [done|set_solver].
Qed.

Lemma code_range c : 0 <= code c < 256.
Proof. unfold code. pose proof (N_ascii_bounded c). lia. Qed.

Lemma code_chr z : 0 <= z < 256 -> code (chr z) = z.
Proof. intros. unfold code, chr. rewrite N_ascii_embedding; lia. Qed.

Lemma chr_code c : chr (code c) = c.
Proof. unfold code, chr. by rewrite N2Z.id, ascii_N_embedding. Qed.

Lemma parse_digits_app radix acc l1 l2 :
  parse_digits radix acc (l1 ++ l2) =
  match parse_digits radix acc l1 with
  | Some a => parse_digits radix a l2
  | None => None
  end.
Proof.
  revert acc. induction l1 as [|c l1 IH]; intros acc; simpl; [done|].
  destruct (to_digit radix c); [apply IH|done].
Qed.

Lemma to_digit_digit_char radix d :
  0 <= d < radix -> radix <= 16 -> to_digit radix (digit_char d) = Some d.
Proof.
  intros Hd Hr. unfold digit_char.
  assert (to_digit radix (if d <? 10 then chr (48 + d) else chr (87 + d)) =
    if d <? radix then Some d else None) as ->.
  { unfold to_digit, is_ascii_hexdigit, is_ascii_digit, digit_value, is_ascii_digit, in_range.
    destruct (Z.ltb_spec d 10).
    - rewrite code_chr by lia.
      replace ((48 <=? 48 + d) && (48 + d <=? 57)) with true by lia. simpl.
      by replace (48 + d - 48) with d by lia.
    - rewrite code_chr by lia.
      replace ((48 <=? 87 + d) && (87 + d <=? 57)) with false by lia. simpl.
      replace ((97 <=? 87 + d) && (87 + d <=? 102)) with true by lia. simpl.
      by replace (87 + d - 87) with d by lia. }
  by replace (d <? radix) with true by lia.
Qed.

Lemma to_digit_range radix c d : to_digit radix c = Some d -> 0 <= d < radix.
Proof.
  unfold to_digit, is_ascii_hexdigit, digit_value, is_ascii_digit, in_range.
  pose proof (code_range c).
  repeat case_match; intros [= <-]; lia.
Qed.

Lemma parse_digits_nonneg radix acc l v :
  0 <= radix -> 0 <= acc -> parse_digits radix acc l = Some v -> 0 <= v.
Proof.
  intros Hr. revert acc. induction l as [|c l IH]; intros acc Ha; cbn; [by intros [= <-]|].
  destruct (to_digit radix c) as [d|] eqn:E; [|done]. apply to_digit_range in E. apply IH. nia.
Qed.

Lemma parse_uint_range max s v : parse_uint max s = Some v -> 0 <= v <= max.
Proof.
  unfold parse_uint. destruct (match to_bytes s with [] => _ | _ :: _ => _ end) as [|c l]; [done|].
  destruct (parse_digits 10 0 (c :: l)) as [u|] eqn:E; [|done]. apply parse_digits_nonneg in E; [|lia..].
  destruct (Z.leb_spec u max); intros [= <-]. lia.
Qed.

(** Printing a number and parsing it back is the identity. *)
Lemma parse_digits_digits_of radix fuel n :
  2 <= radix <= 16 -> 0 <= n < radix ^ Z.of_nat fuel ->
  parse_digits radix 0 (digits_of fuel radix n) = Some n.
Proof.
  intros Hr. revert n. induction fuel as [|k IH]; intros n Hn.
  - simpl in *. f_equal. lia.
  - cbn [digits_of]. destruct (Z.ltb_spec n radix).
    + simpl. by rewrite to_digit_digit_char by lia.
    + rewrite parse_digits_app, IH.
      * simpl. rewrite to_digit_digit_char.
        -- f_equal. pose proof (Z.div_mod n radix). lia.
        -- apply Z.mod_pos_bound. lia.
        -- lia.
      * rewrite Nat2Z.inj_succ, Z.pow_succ_r in Hn by lia. split.
        -- apply Z.div_pos; lia.
        -- apply Z.div_lt_upper_bound; lia.
Qed.

Lemma digits_of_inj radix fuel a b :
  2 <= radix <= 16 -> 0 <= a < radix ^ Z.of_nat fuel -> 0 <= b < radix ^ Z.of_nat fuel ->
  digits_of fuel radix a = digits_of fuel radix b -> a = b.
Proof.
  intros Hr Ha Hb E. apply (f_equal (parse_digits radix 0)) in E.
  rewrite !parse_digits_digits_of in E by done. by injection E.
Qed.

Lemma fmt_dec_inj a b : 0 <= a < 10 ^ 40 -> 0 <= b < 10 ^ 40 -> fmt_dec a = fmt_dec b -> a = b.
Proof. intros Ha Hb E%of_bytes_inj. eapply (digits_of_inj 10 40); try done; lia. Qed.
