(* ===== verification/Float64.v ===== *)
(** * Double-precision numbers

    [f64] is the standard library's executable specification of IEEE 754
    numbers, at the precision and range of binary64; [fmt_fixed] is the text of
    [{:.n}]: the exact value rounded to [n] decimals, half to even. *)

From Stdlib Require Import ZArith Lia Ascii String SpecFloat.
From stdpp Require Import base list strings.
From S2P Require Import Prelude.
From S2P Require Import RustStr.

Definition f64 : Type := spec_float.

(** A cast from an integer, rounded to nearest. *)
Definition f64_of_Z (n : Z) : f64 := binary_normalize 53 1024 n 0 false.

Definition f64_div : f64 -> f64 -> f64 := SFdiv 53 1024.
Definition f64_mul : f64 -> f64 -> f64 := SFmul 53 1024.
Definition f64_sub : f64 -> f64 -> f64 := SFsub 53 1024.

(** The comparison operators: false on not-a-number. *)
Definition f64_ltb : f64 -> f64 -> bool := SFltb.
Definition f64_leb : f64 -> f64 -> bool := SFleb.

(** The quotient, rounded half to even. *)
Definition div_half_even (n d : Z) : Z :=
  let q := n / d in
  let r := n mod d in
  if (d <? 2 * r) || ((2 * r =? d) && Z.odd q) then q + 1 else q.

(** An integer as large as a double can be. *)
Definition fmt_big (n : Z) : string := of_bytes (digits_of 330 10 n).

(** [{}] of a signed integer. *)
Definition fmt_int (n : Z) : string := if n <? 0 then "-" +:+ fmt_dec (- n) else fmt_dec n.

Fixpoint zeros (n : nat) : string := match n with O => "" | S n' => String "0" (zeros n') end.

Definition pad_left (width : nat) (s : string) : string := zeros (width - String.length s) +:+ s.

(** [q] units of the last of [digits] decimals. *)
Definition fixed_text (digits : nat) (q : Z) : string :=
  let ten := 10 ^ Z.of_nat digits in
  match digits with
  | O => fmt_big q
  | S _ => fmt_big (q / ten) +:+ "." +:+ pad_left digits (fmt_big (q mod ten))
  end.

Definition fmt_fixed (digits : nat) (x : f64) : string :=
  let signed (s : bool) t := if s then "-" +:+ t else t in
  match x with
  | S754_nan => "NaN"
  | S754_infinity s => signed s "inf"
  | S754_zero s => signed s (fixed_text digits 0)
  | S754_finite s m e =>
      let n := Zpos m * 10 ^ Z.of_nat digits in
      signed s (fixed_text digits (if 0 <=? e then n * 2 ^ e else div_half_even n (2 ^ (- e))))
  end.

(** The cast keeps the integers a double can hold. *)
Example f64_examples :
  fmt_fixed 1 (f64_mul (f64_div (f64_of_Z 2) (f64_of_Z 3)) (f64_of_Z 100)) = "66.7" /\
  fmt_fixed 0 (f64_div (f64_of_Z 5) (f64_of_Z 2)) = "2" /\ fmt_fixed 2 (f64_of_Z (-3)) = "-3.00" /\
  f64_ltb (f64_of_Z 80) (f64_div (f64_of_Z 801) (f64_of_Z 10)) = true.
Proof. vm_compute. repeat split. Qed.
