(* ===== verification/Text.v ===== *)
(** * Text the engine writes for other programs

    Lines and words, and what is needed to show that a text made of lines and
    fields is read back as those lines and fields.  Used for the batches of nft,
    the exports of NFS and the sections of smb.conf. *)

From Stdlib Require Import ZArith Lia Ascii String.
From stdpp Require Import base list sets strings.
From S2P Require Import Prelude.
From S2P Require Import RustStr.

Definition nl : string := String (chr 10) EmptyString.
Definition dq : string := String (chr 34) EmptyString.

(** A line with its end. *)
Definition line (s : string) : string := s +:+ nl.

Definition concat_str (l : list string) : string := foldr String.append "" l.

Definition lines (s : string) : list string := str_split (chr 10) s.

(** [str::lines]. *)
Definition str_lines (s : string) : list string :=
  let ls := str_split (chr 10) s in
  (fun l => default l (strip_suffix (String (chr 13) "") l)) <$>
  match last ls with Some "" => removelast ls | _ => ls end.

Definition words (s : string) : list string :=
  List.filter (fun w => negb (String.eqb w "")) (str_split (chr 32) s).

Definition no_char (c : ascii) (s : string) : Prop := c ∉ to_bytes s.

Lemma split_bytes_app_sep c l r :
  split_bytes c (l ++ c :: r) = split_bytes c l ++ split_bytes c r.
Proof.
  induction l as [|d l IH]; simpl; [by rewrite Ascii.eqb_refl|].
  destruct (Ascii.eqb c d); [by rewrite IH|]. rewrite IH.
  destruct (split_bytes c l) eqn:E; [by apply split_bytes_nonempty in E|done].
Qed.

Lemma words_app a b : words (a +:+ String (chr 32) b) = words a ++ words b.
Proof.
  unfold words, str_split. rewrite to_bytes_app. simpl.
  rewrite split_bytes_app_sep, fmap_app. apply List.filter_app.
Qed.

Lemma words_join ls : words (str_join " " ls) = ls ≫= words.
Proof.
  unfold str_join. induction ls as [|s ls IH]; [done|].
  destruct ls as [|s2 ls]; [cbn; by rewrite of_to_bytes, app_nil_r|].
  change (join_bytes (to_bytes " ") (to_bytes <$> s :: s2 :: ls)) with
    (to_bytes s ++ to_bytes " " ++ join_bytes (to_bytes " ") (to_bytes <$> s2 :: ls)).
  rewrite of_bytes_app, of_to_bytes. change (to_bytes " " ++ ?x) with (chr 32 :: x).
  change (of_bytes (chr 32 :: ?x)) with (String (chr 32) (of_bytes x)).
  rewrite words_app, IH. done.
Qed.

Lemma string_app_assoc (a b c : string) : (a +:+ b) +:+ c = a +:+ b +:+ c.
Proof. apply to_bytes_inj. by rewrite !to_bytes_app, app_assoc. Qed.

Lemma string_app_nil (a : string) : a +:+ "" = a.
Proof. apply to_bytes_inj. rewrite to_bytes_app. apply app_nil_r. Qed.

Lemma lines_cons l s : no_char (chr 10) l -> lines (line l +:+ s) = l :: lines s.
Proof.
  intros H. unfold lines, str_split, line, nl. rewrite !to_bytes_app. simpl.
  rewrite <- app_assoc. simpl. rewrite split_bytes_app by done. simpl. by rewrite of_to_bytes.
Qed.

Lemma concat_str_app a b : concat_str (a ++ b) = concat_str a +:+ concat_str b.
Proof.
  unfold concat_str. induction a as [|x a IH]; simpl; [done|]. rewrite IH. symmetry. apply string_app_assoc.
Qed.

Lemma lines_concat ls s :
  Forall (no_char (chr 10)) ls -> lines (concat_str (line <$> ls) +:+ s) = ls ++ lines s.
Proof.
  induction 1 as [|l ls Hl _ IH]; [done|]. change (concat_str (line <$> l :: ls))
    with (line l +:+ concat_str (line <$> ls)).
  rewrite string_app_assoc, lines_cons by done. by rewrite IH.
Qed.

Lemma no_char_app c a b : no_char c (a +:+ b) <-> no_char c a /\ no_char c b.
Proof. unfold no_char. rewrite to_bytes_app, not_elem_of_app. done. Qed.

Lemma no_char_cons c d s : no_char c (String d s) <-> c <> d /\ no_char c s.
Proof. unfold no_char. cbn. rewrite not_elem_of_cons. done. Qed.

Lemma no_char_dec c s : bool_decide (c ∉ to_bytes s) = true -> no_char c s.
Proof. apply bool_decide_eq_true. Qed.

Lemma contains_char_spec c s : str_contains_char c s = true <-> c ∈ to_bytes s.
Proof.
  unfold str_contains_char. rewrite existsb_exists. setoid_rewrite <- list_elem_of_In. split.
  - intros (x & Hx & ->%Ascii.eqb_eq). done.
  - intros H. exists c. by rewrite Ascii.eqb_refl.
Qed.

Lemma contains_char_no c s : str_contains_char c s = false <-> no_char c s.
Proof. unfold no_char. rewrite <- contains_char_spec. by destruct (str_contains_char c s). Qed.

Ltac no_char_solve :=
  rewrite ?no_char_app; split_and?; first [assumption | apply no_char_dec; reflexivity | idtac].

(** A character outside a class does not occur in text of that class. *)
Lemma class_no_char (P : ascii -> bool) c s :
  Forall (fun x => P x = true) (to_bytes s) -> P c = false -> no_char c s.
Proof. intros HF Hc Hin. rewrite Forall_forall in HF. rewrite (HF _ Hin) in Hc. done. Qed.

(** A string of single-byte characters of a class is made of bytes of the class. *)
Lemma chars_class (P : ascii -> bool) s :
  existsb (fun ch => negb (one_byte P ch)) (chars s) = false -> Forall (fun c => P c = true) (to_bytes s).
Proof.
  unfold chars. intros H. rewrite <- (chars_concat (to_bytes s)).
  assert (Forall (fun ch => one_byte P ch = true) (chars_bytes (to_bytes s))) as HF.
  { apply Forall_forall. intros ch Hin. destruct (one_byte P ch) eqn:E; [done|].
    assert (existsb (fun ch => negb (one_byte P ch)) (chars_bytes (to_bytes s)) = true); [|congruence].
    apply existsb_exists. exists ch. split; [by apply list_elem_of_In|by rewrite E]. }
  clear H. induction HF as [|ch cs Hch _ IH]; [constructor|]. cbn. apply Forall_app. split; [|exact IH].
  destruct ch as [|c [|d l]]; try done. by constructor.
Qed.

Definition all_chars (P : ascii -> bool) (s : string) : bool := forallb (one_byte P) (chars s).

Lemma all_chars_class P s : all_chars P s = true -> Forall (fun c => P c = true) (to_bytes s).
Proof.
  unfold all_chars. intros H. apply chars_class. rewrite forallb_forall in H.
  apply not_true_is_false. intros (ch & Hin & E)%existsb_exists. apply H in Hin. by rewrite Hin in E.
Qed.

Lemma split_join_str c s : str_join (String c "") (str_split c s) = s.
Proof.
  unfold str_join, str_split. apply to_bytes_inj. rewrite to_of_bytes, <- list_fmap_compose.
  rewrite (list_fmap_ext _ id) by (intros; apply to_of_bytes). rewrite list_fmap_id. apply join_split_bytes.
Qed.

Lemma class_not_word (P : ascii -> bool) w s :
  Forall (fun x => P x = true) (to_bytes s) -> Exists (fun x => P x = false) (to_bytes w) -> s <> w.
Proof.
  intros HF (c & Hc & HP)%Exists_exists ->. rewrite Forall_forall in HF.
  rewrite (HF _ Hc) in HP. done.
Qed.

Lemma in_range_spec lo hi c : in_range lo hi c = true <-> lo <= code c <= hi.
Proof. unfold in_range. rewrite andb_true_iff, !Z.leb_le. done. Qed.

Lemma digit_char_digit d : 0 <= d < 10 -> is_ascii_digit (digit_char d) = true.
Proof.
  intros H. unfold digit_char. replace (d <? 10) with true by lia.
  apply in_range_spec. rewrite code_chr; lia.
Qed.

Lemma digits_of_digits fuel n :
  0 <= n -> Forall (fun c => is_ascii_digit c = true) (digits_of fuel 10 n).
Proof.
  revert n. induction fuel as [|k IH]; intros n Hn; [constructor|]. cbn [digits_of].
  destruct (Z.ltb_spec n 10); [constructor; [apply digit_char_digit; lia|constructor]|].
  apply Forall_app. split; [apply IH, Z.div_pos; lia|].
  constructor; [|constructor]. apply digit_char_digit, Z.mod_pos_bound. lia.
Qed.

Lemma digits_of_nonempty fuel n : digits_of (S fuel) 10 n <> [].
Proof. cbn [digits_of]. destruct (n <? 10); [done|]. by destruct (digits_of _ _ _). Qed.

Lemma fmt_dec_digits n : 0 <= n -> Forall (fun c => is_ascii_digit c = true) (to_bytes (fmt_dec n)).
Proof. intros. unfold fmt_dec. rewrite to_of_bytes. by apply digits_of_digits. Qed.

Lemma fmt_dec_nonempty n : fmt_dec n <> "".
Proof.
  unfold fmt_dec. intros H. apply (f_equal to_bytes) in H. rewrite to_of_bytes in H.
  by apply digits_of_nonempty in H.
Qed.

Lemma split_once_app (c : ascii) a b :
  no_char c a -> split_once c (a +:+ String c b) = Some (a, b).
Proof.
  intros Ha. unfold split_once. rewrite to_bytes_app. simpl.
  pose proof (split_once_bytes_spec c (to_bytes a ++ c :: to_bytes b)) as H.
  assert (split_once_bytes c (to_bytes a ++ c :: to_bytes b) = Some (to_bytes a, to_bytes b)) as E.
  { clear H. unfold no_char in Ha. induction (to_bytes a) as [|d l IH]; simpl; [by rewrite Ascii.eqb_refl|].
    destruct (Ascii.eqb_spec c d); [set_solver|]. rewrite IH by set_solver. done. }
  unfold to_bytes in *. rewrite E. unfold of_bytes. by rewrite !string_of_list_ascii_of_string.
Qed.

Lemma split_once_none (c : ascii) s : no_char c s -> split_once c s = None.
Proof.
  intros H. unfold split_once. pose proof (split_once_bytes_spec c (to_bytes s)) as Hs.
  destruct (split_once_bytes c (to_bytes s)) as [[a b]|]; [|done].
  destruct Hs as [E _]. destruct H. rewrite E. set_solver.
Qed.

Lemma fmt_dec_no c n : 0 <= n -> is_ascii_digit c = false -> no_char c (fmt_dec n).
Proof. intros. by eapply (class_no_char is_ascii_digit); [apply fmt_dec_digits|]. Qed.

Lemma words_space s : words (String (chr 32) s) = words s.
Proof. exact (words_app "" s). Qed.

(** A word is read as itself. *)
Lemma words_single w : w <> "" -> no_char (chr 32) w -> words w = [w].
Proof.
  intros Hne Hsp. unfold words, str_split. rewrite split_bytes_no_sep_id by done.
  simpl. rewrite of_to_bytes. destruct (String.eqb_spec w ""); done.
Qed.

Lemma strip_suffix_app p s : strip_suffix p (s +:+ p) = Some s.
Proof.
  unfold strip_suffix. rewrite to_bytes_app, rev_app_distr, bytes_prefix_refl. cbn.
  by rewrite rev_involutive, of_to_bytes.
Qed.

Lemma join_no_char c sep ls :
  no_char c sep -> Forall (no_char c) ls -> no_char c (str_join sep ls).
Proof.
  intros Hs HF. unfold no_char, str_join. rewrite to_of_bytes.
  induction HF as [|l ls Hl HF IH]; [apply not_elem_of_nil|]. destruct ls as [|l2 ls]; [exact Hl|].
  change (join_bytes (to_bytes sep) (to_bytes <$> l :: l2 :: ls)) with
    (to_bytes l ++ to_bytes sep ++ join_bytes (to_bytes sep) (to_bytes <$> l2 :: ls)).
  rewrite !not_elem_of_app. done.
Qed.

Lemma strip_prefix_Some p s r : strip_prefix p s = Some r -> s = p +:+ r.
Proof.
  unfold strip_prefix. destruct (bytes_prefix _ _) as [l|] eqn:E; [|done]. intros [= <-].
  apply bytes_prefix_Some in E. apply to_bytes_inj. by rewrite to_bytes_app, to_of_bytes.
Qed.
