(* ===== verification/RustPath.v ===== *)
(** * [std::path::Path] on Unix

    Components of a path and the tests on whole components. *)

From Stdlib Require Import ZArith Lia Ascii String.
From stdpp Require Import base list strings.
From S2P Require Import Prelude.
From S2P Require Import RustStr.

Inductive Component : Type := RootDir | CurDir | ParentDir | Normal (name : string).

#[export] Instance Component_eq_dec : EqDecision Component.
Proof. solve_decision. Defined.

Definition component_of (piece : string) : option Component :=
  if String.eqb piece "" || String.eqb piece "." then None
  else if String.eqb piece ".." then Some ParentDir
  else Some (Normal piece).

(** [Path::components]: repeated separators and [.] are skipped, except a [.]
    at the start of a relative path. *)
Definition components (path : string) : list Component :=
  let pieces := str_split "/" path in
  (if starts_with "/" path then [RootDir]
   else match pieces with "." :: _ => [CurDir] | _ => [] end) ++
  omap component_of pieces.

Definition is_absolute (path : string) : bool := starts_with "/" path.

(** [Path::starts_with], on components. *)
Definition path_starts_with (path base : string) : bool :=
  bool_decide (components base `prefix_of` components path).

(** [Path::parent] and [Path::file_name], on components. *)
Definition file_name (path : string) : option string :=
  match last (components path) with Some (Normal n) => Some n | _ => None end.

Definition parent (path : string) : option (list Component) :=
  match last (components path) with
  | None | Some RootDir => None
  | Some _ => Some (removelast (components path))
  end.

Example components_ex :
  components "/fs//tank/./a/../b/" = [RootDir; Normal "fs"; Normal "tank"; Normal "a"; ParentDir; Normal "b"] /\
  components "./x" = [CurDir; Normal "x"] /\ path_starts_with "/fs" "/fs/" = true /\
  path_starts_with "/fs2/x" "/fs" = false.
Proof. split_and!; vm_compute; reflexivity. Qed.
