(* ===== verification/StateDir.v ===== *)
(** * Directories of state files (nasty-common/src/state.rs)

    One JSON file per item, named by the item's id; a file that does not parse
    or cannot be read is [None].  A save writes a temporary file and renames it,
    so a failed save leaves the item as it was. *)

From Stdlib Require Import ZArith Lia Ascii String.
From stdpp Require Import base list gmap strings.
From S2P Require Import Prelude.

Abbreviation StateDir T := (gmap string (option T)).

Section StateDir.
Context {T : Type}.

(** In the order of the directory, which nothing relies on. *)
Definition load_all (d : StateDir T) : list T := omap snd (map_to_list d).

Definition load_all_strict (d : StateDir T) (unreadable : string) : result (list T) string :=
  if bool_decide (Exists (fun kv => snd kv = None) (map_to_list d)) then Err unreadable
  else Ok (load_all d).

Definition load (d : StateDir T) (id : string) : option T := mjoin (d !! id).

Definition save (fault : option string) (id : string) (x : T) (d : StateDir T) : result (StateDir T) string :=
  match fault with Some e => Err e | None => Ok (<[id := Some x]> d) end.

Definition remove (fault : option string) (id : string) (d : StateDir T) : result (StateDir T) string :=
  match fault with Some e => Err e | None => Ok (delete id d) end.

Lemma elem_of_load_all d x : x ∈ load_all d <-> exists id, load d id = Some x.
Proof.
  unfold load_all, load. rewrite list_elem_of_omap. split.
  - intros ([id y] & H%elem_of_map_to_list & E). cbn in E. exists id. by rewrite H, E.
  - intros (id & H). destruct (d !! id) as [[y|]|] eqn:E; simplify_eq/=. exists (id, Some x).
    split; [by apply elem_of_map_to_list|done].
Qed.

Lemma load_save_same id x d : load (<[id := Some x]> d) id = Some x.
Proof. unfold load. by rewrite lookup_insert_eq. Qed.

Lemma load_save_other id id' x d : id' <> id -> load (<[id := Some x]> d) id' = load d id'.
Proof. intros H. unfold load. by rewrite lookup_insert_ne. Qed.

Lemma load_remove_same id d : load (delete id d) id = None.
Proof. unfold load. by rewrite lookup_delete_eq. Qed.

Lemma load_remove_other id id' d : id' <> id -> load (delete id d) id' = load d id'.
Proof. intros H. unfold load. by rewrite lookup_delete_ne. Qed.
End StateDir.

(** ** Keyed stores

    Every item is filed under its id and valid, and no name is used twice. *)

Record keyed {T} (kid kname : T -> string) (valid : T -> Prop) (d : StateDir T) : Prop := {
  kd_id : forall id x, load d id = Some x -> kid x = id /\ valid x;
  kd_name : forall id id' x y, load d id = Some x -> load d id' = Some y -> kname x = kname y -> id = id';
}.

Section Keyed.
Context {T : Type} (kid kname : T -> string) (valid : T -> Prop).

Lemma keyed_empty : keyed kid kname valid ∅.
Proof. split; intros *; unfold load; rewrite lookup_empty; done. Qed.

Lemma keyed_put d s :
  keyed kid kname valid d -> valid s ->
  (forall id x, load d id = Some x -> kname x = kname s -> id = kid s) -> keyed kid kname valid (<[kid s := Some s]> d).
Proof.
  intros [Hk Hu] Hv Hp.
  assert (forall id x, load (<[kid s := Some s]> d) id = Some x -> (id = kid s /\ x = s) \/ (id <> kid s /\ load d id = Some x)) as Hl.
  { intros id x. destruct (decide (id = kid s)) as [->|]; [rewrite load_save_same|rewrite load_save_other by done]; naive_solver. }
  split.
  - intros id x [[-> ->]|[_ Hx]]%Hl; [done|by apply Hk].
  - intros id id' x y Hx Hy E. apply Hl in Hx, Hy.
    destruct Hx as [[-> ->]|[_ Hx]], Hy as [[-> ->]|[_ Hy]]; [done| | |by eapply Hu].
    + symmetry. by eapply Hp.
    + by eapply Hp.
Qed.

Lemma keyed_delete d id : keyed kid kname valid d -> keyed kid kname valid (delete id d).
Proof.
  intros [Hk Hu]. assert (forall i x, load (delete id d) i = Some x -> load d i = Some x) as Hl.
  { intros i x. destruct (decide (i = id)) as [->|]; [by rewrite load_remove_same|by rewrite load_remove_other]. }
  split; eauto.
Qed.
End Keyed.
