(* ===== verification/RustVec.v ===== *)
(** * The vector functions of the Rust standard library the engine uses

    [sort_by] is stable in Rust, so any stable sort is the same function;
    [dedup_by] drops an element equal to the last one kept; a [BTreeSet]
    iterated is a strictly sorted list. *)

From Stdlib Require Import ZArith Lia Ascii String Sorted.
From stdpp Require Import base list sets strings sorting.
From S2P Require Import Prelude.

Section vec.
Context {A : Type}.

(** ** [slice::sort_by], [le a b] being [cmp(a, b) != Greater] *)

Fixpoint insert_by (le : A -> A -> bool) (x : A) (l : list A) : list A :=
  match l with
  | [] => [x]
  | y :: l' => if le x y then x :: l else y :: insert_by le x l'
  end.

Definition sort_by (le : A -> A -> bool) (l : list A) : list A :=
  foldr (insert_by le) [] l.

(** ** [Vec::dedup_by] *)

Fixpoint dedup_from (same : A -> A -> bool) (prev : A) (l : list A) : list A :=
  match l with
  | [] => []
  | x :: l' => if same x prev then dedup_from same prev l' else x :: dedup_from same x l'
  end.

Definition dedup_by (same : A -> A -> bool) (l : list A) : list A :=
  match l with
  | [] => []
  | x :: l' => x :: dedup_from same x l'
  end.

Lemma insert_by_perm le x l : insert_by le x l ≡ₚ x :: l.
Proof.
  induction l as [|y l IH]; simpl; [done|]. destruct (le x y); [done|].
  rewrite IH. apply Permutation_swap.
Qed.

Lemma sort_by_perm le l : sort_by le l ≡ₚ l.
Proof. induction l as [|x l IH]; simpl; [done|]. by rewrite insert_by_perm, IH. Qed.

Lemma elem_of_sort_by le l x : x ∈ sort_by le l <-> x ∈ l.
Proof. by rewrite (sort_by_perm le l). Qed.

Lemma insert_by_sorted le x l :
  (forall a b, le a b = true \/ le b a = true) ->
  Sorted (fun a b => le a b = true) l -> Sorted (fun a b => le a b = true) (insert_by le x l).
Proof.
  intros Htot. induction 1 as [|y l Hs IH Hhd]; simpl; [by repeat constructor|].
  destruct (le x y) eqn:E; [repeat constructor; done|].
  constructor; [done|]. destruct (Htot x y) as [?|Hyx]; [congruence|].
  destruct l as [|z l]; simpl in *; [by constructor|].
  destruct (le x z); constructor; [done|]. by inversion Hhd.
Qed.

Lemma sort_by_sorted le l :
  (forall a b, le a b = true \/ le b a = true) ->
  Sorted (fun a b => le a b = true) (sort_by le l).
Proof. intros Htot. induction l; simpl; [constructor|by apply insert_by_sorted]. Qed.

Lemma dedup_from_sub same prev l : sublist (dedup_from same prev l) l.
Proof.
  revert prev. induction l as [|x l IH]; intros prev; simpl; [constructor|].
  destruct (same x prev); by constructor.
Qed.

Lemma dedup_by_sub same l : sublist (dedup_by same l) l.
Proof. destruct l; simpl; [constructor|]. constructor. apply dedup_from_sub. Qed.

(** Every element has an equal one among those kept. *)
Lemma dedup_from_covers same prev l x :
  (forall a, same a a = true) ->
  x ∈ l -> same x prev = true \/ exists y, y ∈ dedup_from same prev l /\ same x y = true.
Proof.
  intros Hr. revert prev. induction l as [|z l IH]; intros prev Hx; [set_solver|].
  apply elem_of_cons in Hx as [<-|Hx]; simpl.
  - destruct (same x prev) eqn:E; [by left|]. right. exists x. set_solver.
  - destruct (same z prev) eqn:E.
    + destruct (IH prev Hx) as [?|?]; [by left|by right].
    + right. destruct (IH z Hx) as [?|(y & ? & ?)]; [exists z|exists y]; set_solver.
Qed.

Lemma dedup_by_covers same l x :
  (forall a, same a a = true) ->
  x ∈ l -> exists y, y ∈ dedup_by same l /\ same x y = true.
Proof.
  intros Hr. destruct l as [|z l]; [set_solver|]. simpl.
  intros [->|Hx]%elem_of_cons; [exists z; set_solver|].
  destruct (dedup_from_covers same z l x Hr Hx) as [?|(y & ? & ?)];
    [exists z|exists y]; set_solver.
Qed.
End vec.

(** ** [BTreeSet<T>]: insertion in order, without duplicates *)

Fixpoint btree_insert (x : Z) (l : list Z) : list Z :=
  match l with
  | [] => [x]
  | y :: l' => if x <? y then x :: l
               else if x =? y then l
               else y :: btree_insert x l'
  end.

Definition btree_of (l : list Z) : list Z := foldl (fun s x => btree_insert x s) [] l.

Lemma elem_of_btree_insert x y l : x ∈ btree_insert y l <-> x = y \/ x ∈ l.
Proof.
  induction l as [|z l IH]; simpl; [set_solver|].
  destruct (Z.ltb_spec y z); [set_solver|]. destruct (Z.eqb_spec y z) as [->|]; [set_solver|].
  rewrite !elem_of_cons, IH. tauto.
Qed.

Lemma elem_of_btree_of x l : x ∈ btree_of l <-> x ∈ l.
Proof.
  unfold btree_of. assert (forall s, x ∈ foldl (fun s x => btree_insert x s) s l <-> x ∈ s \/ x ∈ l) as H.
  { induction l as [|y l IH]; intros s; simpl; [set_solver|].
    rewrite IH, elem_of_btree_insert, elem_of_cons. tauto. }
  rewrite H. set_solver.
Qed.
