(* ===== verification/Net.v ===== *)
(** * [std::net]: parsing and printing IP addresses

    The recursive-descent parser of [core::net::parser] and the [Display]
    instances of [Ipv4Addr] and [Ipv6Addr], which the engine uses for rate-limit
    buckets, portal addresses and CIDR arithmetic. *)

From Stdlib Require Import ZArith Lia Ascii String.
From stdpp Require Import base list sets strings.
From S2P Require Import Prelude RustStr.

(** An address is its octets ([u8]) or its segments ([u16]). *)
Inductive ip_addr : Type :=
| V4 (octets : list Z)
| V6 (segments : list Z).

(** A parser consumes a prefix; [None] leaves the input as it was. *)
Definition parser (A : Type) : Type := bytes -> option (A * bytes).

Definition read_given_char (c : ascii) : parser unit := fun l =>
  match l with
  | d :: l' => if Ascii.eqb c d then Some (tt, l') else None
  | [] => None
  end.

Fixpoint read_digits (radix : Z) (acc : Z) (count : nat) (l : bytes) : Z * nat * bytes :=
  match l with
  | c :: l' => match to_digit radix c with
               | Some d => read_digits radix (acc * radix + d) (S count) l'
               | None => (acc, count, l)
               end
  | [] => (acc, count, l)
  end.

(** [Parser::read_number]: at most [max_digits] digits, the value at most
    [max], no superfluous leading zero unless [allow_zero_prefix]. *)
Definition read_number (radix : Z) (max_digits : nat) (max : Z)
    (allow_zero_prefix : bool) : parser Z := fun l =>
  let has_leading_zero := match l with c :: _ => Ascii.eqb c "0" | [] => false end in
  let '(v, count, rest) := read_digits radix 0 0 l in
  if (max_digits <? count)%nat then None
  else if (count =? 0)%nat then None
  else if negb allow_zero_prefix && has_leading_zero && (1 <? count)%nat then None
  else if v <=? max then Some (v, rest) else None.

Definition read_separator {A} (sep : ascii) (index : nat) (inner : parser A) : parser A :=
  fun l =>
    match index with
    | O => inner l
    | S _ => match read_given_char sep l with
             | Some (_, l') => inner l'
             | None => None
             end
    end.

Fixpoint read_octets (index : nat) (n : nat) (l : bytes) : option (list Z * bytes) :=
  match n with
  | O => Some ([], l)
  | S n' =>
      match read_separator "." index (read_number 10 3 255 false) l with
      | Some (v, l') => match read_octets (S index) n' l' with
                        | Some (vs, l'') => Some (v :: vs, l'')
                        | None => None
                        end
      | None => None
      end
  end.
Definition read_ipv4_addr : parser (list Z) := read_octets 0 4.

(** [read_groups]: up to [limit - i] groups, an embedded IPv4 address counting
    for two.  Returns the groups, whether an IPv4 tail was read and the rest. *)
Fixpoint read_groups (i : nat) (left : nat) (l : bytes) : list Z * bool * bytes :=
  match left with
  | O => ([], false, l)
  | S left' =>
      let v4 := match left' with
                | O => None
                | S _ => read_separator ":" i read_ipv4_addr l
                end in
      match v4 with
      | Some ([a; b; c; d], l') => ([a * 256 + b; c * 256 + d], true, l')
      | _ =>
          match read_separator ":" i (read_number 16 4 65535 true) l with
          | Some (g, l') =>
              let '(gs, v4_tail, rest) := read_groups (S i) left' l' in
              (g :: gs, v4_tail, rest)
          | None => ([], false, l)
          end
      end
  end.

Definition read_ipv6_addr : parser (list Z) := fun l =>
  let '(head, head_ipv4, l1) := read_groups 0 8 l in
  if (length head =? 8)%nat then Some (head, l1)
  else if head_ipv4 then None
  else match read_given_char ":" l1 with
       | None => None
       | Some (_, l2) =>
           match read_given_char ":" l2 with
           | None => None
           | Some (_, l3) =>
               let limit := (8 - (length head + 1))%nat in
               let '(tl, _, l4) := read_groups 0 limit l3 in
               Some (head ++ replicate (8 - length head - length tl) 0 ++ tl, l4)
           end
       end.

(** [str::parse::<IpAddr>]. *)
Definition parse_ip_addr (s : string) : option ip_addr :=
  match read_ipv4_addr (to_bytes s) with
  | Some (o, rest) => match rest with [] => Some (V4 o) | _ => None end
  | None => match read_ipv6_addr (to_bytes s) with
            | Some (g, []) => Some (V6 g)
            | _ => None
            end
  end.

(** [str::parse::<Ipv4Addr>]: longer than ["255.255.255.255"] is refused. *)
Definition parse_ipv4_addr (s : string) : option (list Z) :=
  if (15 <? String.length s)%nat then None
  else match read_ipv4_addr (to_bytes s) with
       | Some (o, []) => Some o
       | _ => None
       end.

(** [Ipv6Addr::to_ipv4_mapped]: [::ffff:a.b.c.d]. *)
Definition to_ipv4_mapped (segments : list Z) : option (list Z) :=
  match segments with
  | [a; b; c; d; e; f; g; h] =>
      if forallb (Z.eqb 0) [a; b; c; d; e] && (f =? 65535)
      then Some [g / 256; g mod 256; h / 256; h mod 256] else None
  | _ => None
  end.

Definition fmt_ipv4 (octets : list Z) : string := str_join "." (fmt_dec <$> octets).

(** The longest run of zero segments, the first one of equal length. *)
Fixpoint longest_zero_run (i : nat) (segs : list Z) (cur best : nat * nat) : nat * nat :=
  match segs with
  | [] => best
  | s :: segs' =>
      if s =? 0 then
        let cur' := ((if (snd cur =? 0)%nat then i else fst cur), S (snd cur)) in
        let best' := if (snd best <? snd cur')%nat then cur' else best in
        longest_zero_run (S i) segs' cur' best'
      else longest_zero_run (S i) segs' (0, 0)%nat best
  end.

Definition fmt_subslice (segs : list Z) : string := str_join ":" (fmt_hex <$> segs).

(** [Display for Ipv6Addr]. *)
Definition fmt_ipv6 (segments : list Z) : string :=
  match to_ipv4_mapped segments with
  | Some v4 => "::ffff:" +:+ fmt_ipv4 v4
  | None =>
      let '(start, len) := longest_zero_run 0 segments (0, 0)%nat (0, 0)%nat in
      if (1 <? len)%nat
      then fmt_subslice (take start segments) +:+ "::" +:+
           fmt_subslice (drop (start + len) segments)
      else fmt_subslice segments
  end.

Example parse_v4_ok : parse_ip_addr "192.168.1.20" = Some (V4 [192; 168; 1; 20]).
Proof. reflexivity. Qed.
Example parse_v4_leading_zero : parse_ip_addr "192.168.01.20" = None.
Proof. reflexivity. Qed.
Example parse_v6_ok :
  parse_ip_addr "2001:db8::1" = Some (V6 [8193; 3512; 0; 0; 0; 0; 0; 1]).
Proof. reflexivity. Qed.
Example parse_v6_mapped :
  parse_ip_addr "::ffff:10.0.0.1" = Some (V6 [0; 0; 0; 0; 0; 65535; 2560; 1]).
Proof. reflexivity. Qed.
Example fmt_v6_ok : fmt_ipv6 [8193; 3512; 0; 1; 0; 0; 0; 0] = "2001:db8:0:1::".
Proof. reflexivity. Qed.

(** ** Well-formedness of what the parser returns *)

Definition segments_ok (segs : list Z) : Prop :=
  length segs = 8%nat /\ Forall (fun s => 0 <= s < 65536) segs.

Lemma read_digits_nonneg radix acc n l v k r :
  0 <= acc -> 2 <= radix -> read_digits radix acc n l = (v, k, r) -> 0 <= v.
Proof.
  intros Hacc Hr. revert acc n Hacc. induction l as [|c l IH]; simpl; intros acc n Hacc.
  - intros [= <- <- <-]. done.
  - destruct (to_digit radix c) as [d|] eqn:E; [|by intros [= <- <- <-]].
    apply to_digit_range in E. apply IH. nia.
Qed.

Lemma read_number_range radix md mx z l v r :
  2 <= radix -> read_number radix md mx z l = Some (v, r) -> 0 <= v <= mx.
Proof.
  intros Hr. unfold read_number. destruct (read_digits radix 0 0 l) as [[v' k] r'] eqn:E.
  intros H. break_in H. bool_hyps. split; [|lia].
  eapply read_digits_nonneg in E; lia.
Qed.

Lemma read_separator_inv {A} sep i (p : parser A) l x :
  read_separator sep i p l = Some x -> exists l', p l' = Some x.
Proof. unfold read_separator. intros H. break_in H; eauto. Qed.

Lemma read_octets_range i n l os r :
  read_octets i n l = Some (os, r) -> length os = n /\ Forall (fun o => 0 <= o <= 255) os.
Proof.
  revert i l os r. induction n as [|n IH]; simpl; intros i l os r.
  - by intros [= <- <-].
  - intros H. break_in H.
    match goal with H : read_separator _ _ _ _ = _ |- _ =>
      apply read_separator_inv in H as [? ?%read_number_range]; [|lia] end.
    match goal with H : read_octets _ _ _ = _ |- _ => apply IH in H as [<- ?] end.
    split; [done|]. by constructor.
Qed.

Lemma read_groups_range i n l gs b r :
  read_groups i n l = (gs, b, r) ->
  (length gs <= n)%nat /\ Forall (fun s => 0 <= s < 65536) gs.
Proof.
  revert i l gs b r. induction n as [|n IH]; intros i l gs b r.
  { simpl. by intros [= <- <- <-]. }
  cbn [read_groups].
  set (v4 := match n with O => None | S _ => read_separator ":" i read_ipv4_addr l end).
  assert (forall os r', v4 = Some (os, r') ->
    (1 <= n)%nat /\ Forall (fun o => 0 <= o <= 255) os) as Hv4.
  { intros os r' E. unfold v4 in E. destruct n; [done|].
    apply read_separator_inv in E as [l' E%read_octets_range]. split; [lia|tauto]. }
  assert (forall gs b r, match read_separator ":" i (read_number 16 4 65535 true) l with
    | Some (g, l') => let '(gs, t, rest) := read_groups (S i) n l' in (g :: gs, t, rest)
    | None => ([], false, l) end = (gs, b, r) ->
    (length gs <= S n)%nat /\ Forall (fun s => 0 <= s < 65536) gs) as Hhex.
  { intros gs' b' r' H. break_in H; [|simpl; split; [lia|constructor]].
    match goal with H : read_separator _ _ _ _ = _ |- _ =>
      apply read_separator_inv in H as [? ?%read_number_range]; [|lia] end.
    match goal with H : read_groups _ _ _ = _ |- _ => apply IH in H as [? ?] end.
    split; [simpl; lia|]. constructor; [lia|done]. }
  destruct v4 as [[os r']|] eqn:E; [|apply Hhex].
  destruct (Hv4 _ _ eq_refl) as [? HF].
  destruct os as [|a [|b' [|c [|d [|]]]]]; try apply Hhex.
  intros [= <- <- <-]. rewrite !Forall_cons in HF. destruct HF as (?&?&?&?&_).
  simpl. split; [lia|]. repeat constructor; lia.
Qed.

Lemma read_ipv6_addr_ok l segs r : read_ipv6_addr l = Some (segs, r) -> segments_ok segs.
Proof.
  unfold read_ipv6_addr, segments_ok.
  destruct (read_groups 0 8 l) as [[h b] l1] eqn:E. apply read_groups_range in E as [Hh HF].
  intros H. break_in H; bool_hyps; [done|].
  match goal with H : read_groups 0 _ _ = _ |- _ => apply read_groups_range in H as [? ?] end.
  rewrite !length_app, length_replicate. split; [lia|].
  rewrite !Forall_app. split_and!; try done. apply Forall_replicate. lia.
Qed.

Lemma parse_ip_addr_v6_ok s segs : parse_ip_addr s = Some (V6 segs) -> segments_ok segs.
Proof.
  unfold parse_ip_addr. intros H. break_in H. by eapply read_ipv6_addr_ok.
Qed.
