(* ===== verification/RateLimit.v ===== *)
(** * Failed-login accounting ([RateLimitState] of nasty-engine/src/auth.rs)

    Failure timestamps per username and per source-address bucket, pruned to
    their windows.  The refinement theorem relates the pruned maps to the plain
    log of every failure and every reset since start-up. *)

From Stdlib Require Import ZArith Lia Ascii String.
From stdpp Require Import base list gmap strings.
From S2P Require Import Prelude RustStr Net.

Definition MAX_FAILED_ATTEMPTS : nat := 5.
Definition LOCKOUT_WINDOW_SECS : Z := 15 * 60.
Definition MAX_IP_FAILED_ATTEMPTS : nat := 20.
Definition IP_LOCKOUT_WINDOW_SECS : Z := 60 * 60.

(** ** Source-address buckets *)

(** [u128::from(Ipv6Addr)] and back: big-endian 16-bit segments. *)
Definition u128_of_segments (segs : list Z) : Z :=
  fold_left (fun acc s => acc * 65536 + s) segs 0.
Definition segments_of_u128 (x : Z) : list Z :=
  (fun i => Z.land (Z.shiftr x (16 * (7 - Z.of_nat i))) 65535) <$> seq 0 8.

(** [!((1u128 << 64) - 1)]. *)
Definition PREFIX_MASK : Z := Z.lxor (2 ^ 128 - 1) (Z.shiftl 1 64 - 1).

Definition ip_bucket (ip : string) : string :=
  match parse_ip_addr ip with
  | Some (V6 v6) =>
      match to_ipv4_mapped v6 with
      | None =>
          let prefix := Z.land (u128_of_segments v6) PREFIX_MASK in
          fmt_ipv6 (segments_of_u128 prefix) +:+ "/64"
      | Some _ => ip
      end
  | _ => ip
  end.

(** The mask keeps exactly the first four segments. *)

Lemma land_prefix_mask x : 0 <= x < 2 ^ 128 -> Z.land x PREFIX_MASK = x / 2 ^ 64 * 2 ^ 64.
Proof.
  intros Hx.
  assert (PREFIX_MASK = Z.ldiff (Z.ones 128) (Z.ones 64)) as -> by reflexivity.
  rewrite Z.ldiff_land, Z.land_assoc, Z.land_ones, Z.mod_small by lia.
  rewrite <- Z.ldiff_land, Z.ldiff_ones_r by lia.
  by rewrite Z.shiftl_mul_pow2, Z.shiftr_div_pow2 by lia.
Qed.

Lemma segment_of hi k :
  Z.land (Z.shiftr (hi * 2 ^ 64) (64 + 16 * Z.of_nat k)) 65535 =
  (hi / 65536 ^ Z.of_nat k) mod 65536.
Proof.
  change 65535 with (Z.ones 16). rewrite Z.land_ones, Z.shiftr_div_pow2 by lia.
  rewrite Z.pow_add_r, <- Z.div_div, Z.div_mul by lia.
  rewrite (Z.pow_mul_r 2 16) by lia. done.
Qed.

Lemma segment_low hi k : (k < 4)%nat ->
  Z.land (Z.shiftr (hi * 2 ^ 64) (16 * Z.of_nat k)) 65535 = 0.
Proof.
  intros Hk. change 65535 with (Z.ones 16). rewrite Z.land_ones, Z.shiftr_div_pow2 by lia.
  replace (hi * 2 ^ 64)
    with (hi * 2 ^ (48 - 16 * Z.of_nat k) * 2 ^ 16 * 2 ^ (16 * Z.of_nat k)).
  - rewrite Z.div_mul by (apply Z.pow_nonzero; lia). by apply Z.mod_mul.
  - rewrite <- !Z.mul_assoc, <- !Z.pow_add_r by lia. do 2 f_equal. lia.
Qed.

Lemma mask_segments segs :
  segments_ok segs ->
  segments_of_u128 (Z.land (u128_of_segments segs) PREFIX_MASK) = take 4 segs ++ [0; 0; 0; 0].
Proof.
  intros [Hl HF].
  destruct segs as [|a [|b [|c [|d [|e [|f [|g [|h [|]]]]]]]]]; try discriminate Hl.
  rewrite !Forall_cons in HF. destruct HF as (?&?&?&?&?&?&?&?&_).
  set (hi := ((a * 65536 + b) * 65536 + c) * 65536 + d).
  assert (u128_of_segments [a; b; c; d; e; f; g; h] =
    hi * 2 ^ 64 + (((e * 65536 + f) * 65536 + g) * 65536 + h)) as -> by (cbn -[Z.mul]; lia).
  rewrite land_prefix_mask by (subst hi; lia).
  rewrite Z.div_add_l, (Z.div_small (_ + h)), Z.add_0_r by lia.
  unfold segments_of_u128. cbn [seq fmap list_fmap take app].
  change (16 * (7 - Z.of_nat 0)) with (64 + 16 * Z.of_nat 3).
  change (16 * (7 - Z.of_nat 1)) with (64 + 16 * Z.of_nat 2).
  change (16 * (7 - Z.of_nat 2)) with (64 + 16 * Z.of_nat 1).
  change (16 * (7 - Z.of_nat 3)) with (64 + 16 * Z.of_nat 0).
  change (16 * (7 - Z.of_nat 4)) with (16 * Z.of_nat 3).
  change (16 * (7 - Z.of_nat 5)) with (16 * Z.of_nat 2).
  change (16 * (7 - Z.of_nat 6)) with (16 * Z.of_nat 1).
  change (16 * (7 - Z.of_nat 7)) with (16 * Z.of_nat 0).
  rewrite !segment_of, !segment_low by lia. subst hi.
  change (65536 ^ Z.of_nat 3) with (65536 * (65536 * 65536)).
  change (65536 ^ Z.of_nat 2) with (65536 * 65536).
  change (65536 ^ Z.of_nat 1) with 65536. change (65536 ^ Z.of_nat 0) with 1.
  rewrite <- !Z.div_div, !Z.div_1_r by lia.
  repeat (rewrite Z.div_add_l by lia;
    rewrite (Z.div_small b) || rewrite (Z.div_small c) || rewrite (Z.div_small d);
    [rewrite Z.add_0_r|lia]).
  rewrite !(Z.add_comm (_ * _)), !Z.mod_add, !Z.mod_small by lia. done.
Qed.

(** Every address of one IPv6 /64 falls in one bucket. *)
Lemma ip_bucket_prefix64 ip1 ip2 v1 v2 :
  parse_ip_addr ip1 = Some (V6 v1) -> parse_ip_addr ip2 = Some (V6 v2) ->
  to_ipv4_mapped v1 = None -> to_ipv4_mapped v2 = None ->
  take 4 v1 = take 4 v2 -> ip_bucket ip1 = ip_bucket ip2.
Proof.
  intros H1 H2 M1 M2 Ht. unfold ip_bucket. rewrite H1, H2, M1, M2.
  rewrite !mask_segments by (by eapply parse_ip_addr_v6_ok). by rewrite Ht.
Qed.

(** ** State and operations *)

Record RateLimitState : Type := mkRateLimit {
  by_user : gmap string (list Z);
  by_ip : gmap string (list Z);
}.

Definition empty_rate_limit : RateLimitState := mkRateLimit ∅ ∅.

Definition in_window (window now t : Z) : bool := u64_saturating_sub now t <? window.

(** [for v in values_mut() { v.retain(..) }; map.retain(|_, v| !v.is_empty())]. *)
Definition prune_map (window now : Z) (m : gmap string (list Z)) : gmap string (list Z) :=
  omap (fun v => match retain (in_window window now) v with
                 | [] => None
                 | v' => Some v'
                 end) m.

Definition prune (rl : RateLimitState) (now : Z) : RateLimitState :=
  mkRateLimit (prune_map LOCKOUT_WINDOW_SECS now (by_user rl))
              (prune_map IP_LOCKOUT_WINDOW_SECS now (by_ip rl)).

Definition count_window (window now : Z) (o : option (list Z)) : nat :=
  match o with
  | Some v => length (retain (in_window window now) v)
  | None => 0
  end.

Definition user_failures (rl : RateLimitState) (username : string) (now : Z) : nat :=
  count_window LOCKOUT_WINDOW_SECS now (by_user rl !! username).

Definition ip_failures (rl : RateLimitState) (ip : string) (now : Z) : nat :=
  count_window IP_LOCKOUT_WINDOW_SECS now (by_ip rl !! ip_bucket ip).

(** [map.entry(k).or_default().push(t)]. *)
Definition push_entry (k : string) (t : Z) (m : gmap string (list Z)) : gmap string (list Z) :=
  <[k := default [] (m !! k) ++ [t]]> m.

Definition record_failed_attempt (rl : RateLimitState) (username client_ip : string) (now : Z)
    : RateLimitState :=
  let rl1 := prune rl now in
  let users := push_entry username now (by_user rl1) in
  let ips :=
    if String.eqb client_ip "unknown" then by_ip rl1
    else alter (retain (in_window IP_LOCKOUT_WINDOW_SECS now)) (ip_bucket client_ip)
           (push_entry (ip_bucket client_ip) now (by_ip rl1)) in
  mkRateLimit users ips.

Definition clear_failed_attempts (rl : RateLimitState) (username : string) : RateLimitState :=
  mkRateLimit (delete username (by_user rl)) (by_ip rl).

(** ** Window counting *)

Section counting.
Variables (window now t : Z).
Hypothesis Hw : 0 < window.
Hypothesis Ht : t <= now.

Lemma in_window_later s : in_window window now s = true -> in_window window t s = true.
Proof. unfold in_window, u64_saturating_sub. lia. Qed.

(** Dropping what is outside the window at [t] changes no later count. *)
Lemma retain_window_later v :
  retain (in_window window now) (retain (in_window window t) v) =
  retain (in_window window now) v.
Proof.
  induction v as [|s v IH]; simpl; [done|].
  destruct (in_window window t s) eqn:E; simpl; [by rewrite IH|].
  destruct (in_window window now s) eqn:E'; [|done].
  by rewrite in_window_later in E.
Qed.

Lemma count_prune_map m k :
  count_window window now (prune_map window t m !! k) = count_window window now (m !! k).
Proof.
  unfold prune_map. rewrite lookup_omap. destruct (m !! k) as [v|]; simpl; [|done].
  rewrite <- (retain_window_later v).
  by destruct (retain (in_window window t) v).
Qed.

Lemma retain_window_app v s :
  length (retain (in_window window now) (v ++ [s])) =
  (length (retain (in_window window now) v) + if in_window window now s then 1 else 0)%nat.
Proof.
  unfold retain. rewrite List.filter_app, length_app. simpl.
  by destruct (in_window window now s).
Qed.

Lemma count_push_entry m k k' :
  count_window window now (push_entry k t m !! k') =
  (count_window window now (m !! k') +
   if decide (k = k') then if in_window window now t then 1 else 0 else 0)%nat.
Proof.
  unfold push_entry. destruct (decide (k = k')) as [->|Hne].
  - rewrite lookup_insert_eq. simpl. rewrite retain_window_app.
    by destruct (m !! k').
  - rewrite lookup_insert_ne by done. lia.
Qed.

Lemma count_alter_retain (m : gmap string (list Z)) (k k' : string) :
  count_window window now (alter (retain (in_window window t)) k m !! k') =
  count_window window now (m !! k').
Proof.
  destruct (decide (k = k')) as [->|Hne].
  - rewrite lookup_alter_eq. destruct (m !! k') as [v|]; simpl; [|done].
    by rewrite retain_window_later.
  - by rewrite lookup_alter_ne.
Qed.
End counting.

(** ** Abstract specification: the plain log *)

Inductive rl_event : Type :=
| Failure (user ip : string) (at_time : Z)
| Success (user : string).

Definition event_time (e : rl_event) : option Z :=
  match e with Failure _ _ t => Some t | Success _ => None end.

Definition step_event (rl : RateLimitState) (e : rl_event) : RateLimitState :=
  match e with
  | Failure u ip t => record_failed_attempt rl u ip t
  | Success u => clear_failed_attempts rl u
  end.

Definition run_events (rl : RateLimitState) (es : list rl_event) : RateLimitState :=
  fold_left step_event es rl.

(** Failures of [user] after their last success, inside the window. *)
Fixpoint spec_user_failures (acc : nat) (user : string) (now : Z) (es : list rl_event) : nat :=
  match es with
  | [] => acc
  | Failure u _ t :: es' =>
      spec_user_failures
        (acc + if String.eqb u user && in_window LOCKOUT_WINDOW_SECS now t then 1 else 0)
        user now es'
  | Success u :: es' => spec_user_failures (if String.eqb u user then 0 else acc) user now es'
  end.

(** Failures from the bucket of [ip] inside the window; successes do not count. *)
Definition counts_for_ip (ip : string) (now : Z) (e : rl_event) : bool :=
  match e with
  | Failure _ src t =>
      negb (String.eqb src "unknown") && String.eqb (ip_bucket src) (ip_bucket ip) &&
      in_window IP_LOCKOUT_WINDOW_SECS now t
  | Success _ => false
  end.
Definition spec_ip_failures (ip : string) (now : Z) (es : list rl_event) : nat :=
  length (retain (counts_for_ip ip now) es).

Definition events_before (now : Z) (es : list rl_event) : Prop :=
  Forall (fun e => match event_time e with Some t => t <= now | None => True end) es.

Lemma user_failures_record rl u ip t user now :
  t <= now ->
  user_failures (record_failed_attempt rl u ip t) user now =
  (user_failures rl user now +
   if String.eqb u user && in_window LOCKOUT_WINDOW_SECS now t then 1 else 0)%nat.
Proof.
  intros Ht. unfold user_failures, record_failed_attempt, prune. cbn [by_user by_ip].
  rewrite count_push_entry, count_prune_map by (done || unfold LOCKOUT_WINDOW_SECS; lia).
  destruct (String.eqb_spec u user), (decide (u = user)); try done.
Qed.

Lemma user_failures_clear rl u user now :
  user_failures (clear_failed_attempts rl u) user now =
  if String.eqb u user then 0%nat else user_failures rl user now.
Proof.
  unfold user_failures, clear_failed_attempts. cbn [by_user].
  destruct (String.eqb_spec u user) as [->|Hne].
  - by rewrite lookup_delete_eq.
  - by rewrite lookup_delete_ne.
Qed.

Lemma ip_failures_record rl u src t ip now :
  t <= now ->
  ip_failures (record_failed_attempt rl u src t) ip now =
  (ip_failures rl ip now + if counts_for_ip ip now (Failure u src t) then 1 else 0)%nat.
Proof.
  intros Ht. unfold ip_failures, record_failed_attempt, prune, counts_for_ip. cbn [by_user by_ip].
  destruct (String.eqb_spec src "unknown"); cbn [negb andb].
  - rewrite count_prune_map by (done || unfold IP_LOCKOUT_WINDOW_SECS; lia). lia.
  - rewrite count_alter_retain, count_push_entry, count_prune_map
      by (done || unfold IP_LOCKOUT_WINDOW_SECS; lia).
    destruct (String.eqb_spec (ip_bucket src) (ip_bucket ip)),
      (decide (ip_bucket src = ip_bucket ip)); try done.
Qed.

Lemma run_events_user rl es user now :
  events_before now es ->
  user_failures (run_events rl es) user now =
  spec_user_failures (user_failures rl user now) user now es.
Proof.
  revert rl. induction es as [|e es IH]; intros rl Hes; [done|].
  inversion Hes as [|? ? He Hes']; subst. simpl. rewrite IH by done.
  destruct e as [u ip t|u]; simpl in *.
  - by rewrite user_failures_record.
  - by rewrite user_failures_clear.
Qed.

Lemma spec_ip_failures_cons ip now e es :
  spec_ip_failures ip now (e :: es) =
  ((if counts_for_ip ip now e then 1 else 0) + spec_ip_failures ip now es)%nat.
Proof. unfold spec_ip_failures, retain. simpl. by destruct (counts_for_ip ip now e). Qed.

Lemma run_events_ip rl es ip now :
  events_before now es ->
  ip_failures (run_events rl es) ip now = (ip_failures rl ip now + spec_ip_failures ip now es)%nat.
Proof.
  revert rl. induction es as [|e es IH]; intros rl Hes; [cbn; lia|].
  inversion Hes as [|? ? He Hes']; subst. simpl. rewrite IH by done.
  rewrite spec_ip_failures_cons. destruct e as [u src t|u]; cbn [step_event].
  - rewrite ip_failures_record by done. lia.
  - done.
Qed.

(** C40. Pruning is invisible: after any history of failures and successful
    logins, in any order, the per-user and per-address counters the login
    handler reads equal the number of failures the full, never-pruned log holds
    inside the window (for a user, since their last success). *)
Theorem rate_limit_refines_log es user ip now :
  events_before now es ->
  user_failures (run_events empty_rate_limit es) user now = spec_user_failures 0 user now es /\
  ip_failures (run_events empty_rate_limit es) ip now = spec_ip_failures ip now es.
Proof.
  intros H. split.
  - by rewrite run_events_user.
  - by rewrite run_events_ip.
Qed.

Lemma rate_limit_refines_log_witness :
  user_failures (run_events empty_rate_limit
    [Failure "eve" "10.0.0.9" 100; Failure "eve" "10.0.0.9" 160; Success "bob";
     Failure "bob" "10.0.0.9" 500]) "eve" 1020 = 1%nat /\
  ip_failures (run_events empty_rate_limit
    [Failure "eve" "10.0.0.9" 100; Failure "eve" "10.0.0.9" 160; Success "bob";
     Failure "bob" "10.0.0.9" 500]) "10.0.0.9" 1020 = 3%nat.
Proof.
  apply (rate_limit_refines_log
    [Failure "eve" "10.0.0.9" 100; Failure "eve" "10.0.0.9" 160; Success "bob";
     Failure "bob" "10.0.0.9" 500] "eve" "10.0.0.9" 1020).
  repeat constructor; simpl; lia.
Defined.
