(* ===== verification/Auth.v ===== *)
(** * Authentication (nasty-engine/src/auth.rs)

    Users, login sessions and API tokens, and every operation of [AuthService]
    that reads or changes them.  The clock, fresh random values, the outcome of
    persisting [auth.json] and the answers of other services are arguments of
    the operations; the cryptographic crates are the fields of [AuthLibs]. *)

From Stdlib Require Import ZArith Lia Ascii String.
From stdpp Require Import base list gmap strings.
From S2P Require Import Prelude RustStr Net RateLimit.

(** ** Third-party code

    argon2, sha2, subtle and webauthn-rs. *)
Class AuthLibs : Type := {
  Passkey : Type;
  AuthenticationResult : Type;
  cred_id : Passkey -> string;
  result_cred_id : AuthenticationResult -> string;
  update_credential : Passkey -> AuthenticationResult -> Passkey;
  (** [Argon2::verify_password] on a parsed hash: [verify password hash]. *)
  argon2_verify : string -> string -> bool;
  sha256_hex : string -> string;
  (** [subtle::ConstantTimeEq] on byte strings of equal length. *)
  ct_eq : string -> string -> bool;
}.

Class AuthLibsOk (L : AuthLibs) : Prop := {
  ct_eq_spec a b : String.length a = String.length b -> ct_eq a b = String.eqb a b;
}.

(** ** Data *)

Inductive Role : Type := Admin | ReadOnly | Operator | RUser.

#[export] Instance Role_eq_dec : EqDecision Role.
Proof. solve_decision. Defined.

Definition role_eqb (a b : Role) : bool := bool_decide (a = b).

Definition SESSION_TTL_SECS : Z := 8 * 3600.

Record Session : Type := mkSession {
  s_token : string;
  s_username : string;
  s_role : Role;
  s_file_principal : option string;
  s_filesystem : option string;
  s_owner : option string;
  s_created_at : Z;
  s_must_change_password : bool;
  s_client_ip : option string;
}.

Inductive EndpointAccess : Type :=
| Read | Mutation | UnscopedMutation | RootEquivalent | SelfService | PortalFiles.

#[export] Instance EndpointAccess_eq_dec : EqDecision EndpointAccess.
Proof. solve_decision. Defined.

Inductive AccessDenied : Type :=
| PasswordChangeRequired | InsufficientRole | ScopedCredential
| MissingFilePrincipal | InteractiveSessionRequired.

Definition message (d : AccessDenied) : string :=
  match d with
  | PasswordChangeRequired => "Password change required"
  | InsufficientRole => "Permission denied"
  | ScopedCredential => "Scoped credentials cannot access this endpoint"
  | MissingFilePrincipal => "A file principal is required"
  | InteractiveSessionRequired => "An interactive session is required"
  end.

(** [o.is_none_or(str::is_empty)]. *)
Definition none_or_empty (o : option string) : bool :=
  match o with Some s => String.eqb s "" | None => true end.

Definition authorize_session (session : Session) (access : EndpointAccess)
    : result unit AccessDenied :=
  if s_must_change_password session && negb (bool_decide (access = SelfService))
  then Err PasswordChangeRequired
  else
    let role_allowed :=
      match access with
      | Read => negb (role_eqb (s_role session) RUser)
      | SelfService => true
      | Mutation | UnscopedMutation =>
          match s_role session with Admin | Operator => true | _ => false end
      | RootEquivalent => role_eqb (s_role session) Admin
      | PortalFiles => role_eqb (s_role session) RUser
      end in
    if negb role_allowed then Err InsufficientRole
    else if (match access with
             | UnscopedMutation | RootEquivalent | PortalFiles => true
             | _ => false
             end) && (is_some (s_filesystem session) || is_some (s_owner session))
    then Err ScopedCredential
    else
      match access with
      | PortalFiles =>
          if negb (is_some (s_client_ip session)) then Err InteractiveSessionRequired
          else if none_or_empty (s_file_principal session) then Err MissingFilePrincipal
          else Ok tt
      | _ => Ok tt
      end.

Inductive AuthError : Type :=
| InvalidCredentials | AccountLocked | InvalidToken | TokenExpired | Forbidden
| UserNotFound | UserExists | NotFound | WeakPassword
| InvalidFilePrincipal (reason : string)
| HashError (reason : string)
| StateCorrupt | StateUninitialized
| StateUnsafe (reason : string)
| StateIo (operation : string)
| StateSerialize
| Io.

Definition require_unscoped_admin (session : Session) : result unit AuthError :=
  match authorize_session session RootEquivalent with
  | Ok _ => Ok tt
  | Err _ => Err Forbidden
  end.

Record ApiToken : Type := mkApiToken {
  t_id : string;
  t_name : string;
  t_token : string;
  t_role : Role;
  t_created_at : Z;
  t_filesystem : option string;
  t_expires_at : option Z;
  t_allowed_ips : list string;
}.

Record ApiTokenInfo : Type := mkApiTokenInfo {
  ti_id : string;
  ti_name : string;
  ti_role : Role;
  ti_created_at : Z;
  ti_filesystem : option string;
  ti_expires_at : option Z;
  ti_allowed_ips : list string;
}.

(** Identity an OIDC callback verified (auth_oidc.rs). *)
Record OidcIdentity : Type := mkOidcIdentity {
  issuer : string;
  subject : string;
  email : option string;
  preferred_username : option string;
  groups : list string;
}.

(** One audit-log entry: event, user and address.  The free-text detail and the
    timestamp of the log line are not modelled. *)
Definition audit_entry : Type := (string * string * string)%type.

Section auth.
Context {L : AuthLibs}.

Record WebauthnCredential : Type := mkWebauthnCredential {
  c_label : string;
  c_created_at : Z;
  c_passkey : Passkey;
}.

Record User : Type := mkUser {
  username : string;
  password_hash : option string;
  role : Role;
  file_principal : option string;
  must_change_password : bool;
  oidc_subject : option string;
  oidc_issuer : option string;
  webauthn_credentials : list WebauthnCredential;
}.

Record AuthState : Type := mkAuthState {
  users : list User;
  sessions : list Session;
  api_tokens : list ApiToken;
  initialized : bool;
}.

(** The service: its two locks and the audit log. *)
Record Service : Type := mkService {
  state : AuthState;
  rate_limit : RateLimitState;
  audit_log : list audit_entry;
}.

Abbreviation op := (stm Service AuthError).

Definition set_users (st : AuthState) (us : list User) : AuthState :=
  mkAuthState us (sessions st) (api_tokens st) (initialized st).
Definition set_sessions (st : AuthState) (ss : list Session) : AuthState :=
  mkAuthState (users st) ss (api_tokens st) (initialized st).
Definition set_tokens (st : AuthState) (ts : list ApiToken) : AuthState :=
  mkAuthState (users st) (sessions st) ts (initialized st).

Definition audit (event user ip : string) : op unit :=
  m_modify (fun s => mkService (state s) (rate_limit s) (audit_log s ++ [(event, user, ip)])).

Definition get_state : op AuthState := fun s => (s, Ok (state s)).
Definition get_rate_limit : op RateLimitState := fun s => (s, Ok (rate_limit s)).
Definition put_rate_limit (rl : RateLimitState) : op unit :=
  m_modify (fun s => mkService (state s) rl (audit_log s)).

(** ** Persisting [auth.json]

    [None] is success; [Some (e, committed)] a failure [e] before
    ([committed = false]) or after the rename that publishes the new file. *)
Definition StatePersistResult : Type := option (AuthError * bool).

Definition finish_state_commit (next : AuthState) (r : StatePersistResult) : op unit :=
  match r with
  | None => m_modify (fun s => mkService next (rate_limit s) (audit_log s))
  | Some (e, committed) =>
      (if committed
       then m_modify (fun s => mkService next (rate_limit s) (audit_log s)) ;;;
            audit "auth_state_committed_with_durability_error" "system" "local"
       else m_ret tt) ;;;
      m_throw e
  end.

Definition commit_state := finish_state_commit.

(** ** Helpers *)

Definition ct_eq_str (a b : string) : bool :=
  if negb (String.length a =? String.length b)%nat then false else ct_eq a b.

Definition hash_token (token : string) : string := "sha256:" +:+ sha256_hex token.

Definition is_only_admin (us : list User) (name : string) : bool :=
  match retain (fun u => role_eqb (role u) Admin) us with
  | [u] => String.eqb (username u) name
  | _ => false
  end.

Definition revoke_user_sessions (ss : list Session) (name : string) : list Session :=
  retain (fun s => negb (String.eqb (s_username s) name)) ss.

Definition clear_must_change (s : Session) : Session :=
  mkSession (s_token s) (s_username s) (s_role s) (s_file_principal s) (s_filesystem s)
    (s_owner s) (s_created_at s) false (s_client_ip s).

Definition revoke_sessions_after_password_change (ss : list Session)
    (target_username actor_username current_token : string) : list Session :=
  let changing_own_password := String.eqb target_username actor_username in
  let ss1 := retain (fun s => negb (String.eqb (s_username s) target_username)
    || (changing_own_password && ct_eq_str (s_token s) current_token)) ss in
  if changing_own_password
  then default ss1 (update_first (fun s => ct_eq_str (s_token s) current_token)
                      clear_must_change ss1)
  else ss1.

(** [now - s.created_at <= SESSION_TTL_SECS], in wrapping [u64]. *)
Definition session_live (now : Z) (s : Session) : bool :=
  u64_sub now (s_created_at s) <=? SESSION_TTL_SECS.

Definition verify_password (password hash : string) : bool := argon2_verify password hash.

(** [verify_login_password]: a user without a password never verifies.
    [available] is false when the worker pool is gone or the task fails. *)
Definition verify_login_password (available : bool) (password : string)
    (hash : option string) : bool :=
  available && match hash with
               | Some h => verify_password password h
               | None => false
               end.

(** [chars().any(char::is_control)]: U+0000-001F, U+007F and U+0080-009F. *)
Fixpoint has_control (l : bytes) : bool :=
  match l with
  | [] => false
  | c :: l' =>
      (code c <? 32) || (code c =? 127)
      || ((code c =? 194) && match l' with d :: _ => in_range 128 159 d | [] => false end)
      || has_control l'
  end.

Definition validate_file_principal_binding (r : Role) (fp : option string)
    : result (option string) AuthError :=
  match r with
  | RUser =>
      match fp with
      | None => Err (InvalidFilePrincipal "Role::User requires a non-empty file_principal")
      | Some raw =>
          let principal := trim raw in
          if String.eqb principal ""
          then Err (InvalidFilePrincipal "Role::User requires a non-empty file_principal")
          else if (256 <? String.length principal)%nat || has_control (to_bytes principal)
          then Err (InvalidFilePrincipal "principal is too long or contains control characters")
          else Ok (Some principal)
      end
  | Admin | Operator | ReadOnly =>
      match fp with
      | Some _ => Err (InvalidFilePrincipal "file_principal is only valid for Role::User")
      | None => Ok None
      end
  end.

Definition name_taken (us : list User) (name : string) : bool :=
  existsb (fun u => String.eqb (username u) name) us.

(** [for n in 2..]: [S (length us)] candidates always contain a free one. *)
Fixpoint pick_suffix (fuel : nat) (n : Z) (us : list User) (base : string) : option string :=
  match fuel with
  | O => None
  | S k =>
      let candidate := base +:+ "-" +:+ fmt_dec n in
      if negb (name_taken us candidate) then Some candidate
      else pick_suffix k (n + 1) us base
  end.

Definition pick_base (identity : OidcIdentity) : string :=
  let base :=
    match preferred_username identity with
    | Some p => p
    | None =>
        match email identity with
        | Some e => match str_split "@" e with p :: _ => p | [] => subject identity end
        | None => subject identity
        end
    end in
  let base := trim base in
  if String.eqb base "" then subject identity else base.

Definition pick_username (us : list User) (identity : OidcIdentity) : option string :=
  let base := pick_base identity in
  if negb (name_taken us base) then Some base
  else pick_suffix (S (length us)) 2 us base.

Definition parse_role_str (s : string) : option Role :=
  let r := to_ascii_lowercase (trim s) in
  if String.eqb r "admin" then Some Admin
  else if String.eqb r "operator" then Some Operator
  else if one_of ["readonly"; "read_only"; "read-only"] r then Some ReadOnly
  else if String.eqb r "user" then Some RUser
  else None.

(** ** Sessions *)

(** Principal bound to an interactive standard-user session. *)
Definition session_principal (r : Role) (fp : option string) : option string :=
  if role_eqb r RUser then fp else None.

Definition prune_and_push (now : Z) (ss : list Session) (s : Session) : list Session :=
  retain (session_live now) ss ++ [s].

Definition m_guard (b : bool) (e : AuthError) : op unit :=
  if b then m_ret tt else m_throw e.

(** First half of [login]: rate limits, then the password check, all on read
    locks.  Returns the user and the hash that was verified. *)
Definition login_begin (now : Z) (available : bool) (name password client_ip : string)
    : op (User * string) :=
  rl <~ get_rate_limit ;;
  (if negb (String.eqb client_ip "unknown")
      && (MAX_IP_FAILED_ATTEMPTS <=? ip_failures rl client_ip now)%nat
   then audit "login_ip_locked" name client_ip ;;; m_throw AccountLocked
   else m_ret tt) ;;;
  st <~ get_state ;;
  let only_admin := is_only_admin (users st) name in
  (if (MAX_FAILED_ATTEMPTS <=? user_failures rl name now)%nat
   then if only_admin
        then audit "login_lockout_suppressed_only_admin" name client_ip
        else audit "login_locked" name client_ip ;;; m_throw AccountLocked
   else m_ret tt) ;;;
  let user := find_first (fun u => String.eqb (username u) name) (users st) in
  let hash := u ← user; password_hash u in
  let verified := verify_login_password available password hash in
  let failed :=
    audit "login_failed" name client_ip ;;;
    rl <~ get_rate_limit ;;
    put_rate_limit (record_failed_attempt rl name client_ip now) ;;;
    m_throw InvalidCredentials in
  match user, hash, verified with
  | Some u, Some h, true => m_ret (u, h)
  | _, _, _ => failed
  end.

(** Second half of [login], under the write lock.  [user] and [hash] are what
    [login_begin] returned; the state may have changed since. *)
Definition login_finish (now : Z) (token : string) (persisted : StatePersistResult)
    (name client_ip : string) (user : User) (hash : string) : op string :=
  st <~ get_state ;;
  m_guard (existsb (fun u => String.eqb (username u) name
             && bool_decide (password_hash u = Some hash)) (users st)) InvalidCredentials ;;;
  rl <~ get_rate_limit ;;
  put_rate_limit (clear_failed_attempts rl name) ;;;
  let session := mkSession token (username user) (role user)
    (session_principal (role user) (file_principal user)) None None now
    (must_change_password user) (Some client_ip) in
  commit_state (set_sessions st (prune_and_push now (sessions st) session)) persisted ;;;
  audit "login_success" name client_ip ;;;
  m_ret token.

(** [login] with no other request in between. *)
Definition login (now : Z) (available : bool) (token : string) (persisted : StatePersistResult)
    (name password client_ip : string) : op string :=
  uh <~ login_begin now available name password client_ip ;;
  login_finish now token persisted name client_ip (fst uh) (snd uh).

Definition position {A} (p : A -> bool) (l : list A) : option nat :=
  (fix go (i : nat) (l : list A) : option nat :=
     match l with
     | [] => None
     | x :: l' => if p x then Some i else go (S i) l'
     end) 0%nat l.

Definition oidc_matches (identity : OidcIdentity) (u : User) : bool :=
  bool_decide (oidc_subject u = Some (subject identity)) &&
  bool_decide (oidc_issuer u = Some (issuer identity)).

Definition set_role (u : User) (r : Role) (fp : option string) : User :=
  mkUser (username u) (password_hash u) r fp (must_change_password u)
    (oidc_subject u) (oidc_issuer u) (webauthn_credentials u).

Definition display_name (identity : OidcIdentity) : string :=
  default (subject identity) (preferred_username identity).

(** The user list after provisioning, with the index and the name of the
    account that signs in; [Err] carries the audit event as well. *)
Definition oidc_resolve (us : list User) (identity : OidcIdentity) (r : Role)
    (auto_provision : bool) : result (list User * nat * option string) (string * AuthError) :=
  let existing_idx := position (oidc_matches identity) us in
  let safely_bound :=
    negb (none_or_empty (i ← existing_idx; u ← us !! i; file_principal u)) in
  if role_eqb r RUser && negb safely_bound
  then Err ("oidc_login_denied_unbound_user", Forbidden)
  else
    match existing_idx with
    | Some idx => Ok (us, idx, None)
    | None =>
        if negb auto_provision then Err ("oidc_login_failed", UserNotFound)
        else
          match pick_username us identity with
          | Some name =>
              Ok (us ++ [mkUser name None r None false (Some (subject identity))
                           (Some (issuer identity)) []], length us, Some name)
          | None => Err ("unreachable", UserNotFound)
          end
    end.

Definition login_or_provision_oidc (now : Z) (token : string) (persisted : StatePersistResult)
    (identity : OidcIdentity) (derived_role : option Role) (auto_provision : bool)
    (client_ip : string) : op string :=
  match derived_role with
  | None =>
      audit "oidc_login_denied_no_role" (display_name identity) client_ip ;;; m_throw Forbidden
  | Some r =>
      st <~ get_state ;;
      match oidc_resolve (users st) identity r auto_provision with
      | Err (event, e) => audit event (display_name identity) client_ip ;;; m_throw e
      | Ok (us, idx, provisioned) =>
          match us !! idx with
          | None => m_throw UserNotFound
          | Some u =>
              let role_changed := negb (role_eqb (role u) r) in
              let u' :=
                if role_changed
                then set_role u r (if role_eqb r RUser then file_principal u else None)
                else u in
              let ss := if role_changed then revoke_user_sessions (sessions st) (username u')
                        else sessions st in
              let session := mkSession token (username u') r
                (session_principal r (file_principal u')) None None now false
                (Some client_ip) in
              commit_state (mkAuthState (<[idx := u']> us) (prune_and_push now ss session)
                (api_tokens st) (initialized st)) persisted ;;;
              (match provisioned with
               | Some name => audit "oidc_user_provisioned" name client_ip
               | None => m_ret tt
               end) ;;;
              (if role_changed
               then audit "oidc_role_updated_on_login" (username u') client_ip
               else m_ret tt) ;;;
              audit "oidc_login_success" (username u') client_ip ;;;
              m_ret token
          end
      end
  end.

(** ** Validating a bearer token *)

Definition token_session (token : string) (t : ApiToken) : Session :=
  mkSession token (t_name t) (t_role t) None (t_filesystem t)
    (if role_eqb (t_role t) Operator then Some (t_name t) else None)
    (t_created_at t) false None.

Definition validate (now : Z) (persisted : StatePersistResult) (token client_ip : string)
    : op Session :=
  st <~ get_state ;;
  match find_first (fun s => ct_eq_str (s_token s) token) (sessions st) with
  | Some session =>
      if negb (session_live now session)
      then
        m_ignore (commit_state (set_sessions st
          (retain (fun s => negb (ct_eq_str (s_token s) token)) (sessions st))) persisted) ;;;
        m_throw TokenExpired
      else
        match s_client_ip session with
        | Some bound_ip =>
            if negb (String.eqb bound_ip client_ip)
            then audit "session_ip_mismatch" (s_username session) client_ip ;;;
                 m_throw InvalidToken
            else m_ret session
        | None => m_ret session
        end
  | None =>
      let incoming_hash := hash_token token in
      t <~ m_lift (ok_or (find_first (fun t => ct_eq_str (t_token t) incoming_hash)
                            (api_tokens st)) InvalidToken) ;;
      m_guard (match t_expires_at t with Some exp => now <? exp | None => true end)
        TokenExpired ;;;
      (if (match t_allowed_ips t with [] => false | _ => true end)
          && negb (existsb (fun ip => String.eqb ip client_ip) (t_allowed_ips t))
       then audit "token_ip_rejected" (t_name t) client_ip ;;; m_throw InvalidToken
       else m_ret tt) ;;;
      m_ret (token_session token t)
  end.

Definition require_admin (now : Z) (persisted : StatePersistResult) (token client_ip : string)
    : op Session :=
  session <~ validate now persisted token client_ip ;;
  m_guard (role_eqb (s_role session) Admin) Forbidden ;;;
  m_ret session.

(** ** API tokens *)

Definition actor_ip (s : Session) : string := default "" (s_client_ip s).

Definition create_api_token (now : Z) (id raw_token : string) (persisted : StatePersistResult)
    (session : Session) (name : string) (r : Role) (filesystem : option string)
    (expires_in_secs : option Z) (allowed_ips : list string) : op ApiToken :=
  m_lift (require_unscoped_admin session) ;;;
  m_guard (negb (role_eqb r RUser)) Forbidden ;;;
  st <~ get_state ;;
  m_guard (negb (existsb (fun t => String.eqb (t_name t) name) (api_tokens st)
                 || name_taken (users st) name)) UserExists ;;;
  let expires_at := option_map (u64_add now) expires_in_secs in
  let stored := mkApiToken id name (hash_token raw_token) r now filesystem expires_at
                  allowed_ips in
  commit_state (set_tokens st (api_tokens st ++ [stored])) persisted ;;;
  audit "token_created" (s_username session) (actor_ip session) ;;;
  m_ret (mkApiToken id name raw_token r now filesystem expires_at allowed_ips).

Definition list_api_tokens (session : Session) : op (list ApiTokenInfo) :=
  m_lift (require_unscoped_admin session) ;;;
  st <~ get_state ;;
  m_ret ((fun t => mkApiTokenInfo (t_id t) (t_name t) (t_role t) (t_created_at t)
            (t_filesystem t) (t_expires_at t) (t_allowed_ips t)) <$> api_tokens st).

Definition delete_api_token (persisted : StatePersistResult) (session : Session) (id : string)
    : op unit :=
  m_lift (require_unscoped_admin session) ;;;
  st <~ get_state ;;
  let kept := retain (fun t => negb (String.eqb (t_id t) id)) (api_tokens st) in
  m_guard (negb (length kept =? length (api_tokens st))%nat) UserNotFound ;;;
  commit_state (set_tokens st kept) persisted ;;;
  audit "token_deleted" (s_username session) (actor_ip session).

(** ** Accounts *)

Definition logout (persisted : StatePersistResult) (token : string) : op unit :=
  st <~ get_state ;;
  let kept := retain (fun s => negb (String.eqb (s_token s) token)) (sessions st) in
  m_guard (negb (length kept =? length (sessions st))%nat) InvalidToken ;;;
  commit_state (set_sessions st kept) persisted.

Definition set_password (h : string) (u : User) : User :=
  mkUser (username u) (Some h) (role u) (file_principal u) false
    (oidc_subject u) (oidc_issuer u) (webauthn_credentials u).

(** [hashed] is the outcome of [hash_password(new_password)] with its random
    salt.  [str::len] counts bytes. *)
Definition change_password (hashed : result string AuthError) (persisted : StatePersistResult)
    (session : Session) (name new_password : string) : op unit :=
  m_guard (is_some (s_client_ip session)) Forbidden ;;;
  m_guard (role_eqb (s_role session) Admin || String.eqb (s_username session) name)
    Forbidden ;;;
  m_guard (8 <=? String.length new_password)%nat WeakPassword ;;;
  st <~ get_state ;;
  m_guard (name_taken (users st) name) UserNotFound ;;;
  h <~ m_lift hashed ;;
  let us := default (users st)
    (update_first (fun u => String.eqb (username u) name) (set_password h) (users st)) in
  let ss := revoke_sessions_after_password_change (sessions st) name
              (s_username session) (s_token session) in
  commit_state (mkAuthState us ss (api_tokens st) (initialized st)) persisted ;;;
  audit "password_changed" (s_username session) (actor_ip session).

(** [smb_answer] is [SmbService::principal_authorization] on the principal. *)
Definition create_user (hashed : result string AuthError) (persisted : StatePersistResult)
    (smb_answer : string -> result unit string) (session : Session)
    (name password : string) (r : Role) (fp : option string) : op unit :=
  m_lift (require_unscoped_admin session) ;;;
  m_guard (8 <=? String.length password)%nat WeakPassword ;;;
  principal <~ m_lift (validate_file_principal_binding r fp) ;;
  m_lift (match principal with
          | Some p => match smb_answer p with
                      | Ok _ => Ok tt
                      | Err reason => Err (InvalidFilePrincipal reason)
                      end
          | None => Ok tt
          end) ;;;
  st <~ get_state ;;
  m_guard (negb (name_taken (users st) name
                 || existsb (fun t => String.eqb (t_name t) name) (api_tokens st)))
    UserExists ;;;
  h <~ m_lift hashed ;;
  commit_state (set_users st (users st ++
    [mkUser name (Some h) r principal false None None []])) persisted ;;;
  audit "user_created" (s_username session) (actor_ip session).

Definition delete_user (persisted : StatePersistResult) (session : Session) (name : string)
    : op unit :=
  m_lift (require_unscoped_admin session) ;;;
  m_guard (negb (String.eqb (s_username session) name)) Forbidden ;;;
  st <~ get_state ;;
  let kept := retain (fun u => negb (String.eqb (username u) name)) (users st) in
  m_guard (negb (length kept =? length (users st))%nat) UserNotFound ;;;
  commit_state (mkAuthState kept (revoke_user_sessions (sessions st) name)
    (api_tokens st) (initialized st)) persisted ;;;
  audit "user_deleted" (s_username session) (actor_ip session).

(** ** WebAuthn credentials *)

Definition set_credentials (f : list WebauthnCredential -> list WebauthnCredential) (u : User)
    : User :=
  mkUser (username u) (password_hash u) (role u) (file_principal u) (must_change_password u)
    (oidc_subject u) (oidc_issuer u) (f (webauthn_credentials u)).

Definition by_name (name : string) (u : User) : bool := String.eqb (username u) name.

Definition any_webauthn_credentials_registered : op bool :=
  st <~ get_state ;;
  m_ret (existsb (fun u => match webauthn_credentials u with [] => false | _ => true end)
           (users st)).

Definition webauthn_credentials_for (name : string) : op (list WebauthnCredential) :=
  st <~ get_state ;;
  m_ret (match find_first (by_name name) (users st) with
         | Some u => webauthn_credentials u
         | None => []
         end).

Definition add_webauthn_credential (persisted : StatePersistResult) (name : string)
    (credential : WebauthnCredential) : op unit :=
  st <~ get_state ;;
  us <~ m_lift (ok_or (update_first (by_name name)
          (set_credentials (fun cs => cs ++ [credential])) (users st)) UserNotFound) ;;
  commit_state (set_users st us) persisted.

Definition remove_webauthn_credential (persisted : StatePersistResult) (name id : string)
    : op unit :=
  st <~ get_state ;;
  u <~ m_lift (ok_or (find_first (by_name name) (users st)) UserNotFound) ;;
  let keep := retain (fun c => negb (String.eqb (cred_id (c_passkey c)) id)) in
  m_guard (negb (length (keep (webauthn_credentials u)) =? length (webauthn_credentials u))%nat)
    NotFound ;;;
  commit_state (set_users st (default (users st)
    (update_first (by_name name) (set_credentials keep) (users st)))) persisted.

Definition has_non_webauthn_factor (name : string) : op bool :=
  st <~ get_state ;;
  m_ret (match find_first (by_name name) (users st) with
         | Some u => is_some (password_hash u)
                     || (is_some (oidc_subject u) && is_some (oidc_issuer u))
         | None => false
         end).

Definition reset_webauthn_credentials (persisted : StatePersistResult) (actor : Session)
    (target_username : string) : op nat :=
  m_lift (require_unscoped_admin actor) ;;;
  st <~ get_state ;;
  u <~ m_lift (ok_or (find_first (by_name target_username) (users st)) UserNotFound) ;;
  commit_state (set_users st (default (users st)
    (update_first (by_name target_username) (set_credentials (fun _ => [])) (users st))))
    persisted ;;;
  audit "webauthn_reset_for_user" (s_username actor) (actor_ip actor) ;;;
  m_ret (length (webauthn_credentials u)).

Definition bump_credential (r : AuthenticationResult) (c : WebauthnCredential)
    : WebauthnCredential :=
  mkWebauthnCredential (c_label c) (c_created_at c) (update_credential (c_passkey c) r).

Definition update_webauthn_sign_count (persisted : StatePersistResult) (name : string)
    (r : AuthenticationResult) : op unit :=
  st <~ get_state ;;
  u <~ m_lift (ok_or (find_first (by_name name) (users st)) UserNotFound) ;;
  cs <~ m_lift (ok_or (update_first
          (fun c => String.eqb (cred_id (c_passkey c)) (result_cred_id r))
          (bump_credential r) (webauthn_credentials u)) NotFound) ;;
  commit_state (set_users st (default (users st)
    (update_first (by_name name) (set_credentials (fun _ => cs)) (users st)))) persisted.

Definition mint_session_for_webauthn (now : Z) (token : string)
    (persisted : StatePersistResult) (name client_ip : string) : op string :=
  rl <~ get_rate_limit ;;
  (if negb (String.eqb client_ip "unknown")
      && (MAX_IP_FAILED_ATTEMPTS <=? ip_failures rl client_ip now)%nat
   then audit "login_webauthn_ip_locked" name client_ip ;;; m_throw AccountLocked
   else m_ret tt) ;;;
  st <~ get_state ;;
  (if (MAX_FAILED_ATTEMPTS <=? user_failures rl name now)%nat
      && negb (is_only_admin (users st) name)
   then audit "login_webauthn_locked" name client_ip ;;; m_throw AccountLocked
   else m_ret tt) ;;;
  u <~ m_lift (ok_or (find_first (by_name name) (users st)) UserNotFound) ;;
  let session := mkSession token (username u) (role u)
    (session_principal (role u) (file_principal u)) None None now false (Some client_ip) in
  commit_state (set_sessions st (prune_and_push now (sessions st) session)) persisted ;;;
  rl <~ get_rate_limit ;;
  put_rate_limit (clear_failed_attempts rl name) ;;;
  audit "login_webauthn_success" name client_ip ;;;
  m_ret token.

Definition record_webauthn_failure (now : Z) (name client_ip : string) : op unit :=
  rl <~ get_rate_limit ;;
  put_rate_limit (record_failed_attempt rl name client_ip now).

(** ** Start-up *)

Definition default_admin (h : string) : User :=
  mkUser "admin" (Some h) Admin None true None None [].

(** [loaded] is what [load_state_from] returned, [created] the outcome of
    creating a fresh [auth.json]. *)
Definition initialize_state (loaded : result (option AuthState) AuthError)
    (hashed : result string AuthError) (created : StatePersistResult)
    : result AuthState AuthError :=
  o <-? loaded ;;
  match o with
  | Some st => if negb (initialized st) then Err StateUninitialized else Ok st
  | None =>
      h <-? hashed ;;
      match created with
      | None => Ok (mkAuthState [default_admin h] [] [] true)
      | Some (e, _) => Err e
      end
  end.
End auth.
