(* ===== verification/AuthInv.v ===== *)
(** * Invariants of the authentication service

    The service as a transition system: every request, and the two halves of a
    password login as separate steps, so that other requests may run between
    the password check and the commit.  Each request is shown to refine a small
    machine of elementary account updates; the invariants are proved for the
    updates and carried over by rule induction on reachability. *)

From Stdlib Require Import ZArith Lia Ascii String.
From stdpp Require Import base list gmap strings relations.
From S2P Require Import Prelude RustStr Net RateLimit Auth.

Section inv.
Context {L : AuthLibs}.

(** ** Requests and steps *)

Inductive request : Type :=
| ReqOidc (now : Z) (token : string) (persisted : StatePersistResult)
    (identity : OidcIdentity) (derived_role : option Role) (auto_provision : bool)
    (client_ip : string)
| ReqValidate (now : Z) (persisted : StatePersistResult) (token client_ip : string)
| ReqCreateToken (now : Z) (id raw : string) (persisted : StatePersistResult)
    (session : Session) (name : string) (r : Role) (filesystem : option string)
    (expires_in_secs : option Z) (allowed_ips : list string)
| ReqDeleteToken (persisted : StatePersistResult) (session : Session) (id : string)
| ReqLogout (persisted : StatePersistResult) (token : string)
| ReqChangePassword (hashed : result string AuthError) (persisted : StatePersistResult)
    (session : Session) (name new_password : string)
| ReqCreateUser (hashed : result string AuthError) (persisted : StatePersistResult)
    (smb_answer : string -> result unit string) (session : Session)
    (name password : string) (r : Role) (fp : option string)
| ReqDeleteUser (persisted : StatePersistResult) (session : Session) (name : string)
| ReqAddCredential (persisted : StatePersistResult) (name : string) (c : WebauthnCredential)
| ReqRemoveCredential (persisted : StatePersistResult) (name id : string)
| ReqResetCredentials (persisted : StatePersistResult) (actor : Session) (name : string)
| ReqSignCount (persisted : StatePersistResult) (name : string) (r : AuthenticationResult)
| ReqWebauthnLogin (now : Z) (token : string) (persisted : StatePersistResult)
    (name client_ip : string)
| ReqWebauthnFailure (now : Z) (name client_ip : string).

Definition discard {A} (m : stm Service AuthError A) : stm Service AuthError unit :=
  m_bind m (fun _ => m_ret tt).

Definition exec (r : request) : stm Service AuthError unit :=
  match r with
  | ReqOidc now tok p id dr ap ip => discard (login_or_provision_oidc now tok p id dr ap ip)
  | ReqValidate now p tok ip => discard (validate now p tok ip)
  | ReqCreateToken now id raw p s n r fs ex ips =>
      discard (create_api_token now id raw p s n r fs ex ips)
  | ReqDeleteToken p s id => delete_api_token p s id
  | ReqLogout p tok => logout p tok
  | ReqChangePassword h p s n pw => change_password h p s n pw
  | ReqCreateUser h p smb s n pw r fp => create_user h p smb s n pw r fp
  | ReqDeleteUser p s n => delete_user p s n
  | ReqAddCredential p n c => add_webauthn_credential p n c
  | ReqRemoveCredential p n id => remove_webauthn_credential p n id
  | ReqResetCredentials p s n => discard (reset_webauthn_credentials p s n)
  | ReqSignCount p n r => update_webauthn_sign_count p n r
  | ReqWebauthnLogin now tok p n ip => discard (mint_session_for_webauthn now tok p n ip)
  | ReqWebauthnFailure now n ip => record_webauthn_failure now n ip
  end.

(** A password login whose check succeeded and whose commit is to come. *)
Record pending : Type := mkPending {
  p_now : Z;
  p_name : string;
  p_ip : string;
  p_user : User;
  p_hash : string;
}.

Definition config : Type := (Service * list pending)%type.

Inductive step : config -> config -> Prop :=
| step_request r s ps :
    step (s, ps) (fst (exec r s), ps)
| step_login_checked now available name password ip s s' u h ps :
    login_begin now available name password ip s = (s', Ok (u, h)) ->
    step (s, ps) (s', mkPending now name ip u h :: ps)
| step_login_refused now available name password ip s s' e ps :
    login_begin now available name password ip s = (s', Err e) ->
    step (s, ps) (s', ps)
| step_login_commit token persisted p s ps1 ps2 :
    step (s, ps1 ++ p :: ps2)
      (fst (login_finish (p_now p) token persisted (p_name p) (p_ip p) (p_user p) (p_hash p) s),
       ps1 ++ ps2).

Definition initial (c : config) : Prop :=
  exists h rl, c = (mkService (mkAuthState [default_admin h] [] [] true) rl [], []).

Definition reachable (c : config) : Prop := exists c0, initial c0 /\ rtc step c0 c.

(** ** The invariant *)

(** A standard user has a non-empty file principal and nobody else has one. *)
Definition principal_ok (u : User) : Prop :=
  match role u with
  | RUser => exists p, file_principal u = Some p /\ p <> ""
  | _ => file_principal u = None
  end.

(** A stored session is interactive, unscoped and carries a principal exactly
    for a standard user. *)
Definition session_ok (s : Session) : Prop :=
  s_filesystem s = None /\ s_owner s = None /\ (exists ip, s_client_ip s = Some ip) /\
  match s_role s with
  | RUser => exists p, s_file_principal s = Some p /\ p <> ""
  | _ => s_file_principal s = None
  end.

Record wf (st : AuthState) : Prop := mkWf {
  wf_users : NoDup (username <$> users st);
  wf_tokens : NoDup (t_name <$> api_tokens st);
  wf_token_roles : Forall (fun t => t_role t <> RUser) (api_tokens st);
  wf_principals : Forall principal_ok (users st);
  wf_sessions : Forall session_ok (sessions st);
  wf_owners : Forall (fun s => s_username s ∈ username <$> users st) (sessions st);
}.

Definition pending_ok (p : pending) : Prop :=
  username (p_user p) = p_name p /\ principal_ok (p_user p).

Definition config_ok (c : config) : Prop := wf (state c.1) /\ Forall pending_ok c.2.

(** ** The machine of account updates *)

Definition fresh_for (us : list User) (ts : list ApiToken) (name : string) : Prop :=
  name_taken us name = false /\ existsb (fun t => String.eqb (t_name t) name) ts = false.

(** The session a sign-in of [u] creates. *)
Definition session_of (u : User) (s : Session) : Prop :=
  s_username s = username u /\ s_role s = role u /\
  s_file_principal s = session_principal (role u) (file_principal u) /\
  s_filesystem s = None /\ s_owner s = None /\ is_some (s_client_ip s) = true.

Definition same_account (f : User -> User) : Prop :=
  forall u, username (f u) = username u /\ role (f u) = role u /\
    file_principal (f u) = file_principal u.

Inductive update : AuthState -> AuthState -> Prop :=
| up_drop_sessions st p :
    update st (set_sessions st (retain p (sessions st)))
| up_sign_in st now u s :
    u ∈ users st -> session_of u s ->
    update st (set_sessions st (prune_and_push now (sessions st) s))
| up_add_token st t :
    fresh_for (users st) (api_tokens st) (t_name t) -> t_role t <> RUser ->
    update st (set_tokens st (api_tokens st ++ [t]))
| up_drop_tokens st p :
    update st (set_tokens st (retain p (api_tokens st)))
| up_edit st p f us :
    same_account f -> update_first p f (users st) = Some us ->
    update st (set_users st us)
| up_password st h name actor tok us :
    update_first (fun u => String.eqb (username u) name) (set_password h) (users st) = Some us ->
    update st (mkAuthState us
      (revoke_sessions_after_password_change (sessions st) name actor tok)
      (api_tokens st) (initialized st))
| up_add_user st u :
    fresh_for (users st) (api_tokens st) (username u) -> principal_ok u ->
    update st (set_users st (users st ++ [u]))
| up_delete_user st name :
    update st (mkAuthState (retain (fun u => negb (String.eqb (username u) name)) (users st))
      (revoke_user_sessions (sessions st) name) (api_tokens st) (initialized st))
| up_provision st u :
    name_taken (users st) (username u) = false ->
    role u <> RUser -> file_principal u = None ->
    update st (set_users st (users st ++ [u]))
| up_change_role st idx u r :
    users st !! idx = Some u ->
    (r = RUser -> none_or_empty (file_principal u) = false) ->
    update st (mkAuthState
      (<[idx := set_role u r (if role_eqb r RUser then file_principal u else None)]> (users st))
      (revoke_user_sessions (sessions st) (username u)) (api_tokens st) (initialized st)).

(** ** Rules for the primitives

    [R st0 s]: the service state [s] is reached from [st0] by updates. *)

Definition R (st0 : AuthState) (s : Service) : Prop := rtc update st0 (state s).

Variable st0 : AuthState.

Lemma keeps_get_state : keeps (R st0) get_state (rtc update st0).
Proof. done. Qed.
Lemma keeps_get_rate_limit : keeps (R st0) get_rate_limit (fun _ => True).
Proof. done. Qed.
Lemma keeps_put_rate_limit rl : keeps (R st0) (put_rate_limit rl) (fun _ => True).
Proof. by intros [] ?. Qed.
Lemma keeps_audit e u ip : keeps (R st0) (audit e u ip) (fun _ => True).
Proof. by intros [] ?. Qed.
Lemma keeps_guard b e : keeps (R st0) (m_guard b e) (fun _ => b = true).
Proof. intros s Hs. by destruct b. Qed.
Lemma keeps_commit next p :
  rtc update st0 next -> keeps (R st0) (commit_state next p) (fun _ => True).
Proof. intros Hn [st rl log] Hs. destruct p as [[e []]|]; done. Qed.
End inv.

Create HintDb keeps.
#[export] Hint Resolve keeps_get_rate_limit keeps_put_rate_limit keeps_audit keeps_guard
  keeps_get_state keeps_throw keeps_lift : keeps.

(** Walk a monadic program with the rules above, leaving one goal per commit. *)
Ltac keeps_step :=
  match goal with
  | |- keeps _ (m_bind (if _ then _ else _) _) _ =>
      eapply (keeps_bind _ _ _ (fun _ => True)); [|intros ? _]
  | |- keeps _ (m_bind (match _ with _ => _ end) _) _ =>
      eapply (keeps_bind _ _ _ (fun _ => True)); [|intros ? _]
  | |- keeps _ (m_bind _ _) _ => eapply keeps_bind; [|intros ? ?]
  | |- keeps _ (if ?b then _ else _) _ => destruct b eqn:?
  | |- keeps _ (match ?x with _ => _ end) _ => destruct x eqn:?
  | |- keeps _ (commit_state _ _) _ => apply keeps_commit
  | |- keeps _ (m_ignore _) _ => eapply keeps_ignore
  | |- keeps _ (m_ret _) _ => by apply (keeps_ret _ _ (fun _ => True))
  | |- keeps _ _ _ => solve [eauto with keeps]
  end.
Ltac keeps_tac := repeat keeps_step; simplify_eq/=; bool_hyps.

(** Close a commit goal: append one update to the history. *)
Ltac one_update c :=
  match goal with H : rtc update _ ?st |- rtc update _ _ =>
    eapply rtc_r; [exact H|]; eapply (c st) end.

Section refinement.
Context {L : AuthLibs} (st0 : AuthState).

Abbreviation refines m := (keeps (R st0) m (fun _ => True)).

Lemma ok_or_find {A} (p : A -> bool) l (e : AuthError) x :
  ok_or (find_first p l) e = Ok x -> find_first p l = Some x.
Proof. destruct (find_first p l); simpl; congruence. Qed.

Lemma find_update_Some {A} (p : A -> bool) f l x :
  find_first p l = Some x -> exists l', update_first p f l = Some l'.
Proof.
  intros H. destruct (update_first p f l) eqn:E; [eauto|].
  apply update_first_None in E. congruence.
Qed.

Lemma name_taken_update us name f :
  name_taken us name = true ->
  exists us', update_first (fun u => String.eqb (username u) name) f us = Some us'.
Proof.
  unfold name_taken. intros (u & Hin & Hu)%existsb_true_elem.
  destruct (find_first (fun u => String.eqb (username u) name) us) eqn:E.
  - by eapply find_update_Some.
  - rewrite (proj1 (find_first_None _ _) E u Hin) in Hu. done.
Qed.

Lemma same_account_credentials f : same_account (set_credentials f).
Proof. done. Qed.

Lemma session_of_new u tok now b ip :
  session_of u (mkSession tok (username u) (role u)
    (session_principal (role u) (file_principal u)) None None now b (Some ip)).
Proof. done. Qed.

Lemma refines_validate now p tok ip : refines (validate now p tok ip).
Proof. unfold validate. keeps_tac. one_update up_drop_sessions. Qed.

Lemma refines_create_token now id raw p s n r fs ex ips :
  refines (create_api_token now id raw p s n r fs ex ips).
Proof.
  unfold create_api_token. keeps_tac. one_update up_add_token; simpl.
  - split; [done|]. by apply existsb_false_elem.
  - unfold role_eqb in *. by eapply bool_decide_eq_false_1.
Qed.

Lemma refines_create_user h p smb s n pw r fp : refines (create_user h p smb s n pw r fp).
Proof.
  unfold create_user. keeps_tac. one_update up_add_user; simpl.
  - split; [done|]. by apply existsb_false_elem.
  - match goal with H : validate_file_principal_binding _ _ = Ok _ |- _ =>
      unfold validate_file_principal_binding in H; unfold principal_ok; simpl; break_in H end.
    bool_hyps. eauto.
Qed.

Lemma refines_change_password h p s n pw : refines (change_password h p s n pw).
Proof.
  unfold change_password. keeps_tac.
  match goal with H : name_taken _ _ = true |- context [set_password ?h] =>
    destruct (name_taken_update _ _ (set_password h) H) as [us E] end.
  rewrite E. simpl. one_update up_password. done.
Qed.

(** Editing the credentials of the user found by name. *)
Lemma refines_edit f p st us :
  rtc update st0 st -> same_account f -> update_first p f (users st) = Some us ->
  rtc update st0 (set_users st us).
Proof. intros. one_update up_edit; eauto. Qed.

Lemma refines_credentials f name st x (e : AuthError) :
  rtc update st0 st -> ok_or (find_first (by_name name) (users st)) e = Ok x ->
  rtc update st0 (set_users st
    (default (users st) (update_first (by_name name) (set_credentials f) (users st)))).
Proof.
  intros Hst Hx%ok_or_find. destruct (find_update_Some _ (set_credentials f) _ _ Hx) as [us E].
  rewrite E. simpl. by eapply refines_edit; [done| |exact E].
Qed.

Lemma refines_webauthn_login now tok p n ip : refines (mint_session_for_webauthn now tok p n ip).
Proof.
  unfold mint_session_for_webauthn. keeps_tac.
  match goal with H : ok_or _ _ = Ok _ |- _ =>
    apply ok_or_find, find_first_Some in H as [Hin _] end.
  one_update up_sign_in; [exact Hin|apply session_of_new].
Qed.

(** *** OIDC *)

Lemma pick_suffix_fresh fuel n us base name :
  pick_suffix fuel n us base = Some name -> name_taken us name = false.
Proof.
  revert n. induction fuel as [|k IH]; simpl; intros n; [done|].
  destruct (name_taken us (base +:+ "-" +:+ fmt_dec n)) eqn:E; simpl;
    [apply IH|by intros [= <-]].
Qed.

Lemma pick_username_not_taken us id name :
  pick_username us id = Some name -> name_taken us name = false.
Proof.
  unfold pick_username. destruct (name_taken us (pick_base id)) eqn:E; cbn [negb].
  - apply pick_suffix_fresh.
  - by intros [= <-].
Qed.

(** [oidc_resolve] leaves the users alone or provisions one account; the
    account it names is bound to a principal if the role is [User]. *)
Lemma oidc_resolve_update st id r ap us idx prov :
  oidc_resolve (users st) id r ap = Ok (us, idx, prov) ->
  rtc update st (set_users st us) /\
  forall u, us !! idx = Some u -> r = RUser -> none_or_empty (file_principal u) = false.
Proof.
  unfold oidc_resolve. destruct (role_eqb r RUser && _) eqn:Hsafe; [done|].
  destruct (position (oidc_matches id) (users st)) as [i|] eqn:Hpos; simpl in Hsafe.
  - intros [= <- <- <-]. split; [by destruct st|].
    intros u Hu ->. rewrite Hu in Hsafe. unfold role_eqb in Hsafe. simpl in Hsafe.
    bool_hyps. done.
  - destruct (negb ap); [done|]. destruct (pick_username _ _) as [name|] eqn:Hp; [|done].
    intros [= <- <- <-].
    assert (r <> RUser) as Hr by (intros ->; done). split; [|done].
    apply rtc_once, up_provision; simpl; [by eapply pick_username_not_taken|done|done].
Qed.

Lemma oidc_sign_in st idx u r tok now ip :
  users st !! idx = Some u ->
  (r = RUser -> none_or_empty (file_principal u) = false) ->
  let role_changed := negb (role_eqb (role u) r) in
  let u' := if role_changed
            then set_role u r (if role_eqb r RUser then file_principal u else None) else u in
  let ss := if role_changed then revoke_user_sessions (sessions st) (username u')
            else sessions st in
  rtc update st (mkAuthState (<[idx := u']> (users st))
    (prune_and_push now ss (mkSession tok (username u') r
      (session_principal r (file_principal u')) None None now false (Some ip)))
    (api_tokens st) (initialized st)).
Proof.
  intros Hu Hr. cbv zeta. destruct (role_eqb (role u) r) eqn:Hrole; cbn [negb].
  - apply bool_decide_eq_true_1 in Hrole. subst r.
    rewrite list_insert_id by done. apply rtc_once.
    apply (up_sign_in st now u); [by eapply list_elem_of_lookup_2|apply session_of_new].
  - eapply rtc_l; [by apply (up_change_role st idx u r)|]. apply rtc_once.
    match goal with |- context [<[idx := ?v]> _] =>
      apply (up_sign_in (mkAuthState _ _ _ _) now v); [|apply (session_of_new v)] end.
    simpl. apply list_elem_of_lookup_2 with idx. apply list_lookup_insert_eq.
    by eapply lookup_lt_Some.
Qed.

Lemma refines_oidc now tok p id dr ap ip :
  refines (login_or_provision_oidc now tok p id dr ap ip).
Proof.
  unfold login_or_provision_oidc. keeps_tac.
  match goal with H : oidc_resolve _ _ _ _ = Ok _ |- _ =>
      destruct (oidc_resolve_update _ _ _ _ _ _ _ H) as [Hus Hfp] end.
  etransitivity; [eassumption|]. etransitivity; [exact Hus|].
  match goal with H : _ !! _ = Some _ |- _ =>
    exact (oidc_sign_in (set_users _ _) _ _ _ tok now ip H (Hfp _ H)) end.
Qed.

(** Every request refines the machine of account updates. *)
Lemma refines_exec r : refines (exec r).
Proof.
  destruct r; simpl; unfold discard; try (eapply keeps_bind; [|intros; by apply keeps_ret]).
  - apply refines_oidc.
  - apply refines_validate.
  - apply refines_create_token.
  - unfold delete_api_token. keeps_tac. one_update up_drop_tokens.
  - unfold logout. keeps_tac. one_update up_drop_sessions.
  - apply refines_change_password.
  - apply refines_create_user.
  - unfold delete_user. keeps_tac. one_update up_delete_user.
  - unfold add_webauthn_credential. keeps_tac.
    destruct (update_first _ _ _) eqn:?; simplify_eq/=. by eapply refines_edit; [| |eassumption].
  - unfold remove_webauthn_credential. keeps_tac. by eapply refines_credentials.
  - unfold reset_webauthn_credentials. keeps_tac. by eapply refines_credentials.
  - unfold update_webauthn_sign_count. keeps_tac. by eapply refines_credentials.
  - apply refines_webauthn_login.
  - unfold record_webauthn_failure. keeps_tac.
Qed.
End refinement.

Section invariants.
Context {L : AuthLibs}.

(** ** [wf] is kept by every update *)

Lemma session_of_ok u s : principal_ok u -> session_of u s -> session_ok s.
Proof.
  unfold principal_ok, session_of, session_ok, session_principal, role_eqb.
  intros H (_ & Hr & Hp & ? & ? & Hip). rewrite Hr, Hp. split_and!; [done..| |].
  - destruct (s_client_ip s); [eauto|done].
  - by destruct (role u).
Qed.

Lemma wf_same_names st us :
  wf st -> username <$> us = username <$> users st -> Forall principal_ok us ->
  wf (set_users st us).
Proof. intros [] Hn ?. constructor; simpl; try done; by rewrite Hn. Qed.

Lemma wf_retain_sessions st p :
  wf st -> wf (set_sessions st (retain p (sessions st))).
Proof. intros []. constructor; simpl; auto with nasty. Qed.

Lemma wf_push_session st now s :
  wf st -> session_ok s -> s_username s ∈ username <$> users st ->
  wf (set_sessions st (prune_and_push now (sessions st) s)).
Proof.
  intros [] ? ?. unfold prune_and_push.
  constructor; simpl; auto; rewrite Forall_app; auto with nasty.
Qed.

Lemma NoDup_snoc_fmap {A} (f : A -> string) l x :
  NoDup (f <$> l) -> existsb (fun y => String.eqb (f y) (f x)) l = false ->
  NoDup (f <$> (l ++ [x])).
Proof.
  intros Hn Hf. bool_hyps. rewrite fmap_app. apply NoDup_app.
  split_and!; [done| |apply NoDup_singleton].
  intros y Hy ->%list_elem_of_singleton. apply list_elem_of_fmap in Hy as (z & Hz & Hin).
  specialize (Hf _ Hin). rewrite <- Hz, String.eqb_refl in Hf. done.
Qed.

Lemma wf_add_user st u :
  wf st -> name_taken (users st) (username u) = false -> principal_ok u ->
  wf (set_users st (users st ++ [u])).
Proof.
  intros [] Hf Hp. constructor; simpl; try done.
  - by apply NoDup_snoc_fmap.
  - rewrite Forall_app. by repeat constructor.
  - eapply Forall_impl; [done|]. intros s. simpl. rewrite fmap_app. set_solver.
Qed.

Lemma wf_delete_user st name :
  wf st ->
  wf (mkAuthState (retain (fun u => negb (String.eqb (username u) name)) (users st))
        (revoke_user_sessions (sessions st) name) (api_tokens st) (initialized st)).
Proof.
  intros []. constructor; simpl; auto with nasty.
  - by apply Forall_retain.
  - rewrite Forall_forall in *. intros s [Hs Hn]%elem_of_retain. bool_hyps.
    destruct (list_elem_of_fmap_1 _ _ _ (wf_owners0 s Hs)) as (u & Hu & Hin).
    rewrite Hu. apply list_elem_of_fmap_2, elem_of_retain. split; [done|].
    apply negb_true_iff, String.eqb_neq. congruence.
Qed.

Lemma Forall_revoke_password (P : Session -> Prop) ss a b c :
  (forall s, P s -> P (clear_must_change s)) ->
  Forall P ss -> Forall P (revoke_sessions_after_password_change ss a b c).
Proof.
  intros HP HF. unfold revoke_sessions_after_password_change.
  destruct (String.eqb a b); [|by apply Forall_retain].
  destruct (update_first _ _ _) as [ss'|] eqn:E; simpl; [|by apply Forall_retain].
  eapply Forall_update_first; [|by apply Forall_retain|exact E]. auto.
Qed.

Lemma same_account_wf st p f us :
  wf st -> same_account f -> update_first p f (users st) = Some us -> wf (set_users st us).
Proof.
  intros Hwf Hf E. apply wf_same_names; [done| |].
  - eapply NoDup_update_first; [|exact E]. apply Hf.
  - eapply Forall_update_first; [|apply Hwf|exact E]. intros u _ _.
    destruct (Hf u) as (_ & Hr & Hp). unfold principal_ok. by rewrite Hr, Hp.
Qed.

Lemma set_password_account h : same_account (set_password h).
Proof. done. Qed.

Lemma wf_password st h name actor tok us :
  wf st ->
  update_first (fun u => String.eqb (username u) name) (set_password h) (users st) = Some us ->
  wf (mkAuthState us (revoke_sessions_after_password_change (sessions st) name actor tok)
        (api_tokens st) (initialized st)).
Proof.
  intros Hwf E. destruct (same_account_wf _ _ _ _ Hwf (set_password_account h) E).
  simpl in *. constructor; simpl; try done; by apply Forall_revoke_password.
Qed.

Lemma principal_role_change u r :
  (r = RUser -> none_or_empty (file_principal u) = false) ->
  principal_ok (set_role u r (if role_eqb r RUser then file_principal u else None)).
Proof.
  unfold principal_ok, role_eqb. simpl. intros Hr. destruct r; simpl; try done.
  specialize (Hr eq_refl). destruct (file_principal u) as [p|]; simpl in *; [|done].
  bool_hyps. eauto.
Qed.

Lemma wf_change_role st idx u r :
  wf st -> users st !! idx = Some u ->
  (r = RUser -> none_or_empty (file_principal u) = false) ->
  wf (mkAuthState
    (<[idx := set_role u r (if role_eqb r RUser then file_principal u else None)]> (users st))
    (revoke_user_sessions (sessions st) (username u)) (api_tokens st) (initialized st)).
Proof.
  intros Hwf Hu Hr.
  apply (wf_same_names (set_sessions st (revoke_user_sessions (sessions st) (username u)))).
  - by apply wf_retain_sessions.
  - rewrite list_fmap_insert. apply list_insert_id. cbn [users set_sessions].
    by rewrite list_lookup_fmap, Hu.
  - apply Forall_insert; [apply Hwf|]. by apply principal_role_change.
Qed.

Lemma update_wf st st' : update st st' -> wf st -> wf st'.
Proof.
  destruct 1; intros Hwf.
  - by apply wf_retain_sessions.
  - apply wf_push_session; [done| |].
    + eapply session_of_ok; [|done]. by eapply Forall_forall; [apply wf_principals|].
    + destruct H0 as (-> & _). by apply list_elem_of_fmap_2.
  - destruct Hwf, H. constructor; simpl; try done; [by apply NoDup_snoc_fmap|].
    rewrite Forall_app. by repeat constructor.
  - destruct Hwf. constructor; simpl; auto with nasty.
  - by eapply same_account_wf.
  - by eapply wf_password.
  - destruct H. by apply wf_add_user.
  - by apply wf_delete_user.
  - apply wf_add_user; [done..|]. unfold principal_ok. by destruct (role u).
  - by apply wf_change_role.
Qed.

(** ** Sessions carry the current role of their user *)

Definition coherent (st : AuthState) : Prop :=
  forall se u, se ∈ sessions st -> u ∈ users st -> username u = s_username se ->
    role u = s_role se.

Lemma NoDup_username_inj us u v :
  NoDup (username <$> us) -> u ∈ us -> v ∈ us -> username u = username v -> u = v.
Proof.
  intros Hnd (i & Hi)%list_elem_of_lookup (j & Hj)%list_elem_of_lookup Huv.
  assert (i = j) as ->; [|congruence].
  eapply (NoDup_lookup _ i j (username u)); [exact Hnd| |]; rewrite list_lookup_fmap;
    [rewrite Hi|rewrite Hj]; simpl; congruence.
Qed.

(** Fewer sessions, and users of the same names and roles. *)
Lemma coherent_weaken st st' :
  coherent st ->
  (forall se', se' ∈ sessions st' -> exists se, se ∈ sessions st /\
     s_username se = s_username se' /\ s_role se = s_role se') ->
  (forall u', u' ∈ users st' -> (exists u, u ∈ users st /\
     username u = username u' /\ role u = role u') \/
     forall se', se' ∈ sessions st' -> s_username se' <> username u') ->
  coherent st'.
Proof.
  intros Hc Hs Hu se' u' Hse' Hu' Hn.
  destruct (Hu _ Hu') as [(u & Huin & Hnm & <-)|Hno]; [|naive_solver].
  destruct (Hs _ Hse') as (se & Hin & Hnm' & <-). apply Hc; [done..|congruence].
Qed.

Lemma update_first_users p f us us' u' :
  same_account f -> update_first p f us = Some us' -> u' ∈ us' ->
  exists u, u ∈ us /\ username u = username u' /\ role u = role u'.
Proof.
  intros Hf (l1 & x & l2 & -> & -> & _)%update_first_Some Hu'.
  destruct (Hf x) as (? & ? & _).
  apply elem_of_app in Hu' as [?|[->|?]%elem_of_cons]; [exists u'|exists x|exists u'];
    split_and!; set_solver.
Qed.

Lemma revoke_password_sessions ss name actor tok se' :
  se' ∈ revoke_sessions_after_password_change ss name actor tok ->
  exists se, se ∈ ss /\ s_username se = s_username se' /\ s_role se = s_role se'.
Proof.
  unfold revoke_sessions_after_password_change. set (ss1 := retain _ ss).
  assert (forall x, x ∈ ss1 -> x ∈ ss) as Hsub by (intros x [? _]%elem_of_retain; done).
  destruct (String.eqb _ _); [|eauto]. destruct (update_first _ _ ss1) eqn:E; simpl; [|eauto].
  apply update_first_Some in E as (l1 & x & l2 & E1 & -> & _). rewrite E1 in Hsub.
  intros [?|[->|?]%elem_of_cons]%elem_of_app; [exists se'|exists x|exists se'];
    split_and!; set_solver.
Qed.

Lemma no_session_of_fresh st name :
  wf st -> name_taken (users st) name = false ->
  forall se, se ∈ sessions st -> s_username se <> name.
Proof.
  intros Hwf Hf se Hse <-. unfold name_taken in Hf. bool_hyps.
  pose proof (wf_owners _ Hwf) as HF. rewrite Forall_forall in HF.
  destruct (list_elem_of_fmap_1 _ _ _ (HF _ Hse)) as (u & Hu & Hin).
  specialize (Hf _ Hin). rewrite Hu, String.eqb_refl in Hf. done.
Qed.

Lemma update_coherent st st' : update st st' -> wf st -> coherent st -> coherent st'.
Proof.
  destruct 1; intros Hwf Hc.
  - eapply coherent_weaken; [done| |simpl; eauto].
    intros se [? _]%elem_of_retain. eauto.
  - intros se v Hse Hv Hn. simpl in Hv. unfold prune_and_push in Hse. cbn in Hse.
    apply elem_of_app in Hse as [[Hse _]%elem_of_retain| ->%list_elem_of_singleton]; [by apply Hc|].
    destruct H0 as (Hn' & -> & _). f_equal.
    eapply NoDup_username_inj; [apply Hwf|done..|congruence].
  - done.
  - done.
  - eapply coherent_weaken; [done|eauto|]. intros u' Hu'. left.
    by eapply update_first_users.
  - eapply coherent_weaken; [done| |].
    + intros se' Hse'. by eapply revoke_password_sessions.
    + intros u' Hu'. left. eapply update_first_users; [|done..]. done.
  - destruct H. eapply coherent_weaken; [done|eauto|]. simpl.
    intros u' [?| ->%list_elem_of_singleton]%elem_of_app; [eauto|right].
    by apply no_session_of_fresh.
  - eapply coherent_weaken; [done| |].
    + intros se' [? _]%elem_of_retain. eauto.
    + intros u' [? _]%elem_of_retain. eauto.
  - eapply coherent_weaken; [done|eauto|]. simpl.
    intros u' [?| ->%list_elem_of_singleton]%elem_of_app; [eauto|right].
    by apply no_session_of_fresh.
  - eapply coherent_weaken; [done| |].
    + intros se' [? _]%elem_of_retain. eauto.
    + simpl. intros u' [Hu'|Hu']%elem_of_insert_inv; [|eauto]. right.
      subst u'. simpl. intros se' [_ Hse']%elem_of_retain. by bool_hyps.
Qed.

(** ** Password logins, in two steps *)

Ltac run := unfold m_bind, get_rate_limit, get_state, audit, put_rate_limit, m_modify,
  m_throw, m_ret, m_guard in *; simpl in *.

Lemma login_begin_state now av name pw ip s :
  state (fst (login_begin now av name pw ip s)) = state s.
Proof.
  unfold login_begin. run.
  destruct (negb _ && _); [done|]. destruct (_ <=? _)%nat.
  - destruct (is_only_admin _ _); [|done]. simpl.
    destruct (find_first _ _); simpl; [|done]. destruct (password_hash _); simpl; [|done].
    by destruct (verify_login_password _ _ _).
  - destruct (find_first _ _); simpl; [|done]. destruct (password_hash _); simpl; [|done].
    by destruct (verify_login_password _ _ _).
Qed.

(** What a successful check established, in the state it read. *)
Lemma login_begin_user now av name pw ip s s' u h :
  login_begin now av name pw ip s = (s', Ok (u, h)) ->
  find_first (fun u => String.eqb (username u) name) (users (state s)) = Some u /\
  password_hash u = Some h /\ verify_password pw h = true.
Proof.
  unfold login_begin, verify_login_password. run.
  destruct (negb _ && _); [done|].
  destruct (find_first _ _) as [u0|] eqn:Hf; simpl.
  2: { repeat case_match; naive_solver. }
  destruct (password_hash u0) as [h0|] eqn:Hh; simpl.
  2: { repeat case_match; naive_solver. }
  destruct (verify_password pw h0) eqn:Hv; [|rewrite andb_false_r; repeat case_match; naive_solver].
  repeat case_match; naive_solver.
Qed.

Lemma login_finish_wf now tok p name ip u h s :
  username u = name -> principal_ok u -> wf (state s) ->
  wf (state (fst (login_finish now tok p name ip u h s))).
Proof.
  intros Hn Hp Hwf. unfold login_finish. run.
  destruct (existsb _ _) eqn:E; [|done]. bool_hyps. destruct E as (u' & Hin & Hu'). bool_hyps.
  assert (wf (set_sessions (state s) (prune_and_push now (sessions (state s))
    (mkSession tok (username u) (role u) (session_principal (role u) (file_principal u))
       None None now (must_change_password u) (Some ip))))) as Hnext.
  { apply wf_push_session; [done|by eapply session_of_ok; [|apply session_of_new]|].
    cbn [s_username]. rewrite Hn. match goal with H : username u' = _ |- _ => rewrite <- H end.
    by apply list_elem_of_fmap_2. }
  by destruct p as [[e []]|].
Qed.

Lemma step_ok c c' : step c c' -> config_ok c -> config_ok c'.
Proof.
  unfold config_ok. destruct 1 as [r s ps|now av nm pw ip s s' u h ps E|now av nm pw ip s s' e ps E
    |tok p' p s ps1 ps2]; simpl; intros [Hwf Hps].
  - split; [|done]. destruct (refines_exec (state s) r s) as [Hr _]; [by apply rtc_refl|].
    unfold R in Hr. clear Hps. induction Hr; eauto using update_wf.
  - pose proof (login_begin_state now av nm pw ip s) as Hs. rewrite E in Hs. simpl in Hs.
    rewrite Hs. split; [done|]. apply login_begin_user in E as (Hf & _).
    apply find_first_Some in Hf as [Hin Hu]. bool_hyps. constructor; [|done].
    split; [done|]. by eapply Forall_forall; [apply wf_principals|].
  - pose proof (login_begin_state now av nm pw ip s) as Hs. rewrite E in Hs. simpl in Hs.
    by rewrite Hs.
  - rewrite Forall_app, Forall_cons in Hps. destruct Hps as (? & [? ?] & ?).
    split; [by apply login_finish_wf|by rewrite Forall_app].
Qed.

Lemma initial_ok c : initial c -> config_ok c.
Proof.
  intros (h & rl & ->). split; [|done]. constructor; simpl; try constructor; try done.
  - set_solver.
  - constructor.
Qed.

Lemma reachable_ok c : reachable c -> config_ok c.
Proof.
  intros (c0 & Hi & Hr). apply initial_ok in Hi.
  induction Hr as [|c1 c2 c3 Hs _ IH]; [done|]. eauto using step_ok.
Qed.

(** C1. In every reachable state of the service, whatever requests ran and
    however their commits to disk failed, and with any number of password
    logins caught between their check and their commit: usernames and
    API-token names are unique, no API token carries the [User] role, a
    standard user has a non-empty file principal and nobody else has one, and
    every login session is unscoped, bound to an address, belongs to an
    existing user and carries a principal exactly when its role is [User]. *)
Theorem reachable_wf c : reachable c -> wf (state c.1).
Proof. intros [H _]%reachable_ok. exact H. Qed.
End invariants.
