(* ===== verification/AuthProps.v ===== *)
(** * What authentication guarantees

    Functional behaviour of the operations of [Auth] on every branch: token
    validation, lockouts, revocation, scoping, and the two places where the
    implementation falls short of the rule its siblings keep. *)

From Stdlib Require Import ZArith Lia Ascii String.
From stdpp Require Import base list gmap strings relations.
From S2P Require Import Prelude RustStr Net RateLimit Auth AuthInv.

(** ** A concrete instance of the third-party code *)

#[export] Instance toy_libs : AuthLibs := {|
  Passkey := string;
  AuthenticationResult := string;
  cred_id p := p;
  result_cred_id r := r;
  update_credential p _ := p;
  argon2_verify password hash := String.eqb hash ("argon2:" +:+ password);
  sha256_hex t := "h(" +:+ t +:+ ")";
  ct_eq := String.eqb;
|}.

#[export] Instance toy_libs_ok : AuthLibsOk toy_libs.
Proof. by constructor. Qed.

Ltac run := unfold m_guard, m_bind, get_rate_limit, get_state, audit, put_rate_limit, m_modify,
  m_throw, m_ret, m_lift, m_ignore in *; simpl in *.

(** ** The endpoint gate *)

Section gate.

(** What each endpoint class demands of a session. *)
Definition unscoped (s : Session) : Prop := s_filesystem s = None /\ s_owner s = None.

Definition access_spec (s : Session) (a : EndpointAccess) : Prop :=
  match a with
  | SelfService => True
  | Read => s_must_change_password s = false /\ s_role s <> RUser
  | Mutation => s_must_change_password s = false /\ (s_role s = Admin \/ s_role s = Operator)
  | UnscopedMutation =>
      s_must_change_password s = false /\ (s_role s = Admin \/ s_role s = Operator) /\ unscoped s
  | RootEquivalent => s_must_change_password s = false /\ s_role s = Admin /\ unscoped s
  | PortalFiles =>
      s_must_change_password s = false /\ s_role s = RUser /\ unscoped s /\
      (exists ip, s_client_ip s = Some ip) /\
      exists p, s_file_principal s = Some p /\ p <> ""
  end.

Lemma unscoped_spec s :
  is_some (s_filesystem s) || is_some (s_owner s) = false <-> unscoped s.
Proof. unfold unscoped. destruct (s_filesystem s), (s_owner s); naive_solver. Qed.

Lemma none_or_empty_spec o : none_or_empty o = false <-> exists p, o = Some p /\ p <> "".
Proof.
  destruct o as [p|]; simpl; [|naive_solver]. rewrite String.eqb_neq. naive_solver.
Qed.

Lemma authorize_spec s a : authorize_session s a = Ok tt <-> access_spec s a.
Proof.
  unfold authorize_session, access_spec, role_eqb.
  destruct (s_must_change_password s), a; simpl; try (split; [done|naive_solver]); try done.
  all: destruct (s_role s) eqn:Hr; simpl; try (split; [done|naive_solver]); try naive_solver.
  all: rewrite <- unscoped_spec;
    destruct (is_some (s_filesystem s) || is_some (s_owner s)); simpl;
    try (split; [done|naive_solver]); try naive_solver.
  rewrite <- none_or_empty_spec.
  destruct (s_client_ip s); simpl; [|split; [done|naive_solver]].
  destruct (none_or_empty _); simpl; naive_solver.
Qed.

(** The shared endpoint gate admits a session exactly when the rule of the
    endpoint class holds of it, and the classes are nested: whoever passes the
    root-equivalent gate passes the unscoped-mutation gate, whoever passes
    that passes the mutation gate, then the read gate, then self-service;
    file-portal sessions pass none of the management gates. *)
Theorem authorize_session_exact s :
  (forall a, authorize_session s a = Ok tt <-> access_spec s a) /\
  (authorize_session s RootEquivalent = Ok tt -> authorize_session s UnscopedMutation = Ok tt) /\
  (authorize_session s UnscopedMutation = Ok tt -> authorize_session s Mutation = Ok tt) /\
  (authorize_session s Mutation = Ok tt -> authorize_session s Read = Ok tt) /\
  (authorize_session s Read = Ok tt -> authorize_session s SelfService = Ok tt) /\
  (authorize_session s PortalFiles = Ok tt -> authorize_session s Read = Err InsufficientRole).
Proof.
  split; [apply authorize_spec|]. rewrite !authorize_spec.
  unfold access_spec. split_and!; try naive_solver.
  - intros [? [Hr|Hr]]; by rewrite Hr.
  - intros (Hm & Hr & _). unfold authorize_session, role_eqb. by rewrite Hm, Hr.
Qed.
End gate.

(** ** Validation *)

Section validation.
Context {L : AuthLibs} {LOk : AuthLibsOk L}.

Lemma ct_eq_str_spec a b : ct_eq_str a b = String.eqb a b.
Proof.
  unfold ct_eq_str. destruct (Nat.eqb_spec (String.length a) (String.length b)); simpl.
  - by apply ct_eq_spec.
  - symmetry. apply String.eqb_neq. congruence.
Qed.

(** What a token is good for, in a given state at a given time and address. *)
Definition valid_credential (st : AuthState) (now : Z) (tok ip : string) (sess : Session)
    : Prop :=
  (sess ∈ sessions st /\ s_token sess = tok /\ session_live now sess = true /\
   (s_client_ip sess = None \/ s_client_ip sess = Some ip)) \/
  (exists t, t ∈ api_tokens st /\ t_token t = hash_token tok /\
     (forall e, t_expires_at t = Some e -> now < e) /\
     (t_allowed_ips t = [] \/ ip ∈ t_allowed_ips t) /\
     sess = token_session tok t).

Lemma validate_ok_inv now p tok ip s s' sess :
  validate now p tok ip s = (s', Ok sess) ->
  s' = s /\ valid_credential (state s) now tok ip sess.
Proof.
  unfold validate, valid_credential. run.
  destruct (find_first _ (sessions _)) as [se|] eqn:Hf.
  - apply find_first_Some in Hf as [Hin Ht]. rewrite ct_eq_str_spec in Ht. bool_hyps.
    destruct (session_live now se) eqn:Hl; simpl; [|by destruct p as [[? []]|]].
    destruct (s_client_ip se) as [b|] eqn:Hip.
    + destruct (String.eqb_spec b ip) as [->|]; simpl; [|done].
      intros [= <- <-]. naive_solver.
    + intros [= <- <-]. naive_solver.
  - destruct (find_first _ (api_tokens _)) as [t|] eqn:Ht; simpl; [|done].
    apply find_first_Some in Ht as [Hin Heq]. rewrite ct_eq_str_spec in Heq. bool_hyps.
    destruct (match t_expires_at t with Some exp => now <? exp | None => true end) eqn:He;
      [|done].
    destruct (_ && _) eqn:Hips; [done|]. intros [= <- <-]. split; [done|]. right.
    exists t. split_and!; try done.
    + intros e Hexp. rewrite Hexp in He. lia.
    + destruct (t_allowed_ips t) eqn:Hal; [by left|right]. simpl in Hips. bool_hyps.
      apply orb_true_iff in Hips as [Hi|Hi]; bool_hyps; [subst; set_solver|].
      destruct Hi as (i & ? & ?). bool_hyps. subst. set_solver.
Qed.

(** [validate] only ever returns a session that is stored, unexpired and
    used from the address it is bound to, or the session of a stored API token
    whose SHA-256 matches, which has not expired and allows the address; and
    on success it changes nothing. *)
Theorem validate_sound now p tok ip s s' sess :
  validate now p tok ip s = (s', Ok sess) ->
  s' = s /\ valid_credential (state s) now tok ip sess.
Proof. apply validate_ok_inv. Qed.

(** The wrapping subtraction behind the session lifetime. *)
Lemma session_live_spec now s :
  0 <= now < 2 ^ 63 -> 0 <= s_created_at s < 2 ^ 63 ->
  session_live now s = true <-> s_created_at s <= now <= s_created_at s + SESSION_TTL_SECS.
Proof.
  intros Hn Hc. unfold session_live, SESSION_TTL_SECS.
  destruct (Z.le_gt_cases (s_created_at s) now).
  - rewrite u64_sub_le by (unfold u64_modulus; lia). lia.
  - rewrite u64_sub_gt by (unfold u64_modulus; lia). unfold u64_modulus. lia.
Qed.

(** A login session validates at most eight hours after it was created,
    and never at a clock reading before its creation: the unsigned difference
    wraps, so a clock set back expires sessions instead of extending them. *)
Theorem session_lifetime now p tok ip s s' sess :
  0 <= now < 2 ^ 63 -> 0 <= s_created_at sess < 2 ^ 63 ->
  s_client_ip sess <> None ->
  validate now p tok ip s = (s', Ok sess) ->
  s_created_at sess <= now <= s_created_at sess + 28800.
Proof.
  intros Hn Hc Hip [_ [(_ & _ & Hl & _)|(t & _ & _ & _ & _ & ->)]]%validate_ok_inv; [|done].
  by apply session_live_spec in Hl.
Qed.

(** An API token never reaches further than its declaration: its session
    has the token's role, is confined to the token's filesystem, never opens
    the file portal, and an Operator token is always confined to its own
    subvolumes, so it fails every gate that asks for an unscoped session. *)
Theorem api_token_confined now p tok ip s s' sess :
  validate now p tok ip s = (s', Ok sess) -> s_client_ip sess = None ->
  wf (state s) ->
  exists t, t ∈ api_tokens (state s) /\ s_role sess = t_role t /\ t_role t <> RUser /\
    s_filesystem sess = t_filesystem t /\
    authorize_session sess PortalFiles = Err InsufficientRole /\
    (t_role t = Operator -> s_owner sess = Some (t_name t) /\
       authorize_session sess UnscopedMutation = Err ScopedCredential) /\
    (forall fs, t_filesystem t = Some fs -> authorize_session sess RootEquivalent <> Ok tt).
Proof.
  intros [_ [(Hin & _ & _ & [Hi|Hi])|(t & Hin & _ & _ & _ & ->)]]%validate_ok_inv Hip Hwf.
  - pose proof (wf_sessions _ Hwf) as HF. rewrite Forall_forall in HF.
    destruct (HF _ Hin) as (_ & _ & [b Hb] & _). congruence.
  - congruence.
  - assert (t_role t <> RUser) as Hr.
    { pose proof (wf_token_roles _ Hwf) as HF. rewrite Forall_forall in HF. by apply HF. }
    exists t. simpl. split_and!; try done.
    + unfold authorize_session, token_session, role_eqb. simpl. by destruct (t_role t).
    + intros Hop. rewrite Hop. split; [done|].
      unfold authorize_session, token_session, role_eqb. simpl. rewrite Hop. simpl.
      by rewrite orb_true_r.
    + intros fs Hfs. rewrite authorize_spec. unfold access_spec, unscoped. simpl.
      rewrite Hfs. naive_solver.
Qed.
End validation.

(** ** Lockouts *)

Section lockout.
Context {L : AuthLibs}.

Definition ip_locked (s : Service) (ip : string) (now : Z) : bool :=
  negb (String.eqb ip "unknown")
  && (MAX_IP_FAILED_ATTEMPTS <=? ip_failures (rate_limit s) ip now)%nat.

(** The per-user lock spares the last administrator. *)
Definition user_locked (s : Service) (name : string) (now : Z) : bool :=
  (MAX_FAILED_ATTEMPTS <=? user_failures (rate_limit s) name now)%nat
  && negb (is_only_admin (users (state s)) name).

Definition locked (s : Service) (name ip : string) (now : Z) : bool :=
  ip_locked s ip now || user_locked s name now.

(** The account a password check accepts, with the hash it checked. *)
Definition accepted (s : Service) (available : bool) (name password : string)
    : option (User * string) :=
  match find_first (fun u => String.eqb (username u) name) (users (state s)) with
  | Some u =>
      match password_hash u with
      | Some h => if available && verify_password password h then Some (u, h) else None
      | None => None
      end
  | None => None
  end.

Lemma login_begin_exact now av name pw ip s :
  let r := login_begin now av name pw ip s in
  (locked s name ip now = true ->
     snd r = Err AccountLocked /\ rate_limit (fst r) = rate_limit s) /\
  (locked s name ip now = false ->
     match accepted s av name pw with
     | Some uh => snd r = Ok uh /\ rate_limit (fst r) = rate_limit s
     | None => snd r = Err InvalidCredentials /\
         rate_limit (fst r) = record_failed_attempt (rate_limit s) name ip now
     end).
Proof.
  unfold locked, ip_locked, user_locked, accepted, login_begin, verify_login_password. run.
  destruct (negb _ && _); simpl; [done|].
  destruct (MAX_FAILED_ATTEMPTS <=? _)%nat; simpl.
  - destruct (is_only_admin _ _); simpl; [|done]. split; [done|intros _].
    destruct (find_first _ _) as [u|]; simpl; [|done].
    destruct (password_hash u) as [h|]; simpl; [|done].
    by destruct (av && verify_password pw h).
  - split; [done|intros _].
    destruct (find_first _ _) as [u|]; simpl; [|done].
    destruct (password_hash u) as [h|]; simpl; [|done].
    by destruct (av && verify_password pw h).
Qed.

(** A password check is refused as locked exactly when the address has 20
    failures in the last hour or the account 5 in the last quarter of an hour
    and is not the only administrator; otherwise it accepts exactly the right
    password of an existing local account, and anything else counts as one
    more failure.  No outcome of the check touches users, sessions or tokens. *)
Theorem login_check_exact now av name pw ip s :
  (snd (login_begin now av name pw ip s) = Err AccountLocked <->
     locked s name ip now = true) /\
  (forall u h, snd (login_begin now av name pw ip s) = Ok (u, h) <->
     locked s name ip now = false /\ accepted s av name pw = Some (u, h)) /\
  rate_limit (fst (login_begin now av name pw ip s)) =
    (if locked s name ip now || is_some (accepted s av name pw) then rate_limit s
     else record_failed_attempt (rate_limit s) name ip now) /\
  state (fst (login_begin now av name pw ip s)) = state s.
Proof.
  destruct (login_begin_exact now av name pw ip s) as [H1 H2].
  pose proof (login_begin_state now av name pw ip s) as H3.
  destruct (locked s name ip now); simpl.
  - destruct H1 as [-> ->]; [done|]. naive_solver.
  - specialize (H2 eq_refl). destruct (accepted s av name pw) as [[u h]|]; simpl.
    + destruct H2 as [-> ->]. naive_solver.
    + destruct H2 as [-> ->]. naive_solver.
Qed.

(** Failures recorded from the /64 of [v] inside the hour. *)
Definition from_prefix64 (v : list Z) (now : Z) (e : rl_event) : bool :=
  match e with
  | Failure _ src t =>
      in_window IP_LOCKOUT_WINDOW_SECS now t &&
      match parse_ip_addr src with
      | Some (V6 w) =>
          match to_ipv4_mapped w with
          | None => bool_decide (take 4 w = take 4 v)
          | Some _ => false
          end
      | _ => false
      end
  | Success _ => false
  end.

Lemma from_prefix64_counts v ip now e :
  parse_ip_addr ip = Some (V6 v) -> to_ipv4_mapped v = None ->
  from_prefix64 v now e = true -> counts_for_ip ip now e = true.
Proof.
  intros Hip Hm. destruct e as [u src t|]; simpl; [|done]. intros H. bool_hyps.
  destruct (parse_ip_addr src) as [[|w]|] eqn:Hsrc; try done.
  destruct (to_ipv4_mapped w) eqn:Hw; [done|].
  match goal with H : bool_decide _ = true |- _ => apply bool_decide_eq_true_1 in H end.
  rewrite (ip_bucket_prefix64 src ip w v), String.eqb_refl by done.
  match goal with H : in_window _ _ _ = true |- _ => rewrite H end.
  destruct (String.eqb_spec src "unknown") as [->|]; [discriminate Hsrc|done].
Qed.

Lemma retain_length_mono {A} (p q : A -> bool) l :
  (forall x, p x = true -> q x = true) -> (length (retain p l) <= length (retain q l))%nat.
Proof.
  intros H. induction l as [|x l IH]; simpl; [lia|].
  destruct (p x) eqn:Hp; [rewrite (H x Hp)|destruct (q x)]; simpl; lia.
Qed.

(** Spraying from many addresses of one IPv6 /64 does not help: once the
    history since start-up holds 20 failures from the /64 within the last
    hour, whatever the usernames and whatever else happened in between, every
    password or security-key sign-in from any address of that /64 is refused,
    right password or not, and no session is created. *)
Theorem ipv6_prefix_lockout s es now av tok p name pw ip v :
  rate_limit s = run_events empty_rate_limit es ->
  events_before now es ->
  parse_ip_addr ip = Some (V6 v) -> to_ipv4_mapped v = None ->
  (20 <= length (retain (from_prefix64 v now) es))%nat ->
  snd (login now av tok p name pw ip s) = Err AccountLocked /\
  state (fst (login now av tok p name pw ip s)) = state s /\
  snd (mint_session_for_webauthn now tok p name ip s) = Err AccountLocked /\
  state (fst (mint_session_for_webauthn now tok p name ip s)) = state s.
Proof.
  intros Hrl Hes Hip Hm Hn.
  assert (ip_locked s ip now = true) as Hlock.
  { unfold ip_locked. rewrite Hrl, run_events_ip by done.
    assert (String.eqb ip "unknown" = false) as ->
      by (apply String.eqb_neq; intros ->; discriminate Hip).
    apply Nat.leb_le. unfold spec_ip_failures, MAX_IP_FAILED_ATTEMPTS.
    pose proof (retain_length_mono _ _ es (fun e => from_prefix64_counts v ip now e Hip Hm)).
    unfold ip_failures, empty_rate_limit. cbn [by_ip]. rewrite lookup_empty. simpl. lia. }
  destruct (login_begin_exact now av name pw ip s) as [H1 _].
  destruct H1 as [H1 _]; [by unfold locked; rewrite Hlock|].
  pose proof (login_begin_state now av name pw ip s) as H3.
  unfold login, m_bind. destruct (login_begin now av name pw ip s) as [s' r].
  simpl in H1, H3. rewrite H1. split_and!; [done..| |].
  all: unfold mint_session_for_webauthn, ip_locked in *; run; by rewrite Hlock.
Qed.
End lockout.

(** ** Sign-in, revocation and naming *)

Section accounts.
Context {L : AuthLibs}.

Lemma commit_ok next p s s' :
  commit_state next p s = (s', Ok tt) -> state s' = next /\ rate_limit s' = rate_limit s.
Proof. unfold commit_state, finish_state_commit. destruct p as [[e []]|]; run; naive_solver. Qed.

(** A password login that returns a token has checked the right password
    of an account that was not locked, and the session it stored is that
    account's: same name and role, unscoped, bound to the client address,
    restricted to the password change if one is due. *)
Theorem login_mints_own_session now av tok p name pw ip s s' r :
  login now av tok p name pw ip s = (s', Ok r) ->
  r = tok /\ locked s name ip now = false /\
  exists u h, accepted s av name pw = Some (u, h) /\ u ∈ users (state s) /\ username u = name /\
    last (sessions (state s')) = Some (mkSession tok name (role u)
      (session_principal (role u) (file_principal u)) None None now
      (must_change_password u) (Some ip)) /\
    users (state s') = users (state s) /\ user_failures (rate_limit s') name now = 0%nat.
Proof.
  intros H. unfold login in H.
  destruct (login_begin_exact now av name pw ip s) as [H1 H2].
  pose proof (login_begin_state now av name pw ip s) as H3. unfold m_bind at 1 in H.
  destruct (login_begin now av name pw ip s) as [s1 [[u h]|e]] eqn:E; [|done]. simpl in *.
  destruct (locked s name ip now); [by destruct H1|]. specialize (H2 eq_refl).
  destruct (accepted s av name pw) as [uh|] eqn:Hacc; [|by destruct H2].
  destruct H2 as [[= <-] Hrl].
  apply login_begin_user in E as (Hf & _). apply find_first_Some in Hf as [Hin Hu]. bool_hyps.
  unfold login_finish in H. run. rewrite H3 in H. destruct (existsb _ _); [|done].
  destruct (commit_state _ _ _) as [s2 [[]|e]] eqn:Hc; [|done]. injection H as <- <-.
  apply commit_ok in Hc as [Hst Hrl2]. split_and!; [done..|].
  exists u, h. rewrite Hu in *. split_and!; try done; simpl.
  - rewrite Hst. simpl. unfold prune_and_push. by rewrite last_snoc.
  - by rewrite Hst.
  - rewrite Hrl2. simpl. rewrite user_failures_clear, String.eqb_refl. done.
Qed.

Lemma elem_of_revoke `{!AuthLibsOk L} ss name actor tok se :
  se ∈ revoke_sessions_after_password_change ss name actor tok ->
  s_username se = name -> actor = name /\ s_token se = tok.
Proof.
  assert (Forall (fun se => s_username se = name -> actor = name /\ s_token se = tok)
    (revoke_sessions_after_password_change ss name actor tok)) as HF.
  { unfold revoke_sessions_after_password_change.
    destruct (String.eqb_spec name actor) as [->|Hne]; simpl.
    - assert (Forall (fun se => s_username se = actor -> actor = actor /\ s_token se = tok)
        (retain (fun s => negb (String.eqb (s_username s) actor) || ct_eq_str (s_token s) tok) ss))
        as HF.
      { apply Forall_forall. intros x [_ Hx]%elem_of_retain Hn.
        rewrite ct_eq_str_spec, Hn, String.eqb_refl in Hx. simpl in Hx. by bool_hyps. }
      destruct (update_first _ _ _) eqn:E; simpl; [|done].
      eapply Forall_update_first; [|exact HF|exact E]. done.
    - apply Forall_forall. intros x [_ Hx]%elem_of_retain Hn.
      rewrite Hn, String.eqb_refl in Hx. done. }
  rewrite Forall_forall in HF. apply HF.
Qed.

Lemma revoke_keeps_others ss name actor tok se :
  se ∈ ss -> s_username se <> name ->
  exists se', se' ∈ revoke_sessions_after_password_change ss name actor tok /\
    (se' = se \/ se' = clear_must_change se).
Proof.
  intros Hin Hn. unfold revoke_sessions_after_password_change.
  set (ss1 := retain _ ss). assert (se ∈ ss1) as H1.
  { apply elem_of_retain. split; [done|]. apply String.eqb_neq in Hn. by rewrite Hn. }
  destruct (String.eqb name actor); [|eauto].
  destruct (update_first _ _ ss1) as [l'|] eqn:E; simpl; [|eauto].
  apply update_first_Some in E as (l1 & x & l2 & E1 & -> & _). rewrite E1 in H1.
  apply elem_of_app in H1 as [?|[->|?]%elem_of_cons].
  - exists se. set_solver.
  - exists (clear_must_change x). set_solver.
  - exists se. set_solver.
Qed.

(** A password change logs the account out everywhere: of the account's
    sessions only the one that made the change survives, and only if the
    account changed its own password; nobody else's sessions are dropped, and
    the account now carries the new hash with no pending change. *)
Theorem change_password_revokes `{!AuthLibsOk L} h p session name pw s s' :
  change_password h p session name pw s = (s', Ok tt) ->
  (forall se, se ∈ sessions (state s') -> s_username se = name ->
     s_username session = name /\ s_token se = s_token session) /\
  (forall se, se ∈ sessions (state s) -> s_username se <> name ->
     exists se', se' ∈ sessions (state s') /\ (se' = se \/ se' = clear_must_change se)) /\
  exists u hash, h = Ok hash /\ u ∈ users (state s) /\ username u = name /\
    set_password hash u ∈ users (state s').
Proof.
  unfold change_password. intros H. run.
  destruct (is_some _); [|done]. destruct (_ || _); [|done]. destruct (_ <=? _)%nat; [|done].
  destruct (name_taken _ _) eqn:Hn; [|done]. destruct h as [hash|]; [|done].
  destruct (commit_state _ _ _) as [s1 [[]|e]] eqn:Hc; [|done]. injection H as <-. simpl.
  apply commit_ok in Hc as [-> _]. simpl. split_and!.
  - intros se Hse Hnm. by eapply elem_of_revoke.
  - intros se Hse Hnm. by apply revoke_keeps_others.
  - destruct (name_taken_update _ _ (set_password hash) Hn) as [us E]. rewrite E. simpl.
    apply update_first_Some in E as (l1 & u & l2 & -> & -> & Hu & _). bool_hyps.
    exists u, hash. split_and!; set_solver.
Qed.

(** *** Choosing a username for a new OIDC account *)

Lemma string_app_inj_l a b c : a +:+ b = a +:+ c -> b = c.
Proof. induction a; simpl; [done|]. intros [= H]. auto. Qed.

Lemma candidate_inj base n m :
  0 <= n < 10 ^ 40 -> 0 <= m < 10 ^ 40 ->
  base +:+ "-" +:+ fmt_dec n = base +:+ "-" +:+ fmt_dec m -> n = m.
Proof. intros Hn Hm H. do 2 apply string_app_inj_l in H. by apply fmt_dec_inj. Qed.

Lemma pick_suffix_none fuel n us base :
  pick_suffix fuel n us base = None ->
  Forall (fun i => name_taken us (base +:+ "-" +:+ fmt_dec (n + Z.of_nat i)) = true) (seq 0 fuel).
Proof.
  revert n. induction fuel as [|k IH]; intros n; [constructor|]. cbn [pick_suffix].
  destruct (name_taken us (base +:+ "-" +:+ fmt_dec n)) eqn:E; cbn [negb]; [|done].
  intros H%IH. cbn [seq]. constructor; [by rewrite Z.add_0_r|].
  rewrite <- seq_shift, Forall_fmap. eapply Forall_impl; [exact H|]. simpl. intros i Hi.
  by replace (n + Z.of_nat (S i)) with (n + 1 + Z.of_nat i) by lia.
Qed.

(** More taken candidates than users: impossible. *)
Lemma pick_suffix_total us base :
  (Z.of_nat (length us) < 2 ^ 64) -> pick_suffix (S (length us)) 2 us base <> None.
Proof.
  intros Hlen H%pick_suffix_none.
  set (cand := fun i => base +:+ "-" +:+ fmt_dec (2 + Z.of_nat i)).
  assert (NoDup (cand <$> seq 0 (S (length us)))) as Hnd.
  { apply NoDup_fmap_2_strong; [|apply NoDup_seq]. intros i j Hi Hj Hc.
    apply elem_of_seq in Hi, Hj. apply candidate_inj in Hc; lia. }
  assert (cand <$> seq 0 (S (length us)) ⊆ username <$> us) as Hsub.
  { intros x (i & -> & Hi)%list_elem_of_fmap. rewrite Forall_forall in H.
    specialize (H i Hi). unfold name_taken in H. apply existsb_true_elem in H as (u & Hu & E).
    bool_hyps. unfold cand. rewrite <- E. by apply list_elem_of_fmap_2. }
  assert (length (cand <$> seq 0 (S (length us))) <= length (username <$> us))%nat as Hle.
  { apply NoDup_ListNoDup in Hnd. eapply NoDup_incl_length; [exact Hnd|].
    intros x. rewrite <- !list_elem_of_In. apply Hsub. }
  rewrite !length_fmap, length_seq in Hle. lia.
Qed.

(** The unbounded search for a free username always ends, within one more
    candidate than there are users, and what it returns is not taken. *)
Theorem pick_username_total us id :
  Z.of_nat (length us) < 2 ^ 64 ->
  exists name, pick_username us id = Some name /\ forall u, u ∈ us -> username u <> name.
Proof.
  intros Hlen. destruct (pick_username us id) as [name|] eqn:E.
  - exists name. split; [done|]. apply pick_username_not_taken in E. unfold name_taken in E.
    bool_hyps. intros u Hu Heq. specialize (E u Hu). rewrite Heq, String.eqb_refl in E. done.
  - exfalso. unfold pick_username in E. destruct (negb _); [done|].
    by apply pick_suffix_total in E.
Qed.
End accounts.

(** ** Roles of live sessions *)

Section roles.
Context {L : AuthLibs}.

(** Requests one after the other, a password login included. *)
Inductive seq_step : Service -> Service -> Prop :=
| seq_request r s : seq_step s (fst (exec r s))
| seq_login now av tok p name pw ip s : seq_step s (fst (login now av tok p name pw ip s)).

Definition start (s : Service) : Prop :=
  exists h rl, s = mkService (mkAuthState [default_admin h] [] [] true) rl [].

Lemma login_updates now av tok p name pw ip s :
  rtc update (state s) (state (fst (login now av tok p name pw ip s))).
Proof.
  unfold login, m_bind at 1. pose proof (login_begin_state now av name pw ip s) as Hs.
  destruct (login_begin now av name pw ip s) as [s1 [[u h]|e]] eqn:E; simpl in *;
    [|by rewrite Hs].
  apply login_begin_user in E as (Hf & _). apply find_first_Some in Hf as [Hin _].
  unfold login_finish. run. destruct (existsb _ _); simpl; [|by rewrite Hs].
  rewrite Hs.
  assert (rtc update (state s) (set_sessions (state s) (prune_and_push now (sessions (state s))
    (mkSession tok (username u) (role u) (session_principal (role u) (file_principal u))
       None None now (must_change_password u) (Some ip))))) as Hup.
  { apply rtc_once, (up_sign_in _ _ u); [done|apply session_of_new]. }
  destruct p as [[e []]|]; simpl; done.
Qed.

Lemma seq_step_updates s s' : seq_step s s' -> rtc update (state s) (state s').
Proof.
  destruct 1 as [r s|]; [|apply login_updates].
  destruct (refines_exec (state s) r s) as [Hr _]; [by apply rtc_refl|done].
Qed.

Lemma updates_coherent st st' :
  rtc update st st' -> wf st /\ coherent st -> wf st' /\ coherent st'.
Proof. induction 1; [done|]. intros []. eauto using update_wf, update_coherent. Qed.

(** As long as requests do not overlap a password login, a live session
    always has the role its user has now: a role change through the identity
    provider or a deletion logs the user out. *)
Theorem sequential_roles_current s0 s se u :
  start s0 -> rtc seq_step s0 s ->
  se ∈ sessions (state s) -> u ∈ users (state s) -> username u = s_username se ->
  role u = s_role se.
Proof.
  intros Hs Hr. assert (wf (state s) /\ coherent (state s)) as [_ Hc]; [|apply Hc].
  assert (wf (state s0) /\ coherent (state s0)) as H0.
  { destruct Hs as (h & rl & ->). split; [|intros ? ? Hin; by apply not_elem_of_nil in Hin].
    apply (initial_ok (mkService _ rl [], [])). by exists h, rl. }
  clear Hs. induction Hr as [|x y z Hxy _ IH]; [done|].
  eauto using updates_coherent, seq_step_updates.
Qed.
End roles.

(** ** Concrete runs *)

Definition svc0 : Service :=
  mkService (mkAuthState [default_admin "argon2:admin"] [] [] true) empty_rate_limit [].

Definition admin_session : Session :=
  mkSession "tok-admin" "admin" Admin None None None 100 false (Some "10.0.0.2").

Definition alice : OidcIdentity := mkOidcIdentity "https://idp" "sub-1" None (Some "alice") [].

(** alice signs in through the identity provider as Admin, then gets a local
    password as well. *)
Definition svc_alice : Service :=
  fst (exec (ReqChangePassword (Ok "argon2:alicepass") None admin_session "alice" "alicepass")
    (fst (exec (ReqOidc 100 "tok-1" None alice (Some Admin) true "10.0.0.3") svc0))).

(** alice's password login, checked and not yet committed. *)
Definition alice_check := login_begin 200 true "alice" "alicepass" "10.0.0.4" svc_alice.

Definition alice_user : User :=
  mkUser "alice" (Some "argon2:alicepass") Admin None false (Some "sub-1") (Some "https://idp") [].

Definition alice_pending : pending :=
  mkPending 200 "alice" "10.0.0.4" alice_user "argon2:alicepass".

(** Meanwhile the identity provider demotes alice to ReadOnly and logs her out. *)
Definition svc_demoted : Service :=
  fst (exec (ReqOidc 200 "tok-2" None alice (Some ReadOnly) true "10.0.0.3") (fst alice_check)).

Definition bob : OidcIdentity := mkOidcIdentity "https://idp" "sub-2" None (Some "bob") [].

Definition bob_session : Session :=
  mkSession "tok-bob" "bob" Operator None None None 201 false (Some "10.0.0.9").

(** Or bob signs in through the identity provider, one second after alice's
    password check started. *)
Definition svc_bob : Service :=
  fst (exec (ReqOidc 201 "tok-bob" None bob (Some Operator) true "10.0.0.9") (fst alice_check)).

Definition commit_alice (s : Service) : config :=
  (fst (login_finish 200 "tok-3" None "alice" "10.0.0.4" alice_user "argon2:alicepass" s), []).

Lemma svc_alice_steps : rtc step (svc0, []) (svc_alice, []).
Proof.
  unfold svc_alice. eapply rtc_l; [eapply (step_request (ReqOidc _ _ _ _ _ _ _))|].
  eapply rtc_once, (step_request (ReqChangePassword _ _ _ _ _)).
Qed.

(** One request while alice's login is pending. *)
Lemma overlap_reachable r : reachable (fst (exec r (fst alice_check)), [alice_pending]).
Proof.
  exists (svc0, []). split; [by exists "argon2:admin", empty_rate_limit|].
  etransitivity; [apply svc_alice_steps|].
  eapply rtc_l; [|apply rtc_once, (step_request r)].
  eapply (step_login_checked 200 true "alice" "alicepass" "10.0.0.4"). vm_compute. reflexivity.
Qed.

Lemma commit_alice_step s : step (s, [alice_pending]) (commit_alice s).
Proof. apply (step_login_commit "tok-3" None alice_pending s [] []). Qed.

(** The rule above fails when a password login overlaps a role change:
    [login] re-checks the password hash under the write lock but keeps the role
    it read before hashing, so a user demoted in between ends up with a live
    Admin session that passes the root-equivalent gate although the account is
    ReadOnly. *)
Theorem overlapping_login_keeps_stale_role :
  exists c : config, reachable c /\
    exists se u, se ∈ sessions (state c.1) /\ u ∈ users (state c.1) /\
      username u = s_username se /\ role u = ReadOnly /\
      authorize_session se RootEquivalent = Ok tt.
Proof.
  exists (commit_alice svc_demoted). split.
  - destruct (overlap_reachable (ReqOidc 200 "tok-2" None alice (Some ReadOnly) true "10.0.0.3"))
      as (c0 & Hi & Hr). exists c0. split; [done|]. eapply rtc_r; [exact Hr|].
    apply commit_alice_step.
  - eexists (mkSession "tok-3" "alice" Admin None None None 200 false (Some "10.0.0.4")), _.
    split; [vm_compute; right; left|]. split; [vm_compute; right; left|]. done.
Qed.

(** A password login stamps its time before the password check, and prunes
    with it afterwards.  A session created in the meantime has a later time
    stamp, the unsigned age wraps, and the login's commit throws that fresh,
    valid session away: the other user is logged out. *)
Theorem overlapping_login_evicts_fresh_session :
  exists c c' : config, reachable c /\ step c c' /\
    bob_session ∈ sessions (state c.1) /\
    snd (validate 201 None "tok-bob" "10.0.0.9" c.1) = Ok bob_session /\
    bob_session ∉ sessions (state c'.1) /\
    snd (validate 201 None "tok-bob" "10.0.0.9" c'.1) = Err InvalidToken.
Proof.
  exists (svc_bob, [alice_pending]), (commit_alice svc_bob).
  split; [apply overlap_reachable|]. split; [apply commit_alice_step|].
  split; [vm_compute; left|]. split; [by vm_compute|].
  split; [|by vm_compute]. vm_compute. intros H. apply list_elem_of_singleton in H. done.
Qed.

Section names.
Context {L : AuthLibs}.

Definition names_disjoint (st : AuthState) : Prop :=
  forall u t, u ∈ users st -> t ∈ api_tokens st -> username u <> t_name t.

Lemma commit_cases next p s :
  state (fst (commit_state next p s)) = state s \/ state (fst (commit_state next p s)) = next.
Proof. destruct p as [[e []]|]; simpl; auto. Qed.

Lemma create_user_disjoint h p smb session name pw r fp s :
  names_disjoint (state s) ->
  names_disjoint (state (fst (create_user h p smb session name pw r fp s))).
Proof.
  intros Hd. unfold create_user. run.
  destruct (require_unscoped_admin _) as [[]|]; [|done]. destruct (_ <=? _)%nat; [|done].
  destruct (validate_file_principal_binding r fp) as [o|]; [|done].
  destruct (match o with Some _ => _ | None => _ end) as [[]|]; [|done].
  destruct (name_taken _ _ || _) eqn:E; simpl; [done|]. destruct h; [|done].
  match goal with |- context [commit_state ?n p s] => pose proof (commit_cases n p s) as Hc;
    destruct (commit_state n p s) as [s1 [[]|e]]; simpl in * end.
  all: destruct Hc as [->| ->]; [done|]; bool_hyps; intros u t Hu Ht; simpl in *.
  all: apply elem_of_app in Hu as [?| ->%list_elem_of_singleton]; [by apply Hd|]; simpl.
  all: match goal with H : forall x, x ∈ api_tokens _ -> _ |- _ => specialize (H t Ht) end;
    bool_hyps; congruence.
Qed.

Lemma create_api_token_disjoint now id raw p session name r fs ex ips s :
  names_disjoint (state s) ->
  names_disjoint (state (fst (create_api_token now id raw p session name r fs ex ips s))).
Proof.
  intros Hd. unfold create_api_token. run.
  destruct (require_unscoped_admin _) as [[]|]; [|done].
  destruct (negb (role_eqb r RUser)); [|done].
  destruct (_ || _) eqn:E; simpl; [done|].
  match goal with |- context [commit_state ?n p s] => pose proof (commit_cases n p s) as Hc;
    destruct (commit_state n p s) as [s1 [[]|e]]; simpl in * end.
  all: destruct Hc as [->| ->]; [done|]; unfold name_taken in *; bool_hyps;
    intros u t Hu Ht; simpl in *.
  all: apply elem_of_app in Ht as [?| ->%list_elem_of_singleton]; [by apply Hd|]; simpl.
  all: match goal with H : forall x, x ∈ users _ -> _ |- _ => specialize (H u Hu) end;
    bool_hyps; congruence.
Qed.

(** Creating an account and creating an API token both keep usernames and
    token names disjoint, whatever the outcome of the request, so that a
    bearer token can never pass for the account of the same name. *)
Theorem create_keeps_names_disjoint s :
  names_disjoint (state s) ->
  (forall h p smb session name pw r fp,
     names_disjoint (state (fst (create_user h p smb session name pw r fp s)))) /\
  (forall now id raw p session name r fs ex ips,
     names_disjoint (state (fst (create_api_token now id raw p session name r fs ex ips s)))).
Proof. split; intros; [by apply create_user_disjoint|by apply create_api_token_disjoint]. Qed.
End names.

Definition svc_token : Service :=
  fst (exec (ReqCreateToken 100 "id-1" "raw-1" None admin_session "alice" Operator None None [])
    svc0).

(** Auto-provisioning an OIDC account does not look at the token names, so
    it can give a new account the name of an existing API token: the resource
    owner of that token's subvolumes and the account then share one name. *)
Theorem oidc_provision_shadows_token :
  names_disjoint (state svc_token) /\
  ~ names_disjoint (state (fst (exec (ReqOidc 200 "tok-1" None alice (Some ReadOnly) true
      "10.0.0.3") svc_token))).
Proof.
  split.
  - intros u t Hu Ht. vm_compute in Hu, Ht.
    apply list_elem_of_singleton in Hu, Ht. subst. done.
  - intros H.
    apply (H (mkUser "alice" None ReadOnly None false (Some "sub-1") (Some "https://idp") [])
             (mkApiToken "id-1" "alice" (hash_token "raw-1") Operator 100 None None [])).
    + vm_compute. right. left.
    + vm_compute. left.
    + done.
Qed.

(** ** Witnesses *)

Lemma reachable_wf_witness : wf (state svc_demoted).
Proof.
  apply (reachable_wf (svc_demoted, [alice_pending])).
  exists (svc0, []). split; [by exists "argon2:admin", empty_rate_limit|].
  etransitivity; [apply svc_alice_steps|].
  eapply rtc_l; [|apply rtc_once, (step_request (ReqOidc 200 "tok-2" None alice (Some ReadOnly)
    true "10.0.0.3"))].
  eapply (step_login_checked 200 true "alice" "alicepass" "10.0.0.4"). vm_compute. reflexivity.
Defined.

Lemma validate_sound_witness :
  svc_bob = svc_bob /\ valid_credential (state svc_bob) 201 "tok-bob" "10.0.0.9" bob_session.
Proof.
  apply (validate_sound 201 None "tok-bob" "10.0.0.9" svc_bob svc_bob bob_session).
  vm_compute. reflexivity.
Defined.

Lemma session_lifetime_witness : 201 <= 201 <= 201 + 28800.
Proof.
  apply (session_lifetime 201 None "tok-bob" "10.0.0.9" svc_bob svc_bob bob_session);
    [vm_compute; intuition congruence|vm_compute; intuition congruence|done|
     vm_compute; reflexivity].
Defined.

Lemma svc_token_wf : wf (state svc_token).
Proof.
  apply (reachable_ok (svc_token, [])). exists (svc0, []).
  split; [by exists "argon2:admin", empty_rate_limit|]. eapply rtc_once, step_request.
Qed.

Lemma api_token_confined_witness :
  exists t, t ∈ api_tokens (state svc_token) /\ Operator = t_role t /\ t_role t <> RUser.
Proof.
  destruct (api_token_confined 150 None "raw-1" "10.0.0.7" svc_token svc_token
    (mkSession "raw-1" "alice" Operator None None (Some "alice") 100 false None))
    as (t & ? & ? & ? & _); [vm_compute; reflexivity|done|apply svc_token_wf|].
  exists t. auto.
Defined.

(** Twenty failures from twenty addresses of 2001:db8:1:2::/64. *)
Definition spray : list rl_event :=
  (fun i => Failure "root" ("2001:db8:1:2::" +:+ fmt_hex (Z.of_nat i)) (1000 + Z.of_nat i))
    <$> seq 1 20.

Definition svc_sprayed : Service :=
  mkService (mkAuthState [default_admin "argon2:admin"] [] [] true)
    (run_events empty_rate_limit spray) [].

Lemma ipv6_prefix_lockout_witness :
  snd (login 2000 true "t" None "admin" "admin" "2001:db8:1:2:aaaa::1" svc_sprayed)
    = Err AccountLocked.
Proof.
  apply (ipv6_prefix_lockout svc_sprayed spray 2000 true "t" None "admin" "admin"
    "2001:db8:1:2:aaaa::1" [8193; 3512; 1; 2; 43690; 0; 0; 1]).
  - reflexivity.
  - unfold spray, events_before. apply Forall_forall. intros e He. vm_compute in He.
    repeat (apply elem_of_cons in He as [->|He]; [vm_compute; discriminate|]).
    by apply not_elem_of_nil in He.
  - vm_compute. reflexivity.
  - reflexivity.
  - vm_compute. lia.
Defined.

Lemma login_mints_own_session_witness :
  exists s', login 300 true "tok-9" None "admin" "admin" "10.0.0.5" svc0 = (s', Ok "tok-9") /\
    "tok-9" = "tok-9" /\ locked svc0 "admin" "10.0.0.5" 300 = false.
Proof.
  eexists. split; [vm_compute; reflexivity|].
  edestruct (login_mints_own_session 300 true "tok-9" None "admin" "admin" "10.0.0.5" svc0)
    as (H1 & H2 & _); [vm_compute; reflexivity|]. auto.
Defined.

Lemma change_password_revokes_witness :
  Forall (fun se => s_username se = "alice" -> "admin" = "alice" /\ s_token se = "tok-admin")
    (sessions (state svc_alice)).
Proof.
  apply Forall_forall. intros se Hse. revert se Hse.
  apply (change_password_revokes (Ok "argon2:alicepass") None admin_session "alice" "alicepass"
    (fst (exec (ReqOidc 100 "tok-1" None alice (Some Admin) true "10.0.0.3") svc0)) svc_alice).
  vm_compute. reflexivity.
Defined.

Lemma pick_username_total_witness :
  exists name, pick_username (users (state svc0)) (mkOidcIdentity "i" "s" None (Some "admin") [])
    = Some name /\ forall u, u ∈ users (state svc0) -> username u <> name.
Proof. apply pick_username_total. vm_compute. reflexivity. Defined.

Lemma sequential_roles_current_witness : role alice_user = Admin.
Proof.
  apply (sequential_roles_current svc0 (fst (login 200 true "tok-3" None "alice" "alicepass"
    "10.0.0.4" svc_alice))
    (mkSession "tok-3" "alice" Admin None None None 200 false (Some "10.0.0.4"))).
  - by exists "argon2:admin", empty_rate_limit.
  - unfold svc_alice. eapply rtc_l; [eapply (seq_request (ReqOidc _ _ _ _ _ _ _))|].
    eapply rtc_l; [eapply (seq_request (ReqChangePassword _ _ _ _ _))|].
    apply rtc_once, seq_login.
  - vm_compute. left.
  - vm_compute. right. left.
  - reflexivity.
Defined.

Lemma create_keeps_names_disjoint_witness :
  names_disjoint (state (fst (create_api_token 100 "id-1" "raw-1" None admin_session "alice"
    Operator None None [] svc0))).
Proof.
  apply (create_keeps_names_disjoint svc0). intros u t _ Ht. by apply not_elem_of_nil in Ht.
Defined.
