(* ===== verification/AuthStore.v ===== *)
(** * Persisting the authentication state (nasty-engine/src/auth.rs)

    [auth.json] is replaced through a synced temporary file and a rename; every
    system call on the way can fail.  The file system is a map from paths to
    contents, faults are a predicate on the calls, and the JSON codec of
    serde_json is a parameter. *)

From Stdlib Require Import ZArith Lia Ascii String.
From stdpp Require Import base list gmap strings.
From S2P Require Import Prelude RustStr Net RateLimit Auth.

(** The calls of [save_state_with_temp] that can fail; [CleanTemp] is the removal
    of the temporary file after a failure, whose own failure is ignored. *)
Inductive io_call : Type :=
| CreateTemp | WriteTemp | SyncTemp | Replace | Create | RemoveTemp | OpenDir | SyncDir | CleanTemp.

#[export] Instance io_call_eq_dec : EqDecision io_call.
Proof. solve_decision. Defined.

Abbreviation disk := (gmap string string).

(** What [open] with [O_NOFOLLOW] and [metadata] report about a path. *)
Inductive open_result : Type :=
| OpenNotFound
| OpenSymlink
| OpenFailed
| Opened (is_file : bool) (mode : Z) (uid : Z) (content : option string).

Section store.
Context {L : AuthLibs}.
(** [serde_json::to_vec_pretty] and [serde_json::from_str] on [AuthState]. *)
Variable to_json : AuthState -> option string.
Variable from_json : string -> option AuthState.
(** What a write that fails leaves in the file. *)
Variable torn : string.

Definition load_state_from (opened : open_result) (expected_owner : option Z)
    : result (option AuthState) AuthError :=
  match opened with
  | OpenNotFound => Ok None
  | OpenSymlink => Err (StateUnsafe "refusing to follow an auth state symlink")
  | OpenFailed => Err (StateIo "open without following symlinks")
  | Opened is_file mode uid content =>
      if negb is_file
      then Err (StateUnsafe "expected a regular file, not a symlink or special file")
      else if negb (Z.land (Z.land mode 511) 63 =? 0)
      then Err (StateUnsafe "permissions expose authentication secrets")
      else if match expected_owner with Some o => negb (uid =? o) | None => false end
      then Err (StateUnsafe "owner UID does not match")
      else match content with
           | None => Err (StateIo "read")
           | Some c => match from_json c with
                       | Some st => Ok (Some st)
                       | None => Err StateCorrupt
                       end
           end
  end.

(** One call: [None] when it fails. *)
Definition call (fault : io_call -> bool) (c : io_call) (effect : disk -> disk) (d : disk)
    : option disk :=
  if fault c then None else Some (effect d).

(** The body of the [async] block: the final disk, whether the rename or link
    went through, and the operation that failed. *)
Definition save_body (fault : io_call -> bool) (path temp json : string) (replace : bool)
    (d : disk) : disk * bool * option string :=
  (* create_new fails on an existing file *)
  if fault CreateTemp || is_some (d !! temp) then (d, false, Some "create temporary file for")
  else
    let d1 := <[temp := ""]> d in
    if fault WriteTemp then (<[temp := torn]> d, false, Some "write temporary file for")
    else
      let d2 := <[temp := json]> d1 in
      if fault SyncTemp then (d2, false, Some "sync temporary file for")
      else
        let published :=
          if replace
          then if fault Replace then inr (d2, false, "replace")
               else inl (delete temp (<[path := json]> d2))
          else if fault Create || is_some (d2 !! path) then inr (d2, false, "create")
               else
                 let d3 := <[path := json]> d2 in
                 if fault RemoveTemp then inr (d3, true, "remove temporary file for")
                 else inl (delete temp d3) in
        match published with
        | inr (d', committed, op) => (d', committed, Some op)
        | inl d3 =>
            if fault OpenDir then (d3, true, Some "open parent directory for")
            else if fault SyncDir then (d3, true, Some "sync parent directory for")
            else (d3, true, None)
        end.

Definition save_state_with_temp (fault : io_call -> bool) (path temp : string)
    (st : AuthState) (replace : bool) (d : disk) : disk * StatePersistResult :=
  match to_json st with
  | None => (d, Some (StateSerialize, false))
  | Some json =>
      let '(d', committed, failed) := save_body fault path temp json replace d in
      let d'' := if is_some failed && negb committed && negb (fault CleanTemp) then delete temp d' else d' in
      (d'', match failed with
            | None => None
            | Some op => Some (StateIo op, committed)
            end)
  end.

(** [commit_state_to]: persist, then update the in-memory state. *)
Definition commit_state_to (fault : io_call -> bool) (path temp : string) (next : AuthState)
    (d : disk) (s : Service) : disk * (Service * result unit AuthError) :=
  let '(d', r) := save_state_with_temp fault path temp next true d in
  (d', finish_state_commit next r s).

(** ** Memory and disk agree *)

Hypothesis json_roundtrip : forall st j, to_json st = Some j -> from_json j = Some st.

Definition agree (d : disk) (path : string) (st : AuthState) : Prop :=
  exists j, d !! path = Some j /\ from_json j = Some st.

(** Nothing but [path] and the temporary file is touched, and the temporary
    file is gone unless it could not be created or removed. *)
Lemma save_body_replace fault path temp json d d' committed failed :
  path <> temp -> save_body fault path temp json true d = (d', committed, failed) ->
  (committed = true -> d' !! path = Some json /\ d' !! temp = None) /\
  (committed = false -> d' !! path = d !! path /\ failed <> None) /\
  (forall q, q <> path -> q <> temp -> d' !! q = d !! q).
Proof.
  intros Hne. unfold save_body.
  destruct (fault CreateTemp || is_some (d !! temp)); [by intros [= <- <- <-]|].
  destruct (fault WriteTemp).
  { intros [= <- <- <-]. split_and!; [done|by rewrite lookup_insert_ne|].
    intros. by rewrite lookup_insert_ne. }
  destruct (fault SyncTemp).
  { intros [= <- <- <-]. split_and!; [done|by rewrite !lookup_insert_ne|].
    intros. by rewrite !lookup_insert_ne. }
  destruct (fault Replace).
  { intros [= <- <- <-]. split_and!; [done|by rewrite !lookup_insert_ne|].
    intros. by rewrite !lookup_insert_ne. }
  intros H. assert (d' = delete temp (<[path:=json]> (<[temp:=json]> (<[temp:="" ]> d))) /\
    committed = true) as [-> ->] by (repeat case_match; naive_solver).
  split_and!; [|done|].
  - intros _. by rewrite lookup_delete_ne, lookup_insert_eq, lookup_delete_eq.
  - intros q ? ?. by rewrite lookup_delete_ne, !lookup_insert_ne.
Qed.

Lemma commit_state_to_agree fault path temp next d s d' s' r :
  path <> temp -> d !! temp = None -> agree d path (state s) ->
  commit_state_to fault path temp next d s = (d', (s', r)) ->
  agree d' path (state s') /\ (d' !! temp = None \/ fault CleanTemp = true /\ r <> Ok tt) /\
  (forall q, q <> path -> q <> temp -> d' !! q = d !! q) /\
  (state s' = state s \/ state s' = next) /\ (r = Ok tt -> state s' = next).
Proof.
  intros Hne Ht (j & Hj & Hfrom). unfold commit_state_to, save_state_with_temp.
  destruct (to_json next) as [json|] eqn:Hjson.
  2:{ intros [= <- <- <-]. simpl. split_and!; try done; [by exists j|by left|by left]. }
  destruct (save_body fault path temp json true d) as [[d1 committed] failed] eqn:E.
  apply save_body_replace in E as (Hc & Hn & Hq); [|done].
  destruct committed.
  - destruct Hc as [Hp Htmp]; [done|]. rewrite andb_false_r.
    assert (agree d1 path next) as Hag by (exists json; eauto).
    destruct failed as [op|]; intros [= <- <- <-]; simpl; auto 10.
  - destruct Hn as [Hp Hf]; [done|]. destruct failed as [op|]; [|done]. simpl.
    destruct (fault CleanTemp) eqn:Ef; intros [= <- <- <-]; simpl.
    + split_and!; [|by right|done|by left|done]. exists j. by rewrite Hp.
    + split_and!; [|left; by rewrite lookup_delete_eq| |by left|done].
      * exists j. rewrite lookup_delete_ne by done. by rewrite Hp.
      * intros q ? ?. rewrite lookup_delete_ne by done. auto.
Qed.

(** C35. [auth.json] and the memory stay equal.  Whichever system calls of a
    commit fail, the clean-up included, the file afterwards holds exactly the
    state the engine keeps in memory, which is the old or the new one; a commit
    that reports success installed the new one; the temporary file is gone,
    unless the commit failed and the removal after it failed too; and no other
    file is touched.  At the start the file and the memory are equal and the
    temporary name is unused. *)
Theorem commit_keeps_memory_and_disk_equal fault path temp next d s d' s' r :
  path <> temp -> d !! temp = None -> agree d path (state s) ->
  commit_state_to fault path temp next d s = (d', (s', r)) ->
  agree d' path (state s') /\ (d' !! temp = None \/ fault CleanTemp = true /\ r <> Ok tt) /\
  (forall q, q <> path -> q <> temp -> d' !! q = d !! q) /\
  (state s' = state s \/ state s' = next) /\ (r = Ok tt -> state s' = next).
Proof. apply commit_state_to_agree. Qed.

(** A restart loads the state the last commit left in memory, provided the
    file is still a private regular file of the right owner; and an
    authentication file that is readable by group or others, a symlink, a
    special file or someone else's is never used. *)
Theorem load_is_safe_and_faithful opened owner :
  (forall st, load_state_from opened owner = Ok (Some st) ->
     exists mode uid content, opened = Opened true mode uid (Some content) /\
       Z.land mode 63 = 0 /\ (forall o, owner = Some o -> uid = o) /\
       from_json content = Some st) /\
  (forall d path st uid, agree d path st ->
     opened = Opened true 384 uid (d !! path) -> owner = Some uid ->
     load_state_from opened owner = Ok (Some st)).
Proof.
  split.
  - intros st. unfold load_state_from. destruct opened as [| | |is_file mode uid content]; try done.
    destruct is_file; simpl; [|done].
    rewrite <- Z.land_assoc. change (Z.land 511 63) with 63.
    destruct (Z.eqb_spec (Z.land mode 63) 0) as [Hm|]; simpl; [|done].
    destruct (match owner with Some o => negb (uid =? o) | None => false end) eqn:Ho; [done|].
    destruct content as [c|]; [|done]. destruct (from_json c) as [st'|] eqn:Hc; [|done].
    intros [= <-]. exists mode, uid, c. split_and!; try done.
    intros o ->. bool_hyps. done.
  - intros d path st uid (j & Hj & Hfrom) -> ->. unfold load_state_from. simpl.
    rewrite Z.eqb_refl, Hj. simpl. by rewrite Hfrom.
Qed.
End store.

(** ** Witness: a codec for one state *)

Definition store_libs : AuthLibs := {|
  Passkey := string; AuthenticationResult := string; cred_id p := p; result_cred_id r := r;
  update_credential p _ := p; argon2_verify password hash := String.eqb hash password;
  sha256_hex t := t; ct_eq := String.eqb;
|}.

Definition store_state (n : bool) : AuthState (L:=store_libs) := mkAuthState [] [] [] n.

Definition toy_to_json (st : AuthState (L:=store_libs)) : option string :=
  match st with
  | mkAuthState [] [] [] b => Some (if b then "true" else "false")
  | _ => None
  end.
Definition toy_from_json (j : string) : option (AuthState (L:=store_libs)) :=
  if String.eqb j "true" then Some (store_state true)
  else if String.eqb j "false" then Some (store_state false) else None.

Lemma toy_json_roundtrip st j : toy_to_json st = Some j -> toy_from_json j = Some st.
Proof.
  destruct st as [[|] [|] [|] b]; simpl; try done. intros [= <-]. by destruct b.
Qed.

Lemma commit_keeps_memory_and_disk_equal_witness :
  exists d' s' r,
    commit_state_to toy_to_json "{" (fun c => bool_decide (c = Replace)) "auth.json" ".tmp"
      (store_state true) {["auth.json" := "false"]}
      (mkService (store_state false) empty_rate_limit []) = (d', (s', r)) /\
    agree toy_from_json d' "auth.json" (state s').
Proof.
  eexists _, _, _. split; [reflexivity|].
  eapply (commit_keeps_memory_and_disk_equal toy_to_json toy_from_json "{" toy_json_roundtrip
    (fun c => bool_decide (c = Replace)) "auth.json" ".tmp" (store_state true)
    {["auth.json" := "false"]} (mkService (store_state false) empty_rate_limit []));
    [done|reflexivity|exists "false"; split; reflexivity|reflexivity].
Defined.
