(* ===== verification/Router.v ===== *)
(** * JSON-RPC dispatch (nasty-engine/src/router/mod.rs, nasty-common/src/jsonrpc.rs)

    The JSON-RPC envelope, the method predicates behind the role gate, and
    [handle_rpc_request]: parse, forced password change, role gate, dispatch,
    audit and event broadcast.  serde_json is the class [Json]; the per-domain
    [try_route] functions are the parameter [try_route] of the section, which
    may do anything to the engine state.  Tracing and the timing statistics of
    [nasty_common::diagnostics] are not modelled. *)

From Stdlib Require Import ZArith Lia Ascii String.
From stdpp Require Import base list gmap strings.
From S2P Require Import Prelude RustStr Net RateLimit Auth.

(** ** serde_json *)
Class Json : Type := {
  Value : Type;
  v_null : Value;
  v_string : string -> Value;
  v_is_null : Value -> bool;
  (** [Value::get(key)] and [Value::as_str]. *)
  v_get : string -> Value -> option Value;
  v_as_str : Value -> option string;
  v_as_i64 : Value -> option Z;
  v_int : Z -> Value;
  v_object : gmap string Value -> Value;
  (** [serde_json::from_str::<Value>]. *)
  v_from_str : string -> option Value;
}.

Section jsonrpc.
Context {J : Json}.

Record Request : Type := mkRequest {
  rq_jsonrpc : string;
  rq_method : string;
  rq_params : option Value;
  rq_id : Value;
}.

Record Error : Type := mkError {
  er_code : Z;
  er_message : string;
  er_data : option Value;
}.

Record Response : Type := mkResponse {
  rs_jsonrpc : string;
  rs_result : option Value;
  rs_error : option Error;
  rs_id : Value;
}.
End jsonrpc.

Inductive ErrorCode : Type :=
| ParseError | InvalidRequest | MethodNotFound | InvalidParams | InternalError.

(** [code as i64]. *)
Definition code_as_i64 (c : ErrorCode) : Z :=
  match c with
  | ParseError => -32700
  | InvalidRequest => -32600
  | MethodNotFound => -32601
  | InvalidParams => -32602
  | InternalError => -32603
  end.

Definition response_success `{Json} (id res : Value) : Response :=
  mkResponse "2.0" (Some res) None id.

Definition response_error `{Json} (id : Value) (c : ErrorCode) (msg : string) : Response :=
  mkResponse "2.0" None (Some (mkError (code_as_i64 c) msg None)) id.

(** serde_json on the envelope: parsing a request, printing a response, and
    printing the envelope [{"jsonrpc": "2.0", "id", "method", "params"}]. *)
Class JsonRpc (J : Json) : Type := {
  from_str_request : string -> option Request;
  to_string_response : Response -> string;
  envelope_to_string : string -> string -> Value -> string;
}.

(** Documented behaviour of serde_json the clients rely on: the printed
    envelope parses back (a [null] in an [Option] field is [None]), and a
    printed response parses to an object with the fields of the response. *)
Class JsonRpcOk {J : Json} (R : JsonRpc J) : Prop := {
  envelope_parses id method params :
    from_str_request (envelope_to_string id method params) =
    Some (mkRequest "2.0" method (if v_is_null params then None else Some params) (v_string id));
  error_response_parses id c msg :
    exists v e m n, v_from_str (to_string_response (response_error id c msg)) = Some v /\
      v_get "error" v = Some e /\ v_get "message" e = Some m /\ v_as_str m = Some msg /\
      v_get "code" e = Some n /\ v_as_i64 n = Some (code_as_i64 c);
}.

(** ** The method predicates of the role gate *)

Definition is_read_only (method : string) : bool :=
  if one_of
    ["domain.user.list"; "domain.group.list"; "dc.user.list"; "dc.group.list";
     "dc.computer.list"; "auth.token.list"; "apps.registry_credentials.list";
     "guestshare.list"; "guestshare.get"; "system.custom_config.get"; "system.webui.get";
     "apps.config"; "apps.inspect"; "apps.compose.get"; "notifications.config.get";
     "audit.list"] method
  then false
  else ends_with ".list" method || ends_with ".get" method || ends_with ".status" method
       || one_of
         ["system.info"; "system.health"; "system.hardware.iommu"; "system.hardware.summary";
          "system.secure_boot.enrollment.status"; "system.secure_boot.readiness";
          "system.passthrough.get"; "system.rdma.status"; "system.stats"; "system.disks";
          "system.network.get"; "system.network.pending"; "system.network.nm_preview";
          "system.logs.units"; "system.ssh.status"; "system.alerts"; "system.settings.get";
          "system.tuning.get"; "system.nut.config.get"; "system.nut.apply_status";
          "system.nut.status"; "system.watchdog.config.get"; "system.tailscale.get";
          "system.acme.status"; "system.tls.local_ca_root"; "system.tls.host_statuses";
          "system.metrics.history"; "system.metrics.prometheus"; "alert.rules.list";
          "device.list"; "auth.me"; "auth.list_users"; "fs.dependents";
          "fs.locked_dependents"; "fs.usage"; "fs.scrub.status"; "fs.reconcile.status";
          "bcachefs.usage"; "service.protocol.list"; "subvolume.list_all";
          "subvolume.list_dependents"; "subvolume.find_by_property"; "subvolume.children";
          "smb.user.list"; "smb.group.list"; "service.rest_server.config";
          "service.base_names.get"; "system.update.version"; "system.update.check";
          "system.update.check_cached"; "backup.secrets_status"; "system.update.status";
          "system.update.build_dir.get"; "system.reboot_required"; "system.generations.list";
          "system.version.get"; "system.version.tagged_release_notice"; "system.log.level";
          "system.settings.timezones"; "audit.mine"; "apps.check_ports"; "apps.check_devices";
          "apps.check_volumes"; "apps.check_compose"; "apps.status"; "apps.stats";
          "apps.logs"; "apps.compose.logs"; "apps.container.logs"; "system.firewall.status";
          "vm.capabilities"; "vm.images.import_info"; "firmware.available";
          "firmware.constraints"; "firmware.devices"; "apps.inspect_image";
          "apps.caddy.routes"; "apps.ingress.check_conflict"; "bcachefs.timestats";
          "bcachefs.top"; "backup.profile.list"; "backup.profile.get"; "backup.status";
          "backup.snapshots"; "backup.jobs.list"; "backup.jobs.get";
          "auth.oidc.config_status"; "auth.webauthn.config"; "auth.webauthn.list"] method.

Definition is_universally_allowed (method : string) : bool :=
  is_read_only method
  || one_of
    ["auth.logout"; "auth.change_password"; "auth.webauthn.register.start";
     "auth.webauthn.register.finish"; "auth.webauthn.delete"] method.

Definition is_user_allowed (method : string) : bool :=
  one_of
    ["auth.me"; "auth.logout"; "auth.change_password"; "auth.webauthn.config";
     "auth.webauthn.list"; "auth.webauthn.register.start"; "auth.webauthn.register.finish";
     "auth.webauthn.delete"; "audit.mine"] method.

Definition is_operator_allowed (method : string) : bool :=
  is_universally_allowed method
  || one_of
    ["subvolume.create"; "subvolume.delete"; "subvolume.attach"; "subvolume.detach";
     "subvolume.resize"; "subvolume.update"; "subvolume.clone"; "subvolume.set_properties";
     "subvolume.remove_properties"; "snapshot.create"; "snapshot.delete"; "snapshot.clone";
     "share.nfs.create"; "share.nfs.update"; "share.nfs.delete"; "guestshare.list";
     "guestshare.get"; "guestshare.create"; "guestshare.revoke"; "guestshare.remove";
     "share.smb.create"; "share.smb.update"; "share.smb.delete"; "smb.user.create";
     "smb.user.delete"; "smb.user.set_password"; "smb.group.create"; "smb.group.delete";
     "smb.group.add_member"; "smb.group.remove_member"; "share.iscsi.create";
     "share.iscsi.delete"; "share.iscsi.add_lun"; "share.iscsi.remove_lun";
     "share.iscsi.add_acl"; "share.iscsi.remove_acl"; "share.iscsi.add_portal";
     "share.iscsi.remove_portal"; "share.iscsi.set_portals"; "share.nvmeof.create";
     "share.nvmeof.delete"; "share.nvmeof.add_namespace"; "share.nvmeof.remove_namespace";
     "share.nvmeof.add_port"; "share.nvmeof.remove_port"; "share.nvmeof.add_host";
     "share.nvmeof.remove_host"; "vm.create"; "vm.disk.create"; "vm.disk.candidates";
     "vm.update"; "vm.delete"; "vm.start"; "vm.stop"; "vm.kill"; "vm.snapshot"; "vm.clone";
     "apps.install"; "apps.update"; "apps.config"; "apps.inspect"; "apps.remove"; "apps.stop";
     "apps.start"; "apps.restart"; "apps.pull"; "apps.prune"; "apps.ingress.set";
     "apps.ingress.remove"; "apps.networks.create"; "apps.networks.remove";
     "backup.profile.create"; "backup.profile.update"; "backup.profile.delete"; "backup.run";
     "backup.repo.check"; "backup.repo.init"; "backup.restore"; "service.protocol.enable";
     "service.protocol.disable"; "alert.acknowledge"; "vm.images.ensure"] method.

(** Derive the collection a successful call announces on the event bus. *)
Definition collection_for_method (m : string) : option string :=
  if String.eqb m "vm.disk.create" then Some "subvolume"
  else if starts_with "fs.device." m then Some "filesystem"
  else if starts_with "fs." m && negb (is_read_only m) then Some "filesystem"
  else if starts_with "device." m && negb (is_read_only m) then Some "filesystem"
  else if starts_with "subvolume." m && negb (is_read_only m) then Some "subvolume"
  else if starts_with "snapshot." m && negb (is_read_only m) then Some "snapshot"
  else if starts_with "share.nfs." m && negb (is_read_only m) then Some "share.nfs"
  else if starts_with "share.smb." m && negb (is_read_only m) then Some "share.smb"
  else if starts_with "share.iscsi." m && negb (is_read_only m) then Some "share.iscsi"
  else if starts_with "share.nvmeof." m && negb (is_read_only m) then Some "share.nvmeof"
  else if starts_with "service.protocol." m && negb (is_read_only m) then Some "protocol"
  else if starts_with "system.settings." m && negb (is_read_only m) then Some "settings"
  else if starts_with "system.tuning." m && negb (is_read_only m) then Some "tuning"
  else if starts_with "system.nut." m && negb (is_read_only m) then Some "nut"
  else if starts_with "system.watchdog." m && negb (is_read_only m) then Some "watchdog"
  else if starts_with "system.tailscale." m && negb (is_read_only m) then Some "tailscale"
  else if starts_with "alert." m && negb (is_read_only m) then Some "alert"
  else None.

(** [match session.role { .. }] of the role gate. *)
Definition role_denied (r : Role) (method : string) : bool :=
  match r with
  | Admin => false
  | ReadOnly => negb (is_universally_allowed method)
  | Operator => negb (is_operator_allowed method)
  | RUser => negb (is_user_allowed method)
  end.

(** The domain modules [route] dispatches to, by method prefix. *)
Inductive RouterModule : Type :=
| m_auth | m_audit | m_alerts | m_notifications | m_backup | m_fs | m_bcachefs | m_subvolume
| m_snapshot | m_share | m_guestshare | m_smb | m_domain | m_dc | m_service | m_system | m_vm
| m_apps.

Definition method_prefix (method : string) : string :=
  match split_once "." method with Some (p, _) => p | None => method end.

Definition route_module (method : string) : option RouterModule :=
  let prefix := method_prefix method in
  if String.eqb prefix "auth" then Some m_auth
  else if String.eqb prefix "audit" then Some m_audit
  else if one_of ["alert"; "telemetry"] prefix then Some m_alerts
  else if String.eqb prefix "notifications" then Some m_notifications
  else if String.eqb prefix "backup" then Some m_backup
  else if one_of ["fs"; "device"] prefix then Some m_fs
  else if String.eqb prefix "bcachefs" then Some m_bcachefs
  else if String.eqb prefix "subvolume" then Some m_subvolume
  else if String.eqb prefix "snapshot" then Some m_snapshot
  else if String.eqb prefix "share" then Some m_share
  else if String.eqb prefix "guestshare" then Some m_guestshare
  else if String.eqb prefix "smb" then Some m_smb
  else if String.eqb prefix "domain" then Some m_domain
  else if String.eqb prefix "dc" then Some m_dc
  else if String.eqb prefix "service" then Some m_service
  else if String.eqb prefix "system" then
    (if String.eqb method "system.alerts" then Some m_alerts else Some m_system)
  else if String.eqb prefix "firmware" then Some m_system
  else if String.eqb prefix "vm" then Some m_vm
  else if String.eqb prefix "apps" then Some m_apps
  else None.

Definition role_debug (r : Role) : string :=
  match r with
  | Admin => "Admin" | ReadOnly => "ReadOnly" | Operator => "Operator" | RUser => "User"
  end.

(** ** Dispatch *)

Section router.
Context {L : AuthLibs} {J : Json} {R : JsonRpc J}.
(** The state of the domain services (filesystems, shares, VMs, ...). *)
Context {D : Type}.

(** [AppState]: the authentication service, the domain services, the event
    bus (oldest first) and the audit records written by the dispatcher with
    their details. *)
Record AppState : Type := mkAppState {
  ap_auth : Service;
  ap_domain : D;
  ap_events : list string;
  ap_audit : list (audit_entry * string);
}.

Context (try_route : RouterModule -> Request -> Session -> AppState -> AppState * option Response).

Definition str_param (key : string) (request : Request) : option string :=
  match rq_params request with
  | Some p => match v_get key p with Some v => v_as_str v | None => None end
  | None => None
  end.

Definition require_str (req : Request) (key : string) : result string Response :=
  ok_or (str_param key req)
    (response_error (rq_id req) InvalidParams ("Missing required param: " +:+ key)).

Fixpoint first_str_param (keys : list string) (params : Value) : option string :=
  match keys with
  | [] => None
  | key :: keys' =>
      match v_get key params with
      | Some v => match v_as_str v with
                  | Some s => Some s
                  | None => first_str_param keys' params
                  end
      | None => first_str_param keys' params
      end
  end.

Definition audit_detail (request : Request) : string :=
  match rq_params request with
  | None => ""
  | Some params =>
      match first_str_param
              ["name"; "username"; "filesystem"; "target"; "id"; "path"; "host_path"] params with
      | Some val => val
      | None => match first_str_param ["device"] params with
                | Some val => val
                | None => ""
                end
      end
  end.

Definition rpc_audit (event user ip detail : string) (s : AppState) : AppState :=
  mkAppState (ap_auth s) (ap_domain s) (ap_events s) (ap_audit s ++ [((event, user, ip), detail)]).

Definition send_event (collection : string) (s : AppState) : AppState :=
  mkAppState (ap_auth s) (ap_domain s) (ap_events s ++ [collection]) (ap_audit s).

Definition session_ip (session : Session) : string := default "unknown" (s_client_ip session).

Definition route (req : Request) (session : Session) (s : AppState) : AppState * Response :=
  let '(s', resp) :=
    match route_module (rq_method req) with
    | Some m => try_route m req session s
    | None => (s, None)
    end in
  (s', match resp with
       | Some r => r
       | None => response_error (rq_id req) MethodNotFound
                   ("Unknown method: " +:+ rq_method req)
       end).

(** [wire.pop()] removes the closing brace of the serialized response; the
    timing object [timing] and a new brace follow. *)
Definition dquote : string := of_bytes [chr 34].
Definition str_pop (s : string) : string := of_bytes (removelast (to_bytes s)).
Definition with_timing (timing wire : string) : string :=
  str_pop wire +:+ "," +:+ dquote +:+ "_timing" +:+ dquote +:+ ":" +:+ timing +:+ "}".

(** The audit record and the event of a call that succeeded. *)
Definition after_success (request : Request) (session : Session) (s : AppState) : AppState :=
  let s1 :=
    if negb (is_read_only (rq_method request)) && negb (starts_with "auth." (rq_method request))
    then rpc_audit (rq_method request) (s_username session) (session_ip session)
           (audit_detail request) s
    else s in
  match collection_for_method (rq_method request) with
  | Some collection => send_event collection s1
  | None => s1
  end.

Definition handle_rpc_request (raw timing : string) (s : AppState) (session : Session)
    : AppState * string :=
  match from_str_request raw with
  | None =>
      (s, to_string_response
            (response_error v_null ParseError "Failed to parse JSON-RPC request"))
  | Some request =>
      if s_must_change_password session
         && negb (one_of ["auth.change_password"; "auth.me"; "auth.logout"] (rq_method request))
      then (s, to_string_response
                 (response_error (rq_id request) InternalError "Password change required"))
      else if role_denied (s_role session) (rq_method request)
      then
        (rpc_audit "permission_denied" (s_username session) (session_ip session)
           ("method=" +:+ rq_method request +:+ " role=" +:+ role_debug (s_role session)) s,
         to_string_response (response_error (rq_id request) InternalError "Permission denied"))
      else
        let '(s1, response) := route request session s in
        let s2 := match rs_error response with
                  | None => after_success request session s1
                  | Some _ => s1
                  end in
        (s2, with_timing timing (to_string_response response))
  end.

(** ** Gates used by the domain handlers *)

Definition rpc_err (req : Request) (msg : string) : Response :=
  response_error (rq_id req) InternalError msg.

Definition require_endpoint_access (req : Request) (session : Session) (access : EndpointAccess)
    (reason : string) (audit_allowed : bool) (s : AppState) : AppState * option Response :=
  match authorize_session session access with
  | Ok _ =>
      (if audit_allowed
       then rpc_audit "root_equivalent_requested" (s_username session) (session_ip session)
              ("method=" +:+ rq_method req +:+ " reason=" +:+ reason) s
       else s, None)
  | Err denied =>
      (rpc_audit "permission_denied" (s_username session) (session_ip session)
         ("method=" +:+ rq_method req +:+ " role=" +:+ role_debug (s_role session)
          +:+ " reason=" +:+ reason) s,
       Some (rpc_err req (message denied)))
  end.

Definition require_root_equivalent (req : Request) (session : Session) (reason : string)
    : AppState -> AppState * option Response :=
  require_endpoint_access req session RootEquivalent reason true.

Definition require_root_equivalent_read (req : Request) (session : Session) (reason : string)
    : AppState -> AppState * option Response :=
  require_endpoint_access req session RootEquivalent reason false.

Definition require_unscoped_mutation (req : Request) (session : Session) (reason : string)
    : AppState -> AppState * option Response :=
  require_endpoint_access req session UnscopedMutation reason false.
End router.

(** ** What the gate admits *)

(** The order of privileges: standard users, read-only and operator accounts,
    administrators. *)
Definition role_rank (r : Role) : nat :=
  match r with RUser => 0 | ReadOnly => 1 | Operator => 2 | Admin => 3 end%nat.

(** A session is let through to the handler of [method]. *)
Definition admitted (session : Session) (method : string) : bool :=
  (negb (s_must_change_password session)
   || one_of ["auth.change_password"; "auth.me"; "auth.logout"] method)
  && negb (role_denied (s_role session) method).

Lemma user_allowed_universally m : is_user_allowed m = true -> is_universally_allowed m = true.
Proof.
  unfold is_user_allowed. rewrite one_of_spec. intros H.
  repeat (apply elem_of_cons in H as [->|H]; [vm_compute; reflexivity|]).
  by apply not_elem_of_nil in H.
Qed.

Lemma universally_allowed_operator m :
  is_universally_allowed m = true -> is_operator_allowed m = true.
Proof. unfold is_operator_allowed. by intros ->. Qed.

Lemma role_denied_antitone r r' m :
  (role_rank r <= role_rank r')%nat -> role_denied r' m = true -> role_denied r m = true.
Proof.
  pose proof (user_allowed_universally m) as H1.
  pose proof (universally_allowed_operator m) as H2.
  destruct r, r'; simpl; intros Hr; try lia; try done; clear Hr;
    destruct (is_user_allowed m), (is_universally_allowed m), (is_operator_allowed m);
    simpl; naive_solver.
Qed.

Lemma admitted_mono session r' m :
  (role_rank (s_role session) <= role_rank r')%nat ->
  admitted session m = true ->
  admitted (mkSession (s_token session) (s_username session) r' (s_file_principal session)
    (s_filesystem session) (s_owner session) (s_created_at session)
    (s_must_change_password session) (s_client_ip session)) m = true.
Proof.
  unfold admitted. cbn [s_must_change_password s_role]. intros Hr H. bool_hyps.
  apply andb_true_iff. split; [done|]. apply negb_true_iff.
  destruct (role_denied r' m) eqn:E; [|done].
  by rewrite (role_denied_antitone _ _ _ Hr E) in *.
Qed.

Section router_props.
Context {L : AuthLibs} {J : Json} {R : JsonRpc J} {D : Type}.
Implicit Types (s : AppState (D:=D)) (session : Session) (req : Request).

Abbreviation handlers := (RouterModule -> Request -> Session -> AppState (D:=D) ->
  AppState (D:=D) * option Response).

(** The records [handle_rpc_request] writes for a request it refuses. *)
Definition refusal_records session (method : string) : list (audit_entry * string) :=
  if s_must_change_password session
     && negb (one_of ["auth.change_password"; "auth.me"; "auth.logout"] method)
  then []
  else [(("permission_denied", s_username session, session_ip session),
         "method=" +:+ method +:+ " role=" +:+ role_debug (s_role session))].

(** C36. A request the gate does not admit has no effect whatever the domain
    handlers do: the authentication state, the domain state and the event bus
    are unchanged, a refusal by role leaves exactly one [permission_denied]
    record and a refusal for a pending password change none, and the reply is
    an error response for the request's id.  The same holds for text that is
    not a request. *)
Theorem refused_request_inert (h : handlers) raw timing s session :
  (forall req, from_str_request raw = Some req -> admitted session (rq_method req) = false) ->
  let '(s', reply) := handle_rpc_request h raw timing s session in
  (forall h' : handlers, handle_rpc_request h' raw timing s session = (s', reply)) /\
  ap_auth s' = ap_auth s /\ ap_domain s' = ap_domain s /\ ap_events s' = ap_events s /\
  match from_str_request raw with
  | None => s' = s /\ reply = to_string_response
              (response_error v_null ParseError "Failed to parse JSON-RPC request")
  | Some req =>
      ap_audit s' = ap_audit s ++ refusal_records session (rq_method req) /\
      exists msg, reply = to_string_response (response_error (rq_id req) InternalError msg)
  end.
Proof.
  intros Hadm. unfold handle_rpc_request.
  destruct (from_str_request raw) as [req|]; [|done].
  specialize (Hadm req eq_refl). unfold admitted in Hadm. unfold refusal_records.
  destruct (s_must_change_password session && negb (one_of _ _)) eqn:Hpw.
  - rewrite app_nil_r. naive_solver.
  - destruct (role_denied (s_role session) (rq_method req)) eqn:Hden; [naive_solver|].
    exfalso. rewrite andb_true_r in Hadm. apply orb_false_iff in Hadm as [Hp Hm].
    apply negb_false_iff in Hp. by rewrite Hp, Hm in Hpw.
Qed.

(** A request the gate admits runs the handler of its module exactly once.
    An error response leaves the state as the handler left it: nothing is
    announced and nothing recorded.  A success announces exactly the collection
    of the method, and records exactly one entry with the method, the user, its
    address and the detail of the request unless the method only reads or
    belongs to [auth.]. *)
Theorem admitted_request_effects (h : handlers) raw timing s session req :
  from_str_request raw = Some req ->
  admitted session (rq_method req) = true ->
  let '(s1, resp) := route h req session s in
  let '(s', reply) := handle_rpc_request h raw timing s session in
  reply = with_timing timing (to_string_response resp) /\
  ap_auth s' = ap_auth s1 /\ ap_domain s' = ap_domain s1 /\
  match rs_error resp with
  | Some _ => s' = s1
  | None =>
      ap_events s' = ap_events s1 ++ option_list (collection_for_method (rq_method req)) /\
      ap_audit s' = ap_audit s1 ++
        (if is_read_only (rq_method req) || starts_with "auth." (rq_method req) then []
         else [((rq_method req, s_username session, session_ip session), audit_detail req)])
  end.
Proof.
  intros Hraw Hadm. unfold handle_rpc_request. rewrite Hraw.
  unfold admitted in Hadm. apply andb_true_iff in Hadm as [Hpw Hden].
  apply negb_true_iff in Hden. rewrite Hden.
  replace (s_must_change_password session && negb (one_of _ _)) with false
    by (destruct (s_must_change_password session), (one_of _ _); done).
  destruct (route h req session s) as [s1 resp].
  destruct (rs_error resp); [done|]. unfold after_success.
  rewrite <- negb_orb. destruct (is_read_only _ || starts_with _ _); simpl;
    destruct (collection_for_method _); simpl; rewrite ?app_nil_r; done.
Qed.

(** Privileges are nested: a request a session may make stays allowed when
    its role is raised along User, ReadOnly, Operator, Admin, for every method
    name, and a pending password change narrows it to the three methods needed
    to resolve it; every level is strict. *)
Theorem privileges_nested :
  (forall session r' m, (role_rank (s_role session) <= role_rank r')%nat ->
    admitted session m = true ->
    admitted (mkSession (s_token session) (s_username session) r' (s_file_principal session)
      (s_filesystem session) (s_owner session) (s_created_at session)
      (s_must_change_password session) (s_client_ip session)) m = true) /\
  (forall session m, s_must_change_password session = true ->
    (admitted session m = true <-> m ∈ ["auth.change_password"; "auth.me"; "auth.logout"])) /\
  Forall (fun '(r, r', m) => role_denied r m = true /\ role_denied r' m = false)
    [(RUser, ReadOnly, "fs.list"); (ReadOnly, Operator, "vm.create");
     (Operator, Admin, "system.reboot")].
Proof.
  split; [intros; by apply admitted_mono|]. split.
  - intros session m Hpw. unfold admitted. rewrite Hpw, <- one_of_spec. cbn [negb orb].
    split; [intros H; by apply andb_true_iff in H as [? _]|].
    intros Hm. rewrite Hm. apply one_of_spec in Hm.
    repeat (apply elem_of_cons in Hm as [->|Hm];
      [destruct (s_role session); vm_compute; reflexivity|]).
    by apply not_elem_of_nil in Hm.
  - repeat (constructor; [vm_compute; done|]). constructor.
Qed.

(** The gate handlers put in front of root-equivalent work lets a call pass
    exactly for an administrator's unscoped session with no password change
    pending; every decision leaves one audit record that names the caller, and
    nothing else changes. *)
Lemma root_equivalent_gate_exact req session reason s :
  let '(s', denied) := require_root_equivalent req session reason s in
  (denied = None <->
    s_role session = Admin /\ s_filesystem session = None /\ s_owner session = None /\
    s_must_change_password session = false) /\
  (forall resp, denied = Some resp -> rs_id resp = rq_id req /\ rs_error resp <> None) /\
  ap_auth s' = ap_auth s /\ ap_domain s' = ap_domain s /\ ap_events s' = ap_events s /\
  exists event detail,
    ap_audit s' = ap_audit s ++ [((event, s_username session, session_ip session), detail)].
Proof.
  unfold require_root_equivalent, require_endpoint_access, authorize_session.
  destruct session as [tok us ro fp fsn ow ca mc ip]; cbn.
  destruct mc, ro, fsn, ow; cbn; split_and!; naive_solver.
Qed.
End router_props.
