(* ===== verification/ToyJson.v ===== *)
(** * A concrete JSON library, and concrete calls of the dispatcher

    An instance of [Json] and [JsonRpc] that satisfies the laws of [JsonRpcOk],
    so that the theorems assuming them can be evaluated on concrete calls. *)

From Stdlib Require Import ZArith Lia Ascii String.
From stdpp Require Import base list gmap strings.
From S2P Require Import Prelude RustStr Net RateLimit Auth AuthInv AuthProps Router.

(** The objects of the protocol: [{"error": ..}], [{"code", "message"}] and
    [{"name": ..}]. *)
Inductive toy_value : Type :=
| TNull | TStr (s : string) | TCode (c : ErrorCode) | TErr (c : ErrorCode) (msg : string)
| TErrBody (c : ErrorCode) (msg : string) | TName (s : string).

(** Strings are written with a [1] before every character and a final [0]. *)
Fixpoint enc (l : bytes) : bytes :=
  match l with [] => ["0"%char] | c :: l' => "1"%char :: c :: enc l' end.

Fixpoint dec (l : bytes) : option (bytes * bytes) :=
  match l with
  | [] => None
  | m :: l' =>
      if Ascii.eqb m "0" then Some ([], l')
      else match l' with
           | [] => None
           | c :: l'' => match dec l'' with
                         | Some (s, rest) => Some (c :: s, rest)
                         | None => None
                         end
           end
  end.

Lemma dec_enc l rest : dec (enc l ++ rest) = Some (l, rest).
Proof. induction l as [|c l IH]; simpl; [done|]. by rewrite IH. Qed.

Definition code_char (c : ErrorCode) : ascii :=
  match c with
  | ParseError => "P" | InvalidRequest => "R" | MethodNotFound => "M" | InvalidParams => "A"
  | InternalError => "I"
  end.

Definition char_code (c : ascii) : ErrorCode :=
  if Ascii.eqb c "P" then ParseError else if Ascii.eqb c "R" then InvalidRequest
  else if Ascii.eqb c "M" then MethodNotFound else if Ascii.eqb c "A" then InvalidParams
  else InternalError.

Definition code_of_i64 (z : Z) : ErrorCode :=
  if z =? -32700 then ParseError else if z =? -32600 then InvalidRequest
  else if z =? -32601 then MethodNotFound else if z =? -32602 then InvalidParams
  else InternalError.

Definition encv (v : toy_value) : bytes :=
  match v with
  | TNull => ["n"%char]
  | TStr s => "s"%char :: enc (to_bytes s)
  | TCode c => ["c"%char; code_char c]
  | TErr c m => "e"%char :: code_char c :: enc (to_bytes m)
  | TErrBody c m => "b"%char :: code_char c :: enc (to_bytes m)
  | TName s => "o"%char :: enc (to_bytes s)
  end.

Definition decv (l : bytes) : option toy_value :=
  match l with
  | "n"%char :: _ => Some TNull
  | "s"%char :: l' => (fun r => TStr (of_bytes (fst r))) <$> dec l'
  | "c"%char :: k :: _ => Some (TCode (char_code k))
  | "e"%char :: k :: l' => (fun r => TErr (char_code k) (of_bytes (fst r))) <$> dec l'
  | "b"%char :: k :: l' => (fun r => TErrBody (char_code k) (of_bytes (fst r))) <$> dec l'
  | "o"%char :: l' => (fun r => TName (of_bytes (fst r))) <$> dec l'
  | _ => None
  end.

Lemma dec_enc_nil l : dec (enc l) = Some (l, []).
Proof. rewrite <- (app_nil_r (enc l)). apply dec_enc. Qed.

Lemma decv_encv v : decv (encv v) = Some v.
Proof.
  destruct v as [|s|c|c m|c m|s]; simpl; try destruct c; simpl;
    rewrite ?dec_enc_nil; simpl; rewrite ?of_to_bytes; done.
Qed.

#[export] Instance toy_json : Json := {|
  Value := toy_value;
  v_null := TNull;
  v_string := TStr;
  v_is_null v := match v with TNull => true | _ => false end;
  v_get key v :=
    match v with
    | TErr c m => if String.eqb key "error" then Some (TErrBody c m) else None
    | TErrBody c m => if String.eqb key "code" then Some (TCode c)
                      else if String.eqb key "message" then Some (TStr m) else None
    | TName s => if String.eqb key "name" then Some (TStr s) else None
    | _ => None
    end;
  v_as_str v := match v with TStr s => Some s | _ => None end;
  v_as_i64 v := match v with TCode c => Some (code_as_i64 c) | _ => None end;
  v_int z := TCode (code_of_i64 z);
  v_object m := match m !! "name" with Some (TStr s) => TName s | _ => TNull end;
  v_from_str s := decv (to_bytes s);
|}.

#[export] Instance toy_rpc : JsonRpc toy_json := {|
  from_str_request raw :=
    match dec (to_bytes raw) with
    | Some (id, l) =>
        match dec l with
        | Some (m, l') =>
            match decv l' with
            | Some p => Some (mkRequest (J:=toy_json) "2.0" (of_bytes m)
                          (match p with TNull => None | _ => Some p end) (TStr (of_bytes id)))
            | None => None
            end
        | None => None
        end
    | None => None
    end;
  to_string_response r :=
    match rs_error r with
    | Some e => of_bytes (encv (TErr (code_of_i64 (er_code e)) (er_message e)))
    | None => of_bytes (encv TNull ++ ["}"%char])
    end;
  envelope_to_string id m p := of_bytes (enc (to_bytes id) ++ enc (to_bytes m) ++ encv p);
|}.

#[export] Instance toy_rpc_ok : JsonRpcOk toy_rpc.
Proof.
  constructor.
  - intros id m p. simpl. rewrite to_of_bytes, !dec_enc, decv_encv, !of_to_bytes.
    by destruct p.
  - intros id c msg. exists (TErr c msg), (TErrBody c msg), (TStr msg), (TCode c).
    split_and!; try done. cbn [to_string_response response_error rs_error toy_rpc v_from_str
      toy_json er_code er_message]. rewrite to_of_bytes, decv_encv. by destruct c.
Qed.

Definition call (method : string) : string := envelope_to_string "1" method (TName "tank").

(** Handlers that count the calls they get and always succeed. *)
Definition counting_handlers (m : RouterModule) (req : Request) (session : Session)
    (s : AppState (D:=nat)) : AppState (D:=nat) * option Response :=
  (mkAppState (ap_auth s) (S (ap_domain s)) (ap_events s) (ap_audit s),
   Some (response_success (rq_id req) (v_string "ok"))).

Definition app0 : AppState (D:=nat) := mkAppState svc0 0%nat [] [].
Definition operator_session : Session :=
  mkSession "tok" "olga" Operator None None None 0 false (Some "10.0.0.2").

Lemma refused_request_inert_witness :
  let s' := fst (handle_rpc_request counting_handlers (call "system.reboot") "" app0 operator_session) in
  ap_domain s' = 0%nat /\
  ap_audit s' = [(("permission_denied", "olga", "10.0.0.2"), "method=system.reboot role=Operator")].
Proof.
  pose proof (refused_request_inert counting_handlers (call "system.reboot") "" app0 operator_session) as H.
  destruct (handle_rpc_request _ _ _ _ _) as [s' reply].
  destruct H as (_ & _ & Hd & _ & Ha & _).
  - intros req [= <-]. vm_compute. reflexivity.
  - split; [exact Hd|exact Ha].
Defined.

Lemma admitted_request_effects_witness :
  let s' := fst (handle_rpc_request counting_handlers (call "subvolume.create") "" app0 operator_session) in
  ap_domain s' = 1%nat /\ ap_events s' = ["subvolume"] /\
  ap_audit s' = [(("subvolume.create", "olga", "10.0.0.2"), "tank")].
Proof.
  pose proof (admitted_request_effects counting_handlers (call "subvolume.create") "" app0
    operator_session _ eq_refl eq_refl) as H.
  destruct (route _ _ _ _) as [s1 resp] eqn:Er.
  vm_compute in Er. injection Er as <- <-.
  destruct (handle_rpc_request _ _ _ _ _) as [s' reply].
  destruct H as (_ & _ & Hd & He & Ha). split_and!; [exact Hd|exact He|exact Ha].
Defined.
