(* ===== verification/Registry.v ===== *)
(** * The method registry (nasty-engine/src/registry/mod.rs, registry/methods.rs)

    One definition per documentation group of [methods::registry].  A method
    keeps its name, its declared role, the Rust type or the fields of its
    parameters and the Rust type of its result; descriptions and the JSON
    schemas schemars derives from those types are not kept. *)

From Stdlib Require Import ZArith Lia Ascii String.
From stdpp Require Import base list gmap strings.
From S2P Require Import Prelude RustStr Net RateLimit Auth Router.

Inductive MethodRole : Type := MRAny | MROperator | MRAdmin.

#[export] Instance MethodRole_eq_dec : EqDecision MethodRole.
Proof. solve_decision. Defined.

(** [MP_Schema] and [MR_Schema] carry the type given to [gen_schema];
    [MP_AdHoc] (and [MP_SchemaJson], a schema written inline) carry the fields
    with a flag telling whether they are required. *)
Inductive MethodParams : Type :=
| MP_None
| MP_Schema (rust_type : string)
| MP_SchemaJson (fields : list (string * bool))
| MP_AdHoc (fields : list (string * bool)).

Inductive MethodResult : Type := MR_Schema (rust_type : string) | MR_Inline.

Record Method : Type := mkMethod {
  mt_name : string;
  mt_role : MethodRole;
  mt_params : MethodParams;
  mt_result : option MethodResult;
}.

Definition registry_authentication : list Method :=
  [mkMethod "auth.me" MRAny MP_None (Some (MR_Schema "AuthMeResult"));
   mkMethod "auth.logout" MRAny MP_None None;
   mkMethod "auth.change_password" MRAny (MP_Schema "ChangePasswordRequest") None;
   mkMethod "auth.create_user" MRAdmin (MP_Schema "CreateUserRequest") None;
   mkMethod "auth.delete_user" MRAdmin (MP_AdHoc [("username", true)]) None;
   mkMethod "auth.list_users" MRAny MP_None (Some (MR_Schema "Vec<UserInfo>"));
   mkMethod "auth.token.list" MRAdmin MP_None (Some (MR_Schema "Vec<ApiTokenInfo>"));
   mkMethod "auth.token.create" MRAdmin
      (MP_AdHoc [("name", true); ("role", true); ("filesystem", false); ("expires_in_secs", false)])
      (Some (MR_Schema "ApiToken"));
   mkMethod "auth.token.delete" MRAdmin (MP_AdHoc [("id", true)]) None].

Definition registry_system : list Method :=
  [mkMethod "system.info" MRAny MP_None (Some (MR_Schema "SystemInfo"));
   mkMethod "system.health" MRAny MP_None (Some (MR_Schema "SystemHealth"));
   mkMethod "system.status" MRAny MP_None (Some (MR_Schema "SystemStatus"));
   mkMethod "system.operations.list" MRAny MP_None (Some (MR_Schema "Vec<Operation>"));
   mkMethod "system.custom_config.get" MRAdmin MP_None
      (Some (MR_Schema "nasty_system::CustomConfig"));
   mkMethod "system.stats" MRAny MP_None (Some (MR_Schema "SystemStats"));
   mkMethod "system.disks" MRAny MP_None (Some (MR_Schema "Vec<DiskHealth>"));
   mkMethod "system.alerts" MRAny MP_None (Some (MR_Schema "Vec<AlertOccurrence>"));
   mkMethod "system.reboot" MRAdmin MP_None None;
   mkMethod "system.maintenance.enter" MRAdmin MP_None None;
   mkMethod "system.shutdown" MRAdmin MP_None None].

Definition registry_system_update : list Method :=
  [mkMethod "system.update.version" MRAny MP_None (Some (MR_Schema "UpdateInfo"));
   mkMethod "system.update.check" MRAny MP_None (Some (MR_Schema "UpdateInfo"));
   mkMethod "system.update.check_cached" MRAny MP_None (Some (MR_Schema "UpdateInfo"));
   mkMethod "system.update.apply" MRAdmin MP_None None;
   mkMethod "system.update.rollback" MRAdmin MP_None None;
   mkMethod "system.update.status" MRAny MP_None (Some (MR_Schema "UpdateStatus"));
   mkMethod "system.update.build_dir.get" MRAny MP_None (Some (MR_Schema "UpdateBuildDirConfig"));
   mkMethod "system.update.build_dir.set" MRAdmin (MP_AdHoc [("path", true)])
      (Some (MR_Schema "UpdateBuildDirConfig"));
   mkMethod "system.version.get" MRAny MP_None (Some (MR_Schema "VersionInfo"));
   mkMethod "system.version.tagged_release_notice" MRAny MP_None
      (Some (MR_Schema "VersionTaggedReleaseStatus"));
   mkMethod "system.version.upgrade_tagged_release" MRAdmin MP_None None;
   mkMethod "system.version.switch" MRAdmin (MP_Schema "VersionSwitchRequest") None].

Definition registry_settings : list Method :=
  [mkMethod "system.settings.get" MRAny MP_None (Some (MR_Schema "Settings"));
   mkMethod "system.settings.update" MRAdmin (MP_Schema "SettingsUpdate")
      (Some (MR_Schema "Settings"));
   mkMethod "system.settings.timezones" MRAny MP_None (Some (MR_Schema "Vec<String>"));
   mkMethod "system.webui.get" MRAdmin MP_None
      (Some (MR_Schema "nasty_system::webui::ListenerState"));
   mkMethod "system.diagnostics.report" MRAdmin MP_None (Some MR_Inline);
   mkMethod "system.diagnostics.capture" MRAdmin (MP_AdHoc [("enabled", true)]) (Some MR_Inline);
   mkMethod "system.diagnostics.clear" MRAdmin MP_None (Some MR_Inline);
   mkMethod "system.diagnostics.capture_reboot" MRAdmin (MP_AdHoc [("enabled", true)])
      (Some MR_Inline);
   mkMethod "system.webui.update" MRAdmin (MP_Schema "nasty_system::webui::ListenerPorts")
      (Some (MR_Schema "nasty_system::webui::ListenerState"));
   mkMethod "system.webui.confirm" MRAdmin (MP_AdHoc [("txn_id", true)])
      (Some (MR_Schema "nasty_system::webui::ListenerState"));
   mkMethod "system.webui.rollback" MRAdmin MP_None
      (Some (MR_Schema "nasty_system::webui::ListenerState"))].

Definition registry_network : list Method :=
  [mkMethod "system.network.get" MRAny MP_None (Some (MR_Schema "NetworkConfig"));
   mkMethod "system.network.update" MRAdmin (MP_Schema "NetworkConfig") None].

Definition registry_protocols_services : list Method :=
  [mkMethod "service.protocol.list" MRAny MP_None (Some (MR_Schema "Vec<ProtocolStatus>"));
   mkMethod "service.protocol.enable" MROperator (MP_AdHoc [("name", true)])
      (Some (MR_Schema "ProtocolStatus"));
   mkMethod "service.protocol.disable" MROperator (MP_AdHoc [("name", true)])
      (Some (MR_Schema "ProtocolStatus"))].

Definition registry_alert_rules : list Method :=
  [mkMethod "alert.acknowledge" MROperator (MP_AdHoc [("instance_id", true)])
      (Some (MR_Schema "AlertAcknowledgement"));
   mkMethod "alert.rules.list" MRAny MP_None (Some (MR_Schema "Vec<AlertRule>"));
   mkMethod "alert.rules.create" MRAdmin (MP_Schema "AlertRule") (Some (MR_Schema "AlertRule"));
   mkMethod "alert.rules.update" MRAdmin (MP_Schema "AlertRuleUpdate")
      (Some (MR_Schema "AlertRule"));
   mkMethod "alert.rules.delete" MRAdmin (MP_AdHoc [("id", true)]) None].

Definition registry_block_devices : list Method :=
  [mkMethod "device.list" MRAny MP_None (Some (MR_Schema "Vec<BlockDevice>"));
   mkMethod "device.wipe" MRAdmin (MP_Schema "nasty_storage::filesystem::DeviceWipeRequest,") None;
   mkMethod "device.prepare.inspect" MRAdmin
      (MP_Schema "nasty_storage::filesystem::DiskInspectRequest,")
      (Some (MR_Schema "Vec<nasty_storage::filesystem::DiskPreparation>"));
   mkMethod "device.set_type" MRAdmin (MP_Schema "DiskTypeUpdate") None;
   mkMethod "device.set_io_scheduler" MRAdmin (MP_Schema "IoSchedulerUpdate")
      (Some (MR_Schema "IoSchedulerResult"))].

Definition registry_filesystems : list Method :=
  [mkMethod "fs.list" MRAny MP_None (Some (MR_Schema "Vec<Filesystem>"));
   mkMethod "fs.unavailable.list" MRAny MP_None (Some (MR_Schema "Vec<UnavailableFilesystem>"));
   mkMethod "fs.get" MRAny (MP_AdHoc [("name", true)]) (Some (MR_Schema "Filesystem"));
   mkMethod "fs.create" MRAdmin (MP_Schema "CreateFilesystemRequest")
      (Some (MR_Schema "Filesystem"));
   mkMethod "fs.destroy" MRAdmin (MP_Schema "DestroyFilesystemRequest") None;
   mkMethod "fs.forget" MRAdmin (MP_Schema "ForgetUnavailableRequest") None;
   mkMethod "fs.mount" MRAdmin (MP_AdHoc [("name", true)]) (Some (MR_Schema "Filesystem"));
   mkMethod "fs.unmount" MRAdmin (MP_AdHoc [("name", true)]) None;
   mkMethod "fs.options.update" MRAdmin (MP_Schema "UpdateFilesystemOptionsRequest")
      (Some (MR_Schema "Filesystem"));
   mkMethod "fs.usage" MRAny (MP_AdHoc [("name", true)]) (Some (MR_Schema "FsUsage"));
   mkMethod "fs.scrub.start" MRAdmin (MP_AdHoc [("name", true)]) None;
   mkMethod "fs.scrub.status" MRAny (MP_AdHoc [("name", true)]) (Some (MR_Schema "ScrubStatus"));
   mkMethod "fs.scrub.cancel" MRAdmin (MP_Schema "ScrubCancelRequest") None;
   mkMethod "fs.scrub.schedule.get" MRAny (MP_AdHoc [("name", true)])
      (Some (MR_Schema "ScrubScheduleStatus"));
   mkMethod "fs.scrub.schedule.update" MRAdmin (MP_Schema "ScrubScheduleUpdate")
      (Some (MR_Schema "ScrubScheduleStatus"));
   mkMethod "fs.fsck.start" MRAdmin (MP_AdHoc [("name", true)]) None;
   mkMethod "fs.fsck.status" MRAny (MP_AdHoc [("name", true)]) (Some (MR_Schema "FsckStatus"));
   mkMethod "fs.reconcile.status" MRAny (MP_AdHoc [("name", true)])
      (Some (MR_Schema "ReconcileStatus"));
   mkMethod "bcachefs.usage" MRAny (MP_AdHoc [("name", true)]) (Some (MR_Schema "FsUsage"));
   mkMethod "fs.tpm.status" MRAny (MP_AdHoc [("name", true)]) (Some (MR_Schema "TpmBindStatus"));
   mkMethod "fs.tpm.bind" MRAdmin (MP_AdHoc [("name", true)]) (Some (MR_Schema "TpmBindStatus"));
   mkMethod "fs.tpm.unbind" MRAdmin (MP_AdHoc [("name", true)]) (Some (MR_Schema "TpmBindStatus"))].

Definition registry_filesystem_devices : list Method :=
  [mkMethod "fs.device.add" MRAdmin (MP_Schema "DeviceAddRequest") (Some (MR_Schema "Filesystem"));
   mkMethod "fs.device.remove" MRAdmin (MP_Schema "DeviceActionRequest")
      (Some (MR_Schema "Filesystem"));
   mkMethod "fs.device.evacuate" MRAdmin (MP_Schema "DeviceActionRequest") None;
   mkMethod "fs.device.set_state" MRAdmin (MP_Schema "DeviceSetStateRequest")
      (Some (MR_Schema "Filesystem"));
   mkMethod "fs.device.set_label" MRAdmin (MP_Schema "DeviceSetLabelRequest")
      (Some (MR_Schema "Filesystem"));
   mkMethod "fs.device.online" MRAdmin (MP_Schema "DeviceActionRequest")
      (Some (MR_Schema "Filesystem"));
   mkMethod "fs.device.offline" MRAdmin (MP_Schema "DeviceActionRequest")
      (Some (MR_Schema "Filesystem"))].

Definition registry_subvolumes : list Method :=
  [mkMethod "subvolume.list" MRAny (MP_AdHoc [("filesystem", true)])
      (Some (MR_Schema "Vec<Subvolume>"));
   mkMethod "subvolume.list_all" MRAny MP_None (Some (MR_Schema "Vec<Subvolume>"));
   mkMethod "subvolume.get" MRAny (MP_AdHoc [("filesystem", true); ("name", true)])
      (Some (MR_Schema "Subvolume"));
   mkMethod "subvolume.create" MROperator (MP_Schema "CreateSubvolumeRequest")
      (Some (MR_Schema "Subvolume"));
   mkMethod "subvolume.delete" MROperator (MP_Schema "DeleteSubvolumeRequest") None;
   mkMethod "subvolume.attach" MROperator (MP_AdHoc [("filesystem", true); ("name", true)])
      (Some (MR_Schema "Subvolume"));
   mkMethod "subvolume.detach" MROperator (MP_AdHoc [("filesystem", true); ("name", true)])
      (Some (MR_Schema "Subvolume"));
   mkMethod "subvolume.resize" MROperator (MP_Schema "ResizeSubvolumeRequest")
      (Some (MR_Schema "Subvolume"));
   mkMethod "subvolume.set_properties" MROperator (MP_Schema "SetPropertiesRequest")
      (Some (MR_Schema "Subvolume"));
   mkMethod "subvolume.remove_properties" MROperator (MP_Schema "RemovePropertiesRequest")
      (Some (MR_Schema "Subvolume"));
   mkMethod "subvolume.find_by_property" MRAny (MP_Schema "FindByPropertyRequest")
      (Some (MR_Schema "Vec<Subvolume>"))].

Definition registry_snapshots : list Method :=
  [mkMethod "snapshot.list" MRAny (MP_AdHoc [("filesystem", true)])
      (Some (MR_Schema "Vec<Snapshot>"));
   mkMethod "snapshot.create" MROperator (MP_Schema "CreateSnapshotRequest")
      (Some (MR_Schema "Snapshot"));
   mkMethod "snapshot.delete" MROperator (MP_Schema "DeleteSnapshotRequest") None;
   mkMethod "snapshot.clone" MROperator (MP_Schema "CloneSnapshotRequest")
      (Some (MR_Schema "Subvolume"));
   mkMethod "snapshot.rollback" MRAdmin (MP_Schema "RollbackSnapshotRequest")
      (Some (MR_Schema "RollbackResult"))].

Definition registry_nfs_shares : list Method :=
  [mkMethod "share.nfs.list" MRAny MP_None (Some (MR_Schema "Vec<NfsShare>"));
   mkMethod "share.nfs.get" MRAny (MP_AdHoc [("id", true)]) (Some (MR_Schema "NfsShare"));
   mkMethod "share.nfs.create" MROperator (MP_Schema "CreateNfsShareRequest")
      (Some (MR_Schema "NfsShare"));
   mkMethod "share.nfs.update" MROperator (MP_Schema "UpdateNfsShareRequest")
      (Some (MR_Schema "NfsShare"));
   mkMethod "share.nfs.delete" MROperator (MP_Schema "DeleteNfsShareRequest") None].

Definition registry_smb_shares : list Method :=
  [mkMethod "share.smb.list" MRAny MP_None (Some (MR_Schema "Vec<SmbShare>"));
   mkMethod "share.smb.get" MRAny (MP_AdHoc [("id", true)]) (Some (MR_Schema "SmbShare"));
   mkMethod "share.smb.create" MROperator (MP_Schema "CreateSmbShareRequest")
      (Some (MR_Schema "SmbShare"));
   mkMethod "share.smb.update" MROperator (MP_Schema "UpdateSmbShareRequest")
      (Some (MR_Schema "SmbShare"));
   mkMethod "share.smb.delete" MROperator (MP_Schema "DeleteSmbShareRequest") None].

Definition registry_iscsi_targets : list Method :=
  [mkMethod "share.iscsi.list" MRAny MP_None (Some (MR_Schema "Vec<IscsiTarget>"));
   mkMethod "share.iscsi.get" MRAny (MP_AdHoc [("id", true)]) (Some (MR_Schema "IscsiTarget"));
   mkMethod "share.iscsi.create" MROperator (MP_Schema "CreateTargetRequest")
      (Some (MR_Schema "IscsiTarget"));
   mkMethod "share.iscsi.delete" MROperator (MP_Schema "DeleteTargetRequest") None;
   mkMethod "share.iscsi.add_lun" MROperator (MP_Schema "AddLunRequest")
      (Some (MR_Schema "IscsiTarget"));
   mkMethod "share.iscsi.remove_lun" MROperator (MP_Schema "RemoveLunRequest")
      (Some (MR_Schema "IscsiTarget"));
   mkMethod "share.iscsi.repair_lun" MRAdmin (MP_Schema "RepairLunRequest")
      (Some (MR_Schema "IscsiTarget"));
   mkMethod "share.iscsi.add_acl" MROperator (MP_Schema "AddAclRequest")
      (Some (MR_Schema "IscsiTarget"));
   mkMethod "share.iscsi.remove_acl" MROperator (MP_Schema "RemoveAclRequest")
      (Some (MR_Schema "IscsiTarget"));
   mkMethod "share.iscsi.add_portal" MROperator (MP_Schema "AddPortalRequest")
      (Some (MR_Schema "IscsiTarget"));
   mkMethod "share.iscsi.remove_portal" MROperator (MP_Schema "RemovePortalRequest")
      (Some (MR_Schema "IscsiTarget"));
   mkMethod "share.iscsi.set_portals" MROperator (MP_Schema "SetPortalsRequest")
      (Some (MR_Schema "IscsiTarget"))].

Definition registry_nvme_of_subsystems : list Method :=
  [mkMethod "share.nvmeof.list" MRAny MP_None (Some (MR_Schema "Vec<NvmeofSubsystem>"));
   mkMethod "share.nvmeof.get" MRAny (MP_AdHoc [("id", true)]) (Some (MR_Schema "NvmeofSubsystem"));
   mkMethod "share.nvmeof.create" MROperator (MP_Schema "CreateSubsystemRequest")
      (Some (MR_Schema "NvmeofSubsystem"));
   mkMethod "share.nvmeof.delete" MROperator (MP_Schema "DeleteSubsystemRequest") None;
   mkMethod "share.nvmeof.add_namespace" MROperator (MP_Schema "AddNamespaceRequest")
      (Some (MR_Schema "NvmeofSubsystem"));
   mkMethod "share.nvmeof.remove_namespace" MROperator (MP_Schema "RemoveNamespaceRequest")
      (Some (MR_Schema "NvmeofSubsystem"));
   mkMethod "share.nvmeof.repair_namespace" MRAdmin (MP_Schema "RepairNamespaceRequest")
      (Some (MR_Schema "NvmeofSubsystem"));
   mkMethod "share.nvmeof.add_port" MROperator (MP_Schema "AddPortRequest")
      (Some (MR_Schema "NvmeofSubsystem"));
   mkMethod "share.nvmeof.remove_port" MROperator (MP_Schema "RemovePortRequest")
      (Some (MR_Schema "NvmeofSubsystem"));
   mkMethod "share.nvmeof.add_host" MROperator (MP_Schema "AddHostRequest")
      (Some (MR_Schema "NvmeofSubsystem"));
   mkMethod "share.nvmeof.remove_host" MROperator (MP_Schema "RemoveHostRequest")
      (Some (MR_Schema "NvmeofSubsystem"))].

Definition registry_guest_shares : list Method :=
  [mkMethod "guestshare.list" MROperator MP_None (Some (MR_Schema "Vec<GuestShareInfo>"));
   mkMethod "guestshare.get" MROperator (MP_AdHoc [("id", true)])
      (Some (MR_Schema "GuestShareInfo"));
   mkMethod "guestshare.create" MROperator (MP_Schema "CreateGuestShareRequest")
      (Some (MR_Schema "CreateGuestShareResult"));
   mkMethod "guestshare.revoke" MROperator (MP_AdHoc [("id", true)])
      (Some (MR_Schema "GuestShareInfo"));
   mkMethod "guestshare.remove" MROperator (MP_AdHoc [("id", true)]) None].

Definition registry_oidc : list Method :=
  [mkMethod "auth.oidc.config_status" MRAny MP_None (Some (MR_Schema "OidcSettings"));
   mkMethod "auth.oidc.test" MRAdmin (MP_Schema "OidcTestClaims") (Some MR_Inline);
   mkMethod "auth.oidc.update_config" MRAdmin (MP_Schema "OidcSettings")
      (Some (MR_Schema "OidcSettings"))].

Definition registry_webauthn : list Method :=
  [mkMethod "auth.webauthn.config" MRAny MP_None (Some MR_Inline);
   mkMethod "auth.webauthn.list" MRAny MP_None (Some MR_Inline);
   mkMethod "auth.webauthn.register.start" MRAny (MP_Schema "WebauthnRegisterStartRequest")
      (Some MR_Inline);
   mkMethod "auth.webauthn.register.finish" MRAny
      (MP_AdHoc [("registration_id", true); ("response", true)])
      (Some MR_Inline);
   mkMethod "auth.webauthn.delete" MRAny (MP_AdHoc [("credential_id", true)]) None;
   mkMethod "auth.webauthn.reset_for_user" MRAdmin (MP_AdHoc [("username", true)])
      (Some MR_Inline)].

Definition registry_audit : list Method :=
  [mkMethod "audit.list" MRAdmin (MP_AdHoc [("limit", false)]) (Some MR_Inline);
   mkMethod "audit.mine" MRAny (MP_AdHoc [("limit", false)]) (Some MR_Inline)].

Definition registry_system_continued : list Method :=
  [mkMethod "system.reboot_required" MRAny MP_None (Some MR_Inline)].

Definition registry_system_generations : list Method :=
  [mkMethod "system.generations.list" MRAny MP_None (Some (MR_Schema "Vec<Generation>"));
   mkMethod "system.generations.label" MRAdmin
      (MP_AdHoc [("generation", true); ("label", false)]) None;
   mkMethod "system.generations.delete" MRAdmin (MP_AdHoc [("generation", true)]) None;
   mkMethod "system.generations.switch" MRAdmin (MP_AdHoc [("generation", true)]) (Some MR_Inline)].

Definition registry_system_hardware : list Method :=
  [mkMethod "system.hardware.iommu" MRAny MP_None (Some (MR_Schema "Vec<IommuGroup>"));
   mkMethod "system.hardware.summary" MRAny MP_None (Some (MR_Schema "HardwareSummary"))].

Definition registry_system_logs : list Method :=
  [mkMethod "system.logs" MRAdmin (MP_AdHoc [("unit", false); ("lines", false); ("grep", false)])
      (Some MR_Inline);
   mkMethod "system.logs.units" MRAny MP_None (Some MR_Inline);
   mkMethod "system.log.level" MRAny MP_None (Some MR_Inline);
   mkMethod "system.log.set_level" MRAdmin (MP_AdHoc [("filter", true)]) None].

Definition registry_system_metrics : list Method :=
  [mkMethod "system.metrics.history" MRAny
      (MP_AdHoc [("kind", false); ("name", false); ("range", false); ("offset", false)])
      (Some MR_Inline);
   mkMethod "system.metrics.prometheus" MRAny MP_None (Some MR_Inline)].

Definition registry_system_acme : list Method :=
  [mkMethod "system.acme.status" MRAny MP_None (Some (MR_Schema "AcmeStatus"));
   mkMethod "system.acme.reset" MRAdmin MP_None None;
   mkMethod "system.acme.retry" MRAdmin MP_None None].

Definition registry_system_tls : list Method :=
  [mkMethod "system.tls.host_statuses" MRAny MP_None (Some (MR_Schema "Vec<HostTlsStatus>"));
   mkMethod "system.tls.local_ca_root" MRAny MP_None (Some MR_Inline)].

Definition registry_system_nut_ups : list Method :=
  [mkMethod "system.nut.config.get" MRAny MP_None (Some (MR_Schema "NutConfig"));
   mkMethod "system.nut.config.update" MRAdmin (MP_Schema "NutConfigUpdate")
      (Some (MR_Schema "NutConfig"));
   mkMethod "system.nut.apply_status" MRAny MP_None (Some (MR_Schema "NutApplyStatus"));
   mkMethod "system.nut.status" MRAny MP_None (Some (MR_Schema "UpsStatus"))].

Definition registry_system_watchdog : list Method :=
  [mkMethod "system.watchdog.config.get" MRAny MP_None (Some (MR_Schema "WatchdogConfig"));
   mkMethod "system.watchdog.config.update" MRAdmin (MP_Schema "WatchdogConfigUpdate")
      (Some (MR_Schema "WatchdogConfig"))].

Definition registry_system_rdma : list Method :=
  [mkMethod "system.rdma.status" MRAny MP_None (Some (MR_Schema "RdmaStatus"));
   mkMethod "system.rdma.set" MRAdmin (MP_Schema "RdmaSetRequest") (Some (MR_Schema "RdmaStatus"))].

Definition registry_system_passthrough : list Method :=
  [mkMethod "system.passthrough.get" MRAny MP_None (Some (MR_Schema "PassthroughConfig"));
   mkMethod "system.passthrough.update" MRAdmin (MP_Schema "PassthroughUpdate")
      (Some (MR_Schema "PassthroughConfig"))].

Definition registry_system_guest_tools : list Method :=
  [mkMethod "system.guest_tools.status" MRAny MP_None (Some (MR_Schema "GuestToolsStatus"));
   mkMethod "system.guest_tools.set" MRAdmin (MP_Schema "GuestToolsUpdate")
      (Some (MR_Schema "GuestToolsStatus"))].

Definition registry_system_secure_boot : list Method :=
  [mkMethod "system.secure_boot.readiness" MRAny MP_None (Some (MR_Schema "ReadinessReport"));
   mkMethod "system.secure_boot.enrollment.status" MRAny MP_None
      (Some (MR_Schema "EnrollmentStatusResponse"));
   mkMethod "system.secure_boot.enrollment.begin" MRAdmin MP_None
      (Some (MR_Schema "EnrollmentState"));
   mkMethod "system.secure_boot.enrollment.rebuild" MRAdmin MP_None (Some MR_Inline);
   mkMethod "system.secure_boot.enrollment.complete" MRAdmin MP_None
      (Some (MR_Schema "EnrollmentState"));
   mkMethod "system.secure_boot.enrollment.abort" MRAdmin (MP_AdHoc [("reason", false)])
      (Some (MR_Schema "EnrollmentState"))].

Definition registry_system_ssh : list Method :=
  [mkMethod "system.ssh.status" MRAny MP_None (Some MR_Inline);
   mkMethod "system.ssh.add_key" MRAdmin (MP_AdHoc [("key", true)]) None;
   mkMethod "system.ssh.remove_key" MRAdmin (MP_AdHoc [("key", true)]) None;
   mkMethod "system.ssh.set_password_auth" MRAdmin (MP_AdHoc [("enabled", false)]) None].

Definition registry_system_tailscale : list Method :=
  [mkMethod "system.tailscale.get" MRAny MP_None (Some (MR_Schema "TailscaleStatus"));
   mkMethod "system.tailscale.connect" MRAdmin (MP_Schema "TailscaleConnectRequest")
      (Some (MR_Schema "TailscaleStatus"));
   mkMethod "system.tailscale.set_accept_routes" MRAdmin (MP_Schema "TailscaleRoutesRequest")
      (Some (MR_Schema "TailscaleStatus"));
   mkMethod "system.tailscale.disconnect" MRAdmin MP_None (Some (MR_Schema "TailscaleStatus"))].

Definition registry_system_tuning : list Method :=
  [mkMethod "system.tuning.get" MRAny MP_None (Some (MR_Schema "TuningConfig"));
   mkMethod "system.tuning.update" MRAdmin (MP_Schema "TuningUpdate")
      (Some (MR_Schema "TuningConfig"))].

Definition registry_system_firewall : list Method :=
  [mkMethod "system.firewall.status" MRAny MP_None (Some (MR_Schema "FirewallStatus"));
   mkMethod "system.firewall.restrict" MRAdmin
      (MP_AdHoc [("service", true); ("sources", false); ("interfaces", false)]) None;
   mkMethod "system.firewall.custom.add" MRAdmin
      (MP_Schema "nasty_system::firewall::CustomRuleInput,") None;
   mkMethod "system.firewall.custom.update" MRAdmin
      (MP_AdHoc [("id", true); ("label", true); ("transport", true); ("from", true); ("to", true); ("source", false); ("iface", false); ("enabled", true)]) None;
   mkMethod "system.firewall.custom.remove" MRAdmin (MP_AdHoc [("id", true)]) None].

Definition registry_system_update_channel : list Method :=
  [mkMethod "system.update.channel.get" MRAny MP_None (Some (MR_Schema "ReleaseChannel"));
   mkMethod "system.update.channel.set" MRAdmin (MP_AdHoc [("channel", true)])
      (Some (MR_Schema "ReleaseChannel"))].

Definition registry_network_continued : list Method :=
  [mkMethod "system.network.pending" MRAny MP_None (Some (MR_Schema "Vec<NetworkPendingTxn>"));
   mkMethod "system.network.confirm" MRAdmin (MP_Schema "ConfirmRequest") None;
   mkMethod "system.network.nm_preview" MRAny MP_None (Some (MR_Schema "NmDiff"));
   mkMethod "system.network.nm_apply" MRAdmin MP_None (Some (MR_Schema "NmApplyOutcome"))].

Definition registry_protocols_services_continued : list Method :=
  [mkMethod "service.base_names.get" MRAny MP_None (Some MR_Inline);
   mkMethod "service.base_names.update" MRAdmin
      (MP_AdHoc [("iqn_prefix", false); ("nqn_prefix", false)]) None;
   mkMethod "service.rest_server.config" MRAny MP_None (Some MR_Inline);
   mkMethod "service.rest_server.configure" MRAdmin (MP_AdHoc [("path", true)]) None;
   mkMethod "service.rest_server.credentials" MRAdmin MP_None
      (Some (MR_Schema "nasty_system::rest_server::RestServerCredentials"));
   mkMethod "service.rest_server.rotate_credentials" MRAdmin (MP_AdHoc [("username", false)])
      (Some (MR_Schema "nasty_system::rest_server::RestServerCredentials"))].

Definition registry_telemetry : list Method :=
  [mkMethod "telemetry.send" MRAdmin MP_None (Some MR_Inline)].

Definition registry_notifications : list Method :=
  [mkMethod "notifications.config.get" MRAdmin MP_None (Some (MR_Schema "NotificationConfig"));
   mkMethod "notifications.config.update" MRAdmin (MP_Schema "NotificationConfig") None;
   mkMethod "notifications.test" MRAdmin (MP_Schema "ChannelType") (Some MR_Inline);
   mkMethod "notifications.test_saved" MRAdmin (MP_SchemaJson [("id", true)]) (Some MR_Inline)].

Definition registry_firmware : list Method :=
  [mkMethod "firmware.available" MRAny MP_None (Some MR_Inline);
   mkMethod "firmware.devices" MRAny MP_None (Some (MR_Schema "Vec<FirmwareDevice>"));
   mkMethod "firmware.check" MRAdmin MP_None (Some (MR_Schema "Vec<FirmwareDevice>"));
   mkMethod "firmware.constraints" MRAny MP_None (Some (MR_Schema "FirmwareConstraints"));
   mkMethod "firmware.update" MRAdmin (MP_AdHoc [("device_id", true)])
      (Some (MR_Schema "FirmwareUpdateResult"))].

Definition registry_filesystem_encryption : list Method :=
  [mkMethod "fs.lock" MRAdmin (MP_AdHoc [("name", true)]) (Some (MR_Schema "Filesystem"));
   mkMethod "fs.unlock" MRAdmin (MP_AdHoc [("name", true); ("passphrase", true)])
      (Some (MR_Schema "Filesystem"));
   mkMethod "fs.key.export" MRAdmin (MP_AdHoc [("name", true)]) (Some MR_Inline);
   mkMethod "fs.key.delete" MRAdmin (MP_AdHoc [("name", true)]) None].

Definition registry_filesystem_reconcile : list Method :=
  [mkMethod "fs.reconcile.enable" MRAdmin (MP_AdHoc [("name", true)]) None;
   mkMethod "fs.reconcile.disable" MRAdmin (MP_AdHoc [("name", true)]) None;
   mkMethod "fs.copygc.enable" MRAdmin (MP_AdHoc [("name", true)]) None;
   mkMethod "fs.copygc.disable" MRAdmin (MP_AdHoc [("name", true)]) None;
   mkMethod "fs.device.evacuate.cancel" MRAdmin (MP_Schema "DeviceActionRequest") None].

Definition registry_filesystem_dependents : list Method :=
  [mkMethod "fs.dependents" MRAny (MP_AdHoc [("name", true)]) (Some (MR_Schema "FsDependents"));
   mkMethod "fs.locked_dependents" MRAny MP_None (Some (MR_Schema "Vec<FsDependents>"))].

Definition registry_bcachefs_tools : list Method :=
  [mkMethod "bcachefs.top" MRAny (MP_AdHoc [("name", true)]) (Some MR_Inline);
   mkMethod "bcachefs.timestats" MRAny (MP_AdHoc [("name", true)]) (Some MR_Inline)].

Definition registry_subvolumes_continued : list Method :=
  [mkMethod "subvolume.children" MRAny (MP_AdHoc [("filesystem", true); ("name", true)])
      (Some MR_Inline);
   mkMethod "subvolume.clone" MROperator (MP_Schema "CloneSubvolumeRequest")
      (Some (MR_Schema "Subvolume"));
   mkMethod "subvolume.update" MROperator (MP_Schema "UpdateSubvolumeRequest")
      (Some (MR_Schema "Subvolume"));
   mkMethod "subvolume.list_dependents" MRAny MP_None
      (Some (MR_Schema "Vec<SubvolumeDependents>"))].

Definition registry_smb_users : list Method :=
  [mkMethod "smb.user.list" MRAny MP_None (Some (MR_Schema "Vec<SmbUser>"));
   mkMethod "smb.user.create" MROperator (MP_Schema "CreateSmbUserRequest")
      (Some (MR_Schema "SmbUser"));
   mkMethod "smb.user.delete" MROperator (MP_AdHoc [("username", true)]) None;
   mkMethod "smb.user.set_password" MROperator
      (MP_AdHoc [("username", true); ("password", true)]) None].

Definition registry_smb_groups : list Method :=
  [mkMethod "smb.group.list" MRAny MP_None (Some (MR_Schema "Vec<SmbGroup>"));
   mkMethod "smb.group.create" MROperator (MP_AdHoc [("name", true)]) (Some (MR_Schema "SmbGroup"));
   mkMethod "smb.group.delete" MROperator (MP_AdHoc [("name", true)]) None;
   mkMethod "smb.group.add_member" MROperator (MP_AdHoc [("group", true); ("user", true)]) None;
   mkMethod "smb.group.remove_member" MROperator (MP_AdHoc [("group", true); ("user", true)]) None].

Definition registry_active_directory : list Method :=
  [mkMethod "domain.status" MRAny MP_None (Some (MR_Schema "DomainStatus"));
   mkMethod "domain.join" MRAdmin (MP_Schema "JoinDomainRequest") (Some (MR_Schema "DomainStatus"));
   mkMethod "domain.leave" MRAdmin (MP_Schema "LeaveDomainRequest") None;
   mkMethod "domain.user.list" MRAdmin (MP_AdHoc [("prefix", true)])
      (Some (MR_Schema "Vec<DomainPrincipal>"));
   mkMethod "domain.group.list" MRAdmin (MP_AdHoc [("prefix", true)])
      (Some (MR_Schema "Vec<DomainPrincipal>"))].

Definition registry_active_directory_domain_controller : list Method :=
  [mkMethod "dc.status" MRAny MP_None (Some (MR_Schema "DcStatus"));
   mkMethod "dc.provision" MRAdmin (MP_Schema "ProvisionRequest") (Some MR_Inline);
   mkMethod "dc.demote" MRAdmin (MP_Schema "DemoteRequest") None;
   mkMethod "dc.backup" MRAdmin (MP_AdHoc [("dest", true)]) (Some MR_Inline);
   mkMethod "dc.user.list" MRAdmin MP_None (Some (MR_Schema "Vec<DcPrincipal>"));
   mkMethod "dc.user.create" MRAdmin
      (MP_AdHoc [("name", true); ("password", true); ("given_name", false); ("surname", false)]) None;
   mkMethod "dc.user.delete" MRAdmin (MP_AdHoc [("name", true)]) None;
   mkMethod "dc.user.set_password" MRAdmin (MP_AdHoc [("name", true); ("password", true)]) None;
   mkMethod "dc.user.enable" MRAdmin (MP_AdHoc [("name", true)]) None;
   mkMethod "dc.user.disable" MRAdmin (MP_AdHoc [("name", true)]) None;
   mkMethod "dc.group.list" MRAdmin MP_None (Some (MR_Schema "Vec<DcPrincipal>"));
   mkMethod "dc.group.create" MRAdmin (MP_AdHoc [("name", true)]) None;
   mkMethod "dc.group.delete" MRAdmin (MP_AdHoc [("name", true)]) None;
   mkMethod "dc.group.add_member" MRAdmin (MP_AdHoc [("group", true); ("member", true)]) None;
   mkMethod "dc.group.remove_member" MRAdmin (MP_AdHoc [("group", true); ("member", true)]) None;
   mkMethod "dc.computer.list" MRAdmin MP_None (Some (MR_Schema "Vec<DcPrincipal>"))].

Definition registry_backup : list Method :=
  [mkMethod "backup.status" MRAny MP_None (Some (MR_Schema "BackupStatus"));
   mkMethod "backup.profile.list" MRAny MP_None (Some (MR_Schema "Vec<BackupProfile>"));
   mkMethod "backup.schedule.list" MRAny MP_None (Some (MR_Schema "Vec<BackupScheduleEntry>"));
   mkMethod "backup.profile.get" MRAny (MP_AdHoc [("id", true)]) (Some (MR_Schema "BackupProfile"));
   mkMethod "backup.profile.create" MROperator (MP_Schema "BackupProfile")
      (Some (MR_Schema "BackupProfile"));
   mkMethod "backup.profile.update" MROperator (MP_Schema "BackupProfile")
      (Some (MR_Schema "BackupProfile"));
   mkMethod "backup.profile.delete" MROperator (MP_AdHoc [("id", true)]) None;
   mkMethod "backup.run" MROperator (MP_AdHoc [("id", true)])
      (Some (MR_Schema "nasty_backup::jobs::BackupJob"));
   mkMethod "backup.snapshots" MRAny (MP_AdHoc [("id", true)])
      (Some (MR_Schema "Vec<BackupSnapshot>"));
   mkMethod "backup.restore" MROperator
      (MP_AdHoc [("id", true); ("snapshot_id", true); ("dest", true); ("allow_overwrite", false)])
      (Some (MR_Schema "nasty_backup::jobs::BackupJob"));
   mkMethod "backup.repo.init" MROperator (MP_AdHoc [("id", true)])
      (Some (MR_Schema "nasty_backup::jobs::BackupJob"));
   mkMethod "backup.repo.check" MROperator (MP_AdHoc [("id", true)])
      (Some (MR_Schema "nasty_backup::jobs::BackupJob"));
   mkMethod "backup.jobs.list" MRAny (MP_AdHoc [("profile_id", false)])
      (Some (MR_Schema "Vec<nasty_backup::jobs::BackupJob>"));
   mkMethod "backup.jobs.get" MRAny (MP_AdHoc [("id", true)])
      (Some (MR_Schema "nasty_backup::jobs::BackupJob"));
   mkMethod "backup.secrets_status" MRAny MP_None
      (Some (MR_Schema "nasty_common::secrets::SecretsStatus"))].

Definition registry_vms : list Method :=
  [mkMethod "vm.capabilities" MRAny MP_None (Some (MR_Schema "VmCapabilities"));
   mkMethod "vm.list" MRAny MP_None (Some (MR_Schema "Vec<VmStatus>"));
   mkMethod "vm.get" MRAny (MP_AdHoc [("id", true)]) (Some (MR_Schema "VmStatus"));
   mkMethod "vm.create" MROperator (MP_Schema "CreateVmRequest") (Some (MR_Schema "VmConfig"));
   mkMethod "vm.disk.create" MROperator (MP_Schema "CreateVmDiskRequest")
      (Some (MR_Schema "Subvolume"));
   mkMethod "vm.disk.candidates" MROperator MP_None (Some (MR_Schema "Vec<VmDiskCandidate>"));
   mkMethod "vm.update" MROperator (MP_Schema "UpdateVmRequest") (Some (MR_Schema "VmConfig"));
   mkMethod "vm.delete" MROperator (MP_AdHoc [("id", true)]) None;
   mkMethod "vm.start" MROperator (MP_AdHoc [("id", true)]) (Some (MR_Schema "VmStatus"));
   mkMethod "vm.stop" MROperator (MP_AdHoc [("id", true)]) None;
   mkMethod "vm.kill" MROperator (MP_AdHoc [("id", true)]) None;
   mkMethod "vm.snapshot" MROperator (MP_Schema "SnapshotVmRequest")
      (Some (MR_Schema "Vec<VmDiskSubvolume>"));
   mkMethod "vm.clone" MROperator (MP_Schema "CloneVmRequest") (Some (MR_Schema "VmConfig"))].

Definition registry_vm_disk_images : list Method :=
  [mkMethod "vm.images.list" MRAny MP_None (Some MR_Inline);
   mkMethod "vm.images.ensure" MROperator (MP_AdHoc [("filesystem", true)]) (Some MR_Inline);
   mkMethod "vm.images.import_info" MRAny (MP_AdHoc [("filesystem", true); ("name", true)])
      (Some MR_Inline)].

Definition registry_apps : list Method :=
  [mkMethod "apps.status" MRAny MP_None (Some (MR_Schema "AppsStatus"));
   mkMethod "apps.list" MRAny MP_None (Some (MR_Schema "Vec<App>"));
   mkMethod "apps.get" MRAny (MP_AdHoc [("name", true)]) (Some (MR_Schema "App"));
   mkMethod "apps.config" MROperator (MP_AdHoc [("name", true)]) (Some (MR_Schema "AppConfig"));
   mkMethod "apps.stats" MRAny MP_None (Some (MR_Schema "Vec<AppStats>"));
   mkMethod "apps.logs" MRAny (MP_AdHoc [("name", true); ("tail", false)]) (Some MR_Inline);
   mkMethod "apps.container.logs" MRAny (MP_AdHoc [("container_id", true); ("tail", false)])
      (Some MR_Inline);
   mkMethod "apps.inspect" MROperator (MP_AdHoc [("name", true)]) (Some MR_Inline);
   mkMethod "apps.inspect_image" MRAny
      (MP_AdHoc [("image", true); ("registry_credential_id", false)])
      (Some (MR_Schema "ImageInspectResult"));
   mkMethod "apps.registry_credentials.list" MRAdmin MP_None
      (Some (MR_Schema "Vec<RegistryCredential>"));
   mkMethod "apps.registry_credentials.create" MRAdmin
      (MP_Schema "CreateRegistryCredentialRequest")
      (Some (MR_Schema "RegistryCredential"));
   mkMethod "apps.registry_credentials.update" MRAdmin
      (MP_Schema "UpdateRegistryCredentialRequest")
      (Some (MR_Schema "RegistryCredential"));
   mkMethod "apps.registry_credentials.delete" MRAdmin (MP_AdHoc [("id", true)]) None;
   mkMethod "apps.caddy.routes" MRAny MP_None (Some (MR_Schema "Vec<CaddyRouteSummary>"));
   mkMethod "apps.check_ports" MRAny (MP_Schema "CheckPortsRequest")
      (Some (MR_Schema "Vec<PortConflict>"));
   mkMethod "apps.check_devices" MRAny (MP_Schema "CheckDevicesRequest")
      (Some (MR_Schema "Vec<DeviceMissing>"));
   mkMethod "apps.check_volumes" MRAny (MP_Schema "CheckVolumesRequest")
      (Some (MR_Schema "Vec<VolumeMismatch>"));
   mkMethod "apps.check_compose" MRAny (MP_Schema "CheckComposeRequest")
      (Some (MR_Schema "CheckComposeResult"));
   mkMethod "apps.appdata.status" MRAny MP_None (Some (MR_Schema "Option<AppdataRelocateStatus>"));
   mkMethod "apps.appdata.relocate" MRAdmin (MP_AdHoc [("filesystem", true)]) None;
   mkMethod "apps.enable" MRAdmin (MP_Schema "EnableAppsRequest") None;
   mkMethod "apps.disable" MRAdmin MP_None None;
   mkMethod "apps.install" MROperator (MP_Schema "InstallAppRequest") (Some (MR_Schema "App"));
   mkMethod "apps.update" MROperator (MP_Schema "InstallAppRequest") (Some (MR_Schema "App"));
   mkMethod "apps.remove" MROperator (MP_AdHoc [("name", true)]) None;
   mkMethod "apps.start" MROperator (MP_AdHoc [("name", true)]) None;
   mkMethod "apps.stop" MROperator (MP_AdHoc [("name", true)]) None;
   mkMethod "apps.restart" MROperator (MP_AdHoc [("name", true)]) None;
   mkMethod "apps.pull" MROperator (MP_AdHoc [("name", true)]) (Some (MR_Schema "App"));
   mkMethod "apps.prune" MROperator MP_None (Some (MR_Schema "PruneResult"));
   mkMethod "apps.exec_command" MRAdmin (MP_AdHoc [("name", true)]) (Some MR_Inline);
   mkMethod "apps.fix_volume_perms" MRAdmin (MP_Schema "FixVolumePermsRequest") (Some MR_Inline);
   mkMethod "apps.compose.get" MRAdmin (MP_AdHoc [("name", true)])
      (Some (MR_Schema "ComposeContent"));
   mkMethod "apps.compose.logs" MRAny (MP_AdHoc [("name", true); ("tail", false)]) (Some MR_Inline);
   mkMethod "apps.compose.install" MRAdmin (MP_Schema "InstallComposeRequest")
      (Some (MR_Schema "App"));
   mkMethod "apps.compose.update" MRAdmin (MP_Schema "InstallComposeRequest")
      (Some (MR_Schema "App"));
   mkMethod "apps.compose.remove" MRAdmin (MP_AdHoc [("name", true)]) None;
   mkMethod "apps.compose.set_startup" MRAdmin (MP_Schema "SetComposeStartupRequest") None;
   mkMethod "apps.compose.startup.list" MRAny MP_None (Some (MR_Schema "Vec<ComposeStartupEntry>"));
   mkMethod "apps.ingress.list" MRAny MP_None (Some (MR_Schema "Vec<AppIngress>"));
   mkMethod "apps.ingress.set" MROperator (MP_Schema "SetIngressRequest")
      (Some (MR_Schema "AppIngress"));
   mkMethod "apps.ingress.remove" MROperator (MP_AdHoc [("name", true)]) None;
   mkMethod "apps.ingress.check_conflict" MRAny (MP_AdHoc [("name", true); ("subdomain", true)])
      (Some MR_Inline);
   mkMethod "apps.networks.list" MRAny MP_None (Some (MR_Schema "Vec<NetworkSummary>"));
   mkMethod "apps.networks.create" MROperator (MP_Schema "ManagedNetwork") None;
   mkMethod "apps.networks.remove" MROperator (MP_AdHoc [("name", true)]) None].

Definition registry : list (string * list Method) :=
  [("Authentication", registry_authentication);
   ("System", registry_system);
   ("System Update", registry_system_update);
   ("Settings", registry_settings);
   ("Network", registry_network);
   ("Protocols & Services", registry_protocols_services);
   ("Alert Rules", registry_alert_rules);
   ("Block Devices", registry_block_devices);
   ("Filesystems", registry_filesystems);
   ("Filesystem Devices", registry_filesystem_devices);
   ("Subvolumes", registry_subvolumes);
   ("Snapshots", registry_snapshots);
   ("NFS Shares", registry_nfs_shares);
   ("SMB Shares", registry_smb_shares);
   ("iSCSI Targets", registry_iscsi_targets);
   ("NVMe-oF Subsystems", registry_nvme_of_subsystems);
   ("Guest Shares", registry_guest_shares);
   ("OIDC", registry_oidc);
   ("WebAuthn", registry_webauthn);
   ("Audit", registry_audit);
   ("System (continued)", registry_system_continued);
   ("System Generations", registry_system_generations);
   ("System Hardware", registry_system_hardware);
   ("System Logs", registry_system_logs);
   ("System Metrics", registry_system_metrics);
   ("System ACME", registry_system_acme);
   ("System TLS", registry_system_tls);
   ("System NUT (UPS)", registry_system_nut_ups);
   ("System Watchdog", registry_system_watchdog);
   ("System RDMA", registry_system_rdma);
   ("System Passthrough", registry_system_passthrough);
   ("System Guest Tools", registry_system_guest_tools);
   ("System Secure Boot", registry_system_secure_boot);
   ("System SSH", registry_system_ssh);
   ("System Tailscale", registry_system_tailscale);
   ("System Tuning", registry_system_tuning);
   ("System Firewall", registry_system_firewall);
   ("System Update Channel", registry_system_update_channel);
   ("Network (continued)", registry_network_continued);
   ("Protocols & Services (continued)", registry_protocols_services_continued);
   ("Telemetry", registry_telemetry);
   ("Notifications", registry_notifications);
   ("Firmware", registry_firmware);
   ("Filesystem Encryption", registry_filesystem_encryption);
   ("Filesystem Reconcile", registry_filesystem_reconcile);
   ("Filesystem Dependents", registry_filesystem_dependents);
   ("bcachefs Tools", registry_bcachefs_tools);
   ("Subvolumes (continued)", registry_subvolumes_continued);
   ("SMB Users", registry_smb_users);
   ("SMB Groups", registry_smb_groups);
   ("Active Directory", registry_active_directory);
   ("Active Directory: Domain Controller", registry_active_directory_domain_controller);
   ("Backup", registry_backup);
   ("VMs", registry_vms);
   ("VM Disk Images", registry_vm_disk_images);
   ("Apps", registry_apps)].

Definition all_methods : list Method := concat (snd <$> registry).

(** ** What the registry promises *)

(** The roles a declared method role stands for; [RUser] accounts have their
    own allowlist. *)
Definition role_satisfies (mr : MethodRole) (r : Role) : bool :=
  match mr, r with
  | _, Admin => true
  | MRAny, (Operator | ReadOnly) => true
  | MROperator, Operator => true
  | _, _ => false
  end.

Definition name_char (c : ascii) : bool :=
  is_ascii_lowercase c || is_ascii_digit c || Ascii.eqb c "_".

(** Two or more dot-separated segments of lower-case letters, digits and
    underscores. *)
Definition well_formed_name (m : string) : bool :=
  let segs := split_bytes "." (to_bytes m) in
  (2 <=? length segs)%nat
  && forallb (fun seg => match seg with [] => false | _ => forallb name_char seg end) segs.

(** Boolean duplicate check: no name occurs again later in the list. *)
Fixpoint all_distinct (l : list string) : bool :=
  match l with
  | [] => true
  | x :: l' => negb (one_of l' x) && all_distinct l'
  end.

Lemma all_distinct_NoDup l : all_distinct l = true -> NoDup l.
Proof.
  induction l as [|x l IH]; simpl; [constructor|]. intros H. bool_hyps.
  constructor; [|auto]. rewrite <- one_of_spec. congruence.
Qed.

(** Lift a boolean check over the registry to a statement about its methods. *)
Lemma registry_check (f : Method -> bool) :
  forallb f all_methods = true -> forall m, m ∈ all_methods -> f m = true.
Proof. intros H m Hm. rewrite forallb_forall in H. apply H. by apply list_elem_of_In. Qed.

Lemma registered_names_distinct : NoDup (mt_name <$> all_methods).
Proof. apply all_distinct_NoDup. vm_compute. reflexivity. Qed.

Lemma registered_names_well_formed m : m ∈ all_methods -> well_formed_name (mt_name m) = true.
Proof.
  apply (registry_check (fun m => well_formed_name (mt_name m))). vm_compute. reflexivity.
Qed.

(** C37. For each of the registered methods the gate of the dispatcher enforces
    exactly the role the registry declares: an administrator, operator or
    read-only session without a pending password change is let through exactly
    when its role satisfies the declaration, and a standard user only to
    methods declared for any role. *)
Theorem registry_roles_enforced m session :
  m ∈ all_methods -> s_must_change_password session = false ->
  (s_role session <> RUser ->
     admitted session (mt_name m) = role_satisfies (mt_role m) (s_role session)) /\
  (s_role session = RUser -> admitted session (mt_name m) = true -> mt_role m = MRAny).
Proof.
  intros Hm Hpw. unfold admitted. rewrite Hpw. cbn [negb orb andb].
  pose proof (registry_check (fun m =>
    bool_decide (negb (role_denied ReadOnly (mt_name m)) = role_satisfies (mt_role m) ReadOnly)
    && bool_decide (negb (role_denied Operator (mt_name m)) = role_satisfies (mt_role m) Operator)
    && (role_denied RUser (mt_name m) || bool_decide (mt_role m = MRAny)))) as H.
  specialize (H ltac:(vm_compute; reflexivity) m Hm). cbv beta in H. bool_hyps.
  repeat match goal with H : bool_decide _ = true |- _ => apply bool_decide_eq_true in H end.
  split.
  - intros Hr. destruct (s_role session); [by destruct (mt_role m)|done|done|done].
  - intros -> Hadm. apply negb_true_iff in Hadm.
    match goal with H : role_denied _ _ || _ = true |- _ => rewrite Hadm in H; simpl in H;
      by apply bool_decide_eq_true in H end.
Qed.

Lemma registry_roles_enforced_witness :
  admitted (mkSession "t" "olga" Operator None None None 0 false None) "vm.create" = true.
Proof.
  apply (proj1 (registry_roles_enforced
    (mkMethod "vm.create" MROperator (MP_Schema "CreateVmRequest") (Some (MR_Schema "VmConfig")))
    (mkSession "t" "olga" Operator None None None 0 false None)
    ltac:(apply (list_elem_of_lookup_2 _ 290); vm_compute; reflexivity) eq_refl) ltac:(done)).
Defined.

(** Every registered name is unique, is dispatched to a domain module, and
    announces an event only when it is not a read, so that refreshing a view on
    an event never triggers a further event. *)
Theorem registry_dispatch_sound :
  NoDup (mt_name <$> all_methods) /\
  Forall (fun m => is_Some (route_module (mt_name m)) /\
    (is_Some (collection_for_method (mt_name m)) -> is_read_only (mt_name m) = false)) all_methods.
Proof.
  split; [exact registered_names_distinct|]. apply Forall_forall. intros m Hm.
  pose proof (registry_check (fun m => bool_decide (is_Some (route_module (mt_name m)))
    && implb (bool_decide (is_Some (collection_for_method (mt_name m))))
         (negb (is_read_only (mt_name m))))) as H.
  specialize (H ltac:(vm_compute; reflexivity) m Hm). cbv beta in H. bool_hyps.
  split; [by eapply bool_decide_eq_true|]. intros Hc.
  rewrite (bool_decide_eq_true_2 _ Hc) in *. by apply negb_true_iff.
Qed.
