(* ===== verification/Gateway.v ===== *)
(** * HTTP front ends (rest_gateway.rs, registry/paths.rs, and main.rs)

    The translation between method names and REST paths, the REST gateway that
    turns an HTTP call into a JSON-RPC call, and the bearer-token check of the
    direct HTTP endpoints.  Header maps, percent decoding and request ids come
    from axum, url and uuid and are arguments. *)

From Stdlib Require Import ZArith Lia Ascii String.
From stdpp Require Import base list gmap strings.
From S2P Require Import Prelude RustStr Net RateLimit Auth AuthInv AuthProps Router ToyJson Registry.

(** ** Method names and REST paths (registry/paths.rs) *)

Inductive HttpVerb : Type := VGet | VPost | VPut | VDelete.

#[export] Instance HttpVerb_eq_dec : EqDecision HttpVerb.
Proof. solve_decision. Defined.

(** [verb.as_str().to_uppercase()]. *)
Definition verb_upper (v : HttpVerb) : string :=
  match v with VGet => "GET" | VPost => "POST" | VPut => "PUT" | VDelete => "DELETE" end.

Definition ACTION_VERBS : list (string * HttpVerb) :=
  [("get", VGet); ("list", VGet); ("status", VGet); ("check", VGet); ("find", VGet);
   ("delete", VDelete); ("destroy", VDelete); ("forget", VDelete); ("remove", VDelete);
   ("set", VPut); ("update", VPut)].

Definition READ_NOUNS : list string :=
  ["info"; "health"; "stats"; "version"; "alerts"; "disks"; "usage"; "timezones"; "notice"; "me";
   "config"; "available"; "routes"; "logs"; "summary"; "iommu"; "level"; "history"; "prometheus";
   "pending"; "devices"; "capabilities"; "constraints"; "readiness"; "snapshots"; "dependents";
   "children"; "top"; "timestats"; "required"].

Definition infer_verb (method : string) : HttpVerb :=
  let last_segment := List.last (str_split "." method) method in
  let words := str_split "_" last_segment in
  let first := List.hd "" words in
  let last_word := List.last words "" in
  match find_first (fun kv => String.eqb first (fst kv)) ACTION_VERBS with
  | Some (_, verb) => verb
  | None => if one_of READ_NOUNS last_word then VGet else VPost
  end.

Definition translate (method : string) : HttpVerb * string :=
  let path := "/api/v1/" +:+ str_replace_char "." "/" method in
  let verb := infer_verb method in
  (verb, path).

Definition method_from_segments (segments : string) : string :=
  str_replace_char "/" "." segments.

(** ** The request's credentials (main.rs) *)

(** [headers.get(name).and_then(|v| v.to_str().ok())]; axum compares header
    names without case, the code always asks in lower case. *)
Abbreviation HeaderMap := (string -> option string).

Definition SESSION_COOKIE : string := "nasty_session".

Fixpoint session_cookie_in (parts : list string) : option string :=
  match parts with
  | [] => None
  | part :: parts' =>
      match split_once "=" (trim part) with
      | None => session_cookie_in parts'
      | Some (name, value) =>
          if String.eqb name SESSION_COOKIE && negb (String.eqb value "")
          then Some value
          else session_cookie_in parts'
      end
  end.

Definition parse_session_cookie (header : string) : option string :=
  session_cookie_in (str_split ";" header).

Definition token_from_headers (headers : HeaderMap) : option string :=
  match headers "cookie" with
  | Some v =>
      match parse_session_cookie v with
      | Some t => Some t
      | None => match headers "authorization" with
                | Some a => strip_prefix "Bearer " a
                | None => None
                end
      end
  | None => match headers "authorization" with
            | Some a => strip_prefix "Bearer " a
            | None => None
            end
  end.

Definition client_ip (headers : HeaderMap) : string := default "unknown" (headers "x-real-ip").

Inductive StatusCode : Type :=
| OK | NO_CONTENT | BAD_REQUEST | UNAUTHORIZED | FORBIDDEN | NOT_FOUND | METHOD_NOT_ALLOWED
| INTERNAL_SERVER_ERROR.

#[export] Instance StatusCode_eq_dec : EqDecision StatusCode.
Proof. solve_decision. Defined.

Definition map_error_to_status (code : Z) (msg : string) : StatusCode :=
  if (code =? -32700) || (code =? -32600) || (code =? -32602) then BAD_REQUEST
  else if code =? -32601 then NOT_FOUND
  else
    let lower := to_ascii_lowercase msg in
    if str_contains "permission denied" lower || str_contains "access denied" lower
       || str_contains "scoped credentials" lower
    then FORBIDDEN
    else if str_contains "not found" lower then NOT_FOUND
    else if str_contains "missing params" lower || str_contains "missing field" lower
            || str_contains "invalid" lower
    then BAD_REQUEST
    else INTERNAL_SERVER_ERROR.

(** Method name to HTTP verb; the hash table is filled in registry order, so
    the last entry of a name wins. *)
Definition canonical_verb_for (method : string) : option HttpVerb :=
  let table : gmap string HttpVerb :=
    foldl (fun t m => <[mt_name m := fst (translate (mt_name m))]> t) ∅ all_methods in
  table !! method.

Section gateway.
Context {L : AuthLibs} {J : Json} {R : JsonRpc J} {D : Type}.
Context (try_route : RouterModule -> Request -> Session -> AppState (D:=D) ->
  AppState (D:=D) * option Response).
(** [url::form_urlencoded] on one value. *)
Context (url_decode : string -> string).

(** An HTTP answer: the status and the JSON body, if it has one. *)
Record HttpResponse : Type := mkHttpResponse {
  ht_status : StatusCode;
  ht_body : option Value;
}.

Definition json_error (msg : string) : option Value :=
  Some (v_object {[ "error" := v_string msg ]}).

Definition auth_error_to_response (err : AuthError) : HttpResponse :=
  match err with
  | InvalidToken => mkHttpResponse UNAUTHORIZED (json_error "invalid token")
  | TokenExpired => mkHttpResponse UNAUTHORIZED (json_error "token expired")
  | _ => mkHttpResponse UNAUTHORIZED (json_error "authentication failed")
  end.

Definition query_pair (pair : string) : string * Value :=
  let '(k, v) := match split_once "=" pair with Some t => t | None => (pair, "") end in
  let v' := url_decode v in
  (url_decode k, match v_from_str v' with Some parsed => parsed | None => v_string v' end).

Definition query_to_json (query : string) : Value :=
  if String.eqb query "" then v_null
  else v_object (foldl (fun obj pair => <[fst (query_pair pair) := snd (query_pair pair)]> obj) ∅
                   (str_split "&" query)).

(** Run an operation of the authentication service inside the engine. *)
Definition on_auth {A} (m : stm Service AuthError A) (s : AppState (D:=D))
    : AppState (D:=D) * result A AuthError :=
  let '(svc, r) := m (ap_auth s) in
  (mkAppState svc (ap_domain s) (ap_events s) (ap_audit s), r).

(** Step 4 of [dispatch]: unwrap the JSON-RPC response. *)
Definition unwrap_response (response_str : string) : HttpResponse :=
  match v_from_str response_str with
  | None => mkHttpResponse INTERNAL_SERVER_ERROR (json_error "malformed engine response")
  | Some response =>
      match v_get "error" response with
      | Some err =>
          let msg := match v_get "message" err with
                     | Some v => default "unknown error" (v_as_str v)
                     | None => "unknown error"
                     end in
          let code := match v_get "code" err with
                      | Some v => default (-32603) (v_as_i64 v)
                      | None => -32603
                      end in
          mkHttpResponse (map_error_to_status code msg)
            (Some (v_object {[ "error" := v_object
              (<["code" := v_int code]> {[ "message" := v_string msg ]}) ]}))
      | None =>
          let res := default v_null (v_get "result" response) in
          if (match v_as_str res with Some s => String.eqb s "ok" | None => false end)
             || v_is_null res
          then mkHttpResponse NO_CONTENT None
          else mkHttpResponse OK (Some res)
      end
  end.

Definition dispatch (now : Z) (persisted : StatePersistResult) (request_id timing : string)
    (headers : HeaderMap) (path_tail : string) (verb : HttpVerb) (params : Value)
    (s : AppState (D:=D)) : AppState (D:=D) * HttpResponse :=
  let method := method_from_segments path_tail in
  match canonical_verb_for method with
  | None => (s, mkHttpResponse NOT_FOUND (json_error ("unknown RPC method: " +:+ method)))
  | Some canonical_verb =>
      if negb (bool_decide (canonical_verb = verb))
      then (s, mkHttpResponse METHOD_NOT_ALLOWED
                 (json_error ("method `" +:+ method +:+ "` is exposed as "
                    +:+ verb_upper canonical_verb +:+ ", not " +:+ verb_upper verb)))
      else
        match token_from_headers headers with
        | None => (s, mkHttpResponse UNAUTHORIZED (json_error "missing session token"))
        | Some token =>
            match on_auth (validate now persisted token (client_ip headers)) s with
            | (s1, Err e) => (s1, auth_error_to_response e)
            | (s1, Ok session) =>
                let raw := envelope_to_string request_id method params in
                let '(s2, response_str) := handle_rpc_request try_route raw timing s1 session in
                (s2, unwrap_response response_str)
            end
        end
  end.

(** [validate_bearer]: the check in front of the direct HTTP endpoints. *)
Definition access_denied_debug (d : AccessDenied) : string :=
  match d with
  | PasswordChangeRequired => "PasswordChangeRequired"
  | InsufficientRole => "InsufficientRole"
  | ScopedCredential => "ScopedCredential"
  | MissingFilePrincipal => "MissingFilePrincipal"
  | InteractiveSessionRequired => "InteractiveSessionRequired"
  end.

Definition validate_bearer (now : Z) (persisted : StatePersistResult) (headers : HeaderMap)
    (access : EndpointAccess) (endpoint : string) (s : AppState (D:=D))
    : AppState (D:=D) * result (Session * string) HttpResponse :=
  match token_from_headers headers with
  | None => (s, Err (mkHttpResponse UNAUTHORIZED (json_error "Missing token")))
  | Some token =>
      let ip := client_ip headers in
      match on_auth (validate now persisted token ip) s with
      | (s1, Err _) => (s1, Err (mkHttpResponse UNAUTHORIZED (json_error "Invalid token")))
      | (s1, Ok session) =>
          match authorize_session session access with
          | Err reason =>
              (rpc_audit "permission_denied" (s_username session) ip
                 ("endpoint=" +:+ endpoint +:+ " reason=" +:+ access_denied_debug reason) s1,
               Err (mkHttpResponse FORBIDDEN (json_error (message reason))))
          | Ok _ => (s1, Ok (session, ip))
          end
      end
  end.
End gateway.

(** ** Paths *)

Lemma foldl_insert_lookup {A B} (k : A -> string) (f : A -> B) (l : list A) (t : gmap string B) x v :
  (forall a b, k a = k b -> f a = f b) ->
  foldl (fun t a => <[k a := f a]> t) t l !! x = Some v <->
  (exists a, a ∈ l /\ k a = x /\ v = f a) \/ ((forall a, a ∈ l -> k a <> x) /\ t !! x = Some v).
Proof.
  intros Hf. revert t. induction l as [|a l IH]; intros t; simpl.
  { split; [intros; right; set_solver|]. intros [(? & Hin & _)|[_ ?]]; [set_solver|done]. }
  rewrite IH. destruct (decide (k a = x)) as [<-|Hne].
  - rewrite lookup_insert_eq. split.
    + intros [(b & ? & ? & ->)|[_ [= <-]]]; left; [exists b|exists a]; set_solver.
    + intros [(b & Hb & Hk & ->)|[Hn _]]; [|exfalso; apply (Hn a); set_solver].
      destruct (decide (k a ∈ k <$> l)) as [(c & Hkc & Hc)%list_elem_of_fmap|Hno].
      * left. exists c. rewrite (Hf c b) by congruence. done.
      * right. split; [|by rewrite (Hf a b) by congruence].
        intros c Hc Hkc. apply Hno, list_elem_of_fmap. eauto.
  - rewrite lookup_insert_ne by done. split.
    + intros [(b & ? & ? & ?)|[Hn ?]]; [left; exists b; set_solver|].
      right. split; [|done]. intros b [->|?]%elem_of_cons; auto.
    + intros [(b & [->|?]%elem_of_cons & ? & ?)|[Hn ?]]; [done|left; eauto|].
      right. split; [|done]. intros b Hb. apply Hn. set_solver.
Qed.

Lemma canonical_verb_for_spec method verb :
  canonical_verb_for method = Some verb <->
  exists m, m ∈ all_methods /\ mt_name m = method /\ verb = fst (translate method).
Proof.
  unfold canonical_verb_for.
  rewrite (foldl_insert_lookup mt_name (fun m => fst (translate (mt_name m)))) by congruence.
  rewrite lookup_empty. naive_solver.
Qed.

Lemma translate_tail m :
  strip_prefix "/api/v1/" (snd (translate m)) = Some (str_replace_char "." "/" m).
Proof. apply strip_prefix_app. Qed.

(** Method names and REST paths are inverse: the path of a name without a
    slash starts with [/api/v1/] and its tail translates back to the name, so
    distinct registered methods never share a path, and the gateway finds each
    registered method at its path under exactly the verb of the translation. *)
Theorem rest_paths_roundtrip :
  (forall m, "/"%char ∉ to_bytes m ->
     exists tail, strip_prefix "/api/v1/" (snd (translate m)) = Some tail /\
       method_from_segments tail = m) /\
  NoDup ((fun m => snd (translate (mt_name m))) <$> all_methods) /\
  (forall m, m ∈ all_methods -> exists tail,
     strip_prefix "/api/v1/" (snd (translate (mt_name m))) = Some tail /\
     method_from_segments tail = mt_name m /\
     forall verb, canonical_verb_for (method_from_segments tail) = Some verb <->
       verb = fst (translate (mt_name m))).
Proof.
  assert (forall m, "/"%char ∉ to_bytes m ->
     exists tail, strip_prefix "/api/v1/" (snd (translate m)) = Some tail /\
       method_from_segments tail = m) as Hback.
  { intros m Hm. exists (str_replace_char "." "/" m). split; [apply translate_tail|].
    by apply str_replace_char_back. }
  assert (forall m, m ∈ all_methods -> "/"%char ∉ to_bytes (mt_name m)) as Hreg.
  { intros m Hm Hin. apply (registry_check (fun m => negb (str_contains_char "/" (mt_name m))))
      in Hm; [|vm_compute; reflexivity]. apply negb_true_iff in Hm. unfold str_contains_char in Hm.
    rewrite existsb_false_elem in Hm. by specialize (Hm _ Hin). }
  split; [exact Hback|]. split.
  - change (NoDup (((fun n => snd (translate n)) ∘ mt_name) <$> all_methods)).
    rewrite list_fmap_compose. apply NoDup_fmap_2_strong; [|exact registered_names_distinct].
    intros x y (mx & -> & Hx)%list_elem_of_fmap (my & -> & Hy)%list_elem_of_fmap E.
    destruct (Hback _ (Hreg _ Hx)) as (tx & Ex & <-), (Hback _ (Hreg _ Hy)) as (ty & Ey & <-).
    congruence.
  - intros m Hm. destruct (Hback _ (Hreg _ Hm)) as (tail & E & Hinv). exists tail.
    split_and!; [done..|]. intros verb. rewrite canonical_verb_for_spec, Hinv. naive_solver.
Qed.

(** ** The gateway *)

(** Keep the registry table folded in the proofs below. *)
#[local] Opaque canonical_verb_for all_methods.

Section gateway_props.
Context {L : AuthLibs} {J : Json} {R : JsonRpc J} {RO : JsonRpcOk R} {D : Type}.
Implicit Types (s : AppState (D:=D)).
Abbreviation handlers := (RouterModule -> Request -> Session -> AppState (D:=D) ->
  AppState (D:=D) * option Response).

(** The request the gateway makes of a call. *)
Definition rest_request (request_id method : string) (params : Value) : Request :=
  mkRequest "2.0" method (if v_is_null params then None else Some params) (v_string request_id).

Lemma refused_same (h h' : handlers) raw timing s session req :
  from_str_request raw = Some req -> admitted session (rq_method req) = false ->
  handle_rpc_request h' raw timing s session = handle_rpc_request h raw timing s session /\
  ap_domain (fst (handle_rpc_request h raw timing s session)) = ap_domain s /\
  ap_events (fst (handle_rpc_request h raw timing s session)) = ap_events s.
Proof.
  intros Hraw Hadm. unfold handle_rpc_request, admitted in *. rewrite Hraw.
  destruct (s_must_change_password session), (one_of _ (rq_method req)),
    (role_denied _ (rq_method req)); done.
Qed.

(** A REST call reaches a domain handler only if its path names a
    registered method under that method's verb, its cookie or bearer token
    validates for the caller's address, and the role gate admits the session;
    the handler then runs with exactly that session and the call's method and
    parameters.  Otherwise the outcome does not depend on the handlers and
    neither the domain state nor the event bus changes. *)
Theorem rest_call_gated (h : handlers) now persisted request_id timing headers tail verb params s :
  let '(s', resp) := dispatch h now persisted request_id timing headers tail verb params s in
  ((forall h' : handlers,
      dispatch h' now persisted request_id timing headers tail verb params s = (s', resp)) /\
   ap_domain s' = ap_domain s /\ ap_events s' = ap_events s) \/
  exists m token session svc s1 response,
    m ∈ all_methods /\ mt_name m = method_from_segments tail /\
    verb = fst (translate (mt_name m)) /\
    token_from_headers headers = Some token /\
    validate now persisted token (client_ip headers) (ap_auth s) = (svc, Ok session) /\
    admitted session (mt_name m) = true /\
    route h (rest_request request_id (mt_name m) params) session
      (mkAppState svc (ap_domain s) (ap_events s) (ap_audit s)) = (s1, response) /\
    s' = (match rs_error response with
          | None => after_success (rest_request request_id (mt_name m) params) session s1
          | Some _ => s1
          end) /\
    resp = unwrap_response (with_timing timing (to_string_response response)).
Proof.
  unfold dispatch. generalize (canonical_verb_for_spec (method_from_segments tail)).
  generalize (canonical_verb_for (method_from_segments tail)). intros [v|] Hspec; [|by left].
  destruct (proj1 (Hspec v) eq_refl) as (m & Hm & Hname & ->). clear Hspec.
  destruct (bool_decide _) eqn:Hb; cbn [negb]; [|by left].
  apply bool_decide_eq_true in Hb as <-.
  destruct (token_from_headers headers) as [token|] eqn:Ht; [|by left].
  unfold on_auth. destruct (validate _ _ _ _ _) as [svc [session|e]] eqn:Ev; [|by left].
  set (raw := envelope_to_string request_id (method_from_segments tail) params).
  assert (from_str_request raw = Some (rest_request request_id (method_from_segments tail) params))
    as Hraw by apply envelope_parses.
  set (s0 := mkAppState _ _ _ _).
  destruct (admitted session (method_from_segments tail)) eqn:Hadm.
  - unfold handle_rpc_request. rewrite Hraw. cbn [rq_method rest_request].
    unfold admitted in Hadm. apply andb_true_iff in Hadm as [Hpw Hden].
    pose proof Hden as Hden'. apply negb_true_iff in Hden'. rewrite Hden'.
    replace (s_must_change_password session && negb (one_of _ _)) with false
      by (destruct (s_must_change_password session), (one_of _ _); done).
    destruct (route h _ session s0) as [s1 response] eqn:Er.
    right. exists m, token, session, svc, s1, response. rewrite Hname.
    split_and!; try done. unfold admitted. by rewrite Hpw, Hden.
  - destruct (handle_rpc_request h raw timing s0 session) as [s2 str] eqn:E. left.
    pose proof (fun h' => refused_same h h' raw timing s0 session _ Hraw Hadm) as Hs.
    rewrite E in Hs. split; [|destruct (Hs h) as (_ & Hd & He); simpl in *; by rewrite Hd, He].
    intros h'. by destruct (Hs h') as (-> & _).
Qed.

(** The statuses a refused REST call gets: 404 for an unknown method, 405
    for the wrong verb, 401 without a valid token, 403 when the role gate
    refuses; a pending password change is reported as 500. *)
Lemma rest_refusal_statuses (h : handlers) now persisted request_id timing headers tail verb
    params s :
  let method := method_from_segments tail in
  let status := ht_status
    (snd (dispatch h now persisted request_id timing headers tail verb params s)) in
  match canonical_verb_for method with
  | None => status = NOT_FOUND
  | Some v =>
      if negb (bool_decide (v = verb)) then status = METHOD_NOT_ALLOWED
      else match token_from_headers headers with
           | None => status = UNAUTHORIZED
           | Some token =>
               match snd (validate now persisted token (client_ip headers) (ap_auth s)) with
               | Err _ => status = UNAUTHORIZED
               | Ok session =>
                   admitted session method = false ->
                   status = if s_must_change_password session
                               && negb (one_of ["auth.change_password"; "auth.me"; "auth.logout"]
                                          method)
                            then INTERNAL_SERVER_ERROR else FORBIDDEN
               end
           end
  end.
Proof.
  cbv zeta. unfold dispatch.
  generalize (canonical_verb_for (method_from_segments tail)). intros [v|]; [|done].
  destruct (negb (bool_decide (v = verb))); [done|].
  destruct (token_from_headers headers) as [token|]; [|done].
  unfold on_auth. destruct (validate _ _ _ _ _) as [svc [session|e]]; [|by destruct e].
  cbn [snd]. unfold admitted. intros Hadm. unfold handle_rpc_request. rewrite envelope_parses.
  cbn [rq_method rq_id].
  assert (forall id msg, ht_status (unwrap_response (to_string_response
    (response_error id InternalError msg))) = map_error_to_status (-32603) msg) as Hst.
  { intros id msg. unfold unwrap_response.
    destruct (error_response_parses id InternalError msg)
      as (v1 & e & mm & n & -> & -> & -> & Hmm & -> & Hn).
    rewrite Hmm, Hn. done. }
  destruct (s_must_change_password session), (one_of _ _), (role_denied _ _);
    cbn [negb andb orb] in *; try done; cbn [snd]; rewrite Hst; vm_compute; reflexivity.
Qed.

End gateway_props.

(** ** Concrete calls *)

Definition cookie_headers (name : string) : option string :=
  if String.eqb name "cookie" then Some "theme=dark; nasty_session=tok-admin"
  else if String.eqb name "x-real-ip" then Some "10.0.0.2" else None.

(** The engine with the administrator signed in. *)
Definition app1 : AppState (D:=nat) :=
  mkAppState (mkService (set_sessions (state svc0) [admin_session]) (rate_limit svc0) []) 0%nat [] [].

Definition create_call := dispatch counting_handlers 200 None "id" "" cookie_headers
  "subvolume/create" VPost (TName "tank") app1.

(** The gateway carries a call of the administrator to the handler. *)
Lemma rest_call_gated_witness :
  create_call =
  (mkAppState (ap_auth app1) 1%nat ["subvolume"]
     [(("subvolume.create", "admin", "10.0.0.2"), "tank")], mkHttpResponse NO_CONTENT None) /\
  exists m, m ∈ all_methods /\ mt_name m = "subvolume.create" /\
    admitted admin_session (mt_name m) = true.
Proof.
  assert (create_call = (mkAppState (ap_auth app1) 1%nat ["subvolume"]
     [(("subvolume.create", "admin", "10.0.0.2"), "tank")], mkHttpResponse NO_CONTENT None)) as E
    by (vm_compute; reflexivity).
  split; [exact E|].
  pose proof (rest_call_gated counting_handlers 200 None "id" "" cookie_headers
    "subvolume/create" VPost (TName "tank") app1) as H.
  fold create_call in H. rewrite E in H. destruct H as [(_ & Hd & _)|H]; [discriminate Hd|].
  destruct H as (m & token & session & svc & s1 & r & Hm & Hn & _ & Ht & Hv & Ha & _).
  exists m. split; [exact Hm|]. split; [rewrite Hn; vm_compute; reflexivity|].
  injection Ht as <-. vm_compute in Hv. injection Hv as _ <-. exact Ha.
Defined.

(** Without a cookie or token the same call is refused with 401. *)
Lemma rest_refusal_statuses_witness :
  ht_status (snd (dispatch counting_handlers 200 None "id" "" (fun _ => None)
    "subvolume/create" VPost (TName "tank") app1)) = UNAUTHORIZED.
Proof.
  pose proof (rest_refusal_statuses counting_handlers 200 None "id" "" (fun _ => None)
    "subvolume/create" VPost (TName "tank") app1) as H.
  cbv zeta in H.
  replace (canonical_verb_for (method_from_segments "subvolume/create")) with (Some VPost) in H
    by (vm_compute; reflexivity).
  exact H.
Defined.
