(* ===== verification/Socket.v ===== *)
(** * The WebSocket connection (nasty-engine/src/main.rs)

    Authentication of a connection ([resolve_session], [wait_for_auth]) and the
    [select!] loop of [handle_socket] as a function on the next thing that
    happens: a frame from the client, an event from the bus, or the keep-alive
    tick.  Everything else in the engine may change between two steps. *)

From Stdlib Require Import ZArith Lia Ascii String.
From stdpp Require Import base list gmap strings.
From S2P Require Import Prelude RustStr Net RateLimit Auth AuthInv AuthProps Router ToyJson.
From S2P Require Import Registry Gateway.

Definition session_security_context_unchanged (initial fresh : Session) : bool :=
  String.eqb (s_token initial) (s_token fresh)
  && String.eqb (s_username initial) (s_username fresh)
  && bool_decide (s_role initial = s_role fresh)
  && bool_decide (s_file_principal initial = s_file_principal fresh)
  && bool_decide (s_filesystem initial = s_filesystem fresh)
  && bool_decide (s_owner initial = s_owner fresh)
  && (s_created_at initial =? s_created_at fresh)
  && bool_decide (s_client_ip initial = s_client_ip fresh).

(** 90 seconds, in milliseconds. *)
Definition IDLE_TIMEOUT : Z := 90000.

(** What the server sends. *)
Inductive Frame : Type :=
| FText (text : string)
| FAuthenticated (username : string) (role : Role) (must_change_password : bool)
| FError (text : string)
| FEvent (collection : string)
| FPing
| FClose.

(** What the client's first message can be, when no token came with the upgrade
    request: none in ten seconds or a broken stream, a non-text frame, text
    that is not [{"token": ..}], or a token. *)
Inductive FirstMessage : Type :=
| FirstNone | FirstNotText | FirstBadJson | FirstToken (token : string).

(** One iteration of the loop.  [write_ok] is the outcome of sending. *)
Inductive WsInput : Type :=
| InText (text timing : string) (write_ok : bool)
| InPingPong
| InClose (frame : option string)
| InEnd
| InReadError (e : string)
| InOther
| InBus (event : option string) (write_ok : bool)
| InTick (write_ok : bool).

Record Conn : Type := mkConn {
  cn_session : Session;
  cn_client_ip : string;
  cn_on_files_domain : bool;
  cn_subscribed : bool;
  cn_last_seen : Z;
  cn_disconnect_reason : option string;
}.

Definition seen (now_ms : Z) (c : Conn) : Conn :=
  mkConn (cn_session c) (cn_client_ip c) (cn_on_files_domain c) (cn_subscribed c) now_ms
    (cn_disconnect_reason c).

Definition disconnect (reason : string) (c : Conn) : Conn :=
  mkConn (cn_session c) (cn_client_ip c) (cn_on_files_domain c) (cn_subscribed c)
    (cn_last_seen c) (Some reason).

Section socket.
Context {L : AuthLibs} {J : Json} {R : JsonRpc J} {D : Type}.
Context (try_route : RouterModule -> Request -> Session -> AppState (D:=D) ->
  AppState (D:=D) * option Response).
Implicit Types (s : AppState (D:=D)).

Definition auth_ack (session : Session) : Frame :=
  FAuthenticated (s_username session) (s_role session) (s_must_change_password session).

Definition wait_for_auth (now : Z) (persisted : StatePersistResult) (client_ip : string)
    (first : FirstMessage) s : AppState (D:=D) * option Session * list Frame :=
  match first with
  | FirstNone => (s, None, [])
  | FirstNotText => (s, None, [FError "first message must be JSON with token"])
  | FirstBadJson => (s, None, [FError ("expected {" +:+ dquote +:+ "token" +:+ dquote +:+ ": "
                                           +:+ dquote +:+ "..." +:+ dquote +:+ "}")])
  | FirstToken token =>
      match on_auth (validate now persisted token client_ip) s with
      | (s', Ok session) => (s', Some session, [auth_ack session])
      | (s', Err _) => (s', None, [FError "invalid token"; FClose])
      end
  end.

Definition resolve_session (now : Z) (persisted : StatePersistResult) (client_ip : string)
    (pre_auth_token : option string) (first : FirstMessage) s
    : AppState (D:=D) * option Session * list Frame :=
  match pre_auth_token with
  | Some token =>
      match on_auth (validate now persisted token client_ip) s with
      | (s', Ok session) => (s', Some session, [auth_ack session])
      | (s', Err _) => (s', None, [FError "invalid session"; FClose])
      end
  | None => wait_for_auth now persisted client_ip first s
  end.

(** The part of [handle_socket] before the loop. *)
Definition open_socket (now now_ms : Z) (persisted : StatePersistResult) (client_ip : string)
    (pre_auth_token : option string) (on_files_domain : bool) (first : FirstMessage) s
    : AppState (D:=D) * option Conn * list Frame :=
  match resolve_session now persisted client_ip pre_auth_token first s with
  | (s', None, frames) => (s', None, frames)
  | (s', Some session, frames) =>
      if on_files_domain && negb (role_eqb (s_role session) RUser)
      then (s', None, frames ++ [FError "invalid session"; FClose])
      else (s', Some (mkConn session client_ip on_files_domain
                        (negb (role_eqb (s_role session) RUser)) now_ms None), frames)
  end.

(** The re-validation made before every request and at every tick. *)
Definition revalidate (now : Z) (persisted : StatePersistResult) (c : Conn) s
    : AppState (D:=D) * option Session :=
  match on_auth (validate now persisted (s_token (cn_session c)) (cn_client_ip c)) s with
  | (s', Ok fresh) =>
      (s', if session_security_context_unchanged (cn_session c) fresh
              && (negb (cn_on_files_domain c) || role_eqb (s_role fresh) RUser)
           then Some fresh else None)
  | (s', Err _) => (s', None)
  end.

(** One iteration of the loop: the new engine state and connection, the frames
    sent, and the session and text of the request that was run, if any. *)
Definition socket_step (now now_ms : Z) (persisted : StatePersistResult) (c : Conn) (i : WsInput) s
    : AppState (D:=D) * Conn * list Frame * option (Session * string) :=
  match cn_disconnect_reason c with
  | Some _ => (s, c, [], None)
  | None =>
      match i with
      | InText text timing write_ok =>
          let c1 := seen now_ms c in
          match revalidate now persisted c s with
          | (s1, None) =>
              (s1, disconnect "session expired, revoked, or changed" c1, [FClose], None)
          | (s1, Some fresh) =>
              let '(s2, response) := handle_rpc_request try_route text timing s1 fresh in
              if write_ok then (s2, c1, [FText response], Some (fresh, text))
              else (s2, disconnect "write failed (socket closed)" c1, [], Some (fresh, text))
          end
      | InPingPong | InOther => (s, seen now_ms c, [], None)
      | InClose (Some frame) => (s, disconnect ("client close (" +:+ frame +:+ ")") c, [], None)
      | InClose None => (s, disconnect "client close (no frame)" c, [], None)
      | InEnd => (s, disconnect "stream ended (TCP close)" c, [], None)
      | InReadError e => (s, disconnect ("read error: " +:+ e) c, [], None)
      | InBus event write_ok =>
          match cn_subscribed c, event with
          | true, Some collection =>
              if write_ok then (s, c, [FEvent collection], None)
              else (s, disconnect "event-write failed (socket closed)" c, [], None)
          | _, _ => (s, c, [], None)
          end
      | InTick write_ok =>
          match revalidate now persisted c s with
          | (s1, None) =>
              (s1, disconnect "session expired, revoked, or changed on ping" c, [FClose], None)
          | (s1, Some _) =>
              if IDLE_TIMEOUT <? now_ms - cn_last_seen c
              then (s1, disconnect "server idle timeout (90s no traffic)" c, [FClose], None)
              else if write_ok then (s1, c, [FPing], None)
              else (s1, disconnect "ping-write failed (socket closed)" c, [], None)
          end
      end
  end.

(** A run of a connection: before each iteration the rest of the engine makes
    an arbitrary change. *)
Record Turn : Type := mkTurn {
  tn_env : AppState (D:=D) -> AppState (D:=D);
  tn_now : Z;
  tn_now_ms : Z;
  tn_persisted : StatePersistResult;
  tn_input : WsInput;
}.

Fixpoint run_socket (turns : list Turn) (c : Conn) s
    : AppState (D:=D) * Conn * list Frame * list (Session * string) :=
  match turns with
  | [] => (s, c, [], [])
  | t :: turns' =>
      let '(s1, c1, fr, ex) :=
        socket_step (tn_now t) (tn_now_ms t) (tn_persisted t) c (tn_input t) (tn_env t s) in
      let '(s2, c2, frs, exs) := run_socket turns' c1 s1 in
      (s2, c2, fr ++ frs, option_list ex ++ exs)
  end.
End socket.

(** ** What a connection can do *)

Lemma context_unchanged_spec initial fresh :
  session_security_context_unchanged initial fresh = true ->
  s_username fresh = s_username initial /\ s_role fresh = s_role initial /\
  s_file_principal fresh = s_file_principal initial /\ s_filesystem fresh = s_filesystem initial /\
  s_owner fresh = s_owner initial.
Proof.
  unfold session_security_context_unchanged. intros H. bool_hyps.
  repeat match goal with H : bool_decide _ = true |- _ => apply bool_decide_eq_true in H end.
  done.
Qed.

Section socket_props.
Context {L : AuthLibs} {J : Json} {R : JsonRpc J} {D : Type}.
Context (h : RouterModule -> Request -> Session -> AppState (D:=D) ->
  AppState (D:=D) * option Response).
Implicit Types (s : AppState (D:=D)) (c : Conn).

(** The session has the privileges the connection authenticated with. *)
Definition same_privileges c (session : Session) : Prop :=
  s_username session = s_username (cn_session c) /\ s_role session = s_role (cn_session c) /\
  s_file_principal session = s_file_principal (cn_session c) /\
  s_filesystem session = s_filesystem (cn_session c) /\ s_owner session = s_owner (cn_session c).

(** A connection as [open_socket] makes it: on the file domain only for
    standard users, subscribed to the event bus only for the others. *)
Definition conn_ok c : Prop :=
  (cn_on_files_domain c = true -> s_role (cn_session c) = RUser) /\
  (cn_subscribed c = true -> s_role (cn_session c) <> RUser).

Lemma revalidate_Some now persisted c s s' fresh :
  revalidate now persisted c s = (s', Some fresh) ->
  same_privileges c fresh /\
  exists svc, validate now persisted (s_token (cn_session c)) (cn_client_ip c) (ap_auth s)
    = (svc, Ok fresh) /\ s' = mkAppState svc (ap_domain s) (ap_events s) (ap_audit s).
Proof.
  unfold revalidate, on_auth. destruct (validate _ _ _ _ _) as [svc [f|e]]; [|done].
  destruct (session_security_context_unchanged _ f) eqn:E; [|done]. simpl.
  destruct (_ || _); intros [= <- <-]. split; [by apply context_unchanged_spec|eauto].
Qed.

Lemma revalidate_frame now persisted c s :
  ap_domain (fst (revalidate now persisted c s)) = ap_domain s /\
  ap_events (fst (revalidate now persisted c s)) = ap_events s /\
  ap_audit (fst (revalidate now persisted c s)) = ap_audit s.
Proof.
  unfold revalidate, on_auth. by destruct (validate _ _ _ _ _) as [svc [f|e]].
Qed.

(** One iteration keeps the identity of the connection, runs a request only
    with a session that validated in the state it found, and sends bus events
    only to subscribers. *)
Lemma socket_step_ok now now_ms persisted c i s :
  let '(s', c', frames, ex) := socket_step h now now_ms persisted c i s in
  cn_session c' = cn_session c /\ cn_on_files_domain c' = cn_on_files_domain c /\
  cn_subscribed c' = cn_subscribed c /\
  (forall session text, ex = Some (session, text) ->
     cn_disconnect_reason c = None /\ same_privileges c session /\
     exists svc, validate now persisted (s_token (cn_session c)) (cn_client_ip c) (ap_auth s)
       = (svc, Ok session)) /\
  (ex = None -> ap_domain s' = ap_domain s /\ ap_events s' = ap_events s /\ ap_audit s' = ap_audit s) /\
  (forall collection, FEvent collection ∈ frames -> cn_subscribed c = true).
Proof.
  unfold socket_step. destruct (cn_disconnect_reason c); [split_and!; set_solver|].
  destruct i as [text timing w| |[fr|]| |e| |ev w|w]; try (split_and!; set_solver).
  - pose proof (revalidate_frame now persisted c s) as Hf.
    destruct (revalidate now persisted c s) as [s1 [fresh|]] eqn:E.
    + apply revalidate_Some in E as (Hp & svc & Hv & _).
      destruct (handle_rpc_request _ _ _ _ _) as [s2 response].
      destruct w; (split_and!; [done..| | |set_solver]);
        [naive_solver|done|naive_solver|done].
    + split_and!; try done; set_solver.
  - destruct (cn_subscribed c) eqn:Hsub, ev; try destruct w; split_and!; set_solver.
  - pose proof (revalidate_frame now persisted c s) as Hf.
    destruct (revalidate now persisted c s) as [s1 [fresh|]].
    + destruct (_ <? _); [|destruct w]; split_and!; try done; set_solver.
    + split_and!; try done; set_solver.
Qed.

Lemma run_socket_ok turns c s :
  conn_ok c ->
  let '(s', c', frames, execs) := run_socket h turns c s in
  Forall (fun e => same_privileges c (fst e)) execs /\
  (forall collection, FEvent collection ∈ frames -> s_role (cn_session c) <> RUser) /\
  cn_session c' = cn_session c.
Proof.
  revert c s. induction turns as [|t turns IH]; intros c s Hc; simpl.
  { split_and!; [constructor|set_solver|done]. }
  pose proof (socket_step_ok (tn_now t) (tn_now_ms t) (tn_persisted t) c (tn_input t)
    (tn_env t s)) as Hs.
  destruct (socket_step _ _ _ _ _ _ _) as [[[s1 c1] fr] ex].
  destruct Hs as (Hses & Hfd & Hsub & Hex & _ & Hev).
  assert (conn_ok c1) as Hc1 by (unfold conn_ok in *; by rewrite Hses, Hfd, Hsub).
  specialize (IH c1 s1 Hc1). destruct (run_socket h turns c1 s1) as [[[s2 c2] frs] exs].
  destruct IH as (Hexs & Hfrs & Hc2). unfold same_privileges in *. rewrite Hses in *.
  split_and!; [|intros col [Hin|Hin]%elem_of_app; [apply Hc; eauto|eauto]|done].
  apply Forall_app. split; [|done]. destruct ex as [[session text]|]; constructor; [|done].
  by apply (Hex session text).
Qed.

(** Whatever the rest of the engine does between its iterations, every
    request run on a connection runs with the name, role, file principal and
    scope the connection authenticated with; a connection on the file domain
    belongs to a standard user, and a standard user is never sent events of the
    bus. *)
Theorem socket_privileges_fixed now now_ms persisted ip pre files first s turns :
  match open_socket now now_ms persisted ip pre files first s with
  | (_, None, _) => True
  | (s1, Some c, _) =>
      (files = true -> s_role (cn_session c) = RUser) /\
      let '(_, _, frames, execs) := run_socket h turns c s1 in
      Forall (fun e => same_privileges c (fst e)) execs /\
      (forall collection, FEvent collection ∈ frames -> s_role (cn_session c) <> RUser)
  end.
Proof.
  unfold open_socket. destruct (resolve_session _ _ _ _ _ _) as [[s1 [session|]] fr]; [|done].
  destruct (files && negb (role_eqb (s_role session) RUser)) eqn:E; [done|].
  set (c := mkConn _ _ _ _ _ _).
  assert (conn_ok c) as Hc.
  { unfold conn_ok, c, role_eqb in *; simpl. destruct files; simpl in *.
    - apply negb_false_iff, bool_decide_eq_true in E. by rewrite E.
    - split; [done|]. intros Hn%negb_true_iff. by apply bool_decide_eq_false in Hn. }
  split; [apply Hc|]. pose proof (run_socket_ok turns c s1 Hc) as Hr.
  destruct (run_socket h turns c s1) as [[[s2 c2] frs] exs]. naive_solver.
Qed.

Lemma run_socket_closed turns c s reason :
  cn_disconnect_reason c = Some reason ->
  (forall t, t ∈ turns -> tn_env t = id) ->
  run_socket h turns c s = (s, c, [], []).
Proof.
  intros Hc Henv. induction turns as [|t turns IH]; simpl; [done|].
  rewrite (Henv t) by set_solver. unfold id, socket_step. rewrite Hc.
  rewrite IH by set_solver. done.
Qed.

(** Revocation takes effect at the next request or tick: if the session of
    an open connection no longer validates for its address, or validates with a
    different security context, then the iteration runs nothing, sends a close
    frame and closes the connection, leaving the domain state, the event bus and
    the dispatcher's audit records as they were, and a closed connection never
    does anything again. *)
Theorem revoked_session_closes_socket now now_ms persisted c i s :
  cn_disconnect_reason c = None ->
  (forall svc fresh,
    validate now persisted (s_token (cn_session c)) (cn_client_ip c) (ap_auth s) = (svc, Ok fresh) ->
    session_security_context_unchanged (cn_session c) fresh = false) ->
  match i with InText _ _ _ | InTick _ => True | _ => False end ->
  exists s' c' reason,
    socket_step h now now_ms persisted c i s = (s', c', [FClose], None) /\
    cn_disconnect_reason c' = Some reason /\
    ap_domain s' = ap_domain s /\ ap_events s' = ap_events s /\ ap_audit s' = ap_audit s /\
    forall turns s2, (forall t, t ∈ turns -> tn_env t = id) ->
      run_socket h turns c' s2 = (s2, c', [], []).
Proof.
  intros Hopen Hrev Hi.
  assert (exists s1, revalidate now persisted c s = (s1, None) /\ ap_domain s1 = ap_domain s /\
    ap_events s1 = ap_events s /\ ap_audit s1 = ap_audit s) as (s1 & E & Hd & He & Ha).
  { unfold revalidate, on_auth. destruct (validate _ _ _ _ _) as [svc [f|e]]; [|eauto].
    rewrite (Hrev svc f eq_refl). simpl. eauto. }
  unfold socket_step. rewrite Hopen.
  destruct i as [text timing w| |[fr|]| |e| |ev w|w]; try done; rewrite E;
    (eexists _, _, _; split_and!; [reflexivity|reflexivity|done..|]);
    intros turns s2 Hid; by eapply run_socket_closed.
Qed.
End socket_props.

(** ** A concrete connection *)

Definition admin_conn : Conn := mkConn admin_session "10.0.0.2" false true 0 None.

(** Deleting the session closes the administrator's connection at its next
    request. *)
Lemma revoked_session_closes_socket_witness :
  exists s' c' reason,
    socket_step counting_handlers 200 200000 None admin_conn (InText (call "fs.list") "" true) app0
      = (s', c', [FClose], None) /\ cn_disconnect_reason c' = Some reason /\ ap_domain s' = 0%nat.
Proof.
  destruct (revoked_session_closes_socket counting_handlers 200 200000 None admin_conn
    (InText (call "fs.list") "" true) app0 eq_refl) as (s' & c' & reason & E & Hr & Hd & _).
  - intros svc fresh E. vm_compute in E. discriminate E.
  - exact I.
  - exists s', c', reason. split; [exact E|]. split; [exact Hr|exact Hd].
Defined.

(** While the session lives its requests run. *)
Example live_socket_runs_request :
  snd (socket_step counting_handlers 200 200000 None admin_conn
    (InText (call "fs.list") "" true) app1) = Some (admin_session, call "fs.list").
Proof. vm_compute. reflexivity. Qed.
