(* ===== verification/Webui.v ===== *)
(** * Management listener changes (nasty-system/src/webui.rs)

    The confirm-or-rollback protocol that moves the WebUI to other ports: the
    pending transaction, its journal file, the Caddy and firewall calls, the
    deadline, rollback, and restarts of the engine.  Caddy, the firewall
    service, the journal's file system and the health probe are outside this
    component: their outcomes are arguments, and an error may come before or
    after the change was made.  Operations run to completion under the
    service's lock.  Rewriting Caddy's JSON ([configure_http]) is not
    modelled. *)

From Stdlib Require Import ZArith Lia Ascii String.
From stdpp Require Import base list gmap strings relations.
From S2P Require Import Prelude.

Definition TIMEOUT : Z := 30.

Record ListenerPorts : Type := mkPorts {
  https_port : Z;
  http_port : option Z;
}.

#[export] Instance ListenerPorts_eq_dec : EqDecision ListenerPorts.
Proof. solve_decision. Defined.

(** [ListenerPorts::validate]; a port is a [u16]. *)
Definition ports_validate (p : ListenerPorts) : result unit string :=
  if (https_port p =? 0) || bool_decide (http_port p = Some 0)
  then Err "Ports must be between 1 and 65535"
  else if bool_decide (http_port p = Some (https_port p))
  then Err "HTTP and HTTPS ports must differ"
  else if existsb (fun q => (q =? 2019) || (q =? 2137)) (https_port p :: option_list (http_port p))
  then Err "Caddy admin and engine API ports are reserved"
  else Ok tt.

Record PendingListeners : Type := mkPending {
  txn_id : string;
  pd_ports : ListenerPorts;
  deadline : Z;
}.

Record ListenerState : Type := mkListenerState {
  confirmed : ListenerPorts;
  pending : option PendingListeners;
  last_error : option string;
}.

(** The service with what it controls: the journal file (parsed), the ports
    Caddy listens on and the ports the firewall admits. *)
Record World : Type := mkWorld {
  w_state : ListenerState;
  w_recovering : bool;
  w_disk : option ListenerState;
  w_caddy : ListenerPorts;
  w_firewall : ListenerPorts;
}.

(** Outcome of writing the journal: the file is replaced by a rename, so an
    error leaves it unchanged. *)
Abbreviation SaveOutcome := (option string).

(** The outcomes one operation meets, in the order it asks for them. *)
Record Env : Type := mkEnv {
  e_save : SaveOutcome;
  e_firewall : Outcome;
  e_caddy : Outcome;
  e_rb_caddy : Outcome;
  e_rb_firewall : Outcome;
  e_rb_save : SaveOutcome;
}.

Definition set_state (st : ListenerState) (w : World) : World :=
  mkWorld st (w_recovering w) (w_disk w) (w_caddy w) (w_firewall w).
Definition set_recovering (b : bool) (w : World) : World :=
  mkWorld (w_state w) b (w_disk w) (w_caddy w) (w_firewall w).

Abbreviation wop := (stm World string).

Definition save (o : SaveOutcome) (st : ListenerState) : wop unit := fun w =>
  match o with
  | None => (mkWorld (w_state w) (w_recovering w) (Some st) (w_caddy w) (w_firewall w), Ok tt)
  | Some e => (w, Err e)
  end.

Definition apply_caddy (o : Outcome) (p : ListenerPorts) : wop unit := fun w =>
  let w' := mkWorld (w_state w) (w_recovering w) (w_disk w) p (w_firewall w) in
  match o with
  | Done => (w', Ok tt)
  | Failed applied e => (if applied then w' else w, Err e)
  end.

Definition set_webui_ports (o : Outcome) (p : ListenerPorts) : wop unit := fun w =>
  let w' := mkWorld (w_state w) (w_recovering w) (w_disk w) (w_caddy w) p in
  match o with
  | Done => (w', Ok tt)
  | Failed applied e => (if applied then w' else w, Err e)
  end.

(** ** Operations *)

(** [WebuiService::new] on a journal file or the NixOS default ports. *)
Definition load (defaults : ListenerPorts) (disk : option ListenerState)
    : result ListenerState string :=
  match disk with
  | Some st =>
      _ <-? ports_validate (confirmed st) ;;
      _ <-? (match pending st with Some p => ports_validate (pd_ports p) | None => Ok tt end) ;;
      Ok st
  | None =>
      _ <-? ports_validate defaults ;;
      Ok (mkListenerState defaults None None)
  end.

Definition from_state (st : ListenerState) : ListenerState * bool :=
  (mkListenerState (confirmed st) None (last_error st), true).

Definition rollback_locked (e : Env) : wop unit :=
  m_modify (set_recovering true) ;;;
  (w <~ m_get ;;
   apply_caddy (e_rb_caddy e) (confirmed (w_state w)) ;;;
   set_webui_ports (e_rb_firewall e) (confirmed (w_state w)) ;;;
   (let restored := mkListenerState (confirmed (w_state w)) None (last_error (w_state w)) in
    w1 <~ m_get ;;
    (match w_disk w1 with
     | Some _ => save (e_rb_save e) restored
     | None => m_ret tt
     end) ;;;
    m_modify (set_state restored) ;;;
    m_modify (set_recovering false))).

Definition update (now : Z) (txn : string) (e : Env) (ports : ListenerPorts) : wop ListenerState :=
  m_lift (ports_validate ports) ;;;
  (w <~ m_get ;;
   if w_recovering w then m_throw "WebUI listener startup recovery has not completed"
   else match pending (w_state w) with
   | Some _ => m_throw "Confirm or roll back the pending WebUI port change first"
   | None =>
       if bool_decide (ports = confirmed (w_state w)) then m_ret (w_state w)
       else
         let st := mkListenerState (confirmed (w_state w))
                     (Some (mkPending txn ports (u64_add now TIMEOUT))) None in
         m_modify (set_state st) ;;;
         fun w1 =>
           match save (e_save e) st w1 with
           | (w2, Err err) =>
               (set_state (mkListenerState (confirmed st) None None) w2, Err err)
           | (w2, Ok _) =>
               match m_bind (set_webui_ports (e_firewall e) ports)
                       (fun _ => apply_caddy (e_caddy e) ports) w2 with
               | (w3, Ok _) => (w3, Ok (w_state w3))
               | (w3, Err err) =>
                   let w4 := set_state (mkListenerState (confirmed (w_state w3))
                               (pending (w_state w3)) (Some err)) w3 in
                   match rollback_locked e w4 with
                   | (w5, Err rb) => (w5, Err (err +:+ "; rollback failed: " +:+ rb))
                   | (w5, Ok _) => (w5, Err err)
                   end
               end
           end
   end).

(** [health]: the probe of [https://127.0.0.1:<new port>/health] answered "ok";
    [now2] is the clock after the probe. *)
Definition confirm (now now2 : Z) (health : option string) (sv : SaveOutcome) (id : string)
    : wop ListenerState :=
  w <~ m_get ;;
  if w_recovering w then m_throw "WebUI listeners are being recovered; cannot confirm"
  else match pending (w_state w) with
  | None => m_throw "No pending WebUI port change"
  | Some p =>
      if negb (String.eqb (txn_id p) id) || (deadline p <=? now)
      then m_throw "Unknown or expired WebUI port transaction"
      else match health with
      | Some e => m_throw e
      | None =>
          if deadline p <=? now2
          then m_throw "WebUI port transaction expired during health check"
          else
            let st := mkListenerState (pd_ports p) None None in
            save sv st ;;;
            m_modify (set_state st) ;;;
            m_ret st
      end
  end.

Definition rollback (e : Env) : wop ListenerState :=
  rollback_locked e ;;;
  (w <~ m_get ;; m_ret (w_state w)).

Definition tick (now : Z) (e : Env) : wop unit := fun w =>
  if w_recovering w || (match pending (w_state w) with
                        | Some p => deadline p <=? now
                        | None => false
                        end)
  then match rollback_locked e w with
       | (w', Err err) =>
           (set_state (mkListenerState (confirmed (w_state w')) (pending (w_state w'))
              (Some ("Rollback failed; retrying: " +:+ err))) w', Err err)
       | (w', Ok _) => (w', Ok tt)
       end
  else (w, Ok tt).

(** The engine restarts, possibly with a reboot: the service is rebuilt from the
    journal, and Caddy and the firewall come up with whatever ports their own
    configuration has. *)
Definition restart (defaults caddy firewall : ListenerPorts) (w : World) : result World string :=
  st <-? load defaults (w_disk w) ;;
  let '(st', rec) := from_state st in
  Ok (mkWorld st' rec (w_disk w) caddy firewall).

(** ** Executions *)

Inductive Event : Type :=
| EvUpdate (now : Z) (txn : string) (e : Env) (ports : ListenerPorts)
| EvConfirm (now now2 : Z) (health : option string) (sv : SaveOutcome) (id : string)
| EvRollback (e : Env)
| EvTick (now : Z) (e : Env)
| EvRestart (caddy firewall : ListenerPorts).

Section webui.
Context (defaults : ListenerPorts).

Definition run_event (ev : Event) (w : World) : World :=
  match ev with
  | EvUpdate now txn e ports => fst (update now txn e ports w)
  | EvConfirm now now2 health sv id => fst (confirm now now2 health sv id w)
  | EvRollback e => fst (rollback e w)
  | EvTick now e => fst (tick now e w)
  | EvRestart caddy firewall => match restart defaults caddy firewall w with
                                | Ok w' => w'
                                | Err _ => w
                                end
  end.

(** A fresh installation: no journal, the default ports, recovery still to
    run. *)
Definition initial (w : World) : Prop :=
  ports_validate defaults = Ok tt /\ w_state w = mkListenerState defaults None None /\
  w_recovering w = true /\ w_disk w = None.

Definition webui_step (w w' : World) : Prop := exists ev, w' = run_event ev w.

Definition webui_reachable (w : World) : Prop := exists w0, initial w0 /\ rtc webui_step w0 w.

(** The ports that should be live. *)
Definition live_ports (st : ListenerState) : ListenerPorts :=
  match pending st with Some p => pd_ports p | None => confirmed st end.

Definition pending_valid (st : ListenerState) : Prop :=
  match pending st with Some p => ports_validate (pd_ports p) = Ok tt | None => True end.

(** What holds in every state, also while recovering: ports are valid and the
    journal agrees with the memory on the confirmed ports. *)
Definition journal_ok (w : World) : Prop :=
  ports_validate (confirmed (w_state w)) = Ok tt /\ pending_valid (w_state w) /\
  match w_disk w with
  | Some d => confirmed d = confirmed (w_state w) /\ pending_valid d
  | None => confirmed (w_state w) = defaults
  end.

Definition live_ok (w : World) : Prop :=
  w_recovering w = false -> w_caddy w = live_ports (w_state w) /\ w_firewall w = live_ports (w_state w).

(** Rolling back restores the confirmed ports, or leaves the service recovering
    with its state and journal as they were. *)
Lemma rollback_locked_spec e w :
  journal_ok w ->
  let '(w', r) := rollback_locked e w in
  journal_ok w' /\ confirmed (w_state w') = confirmed (w_state w) /\
  match r with
  | Ok _ => w_recovering w' = false /\ pending (w_state w') = None /\
            w_caddy w' = confirmed (w_state w) /\ w_firewall w' = confirmed (w_state w)
  | Err _ => w_recovering w' = true /\ w_state w' = w_state w
  end.
Proof.
  destruct w as [[c p le] rec disk ca fw], e as [? ? ? rc rf rs].
  unfold rollback_locked, m_bind, m_modify, m_get, apply_caddy, set_webui_ports, save, journal_ok,
    set_state, set_recovering, m_ret; cbn.
  intros (Hc & Hp & Hd).
  destruct rc as [|[] ?]; cbn; [|done..]. destruct rf as [|[] ?]; cbn; [|done..].
  destruct disk as [d|]; cbn; [|done]. destruct rs; cbn; done.
Qed.

#[local] Arguments rollback_locked : simpl never.

Lemma update_journal now txn e ports w :
  journal_ok w -> live_ok w ->
  journal_ok (fst (update now txn e ports w)) /\ live_ok (fst (update now txn e ports w)) /\
  confirmed (w_state (fst (update now txn e ports w))) = confirmed (w_state w).
Proof.
  intros Hj Hl. unfold update, m_lift, m_bind, m_get, m_throw, m_ret, m_modify.
  destruct (ports_validate ports) as [[]|] eqn:Hv; [|done].
  destruct (w_recovering w) eqn:Hrec; [done|]. destruct (Hl Hrec) as [Hca Hfw].
  destruct (pending (w_state w)) as [p|] eqn:Hp; [done|].
  destruct (bool_decide _); [done|]. destruct Hj as (Hc & _ & Hd).
  unfold live_ports in *. rewrite Hp in *. unfold save. destruct (e_save e); cbn.
  { split_and!; [split_and!|..]; done. }
  unfold set_webui_ports, apply_caddy.
  destruct (e_firewall e) as [|[] ef]; cbn;
    [destruct (e_caddy e) as [|[] ec]; cbn; [split_and!; [split_and!|..]; done|..]|..].
  all: match goal with |- context [rollback_locked ?e1 ?w1] =>
    pose proof (rollback_locked_spec e1 w1) as Hr; destruct (rollback_locked e1 w1) as [w5 [[]|err]]
    end.
  all: (destruct Hr as (Hj5 & Hc5 & Hrest); [split_and!; done|]); cbn in *;
    unfold live_ok, live_ports; (split_and!; [done| |done]).
  all: try (intros Hf; destruct Hrest; congruence).
  all: intros _; destruct Hrest as (_ & -> & -> & ->); by rewrite Hc5.
Qed.

(** When a confirmation changes the ports. *)
Definition confirms (now now2 : Z) (health : option string) (sv : SaveOutcome) (id : string)
    (w : World) (p : PendingListeners) : Prop :=
  pending (w_state w) = Some p /\ w_recovering w = false /\ txn_id p = id /\
  now < deadline p /\ now2 < deadline p /\ health = None /\ sv = None.

Lemma confirm_spec now now2 health sv id w :
  let w' := fst (confirm now now2 health sv id w) in
  (w' = w /\ forall p, ~ confirms now now2 health sv id w p) \/
  exists p, confirms now now2 health sv id w p /\
    w' = mkWorld (mkListenerState (pd_ports p) None None) false
           (Some (mkListenerState (pd_ports p) None None)) (w_caddy w) (w_firewall w).
Proof.
  unfold confirm, m_bind, m_get, m_throw, m_ret, m_modify, save, confirms. cbn zeta.
  destruct (w_recovering w) eqn:Hrec; [left; naive_solver|].
  destruct (pending (w_state w)) as [p|]; [|left; naive_solver].
  destruct (negb _ || _) eqn:E1.
  { left. split; [done|]. intros p' ([= <-] & _ & <- & Hlt & _).
    rewrite String.eqb_refl in E1. bool_hyps. cbn in E1. bool_hyps. lia. }
  bool_hyps. destruct health; [left; naive_solver|].
  destruct (Z.leb_spec (deadline p) now2); [left; split; [done|]; intros ? ([= <-] & ?); lia|].
  destruct sv; [left; naive_solver|]. right. exists p. destruct w; cbn in *. by subst.
Qed.

Lemma run_event_ok ev w :
  journal_ok w -> live_ok w -> journal_ok (run_event ev w) /\ live_ok (run_event ev w).
Proof.
  intros Hj Hl. destruct ev as [now txn e ports|now now2 health sv id|e|now e|ca fw]; cbn [run_event].
  - destruct (update_journal now txn e ports w Hj Hl) as (? & ? & _). done.
  - destruct (confirm_spec now now2 health sv id w) as [[-> _]|(p & Hcf & ->)]; [done|].
    destruct Hcf as (Hp & Hrec & _). destruct (Hl Hrec) as [Hca Hfw], Hj as (_ & Hpv & _).
    unfold live_ports, pending_valid in *. rewrite Hp in *. repeat split; done.
  - pose proof (rollback_locked_spec e w Hj) as Hr. unfold rollback, m_bind, m_get, m_ret.
    destruct (rollback_locked e w) as [w' [[]|err]]; cbn; destruct Hr as (Hj' & Hc & Hr);
      (split; [done|]); intros Hrec; [|destruct Hr; congruence].
    destruct Hr as (_ & Hp & -> & ->). unfold live_ports. by rewrite Hp, Hc.
  - unfold tick. destruct (_ || _); [|done].
    pose proof (rollback_locked_spec e w Hj) as Hr.
    destruct (rollback_locked e w) as [w' [[]|err]]; cbn; destruct Hr as (Hj' & Hc & Hr).
    + split; [done|]. intros Hrec. destruct Hr as (_ & Hp & -> & ->).
      unfold live_ports. by rewrite Hp, Hc.
    + split; [exact Hj'|]. intros Hrec. cbn in Hrec. destruct Hr; congruence.
  - unfold restart, load. destruct Hj as (Hc & Hp & Hd). destruct (w_disk w) as [d|] eqn:Ed; cbn.
    + destruct Hd as [Hdc Hdp]. rewrite Hdc, Hc. pose proof Hdp as Hdp'.
      unfold pending_valid in Hdp'.
      destruct (pending d); cbn; [rewrite Hdp'|]; cbn; (split; [|done]);
        unfold journal_ok; cbn; rewrite Hdc; done.
    + rewrite Hd in Hc. rewrite Hc. cbn. split; [|done]. split_and!; done.
Qed.

Lemma webui_reachable_inv w : webui_reachable w -> journal_ok w /\ live_ok w.
Proof.
  intros (w0 & (Hv & Hst & Hrec & Hd) & Hr).
  assert (journal_ok w0 /\ live_ok w0) as H0.
  { unfold journal_ok, live_ok, pending_valid. rewrite Hst, Hrec, Hd. done. }
  clear Hv Hst Hrec Hd. induction Hr as [|w1 w2 w3 [ev ->] _ IH]; [done|].
  apply IH. destruct H0. by apply run_event_ok.
Qed.

(** In every state reachable by any sequence of updates, confirmations,
    rollbacks, ticks and restarts, with any call to Caddy, the firewall or the
    journal failing: outside recovery Caddy listens on, and the firewall
    admits, exactly the ports of the pending change or else the confirmed ones;
    the confirmed ports are always valid; and a restart at any moment succeeds
    and comes back with the same confirmed ports, no pending change, and
    recovery due. *)
Theorem webui_listeners_consistent w caddy firewall :
  webui_reachable w ->
  (w_recovering w = false ->
     w_caddy w = live_ports (w_state w) /\ w_firewall w = live_ports (w_state w)) /\
  ports_validate (confirmed (w_state w)) = Ok tt /\
  exists w', restart defaults caddy firewall w = Ok w' /\
    confirmed (w_state w') = confirmed (w_state w) /\ pending (w_state w') = None /\
    w_recovering w' = true.
Proof.
  intros (Hj & Hl)%webui_reachable_inv. split; [done|]. destruct Hj as (Hc & Hp & Hd).
  split; [done|]. unfold restart, load. destruct (w_disk w) as [d|]; cbn.
  - destruct Hd as [Hdc Hdp]. rewrite Hdc, Hc. unfold pending_valid in Hdp.
    destruct (pending d); cbn; [rewrite Hdp; cbn|]; eexists; done.
  - rewrite Hd in Hc. rewrite Hc. cbn. eexists. done.
Qed.

(** The confirmed ports change only by a confirmation that names the
    pending transaction, arrives and finishes its health probe before the
    deadline, and reaches the journal; and a tick at or after the deadline, or
    during recovery, with Caddy, the firewall and the journal working, brings
    Caddy and the firewall back to the confirmed ports and ends both the
    transaction and the recovery. *)
Theorem webui_change_needs_confirmation w ev :
  webui_reachable w ->
  (confirmed (w_state (run_event ev w)) <> confirmed (w_state w) ->
     exists now now2 health sv id p,
       ev = EvConfirm now now2 health sv id /\ confirms now now2 health sv id w p /\
       confirmed (w_state (run_event ev w)) = pd_ports p) /\
  (forall now e, ev = EvTick now e ->
     e_rb_caddy e = Done -> e_rb_firewall e = Done -> e_rb_save e = None ->
     (w_recovering w = true \/ exists p, pending (w_state w) = Some p /\ deadline p <= now) ->
     w_caddy (run_event ev w) = confirmed (w_state w) /\
     w_firewall (run_event ev w) = confirmed (w_state w) /\
     pending (w_state (run_event ev w)) = None /\ w_recovering (run_event ev w) = false).
Proof.
  intros (Hj & Hl)%webui_reachable_inv. split.
  - intros Hne. destruct ev as [now txn e ports|now now2 health sv id|e|now e|ca fw];
      cbn [run_event] in *.
    + destruct Hne. by apply update_journal.
    + destruct (confirm_spec now now2 health sv id w) as [[E _]|(p & Hcf & E)];
        rewrite E in *; [done|]. eauto 10.
    + pose proof (rollback_locked_spec e w Hj) as Hr. unfold rollback, m_bind in Hne.
      destruct (rollback_locked e w) as [w' [[]|err]]; cbn in *; naive_solver.
    + unfold tick in Hne. destruct (_ || _); [|done].
      pose proof (rollback_locked_spec e w Hj) as Hr.
      destruct (rollback_locked e w) as [w' [[]|err]]; cbn in *; naive_solver.
    + unfold restart, load in Hne. destruct Hj as (Hc & _ & Hd).
      destruct (w_disk w) as [d|]; cbn in *.
      * destruct Hd as [Hdc Hdp]. rewrite Hdc, Hc in Hne. unfold pending_valid in Hdp.
        destruct (pending d); cbn in Hne; [rewrite Hdp in Hne|]; cbn in Hne; congruence.
      * rewrite Hd in Hc. rewrite Hc in Hne. cbn in Hne. congruence.
  - intros now e -> Hca Hfw Hsv Hdue. cbn [run_event]. unfold tick.
    replace (w_recovering w || _) with true; cycle 1.
    { symmetry. destruct Hdue as [->|(p & -> & Hp)]; [done|].
      destruct (w_recovering w); [done|]. cbn. lia. }
    pose proof (rollback_locked_spec e w Hj) as Hr.
    destruct (rollback_locked e w) as [w' [[]|err]] eqn:E; cbn; [naive_solver|].
    exfalso. revert E. unfold rollback_locked, m_bind, m_modify, m_get, apply_caddy,
      set_webui_ports, save, m_ret. rewrite Hca, Hfw, Hsv. cbn. by destruct (w_disk w).
Qed.
End webui.

(** ** A concrete run *)

Definition ports0 : ListenerPorts := mkPorts 443 (Some 80).
Definition ports1 : ListenerPorts := mkPorts 8443 None.
Definition env_ok : Env := mkEnv None Done Done Done Done None.

(** After start-up recovery an administrator moves the WebUI to port 8443 and
    does not confirm. *)
Definition unconfirmed : World :=
  run_event ports0 (EvUpdate 100 "txn" env_ok ports1)
    (run_event ports0 (EvTick 0 env_ok)
       (mkWorld (mkListenerState ports0 None None) true None ports0 ports0)).

Lemma unconfirmed_reachable : webui_reachable ports0 unconfirmed.
Proof.
  exists (mkWorld (mkListenerState ports0 None None) true None ports0 ports0).
  split; [by vm_compute|].
  eapply rtc_l; [by exists (EvTick 0 env_ok)|]. eapply rtc_l; [by exists (EvUpdate 100 "txn" env_ok ports1)|].
  apply rtc_refl.
Qed.

Lemma webui_listeners_consistent_witness :
  w_caddy unconfirmed = ports1 /\ w_firewall unconfirmed = ports1.
Proof.
  exact (proj1 (webui_listeners_consistent ports0 unconfirmed ports0 ports0 unconfirmed_reachable)
    eq_refl).
Defined.

Lemma webui_change_needs_confirmation_witness :
  let w := run_event ports0 (EvTick 130 env_ok) unconfirmed in
  w_caddy w = ports0 /\ w_firewall w = ports0 /\ pending (w_state w) = None /\
  w_recovering w = false.
Proof.
  apply (proj2 (webui_change_needs_confirmation ports0 unconfirmed (EvTick 130 env_ok)
    unconfirmed_reachable) 130 env_ok eq_refl eq_refl eq_refl eq_refl).
  right. eexists. split; [reflexivity|]. vm_compute. discriminate.
Defined.
