(* ===== verification/Protocol.v ===== *)
(** * Service protocols (nasty-system/src/protocol.rs)

    The protocols an administrator switches on and off, the persisted
    preferences in protocols.json, and the systemd units behind them.  The
    world is the preference file and the set of active units; the outcomes of
    systemctl, of saving the file and of preparing a protocol are arguments.
    Loading kernel modules, the NFS-over-RDMA listener and rebinding discovery
    daemons only log their failures and change neither; they are left out. *)

From Stdlib Require Import ZArith Lia Ascii String.
From stdpp Require Import base list gmap strings.
From S2P Require Import Prelude.

Inductive Protocol : Type :=
| Nfs | Smb | Iscsi | Nvmeof | Nut | Ssh | Avahi | Smart | Watchdog | RestServer.

#[export] Instance Protocol_eq_dec : EqDecision Protocol.
Proof. solve_decision. Defined.

Definition Protocol_ALL : list Protocol :=
  [Nfs; Smb; Iscsi; Nvmeof; Nut; Ssh; Avahi; Smart; Watchdog; RestServer].

#[export] Instance Protocol_countable : Countable Protocol.
Proof.
  refine (inj_countable'
    (fun p => match p with Nfs => 0 | Smb => 1 | Iscsi => 2 | Nvmeof => 3 | Nut => 4 | Ssh => 5
              | Avahi => 6 | Smart => 7 | Watchdog => 8 | RestServer => 9 end)%nat
    (fun n => default Nfs (Protocol_ALL !! n)) _).
  by intros [].
Defined.

Definition is_system_service (p : Protocol) : bool :=
  match p with
  | Nut | Ssh | Avahi | Smart | Watchdog | RestServer => true
  | Nfs | Smb | Iscsi | Nvmeof => false
  end.

Definition protocol_name (p : Protocol) : string :=
  match p with
  | Nfs => "nfs" | Smb => "smb" | Iscsi => "iscsi" | Nvmeof => "nvmeof" | Nut => "nut"
  | Ssh => "ssh" | Avahi => "avahi" | Smart => "smart" | Watchdog => "watchdog"
  | RestServer => "rest-server"
  end.

Definition display_name (p : Protocol) : string :=
  match p with
  | Nfs => "NFS" | Smb => "SMB" | Iscsi => "iSCSI" | Nvmeof => "NVMe-oF" | Nut => "UPS (NUT)"
  | Ssh => "SSH" | Avahi => "mDNS (Avahi)" | Smart => "SMART" | Watchdog => "Watchdog"
  | RestServer => "Backup Server"
  end.

Definition from_name (name : string) : option Protocol :=
  if String.eqb name "nfs" then Some Nfs
  else if String.eqb name "smb" then Some Smb
  else if String.eqb name "iscsi" then Some Iscsi
  else if String.eqb name "nvmeof" then Some Nvmeof
  else if String.eqb name "nut" then Some Nut
  else if String.eqb name "ssh" then Some Ssh
  else if String.eqb name "avahi" then Some Avahi
  else if String.eqb name "smart" then Some Smart
  else if String.eqb name "watchdog" then Some Watchdog
  else if String.eqb name "rest-server" then Some RestServer
  else None.

Lemma from_name_name p : from_name (protocol_name p) = Some p.
Proof. by destruct p. Qed.

Lemma from_name_Some n p : from_name n = Some p -> n = protocol_name p.
Proof. unfold from_name. intros H. break_in H; bool_hyps; by subst. Qed.

#[export] Instance protocol_name_inj : Inj (=) (=) protocol_name.
Proof. intros p q H. apply (f_equal from_name) in H. rewrite !from_name_name in H. congruence. Qed.

(** ** nut.rs: the units of the two modes *)

Inductive NutMode : Type := Local | Remote.

Definition ALL_NUT_SERVICES : list string :=
  ["nut-driver.service"; "nut-server.service"; "nut-monitor.service"].
Definition services_for_mode (m : NutMode) : list string :=
  match m with Local => ALL_NUT_SERVICES | Remote => ["nut-monitor.service"] end.
Definition status_unit (m : NutMode) : string :=
  match m with Local => "nut-server.service" | Remote => "nut-monitor.service" end.

Definition services (nut : NutMode) (p : Protocol) : list string :=
  match p with
  | Nfs => ["nfs-server.service"]
  | Smb => ["samba-smbd.service"; "samba-nmbd.service"; "samba-wsdd.service"]
  | Iscsi => ["target.service"]
  | Nvmeof => []
  | Nut => services_for_mode nut
  | Ssh => ["sshd.service"]
  | Avahi => ["avahi-daemon.service"]
  | Smart => ["smartd.service"]
  | Watchdog => ["nasty-watchdog.service"]
  | RestServer => ["nasty-rest-server.service"]
  end.

(** ** Preferences *)

Record ProtocolState : Type := mkProtocolState {
  ps_nfs : bool; ps_smb : bool; ps_iscsi : bool; ps_nvmeof : bool; ps_nut : bool;
  ps_ssh : bool; ps_avahi : bool; ps_smart : bool; ps_watchdog : bool; ps_rest_server : bool;
}.

Definition ProtocolState_default : ProtocolState :=
  mkProtocolState false false false false false true true true false false.

Definition state_get (s : ProtocolState) (p : Protocol) : bool :=
  match p with
  | Nfs => ps_nfs s | Smb => ps_smb s | Iscsi => ps_iscsi s | Nvmeof => ps_nvmeof s
  | Nut => ps_nut s | Ssh => ps_ssh s | Avahi => ps_avahi s | Smart => ps_smart s
  | Watchdog => ps_watchdog s | RestServer => ps_rest_server s
  end.

Definition state_set (p : Protocol) (b : bool) (s : ProtocolState) : ProtocolState :=
  let '(mkProtocolState a1 a2 a3 a4 a5 a6 a7 a8 a9 a10) := s in
  match p with
  | Nfs => mkProtocolState b a2 a3 a4 a5 a6 a7 a8 a9 a10
  | Smb => mkProtocolState a1 b a3 a4 a5 a6 a7 a8 a9 a10
  | Iscsi => mkProtocolState a1 a2 b a4 a5 a6 a7 a8 a9 a10
  | Nvmeof => mkProtocolState a1 a2 a3 b a5 a6 a7 a8 a9 a10
  | Nut => mkProtocolState a1 a2 a3 a4 b a6 a7 a8 a9 a10
  | Ssh => mkProtocolState a1 a2 a3 a4 a5 b a7 a8 a9 a10
  | Avahi => mkProtocolState a1 a2 a3 a4 a5 a6 b a8 a9 a10
  | Smart => mkProtocolState a1 a2 a3 a4 a5 a6 a7 b a9 a10
  | Watchdog => mkProtocolState a1 a2 a3 a4 a5 a6 a7 a8 b a10
  | RestServer => mkProtocolState a1 a2 a3 a4 a5 a6 a7 a8 a9 b
  end.

Lemma state_get_set s p q b :
  state_get (state_set p b s) q = if decide (p = q) then b else state_get s q.
Proof. destruct s, p, q; reflexivity. Qed.

#[global] Arguments state_get : simpl never.
#[global] Arguments state_set : simpl never.

(** ** The world of the service *)

Inductive StateFile : Type := FileAbsent | FileCorrupt | FileState (s : ProtocolState).

Record PWorld : Type := mkPWorld {
  pw_file : StateFile;
  pw_units : gset string;
}.

(** What one operation meets. *)
Record PEnv : Type := mkPEnv {
  pe_vm : bool;                                  (** [is_virtual_machine] *)
  pe_save_init : option string;                  (** saving the first state *)
  pe_save : Protocol -> option string;           (** saving the new preference *)
  pe_save_back : Protocol -> option string;      (** saving it back on failure *)
  pe_dc : bool;                                  (** [DcService::load_config().is_some()] *)
  pe_prepare : Protocol -> option string;        (** [prepare_protocol] *)
  pe_start : string -> Outcome;                  (** [systemctl start/restart] *)
  pe_stop : string -> Outcome;                   (** [systemctl stop] *)
  pe_verify : option string;                     (** [watchdog::verify_running] *)
  pe_watchdog_stop : Outcome;                    (** [watchdog::stop_and_verify] *)
  pe_nut : NutMode;                              (** [nut::mode_sync] *)
  pe_nvmet : bool;                               (** the nvmet configfs exists *)
}.

Abbreviation pop := (stm PWorld string).

Definition save_state (o : option string) (st : ProtocolState) : pop unit := fun w =>
  match o with
  | None => (mkPWorld (FileState st) (pw_units w), Ok tt)
  | Some e => (w, Err ("failed to write protocol state: " +:+ e))
  end.

Definition load_state (env : PEnv) : pop ProtocolState := fun w =>
  match pw_file w with
  | FileState s => (w, Ok s)
  | FileCorrupt => (w, Ok ProtocolState_default)
  | FileAbsent =>
      let st := if pe_vm env then state_set Smart false ProtocolState_default
                else ProtocolState_default in
      (fst (save_state (pe_save_init env) st w), Ok st)
  end.

Definition set_units (f : gset string -> gset string) (w : PWorld) : PWorld :=
  mkPWorld (pw_file w) (f (pw_units w)).

(** [systemctl start svc] and [systemctl stop svc]. *)
Definition systemctl_start (o : Outcome) (svc : string) : pop unit := fun w =>
  match o with
  | Done => (set_units (fun u => {[ svc ]} ∪ u) w, Ok tt)
  | Failed b e => (if b then set_units (fun u => {[ svc ]} ∪ u) w else w, Err e)
  end.
Definition systemctl_stop (o : Outcome) (svc : string) : pop unit := fun w =>
  match o with
  | Done => (set_units (fun u => u ∖ {[ svc ]}) w, Ok tt)
  | Failed b e => (if b then set_units (fun u => u ∖ {[ svc ]}) w else w, Err e)
  end.

Definition WATCHDOG_SERVICE : string := "nasty-watchdog.service".

(** [stop_and_verify] succeeds only when the unit is seen stopped. *)
Definition stop_and_verify (env : PEnv) : pop unit :=
  systemctl_stop (pe_watchdog_stop env) WATCHDOG_SERVICE.

Definition is_protocol_running (env : PEnv) (w : PWorld) (p : Protocol) : bool :=
  let active svc := bool_decide (svc ∈ pw_units w) in
  match p with
  | Nfs => active "nfs-server.service"
  | Smb => active "samba-smbd.service"
  | Iscsi => active "target.service"
  | Nvmeof => pe_nvmet env
  | Nut => active (status_unit (pe_nut env))
  | Ssh => active "sshd.service"
  | Avahi => active "avahi-daemon.service"
  | Smart => active "smartd.service"
  | Watchdog => active WATCHDOG_SERVICE
  | RestServer => active "nasty-rest-server.service"
  end.

Record ProtocolStatus : Type := mkProtocolStatus {
  st_name : string; st_display_name : string; st_enabled : bool; st_running : bool;
  st_system_service : bool;
}.

Definition protocol_status (p : Protocol) (enabled running : bool) : ProtocolStatus :=
  mkProtocolStatus (protocol_name p) (display_name p) enabled running (is_system_service p).

(** ** Operations *)

(** The start loop of [enable] and [restore_excluding]: the services started,
    and the error of the first that failed. *)
Fixpoint start_services (env : PEnv) (p : Protocol) (started svcs : list string) (w : PWorld)
    : PWorld * list string * option string :=
  match svcs with
  | [] => (w, started, None)
  | svc :: rest =>
      let '(w1, r) := systemctl_start (pe_start env svc) svc w in
      let r := match r with
               | Ok _ => if decide (p = Watchdog) then pe_verify env else None
               | Err e => Some e
               end in
      match r with
      | Some e => (w1, started, Some e)
      | None => start_services env p (started ++ [svc]) rest w1
      end
  end.

Definition stop_services (env : PEnv) (svcs : list string) (w : PWorld) : PWorld :=
  foldl (fun w svc => fst (systemctl_stop (pe_stop env svc) svc w)) w svcs.

(** Turn the preference off again after a failure: stop the watchdog when it
    is the protocol, and save; the texts of both failures join the error. *)
Definition undo_enable (env : PEnv) (p : Protocol) (st : ProtocolState) (failure : string)
    (w : PWorld) : PWorld * string :=
  let '(w1, f1) :=
    if decide (p = Watchdog) then
      match stop_and_verify env w with
      | (w', Err e) => (w', failure +:+ "; failed to stop watchdog during rollback: " +:+ e)
      | (w', Ok _) => (w', failure)
      end
    else (w, failure) in
  match save_state (pe_save_back env p) (state_set p false st) w1 with
  | (w2, Err e) => (w2, f1 +:+ "; state rollback failed: " +:+ e)
  | (w2, Ok _) => (w2, f1)
  end.

Definition DC_HOSTED : string :=
  "this box hosts an Active Directory domain — its domain controller serves SMB (shares included); demote it on the Settings → Directory panel before enabling standalone SMB".

Definition protocol_enable (env : PEnv) (name : string) : pop ProtocolStatus :=
  p <~ m_lift (ok_or (from_name name) ("unknown protocol: " +:+ name)) ;;
  if bool_decide (p = Smb) && pe_dc env then m_throw DC_HOSTED else
  st0 <~ load_state env ;;
  let st := state_set p true st0 in
  save_state (pe_save env p) st ;;;
  fun w =>
    match pe_prepare env p with
    | Some e =>
        let '(w1, failure) :=
          undo_enable env p st ("failed to prepare " +:+ display_name p +:+ ": " +:+ e) w in
        (w1, Err failure)
    | None =>
        let '(w1, started, failed) := start_services env p [] (services (pe_nut env) p) w in
        match failed with
        | Some e =>
            let '(w2, failure) :=
              undo_enable env p st ("Failed to start " +:+ display_name p +:+ ": " +:+ e)
                (stop_services env started w1) in
            (w2, Err failure)
        | None => (w1, Ok (protocol_status p true (is_protocol_running env w1 p)))
        end
    end.

Definition protocol_disable (env : PEnv) (name : string) : pop ProtocolStatus :=
  p <~ m_lift (ok_or (from_name name) ("unknown protocol: " +:+ name)) ;;
  st0 <~ load_state env ;;
  save_state (pe_save env p) (state_set p false st0) ;;;
  fun w =>
    if decide (p = Watchdog) then
      match stop_and_verify env w with
      | (w1, Err e) => (w1, Err ("Watchdog is disabled in persistent state but could not be stopped: " +:+ e))
      | (w1, Ok _) => (w1, Ok (mkProtocolStatus (protocol_name p) (display_name p) false false true))
      end
    else
      let w1 := stop_services env (services (pe_nut env) p) w in
      (w1, Ok (protocol_status p false (is_protocol_running env w1 p))).

(** [quiesce]: stop in reverse order, the first failure ends it. *)
Fixpoint quiesce_services (env : PEnv) (svcs : list string) : pop unit :=
  match svcs with
  | [] => m_ret tt
  | svc :: rest => systemctl_stop (pe_stop env svc) svc ;;; quiesce_services env rest
  end.
Definition quiesce (env : PEnv) (p : Protocol) : pop unit :=
  quiesce_services env (rev (services (pe_nut env) p)).

Definition is_enabled (env : PEnv) (p : Protocol) (w : PWorld) : PWorld * bool :=
  match load_state env w with
  | (w', Ok st) => (w', state_get st p)
  | (w', Err _) => (w', false)
  end.

Definition protocol_list (env : PEnv) : pop (list ProtocolStatus) := fun w =>
  match load_state env w with
  | (w', Ok st) =>
      (w', Ok ((fun p => protocol_status p (state_get st p) (is_protocol_running env w' p))
               <$> Protocol_ALL))
  | (w', Err e) => (w', Err e)
  end.

(** One iteration of [restore_excluding]: the preferences so far, the protocols
    restored so far and the world. *)
Definition restore_one (env : PEnv) (excluded : gset Protocol) (p : Protocol)
    (acc : ProtocolState * gset Protocol * PWorld) : ProtocolState * gset Protocol * PWorld :=
  let '(st, restored, w) := acc in
  let enabled := state_get st p in
  if negb enabled || bool_decide (p ∈ excluded) then
    let w1 := if negb enabled && bool_decide (p = Smart)
              then stop_services env (services (pe_nut env) p) w else w in
    let w2 := if decide (p = Watchdog) then fst (stop_and_verify env w1) else w1 in
    (st, restored, w2)
  else
    let turn_off w :=
      let w1 := if decide (p = Watchdog) then fst (stop_and_verify env w) else w in
      let st1 := state_set p false st in
      (st1, restored, fst (save_state (pe_save env p) st1 w1)) in
    match pe_prepare env p with
    | Some _ =>
        (** here the save comes before the watchdog is stopped *)
        let st1 := state_set p false st in
        let w1 := fst (save_state (pe_save env p) st1 w) in
        (st1, restored, if decide (p = Watchdog) then fst (stop_and_verify env w1) else w1)
    | None =>
        let '(w1, _, failed) := start_services env p [] (services (pe_nut env) p) w in
        match failed with
        | Some _ => turn_off w1
        | None => (st, {[ p ]} ∪ restored, w1)
        end
    end.

Definition restore_excluding (env : PEnv) (excluded : gset Protocol) (w : PWorld)
    : PWorld * gset Protocol :=
  match load_state env w with
  | (w', Ok st) =>
      let '(_, restored, w'') :=
        foldl (fun acc p => restore_one env excluded p acc) (st, ∅, w') Protocol_ALL in
      (w'', restored)
  | (w', Err _) => (w', ∅)
  end.
