(* ===== verification/Firewall.v ===== *)
(** * The firewall (nasty-system/src/firewall.rs)

    Service rules with source and interface restrictions, custom rules,
    published app ports, rendering of the nftables batch, and the transaction
    that keeps the kernel, the memory and the two state files together.  The
    world is the configuration in memory, the batch live in the kernel and the
    two files; the outcomes of nft, of staging and renaming files and of
    reading the DHCP relay policy are arguments. *)

From Stdlib Require Import ZArith Lia Ascii String.
From stdpp Require Import base list gmap strings.
From S2P Require Import Prelude RustStr Text RustVec Net Webui Protocol.

(** ** Data *)

Inductive Transport : Type := Tcp | Udp.

#[export] Instance Transport_eq_dec : EqDecision Transport.
Proof. solve_decision. Defined.

Record PortSpec : Type := mkPortSpec {
  port : Z;
  port_to : option Z;
  transport : Transport;
  source : option string;
  iface : option string;
}.

#[export] Instance PortSpec_eq_dec : EqDecision PortSpec.
Proof. solve_decision. Defined.

Record FirewallRule : Type := mkFirewallRule {
  service : string;
  ports : list PortSpec;
  active : bool;
}.

(** [FirewallRestrictions]: service to allowed sources, service to allowed
    interfaces. *)
Record FirewallRestrictions : Type := mkRestrictions {
  r_services : gmap string (list string);
  r_interfaces : gmap string (list string);
}.
Definition restrictions_default : FirewallRestrictions := mkRestrictions ∅ ∅.

Record CustomRule : Type := mkCustomRule {
  cr_id : string;
  cr_label : string;
  cr_transport : Transport;
  cr_from : Z;
  cr_to : Z;
  cr_source : option string;
  cr_iface : option string;
  cr_enabled : bool;
}.

Record CustomRuleInput : Type := mkCustomRuleInput {
  in_label : string;
  in_transport : Transport;
  in_from : Z;
  in_to : Z;
  in_source : option string;
  in_iface : option string;
  in_enabled : bool;
}.

Record PublishedAppPort : Type := mkPublished {
  pub_app : string;
  host_port : Z;
  container_port : Z;
  pub_transport : string;
}.

#[export] Instance PublishedAppPort_eq_dec : EqDecision PublishedAppPort.
Proof. solve_decision. Defined.

Record FirewallConfig : Type := mkFirewallConfig {
  fc_rules : list FirewallRule;
  fc_restrictions : FirewallRestrictions;
  fc_custom : list CustomRule;
  fc_published : list PublishedAppPort;
}.

Definition config_default : FirewallConfig := mkFirewallConfig [] restrictions_default [] [].

Definition strip_iface_refs (removed : list string) (r : FirewallRestrictions)
    : FirewallRestrictions * bool :=
  if bool_decide (removed = []) || bool_decide (r_interfaces r = ∅) then (r, false)
  else
    let kept := retain (fun i => negb (one_of removed i)) <$> r_interfaces r in
    let changed := existsb (fun kv => negb (length (retain (fun i => negb (one_of removed i)) (snd kv))
                                             =? length (snd kv))%nat)
                     (map_to_list (r_interfaces r)) in
    (mkRestrictions (r_services r) (filter (fun kv => snd kv <> []) kept), changed).

(** ** Validation of rule input *)

Definition valid_source (s : string) : bool :=
  let '(addr, prefix) := match split_once "/" s with
                         | Some (a, p) => (a, Some p)
                         | None => (s, None)
                         end in
  match parse_ip_addr addr with
  | None => false
  | Some ip =>
      match prefix with
      | None => true
      | Some p => match parse_uint 255 p with
                  | Some bits => match ip with V4 _ => bits <=? 32 | V6 _ => bits <=? 128 end
                  | None => false
                  end
      end
  end.

Definition iface_char (c : ascii) : bool :=
  is_ascii_alphanumeric c || existsb (Ascii.eqb c) ["."; "_"; "-"; "@"]%char.

Definition valid_iface (s : string) : bool :=
  negb (String.eqb s "") && (String.length s <=? 15)%nat && forallb iface_char (to_bytes s).

(** [char::is_control] is U+0000-001F, U+007F and U+0080-009F; the last are the
    bytes C2 80 to C2 9F. *)
Fixpoint has_control (l : bytes) : bool :=
  match l with
  | [] => false
  | c :: l' =>
      (code c <? 32) || (code c =? 127) ||
      ((code c =? 194) && match l' with d :: _ => (128 <=? code d) && (code d <=? 159) | [] => false end)
      || has_control l'
  end.

Definition validate_custom_input (i : CustomRuleInput) : result unit string :=
  if in_from i =? 0 then Err "port must be ≥ 1"
  else if in_to i <? in_from i then Err "range start must be ≤ range end"
  else
    let label := trim (in_label i) in
    if String.eqb label "" then Err "label is required"
    else if (64 <? String.length label)%nat then Err "label must be ≤ 64 characters"
    else if has_control (to_bytes (in_label i)) then Err "label must not contain control characters"
    else
      _ <-? match in_source i with
            | Some src => if valid_source src then Ok tt
                          else Err ("invalid source (expected an IP or CIDR): " +:+ src)
            | None => Ok tt
            end ;;
      match in_iface i with
      | Some f => if valid_iface f then Ok tt else Err ("invalid interface name: " +:+ f)
      | None => Ok tt
      end.

(** The service whose ports meet the range, active or not. *)
Definition service_port_conflict (rules : list FirewallRule) (t : Transport) (from to : Z)
    : option string :=
  service <$> find_first (fun r => existsb (fun p =>
      bool_decide (transport p = t) && (port p <=? to) && (from <=? default (port p) (port_to p)))
    (ports r)) rules.

(** ** Ports of the services *)

Definition tcp (p : Z) : PortSpec := mkPortSpec p None Tcp None None.
Definition udp (p : Z) : PortSpec := mkPortSpec p None Udp None None.
Definition tcp_range (from to : Z) : PortSpec := mkPortSpec from (Some to) Tcp None None.

Definition ports_for_protocol (p : Protocol) : list PortSpec :=
  match p with
  | Nfs => [tcp 2049]
  | Smb => [tcp 445; tcp 139; udp 3702; tcp 5357]
  | Iscsi => [tcp 3260]
  | Nvmeof => [tcp 4420]
  | Nut => [tcp 3493]
  | Ssh => [tcp 22]
  | Avahi => [udp 5353]
  | Smart => []
  | Watchdog => []
  | RestServer => [tcp 8000]
  end.

Definition webui_ports (https : Z) (http : option Z) : list PortSpec :=
  tcp <$> (option_list http ++ [https]).

(** [ListenerPorts::ports] of webui.rs. *)
Definition listener_ports (p : ListenerPorts) : list PortSpec :=
  webui_ports (https_port p) (http_port p).

Definition rdma_ports : list PortSpec := [udp 4791; tcp 20049].

Definition dc_ports : list PortSpec :=
  flat_map (fun p => [tcp p; udp p]) [53; 88; 389; 464] ++
  (tcp <$> [135; 139; 445; 636; 3268; 3269]) ++ (udp <$> [137; 138]) ++ [tcp_range 49152 65535].

(** ** Restrictions *)

Definition with_restriction (p : PortSpec) (src ifc : option string) : PortSpec :=
  mkPortSpec (port p) (port_to p) (transport p) src ifc.

Definition apply_restrictions (ps : list PortSpec) (sources ifaces : list string) : list PortSpec :=
  if bool_decide (sources = []) && bool_decide (ifaces = []) then ps
  else flat_map (fun p =>
    if negb (bool_decide (sources = [])) && negb (bool_decide (ifaces = [])) then
      flat_map (fun src => (fun ifc => with_restriction p (Some src) (Some ifc)) <$> ifaces) sources
    else if negb (bool_decide (sources = [])) then
      (fun src => with_restriction p (Some src) None) <$> sources
    else (fun ifc => with_restriction p None (Some ifc)) <$> ifaces) ps.

(** [restrictions.services.get(service).cloned().unwrap_or_default()] and the
    same for interfaces. *)
Definition sources_of (r : FirewallRestrictions) (s : string) : list string :=
  default [] (r_services r !! s).
Definition ifaces_of (r : FirewallRestrictions) (s : string) : list string :=
  default [] (r_interfaces r !! s).

Definition restricted (r : FirewallRestrictions) (s : string) (ps : list PortSpec) : list PortSpec :=
  apply_restrictions ps (sources_of r s) (ifaces_of r s).

Definition is_service (s : string) (r : FirewallRule) : bool := String.eqb (service r) s.

Definition set_rule_ports (ps : list PortSpec) (r : FirewallRule) : FirewallRule :=
  mkFirewallRule (service r) ps (active r).
Definition set_active_flag (b : bool) (r : FirewallRule) : FirewallRule :=
  mkFirewallRule (service r) (ports r) b.

(** The rules after, and whether anything changed. *)
Definition replace_rule_ports (rules : list FirewallRule) (r : FirewallRestrictions) (s : string)
    (ps : list PortSpec) : list FirewallRule * bool :=
  let ps := restricted r s ps in
  match find_first (is_service s) rules with
  | Some rule =>
      if bool_decide (ports rule = ps) then (rules, false)
      else (default rules (update_first (is_service s) (set_rule_ports ps) rules), true)
  | None => (rules ++ [mkFirewallRule s ps false], true)
  end.

Definition transport_str (t : Transport) : string :=
  match t with Tcp => "tcp" | Udp => "udp" end.

Definition same_rule (r : CustomRule) (i : CustomRuleInput) : bool :=
  bool_decide (cr_transport r = in_transport i) && (cr_from r =? in_from i) &&
  (cr_to r =? in_to i) && bool_decide (cr_source r = in_source i) &&
  bool_decide (cr_iface r = in_iface i).

(** ** Rendering *)

Definition saddr_clause (src : string) : string :=
  let addr := default src (head (str_split "/" src)) in
  match parse_ip_addr addr with
  | Some (V6 _) => "ip6 saddr " +:+ src
  | _ => "ip saddr " +:+ src
  end.

Definition iface_clause (i : string) : string := "iifname " +:+ dq +:+ i +:+ dq.

Definition opt_clauses (ifc src : option string) : list string :=
  (iface_clause <$> option_list ifc) ++ (saddr_clause <$> option_list src).

Definition dport_range (proto : string) (lo hi : Z) : string :=
  proto +:+ " dport " +:+ fmt_dec lo +:+ "-" +:+ fmt_dec hi.
Definition dport_one (proto : string) (p : Z) : string := proto +:+ " dport " +:+ fmt_dec p.

Definition accept_line (conditions : list string) (comment : string) : string :=
  line ("        " +:+ str_join " " conditions +:+ " accept # " +:+ comment).

Definition render_port (svc : string) (p : PortSpec) : string :=
  let proto := transport_str (transport p) in
  accept_line (opt_clauses (iface p) (source p) ++
    [match port_to p with
     | Some hi => dport_range proto (port p) hi
     | None => dport_one proto (port p)
     end]) svc.

Definition render_service (r : FirewallRule) : string :=
  if active r then concat_str (render_port (service r) <$> ports r) else "".

Definition render_custom_input (r : CustomRule) : string :=
  if cr_enabled r then
    let proto := transport_str (cr_transport r) in
    accept_line (opt_clauses (cr_iface r) (cr_source r) ++
      [if cr_from r =? cr_to r then dport_one proto (cr_from r)
       else dport_range proto (cr_from r) (cr_to r)]) ("custom:" +:+ cr_id r)
  else "".

Definition render_published (p : PublishedAppPort) : string :=
  let t := to_ascii_lowercase (pub_transport p) in
  let go proto := line ("        ct direction original ct status dnat meta l4proto " +:+ proto +:+
    " ct original proto-dst " +:+ fmt_dec (host_port p) +:+ " accept # app-published") in
  if String.eqb t "tcp" then go "tcp" else if String.eqb t "udp" then go "udp" else "".

Definition render_custom_forward (r : CustomRule) : string :=
  if cr_enabled r then
    accept_line (["ct direction original"; "ct status dnat"] ++
      opt_clauses (cr_iface r) (cr_source r) ++
      ["meta l4proto " +:+ transport_str (cr_transport r);
       if cr_from r =? cr_to r then "ct original proto-dst " +:+ fmt_dec (cr_from r)
       else "ct original proto-dst " +:+ fmt_dec (cr_from r) +:+ "-" +:+ fmt_dec (cr_to r)])
      ("custom:" +:+ cr_id r)
  else "".

Definition input_header : list string :=
  ["table inet nasty {"; "    chain dhcp_relay { }"; "    chain input {";
   "        type filter hook input priority 0; policy drop;";
   "        ct state established,related accept"; "        ct state invalid drop";
   "        iif lo accept"; "        # ICMP/ICMPv6 — always allow";
   "        ip protocol icmp accept"; "        ip6 nexthdr icmpv6 accept";
   "        # DHCPv6 client"; "        udp dport 546 accept"; "        jump dhcp_relay"].

Definition forward_header : list string :=
  ["    }"; "    chain forward {";
   "        type filter hook forward priority -10; policy accept;";
   "        # Explicitly allowed Docker-published host ports"].

Definition table_footer : list string :=
  ["        ct direction original ct status dnat drop"; "    }"; "}"].

Definition render_ruleset_with_published (rules : list FirewallRule) (custom : list CustomRule)
    (published : list PublishedAppPort) : string :=
  concat_str ((line <$> input_header) ++ (render_service <$> rules) ++
    (render_custom_input <$> custom) ++ (line <$> forward_header) ++
    (render_published <$> published) ++ (render_custom_forward <$> custom) ++
    (line <$> table_footer)).

Definition render_ruleset (rules : list FirewallRule) (custom : list CustomRule) : string :=
  render_ruleset_with_published rules custom [].

Definition render_transaction (rules : list FirewallRule) (custom : list CustomRule)
    (published : list PublishedAppPort) : string :=
  line "destroy table inet nasty" +:+ render_ruleset_with_published rules custom published.

Definition render_config (c : FirewallConfig) : string :=
  render_transaction (fc_rules c) (fc_custom c) (fc_published c).

(** ** The service *)

(** A state file as reading it finds it. *)
Inductive JsonFile (A : Type) : Type := NoFile | BadFile (e : string) | GoodFile (a : A).
Arguments NoFile {A}.
Arguments BadFile {A} _.
Arguments GoodFile {A} _.

Record FwWorld : Type := mkFwWorld {
  fw_config : FirewallConfig;
  fw_live : option string;                           (** the last batch nft committed *)
  fw_restrictions_file : JsonFile FirewallRestrictions;
  fw_custom_file : JsonFile (list CustomRule);
  fw_doubt : option FirewallConfig;
    (** no field of the program: the configuration of the live batch, when
        [run_nft] reported its submission failed (it timed out, or waiting for
        it failed) although it took effect *)
}.

(** One [apply_nftables_with]: the relay policy read, the answer of
    [nft --check], and of submitting the batch. *)
Record NftEnv : Type := mkNftEnv {
  n_policy : result string string;
  n_check : option string;
  n_submit : Outcome;
}.

(** One operation: staging the file, the first apply, the rename, and the apply
    that rolls back. *)
Record FwEnv : Type := mkFwEnv {
  f_stage : option string;
  f_apply : NftEnv;
  f_rename : option string;
  f_rollback : NftEnv;
}.

(** A file staged next to its destination. *)
Inductive StagedJson : Type :=
| StageRestrictions (r : FirewallRestrictions)
| StageCustom (c : list CustomRule).

Abbreviation fop := (stm FwWorld string).

Definition set_config (c : FirewallConfig) (w : FwWorld) : FwWorld :=
  mkFwWorld c (fw_live w) (fw_restrictions_file w) (fw_custom_file w) (fw_doubt w).
Definition set_live (t : string) (doubt : option FirewallConfig) (w : FwWorld) : FwWorld :=
  mkFwWorld (fw_config w) (Some t) (fw_restrictions_file w) (fw_custom_file w) doubt.

(** [StagedJson::commit]: the rename replaces the file, or leaves it. *)
Definition staged_commit (o : option string) (s : StagedJson) : fop unit := fun w =>
  match o with
  | Some e => (w, Err e)
  | None =>
      (match s with
       | StageRestrictions r => mkFwWorld (fw_config w) (fw_live w) (GoodFile r) (fw_custom_file w) (fw_doubt w)
       | StageCustom c => mkFwWorld (fw_config w) (fw_live w) (fw_restrictions_file w) (GoodFile c) (fw_doubt w)
       end, Ok tt)
  end.

Definition stage (o : option string) : fop unit :=
  m_lift (match o with Some e => Err e | None => Ok tt end).

Definition apply_nftables_with (o : NftEnv) (c : FirewallConfig) : fop unit := fun w =>
  match n_policy o with
  | Err e => (w, Err e)
  | Ok policy =>
      let transaction := render_config c +:+ policy in
      match n_check o with
      | Some e => (w, Err e)
      | None =>
          match n_submit o with
          | Done => (set_live transaction None w, Ok tt)
          | Failed applied e => (if applied then set_live transaction (Some c) w else w, Err e)
          end
      end
  end.

Definition commit_candidate (env : FwEnv) (candidate : FirewallConfig) (staged : option StagedJson)
    : fop unit := fun w =>
  match apply_nftables_with (f_apply env) candidate w with
  | (w1, Err e) => (w1, Err e)
  | (w1, Ok _) =>
      match match staged with
            | Some s => staged_commit (f_rename env) s w1
            | None => (w1, Ok tt)
            end with
      | (w2, Err pe) =>
          match apply_nftables_with (f_rollback env) (fw_config w) w2 with
          | (w3, Err re) =>
              (set_config candidate w3,
               Err ("persist firewall state: " +:+ pe +:+ "; live rollback also failed: " +:+ re +:+
                    "; in-memory state reflects the live candidate"))
          | (w3, Ok _) =>
              (w3, Err ("persist firewall state: " +:+ pe +:+ "; previous live rules restored"))
          end
      | (w2, Ok _) => (set_config candidate w2, Ok tt)
      end
  end.

Definition with_rules (rs : list FirewallRule) (c : FirewallConfig) : FirewallConfig :=
  mkFirewallConfig rs (fc_restrictions c) (fc_custom c) (fc_published c).
Definition with_custom (cs : list CustomRule) (c : FirewallConfig) : FirewallConfig :=
  mkFirewallConfig (fc_rules c) (fc_restrictions c) cs (fc_published c).

Definition set_rule_active (env : FwEnv) (svc : string) (base : list PortSpec) (b : bool)
    : fop unit :=
  if bool_decide (base = []) then m_ret tt else
  w <~ m_get ;;
  let c := fw_config w in
  match find_first (is_service svc) (fc_rules c) with
  | Some rule =>
      if Bool.eqb (active rule) b then m_ret tt
      else commit_candidate env
             (with_rules (default (fc_rules c)
                (update_first (is_service svc) (set_active_flag b) (fc_rules c))) c) None
  | None =>
      commit_candidate env
        (with_rules (fc_rules c ++
           [mkFirewallRule svc (restricted (fc_restrictions c) svc base) b]) c) None
  end.

Definition load_file {A} (empty : A) (f : JsonFile A) : result A string :=
  match f with NoFile => Ok empty | BadFile e => Err e | GoodFile a => Ok a end.

(** The rule [init] pushes for a service. *)
Definition fresh_rule (r : FirewallRestrictions) (svc : string) (base : list PortSpec) (b : bool)
    : FirewallRule :=
  mkFirewallRule svc (restricted r svc base) b.

Definition init_rules (r : FirewallRestrictions) (webui : ListenerPorts)
    (protos : list (Protocol * bool)) (rdma_enabled dc_enabled : bool)
    (iscsi nvmeof : list PortSpec) : list FirewallRule :=
  let rules :=
    [fresh_rule r "webui" (listener_ports webui) true] ++
    ((fun pe : Protocol * bool =>
        fresh_rule r (protocol_name (fst pe)) (ports_for_protocol (fst pe)) (snd pe))
     <$> retain (fun pe => negb (bool_decide (ports_for_protocol (fst pe) = []))) protos) ++
    (if rdma_enabled then [fresh_rule r "rdma" rdma_ports true] else []) ++
    (if dc_enabled then [fresh_rule r "dc" dc_ports true] else []) in
  let rules := fst (replace_rule_ports rules r (protocol_name Iscsi) iscsi) in
  fst (replace_rule_ports rules r (protocol_name Nvmeof) nvmeof).

(** [webui] is the outcome of [webui::load]. *)
Definition init (env : FwEnv) (webui : result ListenerState string)
    (protos : list (Protocol * bool)) (rdma_enabled dc_enabled : bool)
    (iscsi nvmeof : list PortSpec) (published : list PublishedAppPort) : fop unit :=
  w <~ m_get ;;
  r <~ m_lift (load_file restrictions_default (fw_restrictions_file w)) ;;
  custom <~ m_lift (load_file [] (fw_custom_file w)) ;;
  st <~ m_lift webui ;;
  commit_candidate env
    (mkFirewallConfig
       (init_rules r (confirmed st) protos rdma_enabled dc_enabled iscsi nvmeof)
       r custom published) None.

(** One round of the loop of [set_protocol_states]. *)
Definition set_protocol_state (acc : list FirewallRule * bool) (pe : Protocol * bool)
    : list FirewallRule * bool :=
  let '(rules, changed) := acc in
  match find_first (is_service (protocol_name (fst pe))) rules with
  | Some rule =>
      if Bool.eqb (active rule) (snd pe) then (rules, changed)
      else (default rules (update_first (is_service (protocol_name (fst pe)))
              (set_active_flag (snd pe)) rules), true)
  | None => (rules, changed)
  end.

Definition set_protocol_states (env : FwEnv) (protos : list (Protocol * bool)) : fop unit :=
  w <~ m_get ;;
  let '(rules, changed) := foldl set_protocol_state (fc_rules (fw_config w), false) protos in
  if negb changed then m_ret tt
  else commit_candidate env (with_rules rules (fw_config w)) None.

Definition published_le (a b : PublishedAppPort) : bool :=
  match String.compare (pub_transport a) (pub_transport b) with
  | Lt => true
  | Gt => false
  | Eq => if host_port a =? host_port b
          then match String.compare (pub_app a) (pub_app b) with Gt => false | _ => true end
          else host_port a <? host_port b
  end.
Definition published_same (a b : PublishedAppPort) : bool :=
  String.eqb (pub_transport a) (pub_transport b) && (host_port a =? host_port b) &&
  String.eqb (pub_app a) (pub_app b).

Definition set_published_app_ports (env : FwEnv) (published : list PublishedAppPort) : fop unit :=
  let published := dedup_by published_same (sort_by published_le published) in
  w <~ m_get ;;
  let c := fw_config w in
  if bool_decide (fc_published c = published) then m_ret tt
  else commit_candidate env
         (mkFirewallConfig (fc_rules c) (fc_restrictions c) (fc_custom c) published) None.

Definition open (env : FwEnv) (p : Protocol) : fop unit :=
  set_rule_active env (protocol_name p) (ports_for_protocol p) true.
Definition close (env : FwEnv) (p : Protocol) : fop unit :=
  set_rule_active env (protocol_name p) (ports_for_protocol p) false.
Definition open_rdma (env : FwEnv) : fop unit := set_rule_active env "rdma" rdma_ports true.
Definition close_rdma (env : FwEnv) : fop unit := set_rule_active env "rdma" rdma_ports false.
Definition open_dc (env : FwEnv) : fop unit := set_rule_active env "dc" dc_ports true.
Definition close_dc (env : FwEnv) : fop unit := set_rule_active env "dc" dc_ports false.

Definition set_webui_ports (env : FwEnv) (https : Z) (http : option Z) : fop unit :=
  w <~ m_get ;;
  let c := fw_config w in
  let ps := restricted (fc_restrictions c) "webui" (webui_ports https http) in
  match update_first (is_service "webui") (set_rule_ports ps) (fc_rules c) with
  | None => m_throw "WebUI firewall rule is not initialized"
  | Some rules => commit_candidate env (with_rules rules c) None
  end.

(** The ports a rule has without its restrictions, each once. *)
Definition unrestricted_ports (ps : list PortSpec) : list PortSpec :=
  foldl (fun acc p =>
    let q := with_restriction p None None in
    if bool_decide (q ∈ acc) then acc else acc ++ [q]) [] ps.

Definition default_ports (webui : result ListenerState string) (svc : string)
    : result (list PortSpec) string :=
  if String.eqb svc "webui" then st <-? webui ;; Ok (listener_ports (confirmed st))
  else if String.eqb svc "rdma" then Ok rdma_ports
  else if String.eqb svc "dc" then Ok dc_ports
  else match from_name svc with
       | Some p => Ok (ports_for_protocol p)
       | None => Err ("unknown service: " +:+ svc)
       end.

Definition set_or_remove (svc : string) (l : list string) (m : gmap string (list string))
    : gmap string (list string) :=
  if bool_decide (l = []) then delete svc m else <[svc := l]> m.

Definition check_all (p : string -> bool) (msg : string) (l : list string) : result unit string :=
  match find_first (fun s => negb (p s)) l with
  | Some s => Err (msg +:+ s)
  | None => Ok tt
  end.

Definition set_restriction (env : FwEnv) (webui : result ListenerState string) (svc : string)
    (sources ifaces : list string) : fop unit :=
  m_lift (check_all valid_source "invalid source (expected an IP or CIDR): " sources) ;;;
  m_lift (check_all valid_iface "invalid interface name: " ifaces) ;;;
  defaults <~ m_lift (default_ports webui svc) ;;
  w <~ m_get ;;
  let c := fw_config w in
  let base := match find_first (is_service svc) (fc_rules c) with
              | Some rule => unrestricted_ports (ports rule)
              | None => defaults
              end in
  let r := mkRestrictions (set_or_remove svc sources (r_services (fc_restrictions c)))
                          (set_or_remove svc ifaces (r_interfaces (fc_restrictions c))) in
  let rules := default (fc_rules c)
    (update_first (is_service svc) (set_rule_ports (apply_restrictions base sources ifaces))
       (fc_rules c)) in
  stage (f_stage env) ;;;
  commit_candidate env (mkFirewallConfig rules r (fc_custom c) (fc_published c))
    (Some (StageRestrictions r)).

Definition set_service_ports (env : FwEnv) (p : Protocol) (ps : list PortSpec) : fop unit :=
  w <~ m_get ;;
  let c := fw_config w in
  let '(rules, changed) := replace_rule_ports (fc_rules c) (fc_restrictions c) (protocol_name p) ps in
  if negb changed then m_ret tt else commit_candidate env (with_rules rules c) None.

Definition set_portal_ports (env : FwEnv) (iscsi nvmeof : list PortSpec) : fop unit :=
  w <~ m_get ;;
  let c := fw_config w in
  let '(rules, ch1) := replace_rule_ports (fc_rules c) (fc_restrictions c) (protocol_name Iscsi) iscsi in
  let '(rules, ch2) := replace_rule_ports rules (fc_restrictions c) (protocol_name Nvmeof) nvmeof in
  if negb ch1 && negb ch2 then m_ret tt else commit_candidate env (with_rules rules c) None.

Definition overlap_error (i : CustomRuleInput) (owner : string) : string :=
  transport_str (in_transport i) +:+ "/" +:+ fmt_dec (in_from i) +:+ "-" +:+ fmt_dec (in_to i) +:+
  " overlaps ports managed by " +:+ owner +:+ " — enable " +:+ owner +:+ " to open them".

(** [id] is the fresh [Uuid::new_v4]. *)
Definition add_custom_rule (env : FwEnv) (id : string) (i : CustomRuleInput) : fop CustomRule :=
  m_lift (validate_custom_input i) ;;;
  w <~ m_get ;;
  let c := fw_config w in
  match service_port_conflict (fc_rules c) (in_transport i) (in_from i) (in_to i) with
  | Some owner => m_throw (overlap_error i owner)
  | None =>
      if existsb (fun r => same_rule r i) (fc_custom c)
      then m_throw "an identical custom rule already exists"
      else
        let rule := mkCustomRule id (trim (in_label i)) (in_transport i) (in_from i) (in_to i)
                      (in_source i) (in_iface i) (in_enabled i) in
        let custom := fc_custom c ++ [rule] in
        stage (f_stage env) ;;;
        commit_candidate env (with_custom custom c) (Some (StageCustom custom)) ;;;
        m_ret rule
  end.

Definition update_custom_rule (env : FwEnv) (id : string) (i : CustomRuleInput) : fop CustomRule :=
  m_lift (validate_custom_input i) ;;;
  w <~ m_get ;;
  let c := fw_config w in
  match service_port_conflict (fc_rules c) (in_transport i) (in_from i) (in_to i) with
  | Some owner => m_throw (overlap_error i owner)
  | None =>
      if existsb (fun r => negb (String.eqb (cr_id r) id) && same_rule r i) (fc_custom c)
      then m_throw "an identical custom rule already exists"
      else
        let rule := mkCustomRule id (trim (in_label i)) (in_transport i) (in_from i) (in_to i)
                      (in_source i) (in_iface i) (in_enabled i) in
        match update_first (fun r => String.eqb (cr_id r) id) (fun _ => rule) (fc_custom c) with
        | None => m_throw ("custom rule not found: " +:+ id)
        | Some custom =>
            stage (f_stage env) ;;;
            commit_candidate env (with_custom custom c) (Some (StageCustom custom)) ;;;
            m_ret rule
        end
  end.

Definition remove_custom_rule (env : FwEnv) (id : string) : fop unit :=
  w <~ m_get ;;
  let c := fw_config w in
  let custom := retain (fun r => negb (String.eqb (cr_id r) id)) (fc_custom c) in
  if (length custom =? length (fc_custom c))%nat
  then m_throw ("custom rule not found: " +:+ id)
  else
    stage (f_stage env) ;;;
    commit_candidate env (with_custom custom c) (Some (StageCustom custom)).
