(* ===== verification/Nft.v ===== *)
(** * The nft language fragment the engine writes

    A parser for the batches of firewall.rs and network/dhcp_relay.rs and the
    order in which the kernel evaluates the rules, as the reference against
    which rendering is proved: what the engine writes parses to exactly the
    matches it means, whatever the validated fields contain. *)

From Stdlib Require Import ZArith Lia Ascii String.
From stdpp Require Import base list gmap strings.
From S2P Require Import Prelude RustStr Text RustVec Net Webui Protocol Firewall.

(** ** The nft fragment *)

Inductive nmatch : Type :=
| MEstablished | MInvalid | MLoopback | MIcmp | MIcmpv6
| MIif (name : string)
| MSaddr (v6 : bool) (src : string)
| MDport (t : Transport) (lo hi : Z)
| MSport (t : Transport) (p : Z)
| MOriginal | MDnat
| ML4proto (t : Transport)
| MOriginalDst (lo hi : Z).

Inductive verdict : Type := VAccept | VDrop | VJump (chain : string).

Record nrule : Type := mkNrule { nr_matches : list nmatch; nr_verdict : verdict }.

Record ruleset : Type := mkRuleset {
  rs_input : list nrule;
  rs_forward : list nrule;
  rs_relay : list nrule;
}.

(** A word [#] starts a comment. *)
Fixpoint uncomment (ws : list string) : list string :=
  match ws with
  | [] => []
  | w :: ws' => if String.eqb w "#" then [] else w :: uncomment ws'
  end.

Definition unquote (w : string) : option string :=
  match strip_prefix dq w with
  | Some w' => strip_suffix dq w'
  | None => None
  end.

Definition parse_port (w : string) : option Z := parse_uint 65535 w.

Definition parse_range (w : string) : option (Z * Z) :=
  match split_once "-" w with
  | None => p ← parse_port w; Some (p, p)
  | Some (a, b) => lo ← parse_port a; hi ← parse_port b; Some (lo, hi)
  end.

Definition parse_transport (w : string) : option Transport :=
  if String.eqb w "tcp" then Some Tcp else if String.eqb w "udp" then Some Udp else None.

Definition add_match (m : nmatch) (r : option nrule) : option nrule :=
  r ← r; Some (mkNrule (m :: nr_matches r) (nr_verdict r)).

Definition is_word (a b : string) : bool := String.eqb a b.

(** One clause of three words. *)
Definition parse3 (w a b : string) : option nmatch :=
  if is_word w "ip" && is_word a "saddr" then Some (MSaddr false b)
  else if is_word w "ip6" && is_word a "saddr" then Some (MSaddr true b)
  else if is_word w "ct" && is_word a "state" then
    if is_word b "established,related" then Some MEstablished
    else if is_word b "invalid" then Some MInvalid else None
  else if is_word w "ip" && is_word a "protocol" && is_word b "icmp" then Some MIcmp
  else if is_word w "ip6" && is_word a "nexthdr" && is_word b "icmpv6" then Some MIcmpv6
  else if is_word w "ct" && is_word a "direction" && is_word b "original" then Some MOriginal
  else if is_word w "ct" && is_word a "status" && is_word b "dnat" then Some MDnat
  else if is_word w "meta" && is_word a "l4proto" then t ← parse_transport b; Some (ML4proto t)
  else t ← parse_transport w;
       if is_word a "dport" then '(lo, hi) ← parse_range b; Some (MDport t lo hi)
       else if is_word a "sport" then p ← parse_port b; Some (MSport t p)
       else None.

Fixpoint parse_rule (ws : list string) : option nrule :=
  match ws with
  | [] => None
  | [w] => if is_word w "accept" then Some (mkNrule [] VAccept)
           else if is_word w "drop" then Some (mkNrule [] VDrop) else None
  | w :: ((a :: ws2) as ws1) =>
      if is_word w "jump" then match ws2 with [] => Some (mkNrule [] (VJump a)) | _ => None end
      else if is_word w "iifname" then i ← unquote a; add_match (MIif i) (parse_rule ws2)
      else if is_word w "iif" && is_word a "lo" then add_match MLoopback (parse_rule ws2)
      else match ws2 with
      | [] => None
      | b :: ws3 =>
          if is_word w "ct" && is_word a "original" && is_word b "proto-dst" then
            match ws3 with
            | [] => None
            | c :: ws4 => '(lo, hi) ← parse_range c; add_match (MOriginalDst lo hi) (parse_rule ws4)
            end
          else m ← parse3 w a b; add_match m (parse_rule ws3)
      end
  end.

Definition line_words (l : string) : list string := uncomment (words l).

(** The rules of a chain up to its closing brace, and the lines after it. *)
Fixpoint parse_chain (ls : list string) : option (list nrule * list string) :=
  match ls with
  | [] => None
  | l :: ls' =>
      if String.eqb l "    }" then Some ([], ls')
      else match line_words l with
      | [] => parse_chain ls'
      | ws => r ← parse_rule ws; '(rs, rest) ← parse_chain ls'; Some (r :: rs, rest)
      end
  end.

Fixpoint expect (hd ls : list string) : option (list string) :=
  match hd, ls with
  | [], _ => Some ls
  | h :: hd', l :: ls' => if String.eqb h l then expect hd' ls' else None
  | _ :: _, [] => None
  end.

(** The commands after the table: only additions to the relay chain. *)
Fixpoint parse_policy (ls : list string) : option (list nrule) :=
  match ls with
  | [] => Some []
  | l :: ls' =>
      match line_words l with
      | [] => parse_policy ls'
      | ws => ws' ← expect ["add"; "rule"; "inet"; "nasty"; "dhcp_relay"] ws;
              r ← parse_rule ws'; rs ← parse_policy ls'; Some (r :: rs)
      end
  end.

Definition parse_transaction (text : string) : option ruleset :=
  ls ← expect ("destroy table inet nasty" :: take 4 input_header) (lines text);
  '(input, ls) ← parse_chain ls;
  ls ← expect (take 2 (drop 1 forward_header)) ls;
  '(forward, ls) ← parse_chain ls;
  ls ← expect ["}"] ls;
  relay ← parse_policy ls;
  Some (mkRuleset input forward relay).

(** *** Evaluation *)

Inductive l4 : Type :=
| Icmp | Icmpv6 | L4 (t : Transport) (sport dport : Z) | OtherProto.

Record packet : Type := mkPacket {
  pk_established : bool;     (** conntrack state established or related *)
  pk_invalid : bool;
  pk_loopback : bool;
  pk_iif : string;
  pk_src : ip_addr;
  pk_l4 : l4;
  pk_original : bool;        (** original direction of its connection *)
  pk_dnat : bool;
  pk_orig_dport : Z;         (** destination port before translation *)
}.

Definition bits_of (ip : ip_addr) : Z :=
  match ip with
  | V4 os => foldl (fun acc o => acc * 256 + o) 0 os
  | V6 ss => foldl (fun acc s => acc * 65536 + s) 0 ss
  end.

(** The packet's source is in the network [src], an address or a CIDR. *)
Definition in_network (src : string) (ip : ip_addr) : bool :=
  let '(addr, prefix) := match split_once "/" src with
                         | Some (a, p) => (a, Some p)
                         | None => (src, None)
                         end in
  match parse_ip_addr addr, ip with
  | Some (V4 n), V4 a =>
      let len := from_option (fun p => default 32 (parse_uint 255 p)) 32 prefix in
      Z.shiftr (bits_of (V4 n)) (32 - len) =? Z.shiftr (bits_of (V4 a)) (32 - len)
  | Some (V6 n), V6 a =>
      let len := from_option (fun p => default 128 (parse_uint 255 p)) 128 prefix in
      Z.shiftr (bits_of (V6 n)) (128 - len) =? Z.shiftr (bits_of (V6 a)) (128 - len)
  | _, _ => false
  end.

Definition is_v6 (ip : ip_addr) : bool := match ip with V6 _ => true | V4 _ => false end.

Definition l4_is (t : Transport) (p : l4) : bool :=
  match p with L4 t' _ _ => bool_decide (t = t') | _ => false end.
Definition dport_in (t : Transport) (lo hi : Z) (p : l4) : bool :=
  match p with
  | L4 t' _ d => bool_decide (t = t') && (lo <=? d) && (d <=? hi)
  | _ => false
  end.

Definition match_one (pk : packet) (m : nmatch) : bool :=
  match m with
  | MEstablished => pk_established pk
  | MInvalid => pk_invalid pk
  | MLoopback => pk_loopback pk
  | MIcmp => match pk_l4 pk with Icmp => negb (is_v6 (pk_src pk)) | _ => false end
  | MIcmpv6 => match pk_l4 pk with Icmpv6 => is_v6 (pk_src pk) | _ => false end
  | MIif n => String.eqb (pk_iif pk) n
  | MSaddr v6 src => Bool.eqb (is_v6 (pk_src pk)) v6 && in_network src (pk_src pk)
  | MDport t lo hi => dport_in t lo hi (pk_l4 pk)
  | MSport t p => match pk_l4 pk with L4 t' s _ => bool_decide (t = t') && (s =? p) | _ => false end
  | MOriginal => pk_original pk
  | MDnat => pk_dnat pk
  | ML4proto t => l4_is t (pk_l4 pk)
  | MOriginalDst lo hi => (lo <=? pk_orig_dport pk) && (pk_orig_dport pk <=? hi)
  end.

Definition rule_matches (pk : packet) (r : nrule) : bool := forallb (match_one pk) (nr_matches r).

(** The first matching rule decides; a chain jumped to that does not decide
    returns.  Chains below the base chains have no jumps. *)
Fixpoint eval_leaf (pk : packet) (rs : list nrule) : option bool :=
  match rs with
  | [] => None
  | r :: rs' =>
      if rule_matches pk r
      then match nr_verdict r with VAccept => Some true | VDrop => Some false | VJump _ => eval_leaf pk rs' end
      else eval_leaf pk rs'
  end.

Fixpoint eval_chain (relay : list nrule) (pk : packet) (rs : list nrule) : option bool :=
  match rs with
  | [] => None
  | r :: rs' =>
      if rule_matches pk r
      then match nr_verdict r with
           | VAccept => Some true
           | VDrop => Some false
           | VJump _ => match eval_leaf pk relay with Some v => Some v | None => eval_chain relay pk rs' end
           end
      else eval_chain relay pk rs'
  end.

(** The input chain drops by default, the forward chain accepts. *)
Definition input_accepts (rs : ruleset) (pk : packet) : bool :=
  default false (eval_chain (rs_relay rs) pk (rs_input rs)).
Definition forward_accepts (rs : ruleset) (pk : packet) : bool :=
  default true (eval_chain (rs_relay rs) pk (rs_forward rs)).

(** ** Words of rendered text *)

(** A field that is one word: not empty, no blank, not the comment mark. *)
Definition word_ok (s : string) : Prop := s <> "" /\ no_char (chr 32) s /\ s <> "#".

Lemma words_one w : word_ok w -> words w = [w].
Proof. intros (Hne & Hsp & _). by apply words_single. Qed.

Lemma words_cons w s : word_ok w -> words (w +:+ String (chr 32) s) = w :: words s.
Proof. intros. by rewrite words_app, words_one. Qed.

Lemma uncomment_app ws rest : "#" ∉ ws -> uncomment (ws ++ "#" :: rest) = ws.
Proof.
  induction ws as [|w ws IH]; simpl; intros H; [done|].
  destruct (String.eqb_spec w "#"); [set_solver|]. f_equal. apply IH. set_solver.
Qed.

(** ** Fields *)

Lemma parse_port_fmt_dec n : 0 <= n < 65536 -> parse_port (fmt_dec n) = Some n.
Proof.
  intros Hn. pose proof (fmt_dec_digits n ltac:(lia)) as HF.
  pose proof (parse_digits_digits_of 10 40 n ltac:(lia) ltac:(lia)) as Hp.
  unfold parse_port, parse_uint. unfold fmt_dec in *. rewrite to_of_bytes in *.
  pose proof (digits_of_nonempty 39 n) as Hne. change (S 39)%nat with 40%nat in Hne.
  destruct (digits_of 40 10 n) as [|c l]; [done|]. inversion_clear HF as [|?? Hc _].
  assert (Ascii.eqb c "+" = false) as Hplus.
  { apply Ascii.eqb_neq. intros ->. vm_compute in Hc. done. }
  destruct l; [|rewrite Hplus]; rewrite Hp; by replace (n <=? 65535) with true by lia.
Qed.

Lemma parse_range_one n : 0 <= n < 65536 -> parse_range (fmt_dec n) = Some (n, n).
Proof.
  intros. unfold parse_range. rewrite split_once_none by (apply fmt_dec_no; [lia|done]).
  by rewrite parse_port_fmt_dec.
Qed.

Lemma parse_range_two lo hi :
  0 <= lo < 65536 -> 0 <= hi < 65536 ->
  parse_range (fmt_dec lo +:+ "-" +:+ fmt_dec hi) = Some (lo, hi).
Proof.
  intros. unfold parse_range. change ("-" +:+ ?x) with (String "-" x).
  rewrite split_once_app by (apply fmt_dec_no; [lia|done]). by rewrite !parse_port_fmt_dec.
Qed.

(** *** Addresses and CIDRs *)

Definition addr_char (c : ascii) : bool :=
  is_ascii_hexdigit c || Ascii.eqb c "." || Ascii.eqb c ":".
Definition source_char (c : ascii) : bool :=
  addr_char c || Ascii.eqb c "/" || Ascii.eqb c "+".

(** [p] only consumes characters of the class [P]. *)
Definition consumes {A} (P : ascii -> bool) (p : parser A) : Prop :=
  forall l a r, p l = Some (a, r) -> exists pre, l = pre ++ r /\ Forall (fun c => P c = true) pre.

Lemma read_digits_consumes radix acc n l v k r :
  read_digits radix acc n l = (v, k, r) ->
  exists pre, l = pre ++ r /\ Forall (fun c => addr_char c = true) pre.
Proof.
  revert acc n. induction l as [|c l IH]; simpl; intros acc n.
  { intros [= <- <- <-]. by exists []. }
  destruct (to_digit radix c) as [d|] eqn:E; [|intros [= <- <- <-]; by exists []].
  intros (pre & -> & HF)%IH. exists (c :: pre). split; [done|]. constructor; [|done].
  unfold to_digit in E. break_in E. bool_hyps. unfold addr_char. by rewrite H.
Qed.

Lemma read_number_consumes radix md mx z : consumes addr_char (read_number radix md mx z).
Proof.
  intros l a r. unfold read_number. destruct (read_digits radix 0 0 l) as [[v k] r'] eqn:E.
  intros H. break_in H. by eapply read_digits_consumes.
Qed.

Lemma read_given_char_consumes c : addr_char c = true -> consumes addr_char (read_given_char c).
Proof.
  intros Hc [|d l] a r; simpl; [done|]. destruct (Ascii.eqb_spec c d) as [<-|]; [|done].
  intros [= <- <-]. exists [c]. split; [done|]. by constructor.
Qed.

Lemma read_separator_consumes {A} sep i (p : parser A) :
  addr_char sep = true -> consumes addr_char p -> consumes addr_char (read_separator sep i p).
Proof.
  intros Hs Hp l a r. unfold read_separator. destruct i; [apply Hp|].
  destruct (read_given_char sep l) as [[u l']|] eqn:E; [|done]. intros H.
  apply (read_given_char_consumes sep Hs) in E as (p1 & -> & ?).
  apply Hp in H as (p2 & -> & ?). exists (p1 ++ p2). rewrite app_assoc. split; [done|].
  by apply Forall_app.
Qed.

Lemma read_octets_consumes i n : consumes addr_char (read_octets i n).
Proof.
  revert i. induction n as [|n IH]; intros i l a r; cbn [read_octets].
  { intros [= <- <-]. by exists []. }
  intros H. break_in H.
  match goal with H : read_separator _ _ _ _ = _ |- _ =>
    apply read_separator_consumes in H as (p1 & -> & ?); [|done|apply read_number_consumes] end.
  match goal with H : read_octets _ _ _ = _ |- _ => apply IH in H as (p2 & -> & ?) end.
  exists (p1 ++ p2). rewrite app_assoc. split; [done|]. by apply Forall_app.
Qed.

Lemma read_groups_consumes i n l gs b r :
  read_groups i n l = (gs, b, r) ->
  exists pre, l = pre ++ r /\ Forall (fun c => addr_char c = true) pre.
Proof.
  revert i l gs b r. induction n as [|n IH]; intros i l gs b r.
  { simpl. intros [= <- <- <-]. by exists []. }
  cbn [read_groups].
  set (v4 := match n with O => None | S _ => read_separator ":" i read_ipv4_addr l end).
  assert (forall os r', v4 = Some (os, r') ->
    exists pre, l = pre ++ r' /\ Forall (fun c => addr_char c = true) pre) as Hv4.
  { intros os r' E. unfold v4 in E. destruct n; [done|].
    eapply read_separator_consumes; [..|exact E]; [done|apply read_octets_consumes]. }
  assert (forall gs b r, match read_separator ":" i (read_number 16 4 65535 true) l with
    | Some (g, l') => let '(gs, t, rest) := read_groups (S i) n l' in (g :: gs, t, rest)
    | None => ([], false, l) end = (gs, b, r) ->
    exists pre, l = pre ++ r /\ Forall (fun c => addr_char c = true) pre) as Hhex.
  { intros gs' b' r' H. break_in H; [|by exists []].
    match goal with H : read_separator _ _ _ _ = _ |- _ =>
      apply read_separator_consumes in H as (p1 & -> & ?); [|done|apply read_number_consumes] end.
    match goal with H : read_groups _ _ _ = _ |- _ => apply IH in H as (p2 & -> & ?) end.
    exists (p1 ++ p2). rewrite app_assoc. split; [done|]. by apply Forall_app. }
  destruct v4 as [[os r']|] eqn:E; [|apply Hhex].
  destruct os as [|a [|b' [|c [|d [|]]]]]; try apply Hhex.
  intros [= <- <- <-]. by eapply Hv4.
Qed.

Lemma read_ipv6_addr_consumes : consumes addr_char read_ipv6_addr.
Proof.
  intros l a r. unfold read_ipv6_addr. destruct (read_groups 0 8 l) as [[h b] l1] eqn:E.
  apply read_groups_consumes in E as (p0 & -> & Hp0). destruct (_ =? _)%nat.
  { intros [= <- <-]. by exists p0. }
  destruct b; [done|]. destruct (read_given_char ":" l1) as [[[] l2]|] eqn:E2; [|done].
  destruct (read_given_char ":" l2) as [[[] l3]|] eqn:E3; [|done].
  destruct (read_groups 0 _ l3) as [[tl t] l4] eqn:E4. intros [= <- <-].
  apply read_given_char_consumes in E2 as (p2 & -> & ?); [|done].
  apply read_given_char_consumes in E3 as (p3 & -> & ?); [|done].
  apply read_groups_consumes in E4 as (p4 & -> & ?).
  exists (p0 ++ p2 ++ p3 ++ p4). rewrite <- !app_assoc. split; [done|]. rewrite !Forall_app. done.
Qed.

Lemma parse_ip_addr_chars s ip :
  parse_ip_addr s = Some ip -> Forall (fun c => addr_char c = true) (to_bytes s).
Proof.
  unfold parse_ip_addr. intros H. break_in H.
  - match goal with H : read_ipv4_addr _ = _ |- _ =>
      apply read_octets_consumes in H as (p & E & ?) end. by rewrite E, app_nil_r.
  - match goal with H : read_ipv6_addr _ = _ |- _ =>
      apply read_ipv6_addr_consumes in H as (p & E & ?) end. by rewrite E, app_nil_r.
Qed.

Lemma parse_digits_digits acc l v :
  parse_digits 10 acc l = Some v -> Forall (fun c => is_ascii_hexdigit c = true) l.
Proof.
  revert acc. induction l as [|c l IH]; simpl; intros acc; [constructor|].
  destruct (to_digit 10 c) eqn:E; [|done]. intros H%IH. constructor; [|done].
  unfold to_digit in E. break_in E. by bool_hyps.
Qed.

Lemma parse_uint_chars mx s v :
  parse_uint mx s = Some v ->
  Forall (fun c => source_char c = true) (to_bytes s) /\ s <> "".
Proof.
  unfold parse_uint. intros H.
  assert (forall l, Forall (fun c => is_ascii_hexdigit c = true) l ->
    Forall (fun c => source_char c = true) l) as Himp.
  { intros l HF. eapply Forall_impl; [exact HF|]. intros c Hc. unfold source_char, addr_char. by rewrite Hc. }
  assert (to_bytes s <> []) as Hne by (intros E; rewrite E in H; done).
  split; [|intros ->; done].
  destruct (to_bytes s) as [|c [|d l]]; [done|..].
  - destruct (parse_digits 10 0 [c]) eqn:E; [|done]. by eapply Himp, parse_digits_digits.
  - destruct (Ascii.eqb_spec c "+") as [->|]; cbn [tail] in H.
    + destruct (parse_digits 10 0 (d :: l)) eqn:E; [|done].
      constructor; [done|]. by eapply Himp, parse_digits_digits.
    + destruct (parse_digits 10 0 (c :: d :: l)) eqn:E; [|done]. by eapply Himp, parse_digits_digits.
Qed.

(** What [valid_source] lets through contains only these characters, so no
    blank, quote, brace, semicolon, newline or comment mark. *)
Lemma valid_source_chars s :
  valid_source s = true -> Forall (fun c => source_char c = true) (to_bytes s).
Proof.
  unfold valid_source, split_once. pose proof (split_once_bytes_spec "/" (to_bytes s)) as Hs.
  assert (forall l, Forall (fun c => addr_char c = true) l ->
    Forall (fun c => source_char c = true) l) as Himp.
  { intros l HF. eapply Forall_impl; [exact HF|]. intros c Hc. unfold source_char. by rewrite Hc. }
  destruct (split_once_bytes "/" (to_bytes s)) as [[a b]|]; intros H; break_in H.
  - destruct Hs as [-> _]. rewrite Forall_app, Forall_cons.
    match goal with H : parse_ip_addr _ = _ |- _ => apply parse_ip_addr_chars in H end.
    match goal with H : parse_uint _ _ = _ |- _ => apply parse_uint_chars in H as [? _] end.
    rewrite to_of_bytes in *. split_and!; auto.
  - destruct Hs as [-> _]. rewrite Forall_app, Forall_cons.
    match goal with H : parse_ip_addr _ = _ |- _ => apply parse_ip_addr_chars in H end.
    match goal with H : parse_uint _ _ = _ |- _ => apply parse_uint_chars in H as [? _] end.
    rewrite to_of_bytes in *. split_and!; auto.
  - apply Himp. by eapply parse_ip_addr_chars.
Qed.

Lemma valid_source_nonempty s : valid_source s = true -> s <> "".
Proof. intros H ->. vm_compute in H. done. Qed.

Lemma valid_source_word s : valid_source s = true -> word_ok s /\ no_char (chr 10) s.
Proof.
  intros H. pose proof (valid_source_chars s H) as HF. unfold word_ok.
  split_and!; [by apply valid_source_nonempty|by eapply class_no_char| |by eapply class_no_char].
  eapply class_not_word; [exact HF|]. by apply Exists_cons_hd.
Qed.

Lemma valid_iface_chars s :
  valid_iface s = true -> s <> "" /\ Forall (fun c => iface_char c = true) (to_bytes s).
Proof.
  unfold valid_iface. intros H. bool_hyps. split; [done|].
  match goal with H : forallb _ _ = true |- _ => rewrite forallb_forall in H end.
  apply Forall_forall. intros c Hc. apply list_elem_of_In in Hc. auto.
Qed.

(** A quoted interface name is one word and unquotes to the name. *)
Definition quoted (i : string) : string := dq +:+ i +:+ dq.

Lemma unquote_quoted i : unquote (quoted i) = Some i.
Proof.
  unfold unquote, quoted. rewrite strip_prefix_app. unfold strip_suffix.
  rewrite to_bytes_app, rev_app_distr. simpl rev at 1. change (to_bytes dq) with [chr 34].
  simpl rev at 1 2. rewrite bytes_prefix_refl. simpl. by rewrite rev_involutive, of_to_bytes.
Qed.

Lemma quoted_word i : no_char (chr 32) i -> word_ok (quoted i).
Proof.
  intros H. unfold word_ok, quoted. split_and!; [done| |done].
  unfold no_char. rewrite !to_bytes_app. change (to_bytes dq) with [chr 34].
  intros Hin. apply elem_of_app in Hin as [Hin|[Hin|Hin]%elem_of_app];
    [apply list_elem_of_singleton in Hin; done|done|apply list_elem_of_singleton in Hin; done].
Qed.

(** ** Clauses and rules

    [denotes s m]: the text [s] of a condition is read as the match [m],
    whatever follows it. *)

Definition denotes (s : string) (m : nmatch) : Prop :=
  no_char (chr 10) s /\ ("#" ∉ words s) /\
  forall rest, parse_rule (words s ++ rest) = add_match m (parse_rule rest).

Lemma word_ok_dec w :
  negb (String.eqb w "") && bool_decide (chr 32 ∉ to_bytes w) && negb (String.eqb w "#") = true ->
  word_ok w.
Proof.
  intros H. bool_hyps. unfold word_ok, no_char.
  match goal with H : bool_decide _ = true |- _ => apply bool_decide_eq_true in H end. done.
Qed.

Lemma words3 w a b :
  word_ok w -> word_ok a -> word_ok b ->
  words (w +:+ String (chr 32) (a +:+ String (chr 32) b)) = [w; a; b].
Proof. intros. by rewrite !words_cons, words_one. Qed.

(** A clause of three words that [parse3] reads. *)
Lemma denotes3 w a b m :
  word_ok w -> word_ok a -> word_ok b -> Forall (no_char (chr 10)) [w; a; b] ->
  is_word w "jump" = false -> is_word w "iifname" = false -> is_word w "iif" = false ->
  is_word a "original" = false -> parse3 w a b = Some m ->
  denotes (w +:+ String (chr 32) (a +:+ String (chr 32) b)) m.
Proof.
  intros Hw Ha Hb Hnl Hj Hi Hif Ho Hp. rewrite !Forall_cons in Hnl. destruct Hnl as (?&?&?&_).
  split_and!.
  - rewrite !no_char_app, !no_char_cons, no_char_app, no_char_cons. split_and!; done.
  - rewrite words3 by done. rewrite !not_elem_of_cons.
    destruct Hw as (_&_&?), Ha as (_&_&?), Hb as (_&_&?). split_and!; try done; apply not_elem_of_nil.
  - intros rest. rewrite words3 by done.
    change ([w; a; b] ++ rest) with (w :: a :: b :: rest). cbn [parse_rule].
    rewrite Hj, Hi, Hif, Ho. cbn [andb]. rewrite andb_false_r. cbn [andb]. by rewrite Hp.
Qed.

Lemma fmt_dec_word n : 0 <= n -> word_ok (fmt_dec n) /\ no_char (chr 10) (fmt_dec n).
Proof.
  intros Hn. pose proof (fmt_dec_digits n Hn) as HF. unfold word_ok.
  split_and!; [apply fmt_dec_nonempty|by eapply class_no_char| |by eapply class_no_char].
  eapply class_not_word; [exact HF|]. by apply Exists_cons_hd.
Qed.

Lemma fmt_range_word lo hi :
  0 <= lo -> 0 <= hi ->
  word_ok (fmt_dec lo +:+ "-" +:+ fmt_dec hi) /\ no_char (chr 10) (fmt_dec lo +:+ "-" +:+ fmt_dec hi).
Proof.
  intros Hlo Hhi. destruct (fmt_dec_word lo Hlo) as [(Hne & ? & ?) ?].
  destruct (fmt_dec_word hi Hhi) as [(? & ? & ?) ?]. unfold word_ok.
  split_and!; [|no_char_solve| |no_char_solve].
  - intros E. apply (f_equal to_bytes) in E. rewrite to_bytes_app in E. apply Hne, to_bytes_inj.
    by destruct (to_bytes (fmt_dec lo)).
  - intros E. apply (f_equal to_bytes) in E. rewrite !to_bytes_app in E.
    apply (f_equal length) in E. rewrite !length_app in E. simpl in E.
    destruct (to_bytes (fmt_dec lo)) eqn:E1; [apply Hne, to_bytes_inj; by rewrite E1|].
    simpl in E. lia.
Qed.

Lemma denotes_quoted i :
  no_char (chr 32) i -> no_char (chr 10) i -> denotes (iface_clause i) (MIif i).
Proof.
  intros ? ?. assert (word_ok (quoted i)) as Hq by (by apply quoted_word).
  assert (words (iface_clause i) = ["iifname"; quoted i]) as Hw.
  { change (iface_clause i) with ("iifname" +:+ String (chr 32) (quoted i)).
    rewrite words_cons by (by apply word_ok_dec). by rewrite words_one. }
  split_and!.
  - unfold iface_clause. no_char_solve.
  - rewrite Hw. rewrite !not_elem_of_cons. destruct Hq as (_ & _ & ?).
    split_and!; [done|done|apply not_elem_of_nil].
  - intros rest. rewrite Hw. cbn [app parse_rule is_word].
    rewrite unquote_quoted. done.
Qed.

Lemma denotes_iface i : valid_iface i = true -> denotes (iface_clause i) (MIif i).
Proof. intros [Hne HF]%valid_iface_chars. apply denotes_quoted; by eapply class_no_char. Qed.

(** The family of the clause is that of the address. *)
Definition source_is_v6 (src : string) : bool :=
  match parse_ip_addr (default src (head (str_split "/" src))) with
  | Some (V6 _) => true
  | _ => false
  end.

Lemma denotes_saddr src :
  valid_source src = true -> denotes (saddr_clause src) (MSaddr (source_is_v6 src) src).
Proof.
  intros [? ?]%valid_source_word. unfold saddr_clause, source_is_v6.
  destruct (parse_ip_addr _) as [[]|].
  all: match goal with
  | |- denotes ("ip saddr " +:+ _) _ =>
      apply (denotes3 "ip" "saddr" src)
  | |- denotes ("ip6 saddr " +:+ _) _ =>
      apply (denotes3 "ip6" "saddr" src)
  end; try done; try by apply word_ok_dec.
  all: repeat constructor; try done; by apply no_char_dec.
Qed.

Lemma transport_word t : word_ok (transport_str t) /\ no_char (chr 10) (transport_str t).
Proof. destruct t; (split; [by apply word_ok_dec|by apply no_char_dec]). Qed.

Lemma parse_transport_str t : parse_transport (transport_str t) = Some t.
Proof. by destruct t. Qed.

Lemma denotes_dport t w lo hi :
  word_ok w -> no_char (chr 10) w -> parse_range w = Some (lo, hi) ->
  denotes (transport_str t +:+ " dport " +:+ w) (MDport t lo hi).
Proof.
  intros Hw Hn Hr. destruct (transport_word t).
  apply (denotes3 (transport_str t) "dport" w); try done; try by apply word_ok_dec.
  - repeat constructor; try done. by apply no_char_dec.
  - by destruct t.
  - by destruct t.
  - by destruct t.
  - destruct t; cbn; by rewrite Hr.
Qed.

Lemma denotes_dport_one t p :
  0 <= p < 65536 -> denotes (dport_one (transport_str t) p) (MDport t p p).
Proof.
  intros. destruct (fmt_dec_word p) as [? ?]; [lia|].
  apply denotes_dport; [done..|by apply parse_range_one].
Qed.

Lemma denotes_dport_range t lo hi :
  0 <= lo < 65536 -> 0 <= hi < 65536 ->
  denotes (dport_range (transport_str t) lo hi) (MDport t lo hi).
Proof.
  intros. destruct (fmt_range_word lo hi) as [? ?]; [lia..|].
  apply denotes_dport; [done..|by apply parse_range_two].
Qed.

Lemma denotes_original : denotes "ct direction original" MOriginal.
Proof. apply (denotes3 "ct" "direction" "original"); try done; try by apply word_ok_dec.
  repeat constructor; by apply no_char_dec. Qed.

Lemma denotes_dnat : denotes "ct status dnat" MDnat.
Proof. apply (denotes3 "ct" "status" "dnat"); try done; try by apply word_ok_dec.
  repeat constructor; by apply no_char_dec. Qed.

Lemma denotes_l4proto t : denotes ("meta l4proto " +:+ transport_str t) (ML4proto t).
Proof.
  destruct (transport_word t). apply (denotes3 "meta" "l4proto" (transport_str t));
    try done; try by apply word_ok_dec.
  - repeat constructor; try done; by apply no_char_dec.
  - by destruct t.
Qed.

Lemma denotes_original_dst w lo hi :
  word_ok w -> no_char (chr 10) w -> parse_range w = Some (lo, hi) ->
  denotes ("ct original proto-dst " +:+ w) (MOriginalDst lo hi).
Proof.
  intros Hw Hn Hr.
  assert (words ("ct original proto-dst " +:+ w) = ["ct"; "original"; "proto-dst"; w]) as E.
  { change ("ct original proto-dst " +:+ w) with
      ("ct" +:+ String (chr 32) ("original" +:+ String (chr 32) ("proto-dst" +:+ String (chr 32) w))).
    rewrite !words_cons, words_one by (try done; by apply word_ok_dec). done. }
  split_and!.
  - no_char_solve.
  - rewrite E. destruct Hw as (_ & _ & ?). rewrite !not_elem_of_cons. split_and!; try done. apply not_elem_of_nil.
  - intros rest. rewrite E. cbn. rewrite Hr. done.
Qed.

(** *** Lines *)

Lemma parse_clauses conds ms rest :
  Forall2 denotes conds ms ->
  parse_rule ((conds ≫= words) ++ rest) =
  (r ← parse_rule rest ; Some (mkNrule (ms ++ nr_matches r) (nr_verdict r))).
Proof.
  induction 1 as [|s m conds ms (_ & _ & Hs) _ IH].
  - cbn. destruct (parse_rule rest) as [[]|]; done.
  - change ((s :: conds) ≫= words) with (words s ++ (conds ≫= words)).
    rewrite <- app_assoc, Hs, IH. by destruct (parse_rule rest).
Qed.

Lemma words_indent s : words ("        " +:+ s) = words s.
Proof.
  set (sp x := String (chr 32) x).
  change (words (sp (sp (sp (sp (sp (sp (sp (sp s)))))))) = words s).
  unfold sp. by rewrite !words_space.
Qed.

Lemma accept_line_parses conds ms comment :
  Forall2 denotes conds ms ->
  parse_rule (line_words ("        " +:+ str_join " " conds +:+ " accept # " +:+ comment)) =
  Some (mkNrule ms VAccept).
Proof.
  intros H. unfold line_words. rewrite words_indent.
  change (" accept # " +:+ comment) with
    (String (chr 32) ("accept" +:+ String (chr 32) ("#" +:+ String (chr 32) comment))).
  rewrite words_app, words_join, words_cons by (by apply word_ok_dec).
  rewrite (words_app "#"). change (words "#") with ["#"].
  change ("accept" :: ["#"] ++ ?x) with (["accept"] ++ "#" :: x).
  rewrite app_assoc, uncomment_app.
  - rewrite (parse_clauses _ _ ["accept"] H). cbn. by rewrite app_nil_r.
  - rewrite not_elem_of_app. split; [|set_solver].
    clear -H. induction H as [|s m conds ms (_ & Hs & _) _ IH]; simpl; [set_solver|].
    rewrite not_elem_of_app. done.
Qed.

Lemma accept_line_no_nl conds ms comment :
  Forall2 denotes conds ms -> no_char (chr 10) comment ->
  no_char (chr 10) ("        " +:+ str_join " " conds +:+ " accept # " +:+ comment).
Proof.
  intros H Hc. no_char_solve. unfold no_char, str_join. rewrite to_of_bytes.
  clear Hc. induction H as [|s m conds ms (Hs & _) _ IH]; [set_solver|].
  destruct conds; [exact Hs|]. change (join_bytes (to_bytes " ") (to_bytes <$> s :: s0 :: conds)) with
    (to_bytes s ++ to_bytes " " ++ join_bytes (to_bytes " ") (to_bytes <$> s0 :: conds)).
  rewrite !not_elem_of_app. split_and!; try done. by apply no_char_dec.
Qed.

Lemma parse_chain_rule l ls r :
  parse_rule (line_words l) = Some r ->
  parse_chain (l :: ls) = ('(rs, rest) ← parse_chain ls; Some (r :: rs, rest)).
Proof.
  intros H. cbn [parse_chain]. destruct (String.eqb_spec l "    }") as [->|]; [vm_compute in H; done|].
  destruct (line_words l) as [|w ws] eqn:E; [done|]. by rewrite H.
Qed.

Lemma parse_chain_app (lrs : list (string * nrule)) ls :
  Forall (fun lr => parse_rule (line_words (fst lr)) = Some (snd lr)) lrs ->
  parse_chain ((fst <$> lrs) ++ ls) =
  ('(rs, rest) ← parse_chain ls; Some ((snd <$> lrs) ++ rs, rest)).
Proof.
  induction 1 as [|[l r] lrs H _ IH].
  - cbn. destruct (parse_chain ls) as [[]|]; done.
  - change ((fst <$> (l, r) :: lrs) ++ ls) with (l :: ((fst <$> lrs) ++ ls)).
    rewrite (parse_chain_rule l _ r H), IH. by destruct (parse_chain ls) as [[]|].
Qed.
