(* ===== verification/FirewallPolicy.v ===== *)
(** * The policy of a firewall configuration

    The policy an administrator reads off the configuration, the rules it
    stands for, and the proof that the batch firewall.rs renders parses to
    those rules and that the kernel, evaluating them, admits exactly what the
    policy admits. *)

From Stdlib Require Import ZArith Lia Ascii String.
From stdpp Require Import base list gmap strings.
From S2P Require Import Prelude RustStr Text RustVec Net Webui Protocol Firewall Nft.

(** ** The policy an administrator reads off the configuration *)

Definition source_allows (src : option string) (pk : packet) : bool :=
  match src with None => true | Some s => in_network s (pk_src pk) end.
Definition iface_allows (i : option string) (pk : packet) : bool :=
  match i with None => true | Some n => String.eqb (pk_iif pk) n end.

Definition port_admits (pk : packet) (p : PortSpec) : bool :=
  iface_allows (iface p) pk && source_allows (source p) pk &&
  dport_in (transport p) (port p) (default (port p) (port_to p)) (pk_l4 pk).

Definition service_admits (pk : packet) (r : FirewallRule) : bool :=
  active r && existsb (port_admits pk) (ports r).

Definition custom_admits (pk : packet) (r : CustomRule) : bool :=
  cr_enabled r && iface_allows (cr_iface r) pk && source_allows (cr_source r) pk &&
  dport_in (cr_transport r) (cr_from r) (cr_to r) (pk_l4 pk).

Definition icmp_packet (pk : packet) : bool :=
  match pk_l4 pk with
  | Icmp => negb (is_v6 (pk_src pk))
  | Icmpv6 => is_v6 (pk_src pk)
  | _ => false
  end.

Definition relay_admits (relay : list nrule) (pk : packet) : bool :=
  existsb (rule_matches pk) relay.

Definition policy_admits (c : FirewallConfig) (relay : list nrule) (pk : packet) : bool :=
  pk_established pk ||
  (negb (pk_invalid pk) &&
   (pk_loopback pk || icmp_packet pk || dport_in Udp 546 546 (pk_l4 pk) || relay_admits relay pk ||
    existsb (service_admits pk) (fc_rules c) || existsb (custom_admits pk) (fc_custom c))).

Definition published_admits (pk : packet) (p : PublishedAppPort) : bool :=
  match parse_transport (to_ascii_lowercase (pub_transport p)) with
  | Some t => l4_is t (pk_l4 pk) && (pk_orig_dport pk =? host_port p)
  | None => false
  end.

Definition custom_forwards (pk : packet) (r : CustomRule) : bool :=
  cr_enabled r && iface_allows (cr_iface r) pk && source_allows (cr_source r) pk &&
  l4_is (cr_transport r) (pk_l4 pk) && (cr_from r <=? pk_orig_dport pk) &&
  (pk_orig_dport pk <=? cr_to r).

(** Translated traffic of the original direction needs a published or custom
    port; all else is forwarded. *)
Definition policy_forwards (c : FirewallConfig) (pk : packet) : bool :=
  negb (pk_original pk && pk_dnat pk) ||
  existsb (published_admits pk) (fc_published c) || existsb (custom_forwards pk) (fc_custom c).

(** ** The rules a configuration stands for *)

Definition opt_matches (ifc src : option string) : list nmatch :=
  (MIif <$> option_list ifc) ++ ((fun s => MSaddr (source_is_v6 s) s) <$> option_list src).

Definition port_rule (p : PortSpec) : nrule :=
  mkNrule (opt_matches (iface p) (source p) ++
    [MDport (transport p) (port p) (default (port p) (port_to p))]) VAccept.

Definition service_rules (r : FirewallRule) : list nrule :=
  if active r then port_rule <$> ports r else [].

Definition custom_input_rules (r : CustomRule) : list nrule :=
  if cr_enabled r then
    [mkNrule (opt_matches (cr_iface r) (cr_source r) ++
       [MDport (cr_transport r) (cr_from r) (cr_to r)]) VAccept]
  else [].

Definition published_rules (p : PublishedAppPort) : list nrule :=
  match parse_transport (to_ascii_lowercase (pub_transport p)) with
  | Some t => [mkNrule [MOriginal; MDnat; ML4proto t; MOriginalDst (host_port p) (host_port p)] VAccept]
  | None => []
  end.

Definition custom_forward_rules (r : CustomRule) : list nrule :=
  if cr_enabled r then
    [mkNrule ([MOriginal; MDnat] ++ opt_matches (cr_iface r) (cr_source r) ++
       [ML4proto (cr_transport r); MOriginalDst (cr_from r) (cr_to r)]) VAccept]
  else [].

Definition header_rules : list nrule :=
  [mkNrule [MEstablished] VAccept; mkNrule [MInvalid] VDrop; mkNrule [MLoopback] VAccept;
   mkNrule [MIcmp] VAccept; mkNrule [MIcmpv6] VAccept; mkNrule [MDport Udp 546 546] VAccept;
   mkNrule [] (VJump "dhcp_relay")].

Definition ruleset_of (c : FirewallConfig) (relay : list nrule) : ruleset :=
  mkRuleset (header_rules ++ (fc_rules c ≫= service_rules) ++ (fc_custom c ≫= custom_input_rules))
    ((fc_published c ≫= published_rules) ++ (fc_custom c ≫= custom_forward_rules) ++
     [mkNrule [MOriginal; MDnat] VDrop]) relay.

(** ** Well-formed fields *)

Definition u16 (p : Z) : Prop := 0 <= p < 65536.
Definition opt_valid (f : string -> bool) (o : option string) : Prop :=
  match o with Some s => f s = true | None => True end.

Definition port_fields_ok (p : PortSpec) : Prop :=
  u16 (port p) /\ u16 (default (port p) (port_to p)) /\
  opt_valid valid_source (source p) /\ opt_valid valid_iface (iface p).

Definition custom_fields_ok (r : CustomRule) : Prop :=
  u16 (cr_from r) /\ u16 (cr_to r) /\ opt_valid valid_source (cr_source r) /\
  opt_valid valid_iface (cr_iface r) /\ no_char (chr 10) (cr_id r).

Definition rule_fields_ok (r : FirewallRule) : Prop :=
  no_char (chr 10) (service r) /\ Forall port_fields_ok (ports r).

Definition config_fields_ok (c : FirewallConfig) : Prop :=
  Forall rule_fields_ok (fc_rules c) /\ Forall custom_fields_ok (fc_custom c) /\
  Forall (fun p => u16 (host_port p)) (fc_published c).

(** ** Rendering is read back *)

(** [renders text rs]: the text is a sequence of complete lines, each read as
    the rule next to it. *)
Definition renders (text : string) (rs : list nrule) : Prop :=
  exists lrs : list (string * nrule),
    text = concat_str (line <$> (fst <$> lrs)) /\ snd <$> lrs = rs /\
    Forall (fun lr => parse_rule (line_words (fst lr)) = Some (snd lr) /\
                      no_char (chr 10) (fst lr)) lrs.

Lemma renders_nil : renders "" [].
Proof. by exists []. Qed.

Lemma renders_app t1 t2 r1 r2 : renders t1 r1 -> renders t2 r2 -> renders (t1 +:+ t2) (r1 ++ r2).
Proof.
  intros (l1 & -> & <- & H1) (l2 & -> & <- & H2). exists (l1 ++ l2).
  rewrite !fmap_app, concat_str_app, Forall_app. done.
Qed.

Lemma renders_accept conds ms comment :
  Forall2 denotes conds ms -> no_char (chr 10) comment ->
  renders (accept_line conds comment) [mkNrule ms VAccept].
Proof.
  intros H Hc. eexists [(_, _)]. split_and!; cycle 1.
  - reflexivity.
  - constructor; [|constructor]. split; [by apply accept_line_parses|by eapply accept_line_no_nl].
  - unfold accept_line. cbn. by rewrite string_app_nil.
Qed.

Lemma renders_concat {A} (f : A -> string) (g : A -> list nrule) (P : A -> Prop) l :
  (forall x, P x -> renders (f x) (g x)) -> Forall P l -> renders (concat_str (f <$> l)) (l ≫= g).
Proof.
  intros H. induction 1 as [|x l Hx _ IH]; [apply renders_nil|].
  change (renders (f x +:+ concat_str (f <$> l)) (g x ++ (l ≫= g))). apply renders_app; auto.
Qed.

Lemma opt_clauses_denote ifc src :
  opt_valid valid_iface ifc -> opt_valid valid_source src ->
  Forall2 denotes (opt_clauses ifc src) (opt_matches ifc src).
Proof.
  intros Hi Hs. apply Forall2_app.
  - destruct ifc; [|constructor]. constructor; [by apply denotes_iface|constructor].
  - destruct src; [|constructor]. constructor; [by apply denotes_saddr|constructor].
Qed.

Lemma renders_port svc p :
  no_char (chr 10) svc -> port_fields_ok p -> renders (render_port svc p) [port_rule p].
Proof.
  intros Hs (Hp & Ht & Hsrc & Hif). apply renders_accept; [|done].
  apply Forall2_app; [by apply opt_clauses_denote|]. constructor; [|constructor].
  destruct (port_to p); [by apply denotes_dport_range|by apply denotes_dport_one].
Qed.

Lemma bind_singleton {A B} (f : A -> B) l : l ≫= (fun x => [f x]) = f <$> l.
Proof. induction l as [|x l IH]; [done|]. cbn. by rewrite <- IH. Qed.

Lemma renders_service r : rule_fields_ok r -> renders (render_service r) (service_rules r).
Proof.
  intros [Hs Hp]. unfold render_service, service_rules. destruct (active r); [|apply renders_nil].
  rewrite <- (bind_singleton port_rule). eapply renders_concat; [|exact Hp]. intros. by apply renders_port.
Qed.

Lemma renders_custom_input r :
  custom_fields_ok r -> renders (render_custom_input r) (custom_input_rules r).
Proof.
  intros (Hf & Ht & Hsrc & Hif & Hid). unfold render_custom_input, custom_input_rules.
  destruct (cr_enabled r); [|apply renders_nil]. apply renders_accept; [|no_char_solve].
  apply Forall2_app; [by apply opt_clauses_denote|]. constructor; [|constructor].
  destruct (Z.eqb_spec (cr_from r) (cr_to r)) as [E|]; [rewrite E; by apply denotes_dport_one|].
  by apply denotes_dport_range.
Qed.

Lemma renders_custom_forward r :
  custom_fields_ok r -> renders (render_custom_forward r) (custom_forward_rules r).
Proof.
  intros (Hf & Ht & Hsrc & Hif & Hid). unfold render_custom_forward, custom_forward_rules.
  destruct (cr_enabled r); [|apply renders_nil]. apply renders_accept; [|no_char_solve].
  apply Forall2_app.
  { constructor; [apply denotes_original|]. constructor; [apply denotes_dnat|constructor]. }
  apply Forall2_app; [by apply opt_clauses_denote|].
  constructor; [apply denotes_l4proto|]. constructor; [|constructor].
  destruct (Z.eqb_spec (cr_from r) (cr_to r)) as [E|].
  - rewrite E. destruct (fmt_dec_word (cr_to r)); [unfold u16 in *; lia|].
    apply denotes_original_dst; [done..|by apply parse_range_one].
  - destruct (fmt_range_word (cr_from r) (cr_to r)); [unfold u16 in *; lia..|].
    apply denotes_original_dst; [done..|by apply parse_range_two].
Qed.

Lemma renders_published p : u16 (host_port p) -> renders (render_published p) (published_rules p).
Proof.
  intros Hp. unfold render_published, published_rules, parse_transport.
  set (t := to_ascii_lowercase (pub_transport p)).
  assert (forall tr, renders
    (line ("        ct direction original ct status dnat meta l4proto " +:+ transport_str tr +:+
       " ct original proto-dst " +:+ fmt_dec (host_port p) +:+ " accept # app-published"))
    [mkNrule [MOriginal; MDnat; ML4proto tr; MOriginalDst (host_port p) (host_port p)] VAccept]) as Hr.
  { intros tr.
    replace (line _) with (accept_line ["ct direction original"; "ct status dnat";
      "meta l4proto " +:+ transport_str tr; "ct original proto-dst " +:+ fmt_dec (host_port p)]
      "app-published").
    - apply renders_accept; [|by apply no_char_dec].
      constructor; [apply denotes_original|]. constructor; [apply denotes_dnat|].
      constructor; [apply denotes_l4proto|]. constructor; [|constructor].
      destruct (fmt_dec_word (host_port p)); [unfold u16 in *; lia|].
      apply denotes_original_dst; [done..|by apply parse_range_one].
    - unfold accept_line. f_equal. apply to_bytes_inj. unfold str_join.
      rewrite !to_bytes_app, to_of_bytes. cbn [fmap list_fmap join_bytes].
      rewrite !to_bytes_app, <- !app_assoc. done. }
  destruct (String.eqb t "tcp"); [apply (Hr Tcp)|].
  destruct (String.eqb t "udp"); [apply (Hr Udp)|apply renders_nil].
Qed.

Lemma renders_lines text rs :
  renders text rs ->
  exists ls, (forall s, lines (text +:+ s) = ls ++ lines s) /\
    forall rest, parse_chain (ls ++ rest) = ('(rs', rest') ← parse_chain rest; Some (rs ++ rs', rest')).
Proof.
  intros (lrs & -> & <- & HF). exists (fst <$> lrs). split.
  - intros s. apply lines_concat. apply Forall_fmap. eapply Forall_impl; [exact HF|]. by intros lr [_ ?].
  - intros rest. apply parse_chain_app. eapply Forall_impl; [exact HF|]. by intros lr [? _].
Qed.

Lemma parse_chain_comment l ls :
  String.eqb l "    }" = false -> line_words l = [] -> parse_chain (l :: ls) = parse_chain ls.
Proof. intros H1 H2. cbn [parse_chain]. by rewrite H1, H2. Qed.

(** Read one fixed line of the table. *)
Ltac fixed_line :=
  match goal with
  | |- context [parse_chain (?l :: ?ls)] =>
      first [ rewrite (parse_chain_comment l ls eq_refl eq_refl)
            | erewrite (parse_chain_rule l ls) by (vm_compute; reflexivity) ]
  end.

Lemma parse_header ls :
  parse_chain (drop 4 input_header ++ ls) =
  ('(rs, rest) ← parse_chain ls; Some (header_rules ++ rs, rest)).
Proof.
  unfold input_header. cbn [drop app]. repeat fixed_line. by destruct (parse_chain ls) as [[]|].
Qed.

Lemma parse_forward_start ls : parse_chain (drop 3 forward_header ++ ls) = parse_chain ls.
Proof. unfold forward_header. cbn [drop app]. by fixed_line. Qed.

Lemma parse_footer ls :
  parse_chain (table_footer ++ ls) = Some ([mkNrule [MOriginal; MDnat] VDrop], "}" :: ls).
Proof. unfold table_footer. cbn [app]. by fixed_line. Qed.

Lemma expect_app hd ls : expect hd (hd ++ ls) = Some ls.
Proof. induction hd as [|h hd IH]; cbn; [done|]. by rewrite String.eqb_refl. Qed.

Lemma no_nl_all ls : forallb (fun l => bool_decide (chr 10 ∉ to_bytes l)) ls = true ->
  Forall (no_char (chr 10)) ls.
Proof.
  rewrite forallb_forall. intros H. apply Forall_forall. intros l Hl.
  apply no_char_dec, H. by apply list_elem_of_In.
Qed.

(** The batch parses to exactly the rules the configuration stands for. *)
Lemma parse_render c policy relay :
  config_fields_ok c -> parse_policy (lines policy) = Some relay ->
  parse_transaction (render_config c +:+ policy) = Some (ruleset_of c relay).
Proof.
  intros (Hr & Hc & Hp) Hpol. unfold render_config, render_transaction, render_ruleset_with_published.
  rewrite !concat_str_app, !string_app_assoc.
  pose proof (renders_concat render_service _ _ _ renders_service Hr) as R1.
  pose proof (renders_concat render_custom_input _ _ _ renders_custom_input Hc) as R2.
  pose proof (renders_concat render_published _ _ _ renders_published Hp) as R3.
  pose proof (renders_concat render_custom_forward _ _ _ renders_custom_forward Hc) as R4.
  unfold parse_transaction. rewrite lines_cons by (by apply no_char_dec).
  rewrite lines_concat by (by apply no_nl_all).
  destruct (renders_lines _ _ R1) as (l1 & E1 & P1). rewrite E1.
  destruct (renders_lines _ _ R2) as (l2 & E2 & P2). rewrite E2.
  rewrite lines_concat by (by apply no_nl_all).
  destruct (renders_lines _ _ R3) as (l3 & E3 & P3). rewrite E3.
  destruct (renders_lines _ _ R4) as (l4 & E4 & P4). rewrite E4.
  rewrite lines_concat by (by apply no_nl_all).
  change ("destroy table inet nasty" :: input_header ++ ?x) with
    (("destroy table inet nasty" :: take 4 input_header) ++ (drop 4 input_header ++ x)).
  rewrite expect_app. cbn [mbind option_bind].
  rewrite parse_header, P1, P2.
  change (forward_header ++ ?x) with ("    }" :: (take 2 (drop 1 forward_header) ++ (drop 3 forward_header ++ x))).
  cbn [parse_chain]. change (String.eqb "    }" "    }") with true. cbn [mbind option_bind].
  rewrite expect_app. cbn [mbind option_bind].
  rewrite parse_forward_start, P3, P4, parse_footer. cbn [mbind option_bind].
  change ("}" :: ?x) with (["}"] ++ x). rewrite expect_app. cbn [mbind option_bind].
  rewrite Hpol. cbn [mbind option_bind]. unfold ruleset_of. by rewrite !app_nil_r.
Qed.

(** ** Evaluation is the policy *)

Lemma eval_chain_app relay pk a b :
  eval_chain relay pk (a ++ b) =
  match eval_chain relay pk a with Some v => Some v | None => eval_chain relay pk b end.
Proof.
  induction a as [|r a IH]; cbn; [done|]. destruct (rule_matches pk r); [|done].
  destruct (nr_verdict r); [done..|]. by destruct (eval_leaf pk relay).
Qed.

Definition accepts_only (rs : list nrule) : Prop := Forall (fun r => nr_verdict r = VAccept) rs.

Lemma eval_accepts relay pk rs :
  accepts_only rs ->
  eval_chain relay pk rs = if existsb (rule_matches pk) rs then Some true else None.
Proof.
  induction 1 as [|r rs Hr _ IH]; cbn; [done|]. rewrite Hr. by destruct (rule_matches pk r).
Qed.

Lemma eval_leaf_accepts pk rs :
  accepts_only rs -> eval_leaf pk rs = if relay_admits rs pk then Some true else None.
Proof.
  unfold relay_admits. induction 1 as [|r rs Hr _ IH]; cbn; [done|]. rewrite Hr.
  by destruct (rule_matches pk r).
Qed.

Lemma accepts_only_bind {A} (f : A -> list nrule) l :
  (forall x, accepts_only (f x)) -> accepts_only (l ≫= f).
Proof.
  intros H. induction l as [|x l IH]; [constructor|].
  change (accepts_only (f x ++ (l ≫= f))). apply Forall_app. split; [apply H|apply IH].
Qed.

Lemma service_rules_accept r : accepts_only (service_rules r).
Proof.
  unfold service_rules. destruct (active r); [|constructor].
  induction (ports r); cbn; by constructor.
Qed.
Lemma custom_input_rules_accept r : accepts_only (custom_input_rules r).
Proof. unfold custom_input_rules. destruct (cr_enabled r); by repeat constructor. Qed.
Lemma published_rules_accept p : accepts_only (published_rules p).
Proof. unfold published_rules. destruct (parse_transport _); by repeat constructor. Qed.
Lemma custom_forward_rules_accept r : accepts_only (custom_forward_rules r).
Proof. unfold custom_forward_rules. destruct (cr_enabled r); by repeat constructor. Qed.

Lemma split_once_head s :
  fst (match split_once "/" s with Some (a, p) => (a, Some p) | None => (s, None) end) =
  default s (head (str_split "/" s)).
Proof.
  unfold split_once, str_split. pose proof (split_once_bytes_spec "/" (to_bytes s)) as H.
  destruct (split_once_bytes "/" (to_bytes s)) as [[a b]|]; cbn.
  - destruct H as [E Ha]. rewrite E, split_bytes_app by done. done.
  - rewrite split_bytes_no_sep_id by done. cbn. by rewrite of_to_bytes.
Qed.

(** The family named in the clause never excludes an address of the network. *)
Lemma saddr_match pk s :
  match_one pk (MSaddr (source_is_v6 s) s) = in_network s (pk_src pk).
Proof.
  cbn. unfold in_network, source_is_v6. pose proof (split_once_head s) as H.
  destruct (match split_once "/" s with Some (a, p) => (a, Some p) | None => (s, None) end) as [a p].
  cbn in H. subst a. destruct (parse_ip_addr _) as [[]|], (pk_src pk); cbn; try done;
    by rewrite ?andb_false_r.
Qed.

Lemma opt_matches_spec pk ifc src :
  forallb (match_one pk) (opt_matches ifc src) = iface_allows ifc pk && source_allows src pk.
Proof.
  unfold opt_matches. rewrite forallb_app. f_equal.
  - destruct ifc; cbn; [by rewrite andb_true_r|done].
  - destruct src as [s|]; [|done].
    change (match_one pk (MSaddr (source_is_v6 s) s) && true = in_network s (pk_src pk)).
    by rewrite saddr_match, andb_true_r.
Qed.

Lemma existsb_bind {A B} (f : A -> list B) (p : B -> bool) l :
  existsb p (l ≫= f) = existsb (fun x => existsb p (f x)) l.
Proof.
  induction l as [|x l IH]; [done|]. change ((x :: l) ≫= f) with (f x ++ (l ≫= f)).
  by rewrite existsb_app, IH.
Qed.

Lemma existsb_ext_eq {A} (p q : A -> bool) l : (forall x, p x = q x) -> existsb p l = existsb q l.
Proof. intros H. induction l; cbn; [done|]. by rewrite H, IHl. Qed.

Lemma port_rule_matches pk p : rule_matches pk (port_rule p) = port_admits pk p.
Proof.
  unfold rule_matches, port_rule, port_admits. cbn [nr_matches].
  rewrite forallb_app, opt_matches_spec. cbn [forallb match_one]. by rewrite andb_true_r.
Qed.

Lemma service_rules_match pk r :
  existsb (rule_matches pk) (service_rules r) = service_admits pk r.
Proof.
  unfold service_rules, service_admits. destruct (active r); [|done]. cbn [andb].
  induction (ports r) as [|p ps IH]; [done|].
  change (rule_matches pk (port_rule p) || existsb (rule_matches pk) (port_rule <$> ps) =
    port_admits pk p || existsb (port_admits pk) ps).
  by rewrite port_rule_matches, IH.
Qed.

Lemma custom_input_rules_match pk r :
  existsb (rule_matches pk) (custom_input_rules r) = custom_admits pk r.
Proof.
  unfold custom_input_rules, custom_admits. destruct (cr_enabled r); [|done].
  cbn [existsb]. unfold rule_matches. cbn [nr_matches].
  rewrite forallb_app, opt_matches_spec. cbn [forallb match_one andb].
  by rewrite orb_false_r, andb_true_r.
Qed.

Lemma custom_forward_rules_match pk r :
  existsb (rule_matches pk) (custom_forward_rules r) =
  pk_original pk && pk_dnat pk && custom_forwards pk r.
Proof.
  unfold custom_forward_rules, custom_forwards.
  destruct (cr_enabled r); [|cbn; by rewrite andb_false_r].
  cbn [existsb]. unfold rule_matches. cbn [nr_matches].
  rewrite !forallb_app, opt_matches_spec. cbn [forallb match_one andb].
  rewrite orb_false_r, !andb_true_r. by rewrite !andb_assoc.
Qed.

Lemma published_rules_match pk p :
  existsb (rule_matches pk) (published_rules p) =
  pk_original pk && pk_dnat pk && published_admits pk p.
Proof.
  unfold published_rules, published_admits.
  destruct (parse_transport _) as [t|]; [|cbn; by rewrite andb_false_r].
  cbn [existsb]. unfold rule_matches. cbn [nr_matches forallb match_one].
  rewrite orb_false_r, andb_true_r, !andb_assoc.
  replace (pk_orig_dport pk =? host_port p)
    with ((host_port p <=? pk_orig_dport pk) && (pk_orig_dport pk <=? host_port p)) by lia.
  by rewrite !andb_assoc.
Qed.

Lemma existsb_and_const {A} (b : bool) (p : A -> bool) l :
  existsb (fun x => b && p x) l = b && existsb p l.
Proof. induction l as [|x l IH]; cbn; [by rewrite andb_false_r|]. rewrite IH. by destruct b. Qed.

Lemma input_accepts_policy c relay pk :
  accepts_only relay -> input_accepts (ruleset_of c relay) pk = policy_admits c relay pk.
Proof.
  intros Hrel. unfold input_accepts, ruleset_of, policy_admits. cbn [rs_input rs_relay].
  rewrite !eval_chain_app.
  rewrite (eval_accepts _ _ (fc_rules c ≫= _)) by apply accepts_only_bind, service_rules_accept.
  rewrite (eval_accepts _ _ (fc_custom c ≫= _)) by apply accepts_only_bind, custom_input_rules_accept.
  rewrite !existsb_bind.
  rewrite (existsb_ext_eq _ _ (fc_rules c) (service_rules_match pk)).
  rewrite (existsb_ext_eq _ _ (fc_custom c) (custom_input_rules_match pk)).
  unfold header_rules. cbn [eval_chain rule_matches nr_matches forallb match_one nr_verdict].
  rewrite eval_leaf_accepts by done. unfold icmp_packet. rewrite !andb_true_r.
  destruct (pk_established pk), (pk_invalid pk), (pk_loopback pk); try done.
  cbn [orb andb negb].
  destruct (pk_l4 pk) as [| |t sp dp|]; cbn [dport_in orb].
  - destruct (is_v6 (pk_src pk)); cbn [negb orb]; [|done].
    destruct (relay_admits relay pk), (existsb (service_admits pk) _), (existsb (custom_admits pk) _); done.
  - destruct (is_v6 (pk_src pk)); cbn [negb orb]; [done|].
    destruct (relay_admits relay pk), (existsb (service_admits pk) _), (existsb (custom_admits pk) _); done.
  - destruct (_ && _); cbn [orb]; [done|].
    destruct (relay_admits relay pk), (existsb (service_admits pk) _), (existsb (custom_admits pk) _); done.
  - destruct (relay_admits relay pk), (existsb (service_admits pk) _), (existsb (custom_admits pk) _); done.
Qed.

Lemma forward_accepts_policy c relay pk :
  forward_accepts (ruleset_of c relay) pk = policy_forwards c pk.
Proof.
  unfold forward_accepts, ruleset_of, policy_forwards. cbn [rs_forward rs_relay].
  rewrite !eval_chain_app.
  rewrite (eval_accepts _ _ (fc_published c ≫= _)) by apply accepts_only_bind, published_rules_accept.
  rewrite (eval_accepts _ _ (fc_custom c ≫= _)) by apply accepts_only_bind, custom_forward_rules_accept.
  rewrite !existsb_bind.
  rewrite (existsb_ext_eq _ _ (fc_published c) (published_rules_match pk)).
  rewrite (existsb_ext_eq _ _ (fc_custom c) (custom_forward_rules_match pk)).
  rewrite !existsb_and_const. cbn [eval_chain rule_matches nr_matches forallb match_one nr_verdict].
  rewrite andb_true_r.
  destruct (pk_original pk), (pk_dnat pk); cbn [andb negb orb]; try done.
  destruct (existsb (published_admits pk) _), (existsb (custom_forwards pk) _); done.
Qed.
