(* ===== verification/FirewallProps.v ===== *)
(** * What the firewall service guarantees

    The well-formedness of the configuration and the agreement of kernel,
    memory and files as an invariant of every operation, with nft, renames and
    rollbacks failing arbitrarily; the theorems about live rules, restrictions,
    custom rules and failures. *)

From Stdlib Require Import ZArith Lia Ascii String.
From stdpp Require Import base list gmap strings.
From S2P Require Import Prelude RustStr Text RustVec Net Webui Protocol Firewall Nft FirewallPolicy.

(** ** Well-formed configurations *)

Definition known_service (s : string) : Prop :=
  s = "webui" \/ s = "rdma" \/ s = "dc" \/ exists p, s = protocol_name p.

Definition within (allowed : list string) (o : option string) : Prop :=
  allowed = [] \/ exists x, o = Some x /\ x ∈ allowed.

Definition port_ok (sources ifaces : list string) (p : PortSpec) : Prop :=
  port_fields_ok p /\ within sources (source p) /\ within ifaces (iface p).

Definition rule_ok (r : FirewallRestrictions) (rule : FirewallRule) : Prop :=
  known_service (service rule) /\
  Forall (port_ok (sources_of r (service rule)) (ifaces_of r (service rule))) (ports rule).

Definition all_valid (f : string -> bool) (m : gmap string (list string)) : Prop :=
  map_Forall (fun _ l => Forall (fun s => f s = true) l) m.

Definition restrictions_ok (r : FirewallRestrictions) : Prop :=
  all_valid valid_source (r_services r) /\ all_valid valid_iface (r_interfaces r).

(** What [same_rule] compares. *)
Definition custom_key (r : CustomRule) : Transport * Z * Z * option string * option string :=
  (cr_transport r, cr_from r, cr_to r, cr_source r, cr_iface r).

Definition custom_ok (l : list CustomRule) : Prop :=
  Forall (fun r => custom_fields_ok r /\ 1 <= cr_from r <= cr_to r) l /\
  NoDup (cr_id <$> l) /\ NoDup (custom_key <$> l).

Definition rules_ok (r : FirewallRestrictions) (rules : list FirewallRule) : Prop :=
  NoDup (service <$> rules) /\ Forall (rule_ok r) rules.

Definition config_ok (c : FirewallConfig) : Prop :=
  rules_ok (fc_restrictions c) (fc_rules c) /\ restrictions_ok (fc_restrictions c) /\
  custom_ok (fc_custom c) /\ Forall (fun p => u16 (host_port p)) (fc_published c).

Definition file_ok {A} (P : A -> Prop) (f : JsonFile A) : Prop :=
  match f with GoodFile a => P a | _ => True end.

(** A relay policy: additions of accepting rules to the relay chain. *)
Definition policy_ok (policy : string) : Prop :=
  exists relay, parse_policy (lines policy) = Some relay /\ accepts_only relay.

(** The configuration the kernel has: the one in memory, unless a batch took
    effect though its submission was reported failed, and none was reported
    committed since. *)
Definition live_config (w : FwWorld) : FirewallConfig := default (fw_config w) (fw_doubt w).

Definition live_matches (w : FwWorld) : Prop :=
  exists policy, fw_live w = Some (render_config (live_config w) +:+ policy) /\ policy_ok policy.

Definition fw_inv (w : FwWorld) : Prop :=
  config_ok (fw_config w) /\ file_ok restrictions_ok (fw_restrictions_file w) /\
  file_ok custom_ok (fw_custom_file w) /\ config_ok (live_config w) /\ live_matches w.

(** The relay policy read with a batch was written by the relay. *)
Definition relay_ok (o : NftEnv) : Prop := match n_policy o with Ok p => policy_ok p | Err _ => True end.

Definition env_ok (e : FwEnv) : Prop := relay_ok (f_apply e) /\ relay_ok (f_rollback e).

(** The submission is reported failed, but takes effect. *)
Definition took_effect (o : NftEnv) : bool :=
  match n_policy o, n_check o, n_submit o with Ok _, None, Failed b _ => b | _, _, _ => false end.

(** It is refused or reported failed, whatever the batch contains. *)
Definition nft_fails (o : NftEnv) : bool :=
  match n_policy o, n_check o, n_submit o with Ok _, None, Done => false | _, _, _ => true end.

Lemma known_service_no_nl s : known_service s -> no_char (chr 10) s.
Proof.
  intros [->|[->|[->|[p ->]]]]; [by apply no_char_dec..|]. destruct p; by apply no_char_dec.
Qed.

Lemma config_ok_fields c : config_ok c -> config_fields_ok c.
Proof.
  intros ((_ & Hr) & _ & (Hc & _) & Hp). split_and!; [..|done].
  - eapply Forall_impl; [exact Hr|]. intros r [Hs HF]. split; [by apply known_service_no_nl|].
    eapply Forall_impl; [exact HF|]. by intros p [? _].
  - eapply Forall_impl; [exact Hc|]. by intros r [? _].
Qed.

(** ** The transaction *)

Definition commit_file_r (s : option StagedJson) (w : FwWorld) : JsonFile FirewallRestrictions :=
  match s with Some (StageRestrictions r) => GoodFile r | _ => fw_restrictions_file w end.
Definition commit_file_c (s : option StagedJson) (w : FwWorld) : JsonFile (list CustomRule) :=
  match s with Some (StageCustom c) => GoodFile c | _ => fw_custom_file w end.

(** The live batch is that of configuration [c]. *)
Definition runs (c : FirewallConfig) (w : FwWorld) : Prop :=
  live_config w = c /\ exists policy, fw_live w = Some (render_config c +:+ policy) /\ policy_ok policy.

(** What is left behind by an operation that failed, the files as before in
    each case: kernel and memory as before; the memory as before, and the
    kernel back on it; the memory as before, and the kernel on the new rules,
    whose submission was reported failed; or, when the file could not be
    replaced and putting the old rules back was reported failed, the new rules
    in memory, and in the kernel too unless the old ones came back after all. *)
Inductive failed_from (env : FwEnv) (w : FwWorld) (c' : FirewallConfig) (w' : FwWorld) : Prop :=
| failed_unchanged : w' = w -> failed_from env w c' w'
| failed_restored : fw_config w' = fw_config w -> runs (fw_config w) w' -> failed_from env w c' w'
| failed_live : took_effect (f_apply env) = true -> fw_config w' = fw_config w -> runs c' w' -> failed_from env w c' w'
| failed_stuck : is_Some (f_rename env) -> nft_fails (f_rollback env) = true -> fw_config w' = c' ->
    runs (if took_effect (f_rollback env) then fw_config w else c') w' -> failed_from env w c' w'.

Definition same_files (w w' : FwWorld) : Prop :=
  fw_restrictions_file w' = fw_restrictions_file w /\ fw_custom_file w' = fw_custom_file w.

Lemma apply_nftables_spec o c w :
  relay_ok o ->
  match apply_nftables_with o c w with
  | (w', Ok _) => exists policy, policy_ok policy /\ w' = set_live (render_config c +:+ policy) None w
  | (w', Err _) => nft_fails o = true /\
      if took_effect o then exists policy, policy_ok policy /\ w' = set_live (render_config c +:+ policy) (Some c) w else w' = w
  end.
Proof.
  unfold relay_ok, apply_nftables_with, nft_fails, took_effect. destruct (n_policy o) as [pol|]; [|done].
  destruct (n_check o); [done|]. intros Hp. destruct (n_submit o) as [|[] e]; eauto 10.
Qed.

Lemma commit_candidate_spec env cand staged w :
  env_ok env ->
  match commit_candidate env cand staged w with
  | (w', Ok _) => exists policy, policy_ok policy /\
      w' = mkFwWorld cand (Some (render_config cand +:+ policy))
             (commit_file_r staged w) (commit_file_c staged w) None
  | (w', Err _) => same_files w w' /\ failed_from env w cand w'
  end.
Proof.
  intros [Ha Hr]. unfold commit_candidate.
  pose proof (apply_nftables_spec (f_apply env) cand w Ha) as H1.
  destruct (apply_nftables_with (f_apply env) cand w) as [w1 [[]|e1]].
  2:{ destruct H1 as [_ H1]. destruct (took_effect (f_apply env)) eqn:Et.
      - destruct H1 as (pol & Hpol & ->). split; [done|]. apply failed_live; [done..|]. split; [done|eauto].
      - subst w1. split; [done|]. by apply failed_unchanged. }
  destruct H1 as (pol & Hpol & ->). destruct staged as [s|]; [|by exists pol].
  unfold staged_commit. destruct (f_rename env) as [re|] eqn:Ere.
  2:{ exists pol. split; [done|]. by destruct s. }
  pose proof (apply_nftables_spec (f_rollback env) (fw_config w) (set_live (render_config cand +:+ pol) None w) Hr) as H2.
  destruct (apply_nftables_with (f_rollback env) (fw_config w) _) as [w3 [[]|e3]].
  - destruct H2 as (pol2 & ? & ->). split; [done|]. apply failed_restored; [done|]. split; [done|eauto].
  - destruct H2 as [Hf H2]. assert (same_files w w3 /\ runs (if took_effect (f_rollback env) then fw_config w else cand) (set_config cand w3)) as [Hs Hl].
    { destruct (took_effect (f_rollback env)); [destruct H2 as (pol2 & ? & ->)|subst w3]; (split; [done|]); (split; [done|eauto]). }
    split; [done|]. apply failed_stuck; [by rewrite Ere|done..].
Qed.

Lemma failed_from_inv env w c' w' :
  fw_inv w -> config_ok c' -> same_files w w' -> failed_from env w c' w' -> fw_inv w'.
Proof.
  intros (Hc & Hr & Hcf & Hlc & Hl) Hc' [E1 E2] Hf. unfold fw_inv. rewrite E1, E2.
  destruct Hf as [->|Ec [El Hx]|_ Ec [El Hx]|_ _ Ec [El Hx]]; [done|..]; unfold live_matches; rewrite Ec, El; split_and!; try done;
    by destruct (took_effect (f_rollback env)).
Qed.

Definition staged_ok (s : option StagedJson) : Prop :=
  match s with
  | Some (StageRestrictions r) => restrictions_ok r
  | Some (StageCustom c) => custom_ok c
  | None => True
  end.

Lemma commit_keeps env cand staged :
  env_ok env -> config_ok cand -> staged_ok staged ->
  keeps fw_inv (commit_candidate env cand staged) (fun _ => True).
Proof.
  intros He Hc Hs w Hw. pose proof (commit_candidate_spec env cand staged w He) as H.
  destruct (commit_candidate env cand staged w) as [w' [[]|e]]; (split; [|done]); cbn.
  - destruct H as (pol & Hp & ->). destruct Hw as (_ & Hr & Hcf & _).
    split_and!; cbn; [done|..|done|by exists pol]; unfold commit_file_r, commit_file_c;
      destruct staged as [[]|]; done.
  - destruct H as [Hf H]. by eapply failed_from_inv.
Qed.

(** ** Restrictions and rules *)

Lemma with_restriction_ok p src ifc :
  port_fields_ok p -> opt_valid valid_source src -> opt_valid valid_iface ifc ->
  port_fields_ok (with_restriction p src ifc).
Proof. intros (? & ? & _ & _) ? ?. by split_and!. Qed.

Lemma apply_restrictions_ok base S I :
  Forall port_fields_ok base -> Forall (fun s => valid_source s = true) S ->
  Forall (fun s => valid_iface s = true) I ->
  Forall (port_ok S I) (apply_restrictions base S I).
Proof.
  intros Hb HS HI. unfold apply_restrictions. rewrite Forall_forall in HS, HI.
  destruct (bool_decide (S = [])) eqn:ES, (bool_decide (I = [])) eqn:EI; cbn [andb negb];
    rewrite ?bool_decide_eq_true, ?bool_decide_eq_false in *; subst.
  { eapply Forall_impl; [exact Hb|]. intros p Hp. split_and!; [done|by left..]. }
  all: rewrite Forall_forall in *; intros q Hq; apply list_elem_of_In, in_flat_map in Hq as (p & Hp & Hq);
    apply list_elem_of_In in Hp; pose proof (Hb p Hp) as Hok.
  - apply list_elem_of_In, list_elem_of_fmap in Hq as (i & -> & Hi).
    split; [apply with_restriction_ok; cbn; auto|split; [by left|right; eauto]].
  - apply list_elem_of_In, list_elem_of_fmap in Hq as (x & -> & Hx).
    split; [apply with_restriction_ok; cbn; auto|split; [right; eauto|by left]].
  - apply in_flat_map in Hq as (x & Hx & Hq). apply list_elem_of_In in Hx.
    apply list_elem_of_In, list_elem_of_fmap in Hq as (i & -> & Hi).
    split; [apply with_restriction_ok; cbn; auto|split; right; eauto].
Qed.

Lemma sources_of_valid r s : restrictions_ok r -> Forall (fun x => valid_source x = true) (sources_of r s).
Proof.
  intros [H _]. unfold sources_of. destruct (r_services r !! s) eqn:E; [by apply (H s)|constructor].
Qed.
Lemma ifaces_of_valid r s : restrictions_ok r -> Forall (fun x => valid_iface x = true) (ifaces_of r s).
Proof.
  intros [_ H]. unfold ifaces_of. destruct (r_interfaces r !! s) eqn:E; [by apply (H s)|constructor].
Qed.

Lemma restricted_ok r s base :
  restrictions_ok r -> Forall port_fields_ok base ->
  Forall (port_ok (sources_of r s) (ifaces_of r s)) (restricted r s base).
Proof.
  intros. apply apply_restrictions_ok; [done|by apply sources_of_valid|by apply ifaces_of_valid].
Qed.

Lemma rules_ok_push r rules rule :
  rules_ok r rules -> find_first (is_service (service rule)) rules = None -> rule_ok r rule ->
  rules_ok r (rules ++ [rule]).
Proof.
  intros [Hn HF] Hf Hr. split.
  - rewrite fmap_app. apply NoDup_app. split_and!; [done| |apply NoDup_singleton].
    intros s Hs. cbn. intros ->%list_elem_of_singleton.
    apply list_elem_of_fmap in Hs as (x & E & Hx). rewrite find_first_None in Hf.
    specialize (Hf x Hx). unfold is_service in Hf. rewrite <- E, String.eqb_refl in Hf. done.
  - apply Forall_app. split; [done|]. by constructor.
Qed.

Lemma rules_ok_update r rules rules' p f :
  (forall x, service (f x) = service x) ->
  (forall x, x ∈ rules -> p x = true -> rule_ok r x -> rule_ok r (f x)) ->
  rules_ok r rules -> update_first p f rules = Some rules' -> rules_ok r rules'.
Proof.
  intros Hs Hf [Hn HF] Hu. split.
  - by rewrite (NoDup_update_first service _ _ _ _ Hs Hu).
  - by eapply Forall_update_first.
Qed.

Lemma replace_rule_ports_ok r rules s ps :
  restrictions_ok r -> known_service s -> Forall port_fields_ok ps -> rules_ok r rules ->
  rules_ok r (fst (replace_rule_ports rules r s ps)).
Proof.
  intros Hr Hk Hp Hrs. unfold replace_rule_ports.
  pose proof (restricted_ok r s ps Hr Hp) as Hps.
  destruct (find_first (is_service s) rules) as [rule|] eqn:E.
  - destruct (bool_decide _); [done|]. cbn.
    destruct (update_first _ _ rules) as [rules'|] eqn:Eu; [|done]. cbn.
    eapply rules_ok_update; [| |exact Hrs|exact Eu]; [done|].
    intros x _ Hx _. unfold is_service in Hx. bool_hyps. subst. by split.
  - cbn. apply rules_ok_push; [done|done|]. by split.
Qed.

Lemma set_active_flag_ok r rules s b rules' :
  rules_ok r rules -> update_first (is_service s) (set_active_flag b) rules = Some rules' ->
  rules_ok r rules'.
Proof. intros H. apply rules_ok_update; try done. Qed.

Lemma default_update_active r rules s b :
  rules_ok r rules ->
  rules_ok r (default rules (update_first (is_service s) (set_active_flag b) rules)).
Proof.
  intros H. destruct (update_first _ _ rules) eqn:E; [|done]. by eapply set_active_flag_ok.
Qed.

(** *** Ports the services have *)

Definition base_ok (ps : list PortSpec) : Prop := Forall port_fields_ok ps.

Lemma plain_ports_ok ps :
  forallb (fun p => (0 <=? port p) && (port p <? 65536) && (0 <=? default (port p) (port_to p)) &&
    (default (port p) (port_to p) <? 65536) && bool_decide (source p = None) &&
    bool_decide (iface p = None)) ps = true -> base_ok ps.
Proof.
  rewrite forallb_forall. intros H. apply Forall_forall. intros p Hp%list_elem_of_In.
  specialize (H p Hp). bool_hyps. rewrite !bool_decide_eq_true in *.
  unfold port_fields_ok, u16. repeat match goal with E : _ = None |- _ => rewrite E; clear E end.
  split_and!; done.
Qed.

Lemma ports_for_protocol_ok p : base_ok (ports_for_protocol p).
Proof. apply plain_ports_ok. by destruct p. Qed.
Lemma rdma_ports_ok : base_ok rdma_ports.
Proof. by apply plain_ports_ok. Qed.
Lemma dc_ports_ok : base_ok dc_ports.
Proof. by apply plain_ports_ok. Qed.

Definition listener_ok (p : ListenerPorts) : Prop :=
  u16 (https_port p) /\ match http_port p with Some h => u16 h | None => True end.

Lemma webui_ports_ok https http :
  u16 https -> match http with Some h => u16 h | None => True end -> base_ok (webui_ports https http).
Proof.
  intros H1 H2. destruct http; repeat apply Forall_cons_2; try apply Forall_nil_2; by split_and!.
Qed.

Lemma known_protocol p : known_service (protocol_name p).
Proof. unfold known_service. eauto. Qed.
#[local] Hint Resolve known_protocol ports_for_protocol_ok rdma_ports_ok dc_ports_ok : nasty.

(** ** Operations *)

Inductive FwOp : Type :=
| OpOpen (p : Protocol) | OpClose (p : Protocol)
| OpOpenRdma | OpCloseRdma | OpOpenDc | OpCloseDc
| OpStates (l : list (Protocol * bool))
| OpPublished (l : list PublishedAppPort)
| OpWebui (https : Z) (http : option Z)
| OpRestrict (webui : result ListenerState string) (svc : string) (sources ifaces : list string)
| OpServicePorts (p : Protocol) (ps : list PortSpec)
| OpPortals (iscsi nvmeof : list PortSpec)
| OpAddCustom (id : string) (i : CustomRuleInput)
| OpUpdateCustom (id : string) (i : CustomRuleInput)
| OpRemoveCustom (id : string).

Definition run_op (env : FwEnv) (op : FwOp) : fop unit :=
  match op with
  | OpOpen p => open env p
  | OpClose p => close env p
  | OpOpenRdma => open_rdma env
  | OpCloseRdma => close_rdma env
  | OpOpenDc => open_dc env
  | OpCloseDc => close_dc env
  | OpStates l => set_protocol_states env l
  | OpPublished l => set_published_app_ports env l
  | OpWebui https http => set_webui_ports env https http
  | OpRestrict webui svc s i => set_restriction env webui svc s i
  | OpServicePorts p ps => set_service_ports env p ps
  | OpPortals a b => set_portal_ports env a b
  | OpAddCustom id i => add_custom_rule env id i ;;; m_ret tt
  | OpUpdateCustom id i => update_custom_rule env id i ;;; m_ret tt
  | OpRemoveCustom id => remove_custom_rule env id
  end.

Definition input_ok (i : CustomRuleInput) : Prop := u16 (in_from i) /\ u16 (in_to i).

(** Numbers fit their types, and a new rule gets a fresh identifier. *)
Definition op_ok (op : FwOp) (w : FwWorld) : Prop :=
  match op with
  | OpPublished l => Forall (fun p => u16 (host_port p)) l
  | OpWebui https http => u16 https /\ match http with Some h => u16 h | None => True end
  | OpRestrict webui _ _ _ => match webui with Ok st => listener_ok (confirmed st) | Err _ => True end
  | OpServicePorts _ ps => base_ok ps
  | OpPortals a b => base_ok a /\ base_ok b
  | OpAddCustom id i => input_ok i /\ no_char (chr 10) id /\ id ∉ cr_id <$> fc_custom (fw_config w)
  | OpUpdateCustom id i => input_ok i /\ no_char (chr 10) id
  | _ => True
  end.

Lemma keeps_get {S E} (I : S -> Prop) : keeps I (m_get (E:=E)) I.
Proof. by intros s Hs. Qed.

Lemma keeps_stage (I : FwWorld -> Prop) o : keeps I (stage o) (fun _ => True).
Proof. intros s Hs. unfold stage, m_lift. cbn. by destruct o. Qed.

(** Every path of an operation ends in [commit_candidate] of a good candidate
    or changes nothing. *)
Ltac op_step :=
  match goal with
  | |- keeps _ (m_bind m_get _) _ =>
      eapply keeps_bind; [apply keeps_get|let w := fresh "w" in intros w (((?&?)&?&?&?)&?&?&?&?)]
  | |- keeps _ (m_bind (m_lift _) _) _ => eapply keeps_bind; [apply keeps_lift|intros ? ?]
  | |- keeps _ (m_bind (stage _) _) _ => eapply keeps_bind; [apply keeps_stage|intros ? _]
  | |- keeps _ (m_ret _) _ => by apply keeps_ret
  | |- keeps _ (m_throw _) _ => apply keeps_throw
  | |- keeps _ (if ?b then _ else _) _ => destruct b eqn:?
  | |- keeps _ (match ?b with _ => _ end) _ => destruct b eqn:?
  end.

Section ops.
Context (env : FwEnv) (Henv : env_ok env).

Lemma commit_rules c rules :
  config_ok c -> rules_ok (fc_restrictions c) rules ->
  keeps fw_inv (commit_candidate env (with_rules rules c) None) (fun _ => True).
Proof. intros (_ & ? & ? & ?) ?. apply commit_keeps; [done| |done]. by split_and!. Qed.

Lemma set_rule_active_keeps svc base b :
  known_service svc -> base_ok base -> keeps fw_inv (set_rule_active env svc base b) (fun _ => True).
Proof.
  intros Hk Hb. unfold set_rule_active. op_step; [op_step|].
  eapply keeps_bind; [apply keeps_get|intros w [Hc _]]. pose proof Hc as (Hr & Hres & _).
  op_step; [op_step; [op_step|]|].
  - apply commit_rules; [done|]. by apply default_update_active.
  - apply commit_rules; [done|]. apply rules_ok_push; [done..|]. split; [done|].
    by apply restricted_ok.
Qed.

Lemma set_protocol_state_ok r acc pe :
  rules_ok r (fst acc) -> rules_ok r (fst (set_protocol_state acc pe)).
Proof.
  destruct acc as [rules ch]. unfold set_protocol_state. intros H.
  destruct (find_first _ rules); [|done]. destruct (Bool.eqb _ _); [done|].
  by apply default_update_active.
Qed.

Lemma set_protocol_states_keeps l : keeps fw_inv (set_protocol_states env l) (fun _ => True).
Proof.
  unfold set_protocol_states. eapply keeps_bind; [apply keeps_get|intros w [Hc _]].
  destruct (foldl set_protocol_state (fc_rules (fw_config w), false) l) as [rules ch] eqn:E.
  op_step; [op_step|]. apply commit_rules; [done|].
  assert (forall acc, rules_ok (fc_restrictions (fw_config w)) (fst acc) ->
    rules_ok (fc_restrictions (fw_config w)) (fst (foldl set_protocol_state acc l))) as H.
  { clear E. induction l as [|pe l IH]; intros acc Ha; [done|]. cbn [foldl]. by apply IH, set_protocol_state_ok. }
  specialize (H (fc_rules (fw_config w), false)). rewrite E in H. apply H, Hc.
Qed.

Lemma set_published_keeps l :
  Forall (fun p => u16 (host_port p)) l ->
  keeps fw_inv (set_published_app_ports env l) (fun _ => True).
Proof.
  intros Hl. unfold set_published_app_ports. eapply keeps_bind; [apply keeps_get|intros w [Hc _]].
  op_step; [op_step|]. apply commit_keeps; [done| |done].
  destruct Hc as (? & ? & ? & _). split_and!; try done. cbn [fc_published].
  rewrite Forall_forall in *. intros p Hp. apply Hl.
  rewrite <- (elem_of_sort_by published_le). eapply elem_of_sublist; [exact Hp|apply dedup_by_sub].
Qed.

Lemma set_webui_ports_keeps https http :
  u16 https -> match http with Some h => u16 h | None => True end ->
  keeps fw_inv (set_webui_ports env https http) (fun _ => True).
Proof.
  intros H1 H2. unfold set_webui_ports. eapply keeps_bind; [apply keeps_get|intros w [Hc _]].
  op_step; [|op_step]. apply commit_rules; [done|]. pose proof Hc as (Hr & Hres & _).
  eapply rules_ok_update; [| |exact Hr|eassumption]; [done|].
  intros x _ Hx [Hk _]. unfold is_service in Hx. bool_hyps. split; [done|]. cbn. rewrite Hx.
  apply restricted_ok; [done|by apply webui_ports_ok].
Qed.

Lemma set_service_ports_keeps p ps :
  base_ok ps -> keeps fw_inv (set_service_ports env p ps) (fun _ => True).
Proof.
  intros Hp. unfold set_service_ports. eapply keeps_bind; [apply keeps_get|intros w [Hc _]].
  pose proof Hc as (Hr & Hres & _).
  pose proof (replace_rule_ports_ok _ _ _ _ Hres (known_protocol p) Hp Hr) as H.
  destruct (replace_rule_ports _ _ _ _) as [rules ch]. op_step; [op_step|]. by apply commit_rules.
Qed.

Lemma set_portal_ports_keeps a b :
  base_ok a -> base_ok b -> keeps fw_inv (set_portal_ports env a b) (fun _ => True).
Proof.
  intros Ha Hb. unfold set_portal_ports. eapply keeps_bind; [apply keeps_get|intros w [Hc _]].
  pose proof Hc as (Hr & Hres & _).
  pose proof (replace_rule_ports_ok _ _ _ _ Hres (known_protocol Iscsi) Ha Hr) as H.
  destruct (replace_rule_ports _ _ _ a) as [rules ch]. cbn in H.
  pose proof (replace_rule_ports_ok _ _ _ _ Hres (known_protocol Nvmeof) Hb H) as H'.
  destruct (replace_rule_ports rules _ _ b) as [rules' ch']. op_step; [op_step|]. by apply commit_rules.
Qed.

(** [unrestricted_ports] keeps port numbers and drops the restrictions. *)
Lemma unrestricted_ports_ok ps : base_ok ps -> base_ok (unrestricted_ports ps).
Proof.
  intros Hps. unfold unrestricted_ports.
  assert (forall acc, base_ok acc -> base_ok (foldl (fun acc p =>
    let q := with_restriction p None None in if bool_decide (q ∈ acc) then acc else acc ++ [q]) acc ps)) as H;
    [|by apply H, Forall_nil].
  induction Hps as [|p ps Hp _ IH]; intros acc Hacc; [done|]. cbn [foldl]. apply IH.
  cbn zeta. destruct (bool_decide _); [done|]. apply Forall_app. split; [done|].
  constructor; [|constructor]. by apply with_restriction_ok.
Qed.

Lemma check_all_ok p msg l : check_all p msg l = Ok tt -> Forall (fun s => p s = true) l.
Proof.
  unfold check_all. destruct (find_first _ l) eqn:E; [done|]. intros _.
  rewrite find_first_None in E. apply Forall_forall. intros x Hx. specialize (E x Hx). by bool_hyps.
Qed.

Lemma set_or_remove_valid f svc l m :
  all_valid f m -> Forall (fun s => f s = true) l -> all_valid f (set_or_remove svc l m).
Proof.
  intros Hm Hl. unfold set_or_remove. destruct (bool_decide _).
  - by apply map_Forall_delete.
  - by apply map_Forall_insert_2.
Qed.

Lemma set_or_remove_lookup svc l m s :
  default [] (set_or_remove svc l m !! s) = if decide (svc = s) then l else default [] (m !! s).
Proof.
  unfold set_or_remove. destruct (bool_decide (l = [])) eqn:E.
  - rewrite bool_decide_eq_true in E. subst. destruct (decide (svc = s)) as [->|].
    + by rewrite lookup_delete_eq.
    + by rewrite lookup_delete_ne.
  - destruct (decide (svc = s)) as [->|]; [by rewrite lookup_insert_eq|by rewrite lookup_insert_ne].
Qed.

Definition new_restrictions (svc : string) (S I : list string) (r : FirewallRestrictions)
    : FirewallRestrictions :=
  mkRestrictions (set_or_remove svc S (r_services r)) (set_or_remove svc I (r_interfaces r)).

Lemma rule_ok_other svc S I r rule :
  service rule <> svc -> rule_ok r rule -> rule_ok (new_restrictions svc S I r) rule.
Proof.
  intros Hne [Hk HF]. split; [done|]. unfold sources_of, ifaces_of, new_restrictions. cbn.
  rewrite !set_or_remove_lookup, !decide_False by done. exact HF.
Qed.

Lemma rule_ok_restricted svc S I r rule base :
  service rule = svc -> rule_ok r rule -> base_ok base ->
  Forall (fun s => valid_source s = true) S -> Forall (fun s => valid_iface s = true) I ->
  rule_ok (new_restrictions svc S I r) (set_rule_ports (apply_restrictions base S I) rule).
Proof.
  intros <- [Hk _] Hb HS HI. split; [done|]. unfold sources_of, ifaces_of, new_restrictions. cbn.
  rewrite !set_or_remove_lookup, !decide_True by done. by apply apply_restrictions_ok.
Qed.

(** The rule of the service gets the new restrictions, all others keep theirs. *)
Lemma rules_ok_restrict svc S I r rules base :
  rules_ok r rules -> base_ok base ->
  Forall (fun s => valid_source s = true) S -> Forall (fun s => valid_iface s = true) I ->
  rules_ok (new_restrictions svc S I r)
    (default rules (update_first (is_service svc) (set_rule_ports (apply_restrictions base S I)) rules)).
Proof.
  intros [Hn HF] Hb HS HI. destruct (update_first _ _ rules) as [rules'|] eqn:E; cbn.
  - split.
    { rewrite (NoDup_update_first service (is_service svc) (set_rule_ports (apply_restrictions base S I))
        rules rules'); done. }
    apply update_first_Some in E as (l1 & x & l2 & -> & -> & Hx & _).
    unfold is_service in Hx. bool_hyps. rewrite fmap_app, fmap_cons, NoDup_app, NoDup_cons in Hn.
    destruct Hn as (_ & Hn1 & Hn2 & _). rewrite Forall_app, Forall_cons in HF. destruct HF as (H1 & H2 & H3).
    apply Forall_app. split; [|constructor; [by apply rule_ok_restricted|]].
    + rewrite Forall_forall in *. intros y Hy. apply rule_ok_other; [|auto]. intros Ey.
      apply (Hn1 (service y)); [by apply list_elem_of_fmap_2|]. rewrite Ey, Hx. set_solver.
    + rewrite Forall_forall in *. intros y Hy. apply rule_ok_other; [|auto]. intros Ey.
      apply Hn2. rewrite Hx, <- Ey. by apply list_elem_of_fmap_2.
  - split; [done|]. apply update_first_None in E. rewrite find_first_None in E.
    rewrite Forall_forall in *. intros y Hy. apply rule_ok_other; [|auto]. intros Ey.
    specialize (E y Hy). unfold is_service in E. by bool_hyps.
Qed.

Lemma default_ports_ok webui svc ps :
  match webui with Ok st => listener_ok (confirmed st) | Err _ => True end ->
  default_ports webui svc = Ok ps -> base_ok ps.
Proof.
  intros Hw. unfold default_ports. destruct (String.eqb svc "webui").
  { destruct webui as [st|]; [|done]. cbn. intros [= <-]. destruct Hw. by apply webui_ports_ok. }
  destruct (String.eqb svc "rdma"); [intros [= <-]; apply rdma_ports_ok|].
  destruct (String.eqb svc "dc"); [intros [= <-]; apply dc_ports_ok|].
  destruct (from_name svc); [intros [= <-]; apply ports_for_protocol_ok|done].
Qed.

Lemma set_restriction_keeps webui svc S I :
  match webui with Ok st => listener_ok (confirmed st) | Err _ => True end ->
  keeps fw_inv (set_restriction env webui svc S I) (fun _ => True).
Proof.
  intros Hw. unfold set_restriction.
  eapply keeps_bind; [apply keeps_lift|intros [] HS%check_all_ok].
  eapply keeps_bind; [apply keeps_lift|intros [] HI%check_all_ok].
  eapply keeps_bind; [apply keeps_lift|intros defaults Hd].
  eapply keeps_bind; [apply keeps_get|intros w [Hc _]]. op_step.
  pose proof Hc as (Hr & [Hv1 Hv2] & Hcu & Hpu).
  assert (restrictions_ok (new_restrictions svc S I (fc_restrictions (fw_config w)))) as Hres
    by (split; by apply set_or_remove_valid).
  apply commit_keeps; [done| |done]. split_and!; [|done..].
  apply rules_ok_restrict; [done| |done..].
  destruct (find_first (is_service svc) _) as [rule|] eqn:Ef; [|exact (default_ports_ok _ _ _ Hw Hd)].
  apply unrestricted_ports_ok. apply find_first_Some in Ef as [Hin _].
  destruct Hr as [_ Hr]. rewrite Forall_forall in Hr. destruct (Hr _ Hin) as [_ HF].
  eapply Forall_impl; [exact HF|]. by intros p [? _].
Qed.

(** *** Custom rules *)

Lemma validate_custom_ok i :
  input_ok i -> validate_custom_input i = Ok tt ->
  1 <= in_from i <= in_to i /\ opt_valid valid_source (in_source i) /\
  opt_valid valid_iface (in_iface i).
Proof.
  intros [Hf Ht] H. unfold validate_custom_input in H. unfold u16 in *.
  destruct (Z.eqb_spec (in_from i) 0); [done|]. destruct (Z.ltb_spec (in_to i) (in_from i)); [done|].
  destruct (String.eqb _ _); [done|]. destruct (_ <? _)%nat; [done|]. destruct (has_control _); [done|].
  split; [lia|]. destruct (in_source i) as [src|]; cbn in *;
    [destruct (valid_source src) eqn:?; [|done]|]; cbn in H;
    destruct (in_iface i) as [f|]; cbn in *; try done; by destruct (valid_iface f).
Qed.

Lemma same_rule_key r i :
  same_rule r i = true <->
  custom_key r = (in_transport i, in_from i, in_to i, in_source i, in_iface i).
Proof.
  unfold same_rule, custom_key. rewrite !andb_true_iff, !bool_decide_eq_true, !Z.eqb_eq.
  split; [intros ((((-> & ->) & ->) & ->) & ->); done|]. intros [= -> -> -> -> ->]. done.
Qed.

Definition rule_of_input (id : string) (i : CustomRuleInput) : CustomRule :=
  mkCustomRule id (trim (in_label i)) (in_transport i) (in_from i) (in_to i)
    (in_source i) (in_iface i) (in_enabled i).

Lemma rule_of_input_ok id i :
  input_ok i -> no_char (chr 10) id -> validate_custom_input i = Ok tt ->
  custom_fields_ok (rule_of_input id i) /\ 1 <= cr_from (rule_of_input id i) <= cr_to (rule_of_input id i).
Proof.
  intros Hi Hid Hv. destruct (validate_custom_ok i Hi Hv) as (? & ? & ?). destruct Hi.
  unfold custom_fields_ok, rule_of_input. cbn. split_and!; try done; lia.
Qed.

Lemma custom_ok_add l id i :
  custom_ok l -> input_ok i -> no_char (chr 10) id -> id ∉ cr_id <$> l ->
  validate_custom_input i = Ok tt -> existsb (fun r => same_rule r i) l = false ->
  custom_ok (l ++ [rule_of_input id i]).
Proof.
  intros (HF & Hn & Hk) Hi Hid Hfresh Hv Hs. rewrite existsb_false_elem in Hs. split_and!.
  - apply Forall_app. split; [done|]. constructor; [by apply rule_of_input_ok|constructor].
  - rewrite fmap_app. apply NoDup_app. split_and!; [done| |apply NoDup_singleton].
    intros x Hx ->%list_elem_of_singleton. done.
  - rewrite fmap_app. apply NoDup_app. split_and!; [done| |apply NoDup_singleton].
    intros x Hx ->%list_elem_of_singleton. apply list_elem_of_fmap in Hx as (r & E & Hr).
    specialize (Hs r Hr). symmetry in E. apply same_rule_key in E. congruence.
Qed.

Lemma custom_ok_update l id i l' :
  custom_ok l -> input_ok i -> no_char (chr 10) id -> validate_custom_input i = Ok tt ->
  existsb (fun r => negb (String.eqb (cr_id r) id) && same_rule r i) l = false ->
  update_first (fun r => String.eqb (cr_id r) id) (fun _ => rule_of_input id i) l = Some l' ->
  custom_ok l'.
Proof.
  intros (HF & Hn & Hk) Hi Hid Hv Hs (l1 & x & l2 & -> & -> & Hx & _)%update_first_Some.
  rewrite existsb_false_elem in Hs. bool_hyps.
  assert (forall r, r ∈ l1 \/ r ∈ l2 -> cr_id r <> id /\ custom_key r <> custom_key (rule_of_input id i)) as Ho.
  { intros r Hr. assert (cr_id r <> id) as Hne.
    { rewrite fmap_app, fmap_cons, NoDup_app, NoDup_cons in Hn. destruct Hn as (_ & Hn1 & Hn2 & _).
      intros E. destruct Hr as [Hr|Hr].
      - apply (Hn1 (cr_id r)); [by apply list_elem_of_fmap_2|]. rewrite E, Hx. set_solver.
      - apply Hn2. rewrite Hx, <- E. by apply list_elem_of_fmap_2. }
    split; [done|]. intros E%same_rule_key. specialize (Hs r ltac:(set_solver)).
    rewrite E, andb_true_r in Hs. by bool_hyps. }
  split_and!.
  - rewrite Forall_app, Forall_cons in *. destruct HF as (? & _ & ?).
    destruct (rule_of_input_ok id i Hi Hid Hv) as [? [? ?]]. split_and!; done.
  - rewrite fmap_app, fmap_cons in *. cbn. by rewrite <- Hx.
  - rewrite fmap_app, fmap_cons, NoDup_app, NoDup_cons in *. destruct Hk as (? & Hk1 & _ & ?).
    split_and!; try done.
    + intros k Hk1' [->|?]%elem_of_cons.
      * apply list_elem_of_fmap in Hk1' as (r & E & Hr). destruct (Ho r (or_introl Hr)) as [_ []]. done.
      * apply (Hk1 k); [done|]. apply elem_of_cons. by right.
    + intros (r & E & Hr)%list_elem_of_fmap. destruct (Ho r (or_intror Hr)) as [_ []]. done.
Qed.

Lemma custom_ok_retain l p : custom_ok l -> custom_ok (retain p l).
Proof.
  intros (? & ? & ?). split_and!; [by apply Forall_retain|by apply NoDup_map_retain..].
Qed.

Lemma commit_custom c custom :
  config_ok c -> custom_ok custom ->
  keeps fw_inv (commit_candidate env (with_custom custom c) (Some (StageCustom custom))) (fun _ => True).
Proof. intros (? & ? & _ & ?) ?. apply commit_keeps; [done| |done]. by split_and!. Qed.

Lemma update_custom_keeps id i :
  input_ok i -> no_char (chr 10) id ->
  keeps fw_inv (update_custom_rule env id i) (fun _ => True).
Proof.
  intros Hi Hid. unfold update_custom_rule.
  eapply keeps_bind; [apply keeps_lift|intros [] Hv].
  eapply keeps_bind; [apply keeps_get|intros w [Hc _]].
  op_step; [op_step|]. op_step; [op_step|]. op_step; [|op_step]. op_step.
  eapply keeps_bind; [|intros; by apply keeps_ret].
  apply commit_custom; [done|]. eapply custom_ok_update; try done. apply Hc.
Qed.

Lemma remove_custom_keeps id : keeps fw_inv (remove_custom_rule env id) (fun _ => True).
Proof.
  unfold remove_custom_rule. eapply keeps_bind; [apply keeps_get|intros w [Hc _]].
  op_step; [op_step|]. op_step. apply commit_custom; [done|]. apply custom_ok_retain, Hc.
Qed.

Lemma add_custom_inv id i w :
  fw_inv w -> input_ok i -> no_char (chr 10) id -> id ∉ cr_id <$> fc_custom (fw_config w) ->
  fw_inv (fst (add_custom_rule env id i w)).
Proof.
  intros Hw Hi Hid Hf. unfold add_custom_rule, m_lift, m_bind, m_get, m_throw, stage, m_ret, m_lift.
  destruct (validate_custom_input i) as [[]|] eqn:Hv; [|done].
  destruct (service_port_conflict _ _ _ _); [done|].
  destruct (existsb _ _) eqn:Ex; [done|]. destruct (f_stage env); [done|]. pose proof Hw as [Hc _].
  set (custom := fc_custom (fw_config w) ++ [_]).
  assert (custom_ok custom) as Hcu by (apply custom_ok_add; try done; apply Hc).
  destruct (commit_custom (fw_config w) custom Hc Hcu w Hw) as [H _].
  by destruct (commit_candidate _ _ _ w) as [w' [[]|e]].
Qed.

Lemma run_op_inv op w : fw_inv w -> op_ok op w -> fw_inv (fst (run_op env op w)).
Proof.
  intros Hw Ho.
  assert (forall (m : fop unit), keeps fw_inv m (fun _ => True) -> fw_inv (fst (m w))) as Hk
    by (intros m Hm; by apply Hm).
  destruct op; cbn [run_op op_ok] in *.
  1-6: apply Hk, set_rule_active_keeps; auto with nasty; unfold known_service; tauto.
  - apply Hk, set_protocol_states_keeps.
  - by apply Hk, set_published_keeps.
  - destruct Ho. by apply Hk, set_webui_ports_keeps.
  - by apply Hk, set_restriction_keeps.
  - by apply Hk, set_service_ports_keeps.
  - destruct Ho. by apply Hk, set_portal_ports_keeps.
  - destruct Ho as (? & ? & ?). unfold m_bind, m_ret.
    pose proof (add_custom_inv id i w) as H'. destruct (add_custom_rule env id i w) as [w' [|]]; auto.
  - destruct Ho. apply Hk. eapply keeps_bind; [by apply update_custom_keeps|intros; by apply keeps_ret].
  - apply Hk, remove_custom_keeps.
Qed.
End ops.

(** ** What an operation leaves behind *)

(** Memory and state files agree. *)
Definition saved (w : FwWorld) : Prop :=
  load_file restrictions_default (fw_restrictions_file w) = Ok (fc_restrictions (fw_config w)) /\
  load_file [] (fw_custom_file w) = Ok (fc_custom (fw_config w)).

Definition settles {A} (env : FwEnv) (m : fop A) (w : FwWorld) : Prop :=
  match m w with
  | (w', Err _) => same_files w w' /\ exists c', failed_from env w c' w'
  | (w', Ok _) => (w' = w \/ fw_doubt w' = None) /\ (saved w -> saved w')
  end.

Section settle.
Context (env : FwEnv) (Henv : env_ok env).

Lemma settles_same {A} (m : fop A) w r : m w = (w, r) -> settles env m w.
Proof.
  unfold settles. intros ->. destruct r; [auto|]. split; [done|]. exists (fw_config w). by apply failed_unchanged.
Qed.

Lemma settles_bind {A B} (m : fop A) (k : A -> fop B) w :
  fst (m w) = w -> (forall a, snd (m w) = Ok a -> settles env (k a) w) -> settles env (m_bind m k) w.
Proof.
  intros Hw Hk. unfold settles, m_bind in *. destruct (m w) as [w' [a|e]]; cbn in *; subst.
  - by apply Hk.
  - by apply (settles_same (fun w => (w, Err e))  w (Err (A:=B) e)).
Qed.

(** The staged file holds what the candidate changes of the saved state. *)
Definition stages (c : FirewallConfig) (staged : option StagedJson) (cand : FirewallConfig) : Prop :=
  match staged with
  | None => fc_restrictions cand = fc_restrictions c /\ fc_custom cand = fc_custom c
  | Some (StageRestrictions r) => fc_restrictions cand = r /\ fc_custom cand = fc_custom c
  | Some (StageCustom l) => fc_restrictions cand = fc_restrictions c /\ fc_custom cand = l
  end.

Lemma settles_commit cand staged w :
  stages (fw_config w) staged cand -> settles env (commit_candidate env cand staged) w.
Proof.
  intros Hs. unfold settles. pose proof (commit_candidate_spec env cand staged w Henv) as H.
  destruct (commit_candidate env cand staged w) as [w' [[]|e]]; [|naive_solver].
  destruct H as (pol & _ & ->). split; [by right|]. intros [H1 H2]. unfold saved, commit_file_r, commit_file_c. cbn.
  destruct staged as [[r|l]|]; cbn in *; destruct Hs as [-> ->]; done.
Qed.

Lemma settles_commit_then {A} cand staged (a : A) w :
  stages (fw_config w) staged cand ->
  settles env (commit_candidate env cand staged ;;; m_ret a) w.
Proof.
  intros Hs%settles_commit. unfold settles, m_bind, m_ret in *.
  by destruct (commit_candidate env cand staged w) as [w' [[]|e]].
Qed.

Lemma settles_ret {A} (a : A) w : settles env (m_ret a) w.
Proof. by eapply settles_same. Qed.
Lemma settles_throw {A} e w : settles env (m_throw (A:=A) e) w.
Proof. by eapply settles_same. Qed.
End settle.

(** Walk an operation down to its commits. *)
Ltac settle :=
  cbn zeta;
  match goal with
  | |- settles _ (m_bind (commit_candidate _ _ _) _) _ => apply settles_commit_then; [assumption|done]
  | |- settles _ (m_bind (m_bind _ _) _) _ => fail 1
  | |- settles _ (m_bind m_get _) ?w =>
      apply settles_bind; [reflexivity|intros ? [= <-]; settle]
  | |- settles _ (m_bind (m_lift _) _) _ => apply settles_bind; [reflexivity|intros ? _; settle]
  | |- settles _ (m_bind (stage _) _) _ => apply settles_bind; [reflexivity|intros ? _; settle]
  | |- settles _ (m_ret _) _ => apply settles_ret
  | |- settles _ (m_throw _) _ => apply settles_throw
  | |- settles _ (commit_candidate _ _ _) _ => apply settles_commit; [assumption|done]
  | |- settles _ (if ?b then _ else _) _ => destruct b; settle
  | |- settles _ (match ?b with _ => _ end) _ => destruct b; settle
  end.

Lemma settles_then_ret {A B} env (m : fop A) (b : B) w :
  settles env m w -> settles env (m ;;; m_ret b) w.
Proof. unfold settles, m_bind, m_ret. by destruct (m w) as [w' [a|e]]. Qed.

Lemma run_op_settles env op w : env_ok env -> settles env (run_op env op) w.
Proof.
  intros He. destruct op; cbn [run_op];
    unfold open, close, open_rdma, close_rdma, open_dc, close_dc, set_rule_active,
      set_protocol_states, set_published_app_ports, set_webui_ports, set_restriction,
      set_service_ports, set_portal_ports, remove_custom_rule.
  all: try (apply settles_then_ret; unfold add_custom_rule, update_custom_rule).
  all: settle.
Qed.

(** ** Start-up and executions *)

Definition boot_ok (webui : result ListenerState string) (protos : list (Protocol * bool))
    (iscsi nvmeof : list PortSpec) (published : list PublishedAppPort) : Prop :=
  match webui with Ok st => listener_ok (confirmed st) | Err _ => True end /\
  NoDup (fst <$> protos) /\ base_ok iscsi /\ base_ok nvmeof /\
  Forall (fun p => u16 (host_port p)) published.

Lemma fresh_rule_ok r svc base b :
  restrictions_ok r -> known_service svc -> base_ok base -> rule_ok r (fresh_rule r svc base b).
Proof. intros. split; [done|]. by apply restricted_ok. Qed.

Lemma fresh_rules_nodup r protos tail :
  NoDup (fst <$> protos) -> NoDup (service <$> tail) ->
  (forall rule, rule ∈ tail -> forall p, service rule <> protocol_name p) ->
  (forall rule, rule ∈ tail -> service rule <> "webui") ->
  NoDup (service <$> [fresh_rule r "webui" [] true] ++
    ((fun pe : Protocol * bool =>
        fresh_rule r (protocol_name (fst pe)) (ports_for_protocol (fst pe)) (snd pe)) <$> protos) ++ tail).
Proof.
  intros Hp Ht Hd Hw. rewrite fmap_app. cbn [fmap list_fmap app]. apply NoDup_cons. split.
  - rewrite fmap_app, <- list_fmap_compose. intros [Hin|Hin]%elem_of_app.
    + apply list_elem_of_fmap in Hin as ([p b] & E & _). cbn in E. by destruct p.
    + apply list_elem_of_fmap in Hin as (rule & E & Hr). by apply (Hw rule).
  - rewrite fmap_app, <- list_fmap_compose. apply NoDup_app. split_and!; [| |done].
    + replace (_ <$> protos) with (protocol_name <$> (fst <$> protos)).
      * by apply NoDup_fmap_2; [apply _|].
      * rewrite <- list_fmap_compose. done.
    + intros s Hs Hin. apply list_elem_of_fmap in Hs as ([p b] & -> & _).
      apply list_elem_of_fmap in Hin as (rule & E & Hr). by apply (Hd rule Hr p).
Qed.

Lemma init_rules_ok r webui protos rdma dc iscsi nvmeof :
  restrictions_ok r -> listener_ok webui -> NoDup (fst <$> protos) ->
  base_ok iscsi -> base_ok nvmeof ->
  rules_ok r (init_rules r webui protos rdma dc iscsi nvmeof).
Proof.
  intros Hr [Hw1 Hw2] Hp Hi Hn. unfold init_rules.
  apply replace_rule_ports_ok; [done|apply known_protocol|done|].
  apply replace_rule_ports_ok; [done|apply known_protocol|done|].
  set (tl := (if rdma then _ else _) ++ (if dc then _ else _)).
  assert (forall rule, rule ∈ tl -> service rule = "rdma" \/ service rule = "dc") as Htl.
  { subst tl. intros rule [H|H]%elem_of_app; [destruct rdma|destruct dc];
      (apply list_elem_of_singleton in H as -> || by apply not_elem_of_nil in H); cbn; tauto. }
  split.
  - apply (fresh_rules_nodup r).
    + by apply NoDup_map_retain.
    + subst tl. destruct rdma, dc; cbn; repeat constructor; set_solver.
    + intros rule [->| ->]%Htl p; by destruct p.
    + intros rule [->| ->]%Htl; done.
  - rewrite !Forall_app. split_and!.
    + constructor; [|constructor]. apply fresh_rule_ok; [done|by left|by apply webui_ports_ok].
    + apply Forall_fmap, Forall_forall. intros pe _. apply fresh_rule_ok; auto with nasty.
    + subst tl. apply Forall_app. split; [destruct rdma|destruct dc]; constructor; try constructor;
        apply fresh_rule_ok; auto with nasty; unfold known_service; tauto.
Qed.

Lemma init_spec env webui protos rdma dc iscsi nvmeof published w w' :
  env_ok env -> boot_ok webui protos iscsi nvmeof published ->
  file_ok restrictions_ok (fw_restrictions_file w) -> file_ok custom_ok (fw_custom_file w) ->
  init env webui protos rdma dc iscsi nvmeof published w = (w', Ok tt) -> fw_inv w'.
Proof.
  intros He (Hw & Hp & Hi & Hn & Hpub) Hfr Hfc. unfold init, m_bind, m_get, m_lift.
  destruct (load_file _ (fw_restrictions_file w)) as [r|] eqn:Er; [|done].
  destruct (load_file _ (fw_custom_file w)) as [cu|] eqn:Ec; [|done].
  destruct webui as [st|]; [|done].
  assert (restrictions_ok r) as Hr.
  { destruct (fw_restrictions_file w); simplify_eq/=; [|done].
    split; apply map_Forall_empty. }
  assert (custom_ok cu) as Hcu.
  { destruct (fw_custom_file w); simplify_eq/=; [|done].
    split_and!; constructor. }
  set (cand := mkFirewallConfig _ r cu published). intros H.
  pose proof (commit_candidate_spec env cand None w He) as Hs. rewrite H in Hs.
  destruct Hs as (pol & Hpol & ->). assert (config_ok cand) as Hcand by (split_and!; cbn; try done; by apply init_rules_ok).
  split_and!; cbn; [done..|by exists pol].
Qed.

(** The states of the service: after a start-up on the files a fresh
    installation, or an earlier run, left behind, and after any operation.
    Whatever rules the kernel had before start-up are replaced. *)
Inductive fw_reach : FwWorld -> Prop :=
| reach_install env webui protos rdma dc iscsi nvmeof published live w :
    env_ok env -> boot_ok webui protos iscsi nvmeof published ->
    init env webui protos rdma dc iscsi nvmeof published
      (mkFwWorld config_default live NoFile NoFile None) = (w, Ok tt) ->
    fw_reach w
| reach_restart w0 env webui protos rdma dc iscsi nvmeof published live w :
    fw_reach w0 -> env_ok env -> boot_ok webui protos iscsi nvmeof published ->
    init env webui protos rdma dc iscsi nvmeof published
      (mkFwWorld config_default live (fw_restrictions_file w0) (fw_custom_file w0) None) = (w, Ok tt) ->
    fw_reach w
| reach_op env op w :
    fw_reach w -> env_ok env -> op_ok op w -> fw_reach (fst (run_op env op w)).

Lemma fw_reach_inv w : fw_reach w -> fw_inv w.
Proof.
  induction 1 as [| w0 ? ? ? ? ? ? ? ? ? ? _ IH|env op w _ IH].
  - by eapply init_spec; [..|eassumption].
  - destruct IH as (_ & ? & ? & _). by eapply init_spec; [..|eassumption].
  - by apply run_op_inv.
Qed.

(** ** The claims *)

(** C5. In every reachable state of the firewall service, with validation,
    submission and renames failing arbitrarily, the batch live in the kernel
    parses as nft reads it, and evaluating its chains admits and forwards
    exactly the packets one configuration stands for: the fixed rules, the
    relay chain, active service rules within their restrictions, enabled custom
    rules and published app ports, and nothing else. That configuration is the
    one in memory, unless a batch took effect though its submission was
    reported failed (it timed out, or waiting for it failed), and none was
    reported committed since; then it is the configuration of that batch. The
    service is started with distinct protocols, ports that fit 16 bits and
    readable or absent state files; operations have such ports and fresh ids
    without line breaks; and the relay policy read with a batch is one that
    adds accepting rules to the relay chain only. *)
Theorem firewall_live_is_policy w :
  fw_reach w ->
  exists text rs relay, fw_live w = Some text /\ parse_transaction text = Some rs /\
    forall pk, input_accepts rs pk = policy_admits (live_config w) relay pk /\
               forward_accepts rs pk = policy_forwards (live_config w) pk.
Proof.
  intros (_ & _ & _ & Hc & pol & Hl & relay & Hrel & Hacc)%fw_reach_inv.
  exists (render_config (live_config w) +:+ pol), (ruleset_of (live_config w) relay), relay.
  split_and!; [done|by apply parse_render; [apply config_ok_fields|]|].
  intros pk. split; [by apply input_accepts_policy|apply forward_accepts_policy].
Qed.

(** A restricted service is never reachable from elsewhere: in every
    reachable state each service has one rule, and a packet its rule admits
    comes from one of the networks and interfaces the service is restricted
    to, whichever order of openings, closings, port moves, restriction changes
    and restarts led there. *)
Theorem firewall_restrictions_hold w rule pk :
  fw_reach w -> rule ∈ fc_rules (fw_config w) -> service_admits pk rule = true ->
  (forall rule', rule' ∈ fc_rules (fw_config w) -> service rule' = service rule -> rule' = rule) /\
  (sources_of (fc_restrictions (fw_config w)) (service rule) <> [] ->
     exists src, src ∈ sources_of (fc_restrictions (fw_config w)) (service rule) /\
       valid_source src = true /\ in_network src (pk_src pk) = true) /\
  (ifaces_of (fc_restrictions (fw_config w)) (service rule) <> [] ->
     pk_iif pk ∈ ifaces_of (fc_restrictions (fw_config w)) (service rule)).
Proof.
  intros (((Hn & HF) & Hr & _) & _)%fw_reach_inv Hin Hadm. unfold service_admits in Hadm.
  apply andb_true_iff in Hadm as [_ (p & Hp & Hpa)%existsb_true_elem].
  rewrite Forall_forall in HF. destruct (HF _ Hin) as [_ Hps]. rewrite Forall_forall in Hps.
  destruct (Hps p Hp) as (_ & Hsrc & Hif). unfold port_admits in Hpa. bool_hyps. split_and!.
  - intros rule' Hin' E. apply list_elem_of_lookup in Hin as [i Hi], Hin' as [j Hj].
    assert (i = j) as ->; [|congruence].
    eapply NoDup_lookup; [exact Hn|..]; rewrite list_lookup_fmap; [by rewrite Hi|rewrite Hj; cbn; by rewrite E].
  - intros Hne. destruct Hsrc as [|(x & Ex & Hx)]; [done|]. exists x.
    match goal with H : source_allows _ _ = true |- _ => rewrite Ex in H end.
    split_and!; try done. pose proof (sources_of_valid _ (service rule) Hr) as Hv.
    rewrite Forall_forall in Hv. by apply Hv.
  - intros Hne. destruct Hif as [|(x & Ex & Hx)]; [done|].
    match goal with H : iface_allows _ _ = true |- _ => rewrite Ex in H; cbn in H end.
    bool_hyps. by subst.
Qed.

(** C29. Every operation that fails leaves the state files as they were, the
    kernel with the rules of one configuration, and the configuration in memory
    as it was, with the kernel on the rules it had or on those of the memory.
    There are two exceptions. When the submission was reported failed but took
    effect, the memory is as before and the kernel has the new rules. When the
    file could not be replaced and the rollback failed or was reported failed,
    the memory has the new configuration, and so has the kernel, unless that
    rollback took effect: then the kernel has the old one. An operation that
    succeeds without changing anything aside, success puts the kernel on the
    configuration in memory; and it keeps the files equal to the memory. *)
Theorem firewall_failure_atomic w env op :
  fw_reach w -> env_ok env -> op_ok op w ->
  match run_op env op w with
  | (w', Err _) =>
      fw_restrictions_file w' = fw_restrictions_file w /\ fw_custom_file w' = fw_custom_file w /\ live_matches w' /\
      ((fw_config w' = fw_config w /\ (live_config w' = live_config w \/ live_config w' = fw_config w)) \/
       (took_effect (f_apply env) = true /\ fw_config w' = fw_config w) \/
       (is_Some (f_rename env) /\ nft_fails (f_rollback env) = true /\
        live_config w' = if took_effect (f_rollback env) then fw_config w else fw_config w'))
  | (w', Ok _) => live_matches w' /\ (w' = w \/ live_config w' = fw_config w') /\ (saved w -> saved w')
  end.
Proof.
  intros Hw He Ho. pose proof (fw_reach_inv _ (reach_op env op w Hw He Ho)) as (_ & _ & _ & _ & Hl).
  pose proof (run_op_settles env op w He) as Hs. unfold settles in Hs.
  destruct (run_op env op w) as [w' [[]|e]].
  - destruct Hs as [Hd Hs]. split_and!; [done| |done]. destruct Hd as [Hd|Hd]; [by left|right]. unfold live_config. by rewrite Hd.
  - destruct Hs as ([Hr Hc] & c' & Hf). split_and!; [done..|].
    destruct Hf as [->|Ec [El _]|Ht Ec [El _]|Hn Hf Ec [El _]]; [by left; auto|by left; auto|by right; left|].
    right. right. split_and!; [done..|]. rewrite El. by destruct (took_effect (f_rollback env)).
Qed.

(** In every reachable state the custom rules have distinct identifiers, no
    two of them open the same ports to the same sources, each opens a
    non-empty range of ports above 0, and every source and interface is one
    the validation accepts, so no text of a request reaches the rules
    unchecked. *)
Theorem firewall_custom_rules_sound w :
  fw_reach w ->
  NoDup (cr_id <$> fc_custom (fw_config w)) /\
  (forall r r' i, r ∈ fc_custom (fw_config w) -> r' ∈ fc_custom (fw_config w) ->
     same_rule r i = true -> same_rule r' i = true -> r = r') /\
  Forall (fun r => 1 <= cr_from r <= cr_to r /\ cr_to r < 65536 /\
                   opt_valid valid_source (cr_source r) /\ opt_valid valid_iface (cr_iface r))
    (fc_custom (fw_config w)).
Proof.
  intros ((_ & _ & (HF & Hn & Hk) & _) & _)%fw_reach_inv. split_and!; [done| |].
  - intros r r' i Hr Hr' E%same_rule_key E'%same_rule_key.
    apply list_elem_of_lookup in Hr as [a Ha], Hr' as [b Hb].
    assert (a = b) as ->; [|congruence].
    eapply NoDup_lookup; [exact Hk|..]; rewrite list_lookup_fmap; [rewrite Ha|rewrite Hb]; cbn; by rewrite ?E, ?E'.
  - eapply Forall_impl; [exact HF|]. intros r [(? & ? & ? & ? & _) ?]. unfold u16 in *. split_and!; done || lia.
Qed.

(** ** A concrete run *)

Definition nft_good : NftEnv := mkNftEnv (Ok "") None Done.
Definition fw_env : FwEnv := mkFwEnv None nft_good None nft_good.
(** The rename of the state file fails and so does putting the rules back. *)
Definition fw_env_bad : FwEnv :=
  mkFwEnv None nft_good (Some "no space left") (mkNftEnv (Ok "") (Some "nft died") Done).

Lemma policy_empty_ok : policy_ok "".
Proof. exists []. split; [reflexivity|constructor]. Qed.
Lemma fw_env_ok : env_ok fw_env.
Proof. split; apply policy_empty_ok. Qed.
Lemma fw_env_bad_ok : env_ok fw_env_bad.
Proof. split; apply policy_empty_ok. Qed.

(** The submission times out after the kernel has committed the batch. *)
Definition fw_env_late : FwEnv := mkFwEnv None (mkNftEnv (Ok "") None (Failed true "nft apply timed out")) None nft_good.

Definition boot_state : result ListenerState string :=
  Ok (mkListenerState (mkPorts 443 (Some 80)) None None).
Definition boot_protos : list (Protocol * bool) := [(Nfs, true); (Ssh, true); (Smart, true)].

Definition fw_booted : FwWorld :=
  fst (init fw_env boot_state boot_protos false false [tcp 3260] [tcp 4420] []
         (mkFwWorld config_default None NoFile NoFile None)).

(** SSH restricted to one network, and a custom rule. *)
Definition fw_restricted : FwWorld :=
  fst (run_op fw_env (OpRestrict boot_state "ssh" ["192.168.1.0/24"] []) fw_booted).
Definition plex : CustomRuleInput := mkCustomRuleInput "Plex" Tcp 32400 32410 None (Some "eth0") true.

Lemma fw_booted_reach : fw_reach fw_booted.
Proof.
  apply (reach_install fw_env boot_state boot_protos false false [tcp 3260] [tcp 4420] [] None).
  - apply fw_env_ok.
  - split; [split; unfold u16; cbn; lia|]. split_and!; [..|constructor].
    + repeat constructor; set_solver.
    + by apply plain_ports_ok.
    + by apply plain_ports_ok.
  - vm_compute. reflexivity.
Qed.

Lemma fw_restricted_reach : fw_reach fw_restricted.
Proof. apply reach_op; [apply fw_booted_reach|apply fw_env_ok|done]. Qed.

Definition ssh_from (a : list Z) : packet :=
  mkPacket false false false "eth0" (V4 a) (L4 Tcp 50000 22) true false 22.

Lemma firewall_live_is_policy_witness :
  exists text rs relay, fw_live fw_restricted = Some text /\ parse_transaction text = Some rs /\
    input_accepts rs (ssh_from [192; 168; 1; 7]) = policy_admits (live_config fw_restricted) relay (ssh_from [192; 168; 1; 7]).
Proof.
  destruct (firewall_live_is_policy fw_restricted fw_restricted_reach) as (t & rs & relay & H1 & H2 & H3).
  exists t, rs, relay. exact (conj H1 (conj H2 (proj1 (H3 _)))).
Defined.

(** The restriction takes effect in the text the kernel gets. *)
Example restricted_ssh_live :
  (rs ← (text ← fw_live fw_restricted; parse_transaction text);
   Some (input_accepts rs (ssh_from [192; 168; 1; 7]), input_accepts rs (ssh_from [10; 0; 0; 7]))) =
  Some (true, false).
Proof. vm_compute. reflexivity. Qed.

(** Opening SMB times out after the kernel has taken the batch: the caller is
    told it failed and the memory has it closed, but the port is open, until
    the next batch that is reported committed. *)
Definition smb_in : packet := mkPacket false false false "eth0" (V4 [10; 0; 0; 7]) (L4 Tcp 50000 445) true false 445.
Definition fw_late : FwWorld := fst (run_op fw_env_late (OpOpen Smb) fw_restricted).
Definition admits_smb (w : FwWorld) : option bool :=
  rs ← (text ← fw_live w; parse_transaction text); Some (input_accepts rs smb_in).

Example late_batch_opens_port :
  is_ok (snd (run_op fw_env_late (OpOpen Smb) fw_restricted)) = false /\ fw_config fw_late = fw_config fw_restricted /\
  admits_smb fw_restricted = Some false /\ admits_smb fw_late = Some true /\
  admits_smb (fst (run_op fw_env OpOpenRdma fw_late)) = Some false.
Proof. split_and!; vm_compute; reflexivity. Qed.

Definition ssh_rule : FirewallRule :=
  mkFirewallRule "ssh" [mkPortSpec 22 None Tcp (Some "192.168.1.0/24") None] true.

Lemma firewall_restrictions_hold_witness :
  exists src, src ∈ sources_of (fc_restrictions (fw_config fw_restricted)) "ssh" /\
    valid_source src = true /\ in_network src (V4 [192; 168; 1; 7]) = true.
Proof.
  apply (proj1 (proj2 (firewall_restrictions_hold fw_restricted ssh_rule (ssh_from [192; 168; 1; 7])
    fw_restricted_reach ltac:(vm_compute; repeat constructor) eq_refl))).
  vm_compute. discriminate.
Defined.

Lemma firewall_failure_atomic_witness :
  let w' := fst (run_op fw_env_bad (OpAddCustom "id-1" plex) fw_restricted) in
  fw_custom_file w' = NoFile /\ length (fc_custom (fw_config w')) = 1%nat /\ live_matches w'.
Proof.
  assert (op_ok (OpAddCustom "id-1" plex) fw_restricted) as Ho.
  { split; [split; by vm_compute|]. split; [by apply no_char_dec|vm_compute; intros H; inversion H]. }
  pose proof (firewall_failure_atomic fw_restricted fw_env_bad (OpAddCustom "id-1" plex)
    fw_restricted_reach fw_env_bad_ok Ho) as H.
  assert (length (fc_custom (fw_config (fst (run_op fw_env_bad (OpAddCustom "id-1" plex)
    fw_restricted)))) = 1%nat) as Hlen by (vm_compute; reflexivity).
  assert (is_ok (snd (run_op fw_env_bad (OpAddCustom "id-1" plex) fw_restricted)) = false) as Herr
    by (vm_compute; reflexivity).
  destruct (run_op fw_env_bad (OpAddCustom "id-1" plex) fw_restricted) as [w' [[]|e]]; [done|].
  cbn zeta. cbn [fst] in *. destruct H as (_ & Hf & Hl & _). split_and!; [by rewrite Hf|exact Hlen|exact Hl].
Defined.

Lemma firewall_custom_rules_sound_witness :
  NoDup (cr_id <$> fc_custom (fw_config (fst (run_op fw_env (OpAddCustom "id-1" plex) fw_restricted)))).
Proof.
  apply (firewall_custom_rules_sound (fst (run_op fw_env (OpAddCustom "id-1" plex) fw_restricted))).
  apply reach_op; [apply fw_restricted_reach|apply fw_env_ok|].
  split; [split; by vm_compute|]. split; [by apply no_char_dec|vm_compute; intros H; inversion H].
Defined.
