(* ===== verification/Service.v ===== *)
(** * Protocols and firewall together

    The [service.protocol.enable] and [service.protocol.disable] handlers of
    nasty-engine/src/router/service.rs, which move the protocol service and the
    firewall in step and compensate for failures, and the part of [main] that
    brings protocols and firewall up at boot.  iSCSI, NVMe-oF, storage recovery
    and time-outs of boot phases are arguments. *)

From Stdlib Require Import ZArith Lia Ascii String.
From stdpp Require Import base list gmap strings.
From S2P Require Import Prelude RustStr Text RustVec Net Auth Webui Protocol Firewall Nft FirewallPolicy FirewallProps.

Record SWorld : Type := mkSWorld {
  sw_proto : PWorld;
  sw_fw : FwWorld;
}.

Abbreviation sop := (stm SWorld string).

Definition on_proto {A} (m : pop A) : sop A := fun w =>
  let '(p, r) := m (sw_proto w) in (mkSWorld p (sw_fw w), r).
Definition on_fw {A} (m : fop A) : sop A := fun w =>
  let '(f, r) := m (sw_fw w) in (mkSWorld (sw_proto w) f, r).

(** ** The handlers *)

Definition protocol_mutation_access (p : Protocol) : EndpointAccess :=
  if is_system_service p then RootEquivalent else UnscopedMutation.

(** What the handler meets outside the two services. *)
Record SEnv : Type := mkSEnv {
  se_admin_sources : result bool string;   (** [protocol_has_admin_only_sources] *)
  se_remap_safe : bool;                    (** [remap_device_paths] is safe to restore *)
  se_nvme_quiesce : option string;         (** error of [NvmeofService::quiesce] *)
  se_nvme_restore : option string;         (** error of [NvmeofService::restore] *)
  se_quiesce : PEnv;
  se_proto : PEnv;
  se_proto_undo : PEnv;
  se_fw : FwEnv;
  se_fw_undo : FwEnv;
}.

Inductive SResp : Type := RDenied (d : AccessDenied) | ROk (s : ProtocolStatus) | RErr (e : string).

Definition is_block (p : Protocol) : bool :=
  match p with Iscsi | Nvmeof => true | _ => false end.

Definition opt_err {A} (r : result A string) : option string :=
  match r with Ok _ => None | Err e => Some e end.

(** The checks before iSCSI or NVMe-oF is enabled: refuse administrators'
    sources to others, and refuse exports whose volumes do not resolve. *)
Definition block_checks (session : Session) (env : SEnv) (p : Protocol) (w : SWorld)
    : SWorld * option SResp :=
  if negb (is_block p) then (w, None) else
  match se_admin_sources env with
  | Err e => (w, Some (RErr e))
  | Ok admin_only =>
      match (if admin_only then authorize_session session RootEquivalent else Ok tt) with
      | Err d => (w, Some (RDenied d))
      | Ok _ =>
          if negb (se_remap_safe env) then
            let '(w1, qe) := match p with
                             | Iscsi => let '(w', r) := on_proto (quiesce (se_quiesce env) p) w in (w', opt_err r)
                             | _ => (w, se_nvme_quiesce env)
                             end in
            let w2 := fst (on_fw (close (se_fw_undo env) p) w1) in
            (w2, Some (RErr (match qe with
              | Some e => display_name p +:+ " backing volumes could not be resolved safely; live export quiescing also failed: " +:+ e
              | None => display_name p +:+ " backing volumes could not be resolved safely"
              end)))
          else
            match p with
            | Iscsi =>
                match on_proto (quiesce (se_quiesce env) p) w with
                | (w1, Err e) => (w1, Some (RErr ("failed to reload remapped iSCSI state: " +:+ e)))
                | (w1, Ok _) => (w1, None)
                end
            | _ => (w, None)
            end
      end
  end.

Definition handle_enable (session : Session) (env : SEnv) (name : string) (w : SWorld)
    : SWorld * SResp :=
  match from_name name with
  | None =>
      match on_proto (protocol_enable (se_proto env) name) w with
      | (w1, Ok v) => (w1, ROk v)
      | (w1, Err e) => (w1, RErr e)
      end
  | Some p =>
      match authorize_session session (protocol_mutation_access p) with
      | Err d => (w, RDenied d)
      | Ok _ =>
          match block_checks session env p w with
          | (w1, Some resp) => (w1, resp)
          | (w1, None) =>
              match on_fw (open (se_fw env) p) w1 with
              | (w2, Err e) => (w2, RErr ("firewall update failed: " +:+ e))
              | (w2, Ok _) =>
                  match on_proto (protocol_enable (se_proto env) name) w2 with
                  | (w3, Ok v) =>
                      match (if decide (p = Nvmeof) then se_nvme_restore env else None) with
                      | None => (w3, ROk v)
                      | Some e =>
                          let '(w4, d) := on_proto (protocol_disable (se_proto_undo env) name) w3 in
                          let '(w5, c) := on_fw (close (se_fw_undo env) p) w4 in
                          (w5, RErr ("failed to restore NVMe-oF safely: " +:+ e +:+
                             match se_nvme_quiesce env with
                             | Some e => "; live namespace quiescing also failed: " +:+ e | None => "" end +:+
                             match opt_err d with
                             | Some e => "; protocol rollback also failed: " +:+ e | None => "" end +:+
                             match opt_err c with
                             | Some e => "; firewall rollback also failed: " +:+ e | None => "" end))
                      end
                  | (w3, Err se) =>
                      match on_fw (close (se_fw_undo env) p) w3 with
                      | (w4, Ok _) => (w4, RErr se)
                      | (w4, Err fe) => (w4, RErr (se +:+ "; firewall rollback also failed: " +:+ fe))
                      end
                  end
              end
          end
      end
  end.

Definition handle_disable (session : Session) (env : SEnv) (name : string) (w : SWorld)
    : SWorld * SResp :=
  let disable w := match on_proto (protocol_disable (se_proto env) name) w with
                   | (w1, Ok v) => (w1, inl v)
                   | (w1, Err e) => (w1, inr e)
                   end in
  match from_name name with
  | None => match disable w with (w1, inl v) => (w1, ROk v) | (w1, inr e) => (w1, RErr e) end
  | Some p =>
      match authorize_session session (protocol_mutation_access p) with
      | Err d => (w, RDenied d)
      | Ok _ =>
          match disable w with
          | (w1, inr e) => (w1, RErr e)
          | (w1, inl v) =>
              match on_fw (close (se_fw env) p) w1 with
              | (w2, Ok _) => (w2, ROk v)
              | (w2, Err e) => (w2, RErr ("protocol disabled but firewall update failed: " +:+ e))
              end
          end
      end
  end.

(** ** Boot ([main]) *)

Definition boot_firewall_protocol_enabled (p : Protocol) (desired : bool) : bool :=
  desired && negb (bool_decide (p = Nfs)).

Definition protocol_restore_exclusions (nfs_safe iscsi_safe nvmeof_safe : bool) : gset Protocol :=
  (if nfs_safe then ∅ else {[ Nfs ]}) ∪ (if iscsi_safe then ∅ else {[ Iscsi ]}) ∪
  (if nvmeof_safe then ∅ else {[ Nvmeof ]}).

Record BootEnv : Type := mkBootEnv {
  b_enabled : PEnv;                                  (** [is_enabled], before each *)
  b_dc : bool;
  b_portals : result (list PortSpec * list PortSpec) string;
  b_published : result (list PublishedAppPort) string;
  b_webui : result ListenerState string;
  b_init : FwEnv;
  b_nfs_quiesce : option PEnv;                       (** [None]: it timed out *)
  b_mount_failures : list string;
  b_iscsi_safe : bool;
  b_nvmeof_safe : bool;
  b_iscsi_quiesce : option PEnv;
  b_nvmeof_quiesce : option string;
  b_restore : PEnv;
  b_restore_timeout : option PWorld;                 (** a time-out leaves this world *)
  b_states : FwEnv;
  b_rdma : bool;
  b_rdma_fw : FwEnv;
}.

(** [is_enabled] of every protocol, in order. *)
Fixpoint enabled_states (env : PEnv) (ps : list Protocol) (w : PWorld)
    : PWorld * list (Protocol * bool) :=
  match ps with
  | [] => (w, [])
  | p :: ps' =>
      let '(w1, b) := is_enabled env p w in
      let '(w2, l) := enabled_states env ps' w1 in
      (w2, (p, boot_firewall_protocol_enabled p b) :: l)
  end.

Definition boot_firewall (env : BootEnv) : sop unit := fun w =>
  let '(p1, states) := enabled_states (b_enabled env) Protocol_ALL (sw_proto w) in
  let w1 := mkSWorld p1 (sw_fw w) in
  match b_portals env, b_published env with
  | Err e, _ | Ok _, Err e => (w1, Err e)
  | Ok (iscsi, nvmeof), Ok published =>
      on_fw (init (b_init env) (b_webui env) states false (b_dc env) iscsi nvmeof published) w1
  end.

(** Stop NFS before storage recovery; whether it stopped. *)
Definition boot_quiesce_nfs (env : BootEnv) (w : SWorld) : SWorld * bool :=
  match b_nfs_quiesce env with
  | None => (w, false)
  | Some pe => match on_proto (quiesce pe Nfs) w with
               | (w', Ok _) => (w', true)
               | (w', Err _) => (w', false)
               end
  end.

(** Quiesce iSCSI and NVMe-oF where they must not keep running. *)
Definition boot_quiesce_block (env : BootEnv) : sop unit := fun w =>
  let '(p1, iscsi_on) := is_enabled (b_enabled env) Iscsi (sw_proto w) in
  let w1 := mkSWorld p1 (sw_fw w) in
  let r := if negb (b_iscsi_safe env) || iscsi_on then
             match b_iscsi_quiesce env with
             | None => (w1, Err "timed out quiescing iSCSI before protocol restore")
             | Some pe => match on_proto (quiesce pe Iscsi) w1 with
                          | (w', Ok _) => (w', Ok tt)
                          | (w', Err e) => (w', Err ("failed to quiesce iSCSI before protocol restore: " +:+ e))
                          end
             end
           else (w1, Ok tt) in
  match r with
  | (w2, Err e) => (w2, Err e)
  | (w2, Ok _) =>
      if negb (b_nvmeof_safe env) then
        match b_nvmeof_quiesce env with
        | Some e => (w2, Err ("failed to quiesce unsafe NVMe-oF state: " +:+ e))
        | None => (w2, Ok tt)
        end
      else (w2, Ok tt)
  end.

(** Restore the protocols that are safe, then close the rules of all others. *)
Definition boot_restore (env : BootEnv) (nfs_safe : bool) (w : SWorld)
    : SWorld * gset Protocol * result unit string :=
  let excluded := protocol_restore_exclusions nfs_safe (b_iscsi_safe env) (b_nvmeof_safe env) in
  let '(p1, restored) := match b_restore_timeout env with
                         | Some p => (p, ∅)
                         | None => restore_excluding (b_restore env) excluded (sw_proto w)
                         end in
  let states := (fun p => (p, negb (bool_decide (p ∈ excluded)) && bool_decide (p ∈ restored)))
                <$> Protocol_ALL in
  let '(w2, r) := on_fw (set_protocol_states (b_states env) states) (mkSWorld p1 (sw_fw w)) in
  (w2, restored, r).

Definition boot_rdma (env : BootEnv) (nfs_safe : bool) (restored : gset Protocol) : sop unit := fun w =>
  let '(p1, desired) := is_enabled (b_enabled env) Nfs (sw_proto w) in
  let nfs_restored := negb desired || bool_decide (Nfs ∈ restored) in
  on_fw (if b_rdma env && nfs_safe && nfs_restored then open_rdma (b_rdma_fw env)
         else close_rdma (b_rdma_fw env)) (mkSWorld p1 (sw_fw w)).

(** The states the boot passes through, the last first, and the protocols that
    were restored; an error ends the process. *)
Definition boot (env : BootEnv) (w : SWorld) : list SWorld * result (gset Protocol) string :=
  match boot_firewall env w with
  | (w1, Err e) => ([w1], Err e)
  | (w1, Ok _) =>
      let '(w2, nfs_quiesced) := boot_quiesce_nfs env w1 in
      let nfs_safe := nfs_quiesced && bool_decide (b_mount_failures env = []) in
      match boot_quiesce_block env w2 with
      | (w3, Err e) => ([w3; w2; w1], Err e)
      | (w3, Ok _) =>
          match boot_restore env nfs_safe w3 with
          | (w4, _, Err e) => ([w4; w3; w2; w1], Err e)
          | (w4, restored, Ok _) =>
              match boot_rdma env nfs_safe restored w4 with
              | (w5, Err e) => ([w5; w4; w3; w2; w1], Err e)
              | (w5, Ok _) => ([w5; w4; w3; w2; w1], Ok restored)
              end
          end
      end
  end.

(** ** The firewall rule of a protocol *)

(** Some active rule belongs to the protocol. *)
Definition is_open (f : FwWorld) (p : Protocol) : bool :=
  existsb (fun r => is_service (protocol_name p) r && active r) (fc_rules (fw_config f)).

Definition one_rule_each (f : FwWorld) : Prop := NoDup (service <$> fc_rules (fw_config f)).

Lemma commit_none env cand w w' r :
  commit_candidate env cand None w = (w', r) ->
  fw_config w' = match r with Ok _ => cand | Err _ => fw_config w end.
Proof.
  unfold commit_candidate, apply_nftables_with.
  destruct (n_policy (f_apply env)), (n_check (f_apply env)), (n_submit (f_apply env)) as [|[]]; cbn; by intros [= <- <-].
Qed.

(** A commit that fails is one nft refused. *)
Lemma commit_none_err env cand w w' e :
  commit_candidate env cand None w = (w', Err e) -> nft_fails (f_apply env) = true.
Proof.
  unfold commit_candidate, apply_nftables_with, nft_fails.
  destruct (n_policy (f_apply env)), (n_check (f_apply env)), (n_submit (f_apply env)) as [|[]]; cbn; done.
Qed.

Lemma nodup_service_update s b rules rules' :
  NoDup (service <$> rules) ->
  update_first (is_service s) (set_active_flag b) rules = Some rules' ->
  NoDup (service <$> rules') /\
  (forall q, existsb (fun r => is_service q r && active r) rules' =
     if String.eqb s q then b else existsb (fun r => is_service q r && active r) rules).
Proof.
  intros Hn Hu. split; [by rewrite (NoDup_update_first service _ (set_active_flag b) _ _ (fun _ => eq_refl) Hu)|].
  apply update_first_Some in Hu as (l1 & x & l2 & -> & -> & Hx & _). intros q.
  unfold is_service in Hx. bool_hyps. subst s. rewrite !existsb_app. cbn [existsb].
  unfold is_service at 2 5. cbn [service set_active_flag active].
  destruct (String.eqb_spec (service x) q) as [<-|Hne]; [|done].
  assert (forall l, service x ∉ service <$> l ->
    existsb (fun r => is_service (service x) r && active r) l = false) as Hno.
  { intros l Hl. apply existsb_false_elem. intros r Hr. unfold is_service.
    destruct (String.eqb_spec (service r) (service x)) as [E|]; [|done].
    destruct Hl. rewrite <- E. by apply list_elem_of_fmap_2. }
  rewrite fmap_app, fmap_cons, NoDup_app, NoDup_cons in Hn. destruct Hn as (_ & Hn1 & Hn2 & _).
  rewrite !Hno; [cbn; by rewrite orb_false_r|done|].
  intros Hin. apply (Hn1 _ Hin). set_solver.
Qed.

Lemma set_rule_active_spec env svc base b f f' r :
  one_rule_each f -> base <> [] -> set_rule_active env svc base b f = (f', r) ->
  one_rule_each f' /\
  match r with
  | Ok _ => forall q, existsb (fun r => is_service q r && active r) (fc_rules (fw_config f')) =
      if String.eqb svc q then b
      else existsb (fun r => is_service q r && active r) (fc_rules (fw_config f))
  | Err _ => fw_config f' = fw_config f /\ nft_fails (f_apply env) = true
  end.
Proof.
  intros Hn Hb. unfold set_rule_active. rewrite bool_decide_eq_false_2 by done.
  unfold m_bind, m_get, m_ret, one_rule_each in *.
  destruct (find_first (is_service svc) _) as [rule|] eqn:Ef.
  - destruct (Bool.eqb (active rule) b) eqn:Eb.
    + intros [= <- <-]. split; [done|]. intros q.
      destruct (update_first (is_service svc) (set_active_flag b) (fc_rules (fw_config f))) as [rules'|] eqn:Eu.
      * destruct (nodup_service_update _ _ _ _ Hn Eu) as [_ Hq]. rewrite <- Hq.
        apply update_first_Some in Eu as (l1 & x & l2 & E & -> & _ & Ef').
        rewrite Ef in Ef'. injection Ef' as <-. rewrite E.
        apply Bool.eqb_prop in Eb. subst b. by destruct rule.
      * apply update_first_None in Eu. congruence.
    + intros Hc. pose proof (commit_none _ _ _ _ _ Hc) as E.
      destruct (update_first (is_service svc) (set_active_flag b) (fc_rules (fw_config f))) as [rules'|] eqn:Eu.
      2:{ apply update_first_None in Eu. congruence. }
      destruct (nodup_service_update _ _ _ _ Hn Eu) as [Hn' Hq].
      destruct r; rewrite E; cbn; [done|]. split; [done|]. split; [done|]. by eapply commit_none_err.
  - intros Hc. pose proof (commit_none _ _ _ _ _ Hc) as E. rewrite find_first_None in Ef.
    destruct r; rewrite E; cbn; cycle 1.
    { split; [done|]. split; [done|]. by eapply commit_none_err. }
    split.
    + rewrite fmap_app. apply NoDup_app. split_and!; [done| |apply NoDup_singleton].
      intros s Hs. cbn. intros ->%list_elem_of_singleton. apply list_elem_of_fmap in Hs as (x & Ex & Hx).
      specialize (Ef x Hx). unfold is_service in Ef. rewrite <- Ex, String.eqb_refl in Ef. done.
    + intros q. rewrite existsb_app. cbn. rewrite orb_false_r.
      destruct (String.eqb_spec svc q) as [<-|Hne].
      * rewrite (proj2 (existsb_false_elem _ _)); [done|]. intros x Hx. by rewrite (Ef x Hx).
      * cbn. by rewrite orb_false_r.
Qed.

Lemma eqb_protocol_name p q :
  String.eqb (protocol_name p) (protocol_name q) = bool_decide (p = q).
Proof. by destruct p, q. Qed.

Lemma set_open_spec env p b f f' r :
  one_rule_each f ->
  set_rule_active env (protocol_name p) (ports_for_protocol p) b f = (f', r) ->
  one_rule_each f' /\
  match r with
  | Ok _ => forall q, is_open f' q = if decide (p = q /\ ports_for_protocol p <> []) then b else is_open f q
  | Err _ => fw_config f' = fw_config f /\ nft_fails (f_apply env) = true
  end.
Proof.
  intros Hn. destruct (decide (ports_for_protocol p = [])) as [E|Hne].
  - unfold set_rule_active. rewrite E, bool_decide_eq_true_2 by done. intros [= <- <-].
    split; [done|]. intros q. by rewrite decide_False by naive_solver.
  - intros H. destruct (set_rule_active_spec _ _ _ _ _ _ _ Hn Hne H) as [Hn' Hr].
    split; [done|]. destruct r; [|done]. intros q. unfold is_open. rewrite Hr, eqb_protocol_name.
    destruct (decide (p = q)) as [->|]; [rewrite bool_decide_eq_true_2, decide_True by done; done|].
    rewrite bool_decide_eq_false_2, decide_False by naive_solver. done.
Qed.

(** ** The protocol service *)

Lemma start_services_spec env p started svcs w w' started' failed :
  start_services env p started svcs w = (w', started', failed) ->
  pw_file w' = pw_file w /\ pw_units w ⊆ pw_units w' /\
  pw_units w' ⊆ pw_units w ∪ list_to_set svcs /\
  (failed = None -> forall svc, svc ∈ svcs -> svc ∈ pw_units w').
Proof.
  revert started w. induction svcs as [|svc svcs IH]; intros started w; cbn.
  { intros [= <- <- <-]. set_solver. }
  unfold systemctl_start. destruct (pe_start env svc) as [|b e].
  - destruct (if decide (p = Watchdog) then _ else _).
    + intros [= <- <- <-]. cbn. split_and!; [done|set_solver..].
    + intros H. destruct (IH _ _ H) as (Hf & Hu1 & Hu2 & Hs). cbn in *. split_and!; [done|set_solver..|].
      intros Hn x [->|Hx]%elem_of_cons; [set_solver|auto].
  - intros [= <- <- <-]. destruct b; cbn; split_and!; try done; set_solver.
Qed.

Lemma load_state_ok env w : exists w' st, load_state env w = (w', Ok st) /\ pw_units w' = pw_units w.
Proof.
  unfold load_state. destruct (pw_file w); [|eauto..].
  eexists _, _. split; [done|]. unfold save_state. by destruct (pe_save_init env).
Qed.

Definition file_enabled (f : StateFile) (p : Protocol) : Prop :=
  exists st, f = FileState st /\ state_get st p = true.
Definition file_disabled (f : StateFile) (p : Protocol) : Prop :=
  exists st, f = FileState st /\ state_get st p = false.

Lemma protocol_enable_ok env name w w' v p :
  from_name name = Some p -> protocol_enable env name w = (w', Ok v) ->
  file_enabled (pw_file w') p /\ forall svc, svc ∈ services (pe_nut env) p -> svc ∈ pw_units w'.
Proof.
  intros Hp. unfold protocol_enable, m_bind, m_lift, m_throw. rewrite Hp. cbn [ok_or].
  destruct (_ && _); [done|]. destruct (load_state_ok env w) as (w1 & st & -> & Hu).
  unfold save_state. destruct (pe_save env p); [done|]. cbn.
  destruct (pe_prepare env p); [by destruct (undo_enable _ _ _ _ _)|].
  destruct (start_services _ _ _ _ _) as [[w2 sd] [e|]] eqn:Es; [by destruct (undo_enable _ _ _ _ _)|].
  intros [= <- <-]. apply start_services_spec in Es as (Hf & _ & _ & Hs). cbn in Hf.
  split; [|by apply Hs]. exists (state_set p true st). rewrite Hf. split; [done|].
  by rewrite state_get_set, decide_True.
Qed.

Lemma stop_services_spec env svcs w :
  pw_file (stop_services env svcs w) = pw_file w /\
  pw_units (stop_services env svcs w) ⊆ pw_units w /\
  pw_units w ⊆ pw_units (stop_services env svcs w) ∪ list_to_set svcs.
Proof.
  unfold stop_services. revert w. induction svcs as [|svc svcs IH]; intros w; cbn; [set_solver|].
  destruct (IH (fst (systemctl_stop (pe_stop env svc) svc w))) as (Hf & H1 & H2). rewrite Hf. clear Hf IH.
  revert H1 H2. generalize (foldl (fun w svc => fst (systemctl_stop (pe_stop env svc) svc w))
    (fst (systemctl_stop (pe_stop env svc) svc w)) svcs). intros w2.
  unfold systemctl_stop. destruct (pe_stop env svc) as [|[] e]; cbn; intros H1 H2;
    split_and!; try done; try set_solver.
  - intros x Hx. destruct (decide (x = svc)); [set_solver|]. set_solver.
  - intros x Hx. destruct (decide (x = svc)); [set_solver|]. set_solver.
Qed.

Lemma protocol_disable_ok env name w w' v p :
  from_name name = Some p -> protocol_disable env name w = (w', Ok v) -> file_disabled (pw_file w') p.
Proof.
  intros Hp. unfold protocol_disable, m_bind, m_lift. rewrite Hp. cbn [ok_or].
  destruct (load_state_ok env w) as (w1 & st & -> & Hu).
  unfold save_state. destruct (pe_save env p); [done|].
  assert (file_disabled (FileState (state_set p false st)) p) as Hd
    by (exists (state_set p false st); by rewrite state_get_set, decide_True).
  destruct (decide (p = Watchdog)).
  - unfold stop_and_verify, systemctl_stop. destruct (pe_watchdog_stop env) as [|[]]; cbn;
      intros [= <- <-]; done.
  - intros [= <- <-]. destruct (stop_services_spec env (services (pe_nut env) p)
      {| pw_file := FileState (state_set p false st); pw_units := pw_units w1 |}) as (-> & _). done.
Qed.

(** ** The toggle *)

Lemma on_proto_inv {A} (m : pop A) w w' r :
  on_proto m w = (w', r) -> m (sw_proto w) = (sw_proto w', r) /\ sw_fw w' = sw_fw w.
Proof. unfold on_proto. destruct (m (sw_proto w)) as [p x]. intros [= <- <-]. done. Qed.

Lemma on_fw_inv {A} (m : fop A) w w' r :
  on_fw m w = (w', r) -> m (sw_fw w) = (sw_fw w', r) /\ sw_proto w' = sw_proto w.
Proof. unfold on_fw. destruct (m (sw_fw w)) as [p x]. intros [= <- <-]. done. Qed.

Ltac world_hyps :=
  repeat match goal with
  | H : on_proto _ _ = (_, _) |- _ => apply on_proto_inv in H as [? ?]
  | H : on_fw _ _ = (_, _) |- _ => apply on_fw_inv in H as [? ?]
  end.

(** What a request that does not succeed may leave open: what was open, or what
    nft refused to close. *)
Definition no_new_port (env : SEnv) (w w' : SWorld) : Prop :=
  forall p, is_open (sw_fw w') p = true ->
    is_open (sw_fw w) p = true \/ nft_fails (f_apply (se_fw_undo env)) = true.

Lemma close_no_new env p f f' r :
  one_rule_each f -> close env p f = (f', r) ->
  one_rule_each f' /\
  forall q, is_open f' q = true -> is_open f q = true /\ (p = q -> nft_fails (f_apply env) = true \/ ports_for_protocol p = []).
Proof.
  intros Hn H. destruct (set_open_spec _ _ _ _ _ _ Hn H) as [Hn' Hr]. split; [done|].
  intros q Hq. destruct r as [[]|e].
  - rewrite Hr in Hq. destruct (decide (p = q /\ _)); [done|]. split; [done|]. intros ->.
    right. destruct (decide (ports_for_protocol q = [])); naive_solver.
  - destruct Hr as [E Hf]. unfold is_open in *. rewrite E in Hq. auto.
Qed.

Lemma block_checks_spec session env p w w1 resp :
  one_rule_each (sw_fw w) -> block_checks session env p w = (w1, resp) ->
  one_rule_each (sw_fw w1) /\ (forall q, is_open (sw_fw w1) q = true -> is_open (sw_fw w) q = true) /\
  match resp with
  | None => sw_fw w1 = sw_fw w
  | Some (RDenied _) => w1 = w
  | Some (ROk _) => False
  | Some (RErr _) => True
  end.
Proof.
  intros Hn. unfold block_checks. destruct (is_block p); cbn [negb]; [|by intros [= <- <-]].
  destruct (se_admin_sources env) as [adm|]; [|by intros [= <- <-]].
  destruct (if adm then _ else _); [|by intros [= <- <-]].
  destruct (se_remap_safe env); cbn [negb].
  - destruct p; try by intros [= <- <-].
    destruct (on_proto _ w) as [w2 [[]|e]] eqn:E; world_hyps; intros [= <- <-];
      match goal with H : sw_fw w2 = _ |- _ => rewrite H end; done.
  - set (q1 := match p with Iscsi => _ | _ => _ end).
    assert (sw_fw (fst q1) = sw_fw w) as Hq.
    { subst q1. destruct p; try done. destruct (on_proto _ w) as [w2 r] eqn:E. by world_hyps. }
    destruct q1 as [w2 qe]. cbn in Hq. destruct (on_fw _ w2) as [w3 r] eqn:E. cbn [fst].
    intros [= <- <-]. apply on_fw_inv in E as [Ef _]. rewrite Hq in Ef.
    destruct (close_no_new _ _ _ _ _ Hn Ef) as [? Hc]. split_and!; [done| |done].
    intros q' Hq'. by apply Hc.
Qed.

(** What a response of the enable handler promises about the world after it. *)
Definition enable_post (session : Session) (env : SEnv) (p : Protocol) (w : SWorld)
    (out : SWorld * SResp) : Prop :=
  let '(w', resp) := out in
  match resp with
  | RDenied d => w' = w
  | ROk _ => authorize_session session (protocol_mutation_access p) = Ok tt /\
      file_enabled (pw_file (sw_proto w')) p /\
      (forall svc, svc ∈ services (pe_nut (se_proto env)) p -> svc ∈ pw_units (sw_proto w')) /\
      (ports_for_protocol p <> [] -> is_open (sw_fw w') p = true)
  | RErr _ => no_new_port env w w'
  end.

Definition disable_post (p : Protocol) (w : SWorld) (out : SWorld * SResp) : Prop :=
  let '(w', resp) := out in
  match resp with
  | RDenied d => w' = w
  | ROk _ => file_disabled (pw_file (sw_proto w')) p /\
      (ports_for_protocol p <> [] -> is_open (sw_fw w') p = false)
  | RErr _ => forall q, is_open (sw_fw w') q = is_open (sw_fw w) q
  end.

Lemma handle_enable_post session env name p w :
  from_name name = Some p -> one_rule_each (sw_fw w) ->
  enable_post session env p w (handle_enable session env name w).
Proof.
  intros Hp Hn.
  unfold handle_enable. rewrite Hp.
  destruct (authorize_session _ _) as [[]|d] eqn:Ha; [|done].
  destruct (block_checks session env p w) as [w1 [resp|]] eqn:Eb;
    destruct (block_checks_spec _ _ _ _ _ _ Hn Eb) as (Hn1 & Ho1 & Hr1).
  { destruct resp; [done|done|]. intros q Hq. left. auto. }
  destruct (on_fw (open (se_fw env) p) w1) as [w2 r2] eqn:E2. apply on_fw_inv in E2 as [E2 Ep2].
  destruct (set_open_spec _ _ _ _ _ _ Hn1 E2) as [Hn2 Hr2]. destruct r2 as [[]|e].
  2:{ intros q Hq. left. apply Ho1. destruct Hr2 as [E _]. unfold is_open in *. by rewrite <- E. }
  destruct (on_proto (protocol_enable (se_proto env) name) w2) as [w3 r3] eqn:E3.
  apply on_proto_inv in E3 as [E3 Ef3]. destruct r3 as [v|se].
  + destruct (protocol_enable_ok _ _ _ _ _ _ Hp E3) as [Hfile Hunits].
    destruct (if decide (p = Nvmeof) then _ else _) as [e|].
    * destruct (on_proto _ w3) as [w4 r4] eqn:E4. apply on_proto_inv in E4 as [_ Ef4].
      destruct (on_fw (close _ p) w4) as [w5 r5] eqn:E5. apply on_fw_inv in E5 as [E5 _].
      rewrite Ef4, Ef3 in E5. destruct (close_no_new _ _ _ _ _ Hn2 E5) as [_ Hc].
      intros q Hq. destruct (Hc q Hq) as [Hq2 Hpq]. rewrite Hr2 in Hq2.
      destruct (decide (p = q /\ _)) as [[-> Hne]|]; [|left; auto].
      destruct (Hpq eq_refl); [by right|done].
    * split_and!; try done. intros Hne. rewrite Ef3, Hr2, decide_True; done.
  + destruct (on_fw (close _ p) w3) as [w4 r4] eqn:E4. apply on_fw_inv in E4 as [E4 _].
    rewrite Ef3 in E4. destruct (close_no_new _ _ _ _ _ Hn2 E4) as [_ Hc].
    assert (no_new_port env w w4) as Hg.
    { intros q Hq. destruct (Hc q Hq) as [Hq2 Hpq]. rewrite Hr2 in Hq2.
      destruct (decide (p = q /\ _)) as [[-> Hne]|]; [|left; auto].
      destruct (Hpq eq_refl); [by right|done]. }
    by destruct r4.
Qed.

Lemma handle_disable_post session env name p w :
  from_name name = Some p -> one_rule_each (sw_fw w) ->
  disable_post p w (handle_disable session env name w).
Proof.
  intros Hp Hn.
  unfold handle_disable. rewrite Hp.
  destruct (authorize_session _ _) as [[]|d] eqn:Ha; [|done].
  destruct (on_proto (protocol_disable (se_proto env) name) w) as [w1 r1] eqn:E1.
  apply on_proto_inv in E1 as [E1 Ef1]. destruct r1 as [v|e]; [|intros q; by rewrite Ef1].
  pose proof (protocol_disable_ok _ _ _ _ _ _ Hp E1) as Hd.
  destruct (on_fw (close (se_fw env) p) w1) as [w2 r2] eqn:E2. apply on_fw_inv in E2 as [E2 Ep2].
  rewrite Ef1 in E2. destruct (set_open_spec _ _ _ _ _ _ Hn E2) as [_ Hr]. destruct r2 as [[]|e2].
  + split; [by rewrite Ep2|]. intros Hne. rewrite Hr, decide_True; done.
  + intros q. destruct Hr as [E _]. unfold is_open. by rewrite E.
Qed.

(** Enabling and disabling a protocol keeps daemon, preference and firewall
    in step.  A refused request changes nothing.  Enabling that reports success
    has stored the preference, started every unit and opened the ports, for a
    session allowed to; enabling that fails opens no port that was closed,
    unless nft refused to close it again.  Disabling that reports success has
    stored the preference and closed the ports. *)
Theorem service_toggle_consistent session env name p w :
  from_name name = Some p -> one_rule_each (sw_fw w) ->
  enable_post session env p w (handle_enable session env name w) /\
  disable_post p w (handle_disable session env name w).
Proof. intros Hp Hn. split; [by apply handle_enable_post|by apply handle_disable_post]. Qed.

(** ** Boot *)

(** No rule of the service is active. *)
Definition held (s : string) (rules : list FirewallRule) : Prop :=
  Forall (fun r => service r = s -> active r = false) rules.

Lemma replace_rule_ports_held s rules r svc ps :
  held s rules -> held s (fst (replace_rule_ports rules r svc ps)).
Proof.
  intros H. unfold replace_rule_ports. destruct (find_first _ rules) as [rule|]; cbn.
  - destruct (bool_decide _); [done|]. cbn. destruct (update_first _ _ rules) eqn:E; [|done]. cbn.
    eapply Forall_update_first; [|exact H|exact E]. cbn. auto.
  - apply Forall_app. split; [done|]. by repeat constructor.
Qed.

Lemma held_not_open f p : held (protocol_name p) (fc_rules (fw_config f)) -> is_open f p = false.
Proof.
  unfold held, is_open. rewrite Forall_forall. intros H. apply existsb_false_elem. intros r Hr.
  unfold is_service. destruct (String.eqb_spec (service r) (protocol_name p)); [|done]. by rewrite H.
Qed.

Lemma enabled_states_nfs env ps w w' l :
  enabled_states env ps w = (w', l) -> fst <$> l = ps /\ forall b, (Nfs, b) ∈ l -> b = false.
Proof.
  revert w w' l. induction ps as [|p ps IH]; intros w w' l; cbn.
  { intros [= <- <-]. split; [done|]. set_solver. }
  destruct (is_enabled env p w) as [w1 b1]. destruct (enabled_states env ps w1) as [w2 l2] eqn:E.
  intros [= <- <-]. destruct (IH _ _ _ E) as [Hf Hn]. split; [cbn; by rewrite Hf|].
  intros b [H|H]%elem_of_cons; [|auto]. injection H as <- ->.
  unfold boot_firewall_protocol_enabled. apply andb_false_r.
Qed.

Lemma init_rules_hold_nfs r webui protos rdma dc iscsi nvmeof :
  (forall b, (Nfs, b) ∈ protos -> b = false) ->
  held (protocol_name Nfs) (init_rules r webui protos rdma dc iscsi nvmeof).
Proof.
  intros Hp. unfold init_rules. do 2 apply replace_rule_ports_held.
  unfold held. rewrite !Forall_app. split_and!.
  - by repeat constructor.
  - apply Forall_fmap, Forall_forall. intros [p b] Hin. cbn. intros E.
    apply elem_of_retain in Hin as [Hin _].
    assert (p = Nfs) as -> by (by destruct p). by apply Hp.
  - destruct rdma; by repeat constructor.
  - destruct dc; by repeat constructor.
Qed.

(** The files and inputs of the boot are good, as in [fw_reach]. *)
Definition boot_inputs_ok (env : BootEnv) (w : SWorld) : Prop :=
  file_ok restrictions_ok (fw_restrictions_file (sw_fw w)) /\
  match b_webui env with Ok st => listener_ok (confirmed st) | Err _ => True end /\
  match b_portals env with Ok (a, b) => base_ok a /\ base_ok b | Err _ => True end.

Lemma boot_firewall_spec env w w' :
  boot_inputs_ok env w -> boot_firewall env w = (w', Ok tt) ->
  one_rule_each (sw_fw w') /\ is_open (sw_fw w') Nfs = false.
Proof.
  intros (Hr & Hw & Hp). unfold boot_firewall.
  destruct (enabled_states _ _ _) as [p1 states] eqn:E. apply enabled_states_nfs in E as [Hf Hn].
  destruct (b_portals env) as [[a b]|]; [|done]. destruct (b_published env) as [pub|]; [|done].
  intros H. apply on_fw_inv in H as [H _]. cbn [sw_fw] in H. destruct Hp as [Ha Hb].
  unfold init, m_bind, m_get, m_lift in H.
  destruct (load_file _ (fw_restrictions_file (sw_fw w))) as [r|] eqn:Er; [|done].
  destruct (load_file _ (fw_custom_file (sw_fw w))) as [cu|]; [|done].
  destruct (b_webui env) as [st|]; [|done].
  apply commit_none in H. cbn in H.
  assert (restrictions_ok r) as Hrok.
  { destruct (fw_restrictions_file (sw_fw w)); simplify_eq/=; [split; apply map_Forall_empty|done]. }
  assert (rules_ok r (init_rules r (confirmed st) states false (b_dc env) a b)) as [Hnd _].
  { apply init_rules_ok; try done. rewrite Hf. repeat constructor; set_solver. }
  split; [by unfold one_rule_each; rewrite H|].
  apply held_not_open. rewrite H. by apply init_rules_hold_nfs.
Qed.

(** After [set_protocol_states] the rules of the protocols listed are as told. *)
Lemma set_protocol_state_spec rules ch p b rules' ch' :
  NoDup (service <$> rules) -> set_protocol_state (rules, ch) (p, b) = (rules', ch') ->
  NoDup (service <$> rules') /\
  (forall q, existsb (fun r => is_service q r && active r) rules' = true ->
     if String.eqb (protocol_name p) q then b = true
     else existsb (fun r => is_service q r && active r) rules = true) /\
  (ch' = false -> rules' = rules).
Proof.
  intros Hn. unfold set_protocol_state. cbn [fst snd].
  destruct (find_first (is_service (protocol_name p)) rules) as [rule|] eqn:Ef; cycle 1.
  { intros [= <- <-]. split_and!; try done. intros q Hq.
    destruct (String.eqb_spec (protocol_name p) q) as [<-|]; [|done]. exfalso.
    rewrite find_first_None in Ef. apply existsb_true_elem in Hq as (x & Hx & Hxq).
    rewrite (Ef x Hx) in Hxq. done. }
  destruct (update_first (is_service (protocol_name p)) (set_active_flag b) rules) as [rs|] eqn:Eu.
  2:{ apply update_first_None in Eu. congruence. }
  destruct (nodup_service_update _ _ _ _ Hn Eu) as [Hn' Hq'].
  destruct (Bool.eqb (active rule) b) eqn:Eb; intros [= <- <-]; cbn.
  - split_and!; try done. intros q Hq.
    assert (rs = rules) as ->.
    { apply update_first_Some in Eu as (l1 & x & l2 & -> & -> & _ & Ef').
      rewrite Ef in Ef'. injection Ef' as <-. apply Bool.eqb_prop in Eb. subst b. by destruct rule. }
    specialize (Hq' q). rewrite Hq in Hq'. by destruct (String.eqb _ q).
  - split_and!; try done. intros q Hq. rewrite Hq' in Hq. by destruct (String.eqb _ q).
Qed.

Lemma set_protocol_states_fold l rules ch rules' ch' :
  NoDup (service <$> rules) -> NoDup (fst <$> l) ->
  foldl set_protocol_state (rules, ch) l = (rules', ch') ->
  NoDup (service <$> rules') /\
  (forall q b, (q, b) ∈ l -> existsb (fun r => is_service (protocol_name q) r && active r) rules' = true -> b = true) /\
  (forall q, q ∉ fst <$> l -> existsb (fun r => is_service (protocol_name q) r && active r) rules' = true ->
     existsb (fun r => is_service (protocol_name q) r && active r) rules = true) /\
  (ch' = false -> rules' = rules).
Proof.
  revert rules ch. induction l as [|[p b] l IH]; intros rules ch Hn Hl; cbn [foldl].
  { intros [= <- <-]. split_and!; try done. set_solver. }
  rewrite fmap_cons in Hl. apply NoDup_cons in Hl as [Hp Hl]. cbn in Hp.
  destruct (set_protocol_state (rules, ch) (p, b)) as [rs c1] eqn:E1. intros E.
  destruct (set_protocol_state_spec _ _ _ _ _ _ Hn E1) as (Hn1 & Ho1 & Hc1).
  destruct (IH _ _ Hn1 Hl E) as (Hn2 & Hin & Hout & Hc2). split_and!; [done|..].
  - intros q b' [[= -> ->]|Hq]%elem_of_cons Hopen; [|by apply (Hin q)].
    specialize (Ho1 (protocol_name p) (Hout p Hp Hopen)). by rewrite String.eqb_refl in Ho1.
  - intros q Hq Hopen. rewrite fmap_cons, not_elem_of_cons in Hq. destruct Hq as [Hqp Hql]. cbn in Hqp.
    specialize (Ho1 _ (Hout q Hql Hopen)). rewrite eqb_protocol_name in Ho1.
    by rewrite bool_decide_eq_false_2 in Ho1 by done.
  - intros ->. assert (c1 = false) as ->; [|rewrite Hc2, Hc1; done].
    clear -E. revert rs c1 E. induction l as [|pe l IH]; intros rs c1; cbn [foldl]; [by intros [= _ <-]|].
    destruct (set_protocol_state (rs, c1) pe) as [rs' c'] eqn:E'. intros H.
    apply IH in H. subst c'. unfold set_protocol_state in E'.
    destruct (find_first _ rs); [destruct (Bool.eqb _ _)|]; by injection E'.
Qed.

Lemma set_protocol_states_spec env l f f' :
  one_rule_each f -> NoDup (fst <$> l) -> set_protocol_states env l f = (f', Ok tt) ->
  one_rule_each f' /\ forall q b, (q, b) ∈ l -> is_open f' q = true -> b = true.
Proof.
  intros Hn Hl. unfold set_protocol_states, m_bind, m_get, m_ret.
  destruct (foldl set_protocol_state (fc_rules (fw_config f), false) l) as [rules ch] eqn:E.
  destruct (set_protocol_states_fold _ _ _ _ _ Hn Hl E) as (Hn' & Hin & _ & Hc).
  destruct ch; cbn [negb].
  - intros H. apply commit_none in H. unfold one_rule_each, is_open. rewrite H. done.
  - intros [= <-]. split; [done|]. rewrite Hc in Hin by done. exact Hin.
Qed.

Lemma services_disjoint nut p q svc : p <> q -> svc ∈ services nut p -> svc ∉ services nut q.
Proof.
  intros Hne Hp Hq.
  assert (existsb (fun s => one_of (services nut q) s) (services nut p) = true) as H.
  { apply existsb_true_elem. exists svc. split; [done|]. by apply one_of_spec. }
  by destruct nut, p, q.
Qed.

Lemma save_units o st w : pw_units (fst (save_state o st w)) = pw_units w.
Proof. unfold save_state. by destruct o. Qed.

Lemma stop_and_verify_units env nut w svc :
  svc ∈ pw_units w -> svc ∉ services nut Watchdog -> svc ∈ pw_units (fst (stop_and_verify env w)).
Proof.
  unfold stop_and_verify, systemctl_stop, WATCHDOG_SERVICE. cbn [services]. intros H1 H2.
  destruct (pe_watchdog_stop env) as [|[]]; cbn; set_solver.
Qed.

(** One round stops only units of its own protocol, and reports the protocol
    restored only with all its units running. *)
Lemma restore_one_spec env excluded p st restored w st' restored' w' :
  restore_one env excluded p (st, restored, w) = (st', restored', w') ->
  (forall svc, svc ∈ pw_units w -> svc ∉ services (pe_nut env) p -> svc ∈ pw_units w') /\
  (forall q, q <> p -> state_get st' q = state_get st q) /\
  (restored' = restored \/
   (restored' = {[ p ]} ∪ restored /\ (p ∉ excluded) /\ state_get st p = true /\
    forall svc, svc ∈ services (pe_nut env) p -> svc ∈ pw_units w')).
Proof.
  unfold restore_one. cbn zeta.
  set (wd w := if decide (p = Watchdog) then fst (stop_and_verify env w) else w).
  assert (forall w svc, svc ∈ pw_units w -> svc ∉ services (pe_nut env) p -> svc ∈ pw_units (wd w)) as Hwd.
  { intros w0 svc H1 H2. subst wd. cbn. destruct (decide (p = Watchdog)) as [->|]; [|done].
    by eapply stop_and_verify_units. }
  assert (forall b q, q <> p -> state_get (state_set p b st) q = state_get st q) as Hst
    by (intros; by rewrite state_get_set, decide_False).
  destruct (negb _ || _) eqn:Eg.
  { intros [= <- <- <-]. split_and!; [|done|by left]. intros svc H1 H2. apply (Hwd _ svc); [|done].
    destruct (_ && _); [|done].
    destruct (stop_services_spec env (services (pe_nut env) p) w) as (_ & _ & H3). set_solver. }
  bool_hyps. destruct (pe_prepare env p).
  { intros [= <- <- <-]. split_and!; [|auto|by left]. intros svc H1 H2. apply (Hwd _ svc); [|done].
    by rewrite save_units. }
  destruct (start_services _ _ _ _ _) as [[w1 sd] [e|]] eqn:Es;
    apply start_services_spec in Es as (_ & Hs1 & _ & Hs2); intros [= <- <- <-].
  - split_and!; [|auto|by left]. intros svc H1 H2. rewrite save_units. apply (Hwd _ svc); [set_solver|done].
  - split_and!; [set_solver|done|]. right. rewrite bool_decide_eq_false in *. split_and!; auto.
Qed.

Lemma restore_excluding_spec env excluded w w' restored :
  restore_excluding env excluded w = (w', restored) ->
  forall p, p ∈ restored -> (p ∉ excluded) /\ snd (is_enabled env p w) = true /\
    forall svc, svc ∈ services (pe_nut env) p -> svc ∈ pw_units w'.
Proof.
  unfold restore_excluding, is_enabled. destruct (load_state_ok env w) as (w1 & st & -> & _).
  assert (NoDup Protocol_ALL) as Hall by (repeat constructor; set_solver).
  revert Hall. generalize Protocol_ALL. intros all Hall. cbn [snd].
  destruct (foldl _ _ all) as [[st' rs] w2] eqn:E. intros [= <- <-].
  assert (forall ps st1 rs1 w1', NoDup ps ->
    (forall p, p ∈ ps -> state_get st1 p = state_get st p /\ (p ∉ rs1)) ->
    (forall p, p ∈ rs1 -> (p ∉ excluded) /\ state_get st p = true /\
       forall svc, svc ∈ services (pe_nut env) p -> svc ∈ pw_units w1') ->
    foldl (fun acc p => restore_one env excluded p acc) (st1, rs1, w1') ps = (st', rs, w2) ->
    forall p, p ∈ rs -> (p ∉ excluded) /\ state_get st p = true /\
      forall svc, svc ∈ services (pe_nut env) p -> svc ∈ pw_units w2) as Hind.
  { clear E. intros ps. induction ps as [|q ps IH]; intros st1 rs1 w1' Hnd Hst Hrs; cbn [foldl].
    { intros [= <- <- <-]. done. }
    destruct (restore_one env excluded q (st1, rs1, w1')) as [[st2 rs2] w2'] eqn:E1.
    destruct (restore_one_spec _ _ _ _ _ _ _ _ _ E1) as (Hu & Hg & Hr).
    apply NoDup_cons in Hnd as [Hq Hnd]. apply IH; [done|..].
    - intros p Hp. assert (p <> q) by (intros ->; done). rewrite Hg by done.
      destruct (Hst p) as [? ?]; [set_solver|]. split; [done|].
      destruct Hr as [->|(-> & _)]; set_solver.
    - intros p Hp. assert (p ∈ rs1 \/ (p = q /\ rs2 = {[ q ]} ∪ rs1)) as [Hp1|[-> Ers]].
      { destruct Hr as [->|(-> & _)]; [by left|]. apply elem_of_union in Hp as [Hp|Hp]; [right|by left].
        split; [set_solver|done]. }
      + destruct (Hrs p Hp1) as (? & ? & Hsv). split_and!; [done..|]. intros svc Hsvc.
        apply Hu; [auto|]. assert (p <> q) by (intros ->; destruct (Hst q); set_solver).
        by apply (services_disjoint _ p q).
      + destruct (Hst q) as [Hsq Hqr]; [set_solver|]. destruct Hr as [Er|(_ & ? & ? & ?)]; [set_solver|].
        rewrite <- Hsq. done. }
  apply (Hind all st ∅ w1); [done| |set_solver|exact E]. intros p _. split; [done|set_solver].
Qed.

(** NFS may be served only when it stopped before recovery, every filesystem is
    mounted, and its daemon was started again. *)
Definition nfs_may_open (env : BootEnv) (w1 : SWorld) (restored : gset Protocol) : Prop :=
  snd (boot_quiesce_nfs env w1) = true /\ b_mount_failures env = [] /\ Nfs ∈ restored.

Lemma boot_quiesce_nfs_fw env w : sw_fw (fst (boot_quiesce_nfs env w)) = sw_fw w.
Proof.
  unfold boot_quiesce_nfs. destruct (b_nfs_quiesce env) as [pe|]; [|done].
  destruct (on_proto _ w) as [w' [|]] eqn:E; by world_hyps.
Qed.

Lemma boot_quiesce_block_fw env w : sw_fw (fst (boot_quiesce_block env w)) = sw_fw w.
Proof.
  unfold boot_quiesce_block. destruct (is_enabled _ _ _) as [p1 on].
  set (r := if negb (b_iscsi_safe env) || on then _ else _).
  assert (sw_fw (fst r) = sw_fw w) as Hr.
  { subst r. destruct (_ || _); [|done]. destruct (b_iscsi_quiesce env) as [pe|]; [|done].
    destruct (on_proto _ _) as [w' [|]] eqn:E; by world_hyps. }
  destruct r as [w2 [|]]; [|done]. destruct (negb _); [|done]. by destruct (b_nvmeof_quiesce env).
Qed.

(** A protocol whose ports are open is running, was not excluded, and its
    storage was safe. *)
Definition served_safely (env : BootEnv) (x : SWorld) (p : Protocol) : Prop :=
  is_open (sw_fw x) p = true ->
  (forall svc, svc ∈ services (pe_nut (b_restore env)) p -> svc ∈ pw_units (sw_proto x)) /\
  (p = Nfs -> b_mount_failures env = [] /\ is_Some (b_nfs_quiesce env)) /\
  (p = Iscsi -> b_iscsi_safe env = true) /\ (p = Nvmeof -> b_nvmeof_safe env = true).

Lemma boot_restore_spec env nfs_safe w w' restored :
  (nfs_safe = true -> b_mount_failures env = [] /\ is_Some (b_nfs_quiesce env)) ->
  one_rule_each (sw_fw w) -> boot_restore env nfs_safe w = (w', restored, Ok tt) ->
  one_rule_each (sw_fw w') /\ forall p, served_safely env w' p.
Proof.
  intros Hsafe Hn. unfold boot_restore.
  set (excluded := protocol_restore_exclusions nfs_safe (b_iscsi_safe env) (b_nvmeof_safe env)).
  destruct (match b_restore_timeout env with Some p => _ | None => _ end) as [p1 rs] eqn:Er.
  set (states := (fun p => (p, negb (bool_decide (p ∈ excluded)) && bool_decide (p ∈ rs))) <$> Protocol_ALL).
  assert (NoDup (fst <$> states)) as Hnd by (repeat constructor; set_solver).
  assert (forall p, (p, negb (bool_decide (p ∈ excluded)) && bool_decide (p ∈ rs)) ∈ states) as Hst.
  { intros p. subst states. apply list_elem_of_fmap. exists p. split; [done|].
    destruct p; repeat constructor. }
  clearbody states.
  destruct (on_fw _ _) as [w2 r] eqn:E. intros [= <- <- ->]. apply on_fw_inv in E as [E Ep].
  cbn [sw_fw sw_proto] in E, Ep.
  destruct (set_protocol_states_spec _ _ _ _ Hn Hnd E) as [Hn' Ho].
  split; [done|]. intros p Hopen.
  assert (negb (bool_decide (p ∈ excluded)) && bool_decide (p ∈ rs) = true) as Hb.
  { by apply (Ho p). }
  bool_hyps. rewrite bool_decide_eq_false, bool_decide_eq_true in *.
  assert (forall svc, svc ∈ services (pe_nut (b_restore env)) p -> svc ∈ pw_units p1) as Hu.
  { destruct (b_restore_timeout env); [injection Er as <- <-; set_solver|].
    by apply (restore_excluding_spec _ _ _ _ _ Er). }
  rewrite Ep. split_and!; [done|..]; intros ->; unfold excluded, protocol_restore_exclusions in *.
  - destruct nfs_safe; [auto|set_solver].
  - destruct (b_iscsi_safe env); [done|set_solver].
  - destruct (b_nvmeof_safe env); [done|set_solver].
Qed.

Lemma set_protocol_states_err env l f f' e :
  set_protocol_states env l f = (f', Err e) -> fw_config f' = fw_config f.
Proof.
  unfold set_protocol_states, m_bind, m_get, m_ret. destruct (foldl _ _ _) as [rules ch].
  destruct (negb ch); [done|]. apply commit_none.
Qed.

Lemma boot_restore_err env nfs_safe w w' restored e :
  boot_restore env nfs_safe w = (w', restored, Err e) -> fw_config (sw_fw w') = fw_config (sw_fw w).
Proof.
  unfold boot_restore. generalize Protocol_ALL. intros all.
  destruct (match b_restore_timeout env with Some p => _ | None => _ end) as [p1 rs].
  destruct (on_fw _ _) as [w2 r] eqn:E. intros [= <- _ ->]. apply on_fw_inv in E as [E _].
  by apply set_protocol_states_err in E.
Qed.

Lemma boot_firewall_err env w w' e :
  boot_firewall env w = (w', Err e) -> fw_config (sw_fw w') = fw_config (sw_fw w).
Proof.
  unfold boot_firewall. destruct (enabled_states _ _ _) as [p1 l].
  destruct (b_portals env) as [[a b]|]; [|by intros [= <- _]].
  destruct (b_published env) as [pub|]; [|by intros [= <- _]]. intros [E _]%on_fw_inv.
  cbn [sw_fw] in E. revert E. unfold init, m_bind, m_get, m_lift.
  destruct (load_file _ (fw_restrictions_file _)); [|by intros [= <- _]].
  destruct (load_file _ (fw_custom_file _)); [|by intros [= <- _]].
  destruct (b_webui env); [|by intros [= <- _]]. apply commit_none.
Qed.

Lemma is_enabled_units env p w : pw_units (fst (is_enabled env p w)) = pw_units w.
Proof. unfold is_enabled. destruct (load_state_ok env w) as (w' & st & -> & ?). done. Qed.

Lemma boot_rdma_spec env nfs_safe restored w w' r :
  one_rule_each (sw_fw w) -> boot_rdma env nfs_safe restored w = (w', r) ->
  pw_units (sw_proto w') = pw_units (sw_proto w) /\
  forall p, is_open (sw_fw w') p = true -> is_open (sw_fw w) p = true.
Proof.
  intros Hn. unfold boot_rdma. pose proof (is_enabled_units (b_enabled env) Nfs (sw_proto w)) as Hu.
  destruct (is_enabled _ _ _) as [p1 d]. cbn [fst] in Hu. intros E. apply on_fw_inv in E as [E ->].
  cbn [sw_fw sw_proto] in *. split; [done|].
  assert (exists b, set_rule_active (b_rdma_fw env) "rdma" rdma_ports b (sw_fw w) = (sw_fw w', r)) as [b Hb].
  { destruct (_ && _); eauto. }
  assert (rdma_ports <> []) as Hne by (unfold rdma_ports; discriminate).
  destruct (set_rule_active_spec _ _ _ _ _ _ _ Hn Hne Hb) as [_ Hr].
  intros p. unfold is_open. destruct r as [[]|e]; [|by destruct Hr as [-> _]].
  rewrite Hr. destruct (String.eqb_spec "rdma" (protocol_name p)); [by destruct p|done].
Qed.

Lemma closed_safe env x : is_open (sw_fw x) Nfs = false -> served_safely env x Nfs.
Proof. intros H H'. congruence. Qed.

(** C7. The boot sequence, whatever fails or times out in it, never opens the
    NFS ports before NFS was stopped, every filesystem mounted and the NFS
    daemon started again; and a boot that completes leaves ports open only for
    protocols whose every unit runs, and for iSCSI and NVMe-oF only with their
    volumes resolved. *)
Theorem boot_opens_only_safe_protocols env w :
  fw_config (sw_fw w) = config_default -> boot_inputs_ok env w ->
  (forall x, x ∈ fst (boot env w) -> served_safely env x Nfs) /\
  (forall restored, snd (boot env w) = Ok restored ->
     exists x rest, fst (boot env w) = x :: rest /\ forall p, served_safely env x p).
Proof.
  intros Hd Hin. unfold boot. destruct (boot_firewall env w) as [w1 [[]|e1]] eqn:E1.
  2:{ split; [|done]. cbn. intros x ->%list_elem_of_singleton. apply closed_safe, held_not_open.
      apply boot_firewall_err in E1. rewrite E1, Hd. constructor. }
  destruct (boot_firewall_spec _ _ _ Hin E1) as [Hn1 Hc1].
  pose proof (boot_quiesce_nfs_fw env w1) as Ef2.
  assert (snd (boot_quiesce_nfs env w1) = true -> is_Some (b_nfs_quiesce env)) as Hq
    by (unfold boot_quiesce_nfs; by destruct (b_nfs_quiesce env)).
  destruct (boot_quiesce_nfs env w1) as [w2 q]. cbn in Ef2, Hq.
  set (nfs_safe := q && bool_decide (b_mount_failures env = [])).
  assert (nfs_safe = true -> b_mount_failures env = [] /\ is_Some (b_nfs_quiesce env)) as Hsafe.
  { unfold nfs_safe. intros [-> ?%bool_decide_eq_true]%andb_true_iff. auto. }
  pose proof (boot_quiesce_block_fw env w2) as Ef3. destruct (boot_quiesce_block env w2) as [w3 r3].
  cbn in Ef3. rewrite Ef2 in Ef3. rewrite <- Ef3 in Hn1.
  assert (forall x, x ∈ [w3; w2; w1] -> served_safely env x Nfs) as H123.
  { intros x Hx. apply closed_safe. rewrite !elem_of_cons, elem_of_nil in Hx.
    destruct Hx as [->|[->|[->|[]]]]; rewrite ?Ef3, ?Ef2; done. }
  destruct r3 as [[]|e3]; [|by split]. destruct (boot_restore env nfs_safe w3) as [[w4 rs] r4] eqn:E4.
  destruct r4 as [[]|e4]; cycle 1.
  { split; [|done]. cbn [fst]. intros x [->|Hx]%elem_of_cons; [|auto]. apply closed_safe.
    apply boot_restore_err in E4. unfold is_open in *. by rewrite E4, Ef3. }
  destruct (boot_restore_spec _ _ _ _ _ Hsafe Hn1 E4) as [Hn4 H4].
  destruct (boot_rdma env nfs_safe rs w4) as [w5 r5] eqn:E5.
  destruct (boot_rdma_spec _ _ _ _ _ _ Hn4 E5) as [Hu5 Ho5].
  assert (forall p, served_safely env w5 p) as H5.
  { intros p Hp%Ho5. rewrite Hu5. by apply H4. }
  assert (forall x, x ∈ [w5; w4; w3; w2; w1] -> served_safely env x Nfs) as Hall.
  { intros x Hx. apply elem_of_cons in Hx as [->|Hx]; [auto|]. apply elem_of_cons in Hx as [->|Hx]; auto. }
  destruct r5 as [[]|e5]; (split; [exact Hall|]); [|done]. cbn. eauto.
Qed.

(** ** A concrete run *)

Definition admin : Session :=
  mkSession "t" "admin" Admin None None None 0 false None.

Definition penv : PEnv :=
  mkPEnv false None (fun _ => None) (fun _ => None) false (fun _ => None) (fun _ => Done)
    (fun _ => Done) None Done Local true.
Definition senv : SEnv :=
  mkSEnv (Ok false) true None None penv penv penv fw_env fw_env.

Definition booted : SWorld :=
  mkSWorld (mkPWorld (FileState (state_set Nfs true ProtocolState_default)) ∅) fw_booted.

Lemma fw_booted_one_rule : one_rule_each (sw_fw booted).
Proof. exact (proj1 (proj1 (proj1 (fw_reach_inv _ fw_booted_reach)))). Qed.

Lemma service_toggle_consistent_witness :
  enable_post admin senv Smb booted (handle_enable admin senv "smb" booted) /\
  is_open (sw_fw (fst (handle_enable admin senv "smb" booted))) Smb = true.
Proof.
  split; [|vm_compute; reflexivity].
  exact (proj1 (service_toggle_consistent admin senv "smb" Smb booted eq_refl fw_booted_one_rule)).
Defined.

Definition benv (failures : list string) : BootEnv :=
  mkBootEnv penv false (Ok ([tcp 3260], [tcp 4420])) (Ok []) boot_state fw_env (Some penv) failures
    true true (Some penv) None penv None fw_env false fw_env.

Definition powered_on : SWorld :=
  mkSWorld (sw_proto booted) (mkFwWorld config_default None NoFile NoFile None).

Lemma benv_inputs failures : boot_inputs_ok (benv failures) powered_on.
Proof.
  split; [done|]. split; [split; by vm_compute|]. split; by apply plain_ports_ok.
Qed.

(** With every filesystem mounted NFS comes up open; with one missing it stays
    closed although it is enabled. *)
Example boot_nfs :
  (fun e => match boot e powered_on with (x :: _, Ok _) => Some (is_open (sw_fw x) Nfs, is_open (sw_fw x) Ssh) | _ => None end)
    <$> [benv []; benv ["tank"]] = [Some (true, true); Some (false, true)].
Proof. vm_compute. reflexivity. Qed.

Lemma boot_opens_only_safe_protocols_witness :
  Forall (fun x => served_safely (benv ["tank"]) x Nfs) (fst (boot (benv ["tank"]) powered_on)).
Proof.
  apply Forall_forall.
  exact (proj1 (boot_opens_only_safe_protocols (benv ["tank"]) powered_on eq_refl (benv_inputs _))).
Defined.
