(* ===== verification/NetConfig.v ===== *)
(** * Network configuration and its layered form (nasty-system/src/network.rs
    and network/layered.rs)

    The persisted [NetworkConfig], the layered model handed to NetworkManager,
    the conversions between them and the structural validator.  The depth-first
    search for cycles takes fuel; [visit_total] shows that one more than the
    number of links is enough for every input. *)

From Stdlib Require Import ZArith Lia Ascii String.
From stdpp Require Import base list gmap strings.
From S2P Require Import Prelude.
From S2P Require Import RustStr.

(** ** The persisted configuration *)

Inductive IpMethod : Type := Dhcp | Static | Slaac | Inherit | Disabled.

#[export] Instance IpMethod_eq_dec : EqDecision IpMethod.
Proof. solve_decision. Defined.

Record IpConfig : Type := mkIpConfig {
  ip_method : IpMethod;
  ip_addresses : list string;
  ip_gateway : option string;
}.

#[export] Instance IpConfig_eq_dec : EqDecision IpConfig.
Proof. solve_decision. Defined.

Definition IpConfig_default : IpConfig := mkIpConfig Disabled [] None.

Record VfConfig : Type := mkVfConfig {
  vf_index : Z;
  vf_vlan : option Z;
  vf_mac : option string;
  vf_trust : option bool;
  vf_spoof_check : option bool;
}.

Record InterfaceConfig : Type := mkInterfaceConfig {
  if_name : string;
  if_enabled : bool;
  if_ipv4 : IpConfig;
  if_ipv6 : IpConfig;
  if_mtu : option Z;
  if_sriov_num_vfs : option Z;
  if_vfs : list VfConfig;
}.

Inductive BondMode : Type := Lacp | ActiveBackup | BalanceRr | BalanceXor.

Definition to_kernel (m : BondMode) : string :=
  match m with
  | Lacp => "802.3ad"
  | ActiveBackup => "active-backup"
  | BalanceRr => "balance-rr"
  | BalanceXor => "balance-xor"
  end.

Record BondConfig : Type := mkBondConfig {
  bo_name : string;
  bo_members : list string;
  bo_mode : BondMode;
  bo_ipv4 : IpConfig;
  bo_ipv6 : IpConfig;
  bo_mtu : option Z;
  bo_inherit_member_mac : bool;
}.

Record VlanConfig : Type := mkVlanConfig {
  vl_parent : string;
  vl_id : Z;
  vl_ipv4 : IpConfig;
  vl_ipv6 : IpConfig;
  vl_mtu : option Z;
}.

(** An [Ipv4Addr] is its list of four octets. *)
Record DhcpRelayConfig : Type := mkDhcpRelayConfig { dr_server : list Z; dr_upstream : string }.

Record BridgeConfig : Type := mkBridgeConfig {
  br_name : string;
  br_members : list string;
  br_ipv4 : IpConfig;
  br_ipv6 : IpConfig;
  br_mtu : option Z;
  br_stp : bool;
  br_forward_delay_s : option Z;
  br_inherit_member_mac : bool;
  br_dhcp_relay : option DhcpRelayConfig;
}.

Record MacvlanConfig : Type := mkMacvlanConfig {
  mv_name : string;
  mv_parent : string;
  mv_mode : string;
  mv_ipv4 : IpConfig;
  mv_mtu : option Z;
  mv_routes : list string;
}.

#[export] Instance BondMode_eq_dec : EqDecision BondMode.
Proof. solve_decision. Defined.
#[export] Instance BondConfig_eq_dec : EqDecision BondConfig.
Proof. solve_decision. Defined.
#[export] Instance VlanConfig_eq_dec : EqDecision VlanConfig.
Proof. solve_decision. Defined.
#[export] Instance DhcpRelayConfig_eq_dec : EqDecision DhcpRelayConfig.
Proof. solve_decision. Defined.
#[export] Instance BridgeConfig_eq_dec : EqDecision BridgeConfig.
Proof. solve_decision. Defined.

Record NetworkConfig : Type := mkNetworkConfig {
  nc_interfaces : list InterfaceConfig;
  nc_dns : list string;
  nc_bonds : list BondConfig;
  nc_vlans : list VlanConfig;
  nc_bridges : list BridgeConfig;
  nc_macvlans : list MacvlanConfig;
}.

Definition NetworkConfig_default : NetworkConfig := mkNetworkConfig [] [] [] [] [] [].

Definition with_interfaces (l : list InterfaceConfig) (c : NetworkConfig) : NetworkConfig :=
  mkNetworkConfig l (nc_dns c) (nc_bonds c) (nc_vlans c) (nc_bridges c) (nc_macvlans c).
Definition with_bridges (l : list BridgeConfig) (c : NetworkConfig) : NetworkConfig :=
  mkNetworkConfig (nc_interfaces c) (nc_dns c) (nc_bonds c) (nc_vlans c) l (nc_macvlans c).

(** [format!("{}.{}", parent, vlan_id)] *)
Definition vlan_name (parent : string) (id : Z) : string := parent +:+ "." +:+ fmt_dec id.

(** ** The layered model *)

Inductive LinkKind : Type :=
| Physical
| Bond (members : list string) (mode : BondMode) (inherit_member_mac : bool)
| Bridge (members : list string) (stp : bool) (forward_delay_s : option Z)
    (inherit_member_mac : bool) (dhcp_relay : option DhcpRelayConfig)
| Vlan (parent : string) (id : Z)
| Macvlan (parent : string) (mode : string).

Record Link : Type := mkLink {
  lk_name : string;
  lk_enabled : bool;
  lk_mtu : option Z;
  lk_mac : option string;
  lk_sriov_num_vfs : option Z;
  lk_vfs : list VfConfig;
  lk_kind : LinkKind;
}.

Inductive Family : Type := FamV4 | FamV6.

#[export] Instance Family_eq_dec : EqDecision Family.
Proof. solve_decision. Defined.

Record Address : Type := mkAddress {
  ad_link : string;
  ad_family : Family;
  ad_method : IpMethod;
  ad_cidr : list string;
  ad_gateway : option string;
}.

Record Route : Type := mkRoute {
  rt_table : Z;
  rt_dst : string;
  rt_via : option string;
  rt_dev : string;
  rt_metric : option Z;
}.

(** The policy rules of the layered model are always empty and left out. *)
Record LayeredConfig : Type := mkLayeredConfig {
  ly_links : list Link;
  ly_addresses : list Address;
  ly_routes : list Route;
  ly_dns : list string;
}.

(** ** Converters *)

Definition is_empty_ip (ip : IpConfig) : bool :=
  match ip_method ip, ip_addresses ip, ip_gateway ip with
  | Disabled, [], None => true
  | _, _, _ => false
  end.

Definition address_of (link : string) (fam : Family) (ip : IpConfig) : Address :=
  mkAddress link fam (ip_method ip) (ip_addresses ip) (ip_gateway ip).

(** The rows [push_addresses] appends. *)
Definition push_addresses (link : string) (v4 v6 : IpConfig) : list Address :=
  (if is_empty_ip v4 then [] else [address_of link FamV4 v4]) ++
  (if is_empty_ip v6 then [] else [address_of link FamV6 v6]).

Definition plain_link (name : string) (mtu : option Z) (kind : LinkKind) : Link :=
  mkLink name true mtu None None [] kind.

Definition iface_link (i : InterfaceConfig) : Link :=
  mkLink (if_name i) (if_enabled i) (if_mtu i) None (if_sriov_num_vfs i) (if_vfs i) Physical.
Definition bond_link (b : BondConfig) : Link :=
  plain_link (bo_name b) (bo_mtu b) (Bond (bo_members b) (bo_mode b) (bo_inherit_member_mac b)).
Definition bridge_link (b : BridgeConfig) : Link :=
  plain_link (br_name b) (br_mtu b)
    (Bridge (br_members b) (br_stp b) (br_forward_delay_s b) (br_inherit_member_mac b)
       (br_dhcp_relay b)).
Definition vlan_link (v : VlanConfig) : Link :=
  plain_link (vlan_name (vl_parent v) (vl_id v)) (vl_mtu v) (Vlan (vl_parent v) (vl_id v)).
Definition macvlan_link (m : MacvlanConfig) : Link :=
  plain_link (mv_name m) (mv_mtu m) (Macvlan (mv_parent m) (mv_mode m)).

Definition macvlan_routes (m : MacvlanConfig) : list Route :=
  (fun dst => mkRoute 254 dst None (mv_name m) None) <$> mv_routes m.

Definition link_members (l : Link) : list string :=
  match lk_kind l with
  | Bond ms _ _ | Bridge ms _ _ _ _ => ms
  | _ => []
  end.

(** Physical links for the members no declared link names, each once. *)
Fixpoint synthesize (declared seen : gset string) (ms : list string) : list Link :=
  match ms with
  | [] => []
  | m :: rest =>
      if bool_decide (m ∈ declared) || bool_decide (m ∈ seen) then synthesize declared seen rest
      else plain_link m None Physical :: synthesize declared ({[ m ]} ∪ seen) rest
  end.

Definition declared_links (c : NetworkConfig) : list Link :=
  (iface_link <$> nc_interfaces c) ++ (bond_link <$> nc_bonds c) ++
  (bridge_link <$> nc_bridges c) ++ (vlan_link <$> nc_vlans c) ++
  (macvlan_link <$> nc_macvlans c).

Definition synthesized_links (links : list Link) : list Link :=
  synthesize (list_to_set (lk_name <$> links)) ∅ (links ≫= link_members).

Definition all_addresses (c : NetworkConfig) : list Address :=
  (nc_interfaces c ≫= fun i => push_addresses (if_name i) (if_ipv4 i) (if_ipv6 i)) ++
  (nc_bonds c ≫= fun b => push_addresses (bo_name b) (bo_ipv4 b) (bo_ipv6 b)) ++
  (nc_bridges c ≫= fun b => push_addresses (br_name b) (br_ipv4 b) (br_ipv6 b)) ++
  (nc_vlans c ≫= fun v =>
     push_addresses (vlan_name (vl_parent v) (vl_id v)) (vl_ipv4 v) (vl_ipv6 v)) ++
  (nc_macvlans c ≫= fun m => push_addresses (mv_name m) (mv_ipv4 m) IpConfig_default).

Definition to_layered (c : NetworkConfig) : LayeredConfig :=
  let links := declared_links c in
  mkLayeredConfig (links ++ synthesized_links links) (all_addresses c)
    (nc_macvlans c ≫= macvlan_routes) (nc_dns c).

(** One row of [group_addresses]: the later row of a family wins. *)
Definition group_address (a : Address) (m : gmap string (IpConfig * IpConfig))
    : gmap string (IpConfig * IpConfig) :=
  let entry := default (IpConfig_default, IpConfig_default) (m !! ad_link a) in
  let target := mkIpConfig (ad_method a) (ad_cidr a) (ad_gateway a) in
  <[ad_link a := match ad_family a with
                 | FamV4 => (target, snd entry)
                 | FamV6 => (fst entry, target)
                 end]> m.

Definition group_addresses (l : list Address) : gmap string (IpConfig * IpConfig) :=
  foldl (fun m a => group_address a m) ∅ l.

Definition group_routes (l : list Route) : gmap string (list string) :=
  foldl (fun m r => <[rt_dev r := default [] (m !! rt_dev r) ++ [rt_dst r]]> m) ∅ l.

Definition NetworkConfig_push (addrs : gmap string (IpConfig * IpConfig))
    (routes : gmap string (list string)) (c : NetworkConfig) (l : Link) : NetworkConfig :=
  let '(v4, v6) := default (IpConfig_default, IpConfig_default) (addrs !! lk_name l) in
  match lk_kind l with
  | Physical =>
      mkNetworkConfig
        (nc_interfaces c ++
           [mkInterfaceConfig (lk_name l) (lk_enabled l) v4 v6 (lk_mtu l) (lk_sriov_num_vfs l) (lk_vfs l)])
        (nc_dns c) (nc_bonds c) (nc_vlans c) (nc_bridges c) (nc_macvlans c)
  | Bond ms mode mac =>
      mkNetworkConfig (nc_interfaces c) (nc_dns c)
        (nc_bonds c ++ [mkBondConfig (lk_name l) ms mode v4 v6 (lk_mtu l) mac])
        (nc_vlans c) (nc_bridges c) (nc_macvlans c)
  | Bridge ms stp fd mac relay =>
      mkNetworkConfig (nc_interfaces c) (nc_dns c) (nc_bonds c) (nc_vlans c)
        (nc_bridges c ++ [mkBridgeConfig (lk_name l) ms v4 v6 (lk_mtu l) stp fd mac relay])
        (nc_macvlans c)
  | Vlan parent id =>
      mkNetworkConfig (nc_interfaces c) (nc_dns c) (nc_bonds c)
        (nc_vlans c ++ [mkVlanConfig parent id v4 v6 (lk_mtu l)]) (nc_bridges c) (nc_macvlans c)
  | Macvlan parent mode =>
      mkNetworkConfig (nc_interfaces c) (nc_dns c) (nc_bonds c) (nc_vlans c) (nc_bridges c)
        (nc_macvlans c ++
           [mkMacvlanConfig (lk_name l) parent mode v4 (lk_mtu l) (default [] (routes !! lk_name l))])
  end.

Definition from_layered (l : LayeredConfig) : NetworkConfig :=
  foldl (NetworkConfig_push (group_addresses (ly_addresses l)) (group_routes (ly_routes l)))
    (mkNetworkConfig [] (ly_dns l) [] [] [] []) (ly_links l).

(** ** Validation *)

Definition deps (l : Link) : list string :=
  match lk_kind l with
  | Bond ms _ _ | Bridge ms _ _ _ _ => ms
  | Vlan parent _ | Macvlan parent _ => [parent]
  | Physical => []
  end.

Fixpoint check_names (seen : gset string) (ls : list Link) : result (gset string) string :=
  match ls with
  | [] => Ok seen
  | l :: rest =>
      if bool_decide (lk_name l ∈ seen)
      then Err ("duplicate link name '" +:+ lk_name l +:+ "'")
      else check_names ({[ lk_name l ]} ∪ seen) rest
  end.

Fixpoint check_members (names : gset string) (l : string) (ms : list string) : result unit string :=
  match ms with
  | [] => Ok tt
  | m :: rest =>
      if String.eqb m l then Err ("link '" +:+ l +:+ "' enslaves itself")
      else if bool_decide (m ∈ names) then check_members names l rest
      else Err ("link '" +:+ l +:+ "' references missing member '" +:+ m +:+ "'")
  end.

Definition check_refs (names : gset string) (l : Link) : result unit string :=
  let name := lk_name l in
  match lk_kind l with
  | Bond ms _ _ | Bridge ms _ _ _ _ => check_members names name ms
  | Vlan parent _ =>
      if String.eqb parent name then Err ("vlan '" +:+ name +:+ "' is its own parent")
      else if bool_decide (parent ∈ names) then Ok tt
      else Err ("vlan '" +:+ name +:+ "' references missing parent '" +:+ parent +:+ "'")
  | Macvlan parent _ =>
      if String.eqb parent name then Err ("macvlan '" +:+ name +:+ "' is its own parent")
      else if bool_decide (parent ∈ names) then Ok tt
      else Err ("macvlan '" +:+ name +:+ "' references missing parent '" +:+ parent +:+
                "' (declare the parent interface/bridge first)")
  | Physical => Ok tt
  end.

Definition check_address (names : gset string) (a : Address) : result unit string :=
  if bool_decide (ad_link a ∈ names) then Ok tt
  else Err ("address references missing link '" +:+ ad_link a +:+ "'").

Fixpoint check_masters (master_of : gmap string string) (ms : list (string * string))
    : result unit string :=
  match ms with
  | [] => Ok tt
  | (m, master) :: rest =>
      match master_of !! m with
      | Some existing =>
          Err ("link '" +:+ m +:+ "' is a member of both '" +:+ existing +:+ "' and '" +:+ master +:+ "'")
      | None => check_masters (<[m := master]> master_of) rest
      end
  end.

Definition memberships (ls : list Link) : list (string * string) :=
  ls ≫= fun l => (fun m => (m, lk_name l)) <$> link_members l.

Inductive Color : Type := Gray | Black.

#[export] Instance Color_eq_dec : EqDecision Color.
Proof. solve_decision. Defined.

Abbreviation colors := (gmap string Color).

Section Cycles.
Context (by_name : gmap string Link).

(** Visits [ns] one after the other; [None] is running out of fuel. *)
Fixpoint visit_all (visit : string -> colors -> option (result colors string)) (ns : list string)
    (color : colors) : option (result colors string) :=
  match ns with
  | [] => Some (Ok color)
  | n :: rest =>
      match visit n color with
      | Some (Ok color') => visit_all visit rest color'
      | other => other
      end
  end.

Fixpoint visit_for_cycles (fuel : nat) (node : string) (color : colors)
    : option (result colors string) :=
  match fuel with
  | O => None
  | S fuel' =>
      match color !! node with
      | Some Black => Some (Ok color)
      | Some Gray => Some (Err ("cycle detected through link '" +:+ node +:+ "'"))
      | None =>
          let gray := <[node := Gray]> color in
          let visited := match by_name !! node with
                         | Some link => visit_all (visit_for_cycles fuel') (deps link) gray
                         | None => Some (Ok gray)
                         end in
          match visited with
          | Some (Ok color') => Some (Ok (<[node := Black]> color'))
          | other => other
          end
      end
  end.

End Cycles.

(** [collect] into a map: a later link of the same name replaces the earlier. *)
Definition links_by_name (ls : list Link) : gmap string Link :=
  foldl (fun m l => <[lk_name l := l]> m) ∅ ls.

Definition detect_cycles (ls : list Link) : result unit string :=
  match visit_all (visit_for_cycles (links_by_name ls) (S (length ls))) (lk_name <$> ls) ∅ with
  | Some (Ok _) => Ok tt
  | Some (Err e) => Err e
  | None => Err "out of fuel"
  end.

Definition validate (l : LayeredConfig) : result unit string :=
  match check_names ∅ (ly_links l) with
  | Err e => Err e
  | Ok names =>
      match try_each (check_refs names) (ly_links l) with
      | Err e => Err e
      | Ok _ =>
          match try_each (check_address names) (ly_addresses l) with
          | Err e => Err e
          | Ok _ =>
              match check_masters ∅ (memberships (ly_links l)) with
              | Err e => Err e
              | Ok _ => detect_cycles (ly_links l)
              end
          end
      end
  end.
