(* ===== verification/Layered.v ===== *)
(** * The layered model is validated and converted correctly

    What [validate] accepts, that its search for cycles terminates and finds
    exactly the cycles, and what survives the way from the persisted
    configuration to the layered one and back. *)

From Stdlib Require Import ZArith Lia Ascii String.
From stdpp Require Import base list gmap strings relations.
From S2P Require Import Prelude.
From S2P Require Import RustStr.
From S2P Require Import NetConfig.

Section DepthFirst.
Context (by_name : gmap string Link).

Definition step_to (a b : string) : Prop :=
  exists l, by_name !! a = Some l /\ b ∈ deps l.

(** Links that have no colour yet: what bounds the depth of the search. *)
Definition unvisited (color : colors) : nat := size (dom by_name ∖ dom color : gset string).

Lemma unvisited_mono (c c' : colors) : (dom c : gset string) ⊆ dom c' -> (unvisited c' <= unvisited c)%nat.
Proof. intros H. unfold unvisited. apply subseteq_size. set_solver. Qed.

Lemma unvisited_insert n l c x :
  by_name !! n = Some l -> c !! n = None ->
  (unvisited (<[n := x]> c) < unvisited c)%nat.
Proof.
  intros Hn Hc. unfold unvisited. apply subset_size. apply elem_of_dom_2 in Hn. apply not_elem_of_dom in Hc.
  rewrite dom_insert_L. split; [set_solver|]. intros Hs. specialize (Hs n). set_solver.
Qed.

(** The colours after a visit: none is lost and black stays black. *)
Definition grows (c c' : colors) : Prop :=
  (dom c : gset string) ⊆ dom c' /\ (forall x, c !! x = Some Black -> c' !! x = Some Black) /\
  (forall x, c' !! x = Some Gray <-> c !! x = Some Gray).

Lemma grows_refl c : grows c c.
Proof. by repeat split. Qed.

Lemma grows_trans c1 c2 c3 : grows c1 c2 -> grows c2 c3 -> grows c1 c3.
Proof.
  intros (Hd & Hb & Hg) (Hd' & Hb' & Hg'). split_and!; [set_solver|auto|].
  intros x. by rewrite Hg', Hg.
Qed.

Lemma grows_blacken n c c' :
  c !! n = None -> grows (<[n := Gray]> c) c' -> grows c (<[n := Black]> c').
Proof.
  intros Hn (Hd & Hb & Hg). split_and!.
  - rewrite dom_insert_L in *. set_solver.
  - intros x Hx. destruct (decide (x = n)) as [->|Hne]; [by rewrite Hn in Hx|].
    rewrite lookup_insert_ne by done. apply Hb. by rewrite lookup_insert_ne.
  - intros x. destruct (decide (x = n)) as [->|Hne].
    + rewrite lookup_insert_eq, Hn. naive_solver.
    + rewrite lookup_insert_ne by done. specialize (Hg x). by rewrite lookup_insert_ne in Hg by done.
Qed.

(** What a visit of [n] with enough fuel does: it always ends; success leaves
    [n] black, with everything below it black too, so from [n] every way down
    ends; failure exhibits a cycle, given that every gray link leads to [n]. *)
Definition visit_spec (n : string) (c : colors) (out : option (result colors string)) : Prop :=
  match out with
  | None => False
  | Some (Ok c') =>
      grows c c' /\ c' !! n = Some Black /\
      ((forall x, c !! x = Some Black -> Acc (flip step_to) x) ->
       forall x, c' !! x = Some Black -> Acc (flip step_to) x)
  | Some (Err _) =>
      (forall g, c !! g = Some Gray -> tc step_to g n) -> exists x, tc step_to x x
  end.

Lemma visit_all_spec visit ns c :
  (forall n c', n ∈ ns -> (unvisited c' <= unvisited c)%nat -> visit_spec n c' (visit n c')) ->
  match visit_all visit ns c with
  | None => False
  | Some (Ok c') =>
      grows c c' /\ (forall n, n ∈ ns -> c' !! n = Some Black) /\
      ((forall x, c !! x = Some Black -> Acc (flip step_to) x) ->
       forall x, c' !! x = Some Black -> Acc (flip step_to) x)
  | Some (Err _) =>
      (forall n g, n ∈ ns -> c !! g = Some Gray -> tc step_to g n) -> exists x, tc step_to x x
  end.
Proof.
  revert c. induction ns as [|n ns IH]; intros c Hv; cbn.
  { split_and!; [apply grows_refl|by intros n ?%elem_of_nil|done]. }
  pose proof (Hv n c ltac:(left) ltac:(lia)) as H1. unfold visit_spec in H1.
  destruct (visit n c) as [[c1|e]|]; [|intros Hg; apply H1; intros g; apply Hg; left|done].
  destruct H1 as (Hg1 & Hb1 & Ha1).
  assert (unvisited c1 <= unvisited c)%nat as Hu by (apply unvisited_mono, Hg1).
  specialize (IH c1 ltac:(intros; apply Hv; [by right|lia])).
  destruct (visit_all visit ns c1) as [[c2|e]|]; [| |done].
  - destruct IH as (Hg2 & Hb2 & Ha2). split_and!.
    + by eapply grows_trans.
    + intros m [->|Hm]%elem_of_cons; [by apply Hg2|by apply Hb2].
    + auto.
  - intros Hg. apply IH. intros m g Hm Hgray. apply Hg; [by right|]. by apply Hg1.
Qed.

Lemma visit_total_spec fuel n c :
  (unvisited c < fuel)%nat -> visit_spec n c (visit_for_cycles by_name fuel n c).
Proof.
  revert n c. induction fuel as [|fuel IH]; intros n c Hf; [lia|]. cbn.
  destruct (c !! n) as [[]|] eqn:Hc; cbn.
  { intros Hg. exists n. by apply Hg. }
  { split_and!; [apply grows_refl|done|done]. }
  set (gray := <[n:=Gray]> c).
  destruct (by_name !! n) as [l|] eqn:Hl.
  2:{ cbn. split_and!; [by apply (grows_blacken _ _ gray), grows_refl|apply lookup_insert_eq|].
      intros Ha x. destruct (decide (x = n)) as [->|Hne].
      - intros _. constructor. intros y (l' & Hl' & _). congruence.
      - unfold gray. rewrite !lookup_insert_ne by done. apply Ha. }
  pose proof (unvisited_insert n l c Gray Hl Hc) as Hlt. fold gray in Hlt.
  pose proof (visit_all_spec (visit_for_cycles by_name fuel) (deps l) gray
    ltac:(intros; apply IH; lia)) as Hall.
  destruct (visit_all _ (deps l) gray) as [[c'|e]|]; cbn; [| |done].
  - destruct Hall as (Hg & Hb & Ha). split_and!; [by apply grows_blacken|apply lookup_insert_eq|].
    intros Hacc x.
    assert (forall y, c' !! y = Some Black -> Acc (flip step_to) y) as Hc'.
    { apply Ha. intros y. unfold gray. destruct (decide (y = n)) as [->|Hne];
        [by rewrite lookup_insert_eq|rewrite lookup_insert_ne by done; apply Hacc]. }
    destruct (decide (x = n)) as [->|Hne]; [|rewrite lookup_insert_ne by done; apply Hc'].
    intros _. constructor. intros y (l' & Hl' & Hy). simplify_eq. auto.
  - intros Hg. apply Hall. intros m g Hm. unfold gray.
    assert (step_to n m) as Hstep by (by exists l).
    destruct (decide (g = n)) as [->|Hne]; [intros _; by apply tc_once|].
    rewrite lookup_insert_ne by done. intros Hgr. eapply tc_r; [by apply Hg|done].
Qed.

Lemma acc_no_cycle x y : Acc (flip step_to) x -> tc step_to x y -> tc step_to y x -> False.
Proof.
  intros Hx. revert y. induction Hx as [x _ IH]; intros y Hxy Hyx.
  inversion Hxy as [? ? H|? z ? H Hzy]; simplify_eq.
  - eapply (IH _ H); [exact Hyx|by apply tc_once].
  - eapply (IH _ H); [exact (tc_transitive _ _ _ Hzy Hyx)|by apply tc_once].
Qed.

Lemma tc_source x y : tc step_to x y -> is_Some (by_name !! x).
Proof. intros [? ? (l & Hl & _)|? ? ? (l & Hl & _) _]; by exists l. Qed.

(** Visiting every link, with more fuel than there are links, decides whether
    there is a cycle. *)
Lemma visit_links_spec fuel ns :
  (dom by_name : gset string) ⊆ list_to_set ns ->
  (size (dom by_name : gset string) < fuel)%nat ->
  match visit_all (visit_for_cycles by_name fuel) ns ∅ with
  | None => False
  | Some (Ok _) => forall x, ~ tc step_to x x
  | Some (Err _) => exists x, tc step_to x x
  end.
Proof.
  intros Hns Hf.
  assert (unvisited ∅ = size (dom by_name : gset string)) as H0.
  { unfold unvisited. f_equal. rewrite dom_empty_L. set_solver. }
  pose proof (visit_all_spec (visit_for_cycles by_name fuel) ns ∅
    ltac:(intros; apply visit_total_spec; lia)) as H.
  destruct (visit_all _ ns ∅) as [[c|e]|]; [| |done].
  - destruct H as (_ & Hb & Ha). intros x Hx.
    assert (Acc (flip step_to) x) as Hacc.
    { apply Ha; [by intros y; rewrite lookup_empty|]. apply Hb.
      apply tc_source in Hx. apply elem_of_dom in Hx. set_solver. }
    by eapply acc_no_cycle.
  - apply H. intros n g _. by rewrite lookup_empty.
Qed.

End DepthFirst.

(** ** What the validator accepts *)

(** The edges of the membership and parent graph. *)
Definition depends (ls : list Link) (a b : string) : Prop :=
  exists l, l ∈ ls /\ lk_name l = a /\ b ∈ deps l.

Definition acyclic (ls : list Link) : Prop := forall n, ~ tc (depends ls) n n.

Definition well_formed (l : LayeredConfig) : Prop :=
  let names := lk_name <$> ly_links l in
  NoDup names /\
  (forall a b, depends (ly_links l) a b -> b ∈ names) /\
  (forall a, a ∈ ly_addresses l -> ad_link a ∈ names) /\
  NoDup (ly_links l ≫= link_members) /\
  acyclic (ly_links l).

Lemma check_names_spec seen ls :
  match check_names seen ls with
  | Ok s => s = list_to_set (lk_name <$> ls) ∪ seen /\ NoDup (lk_name <$> ls) /\
            (forall l, l ∈ ls -> lk_name l ∉ seen)
  | Err _ => ~ (NoDup (lk_name <$> ls) /\ forall l, l ∈ ls -> lk_name l ∉ seen)
  end.
Proof.
  revert seen. induction ls as [|l ls IH]; intros seen; cbn [check_names].
  { cbn. split_and!; [set_solver|constructor|by intros l ?%elem_of_nil]. }
  case_bool_decide as Hl.
  { intros [_ H]. by apply (H l); [left|]. }
  rewrite fmap_cons. specialize (IH ({[lk_name l]} ∪ seen)).
  destruct (check_names _ ls) as [s|e].
  - destruct IH as (-> & Hn & Hs). split_and!; [cbn; set_solver| |].
    + constructor; [|done]. intros (x & Hx & Hin)%list_elem_of_fmap. specialize (Hs x Hin). set_solver.
    + intros x [->|Hx]%elem_of_cons; [done|]. specialize (Hs x Hx). set_solver.
  - intros [[Hnl Hn]%NoDup_cons Hs]. apply IH. split; [done|]. intros x Hx.
    apply not_elem_of_union. split; [|apply Hs; by right].
    intros Heq%elem_of_singleton. apply Hnl. rewrite <- Heq. by apply list_elem_of_fmap_2.
Qed.

Lemma check_members_spec names l ms :
  check_members names l ms = Ok tt <-> forall m, m ∈ ms -> m <> l /\ m ∈ names.
Proof.
  induction ms as [|m ms IH]; cbn.
  { split; [by intros _ m ?%elem_of_nil|done]. }
  destruct (String.eqb_spec m l) as [->|Hne].
  { split; [done|]. intros H. by destruct (H l ltac:(left)). }
  case_bool_decide as Hin; [rewrite IH|].
  - split.
    + intros H x [->|Hx]%elem_of_cons; auto.
    + intros H x Hx. apply H. by right.
  - split; [done|]. intros H. by destruct (H m ltac:(left)).
Qed.

Lemma check_refs_spec names l :
  check_refs names l = Ok tt <-> forall d, d ∈ deps l -> d <> lk_name l /\ d ∈ names.
Proof.
  unfold check_refs, deps. destruct (lk_kind l) as [|ms ? ?|ms ? ? ? ?|parent ?|parent ?].
  - split; [by intros _ d ?%elem_of_nil|done].
  - apply check_members_spec.
  - apply check_members_spec.
  - setoid_rewrite list_elem_of_singleton. destruct (String.eqb_spec parent (lk_name l)); [naive_solver|].
    case_bool_decide; naive_solver.
  - setoid_rewrite list_elem_of_singleton. destruct (String.eqb_spec parent (lk_name l)); [naive_solver|].
    case_bool_decide; naive_solver.
Qed.

Lemma check_masters_spec m ms :
  check_masters m ms = Ok tt <-> NoDup (fst <$> ms) /\ forall x, x ∈ fst <$> ms -> m !! x = None.
Proof.
  revert m. induction ms as [|[x master] ms IH]; intros m; cbn [check_masters].
  { cbn. split; [|done]. intros _. split; [constructor|by intros x ?%elem_of_nil]. }
  rewrite fmap_cons, NoDup_cons. cbn [fst]. destruct (m !! x) as [ex|] eqn:Hx.
  - split; [done|]. intros [_ H]. specialize (H x ltac:(left)). congruence.
  - rewrite IH. split.
    + intros [Hn H]. split_and!; [|done|].
      * intros Hin. specialize (H x Hin). by rewrite lookup_insert_eq in H.
      * intros y [->|Hy]%elem_of_cons; [done|]. specialize (H y Hy).
        destruct (decide (x = y)) as [->|]; [done|]. by rewrite lookup_insert_ne in H.
    + intros [[Hnx Hn] H]. split; [done|]. intros y Hy.
      rewrite lookup_insert_ne by (intros ->; done). apply H. by right.
Qed.

Lemma memberships_members ls : fst <$> memberships ls = ls ≫= link_members.
Proof.
  induction ls as [|l ls IH]; [done|]. change (memberships (l :: ls)) with
    (((fun m => (m, lk_name l)) <$> link_members l) ++ memberships ls).
  rewrite fmap_app, IH, <- list_fmap_compose. cbn. f_equal. apply list_fmap_id.
Qed.

Lemma links_by_name_gen ls (m : gmap string Link) n l :
  NoDup (lk_name <$> ls) ->
  foldl (fun m l => <[lk_name l := l]> m) m ls !! n = Some l <->
  (l ∈ ls /\ lk_name l = n) \/ ((n ∉ (lk_name <$> ls)) /\ m !! n = Some l).
Proof.
  revert m. induction ls as [|x ls IH]; intros m Hn; cbn [foldl].
  { cbn. split; [right; split; [apply not_elem_of_nil|done]|].
    intros [[?%elem_of_nil _]|[_ H]]; done. }
  rewrite fmap_cons in *. apply NoDup_cons in Hn as [Hx Hn]. rewrite (IH _ Hn).
  destruct (decide (lk_name x = n)) as [<-|Hne].
  - rewrite lookup_insert_eq. split.
    + intros [[Hl Heq]|[_ [= ->]]]; [|left; split; [left|done]].
      destruct Hx. rewrite <- Heq. by apply list_elem_of_fmap_2.
    + intros [[[->|Hl]%elem_of_cons Heq]|[Hnot _]]; [by right|by left|]. destruct Hnot. left.
  - rewrite lookup_insert_ne by done. split.
    + intros [[Hl Heq]|[Hnot H]]; [left; split; [by right|done]|right].
      split; [|done]. intros [->|?]%elem_of_cons; done.
    + intros [[[->|Hl]%elem_of_cons Heq]|[Hnot H]]; [done|by left|right].
      split; [|done]. intros ?. apply Hnot. by right.
Qed.

Lemma links_by_name_lookup ls n l :
  NoDup (lk_name <$> ls) -> links_by_name ls !! n = Some l <-> l ∈ ls /\ lk_name l = n.
Proof.
  intros Hn. unfold links_by_name. rewrite links_by_name_gen by done. rewrite lookup_empty. naive_solver.
Qed.

Lemma links_by_name_dom ls :
  NoDup (lk_name <$> ls) -> dom (links_by_name ls) = list_to_set (lk_name <$> ls).
Proof.
  intros Hn. apply set_eq. intros n. rewrite elem_of_dom, elem_of_list_to_set, list_elem_of_fmap.
  split; [intros [l Hl%links_by_name_lookup]|intros (l & -> & Hl)]; [| |]; [naive_solver|done|].
  exists l. by apply links_by_name_lookup.
Qed.

Lemma step_to_depends ls a b :
  NoDup (lk_name <$> ls) -> step_to (links_by_name ls) a b <-> depends ls a b.
Proof.
  intros Hn. unfold step_to, depends. setoid_rewrite links_by_name_lookup; [|done]. naive_solver.
Qed.

Lemma tc_iff (R S : string -> string -> Prop) x y :
  (forall a b, R a b <-> S a b) -> tc R x y <-> tc S x y.
Proof.
  intros H. split; induction 1; [apply tc_once|eapply tc_l|apply tc_once|eapply tc_l]; try done; by apply H.
Qed.

Lemma detect_cycles_spec ls : NoDup (lk_name <$> ls) -> detect_cycles ls = Ok tt <-> acyclic ls.
Proof.
  intros Hn. unfold detect_cycles, acyclic.
  pose proof (visit_links_spec (links_by_name ls) (S (length ls)) (lk_name <$> ls)) as H.
  rewrite (links_by_name_dom ls Hn) in H. specialize (H ltac:(done)).
  assert (size (list_to_set (lk_name <$> ls) : gset string) < S (length ls))%nat as Hsz.
  { rewrite size_list_to_set by done. rewrite length_fmap. lia. }
  specialize (H Hsz). destruct (visit_all _ _ ∅) as [[c|e]|]; [| |done].
  - split; [intros _ n Ht|done]. apply (H n). by apply (tc_iff _ _ _ _ (fun a b => step_to_depends ls a b Hn)).
  - split; [done|]. intros Ha. destruct H as [x Hx]. destruct (Ha x).
    by apply (tc_iff _ _ _ _ (fun a b => step_to_depends ls a b Hn)).
Qed.

Lemma validate_spec l : NetConfig.validate l = Ok tt <-> well_formed l.
Proof.
  unfold NetConfig.validate, well_formed. pose proof (check_names_spec ∅ (ly_links l)) as Hc.
  destruct (check_names ∅ (ly_links l)) as [names|e].
  2:{ split; [done|]. intros (Hn & _). destruct Hc. split; [done|]. intros; apply not_elem_of_empty. }
  destruct Hc as (-> & Hn & _).
  pose proof (try_each_spec (check_refs (list_to_set (lk_name <$> ly_links l) ∪ ∅)) (ly_links l)) as Hr.
  pose proof (try_each_spec (check_address (list_to_set (lk_name <$> ly_links l) ∪ ∅)) (ly_addresses l)) as Ha.
  pose proof (check_masters_spec ∅ (memberships (ly_links l))) as Hm. rewrite memberships_members in Hm.
  pose proof (detect_cycles_spec _ Hn) as Hd.
  destruct (try_each (check_refs _) _) as [[]|e]; cycle 1.
  { split; [done|]. intros (_ & Hdep & _ & _ & Hac). apply Hr. intros x Hx.
    apply check_refs_spec. intros d Hdx. split.
    - intros ->. eapply Hac, tc_once. by exists x.
    - apply elem_of_union_l, elem_of_list_to_set, (Hdep (lk_name x)). by exists x. }
  destruct (try_each (check_address _) _) as [[]|e]; cycle 1.
  { split; [done|]. intros (_ & _ & Had & _). apply Ha. intros a Hin. unfold check_address.
    rewrite bool_decide_true; [done|]. apply elem_of_union_l, elem_of_list_to_set, Had, Hin. }
  destruct (check_masters _ _) as [[]|e]; cycle 1.
  { split; [done|]. intros (_ & _ & _ & Hnd & _). apply Hm. split; [done|]. intros; apply lookup_empty. }
  rewrite Hd. split; [|tauto]. intros Hac. split_and!; [done| | |by apply Hm|done].
  - intros a b (x & Hx & <- & Hb). pose proof (proj1 Hr eq_refl x Hx) as Hok.
    destruct (proj1 (check_refs_spec _ _) Hok b Hb) as [_ H]. set_solver.
  - intros a Hin. pose proof (proj1 Ha eq_refl a Hin) as Hok. unfold check_address in Hok.
    case_bool_decide as H; [set_solver|done].
Qed.

(** C33. The validator accepts exactly the configurations NetworkManager can
    apply: distinct link names, members and parents that exist, addresses on
    existing links, no link in two bonds or bridges or twice in one, and no
    cycle of members and parents; its depth-first search ends on every graph. *)
Theorem validate_exact l : NetConfig.validate l = Ok tt <-> well_formed l.
Proof. apply validate_spec. Qed.

(** ** The way back *)

Lemma is_empty_ip_default ip : is_empty_ip ip = true -> ip = IpConfig_default.
Proof. by destruct ip as [[] [|] [|]]. Qed.

Definition set_row (e : IpConfig * IpConfig) (a : Address) : IpConfig * IpConfig :=
  let target := mkIpConfig (ad_method a) (ad_cidr a) (ad_gateway a) in
  match ad_family a with FamV4 => (target, snd e) | FamV6 => (fst e, target) end.

Definition no_ip : IpConfig * IpConfig := (IpConfig_default, IpConfig_default).

Definition on_link (n : string) (a : Address) : Prop := ad_link a = n.
#[local] Instance on_link_dec n a : Decision (on_link n a).
Proof. unfold on_link. apply _. Defined.

(** Only the rows of a link decide the addresses grouped under its name. *)
Lemma group_lookup m l n :
  default no_ip (foldl (fun m a => group_address a m) m l !! n) =
  foldl set_row (default no_ip (m !! n)) (filter (on_link n) l).
Proof.
  revert m. induction l as [|a l IH]; intros m; [done|]. cbn [foldl]. rewrite IH, filter_cons.
  unfold group_address. destruct (decide (on_link n a)) as [Hn|Hn]; unfold on_link in Hn.
  - subst n. rewrite lookup_insert_eq. done.
  - by rewrite lookup_insert_ne.
Qed.

(** The links that carry addresses, in the order their rows are pushed. *)
Definition items (c : NetworkConfig) : list (string * (IpConfig * IpConfig)) :=
  ((fun i => (if_name i, (if_ipv4 i, if_ipv6 i))) <$> nc_interfaces c) ++
  ((fun b => (bo_name b, (bo_ipv4 b, bo_ipv6 b))) <$> nc_bonds c) ++
  ((fun b => (br_name b, (br_ipv4 b, br_ipv6 b))) <$> nc_bridges c) ++
  ((fun v => (vlan_name (vl_parent v) (vl_id v), (vl_ipv4 v, vl_ipv6 v))) <$> nc_vlans c) ++
  ((fun m => (mv_name m, (mv_ipv4 m, IpConfig_default))) <$> nc_macvlans c).

Definition item_rows (it : string * (IpConfig * IpConfig)) : list Address :=
  push_addresses (fst it) (fst (snd it)) (snd (snd it)).

Lemma bind_fmap_rows {A} (f : A -> string * (IpConfig * IpConfig)) (l : list A) :
  (l ≫= fun x => item_rows (f x)) = (f <$> l) ≫= item_rows.
Proof. induction l as [|x l IH]; [done|]. cbn in *. by rewrite IH. Qed.

Lemma all_addresses_items c : all_addresses c = items c ≫= item_rows.
Proof. unfold items. rewrite !bind_app, <- !bind_fmap_rows. done. Qed.

Lemma items_names c : fst <$> items c = lk_name <$> declared_links c.
Proof. unfold items, declared_links. by rewrite !fmap_app, <- !list_fmap_compose. Qed.

Lemma push_addresses_link n v4 v6 a : a ∈ push_addresses n v4 v6 -> ad_link a = n.
Proof.
  unfold push_addresses. intros [H|H]%elem_of_app; destruct (is_empty_ip _);
    try (by apply elem_of_nil in H); by apply list_elem_of_singleton in H as ->.
Qed.

Lemma filter_rows_other n its :
  n ∉ fst <$> its -> filter (on_link n) (its ≫= item_rows) = [].
Proof.
  intros Hn. apply elem_of_nil_inv. intros a [Ha (it & Hrow & Hin)%list_elem_of_bind]%list_elem_of_filter.
  apply push_addresses_link in Hrow. unfold on_link in Ha. apply Hn.
  rewrite <- Ha, Hrow. by apply list_elem_of_fmap_2.
Qed.

Lemma filter_rows_same n v4 v6 : filter (on_link n) (push_addresses n v4 v6) = push_addresses n v4 v6.
Proof.
  unfold push_addresses.
  destruct (is_empty_ip v4), (is_empty_ip v6); cbn [app];
    rewrite ?filter_cons, ?filter_nil, ?decide_True by done; done.
Qed.

Lemma filter_rows its n v4 v6 :
  NoDup (fst <$> its) -> (n, (v4, v6)) ∈ its ->
  filter (on_link n) (its ≫= item_rows) = push_addresses n v4 v6.
Proof.
  induction its as [|it its IH]; intros Hn Hin; [by apply elem_of_nil in Hin|].
  rewrite fmap_cons in Hn. apply NoDup_cons in Hn as [Hit Hn].
  change ((it :: its) ≫= item_rows) with (item_rows it ++ (its ≫= item_rows)).
  rewrite filter_app. apply elem_of_cons in Hin as [<-|Hin].
  - rewrite (filter_rows_other n its) by done. unfold item_rows; cbn [fst snd].
    by rewrite filter_rows_same, app_nil_r.
  - rewrite (IH Hn Hin). assert (fst it <> n) as Hne.
    { intros <-. apply Hit. apply (list_elem_of_fmap_2 fst) in Hin. done. }
    replace (filter (on_link n) (item_rows it)) with (@nil Address); [done|].
    symmetry. apply elem_of_nil_inv. intros a [Ha Hrow]%list_elem_of_filter.
    apply push_addresses_link in Hrow. unfold on_link in Ha. congruence.
Qed.

Lemma rows_fold n v4 v6 : foldl set_row no_ip (push_addresses n v4 v6) = (v4, v6).
Proof.
  unfold push_addresses. destruct (is_empty_ip v4) eqn:E4, (is_empty_ip v6) eqn:E6; cbn;
    repeat match goal with H : is_empty_ip ?x = true |- _ =>
      rewrite (is_empty_ip_default _ H) end; cbn; try done; by destruct v4, v6.
Qed.

(** The addresses of a configured link come back as they were, and a link
    that was not configured has none. *)
Lemma addresses_back c n v4 v6 :
  NoDup (lk_name <$> declared_links c) -> (n, (v4, v6)) ∈ items c ->
  default no_ip (group_addresses (all_addresses c) !! n) = (v4, v6).
Proof.
  intros Hn Hin. unfold group_addresses. rewrite group_lookup, all_addresses_items, lookup_empty.
  rewrite (filter_rows _ n v4 v6) by (by rewrite ?items_names). apply rows_fold.
Qed.

Lemma addresses_none c n :
  n ∉ lk_name <$> declared_links c -> default no_ip (group_addresses (all_addresses c) !! n) = no_ip.
Proof.
  intros Hn. unfold group_addresses. rewrite group_lookup, all_addresses_items, lookup_empty.
  by rewrite filter_rows_other by (by rewrite items_names).
Qed.

Definition on_dev (n : string) (r : Route) : Prop := rt_dev r = n.
#[local] Instance on_dev_dec n r : Decision (on_dev n r).
Proof. unfold on_dev. apply _. Defined.

Lemma routes_lookup (m : gmap string (list string)) l n :
  default [] (foldl (fun m r => <[rt_dev r := default [] (m !! rt_dev r) ++ [rt_dst r]]> m) m l
    !! n : option (list string)) =
  default [] (m !! n) ++ (rt_dst <$> filter (on_dev n) l).
Proof.
  revert m. induction l as [|r l IH]; intros m; [cbn; by rewrite app_nil_r|].
  cbn [foldl]. rewrite IH, filter_cons. destruct (decide (on_dev n r)) as [<-|Hn].
  - rewrite lookup_insert_eq. cbn. by rewrite <- app_assoc.
  - by rewrite lookup_insert_ne.
Qed.

Lemma macvlan_routes_other n ms :
  n ∉ mv_name <$> ms -> filter (on_dev n) (ms ≫= macvlan_routes) = [].
Proof.
  intros Hn. apply elem_of_nil_inv. intros r [Hr (m & Hm & Hin)%list_elem_of_bind]%list_elem_of_filter.
  apply list_elem_of_fmap in Hm as (dst & -> & _). apply Hn. rewrite <- Hr. by apply (list_elem_of_fmap_2 mv_name).
Qed.

Lemma macvlan_routes_same m : filter (on_dev (mv_name m)) (macvlan_routes m) = macvlan_routes m.
Proof.
  unfold macvlan_routes. induction (mv_routes m) as [|d l IH]; [done|].
  rewrite fmap_cons, filter_cons, IH. by rewrite decide_True.
Qed.

Lemma routes_back ms m :
  NoDup (mv_name <$> ms) -> m ∈ ms ->
  default [] (group_routes (ms ≫= macvlan_routes) !! mv_name m) = mv_routes m.
Proof.
  intros Hn Hm. unfold group_routes. rewrite routes_lookup, lookup_empty. cbn [default app].
  assert (filter (on_dev (mv_name m)) (ms ≫= macvlan_routes) = macvlan_routes m) as ->.
  { revert Hn Hm. induction ms as [|x ms IH]; intros Hn Hm; [by apply elem_of_nil in Hm|].
    rewrite fmap_cons in Hn. apply NoDup_cons in Hn as [Hx Hn].
    change ((x :: ms) ≫= macvlan_routes) with (macvlan_routes x ++ (ms ≫= macvlan_routes)).
    rewrite filter_app. apply elem_of_cons in Hm as [->|Hm].
    - rewrite macvlan_routes_same, macvlan_routes_other by done. apply app_nil_r.
    - rewrite (IH Hn Hm). assert (mv_name m <> mv_name x) as Hne.
      { intros Heq. apply Hx. rewrite <- Heq. by apply (list_elem_of_fmap_2 mv_name). }
      pose proof (macvlan_routes_other (mv_name m) [x]) as Ho. cbn in Ho. rewrite app_nil_r in Ho.
      rewrite Ho; [done|]. by intros ?%list_elem_of_singleton. }
  unfold macvlan_routes. rewrite <- list_fmap_compose. apply list_fmap_id.
Qed.

(** ** Rebuilding the configuration link by link *)

Section Rebuild.
Context (addrs : gmap string (IpConfig * IpConfig)) (routes : gmap string (list string)).

Definition ips (l : Link) : IpConfig * IpConfig := default no_ip (addrs !! lk_name l).

Definition as_iface (l : Link) : option InterfaceConfig :=
  match lk_kind l with
  | Physical => Some (mkInterfaceConfig (lk_name l) (lk_enabled l) (fst (ips l)) (snd (ips l))
                        (lk_mtu l) (lk_sriov_num_vfs l) (lk_vfs l))
  | _ => None
  end.
Definition as_bond (l : Link) : option BondConfig :=
  match lk_kind l with
  | Bond ms mode mac => Some (mkBondConfig (lk_name l) ms mode (fst (ips l)) (snd (ips l)) (lk_mtu l) mac)
  | _ => None
  end.
Definition as_bridge (l : Link) : option BridgeConfig :=
  match lk_kind l with
  | Bridge ms stp fd mac relay =>
      Some (mkBridgeConfig (lk_name l) ms (fst (ips l)) (snd (ips l)) (lk_mtu l) stp fd mac relay)
  | _ => None
  end.
Definition as_vlan (l : Link) : option VlanConfig :=
  match lk_kind l with
  | Vlan parent id => Some (mkVlanConfig parent id (fst (ips l)) (snd (ips l)) (lk_mtu l))
  | _ => None
  end.
Definition as_macvlan (l : Link) : option MacvlanConfig :=
  match lk_kind l with
  | Macvlan parent mode =>
      Some (mkMacvlanConfig (lk_name l) parent mode (fst (ips l)) (lk_mtu l)
              (default [] (routes !! lk_name l)))
  | _ => None
  end.

Lemma push_fold c ls :
  foldl (NetworkConfig_push addrs routes) c ls =
  mkNetworkConfig (nc_interfaces c ++ omap as_iface ls) (nc_dns c) (nc_bonds c ++ omap as_bond ls)
    (nc_vlans c ++ omap as_vlan ls) (nc_bridges c ++ omap as_bridge ls)
    (nc_macvlans c ++ omap as_macvlan ls).
Proof.
  revert c. induction ls as [|l ls IH]; intros c; cbn [foldl].
  { cbn. rewrite !app_nil_r. by destruct c. }
  rewrite IH. unfold NetworkConfig_push.
  cbn [omap list_omap]. unfold as_iface, as_bond, as_bridge, as_vlan, as_macvlan, ips.
  change (IpConfig_default, IpConfig_default) with no_ip.
  destruct (default no_ip (addrs !! lk_name l)) as [v4 v6].
  destruct (lk_kind l); cbn; f_equal; by rewrite <- ?app_assoc.
Qed.

Lemma omap_none {A B} (f : A -> option B) (l : list A) : (forall x, x ∈ l -> f x = None) -> omap f l = [].
Proof.
  induction l as [|x l IH]; intros H; [done|]. cbn. rewrite (H x ltac:(left)). apply IH.
  intros y Hy. apply H. by right.
Qed.

Lemma omap_fmap_back {A B} (f : B -> option A) (g : A -> B) (l : list A) :
  (forall x, x ∈ l -> f (g x) = Some x) -> omap f (g <$> l) = l.
Proof.
  induction l as [|x l IH]; intros H; [done|]. cbn. rewrite (H x ltac:(left)). f_equal. apply IH.
  intros y Hy. apply H. by right.
Qed.

Lemma omap_fmap_none {A B C} (f : B -> option C) (g : A -> B) (l : list A) :
  (forall x, f (g x) = None) -> omap f (g <$> l) = [].
Proof. intros H. apply omap_none. by intros x (y & -> & _)%list_elem_of_fmap. Qed.

End Rebuild.

Definition bare_iface (name : string) : InterfaceConfig :=
  mkInterfaceConfig name true IpConfig_default IpConfig_default None None [].

(** The members of bonds and bridges that no link of the configuration declares. *)
Definition undeclared (c : NetworkConfig) : list string :=
  lk_name <$> synthesized_links (declared_links c).

Lemma synthesize_plain declared seen ms l :
  l ∈ synthesize declared seen ms -> l = plain_link (lk_name l) None Physical /\ lk_name l ∉ declared.
Proof.
  revert seen. induction ms as [|m ms IH]; intros seen; cbn; [by intros ?%elem_of_nil|].
  destruct (bool_decide (m ∈ declared)) eqn:E; cbn; [apply IH|]. apply bool_decide_eq_false in E.
  destruct (bool_decide (m ∈ seen)); [apply IH|]. intros [->|H]%elem_of_cons; [done|by eapply IH].
Qed.

Lemma synthesized_bare addrs c :
  (forall n, n ∉ lk_name <$> declared_links c -> default no_ip (addrs !! n) = no_ip) ->
  omap (as_iface addrs) (synthesized_links (declared_links c)) = bare_iface <$> undeclared c.
Proof.
  intros Ha. unfold undeclared, synthesized_links.
  assert (forall ls : list Link, (forall l, l ∈ ls -> l = plain_link (lk_name l) None Physical /\
            (lk_name l ∉ (lk_name <$> declared_links c))) ->
          omap (as_iface addrs) ls = bare_iface <$> (lk_name <$> ls)) as H; [|apply H].
  { induction ls as [|l ls IH]; intros H; [done|]. destruct (H l ltac:(left)) as [Hl Hn].
    cbn. rewrite Hl at 1. unfold as_iface; cbn. unfold ips; cbn. rewrite (Ha _ Hn). cbn. f_equal.
    apply IH. intros x Hx. apply H. by right. }
  intros l Hl. apply synthesize_plain in Hl as [Hl Hn]. split; [done|].
  by rewrite elem_of_list_to_set in Hn.
Qed.

Lemma synthesized_not {A} addrs (f : gmap string (IpConfig * IpConfig) -> Link -> option A) c :
  (forall n, f addrs (plain_link n None Physical) = None) ->
  omap (f addrs) (synthesized_links (declared_links c)) = [].
Proof.
  intros H. apply omap_none. intros l [-> _]%synthesize_plain. apply H.
Qed.

Lemma validate_names l : NetConfig.validate l = Ok tt -> NoDup (lk_name <$> ly_links l).
Proof.
  unfold NetConfig.validate. pose proof (check_names_spec ∅ (ly_links l)) as H.
  destruct (check_names ∅ (ly_links l)); [by intros _; apply H|done].
Qed.

Lemma declared_nodup c :
  NetConfig.validate (to_layered c) = Ok tt -> NoDup (lk_name <$> declared_links c).
Proof.
  intros H%validate_names. cbn in H. rewrite fmap_app in H. by apply NoDup_app in H as [H _].
Qed.

Lemma synthesize_declared declared seen ms :
  (forall m, m ∈ ms -> m ∈ declared) -> synthesize declared seen ms = [].
Proof.
  induction ms as [|m ms IH]; intros H; [done|]. cbn. rewrite bool_decide_true by (apply H; left).
  apply IH. intros x Hx. apply H. by right.
Qed.

Lemma undeclared_nil c :
  (forall m, m ∈ declared_links c ≫= link_members -> m ∈ lk_name <$> declared_links c) ->
  undeclared c = [].
Proof.
  intros H. unfold undeclared, synthesized_links. rewrite synthesize_declared; [done|].
  intros m Hm. apply elem_of_list_to_set. by apply H.
Qed.

(** The item of a link is among the items. *)
Ltac in_items := unfold items; rewrite ?elem_of_app, ?list_elem_of_fmap; naive_solver.

Lemma from_to_layered c :
  NoDup (lk_name <$> declared_links c) ->
  from_layered (to_layered c) =
  with_interfaces (nc_interfaces c ++ (bare_iface <$> undeclared c)) c.
Proof.
  intros Hn. unfold from_layered, to_layered. cbn [ly_links ly_addresses ly_routes ly_dns].
  set (A := group_addresses (all_addresses c)). set (R := group_routes _).
  assert (forall n v4 v6, (n, (v4, v6)) ∈ items c -> default no_ip (A !! n) = (v4, v6)) as HA
    by (intros; by apply addresses_back).
  rewrite push_fold. cbn [nc_interfaces nc_dns nc_bonds nc_vlans nc_bridges nc_macvlans app].
  rewrite !omap_app. rewrite (synthesized_bare A c) by (intros; by apply addresses_none).
  rewrite (synthesized_not A as_bond), (synthesized_not A as_vlan), (synthesized_not A as_bridge),
    (synthesized_not A (fun a => as_macvlan a R)) by done. rewrite !app_nil_r.
  unfold declared_links, with_interfaces. rewrite !omap_app.
  repeat match goal with |- context [omap ?f (?g <$> ?l)] => rewrite (omap_fmap_none f g l) by done end.
  rewrite ?app_nil_r; cbn [app]. f_equal.
  - rewrite omap_fmap_back; [done|]. intros i Hi. unfold as_iface, ips; cbn.
    rewrite (HA _ (if_ipv4 i) (if_ipv6 i)) by in_items. by destruct i.
  - apply omap_fmap_back. intros b Hb. unfold as_bond, ips; cbn.
    rewrite (HA _ (bo_ipv4 b) (bo_ipv6 b)) by in_items. by destruct b.
  - apply omap_fmap_back. intros v Hv. unfold as_vlan, ips; cbn.
    rewrite (HA _ (vl_ipv4 v) (vl_ipv6 v)) by in_items. by destruct v.
  - apply omap_fmap_back. intros b Hb. unfold as_bridge, ips; cbn.
    rewrite (HA _ (br_ipv4 b) (br_ipv6 b)) by in_items. by destruct b.
  - apply omap_fmap_back. intros m Hm. unfold as_macvlan, ips; cbn.
    rewrite (HA _ (mv_ipv4 m) IpConfig_default) by in_items. unfold R. rewrite routes_back; [by destruct m| |done].
    unfold declared_links in Hn. rewrite !fmap_app in Hn.
    do 4 apply NoDup_app in Hn as (_ & _ & Hn). by rewrite <- list_fmap_compose in Hn.
Qed.

(** A configuration the validator accepts survives the way to the layered
    model and back: every interface, bond, bridge, VLAN and macvlan with its
    addresses and routes, in order.  The members no interface declares come
    back as additional bare interfaces, so the way back is the identity exactly
    where every member is declared. *)
Theorem layered_roundtrip c :
  NetConfig.validate (to_layered c) = Ok tt ->
  from_layered (to_layered c) = with_interfaces (nc_interfaces c ++ (bare_iface <$> undeclared c)) c /\
  (from_layered (to_layered c) = c <->
   forall m, m ∈ declared_links c ≫= link_members -> m ∈ lk_name <$> declared_links c).
Proof.
  intros Hv. pose proof (declared_nodup c Hv) as Hn. rewrite (from_to_layered c Hn). split; [done|].
  split; [|intros H; rewrite (undeclared_nil c H); cbn; rewrite app_nil_r; by destruct c].
  intros Heq. assert (undeclared c = []) as Hu.
  { apply (f_equal (fun c => length (nc_interfaces c))) in Heq. cbn in Heq.
    rewrite length_app, length_fmap in Heq. apply nil_length_inv. lia. }
  apply validate_spec in Hv as (_ & Hdep & _). cbn in Hdep. unfold undeclared in Hu.
  apply fmap_nil_inv in Hu. rewrite Hu, app_nil_r in Hdep.
  intros m (l & Hm & Hl)%list_elem_of_bind. apply (Hdep (lk_name l)). exists l. split_and!; [done..|].
  revert Hm. unfold deps, link_members. destruct (lk_kind l); try done; by intros ?%elem_of_nil.
Qed.

(** ** A box with a bond and a bridge over it *)

Definition sample_net : NetworkConfig :=
  mkNetworkConfig
    [mkInterfaceConfig "eth0" true (mkIpConfig Static ["10.0.0.5/24"] (Some "10.0.0.1")) IpConfig_default None None []]
    ["1.1.1.1"]
    [mkBondConfig "bond0" ["eth1"; "eth2"] Lacp IpConfig_default IpConfig_default (Some 9000) true]
    [mkVlanConfig "bond0" 20 (mkIpConfig Dhcp [] None) IpConfig_default None]
    [mkBridgeConfig "br0" ["bond0"] (mkIpConfig Dhcp [] None) (mkIpConfig Slaac [] None) None false None true None]
    [mkMacvlanConfig "shim0" "br0" "bridge" (mkIpConfig Static ["192.168.9.1/32"] None) None ["192.168.9.0/24"]].

Lemma layered_roundtrip_witness :
  from_layered (to_layered sample_net) =
  with_interfaces (nc_interfaces sample_net ++ [bare_iface "eth1"; bare_iface "eth2"]) sample_net.
Proof. apply (proj1 (layered_roundtrip sample_net ltac:(vm_compute; reflexivity))). Defined.

(** A member cannot serve two masters, and a bond cannot carry itself. *)
Example validate_rejects :
  NetConfig.validate (to_layered (mkNetworkConfig [] []
    [mkBondConfig "b" ["c"] Lacp IpConfig_default IpConfig_default None true] []
    [mkBridgeConfig "c" ["b"] IpConfig_default IpConfig_default None false None true None] [])) =
  Err "cycle detected through link 'b'".
Proof. vm_compute. reflexivity. Qed.
