(* ===== verification/Nm.v ===== *)
(** * NetworkManager profiles (nasty-system/src/network/nm.rs and nm/dbus.rs)

    The connection profiles made from the layered configuration, the settings
    dictionaries sent over D-Bus, and the pass that adds, updates, deletes and
    activates them.  NetworkManager is the list of its stored connections; the
    answers of its D-Bus calls are arguments.  Dictionaries nested in a value
    are written as the records they encode; [Debug] text, by which the code
    compares values, is taken to be equal exactly for equal values.  The UUIDv5
    of a name comes from the uuid crate and is a parameter. *)

From Stdlib Require Import ZArith Lia Ascii String.
From stdpp Require Import base list gmap strings.
From S2P Require Import Prelude.
From S2P Require Import RustStr.
From S2P Require Import Net.
From S2P Require Import NetConfig.

(** ** Profiles *)

Inductive NmConnectionType : Type :=
| NmEthernet | NmInfiniband | NmBond | NmBridge | NmVlan | NmMacvlan.

#[export] Instance NmConnectionType_eq_dec : EqDecision NmConnectionType.
Proof. solve_decision. Defined.

Definition type_str (t : NmConnectionType) : string :=
  match t with
  | NmEthernet => "802-3-ethernet"
  | NmInfiniband => "infiniband"
  | NmBond => "bond"
  | NmBridge => "bridge"
  | NmVlan => "vlan"
  | NmMacvlan => "macvlan"
  end.

Inductive NmIpMethod : Type := NmAuto | NmManual | NmLinkLocal | NmDisabled | NmIgnore.

Definition method_str (m : NmIpMethod) : string :=
  match m with
  | NmAuto => "auto"
  | NmManual => "manual"
  | NmLinkLocal => "link-local"
  | NmDisabled => "disabled"
  | NmIgnore => "ignore"
  end.

Record NmIpSettings : Type := mkNmIpSettings {
  ns_method : NmIpMethod;
  ns_addresses : list string;
  ns_gateway : option string;
  ns_dns : list string;
  ns_routes : list string;
}.

Definition NmIpSettings_default : NmIpSettings := mkNmIpSettings NmDisabled [] None [] [].

Inductive NmTypeSpecific : Type :=
| TsNone
| TsBond (mode : string)
| TsBridge (stp : bool) (forward_delay : option Z)
| TsVlan (parent : string) (id : Z)
| TsMacvlan (parent : string) (mode : string).

Record NmConnection : Type := mkNmConnection {
  nmc_id : string;
  nmc_uuid : string;
  nmc_type : NmConnectionType;
  nmc_interface : string;
  nmc_controller : option string;
  nmc_port_type : option string;
  nmc_mtu : option Z;
  nmc_sriov_num_vfs : option Z;
  nmc_vfs : list VfConfig;
  nmc_mac : option string;
  nmc_autoconnect : bool;
  nmc_ipv4 : NmIpSettings;
  nmc_ipv6 : NmIpSettings;
  nmc_specific : NmTypeSpecific;
}.

Record MacContext : Type := mkMacContext {
  mc_live_macs : gmap string string;
  mc_mgmt_iface : option string;
  mc_infiniband_ifaces : gset string;
}.

Definition MacContext_default : MacContext := mkMacContext ∅ None ∅.

Definition address_method_to_nm (m : IpMethod) : NmIpMethod :=
  match m with
  | Dhcp | Slaac | Inherit => NmAuto
  | Static => NmManual
  | Disabled => NmDisabled
  end.

Definition address_to_nm_settings (a : Address) : NmIpSettings :=
  mkNmIpSettings (address_method_to_nm (ad_method a)) (ad_cidr a) (ad_gateway a) [] [].

Definition default_ip_pair : NmIpSettings * NmIpSettings := (NmIpSettings_default, NmIpSettings_default).

Definition nm_addresses (l : list Address) : gmap string (NmIpSettings * NmIpSettings) :=
  foldl (fun m a =>
    let entry := default default_ip_pair (m !! ad_link a) in
    <[ad_link a := match ad_family a with
                   | FamV4 => (address_to_nm_settings a, snd entry)
                   | FamV6 => (fst entry, address_to_nm_settings a)
                   end]> m) ∅ l.

(** The kind of port a master makes of its members. *)
Definition port_type_of (k : LinkKind) : option string :=
  match k with
  | Bond _ _ _ => Some "bond"
  | Bridge _ _ _ _ _ => Some "bridge"
  | _ => None
  end.

Definition nm_masters (ls : list Link) : gmap string (string * string) :=
  foldl (fun m l =>
    match port_type_of (lk_kind l) with
    | Some pt => foldl (fun m x => <[x := (lk_name l, pt)]> m) m (link_members l)
    | None => m
    end) ∅ ls.

(** [dst.contains(':')] decides the family. *)
Definition is_v6_text (s : string) : bool := str_contains_char ":" s.

Definition nm_routes (rs : list Route) : gmap string (list string * list string) :=
  foldl (fun m r =>
    let '(v4, v6) := default ([], []) (m !! rt_dev r) in
    <[rt_dev r := if is_v6_text (rt_dst r) then (v4, v6 ++ [rt_dst r]) else (v4 ++ [rt_dst r], v6)]> m) ∅ rs.

Definition split_dns_by_family (dns : list string) : list string * list string :=
  (List.filter (fun s => negb (is_v6_text s)) dns, List.filter is_v6_text dns).

Definition inherits_member_mac (k : LinkKind) : bool :=
  match k with
  | Bond _ _ b | Bridge _ _ _ b _ => b
  | _ => false
  end.

Definition pick_primary_member (l : Link) (ctx : MacContext) : option string :=
  match port_type_of (lk_kind l) with
  | None => None
  | Some _ =>
      match mc_mgmt_iface ctx with
      | Some mgmt => if one_of (link_members l) mgmt then Some mgmt else head (link_members l)
      | None => head (link_members l)
      end
  end.

Definition set_dns (d : list string) (s : NmIpSettings) : NmIpSettings :=
  mkNmIpSettings (ns_method s) (ns_addresses s) (ns_gateway s) d (ns_routes s).
Definition set_routes (r : list string) (s : NmIpSettings) : NmIpSettings :=
  mkNmIpSettings (ns_method s) (ns_addresses s) (ns_gateway s) (ns_dns s) r.

Definition with_ips (v4 v6 : NmIpSettings) (c : NmConnection) : NmConnection :=
  mkNmConnection (nmc_id c) (nmc_uuid c) (nmc_type c) (nmc_interface c) (nmc_controller c)
    (nmc_port_type c) (nmc_mtu c) (nmc_sriov_num_vfs c) (nmc_vfs c) (nmc_mac c) (nmc_autoconnect c)
    v4 v6 (nmc_specific c).
Definition with_mac (mac : option string) (c : NmConnection) : NmConnection :=
  mkNmConnection (nmc_id c) (nmc_uuid c) (nmc_type c) (nmc_interface c) (nmc_controller c)
    (nmc_port_type c) (nmc_mtu c) (nmc_sriov_num_vfs c) (nmc_vfs c) mac (nmc_autoconnect c)
    (nmc_ipv4 c) (nmc_ipv6 c) (nmc_specific c).

Definition profile_id (name : string) : string := "nasty-" +:+ name.

Section Profiles.
Context (uuid_of : string -> string).

Definition link_type (l : Link) (ctx : MacContext) : NmConnectionType * NmTypeSpecific :=
  match lk_kind l with
  | Physical => (if bool_decide (lk_name l ∈ mc_infiniband_ifaces ctx) then NmInfiniband else NmEthernet, TsNone)
  | Bond _ mode _ => (NmBond, TsBond (to_kernel mode))
  | Bridge _ stp fd _ _ => (NmBridge, TsBridge stp fd)
  | Vlan parent id => (NmVlan, TsVlan parent id)
  | Macvlan parent mode => (NmMacvlan, TsMacvlan parent mode)
  end.

Definition profile_for_link (l : Link) (addrs : gmap string (NmIpSettings * NmIpSettings))
    (masters : gmap string (string * string)) (ctx : MacContext) : NmConnection :=
  let master := masters !! lk_name l in
  let '(v4, v6) := match master with
                   | Some _ => (NmIpSettings_default, NmIpSettings_default)
                   | None => default default_ip_pair (addrs !! lk_name l)
                   end in
  let '(ty, specific) := link_type l ctx in
  mkNmConnection (profile_id (lk_name l)) (uuid_of (lk_name l)) ty (lk_name l) (fst <$> master)
    (snd <$> master) (lk_mtu l) (lk_sriov_num_vfs l) (lk_vfs l) (lk_mac l) (lk_enabled l) v4 v6 specific.

Definition finish_profile (l : Link) (ctx : MacContext) (dns : list string * list string)
    (routes : gmap string (list string * list string)) (c0 : NmConnection) : NmConnection :=
  let c1 := match nmc_controller c0 with
            | None => with_ips (set_dns (fst dns) (nmc_ipv4 c0)) (set_dns (snd dns) (nmc_ipv6 c0)) c0
            | Some _ => c0
            end in
  let c2 := match routes !! lk_name l with
            | Some (v4, v6) => with_ips (set_routes v4 (nmc_ipv4 c1)) (set_routes v6 (nmc_ipv6 c1)) c1
            | None => c1
            end in
  if inherits_member_mac (lk_kind l) then
    match (member ← pick_primary_member l ctx; mc_live_macs ctx !! member) with
    | Some mac => with_mac (Some mac) c2
    | None => c2
    end
  else c2.

Definition to_nm_profiles_with_macs (ly : LayeredConfig) (ctx : MacContext) : list NmConnection :=
  let addrs := nm_addresses (ly_addresses ly) in
  let masters := nm_masters (ly_links ly) in
  let routes := nm_routes (ly_routes ly) in
  let dns := split_dns_by_family (ly_dns ly) in
  (fun l => finish_profile l ctx dns routes (profile_for_link l addrs masters ctx)) <$> ly_links ly.

Definition to_nm_profiles (ly : LayeredConfig) : list NmConnection :=
  to_nm_profiles_with_macs ly MacContext_default.

End Profiles.

Definition retain_live_physical_profiles (ps : list NmConnection) (live : gset string) : list NmConnection :=
  List.filter (fun p => match nmc_type p with
                        | NmEthernet | NmInfiniband => bool_decide (nmc_interface p ∈ live)
                        | _ => true
                        end) ps.

(** ** Settings dictionaries

    The D-Bus values the code builds, with dictionaries of dictionaries three
    deep at most.  [VOther] is any other value NetworkManager may report. *)

Inductive Scalar : Type := SStr (s : string) | SBool (b : bool) | SU32 (n : Z).

#[export] Instance Scalar_eq_dec : EqDecision Scalar.
Proof. solve_decision. Defined.

Inductive Inner : Type := IScalar (s : Scalar) | IDicts (l : list (gmap string Scalar)).

#[export] Instance Inner_eq_dec : EqDecision Inner.
Proof. solve_decision. Defined.

Inductive Variant : Type :=
| VScalar (s : Scalar)
| VBytes (l : list Z)                    (** [ay] *)
| VU32s (l : list Z)                     (** [au] *)
| VByteArrays (l : list (list Z))        (** [aay] *)
| VStrMap (m : gmap string string)       (** [a{ss}] *)
| VDicts (l : list (gmap string Inner))  (** [aa{sv}] *)
| VOther (debug : string).

#[export] Instance Variant_eq_dec : EqDecision Variant.
Proof. solve_decision. Defined.

Abbreviation SettingsSection := (gmap string Variant).
Abbreviation SettingsDict := (gmap string (gmap string Variant)).

Definition v_str (s : string) : Variant := VScalar (SStr s).
Definition v_bool (b : bool) : Variant := VScalar (SBool b).
Definition v_u32 (n : Z) : Variant := VScalar (SU32 n).

(** Inserts the key when there is a value. *)
Definition insert_some {A} (k : string) (o : option A) (m : gmap string A) : gmap string A :=
  match o with Some v => <[k := v]> m | None => m end.

Definition parse_cidr (cidr : string) : option (string * Z) :=
  '(addr, prefix) ← split_once "/" cidr;
  n ← parse_uint (2 ^ 32 - 1) prefix;
  Some (addr, n).

(** [u8::from_str_radix(p, 16)] of two bytes: a sign is accepted before a digit. *)
Definition parse_hex_u8 (p : string) : option Z :=
  match to_bytes p with
  | ["+"%char] | ["-"%char] => None
  | "+"%char :: l => parse_digits 16 0 l
  | [] => None
  | l => parse_digits 16 0 l
  end.

Definition mac_to_bytes (mac : string) : option (list Z) :=
  let parts := str_split ":" mac in
  if (length parts =? 6)%nat
  then mapM (fun p => if (String.length p =? 2)%nat then parse_hex_u8 p else None) parts
  else None.

Definition macvlan_mode_num (mode : string) : Z :=
  if String.eqb mode "vepa" then 1
  else if String.eqb mode "bridge" then 2
  else if String.eqb mode "private" then 3
  else if String.eqb mode "passthru" then 4
  else if String.eqb mode "source" then 5
  else 2.

(** [u32::from_ne_bytes] on the little-endian machines the appliance runs on. *)
Definition from_ne_bytes (octets : list Z) : Z := foldr (fun b acc => b + 256 * acc) 0 octets.

(** The sixteen octets of an IPv6 address given by its segments. *)
Definition v6_octets (segments : list Z) : list Z :=
  segments ≫= (fun s => [Z.shiftr s 8; Z.land s 255]).

Definition parse_ipv6_addr (s : string) : option (list Z) :=
  match read_ipv6_addr (to_bytes s) with Some (segs, []) => Some segs | _ => None end.

(** The list, unless it is empty. *)
Definition unless_empty {A B} (f : list A -> B) (l : list A) : option B :=
  match l with [] => None | _ => Some (f l) end.

Definition cidr_entries (key : string) (cidrs : list string) : list (gmap string Inner) :=
  (fun '(a, n) => <["prefix" := IScalar (SU32 n)]> {[ key := IScalar (SStr a) ]})
    <$> omap parse_cidr cidrs.

Definition dns_variant (ip : NmIpSettings) (family : Family) : option Variant :=
  match family with
  | FamV4 => unless_empty VU32s (from_ne_bytes <$> omap parse_ipv4_addr (ns_dns ip))
  | FamV6 => unless_empty VByteArrays (v6_octets <$> omap parse_ipv6_addr (ns_dns ip))
  end.

Definition ip_section_dict (ip : NmIpSettings) (family : Family) : SettingsSection :=
  insert_some "route-data" (unless_empty VDicts (cidr_entries "dest" (ns_routes ip)))
  (insert_some "dns" (dns_variant ip family)
  (insert_some "gateway" (v_str <$> ns_gateway ip)
  (insert_some "address-data" (unless_empty VDicts (cidr_entries "address" (ns_addresses ip)))
  {[ "method" := v_str (method_str (ns_method ip)) ]}))).

Definition connection_section (p : NmConnection) : SettingsSection :=
  insert_some "port-type" (v_str <$> nmc_port_type p)
  (insert_some "controller" (v_str <$> nmc_controller p)
  (<["autoconnect" := v_bool (nmc_autoconnect p)]>
  (<["interface-name" := v_str (nmc_interface p)]>
  (<["type" := v_str (type_str (nmc_type p))]>
  (<["uuid" := v_str (nmc_uuid p)]>
  {[ "id" := v_str (nmc_id p) ]}))))).

Definition specific_section (p : NmConnection) : option (string * SettingsSection) :=
  match nmc_specific p with
  | TsNone => None
  | TsBond mode => Some ("bond", {[ "options" := VStrMap {[ "mode" := mode ]} ]})
  | TsBridge stp fd =>
      Some ("bridge",
        insert_some "mac-address" (VBytes <$> (nmc_mac p ≫= mac_to_bytes))
        (<["multicast-snooping" := v_bool false]>
        (insert_some "forward-delay" (v_u32 <$> fd)
        {[ "stp" := v_bool stp ]})))
  | TsVlan parent id => Some ("vlan", <["id" := v_u32 id]> {[ "parent" := v_str parent ]})
  | TsMacvlan parent mode =>
      Some ("macvlan", <["mode" := v_u32 (macvlan_mode_num mode)]> {[ "parent" := v_str parent ]})
  end.

Definition infiniband_section (p : NmConnection) : option SettingsSection :=
  match nmc_type p with
  | NmInfiniband =>
      Some (insert_some "mtu" (v_u32 <$> nmc_mtu p) {[ "transport-mode" := v_str "datagram" ]})
  | _ => None
  end.

Definition needs_eth_section (t : NmConnectionType) : bool :=
  match t with
  | NmEthernet | NmBond | NmVlan | NmBridge => true
  | NmInfiniband | NmMacvlan => false
  end.

Definition ethernet_section (p : NmConnection) : option SettingsSection :=
  if needs_eth_section (nmc_type p) then
    let cloned := if bool_decide (nmc_type p = NmBridge) then None else nmc_mac p ≫= mac_to_bytes in
    let eth := insert_some "cloned-mac-address" (VBytes <$> cloned)
                 (insert_some "mtu" (v_u32 <$> nmc_mtu p) ∅) in
    if bool_decide (nmc_type p = NmEthernet) || negb (bool_decide (eth = ∅)) then Some eth else None
  else None.

Definition vf_dict (vf : VfConfig) : gmap string Inner :=
  insert_some "vlans" ((fun vlan => IDicts [<["protocol" := SU32 0]> (<["qos" := SU32 0]>
                                     {[ "id" := SU32 vlan ]})]) <$> vf_vlan vf)
  (insert_some "trust" ((fun b => IScalar (SBool b)) <$> vf_trust vf)
  (insert_some "spoof-check" ((fun b => IScalar (SBool b)) <$> vf_spoof_check vf)
  (insert_some "mac" ((fun m => IScalar (SStr m)) <$> vf_mac vf)
  {[ "index" := IScalar (SU32 (vf_index vf)) ]}))).

Definition sriov_section (p : NmConnection) : option SettingsSection :=
  (fun n => insert_some "vfs" (unless_empty VDicts (vf_dict <$> nmc_vfs p)) {[ "total-vfs" := v_u32 n ]})
    <$> nmc_sriov_num_vfs p.

Definition to_settings_dict (p : NmConnection) : SettingsDict :=
  let base := {[ "connection" := connection_section p ]} : SettingsDict in
  let d1 := match specific_section p with Some (k, s) => <[k := s]> base | None => base end in
  <["ipv6" := ip_section_dict (nmc_ipv6 p) FamV6]>
  (<["ipv4" := ip_section_dict (nmc_ipv4 p) FamV4]>
  (insert_some "sriov" (sriov_section p)
  (insert_some "802-3-ethernet" (ethernet_section p)
  (insert_some "infiniband" (infiniband_section p) d1)))).
