(* ===== verification/NmApply.v ===== *)
(** * Applying profiles to NetworkManager (nasty-system/src/network/nm/dbus.rs)

    The diff between desired and stored connections and the best-effort pass
    that makes NetworkManager store the desired ones, then activates them.
    NetworkManager is the list of its connections in the order it reports them;
    how each D-Bus call ends is given by an environment, an error being reported
    before or after the change took effect.  What NetworkManager stores for a
    dictionary (it normalizes settings) is a parameter that keeps the
    connection's id. *)

From Stdlib Require Import ZArith Lia Ascii String.
From stdpp Require Import base list gmap strings.
From S2P Require Import Prelude.
From S2P Require Import RustStr.
From S2P Require Import RustVec.
From S2P Require Import NetConfig.
From S2P Require Import Layered.
From S2P Require Import Nm.

(** ** The stored connections *)

Record NmConn : Type := mkNmConn { cn_path : string; cn_settings : SettingsDict }.

Inductive NmEvent : Type :=
| Reapplied (device : string) (settings : SettingsDict)
| Activated (connection device : string).

Record NmState : Type := mkNmState {
  nm_conns : list NmConn;
  nm_calls : nat;              (** changing calls so far *)
  nm_events : list NmEvent;    (** activations, the latest first *)
}.

Record NmExisting : Type := mkNmExisting {
  ex_path : string;
  ex_id : string;
  ex_settings : SettingsDict;
}.

(** How the D-Bus calls of one pass end. *)
Record NmEnv : Type := mkNmEnv {
  nv_list : option string;                 (** [ListConnections] *)
  nv_read : string -> option string;       (** [GetSettings] of a path *)
  nv_call : nat -> Outcome;                (** the n-th add, update or delete *)
  nv_path : nat -> string;                 (** the path an n-th call that adds gives *)
  nv_devices : string -> result (list (string * result string string)) string;
                                           (** the devices and their interfaces, when looking for one *)
  nv_applied : string -> option SettingsDict;  (** [GetAppliedConnection] of a device *)
  nv_reapply : string -> option string;        (** [Reapply] on a device *)
  nv_activate : string -> string -> option string;
}.

Definition read_string (settings : SettingsDict) (sec key : string) : option string :=
  s ← settings !! sec;
  v ← s !! key;
  match v with VScalar (SStr x) => Some x | _ => None end.

Definition conn_id (c : NmConn) : option string := read_string (cn_settings c) "connection" "id".

Definition list_nasty_connections (env : NmEnv) (s : NmState) : result (list NmExisting) string :=
  match nv_list env with
  | Some e => Err ("list_connections: " +:+ e)
  | None =>
      Ok (omap (fun c =>
        match nv_read env (cn_path c) with
        | Some _ => None
        | None =>
            id ← conn_id c;
            if starts_with "nasty-" id then Some (mkNmExisting (cn_path c) id (cn_settings c)) else None
        end) (nm_conns s))
  end.

(** ** Differences *)

Definition section_changed (a b : option SettingsSection) : bool :=
  match a, b with
  | None, None => false
  | Some _, None | None, Some _ => true
  | Some a, Some b =>
      if negb (size a =? size b)%nat then true
      else existsb (fun kv => match b !! fst kv with
                              | None => true
                              | Some vb => negb (bool_decide (snd kv = vb))
                              end) (map_to_list a)
  end.

Definition diff_sections (a b : SettingsDict) : list string :=
  List.filter (fun s => section_changed (a !! s) (b !! s))
    (sort_by String.leb (elements (dom a ∪ dom b))).

Definition section_changed_any (a b : SettingsDict) : bool :=
  negb (bool_decide (diff_sections a b = [])).

Definition by_id (existing : list NmExisting) : gmap string NmExisting :=
  foldl (fun m e => <[ex_id e := e]> m) ∅ existing.

Record NmDiff : Type := mkNmDiff {
  df_add : list string;
  df_update : list (string * list string);
  df_delete : list string;
  df_unchanged : nat;        (** the other counts of the summary are lengths *)
}.

Definition diff_one (existing : gmap string NmExisting) (out : NmDiff) (d : NmConnection) : NmDiff :=
  match existing !! nmc_id d with
  | None => mkNmDiff (df_add out ++ [nmc_id d]) (df_update out) (df_delete out) (df_unchanged out)
  | Some e =>
      match diff_sections (to_settings_dict d) (ex_settings e) with
      | [] => mkNmDiff (df_add out) (df_update out) (df_delete out) (S (df_unchanged out))
      | changed => mkNmDiff (df_add out) (df_update out ++ [(nmc_id d, changed)]) (df_delete out)
                     (df_unchanged out)
      end
  end.

Definition compute_diff (desired : list NmConnection) (existing : list NmExisting) : NmDiff :=
  let out := foldl (diff_one (by_id existing)) (mkNmDiff [] [] [] 0) desired in
  mkNmDiff (df_add out) (df_update out)
    (ex_id <$> List.filter (fun e => negb (one_of (nmc_id <$> desired) (ex_id e))) existing)
    (df_unchanged out).

(** ** The pass *)

Record NmApplyOutcome : Type := mkNmApplyOutcome {
  ao_added : list string;
  ao_updated : list string;
  ao_deleted : list string;
  ao_unchanged : list string;
  ao_activated : list string;
  ao_errors : gmap string string;
}.

Definition NmApplyOutcome_default : NmApplyOutcome := mkNmApplyOutcome [] [] [] [] [] ∅.

Definition push_added (id : string) (o : NmApplyOutcome) : NmApplyOutcome :=
  mkNmApplyOutcome (ao_added o ++ [id]) (ao_updated o) (ao_deleted o) (ao_unchanged o) (ao_activated o) (ao_errors o).
Definition push_updated (id : string) (o : NmApplyOutcome) : NmApplyOutcome :=
  mkNmApplyOutcome (ao_added o) (ao_updated o ++ [id]) (ao_deleted o) (ao_unchanged o) (ao_activated o) (ao_errors o).
Definition push_deleted (id : string) (o : NmApplyOutcome) : NmApplyOutcome :=
  mkNmApplyOutcome (ao_added o) (ao_updated o) (ao_deleted o ++ [id]) (ao_unchanged o) (ao_activated o) (ao_errors o).
Definition push_unchanged (id : string) (o : NmApplyOutcome) : NmApplyOutcome :=
  mkNmApplyOutcome (ao_added o) (ao_updated o) (ao_deleted o) (ao_unchanged o ++ [id]) (ao_activated o) (ao_errors o).
Definition push_activated (id : string) (o : NmApplyOutcome) : NmApplyOutcome :=
  mkNmApplyOutcome (ao_added o) (ao_updated o) (ao_deleted o) (ao_unchanged o) (ao_activated o ++ [id]) (ao_errors o).
Definition push_error (id e : string) (o : NmApplyOutcome) : NmApplyOutcome :=
  mkNmApplyOutcome (ao_added o) (ao_updated o) (ao_deleted o) (ao_unchanged o) (ao_activated o) (<[id := e]> (ao_errors o)).

Section Apply.
Context (stored : SettingsDict -> SettingsDict) (env : NmEnv).

(** A changing call: its effect [f] on the list, and how it ends. *)
Definition nm_call (f : list NmConn -> list NmConn) (what : string) : stm NmState string unit := fun s =>
  let after := mkNmState (f (nm_conns s)) (S (nm_calls s)) (nm_events s) in
  match nv_call env (nm_calls s) with
  | Done => (after, Ok tt)
  | Failed true e => (after, Err (what +:+ e))
  | Failed false e => (mkNmState (nm_conns s) (S (nm_calls s)) (nm_events s), Err (what +:+ e))
  end.

Definition add_connection (d : SettingsDict) : stm NmState string string :=
  s <~ m_get ;;
  let path := nv_path env (nm_calls s) in
  nm_call (fun l => l ++ [mkNmConn path (stored d)]) "add_connection: " ;;; m_ret path.

Definition set_settings (path : string) (d : SettingsDict) (l : list NmConn) : list NmConn :=
  (fun c => if String.eqb (cn_path c) path then mkNmConn path (stored d) else c) <$> l.

Definition update_connection (path : string) (d : SettingsDict) : stm NmState string unit :=
  nm_call (set_settings path d) ("update " +:+ path +:+ ": ").

Definition remove_path (path : string) (l : list NmConn) : list NmConn :=
  List.filter (fun c => negb (String.eqb (cn_path c) path)) l.

Definition delete_connection (path : string) : stm NmState string unit :=
  nm_call (remove_path path) ("delete " +:+ path +:+ ": ").

Fixpoint find_device (iface : string) (l : list (string * result string string)) : option string :=
  match l with
  | [] => None
  | (path, Ok name) :: l' => if String.eqb name iface then Some path else find_device iface l'
  | (_, Err _) :: l' => find_device iface l'
  end.

Definition find_device_by_name (iface : string) : result (option string) string :=
  match nv_devices env iface with
  | Err e => Err ("get_devices: " +:+ e)
  | Ok l => Ok (find_device iface l)
  end.

Definition log_event (e : NmEvent) : stm NmState string unit :=
  m_modify (fun s => mkNmState (nm_conns s) (nm_calls s) (e :: nm_events s)).

Definition activate_connection (connection device : string) : stm NmState string unit :=
  match nv_activate env connection device with
  | Some e => m_throw ("activate_connection: " +:+ e)
  | None => log_event (Activated connection device)
  end.

(** A bridge that runs this very profile is changed in place. *)
Definition can_reapply (p : NmConnection) (device : string) : bool :=
  bool_decide (nmc_type p = NmBridge) && negb (String.eqb device "/") &&
  match nv_applied env device with
  | Some applied => bool_decide (read_string applied "connection" "uuid" = Some (nmc_uuid p))
  | None => false
  end && negb (bool_decide (is_Some (nv_reapply env device))).

Definition apply_connection (p : NmConnection) (connection device : string) : stm NmState string unit :=
  if can_reapply p device then log_event (Reapplied device (to_settings_dict p))
  else activate_connection connection device.

Definition activation_device (kind : NmConnectionType) (existing : option string) (iface : string)
    : result string string :=
  match existing with
  | Some device => Ok device
  | None =>
      match kind with
      | NmBridge | NmBond | NmVlan | NmMacvlan => Ok "/"
      | NmEthernet | NmInfiniband => Err ("no NM-managed device matches interface '" +:+ iface +:+ "'")
      end
  end.

(** Where a pass stands: NetworkManager, the outcome, the profiles to activate. *)
Record Pass : Type := mkPass {
  ps_state : NmState;
  ps_out : NmApplyOutcome;
  ps_targets : list (NmConnection * string);
}.

Definition target (d : NmConnection) (path : string) (l : list (NmConnection * string))
    : list (NmConnection * string) :=
  if nmc_autoconnect d then l ++ [(d, path)] else l.

Definition place_profile (existing : gmap string NmExisting) (p : Pass) (d : NmConnection) : Pass :=
  let dict := to_settings_dict d in
  match existing !! nmc_id d with
  | None =>
      match add_connection dict (ps_state p) with
      | (s, Ok path) => mkPass s (push_added (nmc_id d) (ps_out p)) (target d path (ps_targets p))
      | (s, Err e) => mkPass s (push_error (nmc_id d) e (ps_out p)) (ps_targets p)
      end
  | Some e =>
      if section_changed_any dict (ex_settings e) then
        match update_connection (ex_path e) dict (ps_state p) with
        | (s, Ok _) => mkPass s (push_updated (nmc_id d) (ps_out p)) (target d (ex_path e) (ps_targets p))
        | (s, Err err) => mkPass s (push_error (nmc_id d) err (ps_out p)) (ps_targets p)
        end
      else mkPass (ps_state p) (push_unchanged (nmc_id d) (ps_out p)) (target d (ex_path e) (ps_targets p))
  end.

Definition drop_existing (desired : list NmConnection) (p : Pass) (e : NmExisting) : Pass :=
  if one_of (nmc_id <$> desired) (ex_id e) then p
  else match delete_connection (ex_path e) (ps_state p) with
       | (s, Ok _) => mkPass s (push_deleted (ex_id e) (ps_out p)) (ps_targets p)
       | (s, Err err) => mkPass s (push_error (ex_id e) err (ps_out p)) (ps_targets p)
       end.

Definition activate_target (so : NmState * NmApplyOutcome) (t : NmConnection * string)
    : NmState * NmApplyOutcome :=
  let '(s, out) := so in
  let '(d, path) := t in
  match result_bind (find_device_by_name (nmc_interface d))
          (fun device => activation_device (nmc_type d) device (nmc_interface d)) with
  | Err e => (s, push_error (nmc_id d) e out)
  | Ok device =>
      match apply_connection d path device s with
      | (s', Ok _) => (s', push_activated (nmc_id d) out)
      | (s', Err e) => (s', push_error (nmc_id d) ("activate: " +:+ e) out)
      end
  end.

Definition apply_profiles (desired : list NmConnection) : stm NmState string NmApplyOutcome :=
  s <~ m_get ;;
  existing <~ m_lift (list_nasty_connections env s) ;;
  fun s =>
    let p1 := foldl (place_profile (by_id existing)) (mkPass s NmApplyOutcome_default []) desired in
    let p2 := foldl (drop_existing desired) p1 existing in
    let '(s', out) := foldl activate_target (ps_state p2, ps_out p2) (ps_targets p2) in
    (s', Ok out).

End Apply.
