(* ===== verification/NmProps.v ===== *)
(** * What applying profiles guarantees

    Connections the engine does not own are never touched, whatever calls fail;
    a pass without errors leaves exactly the desired profiles stored. *)

From Stdlib Require Import ZArith Lia Ascii String.
From stdpp Require Import base list gmap strings.
From S2P Require Import Prelude.
From S2P Require Import RustStr.
From S2P Require Import RustVec.
From S2P Require Import NetConfig.
From S2P Require Import Layered.
From S2P Require Import Nm.
From S2P Require Import NmApply.

Definition is_nasty (c : NmConn) : bool :=
  match conn_id c with Some id => starts_with "nasty-" id | None => false end.

Definition foreign (s : NmState) : list NmConn := List.filter (fun c => negb (is_nasty c)) (nm_conns s).
Definition nasty_ids (s : NmState) : list string := omap conn_id (List.filter is_nasty (nm_conns s)).

(** What the library relies on of NetworkManager: it keeps a connection's id. *)
Class KeepsId (stored : SettingsDict -> SettingsDict) : Prop :=
  stored_id d : read_string (stored d) "connection" "id" = read_string d "connection" "id".

Definition managed (d : NmConnection) : Prop := starts_with "nasty-" (nmc_id d) = true.

(** ** Dictionaries *)

Lemma section_changed_false a b : section_changed a b = false <-> a = b.
Proof.
  destruct a as [a|], b as [b|]; simpl; try done. destruct (Nat.eqb_spec (size a) (size b)) as [Hs|Hs]; simpl.
  - rewrite existsb_false_elem. split.
    + intros H. f_equal. apply map_subseteq_size_eq; [|lia]. apply map_subseteq_spec. intros k v Hk.
      specialize (H (k, v)). rewrite elem_of_map_to_list in H. specialize (H Hk). simpl in H.
      destruct (b !! k); [|done]. apply negb_false_iff, bool_decide_eq_true in H. by subst.
    + intros [= ->] [k v] Hk%elem_of_map_to_list. simpl. rewrite Hk. by rewrite bool_decide_true.
  - split; [done|]. intros [= ->]. done.
Qed.

Lemma diff_sections_nil a b : diff_sections a b = [] <-> a = b.
Proof.
  unfold diff_sections. change (List.filter ?p ?l) with (retain p l). split.
  - intros H. apply map_eq. intros k. apply section_changed_false.
    destruct (section_changed (a !! k) (b !! k)) eqn:E; [|done]. exfalso.
    apply (not_elem_of_nil k). rewrite <- H, elem_of_retain, elem_of_sort_by, elem_of_elements.
    split; [|done]. rewrite elem_of_union, !elem_of_dom.
    destruct (a !! k), (b !! k); [left|left|right|]; try (by eexists). done.
  - intros ->. apply elem_of_nil_inv. intros k [_ H]%elem_of_retain.
    pose proof (section_changed_false (b !! k) (b !! k)) as [_ Hf]. by rewrite Hf in H.
Qed.

Lemma section_changed_any_false a b : section_changed_any a b = false <-> a = b.
Proof. unfold section_changed_any. by rewrite negb_false_iff, bool_decide_eq_true, diff_sections_nil. Qed.

Lemma insert_some_ne {A} k k' (o : option A) (m : gmap string A) :
  k <> k' -> insert_some k o m !! k' = m !! k'.
Proof. intros. destruct o; simpl; [by apply lookup_insert_ne|done]. Qed.

Lemma dict_connection p : to_settings_dict p !! "connection" = Some (connection_section p).
Proof.
  unfold to_settings_dict. rewrite !lookup_insert_ne, !insert_some_ne by done.
  unfold specific_section. destruct (nmc_specific p); rewrite ?lookup_insert_ne by done; by apply lookup_singleton_eq.
Qed.

Lemma dict_id p : read_string (to_settings_dict p) "connection" "id" = Some (nmc_id p).
Proof.
  unfold read_string. rewrite dict_connection. simpl. unfold connection_section.
  by rewrite !insert_some_ne, !lookup_insert_ne, lookup_singleton_eq by done.
Qed.

(** ** Connections of others *)

Section Foreign.
Context (stored : SettingsDict -> SettingsDict) `{!KeepsId stored} (env : NmEnv).

Lemma stored_conn_id path p : conn_id (mkNmConn path (stored (to_settings_dict p))) = Some (nmc_id p).
Proof. unfold conn_id. simpl. by rewrite stored_id, dict_id. Qed.

Lemma stored_nasty path p : managed p -> is_nasty (mkNmConn path (stored (to_settings_dict p))) = true.
Proof. unfold is_nasty. by rewrite stored_conn_id. Qed.

Abbreviation others l := (List.filter (fun c => negb (is_nasty c)) l).

Lemma others_add l path p : managed p -> others (l ++ [mkNmConn path (stored (to_settings_dict p))]) = others l.
Proof. intros H. rewrite List.filter_app. simpl. rewrite (stored_nasty _ _ H). simpl. apply app_nil_r. Qed.

Lemma others_set l path p :
  managed p -> path ∉ (cn_path <$> others l) ->
  others (set_settings stored path (to_settings_dict p) l) = others l.
Proof.
  intros Hp. unfold set_settings. induction l as [|c l IH]; [done|]. simpl. intros Hn.
  destruct (String.eqb_spec (cn_path c) path) as [<-|Hc]; simpl.
  - rewrite (stored_nasty _ _ Hp). simpl. destruct (is_nasty c) eqn:E; simpl in *; [by apply IH|set_solver].
  - destruct (is_nasty c) eqn:E; simpl in *; [by apply IH|]. f_equal. apply IH. set_solver.
Qed.

Lemma others_remove l path : path ∉ (cn_path <$> others l) -> others (remove_path path l) = others l.
Proof.
  unfold remove_path. induction l as [|c l IH]; [done|]. simpl. intros Hn.
  destruct (String.eqb_spec (cn_path c) path) as [<-|Hc]; simpl; destruct (is_nasty c) eqn:E; simpl in *.
  - by apply IH.
  - set_solver.
  - by apply IH.
  - f_equal. apply IH. set_solver.
Qed.

(** A changing call that would keep the others keeps them also when it fails. *)
Lemma nm_call_others f what s :
  others (f (nm_conns s)) = foreign s -> foreign (fst (nm_call env f what s)) = foreign s.
Proof. unfold nm_call. by destruct (nv_call env (nm_calls s)) as [|[] e]. Qed.

Context (conns0 : list NmConn) (Hpaths : NoDup (cn_path <$> conns0)).

(** A connection of ours, as it was listed. *)
Definition listed (e : NmExisting) : Prop :=
  exists c, c ∈ conns0 /\ ex_path e = cn_path c /\ conn_id c = Some (ex_id e) /\
            ex_settings e = cn_settings c /\ is_nasty c = true.

Lemma listed_not_other e : listed e -> ex_path e ∉ (cn_path <$> others conns0).
Proof.
  intros (c & Hc & -> & _ & _ & Hn) (c' & Heq & Hc')%list_elem_of_fmap.
  apply list_elem_of_In, filter_In in Hc' as [Hc' Hf]. apply list_elem_of_In in Hc'.
  apply list_elem_of_lookup in Hc as [i Hi], Hc' as [j Hj].
  assert (i = j) as <-.
  { eapply NoDup_lookup; [exact Hpaths| |]; rewrite list_lookup_fmap; [by rewrite Hi|by rewrite Hj, Heq]. }
  simplify_eq. by rewrite Hn in Hf.
Qed.

Definition same_others (s : NmState) : Prop := foreign s = others conns0.

Lemma place_others m p d :
  managed d -> map_Forall (fun _ e => listed e) m ->
  same_others (ps_state p) -> same_others (ps_state (place_profile stored env m p d)).
Proof.
  intros Hd Hm Hs. unfold place_profile. destruct (m !! nmc_id d) as [e|] eqn:Ee.
  - destruct (section_changed_any _ _); [|done].
    pose proof (nm_call_others (set_settings stored (ex_path e) (to_settings_dict d))
      ("update " +:+ ex_path e +:+ ": ") (ps_state p)) as H.
    unfold update_connection. destruct (nm_call _ _ _ _) as [s []]; simpl in *; unfold same_others;
      (rewrite H; [done|apply others_set; [done|]]);
      fold (foreign (ps_state p)); rewrite Hs; apply listed_not_other; eapply Hm; eauto.
  - unfold add_connection, m_bind, m_get. simpl.
    pose proof (nm_call_others (fun l => l ++ [mkNmConn (nv_path env (nm_calls (ps_state p)))
      (stored (to_settings_dict d))]) "add_connection: " (ps_state p)) as H.
    destruct (nm_call _ _ _ _) as [s []]; simpl in *; unfold same_others; (rewrite H; [done|by apply others_add]).
Qed.

Lemma drop_others desired p e :
  listed e -> same_others (ps_state p) -> same_others (ps_state (drop_existing env desired p e)).
Proof.
  intros He Hs. unfold drop_existing. destruct (one_of _ _); [done|].
  pose proof (nm_call_others (remove_path (ex_path e)) ("delete " +:+ ex_path e +:+ ": ") (ps_state p)) as H.
  unfold delete_connection. destruct (nm_call _ _ _ _) as [s []]; simpl in *; unfold same_others;
    (rewrite H; [done|]); apply others_remove; fold (foreign (ps_state p)); rewrite Hs; by apply listed_not_other.
Qed.
End Foreign.

(** ** Activation does not change what is stored *)

Lemma activate_conns env so t : nm_conns (fst (activate_target env so t)) = nm_conns (fst so).
Proof.
  destruct so as [s out], t as [d path]. unfold activate_target.
  destruct (result_bind _ _) as [device|e]; [|done]. unfold apply_connection, activate_connection, log_event.
  destruct (can_reapply _ _ _); [done|]. by destruct (nv_activate _ _ _).
Qed.

Lemma activate_all_conns env ts so : nm_conns (fst (foldl (activate_target env) so ts)) = nm_conns (fst so).
Proof. revert so. induction ts as [|t ts IH]; intros so; simpl; [done|]. by rewrite IH, activate_conns. Qed.

Lemma foldl_inv {A B} (P : A -> Prop) (f : A -> B -> A) (Q : B -> Prop) l a :
  (forall a b, Q b -> P a -> P (f a b)) -> Forall Q l -> P a -> P (foldl f a l).
Proof. intros Hf Hl. revert a. induction Hl; simpl; auto. Qed.

Lemma list_nasty_listed env s l :
  list_nasty_connections env s = Ok l -> Forall (listed (nm_conns s)) l.
Proof.
  unfold list_nasty_connections. destruct (nv_list env); [done|]. intros [= <-].
  apply Forall_forall. intros e (c & Hc & He)%list_elem_of_omap.
  destruct (nv_read _ _); [done|]. apply bind_Some in He as (id & Hid & He).
  destruct (starts_with "nasty-" id) eqn:Es; [|done]. injection He as <-.
  exists c. unfold is_nasty. by rewrite Hid.
Qed.

Lemma by_id_elem l id e : by_id l !! id = Some e -> e ∈ l /\ ex_id e = id.
Proof.
  unfold by_id. induction l as [|x l IH] using rev_ind; [simpl; by rewrite lookup_empty|].
  rewrite foldl_app. simpl. destruct (decide (ex_id x = id)) as [<-|Hne].
  - rewrite lookup_insert_eq. intros [= <-]. set_solver.
  - rewrite lookup_insert_ne by done. set_solver.
Qed.

Lemma apply_profiles_unfold stored env desired s existing :
  list_nasty_connections env s = Ok existing ->
  let p1 := foldl (place_profile stored env (by_id existing)) (mkPass s NmApplyOutcome_default []) desired in
  let p2 := foldl (drop_existing env desired) p1 existing in
  let so := foldl (activate_target env) (ps_state p2, ps_out p2) (ps_targets p2) in
  apply_profiles stored env desired s = (fst so, Ok (snd so)).
Proof.
  intros H. unfold apply_profiles, m_bind, m_get, m_lift. rewrite H. simpl.
  by destruct (foldl (activate_target env) _ _).
Qed.

(** Applying profiles never touches connections the engine does not own:
    whatever D-Bus calls fail, and whether a failed call took effect or not,
    the connections whose id does not start with nasty- are afterwards the same
    ones, in the same order and with the same settings. *)
Theorem nm_apply_spares_foreign stored env desired s :
  KeepsId stored -> NoDup (cn_path <$> nm_conns s) -> Forall managed desired ->
  foreign (fst (apply_profiles stored env desired s)) = foreign s.
Proof.
  intros Hk Hp Hd. destruct (list_nasty_connections env s) as [existing|e] eqn:El.
  2: { unfold apply_profiles, m_bind, m_get, m_lift. by rewrite El. }
  rewrite (apply_profiles_unfold _ _ _ _ _ El). unfold foreign. cbn [fst]. rewrite activate_all_conns.
  pose proof (list_nasty_listed _ _ _ El) as Hl. cbn [fst].
  apply (foldl_inv (fun p => same_others (nm_conns s) (ps_state p)) _ (listed (nm_conns s)));
    [intros; by apply (drop_others stored)|done|].
  apply (foldl_inv (fun p => same_others (nm_conns s) (ps_state p)) _ managed); [|done|done].
  intros p d Hm. apply place_others; [done..|]. intros id e [He _]%by_id_elem.
  rewrite Forall_forall in Hl. by apply Hl.
Qed.

(** ** A pass without errors *)

(** What becomes of a connection found by the pass once [ds] are placed. *)
Definition touch (stored : SettingsDict -> SettingsDict) (ds : list NmConnection) (c : NmConn) : NmConn :=
  if is_nasty c then
    match find_first (fun d => bool_decide (conn_id c = Some (nmc_id d))) ds with
    | Some d => if section_changed_any (to_settings_dict d) (cn_settings c)
                then mkNmConn (cn_path c) (stored (to_settings_dict d)) else c
    | None => c
    end
  else c.

Lemma touch_path stored ds c : cn_path (touch stored ds c) = cn_path c.
Proof. unfold touch. repeat case_match; done. Qed.

Section Converge.
Context (stored : SettingsDict -> SettingsDict) `{!KeepsId stored} (env : NmEnv).
Context (s0 : NmState) (Hpaths : NoDup (cn_path <$> nm_conns s0)) (Hids : NoDup (nasty_ids s0)).
Context (Hread : forall c, c ∈ nm_conns s0 -> nv_read env (cn_path c) = None).
Context (Hfresh : forall n, nv_path env n ∉ (cn_path <$> nm_conns s0)).
Context (existing : list NmExisting) (Hlist : list_nasty_connections env s0 = Ok existing).

Lemma existing_ids : ex_id <$> existing = nasty_ids s0.
Proof.
  revert Hlist Hread. unfold list_nasty_connections, nasty_ids. destruct (nv_list env); [done|]. intros [= <-].
  generalize (nm_conns s0). intros l. induction l as [|c l IH]; intros Hr; [done|]. simpl.
  rewrite (Hr c) by set_solver. unfold is_nasty at 1.
  destruct (conn_id c) as [id|] eqn:Ec; simpl; [|apply IH; set_solver].
  destruct (starts_with "nasty-" id); simpl; [rewrite Ec; f_equal|]; apply IH; set_solver.
Qed.

Lemma existing_conn c id :
  c ∈ nm_conns s0 -> is_nasty c = true -> conn_id c = Some id ->
  mkNmExisting (cn_path c) id (cn_settings c) ∈ existing.
Proof.
  revert Hlist. unfold list_nasty_connections. destruct (nv_list env); [done|]. intros [= <-] Hc Hn Hid.
  apply list_elem_of_omap. exists c. split; [done|]. rewrite (Hread _ Hc), Hid. simpl.
  unfold is_nasty in Hn. rewrite Hid in Hn. by rewrite Hn.
Qed.

Lemma NoDup_fmap_eq {A B} (f : A -> B) (l : list A) x y :
  NoDup (f <$> l) -> x ∈ l -> y ∈ l -> f x = f y -> x = y.
Proof.
  intros Hn [i Hi]%list_elem_of_lookup [j Hj]%list_elem_of_lookup He.
  assert (i = j) as <-; [|by simplify_eq].
  eapply NoDup_lookup; [exact Hn| |]; rewrite list_lookup_fmap; [by rewrite Hi|by rewrite Hj, He].
Qed.

Lemma existing_nodup : NoDup (ex_id <$> existing).
Proof. by rewrite existing_ids. Qed.

(** The one connection of ours with the id. *)
Lemma existing_unique e c :
  e ∈ existing -> c ∈ nm_conns s0 -> is_nasty c = true -> conn_id c = Some (ex_id e) ->
  e = mkNmExisting (cn_path c) (ex_id e) (cn_settings c).
Proof.
  intros He Hc Hn Hid. eapply (NoDup_fmap_eq ex_id existing); [apply existing_nodup|done|by apply existing_conn|done].
Qed.

Lemma by_id_none id c :
  by_id existing !! id = None -> c ∈ nm_conns s0 -> is_nasty c = true -> conn_id c <> Some id.
Proof.
  intros Hb Hc Hn Hid. pose proof (existing_conn _ _ Hc Hn Hid) as He. revert Hb He. clear.
  unfold by_id. induction existing as [|x l IH] using rev_ind; [set_solver|].
  rewrite foldl_app. simpl. destruct (decide (ex_id x = id)) as [<-|Hne]; [by rewrite lookup_insert_eq|].
  rewrite lookup_insert_ne by done. intros Hb [He|He]%elem_of_app; [by apply IH|].
  apply list_elem_of_singleton in He. by subst.
Qed.

Definition is_new (d : NmConnection) : bool := bool_decide (by_id existing !! nmc_id d = None).

(** The list after [ds] are placed: each connection touched, the new ones behind. *)
Definition placed (ds : list NmConnection) (l : list NmConn) : Prop :=
  exists adds, l = (touch stored ds <$> nm_conns s0) ++ adds /\
    Forall (fun c => cn_path c ∉ (cn_path <$> nm_conns s0)) adds /\
    Forall2 (fun c d => cn_settings c = stored (to_settings_dict d)) adds (List.filter is_new ds).

Lemma find_first_snoc {A} (p : A -> bool) l x :
  find_first p (l ++ [x]) = match find_first p l with Some y => Some y | None => if p x then Some x else None end.
Proof. induction l as [|y l IH]; simpl; [done|]. by destruct (p y). Qed.

Lemma touch_snoc_other ds d c :
  (is_nasty c = true -> conn_id c <> Some (nmc_id d)) -> touch stored (ds ++ [d]) c = touch stored ds c.
Proof.
  intros H. unfold touch. destruct (is_nasty c); [|done]. rewrite find_first_snoc.
  destruct (find_first _ ds); [done|]. rewrite bool_decide_false; [done|by apply H].
Qed.

Lemma touch_snoc_this ds d c :
  nmc_id d ∉ (nmc_id <$> ds) -> is_nasty c = true -> conn_id c = Some (nmc_id d) ->
  touch stored (ds ++ [d]) c = (if section_changed_any (to_settings_dict d) (cn_settings c)
                                then mkNmConn (cn_path c) (stored (to_settings_dict d)) else c).
Proof.
  intros Hd Hn Hid. unfold touch. rewrite Hn, find_first_snoc.
  destruct (find_first _ ds) as [d'|] eqn:E; [|by rewrite bool_decide_true].
  apply find_first_Some in E as [Hd' Hp]. apply bool_decide_eq_true in Hp. exfalso. apply Hd.
  apply list_elem_of_fmap. exists d'. split; [congruence|done].
Qed.

Lemma placed_new ds d l path :
  placed ds l -> by_id existing !! nmc_id d = None -> path ∉ (cn_path <$> nm_conns s0) ->
  placed (ds ++ [d]) (l ++ [mkNmConn path (stored (to_settings_dict d))]).
Proof.
  intros (adds & -> & Hp & Ha) Hb Hf. exists (adds ++ [mkNmConn path (stored (to_settings_dict d))]).
  split_and!.
  - rewrite <- app_assoc. f_equal. apply list_fmap_ext. intros i c Hc%list_elem_of_lookup_2.
    symmetry. apply touch_snoc_other. intros Hn. by apply by_id_none.
  - apply Forall_app. split; [done|by constructor].
  - rewrite List.filter_app. apply Forall2_app; [done|]. simpl. unfold is_new. rewrite bool_decide_true by done.
    by repeat constructor.
Qed.

Lemma placed_unchanged ds d l e :
  placed ds l -> nmc_id d ∉ (nmc_id <$> ds) -> by_id existing !! nmc_id d = Some e ->
  section_changed_any (to_settings_dict d) (ex_settings e) = false -> placed (ds ++ [d]) l.
Proof.
  intros (adds & -> & Hp & Ha) Hd Hb Hc. pose proof (by_id_elem _ _ _ Hb) as [He Hid].
  exists adds. split_and!; [|done|].
  - f_equal. apply list_fmap_ext. intros i c Hi%list_elem_of_lookup_2. symmetry.
    destruct (is_nasty c) eqn:En; [|apply touch_snoc_other; congruence].
    destruct (decide (conn_id c = Some (nmc_id d))) as [Hcid|Hcid]; [|by apply touch_snoc_other].
    rewrite touch_snoc_this by done. rewrite <- Hid in Hcid.
    pose proof (existing_unique _ _ He Hi En Hcid) as Heq. rewrite Heq in Hc. simpl in Hc. rewrite Hc.
    unfold touch. rewrite En. destruct (find_first _ ds) as [d'|] eqn:E; [|done].
    apply find_first_Some in E as [Hd' Hp']. apply bool_decide_eq_true in Hp'. exfalso. apply Hd.
    apply list_elem_of_fmap. exists d'. split; [congruence|done].
  - rewrite List.filter_app. simpl. unfold is_new at 2. rewrite bool_decide_false by congruence. by rewrite app_nil_r.
Qed.

Lemma placed_updated ds d l e :
  placed ds l -> nmc_id d ∉ (nmc_id <$> ds) -> by_id existing !! nmc_id d = Some e ->
  section_changed_any (to_settings_dict d) (ex_settings e) = true ->
  placed (ds ++ [d]) (set_settings stored (ex_path e) (to_settings_dict d) l).
Proof.
  intros (adds & -> & Hp & Ha) Hd Hb Hc. pose proof (by_id_elem _ _ _ Hb) as [He Hid].
  pose proof (list_nasty_listed _ _ _ Hlist) as Hl. rewrite Forall_forall in Hl.
  destruct (Hl e He) as (ce & Hce & Hpath & Hcid & Hset & Hn). rewrite Hid in Hcid.
  exists adds. unfold set_settings. rewrite fmap_app. split_and!; [f_equal| |].
  - rewrite <- list_fmap_compose. apply list_fmap_ext. intros i c Hi%list_elem_of_lookup_2. unfold compose.
    rewrite touch_path. destruct (String.eqb_spec (cn_path c) (ex_path e)) as [Hq|Hq].
    + assert (c = ce) as -> by (eapply NoDup_fmap_eq; [exact Hpaths|done|done|congruence]).
      rewrite touch_snoc_this by done. by rewrite <- Hset, Hc, Hpath.
    + symmetry. apply touch_snoc_other. intros Hnc Hidc. apply Hq.
      rewrite <- Hid in Hidc. rewrite (existing_unique _ _ He Hi Hnc Hidc). done.
  - rewrite <- (list_fmap_id adds) at 2. apply list_fmap_ext. intros i c Hi%list_elem_of_lookup_2.
    rewrite Forall_forall in Hp. specialize (Hp c Hi). destruct (String.eqb_spec (cn_path c) (ex_path e)) as [Hq|]; [|done].
    exfalso. apply Hp. rewrite Hq, Hpath. by apply list_elem_of_fmap_2.
  - done.
  - rewrite List.filter_app. simpl. unfold is_new at 2. rewrite bool_decide_false by congruence. by rewrite app_nil_r.
Qed.

Lemma push_error_empty id e o : ao_errors (push_error id e o) <> ∅.
Proof. simpl. apply insert_non_empty. Qed.

(** A changing call that reports no error took effect. *)
Lemma nm_call_ok f what s s' :
  nm_call env f what s = (s', Ok tt) -> nm_conns s' = f (nm_conns s).
Proof. unfold nm_call. destruct (nv_call _ _) as [|[] e]; intros [= <-]; done. Qed.

Lemma place_profile_ok ds p d :
  nmc_id d ∉ (nmc_id <$> ds) -> placed ds (nm_conns (ps_state p)) ->
  ao_errors (ps_out (place_profile stored env (by_id existing) p d)) = ∅ ->
  placed (ds ++ [d]) (nm_conns (ps_state (place_profile stored env (by_id existing) p d))).
Proof.
  intros Hd Hp. unfold place_profile. destruct (by_id existing !! nmc_id d) as [e|] eqn:Eb.
  - destruct (section_changed_any _ _) eqn:Ec; [|intros _; by eapply placed_unchanged].
    unfold update_connection. destruct (nm_call _ _ _ _) as [s [[]|err]] eqn:E; [|by intros ?%push_error_empty].
    intros _. simpl. rewrite (nm_call_ok _ _ _ _ E). by eapply placed_updated.
  - unfold add_connection, m_bind, m_get. destruct (nm_call _ _ _ _) as [s [[]|err]] eqn:E; [|by intros ?%push_error_empty].
    intros _. simpl. rewrite (nm_call_ok _ _ _ _ E). apply placed_new; [done..|]. apply Hfresh.
Qed.

Lemma place_profile_errors m p d : ao_errors (ps_out (place_profile stored env m p d)) = ∅ -> ao_errors (ps_out p) = ∅.
Proof. unfold place_profile. repeat case_match; simpl; try done; by intros ?%insert_non_empty. Qed.

Lemma place_all_ok ds p0 :
  NoDup (nmc_id <$> ds) -> placed [] (nm_conns (ps_state p0)) ->
  let p1 := foldl (place_profile stored env (by_id existing)) p0 ds in
  ao_errors (ps_out p1) = ∅ -> placed ds (nm_conns (ps_state p1)).
Proof.
  intros Hn H0. induction ds as [|d ds IH] using rev_ind; [done|]. rewrite foldl_app. simpl. intros He.
  rewrite fmap_app in Hn. apply NoDup_app in Hn as (Hn & Hdis & _).
  apply place_profile_ok; [|apply IH; [done|by eapply place_profile_errors]|done].
  intros Hin. apply (Hdis _ Hin). simpl. set_solver.
Qed.

(** The connections the second phase leaves. *)
Definition kept_path (desired : list NmConnection) (es : list NmExisting) (c : NmConn) : bool :=
  negb (existsb (fun e => negb (one_of (nmc_id <$> desired) (ex_id e)) && String.eqb (cn_path c) (ex_path e)) es).

Lemma drop_existing_errors desired p e : ao_errors (ps_out (drop_existing env desired p e)) = ∅ -> ao_errors (ps_out p) = ∅.
Proof. unfold drop_existing. repeat case_match; simpl; try done; by intros ?%insert_non_empty. Qed.

Lemma drop_existing_ok desired p e :
  ao_errors (ps_out (drop_existing env desired p e)) = ∅ ->
  nm_conns (ps_state (drop_existing env desired p e)) = List.filter (kept_path desired [e]) (nm_conns (ps_state p)).
Proof.
  unfold drop_existing, kept_path. simpl. destruct (one_of _ _) eqn:E; simpl.
  - intros _. symmetry. by apply retain_all.
  - unfold delete_connection. destruct (nm_call _ _ _ _) as [s [[]|err]] eqn:Ec; [|by intros ?%push_error_empty].
    intros _. simpl. rewrite (nm_call_ok _ _ _ _ Ec). unfold remove_path. apply filter_ext. intros c.
    by rewrite orb_false_r.
Qed.

Lemma filter_filter {A} (p q : A -> bool) (l : list A) :
  List.filter p (List.filter q l) = List.filter (fun x => q x && p x) l.
Proof.
  induction l as [|x l IH]; simpl; [done|]. destruct (q x); simpl; [destruct (p x)|]; by rewrite IH.
Qed.

Lemma drop_all_ok desired p1 es :
  let p2 := foldl (drop_existing env desired) p1 es in
  ao_errors (ps_out p2) = ∅ ->
  nm_conns (ps_state p2) = List.filter (kept_path desired es) (nm_conns (ps_state p1)).
Proof.
  induction es as [|e es IH] using rev_ind; simpl.
  - intros _. symmetry. by apply retain_all.
  - rewrite foldl_app. simpl. intros He. rewrite (drop_existing_ok _ _ _ He), IH by (by eapply drop_existing_errors).
    rewrite filter_filter. apply filter_ext. intros c. unfold kept_path. rewrite existsb_app, negb_orb. done.
Qed.

Context (desired : list NmConnection) (Hdids : NoDup (nmc_id <$> desired)) (Hman : Forall managed desired).

Lemma touch_conn_id ds c : conn_id (touch stored ds c) = conn_id c.
Proof.
  unfold touch. destruct (is_nasty c); [|done]. destruct (find_first _ ds) as [d|] eqn:E; [|done].
  apply find_first_Some in E as [_ E%bool_decide_eq_true]. destruct (section_changed_any _ _); [|done].
  rewrite stored_conn_id by done. done.
Qed.

Lemma touch_is_nasty ds c : is_nasty (touch stored ds c) = is_nasty c.
Proof. unfold is_nasty. by rewrite touch_conn_id. Qed.

Lemma kept_path_spec c :
  c ∈ nm_conns s0 ->
  kept_path desired existing c =
  (negb (is_nasty c) || from_option (one_of (nmc_id <$> desired)) false (conn_id c)).
Proof.
  intros Hc. unfold kept_path. apply Bool.eq_iff_eq_true. rewrite negb_true_iff, existsb_false_elem.
  pose proof (list_nasty_listed _ _ _ Hlist) as Hl. rewrite Forall_forall in Hl. split.
  - intros H. destruct (is_nasty c) eqn:En; [|done]. simpl. assert (exists id, conn_id c = Some id) as [id Hid].
    { unfold is_nasty in En. destruct (conn_id c); [by eexists|done]. }
    specialize (H _ (existing_conn _ _ Hc En Hid)). rewrite Hid. simpl in *.
    rewrite String.eqb_refl, andb_true_r in H. by apply negb_false_iff in H.
  - intros H e He. destruct (String.eqb_spec (cn_path c) (ex_path e)) as [Hq|]; [|by rewrite andb_false_r].
    destruct (Hl e He) as (ce & Hce & Hpath & Hcid & _ & Hn).
    assert (c = ce) as -> by (eapply NoDup_fmap_eq; [exact Hpaths|done|done|congruence]).
    rewrite Hn, Hcid in H. simpl in H. by rewrite H.
Qed.

Lemma kept_ids l :
  (forall c, c ∈ l -> c ∈ nm_conns s0) ->
  omap conn_id (List.filter is_nasty (List.filter (kept_path desired existing) (touch stored desired <$> l))) =
  List.filter (one_of (nmc_id <$> desired)) (omap conn_id (List.filter is_nasty l)).
Proof.
  induction l as [|c l IH]; intros Hl; [done|]. simpl.
  assert (kept_path desired existing (touch stored desired c) = kept_path desired existing c) as ->
    by (unfold kept_path; by rewrite touch_path).
  rewrite (kept_path_spec c) by (apply Hl; set_solver).
  destruct (is_nasty c) eqn:En; simpl; [|rewrite touch_is_nasty, En; apply IH; set_solver].
  unfold is_nasty in En. destruct (conn_id c) as [id|] eqn:Ei; [|done]. simpl.
  destruct (one_of _ id) eqn:Eo; [|apply IH; set_solver]. simpl.
  rewrite touch_is_nasty. unfold is_nasty at 1. rewrite Ei, En. simpl. rewrite touch_conn_id, Ei.
  f_equal. apply IH. set_solver.
Qed.

Lemma kept_added adds :
  Forall (fun c => cn_path c ∉ (cn_path <$> nm_conns s0)) adds ->
  List.filter (kept_path desired existing) adds = adds.
Proof.
  intros Ha. apply retain_all. intros c Hc. rewrite Forall_forall in Ha. specialize (Ha c Hc).
  unfold kept_path. apply negb_true_iff, existsb_false_elem. intros e He.
  pose proof (list_nasty_listed _ _ _ Hlist) as Hl. rewrite Forall_forall in Hl.
  destruct (Hl e He) as (ce & Hce & Hpath & _).
  destruct (String.eqb_spec (cn_path c) (ex_path e)) as [Hq|]; [|by rewrite andb_false_r].
  exfalso. apply Ha. rewrite Hq, Hpath. by apply list_elem_of_fmap_2.
Qed.

Lemma added_ids adds ds :
  Forall managed ds -> Forall2 (fun c d => cn_settings c = stored (to_settings_dict d)) adds ds ->
  omap conn_id (List.filter is_nasty adds) = nmc_id <$> ds.
Proof.
  intros Hm H. induction H as [|c d adds ds Hc H IH]; [done|]. apply Forall_cons in Hm as [Hd Hm].
  assert (conn_id c = Some (nmc_id d)) as Hid by (unfold conn_id; by rewrite Hc, stored_id, dict_id).
  simpl. unfold is_nasty at 1. rewrite Hid, Hd. simpl. rewrite Hid. f_equal. by apply IH.
Qed.

Lemma is_new_spec d : is_new d = negb (one_of (nasty_ids s0) (nmc_id d)).
Proof.
  rewrite <- existing_ids. unfold is_new. apply Bool.eq_iff_eq_true. rewrite bool_decide_eq_true, negb_true_iff.
  rewrite <- not_true_iff_false, one_of_spec. split.
  - intros Hb (e & He & Hin)%list_elem_of_fmap. pose proof (list_nasty_listed _ _ _ Hlist) as Hl.
    rewrite Forall_forall in Hl. destruct (Hl e Hin) as (c & Hc & _ & Hcid & _ & Hn).
    eapply (by_id_none _ c Hb); [done..|congruence].
  - intros Hn. destruct (by_id existing !! nmc_id d) as [e|] eqn:Eb; [|done]. exfalso. apply Hn.
    apply by_id_elem in Eb as [He <-]. by apply list_elem_of_fmap_2.
Qed.

(** The ids kept and those added are the ids desired. *)
Lemma ids_partition :
  List.filter (one_of (nmc_id <$> desired)) (nasty_ids s0) ++ (nmc_id <$> List.filter is_new desired)
  ≡ₚ nmc_id <$> desired.
Proof.
  change (List.filter (one_of (nmc_id <$> desired)) (nasty_ids s0)) with (retain (one_of (nmc_id <$> desired)) (nasty_ids s0)).
  change (List.filter is_new desired) with (retain is_new desired).
  apply NoDup_Permutation; [|done|].
  - apply NoDup_app. split_and!.
    + eapply sublist_NoDup; [exact Hids|apply retain_sublist].
    + intros id [Hin _]%elem_of_retain (d & -> & [Hd Hw]%elem_of_retain)%list_elem_of_fmap.
      rewrite is_new_spec in Hw. apply negb_true_iff, not_true_iff_false in Hw. by rewrite one_of_spec in Hw.
    + by apply NoDup_map_retain.
  - intros id. rewrite elem_of_app, elem_of_retain, one_of_spec, !list_elem_of_fmap. split.
    + intros [[_ H]|(d & -> & [Hd _]%elem_of_retain)]; [done|by exists d].
    + intros (d & -> & Hd). destruct (one_of (nasty_ids s0) (nmc_id d)) eqn:E.
      * left. rewrite one_of_spec in E. split; [done|]. by exists d.
      * right. exists d. split; [done|]. rewrite elem_of_retain, is_new_spec, E. done.
Qed.

Lemma final_settings adds c d :
  Forall2 (fun c d => cn_settings c = stored (to_settings_dict d)) adds (List.filter is_new desired) ->
  c ∈ (touch stored desired <$> nm_conns s0) ++ adds -> d ∈ desired -> conn_id c = Some (nmc_id d) ->
  cn_settings c = to_settings_dict d \/ cn_settings c = stored (to_settings_dict d).
Proof.
  intros Ha Hc Hd Hid. apply elem_of_app in Hc as [(c0 & -> & Hc0)%list_elem_of_fmap|Hc].
  - rewrite touch_conn_id in Hid. unfold touch, is_nasty. rewrite Hid.
    rewrite Forall_forall in Hman. rewrite (Hman d Hd).
    destruct (find_first _ desired) as [d'|] eqn:E.
    + apply find_first_Some in E as [Hd' E%bool_decide_eq_true].
      assert (d' = d) as -> by (eapply (NoDup_fmap_eq nmc_id desired); [done..|congruence]).
      destruct (section_changed_any _ _) eqn:Ec; [by right|]. left. by apply section_changed_any_false in Ec.
    + rewrite find_first_None in E. specialize (E d Hd). apply bool_decide_eq_false in E. congruence.
  - apply list_elem_of_lookup in Hc as [i Hi]. destruct (Forall2_lookup_l _ _ _ _ _ Ha Hi) as (d' & Hi' & Hset).
    apply list_elem_of_lookup_2, list_elem_of_In, filter_In in Hi' as [Hd'%list_elem_of_In _].
    assert (d' = d) as ->; [|by right].
    eapply (NoDup_fmap_eq nmc_id desired); [done..|].
    unfold conn_id in Hid. rewrite Hset, stored_id, dict_id in Hid. congruence.
Qed.

Lemma activate_errors so t : ao_errors (snd (activate_target env so t)) = ∅ -> ao_errors (snd so) = ∅.
Proof.
  destruct so as [s out], t as [d path]. unfold activate_target.
  repeat case_match; simpl; try done; by intros ?%insert_non_empty.
Qed.

Lemma foldl_errors {A B} (f : A -> B -> A) (e : A -> gmap string string) l a :
  (forall a b, e (f a b) = ∅ -> e a = ∅) -> e (foldl f a l) = ∅ -> e a = ∅.
Proof. intros Hf. revert a. induction l as [|b l IH]; simpl; [done|]. intros a H. eapply Hf, IH, H. Qed.

(** What is stored after a pass without errors. *)
Lemma apply_conns s' out :
  apply_profiles stored env desired s0 = (s', Ok out) -> ao_errors out = ∅ ->
  exists adds, nm_conns s' = List.filter (kept_path desired existing) (touch stored desired <$> nm_conns s0) ++ adds /\
    Forall2 (fun c d => cn_settings c = stored (to_settings_dict d)) adds (List.filter is_new desired).
Proof.
  rewrite (apply_profiles_unfold _ _ _ _ _ Hlist). intros [= <- <-] He. rewrite activate_all_conns. cbn [fst].
  apply (foldl_errors _ (fun so => ao_errors so.2)) in He; [|intros; by eapply activate_errors]. cbn [snd] in He.
  rewrite (drop_all_ok _ _ _ He).
  apply (foldl_errors _ (fun p => ao_errors (ps_out p))) in He; [|intros; by eapply drop_existing_errors].
  destruct (place_all_ok desired (mkPass s0 NmApplyOutcome_default []) Hdids) as (adds & Hl & Hp & Ha); [|done|].
  - exists []. rewrite app_nil_r. split_and!; [|by constructor..]. simpl.
    rewrite <- (list_fmap_id (nm_conns s0)) at 1. apply list_fmap_ext. intros i c _.
    unfold touch. simpl. by destruct (is_nasty c).
  - exists adds. rewrite Hl, List.filter_app, (kept_added _ Hp). done.
Qed.
End Converge.

(** A pass that reports no error has made NetworkManager store exactly the
    desired profiles: when every connection can be read, its ids and object
    paths are distinct, new paths are fresh and the desired ids are distinct,
    the ids of the engine's connections are afterwards those desired, each
    once, and every one of them has the settings of its profile (as built, or
    as NetworkManager stores what was built). *)
Lemma nm_apply_converges stored env s desired s' out :
  KeepsId stored ->
  NoDup (cn_path <$> nm_conns s) -> NoDup (nasty_ids s) ->
  (forall c, c ∈ nm_conns s -> nv_read env (cn_path c) = None) ->
  (forall n, nv_path env n ∉ (cn_path <$> nm_conns s)) ->
  NoDup (nmc_id <$> desired) -> Forall managed desired ->
  apply_profiles stored env desired s = (s', Ok out) -> ao_errors out = ∅ ->
  nasty_ids s' ≡ₚ nmc_id <$> desired /\
  (forall c d, c ∈ nm_conns s' -> d ∈ desired -> conn_id c = Some (nmc_id d) ->
     cn_settings c = to_settings_dict d \/ cn_settings c = stored (to_settings_dict d)).
Proof.
  intros Hk Hp Hi Hr Hf Hd Hm Ha He. destruct (list_nasty_connections env s) as [existing|e] eqn:El.
  2: { revert Ha. unfold apply_profiles, m_bind, m_get, m_lift. by rewrite El. }
  destruct (apply_conns stored env s Hp Hi Hr Hf existing El desired Hd s' out Ha He) as (adds & Hc & Hadds).
  split.
  - unfold nasty_ids. rewrite Hc, List.filter_app, omap_app.
    rewrite (kept_ids stored env s Hp Hi Hr Hf existing El desired) by done.
    rewrite (added_ids stored adds (List.filter (is_new existing) desired)); [|by apply Forall_retain|done].
    by apply (ids_partition stored env).
  - intros c d Hin Hdd Hid. rewrite Hc in Hin.
    eapply (final_settings stored s existing); [done..| |done|done].
    apply elem_of_app in Hin as [[Hin _]%elem_of_retain|Hin]; set_solver.
Qed.
