(* ===== verification/DhcpRelay.v ===== *)
(** * Managed DHCPv4 relay (nasty-system/src/network/dhcp_relay.rs)

    The configuration text for dnsmasq and the nft commands of the relay chain,
    rendered from the bridges that ask for a relay, and the reconciliation that
    brings daemon, kernel chain and files in line with them.  Running
    systemctl and nft, the checks against live routes and the file system are
    outcomes given as arguments.  An [Ipv4Addr] is its four octets. *)

From Stdlib Require Import ZArith Lia Ascii String.
From stdpp Require Import base list gmap strings.
From S2P Require Import Prelude.
From S2P Require Import RustStr.
From S2P Require Import Text.
From S2P Require Import RustVec.
From S2P Require Import Net.
From S2P Require Import Webui.
From S2P Require Import Protocol.
From S2P Require Import Firewall.
From S2P Require Import Nft.
From S2P Require Import FirewallPolicy.
From S2P Require Import FirewallProps.
From S2P Require Import NetConfig.

(** ** Addresses and subnets *)

Definition relay_iface_char (c : ascii) : bool :=
  is_ascii_alphanumeric c || existsb (Ascii.eqb c) ["_"; "-"; "."; ":"]%char.

Definition interface_name (name : string) : bool :=
  negb (String.eqb name "") && (String.length name <=? 15)%nat &&
  forallb relay_iface_char (to_bytes name).

Definition u32_max : Z := 2 ^ 32 - 1.

Definition u32_of (ip : list Z) : Z := bits_of (V4 ip).

(** [is_unspecified], [is_loopback], [is_multicast], [is_broadcast],
    [is_link_local] of [Ipv4Addr], and the range of the first octet. *)
Definition unicast (ip : list Z) : bool :=
  match ip with
  | [a; b; c; d] =>
      negb ((a =? 0) && (b =? 0) && (c =? 0) && (d =? 0)) && negb (a =? 127) &&
      negb ((224 <=? a) && (a <=? 239)) &&
      negb ((a =? 255) && (b =? 255) && (c =? 255) && (d =? 255)) &&
      negb ((a =? 169) && (b =? 254)) && ((1 <=? a) && (a <? 224))
  | _ => false
  end.

(** [u32::MAX.checked_shl(32 - prefix).unwrap_or(0)] *)
Definition prefix_mask (prefix : Z) : Z :=
  if prefix =? 0 then 0 else Z.land (Z.shiftl u32_max (32 - prefix)) u32_max.

Definition cidr_parts (cidr : string) : result (list Z * Z * Z * Z) string :=
  match split_once "/" cidr with
  | None => Err "relay bridge address needs an IPv4 prefix"
  | Some (address, prefix) =>
      match parse_ipv4_addr address with
      | None => Err "relay bridge address must be IPv4"
      | Some ip =>
          match parse_uint 255 prefix with
          | None => Err "invalid relay bridge prefix"
          | Some prefix =>
              if 32 <? prefix then Err "invalid IPv4 prefix"
              else let mask := prefix_mask prefix in
                   Ok (ip, Z.land (u32_of ip) mask, mask, prefix)
          end
      end
  end.

Definition subnet (cidr : string) : result (list Z * Z * Z) string :=
  match cidr_parts cidr with
  | Err e => Err e
  | Ok (ip, network, mask, prefix) =>
      if negb ((1 <=? prefix) && (prefix <=? 30))
      then Err "relay bridge prefix must be between 1 and 30"
      else if negb (unicast ip) || (u32_of ip =? network)
              || (u32_of ip =? Z.lor network (u32_max - mask))
      then Err "relay bridge needs a usable unicast host address"
      else Ok (ip, network, mask)
  end.

(** ** Rendering *)

Definition overlaps (network mask network' mask' : Z) : bool :=
  (Z.land network mask' =? network') || (Z.land network' mask =? network).

(** The addresses of the other links. *)
Definition other_addresses (c : NetworkConfig) (b : BridgeConfig) : list string :=
  (nc_interfaces c ≫= fun i => ip_addresses (if_ipv4 i)) ++
  (nc_bonds c ≫= fun x => ip_addresses (bo_ipv4 x)) ++
  (nc_vlans c ≫= fun v => ip_addresses (vl_ipv4 v)) ++
  (List.filter (fun x => negb (String.eqb (br_name x) (br_name b))) (nc_bridges c)
     ≫= fun x => ip_addresses (br_ipv4 x)).

Definition check_other (network mask : Z) (cidr : string) : result unit string :=
  match cidr_parts cidr with
  | Ok (_, network', mask', _) =>
      if overlaps network mask network' mask'
      then Err ("DHCP relay subnet overlaps configured address " +:+ cidr) else Ok tt
  | Err _ => Ok tt
  end.

Definition relay_conf (b : BridgeConfig) (r : DhcpRelayConfig) (local : list Z) : string :=
  line ("interface=" +:+ br_name b) +:+
  line ("dhcp-relay=" +:+ fmt_ipv4 local +:+ "," +:+ fmt_ipv4 (dr_server r) +:+ "," +:+ dr_upstream r).

Definition relay_rule_guest (b : BridgeConfig) : string :=
  "add rule inet nasty dhcp_relay iifname " +:+ dq +:+ br_name b +:+ dq +:+
  " udp sport 68 udp dport 67 accept".
Definition relay_rule_server (r : DhcpRelayConfig) : string :=
  "add rule inet nasty dhcp_relay iifname " +:+ dq +:+ dr_upstream r +:+ dq +:+ " ip saddr " +:+
  fmt_ipv4 (dr_server r) +:+ " udp sport 67 udp dport 67 accept".
Definition relay_rules (b : BridgeConfig) (r : DhcpRelayConfig) : string :=
  line (relay_rule_guest b) +:+ line (relay_rule_server r).

(** One bridge that asks for a relay: its address and subnet. *)
Definition check_relay (c : NetworkConfig) (subnets : list (Z * Z)) (b : BridgeConfig)
    (r : DhcpRelayConfig) : result (list Z * Z * Z) string :=
  if negb (interface_name (br_name b)) || negb (interface_name (dr_upstream r))
     || String.eqb (br_name b) (dr_upstream r)
  then Err "DHCP relay requires distinct valid bridge and upstream interface names"
  else if negb (bool_decide (br_members b = []))
  then Err ("DHCP relay bridge '" +:+ br_name b +:+ "' must have no physical members")
  else match ip_method (br_ipv4 b), ip_addresses (br_ipv4 b), ip_gateway (br_ipv4 b) with
  | Static, [cidr], None =>
      match subnet cidr with
      | Err e => Err e
      | Ok (local, network, mask) =>
          if negb (unicast (dr_server r)) || (Z.land (u32_of (dr_server r)) mask =? network)
          then Err "DHCP server must be a unicast IPv4 address outside the guest subnet"
          else if existsb (fun nm => overlaps network mask (fst nm) (snd nm)) subnets
          then Err "DHCP relay bridge subnets must not overlap"
          else match try_each (check_other network mask) (other_addresses c b) with
               | Err e => Err e
               | Ok _ => Ok (local, network, mask)
               end
      end
  | _, _, _ => Err "DHCP relay requires one static IPv4 bridge address and no host default gateway"
  end.

Fixpoint render_bridges (c : NetworkConfig) (bs : list BridgeConfig) (subnets : list (Z * Z))
    (conf rules : string) : result (string * string) string :=
  match bs with
  | [] => Ok (conf, rules)
  | b :: rest =>
      match br_dhcp_relay b with
      | None => render_bridges c rest subnets conf rules
      | Some r =>
          match check_relay c subnets b r with
          | Err e => Err e
          | Ok (local, network, mask) =>
              render_bridges c rest (subnets ++ [(network, mask)])
                (conf +:+ relay_conf b r local) (rules +:+ relay_rules b r)
          end
      end
  end.

Definition relay_render (c : NetworkConfig) : result (string * string) string :=
  match render_bridges c (nc_bridges c) [] (line "port=0" +:+ line "bind-dynamic" +:+ line "log-dhcp") "" with
  | Err e => Err e
  | Ok (conf, rules) => Ok (if String.eqb rules "" then "" else conf, rules)
  end.

Definition check_upstream (c : NetworkConfig) (live : gset string) (b : BridgeConfig)
    : result unit string :=
  match br_dhcp_relay b with
  | None => Ok tt
  | Some r =>
      let up := dr_upstream r in
      if negb (bool_decide (up ∈ live))
         || existsb (fun x => String.eqb (br_name x) up || one_of (br_members x) up) (nc_bridges c)
         || existsb (fun x => one_of (bo_members x) up) (nc_bonds c)
      then Err ("DHCP relay upstream '" +:+ up +:+ "' must be an existing standalone L3 interface")
      else Ok tt
  end.

Definition validate_upstreams (c : NetworkConfig) (live : gset string) : result unit string :=
  try_each (check_upstream c live) (nc_bridges c).

(** ** Reconciliation *)

Record RelayWorld : Type := mkRelayWorld {
  rl_conf : JsonFile string;
  rl_policy : JsonFile string;
  rl_unit : bool;            (** nasty-dhcp-relay.service runs *)
  rl_chain : string;         (** the rules in the kernel's relay chain *)
}.

Record RelayEnv : Type := mkRelayEnv {
  re_stop : Outcome;
  re_runtime : option string;        (** [validate_runtime] when the wait is over *)
  re_check : option string;
  re_apply : Outcome;
  re_policy_write : option string;
  re_conf_write : option string;
  re_start : Outcome;
  re_cleanup_stop : Outcome;
  re_cleanup_nft : Outcome;
  re_cleanup_write : option string;
}.

Abbreviation rop := (stm RelayWorld string).

Definition read_text (f : JsonFile string) (what : string) : result string string :=
  match f with
  | GoodFile s => Ok s
  | NoFile => Ok ""
  | BadFile e => Err (what +:+ e)
  end.

Definition relay_policy (w : RelayWorld) : result string string :=
  read_text (rl_policy w) "read DHCP relay policy: ".

Definition set_unit (b : bool) (w : RelayWorld) : RelayWorld :=
  mkRelayWorld (rl_conf w) (rl_policy w) b (rl_chain w).
Definition set_chain (s : string) (w : RelayWorld) : RelayWorld :=
  mkRelayWorld (rl_conf w) (rl_policy w) (rl_unit w) s.

(** A call with an effect on the world; a failed one may have had it too. *)
Definition effect (o : Outcome) (f : RelayWorld -> RelayWorld) (what : string) : rop unit := fun w =>
  match o with
  | Done => (f w, Ok tt)
  | Failed applied e => (if applied then f w else w, Err (what +:+ e))
  end.

(** [atomic_write] replaces the file or leaves it. *)
Definition write_policy (o : option string) (s : string) : rop unit := fun w =>
  match o with
  | None => (mkRelayWorld (rl_conf w) (GoodFile s) (rl_unit w) (rl_chain w), Ok tt)
  | Some e => (w, Err ("persist DHCP relay policy: " +:+ e))
  end.
Definition write_conf (o : option string) (s : string) : rop unit := fun w =>
  match o with
  | None => (mkRelayWorld (GoodFile s) (rl_policy w) (rl_unit w) (rl_chain w), Ok tt)
  | Some e => (w, Err ("persist DHCP relay configuration: " +:+ e))
  end.

Definition opt_result (o : option string) : result unit string :=
  match o with Some e => Err e | None => Ok tt end.

(** Without relays there is nothing to wait for. *)
Definition validate_runtime (env : RelayEnv) (c : NetworkConfig) : result unit string :=
  if existsb (fun b => bool_decide (br_dhcp_relay b <> None)) (nc_bridges c)
  then opt_result (re_runtime env) else Ok tt.

Definition reconcile_locked (env : RelayEnv) (c : NetworkConfig) (conf rules : string) : rop unit :=
  w <~ m_get ;;
  old <~ m_lift (read_text (rl_conf w) "read DHCP relay configuration: ") ;;
  idle <~ (if String.eqb conf "" && String.eqb old ""
           then p <~ m_lift (relay_policy w) ;; m_ret (String.eqb p "")
           else m_ret false) ;;
  if idle : bool then m_ret tt else
  (if negb (String.eqb conf old) || String.eqb conf ""
   then effect (re_stop env) (set_unit false) "DHCP relay stop: " else m_ret tt) ;;;
  m_lift (validate_runtime env c) ;;;
  m_lift (opt_result (re_check env)) ;;;
  effect (re_apply env) (set_chain rules) "" ;;;
  write_policy (re_policy_write env) rules ;;;
  write_conf (re_conf_write env) conf ;;;
  if String.eqb conf "" then m_ret tt
  else effect (re_start env) (set_unit true)
         (if String.eqb conf old then "DHCP relay start: " else "DHCP relay restart: ").

Definition relay_cleanup (env : RelayEnv) : rop unit :=
  m_ignore (effect (re_cleanup_stop env) (set_unit false) "") ;;;
  m_ignore (effect (re_cleanup_nft env) (set_chain "") "") ;;;
  m_ignore (write_policy (re_cleanup_write env) "").

Definition relay_reconcile (env : RelayEnv) (c : NetworkConfig) : rop unit := fun w =>
  match relay_render c with
  | Err e => (w, Err e)
  | Ok (conf, rules) =>
      match reconcile_locked env c conf rules w with
      | (w1, Err e) => (fst (relay_cleanup env w1), Err e)
      | out => out
      end
  end.
