(* ===== verification/RelayProps.v ===== *)
(** * The relay's rules, subnets and failures

    That the commands the relay hands to nft are read as exactly the rules it
    means, which also discharges what the firewall assumes of the relay policy
    it appends to its batches; that relay subnets are disjoint; and that a
    failed reconciliation ends with the relay off and its chain empty. *)

From Stdlib Require Import ZArith Lia Ascii String.
From stdpp Require Import base list gmap strings.
From S2P Require Import Prelude.
From S2P Require Import RustStr.
From S2P Require Import Text.
From S2P Require Import Net.
From S2P Require Import Protocol.
From S2P Require Import Firewall.
From S2P Require Import Nft.
From S2P Require Import FirewallPolicy.
From S2P Require Import FirewallProps.
From S2P Require Import NetConfig.
From S2P Require Import DhcpRelay.

(** ** Printing and reading IPv4 addresses *)

Definition ipv4_ok (ip : list Z) : Prop := length ip = 4%nat /\ Forall (fun o => 0 <= o < 256) ip.

Lemma read_digits_app pre rest acc n :
  Forall (fun c => is_Some (to_digit 10 c)) pre ->
  match rest with c :: _ => to_digit 10 c = None | [] => True end ->
  read_digits 10 acc n (pre ++ rest) =
  (fst (fst (read_digits 10 acc n pre)), snd (fst (read_digits 10 acc n pre)), rest).
Proof.
  intros HF Hr. revert acc n. induction HF as [|c pre [d Hd] _ IH]; intros acc n; cbn.
  - destruct rest as [|c rest]; [done|]. cbn. by rewrite Hr.
  - rewrite Hd. apply IH.
Qed.

(** What [read_number] makes of a printed octet, for all 256 of them. *)
Definition octet_reads (o : Z) : bool :=
  let l := to_bytes (fmt_dec o) in
  forallb (fun c => bool_decide (is_Some (to_digit 10 c))) l &&
  negb (bool_decide (l = [])) &&
  bool_decide (read_number 10 3 255 false l = Some (o, [])).

Lemma octets_read : forallb octet_reads (Z.of_nat <$> seq 0 256) = true.
Proof. vm_compute. reflexivity. Qed.

Lemma octet_read o : 0 <= o < 256 -> octet_reads o = true.
Proof.
  intros Ho. pose proof octets_read as H. rewrite forallb_forall in H. apply H.
  apply list_elem_of_In, list_elem_of_fmap. exists (Z.to_nat o). split; [lia|].
  apply elem_of_seq. lia.
Qed.

Lemma read_number_octet o rest :
  0 <= o < 256 -> match rest with c :: _ => to_digit 10 c = None | [] => True end ->
  read_number 10 3 255 false (to_bytes (fmt_dec o) ++ rest) = Some (o, rest).
Proof.
  intros Ho Hr. pose proof (octet_read o Ho) as H. unfold octet_reads in H.
  apply andb_true_iff in H as [[HF Hne]%andb_true_iff Hn].
  apply bool_decide_eq_true in Hn. rewrite forallb_forall in HF.
  assert (Forall (fun c => is_Some (to_digit 10 c)) (to_bytes (fmt_dec o))) as HF'.
  { apply Forall_forall. intros c Hc. apply list_elem_of_In in Hc. by apply HF, bool_decide_eq_true in Hc. }
  unfold read_number in *. rewrite (read_digits_app _ rest 0 0 HF' Hr).
  destruct (read_digits 10 0 0 (to_bytes (fmt_dec o))) as [[v k] r]. cbn [fst snd] in *.
  destruct (to_bytes (fmt_dec o)) as [|c l]; [by rewrite bool_decide_true in Hne|]. cbn [app].
  repeat case_match; simplify_eq; try done.
Qed.

Lemma read_separator_dot i {A} (p : parser A) l : read_separator "." (S i) p ("."%char :: l) = p l.
Proof. done. Qed.

Lemma parse_fmt_ipv4 ip : ipv4_ok ip -> parse_ip_addr (fmt_ipv4 ip) = Some (V4 ip).
Proof.
  intros [Hl HF]. destruct ip as [|a [|b [|c [|d [|]]]]]; try done. rewrite !Forall_cons in HF.
  destruct HF as (Ha & Hb & Hc & Hd & _).
  unfold parse_ip_addr, fmt_ipv4, str_join. rewrite to_of_bytes. cbn [fmap list_fmap join_bytes].
  change (to_bytes ".") with ["."%char]. cbn [app].
  unfold read_ipv4_addr. cbn [read_octets]. unfold read_separator at 1.
  rewrite read_number_octet by done. rewrite read_separator_dot, read_number_octet by done.
  rewrite read_separator_dot, read_number_octet by done.
  rewrite read_separator_dot. rewrite <- (app_nil_r (to_bytes (fmt_dec d))), read_number_octet by done.
  done.
Qed.

Lemma u32_of_inj a b : ipv4_ok a -> ipv4_ok b -> u32_of a = u32_of b -> a = b.
Proof.
  intros [Hla HFa] [Hlb HFb]. destruct a as [|a0 [|a1 [|a2 [|a3 [|]]]]]; try done.
  destruct b as [|b0 [|b1 [|b2 [|b3 [|]]]]]; try done. rewrite !Forall_cons in HFa, HFb.
  unfold u32_of, bits_of. cbn. intros H. repeat f_equal; lia.
Qed.

Lemma fmt_ipv4_chars ip : ipv4_ok ip -> Forall (fun c => addr_char c = true) (to_bytes (fmt_ipv4 ip)).
Proof. intros H%parse_fmt_ipv4. by eapply parse_ip_addr_chars. Qed.

#[local] Instance ip_addr_eq_dec : EqDecision ip_addr.
Proof. solve_decision. Defined.

(** The network of a printed address is the address alone. *)
Lemma in_network_host ip src :
  ipv4_ok ip -> match src with V4 a => ipv4_ok a | V6 _ => True end ->
  in_network (fmt_ipv4 ip) src = bool_decide (src = V4 ip).
Proof.
  intros Hip Hsrc. unfold in_network. rewrite split_once_none.
  2:{ eapply (class_no_char addr_char); [by apply fmt_ipv4_chars|done]. }
  rewrite (parse_fmt_ipv4 ip Hip). cbn [from_option].
  destruct src as [a|a]; [|by rewrite bool_decide_false].
  replace (32 - 32) with 0 by lia. rewrite !Z.shiftr_0_r. fold (u32_of ip) (u32_of a).
  destruct (Z.eqb_spec (u32_of ip) (u32_of a)) as [E|E].
  - apply u32_of_inj in E as ->; [|done..]. by rewrite bool_decide_true.
  - rewrite bool_decide_false; [done|]. by intros [= ->].
Qed.

(** ** The rules *)

Definition relay_guest_rule (b : BridgeConfig) : nrule :=
  mkNrule [MIif (br_name b); MSport Udp 68; MDport Udp 67 67] VAccept.
Definition relay_server_rule (r : DhcpRelayConfig) : nrule :=
  mkNrule [MIif (dr_upstream r); MSaddr false (fmt_ipv4 (dr_server r)); MSport Udp 67; MDport Udp 67 67]
    VAccept.

Lemma denotes_sport p : 0 <= p < 65536 -> denotes ("udp sport " +:+ fmt_dec p) (MSport Udp p).
Proof.
  intros Hp. destruct (fmt_dec_word p ltac:(lia)) as [Hw Hn].
  apply (denotes3 "udp" "sport" (fmt_dec p)); try done; try by apply word_ok_dec.
  - repeat constructor; try done; by apply no_char_dec.
  - change (parse3 "udp" "sport" ?w) with (p ← parse_port w; Some (MSport Udp p)).
    by rewrite parse_port_fmt_dec.
Qed.

Lemma denotes_host ip : ipv4_ok ip -> denotes ("ip saddr " +:+ fmt_ipv4 ip) (MSaddr false (fmt_ipv4 ip)).
Proof.
  intros Hip. pose proof (fmt_ipv4_chars ip Hip) as HF.
  assert (word_ok (fmt_ipv4 ip)) as Hw.
  { unfold word_ok. split_and!; [|by eapply class_no_char|eapply class_not_word; [exact HF|by apply Exists_cons_hd]].
    intros E. pose proof (parse_fmt_ipv4 ip Hip) as Hp. by rewrite E in Hp. }
  apply (denotes3 "ip" "saddr" (fmt_ipv4 ip)); try done; try by apply word_ok_dec.
  repeat constructor; try by apply no_char_dec. by eapply class_no_char.
Qed.

Lemma interface_name_chars s :
  interface_name s = true -> no_char (chr 32) s /\ no_char (chr 10) s.
Proof.
  unfold interface_name. intros H. bool_hyps.
  match goal with H : forallb _ _ = true |- _ => rewrite forallb_forall in H; rename H into HF end.
  assert (Forall (fun c => relay_iface_char c = true) (to_bytes s)).
  { apply Forall_forall. intros c Hc. apply list_elem_of_In in Hc. auto. }
  split; by eapply class_no_char.
Qed.

(** A command that adds a rule with the given conditions to the relay chain. *)
Definition add_line (conds : list string) : string :=
  str_join " " (["add"; "rule"; "inet"; "nasty"; "dhcp_relay"] ++ conds ++ ["accept"]).

Lemma uncomment_all ws : "#" ∉ ws -> uncomment ws = ws.
Proof.
  induction ws as [|w ws IH]; [done|]. intros [Hw H]%not_elem_of_cons. cbn.
  destruct (String.eqb_spec w "#"); [done|]. by rewrite IH.
Qed.

Lemma conds_no_mark conds ms : Forall2 denotes conds ms -> "#" ∉ conds ≫= words.
Proof.
  induction 1 as [|s m conds ms (_ & Hs & _) _ IH]; [apply not_elem_of_nil|].
  change ((s :: conds) ≫= words) with (words s ++ (conds ≫= words)). by apply not_elem_of_app.
Qed.

Lemma add_line_policy conds ms ls :
  Forall2 denotes conds ms ->
  parse_policy (add_line conds :: ls) =
  (rs ← parse_policy ls; Some (mkNrule ms VAccept :: rs)).
Proof.
  intros H. cbn [parse_policy]. unfold line_words, add_line. rewrite words_join, !bind_app.
  change (["add"; "rule"; "inet"; "nasty"; "dhcp_relay"] ≫= words)
    with ["add"; "rule"; "inet"; "nasty"; "dhcp_relay"].
  change (["accept"] ≫= words) with ["accept"]. rewrite uncomment_all.
  2:{ pose proof (conds_no_mark conds ms H). rewrite !not_elem_of_app. split_and!; [|done|]; set_solver. }
  change (["add"; "rule"; "inet"; "nasty"; "dhcp_relay"] ++ ?x)
    with ("add" :: "rule" :: "inet" :: "nasty" :: "dhcp_relay" :: x).
  cbn [expect String.eqb Ascii.eqb Bool.eqb mbind option_bind].
  rewrite (parse_clauses conds ms ["accept"] H). cbn. by rewrite app_nil_r.
Qed.

Lemma add_line_no_nl conds ms : Forall2 denotes conds ms -> no_char (chr 10) (add_line conds).
Proof.
  intros H. apply join_no_char; [by apply no_char_dec|]. rewrite !Forall_app. split_and!.
  - repeat constructor; by apply no_char_dec.
  - induction H as [|s m conds ms (Hs & _) _ IH]; by constructor.
  - repeat constructor; by apply no_char_dec.
Qed.

Definition guest_conds (b : BridgeConfig) : list string :=
  [iface_clause (br_name b); "udp sport 68"; "udp dport 67"].
Definition server_conds (r : DhcpRelayConfig) : list string :=
  [iface_clause (dr_upstream r); "ip saddr " +:+ fmt_ipv4 (dr_server r); "udp sport 67"; "udp dport 67"].

Ltac same_text :=
  apply to_bytes_inj; unfold str_join; rewrite ?to_of_bytes; cbn [app fmap list_fmap join_bytes];
  rewrite ?to_bytes_app, <- ?app_assoc; reflexivity.

Lemma guest_line b : relay_rule_guest b = add_line (guest_conds b).
Proof. unfold relay_rule_guest, add_line, guest_conds, iface_clause. same_text. Qed.

Lemma server_line r : relay_rule_server r = add_line (server_conds r).
Proof. unfold relay_rule_server, add_line, server_conds, iface_clause. same_text. Qed.

Lemma guest_denotes b :
  interface_name (br_name b) = true -> Forall2 denotes (guest_conds b) (nr_matches (relay_guest_rule b)).
Proof.
  intros [? ?]%interface_name_chars. constructor; [by apply denotes_quoted|].
  constructor; [by apply (denotes_sport 68)|]. constructor; [|constructor].
  by apply (denotes_dport_one Udp 67).
Qed.

Lemma server_denotes r :
  interface_name (dr_upstream r) = true -> ipv4_ok (dr_server r) ->
  Forall2 denotes (server_conds r) (nr_matches (relay_server_rule r)).
Proof.
  intros [? ?]%interface_name_chars Hs. constructor; [by apply denotes_quoted|].
  constructor; [by apply denotes_host|]. constructor; [by apply (denotes_sport 67)|].
  constructor; [|constructor]. by apply (denotes_dport_one Udp 67).
Qed.

(** ** Subnets *)

Lemma masks_nested :
  forallb (fun p => forallb (fun q =>
    Z.land (prefix_mask p) (prefix_mask q) =? prefix_mask (Z.min p q)) (Z.of_nat <$> seq 0 33))
    (Z.of_nat <$> seq 0 33) = true.
Proof. vm_compute. reflexivity. Qed.

Lemma mask_land p q :
  0 <= p <= 32 -> 0 <= q <= 32 -> Z.land (prefix_mask p) (prefix_mask q) = prefix_mask (Z.min p q).
Proof.
  intros Hp Hq. pose proof masks_nested as H. rewrite forallb_forall in H.
  assert (forall x, 0 <= x <= 32 -> In x (Z.of_nat <$> seq 0 33)) as Hin.
  { intros x Hx. apply list_elem_of_In, list_elem_of_fmap. exists (Z.to_nat x). split; [lia|].
    apply elem_of_seq. lia. }
  specialize (H p (Hin p Hp)). rewrite forallb_forall in H. apply Z.eqb_eq, H, Hin, Hq.
Qed.

(** Two subnets that do not overlap have no address in common. *)
Lemma overlaps_disjoint a n p n' p' :
  0 <= p <= 32 -> 0 <= p' <= 32 ->
  overlaps n (prefix_mask p) n' (prefix_mask p') = false ->
  Z.land a (prefix_mask p) = n -> Z.land a (prefix_mask p') = n' -> False.
Proof.
  intros Hp Hp' Ho <- <-. unfold overlaps in Ho. apply orb_false_iff in Ho as [H1 H2].
  apply Z.eqb_neq in H1, H2. rewrite <- Z.land_assoc in H1, H2.
  rewrite (mask_land p p' Hp Hp') in H1. rewrite (mask_land p' p Hp' Hp) in H2.
  destruct (Z.le_ge_cases p p'); [apply H2|apply H1]; f_equal; f_equal; lia.
Qed.

Lemma overlaps_sym n m n' m' : overlaps n m n' m' = overlaps n' m' n m.
Proof. apply orb_comm. Qed.

Lemma cidr_parts_spec cidr ip n m p :
  cidr_parts cidr = Ok (ip, n, m, p) -> p <= 32 /\ m = prefix_mask p /\ n = Z.land (u32_of ip) m.
Proof.
  unfold cidr_parts. destruct (split_once "/" cidr) as [[a b]|]; [|done].
  destruct (parse_ipv4_addr a); [|done]. destruct (parse_uint 255 b); [|done].
  destruct (Z.ltb_spec 32 z); [done|]. intros [= <- <- <- <-]. done.
Qed.

Lemma subnet_spec cidr ip n m :
  subnet cidr = Ok (ip, n, m) ->
  exists p, 1 <= p <= 30 /\ m = prefix_mask p /\ n = Z.land (u32_of ip) m.
Proof.
  unfold subnet. destruct (cidr_parts cidr) as [[[[ip' n'] m'] p]|] eqn:E; [|done].
  apply cidr_parts_spec in E as (_ & Hm & Hn).
  destruct (negb (_ && _)) eqn:Ep; [done|]. apply negb_false_iff, andb_true_iff in Ep as [?%Z.leb_le ?%Z.leb_le].
  destruct (_ || _); [done|]. intros [= <- <- <-]. exists p. split_and!; done.
Qed.

(** ** What rendering accepts and writes *)

Definition relays (bs : list BridgeConfig) : list (BridgeConfig * DhcpRelayConfig) :=
  omap (fun b => (fun r => (b, r)) <$> br_dhcp_relay b) bs.

(** The subnet of a relay bridge, from its single address. *)
Definition guest_net (b : BridgeConfig) : option (Z * Z) :=
  match ip_addresses (br_ipv4 b) with
  | [cidr] => match subnet cidr with Ok (_, n, m) => Some (n, m) | Err _ => None end
  | _ => None
  end.

Definition in_guest_net (b : BridgeConfig) (a : Z) : Prop :=
  exists n m, guest_net b = Some (n, m) /\ Z.land a m = n.

Definition relay_fields_ok (br : BridgeConfig * DhcpRelayConfig) : Prop :=
  interface_name (br_name (fst br)) = true /\ interface_name (dr_upstream (snd br)) = true /\
  unicast (dr_server (snd br)) = true /\ is_Some (guest_net (fst br)) /\
  ~ in_guest_net (fst br) (u32_of (dr_server (snd br))).

Definition apart (b1 b2 : BridgeConfig) : Prop :=
  forall n m n' m', guest_net b1 = Some (n, m) -> guest_net b2 = Some (n', m') ->
    overlaps n m n' m' = false.

Lemma check_relay_spec c subnets b r local n m :
  check_relay c subnets b r = Ok (local, n, m) ->
  relay_fields_ok (b, r) /\ guest_net b = Some (n, m) /\
  Forall (fun nm => overlaps n m (fst nm) (snd nm) = false) subnets.
Proof.
  unfold check_relay, relay_fields_ok, in_guest_net, guest_net. cbn [fst snd]. intros H.
  destruct (interface_name (br_name b)) eqn:E1; [|done].
  destruct (interface_name (dr_upstream r)) eqn:E2; [|done]. cbn [negb orb] in H.
  destruct (String.eqb _ _); [done|]. destruct (negb (bool_decide _)); [done|].
  destruct (ip_method (br_ipv4 b)); try done.
  destruct (ip_addresses (br_ipv4 b)) as [|cidr []]; try done.
  destruct (ip_gateway (br_ipv4 b)); [done|].
  destruct (subnet cidr) as [[[ip n'] m']|]; [|done].
  destruct (unicast (dr_server r)) eqn:E3; [|done]. cbn [negb orb] in H.
  destruct (Z.eqb_spec (Z.land (u32_of (dr_server r)) m') n') as [|Hs]; [done|].
  destruct (existsb _ subnets) eqn:E4; [done|].
  destruct (try_each _ _); [|done]. injection H as -> -> ->.
  split_and!; try done.
  - intros (x & y & [= <- <-] & Hx). done.
  - apply Forall_forall. intros nm Hnm. destruct (overlaps _ _ _ _) eqn:E; [|done].
    rewrite <- not_true_iff_false in E4. destruct E4. apply existsb_exists. exists nm.
    split; [by apply list_elem_of_In|done].
Qed.

Lemma render_bridges_spec c bs subnets conf rules conf' rules' :
  render_bridges c bs subnets conf rules = Ok (conf', rules') ->
  rules' = rules +:+ concat_str ((fun br => relay_rules (fst br) (snd br)) <$> relays bs) /\
  Forall relay_fields_ok (relays bs) /\
  Forall (fun br => forall n m, guest_net (fst br) = Some (n, m) ->
            Forall (fun nm => overlaps n m (fst nm) (snd nm) = false) subnets) (relays bs) /\
  (forall i j x y, relays bs !! i = Some x -> relays bs !! j = Some y -> (i < j)%nat ->
     apart (fst x) (fst y)).
Proof.
  revert subnets conf rules. induction bs as [|b bs IH]; intros subnets conf rules; cbn [render_bridges].
  { intros [= <- <-]. cbn. rewrite string_app_nil. split_and!; try done; constructor. }
  destruct (br_dhcp_relay b) as [r|] eqn:Er.
  2:{ intros H%IH. unfold relays. cbn. rewrite Er. exact H. }
  destruct (check_relay c subnets b r) as [[[local n] m]|] eqn:Hc; [|done].
  apply check_relay_spec in Hc as (Hok & Hnet & Hsub). intros (-> & Hf & Hold & Hap)%IH.
  assert (relays (b :: bs) = (b, r) :: relays bs) as -> by (unfold relays; cbn; by rewrite Er).
  split_and!.
  - rewrite fmap_cons. cbn. by rewrite string_app_assoc.
  - by constructor.
  - constructor; [cbn; intros ? ?; rewrite Hnet; by intros [= <- <-]|].
    eapply Forall_impl; [exact Hold|]. cbn. intros br Hbr n' m' Hn'.
    specialize (Hbr n' m' Hn'). by apply Forall_app in Hbr as [? _].
  - intros [|i] [|j] x y Hx Hy Hij; try lia; [|apply (Hap i j); [done|done|lia]].
    cbn in Hx, Hy. simplify_eq. intros n1 m1 n2 m2 H1 H2. cbn in H1. rewrite Hnet in H1. simplify_eq.
    apply list_elem_of_lookup_2 in Hy. rewrite Forall_forall in Hold.
    specialize (Hold y Hy n2 m2 H2). apply Forall_app in Hold as [_ Hold].
    rewrite Forall_singleton in Hold. rewrite overlaps_sym. exact Hold.
Qed.

Lemma guest_net_mask b n m : guest_net b = Some (n, m) -> exists p, 1 <= p <= 30 /\ m = prefix_mask p.
Proof.
  unfold guest_net. destruct (ip_addresses _) as [|cidr []]; [done| |done].
  destruct (subnet cidr) as [[[ip n'] m']|] eqn:E; [|done]. intros [= <- <-].
  apply subnet_spec in E as (p & Hp & -> & _). by exists p.
Qed.

Lemma apart_disjoint b1 b2 a : apart b1 b2 -> in_guest_net b1 a -> in_guest_net b2 a -> False.
Proof.
  intros Hap (n & m & H1 & Ha) (n' & m' & H2 & Ha'). pose proof (Hap _ _ _ _ H1 H2) as Ho.
  apply guest_net_mask in H1 as (p & ? & ->), H2 as (p' & ? & ->).
  eapply (overlaps_disjoint a n p n' p'); [lia|lia|done..].
Qed.

Lemma render_bridges_conf c bs subnets conf rules conf' rules' :
  render_bridges c bs subnets conf rules = Ok (conf', rules') -> exists x, conf' = conf +:+ x.
Proof.
  revert subnets conf rules. induction bs as [|b bs IH]; intros subnets conf rules; cbn [render_bridges].
  { intros [= <- <-]. exists "". by rewrite string_app_nil. }
  destruct (br_dhcp_relay b) as [r|]; [|apply IH].
  destruct (check_relay c subnets b r) as [[[local n] m]|]; [|done].
  intros [x ->]%IH. eexists. apply string_app_assoc.
Qed.

Lemma relay_render_spec c conf rules :
  relay_render c = Ok (conf, rules) ->
  rules = concat_str ((fun br => relay_rules (fst br) (snd br)) <$> relays (nc_bridges c)) /\
  Forall relay_fields_ok (relays (nc_bridges c)) /\
  (forall i j x y, relays (nc_bridges c) !! i = Some x -> relays (nc_bridges c) !! j = Some y ->
     (i < j)%nat -> apart (fst x) (fst y)) /\
  (conf = "" <-> rules = "").
Proof.
  unfold relay_render. destruct (render_bridges _ _ _ _ _) as [[conf0 rules0]|] eqn:E; [|done].
  intros [= <- <-]. pose proof (render_bridges_conf _ _ _ _ _ _ _ E) as [x Hx].
  apply render_bridges_spec in E as (Hr & Hf & _ & Hap). cbn in Hr.
  split_and!; [done..|]. destruct (String.eqb_spec rules0 ""); [done|]. split; [|done].
  by rewrite Hx.
Qed.

(** The packets a relay lets in: requests of guests on its bridge, and answers
    of its server on its upstream interface. *)
Definition relay_allows (pk : packet) (br : BridgeConfig * DhcpRelayConfig) : bool :=
  match pk_l4 pk with
  | L4 Udp s d =>
      (d =? 67) &&
      ((String.eqb (pk_iif pk) (br_name (fst br)) && (s =? 68)) ||
       (String.eqb (pk_iif pk) (dr_upstream (snd br)) && (s =? 67) &&
        bool_decide (pk_src pk = V4 (dr_server (snd br)))))
  | _ => false
  end.

Definition relay_rules_of (br : BridgeConfig * DhcpRelayConfig) : list nrule :=
  [relay_guest_rule (fst br); relay_server_rule (snd br)].

Definition servers_ok (c : NetworkConfig) : Prop :=
  Forall (fun br => ipv4_ok (dr_server (snd br))) (relays (nc_bridges c)).

Definition source_ok (pk : packet) : Prop :=
  match pk_src pk with V4 a => ipv4_ok a | V6 _ => True end.

Lemma relay_rules_parse brs :
  Forall relay_fields_ok brs -> Forall (fun br => ipv4_ok (dr_server (snd br))) brs ->
  parse_policy (lines (concat_str ((fun br => relay_rules (fst br) (snd br)) <$> brs))) =
  Some (brs ≫= relay_rules_of).
Proof.
  intros Hf Hs. induction brs as [|[b r] brs IH]; [done|].
  apply Forall_cons in Hf as [(Hb & Hu & _) Hf]. apply Forall_cons in Hs as [Hip Hs]. cbn [fst snd] in *.
  change (concat_str ((fun br => relay_rules (fst br) (snd br)) <$> (b, r) :: brs)) with
    ((line (relay_rule_guest b) +:+ line (relay_rule_server r)) +:+
     concat_str ((fun br => relay_rules (fst br) (snd br)) <$> brs)).
  rewrite string_app_assoc, guest_line, server_line.
  pose proof (guest_denotes b Hb) as Hg. pose proof (server_denotes r Hu Hip) as Hv.
  rewrite lines_cons by (by eapply add_line_no_nl). rewrite lines_cons by (by eapply add_line_no_nl).
  rewrite (add_line_policy _ _ _ Hg), (add_line_policy _ _ _ Hv), (IH Hf Hs). done.
Qed.

Lemma relay_rules_admit pk brs :
  source_ok pk -> Forall (fun br => ipv4_ok (dr_server (snd br))) brs ->
  relay_admits (brs ≫= relay_rules_of) pk = existsb (relay_allows pk) brs.
Proof.
  intros Hpk. unfold relay_admits. induction 1 as [|[b r] brs Hip _ IH]; [done|].
  change (((b, r) :: brs) ≫= relay_rules_of) with
    (relay_guest_rule b :: relay_server_rule r :: (brs ≫= relay_rules_of)).
  cbn [existsb]. rewrite IH, orb_assoc. f_equal. clear IH.
  unfold rule_matches, relay_allows, relay_guest_rule, relay_server_rule.
  cbn [nr_matches forallb match_one fst snd]. cbn [snd] in Hip. rewrite (in_network_host _ _ Hip Hpk).
  unfold dport_in. destruct (pk_l4 pk) as [| |[] s d|]; rewrite ?andb_false_r; try done.
  rewrite !bool_decide_true by done. cbn [andb].
  destruct (decide (pk_src pk = V4 (dr_server r))) as [E|E].
  - rewrite !(bool_decide_true (pk_src pk = _)) by done. rewrite E. cbn [is_v6 Bool.eqb andb].
    destruct (String.eqb (pk_iif pk) (br_name b)), (String.eqb (pk_iif pk) (dr_upstream r)),
      (Z.eqb_spec s 68), (Z.eqb_spec s 67), (Z.eqb_spec d 67), (Z.leb_spec 67 d), (Z.leb_spec d 67);
      cbn; try lia; done.
  - rewrite !(bool_decide_false (pk_src pk = _)) by done. rewrite ?andb_false_r. cbn [andb].
    destruct (String.eqb (pk_iif pk) (br_name b)), (Z.eqb_spec s 68), (Z.eqb_spec d 67),
      (Z.leb_spec 67 d), (Z.leb_spec d 67); cbn; rewrite ?andb_false_r; try lia; done.
Qed.

Lemma relay_rules_accept brs : accepts_only (brs ≫= relay_rules_of).
Proof. induction brs as [|br brs IH]; [constructor|]. repeat (constructor; [done|]). exact IH. Qed.

(** The relay commands handed to nft mean what the configuration says: they
    parse as additions of accepting rules to the relay chain, as the firewall
    requires of the policy it appends, and admit exactly the requests from
    guests on a relay bridge to port 67 and the answers of its server on its
    upstream interface.  The guest subnets of different relays share no
    address, and no server lies in the subnet it serves. *)
Theorem relay_policy_sound c conf rules :
  servers_ok c -> relay_render c = Ok (conf, rules) ->
  policy_ok rules /\
  (exists relay, parse_policy (lines rules) = Some relay /\
     forall pk, source_ok pk -> relay_admits relay pk = existsb (relay_allows pk) (relays (nc_bridges c))) /\
  (forall i j x y a, relays (nc_bridges c) !! i = Some x -> relays (nc_bridges c) !! j = Some y -> i <> j ->
     in_guest_net (fst x) a -> in_guest_net (fst y) a -> False) /\
  (forall x, x ∈ relays (nc_bridges c) ->
     is_Some (guest_net (fst x)) /\ ~ in_guest_net (fst x) (u32_of (dr_server (snd x)))).
Proof.
  intros Hs (-> & Hf & Hap & _)%relay_render_spec. pose proof (relay_rules_parse _ Hf Hs) as Hp.
  split_and!.
  - eexists. split; [exact Hp|apply relay_rules_accept].
  - eexists. split; [exact Hp|]. intros pk Hpk. by apply relay_rules_admit.
  - intros i j x y a Hx Hy Hij Ha Ha'. destruct (decide (i < j)%nat).
    + by eapply (apart_disjoint _ _ a (Hap i j x y Hx Hy ltac:(lia))).
    + by eapply (apart_disjoint _ _ a (Hap j i y x Hy Hx ltac:(lia))).
  - intros x Hx. rewrite Forall_forall in Hf. by destruct (Hf x Hx) as (_ & _ & _ & ? & ?).
Qed.

(** ** Reconciliation *)

Definition text_of (f : JsonFile string) : string := match f with GoodFile s => s | _ => "" end.

(** Between operations the kernel chain holds the policy in the file, which is
    what the next firewall batch will load, and the daemon runs only with a
    configuration. *)
Definition relay_consistent (w : RelayWorld) : Prop :=
  rl_chain w = text_of (rl_policy w) /\ (rl_unit w = true -> text_of (rl_conf w) <> "").

Definition cleanup_ok (env : RelayEnv) : Prop :=
  re_cleanup_stop env = Done /\ re_cleanup_nft env = Done /\ re_cleanup_write env = None.

(** Relay off: nothing listens, nothing is let in, now or after a restart. *)
Definition relay_off (w : RelayWorld) : Prop :=
  rl_unit w = false /\ rl_chain w = "" /\ rl_policy w = GoodFile "".

Definition relay_runs (conf rules : string) (w : RelayWorld) : Prop :=
  text_of (rl_conf w) = conf /\ text_of (rl_policy w) = rules /\ rl_chain w = rules /\
  (rl_unit w = true <-> conf <> "").

Lemma relay_cleanup_off env w : cleanup_ok env -> relay_off (fst (relay_cleanup env w)).
Proof. intros (H1 & H2 & H3). unfold relay_cleanup, m_bind, m_ignore, effect, write_policy. by rewrite H1, H2, H3. Qed.

Lemma read_text_ok f what s : read_text f what = Ok s -> text_of f = s.
Proof. destruct f; cbn; by intros [= <-]. Qed.

(** The steps after the early return, as one sequence. *)
Definition reconcile_rest (env : RelayEnv) (c : NetworkConfig) (conf rules old : string) : rop unit :=
  (if negb (String.eqb conf old) || String.eqb conf ""
   then effect (re_stop env) (set_unit false) "DHCP relay stop: " else m_ret tt) ;;;
  m_lift (validate_runtime env c) ;;;
  m_lift (opt_result (re_check env)) ;;;
  effect (re_apply env) (set_chain rules) "" ;;;
  write_policy (re_policy_write env) rules ;;;
  write_conf (re_conf_write env) conf ;;;
  if String.eqb conf "" then m_ret tt
  else effect (re_start env) (set_unit true)
         (if String.eqb conf old then "DHCP relay start: " else "DHCP relay restart: ").

Lemma reconcile_rest_ok env c conf rules old w w' :
  reconcile_rest env c conf rules old w = (w', Ok tt) -> relay_runs conf rules w'.
Proof.
  unfold reconcile_rest, m_bind, m_lift, effect, write_policy, write_conf, m_ret.
  destruct (String.eqb_spec conf "") as [->|Hne].
  - rewrite orb_true_r. destruct (re_stop env); [|done].
    destruct (validate_runtime env c); [|done]. destruct (opt_result _); [|done].
    destruct (re_apply env); [|done]. destruct (re_policy_write env); [done|].
    destruct (re_conf_write env); [done|]. intros [= <-]. by repeat split.
  - rewrite orb_false_r. destruct (negb _); [destruct (re_stop env); [|done]|];
    (destruct (validate_runtime env c); [|done]; destruct (opt_result _); [|done];
     destruct (re_apply env); [|done]; destruct (re_policy_write env); [done|];
     destruct (re_conf_write env); [done|]; destruct (re_start env); [|done]; intros [= <-]; by repeat split).
Qed.

Lemma reconcile_locked_ok env c conf rules w w' :
  relay_consistent w -> (conf = "" -> rules = "") ->
  reconcile_locked env c conf rules w = (w', Ok tt) -> relay_runs conf rules w'.
Proof.
  intros (Hch & Hun) Hcr. unfold reconcile_locked. unfold m_bind at 1, m_get, m_bind at 1, m_lift at 1.
  destruct (read_text (rl_conf w) _) as [old|] eqn:Eo; [|done]. apply read_text_ok in Eo.
  unfold m_bind at 1. destruct (String.eqb conf "" && String.eqb old "") eqn:Ee.
  2:{ unfold m_ret at 1. exact (reconcile_rest_ok env c conf rules old w w'). }
  apply andb_true_iff in Ee as [->%String.eqb_eq ->%String.eqb_eq].
  unfold m_bind at 1, m_lift at 1. destruct (relay_policy w) as [p|] eqn:Ep; [|done].
  apply read_text_ok in Ep. unfold m_ret at 1. destruct (String.eqb_spec p "") as [->|Hp].
  2:{ exact (reconcile_rest_ok env c "" rules "" w w'). }
  intros [= <-]. rewrite (Hcr eq_refl). unfold relay_runs. rewrite Ep. split_and!; [done..|congruence|].
  split; [intros Hu; by destruct (Hun Hu)|done].
Qed.

Lemma relay_reconcile_spec env c w :
  relay_consistent w -> cleanup_ok env ->
  match relay_reconcile env c w with
  | (w', Ok _) => relay_consistent w' /\
      exists conf rules, relay_render c = Ok (conf, rules) /\ relay_runs conf rules w'
  | (w', Err _) => relay_consistent w' /\
      ((exists e, relay_render c = Err e /\ w' = w) \/ relay_off w')
  end.
Proof.
  intros Hw Hcl. unfold relay_reconcile.
  destruct (relay_render c) as [[conf rules]|e] eqn:Er; [|split; [done|left; by exists e]].
  destruct (reconcile_locked env c conf rules w) as [w1 [[]|e]] eqn:El.
  - assert (relay_runs conf rules w1) as Hr.
    { eapply reconcile_locked_ok; [exact Hw| |exact El].
      apply relay_render_spec in Er as (_ & _ & _ & H). apply H. }
    split; [|by exists conf, rules]. destruct Hr as (<- & <- & Hc & Hu). split; [done|by apply Hu].
  - pose proof (relay_cleanup_off env w1 Hcl) as (H1 & H2 & H3). split; [|by right].
    split; [by rewrite H2, H3|]. by rewrite H1.
Qed.

(** Reconciling the relay either puts dnsmasq, its configuration, the kernel
    chain and the stored policy in exactly the state the configuration asks
    for, running precisely when there is a relay, or reports an error; a
    rejected configuration changes nothing, and after every other error the
    clean-up leaves the relay stopped and its chain and policy empty.  Either
    way the chain and the policy file agree, so that the next firewall batch
    does not bring a stale policy back. *)
Theorem relay_fails_closed env c w :
  relay_consistent w -> cleanup_ok env ->
  match relay_reconcile env c w with
  | (w', Ok _) => relay_consistent w' /\
      exists conf rules, relay_render c = Ok (conf, rules) /\ relay_runs conf rules w'
  | (w', Err _) => relay_consistent w' /\
      ((exists e, relay_render c = Err e /\ w' = w) \/ relay_off w')
  end.
Proof. apply relay_reconcile_spec. Qed.

(** ** A box with two relays *)

Definition guest_bridge (name cidr : string) (server : list Z) : BridgeConfig :=
  mkBridgeConfig name [] (mkIpConfig Static [cidr] None) IpConfig_default None false None true
    (Some (mkDhcpRelayConfig server "eth0")).

Definition relay_net : NetworkConfig :=
  mkNetworkConfig [mkInterfaceConfig "eth0" true IpConfig_default IpConfig_default None None []] [] [] []
    [guest_bridge "br1" "10.1.0.1/16" [192; 168; 0; 2]; guest_bridge "br2" "10.2.0.1/16" [192; 168; 0; 2]] [].

Lemma relay_net_servers : servers_ok relay_net.
Proof. repeat constructor; cbn; lia. Qed.

Lemma relay_policy_sound_witness :
  exists conf rules, relay_render relay_net = Ok (conf, rules) /\ policy_ok rules.
Proof.
  destruct (relay_render relay_net) as [[conf rules]|e] eqn:E; [|vm_compute in E; discriminate].
  exists conf, rules. split; [reflexivity|].
  exact (proj1 (relay_policy_sound relay_net conf rules relay_net_servers E)).
Defined.

Definition relay_env (start : Outcome) : RelayEnv :=
  mkRelayEnv Done None None Done None None start Done Done None.
Definition relay_idle : RelayWorld := mkRelayWorld NoFile NoFile false "".

(** The daemon fails to start: the relay ends switched off. *)
Lemma relay_fails_closed_witness :
  relay_off (fst (relay_reconcile (relay_env (Failed false "no binary")) relay_net relay_idle)).
Proof.
  pose proof (relay_fails_closed (relay_env (Failed false "no binary")) relay_net relay_idle) as H.
  specialize (H ltac:(split; [reflexivity|discriminate]) ltac:(repeat split)).
  destruct (relay_reconcile (relay_env (Failed false "no binary")) relay_net relay_idle)
    as [w' [[]|e]] eqn:E; [vm_compute in E; discriminate|].
  destruct H as [_ [(e' & He & _)|Hoff]]; [vm_compute in He; discriminate|exact Hoff].
Defined.
