(* ===== verification/Network.v ===== *)
(** * Network updates (nasty-system/src/network.rs)

    Validation of an update, inheriting addresses, the classification of
    changes that may cut the administrator off, and the transactions that roll
    such a change back unless it is confirmed.  The world is the two files,
    what NetworkManager was last given, and the engine's memory; live kernel
    state, NetworkManager and the file system are outcomes given as arguments.
    Every effect records the world before it, so that a crash can strike
    between any two.  History copies, preview files, the InfiniBand drop-in and
    rebinding discovery daemons only log their failures and are left out;
    serializing a configuration cannot fail. *)

From Stdlib Require Import ZArith Lia Ascii String.
From stdpp Require Import base list gmap strings.
From S2P Require Import Prelude.
From S2P Require Import RustStr.
From S2P Require Import Firewall.
From S2P Require Import NetConfig.
From S2P Require Import DhcpRelay.

(** ** Validation *)

Definition validate_ip_config (ip : IpConfig) (label : string) : result unit string :=
  match ip_method ip, ip_addresses ip with
  | Static, [] => Err (label +:+ " static mode requires at least one address")
  | _, _ => Ok tt
  end.

(** One check after the other. *)
Definition and_then (r : result unit string) (k : result unit string) : result unit string :=
  match r with Ok _ => k | Err e => Err e end.

Definition validate_ips (v4 v6 : IpConfig) : result unit string :=
  and_then (validate_ip_config v4 "IPv4") (validate_ip_config v6 "IPv6").

Definition validate_bond (b : BondConfig) : result unit string :=
  if bool_decide (bo_members b = []) then Err ("Bond '" +:+ bo_name b +:+ "' has no members")
  else validate_ips (bo_ipv4 b) (bo_ipv6 b).

Definition validate_vlan (v : VlanConfig) : result unit string :=
  if (vl_id v =? 0) || (4094 <? vl_id v)
  then Err ("VLAN ID " +:+ fmt_dec (vl_id v) +:+ " is invalid (1-4094)")
  else validate_ips (vl_ipv4 v) (vl_ipv6 v).

Definition validate_bridge (b : BridgeConfig) : result unit string :=
  if String.eqb (br_name b) "" then Err "Bridge name is required"
  else validate_ips (br_ipv4 b) (br_ipv6 b).

Definition validate_macvlan (mgmt : option string) (m : MacvlanConfig) : result unit string :=
  if String.eqb (mv_name m) "" || String.eqb (mv_parent m) ""
  then Err "macvlan name and parent are required"
  else if bool_decide (mgmt = Some (mv_parent m))
  then Err ("refusing macvlan shim on management interface '" +:+ mv_parent m +:+ "'")
  else validate_ip_config (mv_ipv4 m) "IPv4".

Definition validate_input (c : NetworkConfig) (mgmt : option string) : result unit string :=
  and_then (try_each (fun i => validate_ips (if_ipv4 i) (if_ipv6 i)) (nc_interfaces c))
  (and_then (try_each validate_bond (nc_bonds c))
  (and_then (try_each validate_vlan (nc_vlans c))
  (and_then (try_each validate_bridge (nc_bridges c))
  (and_then (match relay_render c with Ok _ => Ok tt | Err e => Err e end)
  (try_each (validate_macvlan mgmt) (nc_macvlans c)))))).

Definition is_ib (kinds : gmap string string) (name : string) : bool :=
  bool_decide (kinds !! name = Some "infiniband").

Definition reject_ib_members (kinds : gmap string string) (members : list string)
    (message : string -> string) : result unit string :=
  match find_first (is_ib kinds) members with
  | Some m => Err (message m)
  | None => Ok tt
  end.

Definition reject_infiniband_refs (c : NetworkConfig) (kinds : gmap string string) : result unit string :=
  and_then (try_each (fun b => reject_ib_members kinds (bo_members b) (fun m =>
      "'" +:+ m +:+ "' is an InfiniBand (IPoIB) interface — it cannot be a member of bond '" +:+
      bo_name b +:+ "' (bonds are Ethernet-only; InfiniBand bonding is not yet supported, see #602)"))
    (nc_bonds c))
  (and_then (try_each (fun b => reject_ib_members kinds (br_members b) (fun m =>
      "'" +:+ m +:+ "' is an InfiniBand (IPoIB) interface — it cannot be enslaved to bridge '" +:+
      br_name b +:+ "' (bridges are Ethernet-only)"))
    (nc_bridges c))
  (and_then (try_each (fun v => if is_ib kinds (vl_parent v) then
      Err ("'" +:+ vl_parent v +:+ "' is an InfiniBand (IPoIB) interface — VLANs on InfiniBand are not supported (IB partitions use P_Keys, not 802.1Q; see #602)")
      else Ok tt) (nc_vlans c))
  (try_each (fun m => if is_ib kinds (mv_parent m) then
      Err ("'" +:+ mv_parent m +:+ "' is an InfiniBand (IPoIB) interface — macvlan requires an Ethernet parent")
      else Ok tt) (nc_macvlans c)))).

Definition is_valid_mac (mac : string) : bool :=
  let parts := str_split ":" mac in
  (length parts =? 6)%nat &&
  forallb (fun p => (String.length p =? 2)%nat && forallb is_ascii_hexdigit (to_bytes p)) parts.

(** One entry of [validate_vf_properties], after those with the indices [seen]. *)
Definition check_vf (name : string) (count : Z) (seen : gset Z) (vf : VfConfig) : result unit string :=
  if count <=? vf_index vf then
    Err ("'" +:+ name +:+ "' creates " +:+ fmt_dec count +:+ " VFs — VF index " +:+
         fmt_dec (vf_index vf) +:+ " is out of range (0–" +:+ fmt_dec (Z.max 0 (count - 1)) +:+ ")")
  else if bool_decide (vf_index vf ∈ seen) then
    Err ("'" +:+ name +:+ "' has duplicate configuration for VF index " +:+ fmt_dec (vf_index vf))
  else if from_option (fun vlan => negb ((1 <=? vlan) && (vlan <=? 4094))) false (vf_vlan vf) then
    Err ("VF " +:+ fmt_dec (vf_index vf) +:+ " on '" +:+ name +:+ "': VLAN " +:+
         fmt_dec (default 0 (vf_vlan vf)) +:+ " is not a valid 802.1Q id (1–4094)")
  else if from_option (fun mac => negb (is_valid_mac mac)) false (vf_mac vf) then
    Err ("VF " +:+ fmt_dec (vf_index vf) +:+ " on '" +:+ name +:+ "': '" +:+ default "" (vf_mac vf) +:+
         "' is not a valid MAC address (expected six colon-separated hex octets)")
  else Ok tt.

Fixpoint check_vfs (name : string) (count : Z) (seen : gset Z) (vfs : list VfConfig)
    : result unit string :=
  match vfs with
  | [] => Ok tt
  | vf :: rest =>
      and_then (check_vf name count seen vf) (check_vfs name count ({[ vf_index vf ]} ∪ seen) rest)
  end.

Definition validate_vf_properties (i : InterfaceConfig) : result unit string :=
  if bool_decide (length (if_vfs i) = 0%nat) then Ok tt
  else match if_sriov_num_vfs i with
       | None => Err ("'" +:+ if_name i +:+ "' has per-VF properties but no VF count — set the VF count on the interface first")
       | Some count => check_vfs (if_name i) count ∅ (if_vfs i)
       end.

Definition check_sriov (caps : gmap string (option Z)) (i : InterfaceConfig) : result unit string :=
  and_then (validate_vf_properties i)
  match if_sriov_num_vfs i with
  | None => Ok tt
  | Some n =>
      match caps !! if_name i with
      | Some (Some total) =>
          if total <? n then
            Err ("'" +:+ if_name i +:+ "' supports at most " +:+ fmt_dec total +:+
                 " virtual functions (requested " +:+ fmt_dec n +:+ ")")
          else Ok tt
      | Some None =>
          Err ("'" +:+ if_name i +:+ "' is not SR-IOV capable — it exposes no sriov_totalvfs; VF count cannot be configured on it")
      | None => Ok tt
      end
  end.

Definition validate_sriov (c : NetworkConfig) (caps : gmap string (option Z)) : result unit string :=
  try_each (check_sriov caps) (nc_interfaces c).

(** Names that bonds, bridges, macvlans and VLANs of the configuration take. *)
Definition virtual_names (c : NetworkConfig) : list string :=
  (bo_name <$> nc_bonds c) ++ (br_name <$> nc_bridges c) ++ (mv_name <$> nc_macvlans c) ++
  ((fun v => vlan_name (vl_parent v) (vl_id v)) <$> nc_vlans c).

Definition superseded (c : NetworkConfig) (live : gset string) (i : InterfaceConfig) : bool :=
  one_of (virtual_names c) (if_name i) && negb (bool_decide (if_name i ∈ live)).

(** The configuration left; the names dropped are only logged. *)
Definition supersede_absent_physical_entries (c : NetworkConfig) (live : gset string) : NetworkConfig :=
  let drop := if_name <$> List.filter (superseded c live) (nc_interfaces c) in
  if bool_decide (drop = []) then c
  else with_interfaces (retain (fun i => negb (one_of drop (if_name i))) (nc_interfaces c)) c.

(** ** Risk *)

Definition last_bridge (n : string) (bs : list BridgeConfig) : option BridgeConfig :=
  foldl (fun acc b => if String.eqb (br_name b) n then Some b else acc) None bs.
Definition last_bond (n : string) (bs : list BondConfig) : option BondConfig :=
  foldl (fun acc b => if String.eqb (bo_name b) n then Some b else acc) None bs.

Definition joins_bridge (prev : NetworkConfig) (mgmt : string) (b : BridgeConfig) : bool :=
  one_of (br_members b) mgmt &&
  negb (from_option (fun p => one_of (br_members p) mgmt) false (last_bridge (br_name b) (nc_bridges prev))).
Definition joins_bond (prev : NetworkConfig) (mgmt : string) (b : BondConfig) : bool :=
  one_of (bo_members b) mgmt &&
  negb (from_option (fun p => one_of (bo_members p) mgmt) false (last_bond (bo_name b) (nc_bonds prev))).

Definition named_iface (n : string) (c : NetworkConfig) : option InterfaceConfig :=
  find_first (fun i => String.eqb (if_name i) n) (nc_interfaces c).

Definition iface_risk (prev next : NetworkConfig) (mgmt : string) : option string :=
  match named_iface mgmt prev, named_iface mgmt next with
  | Some p, Some n =>
      if negb (bool_decide (if_ipv4 p = if_ipv4 n)) || negb (bool_decide (if_ipv6 p = if_ipv6 n))
      then Some ("IP config of management iface " +:+ mgmt +:+ " is changing")
      else if negb (bool_decide (if_mtu p = if_mtu n))
      then Some ("MTU of management iface " +:+ mgmt +:+ " is changing")
      else if if_enabled p && negb (if_enabled n)
      then Some ("management iface " +:+ mgmt +:+ " is being disabled") else None
  | Some _, None => Some ("management iface " +:+ mgmt +:+ " is being removed from config")
  | None, _ => None
  end.

Definition bridge_removed (next : NetworkConfig) (mgmt : string) (b : BridgeConfig) : option string :=
  if one_of (br_name <$> nc_bridges next) (br_name b) then None
  else if String.eqb (br_name b) mgmt then Some ("management bridge " +:+ mgmt +:+ " is being removed")
  else if one_of (br_members b) mgmt
  then Some ("management iface " +:+ mgmt +:+ " is being released from bridge " +:+ br_name b +:+ " that's being removed")
  else None.
Definition bond_removed (next : NetworkConfig) (mgmt : string) (b : BondConfig) : option string :=
  if one_of (bo_name <$> nc_bonds next) (bo_name b) then None
  else if String.eqb (bo_name b) mgmt then Some ("management bond " +:+ mgmt +:+ " is being removed")
  else if one_of (bo_members b) mgmt
  then Some ("management iface " +:+ mgmt +:+ " is being released from bond " +:+ bo_name b +:+ " that's being removed")
  else None.

Definition or_else {A} (o : option A) (k : option A) : option A :=
  match o with Some x => Some x | None => k end.

Definition classify_risk (prev next : NetworkConfig) (mgmt_iface : option string) : option string :=
  match mgmt_iface with
  | None =>
      if negb (bool_decide (nc_bonds prev = nc_bonds next)) || negb (bool_decide (nc_bridges prev = nc_bridges next))
         || negb (bool_decide (nc_vlans prev = nc_vlans next))
      then Some "management iface unknown — applying topology change with rollback safety net"
      else None
  | Some mgmt =>
      or_else (find_map (fun b => if joins_bridge prev mgmt b
        then Some ("management iface " +:+ mgmt +:+ " is being enslaved into bridge " +:+ br_name b)
        else None) (nc_bridges next))
      (or_else (find_map (fun b => if joins_bond prev mgmt b
        then Some ("management iface " +:+ mgmt +:+ " is being enslaved into bond " +:+ bo_name b)
        else None) (nc_bonds next))
      (or_else (iface_risk prev next mgmt)
      (or_else (find_map (bridge_removed next mgmt) (nc_bridges prev))
      (find_map (bond_removed next mgmt) (nc_bonds prev)))))
  end.

(** ** Inheriting addresses *)

Record LiveTopology : Type := mkLiveTopology {
  lt_addrs_v4 : gmap string (list string);
  lt_addrs_v6 : gmap string (list string);
  lt_default_via_v4 : gmap string string;
  lt_default_via_v6 : gmap string string;
  lt_dhcp_managed_v4 : gset string;
}.

Definition addrs (t : LiveTopology) (iface : string) (v6 : bool) : list string :=
  default [] ((if v6 then lt_addrs_v6 t else lt_addrs_v4 t) !! iface).
Definition default_via (t : LiveTopology) (iface : string) (v6 : bool) : option string :=
  (if v6 then lt_default_via_v6 t else lt_default_via_v4 t) !! iface.
Definition is_dhcp_managed_v4 (t : LiveTopology) (iface : string) : bool :=
  bool_decide (iface ∈ lt_dhcp_managed_v4 t).

(** What a member's previous configuration gives. *)
Definition inherit_prev (prev : NetworkConfig) (v6 : bool) (member : string) : option IpConfig :=
  i ← named_iface member prev;
  let ip := if v6 then if_ipv6 i else if_ipv4 i in
  match ip_method ip with
  | Dhcp => Some (mkIpConfig Dhcp [] None)
  | Static => if bool_decide (ip_addresses ip = []) then None else Some ip
  | Slaac => if v6 then Some (mkIpConfig Slaac [] None) else None
  | Inherit | Disabled => None
  end.

(** What the live kernel state gives. *)
Definition inherit_live (t : LiveTopology) (v6 : bool) (member : string) : option IpConfig :=
  if negb v6 && is_dhcp_managed_v4 t member then Some (mkIpConfig Dhcp [] None)
  else match addrs t member v6 with
       | [] => None
       | live => Some (mkIpConfig Static live (default_via t member v6))
       end.

Fixpoint resolve_inherit_one (members : list string) (prev : NetworkConfig) (t : LiveTopology)
    (v6 : bool) : IpConfig :=
  match members with
  | [] => IpConfig_default
  | m :: rest =>
      match inherit_prev prev v6 m with
      | Some ip => ip
      | None => match inherit_live t v6 m with
                | Some ip => ip
                | None => resolve_inherit_one rest prev t v6
                end
      end
  end.

Definition resolve_ip (ip : IpConfig) (members : list string) (prev : NetworkConfig)
    (t : LiveTopology) (v6 : bool) : IpConfig :=
  if bool_decide (ip_method ip = Inherit) then resolve_inherit_one members prev t v6 else ip.

Definition resolve_bridge (prev : NetworkConfig) (t : LiveTopology) (b : BridgeConfig) : BridgeConfig :=
  mkBridgeConfig (br_name b) (br_members b)
    (resolve_ip (br_ipv4 b) (br_members b) prev t false)
    (resolve_ip (br_ipv6 b) (br_members b) prev t true)
    (br_mtu b) (br_stp b) (br_forward_delay_s b) (br_inherit_member_mac b) (br_dhcp_relay b).

Definition resolve_inherit (c prev : NetworkConfig) (t : LiveTopology) : NetworkConfig :=
  with_bridges (resolve_bridge prev t <$> nc_bridges c) c.

(** ** Transactions *)

Record PendingTxn : Type := mkPendingTxn {
  pt_revert_at : Z;
  pt_risk_reason : string;
  pt_cancel : bool;          (** the confirmation window is open *)
}.

Record NetWorld : Type := mkNetWorld {
  nw_config : JsonFile NetworkConfig;        (** networking.json *)
  nw_revert : JsonFile NetworkConfig;        (** networking.json.pending-revert *)
  nw_applied : option NetworkConfig;         (** what NetworkManager last took *)
  nw_txns : gmap string PendingTxn;
  nw_timers : gset string;                   (** rollback tasks that have not ended *)
  nw_counter : Z;
}.

(** The worlds of an operation: the present one and those before each effect. *)
Abbreviation nop := (stm (NetWorld * list NetWorld) string).

Definition now_world : nop NetWorld := fun s => (s, Ok (fst s)).
Definition change (f : NetWorld -> NetWorld) : nop unit := fun s => ((f (fst s), fst s :: snd s), Ok tt).

Definition with_config (c : NetworkConfig) (w : NetWorld) : NetWorld :=
  mkNetWorld (GoodFile c) (nw_revert w) (nw_applied w) (nw_txns w) (nw_timers w) (nw_counter w).
Definition with_revert (f : JsonFile NetworkConfig) (w : NetWorld) : NetWorld :=
  mkNetWorld (nw_config w) f (nw_applied w) (nw_txns w) (nw_timers w) (nw_counter w).
Definition with_applied (o : option NetworkConfig) (w : NetWorld) : NetWorld :=
  mkNetWorld (nw_config w) (nw_revert w) o (nw_txns w) (nw_timers w) (nw_counter w).
Definition with_txns (m : gmap string PendingTxn) (w : NetWorld) : NetWorld :=
  mkNetWorld (nw_config w) (nw_revert w) (nw_applied w) m (nw_timers w) (nw_counter w).

Definition load_config (w : NetWorld) : NetworkConfig :=
  match nw_config w with GoodFile c => c | _ => NetworkConfig_default end.

(** How one [apply_config] ends: connections that failed, or an error that may
    have left NetworkManager between two configurations. *)
Inductive ApplyOut : Type :=
| Applied (errors : list (string * string))
| ApplyFailed (touched : bool) (e : string).

Record LiveInterface : Type := mkLiveInterface {
  li_name : string;
  li_mac : string;
  li_kind : string;
  li_sriov_total_vfs : option Z;
}.

Record NetEnv : Type := mkNetEnv {
  ne_topology : LiveTopology;
  ne_interfaces : list LiveInterface;
  ne_now : Z;
  ne_snapshot : option string;     (** writing the pending-revert file *)
  ne_write : option string;        (** writing networking.json *)
  ne_apply : ApplyOut;
  ne_reapply : ApplyOut;           (** the second apply of [apply_with_vf_settle] *)
  ne_remove : option string;       (** removing the pending-revert file *)
}.

Definition persist_config (env : NetEnv) (c : NetworkConfig) : nop unit :=
  match NetConfig.validate (to_layered c) with
  | Err e => m_throw ("network config rejected by validator: " +:+ e)
  | Ok _ =>
      match ne_write env with
      | Some e => m_throw ("failed to write /var/lib/nasty/networking.json: " +:+ e)
      | None => change (with_config c)
      end
  end.

Definition apply_config (o : ApplyOut) (c : NetworkConfig) : nop (list (string * string)) :=
  match o with
  | Applied errors => change (with_applied (Some c)) ;;; m_ret errors
  | ApplyFailed true e => change (with_applied None) ;;; m_throw e
  | ApplyFailed false e => m_throw e
  end.

Definition apply_with_vf_settle (env : NetEnv) (c : NetworkConfig) (live : gset string)
    : nop (list (string * string)) :=
  outcome <~ apply_config (ne_apply env) c ;;
  let creates_vfs := existsb (fun i => 0 <? default 0 (if_sriov_num_vfs i)) (nc_interfaces c) in
  let has_absent := existsb (fun i => negb (bool_decide (if_name i ∈ live))) (nc_interfaces c) in
  if creates_vfs && has_absent then apply_config (ne_reapply env) c else m_ret outcome.

(** [remove_file]; a missing file is an error of the kind [NotFound]. *)
Definition remove_revert (env : NetEnv) : nop bool :=
  w <~ now_world ;;
  match nw_revert w, ne_remove env with
  | NoFile, _ => m_ret false
  | _, Some e => m_throw e
  | _, None => change (with_revert NoFile) ;;; m_ret true
  end.

Definition new_txn_id (now counter : Z) : string := fmt_hex now +:+ "-" +:+ fmt_hex counter.

Definition schedule_rollback (id : string) (revert_at : Z) (reason : string) : nop unit :=
  change (fun w => mkNetWorld (nw_config w) (nw_revert w) (nw_applied w)
    (<[id := mkPendingTxn revert_at reason true]> (nw_txns w)) ({[ id ]} ∪ nw_timers w)
    (nw_counter w + 1)).

Record UpdateRequest : Type := mkUpdateRequest {
  rq_config : NetworkConfig;
  rq_confirm_within_secs : option Z;
}.

Record UpdateResponse : Type := mkUpdateResponse {
  ur_txn_id : option string;
  ur_revert_at : option Z;
  ur_risk_reason : option string;
  ur_apply_errors : list (string * string);
}.

(** [collect] of (name, value) pairs into a map. *)
Definition collect {A} (f : LiveInterface -> A) (l : list LiveInterface) : gmap string A :=
  foldl (fun m i => <[li_name i := f i]> m) ∅ l.

(** The configuration an update is going to apply, or why it is refused. *)
Definition prepare (env : NetEnv) (prev : NetworkConfig) (mgmt : option string) (c : NetworkConfig)
    : result NetworkConfig string :=
  match validate_input c mgmt with
  | Err e => Err e
  | Ok _ =>
      let c1 := resolve_inherit c prev (ne_topology env) in
      let live := list_to_set (li_name <$> ne_interfaces env) : gset string in
      match and_then (reject_infiniband_refs c1 (collect li_kind (ne_interfaces env)))
              (and_then (validate_sriov c1 (collect li_sriov_total_vfs (ne_interfaces env)))
                 (validate_upstreams c1 live)) with
      | Err e => Err e
      | Ok _ => Ok (supersede_absent_physical_entries c1 live)
      end
  end.

(** The confirmation window of a change. *)
Definition rollback_secs (confirm_within : option Z) (risk : option string) : option Z :=
  match confirm_within, risk with
  | Some n, _ => if n =? 0 then None else Some n
  | None, Some _ => Some 30
  | None, None => None
  end.

Definition update (env : NetEnv) (rq : UpdateRequest) (mgmt : option string) : nop UpdateResponse :=
  w <~ now_world ;;
  match map_to_list (nw_txns w) with
  | (id, _) :: _ => m_throw ("network transaction " +:+ id +:+ " is still awaiting confirmation")
  | [] =>
  match nw_revert w with
  | BadFile _ | GoodFile _ =>
      m_throw "a pending network rollback snapshot requires recovery before another update"
  | NoFile =>
  let prev := load_config w in
  c <~ m_lift (prepare env prev mgmt (rq_config rq)) ;;
  let live := list_to_set (li_name <$> ne_interfaces env) : gset string in
  let risk := classify_risk prev c mgmt in
  match rollback_secs (rq_confirm_within_secs rq) risk with
  | Some secs =>
      match ne_snapshot env with
      | Some e => m_throw ("write /var/lib/nasty/networking.json.pending-revert: " +:+ e)
      | None => change (with_revert (GoodFile prev))
      end ;;;
      persist_config env c ;;;
      outcome <~ apply_with_vf_settle env c live ;;
      let id := new_txn_id (ne_now env) (nw_counter w) in
      let revert_at := u64_add (ne_now env) secs in
      let reason := default "explicit confirm requested" risk in
      schedule_rollback id revert_at reason ;;;
      m_ret (mkUpdateResponse (Some id) (Some revert_at) (Some reason) outcome)
  | None =>
      persist_config env c ;;;
      outcome <~ apply_with_vf_settle env c live ;;
      m_ret (mkUpdateResponse None None None outcome)
  end
  end
  end.

Definition pending (w : NetWorld) : list (string * Z * string) :=
  (fun kv => (fst kv, pt_revert_at (snd kv), pt_risk_reason (snd kv))) <$> map_to_list (nw_txns w).

Definition confirm (env : NetEnv) (id : string) : nop unit :=
  w <~ now_world ;;
  match nw_txns w !! id with
  | None => m_throw ("unknown or already-completed txn_id " +:+ id)
  | Some txn =>
      if negb (pt_cancel txn)
      then m_throw ("network txn " +:+ id +:+ " rollback is already in progress or failed")
      else
        remove_revert env ;;;
        change (fun w => with_txns (delete id (nw_txns w)) w)
  end.

(** Reads the pending-revert file, persists and applies it, removes the file. *)
Definition perform_rollback (env : NetEnv) : nop unit :=
  w <~ now_world ;;
  match nw_revert w with
  | NoFile => m_throw "pending-revert file disappeared"
  | BadFile e => m_throw ("unparseable pending-revert: " +:+ e)
  | GoodFile prev =>
      persist_config env prev ;;;
      apply_config (ne_apply env) prev ;;;
      existed <~ remove_revert env ;;
      if existed : bool then m_ret tt else m_throw "remove pending-revert after apply"
  end.

(** The rollback task of [schedule_rollback] when its timer fires.  A task that
    [confirm] cancelled ends without effect; firing it then has none either. *)
Definition timer_fires (env : NetEnv) (id : string) : nop unit :=
  change (fun w => mkNetWorld (nw_config w) (nw_revert w) (nw_applied w) (nw_txns w)
                     (nw_timers w ∖ {[ id ]}) (nw_counter w)) ;;;
  w <~ now_world ;;
  match nw_txns w !! id with
  | None => m_ret tt
  | Some txn =>
      change (fun w => with_txns
        (<[id := mkPendingTxn (pt_revert_at txn) (pt_risk_reason txn) false]> (nw_txns w)) w) ;;;
      fun s =>
        match perform_rollback env s with
        | (s', Ok _) => change (fun w => with_txns (delete id (nw_txns w)) w) s'
        | (s', Err e) =>
            change (fun w => with_txns (<[id := mkPendingTxn (pt_revert_at txn)
              ("Automatic rollback failed: " +:+ e) false]> (nw_txns w)) w) s'
        end
  end.

(** [nm_apply]: push the stored configuration again. *)
Definition nm_apply (env : NetEnv) : nop (list (string * string)) :=
  w <~ now_world ;; apply_config (ne_apply env) (load_config w).

(** What [restore_pending_revert] does at start-up; it only logs its errors. *)
Definition restore_pending_revert (env : NetEnv) : nop unit :=
  w <~ now_world ;;
  match nw_revert w with
  | NoFile => m_ret tt
  | BadFile _ => m_ignore (remove_revert env)
  | GoodFile prev =>
      m_ignore (persist_config env prev ;;; apply_config (ne_apply env) prev ;;; remove_revert env)
  end.

(** A restart forgets transactions and tasks, then restores. *)
Definition net_restart (env : NetEnv) (w : NetWorld) : NetWorld * list NetWorld :=
  let w0 := mkNetWorld (nw_config w) (nw_revert w) (nw_applied w) ∅ ∅ 0 in
  fst (restore_pending_revert env (w0, [])).
