(* ===== verification/NetworkProps.v ===== *)
(** * Network changes stay only when they are confirmed

    The invariant of the update transactions of network.rs under failing calls,
    crashes between any two effects and restarts, and what it gives: the
    configuration the box falls back to changes only by a change judged safe,
    one that opted out of the safety net, or a confirmation; and a rollback or
    restart that is not hindered restores exactly that configuration. *)

From Stdlib Require Import ZArith Lia Ascii String.
From stdpp Require Import base list gmap strings.
From S2P Require Import Prelude.
From S2P Require Import RustStr.
From S2P Require Import Firewall.
From S2P Require Import NetConfig.
From S2P Require Import DhcpRelay.
From S2P Require Import Network.

Inductive NetOp : Type :=
| OpUpdate (rq : UpdateRequest) (mgmt : option string)
| OpConfirm (id : string)
| OpTimer (id : string)
| OpNmApply.

Definition run_net_op (env : NetEnv) (op : NetOp) (w : NetWorld) : NetWorld * list NetWorld :=
  match op with
  | OpUpdate rq mgmt => fst (update env rq mgmt (w, []))
  | OpConfirm id => fst (confirm env id (w, []))
  | OpTimer id => fst (timer_fires env id (w, []))
  | OpNmApply => fst (nm_apply env (w, []))
  end.

(** Every world an operation passes through. *)
Definition worlds (s : NetWorld * list NetWorld) : list NetWorld := fst s :: snd s.

Definition valid_net (c : NetworkConfig) : Prop := NetConfig.validate (to_layered c) = Ok tt.

Definition valid_file (f : JsonFile NetworkConfig) : Prop :=
  match f with GoodFile c => valid_net c | _ => True end.

(** The configuration the box falls back to when nobody confirms. *)
Definition baseline (w : NetWorld) : NetworkConfig :=
  match nw_revert w with GoodFile c => c | _ => load_config w end.

Definition files_ok (w : NetWorld) : Prop :=
  valid_file (nw_config w) /\ valid_file (nw_revert w) /\ (forall e, nw_revert w <> BadFile e).

Definition net_inv (w : NetWorld) : Prop :=
  files_ok w /\
  (forall i j, is_Some (nw_txns w !! i) -> is_Some (nw_txns w !! j) -> i = j) /\
  (nw_txns w <> ∅ -> exists c, nw_revert w = GoodFile c) /\
  (forall id txn, nw_txns w !! id = Some txn -> pt_cancel txn = true -> id ∈ nw_timers w).

(** An engine that starts with no transaction under way, and everything that
    follows: operations with any outcomes, and a crash at any point of one
    followed by a restart, which may itself be cut short anywhere. *)
Inductive net_reach : NetWorld -> Prop :=
| net_start c applied :
    valid_file c -> net_reach (mkNetWorld c NoFile applied ∅ ∅ 0)
| net_op w env op : net_reach w -> net_reach (fst (run_net_op env op w))
| net_crash w env op env' x y :
    net_reach w -> x ∈ worlds (run_net_op env op w) -> y ∈ worlds (net_restart env' x) -> net_reach y.

(** ** The effects *)

Definition touched (w x : NetWorld) : Prop := exists o, x = with_applied o w.

Lemma touched_refl w : touched w w.
Proof. exists (nw_applied w). by destruct w. Qed.

Lemma touched_trans w x y : touched w x -> touched x y -> touched w y.
Proof. intros [o ->] [o' ->]. by exists o'. Qed.

(** [m] only hands configurations to NetworkManager. *)
Definition only_applies {A} (m : nop A) : Prop :=
  forall w t, exists w' t', fst (m (w, t)) = (w', t' ++ t) /\ touched w w' /\ Forall (touched w) t'.

Lemma apply_config_only o c : only_applies (apply_config o c).
Proof.
  intros w t. destruct o as [errors|[] e]; cbn.
  - exists (with_applied (Some c) w), [w]. split_and!; [done|by eexists|by constructor; [apply touched_refl|]].
  - exists (with_applied None w), [w]. split_and!; [done|by eexists|by constructor; [apply touched_refl|]].
  - exists w, []. split_and!; [done|apply touched_refl|constructor].
Qed.

Lemma apply_config_ok o c s s' errs :
  apply_config o c s = (s', Ok errs) -> nw_applied (fst s') = Some c.
Proof. destruct o as [errors|[] e], s; cbn; by intros [= <- <-]. Qed.

Lemma only_applies_bind {A B} (m : nop A) (k : A -> nop B) :
  only_applies m -> (forall a, only_applies (k a)) -> only_applies (m_bind m k).
Proof.
  intros Hm Hk w t. unfold m_bind. destruct (Hm w t) as (w1 & t1 & E & H1 & F1).
  destruct (m (w, t)) as [s [a|e]] eqn:Em; cbn in E; subst s.
  - destruct (Hk a w1 (t1 ++ t)) as (w2 & t2 & -> & H2 & F2).
    exists w2, (t2 ++ t1). split_and!; [by rewrite <- app_assoc|by eapply touched_trans|].
    apply Forall_app. split; [|done]. eapply Forall_impl; [exact F2|]. intros. by eapply touched_trans.
  - by exists w1, t1.
Qed.

Lemma only_applies_ret {A} (a : A) : only_applies (m_ret a).
Proof. intros w t. exists w, []. split_and!; [done|apply touched_refl|constructor]. Qed.

Lemma settle_only env c live : only_applies (apply_with_vf_settle env c live).
Proof.
  apply only_applies_bind; [apply apply_config_only|]. intros errs. cbn zeta.
  destruct (_ && _); [apply apply_config_only|apply only_applies_ret].
Qed.

Lemma persist_config_spec env c s :
  (exists e, persist_config env c s = (s, Err e)) \/
  (valid_net c /\ persist_config env c s = ((with_config c (fst s), fst s :: snd s), Ok tt)).
Proof.
  unfold persist_config, valid_net. destruct (NetConfig.validate (to_layered c)) as [[]|e].
  - destruct (ne_write env) as [e|]; [left; by eexists|by right].
  - left. by eexists.
Qed.

Lemma remove_revert_spec env s :
  (exists r, remove_revert env s = (s, r) /\ (r = Ok false -> nw_revert (fst s) = NoFile)
             /\ r <> Ok true) \/
  remove_revert env s = ((with_revert NoFile (fst s), fst s :: snd s), Ok true).
Proof.
  unfold remove_revert, now_world, m_bind. cbn.
  destruct (nw_revert (fst s)) eqn:E, (ne_remove env); cbn; try (by right);
    left; eexists; split_and!; try done; by destruct s.
Qed.

(** ** The worlds of an update *)

Definition snapshotted (w : NetWorld) : NetWorld := with_revert (GoodFile (load_config w)) w.

Definition scheduled (w : NetWorld) (c : NetworkConfig) (x : NetWorld) : Prop :=
  exists o id txn, pt_cancel txn = true /\
    x = mkNetWorld (GoodFile c) (GoodFile (load_config w)) o {[ id := txn ]} ({[ id ]} ∪ nw_timers w)
          (nw_counter w + 1).

(** With a window: the snapshot comes first, then the new configuration. *)
Definition with_window (w : NetWorld) (c : NetworkConfig) (x : NetWorld) : Prop :=
  x = w \/ x = snapshotted w \/
  (valid_net c /\ (touched (with_config c (snapshotted w)) x \/ scheduled w c x)).

Definition without_window (w : NetWorld) (c : NetworkConfig) (x : NetWorld) : Prop :=
  x = w \/ (valid_net c /\ touched (with_config c w) x).

Definition window (env : NetEnv) (rq : UpdateRequest) (mgmt : option string) (w : NetWorld)
    (c : NetworkConfig) : option Z :=
  rollback_secs (rq_confirm_within_secs rq) (classify_risk (load_config w) c mgmt).

Lemma settle_worlds env c live w t (P : NetWorld -> Prop) :
  Forall P t -> (forall x, touched w x -> P x) ->
  Forall P (worlds (fst (apply_with_vf_settle env c live (w, t)))) /\
  touched w (fst (fst (apply_with_vf_settle env c live (w, t)))).
Proof.
  intros Ht HP. destruct (settle_only env c live w t) as (w' & t' & -> & Hw & HF). cbn. split; [|done].
  constructor; [by apply HP|]. apply Forall_app. split; [|done].
  eapply Forall_impl; [exact HF|]. exact HP.
Qed.

(** The effects of an update that passed its checks. *)
Definition update_effects (env : NetEnv) (rq : UpdateRequest) (mgmt : option string) (w : NetWorld)
    (c : NetworkConfig) : nop UpdateResponse :=
  let live := list_to_set (li_name <$> ne_interfaces env) : gset string in
  let risk := classify_risk (load_config w) c mgmt in
  match window env rq mgmt w c with
  | Some secs =>
      match ne_snapshot env with
      | Some e => m_throw ("write /var/lib/nasty/networking.json.pending-revert: " +:+ e)
      | None => change (with_revert (GoodFile (load_config w)))
      end ;;;
      persist_config env c ;;;
      outcome <~ apply_with_vf_settle env c live ;;
      let id := new_txn_id (ne_now env) (nw_counter w) in
      let revert_at := u64_add (ne_now env) secs in
      let reason := default "explicit confirm requested" risk in
      schedule_rollback id revert_at reason ;;;
      m_ret (mkUpdateResponse (Some id) (Some revert_at) (Some reason) outcome)
  | None =>
      persist_config env c ;;;
      outcome <~ apply_with_vf_settle env c live ;;
      m_ret (mkUpdateResponse None None None outcome)
  end.

Lemma update_cases env rq mgmt w :
  (exists e, update env rq mgmt (w, []) = ((w, []), Err e)) \/
  exists c, nw_txns w = ∅ /\ nw_revert w = NoFile /\
    prepare env (load_config w) mgmt (rq_config rq) = Ok c /\
    update env rq mgmt (w, []) = update_effects env rq mgmt w c (w, []).
Proof.
  remember (update env rq mgmt (w, [])) as out eqn:E. revert E.
  unfold update, now_world. unfold m_bind at 1. change (fst (w, @nil NetWorld)) with w.
  destruct (map_to_list (nw_txns w)) as [|[id txn] l] eqn:Et; [|intros ->; left; by eexists].
  apply map_to_list_empty_iff in Et. destruct (nw_revert w) eqn:Er; [|intros ->; left; by eexists..].
  unfold m_bind at 1, m_lift.
  destruct (prepare env (load_config w) mgmt (rq_config rq)) as [c|e] eqn:Ep; [|intros ->; left; by eexists].
  intros ->. right. exists c. split_and!; done.
Qed.

Lemma with_window_worlds env rq mgmt w c :
  nw_txns w = ∅ -> is_Some (window env rq mgmt w c) ->
  Forall (with_window w c) (worlds (fst (update_effects env rq mgmt w c (w, [])))).
Proof.
  intros Et [secs Ew]. unfold update_effects. rewrite Ew. cbv zeta.
  assert (with_window w c w) as Hw0 by (by left).
  assert (with_window w c (snapshotted w)) as Hw1 by (right; by left).
  unfold m_bind at 1. destruct (ne_snapshot env) as [e|]; [by repeat constructor|].
  unfold change at 1. change (with_revert (GoodFile (load_config w)) (fst (w, @nil NetWorld))) with (snapshotted w).
  change (fst (w, @nil NetWorld)) with w. change (snd (w, @nil NetWorld)) with (@nil NetWorld).
  unfold m_bind at 1.
  destruct (persist_config_spec env c (snapshotted w, [w])) as [[e ->]|[Hv ->]]; cbn [fst snd].
  { by repeat constructor. }
  unfold m_bind at 1.
  destruct (settle_worlds env c (list_to_set (li_name <$> ne_interfaces env))
    (with_config c (snapshotted w)) [snapshotted w; w] (with_window w c)) as [HF Hfin].
  { by repeat constructor. }
  { intros x Hx. right. right. split; [done|by left]. }
  destruct (apply_with_vf_settle _ _ _ _) as [[w' t'] [errs|e]]; cbn [fst] in *; [|done].
  unfold schedule_rollback, change, m_bind. cbn. constructor; [|done].
  right. right. split; [done|]. right. destruct Hfin as [o ->]. cbn. rewrite Et.
  eexists o, _, (mkPendingTxn (u64_add (ne_now env) secs)
    (default "explicit confirm requested" (classify_risk (load_config w) c mgmt)) true).
  split; reflexivity.
Qed.

Lemma without_window_worlds env rq mgmt w c :
  window env rq mgmt w c = None ->
  Forall (without_window w c) (worlds (fst (update_effects env rq mgmt w c (w, [])))).
Proof.
  intros Ew. unfold update_effects. rewrite Ew. cbv zeta. unfold m_bind at 1.
  assert (without_window w c w) as Hw0 by (by left).
  destruct (persist_config_spec env c (w, [])) as [[e ->]|[Hv ->]]; cbn [fst snd].
  { by repeat constructor. }
  unfold m_bind at 1.
  destruct (settle_worlds env c (list_to_set (li_name <$> ne_interfaces env))
    (with_config c w) [w] (without_window w c)) as [HF _].
  { by repeat constructor. }
  { intros x Hx. right. by split. }
  destruct (apply_with_vf_settle _ _ _ _) as [[w' t'] [errs|e]]; cbn in *; done.
Qed.

Lemma update_spec env rq mgmt w :
  worlds (fst (update env rq mgmt (w, []))) = [w] \/
  exists c, nw_txns w = ∅ /\ nw_revert w = NoFile /\
    prepare env (load_config w) mgmt (rq_config rq) = Ok c /\
    ((window env rq mgmt w c = None /\
      Forall (without_window w c) (worlds (fst (update env rq mgmt (w, []))))) \/
     (is_Some (window env rq mgmt w c) /\
      Forall (with_window w c) (worlds (fst (update env rq mgmt (w, [])))))).
Proof.
  destruct (update_cases env rq mgmt w) as [[e ->]|(c & Et & Er & Ep & ->)]; [by left|].
  right. exists c. split_and!; [done..|]. destruct (window env rq mgmt w c) as [secs|] eqn:Ew.
  - right. split; [by eexists|]. apply with_window_worlds; [done|by eexists].
  - left. split; [done|]. by apply without_window_worlds.
Qed.

Lemma inv_no_txns w : files_ok w -> nw_txns w = ∅ -> net_inv w.
Proof.
  intros Hf Ht. unfold net_inv. rewrite Ht. split_and!; [done| |done|].
  - intros i j [? Hi]. by rewrite lookup_empty in Hi.
  - intros id txn Hi. by rewrite lookup_empty in Hi.
Qed.

Lemma load_config_valid w : files_ok w -> valid_net (load_config w).
Proof. intros (Hc & _). unfold load_config. destruct (nw_config w); [vm_compute; reflexivity..|done]. Qed.

Lemma with_window_inv w c x :
  net_inv w -> nw_txns w = ∅ -> nw_revert w = NoFile -> with_window w c x ->
  net_inv x /\ baseline x = baseline w.
Proof.
  intros Hinv Ht Hn Hx. pose proof (proj1 Hinv) as Hf. pose proof (load_config_valid w Hf) as Hl.
  destruct Hf as (Hc & Hr & Hb).
  assert (baseline w = load_config w) as Hbase by (unfold baseline; by rewrite Hn).
  destruct Hx as [->|[->|[Hv [[o ->]|(o & id & txn & Hp & ->)]]]].
  - done.
  - split; [|by rewrite Hbase]. by apply inv_no_txns.
  - split; [|by rewrite Hbase]. by apply inv_no_txns.
  - split; [|by rewrite Hbase]. unfold net_inv, files_ok. cbn. split_and!; try done.
    + intros i j [? [<- _]%lookup_singleton_Some] [? [<- _]%lookup_singleton_Some]. done.
    + intros _. by eexists.
    + intros i t [<- _]%lookup_singleton_Some _. set_solver.
Qed.

Lemma without_window_inv w c x :
  net_inv w -> nw_txns w = ∅ -> nw_revert w = NoFile -> without_window w c x ->
  net_inv x /\ (baseline x = baseline w \/ baseline x = c).
Proof.
  intros Hinv Ht Hn [->|[Hv [o ->]]]; [by split; [|left]|].
  destruct (proj1 Hinv) as (Hc & Hr & Hb). split; [|right; unfold baseline; cbn; by rewrite Hn].
  apply inv_no_txns; [|done]. by split_and!.
Qed.

(** ** Confirmation, rollback and restart *)

(** What a rollback passes through: the snapshot becomes the configuration, and
    the snapshot goes last. *)
Definition rolled_back (w : NetWorld) (prev : NetworkConfig) (x : NetWorld) : Prop :=
  x = w \/ touched (with_config prev w) x \/
  (exists o, x = with_revert NoFile (with_applied o (with_config prev w))).

Definition roll (env : NetEnv) (prev : NetworkConfig) : nop bool :=
  persist_config env prev ;;; apply_config (ne_apply env) prev ;;; remove_revert env.

(** Nothing hinders the next operation. *)
Definition unhindered (env : NetEnv) : Prop :=
  ne_write env = None /\ ne_remove env = None /\ exists errs, ne_apply env = Applied errs.

Definition restored (w : NetWorld) (prev : NetworkConfig) : NetWorld :=
  with_revert NoFile (with_applied (Some prev) (with_config prev w)).

Lemma roll_spec env prev w t :
  nw_revert w = GoodFile prev ->
  exists w' t' r, roll env prev (w, t) = ((w', t' ++ t), r) /\
    Forall (rolled_back w prev) (w' :: t') /\
    (forall b, r = Ok b -> b = true /\ w' = restored w prev) /\
    (forall e, r = Err e -> nw_revert w' = GoodFile prev) /\
    (valid_net prev -> unhindered env -> r = Ok true).
Proof.
  intros Hr. assert (rolled_back w prev w) as Hw by (by left). unfold roll. unfold m_bind at 1.
  destruct (persist_config_spec env prev (w, t)) as [[e Ep]|[Hv ->]]; cbn [fst snd].
  { rewrite Ep. exists w, [], (Err e). split_and!; [done|by constructor|done|by intros ? [= <-]|].
    intros Hv (H1 & _). unfold persist_config, valid_net in *. rewrite Hv, H1 in Ep. done. }
  unfold m_bind. pose proof (apply_config_ok (ne_apply env) prev (with_config prev w, w :: t)) as Hok.
  destruct (apply_config_only (ne_apply env) prev (with_config prev w) (w :: t)) as (w1 & t1 & E & [o ->] & F1).
  assert (forall x, touched (with_config prev w) x -> rolled_back w prev x) as Htr by (intros; right; by left).
  assert (Forall (rolled_back w prev) (with_applied o (with_config prev w) :: t1 ++ [w])) as HF.
  { constructor; [apply Htr; by exists o|]. apply Forall_app. split; [|by repeat constructor].
    eapply Forall_impl; [exact F1|]. exact Htr. }
  destruct (apply_config _ _ _) as [s [errs|e]] eqn:Ea; cbn [fst] in E; subst s.
  2:{ eexists _, (t1 ++ [w]), _. split_and!; [by rewrite <- app_assoc|exact HF|done|done|].
      intros _ (_ & _ & errs & H). rewrite H in Ea. unfold m_bind in Ea. cbn in Ea. discriminate. }
  specialize (Hok _ _ eq_refl). cbn in Hok.
  destruct (remove_revert_spec env (with_applied o (with_config prev w), t1 ++ w :: t))
    as [(r & Er & Hno & Hnt)| ->]; cbn [fst snd] in *.
  - rewrite Er. eexists _, (t1 ++ [w]), _. split_and!; [by rewrite <- app_assoc|exact HF| |done|].
    + intros b ->. destruct b; [done|]. specialize (Hno eq_refl). cbn in Hno. congruence.
    + intros _ (_ & H & _). unfold remove_revert, now_world, m_bind in Er. cbn in Er.
      rewrite Hr, H in Er. apply (f_equal snd) in Er. cbn in Er. congruence.
  - eexists _, (_ :: t1 ++ [w]), _. split_and!; [cbn; by rewrite <- app_assoc|..]; try done.
    + constructor; [|exact HF]. right. right. by exists o.
    + intros b [= <-]. split; [done|]. unfold restored. by rewrite <- Hok.
Qed.

Lemma perform_rollback_roll env prev w t :
  nw_revert w = GoodFile prev ->
  perform_rollback env (w, t) =
  match roll env prev (w, t) with
  | (s, Ok b) => (s, if b : bool then Ok tt else Err "remove pending-revert after apply")
  | (s, Err e) => (s, Err e)
  end.
Proof.
  intros Hr. unfold perform_rollback, now_world. unfold m_bind at 1.
  change (fst (w, t)) with w. rewrite Hr. unfold roll, m_bind.
  destruct (persist_config env prev (w, t)) as [s1 [[]|e]]; [|done].
  destruct (apply_config (ne_apply env) prev s1) as [s2 [errs|e]]; [|done].
  destruct (remove_revert env s2) as [s3 [[]|e]]; done.
Qed.

(** Files intact and the fallback as before. *)
Definition keeps_baseline (w x : NetWorld) : Prop := files_ok x /\ baseline x = baseline w.

Lemma keeps_refl w : files_ok w -> keeps_baseline w w.
Proof. done. Qed.

Lemma rolled_back_keeps w prev x :
  files_ok w -> nw_revert w = GoodFile prev -> rolled_back w prev x ->
  keeps_baseline w x /\ nw_txns x = nw_txns w /\ nw_timers x = nw_timers w.
Proof.
  intros (Hc & Hr & Hb) Hp Hx. rewrite Hp in Hr.
  assert (baseline w = prev) as Hbase by (unfold baseline; by rewrite Hp).
  destruct Hx as [->|[[o ->]|[o ->]]].
  - split_and!; [|done..]. split; [|done]. split_and!; [done|by rewrite Hp|done].
  - split_and!; [|done..]. split; [|unfold baseline; cbn; by rewrite Hp].
    unfold files_ok. cbn. rewrite Hp. by split_and!.
  - split_and!; [|done..]. split; [by split_and!|]. by rewrite Hbase.
Qed.

(** A restart either has no snapshot to restore or rolls it back. *)
Definition forgotten (w : NetWorld) : NetWorld :=
  mkNetWorld (nw_config w) (nw_revert w) (nw_applied w) ∅ ∅ 0.

Lemma restart_cases env w :
  files_ok w ->
  (nw_revert w = NoFile /\ net_restart env w = (forgotten w, [])) \/
  exists prev, nw_revert w = GoodFile prev /\ net_restart env w = fst (roll env prev (forgotten w, [])).
Proof.
  intros (_ & _ & Hb). remember (net_restart env w) as out eqn:E. revert E.
  unfold net_restart, restore_pending_revert, now_world. fold (forgotten w). unfold m_bind at 1.
  change (fst (forgotten w, @nil NetWorld)) with (forgotten w).
  change (nw_revert (forgotten w)) with (nw_revert w).
  destruct (nw_revert w) as [|e|prev] eqn:Er; intros ->; [by left|by destruct (Hb e)|].
  right. exists prev. done.
Qed.

Lemma restart_spec env w :
  files_ok w ->
  Forall (fun x => keeps_baseline w x /\ nw_txns x = ∅) (worlds (net_restart env w)) /\
  (unhindered env -> forall prev, nw_revert w = GoodFile prev ->
     fst (net_restart env w) = restored (forgotten w) prev).
Proof.
  intros Hf. assert (files_ok (forgotten w)) as Hf0 by exact Hf.
  destruct (restart_cases env w Hf) as [[Er ->]|(prev & Er & ->)].
  - split; [constructor; [done|constructor]|]. intros _ prev Hp. congruence.
  - destruct (roll_spec env prev (forgotten w) [] Er) as (w' & t' & r & E & HF & Hok & _ & Hun).
    rewrite E. cbn [fst snd worlds]. unfold worlds. cbn [fst snd]. rewrite app_nil_r. split.
    + eapply Forall_impl; [exact HF|]. intros x Hx.
      destruct (rolled_back_keeps (forgotten w) prev x Hf0 Er Hx) as (Hk & Ht & _). split; [exact Hk|exact Ht].
    + intros Hu prev' Hp. rewrite Er in Hp. injection Hp as <-.
      assert (valid_net prev) as Hv by (destruct Hf as (_ & Hr & _); by rewrite Er in Hr).
      by destruct (Hok true (Hun Hv Hu)) as [_ ->].
Qed.

(** ** The remaining operations *)

Lemma unique_delete w id txn :
  net_inv w -> nw_txns w !! id = Some txn -> delete id (nw_txns w) = ∅.
Proof.
  intros (_ & Hu & _) Hi. apply map_empty. intros j. destruct (decide (id = j)) as [->|Hne].
  - apply lookup_delete_eq.
  - rewrite lookup_delete_ne by done. destruct (nw_txns w !! j) eqn:Ej; [|done].
    destruct Hne. apply Hu; by eexists.
Qed.

Lemma confirm_cases env id w :
  (exists r, confirm env id (w, []) = ((w, []), r)) \/
  exists txn, nw_txns w !! id = Some txn /\ pt_cancel txn = true /\
    ((nw_revert w = NoFile /\
      fst (confirm env id (w, [])) = (with_txns (delete id (nw_txns w)) w, [w])) \/
     fst (confirm env id (w, [])) =
       (with_txns (delete id (nw_txns w)) (with_revert NoFile w), [with_revert NoFile w; w])).
Proof.
  remember (confirm env id (w, [])) as out eqn:E. revert E.
  unfold confirm, now_world. unfold m_bind at 1. change (fst (w, @nil NetWorld)) with w.
  destruct (nw_txns w !! id) as [txn|] eqn:Ei; [|intros ->; left; by eexists].
  destruct (pt_cancel txn) eqn:Ec; cbn [negb]; [|intros ->; left; by eexists].
  unfold m_bind. destruct (remove_revert_spec env (w, [])) as [(r & -> & Hn & Ht)| ->].
  - destruct r as [[]|e]; [done| |intros ->; left; by eexists]. intros ->. right. exists txn.
    split_and!; [done..|]. left. by split; [apply Hn|].
  - intros ->. right. exists txn. split_and!; [done..|]. by right.
Qed.

Lemma net_confirm_spec env id w :
  net_inv w ->
  net_inv (fst (run_net_op env (OpConfirm id) w)) /\
  Forall (fun x => files_ok x /\
    (baseline x = baseline w \/
     exists txn, nw_txns w !! id = Some txn /\ pt_cancel txn = true /\ baseline x = load_config w))
    (worlds (run_net_op env (OpConfirm id) w)).
Proof.
  intros Hinv. pose proof Hinv as (Hf & _). pose proof Hf as (Hc & _).
  cbn [run_net_op]. unfold worlds.
  destruct (confirm_cases env id w) as [[r ->]|(txn & Hi & Hcan & [[Hn ->]| ->])]; cbn [fst snd].
  - split; [done|]. constructor; [|constructor]. by split; [|left].
  - split; [apply inv_no_txns; [exact Hf|by eapply unique_delete]|].
    constructor; [|constructor; [|constructor]]; (split; [done|]); by left.
  - assert (files_ok (with_revert NoFile w)) as Hf' by (split_and!; done).
    split; [apply inv_no_txns; [exact Hf'|cbn; by eapply unique_delete]|].
    constructor; [|constructor; [|constructor; [|constructor]]]; (split; [done|]); [right|right|by left];
      by exists txn.
Qed.

Lemma inv_insert w id txn :
  net_inv w -> is_Some (nw_txns w !! id) -> pt_cancel txn = false ->
  forall x, files_ok x -> (exists c, nw_revert x = GoodFile c) ->
    nw_txns x = <[id := txn]> (nw_txns w) -> net_inv x.
Proof.
  intros (_ & Hu & _) Hid Hcan x Hf Hr Hx. unfold net_inv. rewrite Hx. split_and!; [done| |done|].
  - intros i j Hi Hj. rewrite lookup_insert_is_Some in Hi, Hj.
    assert (forall k, id = k \/ id <> k /\ is_Some (nw_txns w !! k) -> is_Some (nw_txns w !! k)) as Hk
      by (intros k [<-|[_ ?]]; done).
    apply Hu; by apply Hk.
  - intros i t [[<- <-]|[Hne Hi]]%lookup_insert_Some Hc; [congruence|].
    destruct Hne. apply Hu; [done|by eexists].
Qed.

Definition timer_started (w : NetWorld) (id : string) : NetWorld :=
  mkNetWorld (nw_config w) (nw_revert w) (nw_applied w) (nw_txns w) (nw_timers w ∖ {[ id ]}) (nw_counter w).
Definition window_closed (w : NetWorld) (id : string) (txn : PendingTxn) : NetWorld :=
  with_txns (<[id := mkPendingTxn (pt_revert_at txn) (pt_risk_reason txn) false]> (nw_txns w))
    (timer_started w id).

Lemma timer_cases env id w :
  (nw_txns w !! id = None /\ timer_fires env id (w, []) = ((timer_started w id, [w]), Ok tt)) \/
  exists txn, nw_txns w !! id = Some txn /\
    timer_fires env id (w, []) =
    match perform_rollback env (window_closed w id txn, [timer_started w id; w]) with
    | (s', Ok _) => change (fun w => with_txns (delete id (nw_txns w)) w) s'
    | (s', Err e) =>
        change (fun w => with_txns (<[id := mkPendingTxn (pt_revert_at txn)
          ("Automatic rollback failed: " +:+ e) false]> (nw_txns w)) w) s'
    end.
Proof.
  remember (timer_fires env id (w, [])) as out eqn:E. revert E.
  unfold timer_fires. unfold m_bind at 1, change at 1. unfold m_bind at 1, now_world.
  change (fst (w, @nil NetWorld)) with w. change (snd (w, @nil NetWorld)) with (@nil NetWorld).
  fold (timer_started w id). cbn [fst]. change (nw_txns (timer_started w id)) with (nw_txns w).
  destruct (nw_txns w !! id) as [txn|] eqn:Ei; intros ->; [|by left].
  right. exists txn. done.
Qed.

(** The box is back on a configuration: stored, applied, nothing pending. *)
Definition settled_on (c : NetworkConfig) (w : NetWorld) : Prop :=
  load_config w = c /\ nw_applied w = Some c /\ nw_revert w = NoFile /\ nw_txns w = ∅.

Lemma timer_spec env id w :
  net_inv w ->
  net_inv (fst (run_net_op env (OpTimer id) w)) /\
  Forall (keeps_baseline w) (worlds (run_net_op env (OpTimer id) w)) /\
  (unhindered env -> is_Some (nw_txns w !! id) ->
   settled_on (baseline w) (fst (run_net_op env (OpTimer id) w))).
Proof.
  intros Hinv. pose proof Hinv as (Hf & Hu & Hrev & Htim). cbn [run_net_op]. unfold worlds.
  destruct (timer_cases env id w) as [[Hi ->]|(txn & Hi & ->)]; cbn [fst snd].
  { split_and!; [|by constructor; [|constructor; [|constructor]]|by rewrite Hi; intros _ []].
    split_and!; [done..|]. intros j t Hj Hc. cbn in *. apply elem_of_difference. split; [by eapply Htim|].
    intros ->%elem_of_singleton. congruence. }
  destruct Hrev as [prev Hp]; [intros He; by rewrite He, lookup_empty in Hi|].
  set (wc := window_closed w id txn).
  assert (nw_revert wc = GoodFile prev) as Hpc by exact Hp. assert (files_ok wc) as Hfc by exact Hf.
  assert (valid_net prev) as Hv by (destruct Hf as (_ & Hr & _); by rewrite Hp in Hr).
  assert (baseline w = prev) as Hb by (unfold baseline; by rewrite Hp).
  rewrite (perform_rollback_roll env prev wc _ Hpc).
  destruct (roll_spec env prev wc [timer_started w id; w] Hpc) as (w' & t' & r & -> & HF & Hok & Herr & Hun).
  assert (Forall (keeps_baseline w) ((w' :: t') ++ [timer_started w id; w])) as HK.
  { apply Forall_app. split; [|by constructor; [|constructor; [|constructor]]]. eapply Forall_impl; [exact HF|]. intros x Hx.
    by destruct (rolled_back_keeps wc prev x Hfc Hpc Hx) as (Hk & _). }
  apply Forall_cons in HF as [HF0 _].
  destruct (rolled_back_keeps wc prev w' Hfc Hpc HF0) as ([Hfw _] & Htw & _).
  pose proof (proj1 (Forall_cons _ _ _) HK) as [HK0 _].
  destruct r as [b|e]; cbn [fst snd].
  - destruct (Hok b eq_refl) as [-> ->]. unfold change. cbn [fst snd].
    assert (delete id (nw_txns (restored wc prev)) = ∅) as Hdel.
    { rewrite Htw. unfold wc, window_closed. cbn. rewrite delete_insert_eq. by eapply unique_delete. }
    split_and!.
    + apply inv_no_txns; [exact Hfw|exact Hdel].
    + constructor; [exact HK0|exact HK].
    + intros _ _. rewrite Hb. split_and!; [done..|exact Hdel].
  - unfold change. cbn [fst snd]. split_and!.
    + assert (is_Some (nw_txns w !! id)) as Hid by (by eexists).
      eapply (inv_insert w id (mkPendingTxn (pt_revert_at txn) ("Automatic rollback failed: " +:+ e) false));
        [exact Hinv|exact Hid|reflexivity|exact Hfw|exists prev; by apply (Herr e)|].
      cbn. rewrite Htw. unfold wc, window_closed. cbn. apply insert_insert_eq.
    + constructor; [exact HK0|exact HK].
    + intros Hg _. specialize (Hun Hv Hg). done.
Qed.

Lemma nm_apply_spec env w :
  net_inv w -> net_inv (fst (run_net_op env OpNmApply w)) /\
  Forall (keeps_baseline w) (worlds (run_net_op env OpNmApply w)).
Proof.
  intros Hinv. cbn [run_net_op]. unfold nm_apply, now_world, m_bind. change (fst (w, @nil NetWorld)) with w.
  destruct (apply_config_only (ne_apply env) (load_config w) w []) as (w' & t' & -> & [o ->] & HF).
  unfold worlds. cbn [fst snd]. rewrite app_nil_r. split; [exact Hinv|].
  destruct Hinv as [Hf _]. constructor; [done|]. eapply Forall_impl; [exact HF|]. by intros x [o' ->].
Qed.

(** ** Every operation *)

(** The one way [op] may move the fallback from [w]: to a change that needs no
    confirmation, or to the confirmed one. *)
Definition commits (env : NetEnv) (op : NetOp) (w : NetWorld) (c : NetworkConfig) : Prop :=
  match op with
  | OpUpdate rq mgmt =>
      prepare env (load_config w) mgmt (rq_config rq) = Ok c /\ window env rq mgmt w c = None
  | OpConfirm id =>
      (exists txn, nw_txns w !! id = Some txn /\ pt_cancel txn = true) /\ c = load_config w
  | OpTimer _ | OpNmApply => False
  end.

Lemma net_op_spec env op w :
  net_inv w ->
  net_inv (fst (run_net_op env op w)) /\
  Forall (fun x => files_ok x /\ (baseline x = baseline w \/ commits env op w (baseline x)))
    (worlds (run_net_op env op w)).
Proof.
  intros Hinv. destruct op as [rq mgmt|id|id|].
  - cbn [run_net_op]. destruct (update_spec env rq mgmt w) as [E|(c & Ht & Hn & Hp & H)].
    { unfold worlds in *. injection E as E1 E2. rewrite E1, E2. split; [done|].
      constructor; [|constructor]. split; [apply Hinv|by left]. }
    destruct H as [[Hw HF]|[Hw HF]]; (split; [|eapply Forall_impl; [exact HF|]]).
    + apply Forall_cons in HF as [HF _]. by eapply without_window_inv.
    + intros x Hx. destruct (without_window_inv w c x Hinv Ht Hn Hx) as [[Hf _] [Hb|Hb]]; (split; [done|]);
        [by left|right; by rewrite Hb].
    + apply Forall_cons in HF as [HF _]. by eapply with_window_inv.
    + intros x Hx. destruct (with_window_inv w c x Hinv Ht Hn Hx) as [[Hf _] Hb]. by split; [|left].
  - destruct (net_confirm_spec env id w Hinv) as [Hi HF]. split; [done|].
    eapply Forall_impl; [exact HF|]. intros x [Hf [Hb|(txn & Ht & Hc & Hb)]]; (split; [done|]); [by left|right].
    split; [by exists txn|done].
  - destruct (timer_spec env id w Hinv) as (Hi & HF & _). split; [done|].
    eapply Forall_impl; [exact HF|]. intros x [Hf Hb]. by split; [|left].
  - destruct (nm_apply_spec env w Hinv) as (Hi & HF). split; [done|].
    eapply Forall_impl; [exact HF|]. intros x [Hf Hb]. by split; [|left].
Qed.

Lemma net_reach_inv w : net_reach w -> net_inv w.
Proof.
  induction 1 as [c applied Hc|w env op _ IH|w env op env' x y _ IH Hx Hy].
  - apply inv_no_txns; [|done]. by split_and!.
  - by apply net_op_spec.
  - destruct (net_op_spec env op w IH) as [_ HF]. rewrite Forall_forall in HF.
    destruct (HF x Hx) as [Hf _]. destruct (restart_spec env' x Hf) as [HR _].
    rewrite Forall_forall in HR. destruct (HR y Hy) as [[Hfy _] Ht]. by apply inv_no_txns.
Qed.

(** C30. A network change stays only if nobody had to confirm it or somebody did.
    In every reachable state, through any failing call and with a crash at any
    point followed by a restart, the configuration the box falls back to is
    changed by nothing but an update classified as safe or sent without the
    safety net, or the confirmation of a transaction whose window is open; and
    there is at most one transaction, its snapshot is on disk and its rollback
    task alive while the window is open. *)
Theorem network_change_needs_confirmation w env op :
  net_reach w ->
  net_inv w /\
  forall x, x ∈ worlds (run_net_op env op w) ->
    (baseline x = baseline w \/ commits env op w (baseline x)) /\
    forall env' y, y ∈ worlds (net_restart env' x) -> baseline y = baseline x.
Proof.
  intros Hinv%net_reach_inv. split; [done|]. destruct (net_op_spec env op w Hinv) as [_ HF].
  rewrite Forall_forall in HF. intros x Hx. destruct (HF x Hx) as [Hf Hb]. split; [done|].
  intros env' y Hy. destruct (restart_spec env' x Hf) as [HR _]. rewrite Forall_forall in HR.
  by destruct (HR y Hy) as [[_ ?] _].
Qed.

(** C31. A change that is not confirmed is undone: from every reachable state, when
    nothing hinders it, the rollback of a pending transaction and a restart
    after a crash at any point of any operation both end with the fallback
    configuration stored and applied, the snapshot gone and nothing pending,
    ready for the next update. *)
Theorem network_rollback_restores w env :
  net_reach w -> unhindered env ->
  (forall id, is_Some (nw_txns w !! id) -> settled_on (baseline w) (fst (run_net_op env (OpTimer id) w))) /\
  (forall env' op x, x ∈ worlds (run_net_op env' op w) -> nw_revert x <> NoFile ->
     settled_on (baseline x) (fst (net_restart env x))).
Proof.
  intros Hinv%net_reach_inv Hu. split.
  - intros id Hid. by apply (timer_spec env id w Hinv).
  - intros env' op x Hx Hr. destruct (net_op_spec env' op w Hinv) as [_ HF]. rewrite Forall_forall in HF.
    destruct (HF x Hx) as [Hf _]. pose proof (restart_spec env x Hf) as [_ HR].
    destruct (nw_revert x) as [|e|prev] eqn:Er; [done|by destruct Hf as (_ & _ & Hb); destruct (Hb e)|].
    rewrite (HR Hu prev eq_refl). unfold baseline. rewrite Er. done.
Qed.

(** ** What counts as safe *)

(** The management interface keeps its addresses, its MTU and its place. *)
Definition management_untouched (prev next : NetworkConfig) (mgmt : string) : Prop :=
  (forall p, named_iface mgmt prev = Some p ->
     exists n, named_iface mgmt next = Some n /\ if_ipv4 p = if_ipv4 n /\ if_ipv6 p = if_ipv6 n /\
       if_mtu p = if_mtu n /\ (if_enabled p = true -> if_enabled n = true)) /\
  (forall b, b ∈ nc_bridges next -> mgmt ∈ br_members b ->
     exists p, p ∈ nc_bridges prev /\ br_name p = br_name b /\ mgmt ∈ br_members p) /\
  (forall b, b ∈ nc_bonds next -> mgmt ∈ bo_members b ->
     exists p, p ∈ nc_bonds prev /\ bo_name p = bo_name b /\ mgmt ∈ bo_members p) /\
  (forall p, p ∈ nc_bridges prev -> br_name p = mgmt \/ mgmt ∈ br_members p ->
     exists b, b ∈ nc_bridges next /\ br_name b = br_name p) /\
  (forall p, p ∈ nc_bonds prev -> bo_name p = mgmt \/ mgmt ∈ bo_members p ->
     exists b, b ∈ nc_bonds next /\ bo_name b = bo_name p).

Lemma last_bridge_in n bs b : last_bridge n bs = Some b -> b ∈ bs /\ br_name b = n.
Proof.
  unfold last_bridge. induction bs as [|x bs IH] using rev_ind; [done|]. rewrite foldl_app. cbn.
  destruct (String.eqb_spec (br_name x) n) as [<-|_]; [intros [= <-]; set_solver|].
  intros [? ?]%IH. set_solver.
Qed.

Lemma last_bond_in n bs b : last_bond n bs = Some b -> b ∈ bs /\ bo_name b = n.
Proof.
  unfold last_bond. induction bs as [|x bs IH] using rev_ind; [done|]. rewrite foldl_app. cbn.
  destruct (String.eqb_spec (bo_name x) n) as [<-|_]; [intros [= <-]; set_solver|].
  intros [? ?]%IH. set_solver.
Qed.

Lemma iface_risk_none prev next mgmt p :
  iface_risk prev next mgmt = None -> named_iface mgmt prev = Some p ->
  exists n, named_iface mgmt next = Some n /\ if_ipv4 p = if_ipv4 n /\ if_ipv6 p = if_ipv6 n /\
    if_mtu p = if_mtu n /\ (if_enabled p = true -> if_enabled n = true).
Proof.
  unfold iface_risk. intros H Hp. rewrite Hp in H. destruct (named_iface mgmt next) as [n|]; [|done].
  exists n. split; [done|].
  destruct (bool_decide_reflect (if_ipv4 p = if_ipv4 n)); [|done].
  destruct (bool_decide_reflect (if_ipv6 p = if_ipv6 n)); [|done]. cbn in H.
  destruct (bool_decide_reflect (if_mtu p = if_mtu n)); [|done]. cbn in H.
  by destruct (if_enabled p), (if_enabled n).
Qed.

Lemma classify_risk_none prev next mgmt :
  classify_risk prev next (Some mgmt) = None -> management_untouched prev next mgmt.
Proof.
  unfold classify_risk, or_else. intros H.
  destruct (find_map _ (nc_bridges next)) eqn:E1; [done|].
  destruct (find_map _ (nc_bonds next)) eqn:E2; [done|].
  destruct (iface_risk prev next mgmt) eqn:E3; [done|].
  destruct (find_map _ (nc_bridges prev)) eqn:E4; [done|].
  pose proof (proj1 (find_map_None _ _) E1) as H1. pose proof (proj1 (find_map_None _ _) E2) as H2.
  pose proof (proj1 (find_map_None _ _) E4) as H4. pose proof (proj1 (find_map_None _ _) H) as H5.
  split_and!.
  - intros p Hp. by eapply iface_risk_none.
  - intros b Hb Hm. specialize (H1 b Hb). unfold joins_bridge in H1. cbn in H1.
    apply one_of_spec in Hm. rewrite Hm in H1. cbn in H1.
    destruct (last_bridge (br_name b) (nc_bridges prev)) as [p|] eqn:El; [|done].
    apply last_bridge_in in El as [? ?]. exists p. split_and!; [done..|].
    apply one_of_spec. cbn in H1. by destruct (one_of (br_members p) mgmt).
  - intros b Hb Hm. specialize (H2 b Hb). unfold joins_bond in H2. cbn in H2.
    apply one_of_spec in Hm. rewrite Hm in H2. cbn in H2.
    destruct (last_bond (bo_name b) (nc_bonds prev)) as [p|] eqn:El; [|done].
    apply last_bond_in in El as [? ?]. exists p. split_and!; [done..|].
    apply one_of_spec. cbn in H2. by destruct (one_of (bo_members p) mgmt).
  - intros p Hp Hm. specialize (H4 p Hp). unfold bridge_removed in H4.
    destruct (one_of (br_name <$> nc_bridges next) (br_name p)) eqn:Eo.
    { apply one_of_spec, list_elem_of_fmap in Eo as (b & Hb & Hin). by exists b. }
    destruct (String.eqb_spec (br_name p) mgmt); [done|].
    destruct Hm as [?|Hm%one_of_spec]; [done|]. by rewrite Hm in H4.
  - intros p Hp Hm. specialize (H5 p Hp). unfold bond_removed in H5.
    destruct (one_of (bo_name <$> nc_bonds next) (bo_name p)) eqn:Eo.
    { apply one_of_spec, list_elem_of_fmap in Eo as (b & Hb & Hin). by exists b. }
    destruct (String.eqb_spec (bo_name p) mgmt); [done|].
    destruct Hm as [?|Hm%one_of_spec]; [done|]. by rewrite Hm in H5.
Qed.

Lemma update_ok_none env rq mgmt w s r :
  update env rq mgmt (w, []) = (s, Ok r) -> ur_txn_id r = None ->
  exists c, prepare env (load_config w) mgmt (rq_config rq) = Ok c /\ window env rq mgmt w c = None /\
    load_config (fst s) = c /\ nw_applied (fst s) = Some c.
Proof.
  intros E Hr. destruct (update_cases env rq mgmt w) as [[e E']|(c & Et & Er & Ep & E')]; rewrite E' in E; [done|].
  exists c. split; [done|]. unfold update_effects in E. destruct (window env rq mgmt w c) as [secs|].
  { unfold m_bind, schedule_rollback, change, m_ret in E.
    destruct (ne_snapshot env); [done|].
    destruct (persist_config env c _) as [s2 [[]|]]; [|done].
    destruct (apply_with_vf_settle _ _ _ s2) as [s3 [errs|]]; [|done].
    cbn in E. injection E as _ <-. done. }
  split; [done|]. unfold m_bind at 1 in E.
  destruct (persist_config_spec env c (w, [])) as [[e Ee]|[Hv Ee]]; rewrite Ee in E; [done|].
  unfold m_bind at 1 in E. cbn [fst snd] in E.
  destruct (settle_only env c (list_to_set (li_name <$> ne_interfaces env)) (with_config c w) [w])
    as (w' & t' & E2 & [o ->] & _).
  unfold apply_with_vf_settle, m_bind in E, E2. cbv zeta in E, E2.
  destruct (apply_config (ne_apply env) c (with_config c w, [w])) as [s1 [errs|e]] eqn:Ea; [|done].
  destruct (_ && _).
  - destruct (apply_config (ne_reapply env) c s1) as [s2 [errs2|e]] eqn:Eb; [|done].
    cbn in E, E2. injection E as <- _. subst s2. apply apply_config_ok in Eb. done.
  - cbn in E, E2. injection E as <- _. subst s1. apply apply_config_ok in Ea. done.
Qed.

(** An update that takes effect at once, with no window to confirm it in and
    without the caller opting out, leaves the management interface alone: its
    configured addresses, MTU and state stay, it joins no bridge or bond, and
    no bridge or bond that is it or carries it goes away. *)
Theorem network_unguarded_update_spares_management env rq mgmt w s r :
  update env rq (Some mgmt) (w, []) = (s, Ok r) ->
  ur_txn_id r = None -> rq_confirm_within_secs rq = None ->
  management_untouched (load_config w) (load_config (fst s)) mgmt.
Proof.
  intros E Hr Hc. destruct (update_ok_none env rq (Some mgmt) w s r E Hr) as (c & _ & Hw & -> & _).
  apply classify_risk_none. unfold window, rollback_secs in Hw. rewrite Hc in Hw.
  by destruct (classify_risk (load_config w) c (Some mgmt)) in Hw |- *.
Qed.

(** ** A box on two interfaces *)

Definition static_if (name cidr : string) : InterfaceConfig :=
  mkInterfaceConfig name true (mkIpConfig Static [cidr] None) IpConfig_default None None [].

Definition two_nics (cidr : string) : NetworkConfig :=
  mkNetworkConfig [static_if "eth0" cidr; static_if "eth1" "10.9.0.1/24"] [] [] [] [] [].

Definition calm : NetEnv :=
  mkNetEnv (mkLiveTopology ∅ ∅ ∅ ∅ ∅)
    [mkLiveInterface "eth0" "02:00:00:00:00:01" "physical" None; mkLiveInterface "eth1" "02:00:00:00:00:02" "physical" None]
    1000 None None (Applied []) (Applied []) None.

Definition box : NetWorld :=
  mkNetWorld (GoodFile (two_nics "192.168.1.2/24")) NoFile (Some (two_nics "192.168.1.2/24")) ∅ ∅ 0.

Definition move_eth0 : NetOp :=
  OpUpdate (mkUpdateRequest (two_nics "192.168.1.3/24") None) (Some "eth0").

Lemma box_reach : net_reach box.
Proof. apply net_start. vm_compute. reflexivity. Qed.

(** Moving the management address opens a window of 30 seconds; until it is
    confirmed the fallback is the old address. *)
Lemma network_change_needs_confirmation_witness :
  baseline (fst (run_net_op calm move_eth0 box)) = two_nics "192.168.1.2/24" /\
  load_config (fst (run_net_op calm move_eth0 box)) = two_nics "192.168.1.3/24" /\
  length (pending (fst (run_net_op calm move_eth0 box))) = 1%nat.
Proof.
  split; [|split; vm_compute; reflexivity].
  destruct (network_change_needs_confirmation box calm move_eth0 box_reach) as [_ H].
  destruct (H (fst (run_net_op calm move_eth0 box)) ltac:(left)) as [[Hb|Hc] _]; [exact Hb|].
  vm_compute in Hc. destruct Hc as [Hp _]. discriminate Hp.
Defined.

Definition moved : NetWorld := fst (run_net_op calm move_eth0 box).

Lemma network_rollback_restores_witness :
  settled_on (two_nics "192.168.1.2/24") (fst (run_net_op calm (OpTimer "3e8-0") moved)).
Proof.
  apply (proj1 (network_rollback_restores moved calm (net_op box calm move_eth0 box_reach)
    ltac:(vm_compute; split; [reflexivity|split; [reflexivity|eexists; reflexivity]])) "3e8-0").
  vm_compute. eexists. reflexivity.
Defined.

Lemma network_unguarded_update_spares_management_witness :
  management_untouched (two_nics "192.168.1.2/24")
    (load_config (fst (fst (update calm (mkUpdateRequest (two_nics "192.168.1.2/24") None) (Some "eth0") (box, [])))))
    "eth0".
Proof.
  destruct (update calm (mkUpdateRequest (two_nics "192.168.1.2/24") None) (Some "eth0") (box, []))
    as [s [r|e]] eqn:E; [|vm_compute in E; discriminate].
  apply (network_unguarded_update_spares_management calm
    (mkUpdateRequest (two_nics "192.168.1.2/24") None) "eth0" box s r E); [|reflexivity].
  apply (f_equal snd) in E. vm_compute in E. injection E as <-. reflexivity.
Defined.

(** ** Gaps *)

(** The snapshot is written before the configuration is validated, and an
    update that is then rejected leaves it behind without a transaction: every
    later update is refused until the engine restarts, although nothing was
    changed and nothing is pending. *)
Definition cyclic : NetworkConfig :=
  mkNetworkConfig [] [] [mkBondConfig "bond0" ["eth0"; "eth0"] Lacp IpConfig_default IpConfig_default None true] [] [] [].

Lemma update_refused_with_snapshot env rq mgmt w prev :
  nw_revert w = GoodFile prev -> exists e, snd (update env rq mgmt (w, [])) = Err e.
Proof.
  intros Hr. destruct (update_cases env rq mgmt w) as [[e ->]|(c & _ & Hn & _)]; [by exists e|congruence].
Qed.

Theorem rejected_update_blocks_network :
  let w' := fst (run_net_op calm (OpUpdate (mkUpdateRequest cyclic None) (Some "eth0")) box) in
  nw_config w' = nw_config box /\ pending w' = [] /\
  forall env rq mgmt, exists e, snd (update env rq mgmt (w', [])) = Err e.
Proof.
  cbv zeta. split; [vm_compute; reflexivity|]. split; [vm_compute; reflexivity|]. intros env rq mgmt.
  apply (update_refused_with_snapshot env rq mgmt _ (two_nics "192.168.1.2/24")). vm_compute. reflexivity.
Qed.

(** The address of a bridge the administrator is connected through changes
    without a window: only top-level interfaces are compared. *)
Definition bridged (cidr : string) : NetworkConfig :=
  mkNetworkConfig [] [] [] []
    [mkBridgeConfig "br0" ["eth0"] (mkIpConfig Static [cidr] None) IpConfig_default None false None true None] [].

Theorem management_bridge_address_unguarded :
  classify_risk (bridged "192.168.1.2/24") (bridged "10.0.0.2/24") (Some "br0") = None.
Proof. vm_compute. reflexivity. Qed.
