(* ===== verification/NetApply.v ===== *)
(** * Applying a network configuration (nasty-system/src/network.rs)

    [apply_config] in full: the profiles of the configuration for the devices
    that are present, the pass over NetworkManager, the ownership file for
    InfiniBand ports and the DHCP relay; the start-up pass and the preview.
    Restarting discovery daemons and renewing the certificate, which only log
    their failures, are left out. *)

From Stdlib Require Import ZArith Lia Ascii String.
From stdpp Require Import base list gmap strings.
From S2P Require Import Prelude.
From S2P Require Import RustStr.
From S2P Require Import Firewall.
From S2P Require Import NetConfig.
From S2P Require Import Layered.
From S2P Require Import Nm.
From S2P Require Import NmApply.
From S2P Require Import NmProps.
From S2P Require Import DhcpRelay.
From S2P Require Import RelayProps.
From S2P Require Import Network.

(** ** Operations *)

(** NetworkManager, the relay, the InfiniBand drop-in, and how often
    NetworkManager was told to read its configuration again. *)
Record NetSys : Type := mkNetSys {
  sy_nm : NmState;
  sy_relay : RelayWorld;
  sy_ib : JsonFile string;
  sy_reloads : nat;
}.

Record ApplyEnv : Type := mkApplyEnv {
  ae_live : list LiveInterface;
  ae_connect : option string;          (** connecting to the system bus *)
  ae_ib_write : option string;
  ae_ib_remove : option string;
  ae_reload : option string;
  ae_nm : NmEnv;
  ae_relay : RelayEnv;
}.

Definition infiniband_names (live : list LiveInterface) : list string :=
  li_name <$> List.filter (fun i => String.eqb (li_kind i) "infiniband") live.

Definition live_names (live : list LiveInterface) : gset string := list_to_set (li_name <$> live).

Definition apply_context (live : list LiveInterface) (mgmt : option string) : MacContext :=
  mkMacContext (collect li_mac live) mgmt (list_to_set (infiniband_names live)).

(** The context of the start-up pass and the preview: no addresses. *)
Definition idle_context (live : list LiveInterface) : MacContext :=
  mkMacContext ∅ None (list_to_set (infiniband_names live)).

Definition nl : string := String (ascii_of_N 10) "".

Definition render_ib_unmanaged_conf (live_ib : list string) (configured : gset string) : option string :=
  if bool_decide (live_ib = []) then None
  else
    let globs := ["interface-name:ib*"; "interface-name:ibp*"] in
    let named := foldl (fun es name =>
      let by_name := "interface-name:" +:+ name in
      if negb (one_of es by_name) && negb (starts_with "ib" name) then es ++ [by_name] else es) globs live_ib in
    let excepts := (fun name => "except:interface-name:" +:+ name) <$>
                   List.filter (fun name => bool_decide (name ∈ configured)) live_ib in
    Some ("# Generated by nasty-engine. InfiniBand ports are operator-managed" +:+ nl +:+
          "# (systemd-networkd, manual) unless configured through NASty's" +:+ nl +:+
          "# network settings — the except: entries below. Re-rendered on" +:+ nl +:+
          "# every network apply; edits here are overwritten." +:+ nl +:+
          "[keyfile]" +:+ nl +:+
          "unmanaged-devices=" +:+ str_join ";" (named ++ excepts) +:+ nl).

Definition set_ib (f : JsonFile string) (w : NetSys) : NetSys :=
  mkNetSys (sy_nm w) (sy_relay w) f (sy_reloads w).

(** The file after the write or removal, and whether it changed. *)
Definition write_ib (env : ApplyEnv) (c : NetworkConfig) (f : JsonFile string) : JsonFile string * bool :=
  match render_ib_unmanaged_conf (infiniband_names (ae_live env)) (list_to_set (if_name <$> nc_interfaces c)) with
  | Some content =>
      let current := match f with GoodFile s => s | _ => "" end in
      if String.eqb current content then (f, false)
      else match ae_ib_write env with
           | Some _ => (f, false)
           | None => (GoodFile content, true)
           end
  | None =>
      match f, ae_ib_remove env with
      | NoFile, _ => (f, false)
      | _, Some _ => (f, false)
      | _, None => (NoFile, true)
      end
  end.

Definition sync_ib_unmanaged_conf (env : ApplyEnv) (c : NetworkConfig) (w : NetSys) : NetSys :=
  let '(f, changed) := write_ib env c (sy_ib w) in
  mkNetSys (sy_nm w) (sy_relay w) f
    (if changed && negb (bool_decide (is_Some (ae_reload env))) then S (sy_reloads w) else sy_reloads w).

Section Apply.
Context (uuid_of : string -> string) (stored : SettingsDict -> SettingsDict).

Definition desired_profiles (c : NetworkConfig) (live : list LiveInterface) (ctx : MacContext) : list NmConnection :=
  retain_live_physical_profiles (to_nm_profiles_with_macs uuid_of (to_layered c) ctx) (live_names live).

Definition apply_config (env : ApplyEnv) (c : NetworkConfig) (mgmt : option string)
    : stm NetSys string NmApplyOutcome := fun w =>
  let profiles := desired_profiles c (ae_live env) (apply_context (ae_live env) mgmt) in
  match ae_connect env with
  | Some e => (w, Err ("connect to NetworkManager: connect to system DBus: " +:+ e))
  | None =>
      let w1 := sync_ib_unmanaged_conf env c w in
      match apply_profiles stored (ae_nm env) profiles (sy_nm w1) with
      | (nm, Err e) => (mkNetSys nm (sy_relay w1) (sy_ib w1) (sy_reloads w1), Err e)
      | (nm, Ok out) =>
          let relay_config := if bool_decide (ao_errors out = ∅) then c else NetworkConfig_default in
          match relay_reconcile (ae_relay env) relay_config (sy_relay w1) with
          | (rl, Ok _) => (mkNetSys nm rl (sy_ib w1) (sy_reloads w1), Ok out)
          | (rl, Err e) => (mkNetSys nm rl (sy_ib w1) (sy_reloads w1), Ok (push_error "dhcp-relay" e out))
          end
      end
  end.

(** The pass at start-up; its outcome is only logged. *)
Definition reconcile_orphans (env : ApplyEnv) (c : NetworkConfig) (w : NetSys) : NetSys :=
  let desired := desired_profiles c (ae_live env) (idle_context (ae_live env)) in
  match ae_connect env with
  | Some _ => w
  | None =>
      let w1 := sync_ib_unmanaged_conf env c w in
      mkNetSys (fst (apply_profiles stored (ae_nm env) desired (sy_nm w1))) (sy_relay w1) (sy_ib w1) (sy_reloads w1)
  end.

Definition nm_preview (env : ApplyEnv) (c : NetworkConfig) (w : NetSys) : result NmDiff string :=
  let desired := desired_profiles c (ae_live env) (idle_context (ae_live env)) in
  match ae_connect env with
  | Some e => Err ("connect to system DBus: " +:+ e)
  | None => match list_nasty_connections (ae_nm env) (sy_nm w) with
            | Err e => Err e
            | Ok existing => Ok (compute_diff desired existing)
            end
  end.

End Apply.

(** ** Profiles of a configuration *)

Lemma insert_all_lookup {V} (v : V) (ms : list string) (m : gmap string V) n :
  foldl (fun m x => <[x := v]> m) m ms !! n = if one_of ms n then Some v else m !! n.
Proof.
  revert m. induction ms as [|x ms IH]; intros m; [done|]. simpl. rewrite IH.
  destruct (String.eqb_spec n x) as [->|Hne]; simpl.
  - destruct (one_of ms x); [done|]. by rewrite lookup_insert_eq.
  - by rewrite lookup_insert_ne.
Qed.

Lemma nm_masters_snoc ls l :
  nm_masters (ls ++ [l]) =
  match port_type_of (lk_kind l) with
  | Some pt => foldl (fun m x => <[x := (lk_name l, pt)]> m) (nm_masters ls) (link_members l)
  | None => nm_masters ls
  end.
Proof. unfold nm_masters. by rewrite foldl_app. Qed.

Lemma no_port_type l : port_type_of (lk_kind l) = None -> link_members l = [].
Proof. unfold link_members. by destruct (lk_kind l). Qed.

Lemma nm_masters_member ls l pt n :
  NoDup (ls ≫= link_members) -> l ∈ ls -> port_type_of (lk_kind l) = Some pt -> n ∈ link_members l ->
  nm_masters ls !! n = Some (lk_name l, pt).
Proof.
  induction ls as [|l' ls IH] using rev_ind; intros Hn Hl Hpt Hm; [by apply elem_of_nil in Hl|].
  rewrite bind_app in Hn. apply NoDup_app in Hn as (Hn & Hdis & _). simpl in Hdis. rewrite app_nil_r in Hdis.
  rewrite nm_masters_snoc. apply elem_of_app in Hl as [Hl|Hl].
  - assert (n ∉ link_members l') as Hnot by (apply Hdis, list_elem_of_bind; by exists l).
    rewrite <- (IH Hn Hl Hpt Hm). destruct (port_type_of (lk_kind l')) as [pt'|]; [|done].
    rewrite insert_all_lookup. destruct (one_of _ n) eqn:E; [|done]. by apply one_of_spec in E.
  - apply list_elem_of_singleton in Hl as ->. rewrite Hpt, insert_all_lookup.
    assert (one_of (link_members l') n = true) as -> by (by apply one_of_spec). done.
Qed.

Lemma nm_masters_none ls n :
  (forall l, l ∈ ls -> n ∉ link_members l) -> nm_masters ls !! n = None.
Proof.
  induction ls as [|l ls IH] using rev_ind; intros H; [by apply lookup_empty|]. rewrite nm_masters_snoc.
  rewrite <- IH by (intros; apply H; set_solver). destruct (port_type_of (lk_kind l)); [|done].
  rewrite insert_all_lookup. destruct (one_of _ n) eqn:E; [|done]. apply one_of_spec in E. exfalso.
  apply (H l); [set_solver|done].
Qed.

(** The settings of a profile for the addresses of a link. *)
Definition ip_settings (ip : IpConfig) : NmIpSettings :=
  mkNmIpSettings (address_method_to_nm (ip_method ip)) (ip_addresses ip) (ip_gateway ip) [] [].

Lemma nm_addresses_group l :
  nm_addresses l = (fun e => (ip_settings (fst e), ip_settings (snd e))) <$> group_addresses l.
Proof.
  unfold nm_addresses, group_addresses. induction l as [|a l IH] using rev_ind; [symmetry; apply fmap_empty|].
  rewrite !foldl_app. cbn [foldl]. rewrite IH. unfold group_address. rewrite fmap_insert, lookup_fmap.
  f_equal. destruct (foldl _ _ l !! ad_link a) as [[v4 v6]|], (ad_family a); done.
Qed.

Lemma nm_addresses_default l n :
  default default_ip_pair (nm_addresses l !! n) =
  let e := default no_ip (group_addresses l !! n) in (ip_settings (fst e), ip_settings (snd e)).
Proof. rewrite nm_addresses_group, lookup_fmap. by destruct (group_addresses l !! n). Qed.

Lemma profile_id_inj a b : profile_id a = profile_id b -> a = b.
Proof. unfold profile_id. intros H. simpl in H. by simplify_eq. Qed.

Definition no_l3 (s : NmIpSettings) : Prop :=
  ns_method s = NmDisabled /\ ns_addresses s = [] /\ ns_gateway s = None /\ ns_dns s = [].

Definition carries (ip : IpConfig) (s : NmIpSettings) : Prop :=
  ns_method s = address_method_to_nm (ip_method ip) /\ ns_addresses s = ip_addresses ip /\
  ns_gateway s = ip_gateway ip.

Section Profiles.
Context (uuid_of : string -> string) (c : NetworkConfig) (ctx : MacContext).
Context (Hvalid : NetConfig.validate (to_layered c) = Ok tt).

Abbreviation links := (ly_links (to_layered c)).

Definition profile_of (l : Link) : NmConnection :=
  finish_profile l ctx (split_dns_by_family (nc_dns c)) (nm_routes (ly_routes (to_layered c)))
    (profile_for_link uuid_of l (nm_addresses (all_addresses c)) (nm_masters links) ctx).

Lemma profiles_unfold : to_nm_profiles_with_macs uuid_of (to_layered c) ctx = profile_of <$> links.
Proof. done. Qed.

Ltac open_profile l :=
  unfold profile_of, finish_profile, profile_for_link;
  destruct (nm_masters links !! lk_name l) as [[? ?]|],
    (default default_ip_pair (nm_addresses (all_addresses c) !! lk_name l)),
    (link_type l ctx), (nm_routes _ !! lk_name l) as [[? ?]|],
    (inherits_member_mac (lk_kind l)); cbn;
  try (destruct (pick_primary_member l ctx) as [m|]; cbn; [destruct (mc_live_macs ctx !! m)|]); try done.

Lemma profile_names l : nmc_interface (profile_of l) = lk_name l /\ nmc_id (profile_of l) = profile_id (lk_name l).
Proof. open_profile l. Qed.

Lemma profile_master l :
  nmc_controller (profile_of l) = fst <$> nm_masters links !! lk_name l /\
  nmc_port_type (profile_of l) = snd <$> nm_masters links !! lk_name l.
Proof. open_profile l. Qed.

Lemma profile_port_l3 l :
  is_Some (nm_masters links !! lk_name l) -> no_l3 (nmc_ipv4 (profile_of l)) /\ no_l3 (nmc_ipv6 (profile_of l)).
Proof. intros [? H]. revert H. open_profile l. Qed.

Lemma profile_addresses l v4 v6 :
  nm_masters links !! lk_name l = None -> (lk_name l, (v4, v6)) ∈ items c ->
  carries v4 (nmc_ipv4 (profile_of l)) /\ carries v6 (nmc_ipv6 (profile_of l)).
Proof.
  intros Hm Hi. pose proof (validate_names _ Hvalid) as Hn.
  assert (default default_ip_pair (nm_addresses (all_addresses c) !! lk_name l) = (ip_settings v4, ip_settings v6)) as Ha.
  { rewrite nm_addresses_default, (addresses_back c _ v4 v6); [done| |done].
    revert Hn. cbn [to_layered ly_links]. rewrite fmap_app. by intros [? _]%NoDup_app. }
  unfold profile_of, finish_profile, profile_for_link. rewrite Hm, Ha.
  destruct (link_type l ctx), (nm_routes _ !! lk_name l) as [[? ?]|], (inherits_member_mac (lk_kind l)); cbn;
    try (destruct (pick_primary_member l ctx) as [m|]; cbn; [destruct (mc_live_macs ctx !! m)|]); done.
Qed.

Lemma profile_mac l mgmt mac :
  inherits_member_mac (lk_kind l) = true -> mc_mgmt_iface ctx = Some mgmt -> mgmt ∈ link_members l ->
  mc_live_macs ctx !! mgmt = Some mac -> nmc_mac (profile_of l) = Some mac.
Proof.
  intros Hi Hg Hm Hmac. assert (pick_primary_member l ctx = Some mgmt) as Hp.
  { unfold pick_primary_member. rewrite Hg. assert (one_of (link_members l) mgmt = true) as -> by (by apply one_of_spec).
    destruct (port_type_of (lk_kind l)) eqn:E; [done|]. rewrite (no_port_type _ E) in Hm. by apply elem_of_nil in Hm. }
  unfold profile_of, finish_profile. rewrite Hi, Hp. cbn. rewrite Hmac. done.
Qed.

Lemma profile_ids_nodup : NoDup (nmc_id <$> (profile_of <$> links)).
Proof.
  rewrite <- list_fmap_compose.
  replace ((nmc_id ∘ profile_of) <$> links) with (profile_id <$> (lk_name <$> links)).
  - apply NoDup_fmap_2; [intros ???; by apply profile_id_inj|by apply validate_names].
  - rewrite <- list_fmap_compose. apply list_fmap_ext. intros i l _. symmetry. apply profile_names.
Qed.

Lemma profile_managed l : managed (profile_of l).
Proof.
  unfold managed. destruct (profile_names l) as [_ ->]. apply starts_with_spec. by exists (lk_name l).
Qed.
End Profiles.

(** Validated configurations become profiles faithfully: one profile per
    link, with distinct ids that mark it as the engine's; a member of a bond or
    bridge is a port of exactly that master and carries no addresses, gateway
    or name servers; every other configured link has no master and carries the
    method, addresses and gateway configured for it; and a bond or bridge that
    inherits a member's MAC while the management interface is one of its members
    takes the management interface's, so that DHCP keeps its lease. *)
Theorem nm_profiles_faithful uuid_of c ctx :
  NetConfig.validate (to_layered c) = Ok tt ->
  let ps := to_nm_profiles_with_macs uuid_of (to_layered c) ctx in
  let links := ly_links (to_layered c) in
  nmc_interface <$> ps = lk_name <$> links /\ NoDup (nmc_id <$> ps) /\ Forall managed ps /\
  (forall p, p ∈ ps ->
    (forall l pt, l ∈ links -> port_type_of (lk_kind l) = Some pt -> nmc_interface p ∈ link_members l ->
       nmc_controller p = Some (lk_name l) /\ nmc_port_type p = Some pt /\
       no_l3 (nmc_ipv4 p) /\ no_l3 (nmc_ipv6 p)) /\
    (forall v4 v6, (nmc_interface p, (v4, v6)) ∈ items c ->
       (forall l, l ∈ links -> nmc_interface p ∉ link_members l) ->
       nmc_controller p = None /\ carries v4 (nmc_ipv4 p) /\ carries v6 (nmc_ipv6 p))) /\
  (forall l mgmt mac, l ∈ links -> inherits_member_mac (lk_kind l) = true ->
     mc_mgmt_iface ctx = Some mgmt -> mgmt ∈ link_members l -> mc_live_macs ctx !! mgmt = Some mac ->
     exists p, p ∈ ps /\ nmc_interface p = lk_name l /\ nmc_mac p = Some mac).
Proof.
  intros Hv ps links. subst ps links. rewrite profiles_unfold.
  assert (well_formed (to_layered c)) as (_ & _ & _ & Hmem & _) by (by apply validate_spec).
  split_and!.
  - rewrite <- list_fmap_compose. apply list_fmap_ext. intros i l _. apply profile_names.
  - by apply profile_ids_nodup.
  - apply Forall_fmap, Forall_forall. intros l _. apply profile_managed.
  - intros p (l & -> & Hl)%list_elem_of_fmap.
    destruct (profile_names uuid_of c ctx l) as [Hn _]. rewrite Hn.
    destruct (profile_master uuid_of c ctx l) as [-> ->]. split.
    + intros l' pt Hl' Hpt Hin. pose proof (nm_masters_member _ _ _ _ Hmem Hl' Hpt Hin) as Hm.
      rewrite Hm. split_and!; [done..| |]; apply profile_port_l3; by rewrite Hm.
    + intros v4 v6 Hit Hno. pose proof (nm_masters_none _ _ Hno) as Hm. rewrite Hm.
      split; [done|]. by apply profile_addresses.
  - intros l mgmt mac Hl Hi Hg Hin Hmac. exists (profile_of uuid_of c ctx l).
    split_and!; [by apply list_elem_of_fmap_2|apply profile_names|by eapply profile_mac].
Qed.

(** ** The configuration as a whole *)

Lemma desired_ok uuid_of c live ctx :
  NetConfig.validate (to_layered c) = Ok tt ->
  NoDup (nmc_id <$> desired_profiles uuid_of c live ctx) /\ Forall managed (desired_profiles uuid_of c live ctx).
Proof.
  intros Hv. unfold desired_profiles, retain_live_physical_profiles. rewrite profiles_unfold. split.
  - by apply NoDup_map_retain, profile_ids_nodup.
  - apply Forall_retain, Forall_fmap, Forall_forall. intros l _. apply profile_managed.
Qed.

(** NetworkManager's paths and the ids of the engine's connections are distinct,
    new paths new. *)
Definition nm_sane (env : NmEnv) (s : NmState) : Prop :=
  NoDup (cn_path <$> nm_conns s) /\ NoDup (nasty_ids s) /\
  (forall n, nv_path env n ∉ (cn_path <$> nm_conns s)).

(** What it lists can be read. *)
Definition nm_readable (env : NmEnv) (s : NmState) : Prop :=
  forall c, c ∈ nm_conns s -> nv_read env (cn_path c) = None.

(** NetworkManager stores exactly these profiles. *)
Definition stores (stored : SettingsDict -> SettingsDict) (s : NmState) (ps : list NmConnection) : Prop :=
  nasty_ids s ≡ₚ nmc_id <$> ps /\
  (forall c d, c ∈ nm_conns s -> d ∈ ps -> conn_id c = Some (nmc_id d) ->
     cn_settings c = to_settings_dict d \/ cn_settings c = stored (to_settings_dict d)).

Lemma relay_default_renders : relay_render NetworkConfig_default = Ok ("", "").
Proof. reflexivity. Qed.

(** The relay after a pass. *)
Lemma relay_after env c w : relay_consistent w ->
  match relay_reconcile env c w with
  | (w', Ok _) => exists conf rules, relay_render c = Ok (conf, rules) /\ relay_runs conf rules w'
  | (w', Err _) => (exists e, relay_render c = Err e /\ w' = w) \/ (cleanup_ok env -> relay_off w')
  end.
Proof.
  intros Hw. unfold relay_reconcile. destruct (relay_render c) as [[conf rules]|e] eqn:Er; [|left; by exists e].
  destruct (reconcile_locked env c conf rules w) as [w1 [[]|e]] eqn:El.
  - exists conf, rules. split; [done|]. eapply reconcile_locked_ok; [exact Hw| |exact El].
    apply relay_render_spec in Er as (_ & _ & _ & H). apply H.
  - right. intros Hcl. by apply relay_cleanup_off.
Qed.

(** Nothing relays and nothing is let in for a relay. *)
Definition relay_silent (w : RelayWorld) : Prop :=
  rl_unit w = false /\ rl_chain w = "" /\ text_of (rl_policy w) = "".

Lemma relay_off_silent w : relay_off w -> relay_silent w.
Proof. intros (Hu & Hc & Hp). unfold relay_silent. by rewrite Hu, Hc, Hp. Qed.

Lemma relay_runs_empty w : relay_runs "" "" w -> relay_silent w.
Proof.
  intros (_ & Hp & Hc & Hu). unfold relay_silent. split_and!; [|done|done].
  destruct (rl_unit w); [|done]. exfalso. by apply Hu.
Qed.

Lemma sync_ib_rest env c w :
  sy_nm (sync_ib_unmanaged_conf env c w) = sy_nm w /\ sy_relay (sync_ib_unmanaged_conf env c w) = sy_relay w.
Proof. unfold sync_ib_unmanaged_conf. by destruct (write_ib env c (sy_ib w)). Qed.

Lemma apply_profiles_err stored env desired s s' e :
  apply_profiles stored env desired s = (s', Err e) -> s' = s.
Proof.
  unfold apply_profiles, m_bind, m_get, m_lift. destruct (list_nasty_connections env s) as [l|]; [|by intros [= <- _]].
  by destruct (foldl (activate_target env) _ _).
Qed.


(** ** Examples: a bridge over the management interface *)

Definition dhcp : IpConfig := mkIpConfig Dhcp [] None.
Definition bridged_net : NetworkConfig :=
  mkNetworkConfig [mkInterfaceConfig "eth1" true dhcp IpConfig_default None None []] ["192.0.2.53"] [] []
    [mkBridgeConfig "br0" ["eth0"] dhcp IpConfig_default None false None true None] [].
Definition bridged_live : list LiveInterface :=
  [mkLiveInterface "eth0" "02:00:00:00:00:01" "physical" None;
   mkLiveInterface "eth1" "02:00:00:00:00:02" "physical" None].

(** A NetworkManager that answers every call. *)
Definition willing_nm : NmEnv :=
  mkNmEnv None (fun _ => None) (fun _ => Done) (fun n => "/new/" +:+ fmt_dec (Z.of_nat n))
    (fun iface => Ok [("/dev/" +:+ iface, Ok iface)]) (fun _ => None) (fun _ => None) (fun _ _ => None).
Definition willing_relay : RelayEnv := mkRelayEnv Done None None Done None None Done Done Done None.
Definition willing : ApplyEnv := mkApplyEnv bridged_live None None None None willing_nm willing_relay.

Definition some_conn (path id : string) : NmConn :=
  mkNmConn path {[ "connection" := {[ "id" := v_str id ]} ]}.

(** A wired connection of the operator's, and a profile of a link that is gone. *)
Definition bridged_sys : NetSys :=
  mkNetSys (mkNmState [some_conn "/1" "Wired connection 1"; some_conn "/2" "nasty-eth9"] 0 [])
    (mkRelayWorld NoFile NoFile false "") NoFile 0.

(** NetworkManager reports a section of its own besides those it was given. *)
Definition with_proxy (d : SettingsDict) : SettingsDict := <["proxy" := ∅]> d.

#[export] Instance with_proxy_keeps_id : KeepsId with_proxy.
Proof. intros d. unfold read_string, with_proxy. by rewrite lookup_insert_ne. Qed.

Lemma bridged_sane : nm_sane willing_nm (sy_nm bridged_sys).
Proof.
  split_and!.
  - apply (bool_decide_unpack _). reflexivity.
  - apply (bool_decide_unpack _). vm_compute. exact I.
  - intros n H. cbn in H. rewrite !elem_of_cons in H. destruct H as [H|[H|H]]; [discriminate H..|by apply elem_of_nil in H].
Qed.

Definition uuid_x (n : string) : string := "uuid-" +:+ n.

Lemma nm_apply_spares_foreign_witness :
  foreign (fst (apply_profiles with_proxy
    (mkNmEnv None (fun _ => None) (fun _ => Failed true "timeout") (nv_path willing_nm) (nv_devices willing_nm)
       (fun _ => None) (fun _ => None) (fun _ _ => None))
    (desired_profiles uuid_x bridged_net bridged_live (apply_context bridged_live (Some "eth0")))
    (sy_nm bridged_sys))) = [some_conn "/1" "Wired connection 1"].
Proof.
  exact (nm_apply_spares_foreign with_proxy _ _ (sy_nm bridged_sys) with_proxy_keeps_id (proj1 bridged_sane)
    (proj2 (desired_ok uuid_x bridged_net bridged_live (apply_context bridged_live (Some "eth0")) eq_refl))).
Defined.

(** The bridge takes the management interface's MAC, whose profile is its port. *)
Lemma nm_profiles_faithful_witness :
  exists p, p ∈ to_nm_profiles_with_macs uuid_x (to_layered bridged_net) (apply_context bridged_live (Some "eth0")) /\
    nmc_interface p = "br0" /\ nmc_mac p = Some "02:00:00:00:00:01".
Proof.
  pose proof (nm_profiles_faithful uuid_x bridged_net (apply_context bridged_live (Some "eth0")) eq_refl)
    as (_ & _ & _ & _ & H).
  exact (H (bridge_link (mkBridgeConfig "br0" ["eth0"] dhcp IpConfig_default None false None true None)) "eth0"
           "02:00:00:00:00:01" ltac:(set_solver) eq_refl eq_refl ltac:(set_solver) eq_refl).
Defined.


(** ** A gap: the start-up pass knows no MAC addresses

    [reconcile_orphans] and [nm_preview] build the desired profiles without the
    live MAC addresses [apply_config] uses, so that a bridge that inherits its
    MAC differs from the profile just applied: the preview announces a change
    where there is none, and the pass at the next start takes the address away
    from the stored profile. *)

Definition bridge_mac (w : NetSys) : option Variant :=
  c ← find_first (fun c => bool_decide (conn_id c = Some "nasty-br0")) (nm_conns (sy_nm w));
  s ← cn_settings c !! "bridge";
  s !! "mac-address".

Definition settled_sys : NetSys := fst (apply_config uuid_x id willing bridged_net (Some "eth0") bridged_sys).

Theorem reconcile_drops_inherited_mac :
  bridge_mac settled_sys = Some (VBytes [2; 0; 0; 0; 0; 1]) /\
  nm_calls (sy_nm (fst (apply_config uuid_x id willing bridged_net (Some "eth0") settled_sys)))
    = nm_calls (sy_nm settled_sys) /\
  match nm_preview uuid_x willing bridged_net settled_sys with
  | Ok d => df_update d = [("nasty-br0", ["bridge"])]
  | Err _ => False
  end /\
  bridge_mac (reconcile_orphans uuid_x id willing bridged_net settled_sys) = None.
Proof. repeat split; vm_compute; reflexivity. Qed.
