(* ===== verification/Nfs.v ===== *)
(** * NFS shares (nasty-sharing/src/nfs.rs)

    Shares are state files; each enabled share has one file in /etc/exports.d.
    The outcomes of system calls and of exportfs are arguments.  The reader of
    exports(5) below is the reference for what a rendered file means. *)

From Stdlib Require Import ZArith Lia Ascii String.
From stdpp Require Import base list gmap strings.
From S2P Require Import Prelude.
From S2P Require Import RustStr.
From S2P Require Import Text.
From S2P Require Import RustPath.
From S2P Require Import StateDir.

(** ** Data *)

Inductive NfsError : Type :=
| NfsNotFound (e : string)
| NfsAlreadyExists (e : string)
| NfsPathNotFound (e : string)
| NfsPathNotInFilesystem (e : string)
| InvalidClient (e : string)
| ExportFailed (e : string)
| NfsIo (e : string).

Record NfsClient : Type := mkNfsClient { nc_host : string; nc_options : string }.

Record NfsShare : Type := mkNfsShare {
  ns_id : string;
  ns_path : string;
  ns_comment : option string;
  ns_clients : list NfsClient;
  ns_enabled : bool;
}.

Record CreateNfsShareRequest : Type := mkCreateNfs {
  cn_path : string;
  cn_comment : option string;
  cn_clients : list NfsClient;
  cn_enabled : option bool;
}.

Record UpdateNfsShareRequest : Type := mkUpdateNfs {
  un_id : string;
  un_comment : option string;
  un_clients : option (list NfsClient);
  un_enabled : option bool;
}.

(** ** Checks *)

Definition char_in (cs : list ascii) (c : ascii) : bool := existsb (Ascii.eqb c) cs.

Definition bad_host_char (ch : bytes) : bool :=
  is_whitespace ch || is_control ch
  || one_byte (char_in ["("; ")"; chr 34; "'"; ";"; ","; chr 92]%char) ch.

Definition validate_nfs_host (host : string) : result unit NfsError :=
  if String.eqb host "" then Err (InvalidClient "host is empty")
  else if existsb bad_host_char (chars host)
  then Err (InvalidClient ("host '" +:+ host +:+ "' contains invalid characters"))
  else Ok tt.

Definition option_char (c : ascii) : bool :=
  is_ascii_alphanumeric c || char_in ["_"; "-"; "="; ","; "/"; "."; ":"; "@"]%char c.

Definition validate_nfs_options (options : string) : result unit NfsError :=
  if existsb (fun ch => negb (one_byte option_char ch)) (chars options)
  then Err (InvalidClient ("options '" +:+ options +:+ "' contain invalid characters"))
  else Ok tt.

Definition validate_nfs_client (client : NfsClient) : result unit NfsError :=
  _ <-? validate_nfs_host (nc_host client) ;;
  _ <-? validate_nfs_options (nc_options client) ;;
  Ok tt.

Definition bad_path_char (ch : bytes) : bool :=
  is_control ch || one_byte (char_in [chr 9; chr 10; chr 13; chr 34; "'"; chr 92]%char) ch.

Definition validate_export_path (path : string) : result unit NfsError :=
  if existsb bad_path_char (chars path)
  then Err (InvalidClient ("path '" +:+ path +:+ "' contains invalid characters for an exports file"))
  else Ok tt.

(** ** The exports file *)

(** [u32] arithmetic wraps. *)
Definition stable_fsid (id : string) : Z :=
  foldl (fun hash b => (hash * 33 + code b) mod 2 ^ 32) 5381 (to_bytes id) mod 2147483646 + 1.

Definition client_options (id : string) (c : NfsClient) : string :=
  let opts := nc_options c in
  let opts := if str_contains "fsid=" opts then opts else opts +:+ ",fsid=" +:+ fmt_dec (stable_fsid id) in
  if negb (str_contains "insecure" opts) && negb (str_contains "secure" opts) then opts +:+ ",insecure" else opts.

Definition client_entry (id : string) (c : NfsClient) : string :=
  nc_host c +:+ "(" +:+ client_options id c +:+ ")".

Definition render_export_file (share : NfsShare) : result string NfsError :=
  _ <-? validate_export_path (ns_path share) ;;
  _ <-? try_each validate_nfs_client (ns_clients share) ;;
  Ok ("# NASty share " +:+ ns_id share +:+ nl +:+
      ns_path share +:+ String (chr 9) (str_join " " (client_entry (ns_id share) <$> ns_clients share)) +:+ nl).

Definition export_file_path (id : string) : string := "/etc/exports.d/nasty-" +:+ id +:+ ".exports".

(** ** Operations *)

Record NfsWorld : Type := mkNfsWorld {
  nw_state : StateDir NfsShare;
  nw_files : gmap string string;      (** exports.d, by path *)
}.

(** How exportfs ends. *)
Inductive ReloadOut : Type := ReloadOk | ReloadNotStarted (e : string) | ReloadExit (stderr : string).

(** A write that fails may leave something else in the file. *)
Inductive WriteOut : Type := WriteOk | WriteFailed (e : string) (kept : option string).

Record NfsEnv : Type := mkNfsEnv {
  ne_exists : bool;
  ne_canonical : option string;
  ne_id : string;                     (** the new UUID *)
  ne_save : option string;
  ne_remove_state : option string;
  ne_mkdir : option string;
  ne_exists_again : bool;
  ne_unlink : bool;                   (** whether remove_file succeeds *)
  ne_write : WriteOut;
  ne_reload : ReloadOut;
}.

Abbreviation nfs A := (stm NfsWorld NfsError A).

Definition nfs_io {A} (r : result A string) : result A NfsError :=
  match r with Ok a => Ok a | Err e => Err (NfsIo e) end.

Definition nfs_put_state (r : result (StateDir NfsShare) string) : nfs unit :=
  d <~ m_lift (nfs_io r) ;;
  m_modify (fun w => mkNfsWorld d (nw_files w)).

Definition unlink_export (env : NfsEnv) (id : string) : nfs unit :=
  m_modify (fun w => if ne_unlink env then mkNfsWorld (nw_state w) (delete (export_file_path id) (nw_files w)) else w).

Definition write_file (env : NfsEnv) (path content : string) : nfs unit := fun w =>
  match ne_write env with
  | WriteOk => (mkNfsWorld (nw_state w) (<[path := content]> (nw_files w)), Ok tt)
  | WriteFailed e kept =>
      (mkNfsWorld (nw_state w)
         (match kept with Some c => <[path := c]> (nw_files w) | None => nw_files w end), Err (NfsIo e))
  end.

Definition write_export_file (env : NfsEnv) (share : NfsShare) : nfs unit :=
  m_lift (match ne_mkdir env with Some e => Err (NfsIo e) | None => Ok tt end) ;;;
  if negb (ns_enabled share) || negb (ne_exists_again env) then unlink_export env (ns_id share)
  else
    content <~ m_lift (render_export_file share) ;;
    write_file env (export_file_path (ns_id share)) content.

Definition reload_exports (env : NfsEnv) : nfs unit :=
  match ne_reload env with
  | ReloadOk => m_ret tt
  | ReloadNotStarted e => m_throw (NfsIo e)
  | ReloadExit stderr => if str_contains "Failed to stat" stderr then m_ret tt else m_throw (ExportFailed stderr)
  end.

Definition nfs_get (id : string) : nfs NfsShare :=
  w <~ m_get ;; m_lift (ok_or (load (nw_state w) id) (NfsNotFound id)).

(** What [create] and [update] end with: the share is saved, written out and
    exported. *)
Definition publish (env : NfsEnv) (share : NfsShare) : nfs NfsShare :=
  w <~ m_get ;;
  nfs_put_state (save (ne_save env) (ns_id share) share (nw_state w)) ;;;
  write_export_file env share ;;;
  reload_exports env ;;;
  m_ret share.

(** The checks [create] starts with. *)
Definition check_create (env : NfsEnv) (req : CreateNfsShareRequest) : result unit NfsError :=
  _ <-? validate_export_path (cn_path req) ;;
  guard? ne_exists env else NfsPathNotFound (cn_path req) ;;
  canonical <-? ok_or (ne_canonical env) (NfsPathNotFound (cn_path req)) ;;
  guard? path_starts_with canonical "/fs/" else NfsPathNotInFilesystem (cn_path req) ;;
  try_each validate_nfs_client (cn_clients req).

Definition nfs_create (env : NfsEnv) (req : CreateNfsShareRequest) : nfs NfsShare :=
  m_lift (check_create env req) ;;;
  w <~ m_get ;;
  match find_first (fun s => String.eqb (ns_path s) (cn_path req)) (load_all (nw_state w)) with
  | Some existing => m_ret existing
  | None =>
      publish env (mkNfsShare (ne_id env) (cn_path req) (cn_comment req) (cn_clients req) (default true (cn_enabled req)))
  end.

(** The share an update makes. *)
Definition updated_share (share : NfsShare) (req : UpdateNfsShareRequest) : NfsShare :=
  mkNfsShare (ns_id share) (ns_path share)
    (match un_comment req with Some c => Some c | None => ns_comment share end)
    (default (ns_clients share) (un_clients req)) (default (ns_enabled share) (un_enabled req)).

Definition nfs_update (env : NfsEnv) (req : UpdateNfsShareRequest) : nfs NfsShare :=
  share <~ nfs_get (un_id req) ;;
  m_lift (try_each validate_nfs_client (default [] (un_clients req))) ;;;
  publish env (updated_share share req).

Definition nfs_delete (env : NfsEnv) (id : string) : nfs unit :=
  nfs_get id ;;;
  w <~ m_get ;;
  nfs_put_state (remove (ne_remove_state env) id (nw_state w)) ;;;
  unlink_export env id ;;;
  reload_exports env.

(** ** Reading exports(5)

    One entry per line: a path, then clients separated by blanks, each with an
    optional parenthesised list of options.  A [#] starts a comment.  Quotes,
    escapes, continuation lines and default options (a leading dash) are not
    read: the result is [None]. *)

Definition export_words (l : string) : list string := words (str_replace_char (chr 9) (chr 32) l).

Definition read_client (w : string) : option (string * list string) :=
  if starts_with "-" w then None
  else
    match split_once "(" w with
    | None => Some (w, [])
    | Some (host, rest) => opts ← strip_suffix ")" rest; Some (host, str_split "," opts)
    end.

Definition read_export_line (l0 : string) : option (list (string * list (string * list string))) :=
  let l := match split_once "#" l0 with Some (before, _) => before | None => l0 end in
  if str_contains_char (chr 34) l || str_contains_char (chr 92) l then None
  else
    match export_words l with
    | [] => Some []
    | path :: ws => cs ← mapM read_client ws; Some [(path, cs)]
    end.

Definition read_exports (text : string) : option (list (string * list (string * list string))) :=
  mjoin <$> mapM read_export_line (lines text).
