(* ===== verification/NfsProps.v ===== *)
(** * NFS shares are exported as stored

    What an exports file means, read back by [read_exports], is the path, the
    clients and the options of the share; and the operations keep the files and
    the stored shares together. *)

From Stdlib Require Import ZArith Lia Ascii String.
From stdpp Require Import base list gmap strings.
From S2P Require Import Prelude.
From S2P Require Import RustStr.
From S2P Require Import Text.
From S2P Require Import RustPath.
From S2P Require Import StateDir.
From S2P Require Import Nfs.

(** Facts on given characters. *)
Ltac chr_fact := first [assumption | done | vm_compute; reflexivity | vm_compute; congruence].

(** ** Fields *)

Lemma validate_host_ok h : validate_nfs_host h = Ok tt -> h <> "" /\ existsb bad_host_char (chars h) = false.
Proof.
  unfold validate_nfs_host. destruct (String.eqb_spec h ""); [done|].
  by destruct (existsb bad_host_char (chars h)).
Qed.

Lemma host_no c h : validate_nfs_host h = Ok tt -> bad_host_char [c] = true -> code c < 128 -> no_char c h.
Proof. intros [_ H]%validate_host_ok Hb Hc. by eapply no_ascii_char. Qed.

Lemma path_no c p : validate_export_path p = Ok tt -> bad_path_char [c] = true -> code c < 128 -> no_char c p.
Proof.
  unfold validate_export_path. destruct (existsb bad_path_char (chars p)) eqn:E; [done|].
  intros _ Hb Hc. by eapply no_ascii_char.
Qed.

Lemma options_class o : validate_nfs_options o = Ok tt -> Forall (fun c => option_char c = true) (to_bytes o).
Proof. unfold validate_nfs_options. destruct (existsb _ _) eqn:E; [done|]. intros _. by apply chars_class. Qed.

Lemma stable_fsid_range id : 1 <= stable_fsid id < 2 ^ 31.
Proof. unfold stable_fsid. match goal with |- context [?x mod 2147483646] => pose proof (Z.mod_pos_bound x 2147483646) end. lia. Qed.

Lemma digit_option c : is_ascii_digit c = true -> option_char c = true.
Proof. intros H. unfold option_char, is_ascii_alphanumeric. rewrite H. by rewrite orb_true_r. Qed.

Lemma client_options_class id c :
  validate_nfs_options (nc_options c) = Ok tt ->
  Forall (fun x => option_char x = true) (to_bytes (client_options id c)).
Proof.
  intros H%options_class. unfold client_options. pose proof (stable_fsid_range id).
  assert (Forall (fun x => option_char x = true) (to_bytes (fmt_dec (stable_fsid id)))) as Hf.
  { eapply Forall_impl; [apply fmt_dec_digits; lia|]. apply digit_option. }
  repeat case_match; rewrite ?to_bytes_app; repeat (apply Forall_app; split); try done;
    try (repeat constructor; reflexivity).
Qed.

(** ** Reading back *)

(** The path is one word of the line. *)
Definition plain_path (p : string) : Prop := p <> "" /\ no_char (chr 32) p /\ no_char "#" p.
Definition plain_host (h : string) : Prop := no_char "#" h /\ starts_with "-" h = false.

Lemma replace_tab_id s : no_char (chr 9) s -> str_replace_char (chr 9) (chr 32) s = s.
Proof.
  intros H. apply to_bytes_inj. unfold str_replace_char. rewrite to_of_bytes. unfold no_char, replace_byte in *.
  induction (to_bytes s) as [|c l IH]; [done|]. apply not_elem_of_cons in H as [Hc Hl].
  rewrite fmap_cons, IH by done. by destruct (Ascii.eqb_spec c (chr 9)) as [->|].
Qed.

Lemma replace_app a b : str_replace_char (chr 9) (chr 32) (a +:+ b) =
  str_replace_char (chr 9) (chr 32) a +:+ str_replace_char (chr 9) (chr 32) b.
Proof.
  unfold str_replace_char, replace_byte. by rewrite to_bytes_app, fmap_app, of_bytes_app.
Qed.

Lemma client_no c id k : validate_nfs_client k = Ok tt ->
  bad_host_char [c] = true -> option_char c = false -> code c < 128 -> c <> "("%char -> c <> ")"%char ->
  no_char c (client_entry id k).
Proof.
  unfold validate_nfs_client. intros H. destruct (validate_nfs_host (nc_host k)) as [[]|] eqn:Eh; [|done].
  cbn in H. destruct (validate_nfs_options (nc_options k)) as [[]|] eqn:Eo; [|done].
  intros Hb Ho Hc H1 H2. unfold client_entry. rewrite !no_char_app. split_and!.
  - by apply host_no.
  - intros ?%list_elem_of_singleton. done.
  - eapply class_no_char; [by apply client_options_class|done].
  - intros ?%list_elem_of_singleton. done.
Qed.

Lemma client_no_hash id k : validate_nfs_client k = Ok tt -> plain_host (nc_host k) -> no_char "#" (client_entry id k).
Proof.
  unfold validate_nfs_client. intros H [Hh _]. destruct (validate_nfs_host (nc_host k)) as [[]|]; [|done].
  cbn in H. destruct (validate_nfs_options (nc_options k)) as [[]|] eqn:Eo; [|done].
  unfold client_entry. rewrite !no_char_app. split_and!; [done|by intros ?%list_elem_of_singleton| |by intros ?%list_elem_of_singleton].
  eapply class_no_char; [by apply client_options_class|done].
Qed.

Lemma read_client_entry id k : validate_nfs_client k = Ok tt -> plain_host (nc_host k) ->
  read_client (client_entry id k) = Some (nc_host k, str_split "," (client_options id k)).
Proof.
  unfold validate_nfs_client. intros H [_ Hd]. destruct (validate_nfs_host (nc_host k)) as [[]|] eqn:Eh; [|done].
  clear H. unfold read_client, client_entry. pose proof (validate_host_ok _ Eh) as [Hne _].
  replace (starts_with "-" (nc_host k +:+ _)) with false.
  2:{ symmetry. apply not_true_iff_false. intros [r Hr]%starts_with_spec. apply not_true_iff_false in Hd. apply Hd.
      apply starts_with_spec. destruct (nc_host k) as [|c h]; [done|]. injection Hr as -> _. by exists h. }
  change ("(" +:+ ?x) with (String "(" x). rewrite split_once_app by (by apply host_no).
  by rewrite strip_suffix_app.
Qed.

(** The lines of a file. *)
Lemma render_lines id path cs :
  no_char (chr 10) id -> no_char (chr 10) path -> no_char (chr 10) cs ->
  lines ("# NASty share " +:+ id +:+ nl +:+ path +:+ String (chr 9) cs +:+ nl) =
  ["# NASty share " +:+ id; path +:+ String (chr 9) cs; ""].
Proof.
  intros H1 H2 H3.
  transitivity (lines (line ("# NASty share " +:+ id) +:+ (line (path +:+ String (chr 9) cs) +:+ ""))).
  { f_equal. unfold line. by rewrite !string_app_assoc, string_app_nil. }
  rewrite !lines_cons; [done|..]; rewrite no_char_app; [|by split; [apply no_char_dec|]].
  rewrite no_char_cons. by split_and!.
Qed.

Lemma read_header id : read_export_line ("# NASty share " +:+ id) = Some [].
Proof. done. Qed.

(** A line of a path and entries, each a word. *)
Lemma read_entry_line path entries :
  plain_path path -> Forall (fun e => e <> "" /\ no_char (chr 32) e) entries ->
  (forall c, c ∈ ["#"%char; chr 9; chr 34; chr 92] -> no_char c path /\ Forall (no_char c) entries) ->
  read_export_line (path +:+ String (chr 9) (str_join " " entries)) =
  (cs ← mapM read_client entries; Some [(path, cs)]).
Proof.
  intros (Hp0 & Hp & _) He Hc. unfold read_export_line.
  assert (forall c, c ∈ ["#"%char; chr 9; chr 34; chr 92] -> no_char c (str_join " " entries)) as Hj.
  { intros c Hin. apply join_no_char; [|by apply Hc]. intros ->%list_elem_of_singleton.
    by apply (bool_decide_eq_true_2 _) in Hin. }
  assert (forall c, c ∈ ["#"%char; chr 34; chr 92] -> no_char c (path +:+ String (chr 9) (str_join " " entries))) as Hl.
  { intros c Hin. rewrite no_char_app, no_char_cons. split_and!; [apply Hc; set_solver| |apply Hj; set_solver].
    intros ->. by apply (bool_decide_eq_true_2 _) in Hin. }
  rewrite split_once_none by (apply Hl; set_solver). rewrite !(proj2 (contains_char_no _ _)) by (apply Hl; set_solver). cbn [orb].
  unfold export_words. rewrite replace_app, (replace_tab_id path) by (apply Hc; set_solver).
  change (String (chr 9) ?x) with (String (chr 9) "" +:+ x). rewrite replace_app.
  change (str_replace_char (chr 9) (chr 32) (String (chr 9) "")) with (String (chr 32) "").
  rewrite replace_tab_id by (apply Hj; set_solver).
  change (String (chr 32) "" +:+ ?x) with (String (chr 32) x).
  rewrite words_app, words_single, words_join by done.
  replace (entries ≫= words) with entries; [done|].
  clear Hc Hj Hl. induction He as [|e es [? ?] _ IH]; [done|]. cbn. rewrite words_single by done. cbn. by rewrite <- IH.
Qed.

Lemma mapM_client_entries id cs :
  (forall k, k ∈ cs -> validate_nfs_client k = Ok tt /\ plain_host (nc_host k)) ->
  mapM read_client (client_entry id <$> cs) = Some ((fun k => (nc_host k, str_split "," (client_options id k))) <$> cs).
Proof.
  induction cs as [|k cs IH]; intros H; [done|]. cbn. destruct (H k) as [Hv Hh]; [by left|].
  rewrite read_client_entry by done. cbn. rewrite IH; [done|]. intros k' Hk'. apply H. by right.
Qed.

(** C26. An exports file means what the share says.  For a share that was
    rendered, so that its path, hosts and options passed the checks, whose path is
    moreover not empty and has no blank and no [#], whose hosts have no [#] and do
    not begin with a dash, and whose id has no line break: read back as
    exports(5), the file has one entry, for the path of the share, with exactly
    its clients, each with its options and the added fsid and port options.  The
    checks do not ensure the conditions on the path and the hosts: a path with a
    blank exports another directory to clients of its own
    ([nfs_path_injects_client]). *)
Theorem nfs_export_reads_back share text :
  render_export_file share = Ok text -> no_char (chr 10) (ns_id share) ->
  plain_path (ns_path share) -> Forall (fun k => plain_host (nc_host k)) (ns_clients share) ->
  read_exports text =
    Some [(ns_path share,
           (fun k => (nc_host k, str_split "," (client_options (ns_id share) k))) <$> ns_clients share)].
Proof.
  unfold render_export_file. intros H Hid [Hp0 [Hp Hph]] Hh.
  destruct (validate_export_path (ns_path share)) as [[]|] eqn:Ep; [|done]. cbn in H.
  destruct (try_each validate_nfs_client (ns_clients share)) as [[]|] eqn:Ec; [|done]. injection H as <-.
  rewrite try_each_spec in Ec. set (entries := client_entry (ns_id share) <$> ns_clients share).
  assert (forall c, Forall (no_char c) entries -> c <> chr 32 -> no_char c (str_join " " entries)) as Hj.
  { intros c HF Hc. apply join_no_char; [|done]. by intros ?%list_elem_of_singleton. }
  assert (forall c, bad_host_char [c] = true -> option_char c = false -> code c < 128 -> c <> "("%char ->
            c <> ")"%char -> c <> chr 32 -> no_char c (str_join " " entries)) as Hjc.
  { intros c ? ? ? ? ? Hsp. apply Hj; [|done]. apply Forall_fmap, Forall_forall. intros k Hk. apply client_no; auto. }
  assert (no_char "#" (str_join " " entries)) as Hhash.
  { apply Hj; [|done]. apply Forall_fmap, Forall_forall. intros k Hk. apply client_no_hash; [auto|].
    by rewrite Forall_forall in Hh; apply Hh. }
  assert (forall k, k ∈ ns_clients share -> validate_nfs_client k = Ok tt /\ plain_host (nc_host k)) as Hk.
  { intros k Hin. split; [by apply Ec|]. by rewrite Forall_forall in Hh; apply Hh. }
  unfold read_exports. rewrite (render_lines (ns_id share)) by (try done; first [apply Hjc|apply path_no]; chr_fact).
  cbn [mapM]. rewrite read_header. cbn [mbind option_bind].
  rewrite read_entry_line; [|done|..].
  - unfold entries. rewrite (mapM_client_entries (ns_id share) _ Hk). done.
  - apply Forall_fmap, Forall_forall. intros k [Hv _]%Hk. split; [|apply client_no; chr_fact].
    unfold client_entry. destruct (nc_host k); done.
  - intros c Hin. split; [|apply Forall_fmap, Forall_forall; intros k [Hv Hpl]%Hk].
    + repeat (apply elem_of_cons in Hin as [->|Hin]; [first [assumption|apply path_no; chr_fact]|]). by apply elem_of_nil in Hin.
    + repeat (apply elem_of_cons in Hin as [->|Hin]; [first [by apply client_no_hash|apply client_no; chr_fact]|]).
      by apply elem_of_nil in Hin.
Qed.

Definition demo_share (path : string) : NfsShare :=
  mkNfsShare "6f1c" path None [mkNfsClient "10.0.0.5" "rw,sync"; mkNfsClient "192.168.1.0/24" "ro,fsid=7,secure"] true.

Definition demo_text (path : string) : string :=
  match render_export_file (demo_share path) with Ok t => t | Err _ => "" end.

Lemma nfs_export_reads_back_witness :
  render_export_file (demo_share "/fs/tank/a") = Ok (demo_text "/fs/tank/a") /\
  read_exports (demo_text "/fs/tank/a") =
    Some [("/fs/tank/a", [("10.0.0.5", ["rw"; "sync"; "fsid=2088526998"; "insecure"]);
                          ("192.168.1.0/24", ["ro"; "fsid=7"; "secure"])])].
Proof.
  assert (render_export_file (demo_share "/fs/tank/a") = Ok (demo_text "/fs/tank/a")) as E by (vm_compute; reflexivity).
  split; [exact E|]. rewrite (nfs_export_reads_back _ _ E).
  - vm_compute. reflexivity.
  - apply no_char_dec. vm_compute. reflexivity.
  - split_and!; [done|apply no_char_dec; vm_compute; reflexivity..].
  - repeat constructor; apply no_char_dec; vm_compute; reflexivity.
Defined.

(** A path with a blank passes the checks, and the file exports another
    directory, here to everybody. *)
Lemma nfs_path_injects_client :
  validate_export_path "/fs/tank/a *(rw,no_root_squash)" = Ok tt /\
  read_exports (demo_text "/fs/tank/a *(rw,no_root_squash)") =
    Some [("/fs/tank/a", [("*", ["rw"; "no_root_squash"]); ("10.0.0.5", ["rw"; "sync"; "fsid=2088526998"; "insecure"]);
                          ("192.168.1.0/24", ["ro"; "fsid=7"; "secure"])])].
Proof. split; vm_compute; reflexivity. Qed.

(** ** Operations *)

Inductive NfsOp : Type :=
| NfsCreate (req : CreateNfsShareRequest)
| NfsUpdate (req : UpdateNfsShareRequest)
| NfsDelete (id : string).

Definition run_nfs (env : NfsEnv) (op : NfsOp) : nfs (option NfsShare) :=
  match op with
  | NfsCreate req => s <~ nfs_create env req ;; m_ret (Some s)
  | NfsUpdate req => s <~ nfs_update env req ;; m_ret (Some s)
  | NfsDelete id => nfs_delete env id ;;; m_ret None
  end.

(** The id an operation may touch. *)
Definition touched (env : NfsEnv) (op : NfsOp) : string :=
  match op with NfsCreate _ => ne_id env | NfsUpdate req => un_id req | NfsDelete id => id end.

Definition share_valid (s : NfsShare) : Prop :=
  validate_export_path (ns_path s) = Ok tt /\ forall c, c ∈ ns_clients s -> validate_nfs_client c = Ok tt.

(** Every item is filed under its id and valid, and no path is shared twice. *)
Definition nfs_inv : StateDir NfsShare -> Prop := keyed ns_id ns_path share_valid.

(** What exports.d should hold for a share. *)
Definition exported (env : NfsEnv) (s : NfsShare) : option string :=
  if ns_enabled s && ne_exists_again env
  then match render_export_file s with Ok t => Some t | Err _ => None end
  else None.

Lemma render_valid s : share_valid s -> exists t, render_export_file s = Ok t.
Proof.
  intros [Hp Hc]. unfold render_export_file. rewrite Hp. cbn.
  assert (try_each validate_nfs_client (ns_clients s) = Ok tt) as -> by (by apply try_each_spec). by eexists.
Qed.

Lemma export_path_inj a b : export_file_path a = export_file_path b -> a = b.
Proof.
  unfold export_file_path. intros H. apply to_bytes_inj. apply (f_equal to_bytes) in H.
  rewrite !to_bytes_app in H. apply (inj (app _)) in H. by apply (inj (fun x => x ++ _)) in H.
Qed.

(** Writing the file of a share touches no other file, and success leaves what
    it should. *)
Lemma write_export_spec env s w :
  share_valid s ->
  let '(w', r) := write_export_file env s w in
  nw_state w' = nw_state w /\
  (forall f, f <> export_file_path (ns_id s) -> nw_files w' !! f = nw_files w !! f) /\
  (r = Ok tt -> ne_unlink env = true -> nw_files w' !! export_file_path (ns_id s) = exported env s).
Proof.
  intros [t Ht]%render_valid. unfold write_export_file, exported, m_bind, m_lift.
  destruct (ne_mkdir env); [done|]. rewrite Ht. destruct (ns_enabled s && ne_exists_again env) eqn:E.
  - replace (negb (ns_enabled s) || negb (ne_exists_again env)) with false by (destruct (ns_enabled s), (ne_exists_again env); done).
    unfold write_file. destruct (ne_write env) as [|e [c|]]; cbn; split_and!; try done; intros.
    + by rewrite lookup_insert_ne.
    + by rewrite lookup_insert_eq.
    + by rewrite lookup_insert_ne.
  - replace (negb (ns_enabled s) || negb (ne_exists_again env)) with true by (destruct (ns_enabled s), (ne_exists_again env); done).
    unfold unlink_export, m_modify. destruct (ne_unlink env); cbn; split_and!; try done; intros.
    + by rewrite lookup_delete_ne.
    + by rewrite lookup_delete_eq.
Qed.

(** Where the path of a share that is written comes from. *)
Definition nfs_origin (op : NfsOp) (d : StateDir NfsShare) (s : NfsShare) : Prop :=
  match op with
  | NfsCreate req => ns_path s = cn_path req
  | NfsUpdate req => exists old, load d (un_id req) = Some old /\ ns_path s = ns_path old
  | NfsDelete _ => False
  end.

(** The effect of one operation. *)
Inductive nfs_effect (env : NfsEnv) (op : NfsOp) (w w' : NfsWorld) (r : result (option NfsShare) NfsError) : Prop :=
| NfsSame : w' = w ->
    (forall s, r = Ok s -> exists req x, op = NfsCreate req /\ s = Some x /\ load (nw_state w) (ns_id x) = Some x /\
       ns_path x = cn_path req) -> nfs_effect env op w w' r
| NfsPut (s : NfsShare) :
    share_valid s -> ns_id s = touched env op -> nfs_origin op (nw_state w) s ->
    (forall id x, load (nw_state w) id = Some x -> ns_path x = ns_path s -> id = ns_id s) ->
    nw_state w' = <[ns_id s := Some s]> (nw_state w) ->
    (forall f, f <> export_file_path (ns_id s) -> nw_files w' !! f = nw_files w !! f) ->
    (forall s', r = Ok s' -> s' = Some s /\
       (ne_unlink env = true -> nw_files w' !! export_file_path (ns_id s) = exported env s)) ->
    nfs_effect env op w w' r
| NfsGone (id : string) : op = NfsDelete id ->
    nw_state w' = delete id (nw_state w) ->
    (forall f, f <> export_file_path id -> nw_files w' !! f = nw_files w !! f) ->
    (ne_unlink env = true -> nw_files w' !! export_file_path id = None) ->
    (forall s', r = Ok s' -> s' = None) -> nfs_effect env op w w' r.

Lemma publish_effect env op s w :
  share_valid s -> ns_id s = touched env op -> nfs_origin op (nw_state w) s ->
  (forall id x, load (nw_state w) id = Some x -> ns_path x = ns_path s -> id = ns_id s) ->
  let '(w', r) := publish env s w in
  nfs_effect env op w w' (match r with Ok x => Ok (Some x) | Err e => Err e end).
Proof.
  intros Hv Ht Ho' Hp. unfold publish.
  pose proof (write_export_spec env s (mkNfsWorld (<[ns_id s:=Some s]> (nw_state w)) (nw_files w)) Hv) as H.
  revert H. generalize (write_export_file env s). intros write H.
  unfold m_bind, m_get, nfs_put_state, save, m_lift. destruct (ne_save env); [by apply NfsSame|]. cbn.
  destruct (write _) as [w' [[]|e]]; destruct H as (Hs & Hf & Ho); cbn in *.
  - assert (forall r, nfs_effect env op w w' (Err r)) as Herr by (intros r; by apply (NfsPut _ _ _ _ _ s)).
    assert (nfs_effect env op w w' (Ok (Some s))) as Hok.
    { apply (NfsPut _ _ _ _ _ s); [done..|]. intros s' [= <-]. split; [done|]. by apply Ho. }
    unfold reload_exports. destruct (ne_reload env) as [|e|err]; [exact Hok|exact (Herr _)|].
    destruct (str_contains "Failed to stat" err); [exact Hok|exact (Herr _)].
  - by apply (NfsPut _ _ _ _ _ s).
Qed.

(** The file of a deleted share goes with it. *)
Lemma delete_effect env id w s :
  load (nw_state w) id = Some s ->
  let '(w', r) := nfs_delete env id w in
  nfs_effect env (NfsDelete id) w w' (match r with Ok _ => Ok None | Err e => Err e end).
Proof.
  intros Hl. unfold nfs_delete, nfs_get, m_bind, m_get, m_lift, nfs_put_state, remove. rewrite Hl. cbn.
  destruct (ne_remove_state env); [by apply NfsSame|]. cbn. unfold unlink_export, m_modify. cbn.
  set (w1 := if ne_unlink env then _ else _).
  assert (forall r, (forall s', r = Ok s' -> s' = None) -> nfs_effect env (NfsDelete id) w w1 r) as H.
  { intros r Hr. apply (NfsGone _ _ _ _ _ id); subst w1; destruct (ne_unlink env); cbn; try done; intros.
    - by rewrite lookup_delete_ne.
    - by rewrite lookup_delete_eq. }
  unfold reload_exports. destruct (ne_reload env) as [|e|err]; [..|destruct (str_contains "Failed to stat" err)];
    apply H; naive_solver.
Qed.

Lemma nfs_op_effect env op w :
  nfs_inv (nw_state w) ->
  let '(w', r) := run_nfs env op w in nfs_effect env op w w' r.
Proof.
  intros [Hk Hu]. destruct op as [req|req|id]; cbn [run_nfs].
  - unfold nfs_create, m_bind, m_lift, m_get. destruct (check_create env req) as [[]|e] eqn:Ec; [|by apply NfsSame].
    destruct (find_first _ _) as [x|] eqn:Ef; cbv beta iota.
    + apply NfsSame; [done|]. intros s Hs. injection Hs as <-. apply find_first_Some in Ef as (Hin & Hp%String.eqb_eq).
      apply elem_of_load_all in Hin as (i & Hi). exists req, x. by rewrite (proj1 (Hk _ _ Hi)).
    + set (s := mkNfsShare _ _ _ _ _). assert (share_valid s) as Hv.
      { unfold check_create in Ec. destruct (validate_export_path (cn_path req)) as [[]|] eqn:Ep; [|done]. cbn in Ec.
        destruct (ne_exists env); [|done]. destruct (ne_canonical env); [|done]. cbn in Ec.
        destruct (path_starts_with _ _); [|done]. split; [done|]. by apply try_each_spec. }
      assert (forall id x, load (nw_state w) id = Some x -> ns_path x <> cn_path req) as Hnew.
      { intros id x Hid Hpath. rewrite find_first_None in Ef. assert (x ∈ load_all (nw_state w)) as Hin.
        { apply elem_of_load_all. by exists id. }
        apply Ef in Hin. by apply String.eqb_neq in Hin. }
      pose proof (publish_effect env (NfsCreate req) s w Hv eq_refl eq_refl) as H.
      destruct (publish env s w) as [w' [x|e]]; apply H; intros id x' Hid Hpath; by destruct (Hnew id x').
  - unfold nfs_update, nfs_get, m_bind, m_lift, m_get.
    destruct (load (nw_state w) (un_id req)) as [sh|] eqn:El; [|by apply NfsSame]. cbv beta iota delta [ok_or].
    destruct (try_each _ _) as [[]|] eqn:Ec; [|by apply NfsSame]. destruct (Hk _ _ El) as [Hid [Hp Hc]].
    assert (share_valid (updated_share sh req)) as Hv.
    { split; [done|]. cbn. rewrite try_each_spec in Ec. by destruct (un_clients req). }
    pose proof (publish_effect env (NfsUpdate req) (updated_share sh req) w Hv Hid (ex_intro _ sh (conj El eq_refl))) as H.
    destruct (publish env (updated_share sh req) w) as [w' [x|e]]; apply H;
      intros id x' Hx Hpath; cbn in *; rewrite Hid; by eapply Hu.
  - unfold m_bind. destruct (load (nw_state w) id) as [s|] eqn:El.
    + pose proof (delete_effect env id w s El) as H. by destruct (nfs_delete env id w) as [w' [[]|e]].
    + unfold nfs_delete, nfs_get, m_bind, m_get, m_lift. rewrite El. by apply NfsSame.
Qed.

(** Operations on NFS shares keep state and exports together, whatever call
    fails: every stored share stays valid and filed under its id, and no path is
    shared twice; only the share operated on changes, and only its file; a share
    that is returned is the one stored, and its file has exactly its rendering,
    or is absent when it is disabled or its directory is gone; and after a
    successful delete neither the share nor its file is there. *)
Theorem nfs_operations_sound env op w :
  nfs_inv (nw_state w) ->
  let '(w', r) := run_nfs env op w in
  nfs_inv (nw_state w') /\
  (forall id, id <> touched env op -> load (nw_state w') id = load (nw_state w) id /\
     nw_files w' !! export_file_path id = nw_files w !! export_file_path id) /\
  (forall s, r = Ok (Some s) -> share_valid s /\ load (nw_state w') (ns_id s) = Some s /\
     (w' = w \/ (ne_unlink env = true -> nw_files w' !! export_file_path (ns_id s) = exported env s))) /\
  (r = Ok None -> load (nw_state w') (touched env op) = None /\
     (ne_unlink env = true -> nw_files w' !! export_file_path (touched env op) = None)).
Proof.
  intros Hinv. pose proof (nfs_op_effect env op w Hinv) as H. destruct (run_nfs env op w) as [w' r].
  destruct H as [-> Hs|s Hv Ht _ Hp Hst Hf Hr|id -> Hst Hf Hu Hr].
  - split_and!; try done.
    + intros s E. destruct (Hs _ E) as (req & x & -> & [= ->] & Hl & _).
      split_and!; [by apply (kd_id _ _ _ _ Hinv _ _ Hl)|done|by left].
    + intros E. by destruct (Hs _ E) as (req & x & _ & ? & _).
  - rewrite Hst. rewrite <- Ht. split_and!.
    + by apply keyed_put.
    + intros id Hid. rewrite load_save_other by done. split; [done|]. apply Hf. by intros ?%export_path_inj.
    + intros s' E. destruct (Hr _ E) as [[= ->] Hx]. rewrite load_save_same. split_and!; [done..|by right].
    + intros E. by destruct (Hr _ E).
  - rewrite Hst. cbn. split_and!.
    + by apply keyed_delete.
    + intros i Hi. rewrite load_remove_other by done. split; [done|]. apply Hf. by intros ?%export_path_inj.
    + intros s E. by specialize (Hr _ E).
    + intros _. by rewrite load_remove_same.
Qed.

Definition demo_env : NfsEnv := mkNfsEnv true (Some "/fs/tank/a") "6f1c" None None None true true WriteOk ReloadOk.
Definition demo_create : NfsOp :=
  NfsCreate (mkCreateNfs "/fs/tank/a" None (ns_clients (demo_share "/fs/tank/a")) None).

Lemma nfs_operations_sound_witness :
  nfs_inv ∅ /\
  (let '(w', r) := run_nfs demo_env demo_create (mkNfsWorld ∅ ∅) in
   r = Ok (Some (demo_share "/fs/tank/a")) /\
   nw_files w' !! export_file_path "6f1c" = Some (demo_text "/fs/tank/a") /\ nfs_inv (nw_state w')).
Proof.
  assert (nfs_inv ∅) as Hi by apply keyed_empty.
  split; [exact Hi|]. pose proof (nfs_operations_sound demo_env demo_create (mkNfsWorld ∅ ∅) Hi) as H.
  destruct (run_nfs demo_env demo_create (mkNfsWorld ∅ ∅)) as [w' r] eqn:E.
  assert (r = Ok (Some (demo_share "/fs/tank/a"))) as -> by (vm_compute in E; by injection E).
  destruct H as (H1 & _ & H3 & _). split_and!; [done| |done].
  vm_compute in E. injection E as <-. vm_compute. reflexivity.
Defined.
