(* ===== verification/Smb.v ===== *)
(** * SMB shares (nasty-sharing/src/smb.rs)

    Shares are state files; each enabled share has one section file in
    /etc/samba/nasty.d, included from smb.nasty.conf, and Time Machine shares
    are advertised in a file of Avahi.  The outcomes of system calls, of
    smbcontrol and of the directory scan are arguments; waiting for a new share
    to show up in testparm changes nothing and is left out. *)

From Stdlib Require Import ZArith Lia Ascii String.
From stdpp Require Import base list gmap strings.
From S2P Require Import Prelude.
From S2P Require Import RustStr.
From S2P Require Import Text.
From S2P Require Import RustVec.
From S2P Require Import RustPath.
From S2P Require Import StateDir.
From S2P Require Import Nfs.

(** ** Data *)

Inductive SmbError : Type :=
| SmbNotFound (e : string)
| NameExists (e : string)
| SmbPathNotFound (e : string)
| SmbPathNotInFilesystem (e : string)
| InvalidName (e : string)
| TimeMachineRequiresAuth
| ReloadFailed (e : string)
| PrincipalLookup (e : string)
| SmbIo (e : string).

Record SmbShare : Type := mkSmbShare {
  ss_id : string;
  ss_name : string;
  ss_path : string;
  ss_comment : option string;
  ss_read_only : bool;
  ss_browseable : bool;
  ss_guest_ok : bool;
  ss_valid_users : list string;
  ss_extra_params : gmap string string;
  ss_time_machine : bool;
  ss_time_machine_max_size_gib : option Z;
  ss_enabled : bool;
}.

Record CreateSmbShareRequest : Type := mkCreateSmb {
  cs_name : string;
  cs_path : string;
  cs_comment : option string;
  cs_read_only : option bool;
  cs_browseable : option bool;
  cs_guest_ok : option bool;
  cs_valid_users : option (list string);
  cs_extra_params : option (gmap string string);
  cs_time_machine : option bool;
  cs_time_machine_max_size_gib : option Z;
  cs_enabled : option bool;
}.

Record UpdateSmbShareRequest : Type := mkUpdateSmb {
  us_id : string;
  us_name : option string;
  us_comment : option string;
  us_read_only : option bool;
  us_browseable : option bool;
  us_guest_ok : option bool;
  us_valid_users : option (list string);
  us_extra_params : option (gmap string string);
  us_time_machine : option bool;
  us_time_machine_max_size_gib : option Z;
  us_enabled : option bool;
}.

(** ** Checks *)

Definition kept_smb_char (ch : bytes) : bool :=
  negb (is_control ch) && negb (one_byte (char_in [";"; chr 10; chr 13]%char) ch).

Definition sanitize_smb_value (s : string) : string := of_chars (List.filter kept_smb_char (chars s)).

Definition bad_share_name_char (c : ascii) : bool :=
  char_in ["/"; chr 92; "["; "]"; ":"; "|"; "<"; ">"; "+"; "="; ";"; ","; "?"; "*"]%char c.

Definition validate_share_name (name : string) : result unit SmbError :=
  if String.eqb name "" || (80 <? String.length name)%nat || existsb bad_share_name_char (to_bytes name)
  then Err (InvalidName "Share name must be 1-80 chars without special characters")
  else Ok tt.

Definition validate_share_path (path : string) : result unit SmbError :=
  if String.eqb path "" then Err (InvalidName "share path is empty")
  else if existsb (one_byte (char_in [chr 10; chr 13; chr 0; chr 34; "#"]%char)) (chars path)
  then Err (InvalidName ("share path contains characters that would inject smb.conf directives " +:+
                         "(newline, CR, NUL, double-quote, '#')"))
  else Ok tt.


Definition user_char (c : ascii) : bool := is_ascii_alphanumeric c || char_in ["-"; "_"; "."]%char c.
Definition domain_char (c : ascii) : bool := is_ascii_alphanumeric c || Ascii.eqb c "-".

Definition validate_valid_user (raw : string) : result unit SmbError :=
  let entry := default raw (strip_prefix "@" raw) in
  if String.eqb entry "" || (256 <? String.length entry)%nat
  then Err (InvalidName ("invalid valid_users entry '" +:+ raw +:+ "'"))
  else if existsb (fun ch => is_control ch || one_byte (char_in [";"; chr 34; "#"; "="; chr 10; chr 13]%char) ch) (chars entry)
  then Err (InvalidName ("valid_users entry '" +:+ raw +:+ "' contains forbidden characters"))
  else
    match str_split (chr 92) entry with
    | [name] => if all_chars user_char name then Ok tt
                else Err (InvalidName ("invalid user/group name '" +:+ raw +:+ "'"))
    | [domain; name] =>
        let domain_ok := negb (String.eqb domain "") && (String.length domain <=? 15)%nat && all_chars domain_char domain in
        let name_ok := negb (String.eqb name "") && all_chars (fun c => user_char c || Ascii.eqb c (chr 32)) name in
        if domain_ok && name_ok then Ok tt else Err (InvalidName ("invalid domain principal '" +:+ raw +:+ "'"))
    | _ => Err (InvalidName ("invalid valid_users entry '" +:+ raw +:+ "'"))
    end.

Definition validate_valid_users (entries : list string) : result unit SmbError :=
  try_each validate_valid_user entries.

Definition validate_time_machine (share : SmbShare) : result unit SmbError :=
  if ss_time_machine share && (ss_guest_ok share || ss_read_only share) then Err TimeMachineRequiresAuth else Ok tt.

Definition validate_file_principal (principal : string) : result unit SmbError :=
  if String.eqb principal "" || negb (String.eqb (trim principal) principal) || starts_with "@" principal
  then Err (InvalidName "file principal must be a non-empty user principal")
  else validate_valid_users [principal].

(** ** The section of a share *)

Definition yes_no (b : bool) : string := if b then "yes" else "no".

Definition smb_user (u : string) : string :=
  let s := sanitize_smb_value u in
  if str_contains_char (chr 32) s then String (chr 34) (s +:+ String (chr 34) "") else s.

(** The parameters, in the order they are pushed. *)
Definition access_params (share : SmbShare) : list (string * string) :=
  if ss_guest_ok share then
    [("force user", "nobody"); ("force group", "nogroup"); ("create mask", "0666"); ("directory mask", "0777")]
  else
    match ss_valid_users share with
    | [] => []
    | us =>
        match find_first (fun u => negb (starts_with "@" u)) us with
        | Some first_user => [("force user", sanitize_smb_value first_user)]
        | None => []
        end ++ [("create mask", "0664"); ("directory mask", "0775")]
    end.

Definition extra_list (share : SmbShare) : list (string * string) :=
  sort_by (fun a b => String.leb (fst a) (fst b)) (map_to_list (ss_extra_params share)).

Definition time_machine_params (share : SmbShare) : list (string * string) :=
  if ss_time_machine share then
    [("vfs objects", "catia fruit streams_xattr"); ("fruit:time machine", "yes"); ("fruit:metadata", "stream");
     ("fruit:posix_rename", "yes"); ("fruit:veto_appledouble", "no");
     ("fruit:wipe_intentionally_left_blank_rfork", "yes"); ("fruit:delete_empty_adfiles", "yes")] ++
    match ss_time_machine_max_size_gib share with
    | Some gib => [("fruit:time machine max size", fmt_dec gib +:+ "G")]
    | None => []
    end
  else [].

Definition share_params (share : SmbShare) : list (string * string) :=
  [("path", ss_path share)] ++
  match ss_comment share with Some c => [("comment", sanitize_smb_value c)] | None => [] end ++
  [("read only", yes_no (ss_read_only share)); ("browseable", yes_no (ss_browseable share));
   ("guest ok", yes_no (ss_guest_ok share))] ++
  access_params share ++
  match ss_valid_users share with [] => [] | us => [("valid users", str_join " " (smb_user <$> us))] end ++
  ((fun kv => (sanitize_smb_value kv.1, sanitize_smb_value kv.2)) <$> extra_list share) ++
  time_machine_params share.

Definition param_line (kv : string * string) : string := "    " +:+ kv.1 +:+ " = " +:+ kv.2.

Definition render_share_conf (share : SmbShare) : string :=
  line ("[" +:+ sanitize_smb_value (ss_name share) +:+ "]") +:+ concat_str (line <$> (param_line <$> share_params share)).

(** ** The include list and the advertisement *)

Definition share_dir : string := "/etc/samba/nasty.d".
Definition conf_name (id : string) : string := id +:+ ".conf".

Definition render_include_list (share_conf_names : list string) : string :=
  concat_str (line <$>
    ["# Managed by NASty — do not edit manually"; "# Per-share configs in /etc/samba/nasty.d/"; "";
     "include = /etc/samba/nasty-domain.conf"; ""; "include = /etc/samba/nasty-tuning.conf"; ""] ++
    ((fun name => "include = " +:+ share_dir +:+ "/" +:+ name) <$> share_conf_names)).

Definition xml_char (ch : bytes) : bytes :=
  match ch with
  | [c] =>
      if Ascii.eqb c "&" then to_bytes "&amp;" else if Ascii.eqb c "<" then to_bytes "&lt;"
      else if Ascii.eqb c ">" then to_bytes "&gt;" else if Ascii.eqb c (chr 34) then to_bytes "&quot;"
      else if Ascii.eqb c "'" then to_bytes "&apos;" else ch
  | _ => ch
  end.

(** The successive replacements: ampersands first, so none is escaped twice. *)
Definition xml_escape (s : string) : string := of_chars (xml_char <$> chars s).

Definition adisk_records (names : list string) : string :=
  concat_str (imap (fun i name => line ("    <txt-record>dk" +:+ fmt_dec (Z.of_nat i) +:+ "=adVN=" +:+ xml_escape name +:+
                                        ",adVF=0x82</txt-record>")) names).

Definition dq1 : string := String (chr 34) "".

Definition build_timemachine_avahi_xml (names : list string) : option string :=
  match names with
  | [] => None
  | _ =>
      Some (concat_str (line <$>
        ["<?xml version=" +:+ dq1 +:+ "1.0" +:+ dq1 +:+ " standalone='no'?>";
         "<!DOCTYPE service-group SYSTEM " +:+ dq1 +:+ "avahi-service.dtd" +:+ dq1 +:+ ">";
         "<!-- Managed by NASty — do not edit manually -->"; "<service-group>";
         "  <name replace-wildcards=" +:+ dq1 +:+ "yes" +:+ dq1 +:+ ">%h</name>"; "  <service>";
         "    <type>_adisk._tcp</type>"; "    <port>9</port>";
         "    <txt-record>sys=waMa=0,adVF=0x100</txt-record>"]) +:+
        adisk_records names +:+ concat_str (line <$> ["  </service>"; "</service-group>"]))
  end.

(** ** Operations *)

Record SmbWorld : Type := mkSmbWorld {
  sw_state : StateDir SmbShare;
  sw_files : gmap string string;      (** nasty.d, by file name *)
  sw_include : string;                (** smb.nasty.conf *)
  sw_avahi : option string;           (** the advertisement *)
}.

Record SmbEnv : Type := mkSmbEnv {
  se_exists : bool;
  se_canonical : option string;
  se_id : string;
  se_save : option string;
  se_remove_state : option string;
  se_mkdir : option string;
  se_unlink : bool;
  se_write : WriteOut;
  se_mkdir_again : option string;
  se_read_dir : option string;
  se_write_include : WriteOut;
  se_reload : ReloadOut;
  se_avahi_write : bool;
  se_avahi_remove : bool;
}.

Abbreviation smb A := (stm SmbWorld SmbError A).

Definition smb_io {A} (r : result A string) : result A SmbError :=
  match r with Ok a => Ok a | Err e => Err (SmbIo e) end.

Definition fault (o : option string) : result unit SmbError :=
  match o with Some e => Err (SmbIo e) | None => Ok tt end.

Definition smb_put_state (r : result (StateDir SmbShare) string) : smb unit :=
  d <~ m_lift (smb_io r) ;;
  m_modify (fun w => mkSmbWorld d (sw_files w) (sw_include w) (sw_avahi w)).

Definition put_files (f : gmap string string -> gmap string string) : smb unit :=
  m_modify (fun w => mkSmbWorld (sw_state w) (f (sw_files w)) (sw_include w) (sw_avahi w)).

Definition unlink_conf (env : SmbEnv) (id : string) : smb unit :=
  put_files (if se_unlink env then delete (conf_name id) else fun m => m).

(** The chmod of the shared directory is outside the model. *)
Definition write_share_conf (env : SmbEnv) (share : SmbShare) : smb unit :=
  m_lift (fault (se_mkdir env)) ;;;
  if negb (ss_enabled share) then unlink_conf env (ss_id share)
  else
    match se_write env with
    | WriteOk => put_files (<[conf_name (ss_id share) := render_share_conf share]>)
    | WriteFailed e kept =>
        put_files (match kept with Some c => <[conf_name (ss_id share) := c]> | None => fun m => m end) ;;;
        m_throw (SmbIo e)
    end.

Definition listed (w : SmbWorld) : list string :=
  List.filter (ends_with ".conf") (fst <$> map_to_list (sw_files w)).

Definition rebuild_include_list (env : SmbEnv) : smb unit :=
  m_lift (fault (se_mkdir_again env)) ;;;
  m_lift (fault (se_read_dir env)) ;;;
  w <~ m_get ;;
  let put c := m_modify (fun w => mkSmbWorld (sw_state w) (sw_files w) c (sw_avahi w)) in
  match se_write_include env with
  | WriteOk => put (render_include_list (listed w))
  | WriteFailed e kept => (match kept with Some c => put c | None => m_ret tt end) ;;; m_throw (SmbIo e)
  end.

Definition reload_samba (env : SmbEnv) : smb unit :=
  match se_reload env with
  | ReloadOk => m_ret tt
  | ReloadNotStarted e => m_throw (SmbIo e)
  | ReloadExit stderr => m_throw (ReloadFailed stderr)
  end.

Definition time_machine_names (d : StateDir SmbShare) : list string :=
  ss_name <$> List.filter (fun s => ss_enabled s && ss_time_machine s) (load_all d).

Definition sync_timemachine_avahi (env : SmbEnv) : smb unit :=
  m_modify (fun w =>
    let put a := mkSmbWorld (sw_state w) (sw_files w) (sw_include w) a in
    match build_timemachine_avahi_xml (time_machine_names (sw_state w)) with
    | Some xml => if se_avahi_write env then put (Some xml) else w
    | None => if se_avahi_remove env then put None else w
    end).

(** What follows a change of the state: the section, the list and a reload. *)
Definition apply_smb (env : SmbEnv) (section : smb unit) : smb unit :=
  section ;;;
  rebuild_include_list env ;;;
  reload_samba env ;;;
  sync_timemachine_avahi env.

Definition smb_get (id : string) : smb SmbShare :=
  w <~ m_get ;; m_lift (ok_or (load (sw_state w) id) (SmbNotFound id)).

Definition smb_check_create (env : SmbEnv) (req : CreateSmbShareRequest) : result unit SmbError :=
  _ <-? validate_share_name (cs_name req) ;;
  _ <-? validate_share_path (cs_path req) ;;
  _ <-? validate_valid_users (default [] (cs_valid_users req)) ;;
  guard? se_exists env else SmbPathNotFound (cs_path req) ;;
  canonical <-? ok_or (se_canonical env) (SmbPathNotFound (cs_path req)) ;;
  guard? path_starts_with canonical "/fs/" else SmbPathNotInFilesystem (cs_path req) ;;
  Ok tt.

Definition positive (n : Z) : option Z := if 0 <? n then Some n else None.

Definition new_smb_share (env : SmbEnv) (req : CreateSmbShareRequest) : SmbShare :=
  mkSmbShare (se_id env) (cs_name req) (cs_path req) (cs_comment req) (default false (cs_read_only req))
    (default true (cs_browseable req)) (default false (cs_guest_ok req)) (default [] (cs_valid_users req))
    (default ∅ (cs_extra_params req)) (default false (cs_time_machine req))
    (cs_time_machine_max_size_gib req ≫= positive) (default true (cs_enabled req)).

Definition smb_publish (env : SmbEnv) (share : SmbShare) : smb SmbShare :=
  m_lift (validate_time_machine share) ;;;
  w <~ m_get ;;
  smb_put_state (save (se_save env) (ss_id share) share (sw_state w)) ;;;
  apply_smb env (write_share_conf env share) ;;;
  m_ret share.

Definition smb_create (env : SmbEnv) (req : CreateSmbShareRequest) : smb SmbShare :=
  m_lift (smb_check_create env req) ;;;
  w <~ m_get ;;
  match find_first (fun s => String.eqb (ss_name s) (cs_name req)) (load_all (sw_state w)) with
  | Some existing => m_ret existing
  | None => smb_publish env (new_smb_share env req)
  end.

Definition updated_smb_share (share : SmbShare) (req : UpdateSmbShareRequest) : SmbShare :=
  mkSmbShare (ss_id share) (default (ss_name share) (us_name req)) (ss_path share)
    (match us_comment req with Some c => Some c | None => ss_comment share end)
    (default (ss_read_only share) (us_read_only req)) (default (ss_browseable share) (us_browseable req))
    (default (ss_guest_ok share) (us_guest_ok req)) (default (ss_valid_users share) (us_valid_users req))
    (default (ss_extra_params share) (us_extra_params req)) (default (ss_time_machine share) (us_time_machine req))
    (match us_time_machine_max_size_gib req with Some n => positive n | None => ss_time_machine_max_size_gib share end)
    (default (ss_enabled share) (us_enabled req)).

Definition smb_update (env : SmbEnv) (req : UpdateSmbShareRequest) : smb SmbShare :=
  m_lift (match us_name req with Some n => validate_share_name n | None => Ok tt end) ;;;
  share <~ smb_get (us_id req) ;;
  w <~ m_get ;;
  m_lift (match us_name req with
          | Some n => if existsb (fun s => String.eqb (ss_name s) n && negb (String.eqb (ss_id s) (us_id req)))
                           (load_all (sw_state w))
                      then Err (NameExists n) else Ok tt
          | None => Ok tt
          end) ;;;
  m_lift (validate_valid_users (default [] (us_valid_users req))) ;;;
  smb_publish env (updated_smb_share share req).

Definition smb_delete (env : SmbEnv) (id : string) : smb unit :=
  smb_get id ;;;
  w <~ m_get ;;
  smb_put_state (remove (se_remove_state env) id (sw_state w)) ;;;
  apply_smb env (unlink_conf env id).

(** ** The portal *)

Definition share_allows_principal (share : SmbShare) (principal : string) (groups : list string) : bool :=
  if negb (ss_enabled share) || ss_guest_ok share || bool_decide (ss_valid_users share = [])
     || negb (bool_decide (ss_extra_params share = ∅))
  then false
  else
    existsb (fun allowed =>
      match strip_prefix "@" allowed with
      | Some group => existsb (fun current => eq_ignore_ascii_case current group) groups
      | None => eq_ignore_ascii_case allowed principal
      end) (ss_valid_users share).

(** What a bounded command gave: an error of its own, or its exit status and
    its output; the output is [None] when it is not UTF-8. *)
Inductive CmdOut : Type := CmdError (e : SmbError) | CmdRan (success : bool) (stdout : option string) (stderr : string).

Record PrincipalAuthorization : Type := mkPrincipalAuthorization {
  pa_principal : string;
  pa_groups : list string;
}.

Definition MAX_PRINCIPAL_GROUPS : nat := 128.

(** [filter(|gid| unique.insert(gid.clone()))] *)
Fixpoint first_seen (seen : list string) (l : list string) : list string :=
  match l with
  | [] => []
  | x :: l' => if bool_decide (x ∈ seen) then first_seen seen l' else x :: first_seen (x :: seen) l'
  end.

Definition lookup_group (out : CmdOut) (gid : string) : result string SmbError :=
  match out with
  | CmdError e => Err e
  | CmdRan false _ _ => Err (PrincipalLookup ("could not resolve GID " +:+ gid))
  | CmdRan true None _ => Err (PrincipalLookup "getent returned non-UTF-8 output")
  | CmdRan true (Some record) _ =>
      match head (str_lines record) ≫= split_once ":" with
      | Some (name, _) => if String.eqb name "" then Err (PrincipalLookup ("getent returned an invalid record for GID " +:+ gid))
                          else Ok name
      | None => Err (PrincipalLookup ("getent returned an invalid record for GID " +:+ gid))
      end
  end.

Fixpoint lookup_groups (getent : string -> CmdOut) (gids : list string) : result (list string) SmbError :=
  match gids with
  | [] => Ok []
  | gid :: rest => name <-? lookup_group (getent gid) gid ;; names <-? lookup_groups getent rest ;; Ok (name :: names)
  end.

Definition local_passdb_contains_principal (principal : string) (output : option string) : bool :=
  match output with
  | None => false
  | Some out =>
      existsb (fun l => match split_once ":" l with Some (name, _) => eq_ignore_ascii_case name principal | None => false end)
        (str_lines out)
  end.

Definition check_passdb (principal : string) (pdbedit : CmdOut) : result unit SmbError :=
  match pdbedit with
  | CmdError e => Err e
  | CmdRan success out _ =>
      if success && local_passdb_contains_principal principal out then Ok tt
      else Err (PrincipalLookup "local principal is not present in Samba passdb")
  end.

Definition resolve_principal_authorization (id_out : CmdOut) (getent : string -> CmdOut) (pdbedit : CmdOut)
    (principal : string) : result PrincipalAuthorization SmbError :=
  gids <-? match id_out with
           | CmdError e => Err e
           | CmdRan false _ stderr => Err (PrincipalLookup ("principal does not exist: " +:+ trim stderr))
           | CmdRan true None _ => Err (PrincipalLookup "id returned non-UTF-8 output")
           | CmdRan true (Some out) _ => Ok (split_whitespace out)
           end ;;
  _ <-? try_each (fun gid => match parse_uint (2 ^ 32 - 1) gid with
                             | Some _ => Ok tt
                             | None => Err (PrincipalLookup "id returned an invalid GID")
                             end) gids ;;
  let gids := first_seen [] gids in
  guard? negb (bool_decide (gids = [])) && (length gids <=? MAX_PRINCIPAL_GROUPS)%nat
    else PrincipalLookup "principal has no groups or exceeds the group limit" ;;
  groups <-? lookup_groups getent gids ;;
  _ <-? (if str_contains_char (chr 92) principal then Ok tt else check_passdb principal pdbedit) ;;
  Ok (mkPrincipalAuthorization principal groups).

Definition principal_authorization (timed_out : bool) (id_out : CmdOut) (getent : string -> CmdOut) (pdbedit : CmdOut)
    (principal : string) : result PrincipalAuthorization SmbError :=
  _ <-? validate_file_principal principal ;;
  if timed_out then Err (PrincipalLookup "lookup timed out")
  else resolve_principal_authorization id_out getent pdbedit principal.
