(* ===== verification/SmbProps.v ===== *)
(** * SMB shares mean what is stored

    The section of a share, read back as smb.conf(5) describes the format, has
    exactly the parameters of the share. *)

From Stdlib Require Import ZArith Lia Ascii String.
From stdpp Require Import base list gmap strings.
From S2P Require Import Prelude.
From S2P Require Import RustStr.
From S2P Require Import Text.
From S2P Require Import RustVec.
From S2P Require Import RustPath.
From S2P Require Import StateDir.
From S2P Require Import Nfs.
From S2P Require Import NfsProps.
From S2P Require Import Smb.

(** ** Reading smb.conf(5)

    Lines are comments, section names or parameters [name = value]; a line that
    ends in a backslash is continued on the next.  Names are not case sensitive
    and white space in them does not matter; white space around a value is
    dropped.  The result is the list of assignments, each with its section;
    later ones win.  [None] if some line is neither. *)

Definition blank (c : ascii) : bool := char_in [chr 9; chr 13; chr 32] c.
Arguments blank : simpl never.

Fixpoint drop_blanks (l : bytes) : bytes :=
  match l with
  | c :: l' => if blank c then drop_blanks l' else l
  | [] => []
  end.

Fixpoint drop_trailing (l : bytes) : bytes :=
  match l with
  | [] => []
  | c :: l' => match drop_trailing l' with
               | [] => if blank c then [] else [c]
               | r => c :: r
               end
  end.

Definition strip (s : string) : string := of_bytes (drop_trailing (drop_blanks (to_bytes s))).

Definition smb_name (s : string) : string :=
  of_bytes (to_ascii_lowercase_char <$> List.filter (fun c => negb (blank c)) (to_bytes s)).

Definition continued (l : string) : option string := strip_suffix (String (chr 92) "") l.

(** Continued lines, joined. *)
Fixpoint join_lines (ls : list string) : list string :=
  match ls with
  | [] => []
  | l :: ls' =>
      match continued l, join_lines ls' with
      | Some l0, next :: rest => (l0 +:+ next) :: rest
      | _, js => l :: js
      end
  end.

Definition assignment : Type := string * string * string.

Definition assign (sec : string) (kv : string * string) : assignment := (sec, smb_name kv.1, strip kv.2).

Fixpoint read_smb_lines (section : string) (ls : list string) : option (list assignment) :=
  match ls with
  | [] => Some []
  | l0 :: ls' =>
      let l := strip l0 in
      if String.eqb l "" || starts_with ";" l || starts_with "#" l then read_smb_lines section ls'
      else match strip_prefix "[" l with
           | Some rest => r ← split_once "]" rest; read_smb_lines (smb_name (fst r)) ls'
           | None => kv ← split_once "=" l; rest ← read_smb_lines section ls';
                     Some ((section, smb_name (fst kv), strip (snd kv)) :: rest)
           end
  end.

Definition read_smb (text : string) : option (list assignment) :=
  read_smb_lines "global" (join_lines (lines text)).

(** The value in effect. *)
Definition smb_value (conf : list assignment) (section param : string) : option string :=
  snd <$> last (List.filter (fun a => String.eqb a.1.1 section && String.eqb a.1.2 param) conf).

Example read_smb_ex :
  read_smb ("[Data]" +:+ nl +:+ "  # no" +:+ nl +:+ " Read  Only = yes " +:+ nl +:+ "path=/fs/a = b" +:+ nl) =
  Some [("data", "readonly", "yes"); ("data", "path", "/fs/a = b")].
Proof. vm_compute. reflexivity. Qed.

(** ** Lines *)

Lemma drop_trailing_app a c b : blank c = false -> drop_trailing (a ++ c :: b) = a ++ c :: drop_trailing b.
Proof.
  intros Hc. induction a as [|x a IH]; cbn.
  - rewrite Hc. by destruct (drop_trailing b).
  - rewrite IH. by destruct a.
Qed.

Lemma drop_commute l : drop_blanks (drop_trailing l) = drop_trailing (drop_blanks l).
Proof.
  induction l as [|c l IH]; [done|]. cbn. destruct (blank c) eqn:E.
  - destruct (drop_trailing l); cbn; [done|]. by rewrite E.
  - cbn. rewrite E. destruct (drop_trailing l); cbn; by rewrite E.
Qed.

Lemma drop_trailing_idemp l : drop_trailing (drop_trailing l) = drop_trailing l.
Proof.
  induction l as [|c l IH]; [done|]. cbn. destruct (drop_trailing l) as [|d r] eqn:E.
  - destruct (blank c) eqn:Ec; [done|]. cbn. by rewrite Ec.
  - cbn in *. by rewrite IH.
Qed.

(** Stripping does not see the blank before a value, nor a first stripping of
    its end. *)
Lemma strip_value v : strip (of_bytes (drop_trailing (chr 32 :: to_bytes v))) = strip v.
Proof.
  unfold strip. rewrite to_of_bytes. f_equal. rewrite <- !drop_commute, drop_trailing_idemp.
  cbn [drop_trailing]. by destruct (drop_trailing (to_bytes v)) as [|c r].
Qed.

Lemma smb_name_blank k : smb_name (k +:+ " ") = smb_name k.
Proof.
  unfold smb_name. rewrite to_bytes_app, List.filter_app. cbn. by rewrite app_nil_r.
Qed.

(** A parameter that is read as itself. *)
Record param_ok (kv : string * string) : Prop := {
  po_head : exists c k, kv.1 = String c k /\ blank c = false /\ c <> ";"%char /\ c <> "#"%char /\ c <> "["%char;
  po_equals : no_char "=" kv.1;
  po_lines : no_char (chr 10) kv.1 /\ no_char (chr 10) kv.2;
  po_joined : continued kv.2 = None;
}.

Lemma param_line_strip k v c k' :
  k = String c k' -> blank c = false ->
  strip (param_line (k, v)) = k +:+ " " +:+ String "=" (of_bytes (drop_trailing (chr 32 :: to_bytes v))).
Proof.
  intros -> Hc. unfold strip, param_line. apply to_bytes_inj. rewrite to_of_bytes, !to_bytes_app. cbn [fst snd].
  change (drop_blanks (to_bytes "    " ++ ?x)) with (drop_blanks x).
  change (to_bytes (String c k') ++ ?x) with (c :: to_bytes k' ++ x). cbn [drop_blanks]. rewrite Hc.
  change (to_bytes " = " ++ ?x) with ([chr 32] ++ "="%char :: chr 32 :: x).
  rewrite !app_assoc, app_comm_cons. rewrite drop_trailing_app by done.
  change (to_bytes (String "=" ?y)) with ("="%char :: to_bytes y). rewrite to_of_bytes. cbn. by rewrite <- app_assoc.
Qed.

Lemma starts_with_char d c s : starts_with (String d "") (String c s) = true -> c = d.
Proof. intros [r Hr]%starts_with_spec. by injection Hr. Qed.

Lemma strip_prefix_char d c s : c <> d -> strip_prefix (String d "") (String c s) = None.
Proof.
  intros H. unfold strip_prefix. destruct (bytes_prefix _ _) as [l|] eqn:E; [|done].
  apply bytes_prefix_Some in E. by injection E.
Qed.

(** Parameters are read one by one. *)
Lemma read_params sec kvs :
  Forall param_ok kvs ->
  read_smb_lines sec (param_line <$> kvs) = Some (assign sec <$> kvs).
Proof.
  induction 1 as [|[k v] kvs [Hh He _ _] _ IH]; [done|]. cbn [fst snd] in *.
  destruct Hh as (c & k' & Hk & Hc & H1 & H2 & H3). rewrite fmap_cons. cbn [read_smb_lines].
  rewrite (param_line_strip k v c k') by done. subst k. change (String c k' +:+ ?x) with (String c (k' +:+ x)).
  destruct (starts_with ";" _) eqn:E1; [by apply starts_with_char in E1|].
  destruct (starts_with "#" _) eqn:E2; [by apply starts_with_char in E2|]. cbn [String.eqb orb].
  rewrite strip_prefix_char by done.
  change (String c (k' +:+ ?x)) with (String c k' +:+ x). rewrite <- string_app_assoc.
  rewrite split_once_app by (apply no_char_app; split; [done|by apply no_char_dec]). cbn [mbind option_bind fst snd].
  rewrite IH. cbn [mbind option_bind]. by rewrite smb_name_blank, strip_value.
Qed.

Lemma continued_None l : continued l = None <-> last (to_bytes l) <> Some (chr 92).
Proof.
  unfold continued, strip_suffix. change (rev (to_bytes (String (chr 92) ""))) with [chr 92].
  destruct (to_bytes l) as [|c b] eqn:E using rev_ind; [done|]. rewrite rev_app_distr, last_snoc. clear.
  change (rev [c] ++ rev b) with (c :: rev b). cbn [bytes_prefix].
  destruct (Ascii.eqb_spec (chr 92) c) as [<-|]; [by split|]. split; [|done]. intros _ [= ->]. done.
Qed.

(** A prefix that does not end in a backslash does not make a line continued. *)
Lemma continued_app a v : a <> "" -> continued a = None -> continued v = None -> continued (a +:+ v) = None.
Proof.
  intros Hne. rewrite !continued_None, to_bytes_app, last_app. intros Ha Hv.
  by destruct (last (to_bytes v)).
Qed.

Lemma join_lines_id ls : Forall (fun l => continued l = None) ls -> join_lines ls = ls.
Proof. induction 1 as [|l ls Hl _ IH]; [done|]. cbn. by rewrite Hl, IH. Qed.

Lemma param_line_continued kv : param_ok kv -> continued (param_line kv) = None.
Proof.
  intros H. unfold param_line. rewrite <- !string_app_assoc.
  apply continued_app; [by destruct kv as [[] ?]| |by apply po_joined].
  apply continued_None. by rewrite !to_bytes_app, last_app.
Qed.

Lemma read_smb_app_blank sec ls : read_smb_lines sec (ls ++ [""]) = read_smb_lines sec ls.
Proof.
  revert sec. induction ls as [|l ls IH]; intros sec; [done|]. cbn [read_smb_lines app]. rewrite IH.
  destruct (_ || _); [done|]. destruct (strip_prefix "[" (strip l)); [|done].
  destruct (split_once "]" _); [|done]. cbn. apply IH.
Qed.

(** A section of parameters that are read as themselves. *)
Lemma read_section name kvs :
  no_char "]" name -> no_char (chr 10) name -> Forall param_ok kvs ->
  read_smb (line ("[" +:+ name +:+ "]") +:+ concat_str (line <$> (param_line <$> kvs))) =
  Some (assign (smb_name name) <$> kvs).
Proof.
  intros Hb Hn HF. unfold read_smb.
  rewrite <- (string_app_nil (concat_str _)), lines_cons, lines_concat.
  2:{ apply Forall_fmap. eapply Forall_impl; [exact HF|]. intros [k v] [_ _ [Hk Hv] _]. unfold param_line. cbn in *.
      rewrite !no_char_app. split_and!; [by apply no_char_dec|done|by apply no_char_dec|done]. }
  2:{ rewrite !no_char_app. split_and!; [by apply no_char_dec|done|by apply no_char_dec]. }
  rewrite join_lines_id.
  2:{ constructor; [|apply Forall_app; split; [|by repeat constructor]].
      - apply continued_None. by rewrite !to_bytes_app, last_app, last_app.
      - apply Forall_fmap. eapply Forall_impl; [exact HF|]. intros kv. apply param_line_continued. }
  cbn [read_smb_lines].
  assert (strip ("[" +:+ name +:+ "]") = "[" +:+ name +:+ "]") as ->.
  { unfold strip. change (to_bytes ("[" +:+ ?x)) with ("["%char :: to_bytes x). cbn [drop_blanks]. change (blank "[") with false.
    rewrite to_bytes_app. change (to_bytes "]") with ["]"%char]. cbv iota. rewrite app_comm_cons, drop_trailing_app by done.
    cbn [drop_trailing]. rewrite <- app_comm_cons. change (of_bytes ("["%char :: ?x)) with ("[" +:+ of_bytes x).
    by rewrite of_bytes_app, of_to_bytes. }
  change ("[" +:+ ?x) with (String "[" x). cbn [String.eqb orb].
  change (starts_with ";" (String "[" ?x)) with false. change (starts_with "#" (String "[" ?x)) with false. cbv iota.
  change (String "[" ?x) with ("[" +:+ x). rewrite strip_prefix_app. change (name +:+ "]") with (name +:+ String "]" "").
  rewrite split_once_app by done. cbn [mbind option_bind fst].
  change (lines "") with [""]. cbn [orb]. cbv iota. by rewrite read_smb_app_blank, read_params.
Qed.

(** ** Users

    Samba splits a list at white space, commas and semicolons; a quoted part is
    taken as it is.  The first argument says whether the reader is inside
    quotes, the second is the item so far, if one has begun. *)

Definition list_sep (c : ascii) : bool := char_in [chr 9; chr 10; chr 13; chr 32; ","; ";"]%char c.
Arguments list_sep : simpl never.

Fixpoint smb_items (quoted : bool) (cur : option bytes) (l : bytes) : list bytes :=
  match l with
  | [] => match cur with Some w => [w] | None => [] end
  | c :: l' =>
      if Ascii.eqb c (chr 34) then smb_items (negb quoted) cur l'
      else if negb quoted && list_sep c
      then match cur with Some w => w :: smb_items quoted None l' | None => smb_items quoted None l' end
      else smb_items quoted (Some (default [] cur ++ [c])) l'
  end.

Definition smb_list (s : string) : list string := of_bytes <$> smb_items false None (to_bytes s).

Example smb_list_ex :
  smb_list ("alice, @ops " +:+ dq1 +:+ "DOM" +:+ String (chr 92) "Jo Ann" +:+ dq1) = ["alice"; "@ops"; "DOM" +:+ String (chr 92) "Jo Ann"].
Proof. vm_compute. reflexivity. Qed.

(** The characters of a user or group. *)
Definition principal_char (c : ascii) : bool := user_char c || char_in [chr 92; "@"; chr 32]%char c.
Arguments principal_char : simpl never.
Arguments user_char : simpl never.
Arguments domain_char : simpl never.

Lemma principal_of_user c : user_char c = true -> principal_char c = true.
Proof. unfold principal_char. by intros ->. Qed.

Lemma principal_of_domain c : domain_char c = true -> principal_char c = true.
Proof.
  unfold domain_char. intros [H|H%Ascii.eqb_eq]%orb_true_iff; [|by subst c].
  apply principal_of_user. unfold user_char. by rewrite H.
Qed.

Lemma last_class (P : ascii -> bool) s : s <> "" -> Forall (fun c => P c = true) (to_bytes s) -> exists c, last (to_bytes s) = Some c /\ P c = true.
Proof.
  intros Hs HF. destruct (last (to_bytes s)) as [c|] eqn:E.
  - exists c. split; [done|]. rewrite Forall_forall in HF. apply HF. by apply last_Some_elem_of.
  - apply last_None in E. by destruct s.
Qed.


(** What validation says of a user or group. *)
Record principal_ok (u : string) : Prop := {
  pr_nonempty : u <> "";
  pr_class : Forall (fun c => principal_char c = true) (to_bytes u);
  pr_joined : continued u = None;
}.

Lemma continued_class (P : ascii -> bool) s :
  P (chr 92) = false -> s <> "" -> Forall (fun c => P c = true) (to_bytes s) -> continued s = None.
Proof. intros HP Hs (c & E & Hc)%last_class; [|done]. apply continued_None. rewrite E. intros [= ->]. congruence. Qed.

Lemma principal_ok_at u : principal_ok u -> principal_ok ("@" +:+ u).
Proof.
  intros [Hn Hc Hj]. split; [done| |].
  - change (to_bytes ("@" +:+ u)) with ("@"%char :: to_bytes u). by constructor.
  - by apply continued_app.
Qed.

Lemma entry_ok u name_class domain name :
  (forall c, name_class c = true -> principal_char c = true /\ c <> chr 92) ->
  name <> "" -> Forall (fun c => name_class c = true) (to_bytes name) ->
  Forall (fun c => principal_char c = true) (to_bytes domain) -> u = domain +:+ name -> principal_ok u.
Proof.
  intros Hcl Hn Hc Hd ->. split.
  - by destruct domain.
  - rewrite to_bytes_app. apply Forall_app. split; [done|]. eapply Forall_impl; [exact Hc|]. intros c Hx. by apply Hcl.
  - rewrite continued_None, to_bytes_app, last_app. destruct (last_class name_class name Hn Hc) as (c & -> & Hx).
    intros [= ->]. by apply Hcl in Hx as [_ ?].
Qed.

Lemma valid_user_ok u : validate_valid_user u = Ok tt -> principal_ok u.
Proof.
  unfold validate_valid_user. set (entry := default u (strip_prefix "@" u)).
  assert (principal_ok entry -> principal_ok u) as Hat.
  { subst entry. destruct (strip_prefix "@" u) as [r|] eqn:E; [|done]. cbn. intros H%principal_ok_at.
    by rewrite (strip_prefix_Some _ _ _ E). }
  destruct (_ || _) eqn:E1; [done|]. apply orb_false_iff in E1 as [Hne _]. apply String.eqb_neq in Hne.
  destruct (existsb _ _); [done|]. pose proof (split_join_str (chr 92) entry) as Hj.
  destruct (str_split (chr 92) entry) as [|a [|b [|c l]]]; try done.
  - destruct (all_chars user_char a) eqn:Ea; [|done]. intros _. apply Hat.
    assert (a = entry) as -> by (rewrite <- Hj; unfold str_join; cbn; by rewrite of_to_bytes).
    apply (entry_ok _ user_char "" entry); [|done|by apply all_chars_class|constructor|done].
    intros x Hx. split; [by apply principal_of_user|]. by intros ->.
  - destruct (_ && _) eqn:E2; [|done]. intros _. apply Hat.
    rewrite !andb_true_iff in E2. destruct E2 as (((_ & _) & Hd) & Hb & Hn). apply negb_true_iff, String.eqb_neq in Hb.
    apply (entry_ok _ (fun c => user_char c || Ascii.eqb c (chr 32)) (a +:+ String (chr 92) "") b);
      [|done|by apply all_chars_class| |].
    + intros x [Hx|Hx%Ascii.eqb_eq]%orb_true_iff; [|by subst x].
      split; [by apply principal_of_user|]. by intros ->.
    + rewrite to_bytes_app. apply Forall_app. split; [|by repeat constructor].
      eapply Forall_impl; [by apply all_chars_class|]. apply principal_of_domain.
    + rewrite <- Hj. unfold str_join. cbn [fmap list_fmap join_bytes]. apply to_bytes_inj.
      by rewrite to_of_bytes, !to_bytes_app, <- app_assoc.
Qed.

(** A value of such characters is written as it is. *)
Lemma chars_all_ascii l : Forall (fun c => code c < 128) l -> chars_bytes l = (fun c => [c]) <$> l.
Proof.
  induction 1 as [|c l Hc HF IH]; [done|]. cbn [chars_bytes]. rewrite IH.
  by replace (code c <? 128) with true by lia.
Qed.

(** A fact on every byte. *)
Ltac each_byte c := destruct c as [[] [] [] [] [] [] [] []]; vm_compute; intuition congruence.

Lemma principal_char_facts c : principal_char c = true ->
  (code c <? 128) && kept_smb_char [c] && negb (Ascii.eqb c (chr 34)) && negb (char_in [chr 9; chr 10; chr 13; ","; ";"; "="]%char c) = true.
Proof. each_byte c. Qed.

Lemma sanitize_id u : Forall (fun c => principal_char c = true) (to_bytes u) -> sanitize_smb_value u = u.
Proof.
  intros H. unfold sanitize_smb_value, chars.
  assert (Forall (fun c => code c < 128) (to_bytes u)) as Ha.
  { eapply Forall_impl; [exact H|]. intros c Hc%principal_char_facts. rewrite !andb_true_iff in Hc. lia. }
  rewrite (chars_all_ascii _ Ha). clear Ha. rewrite <- (of_to_bytes u) at 2. unfold of_chars. f_equal.
  induction H as [|c l Hc _ IH]; [done|]. cbn. apply principal_char_facts in Hc. rewrite !andb_true_iff in Hc.
  destruct Hc as [[[_ ->] _] _]. cbn. f_equal. exact IH.
Qed.

Lemma items_run q cur l r :
  Forall (fun c => c <> chr 34 /\ negb q && list_sep c = false) l -> l <> [] ->
  smb_items q cur (l ++ r) = smb_items q (Some (default [] cur ++ l)) r.
Proof.
  intros H. revert cur. induction H as [|c l [Hc Hs] _ IH]; intros cur Hl; [done|]. cbn [app smb_items].
  destruct (Ascii.eqb_spec c (chr 34)); [done|]. rewrite Hs. destruct l as [|d l].
  - done.
  - rewrite IH by done. cbn. by rewrite <- app_assoc.
Qed.

Lemma items_user u r : principal_ok u ->
  smb_items false None (to_bytes (smb_user u) ++ r) = smb_items false (Some (to_bytes u)) r.
Proof.
  intros [Hn Hc _]. assert (to_bytes u <> []) as Hb by by destruct u.
  assert (forall c, c ∈ to_bytes u -> c <> chr 34 /\ (list_sep c = true -> c = chr 32)) as Hf.
  { rewrite Forall_forall in Hc. intros c Hin%Hc. revert Hin. clear. each_byte c. }
  unfold smb_user. rewrite (sanitize_id u Hc). destruct (str_contains_char (chr 32) u) eqn:E.
  - change (to_bytes (String ?a ?x)) with (a :: to_bytes x). rewrite to_bytes_app, <- app_comm_cons, <- app_assoc.
    cbn [smb_items]. change (Ascii.eqb (chr 34) (chr 34)) with true. cbv iota. rewrite items_run; [done| |done].
    apply Forall_forall. intros c Hin. split; [by apply Hf|done].
  - rewrite items_run; [done| |done]. apply Forall_forall. intros c Hin. split; [by apply Hf|]. cbn.
    destruct (list_sep c) eqn:Es; [|done]. apply (proj2 (Hf c Hin)) in Es. subst c.
    unfold str_contains_char in E. assert (existsb (Ascii.eqb (chr 32)) (to_bytes u) = true); [|congruence].
    apply existsb_exists. exists (chr 32). by split; [apply list_elem_of_In|].
Qed.

(** The list of users reads back. *)
Lemma smb_list_users us : Forall principal_ok us -> smb_list (str_join " " (smb_user <$> us)) = us.
Proof.
  intros H. unfold smb_list, str_join. rewrite to_of_bytes. change (to_bytes " ") with [chr 32].
  assert (smb_items false None (join_bytes [chr 32] (to_bytes <$> (smb_user <$> us))) = to_bytes <$> us) as ->.
  { induction H as [|u us Hu _ IH]; [done|]. rewrite !fmap_cons in *. destruct us as [|v us].
    - cbn [fmap list_fmap join_bytes]. rewrite <- (app_nil_r (to_bytes (smb_user u))). by rewrite items_user.
    - rewrite !fmap_cons in *. cbn [join_bytes] in *. rewrite items_user by done. cbn [app smb_items].
      change (negb false && list_sep (chr 32)) with true. change (Ascii.eqb (chr 32) (chr 34)) with false. cbv iota.
      f_equal. exact IH. }
  rewrite <- list_fmap_compose. rewrite (list_fmap_ext _ id) by (intros; apply of_to_bytes). apply list_fmap_id.
Qed.

(** ** The section of a share *)

Record smb_share_valid (s : SmbShare) : Prop := {
  sv_name : validate_share_name (ss_name s) = Ok tt;
  sv_path : validate_share_path (ss_path s) = Ok tt;
  sv_users : forall u, u ∈ ss_valid_users s -> validate_valid_user u = Ok tt;
  sv_time_machine : validate_time_machine s = Ok tt;
  sv_limit : forall n, ss_time_machine_max_size_gib s = Some n -> 0 < n;
}.

(** What validation leaves open: a path or a comment that ends in a backslash,
    and an extra parameter that is no parameter line. *)
Record conf_ok (s : SmbShare) : Prop := {
  ck_path : continued (ss_path s) = None;
  ck_comment : forall c, ss_comment s = Some c -> continued (sanitize_smb_value c) = None;
  ck_extra : Forall param_ok ((fun kv => (sanitize_smb_value kv.1, sanitize_smb_value kv.2)) <$> extra_list s);
}.

(** The bytes of a character of several bytes are not ASCII. *)
Lemma chars_shape l : Forall (fun ch => exists c g, ch = c :: g /\ (g = [] \/ 128 <= code c) /\
  Forall (fun d => is_continuation d = true) g) (chars_bytes l).
Proof.
  induction l as [|c l IH]; [constructor|]. cbn. destruct (code c <? 128) eqn:E.
  { constructor; [|done]. exists c, []. by split_and!; [|left|]. }
  assert (128 <= code c) as Hc by lia.
  assert (exists c0 g, [c] = c0 :: g /\ (g = [] \/ 128 <= code c0) /\ Forall (fun d => is_continuation d = true) g) as H1
    by (exists c, []; by split_and!; [|left|]).
  destruct (chars_bytes l) as [|[|d g] rest]; [by constructor..|].
  destruct (is_continuation d) eqn:Ed; [|by constructor].
  apply Forall_cons in IH as [(d' & g' & [= <- <-] & _ & Hg) IH]. constructor; [|done].
  exists c, (d :: g). split_and!; [done|by right|by constructor].
Qed.

Lemma chars_alone l ch c : ch ∈ chars_bytes l -> c ∈ ch -> code c < 128 -> ch = [c].
Proof.
  pose proof (chars_shape l) as H. rewrite Forall_forall in H. intros (d & g & -> & Hg & HF)%H Hin Hc.
  apply elem_of_cons in Hin as [->|Hin].
  - destruct Hg as [->|]; [done|lia].
  - rewrite Forall_forall in HF. apply HF in Hin. unfold is_continuation, in_range in Hin. lia.
Qed.

Lemma sanitize_no c s : kept_smb_char [c] = false -> code c < 128 -> no_char c (sanitize_smb_value s).
Proof.
  intros Hk Hc. unfold no_char, sanitize_smb_value, of_chars. rewrite to_of_bytes. intros Hin.
  apply list_elem_of_join in Hin as (ch & Hch & Hin). apply list_elem_of_In, filter_In in Hin as [Hin Hf].
  apply list_elem_of_In in Hin. apply (chars_alone _ _ _ Hin Hch) in Hc. subst ch. congruence.
Qed.

Lemma sanitize_keeps_out c s : no_char c s -> no_char c (sanitize_smb_value s).
Proof.
  unfold no_char, sanitize_smb_value, of_chars. rewrite to_of_bytes. intros Hs Hin. apply Hs.
  rewrite <- (chars_concat (to_bytes s)). apply list_elem_of_join in Hin as (ch & Hch & Hin).
  apply list_elem_of_join. exists ch. split; [done|]. apply list_elem_of_In, filter_In in Hin as [Hin _].
  by apply list_elem_of_In.
Qed.

Lemma share_name_no c n : validate_share_name n = Ok tt -> bad_share_name_char c = true -> no_char c n.
Proof.
  unfold validate_share_name. destruct (_ || _) eqn:E; [done|]. apply orb_false_iff in E as [_ E]. intros _ Hb Hin.
  apply list_elem_of_In in Hin. assert (existsb bad_share_name_char (to_bytes n) = true); [|congruence].
  apply existsb_exists. eauto.
Qed.

Lemma share_path_no c p : validate_share_path p = Ok tt -> char_in [chr 10; chr 13; chr 0; chr 34; "#"]%char c = true -> no_char c p.
Proof.
  unfold validate_share_path. destruct (String.eqb p ""); [done|]. destruct (existsb _ _) eqn:E; [done|]. intros _ Hb.
  eapply no_ascii_char; [exact E|exact Hb|]. revert Hb. clear. each_byte c.
Qed.

(** A parameter the code writes itself. *)
Lemma own_param k v :
  match to_bytes k with c :: _ => negb (blank c) && negb (char_in [";"; "#"; "["]%char c) | [] => false end = true ->
  bool_decide (("="%char ∉ to_bytes k) /\ (chr 10 ∉ to_bytes k)) = true ->
  no_char (chr 10) v -> continued v = None -> param_ok (k, v).
Proof.
  intros Hk [He Hn]%bool_decide_eq_true_1 Hv Hj. split; [|done..].
  destruct k as [|c k]; [done|]. exists c, k. split; [done|]. change (to_bytes (String c k)) with (c :: to_bytes k) in Hk. cbn in Hk.
  revert Hk. clear. unfold char_in. cbn. destruct (blank c); [done|].
  destruct (Ascii.eqb_spec c ";"), (Ascii.eqb_spec c "#"), (Ascii.eqb_spec c "["); done.
Qed.

Ltac own := apply own_param; [reflexivity|vm_compute; reflexivity| |].

(** A value that neither begins nor ends in a blank, nor is continued. *)
Definition solid (l : bytes) : Prop :=
  (chr 10 ∉ l) /\ (exists c l', l = c :: l' /\ blank c = false) /\ (exists l' c, l = l' ++ [c] /\ blank c = false /\ c <> chr 92).

Lemma solid_strip l : solid l -> drop_trailing (drop_blanks l) = l.
Proof.
  intros (_ & (c & l' & E & Hc) & (l'' & d & E' & Hd & _)). 
  assert (drop_blanks l = l) as -> by (rewrite E; cbn; by rewrite Hc). rewrite E'. by rewrite drop_trailing_app.
Qed.

Lemma solid_user u : principal_ok u -> solid (to_bytes (smb_user u)).
Proof.
  intros [Hn Hc Hj]. unfold smb_user. rewrite (sanitize_id u Hc).
  assert (chr 10 ∉ to_bytes u) as Hl by (rewrite Forall_forall in Hc; by intros ?%Hc).
  destruct (str_contains_char (chr 32) u) eqn:E.
  - change (to_bytes (String ?a ?x)) with (a :: to_bytes x). rewrite to_bytes_app. split_and!.
    + intros [|[|H]%elem_of_app]%elem_of_cons; [done..|]. by apply list_elem_of_singleton in H.
    + by eexists _, _.
    + exists (chr 34 :: to_bytes u), (chr 34). by split_and!.
  - assert (forall c, c ∈ to_bytes u -> blank c = false) as Hb.
    { intros c Hin. rewrite Forall_forall in Hc. destruct (decide (c = chr 32)) as [->|Hne].
      - assert (existsb (Ascii.eqb (chr 32)) (to_bytes u) = true); [|unfold str_contains_char in E; congruence].
        apply existsb_exists. exists (chr 32). by split; [apply list_elem_of_In|].
      - apply Hc in Hin. revert Hin Hne. clear. each_byte c. }
    split_and!; [done| |].
    + destruct u as [|c u]; [done|]. exists c, (to_bytes u). split; [done|]. apply Hb. by left.
    + apply continued_None in Hj. destruct (to_bytes u) as [|c l _] eqn:Eu using rev_ind; [by destruct u|].
      exists l, c. rewrite last_snoc in Hj. split_and!; [done| |congruence]. apply Hb, elem_of_app. right. by left.
Qed.

Lemma solid_app a b : solid a -> solid b -> solid (a ++ [chr 32] ++ b).
Proof.
  intros (Ha & (c & l & Ea & Hc) & _) (Hb & _ & (l' & d & Eb & Hd)). split_and!.
  - intros [|[H|]%elem_of_app]%elem_of_app; [done| |done]. by apply list_elem_of_singleton in H.
  - exists c, (l ++ [chr 32] ++ b). by rewrite Ea.
  - exists (a ++ [chr 32] ++ l'), d. by rewrite Eb, <- !app_assoc.
Qed.

Lemma solid_users us : Forall principal_ok us -> us <> [] -> solid (to_bytes (str_join " " (smb_user <$> us))).
Proof.
  intros H. unfold str_join. rewrite to_of_bytes. induction H as [|u us Hu _ IH]; [done|]. intros _.
  rewrite !fmap_cons. destruct us as [|v us]; [by apply solid_user|].
  specialize (IH (ltac:(done))). rewrite !fmap_cons in *. by apply solid_app; [apply solid_user|].
Qed.

Lemma solid_param v : solid (to_bytes v) -> no_char (chr 10) v /\ continued v = None.
Proof.
  intros (Hn & _ & (l & c & E & _ & Hc)). split; [done|]. apply continued_None. rewrite E, last_snoc. congruence.
Qed.

(** Every parameter of a valid share is read as itself. *)
Lemma share_params_ok s : smb_share_valid s -> conf_ok s -> Forall param_ok (share_params s).
Proof.
  intros [_ Hp Hu _ Hl] [Hcp Hcc Hce].
  assert (Forall principal_ok (ss_valid_users s)) as Hpr by (apply Forall_forall; intros u Hin; by apply valid_user_ok, Hu).
  unfold share_params. repeat (apply Forall_app; split).
  - constructor; [|constructor]. own; [by eapply share_path_no|done].
  - destruct (ss_comment s) as [c|] eqn:E; constructor; [|constructor]. own; [by apply sanitize_no|by apply Hcc].
  - repeat constructor; own; [..]; by destruct (ss_read_only s), (ss_browseable s), (ss_guest_ok s);
      first [by apply no_char_dec|by vm_compute].
  - unfold access_params. destruct (ss_guest_ok s).
    { repeat constructor; own; first [by apply no_char_dec|by vm_compute]. }
    destruct (ss_valid_users s) as [|u us] eqn:Eu; [constructor|]. apply Forall_app. split.
    + destruct (find_first _ _) as [f|] eqn:Ef; constructor; [|constructor]. apply find_first_Some in Ef as [Hin _].
      rewrite Forall_forall in Hpr. apply Hpr in Hin as [_ Hc Hj]. rewrite (sanitize_id _ Hc). own; [|done].
      eapply class_no_char; [exact Hc|done].
    + repeat constructor; own; first [by apply no_char_dec|by vm_compute].
  - destruct (ss_valid_users s) as [|u us] eqn:Eu; constructor; [|constructor].
    by own; apply solid_param, solid_users.
  - done.
  - unfold time_machine_params. destruct (ss_time_machine s); [|constructor]. apply Forall_app. split.
    + repeat constructor; own; first [by apply no_char_dec|by vm_compute].
    + destruct (ss_time_machine_max_size_gib s) as [n|] eqn:E; constructor; [|constructor].
      specialize (Hl n eq_refl). own; [|by rewrite continued_None, to_bytes_app, last_app].
      apply no_char_app. split; [apply fmt_dec_no; [lia|done]|by apply no_char_dec].
Qed.

(** ** Values in effect *)

(** The last parameter of a name. *)
Definition last_param (p : string) (kvs : list (string * string)) : option string :=
  snd <$> last (List.filter (fun kv => String.eqb (smb_name kv.1) p) kvs).

Lemma smb_value_assign sec p kvs : smb_value (assign sec <$> kvs) sec p = strip <$> last_param p kvs.
Proof.
  unfold smb_value, last_param.
  assert (List.filter (fun a => String.eqb a.1.1 sec && String.eqb a.1.2 p) (assign sec <$> kvs) =
          assign sec <$> List.filter (fun kv => String.eqb (smb_name kv.1) p) kvs) as ->.
  { induction kvs as [|kv kvs IH]; [done|]. rewrite fmap_cons. cbn [List.filter assign fst snd]. rewrite String.eqb_refl. cbn [andb].
    rewrite IH. by destruct (String.eqb (smb_name kv.1) p). }
  rewrite fmap_last. by destruct (last _).
Qed.

Lemma last_param_app p a b : last_param p (a ++ b) = match last_param p b with Some v => Some v | None => last_param p a end.
Proof. unfold last_param. rewrite List.filter_app, last_app. by destruct (last (List.filter _ b)). Qed.

Lemma last_param_None p kvs : forallb (fun k => negb (String.eqb (smb_name k) p)) (fst <$> kvs) = true -> last_param p kvs = None.
Proof.
  unfold last_param. induction kvs as [|kv kvs IH]; [done|]. rewrite fmap_cons. cbn [forallb List.filter].
  intros [Hk H]%andb_true_iff. apply negb_true_iff in Hk. rewrite Hk. by apply IH.
Qed.

(** The parameters around a fixed one that do not have its name. *)
Lemma access_keys s p : forallb (fun k => negb (String.eqb k p)) ["forceuser"; "forcegroup"; "createmask"; "directorymask"] = true ->
  last_param p (access_params s) = None.
Proof.
  cbn [forallb]. rewrite !andb_true_iff. intros (H1 & H2 & H3 & H4 & _). apply last_param_None. unfold access_params.
  destruct (ss_guest_ok s); [|destruct (ss_valid_users s) as [|u us]; [done|destruct (find_first _ _)]];
    cbn [fmap list_fmap forallb fst app];
    change (smb_name "force user") with "forceuser"; change (smb_name "force group") with "forcegroup";
    change (smb_name "create mask") with "createmask"; change (smb_name "directory mask") with "directorymask";
    by rewrite ?H1, ?H2, ?H3, ?H4.
Qed.

Lemma time_machine_keys s p :
  forallb (fun k => negb (String.eqb k p)) (smb_name <$> ["vfs objects"; "fruit:time machine"; "fruit:metadata"; "fruit:posix_rename";
    "fruit:veto_appledouble"; "fruit:wipe_intentionally_left_blank_rfork"; "fruit:delete_empty_adfiles"; "fruit:time machine max size"]) = true ->
  last_param p (time_machine_params s) = None.
Proof.
  rewrite !fmap_cons. cbn [forallb fmap list_fmap]. rewrite !andb_true_iff. intros (H1 & H2 & H3 & H4 & H5 & H6 & H7 & H8 & _).
  apply last_param_None. unfold time_machine_params. destruct (ss_time_machine s); [|done].
  rewrite fmap_app, forallb_app. apply andb_true_iff. split.
  - cbn [fmap list_fmap forallb fst]. by rewrite H1, H2, H3, H4, H5, H6, H7.
  - destruct (ss_time_machine_max_size_gib s); [|done]. cbn [fmap list_fmap forallb fst]. by rewrite H8.
Qed.

(** The values in effect, without extra parameters. *)
Lemma smb_values s sec :
  ss_extra_params s = ∅ -> smb_share_valid s ->
  let conf := assign sec <$> share_params s in
  smb_value conf sec "path" = Some (strip (ss_path s)) /\
  smb_value conf sec "readonly" = Some (yes_no (ss_read_only s)) /\
  smb_value conf sec "browseable" = Some (yes_no (ss_browseable s)) /\
  smb_value conf sec "guestok" = Some (yes_no (ss_guest_ok s)) /\
  default [] (smb_list <$> smb_value conf sec "validusers") = ss_valid_users s.
Proof.
  intros He Hv conf. unfold conf. rewrite !smb_value_assign.
  assert (Forall principal_ok (ss_valid_users s)) as Hpr
    by (apply Forall_forall; intros u Hin; by eapply valid_user_ok, sv_users).
  assert (forall p, last_param p ((fun kv => (sanitize_smb_value kv.1, sanitize_smb_value kv.2)) <$> extra_list s) = None) as Hx
    by (intros p; unfold extra_list; by rewrite He, map_to_list_empty).
  assert (forall p, p <> "comment" -> last_param p match ss_comment s with Some c => [("comment", sanitize_smb_value c)] | None => [] end = None) as Hc.
  { intros p Hp. apply last_param_None. destruct (ss_comment s); [|done]. cbn [fmap list_fmap forallb fst].
    change (smb_name "comment") with "comment". by rewrite (proj2 (String.eqb_neq "comment" p)) by congruence. }
  assert (forall p, p <> "validusers" -> last_param p match ss_valid_users s with [] => [] | us => [("valid users", str_join " " (smb_user <$> us))] end = None) as Hn.
  { intros p Hp. apply last_param_None. destruct (ss_valid_users s); [done|]. cbn [fmap list_fmap forallb fst].
    change (smb_name "valid users") with "validusers". by rewrite (proj2 (String.eqb_neq "validusers" p)) by congruence. }
  unfold share_params. rewrite !last_param_app, !Hx, !time_machine_keys, !access_keys by done.
  rewrite !Hc by done. rewrite !(Hn "path"), !(Hn "readonly"), !(Hn "browseable"), !(Hn "guestok") by done.
  split_and!; [done|by destruct (ss_read_only s)|by destruct (ss_browseable s)|by destruct (ss_guest_ok s)|].
  destruct (ss_valid_users s) as [|u us] eqn:Eu; [done|]. rewrite <- Eu in *.
  change (last_param "validusers" [("valid users", ?v)]) with (Some v). cbn [fmap option_fmap option_map default].
  unfold strip. rewrite solid_strip by (apply solid_users; [done|by rewrite Eu]). rewrite of_to_bytes. by apply smb_list_users.
Qed.

(** C25. Samba serves what is stored.  For a valid share whose path and comment
    do not end in a backslash, which would join the next line to theirs
    ([smb_comment_swallows_line]), and whose extra parameters can be written as
    parameter lines: the share's file is one section, named after the share,
    whose parameters are exactly those of the share, in order; without extra
    parameters, the directory, the read-only, browseable and guest flags and the
    list of users that Samba reads in the section are those stored, every user
    and group of the list intact; no extra parameter turns off Time Machine; and
    whoever the portal lets into the share is a user of that list, or a member of
    a group of it, and the share is not open to guests.  What Samba makes of the
    section is another matter when the share is called [global], a name that
    validation accepts ([smb_global_share]). *)
Theorem smb_conf_reads_back s :
  smb_share_valid s -> conf_ok s ->
  let sec := smb_name (sanitize_smb_value (ss_name s)) in
  let conf := assign sec <$> share_params s in
  read_smb (render_share_conf s) = Some conf /\
  (ss_extra_params s = ∅ ->
     smb_value conf sec "path" = Some (strip (ss_path s)) /\
     smb_value conf sec "readonly" = Some (yes_no (ss_read_only s)) /\
     smb_value conf sec "browseable" = Some (yes_no (ss_browseable s)) /\
     smb_value conf sec "guestok" = Some (yes_no (ss_guest_ok s)) /\
     default [] (smb_list <$> smb_value conf sec "validusers") = ss_valid_users s) /\
  (ss_time_machine s = true ->
     smb_value conf sec "vfsobjects" = Some "catia fruit streams_xattr" /\
     smb_value conf sec "fruit:timemachine" = Some "yes") /\
  (forall principal groups, share_allows_principal s principal groups = true ->
     smb_value conf sec "guestok" = Some "no" /\
     exists entry, entry ∈ default [] (smb_list <$> smb_value conf sec "validusers") /\
       (eq_ignore_ascii_case entry principal = true \/
        exists g group, entry = "@" +:+ g /\ group ∈ groups /\ eq_ignore_ascii_case group g = true)).
Proof.
  intros Hv Hc sec conf. pose proof (smb_values s sec) as Hvals. split_and!.
  - unfold render_share_conf. apply read_section; [| |by apply share_params_ok].
    + by apply sanitize_keeps_out, share_name_no; [apply sv_name|].
    + by apply sanitize_no.
  - auto.
  - intros Ht. unfold conf. rewrite !smb_value_assign. unfold share_params. rewrite !last_param_app.
    unfold time_machine_params. rewrite Ht. by destruct (ss_time_machine_max_size_gib s).
  - unfold share_allows_principal. intros principal groups.
    destruct (negb (ss_enabled s)), (ss_guest_ok s) eqn:Eg; [done..| |]; cbn [orb]; [done|].
    destruct (bool_decide (ss_valid_users s = [])); [done|]. cbn [orb].
    destruct (bool_decide_reflect (ss_extra_params s = ∅)) as [He|]; [|done]. cbn [negb].
    intros (entry & Hin%list_elem_of_In & Ha)%existsb_exists. destruct (Hvals He Hv) as (_ & _ & _ & Hg & Hu).
    split; [exact Hg|]. exists entry. split; [unfold conf; by rewrite Hu|]. destruct (strip_prefix "@" entry) as [g|] eqn:Es; [|by left].
    right. apply existsb_exists in Ha as (group & Hgr%list_elem_of_In & Heq). exists g, group. split_and!; [|done..].
    by apply strip_prefix_Some.
Qed.

Definition demo_smb : SmbShare :=
  mkSmbShare "9a" "Team Data" "/fs/tank/team" (Some "shared; files") false true false
    ["alice"; "@ops"; "CORP" +:+ String (chr 92) "Jo Ann"] ∅ true (Some 500) true.

Lemma smb_conf_reads_back_witness :
  smb_share_valid demo_smb /\ conf_ok demo_smb /\
  smb_list "alice @ops" = ["alice"; "@ops"] /\
  is_Some (read_smb (render_share_conf demo_smb)) /\
  share_allows_principal demo_smb ("corp" +:+ String (chr 92) "jo ann") [] = true.
Proof.
  assert (smb_share_valid demo_smb) as Hv.
  { split; [vm_compute; reflexivity..| |vm_compute; reflexivity|by intros n [= <-]].
    apply try_each_spec. vm_compute. reflexivity. }
  assert (conf_ok demo_smb) as Hc.
  { split; [vm_compute; reflexivity|by intros c [= <-]; vm_compute|]. unfold extra_list, demo_smb. cbn [ss_extra_params].
    rewrite map_to_list_empty. constructor. }
  split_and!; [exact Hv|exact Hc|vm_compute; reflexivity| |].
  2:{ unfold share_allows_principal. change (ss_extra_params demo_smb) with (∅ : gmap string string).
      rewrite (bool_decide_eq_true_2 (∅ = ∅)) by done. vm_compute. reflexivity. }
  destruct (smb_conf_reads_back demo_smb Hv Hc) as [H _]. exact (mk_is_Some _ _ H).
Defined.

(** ** Operations *)

Inductive SmbOp : Type :=
| SmbCreate (req : CreateSmbShareRequest)
| SmbUpdate (req : UpdateSmbShareRequest)
| SmbDelete (id : string).

Definition run_smb (env : SmbEnv) (op : SmbOp) : smb (option SmbShare) :=
  match op with
  | SmbCreate req => s <~ smb_create env req ;; m_ret (Some s)
  | SmbUpdate req => s <~ smb_update env req ;; m_ret (Some s)
  | SmbDelete id => smb_delete env id ;;; m_ret None
  end.

Definition smb_touched (env : SmbEnv) (op : SmbOp) : string :=
  match op with SmbCreate _ => se_id env | SmbUpdate req => us_id req | SmbDelete id => id end.

(** Every share is filed under its id and valid, and no name is used twice. *)
Definition smb_inv : StateDir SmbShare -> Prop := keyed ss_id ss_name smb_share_valid.

(** What nasty.d should hold for a share. *)
Definition conf_of (s : SmbShare) : option string := if ss_enabled s then Some (render_share_conf s) else None.

(** The include list names the files of the directory, and the advertisement
    the Time Machine shares. *)
Definition in_sync (env : SmbEnv) (w : SmbWorld) : Prop :=
  sw_include w = render_include_list (listed w) /\
  (se_avahi_write env = true -> se_avahi_remove env = true ->
   sw_avahi w = build_timemachine_avahi_xml (time_machine_names (sw_state w))).

Lemma conf_name_inj a b : conf_name a = conf_name b -> a = b.
Proof.
  unfold conf_name. intros H. apply to_bytes_inj. apply (f_equal to_bytes) in H.
  rewrite !to_bytes_app in H. by apply (inj (fun x => x ++ _)) in H.
Qed.

(** The section file of a share, or its absence, and nothing else. *)
Definition section_spec (env : SmbEnv) (id : string) (want : option string) (section : smb unit) : Prop :=
  forall w, let '(w', r) := section w in
    sw_state w' = sw_state w /\
    (forall f, f <> conf_name id -> sw_files w' !! f = sw_files w !! f) /\
    (r = Ok tt -> se_unlink env = true -> sw_files w' !! conf_name id = want).

Lemma unlink_conf_spec env id : section_spec env id None (unlink_conf env id).
Proof.
  intros w. unfold unlink_conf, put_files, m_modify. destruct (se_unlink env); cbn; split_and!; try done; intros.
  - by rewrite lookup_delete_ne.
  - by rewrite lookup_delete_eq.
Qed.

Lemma write_share_conf_spec env s : section_spec env (ss_id s) (conf_of s) (write_share_conf env s).
Proof.
  intros w. unfold write_share_conf, conf_of. pose proof (unlink_conf_spec env (ss_id s) w) as H. revert H.
  generalize (unlink_conf env (ss_id s)). intros unlink H. unfold m_bind, m_lift, fault.
  destruct (se_mkdir env); [done|]. destruct (ss_enabled s); cbn [negb]; [|exact H].
  unfold put_files, m_modify, m_throw. destruct (se_write env) as [|e [c|]]; cbn; split_and!; try done; intros.
  - by rewrite lookup_insert_ne.
  - by rewrite lookup_insert_eq.
  - by rewrite lookup_insert_ne.
Qed.

Lemma apply_smb_spec env id want section w :
  section_spec env id want section ->
  let '(w', r) := apply_smb env section w in
  sw_state w' = sw_state w /\
  (forall f, f <> conf_name id -> sw_files w' !! f = sw_files w !! f) /\
  (r = Ok tt -> in_sync env w' /\ (se_unlink env = true -> sw_files w' !! conf_name id = want)).
Proof.
  intros H. specialize (H w). unfold apply_smb, m_bind. destruct (section w) as [w1 [[]|e]]; destruct H as (Hs & Hf & Hw); [|done].
  unfold rebuild_include_list, m_bind, m_lift, fault, m_get, m_modify, m_throw, m_ret.
  destruct (se_mkdir_again env); [done|]. destruct (se_read_dir env); [done|].
  destruct (se_write_include env) as [|e [c|]]; [|done..].
  unfold reload_samba, m_ret, m_throw. destruct (se_reload env); [|done..].
  unfold sync_timemachine_avahi, m_modify, in_sync.
  destruct (build_timemachine_avahi_xml _) eqn:Eb; cbn in Eb;
    [destruct (se_avahi_write env)|destruct (se_avahi_remove env)]; cbn; split_and!; try done;
    intros _; (split; [split; [done|]|by apply Hw]); intros; try done; by rewrite Eb.
Qed.

(** Where the path and the extra parameters of a share that is written come
    from. *)
Definition smb_origin (op : SmbOp) (d : StateDir SmbShare) (s : SmbShare) : Prop :=
  match op with
  | SmbCreate req => ss_path s = cs_path req /\ ss_extra_params s = default ∅ (cs_extra_params req)
  | SmbUpdate req => exists old, load d (us_id req) = Some old /\ ss_path s = ss_path old /\
      ss_extra_params s = default (ss_extra_params old) (us_extra_params req)
  | SmbDelete _ => False
  end.

(** The effect of one operation. *)
Inductive smb_effect (env : SmbEnv) (op : SmbOp) (w w' : SmbWorld) (r : result (option SmbShare) SmbError) : Prop :=
| SmbSame : w' = w ->
    (forall s, r = Ok s -> exists req x, op = SmbCreate req /\ s = Some x /\ load (sw_state w) (ss_id x) = Some x /\
       ss_name x = cs_name req) -> smb_effect env op w w' r
| SmbPut (s : SmbShare) :
    smb_share_valid s -> ss_id s = smb_touched env op -> smb_origin op (sw_state w) s ->
    (forall id x, load (sw_state w) id = Some x -> ss_name x = ss_name s -> id = ss_id s) ->
    sw_state w' = <[ss_id s := Some s]> (sw_state w) ->
    (forall f, f <> conf_name (ss_id s) -> sw_files w' !! f = sw_files w !! f) ->
    (forall s', r = Ok s' -> s' = Some s /\ in_sync env w' /\
       (se_unlink env = true -> sw_files w' !! conf_name (ss_id s) = conf_of s)) ->
    smb_effect env op w w' r
| SmbGone (id : string) : op = SmbDelete id ->
    sw_state w' = delete id (sw_state w) ->
    (forall f, f <> conf_name id -> sw_files w' !! f = sw_files w !! f) ->
    (forall s', r = Ok s' -> s' = None /\ in_sync env w' /\ (se_unlink env = true -> sw_files w' !! conf_name id = None)) ->
    smb_effect env op w w' r.

Lemma smb_publish_effect env op s w :
  (validate_time_machine s = Ok tt -> smb_share_valid s) -> ss_id s = smb_touched env op -> smb_origin op (sw_state w) s ->
  (forall id x, load (sw_state w) id = Some x -> ss_name x = ss_name s -> id = ss_id s) ->
  let '(w', r) := smb_publish env s w in
  smb_effect env op w w' (match r with Ok x => Ok (Some x) | Err e => Err e end).
Proof.
  intros Hv Ht Ho' Hp. unfold smb_publish.
  pose proof (fun w => apply_smb_spec env _ _ _ w (write_share_conf_spec env s)) as H. revert H.
  generalize (apply_smb env (write_share_conf env s)). intros apply_ H.
  unfold m_bind, m_get, smb_put_state, save, m_lift. destruct (validate_time_machine s) as [[]|]; [|by apply SmbSame].
  specialize (Hv eq_refl). cbv beta iota. unfold m_bind, m_lift. destruct (se_save env); [by apply SmbSame|]. cbn.
  set (w0 := mkSmbWorld _ _ _ _). specialize (H w0).
  destruct (apply_ w0) as [w' [[]|e]]; destruct H as (Hs & Hf & Ho); cbn in *; apply (SmbPut _ _ _ _ _ s); try done.
  intros s' [= <-]. destruct (Ho eq_refl). by split_and!.
Qed.

Lemma smb_delete_effect env id w s :
  load (sw_state w) id = Some s ->
  let '(w', r) := smb_delete env id w in
  smb_effect env (SmbDelete id) w w' (match r with Ok _ => Ok None | Err e => Err e end).
Proof.
  intros Hl. unfold smb_delete.
  pose proof (fun w => apply_smb_spec env _ _ _ w (unlink_conf_spec env id)) as H. revert H.
  generalize (apply_smb env (unlink_conf env id)). intros apply_ H.
  unfold smb_get, m_bind, m_get, m_lift, smb_put_state, remove. rewrite Hl. cbn. unfold m_bind, m_lift.
  destruct (se_remove_state env); [by apply SmbSame|]. cbn. set (w0 := mkSmbWorld _ _ _ _). specialize (H w0).
  destruct (apply_ w0) as [w' [[]|e]]; destruct H as (Hs & Hf & Ho); apply (SmbGone _ _ _ _ _ id); try done.
  intros s' [= <-]. destruct (Ho eq_refl). by split_and!.
Qed.

Lemma smb_check_create_valid env req :
  smb_check_create env req = Ok tt -> validate_time_machine (new_smb_share env req) = Ok tt ->
  smb_share_valid (new_smb_share env req).
Proof.
  unfold smb_check_create. destruct (validate_share_name (cs_name req)) as [[]|] eqn:En; [|done].
  destruct (validate_share_path (cs_path req)) as [[]|] eqn:Ep; [|done].
  destruct (validate_valid_users _) as [[]|] eqn:Eu; [|done]. intros _ Ht.
  split; try done.
  - intros u Hin. unfold validate_valid_users in Eu. rewrite try_each_spec in Eu. by apply Eu.
  - cbn. intros n. destruct (cs_time_machine_max_size_gib req) as [m|]; [|done]. cbn. unfold positive.
    destruct (0 <? m) eqn:E; [|done]. intros [= <-]. lia.
Qed.

Lemma updated_smb_valid sh req :
  smb_share_valid sh -> match us_name req with Some n => validate_share_name n | None => Ok tt end = Ok tt ->
  validate_valid_users (default [] (us_valid_users req)) = Ok tt ->
  validate_time_machine (updated_smb_share sh req) = Ok tt -> smb_share_valid (updated_smb_share sh req).
Proof.
  intros [Hn Hp Hu _ Hl] Hname Hus Ht. unfold validate_valid_users in Hus. rewrite try_each_spec in Hus.
  split; [..|done|]; cbn.
  - by destruct (us_name req).
  - done.
  - intros u. destruct (us_valid_users req); [by apply Hus|by apply Hu].
  - intros n. destruct (us_time_machine_max_size_gib req) as [m|]; [|by apply Hl]. unfold positive.
    destruct (0 <? m) eqn:E; [|done]. intros [= <-]. lia.
Qed.

Lemma update_name_free req sh d :
  smb_inv d -> load d (us_id req) = Some sh ->
  match us_name req with
  | Some n => if existsb (fun s => String.eqb (ss_name s) n && negb (String.eqb (ss_id s) (us_id req))) (load_all d)
              then Err (NameExists n) else Ok tt
  | None => Ok tt
  end = Ok tt ->
  forall id x, load d id = Some x -> ss_name x = default (ss_name sh) (us_name req) -> id = us_id req.
Proof.
  intros [Hk Hu] Hl Hc id x Hx. destruct (us_name req) as [n|]; cbn [default]; [|by eapply Hu].
  intros Hn. change (ss_name x = n) in Hn. subst n. destruct (existsb _ _) eqn:E; [done|]. destruct (decide (id = us_id req)) as [|Hne]; [done|].
  assert (existsb (fun s => String.eqb (ss_name s) (ss_name x) && negb (String.eqb (ss_id s) (us_id req))) (load_all d) = true); [|congruence].
  apply existsb_exists. exists x. split; [apply list_elem_of_In, elem_of_load_all; by exists id|].
  rewrite String.eqb_refl. cbn. destruct (Hk _ _ Hx) as [-> _]. by rewrite (proj2 (String.eqb_neq _ _) Hne).
Qed.

Lemma smb_op_effect env op w :
  smb_inv (sw_state w) ->
  let '(w', r) := run_smb env op w in smb_effect env op w w' r.
Proof.
  intros [Hk Hu]. destruct op as [req|req|id]; cbn [run_smb].
  - unfold smb_create, m_bind, m_lift, m_get. destruct (smb_check_create env req) as [[]|e] eqn:Ec; [|by apply SmbSame].
    destruct (find_first _ _) as [x|] eqn:Ef; cbv beta iota.
    + apply SmbSame; [done|]. intros s Hs. injection Hs as <-. apply find_first_Some in Ef as (Hin & Hp%String.eqb_eq).
      apply elem_of_load_all in Hin as (i & Hi). exists req, x. by rewrite (proj1 (Hk _ _ Hi)).
    + assert (forall id x, load (sw_state w) id = Some x -> ss_name x <> cs_name req) as Hnew.
      { intros id x Hx. rewrite find_first_None in Ef. apply String.eqb_neq, (Ef x). apply elem_of_load_all. by exists id. }
      pose proof (smb_publish_effect env (SmbCreate req) _ w (smb_check_create_valid env req Ec) eq_refl
                    (conj eq_refl eq_refl)) as H.
      destruct (smb_publish env (new_smb_share env req) w) as [w' [x|e]]; apply H; intros id x' Hid Hname; by destruct (Hnew id x').
  - unfold smb_update, smb_get, m_bind, m_lift, m_get.
    destruct (match us_name req with Some n => validate_share_name n | None => Ok tt end) as [[]|] eqn:En; [|by apply SmbSame].
    destruct (load (sw_state w) (us_id req)) as [sh|] eqn:El; [|by apply SmbSame]. cbv beta iota delta [ok_or].
    pose proof (update_name_free req sh _ (Build_keyed _ _ _ _ _ Hk Hu) El) as Hfree. revert Hfree.
    destruct (match us_name req with Some n => if existsb _ _ then _ else _ | None => _ end) as [[]|] eqn:Ex; intros Hfree;
      [|by apply SmbSame].
    destruct (validate_valid_users _) as [[]|] eqn:Ec; [|by apply SmbSame]. destruct (Hk _ _ El) as [Hid Hv].
    pose proof (smb_publish_effect env (SmbUpdate req) (updated_smb_share sh req) w (updated_smb_valid sh req Hv En Ec) Hid
                  (ex_intro _ sh (conj El (conj eq_refl eq_refl)))) as H.
    destruct (smb_publish env (updated_smb_share sh req) w) as [w' [x|e]]; apply H; cbn [updated_smb_share ss_id]; rewrite Hid;
      by apply Hfree.
  - unfold m_bind. destruct (load (sw_state w) id) as [s|] eqn:El.
    + pose proof (smb_delete_effect env id w s El) as H. by destruct (smb_delete env id w) as [w' [[]|e]].
    + unfold smb_delete, smb_get, m_bind, m_get, m_lift. rewrite El. by apply SmbSame.
Qed.

(** Operations on SMB shares keep state and configuration together, whatever
    call fails: every stored share stays valid and filed under its id, and no
    name is stored twice; only the share operated on changes, and only its
    section file; a share that is returned is the one stored, its file has
    exactly its rendering, or is absent when it is disabled, the include list
    names every section file and Time Machine shares are advertised; and after a
    successful delete neither the share nor its file is there. *)
Theorem smb_operations_sound env op w :
  smb_inv (sw_state w) ->
  let '(w', r) := run_smb env op w in
  smb_inv (sw_state w') /\
  (forall id, id <> smb_touched env op -> load (sw_state w') id = load (sw_state w) id /\
     sw_files w' !! conf_name id = sw_files w !! conf_name id) /\
  (forall s, r = Ok (Some s) -> smb_share_valid s /\ load (sw_state w') (ss_id s) = Some s /\
     (w' = w \/ in_sync env w' /\ (se_unlink env = true -> sw_files w' !! conf_name (ss_id s) = conf_of s))) /\
  (r = Ok None -> load (sw_state w') (smb_touched env op) = None /\ in_sync env w' /\
     (se_unlink env = true -> sw_files w' !! conf_name (smb_touched env op) = None)).
Proof.
  intros Hinv. pose proof (smb_op_effect env op w Hinv) as H. destruct (run_smb env op w) as [w' r].
  destruct H as [-> Hs|s Hv Ht _ Hp Hst Hf Hr|id -> Hst Hf Hr].
  - split_and!; try done.
    + intros s E. destruct (Hs _ E) as (req & x & -> & [= ->] & Hl & _).
      split_and!; [by apply (kd_id _ _ _ _ Hinv _ _ Hl)|done|by left].
    + intros E. by destruct (Hs _ E) as (req & x & _ & ? & _).
  - rewrite Hst. rewrite <- Ht. split_and!.
    + by apply keyed_put.
    + intros id Hid. rewrite load_save_other by done. split; [done|]. apply Hf. by intros ?%conf_name_inj.
    + intros s' E. destruct (Hr _ E) as ([= ->] & Hx). rewrite load_save_same. split_and!; [done..|by right].
    + intros E. by destruct (Hr _ E).
  - rewrite Hst. cbn [smb_touched]. split_and!.
    + by apply keyed_delete.
    + intros i Hi. rewrite load_remove_other by done. split; [done|]. apply Hf. by intros ?%conf_name_inj.
    + intros s E. by destruct (Hr _ E).
    + intros E. rewrite load_remove_same. by destruct (Hr _ E).
Qed.

Definition demo_smb_env : SmbEnv :=
  mkSmbEnv true (Some "/fs/tank/team") "9a" None None None true WriteOk None None WriteOk ReloadOk true true.
Definition demo_smb_create : SmbOp :=
  SmbCreate (mkCreateSmb "Team Data" "/fs/tank/team" None None None None (Some ["alice"]) None None None None).

Lemma smb_operations_sound_witness :
  smb_inv ∅ /\
  (let '(w', r) := run_smb demo_smb_env demo_smb_create (mkSmbWorld ∅ ∅ "" None) in
   smb_inv (sw_state w') /\ exists s, r = Ok (Some s) /\ in_sync demo_smb_env w' /\
     sw_files w' !! "9a.conf" = Some (render_share_conf s)).
Proof.
  split; [apply keyed_empty|].
  pose proof (smb_operations_sound demo_smb_env demo_smb_create (mkSmbWorld ∅ ∅ "" None) (keyed_empty _ _ _)) as H.
  destruct (run_smb demo_smb_env demo_smb_create (mkSmbWorld ∅ ∅ "" None)) as [w' r] eqn:E.
  destruct H as (H1 & _ & H3 & _). split; [exact H1|].
  assert (exists s, r = Ok (Some s) /\ ss_id s = "9a" /\ ss_enabled s = true) as (s & -> & Hid & He)
    by (vm_compute in E; injection E as _ <-; eexists; split_and!; reflexivity).
  exists s. destruct (H3 s eq_refl) as (_ & Hl & [->|[Hs Hf]]); [done|].
  specialize (Hf eq_refl). unfold conf_of in Hf. rewrite He, Hid in Hf. by split_and!.
Defined.

(** ** Where the configuration and the state part *)

(** A comment that ends in a backslash swallows the next line: the share is
    stored as writable, and Samba, whose default is [read only = yes], makes it
    read-only. *)
Lemma smb_comment_swallows_line :
  let s := mkSmbShare "9a" "data" "/fs/tank/team" (Some (String (chr 92) "")) false true false [] ∅ false None true in
  smb_share_valid s /\ exists conf, read_smb (render_share_conf s) = Some conf /\ smb_value conf "data" "readonly" = None.
Proof. split; [split; try (vm_compute; reflexivity); [by intros u ?%elem_of_nil|done]|]. eexists. split; vm_compute; reflexivity. Qed.

(** A share named after the global section writes its parameters there. *)
Lemma smb_global_share :
  let s := mkSmbShare "9a" "Global" "/fs/tank/team" None false true true [] ∅ false None true in
  smb_share_valid s /\ exists conf, read_smb (render_share_conf s) = Some conf /\ smb_value conf "global" "guestok" = Some "yes".
Proof. split; [split; try (vm_compute; reflexivity); [by intros u ?%elem_of_nil|done]|]. eexists. split; vm_compute; reflexivity. Qed.

(** Names that differ only in case, or in characters that are dropped, are two
    shares in the state and one section in Samba. *)
Lemma smb_names_merge :
  let sec n := smb_name (sanitize_smb_value n) in
  validate_share_name "Data" = Ok tt /\ validate_share_name "data" = Ok tt /\
  sec "Data" = sec "data" /\ sec "My Data" = sec "mydata".
Proof. vm_compute. done. Qed.
