(* ===== verification/ShareScope.v ===== *)
(** * Which sources a scoped session may share (nasty-engine/src/router/share.rs)

    Tokens can be confined to a filesystem or to the subvolumes of an owner.
    Paths and block volumes are matched against the inventory of subvolumes;
    what the kernel answers to canonicalize and exists is an argument, the same
    during one request. *)

From Stdlib Require Import ZArith Lia Ascii String.
From stdpp Require Import base list gmap strings.
From S2P Require Import Prelude.
From S2P Require Import RustStr.
From S2P Require Import RustPath.
From S2P Require Import Net.
From S2P Require Import Auth.

Record BlockVolumeId : Type := mkBlockVolumeId {
  bv_filesystem_uuid : string;
  bv_subvolume_id : Z;
}.

#[export] Instance BlockVolumeId_eq_dec : EqDecision BlockVolumeId.
Proof. solve_decision. Defined.

Inductive SubvolumeType : Type := SvFilesystem | SvBlock.

#[export] Instance SubvolumeType_eq_dec : EqDecision SubvolumeType.
Proof. solve_decision. Defined.

(** The fields of a subvolume that matter here. *)
Record ScopeSubvolume : Type := mkScopeSubvolume {
  su_filesystem : string;
  su_owner : option string;
  su_type : SubvolumeType;
  su_path : string;
  su_block_device : option string;
  su_block_volume_id : option BlockVolumeId;
}.

Record Lun : Type := mkLun {
  lun_id : Z;
  backstore_path : string;
  backstore_name : string;
  backstore_type : string;
  size_bytes : option Z;
  backing_volume : option BlockVolumeId;
  backing_volume_unresolved : bool;
}.

(** What the system answers. *)
Record ScopeEnv : Type := mkScopeEnv {
  sc_canonicalize : string -> option string;
  sc_exists : string -> bool;
  sc_subvolumes : result (list ScopeSubvolume) string;
  sc_volume_for_device : string -> result (option BlockVolumeId) string;
}.

(** ** Matching *)

Definition resource_matches_scope (filesystem : string) (owner : option string)
    (filesystem_filter owner_filter : option string) : bool :=
  match filesystem_filter with Some filter => String.eqb filter filesystem | None => true end &&
  match owner_filter with Some filter => bool_decide (owner = Some filter) | None => true end.

Definition session_is_scoped (session : Session) : bool := is_some (s_filesystem session) || is_some (s_owner session).

Definition session_allows_raw_block_sources (session : Session) : bool :=
  role_eqb (s_role session) Admin && negb (session_is_scoped session).

Definition session_allows_empty_block_destination (session : Session) : bool :=
  role_eqb (s_role session) Operator && negb (session_is_scoped session).

Definition PathScopeCandidate : Type := string * string * option string.
Definition BlockScopeCandidate : Type := BlockVolumeId * string * option string.

Definition depth (c : PathScopeCandidate) : nat := length (components c.1.1).

(** [max_by_key]: the last of the greatest. *)
Fixpoint max_by_key {A} (key : A -> nat) (l : list A) : option A :=
  match l with
  | [] => None
  | x :: l' => match max_by_key key l' with
               | Some y => if (key y <? key x)%nat then Some x else Some y
               | None => Some x
               end
  end.

Definition candidate_matches (filesystem_filter owner_filter : option string) (c : PathScopeCandidate) : bool :=
  resource_matches_scope c.1.2 c.2 filesystem_filter owner_filter.

Definition path_source_matches_scope (requested : string) (candidates : list PathScopeCandidate)
    (filesystem_filter owner_filter : option string) : bool :=
  let containing_matches :=
    match max_by_key depth (List.filter (fun c => path_starts_with requested c.1.1) candidates) with
    | Some c => candidate_matches filesystem_filter owner_filter c
    | None => false
    end in
  let nested_matches :=
    forallb (candidate_matches filesystem_filter owner_filter)
      (List.filter (fun c => path_starts_with c.1.1 requested) candidates) in
  containing_matches && nested_matches.

Definition block_volume_matches_scope (identity : BlockVolumeId) (candidates : list BlockScopeCandidate)
    (filesystem_filter owner_filter : option string) : bool :=
  match List.filter (fun c => bool_decide (c.1.1 = identity)) candidates with
  | [c] => resource_matches_scope c.1.2 c.2 filesystem_filter owner_filter
  | _ => false
  end.

(** ** The inventory of a scoped read *)

Record ShareScopeInventory : Type := mkInventory {
  iv_paths : list PathScopeCandidate;
  iv_blocks : list BlockScopeCandidate;
  iv_filesystem : option string;
  iv_owner : option string;
}.

Definition block_candidate (sv : ScopeSubvolume) : option BlockScopeCandidate :=
  match su_type sv, su_block_volume_id sv with
  | SvBlock, Some identity => Some (identity, su_filesystem sv, su_owner sv)
  | _, _ => None
  end.

Definition path_candidate (env : ScopeEnv) (sv : ScopeSubvolume) : option PathScopeCandidate :=
  (fun p => (p, su_filesystem sv, su_owner sv)) <$> sc_canonicalize env (su_path sv).

Definition inventory_load (env : ScopeEnv) (session : Session) : result ShareScopeInventory string :=
  subvolumes <-? sc_subvolumes env ;;
  paths <-? ok_or (mapM (path_candidate env) subvolumes) "share scope inventory unavailable" ;;
  Ok (mkInventory paths (omap block_candidate subvolumes) (s_filesystem session) (s_owner session)).

Definition path_matches (env : ScopeEnv) (inv : ShareScopeInventory) (requested : string) : bool :=
  match sc_canonicalize env requested with
  | Some canonical => path_source_matches_scope canonical (iv_paths inv) (iv_filesystem inv) (iv_owner inv)
  | None => false
  end.

(** [Path::join] of one name. *)
Definition path_join (base name : string) : string :=
  if ends_with "/" base then base +:+ name else base +:+ "/" +:+ name.

(** The path with the given components. *)
Definition path_of (cs : list Component) : string :=
  let piece c := match c with RootDir => "" | CurDir => "." | ParentDir => ".." | Normal n => n end in
  match cs with [RootDir] => "/" | _ => str_join "/" (piece <$> cs) end.

Definition canonical_fileio_source (env : ScopeEnv) (requested : string) : result string string :=
  if sc_exists env requested then ok_or (sc_canonicalize env requested) "access denied"
  else
    name <-? ok_or (file_name requested) "access denied" ;;
    p <-? ok_or (parent requested) "access denied" ;;
    canonical <-? ok_or (sc_canonicalize env (path_of p)) "access denied" ;;
    Ok (path_join canonical name).

Definition fileio_matches (env : ScopeEnv) (inv : ShareScopeInventory) (requested : string) : bool :=
  match canonical_fileio_source env requested with
  | Ok canonical => path_starts_with canonical "/fs" &&
      path_source_matches_scope canonical (iv_paths inv) (iv_filesystem inv) (iv_owner inv)
  | Err _ => false
  end.

Definition block_matches (inv : ShareScopeInventory) (identity : BlockVolumeId) : bool :=
  block_volume_matches_scope identity (iv_blocks inv) (iv_filesystem inv) (iv_owner inv).

Definition backing_matches (inv : ShareScopeInventory) (unresolved : bool) (backing : option BlockVolumeId) : bool :=
  negb unresolved && match backing with Some identity => block_matches inv identity | None => false end.

Definition lun_matches (env : ScopeEnv) (inv : ShareScopeInventory) (lun : Lun) : bool :=
  if String.eqb (backstore_type lun) "block" then backing_matches inv (backing_volume_unresolved lun) (backing_volume lun)
  else if String.eqb (backstore_type lun) "fileio" then fileio_matches env inv (backstore_path lun)
  else false.

Definition iscsi_target_matches (env : ScopeEnv) (inv : ShareScopeInventory) (luns : list Lun) : bool :=
  negb (bool_decide (length luns = 0%nat)) && forallb (lun_matches env inv) luns.

(** ** Authorization of a mutation *)

Definition scope_candidates (env : ScopeEnv) (subvolumes : list ScopeSubvolume) : list PathScopeCandidate :=
  omap (path_candidate env) subvolumes.

Definition authorize_path_source (env : ScopeEnv) (session : Session) (requested : string) : result string string :=
  if negb (session_is_scoped session) then Ok requested
  else
    canonical <-? ok_or (sc_canonicalize env requested) "access denied" ;;
    subvolumes <-? sc_subvolumes env ;;
    guard? path_source_matches_scope canonical (scope_candidates env subvolumes) (s_filesystem session) (s_owner session)
      else "access denied" ;;
    Ok canonical.

Definition in_session_scope (session : Session) (sv : ScopeSubvolume) : bool :=
  resource_matches_scope (su_filesystem sv) (su_owner sv) (s_filesystem session) (s_owner session).

Definition authorize_block_source (env : ScopeEnv) (session : Session) (device_path : string)
    : result (option BlockVolumeId) string :=
  if session_allows_raw_block_sources session then sc_volume_for_device env device_path
  else
    subvolumes <-? sc_subvolumes env ;;
    matched <-? ok_or (find_first (fun sv => bool_decide (su_type sv = SvBlock) &&
                                             bool_decide (su_block_device sv = Some device_path)) subvolumes) "access denied" ;;
    guard? in_session_scope session matched else "access denied" ;;
    match su_block_volume_id matched with
    | Some identity => Ok (Some identity)
    | None => Err ("managed block device " +:+ device_path +:+ " has no stable bcachefs identity")
    end.

Definition authorize_fileio_source (env : ScopeEnv) (session : Session) (requested : string) : result string string :=
  if session_allows_raw_block_sources session then Ok requested
  else
    canonical <-? canonical_fileio_source env requested ;;
    guard? path_starts_with canonical "/fs" else "access denied" ;;
    _ <-? (if session_is_scoped session then
             subvolumes <-? sc_subvolumes env ;;
             guard? path_source_matches_scope canonical (scope_candidates env subvolumes) (s_filesystem session)
                      (s_owner session) else "access denied" ;;
             Ok tt
           else Ok tt) ;;
    Ok canonical.

Definition fileio_source_is_lexically_managed (requested : string) : bool :=
  is_absolute requested && path_starts_with requested "/fs" && negb (bool_decide (ParentDir ∈ components requested)).

Definition fileio_source_is_managed (env : ScopeEnv) (requested : string) : bool :=
  match canonical_fileio_source env requested with
  | Ok path => path_starts_with path "/fs"
  | Err _ => fileio_source_is_lexically_managed requested
  end.

Definition authorize_block_destination (env : ScopeEnv) (session : Session) (identities : list (option BlockVolumeId))
    : result unit string :=
  if session_allows_raw_block_sources session then Ok tt
  else
    match identities with
    | [] => if session_allows_empty_block_destination session then Ok tt else Err "access denied"
    | _ =>
        if existsb (fun o => negb (is_some o)) identities then Err "access denied"
        else
          subvolumes <-? sc_subvolumes env ;;
          try_each (fun identity =>
            sv <-? ok_or (find_first (fun sv => bool_decide (su_block_volume_id sv = Some identity)) subvolumes) "access denied" ;;
            guard? in_session_scope session sv else "access denied" ;; Ok tt) (omap id identities)
    end.

(** ** What a scope lets through *)

(** The subvolume a file is in: the deepest that contains it. *)
Definition contains (c : PathScopeCandidate) (file : string) : Prop := components c.1.1 `prefix_of` components file.

Definition home (candidates : list PathScopeCandidate) (file : string) (c : PathScopeCandidate) : Prop :=
  c ∈ candidates /\ contains c file /\ forall d, d ∈ candidates -> contains d file -> (depth d <= depth c)%nat.

(** Entries of the same directory agree. *)
Definition consistent (candidates : list PathScopeCandidate) : Prop :=
  forall c d, c ∈ candidates -> d ∈ candidates -> components c.1.1 = components d.1.1 -> c.1.2 = d.1.2 /\ c.2 = d.2.

Lemma starts_with_prefix p b : path_starts_with p b = true <-> components b `prefix_of` components p.
Proof. unfold path_starts_with. by rewrite bool_decide_eq_true. Qed.

Lemma max_by_key_spec {A} (key : A -> nat) l :
  match max_by_key key l with
  | Some m => m ∈ l /\ forall x, x ∈ l -> (key x <= key m)%nat
  | None => l = []
  end.
Proof.
  induction l as [|x l IH]; [done|]. cbn. destruct (max_by_key key l) as [m|].
  - destruct IH as [Hm Hmax]. destruct (key m <? key x)%nat eqn:E;
      [apply Nat.ltb_lt in E|apply Nat.ltb_ge in E]; (split; [try (by left); by right|]);
      intros y [->|Hy]%elem_of_cons; try apply Hmax in Hy; lia.
  - subst l. split; [by left|]. intros y [->|?%elem_of_nil]%elem_of_cons; [lia|done].
Qed.

Lemma elem_of_filter_bool {A} (f : A -> bool) l x : x ∈ List.filter f l <-> x ∈ l /\ f x = true.
Proof. by rewrite !list_elem_of_In, filter_In. Qed.

(** The deepest directory that contains a path is a prefix of every deeper one. *)
Lemma contains_deeper c d file : contains c file -> contains d file -> (depth c <= depth d)%nat ->
  components c.1.1 `prefix_of` components d.1.1.
Proof.
  intros Hc Hd Hle. destruct (prefix_weak_total _ _ _ Hc Hd) as [|[k Hk]]; [done|].
  unfold depth in Hle. rewrite Hk, length_app in Hle. destruct k; [|cbn in Hle; lia]. by rewrite Hk, app_nil_r.
Qed.

Lemma home_exists candidates file c : c ∈ candidates -> contains c file -> exists h, home candidates file h.
Proof.
  intros Hin Hc. pose proof (max_by_key_spec depth (List.filter (fun c => path_starts_with file c.1.1) candidates)) as H.
  destruct (max_by_key _ _) as [m|].
  - destruct H as [[Hm Hp%starts_with_prefix]%elem_of_filter_bool Hmax]. exists m. split_and!; [done..|].
    intros d Hd Hdc. apply Hmax, elem_of_filter_bool. split; [done|]. by apply starts_with_prefix.
  - assert (c ∈ List.filter (fun c => path_starts_with file c.1.1) candidates) as Hf
      by (apply elem_of_filter_bool; split; [done|by apply starts_with_prefix]).
    rewrite H in Hf. by apply elem_of_nil in Hf.
Qed.

(** Two homes of one file are the same directory. *)
Lemma home_agree candidates file c d : consistent candidates -> home candidates file c -> home candidates file d ->
  c.1.2 = d.1.2 /\ c.2 = d.2.
Proof.
  intros Hcons (Hc & Hcf & Hcm) (Hd & Hdf & Hdm). apply Hcons; [done..|].
  apply (anti_symm prefix); eapply contains_deeper; eauto.
Qed.

(** The candidate the code picks is the home of the path. *)
Lemma chosen_home requested candidates m :
  max_by_key depth (List.filter (fun c => path_starts_with requested c.1.1) candidates) = Some m ->
  home candidates requested m.
Proof.
  intros E. pose proof (max_by_key_spec depth (List.filter (fun c => path_starts_with requested c.1.1) candidates)) as H.
  rewrite E in H. destruct H as [[Hm Hp%starts_with_prefix]%elem_of_filter_bool Hle].
  split_and!; [done..|]. intros d Hd Hdc. apply Hle, elem_of_filter_bool. split; [done|]. by apply starts_with_prefix.
Qed.

Lemma path_scope_sound requested candidates filesystem_filter owner_filter :
  consistent candidates ->
  path_source_matches_scope requested candidates filesystem_filter owner_filter = true ->
  (exists c, c ∈ candidates /\ contains c requested) /\
  (forall file c, components requested `prefix_of` components file -> home candidates file c ->
     candidate_matches filesystem_filter owner_filter c = true).
Proof.
  intros Hcons. unfold path_source_matches_scope.
  destruct (max_by_key _ _) as [m|] eqn:Em; [|done]. apply chosen_home in Em as Hhome.
  intros [Hc Hn]%andb_true_iff. split; [exists m; by destruct Hhome as (? & ? & _)|].
  intros file c Hfile (Hin & Hcf & Hbest). destruct (prefix_weak_total _ _ _ Hcf Hfile) as [Hcr|Hrc].
  - assert (home candidates requested c) as Hc'.
    { split_and!; [done..|]. intros d Hd Hdr. apply Hbest; [done|]. unfold contains in *. by etrans. }
    destruct (home_agree _ _ _ _ Hcons Hc' Hhome) as [E1 E2]. unfold candidate_matches in *. by rewrite E1, E2.
  - rewrite forallb_forall in Hn. apply Hn, list_elem_of_In, elem_of_filter_bool. split; [done|]. by apply starts_with_prefix.
Qed.

(** C13. The scope test is exact.  A path passes it for a scope if and only if
    it lies in some subvolume and every file below the path, at any depth, is in
    a subvolume of the scope, where the subvolume of a file is the deepest one
    that contains it: nested subvolumes of other owners are never exposed, and
    no path that exposes only the scope is refused. *)
Theorem path_scope_exact requested candidates filesystem_filter owner_filter :
  consistent candidates ->
  path_source_matches_scope requested candidates filesystem_filter owner_filter = true <->
  (exists c, c ∈ candidates /\ contains c requested) /\
  (forall file c, components requested `prefix_of` components file -> home candidates file c ->
     candidate_matches filesystem_filter owner_filter c = true).
Proof.
  intros Hcons. split; [by apply path_scope_sound|]. intros [(c & Hin & Hc) Hall].
  unfold path_source_matches_scope. apply andb_true_iff. split.
  - destruct (home_exists _ _ _ Hin Hc) as [h (Hh & Hhc & _)].
    pose proof (max_by_key_spec depth (List.filter (fun c => path_starts_with requested c.1.1) candidates)) as Hmax.
    destruct (max_by_key _ _) as [m|] eqn:Em; [by eapply Hall; [|apply chosen_home]|]. exfalso.
    assert (h ∈ List.filter (fun c => path_starts_with requested c.1.1) candidates) as Hf
      by (apply elem_of_filter_bool; split; [done|by apply starts_with_prefix]).
    rewrite Hmax in Hf. by apply elem_of_nil in Hf.
  - apply forallb_forall. intros d [Hd Hp%starts_with_prefix]%list_elem_of_In%elem_of_filter_bool.
    destruct (home_exists candidates d.1.1 d Hd) as [h Hh]; [by unfold contains|].
    assert (candidate_matches filesystem_filter owner_filter h = true) as Hm by (by eapply Hall).
    assert (components h.1.1 = components d.1.1) as E.
    { destruct Hh as (_ & Hhf & Hhm). apply (anti_symm prefix); [done|].
      apply (contains_deeper d h d.1.1); [by unfold contains|done|]. apply Hhm; [done|by unfold contains]. }
    destruct (Hcons h d) as [E1 E2]; [apply Hh|done|done|]. unfold candidate_matches in *. by rewrite <- E1, <- E2.
Qed.

Definition demo_candidates : list PathScopeCandidate :=
  [("/fs/tank", "tank", None); ("/fs/tank/a", "tank", Some "csi"); ("/fs/tank/a/b", "tank", Some "other"); ("/fs/tank/c", "tank", Some "csi")].

Lemma path_scope_exact_witness :
  consistent demo_candidates /\
  (forall file c, components "/fs/tank/c/x" `prefix_of` components file -> home demo_candidates file c ->
     candidate_matches None (Some "csi") c = true) /\
  path_source_matches_scope "/fs/tank/a" demo_candidates None (Some "csi") = false.
Proof.
  assert (consistent demo_candidates) as Hc.
  { intros c d. unfold demo_candidates. rewrite !elem_of_cons, !elem_of_nil.
    intros Hc Hd; repeat destruct Hc as [->|Hc]; repeat destruct Hd as [->|Hd]; try done; by vm_compute. }
  split_and!; [exact Hc| |vm_compute; reflexivity].
  apply (path_scope_exact "/fs/tank/c/x" demo_candidates None (Some "csi") Hc). vm_compute. reflexivity.
Defined.
