(* ===== verification/ShareRoute.v ===== *)
(** * The NFS and SMB requests (nasty-engine/src/router/share.rs)

    The arms [share.nfs.*] and [share.smb.*], with requests already parsed: the
    protocol gate, the gate on raw Samba parameters, the scope of the session
    and the operation itself.  The records a gate writes are kept as event and
    reason. *)

From Stdlib Require Import ZArith Lia Ascii String.
From stdpp Require Import base list gmap strings.
From S2P Require Import Prelude.
From S2P Require Import RustStr.
From S2P Require Import RustPath.
From S2P Require Import StateDir.
From S2P Require Import Net.
From S2P Require Import Auth.
From S2P Require Import AuthInv.
From S2P Require Import AuthProps.
From S2P Require Import Protocol.
From S2P Require Import Nfs.
From S2P Require Import NfsProps.
From S2P Require Import Smb.
From S2P Require Import SmbProps.
From S2P Require Import ShareScope.

Record ShareState : Type := mkShareState {
  st_nfs : NfsWorld;
  st_smb : SmbWorld;
  st_audit : list (string * string);
}.

Record ShareEnv : Type := mkShareEnv {
  sh_enabled : Protocol -> bool;
  sh_scope : ScopeEnv;
  sh_nfs : NfsEnv;
  sh_smb : SmbEnv;
}.

Inductive ShareRefusal : Type := Refused (msg : string) | NfsRefused (e : NfsError) | SmbRefused (e : SmbError).

Abbreviation share A := (stm ShareState ShareRefusal A).

Definition refuse_on {A} (r : result A string) : share A :=
  m_lift (match r with Ok a => Ok a | Err e => Err (Refused e) end).

Definition on_nfs {A} (m : nfs A) : share A := fun st =>
  let '(w, r) := m (st_nfs st) in
  (mkShareState w (st_smb st) (st_audit st), match r with Ok a => Ok a | Err e => Err (NfsRefused e) end).

Definition on_smb {A} (m : smb A) : share A := fun st =>
  let '(w, r) := m (st_smb st) in
  (mkShareState (st_nfs st) w (st_audit st), match r with Ok a => Ok a | Err e => Err (SmbRefused e) end).

(** ** Gates *)

Definition require_share_protocol (env : ShareEnv) (p : Protocol) : share unit :=
  if sh_enabled env p then m_ret tt
  else m_throw (Refused (display_name p +:+ " protocol is not enabled — enable it first via service.protocol.enable")).

Definition record_event (event reason : string) : share unit :=
  m_modify (fun st => mkShareState (st_nfs st) (st_smb st) (st_audit st ++ [(event, reason)])).

Definition require_share_root (session : Session) (reason : string) : share unit :=
  match authorize_session session RootEquivalent with
  | Ok _ => record_event "root_equivalent_requested" reason
  | Err denied => record_event "permission_denied" reason ;;; m_throw (Refused (message denied))
  end.

Definition smb_extra_params_require_admin (existing requested : option (gmap string string)) : bool :=
  match requested, existing with
  | Some params, _ | None, Some params => negb (bool_decide (params = ∅))
  | None, None => false
  end.

Definition load_scope (env : ShareEnv) (session : Session) : share (option ShareScopeInventory) :=
  if session_is_scoped session then refuse_on (inv <-? inventory_load (sh_scope env) session ;; Ok (Some inv))
  else m_ret None.

Definition visible (env : ShareEnv) (scope : option ShareScopeInventory) (path : string) : bool :=
  match scope with Some inv => path_matches (sh_scope env) inv path | None => true end.

(** ** NFS *)

Definition route_nfs_list (env : ShareEnv) (session : Session) : share (list NfsShare) :=
  scope <~ load_scope env session ;;
  st <~ m_get ;;
  m_ret (List.filter (fun s => visible env scope (ns_path s)) (load_all (nw_state (st_nfs st)))).

Definition route_nfs_get (env : ShareEnv) (session : Session) (id : string) : share NfsShare :=
  scope <~ load_scope env session ;;
  s <~ on_nfs (nfs_get id) ;;
  if visible env scope (ns_path s) then m_ret s else m_throw (Refused "access denied").

Definition route_nfs_create (env : ShareEnv) (session : Session) (req : CreateNfsShareRequest) : share NfsShare :=
  require_share_protocol env Protocol.Nfs ;;;
  path <~ refuse_on (authorize_path_source (sh_scope env) session (cn_path req)) ;;
  on_nfs (nfs_create (sh_nfs env) (mkCreateNfs path (cn_comment req) (cn_clients req) (cn_enabled req))).

Definition route_nfs_update (env : ShareEnv) (session : Session) (req : UpdateNfsShareRequest) : share NfsShare :=
  require_share_protocol env Protocol.Nfs ;;;
  s <~ on_nfs (nfs_get (un_id req)) ;;
  refuse_on (authorize_path_source (sh_scope env) session (ns_path s)) ;;;
  on_nfs (nfs_update (sh_nfs env) req).

Definition route_nfs_delete (env : ShareEnv) (session : Session) (id : string) : share unit :=
  require_share_protocol env Protocol.Nfs ;;;
  s <~ on_nfs (nfs_get id) ;;
  refuse_on (authorize_path_source (sh_scope env) session (ns_path s)) ;;;
  on_nfs (nfs_delete (sh_nfs env) id).

(** ** SMB *)

Definition route_smb_list (env : ShareEnv) (session : Session) : share (list SmbShare) :=
  scope <~ load_scope env session ;;
  st <~ m_get ;;
  m_ret (List.filter (fun s => visible env scope (ss_path s)) (load_all (sw_state (st_smb st)))).

Definition route_smb_get (env : ShareEnv) (session : Session) (id : string) : share SmbShare :=
  scope <~ load_scope env session ;;
  s <~ on_smb (smb_get id) ;;
  if visible env scope (ss_path s) then m_ret s else m_throw (Refused "access denied").

Definition with_path (req : CreateSmbShareRequest) (path : string) : CreateSmbShareRequest :=
  mkCreateSmb (cs_name req) path (cs_comment req) (cs_read_only req) (cs_browseable req) (cs_guest_ok req)
    (cs_valid_users req) (cs_extra_params req) (cs_time_machine req) (cs_time_machine_max_size_gib req) (cs_enabled req).

Definition route_smb_create (env : ShareEnv) (session : Session) (req : CreateSmbShareRequest) : share SmbShare :=
  require_share_protocol env Protocol.Smb ;;;
  (if smb_extra_params_require_admin None (cs_extra_params req)
   then require_share_root session "raw_samba_parameters" else m_ret tt) ;;;
  st <~ m_get ;;
  if session_is_scoped session &&
     existsb (fun s => eq_ignore_ascii_case (ss_name s) (cs_name req)) (load_all (sw_state (st_smb st)))
  then m_throw (Refused "access denied")
  else
    path <~ refuse_on (authorize_path_source (sh_scope env) session (cs_path req)) ;;
    on_smb (smb_create (sh_smb env) (with_path req path)).

Definition route_smb_update (env : ShareEnv) (session : Session) (req : UpdateSmbShareRequest) : share SmbShare :=
  require_share_protocol env Protocol.Smb ;;;
  s <~ on_smb (smb_get (us_id req)) ;;
  (if smb_extra_params_require_admin (Some (ss_extra_params s)) (us_extra_params req)
   then require_share_root session "raw_samba_parameters" else m_ret tt) ;;;
  refuse_on (authorize_path_source (sh_scope env) session (ss_path s)) ;;;
  on_smb (smb_update (sh_smb env) req).

Definition route_smb_delete (env : ShareEnv) (session : Session) (id : string) : share unit :=
  require_share_protocol env Protocol.Smb ;;;
  s <~ on_smb (smb_get id) ;;
  refuse_on (authorize_path_source (sh_scope env) session (ss_path s)) ;;;
  on_smb (smb_delete (sh_smb env) id).

Inductive ShareOp : Type :=
| NfsList | NfsGet (id : string) | NfsChange (op : NfsOp)
| SmbList | SmbGet (id : string) | SmbChange (op : SmbOp).

Inductive ShareReply : Type := NfsShares (l : list NfsShare) | SmbShares (l : list SmbShare) | ShareDone.

Definition route_inner (env : ShareEnv) (session : Session) (op : ShareOp) : share ShareReply :=
  match op with
  | NfsList => l <~ route_nfs_list env session ;; m_ret (NfsShares l)
  | NfsGet id => s <~ route_nfs_get env session id ;; m_ret (NfsShares [s])
  | NfsChange (NfsCreate req) => s <~ route_nfs_create env session req ;; m_ret (NfsShares [s])
  | NfsChange (NfsUpdate req) => s <~ route_nfs_update env session req ;; m_ret (NfsShares [s])
  | NfsChange (NfsDelete id) => route_nfs_delete env session id ;;; m_ret ShareDone
  | SmbList => l <~ route_smb_list env session ;; m_ret (SmbShares l)
  | SmbGet id => s <~ route_smb_get env session id ;; m_ret (SmbShares [s])
  | SmbChange (SmbCreate req) => s <~ route_smb_create env session req ;; m_ret (SmbShares [s])
  | SmbChange (SmbUpdate req) => s <~ route_smb_update env session req ;; m_ret (SmbShares [s])
  | SmbChange (SmbDelete id) => route_smb_delete env session id ;;; m_ret ShareDone
  end.

(** ** Scoped sessions *)

Section Scoped.
Context (env : ShareEnv) (session : Session).
Context (Hscoped : session_is_scoped session = true).

(** Everything below the path is in subvolumes of the scope. *)
Definition exposes_only_scope (path : string) : Prop :=
  exists canonical subvolumes,
    sc_canonicalize (sh_scope env) path = Some canonical /\ sc_subvolumes (sh_scope env) = Ok subvolumes /\
    forall file c, components canonical `prefix_of` components file ->
      home (scope_candidates (sh_scope env) subvolumes) file c ->
      candidate_matches (s_filesystem session) (s_owner session) c = true.

(** No two subvolumes are at one path, and resolving a resolved path changes
    nothing. *)
Context (Hcons : forall subvolumes, sc_subvolumes (sh_scope env) = Ok subvolumes ->
  consistent (scope_candidates (sh_scope env) subvolumes)).
Context (Hcanon : forall p q, sc_canonicalize (sh_scope env) p = Some q -> sc_canonicalize (sh_scope env) q = Some q).

Lemma authorize_scoped p q :
  authorize_path_source (sh_scope env) session p = Ok q -> exposes_only_scope p /\ exposes_only_scope q.
Proof.
  unfold authorize_path_source. rewrite Hscoped. cbn [negb].
  destruct (sc_canonicalize (sh_scope env) p) as [c|] eqn:Ec; [|done]. cbn [ok_or result_bind].
  destruct (sc_subvolumes (sh_scope env)) as [subs|] eqn:Es; [|done]. cbn [result_bind].
  destruct (path_source_matches_scope _ _ _ _) eqn:Em; [|done]. intros [= <-].
  apply path_scope_sound in Em as [_ Hall]; [|by apply Hcons].
  split; exists c, subs; split_and!; try done. by eapply Hcanon.
Qed.

Lemma mapM_omap {A B} (f : A -> option B) l k : mapM f l = Some k -> omap f l = k.
Proof. intros H%mapM_Some. induction H as [|x y l k Hxy _ IH]; [done|]. cbn. by rewrite Hxy, IH. Qed.

Lemma load_scope_keeps st : (load_scope env session st).1 = st.
Proof. unfold load_scope. by rewrite Hscoped. Qed.

Lemma visible_scoped st scope p :
  (load_scope env session st).2 = Ok scope -> visible env scope p = true -> exposes_only_scope p.
Proof.
  unfold load_scope. rewrite Hscoped. unfold refuse_on, m_lift, inventory_load. cbn [snd].
  destruct (sc_subvolumes (sh_scope env)) as [subs|] eqn:Es; [|done]. cbn [result_bind].
  destruct (mapM (path_candidate (sh_scope env)) subs) as [paths|] eqn:Ep; [|done]. cbn. intros [= <-].
  cbn. unfold path_matches. destruct (sc_canonicalize (sh_scope env) p) as [c|] eqn:Ec; [|done]. cbn. intros Hm.
  apply mapM_omap in Ep as <-. apply path_scope_sound in Hm as [_ Hall]; [|by apply Hcons].
  by exists c, subs.
Qed.

(** Shares that are there, gone or other than before. *)
Definition changes_confined {T} (path : T -> string) (d d' : StateDir T) : Prop :=
  forall id s, load d' id <> load d id -> load d' id = Some s \/ load d id = Some s -> exposes_only_scope (path s).

Lemma confined_same {T} (path : T -> string) d : changes_confined path d d.
Proof. by intros id s Hne. Qed.

Lemma confined_put {T} (path : T -> string) d id x :
  exposes_only_scope (path x) -> (forall old, load d id = Some old -> exposes_only_scope (path old)) ->
  changes_confined path d (<[id := Some x]> d).
Proof.
  intros Hx Hold i s Hne Hs. destruct (decide (i = id)) as [->|Hi].
  - rewrite load_save_same in Hs. destruct Hs as [[= ->]|Hs]; [done|by apply Hold].
  - by rewrite load_save_other in Hne.
Qed.

Lemma confined_delete {T} (path : T -> string) d id :
  (forall old, load d id = Some old -> exposes_only_scope (path old)) -> changes_confined path d (delete id d).
Proof.
  intros Hold i s Hne Hs. destruct (decide (i = id)) as [->|Hi].
  - rewrite load_remove_same in Hs. destruct Hs as [|Hs]; [done|by apply Hold].
  - by rewrite load_remove_other in Hne.
Qed.

(** An operation whose source is in scope. *)
Definition nfs_source_ok (op : NfsOp) (d : StateDir NfsShare) : Prop :=
  match op with
  | NfsCreate req => exposes_only_scope (cn_path req) /\ load d (ne_id (sh_nfs env)) = None
  | NfsUpdate req => forall s, load d (un_id req) = Some s -> exposes_only_scope (ns_path s)
  | NfsDelete id => forall s, load d id = Some s -> exposes_only_scope (ns_path s)
  end.

Lemma nfs_effect_confined op w w' r :
  nfs_effect (sh_nfs env) op w w' r -> nfs_source_ok op (nw_state w) ->
  changes_confined ns_path (nw_state w) (nw_state w') /\ (forall s, r = Ok (Some s) -> exposes_only_scope (ns_path s)).
Proof.
  intros H Hok. destruct H as [-> Hs|s Hv Ht Ho _ Hst _ Hr|id -> Hst _ _ Hr].
  - split; [apply confined_same|]. intros s E. destruct (Hs _ E) as (req & x & -> & [= ->] & _ & ->). by destruct Hok.
  - assert (exposes_only_scope (ns_path s)) as Hx.
    { destruct op as [req|req|id]; [|destruct Ho as (old & Hl & ->); by apply Hok|done]. rewrite Ho. by destruct Hok. }
    split; [|intros s' E; by destruct (Hr _ E) as [[= ->] _]]. rewrite Hst. apply confined_put; [done|].
    rewrite Ht. destruct op as [req|req|id]; cbn in *; [destruct Hok; congruence|done|done].
  - split; [rewrite Hst; by apply confined_delete|]. intros s E. by specialize (Hr _ E).
Qed.

Definition smb_source_ok (op : SmbOp) (d : StateDir SmbShare) : Prop :=
  match op with
  | SmbCreate req => exposes_only_scope (cs_path req) /\ load d (se_id (sh_smb env)) = None /\
      (forall s id, load d id = Some s -> ss_name s <> cs_name req) /\ default ∅ (cs_extra_params req) = ∅
  | SmbUpdate req => forall s, load d (us_id req) = Some s ->
      exposes_only_scope (ss_path s) /\ default (ss_extra_params s) (us_extra_params req) = ∅
  | SmbDelete id => forall s, load d id = Some s -> exposes_only_scope (ss_path s)
  end.

Definition smb_plain_changes (d d' : StateDir SmbShare) : Prop :=
  forall id s, load d' id = Some s -> load d id <> Some s -> ss_extra_params s = ∅.

Lemma smb_effect_confined op w w' r :
  smb_effect (sh_smb env) op w w' r -> smb_source_ok op (sw_state w) ->
  changes_confined ss_path (sw_state w) (sw_state w') /\ smb_plain_changes (sw_state w) (sw_state w') /\
  (forall s, r = Ok (Some s) -> exposes_only_scope (ss_path s)).
Proof.
  intros H Hok. destruct H as [-> Hs|s Hv Ht Ho _ Hst _ Hr|id -> Hst _ Hr].
  - split_and!; [apply confined_same|by intros id s ? ?|]. intros s E.
    destruct (Hs _ E) as (req & x & -> & [= ->] & Hl & Hn). destruct Hok as (_ & _ & Hno & _). by eapply Hno in Hl.
  - assert (exposes_only_scope (ss_path s) /\ ss_extra_params s = ∅) as [Hx He].
    { destruct op as [req|req|id]; [|destruct Ho as (old & Hl & -> & ->); by apply Hok|done].
      destruct Ho as [-> ->], Hok as (? & _ & _ & ?). done. }
    split_and!; [| |intros s' E; by destruct (Hr _ E) as [[= ->] _]]; rewrite Hst.
    + apply confined_put; [done|]. rewrite Ht. destruct op as [req|req|id]; cbn in *; [|intros old [? _]%Hok; done|done].
      destruct Hok as (_ & Hnone & _). congruence.
    + intros i x. destruct (decide (i = ss_id s)) as [->|]; [rewrite load_save_same; by intros [= ->]|].
      by rewrite load_save_other.
  - split_and!; [rewrite Hst; by apply confined_delete| |].
    + rewrite Hst. intros i x. destruct (decide (i = id)) as [->|]; [by rewrite load_remove_same|by rewrite load_remove_other].
    + intros s E. by destruct (Hr _ E).
Qed.
End Scoped.

Section Confinement.
Context (env : ShareEnv) (session : Session).
Context (Hscoped : session_is_scoped session = true).
Context (Hcons : forall subvolumes, sc_subvolumes (sh_scope env) = Ok subvolumes ->
  consistent (scope_candidates (sh_scope env) subvolumes)).
Context (Hcanon : forall p q, sc_canonicalize (sh_scope env) p = Some q -> sc_canonicalize (sh_scope env) q = Some q).

(** What a request may do: no share outside the scope is changed or shown,
    and no raw Samba parameter is set. *)
Definition reply_in_scope (r : ShareReply) : Prop :=
  match r with
  | NfsShares l => forall s, s ∈ l -> exposes_only_scope env session (ns_path s)
  | SmbShares l => forall s, s ∈ l -> exposes_only_scope env session (ss_path s)
  | ShareDone => True
  end.

Definition confined (st st' : ShareState) (r : result ShareReply ShareRefusal) : Prop :=
  changes_confined env session ns_path (nw_state (st_nfs st)) (nw_state (st_nfs st')) /\
  changes_confined env session ss_path (sw_state (st_smb st)) (sw_state (st_smb st')) /\
  smb_plain_changes (sw_state (st_smb st)) (sw_state (st_smb st')) /\
  (forall reply, r = Ok reply -> reply_in_scope reply).

Lemma confined_refl st r : (forall reply, r = Ok reply -> reply_in_scope reply) -> confined st st r.
Proof. intros H. split_and!; [apply confined_same..|by intros id s ? ?|done]. Qed.

Lemma confined_err st st' e : st_nfs st' = st_nfs st -> st_smb st' = st_smb st -> confined st st' (Err e).
Proof. intros E1 E2. unfold confined. rewrite E1, E2. split_and!; [apply confined_same..|by intros id s ? ?|done]. Qed.

(** One NFS operation whose source is in scope. *)
Lemma nfs_confined op st :
  nfs_inv (nw_state (st_nfs st)) -> nfs_source_ok env session op (nw_state (st_nfs st)) ->
  forall w' r, run_nfs (sh_nfs env) op (st_nfs st) = (w', r) ->
  forall r', (forall reply, r' = Ok reply -> reply = ShareDone \/ exists s, r = Ok (Some s) /\ reply = NfsShares [s]) ->
  confined st (mkShareState w' (st_smb st) (st_audit st)) r'.
Proof.
  intros Hinv Hok w' r E r' Hr. pose proof (nfs_op_effect (sh_nfs env) op (st_nfs st) Hinv) as H. rewrite E in H.
  apply (nfs_effect_confined env session) in H as [H1 H2]; [|done].
  split_and!; [done|apply confined_same|by intros id s ? ?|].
  intros reply [->|(s & Es & ->)]%Hr; [done|]. intros x ->%list_elem_of_singleton. by apply H2.
Qed.

Lemma smb_confined op st :
  smb_inv (sw_state (st_smb st)) -> smb_source_ok env session op (sw_state (st_smb st)) ->
  forall w' r, run_smb (sh_smb env) op (st_smb st) = (w', r) ->
  forall audit_ r', (forall reply, r' = Ok reply -> reply = ShareDone \/ exists s, r = Ok (Some s) /\ reply = SmbShares [s]) ->
  confined st (mkShareState (st_nfs st) w' audit_) r'.
Proof.
  intros Hinv Hok w' r E audit_ r' Hr. pose proof (smb_op_effect (sh_smb env) op (st_smb st) Hinv) as H. rewrite E in H.
  apply (smb_effect_confined env session) in H as (H1 & H2 & H3); [|done].
  split_and!; [apply confined_same|done|done|].
  intros reply [->|(s & Es & ->)]%Hr; [done|]. intros x ->%list_elem_of_singleton. by apply H3.
Qed.

(** A scoped session never passes the root gate. *)
Lemma scoped_not_root : exists d, authorize_session session RootEquivalent = Err d.
Proof.
  destruct (authorize_session session RootEquivalent) as [[]|d] eqn:E; [|by exists d].
  apply authorize_spec in E as (_ & _ & [H1 H2]). unfold session_is_scoped in Hscoped. by rewrite H1, H2 in Hscoped.
Qed.

Lemma no_extra existing requested :
  smb_extra_params_require_admin existing requested = false -> default (default ∅ existing) requested = ∅.
Proof.
  unfold smb_extra_params_require_admin. destruct requested as [m|]; [|destruct existing as [m|]]; cbn; try done;
    by destruct (bool_decide_reflect (m = ∅)).
Qed.

Definition fresh_ids (st : ShareState) : Prop :=
  load (nw_state (st_nfs st)) (ne_id (sh_nfs env)) = None /\ load (sw_state (st_smb st)) (se_id (sh_smb env)) = None.

Lemma nfs_arms_confined op st :
  nfs_inv (nw_state (st_nfs st)) -> fresh_ids st ->
  let '(st', r) := route_inner env session (NfsChange op) st in confined st st' r.
Proof.
  intros Hinv [Hfresh _]. pose proof (confined_err st st) as Herr.
  destruct op as [req|req|id]; cbn [route_inner]; unfold route_nfs_create, route_nfs_update, route_nfs_delete, m_bind,
    require_share_protocol, m_throw, m_ret; (destruct (sh_enabled env Protocol.Nfs); [|by apply Herr]); unfold refuse_on, m_lift.
  - destruct (authorize_path_source _ _ _) as [path|] eqn:Ea; [|by apply Herr].
    apply authorize_scoped in Ea as [_ Hp]; [|done..]. set (req' := mkCreateNfs _ _ _ _).
    pose proof (nfs_confined (NfsCreate req') st Hinv (conj Hp Hfresh)) as H. unfold run_nfs, m_bind in H. unfold on_nfs.
    destruct (nfs_create (sh_nfs env) req' (st_nfs st)) as [w' [s|e]]; eapply H; try done. intros reply [= <-]. right. by exists s.
  - unfold on_nfs at 1, nfs_get, m_bind, m_get, m_lift. destruct (load _ (un_id req)) as [s|] eqn:El; cbn [ok_or]; [|by apply Herr].
    destruct (authorize_path_source _ _ _) as [path|] eqn:Ea; [|by apply Herr].
    apply authorize_scoped in Ea as [Hp _]; [|done..]. 
    assert (nfs_source_ok env session (NfsUpdate req) (nw_state (st_nfs st))) as Hok by (intros x Hx; congruence).
    pose proof (nfs_confined (NfsUpdate req) st Hinv Hok) as H. unfold run_nfs, m_bind in H. unfold on_nfs. destruct st as [nw sw au]; cbn [st_nfs st_smb st_audit] in *.
    destruct (nfs_update (sh_nfs env) req nw) as [w' [x|e]]; eapply H; try done. intros reply [= <-]. right. by exists x.
  - unfold on_nfs at 1, nfs_get, m_bind, m_get, m_lift. destruct (load _ id) as [s|] eqn:El; cbn [ok_or]; [|by apply Herr].
    destruct (authorize_path_source _ _ _) as [path|] eqn:Ea; [|by apply Herr].
    apply authorize_scoped in Ea as [Hp _]; [|done..]. 
    assert (nfs_source_ok env session (NfsDelete id) (nw_state (st_nfs st))) as Hok by (intros x Hx; congruence).
    pose proof (nfs_confined (NfsDelete id) st Hinv Hok) as H. unfold run_nfs, m_bind in H. unfold on_nfs. destruct st as [nw sw au]; cbn [st_nfs st_smb st_audit] in *.
    destruct (nfs_delete (sh_nfs env) id nw) as [w' [x|e]]; eapply H; try done. intros reply [= <-]. by left.
Qed.

Lemma smb_create_confined req st :
  smb_inv (sw_state (st_smb st)) -> fresh_ids st ->
  let '(st', r) := route_inner env session (SmbChange (SmbCreate req)) st in confined st st' r.
Proof.
  intros Hinv [_ Hfresh]. pose proof (confined_err st st) as Herr. cbn [route_inner].
  unfold route_smb_create, m_bind, require_share_protocol, m_throw, m_ret.
  destruct (sh_enabled env Protocol.Smb); [|by apply Herr].
  destruct (smb_extra_params_require_admin None (cs_extra_params req)) eqn:Ex.
  { unfold require_share_root. destruct scoped_not_root as [d ->]. by apply confined_err. }
  apply no_extra in Ex. cbn [default] in Ex. unfold m_get. rewrite Hscoped. cbn [andb].
  destruct (existsb _ _) eqn:En; [by apply Herr|]. unfold refuse_on, m_lift.
  destruct (authorize_path_source _ _ _) as [path|] eqn:Ea; [|by apply Herr].
  apply authorize_scoped in Ea as [_ Hp]; [|done..].
  assert (smb_source_ok env session (SmbCreate (with_path req path)) (sw_state (st_smb st))) as Hok.
  { split_and!; [done..| |done]. intros s id Hl Hname.
    assert (existsb (fun s => eq_ignore_ascii_case (ss_name s) (cs_name req)) (load_all (sw_state (st_smb st))) = true); [|congruence].
    apply existsb_exists. exists s. split; [apply list_elem_of_In, elem_of_load_all; by exists id|].
    unfold eq_ignore_ascii_case. cbn in Hname. rewrite Hname. apply String.eqb_refl. }
  pose proof (smb_confined _ st Hinv Hok) as H. unfold run_smb, m_bind in H. unfold on_smb.
  destruct (smb_create (sh_smb env) (with_path req path) (st_smb st)) as [w' [s|e]]; eapply H; try done.
  intros reply [= <-]. right. by exists s.
Qed.

Lemma smb_arms_confined op st :
  smb_inv (sw_state (st_smb st)) -> fresh_ids st ->
  let '(st', r) := route_inner env session (SmbChange op) st in confined st st' r.
Proof.
  intros Hinv Hfresh. destruct op as [req|req|id]; [by apply smb_create_confined| |]; pose proof (confined_err st st) as Herr;
    cbn [route_inner]; unfold route_smb_update, route_smb_delete, m_bind, require_share_protocol, m_throw, m_ret;
    (destruct (sh_enabled env Protocol.Smb); [|by apply Herr]); unfold on_smb at 1, smb_get, m_bind, m_get, m_lift.
  - destruct (load _ (us_id req)) as [s|] eqn:El; cbn [ok_or]; [|by apply Herr].
    destruct (smb_extra_params_require_admin _ _) eqn:Ex.
    { unfold require_share_root. destruct scoped_not_root as [d ->]. by apply confined_err. }
    apply no_extra in Ex. cbn [default] in Ex. unfold refuse_on, m_lift.
    destruct (authorize_path_source _ _ _) as [path|] eqn:Ea; [|by apply Herr].
    apply authorize_scoped in Ea as [Hp _]; [|done..].
    assert (smb_source_ok env session (SmbUpdate req) (sw_state (st_smb st))) as Hok
      by (intros x Hx; rewrite El in Hx; injection Hx as <-; done).
    pose proof (smb_confined (SmbUpdate req) st Hinv Hok) as H. unfold run_smb, m_bind in H. unfold on_smb.
    destruct st as [nw sw au]; cbn [st_nfs st_smb st_audit] in *.
    destruct (smb_update (sh_smb env) req sw) as [w' [x|e]]; eapply H; try done. intros reply [= <-]. right. by exists x.
  - destruct (load _ id) as [s|] eqn:El; cbn [ok_or]; [|by apply Herr]. unfold refuse_on, m_lift.
    destruct (authorize_path_source _ _ _) as [path|] eqn:Ea; [|by apply Herr].
    apply authorize_scoped in Ea as [Hp _]; [|done..].
    assert (smb_source_ok env session (SmbDelete id) (sw_state (st_smb st))) as Hok by (intros x Hx; congruence).
    pose proof (smb_confined (SmbDelete id) st Hinv Hok) as H. unfold run_smb, m_bind in H. unfold on_smb.
    destruct st as [nw sw au]; cbn [st_nfs st_smb st_audit] in *.
    destruct (smb_delete (sh_smb env) id sw) as [w' [x|e]]; eapply H; try done. intros reply [= <-]. by left.
Qed.

Lemma share_reads_confined op st :
  match op with NfsChange _ | SmbChange _ => False | _ => True end ->
  let '(st', r) := route_inner env session op st in confined st st' r.
Proof.
  intros Hop. pose proof (load_scope_keeps env session Hscoped st) as Hk.
  pose proof (visible_scoped env session Hscoped Hcons st) as Hvis.
  destruct op; try done; cbn [route_inner]; unfold route_nfs_list, route_nfs_get, route_smb_list, route_smb_get, m_bind;
    destruct (load_scope env session st) as [st1 [scope|e]]; cbn in Hk; subst st1; try (by apply confined_refl);
    cbn [snd] in Hvis; specialize (Hvis scope); unfold m_get, m_ret, on_nfs, on_smb, nfs_get, smb_get, m_bind, m_get, m_lift, m_throw.
  - apply confined_refl. intros reply [= <-] s [_ Hs]%elem_of_filter_bool. by apply Hvis.
  - destruct (load _ id) as [s|]; cbn [ok_or]; [|by apply confined_err].
    destruct (visible env scope (ns_path s)) eqn:Ev; [|by apply confined_err].
    destruct st; apply confined_refl. intros reply [= <-] x ->%list_elem_of_singleton. by apply Hvis.
  - apply confined_refl. intros reply [= <-] s [_ Hs]%elem_of_filter_bool. by apply Hvis.
  - destruct (load _ id) as [s|]; cbn [ok_or]; [|by apply confined_err].
    destruct (visible env scope (ss_path s)) eqn:Ev; [|by apply confined_err].
    destruct st; apply confined_refl. intros reply [= <-] x ->%list_elem_of_singleton. by apply Hvis.
Qed.

End Confinement.

Definition demo_scope : ScopeEnv :=
  mkScopeEnv (fun p => Some p) (fun _ => true)
    (Ok [mkScopeSubvolume "tank" None SvFilesystem "/fs/tank" None None;
         mkScopeSubvolume "tank" (Some "csi") SvFilesystem "/fs/tank/a" None None;
         mkScopeSubvolume "tank" (Some "other") SvFilesystem "/fs/tank/b" None None]) (fun _ => Ok None).
Definition demo_share_env : ShareEnv := mkShareEnv (fun _ => true) demo_scope NfsProps.demo_env demo_smb_env.
Definition demo_scoped : Session := mkSession "t" "csi" Operator None None (Some "csi") 0 false None.
Definition smb_named (id name path : string) : SmbShare :=
  mkSmbShare id name path None false true false ["alice"] ∅ false None true.
Definition demo_share_state : ShareState :=
  mkShareState (mkNfsWorld ∅ ∅)
    (mkSmbWorld {["1" := Some (smb_named "1" "mine" "/fs/tank/a"); "2" := Some (smb_named "2" "data" "/fs/tank/b")]} ∅ "" None) [].

Lemma demo_smb_inv : smb_inv (sw_state (st_smb demo_share_state)).
Proof.
  assert (forall id name path, validate_share_name name = Ok tt -> validate_share_path path = Ok tt ->
          smb_share_valid (smb_named id name path)) as Hv.
  { intros id name path Hn Hp. split; try done. intros u ->%list_elem_of_singleton. vm_compute. reflexivity. }
  change (smb_inv (<[ss_id (smb_named "1" "mine" "/fs/tank/a") := Some (smb_named "1" "mine" "/fs/tank/a")]>
    (<[ss_id (smb_named "2" "data" "/fs/tank/b") := Some (smb_named "2" "data" "/fs/tank/b")]> ∅))).
  apply keyed_put; [apply keyed_put; [apply keyed_empty|by apply Hv|done]|by apply Hv|].
  intros id x. destruct (decide (id = "2")) as [->|]; [|by rewrite load_save_other].
  change "2" with (ss_id (smb_named "2" "data" "/fs/tank/b")). rewrite load_save_same. by intros [= <-].
Qed.

Lemma demo_consistent subvolumes : sc_subvolumes demo_scope = Ok subvolumes -> consistent (scope_candidates demo_scope subvolumes).
Proof.
  intros [= <-]. intros c d Hc Hd.
  repeat (apply elem_of_cons in Hc as [->|Hc]; [|]); try (by apply elem_of_nil in Hc);
    repeat (apply elem_of_cons in Hd as [->|Hd]; [|]); try (by apply elem_of_nil in Hd); by vm_compute.
Qed.


(** Creation refuses a scoped session any name in use, case aside; renaming does
    not: the session gives its share a name that Samba takes for the section of
    another owner's share. *)
Lemma scoped_rename_merges_sections :
  exists s foreign,
    (route_inner demo_share_env demo_scoped
       (SmbChange (SmbUpdate (mkUpdateSmb "1" (Some "DATA") None None None None None None None None None))) demo_share_state).2
      = Ok (SmbShares [s]) /\
    load (sw_state (st_smb demo_share_state)) "2" = Some foreign /\
    smb_name (sanitize_smb_value (ss_name s)) = smb_name (sanitize_smb_value (ss_name foreign)).
Proof. eexists _, _. split_and!; vm_compute; reflexivity. Qed.
