(* ===== verification/Subvol.v ===== *)
(** * Subvolumes and snapshots (nasty-storage/src/subvolume.rs)

    A filesystem is a map from paths to subvolumes, with their extended
    attributes and the backing image of block subvolumes.  The bcachefs tool is
    a parameter: what its subvolume commands do to the map.  Every other system
    call succeeds or fails as the environment says; [list_R] is the text the
    listing prints. *)

From Stdlib Require Import ZArith Lia Ascii String.
From stdpp Require Import base list gmap strings.
From S2P Require Import Prelude.
From S2P Require Import RustStr.
From S2P Require Import Text.
From S2P Require Import RustPath.
From S2P Require Import RustVec.
From S2P Require Import Smb.
From S2P Require Import ShareScope.

Inductive SubvolumeError : Type :=
| FilesystemNotFound (fs : string)
| FilesystemNotMounted (fs : string)
| SvAlreadyExists (name : string)
| SvNotFound (name : string)
| SvAccessDenied
| VolsizeRequired
| BlockFilesystemRequiresBlock
| ReservedProperty (key : string)
| ExistingIncompatible (e : string)
| SvInvalidName (e : string)
| InvalidVolsize (e : string)
| InvalidStoragePolicy (e : string)
| ShrinkNotSupported (current requested : Z)
| ChildrenStuck (e : string)
| LoopDetachFailed (device reason : string)
| SvCommandFailed (e : string)
| SvIo (e : string).

Definition MAX_VOLSIZE_BYTES : Z := 256 * 2 ^ 40.
Definition BLOCK_FILE_NAME : string := "vol.img".
Definition XATTR_NS : string := "user.".
Definition XATTR_NASTY_TYPE : string := "user.nasty.type".
Definition XATTR_NASTY_VOLSIZE : string := "user.nasty.volsize".
Definition XATTR_NASTY_COMPRESSION : string := "user.nasty.compression".
Definition XATTR_NASTY_COMMENT : string := "user.nasty.comment".
Definition XATTR_NASTY_OWNER : string := "user.nasty.owner".
Definition XATTR_NASTY_DIRECT_IO : string := "user.nasty.direct_io".
Definition XATTR_NASTY_BLOCK_FILESYSTEM : string := "trusted.nasty.block_filesystem".
Definition XATTR_NASTY_BLOCK_FILESYSTEM_UUID : string := "trusted.nasty.block_filesystem_uuid".
Definition XATTR_NASTY_PROVISIONING_STATE : string := "trusted.nasty.provisioning_state".
Definition XATTR_NASTY_CLONE_SOURCE : string := "trusted.nasty.clone_source".
Definition NASTY_KEY_PREFIX : string := "nasty.".
Definition BCACHEFS_EFFECTIVE_NS : string := "bcachefs_effective.".
Definition BCACHEFS_NS : string := "bcachefs.".

(** ** Names *)

Definition subvol_path (mount_point name : string) : string := mount_point +:+ "/" +:+ name.
Definition snap_path (mount_point subvol snap : string) : string := mount_point +:+ "/" +:+ subvol +:+ "@" +:+ snap.

Definition check_component (component : string) : result unit SubvolumeError :=
  if String.eqb component "" then Err (SvInvalidName "name must not contain empty path components ('//')")
  else if String.eqb component ".." || String.eqb component "."
  then Err (SvInvalidName "name must not contain '.' or '..' components")
  else if str_contains_char "@" component
  then Err (SvInvalidName "name must not contain '@' (reserved for snapshot syntax)")
  else if existsb is_control (chars component) then Err (SvInvalidName "name must not contain control characters")
  else Ok tt.

Definition validate_subvolume_name (name : string) : result unit SubvolumeError :=
  if String.eqb name "" then Err (SvInvalidName "name is empty")
  else if (200 <? String.length name)%nat then Err (SvInvalidName "name exceeds 200 chars")
  else if starts_with "/" name then Err (SvInvalidName "name must not start with '/'")
  else if starts_with "." name then Err (SvInvalidName "name must not start with '.'")
  else try_each check_component (str_split "/" name).

Definition vm_disk_subvolume_name (name : string) : result string SubvolumeError :=
  _ <-? validate_subvolume_name name ;;
  guard? negb (str_contains_char "/" name) else SvInvalidName "VM disk name must be one path component" ;;
  let nested := "vms/" +:+ name in
  _ <-? validate_subvolume_name nested ;;
  Ok nested.

Definition last_component (name : string) : string := default name (last (str_split "/" name)).

Definition validate_existing_snapshot_name (subvolume snapshot : string) : result unit SubvolumeError :=
  _ <-? validate_subvolume_name subvolume ;;
  if String.eqb snapshot "" then Err (SvInvalidName "snapshot name is empty")
  else if str_contains_char "/" snapshot then Err (SvInvalidName "snapshot name must be one path component")
  else if existsb is_control (chars snapshot) then Err (SvInvalidName "snapshot name must not contain control characters")
  else if (255 <? String.length (last_component subvolume) + 1 + String.length snapshot)%nat
  then Err (SvInvalidName "combined subvolume@snapshot name exceeds 255 bytes")
  else Ok tt.

Definition validate_snapshot_name (subvolume snapshot : string) : result unit SubvolumeError :=
  _ <-? validate_existing_snapshot_name subvolume snapshot ;;
  if (200 <? String.length snapshot)%nat then Err (SvInvalidName "snapshot name exceeds 200 bytes")
  else if starts_with "." snapshot then Err (SvInvalidName "snapshot name must not start with '.'")
  else if str_contains_char "@" snapshot then Err (SvInvalidName "snapshot name must not contain '@'")
  else Ok tt.

(** ** Owners and sizes *)

Definition require_owner (actual required : option string) : result unit SubvolumeError :=
  match required with
  | Some r => if bool_decide (actual = Some r) then Ok tt else Err SvAccessDenied
  | None => Ok tt
  end.

Definition authorize_snapshot_provenance (snapshot_owner parent_owner owner_filter : option string)
    (allow_admin_override : bool) : result unit SubvolumeError :=
  if allow_admin_override then Ok tt
  else
    _ <-? require_owner parent_owner owner_filter ;;
    _ <-? require_owner snapshot_owner owner_filter ;;
    if bool_decide (snapshot_owner = parent_owner) then Ok tt else Err SvAccessDenied.

Definition authorize_orphan_snapshot (snapshot_owner owner_filter : option string) (allow_admin_override : bool)
    : result unit SubvolumeError :=
  if allow_admin_override then Ok tt
  else match owner_filter with Some owner => require_owner snapshot_owner (Some owner) | None => Err SvAccessDenied end.

Definition validate_volsize_bytes (bytes : Z) : result unit SubvolumeError :=
  if bytes =? 0 then Err (InvalidVolsize "volsize must be greater than zero")
  else if MAX_VOLSIZE_BYTES <? bytes
  then Err (InvalidVolsize ("volsize " +:+ fmt_dec bytes +:+ " exceeds maximum " +:+ fmt_dec MAX_VOLSIZE_BYTES +:+ " (256 TiB)"))
  else Ok tt.

Definition validate_grow_only (current requested : Z) : result unit SubvolumeError :=
  if requested <? current then Err (ShrinkNotSupported current requested) else Ok tt.

Definition quota_kib_from_bytes (bytes : Z) : Z := (bytes + 1023) / 1024.
Definition quota_bytes_from_request (bytes : Z) : Z := quota_kib_from_bytes bytes * 1024.

Definition filesystem_capacity_bound (quota_bytes recorded_bytes used_bytes : option Z) : option Z :=
  match omap id [quota_bytes; recorded_bytes] with
  | [] => None
  | x :: xs => Some (Z.max (foldl Z.max x xs) (default 0 used_bytes))
  end.

Definition is_already_detached (err : string) : bool :=
  let lower := to_ascii_lowercase err in str_contains "no such device" lower || str_contains "not in use" lower.

(** ** Storage options *)

Abbreviation Options := (gmap string string).

Definition option_enabled (value : option string) : bool :=
  match value with Some v => bool_decide (v ∈ ["1"; "true"; "yes"; "on"]) | None => false end.

Definition parse_u32 (s : string) : option Z := parse_uint (2 ^ 32 - 1) s.

Definition option_replicas (options : Options) : Z := default 1 ((options !! "data_replicas") ≫= parse_u32).

Definition option_replicas_or (options fallback : Options) : Z :=
  default (option_replicas fallback) ((options !! "data_replicas") ≫= parse_u32).

Definition option_enabled_or (options fallback : Options) : bool :=
  match options !! "erasure_code" with
  | Some value => option_enabled (Some value)
  | None => option_enabled (fallback !! "erasure_code")
  end.

Definition or_insert (k v : string) (m : Options) : Options := match m !! k with Some _ => m | None => <[k := v]> m end.

Definition add_storage_defaults (data_replicas : Z) (erasure_code : bool) (options : Options) : Options :=
  or_insert "erasure_code" (if erasure_code then "1" else "0") (or_insert "data_replicas" (fmt_dec data_replicas) options).

Definition validate_storage_policy (data_replicas : Z) (erasure_code : bool) : result unit SubvolumeError :=
  if erasure_code && negb ((2 <=? data_replicas) && (data_replicas <=? 3))
  then Err (InvalidStoragePolicy ("erasure coding requires 2 or 3 data replicas (got " +:+ fmt_dec data_replicas +:+ ")"))
  else Ok tt.

Definition compression_file_option (value : string) : string * bool :=
  if String.eqb value "inherit" || String.eqb value "-" then ("-", true)
  else if String.eqb value "none" || String.eqb value "" then ("none", true)
  else (value, false).

Inductive SubvolumeErasureCode : Type := EcInherit | EcEnabled | EcDisabled.

Definition file_option (e : SubvolumeErasureCode) : string :=
  match e with EcInherit => "--erasure_code=-" | EcEnabled => "--erasure_code=1" | EcDisabled => "--erasure_code=0" end.

Inductive BlockFilesystem : Type := Ext3 | Ext4 | Xfs.

#[export] Instance BlockFilesystem_eq_dec : EqDecision BlockFilesystem.
Proof. solve_decision. Defined.

Definition block_fs_str (fs : BlockFilesystem) : string := match fs with Ext3 => "ext3" | Ext4 => "ext4" | Xfs => "xfs" end.
Definition mkfs_program (fs : BlockFilesystem) : string :=
  match fs with Ext3 => "mkfs.ext3" | Ext4 => "mkfs.ext4" | Xfs => "mkfs.xfs" end.
Definition parse_block_fs (s : string) : option BlockFilesystem :=
  if String.eqb s "ext3" then Some Ext3 else if String.eqb s "ext4" then Some Ext4
  else if String.eqb s "xfs" then Some Xfs else None.

(** ** The state *)

(** A subvolume or snapshot.  [nd_data] stands for its files, [nd_image] is the
    length of vol.img. *)
Record Node : Type := mkNode {
  nd_identity : string;
  nd_subvolid : option Z;
  nd_ro : bool;
  nd_parent : option string;
  nd_xattrs : gmap string string;
  nd_image : option Z;
  nd_data : string;
  nd_mode : Z;
}.

Abbreviation Vols := (gmap string Node).

(** The subvolume commands of bcachefs; a failing one reports an error. *)
Record Bcachefs : Type := mkBcachefs {
  bc_create : string -> Vols -> Vols * option string;
  bc_delete : string -> Vols -> Vols * option string;
  bc_snapshot : bool -> string -> string -> Vols -> Vols * option string;
  bc_set_file_option : string -> string -> Vols -> Vols * option string;
}.

Record VolWorld : Type := mkVolWorld {
  vw_vols : Vols;
  vw_loops : gmap string string;     (** loop device by backing file *)
  vw_quota : gmap Z Z;               (** hard limit in KiB by project *)
  vw_projid : list string;           (** the lines of /etc/projid *)
  vw_made : list string;             (** the plain directories made by requests *)
}.

Record FsInfo : Type := mkFsInfo {
  fi_uuid : string;
  fi_mount_point : option string;
  fi_data_replicas : option Z;
  fi_erasure_code : option bool;
  fi_encrypted : option bool;
}.

Record VolEnv : Type := mkVolEnv {
  ve_tool : Bcachefs;
  ve_fs : string -> option FsInfo;
  ve_list : option string;                         (** whether the listing fails *)
  ve_list_R : result string string;
  ve_used : gmap Z Z;                              (** bytes used, by project *)
  ve_image_used : string -> option Z;
  ve_dir : string -> bool;                         (** plain directories and files *)
  ve_dir_xattrs : string -> gmap string string;
  ve_setxattr : string -> string -> option string;
  ve_removexattr : string -> string -> option string;
  ve_losetup : result string string;
  ve_losetup_list : option string;                 (** whether losetup --list fails *)
  ve_canonicalize : string -> option string;
  ve_detach : option string;
  ve_flush : option string;
  ve_truncate : option string;
  ve_set_capacity : option string;
  ve_chmod : option string;
  ve_mkdir : option (nat * string);                (** how many directories are made before the error *)
  ve_parent_dir : result bool string;              (** whether the parent is a real directory *)
  ve_open_image : option string;
  ve_set_len : option string;
  ve_mkfs : option string;
  ve_blkid_type : result string string;
  ve_blkid_uuid : result string string;
  ve_current_project : result (option Z) string;
  ve_setproject : option string;
  ve_quota_limit : option string;
  ve_projid_write : bool;
  ve_project_id_for : string -> string -> Z;
  ve_now : Z;
}.

Abbreviation vol A := (stm VolWorld SubvolumeError A).

Definition set_vols (f : Vols -> Vols) : vol unit :=
  m_modify (fun w => mkVolWorld (f (vw_vols w)) (vw_loops w) (vw_quota w) (vw_projid w) (vw_made w)).

Definition command (e : option string) : result unit SubvolumeError :=
  match e with Some e => Err (SvCommandFailed e) | None => Ok tt end.

(** A command of the tool; the error is returned. *)
Definition run_tool (f : Vols -> Vols * option string) : vol (option string) := fun w =>
  let '(v, e) := f (vw_vols w) in (mkVolWorld v (vw_loops w) (vw_quota w) (vw_projid w) (vw_made w), Ok e).

Definition tool (f : Vols -> Vols * option string) : vol unit :=
  e <~ run_tool f ;; m_lift (command e).

Definition with_xattrs (f : gmap string string -> gmap string string) (n : Node) : Node :=
  mkNode (nd_identity n) (nd_subvolid n) (nd_ro n) (nd_parent n) (f (nd_xattrs n)) (nd_image n) (nd_data n) (nd_mode n).

Definition with_image (i : option Z) (n : Node) : Node :=
  mkNode (nd_identity n) (nd_subvolid n) (nd_ro n) (nd_parent n) (nd_xattrs n) i (nd_data n) (nd_mode n).

Definition with_mode (m : Z) (n : Node) : Node :=
  mkNode (nd_identity n) (nd_subvolid n) (nd_ro n) (nd_parent n) (nd_xattrs n) (nd_image n) (nd_data n) m.

Definition change (path : string) (f : Node -> Node) : vol unit := set_vols (alter f path).

(** [xattr::set], with the message put before an error. *)
Definition set_xattr (env : VolEnv) (what path key value : string) : vol unit :=
  match ve_setxattr env path key with
  | Some e => m_throw (SvCommandFailed (what +:+ e))
  | None => change path (with_xattrs <[key := value]>)
  end.

Definition chmod (env : VolEnv) (path : string) (mode : Z) : vol (option string) :=
  match ve_chmod env with
  | Some e => m_ret (Some e)
  | None => change path (with_mode mode) ;;; m_ret None
  end.

(** ** Reading *)

Definition xattrs_at (env : VolEnv) (v : Vols) (path : string) : gmap string string :=
  match v !! path with Some n => nd_xattrs n | None => ve_dir_xattrs env path end.

Definition path_exists (env : VolEnv) (w : VolWorld) (path : string) : bool :=
  match vw_vols w !! path with Some _ => true | None => ve_dir env path || bool_decide (path ∈ vw_made w) end.

Record SubvolumeMeta : Type := mkSubvolumeMeta {
  mt_type : SubvolumeType;
  mt_volsize_bytes : option Z;
  mt_compression : option string;
  mt_comments : option string;
  mt_owner : option string;
  mt_direct_io : bool;
  mt_block_filesystem : option BlockFilesystem;
  mt_block_filesystem_uuid : option string;
}.

Definition image_at (v : Vols) (path : string) : option Z := (v !! path) ≫= nd_image.

Definition meta_of (x : gmap string string) (has_image : bool) : SubvolumeMeta :=
  let t := match x !! XATTR_NASTY_TYPE with
           | Some "block" => SvBlock
           | Some "filesystem" => SvFilesystem
           | _ => if has_image then SvBlock else SvFilesystem
           end in
  mkSubvolumeMeta t ((x !! XATTR_NASTY_VOLSIZE) ≫= parse_uint (2 ^ 64 - 1)) (x !! XATTR_NASTY_COMPRESSION)
    (x !! XATTR_NASTY_COMMENT) (x !! XATTR_NASTY_OWNER) (bool_decide (x !! XATTR_NASTY_DIRECT_IO = Some "true"))
    ((x !! XATTR_NASTY_BLOCK_FILESYSTEM) ≫= parse_block_fs) (x !! XATTR_NASTY_BLOCK_FILESYSTEM_UUID).

Definition read_meta_xattrs (env : VolEnv) (v : Vols) (path : string) : SubvolumeMeta :=
  meta_of (xattrs_at env v path) (match image_at v path with Some _ => true | None => false end).

(** The attributes under a prefix, by the rest of their names. *)
Definition under (prefix : string) (x : gmap string string) : Options :=
  list_to_map (omap (fun kv : string * string => match strip_prefix prefix kv.1 with Some k => Some (k, kv.2) | None => None end) (map_to_list x)).

Record SubvolumeAttrs : Type := mkSubvolumeAttrs {
  at_meta : SubvolumeMeta;
  at_properties : Options;
  at_bcachefs_options : Options;
  at_bcachefs_overrides : Options;
}.

Definition read_all_xattrs (env : VolEnv) (v : Vols) (path : string) : SubvolumeAttrs :=
  let x := xattrs_at env v path in
  mkSubvolumeAttrs (read_meta_xattrs env v path)
    (filter (fun kv => starts_with NASTY_KEY_PREFIX kv.1 = false) (under XATTR_NS x))
    (under BCACHEFS_EFFECTIVE_NS x) (under BCACHEFS_NS x).

(** ** Listing *)

Record BcachefsListEntry : Type := mkBcachefsListEntry {
  le_path : string;
  le_subvolid : option Z;
  le_flags : option string;
  le_snapshot_parent : option string;
}.

Record BcachefsInfo : Type := mkBcachefsInfo {
  bi_subvol_paths : gset string;
  bi_subvolume_ids : gmap string Z;
  bi_snapshot_flags : gmap string bool;
  bi_snapshot_parents : gmap string string;
}.

Definition add_entry (info : BcachefsInfo) (entry : BcachefsListEntry) : BcachefsInfo :=
  let path := le_path entry in
  let ids := match le_subvolid entry with Some i => <[path := i]> (bi_subvolume_ids info) | None => bi_subvolume_ids info end in
  let is_ro := bool_decide (le_flags entry = Some "ro") in
  match le_snapshot_parent entry with
  | Some parent =>
      let parents := <[path := default parent (strip_prefix "/" parent)]> (bi_snapshot_parents info) in
      if is_ro
      then mkBcachefsInfo (bi_subvol_paths info) ids (<[path := true]> (bi_snapshot_flags info)) parents
      else mkBcachefsInfo ({[path]} ∪ bi_subvol_paths info) ids (bi_snapshot_flags info) parents
  | None => mkBcachefsInfo ({[path]} ∪ bi_subvol_paths info) ids (bi_snapshot_flags info) (bi_snapshot_parents info)
  end.

Definition build_bcachefs_info (entries : list BcachefsListEntry) : BcachefsInfo :=
  foldl add_entry (mkBcachefsInfo ∅ ∅ ∅ ∅) entries.

(** What the tool lists: the subvolumes below the mount point. *)
Definition list_entry (mount_point : string) (kv : string * Node) : option BcachefsListEntry :=
  (fun rel => mkBcachefsListEntry rel (nd_subvolid kv.2) (if nd_ro kv.2 then Some "ro" else None) (nd_parent kv.2))
  <$> strip_prefix (mount_point +:+ "/") kv.1.

Definition tool_entries (v : Vols) (mount_point : string) : list BcachefsListEntry :=
  omap (list_entry mount_point) (map_to_list v).

Definition bcachefs_list_all_strict (env : VolEnv) (v : Vols) (mount_point : string) : result BcachefsInfo SubvolumeError :=
  match ve_list env with
  | Some e => Err (SvCommandFailed e)
  | None => Ok (build_bcachefs_info (tool_entries v mount_point))
  end.

Record Subvolume : Type := mkSubvolume {
  sb_name : string;
  sb_filesystem : string;
  sb_type : SubvolumeType;
  sb_path : string;
  sb_used_bytes : option Z;
  sb_quota_bytes : option Z;
  sb_compression : option string;
  sb_comments : option string;
  sb_volsize_bytes : option Z;
  sb_block_device : option string;
  sb_block_volume_id : option BlockVolumeId;
  sb_block_filesystem : option BlockFilesystem;
  sb_block_filesystem_uuid : option string;
  sb_snapshots : list string;
  sb_owner : option string;
  sb_properties : Options;
  sb_parent : option string;
  sb_direct_io : bool;
  sb_bcachefs_options : Options;
  sb_bcachefs_overrides : Options;
  sb_bcachefs_inherited_options : Options;
  sb_created : bool;
}.

Definition parent_path (path : string) : string := str_join "/" (removelast (str_split "/" path)).

Definition listed_path (p : string) : bool :=
  negb (String.eqb p "") && negb (str_contains_char "@" p) && negb (starts_with ".nasty/" p) && negb (String.eqb p ".nasty").

Definition snapshots_of (env : VolEnv) (v : Vols) (mount_point : string) (info : BcachefsInfo)
    (owner_filter : option string) (name : string) : list string :=
  omap (fun kv => match strip_prefix (name +:+ "@") kv.1 with
                  | Some snap =>
                      if str_contains_char "/" snap then None
                      else match owner_filter with
                           | Some owner => if bool_decide (mt_owner (read_meta_xattrs env v (snap_path mount_point name snap)) = Some owner)
                                           then Some snap else None
                           | None => Some snap
                           end
                  | None => None
                  end) (map_to_list (bi_snapshot_flags info)).

Definition size_and_quota (env : VolEnv) (w : VolWorld) (fs_name name path : string) (t : SubvolumeType) : option Z * option Z :=
  match t with
  | SvBlock => (ve_image_used env path, None)
  | SvFilesystem =>
      let projid := ve_project_id_for env fs_name name in
      match ve_used env !! projid with
      | Some used => (Some used, let hard := default 0 (vw_quota w !! projid) * 1024 in if 0 <? hard then Some hard else None)
      | None => (None, None)
      end
  end.

(** What losetup --list prints of the loop devices: name and backing file. *)
Definition losetup_output (loops : gmap string string) : string :=
  foldr (fun kv : string * string => fun rest => kv.2 +:+ " " +:+ kv.1 +:+ nl +:+ rest) "" (map_to_list loops).

Definition losetup_entry (line : string) : option (string * string) :=
  match split_whitespace line with dev :: back :: _ => Some (back, dev) | _ => None end.

(** Backing file to device; a later line replaces an earlier one. *)
Definition build_losetup_map (env : VolEnv) (w : VolWorld) : gmap string string :=
  match ve_losetup_list env with
  | Some _ => ∅
  | None => foldl (fun m kv => <[kv.1 := kv.2]> m) ∅ (omap losetup_entry (str_lines (losetup_output (vw_loops w))))
  end.

Definition find_loop_device_from_map (env : VolEnv) (losetup_map : gmap string string) (file_path : string) : option string :=
  ve_canonicalize env file_path ≫= fun canonical => losetup_map !! canonical.

Definition list_one (env : VolEnv) (w : VolWorld) (fs_name mount_point : string) (fs : FsInfo) (info : BcachefsInfo)
    (owner_filter : option string) (name : string) : option Subvolume :=
  let v := vw_vols w in
  let path := subvol_path mount_point name in
  if bool_decide (xattrs_at env v path !! XATTR_NASTY_PROVISIONING_STATE = Some "creating") then None
  else
    let attrs := read_all_xattrs env v path in
    let meta := at_meta attrs in
    let inherited := add_storage_defaults (default 1 (fi_data_replicas fs)) (default false (fi_erasure_code fs))
                       (at_bcachefs_options (read_all_xattrs env v (parent_path path))) in
    match require_owner (mt_owner meta) owner_filter with
    | Err _ => None
    | Ok _ =>
        let '(size, quota) := size_and_quota env w fs_name name path (mt_type meta) in
        let img := path +:+ "/" +:+ BLOCK_FILE_NAME in
        let on_block {A} (x : option A) := match mt_type meta with SvBlock => x | SvFilesystem => None end in
        Some (mkSubvolume name fs_name (mt_type meta) path size quota (mt_compression meta) (mt_comments meta)
                (mt_volsize_bytes meta) (on_block (find_loop_device_from_map env (build_losetup_map env w) img))
                (on_block (mkBlockVolumeId (fi_uuid fs) <$> bi_subvolume_ids info !! name))
                (mt_block_filesystem meta) (mt_block_filesystem_uuid meta)
                (snapshots_of env v mount_point info owner_filter name) (mt_owner meta) (at_properties attrs)
                (bi_snapshot_parents info !! name) (mt_direct_io meta) (at_bcachefs_options attrs)
                (at_bcachefs_overrides attrs) inherited false)
    end.

Definition fs_mount_point (env : VolEnv) (fs_name : string) : result string SubvolumeError :=
  fs <-? ok_or (ve_fs env fs_name) (FilesystemNotFound fs_name) ;;
  ok_or (fi_mount_point fs) (FilesystemNotMounted fs_name).

Definition sv_list (env : VolEnv) (fs_name : string) (owner_filter : option string) (w : VolWorld)
    : result (list Subvolume) SubvolumeError :=
  fs <-? ok_or (ve_fs env fs_name) (FilesystemNotFound fs_name) ;;
  mount_point <-? ok_or (fi_mount_point fs) (FilesystemNotMounted fs_name) ;;
  info <-? bcachefs_list_all_strict env (vw_vols w) mount_point ;;
  Ok (omap (list_one env w fs_name mount_point fs info owner_filter) (List.filter listed_path (elements (bi_subvol_paths info)))).

Definition sv_get (env : VolEnv) (fs_name name : string) (owner_filter : option string) : vol Subvolume := fun w =>
  (w, l <-? sv_list env fs_name None w ;;
      s <-? ok_or (find_first (fun s => String.eqb (sb_name s) name) l) (SvNotFound name) ;;
      _ <-? require_owner (sb_owner s) owner_filter ;;
      Ok s).

(** The listing with [-R], by lines. *)
Definition child_lines (parent_name output : string) : list string :=
  omap (fun l => let path := default "" (head (split_whitespace l)) in
                 if starts_with (parent_name +:+ "/") path && negb (String.eqb path parent_name) then Some path else None)
    (str_lines output).

Definition find_child_subvolumes (env : VolEnv) (parent_name : string) : result (list string) SubvolumeError :=
  match ve_list_R env with
  | Err e => Err (SvCommandFailed e)
  | Ok output => Ok (sort_by String.leb (child_lines parent_name output))
  end.

(** ** Project quotas *)

Definition register_project (env : VolEnv) (projid : Z) : vol unit :=
  let name := "nasty-" +:+ fmt_dec projid in
  m_modify (fun w =>
    if existsb (fun l => starts_with (name +:+ ":") l || ends_with (":" +:+ fmt_dec projid) l) (vw_projid w) then w
    else if ve_projid_write env
    then mkVolWorld (vw_vols w) (vw_loops w) (vw_quota w) (vw_projid w ++ [name +:+ ":" +:+ fmt_dec projid]) (vw_made w)
    else w).

Definition unregister_project (env : VolEnv) (projid : Z) : vol unit :=
  m_modify (fun w =>
    if ve_projid_write env
    then mkVolWorld (vw_vols w) (vw_loops w) (vw_quota w)
           (List.filter (fun l => negb (ends_with (":" +:+ fmt_dec projid) l)) (vw_projid w)) (vw_made w)
    else w).

Definition set_project_quota_limit (env : VolEnv) (projid bytes : Z) : vol unit :=
  match ve_quota_limit env with
  | Some e => m_throw (SvCommandFailed e)
  | None => m_modify (fun w => mkVolWorld (vw_vols w) (vw_loops w) (<[projid := quota_kib_from_bytes bytes]> (vw_quota w)) (vw_projid w) (vw_made w))
  end.

(** Best effort: no error is returned. *)
Definition set_project_quota (env : VolEnv) (projid bytes : Z) : vol unit :=
  register_project env projid ;;;
  match ve_current_project env with
  | Err _ => m_ret tt
  | Ok current =>
      let limit := m_ignore (set_project_quota_limit env projid bytes) in
      if bool_decide (current = Some projid) then limit
      else match ve_setproject env with Some _ => m_ret tt | None => limit end
  end.

(** ** Loop devices *)

Definition loop_attach (env : VolEnv) (img : string) : vol string :=
  match ve_losetup env with
  | Err e => m_throw (SvCommandFailed e)
  | Ok device =>
      m_modify (fun w => mkVolWorld (vw_vols w) (<[img := trim device]> (vw_loops w)) (vw_quota w) (vw_projid w) (vw_made w)) ;;;
      m_ret device
  end.

Definition loop_detach (env : VolEnv) (device : string) : vol (option string) :=
  match ve_detach env with
  | Some e => m_ret (Some e)
  | None =>
      m_modify (fun w => mkVolWorld (vw_vols w) (filter (fun kv => kv.2 <> device) (vw_loops w)) (vw_quota w) (vw_projid w) (vw_made w)) ;;;
      m_ret None
  end.

(** ** Creation *)

Record CreateSubvolumeRequest : Type := mkCreateSubvolume {
  cv_filesystem : string;
  cv_name : string;
  cv_type : SubvolumeType;
  cv_volsize_bytes : option Z;
  cv_compression : option string;
  cv_comments : option string;
  cv_direct_io : option bool;
  cv_foreground_target : option string;
  cv_background_target : option string;
  cv_promote_target : option string;
  cv_metadata_target : option string;
  cv_data_replicas : option Z;
  cv_block_filesystem : option BlockFilesystem;
}.

Definition is_block (t : SubvolumeType) : bool := bool_decide (t = SvBlock).

(** The checks before the lock, and the capacity asked for. *)
Definition check_create_request (req : CreateSubvolumeRequest) (allow_nested_block : bool) : result (option Z) SubvolumeError :=
  _ <-? validate_subvolume_name (cv_name req) ;;
  guard? negb (is_block (cv_type req) && bool_decide (cv_volsize_bytes req = None)) else VolsizeRequired ;;
  guard? negb (is_block (cv_type req) && str_contains_char "/" (cv_name req) && negb allow_nested_block)
    else SvInvalidName "nested block subvolumes are not supported" ;;
  guard? negb (negb (is_block (cv_type req)) && negb (bool_decide (cv_block_filesystem req = None)))
    else BlockFilesystemRequiresBlock ;;
  _ <-? match cv_volsize_bytes req with Some bytes => validate_volsize_bytes bytes | None => Ok tt end ;;
  Ok ((if is_block (cv_type req) then id else quota_bytes_from_request) <$> cv_volsize_bytes req).

(** The directories that lead to [path], the topmost first. *)
Definition leading (path : string) : list string :=
  let pieces := str_split "/" path in (fun k => str_join "/" (take k pieces)) <$> seq 2 (length pieces - 1).

Definition add_dirs (l : list string) : vol unit :=
  m_modify (fun w => mkVolWorld (vw_vols w) (vw_loops w) (vw_quota w) (vw_projid w) (vw_made w ++ l)).

(** [create_dir_all]: what is missing, from the top; on a failure some of it stays. *)
Definition create_dir_all (env : VolEnv) (path : string) : vol unit :=
  w <~ m_get ;;
  let missing := List.filter (fun d => negb (path_exists env w d)) (leading path) in
  match ve_mkdir env with
  | None => add_dirs missing
  | Some (k, e) => add_dirs (take k missing) ;;; m_throw (SvIo e)
  end.

(** The directory of VM disks. *)
Definition vm_namespace (env : VolEnv) (path : string) : vol unit :=
  w <~ m_get ;;
  (if path_exists env w (parent_path path) then m_ret tt
   else match ve_mkdir env with Some (_, e) => m_throw (SvIo e) | None => add_dirs [parent_path path] end) ;;;
  match ve_parent_dir env with
  | Err e => m_throw (SvIo e)
  | Ok true => m_ret tt
  | Ok false => m_throw (SvInvalidName "VM storage namespace must be a real directory")
  end.

Definition empty_or_none (o : option string) : bool := match o with Some s => String.eqb s "" | None => true end.

(** What [create] does with a destination that exists; the messages of a
    mismatch are shortened. *)
Definition existing_destination (env : VolEnv) (req : CreateSubvolumeRequest) (owner : option string)
    (effective_volsize_bytes : option Z) (path : string) : vol Subvolume :=
  w <~ m_get ;;
  if bool_decide (xattrs_at env (vw_vols w) path !! XATTR_NASTY_PROVISIONING_STATE = Some "creating")
  then m_throw (ExistingIncompatible "a previous create was interrupted before provisioning completed")
  else
    existing <~ sv_get env (cv_filesystem req) (cv_name req) owner ;;
    if negb (bool_decide (sb_type existing = cv_type req)) then m_throw (ExistingIncompatible "type")
    else if match effective_volsize_bytes with Some e => negb (bool_decide (sb_volsize_bytes existing = Some e)) | None => false end
    then m_throw (ExistingIncompatible "capacity")
    else if match cv_block_filesystem req with
            | Some e => negb (bool_decide (sb_block_filesystem existing = Some e)) || empty_or_none (sb_block_filesystem_uuid existing)
            | None => false
            end
    then m_throw (ExistingIncompatible "block filesystem")
    else
      (if is_block (sb_type existing) then m_ret tt
       else e <~ chmod env path 511 ;;
            m_lift (match e with Some e => Err (SvCommandFailed ("chmod 0777 " +:+ path +:+ " during idempotent create: " +:+ e))
                            | None => Ok tt end)) ;;;
      m_ret existing.

Definition quarantine_failed_create (env : VolEnv) (loop_device : option string) : vol unit :=
  match loop_device with
  | Some device => loop_detach env device ;;; m_ret tt
  | None => m_ret tt
  end.

(** On an error of [m], quarantine a block subvolume. *)
Definition or_quarantine {A} (env : VolEnv) (block : bool) (loop_device : option string) (m : vol A) : vol A := fun w =>
  match m w with
  | (w', Err e) => ((if block then fst (quarantine_failed_create env loop_device w') else w'), Err e)
  | r => r
  end.

(** Options set at creation; failures are ignored. *)
Definition creation_options (req : CreateSubvolumeRequest) : list string :=
  omap id
    [(fun c => "--compression=" +:+ c) <$> cv_compression req;
     (fun t => "--foreground_target=" +:+ t) <$> cv_foreground_target req;
     (fun t => "--background_target=" +:+ t) <$> cv_background_target req;
     (fun t => "--promote_target=" +:+ t) <$> cv_promote_target req;
     (fun t => "--metadata_target=" +:+ t) <$> cv_metadata_target req;
     (fun n => "--data_replicas=" +:+ fmt_dec n) <$> cv_data_replicas req].

Fixpoint each {A} (f : A -> vol unit) (l : list A) : vol unit :=
  match l with
  | [] => m_ret tt
  | x :: l' => f x ;;; each f l'
  end.

Definition initialize_block_filesystem (env : VolEnv) (loop_device : string) (filesystem : BlockFilesystem) : vol string :=
  m_lift (command (ve_mkfs env)) ;;;
  m_lift (command (ve_flush env)) ;;;
  m_lift (match ve_blkid_type env with
          | Err e => Err (SvCommandFailed e)
          | Ok detected => if String.eqb (trim detected) (block_fs_str filesystem) then Ok tt
                           else Err (SvCommandFailed ("filesystem verification failed for " +:+ loop_device))
          end) ;;;
  m_lift (match ve_blkid_uuid env with
          | Err e => Err (SvCommandFailed e)
          | Ok uuid => if String.eqb (trim uuid) "" then Err (SvCommandFailed ("filesystem verification returned no UUID for " +:+ loop_device))
                       else Ok (trim uuid)
          end).

(** The image, its loop device and the filesystem in it. *)
Definition create_image (env : VolEnv) (req : CreateSubvolumeRequest) (path : string) (volsize : Z)
    : vol (string * option string) :=
  let img := path +:+ "/" +:+ BLOCK_FILE_NAME in
  or_quarantine env true None
    (match ve_open_image env with
     | Some e => m_throw (SvCommandFailed ("create block image " +:+ img +:+ ": " +:+ e))
     | None => change path (with_image (Some 0))
     end ;;;
     match ve_set_len env with
     | Some e => m_throw (SvCommandFailed ("resize block image " +:+ img +:+ ": " +:+ e))
     | None => change path (with_image (Some volsize))
     end) ;;;
  (if match ve_fs env (cv_filesystem req) with Some fs => bool_decide (fi_encrypted fs = Some true) | None => false end
   then m_ret tt
   else run_tool (bc_set_file_option (ve_tool env) "--nocow" img) ;;; m_ret tt) ;;;
  device <~ or_quarantine env true None
    (d <~ loop_attach env img ;;
     if String.eqb (trim d) "" then m_throw (SvCommandFailed "losetup returned an empty loop device path") else m_ret (trim d)) ;;
  match cv_block_filesystem req with
  | Some filesystem =>
      uuid <~ or_quarantine env true (Some device) (initialize_block_filesystem env device filesystem) ;;
      m_ret (device, Some uuid)
  | None => m_ret (device, None)
  end.

Definition write_meta_xattrs (env : VolEnv) (path : string) (meta : SubvolumeMeta) : vol unit :=
  let opt {A} (o : option A) (k what : string) (f : A -> string) : vol unit :=
    match o with Some x => set_xattr env what path k (f x) | None => m_ret tt end in
  set_xattr env "setxattr type: " path XATTR_NASTY_TYPE (if is_block (mt_type meta) then "block" else "filesystem") ;;;
  opt (mt_volsize_bytes meta) XATTR_NASTY_VOLSIZE "setxattr volsize: " fmt_dec ;;;
  opt (mt_compression meta) XATTR_NASTY_COMPRESSION "setxattr compression: " id ;;;
  opt (mt_comments meta) XATTR_NASTY_COMMENT "setxattr comment: " id ;;;
  opt (mt_owner meta) XATTR_NASTY_OWNER "setxattr owner: " id ;;;
  opt (if mt_direct_io meta then Some "true" else None) XATTR_NASTY_DIRECT_IO "setxattr direct_io: " id ;;;
  opt (mt_block_filesystem meta) XATTR_NASTY_BLOCK_FILESYSTEM "setxattr block filesystem: " block_fs_str ;;;
  opt (mt_block_filesystem_uuid meta) XATTR_NASTY_BLOCK_FILESYSTEM_UUID "setxattr block filesystem UUID: " id.

(** A destination that is not there yet. *)
Definition create_fresh (env : VolEnv) (req : CreateSubvolumeRequest) (owner : option string)
    (effective_volsize_bytes : option Z) (path : string) : vol Subvolume :=
  let block := is_block (cv_type req) in
  w <~ m_get ;;
  (if path_exists env w (parent_path path) then m_ret tt else create_dir_all env (parent_path path)) ;;;
  tool (bc_create (ve_tool env) path) ;;;
  or_quarantine env block None
    (e <~ chmod env path 448 ;;
     m_lift (match e with Some e => Err (SvCommandFailed ("chmod 0700 " +:+ path +:+ ": " +:+ e)) | None => Ok tt end)) ;;;
  or_quarantine env block None
    (set_xattr env ("set provisioning state on " +:+ path +:+ ": ") path XATTR_NASTY_PROVISIONING_STATE "creating") ;;;
  each (fun o => run_tool (bc_set_file_option (ve_tool env) o path) ;;; m_ret tt) (creation_options req) ;;;
  (if block then m_ret tt
   else set_project_quota env (ve_project_id_for env (cv_filesystem req) (cv_name req)) (default 0 effective_volsize_bytes)) ;;;
  image <~ (match cv_type req, effective_volsize_bytes with
            | SvBlock, Some volsize => r <~ create_image env req path volsize ;; m_ret (Some r)
            | _, _ => m_ret None
            end) ;;
  let device := fst <$> image in
  or_quarantine env block device
    (write_meta_xattrs env path
       (mkSubvolumeMeta (cv_type req) effective_volsize_bytes (cv_compression req) (cv_comments req) owner
          (default false (cv_direct_io req)) (cv_block_filesystem req) (image ≫= snd))) ;;;
  or_quarantine env block device
    (set_xattr env ("mark provisioning complete on " +:+ path +:+ ": ") path XATTR_NASTY_PROVISIONING_STATE "ready") ;;;
  (if block then m_ret tt else chmod env path 511 ;;; m_ret tt) ;;;
  sv_get env (cv_filesystem req) (cv_name req) None.

Definition created (s : Subvolume) : Subvolume :=
  mkSubvolume (sb_name s) (sb_filesystem s) (sb_type s) (sb_path s) (sb_used_bytes s) (sb_quota_bytes s) (sb_compression s)
    (sb_comments s) (sb_volsize_bytes s) (sb_block_device s) (sb_block_volume_id s) (sb_block_filesystem s)
    (sb_block_filesystem_uuid s) (sb_snapshots s) (sb_owner s) (sb_properties s) (sb_parent s) (sb_direct_io s)
    (sb_bcachefs_options s) (sb_bcachefs_overrides s) (sb_bcachefs_inherited_options s) true.

Definition create_inner (env : VolEnv) (req : CreateSubvolumeRequest) (owner : option string) (allow_nested_block : bool)
    : vol Subvolume :=
  effective_volsize_bytes <~ m_lift (check_create_request req allow_nested_block) ;;
  mount_point <~ m_lift (fs_mount_point env (cv_filesystem req)) ;;
  let path := subvol_path mount_point (cv_name req) in
  (if allow_nested_block then vm_namespace env path else m_ret tt) ;;;
  w <~ m_get ;;
  if path_exists env w path then existing_destination env req owner effective_volsize_bytes path
  else s <~ create_fresh env req owner effective_volsize_bytes path ;; m_ret (created s).

Definition sv_create (env : VolEnv) (req : CreateSubvolumeRequest) (owner : option string) : vol Subvolume :=
  create_inner env req owner false.

Definition create_vm_disk (env : VolEnv) (filesystem name : string) (volsize_bytes : Z) (owner : option string) : vol Subvolume :=
  name <~ m_lift (vm_disk_subvolume_name name) ;;
  w <~ m_get ;;
  m_lift (match (sv_get env filesystem "vms" owner w).2 with Ok _ | Err (SvNotFound _) => Ok tt | Err e => Err e end) ;;;
  create_inner env
    (mkCreateSubvolume filesystem name SvBlock (Some volsize_bytes) None (Some "Virtual machine disk") None None None None None
       None None) owner true.

(** ** Changes to a subvolume *)

Definition sv_delete (env : VolEnv) (filesystem name : string) (owner_filter : option string) : vol unit :=
  subvol <~ sv_get env filesystem name owner_filter ;;
  mount_point <~ m_lift (fs_mount_point env filesystem) ;;
  children <~ m_lift (find_child_subvolumes env name) ;;
  match children with
  | _ :: _ => m_throw (ChildrenStuck (str_join "; " ((fun c => c +:+ " (delete separately)") <$> children)))
  | [] =>
      (match sb_type subvol, sb_block_device subvol with
       | SvBlock, Some loop_dev =>
           e <~ loop_detach env loop_dev ;;
           match e with
           | Some e => if is_already_detached e then m_ret tt else m_throw (LoopDetachFailed loop_dev e)
           | None => m_ret tt
           end
       | _, _ => m_ret tt
       end) ;;;
      tool (bc_delete (ve_tool env) (subvol_path mount_point name)) ;;;
      (if is_block (sb_type subvol) then m_ret tt else unregister_project env (ve_project_id_for env filesystem name))
  end.

Definition sv_attach (env : VolEnv) (filesystem name : string) (owner_filter : option string) : vol Subvolume :=
  subvol <~ sv_get env filesystem name owner_filter ;;
  if negb (is_block (sb_type subvol)) then m_throw (SvCommandFailed "only block subvolumes can be attached")
  else
    match sb_block_device subvol with
    | Some _ => m_ret subvol
    | None => loop_attach env (sb_path subvol +:+ "/" +:+ BLOCK_FILE_NAME) ;;; sv_get env filesystem name owner_filter
    end.

Definition sv_detach (env : VolEnv) (filesystem name : string) (owner_filter : option string) : vol Subvolume :=
  subvol <~ sv_get env filesystem name owner_filter ;;
  (match sb_block_device subvol with
   | Some loop_dev => e <~ loop_detach env loop_dev ;; m_lift (command e)
   | None => m_ret tt
   end) ;;;
  sv_get env filesystem name owner_filter.

(** The new capacity of the image, or of the quota. *)
Definition resize_block (env : VolEnv) (subvol : Subvolume) (volsize_bytes : Z) : vol Z :=
  w <~ m_get ;;
  current <~ m_lift (ok_or (image_at (vw_vols w) (sb_path subvol)) (SvCommandFailed "stat block image")) ;;
  m_lift (validate_grow_only current volsize_bytes) ;;;
  match ve_truncate env with
  | Some e => m_throw (SvCommandFailed e)
  | None => change (sb_path subvol) (with_image (Some volsize_bytes))
  end ;;;
  m_lift (match sb_block_device subvol with Some _ => command (ve_set_capacity env) | None => Ok tt end) ;;;
  m_ret volsize_bytes.

Definition resize_filesystem (env : VolEnv) (filesystem name : string) (subvol : Subvolume) (volsize_bytes : Z) : vol Z :=
  let requested := quota_bytes_from_request volsize_bytes in
  bound <~ m_lift (ok_or (filesystem_capacity_bound (sb_quota_bytes subvol) (sb_volsize_bytes subvol) (sb_used_bytes subvol))
                     (InvalidVolsize "current filesystem capacity is unavailable; refusing resize")) ;;
  m_lift (validate_grow_only bound requested) ;;;
  m_lift (fs_mount_point env filesystem) ;;;
  set_project_quota_limit env (ve_project_id_for env filesystem name) requested ;;;
  m_ret requested.

Definition sv_resize (env : VolEnv) (filesystem name : string) (volsize_bytes : Z) (owner_filter : option string) : vol Subvolume :=
  m_lift (validate_volsize_bytes volsize_bytes) ;;;
  subvol <~ sv_get env filesystem name owner_filter ;;
  effective <~ (match sb_type subvol with
                | SvBlock => resize_block env subvol volsize_bytes
                | SvFilesystem => resize_filesystem env filesystem name subvol volsize_bytes
                end) ;;
  mount_point <~ m_lift (fs_mount_point env filesystem) ;;
  set_xattr env "setxattr volsize: " (subvol_path mount_point name) XATTR_NASTY_VOLSIZE (fmt_dec effective) ;;;
  sv_get env filesystem name owner_filter.

Record UpdateSubvolumeRequest : Type := mkUpdateSubvolume {
  uv_filesystem : string;
  uv_name : string;
  uv_compression : option string;
  uv_comments : option string;
  uv_foreground_target : option string;
  uv_background_target : option string;
  uv_promote_target : option string;
  uv_metadata_target : option string;
  uv_data_replicas : option Z;
  uv_erasure_code : option SubvolumeErasureCode;
}.

(** The policy the update would leave. *)
Definition updated_policy (req : UpdateSubvolumeRequest) (subvol : Subvolume) : Z * bool :=
  let inherited := sb_bcachefs_inherited_options subvol in
  (match uv_data_replicas req with
   | Some 0 => option_replicas inherited
   | Some replicas => replicas
   | None => option_replicas_or (sb_bcachefs_options subvol) inherited
   end,
   match uv_erasure_code req with
   | Some EcInherit => option_enabled (inherited !! "erasure_code")
   | Some EcEnabled => true
   | Some EcDisabled => false
   | None => option_enabled_or (sb_bcachefs_options subvol) inherited
   end).

Definition check_policy (req : UpdateSubvolumeRequest) (subvol : Subvolume) : result unit SubvolumeError :=
  match uv_data_replicas req, uv_erasure_code req with
  | None, None => Ok tt
  | _, _ => let '(n, ec) := updated_policy req subvol in validate_storage_policy n ec
  end.

Definition remove_xattr_quiet (env : VolEnv) (path key : string) : vol unit :=
  match ve_removexattr env path key with Some _ => m_ret tt | None => change path (with_xattrs (delete key)) end.

Definition update_compression (env : VolEnv) (path comp : string) : vol unit :=
  let '(value, clear_metadata) := compression_file_option comp in
  tool (bc_set_file_option (ve_tool env) ("--compression=" +:+ value) path) ;;;
  if clear_metadata then remove_xattr_quiet env path XATTR_NASTY_COMPRESSION
  else set_xattr env "setxattr compression: " path XATTR_NASTY_COMPRESSION value.

Definition update_comments (env : VolEnv) (path comments : string) : vol unit :=
  if String.eqb comments "" then remove_xattr_quiet env path XATTR_NASTY_COMMENT
  else set_xattr env "setxattr comment: " path XATTR_NASTY_COMMENT comments.

Definition on_some {A} (o : option A) (f : A -> vol unit) : vol unit := match o with Some x => f x | None => m_ret tt end.

Definition replicas_option (n : option string) : string :=
  match n with Some n => "--data_replicas=" +:+ n | None => "--data_replicas=-" end.

(** Erasure coding last; when it fails the replicas are put back. *)
Definition update_erasure (env : VolEnv) (path previous : string) (replicas_changed : bool) (ec : SubvolumeErasureCode) : vol unit :=
  e <~ run_tool (bc_set_file_option (ve_tool env) (file_option ec) path) ;;
  match e with
  | None => m_ret tt
  | Some e =>
      if replicas_changed then
        e2 <~ run_tool (bc_set_file_option (ve_tool env) previous path) ;;
        m_throw (SvCommandFailed (match e2 with Some r => e +:+ "; restoring data replicas also failed: " +:+ r | None => e end))
      else m_throw (SvCommandFailed e)
  end.

Definition sv_update (env : VolEnv) (req : UpdateSubvolumeRequest) (owner_filter : option string) : vol Subvolume :=
  subvol <~ sv_get env (uv_filesystem req) (uv_name req) owner_filter ;;
  let path := sb_path subvol in
  let set_option o := tool (bc_set_file_option (ve_tool env) o path) in
  m_lift (check_policy req subvol) ;;;
  on_some (uv_compression req) (update_compression env path) ;;;
  on_some (uv_comments req) (update_comments env path) ;;;
  on_some (uv_foreground_target req) (fun t => set_option ("--foreground_target=" +:+ t)) ;;;
  on_some (uv_background_target req) (fun t => set_option ("--background_target=" +:+ t)) ;;;
  on_some (uv_promote_target req) (fun t => set_option ("--promote_target=" +:+ t)) ;;;
  on_some (uv_metadata_target req) (fun t => set_option ("--metadata_target=" +:+ t)) ;;;
  on_some (uv_data_replicas req) (fun n => set_option (replicas_option (if n =? 0 then None else Some (fmt_dec n)))) ;;;
  on_some (uv_erasure_code req)
    (update_erasure env path (replicas_option (sb_bcachefs_overrides subvol !! "data_replicas"))
       (negb (bool_decide (uv_data_replicas req = None)))) ;;;
  sv_get env (uv_filesystem req) (uv_name req) owner_filter.

(** ** Properties *)

Definition set_property (env : VolEnv) (path : string) (kv : string * string) : vol unit :=
  if starts_with NASTY_KEY_PREFIX kv.1 then m_throw (ReservedProperty kv.1)
  else set_xattr env ("setxattr " +:+ XATTR_NS +:+ kv.1 +:+ ": ") path (XATTR_NS +:+ kv.1) kv.2.

Definition set_properties (env : VolEnv) (filesystem name : string) (properties : list (string * string))
    (owner_filter : option string) : vol Subvolume :=
  subvol <~ sv_get env filesystem name owner_filter ;;
  each (set_property env (sb_path subvol)) properties ;;;
  sv_get env filesystem name owner_filter.

Definition remove_property (env : VolEnv) (path key : string) : vol unit :=
  if starts_with NASTY_KEY_PREFIX key then m_throw (ReservedProperty key)
  else match ve_removexattr env path (XATTR_NS +:+ key) with
       | Some e => m_throw (SvCommandFailed ("removexattr " +:+ XATTR_NS +:+ key +:+ ": " +:+ e))
       | None => change path (with_xattrs (delete (XATTR_NS +:+ key)))
       end.

Definition remove_properties (env : VolEnv) (filesystem name : string) (keys : list string) (owner_filter : option string)
    : vol Subvolume :=
  subvol <~ sv_get env filesystem name owner_filter ;;
  each (remove_property env (sb_path subvol)) keys ;;;
  sv_get env filesystem name owner_filter.

(** ** Snapshots *)

(** [block_device], never set, and [created_at], read from the listing, are left
    out. *)
Record Snapshot : Type := mkSnapshot {
  sn_name : string;
  sn_subvolume : string;
  sn_filesystem : string;
  sn_path : string;
  sn_read_only : bool;
  sn_parent : option string;
}.

Definition create_snapshot_locked (env : VolEnv) (filesystem subvolume name : string) (owner_filter : option string) : vol Snapshot :=
  sv_get env filesystem subvolume owner_filter ;;;
  mount_point <~ m_lift (fs_mount_point env filesystem) ;;
  let source := subvol_path mount_point subvolume in
  let snap := snap_path mount_point subvolume name in
  w <~ m_get ;;
  if negb (path_exists env w source) then m_throw (SvNotFound subvolume)
  else if path_exists env w snap then m_throw (SvAlreadyExists name)
  else
    sv_get env filesystem subvolume owner_filter ;;;
    tool (bc_snapshot (ve_tool env) true source snap) ;;;
    m_ret (mkSnapshot name subvolume filesystem snap true (Some subvolume)).

Definition create_snapshot (env : VolEnv) (filesystem subvolume name : string) (owner_filter : option string) : vol Snapshot :=
  m_lift (validate_snapshot_name subvolume name) ;;;
  create_snapshot_locked env filesystem subvolume name owner_filter.

(** The parent of a snapshot, if it is still there. *)
Definition snapshot_parent (env : VolEnv) (filesystem subvolume : string) (owner_filter : option string) : vol (option Subvolume) :=
  fun w => match sv_get env filesystem subvolume owner_filter w with
           | (w', Ok parent) => (w', Ok (Some parent))
           | (w', Err (SvNotFound _)) => (w', Ok None)
           | (w', Err e) => (w', Err e)
           end.

Definition authorize_snapshot (env : VolEnv) (v : Vols) (snap : string) (parent : option Subvolume) (owner_filter : option string)
    (override_ : bool) : result unit SubvolumeError :=
  let owner := mt_owner (read_meta_xattrs env v snap) in
  match parent with
  | Some p => authorize_snapshot_provenance owner (sb_owner p) owner_filter override_
  | None => authorize_orphan_snapshot owner owner_filter override_
  end.

Definition delete_snapshot (env : VolEnv) (filesystem subvolume name : string) (owner_filter : option string)
    (allow_orphan_cleanup : bool) : vol unit :=
  m_lift (validate_existing_snapshot_name subvolume name) ;;;
  parent <~ snapshot_parent env filesystem subvolume owner_filter ;;
  if bool_decide (owner_filter = None) && negb allow_orphan_cleanup && match parent with None => true | Some _ => false end
  then m_throw SvAccessDenied
  else
    mount_point <~ m_lift (fs_mount_point env filesystem) ;;
    let snap := snap_path mount_point subvolume name in
    w <~ m_get ;;
    if negb (path_exists env w snap) then m_throw (SvNotFound name)
    else
      m_lift (authorize_snapshot env (vw_vols w) snap parent owner_filter allow_orphan_cleanup) ;;;
      tool (bc_delete (ve_tool env) snap).

Definition identity_at (v : Vols) (path : string) : result string SubvolumeError :=
  match v !! path with Some n => Ok (nd_identity n) | None => Err (SvCommandFailed ("read identity for " +:+ path)) end.

Definition materialize_subvol_from_snapshot (env : VolEnv) (snap dest : string) (owner_filter : option string) : vol unit :=
  tool (bc_snapshot (ve_tool env) false snap dest) ;;;
  w <~ m_get ;;
  let meta := read_meta_xattrs env (vw_vols w) snap in
  on_some owner_filter (set_xattr env ("set owner on " +:+ dest +:+ ": ") dest XATTR_NASTY_OWNER) ;;;
  (if is_block (mt_type meta) then
     w <~ m_get ;;
     match image_at (vw_vols w) dest with
     | Some _ => loop_attach env (dest +:+ "/" +:+ BLOCK_FILE_NAME) ;;; m_ret tt
     | None => m_ret tt
     end
   else m_ret tt).

(** The source a clone was made of, if it is the one asked for. *)
Definition same_clone_source (env : VolEnv) (v : Vols) (dest source : string) : result unit SubvolumeError :=
  if bool_decide (xattrs_at env v dest !! XATTR_NASTY_CLONE_SOURCE = Some source) then Ok tt
  else Err (ExistingIncompatible "clone source").

Definition clone_snapshot (env : VolEnv) (filesystem subvolume snapshot new_name : string) (owner_filter : option string)
    (allow_admin_override : bool) : vol Subvolume :=
  m_lift (validate_existing_snapshot_name subvolume snapshot) ;;;
  m_lift (validate_subvolume_name new_name) ;;;
  parent <~ snapshot_parent env filesystem subvolume owner_filter ;;
  if bool_decide (owner_filter = None) && negb allow_admin_override && match parent with None => true | Some _ => false end
  then m_throw SvAccessDenied
  else
    mount_point <~ m_lift (fs_mount_point env filesystem) ;;
    let snap := snap_path mount_point subvolume snapshot in
    let dest := subvol_path mount_point new_name in
    w <~ m_get ;;
    if negb (path_exists env w snap) then m_throw (SvNotFound ("snapshot " +:+ subvolume +:+ "@" +:+ snapshot))
    else
      m_lift (authorize_snapshot env (vw_vols w) snap parent owner_filter allow_admin_override) ;;;
      identity <~ m_lift (identity_at (vw_vols w) snap) ;;
      let source := "snapshot:" +:+ identity in
      if path_exists env w dest then
        existing <~ sv_get env filesystem new_name owner_filter ;;
        m_lift (same_clone_source env (vw_vols w) dest source) ;;;
        m_ret existing
      else
        materialize_subvol_from_snapshot env snap dest owner_filter ;;;
        w <~ m_get ;;
        again <~ m_lift (identity_at (vw_vols w) snap) ;;
        (if String.eqb again identity then m_ret tt
         else m_throw (SvCommandFailed ("snapshot source changed while cloning into " +:+ new_name))) ;;;
        set_xattr env ("record clone source on " +:+ dest +:+ ": ") dest XATTR_NASTY_CLONE_SOURCE source ;;;
        sv_get env filesystem new_name owner_filter.

Definition clone_subvolume (env : VolEnv) (filesystem name new_name : string) (owner_filter : option string) : vol Subvolume :=
  m_lift (validate_subvolume_name name) ;;;
  m_lift (validate_subvolume_name new_name) ;;;
  parent <~ sv_get env filesystem name owner_filter ;;
  mount_point <~ m_lift (fs_mount_point env filesystem) ;;
  let source := subvol_path mount_point name in
  let dest := subvol_path mount_point new_name in
  w <~ m_get ;;
  if negb (path_exists env w source) then m_throw (SvNotFound name)
  else
    identity <~ m_lift (identity_at (vw_vols w) source) ;;
    let clone_source := "subvolume:" +:+ identity in
    if path_exists env w dest then
      m_lift (same_clone_source env (vw_vols w) dest clone_source) ;;;
      sv_get env filesystem new_name None
    else
      tool (bc_snapshot (ve_tool env) false source dest) ;;;
      w <~ m_get ;;
      again <~ m_lift (identity_at (vw_vols w) source) ;;
      (if String.eqb again identity then m_ret tt
       else m_throw (SvCommandFailed ("subvolume source changed while cloning into " +:+ new_name))) ;;;
      write_meta_xattrs env dest
        (mkSubvolumeMeta (sb_type parent) (sb_volsize_bytes parent) (sb_compression parent) None owner_filter
           (sb_direct_io parent) (sb_block_filesystem parent) (sb_block_filesystem_uuid parent)) ;;;
      set_xattr env ("record clone source on " +:+ dest +:+ ": ") dest XATTR_NASTY_CLONE_SOURCE clone_source ;;;
      w <~ m_get ;;
      (if is_block (sb_type parent) && match image_at (vw_vols w) dest with Some _ => true | None => false end
       then loop_attach env (dest +:+ "/" +:+ BLOCK_FILE_NAME) ;;; m_ret tt else m_ret tt) ;;;
      sv_get env filesystem new_name None.

(** ** Rollback *)

Definition safety_name (env : VolEnv) : string := "pre-rollback-" +:+ fmt_dec (ve_now env).

Definition blame {A} (f : string -> string) (m : vol A) : vol A := fun w =>
  match m w with
  | (w', Err (SvCommandFailed e)) => (w', Err (SvCommandFailed (f e)))
  | r => r
  end.

(** A failure after the safety snapshot says where the data is; the wording is
    shortened. *)
Definition rollback_hint (subvolume what : string) (env : VolEnv) (e : string) : string :=
  "rollback: " +:+ what +:+ " (" +:+ e +:+ "). Recover from safety snapshot '" +:+ subvolume +:+ "@" +:+ safety_name env +:+ "'.".

Definition sv_rollback (env : VolEnv) (filesystem subvolume snapshot : string) (owner_filter : option string)
    (allow_admin_override : bool) : vol (Subvolume * string) :=
  m_lift (validate_existing_snapshot_name subvolume snapshot) ;;;
  subvol <~ sv_get env filesystem subvolume owner_filter ;;
  if is_block (sb_type subvol) then m_throw (SvCommandFailed "rollback is not yet supported for block subvolumes (iSCSI / NVMe-oF / VM disks)")
  else
    mount_point <~ m_lift (fs_mount_point env filesystem) ;;
    let live := subvol_path mount_point subvolume in
    let snap := snap_path mount_point subvolume snapshot in
    w <~ m_get ;;
    if negb (path_exists env w snap) then m_throw (SvNotFound ("snapshot " +:+ subvolume +:+ "@" +:+ snapshot))
    else
      m_lift (authorize_snapshot_provenance (mt_owner (read_meta_xattrs env (vw_vols w) snap)) (sb_owner subvol) owner_filter
                allow_admin_override) ;;;
      children <~ m_lift (find_child_subvolumes env subvolume) ;;
      match children with
      | _ :: _ => m_throw (SvCommandFailed ("rollback refused: '" +:+ subvolume +:+ "' has nested subvolumes ("
                             +:+ str_join ", " children +:+ "). Roll those back individually."))
      | [] =>
          create_snapshot_locked env filesystem subvolume (safety_name env) owner_filter ;;;
          blame (rollback_hint subvolume "deleting live subvolume failed" env) (tool (bc_delete (ve_tool env) live)) ;;;
          blame (rollback_hint subvolume "recreating from snapshot failed" env)
            (materialize_subvol_from_snapshot env snap live owner_filter) ;;;
          set_project_quota env (ve_project_id_for env filesystem subvolume) (default 0 (sb_quota_bytes subvol)) ;;;
          recreated <~ sv_get env filesystem subvolume None ;;
          m_ret (recreated, safety_name env)
      end.
