(* ===== verification/SubvolNames.v ===== *)
(** * Names of subvolumes and snapshots

    Validated names stay below the mount point, and paths of snapshots are
    never mistaken for others. *)

From Stdlib Require Import ZArith Lia Ascii String.
From stdpp Require Import base list gmap strings.
From S2P Require Import Prelude.
From S2P Require Import RustStr.
From S2P Require Import Text.
From S2P Require Import RustPath.
From S2P Require Import Subvol.

Lemma str_split_app_sep c a b : str_split c (a +:+ String c b) = str_split c a ++ str_split c b.
Proof.
  unfold str_split. rewrite to_bytes_app. change (to_bytes (String c b)) with (c :: to_bytes b).
  by rewrite split_bytes_app_sep, fmap_app.
Qed.

Lemma check_component_ok c : check_component c = Ok tt -> component_of c = Some (Normal c) /\ no_char "@" c.
Proof.
  unfold check_component, component_of. destruct (String.eqb c "") eqn:E1; [done|].
  destruct (String.eqb c "..") eqn:E2; [done|]. destruct (String.eqb c ".") eqn:E3; [done|]. cbn [orb].
  destruct (str_contains_char "@" c) eqn:E4; [done|]. intros _. split; [done|by apply contains_char_no].
Qed.

(** Plain names. *)
Definition normal (c : string) : Prop := component_of c = Some (Normal c).

Lemma omap_normal l : Forall normal l -> omap component_of l = Normal <$> l.
Proof. induction 1 as [|c l Hc _ IH]; [done|]. cbn. rewrite Hc. by f_equal. Qed.

Lemma join_no_sep (c d : ascii) ls : c <> d -> (forall p, p ∈ ls -> c ∉ p) -> c ∉ join_bytes [d] ls.
Proof.
  intros Hcd. induction ls as [|p ls IH]; intros Hp; [by apply not_elem_of_nil|]. destruct ls as [|q ls].
  - apply Hp. by left.
  - cbn [join_bytes]. rewrite !not_elem_of_app. split_and!; [apply Hp; by left|by rewrite list_elem_of_singleton|].
    apply IH. intros x Hx. apply Hp. by right.
Qed.

Lemma valid_name_components n : validate_subvolume_name n = Ok tt -> Forall normal (str_split "/" n) /\ no_char "@" n.
Proof.
  unfold validate_subvolume_name. destruct (String.eqb n ""); [done|]. destruct (200 <? _)%nat; [done|].
  destruct (starts_with "/" n); [done|]. destruct (starts_with "." n); [done|]. rewrite try_each_spec. intros H. split.
  - apply Forall_forall. intros c Hc. by apply check_component_ok, H.
  - unfold no_char. rewrite <- (join_split_bytes "/" (to_bytes n)). apply join_no_sep; [done|]. intros p Hp.
    destruct (check_component_ok (of_bytes p)) as [_ Hno]; [apply H; unfold str_split; by apply list_elem_of_fmap_2|].
    unfold no_char in Hno. by rewrite to_of_bytes in Hno.
Qed.

Lemma components_below m p : starts_with "/" m = true ->
  components (m +:+ String "/" p) = components m ++ omap component_of (str_split "/" p).
Proof.
  intros Hm. unfold components. rewrite str_split_app_sep, omap_app, app_assoc. f_equal. f_equal.
  rewrite Hm. destruct (starts_with "/" (m +:+ String "/" p)) eqn:E; [done|].
  apply starts_with_spec in Hm as [r ->]. rewrite string_app_assoc in E.
  assert (starts_with "/" ("/" +:+ r +:+ String "/" p) = true); [|congruence]. apply starts_with_spec. by eexists.
Qed.

(** Appending to a text extends its last piece. *)
Lemma split_bytes_snoc c l t : c ∉ t ->
  split_bytes c (l ++ t) = removelast (split_bytes c l) ++ [default [] (last (split_bytes c l)) ++ t].
Proof.
  intros Ht. induction l as [|d l IH]; cbn; [by rewrite split_bytes_no_sep_id|].
  pose proof (split_bytes_nonempty c l) as Hne. destruct (Ascii.eqb c d).
  - rewrite IH. by destruct (split_bytes c l).
  - rewrite IH. destruct (split_bytes c l) as [|h [|h2 rest]]; [done|done|]. done.
Qed.

Lemma last_component_split s : last (str_split "/" s) = Some (last_component s).
Proof.
  unfold last_component, str_split. rewrite fmap_last.
  pose proof (split_bytes_nonempty "/" (to_bytes s)) as Hne. by destruct (split_bytes "/" (to_bytes s)) as [|h l _] using rev_ind; [|rewrite last_snoc].
Qed.

Lemma split_snapshot s k : no_char "/" k ->
  str_split "/" (s +:+ String "@" k) = removelast (str_split "/" s) ++ [last_component s +:+ String "@" k].
Proof.
  intros Hk. unfold str_split at 1. rewrite to_bytes_app, split_bytes_snoc.
  2:{ change (to_bytes (String "@" k)) with ("@"%char :: to_bytes k). by apply not_elem_of_cons. }
  rewrite fmap_app. pose proof (last_component_split s) as Hl. unfold str_split in *. f_equal.
  - clear. induction (split_bytes "/" (to_bytes s)) as [|h [|h2 l] IH]; [done|done|]. cbn in *. by rewrite IH.
  - rewrite fmap_last in Hl. destruct (last (split_bytes "/" (to_bytes s))) as [b|]; [|done].
    injection Hl as Hl. cbn [default]. change (of_bytes <$> [?x]) with [of_bytes x]. change (id b) with b. by rewrite of_bytes_app, Hl, of_to_bytes.
Qed.

Lemma component_of_at a k : component_of (a +:+ String "@" k) = Some (Normal (a +:+ String "@" k)).
Proof.
  assert (forall b, no_char "@" b -> String.eqb (a +:+ String "@" k) b = false) as H.
  { intros b Hb. apply String.eqb_neq. intros <-. apply no_char_app in Hb as [_ Hb]. by apply no_char_cons in Hb as [? _]. }
  unfold component_of. rewrite !H by (by apply no_char_dec). done.
Qed.

Lemma snapshot_components s k : validate_existing_snapshot_name s k = Ok tt ->
  validate_subvolume_name s = Ok tt /\
  omap component_of (str_split "/" (s +:+ String "@" k)) =
    Normal <$> removelast (str_split "/" s) ++ [last_component s +:+ String "@" k].
Proof.
  unfold validate_existing_snapshot_name. destruct (validate_subvolume_name s) as [[]|] eqn:Es; [|done]. cbn [result_bind].
  destruct (String.eqb k ""); [done|]. destruct (str_contains_char "/" k) eqn:Ek; [done|]. intros _. split; [done|].
  apply contains_char_no in Ek. rewrite (split_snapshot s k Ek). apply omap_normal, Forall_app.
  split; [|constructor; [apply component_of_at|constructor]]. destruct (valid_name_components s Es) as [H _].
  clear -H. induction H as [|a l Ha Hl IH]; [constructor|]. destruct l; [constructor|]. by constructor.
Qed.

(** [p] is [m] followed by at least one plain component. *)
Definition strictly_below (m p : string) : Prop := exists c cs, components p = components m ++ Normal c :: (Normal <$> cs).

(** [p] and [q] lie in one directory, under the names [a] and [b]. *)
Definition siblings (p q a b : string) : Prop := exists dir, components p = dir ++ [Normal a] /\ components q = dir ++ [Normal b].

Lemma snapshot_sibling m s k : starts_with "/" m = true -> validate_existing_snapshot_name s k = Ok tt ->
  siblings (subvol_path m s) (snap_path m s k) (last_component s) (last_component s +:+ "@" +:+ k).
Proof.
  intros Hm Hk. unfold siblings, subvol_path, snap_path. change ("/" +:+ ?x) with (String "/" x). change ("@" +:+ k) with (String "@" k).
  rewrite !components_below by done. destruct (snapshot_components s k Hk) as [Hs ->]. destruct (valid_name_components s Hs) as [HF _].
  rewrite (omap_normal _ HF). exists (components m ++ (Normal <$> removelast (str_split "/" s))). rewrite <- !(assoc_L app), fmap_app. split; [|done].
  f_equal. pose proof (last_component_split s) as Hl. apply last_Some in Hl as [l ->]. by rewrite removelast_last, fmap_app.
Qed.

(** C27. Names stay inside the filesystem and mean one thing.  The path of a
    subvolume or snapshot with a validated name is the mount point followed by
    at least one plain component, never [..]; a snapshot lies in the directory
    of its subvolume, under the subvolume's own name followed by [@] and the
    snapshot's; two names give two paths; and the path of a snapshot, legacy names with [@] included,
    determines its subvolume and its name and is never that of a subvolume. *)
Theorem subvolume_paths_confined m :
  starts_with "/" m = true ->
  (forall n, validate_subvolume_name n = Ok tt -> strictly_below m (subvol_path m n)) /\
  (forall s k, validate_existing_snapshot_name s k = Ok tt -> strictly_below m (snap_path m s k)) /\
  (forall s k, validate_existing_snapshot_name s k = Ok tt ->
     siblings (subvol_path m s) (snap_path m s k) (last_component s) (last_component s +:+ "@" +:+ k)) /\
  (forall n n', subvol_path m n = subvol_path m n' -> n = n') /\
  (forall s k s' k', validate_existing_snapshot_name s k = Ok tt -> validate_existing_snapshot_name s' k' = Ok tt ->
     snap_path m s k = snap_path m s' k' -> s = s' /\ k = k') /\
  (forall n s k, validate_subvolume_name n = Ok tt -> subvol_path m n <> snap_path m s k).
Proof.
  intros Hm. assert (forall a b, m +:+ "/" +:+ a = m +:+ "/" +:+ b -> a = b) as Hinj.
  { intros a b H. apply (f_equal to_bytes) in H. rewrite !to_bytes_app in H. apply to_bytes_inj.
    by apply (inj (app _)), (inj (app _)) in H. }
  split_and!.
  - intros n Hn. unfold strictly_below, subvol_path. change ("/" +:+ n) with (String "/" n). rewrite components_below by done.
    destruct (valid_name_components n Hn) as [HF _]. rewrite (omap_normal _ HF).
    pose proof (split_bytes_nonempty "/" (to_bytes n)) as Hne. unfold str_split in *.
    destruct (split_bytes "/" (to_bytes n)) as [|c cs]; [done|]. by exists (of_bytes c), (of_bytes <$> cs).
  - intros s k Hk. unfold strictly_below, snap_path. change ("/" +:+ ?x) with (String "/" x). rewrite components_below by done.
    change ("@" +:+ k) with (String "@" k). destruct (snapshot_components s k Hk) as [_ ->].
    destruct (removelast _) as [|c cs]; [by eexists _, []|]. by exists c, (cs ++ [last_component s +:+ String "@" k]).
  - intros s k. by apply snapshot_sibling.
  - apply Hinj.
  - unfold snap_path. intros s k s' k' [Hs _]%snapshot_components [Hs' _]%snapshot_components H%Hinj.
    apply valid_name_components in Hs as [_ Hs], Hs' as [_ Hs'].
    change ("@" +:+ ?x) with (String "@" x) in H.
    pose proof (split_once_app "@" s k Hs) as E. rewrite H, split_once_app in E by done. by injection E.
  - intros n s k [_ Hn]%valid_name_components. unfold subvol_path, snap_path. intros ->%Hinj.
    apply no_char_app in Hn as [_ Hn]. by apply no_char_cons in Hn as [? _].
Qed.

Lemma subvolume_paths_confined_witness :
  validate_subvolume_name "projects/web" = Ok tt /\ validate_existing_snapshot_name "projects/web" "before@upgrade" = Ok tt /\
  strictly_below "/fs/tank" (snap_path "/fs/tank" "projects/web" "before@upgrade") /\
  siblings (subvol_path "/fs/tank" "projects/web") (snap_path "/fs/tank" "projects/web" "before@upgrade") "web" "web@before@upgrade" /\
  subvol_path "/fs/tank" "projects/web" <> snap_path "/fs/tank" "projects" "web".
Proof.
  destruct (subvolume_paths_confined "/fs/tank") as (_ & H2 & H3 & _ & _ & H5); [vm_compute; reflexivity|].
  split_and!; [vm_compute; reflexivity..| | |].
  - apply H2. vm_compute. reflexivity.
  - apply (H3 "projects/web" "before@upgrade"). vm_compute. reflexivity.
  - apply H5. vm_compute. reflexivity.
Defined.
