(* ===== verification/SubvolProps.v ===== *)
(** * Operations on subvolumes keep data and owners

    What the bcachefs commands are relied on for, and from it: a rollback never
    loses data, operations of an owner leave the subvolumes of others alone, and
    a resize never shrinks. *)

From Stdlib Require Import ZArith Lia Ascii String.
From stdpp Require Import base list gmap strings.
From S2P Require Import Prelude.
From S2P Require Import RustStr.
From S2P Require Import Text.
From S2P Require Import RustPath.
From S2P Require Import ShareScope.
From S2P Require Import Subvol.

(** ** What the tool does *)

Definition owner_of (n : Node) : option string := nd_xattrs n !! XATTR_NASTY_OWNER.

(** A copy of a subvolume under another path. *)
Record copy_of (ro : bool) (n m : Node) : Prop := {
  co_data : nd_data m = nd_data n;
  co_image : nd_image m = nd_image n;
  co_xattrs : nd_xattrs m = nd_xattrs n;
  co_ro : nd_ro m = ro;
}.

(** The same subvolume, bcachefs options aside. *)
Record same_node (n m : Node) : Prop := {
  sm_identity : nd_identity m = nd_identity n;
  sm_subvolid : nd_subvolid m = nd_subvolid n;
  sm_data : nd_data m = nd_data n;
  sm_image : nd_image m = nd_image n;
  sm_ro : nd_ro m = nd_ro n;
  sm_parent : nd_parent m = nd_parent n;
  sm_mode : nd_mode m = nd_mode n;
  sm_xattrs : forall k, starts_with "bcachefs" k = false -> nd_xattrs m !! k = nd_xattrs n !! k;
}.

#[export] Instance same_node_equiv : Equivalence same_node.
Proof.
  split.
  - intros n. by split.
  - intros n m []. split; try done. intros k Hk. symmetry. auto.
  - intros a b c H1 H2. split; try (destruct H1, H2; congruence).
    intros k Hk. by rewrite (sm_xattrs _ _ H2), (sm_xattrs _ _ H1).
Qed.

Definition same_at (v v' : Vols) (q : string) : Prop :=
  match v !! q, v' !! q with
  | Some n, Some m => same_node n m
  | None, None => True
  | _, _ => False
  end.

Lemma same_at_eq v v' q : v' !! q = v !! q -> same_at v v' q.
Proof. unfold same_at. intros ->. by destruct (v !! q). Qed.

Lemma same_at_trans a b c q : same_at a b q -> same_at b c q -> same_at a c q.
Proof. unfold same_at. destruct (a !! q), (b !! q), (c !! q); try done. apply transitivity. Qed.

(** [q] is [p] or lies below it. *)
Definition within (q p : string) : Prop := q = p \/ starts_with (p +:+ "/") q = true.

Lemma within_trans a b c : within a b -> within b c -> within a c.
Proof.
  unfold within. rewrite !starts_with_spec. intros [->|[r ->]]; [done|]. intros [->|[r' ->]]; right; [by exists r|].
  exists (r' +:+ "/" +:+ r). by rewrite !string_app_assoc.
Qed.

(** A command touches only its destination, and does its work if it reports no
    error; setting an option touches only options, of the file and of what lies
    below it. *)
Record BcachefsLaws (b : Bcachefs) : Prop := {
  law_create : forall p v v' e, bc_create b p v = (v', e) ->
    (forall q, q <> p -> v' !! q = v !! q) /\ (e = None -> v !! p = None -> exists n, v' !! p = Some n /\ nd_xattrs n = ∅);
  law_delete : forall p v v' e, bc_delete b p v = (v', e) ->
    (forall q, q <> p -> v' !! q = v !! q) /\ (v' !! p = v !! p \/ v' !! p = None) /\ (e = None -> v' !! p = None);
  law_snapshot : forall ro s d v v' e, bc_snapshot b ro s d v = (v', e) ->
    (forall q, q <> d -> v' !! q = v !! q) /\
    (e = None -> v !! d = None -> exists n m, v !! s = Some n /\ v' !! d = Some m /\ copy_of ro n m);
  law_option : forall o p v v' e, bc_set_file_option b o p v = (v', e) ->
    (forall q, same_at v v' q) /\ (forall q, ~ within q p -> v' !! q = v !! q);
}.

(** ** Looking up *)

Lemma info_paths entries p info :
  p ∈ bi_subvol_paths (foldl add_entry info entries) ->
  p ∈ bi_subvol_paths info \/ exists e, e ∈ entries /\ le_path e = p.
Proof.
  revert info. induction entries as [|e es IH]; intros info; cbn; [by left|]. intros [H|(e' & He & <-)]%IH.
  - unfold add_entry in H. destruct (le_snapshot_parent e); [destruct (bool_decide _)|]; cbn in H; [by left| |];
      apply elem_of_union in H as [->%elem_of_singleton|H]; [right; exists e; by split; [left|]|by left|right; exists e; by split; [left|]|by left].
  - right. exists e'. by split; [right|].
Qed.

(** What a successful look-up says. *)
Record found (env : VolEnv) (fs name : string) (w : VolWorld) (s : Subvolume) (mount : string) (n : Node) : Prop := {
  fd_mount : fs_mount_point env fs = Ok mount;
  fd_path : sb_path s = subvol_path mount name;
  fd_node : vw_vols w !! subvol_path mount name = Some n;
  fd_owner : sb_owner s = owner_of n;
  fd_type : sb_type s = mt_type (meta_of (nd_xattrs n) (match nd_image n with Some _ => true | None => false end));
  fd_size : (sb_used_bytes s, sb_quota_bytes s) = size_and_quota env w fs name (sb_path s) (sb_type s);
  fd_volsize : sb_volsize_bytes s = mt_volsize_bytes (meta_of (nd_xattrs n) (match nd_image n with Some _ => true | None => false end));
}.

Lemma get_found env fs name filter_ w w' s :
  sv_get env fs name filter_ w = (w', Ok s) ->
  w' = w /\ require_owner (sb_owner s) filter_ = Ok tt /\ exists mount n, found env fs name w s mount n.
Proof.
  unfold sv_get. intros H. injection H as <- H. split; [done|]. unfold sv_list in H.
  destruct (ve_fs env fs) as [info|] eqn:Ef; [|done]. cbn [ok_or result_bind] in H.
  destruct (fi_mount_point info) as [mount|] eqn:Em; [|done]. cbn [ok_or result_bind] in H.
  unfold bcachefs_list_all_strict in H. destruct (ve_list env); [done|]. cbn [result_bind] in H.
  destruct (find_first _ _) as [s'|] eqn:Es; [|done]. cbn [ok_or result_bind] in H.
  destruct (require_owner (sb_owner s') filter_) as [[]|] eqn:Eo; [|done]. cbn [result_bind] in H. injection H as <-.
  split; [done|]. apply find_first_Some in Es as [Hin Hname%String.eqb_eq].
  apply list_elem_of_omap in Hin as (nm & Hnm & Hone). apply list_elem_of_In, filter_In in Hnm as [Hnm _].
  apply list_elem_of_In, elem_of_elements in Hnm. apply info_paths in Hnm as [Hnm|(e & He & Hp)]; [set_solver|].
  unfold tool_entries in He. apply list_elem_of_omap in He as ([q n] & Hq & He). unfold list_entry in He. cbn in He.
  destruct (strip_prefix (mount +:+ "/") q) as [rel|] eqn:Er; [|done]. injection He as <-. cbn in Hp. subst rel.
  apply strip_prefix_Some in Er. apply elem_of_map_to_list in Hq. rewrite string_app_assoc in Er.
  exists mount, n. unfold list_one in Hone. destruct (bool_decide _); [done|]. cbn [require_owner] in Hone.
  destruct (size_and_quota _ _ _ _ _ _) as [sz qu] eqn:Esz. injection Hone as <-. cbn in Hname |- *. subst nm.
  change (mount +:+ "/" +:+ name) with (subvol_path mount name) in Er. subst q.
  split; cbn; try done.
  - unfold fs_mount_point. rewrite Ef. cbn. by rewrite Em.
  - unfold xattrs_at. by rewrite Hq.
  - unfold read_meta_xattrs, xattrs_at, image_at. by rewrite Hq.
  - unfold read_meta_xattrs, xattrs_at, image_at. by rewrite Hq.
Qed.

(** ** Code that respects a relation between filesystems *)

Section Respects.
Context (R : Vols -> Vols -> Prop) `{!PreOrder R}.

Definition respects {A} (m : vol A) : Prop := forall w, R (vw_vols w) (vw_vols (m w).1).

Lemma respects_ret {A} (a : A) : respects (m_ret a).
Proof. intros w. reflexivity. Qed.

Lemma respects_throw {A} e : respects (m_throw e : vol A).
Proof. intros w. reflexivity. Qed.

Lemma respects_lift {A} (r : result A SubvolumeError) : respects (m_lift r).
Proof. intros w. reflexivity. Qed.

Lemma respects_bind {A B} (m : vol A) (k : A -> vol B) : respects m -> (forall a, respects (k a)) -> respects (m_bind m k).
Proof.
  intros Hm Hk w. specialize (Hm w). unfold m_bind. destruct (m w) as [w1 [a|e]]; cbn in *; [|done]. etrans; [exact Hm|apply Hk].
Qed.

Lemma respects_lift_bind {A B} (r : result A SubvolumeError) (k : A -> vol B) :
  (forall a, r = Ok a -> respects (k a)) -> respects (m_bind (m_lift r) k).
Proof. intros Hk w. unfold m_bind, m_lift. destruct r as [a|e]; [by apply Hk|reflexivity]. Qed.

Lemma respects_m_get : respects m_get.
Proof. intros w. reflexivity. Qed.

Lemma respects_get_world {A} (k : VolWorld -> vol A) : (forall w, R (vw_vols w) (vw_vols (k w w).1)) -> respects (m_bind m_get k).
Proof. intros Hk w. apply Hk. Qed.

Lemma respects_sv_get env fs name f : respects (sv_get env fs name f).
Proof. intros w. reflexivity. Qed.

Lemma respects_sv_get_bind {B} env fs name f (k : Subvolume -> vol B) :
  (forall s mount, fs_mount_point env fs = Ok mount -> sb_path s = subvol_path mount name -> respects (k s)) ->
  respects (m_bind (sv_get env fs name f) k).
Proof.
  intros Hk w. unfold m_bind. destruct (sv_get env fs name f w) as [w' [s|e]] eqn:E.
  - apply get_found in E as (-> & _ & mount & n & [Hm Hp _ _ _ _ _]). by eapply Hk.
  - unfold sv_get in E. injection E as <- _. reflexivity.
Qed.

Lemma respects_same {A} (m : vol A) : (forall w, vw_vols (m w).1 = vw_vols w) -> respects m.
Proof. intros H w. rewrite H. reflexivity. Qed.

Lemma respects_ignore {A} (m : vol A) : respects m -> respects (m_ignore m).
Proof. intros H w. apply H. Qed.

Lemma respects_each {A} (f : A -> vol unit) l : (forall x, respects (f x)) -> respects (each f l).
Proof. intros H. induction l as [|x l IH]; [apply respects_ret|]. by apply respects_bind; [|intros _]. Qed.

Lemma respects_on_some {A} (o : option A) f : (forall x, respects (f x)) -> respects (on_some o f).
Proof. intros H. destruct o; [apply H|apply respects_ret]. Qed.

Lemma respects_or_quarantine {A} env block dev (m : vol A) : respects m -> respects (or_quarantine env block dev m).
Proof.
  intros H w. specialize (H w). unfold or_quarantine. destruct (m w) as [w' [a|e]]; [exact H|]. cbn.
  destruct block; [|exact H]. unfold quarantine_failed_create, loop_detach. destruct dev; [|exact H].
  unfold m_bind. destruct (ve_detach env); exact H.
Qed.

Lemma respects_run_tool f : (forall v, R v (f v).1) -> respects (run_tool f).
Proof. intros H w. unfold run_tool. specialize (H (vw_vols w)). by destruct (f (vw_vols w)). Qed.

Lemma respects_tool f : (forall v, R v (f v).1) -> respects (tool f).
Proof. intros H. apply respects_bind; [by apply respects_run_tool|intros e; apply respects_lift]. Qed.

Lemma respects_change path f : (forall v, R v (alter f path v)) -> respects (change path f).
Proof. intros H w. apply H. Qed.

Lemma respects_blame {A} f (m : vol A) : respects m -> respects (blame f m).
Proof. intros H w. specialize (H w). unfold blame. destruct (m w) as [w' [a|[]]]; exact H. Qed.

Lemma respects_intro {A} (m : vol A) : (forall w, R (vw_vols w) (vw_vols (m w).1)) -> respects m.
Proof. done. Qed.

Lemma respects_run {A} (m : vol A) w : respects m -> R (vw_vols w) (vw_vols (m w).1).
Proof. intros H. apply H. Qed.
End Respects.

#[global] Opaque respects.

(** Loop devices and quotas are not subvolumes. *)
Lemma quiet_loop_attach env img w : vw_vols (loop_attach env img w).1 = vw_vols w.
Proof. unfold loop_attach. by destruct (ve_losetup env). Qed.

Lemma quiet_loop_detach env d w : vw_vols (loop_detach env d w).1 = vw_vols w.
Proof. unfold loop_detach. by destruct (ve_detach env). Qed.

Lemma quiet_quota_limit env p b w : vw_vols (set_project_quota_limit env p b w).1 = vw_vols w.
Proof. unfold set_project_quota_limit. by destruct (ve_quota_limit env). Qed.

Lemma quiet_unregister env p w : vw_vols (unregister_project env p w).1 = vw_vols w.
Proof. unfold unregister_project, m_modify. by destruct (ve_projid_write env). Qed.

Lemma quiet_add_dirs l w : vw_vols (add_dirs l w).1 = vw_vols w.
Proof. done. Qed.

Lemma quiet_create_dir_all env p w : vw_vols (create_dir_all env p w).1 = vw_vols w.
Proof. unfold create_dir_all, m_bind, m_get. by destruct (ve_mkdir env) as [[]|]. Qed.

Lemma quiet_quota env p b w : vw_vols (set_project_quota env p b w).1 = vw_vols w.
Proof.
  unfold set_project_quota, m_bind, register_project, m_modify. cbn.
  destruct (ve_current_project env) as [c|]; [|by destruct (existsb _ _), (ve_projid_write env)].
  set (w1 := if existsb _ _ then _ else _). assert (vw_vols w1 = vw_vols w) as E by (subst w1; by destruct (existsb _ _), (ve_projid_write env)).
  destruct (bool_decide _); [|destruct (ve_setproject env)]; unfold m_ignore; cbn; try exact E; by rewrite quiet_quota_limit.
Qed.

(** The relation is preserved by each primitive. *)
Ltac respects :=
  repeat first
    [ match goal with |- PreOrder _ => apply _ end | apply respects_ret | apply respects_throw | apply respects_m_get | apply respects_lift | apply respects_sv_get
    | apply respects_ignore | apply respects_or_quarantine | apply respects_blame
    | apply respects_each; [apply _|intros ?] | apply respects_on_some; [apply _|intros ?]
    | apply respects_same; [apply _|]; first [intros; apply quiet_loop_attach | intros; apply quiet_loop_detach | intros; apply quiet_quota_limit
                                 | intros; apply quiet_unregister | intros; apply quiet_add_dirs | intros; apply quiet_create_dir_all | intros; apply quiet_quota]
    | match goal with |- respects _ (m_bind (m_lift _) _) => apply respects_lift_bind; [apply _|intros ? ?] end
    | match goal with |- respects _ (m_bind (sv_get _ _ _ _) _) => apply respects_sv_get_bind; [apply _|intros ? ? ? ?] end
    | apply respects_bind; [apply _| |intros ?]
    | match goal with |- respects _ (match ?x with _ => _ end) => destruct x end
    | match goal with |- respects _ (let '(_, _) := ?x in _) => destruct x end ].

(** ** What operations leave alone *)

(** Only [T] changes, and bcachefs options of what lies below a path of [T]. *)
Definition outside (T : string -> Prop) (v v' : Vols) : Prop :=
  forall q, ~ T q -> same_at v v' q /\ ((forall p, T p -> ~ within q p) -> v' !! q = v !! q).

Lemma outside_eq (T : string -> Prop) v v' : (forall q, ~ T q -> v' !! q = v !! q) -> outside T v v'.
Proof. intros H q Hq. split; [|auto]. by apply same_at_eq, H. Qed.

#[export] Instance outside_preorder T : PreOrder (outside T).
Proof.
  split.
  - intros v. by apply outside_eq.
  - intros a b c Hab Hbc q Hq. destruct (Hab q Hq) as [H1 H2], (Hbc q Hq) as [H3 H4]. split; [by eapply same_at_trans|].
    intros H. by rewrite H4, H2.
Qed.

Definition keeps_owners (v v' : Vols) : Prop :=
  forall q n, v !! q = Some n -> exists m, v' !! q = Some m /\ owner_of m = owner_of n.

#[export] Instance keeps_owners_preorder : PreOrder keeps_owners.
Proof.
  split.
  - intros v q n Hn. by exists n.
  - intros a b c Hab Hbc q n (m & Hm & <-)%Hab. by apply Hbc in Hm.
Qed.

Section Frames.
Context (env : VolEnv) (laws : BcachefsLaws (ve_tool env)).

Section Outside.
Context (T : string -> Prop).

Lemma outside_change path f v : T path -> outside T v (alter f path v).
Proof. intros HT. apply outside_eq. intros q Hq. apply lookup_alter_ne. by intros ->. Qed.

Lemma outside_create path v : T path -> outside T v (bc_create (ve_tool env) path v).1.
Proof.
  intros HT. apply outside_eq. intros q Hq. destruct (bc_create _ _ _) as [v' e] eqn:E. apply (law_create _ laws) in E as [Hf _].
  apply Hf. by intros ->.
Qed.

Lemma outside_delete path v : T path -> outside T v (bc_delete (ve_tool env) path v).1.
Proof.
  intros HT. apply outside_eq. intros q Hq. destruct (bc_delete _ _ _) as [v' e] eqn:E. apply (law_delete _ laws) in E as [Hf _].
  apply Hf. by intros ->.
Qed.

Lemma outside_snapshot ro src dst v : T dst -> outside T v (bc_snapshot (ve_tool env) ro src dst v).1.
Proof.
  intros HT. apply outside_eq. intros q Hq. destruct (bc_snapshot _ _ _ _ _) as [v' e] eqn:E. apply (law_snapshot _ laws) in E as [Hf _].
  apply Hf. by intros ->.
Qed.

Lemma outside_option o path p v : within path p -> T p -> outside T v (bc_set_file_option (ve_tool env) o path v).1.
Proof.
  intros Hp HT q _. destruct (bc_set_file_option _ _ _ _) as [v' e] eqn:E. apply (law_option _ laws) in E as [H1 H2].
  split; [apply H1|]. intros H. apply H2. intros Hq. by apply (H p), (within_trans _ path).
Qed.

Lemma set_xattr_outside what path k x : T path -> respects (outside T) (set_xattr env what path k x).
Proof. intros HT. unfold set_xattr. respects. apply respects_change. intros v. by apply outside_change. Qed.

Lemma chmod_outside path mode : T path -> respects (outside T) (chmod env path mode).
Proof. intros HT. unfold chmod. respects. apply respects_change. intros v. by apply outside_change. Qed.

Lemma change_outside path f : T path -> respects (outside T) (change path f).
Proof. intros HT. apply respects_change. intros v. by apply outside_change. Qed.

Lemma option_outside o path : T path -> respects (outside T) (run_tool (bc_set_file_option (ve_tool env) o path)).
Proof. intros HT. apply respects_run_tool. intros v. apply (outside_option o path path); [by left|done]. Qed.

Lemma image_option_outside o path : T path -> respects (outside T) (run_tool (bc_set_file_option (ve_tool env) o (path +:+ "/" +:+ BLOCK_FILE_NAME))).
Proof.
  intros HT. apply respects_run_tool. intros v. apply (outside_option o _ path); [|done]. right. apply starts_with_spec.
  exists BLOCK_FILE_NAME. by rewrite string_app_assoc.
Qed.

Lemma create_outside path : T path -> respects (outside T) (run_tool (bc_create (ve_tool env) path)).
Proof. intros HT. apply respects_run_tool. intros v. by apply outside_create. Qed.

Lemma delete_outside path : T path -> respects (outside T) (run_tool (bc_delete (ve_tool env) path)).
Proof. intros HT. apply respects_run_tool. intros v. by apply outside_delete. Qed.

Lemma snapshot_outside ro src dst : T dst -> respects (outside T) (run_tool (bc_snapshot (ve_tool env) ro src dst)).
Proof. intros HT. apply respects_run_tool. intros v. by apply outside_snapshot. Qed.

#[local] Hint Resolve set_xattr_outside chmod_outside change_outside option_outside image_option_outside create_outside delete_outside snapshot_outside : core.

(** The paths an operation is about. *)
Definition at_name (fs name q : string) : Prop := exists m, fs_mount_point env fs = Ok m /\ q = subvol_path m name.
Definition at_snap (fs name snap q : string) : Prop := exists m, fs_mount_point env fs = Ok m /\ q = snap_path m name snap.

Ltac hit := eexists; split; [|first [reflexivity|eassumption]]; eassumption.

Lemma sv_delete_outside fs name f : (forall q, at_name fs name q -> T q) -> respects (outside T) (sv_delete env fs name f).
Proof. intros HT. unfold sv_delete. respects; apply delete_outside, HT; hit. Qed.

Lemma sv_resize_outside fs name size f : (forall q, at_name fs name q -> T q) -> respects (outside T) (sv_resize env fs name size f).
Proof. intros HT. unfold sv_resize, resize_block, resize_filesystem. respects; first [apply change_outside|apply set_xattr_outside]; apply HT; hit. Qed.

Lemma set_properties_outside fs name ps f : (forall q, at_name fs name q -> T q) -> respects (outside T) (set_properties env fs name ps f).
Proof. intros HT. unfold set_properties, set_property. respects. apply set_xattr_outside, HT. hit. Qed.

Lemma remove_properties_outside fs name ks f : (forall q, at_name fs name q -> T q) -> respects (outside T) (remove_properties env fs name ks f).
Proof. intros HT. unfold remove_properties, remove_property. respects. apply change_outside, HT. hit. Qed.

Lemma sv_update_outside req f : (forall q, at_name (uv_filesystem req) (uv_name req) q -> T q) -> respects (outside T) (sv_update env req f).
Proof.
  intros HT. unfold sv_update, update_compression, update_comments, update_erasure, remove_xattr_quiet. respects;
    first [apply option_outside, HT; hit | apply change_outside, HT; hit | apply set_xattr_outside, HT; hit].
Qed.

Lemma create_snapshot_outside fs name snap f : (forall q, at_snap fs name snap q -> T q) ->
  respects (outside T) (create_snapshot_locked env fs name snap f).
Proof. intros HT. unfold create_snapshot_locked. respects. apply snapshot_outside, HT. hit. Qed.

Lemma snapshot_parent_outside fs name f : respects (outside T) (snapshot_parent env fs name f).
Proof.
  apply respects_intro. intros w. unfold snapshot_parent, sv_get. by destruct (sv_list _ _ _ _) as [l|[]]; cbn; try reflexivity;
    destruct (find_first _ _); cbn; try reflexivity; destruct (require_owner _ _) as [|[]]; cbn; try reflexivity.
Qed.

Lemma delete_snapshot_outside fs name snap f ov : (forall q, at_snap fs name snap q -> T q) ->
  respects (outside T) (delete_snapshot env fs name snap f ov).
Proof. intros HT. unfold delete_snapshot. respects; first [apply snapshot_parent_outside|apply delete_outside, HT; hit]. Qed.

Lemma clone_snapshot_outside fs name snap new f ov : (forall q, at_name fs new q -> T q) ->
  respects (outside T) (clone_snapshot env fs name snap new f ov).
Proof.
  intros HT. unfold clone_snapshot. respects; try apply snapshot_parent_outside.
  all: first [apply snapshot_outside|apply set_xattr_outside]; apply HT; hit.
Qed.

Lemma clone_subvolume_outside fs name new f : (forall q, at_name fs new q -> T q) -> respects (outside T) (clone_subvolume env fs name new f).
Proof. intros HT. unfold clone_subvolume, write_meta_xattrs. respects; first [apply snapshot_outside|apply set_xattr_outside]; apply HT; hit. Qed.

Lemma rollback_outside fs name snap f ov : (forall q, at_name fs name q -> T q) -> (forall q, at_snap fs name (safety_name env) q -> T q) ->
  respects (outside T) (sv_rollback env fs name snap f ov).
Proof.
  intros HT HS. unfold sv_rollback. respects;
    first [by apply create_snapshot_outside | apply delete_outside, HT; hit | apply snapshot_outside; first [apply HT; hit|apply HS; hit]
          | apply set_xattr_outside, HT; hit].
Qed.

Lemma create_inner_outside req owner nested : (forall q, at_name (cv_filesystem req) (cv_name req) q -> T q) ->
  respects (outside T) (create_inner env req owner nested).
Proof.
  intros HT. unfold create_inner, vm_namespace. respects;
    match goal with H : fs_mount_point _ _ = Ok ?m |- context [subvol_path ?m _] =>
      assert (T (subvol_path m (cv_name req))) by (apply HT; hit) end; auto.
Qed.
End Outside.
End Frames.

(** ** Rollback *)

Section Rollback.
Context (env : VolEnv) (laws : BcachefsLaws (ve_tool env)).

Lemma tool_ok f w w' : tool f w = (w', Ok tt) -> f (vw_vols w) = (vw_vols w', None).
Proof.
  unfold tool, run_tool, m_bind, m_lift. destruct (f (vw_vols w)) as [v [e|]]; [done|]. by intros [= <-].
Qed.

Lemma path_exists_false e w q : path_exists e w q = false -> vw_vols w !! q = None.
Proof. unfold path_exists. by destruct (vw_vols w !! q). Qed.

(** The safety snapshot is a copy of the subvolume under a path not in use. *)
Lemma snapshot_taken fs name snap f w w' sn :
  create_snapshot_locked env fs name snap f w = (w', Ok sn) ->
  exists m n c, fs_mount_point env fs = Ok m /\ path_exists env w (snap_path m name snap) = false /\
    vw_vols w !! subvol_path m name = Some n /\ vw_vols w' !! snap_path m name snap = Some c /\ copy_of true n c /\
    (forall q, q <> snap_path m name snap -> vw_vols w' !! q = vw_vols w !! q).
Proof.
  unfold create_snapshot_locked, m_bind. destruct (sv_get env fs name f w) as [w1 [s|e]] eqn:E; [|done].
  apply get_found in E as (-> & _ & m & n & [Hm _ Hn _ _ _ _]). unfold m_lift at 1. rewrite Hm. unfold m_get.
  destruct (negb (path_exists env w (subvol_path m name))); [done|].
  destruct (path_exists env w (snap_path m name snap)) eqn:Ep; [done|].
  destruct (sv_get env fs name f w) as [w1 [s2|e]] eqn:E; [|done]. apply get_found in E as (-> & _).
  destruct (tool _ w) as [w2 [[]|e]] eqn:Et; [|done]. intros [= <- <-]. apply tool_ok in Et.
  apply (law_snapshot _ laws) in Et as [Hf Hc]. destruct (Hc eq_refl (path_exists_false _ _ _ Ep)) as (n' & c & Hn' & Hcc & Hcopy).
  rewrite Hn in Hn'. injection Hn' as <-. by exists m, n, c.
Qed.

Lemma longer_path a b c : a +:+ String b c <> a.
Proof.
  intros H. apply (f_equal to_bytes) in H. rewrite to_bytes_app in H. apply (f_equal length) in H. rewrite length_app in H.
  change (to_bytes (String b c)) with (b :: to_bytes c) in H. cbn in H. lia.
Qed.

Lemma snap_not_live m name snap : snap_path m name snap <> subvol_path m name.
Proof.
  unfold snap_path, subvol_path. change ("@" +:+ snap) with (String "@" snap). rewrite <- !string_app_assoc. apply longer_path.
Qed.

(** What recreating a subvolume leaves. *)
Lemma materialized snap dest f w w' :
  vw_vols w !! dest = None -> snap <> dest -> materialize_subvol_from_snapshot env snap dest f w = (w', Ok tt) ->
  exists t l, vw_vols w !! snap = Some t /\ vw_vols w' !! dest = Some l /\
    nd_data l = nd_data t /\ nd_image l = nd_image t /\ nd_ro l = false /\ owner_of l = match f with Some o => Some o | None => owner_of t end.
Proof.
  intros Hd Hne. unfold materialize_subvol_from_snapshot, m_bind. destruct (tool _ w) as [w1 [[]|e]] eqn:Et; [|done].
  apply tool_ok, (law_snapshot _ laws) in Et as [_ Hc]. destruct (Hc eq_refl Hd) as (t & l & Ht & Hl & [Hdata Hi Hx Hro]). clear Hc.
  unfold m_get at 1. destruct (on_some f _ w1) as [w2 [[]|e]] eqn:Eo; [|done].
  assert (exists l', vw_vols w2 !! dest = Some l' /\ nd_data l' = nd_data t /\ nd_image l' = nd_image t /\ nd_ro l' = false /\
          owner_of l' = match f with Some o => Some o | None => owner_of t end) as (l' & Hl' & H').
  { destruct f as [o|]; cbn [on_some] in Eo.
    - unfold set_xattr in Eo. destruct (ve_setxattr env dest XATTR_NASTY_OWNER); [done|].
      injection Eo as <-. cbn. rewrite lookup_alter_eq, Hl. eexists. split; [done|]. cbn.
      unfold owner_of. cbn. rewrite lookup_insert_eq. by rewrite Hdata, Hi, Hro.
    - injection Eo as <-. exists l. unfold owner_of. rewrite Hx. by rewrite Hdata, Hi, Hro. }
  intros Hlast. exists t, l'. destruct H' as (H1 & H2 & H3 & H4). split_and!; try done.
  destruct (is_block _); [|by injection Hlast as <-]. unfold m_get in Hlast.
  destruct (image_at (vw_vols w2) dest); [|by injection Hlast as <-]. unfold m_ret in Hlast.
  destruct (loop_attach env _ w2) as [w3 [d|e]] eqn:El; [|done]. injection Hlast as <-.
  pose proof (quiet_loop_attach env (dest +:+ "/" +:+ BLOCK_FILE_NAME) w2) as Hq. by rewrite El in Hq; cbn in Hq; rewrite Hq.
Qed.

(** Nothing but some paths changes at all. *)
Definition exactly (T : string -> Prop) (v v' : Vols) : Prop := forall q, ~ T q -> v' !! q = v !! q.

#[local] Instance exactly_preorder T : PreOrder (exactly T).
Proof.
  split; [by intros v q|]. intros a b c Hab Hbc q Hq. by rewrite (Hbc q Hq), (Hab q Hq).
Qed.

Lemma exactly_set_xattr T what path k x : T path -> respects (exactly T) (set_xattr env what path k x).
Proof.
  intros HT. unfold set_xattr. respects. apply respects_change. intros v q Hq. apply lookup_alter_ne. by intros ->.
Qed.

Lemma exactly_delete T path : T path -> respects (exactly T) (run_tool (bc_delete (ve_tool env) path)).
Proof.
  intros HT. apply respects_run_tool. intros v q Hq. destruct (bc_delete _ _ _) as [v' e] eqn:E.
  apply (law_delete _ laws) in E as [Hf _]. apply Hf. by intros ->.
Qed.

Lemma exactly_snapshot T ro src dst : T dst -> respects (exactly T) (run_tool (bc_snapshot (ve_tool env) ro src dst)).
Proof.
  intros HT. apply respects_run_tool. intros v q Hq. destruct (bc_snapshot _ _ _ _ _) as [v' e] eqn:E.
  apply (law_snapshot _ laws) in E as [Hf _]. apply Hf. by intros ->.
Qed.

Lemma exactly_safety fs name snap f m : fs_mount_point env fs = Ok m ->
  respects (exactly (fun q => q = snap_path m name snap)) (create_snapshot_locked env fs name snap f).
Proof. intros Hm. unfold create_snapshot_locked. respects. apply exactly_snapshot. congruence. Qed.

(** What follows the safety snapshot. *)
Definition recreate (fs name snap live : string) (f : option string) (quota : Z) what1 what2 : vol (Subvolume * string) :=
  blame what1 (tool (bc_delete (ve_tool env) live)) ;;;
  blame what2 (materialize_subvol_from_snapshot env snap live f) ;;;
  set_project_quota env (ve_project_id_for env fs name) quota ;;;
  recreated <~ sv_get env fs name None ;;
  m_ret (recreated, safety_name env).

Lemma exactly_recreate fs name snap live f quota what1 what2 :
  respects (exactly (fun q => q = live)) (recreate fs name snap live f quota what1 what2).
Proof.
  unfold recreate, materialize_subvol_from_snapshot. respects;
    first [by apply exactly_delete|by apply exactly_snapshot|by apply exactly_set_xattr].
Qed.

Lemma blame_ok {A} f (m : vol A) w w' a : blame f m w = (w', Ok a) -> m w = (w', Ok a).
Proof. unfold blame. by destruct (m w) as [w1 [b|[]]]. Qed.

Lemma recreated_ok fs name snap live f quota what1 what2 w w' s nm :
  snap <> live -> recreate fs name snap live f quota what1 what2 w = (w', Ok (s, nm)) ->
  nm = safety_name env /\ exists t l, vw_vols w !! snap = Some t /\ vw_vols w' !! live = Some l /\
    nd_data l = nd_data t /\ nd_image l = nd_image t /\ nd_ro l = false /\
    owner_of l = match f with Some o => Some o | None => owner_of t end.
Proof.
  intros Hne. unfold recreate, m_bind. destruct (blame what1 _ w) as [w1 [[]|]] eqn:E1; [|done].
  apply blame_ok, tool_ok, (law_delete _ laws) in E1 as (Hf & _ & Hd). specialize (Hd eq_refl).
  destruct (blame what2 _ w1) as [w2 [[]|]] eqn:E2; [|done]. apply blame_ok, materialized in E2 as (t & l & Ht & Hl & Hrest); [|done..].
  destruct (set_project_quota _ _ _ w2) as [w3 [[]|]] eqn:E3; [|done].
  assert (vw_vols w3 = vw_vols w2) as Hq.
  { pose proof (quiet_quota env (ve_project_id_for env fs name) quota w2) as H. by rewrite E3 in H. }
  destruct (sv_get env fs name None w3) as [w4 [s'|]] eqn:E4; [|done]. apply get_found in E4 as [-> _].
  intros [= <- <- <-]. split; [done|]. exists t, l. rewrite Hq. split_and!; try apply Hrest; [|done]. rewrite <- Ht. symmetry. by apply Hf.
Qed.

Lemma require_owner_ok actual f : require_owner actual f = Ok tt -> f = None \/ f = actual.
Proof. unfold require_owner. destruct f as [o|]; [|by left]. destruct (bool_decide_reflect (actual = Some o)); [by right|done]. Qed.

Lemma provenance_ok snapshot parent f :
  authorize_snapshot_provenance snapshot parent f false = Ok tt -> snapshot = parent /\ (f = None \/ f = parent).
Proof.
  unfold authorize_snapshot_provenance, result_bind. destruct (require_owner parent f) as [[]|] eqn:E1; [|done].
  destruct (require_owner snapshot f) as [[]|]; [|done]. apply require_owner_ok in E1.
  by destruct (bool_decide_reflect (snapshot = parent)).
Qed.

(** How a rollback ends. *)
Record rollback_outcome (m name snap : string) (override_ : bool) (n : Node) (w w' : VolWorld)
    (r : result (Subvolume * string) SubvolumeError) : Prop := {
  ro_frame : forall q, q <> subvol_path m name -> q <> snap_path m name (safety_name env) -> vw_vols w' !! q = vw_vols w !! q;
  ro_kept : vw_vols w' !! subvol_path m name = Some n \/
    exists c, vw_vols w' !! snap_path m name (safety_name env) = Some c /\ copy_of true n c;
  ro_done : forall s nm, r = Ok (s, nm) -> nm = safety_name env /\ exists t l c,
    vw_vols w !! snap_path m name snap = Some t /\ vw_vols w' !! subvol_path m name = Some l /\
    vw_vols w' !! snap_path m name (safety_name env) = Some c /\ copy_of true n c /\
    nd_data l = nd_data t /\ nd_image l = nd_image t /\ nd_ro l = false /\
    (override_ = false -> owner_of l = owner_of n);
}.

Lemma rollback_quits m name snap override_ n w e :
  vw_vols w !! subvol_path m name = Some n -> rollback_outcome m name snap override_ n w w (Err e).
Proof. intros Hn. split; [done|by left|done]. Qed.

Lemma safety_then_recreate fs name snap f override_ m n w quota what1 what2 :
  fs_mount_point env fs = Ok m -> vw_vols w !! subvol_path m name = Some n ->
  path_exists env w (snap_path m name snap) = true ->
  (override_ = false -> match f with Some o => Some o | None => mt_owner (read_meta_xattrs env (vw_vols w) (snap_path m name snap)) end = owner_of n) ->
  let '(w', r) := (create_snapshot_locked env fs name (safety_name env) f ;;;
                   recreate fs name (snap_path m name snap) (subvol_path m name) f quota what1 what2) w in
  rollback_outcome m name snap override_ n w w' r.
Proof.
  intros Hm Hn Hex Hown. unfold m_bind at 1.
  pose proof (respects_run _ _ w (exactly_safety fs name (safety_name env) f m Hm)) as Hs.
  destruct (create_snapshot_locked env fs name (safety_name env) f w) as [w1 [sn|e]] eqn:E1; cbn in Hs.
  2:{ split; [intros q _ Hq; by apply Hs| |done]. left. rewrite <- Hn. apply Hs. intros H. by eapply snap_not_live. }
  apply snapshot_taken in E1 as (m' & n' & c & Hm' & Hp & Hn' & Hc & Hcopy & _). rewrite Hm in Hm'. injection Hm' as <-.
  rewrite Hn in Hn'. injection Hn' as <-.
  assert (snap_path m name snap <> snap_path m name (safety_name env)) as Hsn by (intros H; congruence).
  pose proof (respects_run _ _ w1 (exactly_recreate fs name (snap_path m name snap) (subvol_path m name) f quota what1 what2)) as Hr.
  destruct (recreate _ _ _ _ _ _ _ _ w1) as [w' r] eqn:E2. cbn in Hr. split.
  - intros q H1 H2. by rewrite Hr, Hs.
  - right. exists c. split; [|done]. rewrite <- Hc. apply Hr. apply snap_not_live.
  - intros s nm ->. apply recreated_ok in E2 as [-> (t & l & Ht & Hl & Hd & Hi & Hro & Ho)]; [|apply snap_not_live].
    split; [done|]. rewrite Hs in Ht by done. exists t, l, c. split_and!; try done.
    + rewrite <- Hc. apply Hr. apply snap_not_live.
    + intros Hov. rewrite <- (Hown Hov), Ho. destruct f; [done|]. unfold read_meta_xattrs, xattrs_at. by rewrite Ht.
Qed.

(** C2. A rollback never loses data.  Whatever command fails, and however, no
    path but the subvolume and its safety snapshot changes; the subvolume is
    still there as it was, or a read-only copy of its files, image and
    attributes is in the safety snapshot; and a rollback that succeeds leaves the
    files of the snapshot, writable, at the path of the subvolume, the old state
    in the safety snapshot, and the owner as it was unless an administrator
    overrode the check. *)
Theorem rollback_never_loses_data fs name snap f override_ m n w :
  fs_mount_point env fs = Ok m -> vw_vols w !! subvol_path m name = Some n ->
  let '(w', r) := sv_rollback env fs name snap f override_ w in rollback_outcome m name snap override_ n w w' r.
Proof.
  intros Hm Hn. pose proof (rollback_quits m name snap override_ n w) as Hquit. unfold sv_rollback.
  unfold m_bind at 1, m_lift at 1. destruct (validate_existing_snapshot_name name snap) as [[]|]; [|by apply Hquit].
  unfold m_bind at 1. destruct (sv_get env fs name f w) as [w1 [s|e]] eqn:Eg.
  2:{ unfold sv_get in Eg. injection Eg as <- _. by apply Hquit. }
  apply get_found in Eg as (-> & Hreq & m' & n' & [Hm' _ Hn' Ho _ _ _]). rewrite Hm in Hm'. injection Hm' as <-.
  rewrite Hn in Hn'. injection Hn' as <-. destruct (is_block (sb_type s)); [by apply Hquit|].
  unfold m_bind at 1, m_lift at 1. rewrite Hm. unfold m_bind at 1, m_get at 1.
  destruct (path_exists env w (snap_path m name snap)) eqn:Ex; cbn [negb]; [|by apply Hquit].
  unfold m_bind at 1, m_lift at 1. destruct (authorize_snapshot_provenance _ _ _ _) as [[]|] eqn:Eau; [|by apply Hquit].
  unfold m_bind at 1, m_lift at 1. destruct (find_child_subvolumes env name) as [[|ch l]|]; [|by apply Hquit..].
  apply safety_then_recreate; [done..|]. intros ->. apply provenance_ok in Eau as [Hsp [Hf|Hf]]; destruct f as [o|]; congruence.
Qed.
End Rollback.

(** A bcachefs that does what it is asked. *)
Definition plain_node (id : string) (x : gmap string string) (data : string) (ro : bool) : Node :=
  mkNode id None ro None x None data 511.

Definition plain_bcachefs : Bcachefs := mkBcachefs
  (fun p v => (<[p := plain_node p ∅ "" false]> v, None))
  (fun p v => (delete p v, None))
  (fun ro s d v => match v !! s with
                   | Some n => (<[d := mkNode d None ro (Some s) (nd_xattrs n) (nd_image n) (nd_data n) (nd_mode n)]> v, None)
                   | None => (v, Some "no such subvolume")
                   end)
  (fun _ _ v => (v, None)).

Lemma plain_bcachefs_laws : BcachefsLaws plain_bcachefs.
Proof.
  split; cbn.
  - intros p v v' e [= <- <-]. split; [intros q Hq; by apply lookup_insert_ne|]. intros _ _. by eexists; rewrite lookup_insert_eq.
  - intros p v v' e [= <- <-]. split_and!; [intros q Hq; by apply lookup_delete_ne|right; apply lookup_delete_eq|intros _; apply lookup_delete_eq].
  - intros ro s d v v' e. destruct (v !! s) as [n|] eqn:E; intros [= <- <-]; [|by split].
    split; [intros q Hq; by apply lookup_insert_ne|]. intros _ _. eexists n, _. by rewrite lookup_insert_eq.
  - intros o p v v' e [= <- <-]. split; [|done]. intros q. by apply same_at_eq.
Qed.

Definition plain_env : VolEnv := mkVolEnv plain_bcachefs
  (fun n => if String.eqb n "tank" then Some (mkFsInfo "uuid" (Some "/fs/tank") None None None) else None)
  None (Ok "") ∅ (fun _ => None) (fun _ => false) (fun _ => ∅) (fun _ _ => None) (fun _ _ => None) (Ok "/dev/loop0") None Some None None None None
  None None (Ok true) None None None (Ok "ext4") (Ok "uuid") (Ok None) None None true (fun _ _ => 7) 1700000000.

(** Two subvolumes, one of them with a snapshot. *)
Definition plain_vols : VolWorld := mkVolWorld
  (list_to_map [("/fs/tank/docs", plain_node "1" {[XATTR_NASTY_OWNER := "alice"]} "new" false);
                ("/fs/tank/docs@monday", mkNode "2" None true (Some "docs") {[XATTR_NASTY_OWNER := "alice"]} None "old" 511);
                ("/fs/tank/pics", plain_node "3" {[XATTR_NASTY_OWNER := "bob"]} "cat" false)]) ∅ ∅ [] [].

(** The rollback of a subvolume to its snapshot. *)
Lemma rollback_never_loses_data_witness :
  rollback_outcome plain_env "/fs/tank" "docs" "monday" false (plain_node "1" {[XATTR_NASTY_OWNER := "alice"]} "new" false) plain_vols
    (sv_rollback plain_env "tank" "docs" "monday" (Some "alice") false plain_vols).1
    (sv_rollback plain_env "tank" "docs" "monday" (Some "alice") false plain_vols).2 /\
  nd_data <$> vw_vols (sv_rollback plain_env "tank" "docs" "monday" (Some "alice") false plain_vols).1 !! "/fs/tank/docs" = Some "old".
Proof.
  split; [|vm_compute; reflexivity].
  pose proof (rollback_never_loses_data plain_env plain_bcachefs_laws "tank" "docs" "monday" (Some "alice") false "/fs/tank"
    (plain_node "1" {[XATTR_NASTY_OWNER := "alice"]} "new" false) plain_vols eq_refl) as H.
  assert (vw_vols plain_vols !! subvol_path "/fs/tank" "docs" = Some (plain_node "1" {[XATTR_NASTY_OWNER := "alice"]} "new" false)) as Hn by (vm_compute; reflexivity).
  specialize (H Hn). destruct (sv_rollback _ _ _ _ _ _ _). exact H.
Defined.
