(* ===== verification/SubvolOwner.v ===== *)
(** * Operations of an owner

    A token or user that owns subvolumes sends its requests with its name as
    the owner filter: whatever it asks for, and whatever fails on the way, the
    subvolumes and snapshots of others and of nobody stay as they are.  Only what
    encloses a destination is not looked at: a request may create a subvolume
    inside one of somebody else. *)

From Stdlib Require Import ZArith Lia Ascii String.
From stdpp Require Import base list gmap strings.
From S2P Require Import Prelude.
From S2P Require Import RustStr.
From S2P Require Import Text.
From S2P Require Import RustPath.
From S2P Require Import ShareScope.
From S2P Require Import Subvol.
From S2P Require Import SubvolProps.

(** The operations that take an owner. *)
Inductive VolOp : Type :=
  | OpCreate (req : CreateSubvolumeRequest)
  | OpCreateDisk (fs name : string) (size : Z)
  | OpDelete (fs name : string)
  | OpAttach (fs name : string)
  | OpDetach (fs name : string)
  | OpResize (fs name : string) (size : Z)
  | OpUpdate (req : UpdateSubvolumeRequest)
  | OpSetProperties (fs name : string) (ps : list (string * string))
  | OpRemoveProperties (fs name : string) (ks : list string)
  | OpSnapshot (fs name snap : string)
  | OpDeleteSnapshot (fs name snap : string)
  | OpCloneSnapshot (fs name snap new : string)
  | OpClone (fs name new : string)
  | OpRollback (fs name snap : string).

Definition unit_op {A} (m : vol A) : vol unit := m ;;; m_ret tt.

(** With the filter of an owner, and no administrator's override. *)
Definition run_as (env : VolEnv) (o : string) (op : VolOp) : vol unit :=
  match op with
  | OpCreate req => unit_op (sv_create env req (Some o))
  | OpCreateDisk fs name size => unit_op (create_vm_disk env fs name size (Some o))
  | OpDelete fs name => unit_op (sv_delete env fs name (Some o))
  | OpAttach fs name => unit_op (sv_attach env fs name (Some o))
  | OpDetach fs name => unit_op (sv_detach env fs name (Some o))
  | OpResize fs name size => unit_op (sv_resize env fs name size (Some o))
  | OpUpdate req => unit_op (sv_update env req (Some o))
  | OpSetProperties fs name ps => unit_op (set_properties env fs name ps (Some o))
  | OpRemoveProperties fs name ks => unit_op (remove_properties env fs name ks (Some o))
  | OpSnapshot fs name snap => unit_op (create_snapshot env fs name snap (Some o))
  | OpDeleteSnapshot fs name snap => unit_op (delete_snapshot env fs name snap (Some o) false)
  | OpCloneSnapshot fs name snap new => unit_op (clone_snapshot env fs name snap new (Some o) false)
  | OpClone fs name new => unit_op (clone_subvolume env fs name new (Some o))
  | OpRollback fs name snap => unit_op (sv_rollback env fs name snap (Some o) false)
  end.

(** The paths an operation names to change or to make. *)
Definition named (env : VolEnv) (op : VolOp) (q : string) : Prop :=
  match op with
  | OpCreate req => at_name env (cv_filesystem req) (cv_name req) q
  | OpCreateDisk fs name _ => at_name env fs ("vms/" +:+ name) q
  | OpUpdate req => at_name env (uv_filesystem req) (uv_name req) q
  | OpDelete fs name | OpAttach fs name | OpDetach fs name | OpResize fs name _
  | OpSetProperties fs name _ | OpRemoveProperties fs name _ => at_name env fs name q
  | OpSnapshot fs name snap | OpDeleteSnapshot fs name snap => at_snap env fs name snap q
  | OpCloneSnapshot fs _ _ new | OpClone fs _ new => at_name env fs new q
  | OpRollback fs name _ => at_name env fs name q \/ at_snap env fs name (safety_name env) q
  end.

Section Owned.
Context (env : VolEnv) (laws : BcachefsLaws (ve_tool env)) (o : string) (N : string -> Prop).

(** The paths an owner may change: its own, and those not in use. *)
Definition mine (v : Vols) (q : string) : Prop :=
  match v !! q with Some n => owner_of n = Some o | None => True end.

(** The paths that may change. *)
Definition open_to (v : Vols) (q : string) : Prop := mine v q /\ N q.

(** Run on [w], only what is [mine] and named changes. *)
Definition spares {A} (m : vol A) (w : VolWorld) : Prop := outside (open_to (vw_vols w)) (vw_vols w) (vw_vols (m w).1).

Lemma spares_unchanged {A} (m : vol A) w : vw_vols (m w).1 = vw_vols w -> spares m w.
Proof. intros E. unfold spares. rewrite E. reflexivity. Qed.

Lemma spares_lift {A B} (r : result A SubvolumeError) (k : A -> vol B) w :
  (forall a, r = Ok a -> spares (k a) w) -> spares (m_bind (m_lift r) k) w.
Proof. intros H. destruct r as [a|e]; [by apply H|by apply spares_unchanged]. Qed.

(** A look-up with the filter establishes that the path is the owner's. *)
Lemma get_mine fs name w w' s q : sv_get env fs name (Some o) w = (w', Ok s) -> at_name env fs name q -> mine (vw_vols w) q.
Proof.
  intros (-> & Hreq & m & n & [Hm _ Hn Ho _ _ _])%get_found (m' & Hm' & ->). rewrite Hm in Hm'. injection Hm' as <-.
  unfold mine. rewrite Hn, <- Ho. by apply require_owner_ok in Hreq as [|].
Qed.

Lemma spares_get {B} fs name (k : Subvolume -> vol B) w :
  ((forall q, at_name env fs name q -> mine (vw_vols w) q) -> forall s, spares (k s) w) ->
  spares (m_bind (sv_get env fs name (Some o)) k) w.
Proof.
  intros H. unfold spares, m_bind. destruct (sv_get env fs name (Some o) w) as [w' [s|e]] eqn:E.
  - pose proof E as (-> & _)%get_found. apply H. intros q. by apply get_mine with (1 := E).
  - unfold sv_get in E. injection E as <- _. reflexivity.
Qed.

(** An operation that starts with such a look-up is a matter of its frame. *)
Lemma spares_gated {B} fs name (k : Subvolume -> vol B) w :
  ((forall q, at_name env fs name q -> mine (vw_vols w) q) -> respects (outside (open_to (vw_vols w))) (m_bind (sv_get env fs name (Some o)) k)) ->
  spares (m_bind (sv_get env fs name (Some o)) k) w.
Proof.
  intros H. unfold spares. destruct (sv_get env fs name (Some o) w) as [w' [s|e]] eqn:E.
  - apply (respects_run (outside (open_to (vw_vols w)))), H. intros q. by apply get_mine with (1 := E).
  - unfold m_bind. rewrite E. unfold sv_get in E. injection E as <- _. reflexivity.
Qed.

Lemma spares_unit {A} (m : vol A) w : spares m w -> spares (unit_op m) w.
Proof. unfold spares, unit_op, m_bind. by destruct (m w) as [w' [a|e]]. Qed.

Lemma absent_mine w q : path_exists env w q = false -> mine (vw_vols w) q.
Proof. unfold mine. by intros ->%path_exists_false. Qed.

Lemma read_owner v q n : v !! q = Some n -> mt_owner (read_meta_xattrs env v q) = owner_of n.
Proof. unfold read_meta_xattrs, xattrs_at. by intros ->. Qed.

Lemma authorized_mine v q parent :
  authorize_snapshot env v q parent (Some o) false = Ok tt -> mine v q.
Proof.
  unfold mine. destruct (v !! q) as [n|] eqn:E; [|done]. rewrite <- (read_owner _ _ _ E). unfold authorize_snapshot.
  destruct parent as [p|].
  - by intros [-> [|]]%provenance_ok.
  - unfold authorize_orphan_snapshot. by intros [|]%require_owner_ok.
Qed.

(** A frame whose paths are the owner's. *)
Lemma spares_frame {A} (m : vol A) w : respects (outside (open_to (vw_vols w))) m -> spares m w.
Proof. apply (respects_run (outside (open_to (vw_vols w)))). Qed.

Lemma spares_m_get {A} (k : VolWorld -> vol A) w : spares (k w) w -> spares (m_bind m_get k) w.
Proof. done. Qed.

(** Only directories are made. *)
Definition only_dirs (w w' : VolWorld) : Prop := vw_vols w' = vw_vols w /\ exists l, vw_made w' = vw_made w ++ l.

Lemma spares_quiet {A B} (m : vol A) (k : A -> vol B) w :
  (forall w, only_dirs w (m w).1) -> (forall a w', only_dirs w w' -> spares (k a) w') -> spares (m_bind m k) w.
Proof.
  intros Hm Hk. unfold spares, m_bind. specialize (Hm w). destruct (m w) as [w' [a|e]]; cbn in *; [|destruct Hm as [-> _]; reflexivity].
  specialize (Hk a w' Hm). destruct Hm as [Hm _]. by rewrite <- Hm.
Qed.

Lemma path_exists_more w w' q : only_dirs w w' -> path_exists env w q = true -> path_exists env w' q = true.
Proof.
  intros [Hv [l Hl]]. unfold path_exists. rewrite Hv. destruct (vw_vols w !! q); [done|]. rewrite !orb_true_iff, !bool_decide_eq_true, Hl, elem_of_app. tauto.
Qed.

Lemma vm_namespace_dirs path w : only_dirs w (vm_namespace env path w).1.
Proof.
  assert (only_dirs w w) as H0 by (split; [done|exists []; by rewrite app_nil_r]). unfold vm_namespace, m_bind, m_get, m_ret, m_throw.
  destruct (path_exists env w (parent_path path)); [by destruct (ve_parent_dir env) as [[]|]|].
  destruct (ve_mkdir env) as [[k e]|]; [done|]. assert (only_dirs w (add_dirs [parent_path path] w).1) by (split; [done|by eexists]).
  unfold add_dirs, m_modify in *. by destruct (ve_parent_dir env) as [[]|].
Qed.

Lemma snapshot_parent_pure fs name f w : (snapshot_parent env fs name f w).1 = w.
Proof. unfold snapshot_parent, sv_get. by destruct (result_bind _ _) as [|[]]. Qed.

Lemma create_inner_spares req nested w : (forall q, at_name env (cv_filesystem req) (cv_name req) q -> N q) -> spares (create_inner env req (Some o) nested) w.
Proof.
  intros HN. pose proof (create_inner_outside env laws (open_to (vw_vols w)) req (Some o) nested) as Hframe. unfold create_inner in *.
  destruct (check_create_request req nested) as [eff|e]; [|by apply spares_unchanged].
  destruct (fs_mount_point env (cv_filesystem req)) as [m|e] eqn:Em; [|by apply spares_unchanged].
  set (path := subvol_path m (cv_name req)) in *.
  destruct (path_exists env w path) eqn:Ep.
  2:{ apply spares_frame, Hframe. intros q Hq. split; [|by apply HN]. destruct Hq as (m' & Hm' & ->). rewrite Em in Hm'. injection Hm' as <-. by apply absent_mine. }
  clear Hframe. apply spares_lift. intros ? [= <-]. apply spares_lift. intros ? [= <-].
  apply spares_quiet; [intros w1; destruct nested; [apply vm_namespace_dirs|split; [done|exists []; by rewrite app_nil_r]]|].
  intros [] w' Hw. apply spares_m_get. fold path. rewrite (path_exists_more _ _ _ Hw Ep). unfold existing_destination. apply spares_m_get.
  destruct (bool_decide _); [by apply spares_unchanged|]. apply spares_gated. intros Hmine. respects.
  apply chmod_outside. split; [apply Hmine|apply HN]; by exists m.
Qed.

Lemma delete_snapshot_spares fs name snap w : (forall q, at_snap env fs name snap q -> N q) -> spares (delete_snapshot env fs name snap (Some o) false) w.
Proof.
  intros HN. unfold delete_snapshot. apply spares_lift. intros _ _. unfold spares, m_bind at 1.
  destruct (snapshot_parent env fs name (Some o) w) as [w1 [p|e]] eqn:E; pose proof (snapshot_parent_pure fs name (Some o) w) as Hp;
    rewrite E in Hp; cbn in Hp; subst w1; [|reflexivity].
  rewrite bool_decide_eq_false_2 by done. cbn [andb]. apply spares_lift. intros m Hm. apply spares_m_get.
  destruct (path_exists _ _ _); cbn [negb]; [|by apply spares_unchanged]. apply spares_lift. intros [] Hau%authorized_mine.
  apply spares_frame. respects. apply delete_outside; [done|]. split; [done|]. apply HN. by exists m.
Qed.

(** A snapshot under a path in use is refused. *)
Lemma snapshot_refused fs name snap f m w : fs_mount_point env fs = Ok m -> path_exists env w (snap_path m name snap) = true ->
  exists e, create_snapshot_locked env fs name snap f w = (w, Err e).
Proof.
  intros Hm Hp. unfold create_snapshot_locked, m_bind. destruct (sv_get env fs name f w) as [w1 [s|e]] eqn:E.
  2:{ unfold sv_get in E. injection E as <- _. by exists e. }
  apply get_found in E as (-> & _). unfold m_lift, m_get. rewrite Hm, Hp. destruct (path_exists _ _ (subvol_path _ _)); eexists; reflexivity.
Qed.

Lemma create_snapshot_spares fs name snap w : (forall q, at_snap env fs name snap q -> N q) -> spares (create_snapshot env fs name snap (Some o)) w.
Proof.
  intros HN. apply spares_lift. intros _ _. destruct (fs_mount_point env fs) as [m|e] eqn:Em.
  2:{ apply spares_frame, create_snapshot_outside; [done|]. intros q (m & Hm & _). congruence. }
  destruct (path_exists env w (snap_path m name snap)) eqn:Ep.
  - destruct (snapshot_refused fs name snap (Some o) m w Em Ep) as [e He]. apply spares_unchanged. by rewrite He.
  - apply spares_frame, create_snapshot_outside; [done|]. intros q Hq. split; [|by apply HN]. destruct Hq as (m' & Hm' & ->). rewrite Em in Hm'. injection Hm' as <-. by apply absent_mine.
Qed.

(** A clone makes its destination, or changes nothing. *)
Lemma clone_snapshot_spares fs name snap new w : (forall q, at_name env fs new q -> N q) -> spares (clone_snapshot env fs name snap new (Some o) false) w.
Proof.
  intros HN. pose proof (clone_snapshot_outside env laws (open_to (vw_vols w)) fs name snap new (Some o) false) as Hframe.
  destruct (fs_mount_point env fs) as [m|e] eqn:Em.
  2:{ apply spares_frame, Hframe. intros q (m & Hm & _). congruence. }
  destruct (path_exists env w (subvol_path m new)) eqn:Ep.
  2:{ apply spares_frame, Hframe. intros q Hq. split; [|by apply HN]. destruct Hq as (m' & Hm' & ->). rewrite Em in Hm'. injection Hm' as <-. by apply absent_mine. }
  clear Hframe. unfold clone_snapshot. do 2 (apply spares_lift; intros _ _). unfold spares, m_bind at 1.
  destruct (snapshot_parent env fs name (Some o) w) as [w1 [p|e]] eqn:E; pose proof (snapshot_parent_pure fs name (Some o) w) as Hp;
    rewrite E in Hp; cbn in Hp; subst w1; [|reflexivity].
  rewrite bool_decide_eq_false_2 by done. cbn [andb]. apply spares_lift. intros m' Hm'. rewrite Em in Hm'. injection Hm' as <-. apply spares_m_get.
  destruct (negb _); [by apply spares_unchanged|]. do 2 (apply spares_lift; intros ? _). rewrite Ep. apply spares_frame. respects.
Qed.

Lemma clone_subvolume_spares fs name new w : (forall q, at_name env fs new q -> N q) -> spares (clone_subvolume env fs name new (Some o)) w.
Proof.
  intros HN. pose proof (clone_subvolume_outside env laws (open_to (vw_vols w)) fs name new (Some o)) as Hframe.
  destruct (fs_mount_point env fs) as [m|e] eqn:Em.
  2:{ apply spares_frame, Hframe. intros q (m & Hm & _). congruence. }
  destruct (path_exists env w (subvol_path m new)) eqn:Ep.
  2:{ apply spares_frame, Hframe. intros q Hq. split; [|by apply HN]. destruct Hq as (m' & Hm' & ->). rewrite Em in Hm'. injection Hm' as <-. by apply absent_mine. }
  clear Hframe. unfold clone_subvolume. do 2 (apply spares_lift; intros _ _). apply spares_get. intros _ s.
  apply spares_lift. intros m' Hm'. rewrite Em in Hm'. injection Hm' as <-. apply spares_m_get.
  destruct (negb _); [by apply spares_unchanged|]. apply spares_lift. intros ? _. rewrite Ep. apply spares_frame. respects.
Qed.

Lemma rollback_spares fs name snap w : (forall q, at_name env fs name q \/ at_snap env fs name (safety_name env) q -> N q) -> spares (sv_rollback env fs name snap (Some o) false) w.
Proof.
  intros HN. pose proof (rollback_outside env laws (open_to (vw_vols w)) fs name snap (Some o) false) as Hframe. unfold sv_rollback in *.
  destruct (validate_existing_snapshot_name name snap) as [[]|]; [|by apply spares_unchanged]. apply spares_lift. intros [] _.
  destruct (fs_mount_point env fs) as [m|e] eqn:Em.
  2:{ apply spares_get. intros _ s. destruct (is_block _); by apply spares_unchanged. }
  destruct (path_exists env w (snap_path m name (safety_name env))) eqn:Ep.
  2:{ apply spares_gated. intros Hmine. apply Hframe; [intros q Hq; split; [by apply Hmine|apply HN; by left]|].
      intros q Hq. split; [|apply HN; by right]. destruct Hq as (m' & Hm' & ->). rewrite Em in Hm'. injection Hm' as <-. by apply absent_mine. }
  clear Hframe. apply spares_get. intros _ s. destruct (is_block _); [by apply spares_unchanged|]. apply spares_lift. intros m' [= <-].
  apply spares_m_get. destruct (negb _); [by apply spares_unchanged|]. apply spares_lift. intros _ _. apply spares_lift. intros ch _.
  destruct ch; [|by apply spares_unchanged]. apply spares_unchanged. unfold m_bind at 1.
  by destruct (snapshot_refused fs name (safety_name env) (Some o) m w Em Ep) as [e ->].
Qed.
End Owned.

(** ** Directories *)

(** Every directory made leads to a path of [N]. *)
Definition leads {A} (N : string -> Prop) (m : vol A) : Prop :=
  forall w d, d ∈ vw_made (m w).1 -> d ∈ vw_made w \/ exists q, N q /\ within q d.

Section Leads.
Context (N : string -> Prop).

Lemma leads_bind {A B} (m : vol A) (k : A -> vol B) : leads N m -> (forall a, leads N (k a)) -> leads N (m_bind m k).
Proof.
  intros Hm Hk w d. unfold m_bind. specialize (Hm w d). destruct (m w) as [w1 [a|e]]; cbn in *; [|done]. intros [H|H]%Hk; [by apply Hm|by right].
Qed.

Lemma leads_same {A} (m : vol A) : (forall w, vw_made (m w).1 = vw_made w) -> leads N m.
Proof. intros H w d. rewrite H. by left. Qed.

Lemma leads_lift_bind {A B} (r : result A SubvolumeError) (k : A -> vol B) : (forall a, r = Ok a -> leads N (k a)) -> leads N (m_bind (m_lift r) k).
Proof. intros H. destruct r as [a|e]; [by apply H|by apply leads_same]. Qed.

Lemma leads_ignore {A} (m : vol A) : leads N m -> leads N (m_ignore m).
Proof. intros H w. apply H. Qed.

Lemma leads_each {A} (f : A -> vol unit) l : (forall x, leads N (f x)) -> leads N (each f l).
Proof. intros H. induction l as [|x l IH]; [by apply leads_same|]. by apply leads_bind; [|intros _]. Qed.

Lemma leads_on_some {A} (x : option A) f : (forall a, leads N (f a)) -> leads N (on_some x f).
Proof. intros H. destruct x; [apply H|by apply leads_same]. Qed.

Lemma leads_blame {A} f (m : vol A) : leads N m -> leads N (blame f m).
Proof. intros H w d. specialize (H w d). unfold blame. by destruct (m w) as [w' [a|[]]]. Qed.

Lemma leads_run_tool f : leads N (run_tool f).
Proof. apply leads_same. intros w. unfold run_tool. by destruct (f (vw_vols w)). Qed.

Lemma leads_detach env d : leads N (loop_detach env d).
Proof. apply leads_same. intros w. unfold loop_detach. by destruct (ve_detach env). Qed.

Lemma leads_or_quarantine {A} env block dev (m : vol A) : leads N m -> leads N (or_quarantine env block dev m).
Proof.
  intros H w d. specialize (H w d). unfold or_quarantine. destruct (m w) as [w' [a|e]]; [done|]. cbn in *. destruct block; [|done].
  unfold quarantine_failed_create. destruct dev as [dev|]; [|done]. unfold loop_detach, m_bind. by destruct (ve_detach env).
Qed.

Lemma leads_loop_attach env img : leads N (loop_attach env img).
Proof. apply leads_same. intros w. unfold loop_attach. by destruct (ve_losetup env). Qed.

Lemma leads_quota_limit env p b : leads N (set_project_quota_limit env p b).
Proof. apply leads_same. intros w. unfold set_project_quota_limit. by destruct (ve_quota_limit env). Qed.

Lemma leads_register env p : leads N (register_project env p).
Proof. apply leads_same. intros w. unfold register_project, m_modify. cbn. by destruct (existsb _ _), (ve_projid_write env). Qed.

Lemma leads_unregister env p : leads N (unregister_project env p).
Proof. apply leads_same. intros w. unfold unregister_project, m_modify. cbn. by destruct (ve_projid_write env). Qed.

Lemma leads_parent env fs name f : leads N (snapshot_parent env fs name f).
Proof. apply leads_same. intros w. by rewrite snapshot_parent_pure. Qed.

Lemma leads_add_dirs l : (forall d, d ∈ l -> exists q, N q /\ within q d) -> leads N (add_dirs l).
Proof. intros H w d. cbn. rewrite elem_of_app. intros [?|?]; [by left|right; auto]. Qed.
End Leads.

#[local] Opaque leads.

Ltac leads :=
  repeat first
    [ apply leads_run_tool | apply leads_detach | apply leads_loop_attach | apply leads_quota_limit | apply leads_register | apply leads_unregister
    | apply leads_parent | apply leads_ignore | apply leads_or_quarantine | apply leads_blame | apply leads_each; intros ? | apply leads_on_some; intros ?
    | by apply leads_same | apply leads_bind; [|intros ?] | progress unfold chmod, set_xattr
    | match goal with |- leads _ (match ?x with _ => _ end) => destruct x end
    | match goal with |- leads _ (let '(_, _) := ?x in _) => destruct x end ].

Lemma str_join_app l k : l <> [] -> k <> [] -> str_join "/" (l ++ k) = str_join "/" l +:+ "/" +:+ str_join "/" k.
Proof.
  intros Hl Hk. apply to_bytes_inj. rewrite !to_bytes_app. unfold str_join. rewrite !to_of_bytes. induction l as [|x l IH]; [done|].
  destruct l as [|y l]; [by destruct k|]. cbn [app fmap list_fmap join_bytes] in *. rewrite IH by done. by rewrite <- !(assoc_L app).
Qed.

(** Cutting a path at a slash gives a directory that leads to it. *)
Lemma join_cut (l : list string) k : (0 < k)%nat -> within (str_join "/" l) (str_join "/" (take k l)).
Proof.
  intros Hk. destruct (drop k l) as [|x r] eqn:E; [rewrite <- (take_drop k l) at 1; rewrite E, app_nil_r; by left|].
  right. apply starts_with_spec. exists (str_join "/" (x :: r)). rewrite <- (take_drop k l) at 1. rewrite E, string_app_assoc.
  apply str_join_app; [|done]. destruct k; [lia|]. by destruct l.
Qed.

Lemma leading_leads path d : d ∈ leading path -> within path d.
Proof.
  intros (k & -> & Hk%elem_of_seq)%list_elem_of_fmap. rewrite <- (split_join_str "/" path) at 1. apply join_cut. lia.
Qed.

Lemma parent_leads m name : within (subvol_path m name) (parent_path (subvol_path m name)).
Proof.
  unfold parent_path. set (p := subvol_path m name). rewrite <- (split_join_str "/" p) at 1.
  assert (removelast (str_split "/" p) = take (length (str_split "/" p) - 1) (str_split "/" p)) as ->.
  { generalize (str_split "/" p). induction l as [|x [|y l] IH]; [done|done|]. cbn in *. by rewrite IH, Nat.sub_0_r. }
  apply join_cut. unfold p, subvol_path, str_split. rewrite length_fmap, to_bytes_app. change (to_bytes ("/" +:+ name)) with ("/"%char :: to_bytes name).
  rewrite split_bytes_app_sep, length_app. pose proof (split_bytes_nonempty "/" (to_bytes m)). pose proof (split_bytes_nonempty "/" (to_bytes name)).
  destruct (split_bytes "/" (to_bytes m)), (split_bytes "/" (to_bytes name)); cbn; try done; lia.
Qed.

Lemma create_inner_leads env req owner nested N : (forall q, at_name env (cv_filesystem req) (cv_name req) q -> N q) -> leads N (create_inner env req owner nested).
Proof.
  intros HN. unfold create_inner. apply leads_bind; [by apply leads_same|]. intros eff. apply leads_lift_bind. intros m Hm.
  set (path := subvol_path m (cv_name req)). assert (N path) as Hp by (apply HN; by exists m).
  assert (forall d, d ∈ leading (parent_path path) -> exists q, N q /\ within q d) as Hlead.
  { intros d Hd%leading_leads. exists path. split; [done|]. eapply within_trans; [apply parent_leads|done]. }
  unfold vm_namespace, create_fresh. leads; apply leads_add_dirs; intros d Hd.
  - apply list_elem_of_singleton in Hd as ->. exists path. split; [done|apply parent_leads].
  - apply elem_of_take in Hd as (k & Hd & _). apply list_elem_of_lookup_2, list_elem_of_In, filter_In in Hd as [Hd _]. by apply Hlead, list_elem_of_In.
  - apply list_elem_of_In, filter_In in Hd as [Hd _]. by apply Hlead, list_elem_of_In.
Qed.

Lemma run_as_leads env o op : leads (named env op) (run_as env o op).
Proof.
  assert (forall A (m : vol A) N, leads N m -> leads N (unit_op m)) as Hunit by (intros A m N H; unfold unit_op; by leads).
  destruct op; apply Hunit.
  - by apply create_inner_leads.
  - unfold create_vm_disk. apply leads_lift_bind. intros nm Hnm.
    do 2 (apply leads_bind; [by apply leads_same|]; intros ?). apply create_inner_leads. intros q.
    unfold vm_disk_subvolume_name in Hnm. apply result_bind_ok in Hnm as (? & _ & Hnm). destruct (negb _) in Hnm; [|done].
    apply result_bind_ok in Hnm as (? & _ & [= <-]). done.
  - unfold sv_delete. leads.
  - unfold sv_attach. leads.
  - unfold sv_detach. leads.
  - unfold sv_resize, resize_block, resize_filesystem. leads.
  - unfold sv_update, update_compression, update_comments, update_erasure, remove_xattr_quiet, set_xattr. leads.
  - unfold set_properties, set_property, set_xattr. leads.
  - unfold remove_properties, remove_property. leads.
  - unfold create_snapshot, create_snapshot_locked. leads.
  - unfold delete_snapshot. leads.
  - unfold clone_snapshot, materialize_subvol_from_snapshot, set_xattr. leads.
  - unfold clone_subvolume, write_meta_xattrs, set_xattr. leads.
  - unfold sv_rollback, create_snapshot_locked, materialize_subvol_from_snapshot, set_xattr, set_project_quota. leads.
Qed.

Lemma run_as_spares env o op w : BcachefsLaws (ve_tool env) -> spares o (named env op) (run_as env o op) w.
Proof.
  intros laws. set (N := named env op). assert (forall fs name, (forall q, at_name env fs name q -> mine o (vw_vols w) q) -> (forall q, at_name env fs name q -> N q) ->
    forall q, at_name env fs name q -> open_to o N (vw_vols w) q) as Hopen by (intros fs name H1 H2 q Hq; split; auto).
  destruct op; apply spares_unit.
  - by apply create_inner_spares.
  - unfold create_vm_disk. apply spares_lift. intros nm Hnm. apply spares_m_get, spares_lift. intros [] _. apply create_inner_spares; [done|].
    unfold vm_disk_subvolume_name in Hnm. apply result_bind_ok in Hnm as (? & _ & Hnm). destruct (negb _) in Hnm; [|done].
    by apply result_bind_ok in Hnm as (? & _ & [= <-]).
  - apply spares_gated. intros H. apply sv_delete_outside; [done|]. by apply Hopen.
  - apply spares_gated. intros H. respects.
  - apply spares_gated. intros H. respects.
  - apply spares_lift. intros [] Hv. apply spares_gated. intros H.
    pose proof (sv_resize_outside env (open_to o N (vw_vols w)) fs name size (Some o) (Hopen _ _ H (fun q Hq => Hq))) as Hr. unfold sv_resize in Hr. by rewrite Hv in Hr.
  - apply spares_gated. intros H. apply sv_update_outside; [done|]. by apply Hopen.
  - apply spares_gated. intros H. apply set_properties_outside. by apply Hopen.
  - apply spares_gated. intros H. apply remove_properties_outside. by apply Hopen.
  - by apply create_snapshot_spares.
  - by apply delete_snapshot_spares.
  - by apply clone_snapshot_spares.
  - by apply clone_subvolume_spares.
  - by apply rollback_spares.
Qed.

(** C3. An owner's requests touch only the owner's subvolumes.  Any operation
    run with an owner filter and without an administrator's override, whatever
    it asks for and whichever command fails on the way, leaves every subvolume
    and snapshot that belongs to someone else, or to nobody, as it is: identity,
    files, image, mode and attributes, bcachefs options too unless it lies inside
    a subvolume of the owner whose options change.  A subvolume or snapshot
    appears only at a path the request names, and every directory made leads to
    such a path.  The request may name a path inside a subvolume of somebody
    else: who owns what encloses a destination is not checked. *)
Theorem owner_requests_confined env o op w :
  BcachefsLaws (ve_tool env) ->
  let w' := (run_as env o op w).1 in
  (forall q n, vw_vols w !! q = Some n -> owner_of n <> Some o ->
     exists n', vw_vols w' !! q = Some n' /\ same_node n n' /\
       ((forall p, named env op p -> mine o (vw_vols w) p -> ~ within q p) -> n' = n)) /\
  (forall q, ~ named env op q -> vw_vols w !! q = None -> vw_vols w' !! q = None) /\
  (forall d, d ∈ vw_made w' -> d ∈ vw_made w \/ exists q, named env op q /\ within q d).
Proof.
  intros laws w'. pose proof (run_as_spares env o op w laws) as H. unfold spares in H. fold w' in H. split_and!.
  - intros q n Hn Ho. destruct (H q) as [H1 H2]; [intros [Hm _]; unfold mine in Hm; by rewrite Hn in Hm|].
    unfold same_at in H1. rewrite Hn in H1. destruct (vw_vols w' !! q) as [n'|]; [|done]. exists n'. split_and!; [done..|].
    intros Hp. rewrite Hn in H2. assert (Some n' = Some n) as [= ->]; [|done]. apply H2. intros p [? ?]. by apply Hp.
  - intros q Hq Hn. destruct (H q) as [H1 _]; [by intros [_ ?]|]. unfold same_at in H1. rewrite Hn in H1. by destruct (vw_vols w' !! q).
  - intros d Hd. by apply (run_as_leads env o op w).
Qed.

Lemma owner_requests_confined_witness :
  (exists n', vw_vols (run_as plain_env "alice" (OpDelete "tank" "pics") plain_vols).1 !! "/fs/tank/pics" = Some n' /\
     same_node (plain_node "3" {[XATTR_NASTY_OWNER := "bob"]} "cat" false) n') /\
  vw_vols (run_as plain_env "alice" (OpDelete "tank" "docs") plain_vols).1 !! "/fs/tank/docs" = None.
Proof.
  split; [|vm_compute; reflexivity].
  destruct (owner_requests_confined plain_env "alice" (OpDelete "tank" "pics") plain_vols plain_bcachefs_laws) as [H _].
  destruct (H "/fs/tank/pics" (plain_node "3" {[XATTR_NASTY_OWNER := "bob"]} "cat" false)) as (n' & H1 & H2 & _).
  - vm_compute. reflexivity.
  - vm_compute. intros E. discriminate E.
  - exists n'. exact (conj H1 H2).
Defined.

(** ** Where the guards do not hold *)

(** Nothing asks who owns what encloses a new subvolume: one owner makes a
    directory and a subvolume inside the subvolume of another. *)
Lemma create_inside_foreign :
  let req := mkCreateSubvolume "tank" "pics/x/y" SvFilesystem None None None None None None None None None None in
  let w' := (sv_create plain_env req (Some "alice") plain_vols).1 in
  owner_of <$> vw_vols plain_vols !! "/fs/tank/pics" = Some (Some "bob") /\
  owner_of <$> vw_vols w' !! "/fs/tank/pics/x/y" = Some (Some "alice") /\ "/fs/tank/pics/x" ∈ vw_made w'.
Proof. split_and!; [vm_compute; reflexivity..|]. apply (bool_decide_unpack _). vm_compute. exact I. Qed.

(** A child of a subvolume whose name has a blank is not recognized, so the
    guards of deletion and rollback against nested subvolumes do not see it. *)
Lemma blank_hides_children :
  validate_subvolume_name "my docs" = Ok tt /\
  child_lines "my_docs" "my_docs/letters 5 2024-01-01" = ["my_docs/letters"] /\
  child_lines "my docs" "my docs/letters 5 2024-01-01" = [].
Proof. split_and!; vm_compute; reflexivity. Qed.

(** A snapshot that belongs to another owner than the subvolume does now. *)
Definition handed_over : VolWorld := mkVolWorld
  (list_to_map [("/fs/tank/docs", plain_node "1" {[XATTR_NASTY_OWNER := "alice"]} "new" false);
                ("/fs/tank/docs@monday", mkNode "2" None true (Some "docs") {[XATTR_NASTY_OWNER := "bob"]} None "old" 511);
                ("/fs/tank/copy", plain_node "3" (<[XATTR_NASTY_CLONE_SOURCE := "subvolume:1"]> {[XATTR_NASTY_OWNER := "bob"]}) "new" false)]) ∅ ∅ [] [].

(** An administrator's rollback gives the subvolume to the owner of the
    snapshot. *)
Lemma override_rollback_changes_owner :
  let '(w, r) := sv_rollback plain_env "tank" "docs" "monday" None true handed_over in
  match r with Ok (s, _) => sb_owner s | Err _ => None end = Some "bob" /\
  (vw_vols w !! "/fs/tank/docs") ≫= owner_of = Some "bob".
Proof. vm_compute. split; reflexivity. Qed.

(** A clone to a name in use answers with the subvolume of someone else, which
    a look-up with the same filter refuses. *)
Lemma clone_answers_foreign_destination :
  sb_owner <$> match (clone_subvolume plain_env "tank" "docs" "copy" (Some "alice") handed_over).2 with Ok s => Some s | Err _ => None end
    = Some (Some "bob") /\
  (sv_get plain_env "tank" "copy" (Some "alice") handed_over).2 = Err SvAccessDenied.
Proof. split; vm_compute; reflexivity. Qed.
