(* ===== verification/SubvolResize.v ===== *)
(** * Resizing never shrinks

    The capacity of a subvolume, the length of its image or the limit of its
    project, only grows, and a resize that succeeds gives what was asked for,
    rounded up to the KiB that quotas count in. *)

From Stdlib Require Import ZArith Lia Ascii String.
From stdpp Require Import base list gmap strings.
From S2P Require Import Prelude.
From S2P Require Import RustStr.
From S2P Require Import Text.
From S2P Require Import RustPath.
From S2P Require Import ShareScope.
From S2P Require Import Subvol.
From S2P Require Import SubvolProps.

Open Scope Z_scope.

Definition node_type (n : Node) : SubvolumeType :=
  mt_type (meta_of (nd_xattrs n) (match nd_image n with Some _ => true | None => false end)).

Definition grown (a b : option Z) : Prop :=
  match a, b with Some x, Some y => x <= y | None, None => True | _, _ => False end.

Lemma grown_refl a : grown a a.
Proof. destruct a; cbn; lia. Qed.

(** A limit in force is not lowered. *)
Definition limit_kept (a b : option Z) : Prop := match a with Some k => 0 < k -> exists k', b = Some k' /\ k <= k' | None => True end.

Lemma limit_kept_refl a : limit_kept a a.
Proof. destruct a as [k|]; [|done]. intros _. exists k. split; [done|lia]. Qed.

(** The size recorded with the subvolume is at least the limit in force. *)
Definition recorded_covers (n : Node) (limit : option Z) : Prop :=
  exists v, mt_volsize_bytes (meta_of (nd_xattrs n) (match nd_image n with Some _ => true | None => false end)) = Some v /\
    forall k, limit = Some k -> k * 1024 <= v.

(** Something tells the limit: the quota query works, or the record. *)
Definition limit_known (env : VolEnv) (fs name : string) (n : Node) (w : VolWorld) : Prop :=
  is_Some (ve_used env !! ve_project_id_for env fs name) \/ recorded_covers n (vw_quota w !! ve_project_id_for env fs name).

(** How a resize ends. *)
Record resize_outcome (env : VolEnv) (fs m name : string) (size : Z) (n : Node) (w w' : VolWorld) (r : result Subvolume SubvolumeError) : Prop := {
  rz_elsewhere : forall q, q <> subvol_path m name -> vw_vols w' !! q = vw_vols w !! q;
  rz_projects : forall i, i <> ve_project_id_for env fs name -> vw_quota w' !! i = vw_quota w !! i;
  rz_node : exists n', vw_vols w' !! subvol_path m name = Some n' /\ nd_data n' = nd_data n /\ owner_of n' = owner_of n /\
    grown (nd_image n) (nd_image n') /\
    (forall s, r = Ok s -> node_type n = SvBlock -> nd_image n' = Some size);
  rz_quota : limit_known env fs name n w ->
    limit_kept (vw_quota w !! ve_project_id_for env fs name) (vw_quota w' !! ve_project_id_for env fs name);
  rz_done : forall s, r = Ok s -> 0 < size <= MAX_VOLSIZE_BYTES /\
    (node_type n = SvFilesystem -> exists k, vw_quota w' !! ve_project_id_for env fs name = Some k /\ size <= k * 1024 < size + 1024 /\
       forall u, ve_used env !! ve_project_id_for env fs name = Some u -> u <= k * 1024);
}.

(** The new capacity, before it is recorded. *)
Record capacity_set (env : VolEnv) (fs m name : string) (size : Z) (n : Node) (w w' : VolWorld) (r : result Z SubvolumeError) : Prop := {
  cs_elsewhere : forall q, q <> subvol_path m name -> vw_vols w' !! q = vw_vols w !! q;
  cs_projects : forall i, i <> ve_project_id_for env fs name -> vw_quota w' !! i = vw_quota w !! i;
  cs_node : exists i, vw_vols w' !! subvol_path m name = Some (with_image i n) /\ grown (nd_image n) i /\
    (forall x, r = Ok x -> node_type n = SvBlock -> i = Some size);
  cs_quota : limit_known env fs name n w ->
    limit_kept (vw_quota w !! ve_project_id_for env fs name) (vw_quota w' !! ve_project_id_for env fs name);
  cs_done : forall x, r = Ok x -> node_type n = SvFilesystem ->
    exists k, vw_quota w' !! ve_project_id_for env fs name = Some k /\ size <= k * 1024 < size + 1024 /\
       forall u, ve_used env !! ve_project_id_for env fs name = Some u -> u <= k * 1024;
}.

Section Resize.
Context (env : VolEnv) (fs m name : string) (size : Z) (n : Node) (w : VolWorld) (s : Subvolume).
Hypothesis Hfound : found env fs name w s m n.
Hypothesis Hsize : 0 < size.

Lemma with_same_image : with_image (nd_image n) n = n.
Proof. by destruct n. Qed.

Lemma capacity_untouched e : capacity_set env fs m name size n w w (Err e).
Proof.
  split; [done..| | |done].
  - exists (nd_image n). rewrite with_same_image. split; [apply Hfound|]. by split; [apply grown_refl|].
  - intros _. apply limit_kept_refl.
Qed.

Lemma grow_only_ok a b : validate_grow_only a b = Ok tt -> a <= b.
Proof. unfold validate_grow_only. destruct (b <? a) eqn:E; [done|]. intros _. lia. Qed.

Lemma block_capacity : node_type n = SvBlock ->
  let '(w', r) := resize_block env s size w in capacity_set env fs m name size n w w' r.
Proof.
  intros Hb. destruct Hfound as [Hm Hp Hn _ _ _ _]. unfold resize_block, m_bind at 1, m_get, m_bind at 1, m_lift at 1.
  unfold image_at. rewrite Hp, Hn. cbn [mbind option_bind].
  destruct (nd_image n) as [c|] eqn:Ei; cbn [ok_or]; [|apply capacity_untouched].
  unfold m_bind at 1, m_lift at 1. destruct (validate_grow_only c size) as [[]|] eqn:Eg; [|apply capacity_untouched].
  apply grow_only_ok in Eg. unfold m_bind at 1. destruct (ve_truncate env); [apply capacity_untouched|].
  set (w1 := mkVolWorld (alter (with_image (Some size)) (subvol_path m name) (vw_vols w)) (vw_loops w) (vw_quota w) (vw_projid w) (vw_made w)).
  assert (forall r, capacity_set env fs m name size n w w1 r) as H.
  { intros r. unfold w1. split; cbn [vw_vols vw_quota].
    - intros q Hq. by apply lookup_alter_ne.
    - done.
    - exists (Some size). rewrite lookup_alter_eq, Hn, Ei. done.
    - intros _. apply limit_kept_refl.
    - intros x _ Hf. congruence. }
  change (change _ _ w) with (w1, Ok tt : result unit SubvolumeError). cbv beta iota. unfold m_bind, m_lift, m_ret.
  destruct (sb_block_device s); [destruct (ve_set_capacity env)|]; apply H.
Qed.

Lemma rounded_kib : size <= quota_kib_from_bytes size * 1024 < size + 1024.
Proof. unfold quota_kib_from_bytes. pose proof (Z.div_mod (size + 1023) 1024). pose proof (Z.mod_pos_bound (size + 1023) 1024). lia. Qed.

Lemma rounded_twice : quota_kib_from_bytes (quota_bytes_from_request size) = quota_kib_from_bytes size.
Proof.
  unfold quota_bytes_from_request. set (k := quota_kib_from_bytes size). unfold quota_kib_from_bytes.
  replace (k * 1024 + 1023) with (1023 + k * 1024) by lia. rewrite Z.div_add by lia. change (1023 / 1024) with 0. lia.
Qed.

(** The bound is above the limit in force and above what is used. *)
Lemma capacity_bound b : filesystem_capacity_bound (sb_quota_bytes s) (sb_volsize_bytes s) (sb_used_bytes s) = Some b ->
  (forall q, sb_quota_bytes s = Some q -> q <= b) /\ (forall u, sb_used_bytes s = Some u -> u <= b) /\ (forall v, sb_volsize_bytes s = Some v -> v <= b).
Proof.
  unfold filesystem_capacity_bound. destruct (sb_quota_bytes s), (sb_volsize_bytes s), (sb_used_bytes s); cbn; intros [= <-];
    split_and!; intros ? [= <-]; lia.
Qed.

Lemma filesystem_capacity : node_type n = SvFilesystem ->
  let '(w', r) := resize_filesystem env fs name s size w in capacity_set env fs m name size n w w' r.
Proof.
  intros Hf. pose proof Hfound as [Hm Hp Hn _ Ht Hs Hv]. fold (node_type n) in Ht. rewrite Ht, Hf in Hs. cbn in Hs.
  unfold resize_filesystem, m_bind at 1, m_lift at 1.
  destruct (filesystem_capacity_bound _ _ _) as [b|] eqn:Eb; cbn [ok_or]; [|apply capacity_untouched].
  apply capacity_bound in Eb as (Hq & Hu & Hr).
  unfold m_bind at 1, m_lift at 1. destruct (validate_grow_only b _) as [[]|] eqn:Eg; [|apply capacity_untouched]. apply grow_only_ok in Eg.
  unfold m_bind at 1, m_lift at 1. rewrite Hm. unfold m_bind at 1, set_project_quota_limit.
  destruct (ve_quota_limit env); [apply capacity_untouched|]. unfold m_modify, m_ret. rewrite rounded_twice.
  unfold quota_bytes_from_request in Eg. split; cbn [vw_vols vw_quota].
  - done.
  - intros i Hi. by apply lookup_insert_ne.
  - exists (nd_image n). rewrite with_same_image. split_and!; [done|apply grown_refl|]. intros x _ Hb. congruence.
  - intros [[u Eu]|(v & Ev & Hlim)]; rewrite lookup_insert_eq.
    + rewrite Eu in Hs. injection Hs as Hs1 Hs2.
      destruct (vw_quota w !! _) as [k|]; [|done]. cbn in Hs2 |- *. intros Hk. eexists. split; [done|].
      replace (0 <? k * 1024) with true in Hs2 by (symmetry; lia). specialize (Hq _ Hs2). lia.
    + destruct (vw_quota w !! _) as [k|]; [|done]. cbn. intros Hk. eexists. split; [done|]. rewrite Ev in Hv. specialize (Hr _ Hv). specialize (Hlim _ eq_refl). lia.
  - intros x _ _. rewrite lookup_insert_eq. eexists. split; [done|]. split; [apply rounded_kib|]. intros u Eu.
    rewrite Eu in Hs. injection Hs as Hs1 Hs2. specialize (Hu _ Hs1). lia.
Qed.
End Resize.

Lemma resize_untouched env fs m name size n w e :
  vw_vols w !! subvol_path m name = Some n -> resize_outcome env fs m name size n w w (Err e).
Proof.
  intros Hn. split; [done..| | |done].
  - exists n. split_and!; try done. apply grown_refl.
  - intros _. apply limit_kept_refl.
Qed.

(** Recording the capacity changes nothing else. *)
Lemma capacity_recorded env fs m name size n w w1 x f :
  0 < size <= MAX_VOLSIZE_BYTES -> capacity_set env fs m name size n w w1 (Ok x) ->
  let '(w', r) := (set_xattr env "setxattr volsize: " (subvol_path m name) XATTR_NASTY_VOLSIZE (fmt_dec x) ;;; sv_get env fs name f) w1 in
  resize_outcome env fs m name size n w w' r.
Proof.
  intros Hsize [He Hp (i & Hi & Hg & Hb) Hq Hd]. unfold m_bind, set_xattr. destruct (ve_setxattr env _ _).
  - split; [done..| |done|done]. exists (with_image i n). by split_and!.
  - unfold change, set_vols, m_modify, sv_get. split; cbn [vw_vols vw_quota].
    + intros q Hne. rewrite lookup_alter_ne by done. by apply He.
    + done.
    + eexists. rewrite lookup_alter_eq, Hi. split_and!; [done|done| |exact Hg|].
      * unfold owner_of. cbn. by apply lookup_insert_ne.
      * intros s _ Hblock. by apply (Hb x eq_refl).
    + done.
    + intros s _. split; [done|]. by apply (Hd x eq_refl).
Qed.

(** C28. A resize never shrinks.  Whatever fails on the way, the files and the
    owner stay, the image is at least as long as before, and no other subvolume
    or project is affected; the limit of the project is at least as high as
    before, provided the quota query answers for the project or the size recorded
    with the subvolume is not below the limit ([limit_known]).  A resize that
    succeeds was within the maximum and leaves the image as long as asked for, or
    a limit of the size asked for, rounded up to a KiB, that covers what is used
    as far as that can be read. *)
Theorem resize_never_shrinks env fs m name size f n w :
  0 <= size -> fs_mount_point env fs = Ok m -> vw_vols w !! subvol_path m name = Some n ->
  let '(w', r) := sv_resize env fs name size f w in resize_outcome env fs m name size n w w' r.
Proof.
  intros H0 Hm Hn. pose proof (resize_untouched env fs m name size n w) as Hquit. unfold sv_resize.
  unfold m_bind at 1, m_lift at 1. unfold validate_volsize_bytes. destruct (size =? 0) eqn:E0; [by apply Hquit|].
  destruct (MAX_VOLSIZE_BYTES <? size) eqn:E1; [by apply Hquit|]. assert (0 < size <= MAX_VOLSIZE_BYTES) as Hsize by lia.
  unfold m_bind at 1. destruct (sv_get env fs name f w) as [w1 [s|e]] eqn:Eg.
  2:{ unfold sv_get in Eg. injection Eg as <- _. by apply Hquit. }
  apply get_found in Eg as (-> & _ & m' & n' & Hfound). pose proof Hfound as [Hm' _ Hn' _ Ht _ _]. fold (node_type n') in Ht.
  rewrite Hm in Hm'. injection Hm' as <-. rewrite Hn in Hn'. injection Hn' as <-.
  unfold m_bind at 1. set (step := match sb_type s with SvBlock => _ | SvFilesystem => _ end).
  assert (let '(w', r) := step w in capacity_set env fs m name size n w w' r) as Hstep.
  { subst step. destruct (sb_type s); symmetry in Ht; [apply filesystem_capacity|apply block_capacity]; try done; lia. }
  destruct (step w) as [w2 [x|e]].
  - unfold m_bind at 1, m_lift at 1. rewrite Hm. by apply capacity_recorded.
  - destruct Hstep as [He Hp (i & Hi & Hg & Hb) Hq Hd]. split; [done..| |done|done]. exists (with_image i n). by split_and!.
Qed.

(** A block subvolume of 1000 bytes. *)
Definition disk_vols : VolWorld := mkVolWorld
  {["/fs/tank/disk" := with_image (Some 1000) (plain_node "9" {[XATTR_NASTY_TYPE := "block"]} "" false)]} ∅ ∅ [] [].

Lemma resize_never_shrinks_witness :
  (let '(w', r) := sv_resize plain_env "tank" "disk" 4096 None disk_vols in
   resize_outcome plain_env "tank" "/fs/tank" "disk" 4096 (with_image (Some 1000) (plain_node "9" {[XATTR_NASTY_TYPE := "block"]} "" false))
     disk_vols w' r) /\
  image_at (vw_vols (sv_resize plain_env "tank" "disk" 4096 None disk_vols).1) "/fs/tank/disk" = Some 4096 /\
  image_at (vw_vols (sv_resize plain_env "tank" "disk" 999 None disk_vols).1) "/fs/tank/disk" = Some 1000.
Proof.
  split; [|split; vm_compute; reflexivity].
  apply (resize_never_shrinks plain_env "tank" "/fs/tank" "disk" 4096 None); [lia|reflexivity|vm_compute; reflexivity].
Defined.

(** When the quota query fails and the record lags behind the limit, because an
    earlier resize set the limit and could not record it, the limit is lowered. *)
Definition lagging : VolWorld := mkVolWorld
  {["/fs/tank/docs" := plain_node "1" (<[XATTR_NASTY_VOLSIZE := "1024"]> {[XATTR_NASTY_TYPE := "filesystem"]}) "" false]} ∅ {[7 := 100]} [] [].

Lemma unread_quota_shrinks :
  vw_quota lagging !! ve_project_id_for plain_env "tank" "docs" = Some 100 /\
  is_ok (sv_resize plain_env "tank" "docs" 2048 None lagging).2 = true /\
  vw_quota (sv_resize plain_env "tank" "docs" 2048 None lagging).1 !! ve_project_id_for plain_env "tank" "docs" = Some 2.
Proof. split_and!; vm_compute; reflexivity. Qed.
