(* ===== verification/Alerts.v ===== *)
(** * Alerts (nasty-system/src/alerts.rs)

    The rules, their evaluation against readings of the system, and the service.
    Its state is the rules, the alerts that are active and whether they still have
    to be written to alerts.json.  An active alert is an instance: the same
    occurrence of a condition keeps its identifier and its acknowledgement for as
    long as it lasts.  The generator of identifiers is the parameter [uuid_v4],
    numbered by the calls made; the outcome of each write of the state file, which
    is written as a whole or not at all, is an argument ([Some e] fails). *)

From Stdlib Require Import ZArith Lia Ascii String.
From stdpp Require Import base list gmap strings.
From S2P Require Import Prelude.
From S2P Require Import RustStr.
From S2P Require Import Float64.
From S2P Require Import Text.

Inductive AlertMetric : Type :=
| FsUsagePercent | CpuLoadPercent | MemoryUsagePercent | DiskTemperature | SmartHealth | MetricSmartAttribute | SwapUsagePercent
| BcachefsDegraded | BcachefsDeviceError | BcachefsDeviceState | BcachefsIOErrors | BcachefsScrubErrors | BcachefsReconcileStalled
| RootDiskFreeGb | BootDiskFreeMb | CertificateExpiryDays | CertificateRenewalFailure | MetricBackupFailure | KernelErrors.
#[export] Instance AlertMetric_eq : EqDecision AlertMetric. Proof. solve_decision. Defined.

Inductive AlertCondition : Type := Above | Below | Equals.

Inductive AlertSeverity : Type := SevWarning | SevCritical.

Record AlertRule : Type := mkAlertRule {
  ar_id : string;
  ar_name : string;
  ar_enabled : bool;
  ar_metric : AlertMetric;
  ar_condition : AlertCondition;
  ar_threshold : f64;
  ar_severity : AlertSeverity;
}.

Record ActiveAlert : Type := mkActiveAlert {
  aa_rule_id : string;
  aa_rule_name : string;
  aa_severity : AlertSeverity;
  aa_metric : AlertMetric;
  aa_message : string;
  aa_current_value : f64;
  aa_threshold : f64;
  aa_source : string;
}.

Record AlertInstanceState : Type := mkInstance {
  ai_instance_id : string;
  ai_alert : ActiveAlert;
  ai_acknowledged_at : option string;
  ai_acknowledged_by : option string;
}.

Record AlertOccurrence : Type := mkOccurrence {
  ao_alert : ActiveAlert;
  ao_instance_id : string;
  ao_acknowledged : bool;
  ao_acknowledged_at : option string;
  ao_acknowledged_by : option string;
}.

Record AlertAcknowledgement : Type := mkAcknowledgement { ak_instance_id : string; ak_acknowledged_at : string; ak_acknowledged_by : string }.

Record AlertRuleUpdate : Type := mkRuleUpdate {
  ru_id : string;
  ru_name : option string;
  ru_enabled : option bool;
  ru_threshold : option f64;
  ru_severity : option AlertSeverity;
}.

(** ** Conditions *)

Definition check_condition (value : f64) (condition : AlertCondition) (threshold : f64) : bool :=
  match condition with
  | Above => f64_ltb threshold value
  | Below => f64_ltb value threshold
  | Equals => f64_ltb (SpecFloat.SFabs (f64_sub value threshold)) (f64_div (f64_of_Z 1) (f64_of_Z 1000))
  end.

(** ** Readings *)

Record FsUsage : Type := mkFsUsage { fu_name : string; fu_used_bytes : Z; fu_total_bytes : Z }.
Record CertificateHealth : Type := mkCertificateHealth { ch_host : string; ch_expires_in_days : option Z; ch_renewal_error : option string }.
Record BackupFailure : Type := mkBackupFailure { bf_profile_id : string; bf_profile_name : string; bf_timestamp : string; bf_message : string }.
Record SmartAttribute : Type := mkSmartAttribute { sma_id : Z; sma_raw_value : Z }.
Record DiskHealthSummary : Type := mkDiskHealthSummary {
  dh_device : string;
  dh_transport : option string;
  dh_temperature_c : option Z;
  dh_health_passed : bool;
  dh_smart_status : string;
  dh_critical_attrs_with_value : list (Z * Z);
}.
Record KernelErrorAlert : Type := mkKernelErrorAlert { ke_total_count : Z; ke_categories : list string }.
Record BcachefsDeviceHealth : Type := mkDeviceHealth { bd_path : string; bd_state : string; bd_has_errors : bool }.
Record BcachefsHealth : Type := mkBcachefsHealth {
  bh_fs_name : string;
  bh_degraded : bool;
  bh_devices : list BcachefsDeviceHealth;
  bh_io_error_count : Z;
  bh_scrub_errors : bool;
  bh_reconcile_stalled : bool;
}.
Record SystemStats : Type := mkSystemStats {
  st_cpu_count : Z;
  st_load_1 : f64;
  st_total_bytes : Z;
  st_used_bytes : Z;
  st_swap_total_bytes : Z;
  st_swap_used_bytes : Z;
}.
Record DiskFreeSpace : Type := mkDiskFree { df_root_free_gb : option f64; df_boot_free_mb : option f64 }.

Definition CRITICAL_ATA_ATTRIBUTES : list (Z * string) :=
  [(5, "Reallocated Sectors Count"); (10, "Spin Retry Count"); (184, "End-to-End Error"); (187, "Reported Uncorrectable Errors");
   (188, "Command Timeout"); (196, "Reallocation Event Count"); (197, "Current Pending Sector Count");
   (198, "Offline Uncorrectable Sector Count"); (201, "Soft Read Error Rate")].

Definition collect_critical_ata_attrs (smart_status : string) (rotational : option bool) (attributes : list SmartAttribute) : list (Z * Z) :=
  if String.eqb smart_status "UNAVAILABLE" || negb (bool_decide (rotational = Some true)) then []
  else omap (fun a => if existsb (fun c : Z * string => c.1 =? sma_id a) CRITICAL_ATA_ATTRIBUTES then Some (sma_id a, sma_raw_value a) else None) attributes.

Definition disk_label (device : string) (transport : option string) : string :=
  match transport with Some t => device +:+ " [" +:+ t +:+ "]" | None => device end.

Definition label (d : DiskHealthSummary) : string := disk_label (dh_device d) (dh_transport d).

(** ** Evaluation of the rules *)

(** The alert a rule raises for a source. *)
Definition raise (rule : AlertRule) (message : string) (value threshold : f64) (source : string) : ActiveAlert :=
  mkActiveAlert (ar_id rule) (ar_name rule) (ar_severity rule) (ar_metric rule) message value threshold source.

Definition f64_zero : f64 := f64_of_Z 0.
Definition f64_one : f64 := f64_of_Z 1.

Definition percent (used total : Z) : f64 := f64_mul (f64_div (f64_of_Z used) (f64_of_Z total)) (f64_of_Z 100).

(** A value that meets the rule's condition raises one alert. *)
Definition when_met (rule : AlertRule) (value : f64) (message source : string) : list ActiveAlert :=
  if check_condition value (ar_condition rule) (ar_threshold rule) then [raise rule message value (ar_threshold rule) source] else [].

Definition in_quotes (s : string) : string := dq +:+ s +:+ dq.

Definition percent_text (pct threshold : f64) : string := fmt_fixed 1 pct +:+ "% (threshold: " +:+ fmt_fixed 0 threshold +:+ "%)".

Definition cpu_percent (stats : SystemStats) : f64 :=
  if 0 <? st_cpu_count stats then f64_mul (f64_div (st_load_1 stats) (f64_of_Z (st_cpu_count stats))) (f64_of_Z 100) else f64_zero.

Definition eval_fs_usage (rule : AlertRule) (fs : FsUsage) : list ActiveAlert :=
  if fu_total_bytes fs =? 0 then []
  else let pct := percent (fu_used_bytes fs) (fu_total_bytes fs) in
       when_met rule pct ("Filesystem " +:+ in_quotes (fu_name fs) +:+ " usage at " +:+ percent_text pct (ar_threshold rule)) (fu_name fs).

Definition eval_memory (rule : AlertRule) (what source : string) (used total : Z) : list ActiveAlert :=
  if 0 <? total then let pct := percent used total in when_met rule pct (what +:+ " usage at " +:+ percent_text pct (ar_threshold rule)) source else [].

Definition eval_temperature (rule : AlertRule) (disk : DiskHealthSummary) : list ActiveAlert :=
  match dh_temperature_c disk with
  | Some temp => when_met rule (f64_of_Z temp) ("Disk " +:+ label disk +:+ " temperature at " +:+ fmt_int temp +:+ "°C (threshold: "
                   +:+ fmt_fixed 0 (ar_threshold rule) +:+ "°C)") (label disk)
  | None => []
  end.

Definition eval_smart_health (rule : AlertRule) (disk : DiskHealthSummary) : list ActiveAlert :=
  if String.eqb (dh_smart_status disk) "UNAVAILABLE" then []
  else if negb (dh_health_passed disk)
  then [raise rule ("Disk " +:+ label disk +:+ " SMART health check FAILED") f64_zero (ar_threshold rule) (label disk)] else [].

Definition attribute_name (id : Z) : string :=
  match find_first (fun c : Z * string => c.1 =? id) CRITICAL_ATA_ATTRIBUTES with Some c => c.2 | None => "Unknown" end.

Definition eval_attribute (rule : AlertRule) (disk : DiskHealthSummary) (attr : Z * Z) : list ActiveAlert :=
  if f64_leb (f64_of_Z attr.2) (ar_threshold rule) then []
  else [raise rule ("Disk " +:+ label disk +:+ " attribute " +:+ attribute_name attr.1 +:+ " (id " +:+ fmt_int attr.1 +:+ ") raw value is "
          +:+ fmt_int attr.2 +:+ " — drive needs attention before SMART overall status flips") (f64_of_Z attr.2) (ar_threshold rule)
          (label disk +:+ "#" +:+ fmt_int attr.1)].

(** A flag of a filesystem. *)
Definition eval_flag (rule : AlertRule) (flag : BcachefsHealth -> bool) (text : string) (fs : BcachefsHealth) : list ActiveAlert :=
  if flag fs then [raise rule ("Filesystem " +:+ in_quotes (bh_fs_name fs) +:+ text) f64_one f64_zero (bh_fs_name fs)] else [].

Definition eval_io_errors (rule : AlertRule) (fs : BcachefsHealth) : list ActiveAlert :=
  if 0 <? bh_io_error_count fs
  then [raise rule ("Filesystem " +:+ in_quotes (bh_fs_name fs) +:+ " has " +:+ fmt_dec (bh_io_error_count fs) +:+ " IO errors")
          (f64_of_Z (bh_io_error_count fs)) f64_zero (bh_fs_name fs)] else [].

Definition eval_device_state (rule : AlertRule) (fs : BcachefsHealth) (dev : BcachefsDeviceHealth) : list ActiveAlert :=
  if negb (String.eqb (bd_state dev) "rw") && negb (String.eqb (bd_state dev) "spare")
  then [raise rule ("Device " +:+ bd_path dev +:+ " in filesystem " +:+ in_quotes (bh_fs_name fs) +:+ " is in '" +:+ bd_state dev
          +:+ "' state (expected 'rw')") f64_zero f64_zero (bd_path dev)] else [].

Definition eval_device_error (rule : AlertRule) (fs : BcachefsHealth) (dev : BcachefsDeviceHealth) : list ActiveAlert :=
  if bd_has_errors dev
  then [raise rule ("Device " +:+ bd_path dev +:+ " in filesystem " +:+ in_quotes (bh_fs_name fs) +:+ " has IO errors") f64_one f64_zero (bd_path dev)]
  else [].

Definition eval_kernel (rule : AlertRule) (kernel : KernelErrorAlert) : list ActiveAlert :=
  when_met rule (f64_of_Z (ke_total_count kernel))
    (fmt_dec (ke_total_count kernel) +:+ " kernel error(s) detected (categories: "
     +:+ (match ke_categories kernel with [] => "none" | cs => str_join ", " cs end) +:+ ")") "kernel".

Definition eval_root (rule : AlertRule) (free : option f64) : list ActiveAlert :=
  match free with
  | Some gb => when_met rule gb ("Root partition has " +:+ fmt_fixed 1 gb +:+ " GB free (threshold: " +:+ fmt_fixed 0 (ar_threshold rule) +:+ " GB)") "/"
  | None => []
  end.

Definition eval_boot (rule : AlertRule) (free : option f64) : list ActiveAlert :=
  match free with
  | Some mb => when_met rule mb ("/boot has " +:+ fmt_fixed 0 mb +:+ " MB free (threshold: " +:+ fmt_fixed 0 (ar_threshold rule)
                 +:+ " MB). The next system update may fail to install its initrd. Run `nasty-cleanup all` to reclaim space.") "/boot"
  | None => []
  end.

Definition evaluate_rule (stats : SystemStats) (filesystems : list FsUsage) (disks : list DiskHealthSummary) (health : list BcachefsHealth)
    (kernel : KernelErrorAlert) (free : DiskFreeSpace) (rule : AlertRule) : list ActiveAlert :=
  match ar_metric rule with
  | FsUsagePercent => flat_map (eval_fs_usage rule) filesystems
  | CpuLoadPercent => when_met rule (cpu_percent stats) ("CPU load at " +:+ percent_text (cpu_percent stats) (ar_threshold rule)) "cpu"
  | MemoryUsagePercent => eval_memory rule "Memory" "memory" (st_used_bytes stats) (st_total_bytes stats)
  | SwapUsagePercent => eval_memory rule "Swap" "swap" (st_swap_used_bytes stats) (st_swap_total_bytes stats)
  | DiskTemperature => flat_map (eval_temperature rule) disks
  | SmartHealth => flat_map (eval_smart_health rule) disks
  | MetricSmartAttribute => flat_map (fun d => flat_map (eval_attribute rule d) (dh_critical_attrs_with_value d)) disks
  | BcachefsDegraded => flat_map (eval_flag rule bh_degraded " is running in DEGRADED mode (missing device)") health
  | BcachefsDeviceState => flat_map (fun fs => flat_map (eval_device_state rule fs) (bh_devices fs)) health
  | BcachefsDeviceError => flat_map (fun fs => flat_map (eval_device_error rule fs) (bh_devices fs)) health
  | BcachefsIOErrors => flat_map (eval_io_errors rule) health
  | BcachefsScrubErrors => flat_map (eval_flag rule bh_scrub_errors " scrub found data corruption") health
  | BcachefsReconcileStalled => flat_map (eval_flag rule bh_reconcile_stalled
      " reconcile looks stalled — pending background work hasn't progressed in over 30 minutes") health
  | KernelErrors => eval_kernel rule kernel
  | RootDiskFreeGb => eval_root rule (df_root_free_gb free)
  | BootDiskFreeMb => eval_boot rule (df_boot_free_mb free)
  | CertificateExpiryDays | CertificateRenewalFailure | MetricBackupFailure => []
  end.

Definition evaluate_rules (rules : list AlertRule) (stats : SystemStats) (filesystems : list FsUsage) (disks : list DiskHealthSummary)
    (health : list BcachefsHealth) (kernel : KernelErrorAlert) (free : DiskFreeSpace) : list ActiveAlert :=
  flat_map (evaluate_rule stats filesystems disks health kernel free) (List.filter ar_enabled rules).

Definition eval_expiry (rule : AlertRule) (c : CertificateHealth) : list ActiveAlert :=
  match ch_expires_in_days c with
  | None => []
  | Some days =>
      when_met rule (f64_of_Z days)
        (if days <? 0 then "TLS certificate for " +:+ ch_host c +:+ " expired " +:+ fmt_dec (Z.abs days) +:+ " day(s) ago"
         else "TLS certificate for " +:+ ch_host c +:+ " expires in " +:+ fmt_int days +:+ " day(s) (threshold: " +:+ fmt_fixed 0 (ar_threshold rule) +:+ " days)")
        (ch_host c)
  end.

Definition eval_renewal (rule : AlertRule) (c : CertificateHealth) : list ActiveAlert :=
  match ch_renewal_error c with
  | None => []
  | Some e => [raise rule ("TLS certificate issuance or renewal failed for " +:+ ch_host c +:+ ": " +:+ e) f64_one (ar_threshold rule) (ch_host c)]
  end.

Definition evaluate_certificate_rule (certificates : list CertificateHealth) (rule : AlertRule) : list ActiveAlert :=
  match ar_metric rule with
  | CertificateExpiryDays => flat_map (eval_expiry rule) certificates
  | CertificateRenewalFailure =>
      if check_condition f64_one (ar_condition rule) (ar_threshold rule) then flat_map (eval_renewal rule) certificates else []
  | _ => []
  end.

Definition evaluate_certificate_rules (rules : list AlertRule) (certificates : list CertificateHealth) : list ActiveAlert :=
  flat_map (evaluate_certificate_rule certificates) (List.filter ar_enabled rules).

(** The first non-blank line after the last line that is the marker. *)
Definition not_blank_line (l : string) : bool := negb (String.eqb (trim l) "").

Fixpoint after_marker (marker : string) (lines : list string) : option string :=
  match lines with
  | [] => None
  | l :: rest =>
      match after_marker marker rest with
      | Some d => Some d
      | None => if String.eqb (trim l) marker then trim <$> find_first not_blank_line rest else None
      end
  end.

Definition backup_failure_summary (message : string) : string :=
  let lines := str_lines message in
  match after_marker "Caused by:" lines with
  | Some d => d
  | None => match after_marker "Message:" lines with
            | Some d => d
            | None => match find_first not_blank_line lines with Some l => trim l | None => "unknown error" end
            end
  end.

Definition eval_backup (rule : AlertRule) (failure : BackupFailure) : ActiveAlert :=
  raise rule ("Backup profile " +:+ in_quotes (bf_profile_name failure) +:+ " failed at " +:+ bf_timestamp failure +:+ ": "
              +:+ backup_failure_summary (bf_message failure)) f64_one (ar_threshold rule) (bf_profile_id failure).

Definition evaluate_backup_rules (rules : list AlertRule) (failures : list BackupFailure) : list ActiveAlert :=
  flat_map (fun rule => if check_condition f64_one (ar_condition rule) (ar_threshold rule) then eval_backup rule <$> failures else [])
    (List.filter (fun r => ar_enabled r && bool_decide (ar_metric r = MetricBackupFailure)) rules).

(** ** The service *)

Record AlertState : Type := mkAlertState {
  als_rules : list AlertRule;
  als_active_instances : list AlertInstanceState;
  als_dirty : bool;
}.

(** What alerts.json holds: [dirty] is not serialized. *)
Record AlertFile : Type := mkAlertFile { af_rules : list AlertRule; af_active_instances : list AlertInstanceState }.

Record AlertService : Type := mkAlertService {
  sv_state : AlertState;
  sv_revision : Z;
  sv_file : option AlertFile;
  sv_uuids : nat;
}.

Definition default_rule (id name : string) (metric : AlertMetric) (condition : AlertCondition) (threshold : Z) (severity : AlertSeverity) : AlertRule :=
  mkAlertRule id name true metric condition (f64_of_Z threshold) severity.

Definition default_rules : list AlertRule :=
  [default_rule "fs-usage-warn" "Filesystem usage warning" FsUsagePercent Above 80 SevWarning;
   default_rule "fs-usage-crit" "Filesystem usage critical" FsUsagePercent Above 95 SevCritical;
   default_rule "disk-temp-warn" "Disk temperature warning" DiskTemperature Above 50 SevWarning;
   default_rule "disk-temp-crit" "Disk temperature critical" DiskTemperature Above 60 SevCritical;
   default_rule "smart-health" "SMART health failure" SmartHealth Equals 1 SevCritical;
   default_rule "smart-attribute" "SMART critical attribute non-zero" MetricSmartAttribute Above 0 SevWarning;
   default_rule "memory-warn" "Memory usage warning" MemoryUsagePercent Above 90 SevWarning;
   default_rule "cpu-load-warn" "CPU load warning" CpuLoadPercent Above 90 SevWarning;
   default_rule "bcachefs-degraded" "bcachefs degraded (missing device)" BcachefsDegraded Equals 1 SevCritical;
   default_rule "bcachefs-device-state" "bcachefs device not read-write" BcachefsDeviceState Equals 1 SevWarning;
   default_rule "bcachefs-device-errors" "bcachefs device IO errors" BcachefsDeviceError Equals 1 SevCritical;
   default_rule "bcachefs-io-errors" "bcachefs filesystem IO errors" BcachefsIOErrors Above 0 SevCritical;
   default_rule "bcachefs-scrub-errors" "bcachefs scrub found corruption" BcachefsScrubErrors Equals 1 SevCritical;
   default_rule "bcachefs-reconcile-stalled" "bcachefs reconcile stalled" BcachefsReconcileStalled Equals 1 SevWarning;
   default_rule "root-disk-low" "Root partition low on space" RootDiskFreeGb Below 10 SevWarning;
   default_rule "root-disk-crit" "Root partition critically low" RootDiskFreeGb Below 3 SevCritical;
   default_rule "boot-disk-low" "/boot partition low on space" BootDiskFreeMb Below 100 SevWarning;
   default_rule "boot-disk-crit" "/boot partition critically low" BootDiskFreeMb Below 30 SevCritical;
   default_rule "certificate-expiry-warn" "TLS certificate expiring soon" CertificateExpiryDays Below 31 SevWarning;
   default_rule "certificate-expiry-crit" "TLS certificate expiry critical" CertificateExpiryDays Below 8 SevCritical;
   default_rule "certificate-renewal-failure" "TLS certificate renewal failed" CertificateRenewalFailure Equals 1 SevCritical;
   default_rule "backup-failure" "Backup failed" MetricBackupFailure Equals 1 SevWarning;
   default_rule "kernel-errors" "Kernel errors detected" KernelErrors Above 0 SevWarning].

(** ** Instances *)

Definition with_alert (alert : ActiveAlert) (i : AlertInstanceState) : AlertInstanceState :=
  mkInstance (ai_instance_id i) alert (ai_acknowledged_at i) (ai_acknowledged_by i).

Definition occurrence_with_alert (i : AlertInstanceState) (alert : ActiveAlert) : AlertOccurrence :=
  mkOccurrence alert (ai_instance_id i) (is_some (ai_acknowledged_at i)) (ai_acknowledged_at i) (ai_acknowledged_by i).

Definition occurrence_from (i : AlertInstanceState) : AlertOccurrence := occurrence_with_alert i (ai_alert i).

(** Whether an alert continues an instance. *)
Definition continues (alert : ActiveAlert) (i : AlertInstanceState) : bool :=
  String.eqb (aa_rule_id (ai_alert i)) (aa_rule_id alert) && String.eqb (aa_source (ai_alert i)) (aa_source alert) &&
  (negb (bool_decide (aa_metric alert = MetricBackupFailure)) || String.eqb (aa_message (ai_alert i)) (aa_message alert)).

(** [position(p).map(|i| v.remove(i))] *)
Fixpoint take_first {A} (p : A -> bool) (l : list A) : option (A * list A) :=
  match l with
  | [] => None
  | x :: rest => if p x then Some (x, rest)
                 else match take_first p rest with Some (y, rest') => Some (y, x :: rest') | None => None end
  end.

Section service.
Context (uuid_v4 : nat -> string).

Definition fresh (n : nat) (alert : ActiveAlert) : AlertInstanceState := mkInstance (uuid_v4 n) alert None None.

(** The loop over the alerts: the instances, the occurrences, what remains of
    the existing instances, and the identifiers used. *)
Fixpoint reconcile_alerts (remaining : list AlertInstanceState) (alerts : list ActiveAlert) (n : nat)
    : list AlertInstanceState * list AlertOccurrence * list AlertInstanceState * nat :=
  match alerts with
  | [] => ([], [], remaining, n)
  | alert :: rest =>
      let '(instance, remaining', n') :=
        match take_first (continues alert) remaining with
        | Some (i, remaining') => (i, remaining', n)
        | None => (fresh n alert, remaining, S n)
        end in
      let instance := with_alert alert instance in
      let '(instances, occurrences, over, n'') := reconcile_alerts remaining' rest n' in
      (instance :: instances, occurrence_with_alert instance alert :: occurrences, over, n'')
  end.

Definition reconcile_instances (existing : list AlertInstanceState) (alerts : list ActiveAlert) (is_observed : ActiveAlert -> bool) (n : nat)
    : list AlertInstanceState * list AlertOccurrence * nat :=
  let '(instances, occurrences, remaining, n') := reconcile_alerts existing alerts n in
  let kept := List.filter (fun i => negb (is_observed (ai_alert i))) remaining in
  (instances ++ kept, occurrences ++ (occurrence_from <$> kept), n').

Definition same_lifecycle (l r : AlertInstanceState) : bool :=
  String.eqb (ai_instance_id l) (ai_instance_id r) && String.eqb (aa_rule_id (ai_alert l)) (aa_rule_id (ai_alert r)) &&
  String.eqb (aa_source (ai_alert l)) (aa_source (ai_alert r)) && bool_decide (ai_acknowledged_at l = ai_acknowledged_at r) &&
  bool_decide (ai_acknowledged_by l = ai_acknowledged_by r).

Definition same_instance_lifecycle (left right : list AlertInstanceState) : bool :=
  Nat.eqb (length left) (length right) && forallb (fun l => existsb (same_lifecycle l) right) left.

(** [get_or_insert_with] *)
Definition get_or_insert (o : option string) (v : string) : string := default v o.

Definition acknowledged (username at_ : string) (i : AlertInstanceState) : AlertInstanceState :=
  mkInstance (ai_instance_id i) (ai_alert i) (Some (get_or_insert (ai_acknowledged_at i) at_)) (Some (get_or_insert (ai_acknowledged_by i) username)).

Definition has_id (instance_id : string) (i : AlertInstanceState) : bool := String.eqb (ai_instance_id i) instance_id.

Definition mark_acknowledged (instances : list AlertInstanceState) (instance_id username acknowledged_at : string)
    : result (list AlertInstanceState * AlertAcknowledgement) string :=
  match update_first (has_id instance_id) (acknowledged username acknowledged_at) instances, find_first (has_id instance_id) instances with
  | Some instances', Some i =>
      Ok (instances', mkAcknowledgement (ai_instance_id i) (get_or_insert (ai_acknowledged_at i) acknowledged_at)
                        (get_or_insert (ai_acknowledged_by i) username))
  | _, _ => Err "alert is no longer active"
  end.

(** ** Operations *)

Definition file_of (s : AlertState) : AlertFile := mkAlertFile (als_rules s) (als_active_instances s).

(** The file is written beside the old one and renamed: a failure leaves the old one. *)
Definition save_state (io : option string) (s : AlertState) : stm AlertService string unit :=
  fun w => match io with
           | Some e => (w, Err e)
           | None => (mkAlertService (sv_state w) (sv_revision w) (Some (file_of s)) (sv_uuids w), Ok tt)
           end.

Definition put_state (s : AlertState) : stm AlertService string unit :=
  m_modify (fun w => mkAlertService s (sv_revision w) (sv_file w) (sv_uuids w)).

Definition bump_revision : stm AlertService string unit :=
  m_modify (fun w => mkAlertService (sv_state w) (u64_add (sv_revision w) 1) (sv_file w) (sv_uuids w)).

Definition set_dirty (d : bool) (s : AlertState) : AlertState := mkAlertState (als_rules s) (als_active_instances s) d.
Definition set_rules (rs : list AlertRule) (s : AlertState) : AlertState := mkAlertState rs (als_active_instances s) (als_dirty s).
Definition set_instances (is_ : list AlertInstanceState) (s : AlertState) : AlertState := mkAlertState (als_rules s) is_ (als_dirty s).

Definition next_uuid : stm AlertService string string :=
  fun w => (mkAlertService (sv_state w) (sv_revision w) (sv_file w) (S (sv_uuids w)), Ok (uuid_v4 (sv_uuids w))).

(** The end of an operation on the rules: memory is already changed when the
    write is tried. *)
Definition save_rules {A} (io : option string) (s : AlertState) (a : A) : stm AlertService string A :=
  put_state s ;;; save_state io s ;;; put_state (set_dirty false s) ;;; bump_revision ;;; m_ret a.

Definition has_rule_id (id : string) (r : AlertRule) : bool := String.eqb (ar_id r) id.

Definition with_rule_id (id : string) (r : AlertRule) : AlertRule :=
  mkAlertRule id (ar_name r) (ar_enabled r) (ar_metric r) (ar_condition r) (ar_threshold r) (ar_severity r).

Definition create_rule (io : option string) (rule : AlertRule) : stm AlertService string AlertRule :=
  w <~ m_get ;;
  let s := sv_state w in
  if existsb (has_rule_id (ar_id rule)) (als_rules s) then m_throw "rule ID already exists"
  else
    id <~ (if String.eqb (ar_id rule) "" then next_uuid else m_ret (ar_id rule)) ;;
    let rule := with_rule_id id rule in
    save_rules io (set_rules (als_rules s ++ [rule]) s) rule.

Definition updated_rule (u : AlertRuleUpdate) (r : AlertRule) : AlertRule :=
  mkAlertRule (ar_id r) (default (ar_name r) (ru_name u)) (default (ar_enabled r) (ru_enabled u)) (ar_metric r) (ar_condition r)
    (default (ar_threshold r) (ru_threshold u)) (default (ar_severity r) (ru_severity u)).

Definition update_rule (io : option string) (id : string) (update : AlertRuleUpdate) : stm AlertService string AlertRule :=
  w <~ m_get ;;
  let s := sv_state w in
  match find_first (has_rule_id id) (als_rules s), update_first (has_rule_id id) (updated_rule update) (als_rules s) with
  | Some r, Some rules => save_rules io (set_rules rules s) (updated_rule update r)
  | _, _ => m_throw "rule not found"
  end.

Definition delete_rule (io : option string) (id : string) : stm AlertService string unit :=
  w <~ m_get ;;
  let s := sv_state w in
  let rules := retain (fun r => negb (has_rule_id id r)) (als_rules s) in
  if Nat.eqb (length rules) (length (als_rules s)) then m_throw "rule not found"
  else save_rules io (set_rules rules s) tt.

Definition is_active_unacknowledged (w : AlertService) (instance_id : string) : bool :=
  existsb (fun i => has_id instance_id i && negb (is_some (ai_acknowledged_at i))) (als_active_instances (sv_state w)).

Definition rule_is_enabled (rules : list AlertRule) (rule_id : string) : bool :=
  String.eqb rule_id "mount-failure" || existsb (fun r => ar_enabled r && has_rule_id rule_id r) rules.

Definition reconcile_active (io : option string) (alerts : list ActiveAlert) (is_observed : ActiveAlert -> bool) (w : AlertService)
    : AlertService * list AlertOccurrence :=
  let s := sv_state w in
  let enabled := rule_is_enabled (als_rules s) in
  let existing := List.filter (fun i => enabled (aa_rule_id (ai_alert i))) (als_active_instances s) in
  let alerts := List.filter (fun a => enabled (aa_rule_id a)) alerts in
  let '(instances, occurrences, n) := reconcile_instances existing alerts is_observed (sv_uuids w) in
  let changed := negb (same_instance_lifecycle instances (als_active_instances s)) in
  let s' := mkAlertState (als_rules s) instances (changed || als_dirty s) in
  let w' := mkAlertService s' (u64_add (sv_revision w) 1) (sv_file w) n in
  if als_dirty s'
  then match save_state io s' w' with
       | (w'', Ok _) => (fst (put_state (set_dirty false s') w''), occurrences)
       | (w'', Err _) => (w'', occurrences)
       end
  else (w', occurrences).

Definition acknowledge (io : option string) (instance_id username now : string) : stm AlertService string AlertAcknowledgement :=
  w <~ m_get ;;
  let s := sv_state w in
  marked <~ m_lift (mark_acknowledged (als_active_instances s) instance_id username now) ;;
  let candidate := set_instances (fst marked) s in
  save_state io candidate ;;;
  put_state (set_dirty false candidate) ;;;
  bump_revision ;;;
  m_ret (snd marked).

(** The defaults whose identifier is not in use are appended. *)
Definition backfill (rules : list AlertRule) : list AlertRule :=
  fold_left (fun rs d => if existsb (has_rule_id (ar_id d)) rs then rs else rs ++ [d]) default_rules rules.

(** The file as it was read: [None] when it is missing or cannot be read. *)
Definition loaded (f : option AlertFile) : AlertState :=
  match f with Some f => mkAlertState (af_rules f) (af_active_instances f) false | None => mkAlertState [] [] false end.

Definition service_new (io : option string) (f : option AlertFile) (w : AlertService) : AlertService :=
  let s := loaded f in
  let w0 := mkAlertService s 0 (sv_file w) (sv_uuids w) in
  match als_rules s with
  | [] => let s := set_rules default_rules s in
          fst (save_state io s (fst (put_state s w0)))
  | rules =>
      let rules' := backfill rules in
      if Nat.eqb (length rules') (length rules) then w0
      else let s := set_rules rules' s in fst (save_state io s (fst (put_state s w0)))
  end.

End service.
