(* ===== verification/AlertProps.v ===== *)
(** * Alert occurrences: what reconciliation and acknowledgement guarantee

    [reconciled] is the reference for [reconcile_instances], stated on the whole
    list instead of by removing instances one by one.  The rest is about runs of
    operations, with any writes failing and the engine restarting in between. *)

From Stdlib Require Import ZArith Lia Ascii String List.
From stdpp Require Import base list gmap strings.
From S2P Require Import Prelude.
From S2P Require Import RustStr.
From S2P Require Import Float64.
From S2P Require Import Alerts.

(** ** The reference *)

(** Two alerts that continue the same instances. *)
Definition overlap (a b : ActiveAlert) : bool :=
  String.eqb (aa_rule_id a) (aa_rule_id b) && String.eqb (aa_source a) (aa_source b) &&
  (negb (bool_decide (aa_metric a = MetricBackupFailure) && bool_decide (aa_metric b = MetricBackupFailure))
   || String.eqb (aa_message a) (aa_message b)).

(** The alerts of a rule have the metric of the rule. *)
Definition one_metric (alerts : list ActiveAlert) : Prop :=
  forall a b, a ∈ alerts -> b ∈ alerts -> aa_rule_id a = aa_rule_id b -> aa_metric a = aa_metric b.

(** The instance an alert continues: of those it could, the one at the place the
    alert has among the alerts like it. *)
Definition continued (existing : list AlertInstanceState) (earlier : list ActiveAlert) (a : ActiveAlert) : option AlertInstanceState :=
  List.filter (continues a) existing !! length (List.filter (overlap a) earlier).

Fixpoint taken (existing : list AlertInstanceState) (earlier alerts : list ActiveAlert) : list AlertInstanceState :=
  match alerts with
  | [] => []
  | a :: rest => option_list (continued existing earlier a) ++ taken existing (earlier ++ [a]) rest
  end.

Definition unclaimed (claimed : list AlertInstanceState) (i : AlertInstanceState) : bool := negb (existsb (has_id (ai_instance_id i)) claimed).

Section reference.
Context (uuid_v4 : nat -> string).

(** Each alert with the instance it continues, or a new one. *)
Fixpoint renewed (existing : list AlertInstanceState) (earlier alerts : list ActiveAlert) (n : nat) : list AlertInstanceState :=
  match alerts with
  | [] => []
  | a :: rest => match continued existing earlier a with
                 | Some i => with_alert a i :: renewed existing (earlier ++ [a]) rest n
                 | None => fresh uuid_v4 n a :: renewed existing (earlier ++ [a]) rest (S n)
                 end
  end.

Definition reconciled (existing : list AlertInstanceState) (alerts : list ActiveAlert) (is_observed : ActiveAlert -> bool) (n : nat)
    : list AlertInstanceState :=
  renewed existing [] alerts n ++ List.filter (fun i => unclaimed (taken existing [] alerts) i && negb (is_observed (ai_alert i))) existing.

End reference.

(** ** The loop *)

Lemma take_first_find {A} (p : A -> bool) l :
  match take_first p l with
  | Some (x, rest) => find_first p l = Some x /\ exists l1 l2, l = l1 ++ x :: l2 /\ rest = l1 ++ l2
  | None => find_first p l = None
  end.
Proof.
  induction l as [|y l IH]; simpl; [done|]. destruct (p y) eqn:E.
  - split; [done|]. by exists [], l.
  - destruct (take_first p l) as [[x rest]|]; [|done].
    destruct IH as (Hf & l1 & l2 & -> & ->). split; [done|]. by exists (y :: l1), l2.
Qed.

(** What the loop removes is the first of the instances it may remove. *)
Lemma take_first_filter {A} (p : A -> bool) l :
  match take_first p l with
  | Some (x, rest) => p x = true /\ exists l1 l2, l = l1 ++ x :: l2 /\ rest = l1 ++ l2 /\ List.filter p l1 = []
  | None => List.filter p l = []
  end.
Proof.
  induction l as [|y l IH]; simpl; [done|]. destruct (p y) eqn:E.
  - split; [done|]. by exists [], l.
  - destruct (take_first p l) as [[x rest]|]; [|done].
    destruct IH as (Hp & l1 & l2 & -> & -> & Hl). split; [done|]. exists (y :: l1), l2. cbn. by rewrite E.
Qed.

(** Alerts alike continue the same instances, others continue none in common. *)
Lemma continues_alike a b i : (aa_rule_id a = aa_rule_id b -> aa_metric a = aa_metric b) -> overlap a b = true -> continues a i = continues b i.
Proof.
  unfold continues, overlap. intros Hm Ho. apply andb_true_iff in Ho as [[Hr%String.eqb_eq Hs%String.eqb_eq]%andb_true_iff Ho].
  specialize (Hm Hr). rewrite <- Hr, <- Hs, <- Hm in *. f_equal. case_bool_decide; cbn in *; [|done]. apply String.eqb_eq in Ho as ->. done.
Qed.

Lemma continues_both a b i : continues a i = true -> continues b i = true -> overlap a b = true.
Proof.
  unfold continues, overlap. intros Ha Hb. bool_hyps.
  replace (aa_rule_id a) with (aa_rule_id b) by congruence. replace (aa_source a) with (aa_source b) by congruence.
  rewrite !String.eqb_refl. cbn [andb].
  repeat case_bool_decide; cbn in *; try done. bool_hyps. apply String.eqb_eq. congruence.
Qed.

Lemma overlap_sym a b : overlap a b = overlap b a.
Proof. unfold overlap. rewrite (String.eqb_sym (aa_rule_id a)), (String.eqb_sym (aa_source a)), (String.eqb_sym (aa_message a)). f_equal. by rewrite andb_comm. Qed.

Lemma filter_ext_elem {A} (p q : A -> bool) l : (forall x, x ∈ l -> p x = q x) -> List.filter p l = List.filter q l.
Proof. intros H. apply filter_ext_in. intros x Hx%list_elem_of_In. auto. Qed.

(** What is left of the instances an alert could continue. *)
Definition left_over (existing : list AlertInstanceState) (earlier : list ActiveAlert) (remaining : list AlertInstanceState) (b : ActiveAlert) : Prop :=
  List.filter (continues b) remaining = drop (length (List.filter (overlap b) earlier)) (List.filter (continues b) existing).

Lemma drop_S {A} k (l : list A) x t : drop k l = x :: t -> drop (S k) l = t.
Proof. intros H. replace (S k) with (k + 1)%nat by lia. rewrite <- drop_drop, H. done. Qed.

(** One alert takes the next of its instances, and of no other alert's. *)
Lemma left_over_step existing earlier a b remaining :
  (aa_rule_id a = aa_rule_id b -> aa_metric a = aa_metric b) ->
  left_over existing earlier remaining a -> left_over existing earlier remaining b ->
  left_over existing (earlier ++ [a]) (match take_first (continues a) remaining with Some (_, rest) => rest | None => remaining end) b.
Proof.
  unfold left_over. intros Hm Ha Hb. rewrite List.filter_app, length_app. cbn [List.filter]. rewrite (overlap_sym b a).
  pose proof (take_first_filter (continues a) remaining) as Ht. destruct (take_first (continues a) remaining) as [[x rest]|].
  - destruct Ht as (Hx & l1 & l2 & -> & -> & Hl1). destruct (overlap a b) eqn:Eo; cbn [length].
    + assert (forall l, List.filter (continues a) l = List.filter (continues b) l) as Hab by (intros l; apply filter_ext_elem; intros; by apply continues_alike).
      rewrite <- !Hab in Hb |- *. rewrite List.filter_app, Hl1 in Hb. rewrite List.filter_app, Hl1. cbn [List.filter app] in Hb |- *. rewrite Hx in Hb.
      rewrite Nat.add_1_r. symmetry. eapply drop_S. symmetry. exact Hb.
    + rewrite Nat.add_0_r, <- Hb, !List.filter_app. cbn [List.filter]. destruct (continues b x) eqn:E; [|done].
      by rewrite (continues_both _ _ _ Hx E) in Eo.
  - destruct (overlap a b) eqn:Eo; cbn [length]; [|by rewrite Nat.add_0_r].
    assert (forall l, List.filter (continues a) l = List.filter (continues b) l) as Hab by (intros l; apply filter_ext_elem; intros; by apply continues_alike).
    rewrite <- Hab in Hb. rewrite Ht in Hb. rewrite <- drop_drop, <- Hb, <- Hab. done.
Qed.

Lemma reconcile_alerts_exact uuid existing earlier remaining alerts n :
  NoDup (ai_instance_id <$> remaining) -> one_metric alerts -> (forall b, b ∈ alerts -> left_over existing earlier remaining b) ->
  let '(instances, occurrences, over, n') := reconcile_alerts uuid remaining alerts n in
  instances = renewed uuid existing earlier alerts n /\ occurrences = occurrence_from <$> instances /\
  over = List.filter (unclaimed (taken existing earlier alerts)) remaining /\ (n <= n')%nat.
Proof.
  revert earlier remaining n. induction alerts as [|a alerts IH]; intros earlier remaining n Hnd Hom Hlo.
  { cbn. split_and!; try done. clear. induction remaining as [|i l IH]; cbn; [done|]. by f_equal. }
  assert (one_metric alerts) as Hom' by (intros x y Hx Hy; apply Hom; by right).
  assert (forall b, b ∈ alerts -> left_over existing (earlier ++ [a]) (match take_first (continues a) remaining with Some (_, rest) => rest | None => remaining end) b) as Hlo'.
  { intros b Hb. apply left_over_step; [|apply Hlo; by left|apply Hlo; by right]. apply Hom; [by left|by right]. }
  assert (continued existing earlier a = head (List.filter (continues a) remaining)) as Hc.
  { rewrite (Hlo a) by left. unfold continued. by rewrite head_lookup, lookup_drop, Nat.add_0_r. }
  pose proof (take_first_filter (continues a) remaining) as Ht. cbn [reconcile_alerts renewed taken]. rewrite Hc.
  destruct (take_first (continues a) remaining) as [[x rest]|].
  - destruct Ht as (Hx & l1 & l2 & -> & -> & Hl1). rewrite List.filter_app, Hl1. cbn [List.filter app]. rewrite Hx. cbn [head option_list app].
    rewrite fmap_app, fmap_cons in Hnd. apply NoDup_app in Hnd as (Hn1 & Hd & [Hx2 Hn2]%NoDup_cons).
    assert (NoDup (ai_instance_id <$> (l1 ++ l2))) as Hnd'.
    { rewrite fmap_app. apply NoDup_app. split_and!; [done| |done]. intros y Hy Hy2. apply (Hd y Hy). by right. }
    specialize (IH (earlier ++ [a]) (l1 ++ l2) n Hnd' Hom' Hlo').
    destruct (reconcile_alerts uuid (l1 ++ l2) alerts n) as [[[instances occurrences] over] n'].
    destruct IH as (-> & -> & -> & Hle). split_and!; [done|done| |done].
    change (option_list (Some x) ++ taken existing (earlier ++ [a]) alerts) with (x :: taken existing (earlier ++ [a]) alerts). rewrite !List.filter_app. cbn [List.filter]. replace (unclaimed (x :: taken existing (earlier ++ [a]) alerts) x) with false by (unfold unclaimed, has_id; cbn; by rewrite String.eqb_refl).
    assert (forall i, ai_instance_id i <> ai_instance_id x -> unclaimed (taken existing (earlier ++ [a]) alerts) i = unclaimed (x :: taken existing (earlier ++ [a]) alerts) i) as Hcl.
    { intros i Hi. unfold unclaimed, has_id. cbn. by rewrite (proj2 (String.eqb_neq _ _)). }
    f_equal; apply filter_ext_elem; intros i Hi; apply Hcl; intros He.
    + apply (Hd (ai_instance_id i)); [by apply list_elem_of_fmap_2|]. rewrite He. left.
    + apply Hx2. rewrite <- He. by apply list_elem_of_fmap_2.
  - rewrite Ht. cbn [head option_list app]. specialize (IH (earlier ++ [a]) remaining (S n) Hnd Hom' Hlo').
    destruct (reconcile_alerts uuid remaining alerts (S n)) as [[[instances occurrences] over] n'].
    destruct IH as (-> & -> & -> & Hle). split_and!; [done|done|done|lia].
Qed.

Lemma reconcile_instances_exact uuid existing alerts observed n :
  NoDup (ai_instance_id <$> existing) -> one_metric alerts ->
  exists n', (n <= n')%nat /\
    reconcile_instances uuid existing alerts observed n =
      (reconciled uuid existing alerts observed n, occurrence_from <$> reconciled uuid existing alerts observed n, n').
Proof.
  intros Hnd Hap. pose proof (reconcile_alerts_exact uuid existing [] existing alerts n Hnd Hap (fun b _ => eq_refl)) as H.
  unfold reconcile_instances, reconciled.
  destruct (reconcile_alerts uuid existing alerts n) as [[[instances occurrences] over] n'].
  destruct H as (-> & -> & -> & Hle). exists n'. split; [done|]. rewrite fmap_app.
  assert (Hf : List.filter (fun i => negb (observed (ai_alert i))) (List.filter (unclaimed (taken existing [] alerts)) existing) =
               List.filter (fun i => unclaimed (taken existing [] alerts) i && negb (observed (ai_alert i))) existing).
  { generalize (unclaimed (taken existing [] alerts)). intros u. clear. induction existing as [|i l IH]; cbn; [done|].
    destruct (u i); cbn; [|done]. destruct (negb _); by rewrite IH. }
  by rewrite Hf.
Qed.

(** The memory and the results of [reconcile_active] do not depend on the write. *)
Lemma reconcile_active_shape uuid io alerts observed w :
  let s := sv_state w in
  let r := reconcile_instances uuid (List.filter (fun i => rule_is_enabled (als_rules s) (aa_rule_id (ai_alert i))) (als_active_instances s))
             (List.filter (fun a => rule_is_enabled (als_rules s) (aa_rule_id a)) alerts) observed (sv_uuids w) in
  let w' := fst (reconcile_active uuid io alerts observed w) in
  snd (reconcile_active uuid io alerts observed w) = snd (fst r) /\
  als_rules (sv_state w') = als_rules s /\ als_active_instances (sv_state w') = fst (fst r) /\
  sv_uuids w' = snd r /\ sv_revision w' = u64_add (sv_revision w) 1 /\
  (if negb (same_instance_lifecycle (fst (fst r)) (als_active_instances s)) || als_dirty s
   then match io with
        | None => als_dirty (sv_state w') = false /\ sv_file w' = Some (file_of (sv_state w'))
        | Some _ => als_dirty (sv_state w') = true /\ sv_file w' = sv_file w
        end
   else als_dirty (sv_state w') = false /\ sv_file w' = sv_file w).
Proof.
  cbv zeta. unfold reconcile_active. set (r := reconcile_instances _ _ _ _ _). destruct r as [[instances occurrences] n]. cbn [fst snd].
  destruct (negb _ || als_dirty _) eqn:Hd; cbn [als_dirty]; [|by rewrite ?Hd].
  destruct io; cbn; by rewrite ?Hd.
Qed.

(** C16. One evaluation turns the active alerts into exactly the reference, when
    the active instances have distinct identifiers and the alerts of one rule
    have one metric: for each alert of an enabled rule, in order, the instance it
    continues with its identifier and acknowledgement kept and its alert
    replaced, or a new unacknowledged instance; of several alerts that continue
    the same instances (two filesystems that lack a member in the same slot, say)
    the first takes the first instance, the second the second, and so on; then
    the instances nothing continued whose signal was not observed, unchanged;
    instances of disabled or deleted rules and those observed without an alert
    are gone.  The answer has the occurrences of these instances, whether or not
    the write succeeds. *)
Theorem alerts_reconciled_exactly uuid io alerts observed w :
  let s := sv_state w in
  let existing := List.filter (fun i => rule_is_enabled (als_rules s) (aa_rule_id (ai_alert i))) (als_active_instances s) in
  let fired := List.filter (fun a => rule_is_enabled (als_rules s) (aa_rule_id a)) alerts in
  let w' := fst (reconcile_active uuid io alerts observed w) in
  NoDup (ai_instance_id <$> als_active_instances s) -> one_metric fired ->
  als_active_instances (sv_state w') = reconciled uuid existing fired observed (sv_uuids w) /\
  snd (reconcile_active uuid io alerts observed w) = occurrence_from <$> als_active_instances (sv_state w') /\
  als_rules (sv_state w') = als_rules s /\
  (als_dirty (sv_state w') = false ->
   sv_file w' = Some (file_of (sv_state w')) \/
   sv_file w' = sv_file w /\ same_instance_lifecycle (als_active_instances (sv_state w')) (als_active_instances s) = true).
Proof.
  cbv zeta. intros Hnd Hap. pose proof (reconcile_active_shape uuid io alerts observed w) as H. cbv zeta in H.
  destruct (reconcile_instances_exact uuid _ _ observed (sv_uuids w) (NoDup_map_retain _
    (fun i => rule_is_enabled (als_rules (sv_state w)) (aa_rule_id (ai_alert i))) _ Hnd) Hap) as (n' & _ & He).
  unfold retain in He. rewrite He in H. cbn [fst snd] in H. destruct H as (-> & -> & Hi & _ & _ & Hd).
  rewrite Hi. split; [done|]. split; [done|]. split; [done|]. intros Hdirty.
  destruct (same_instance_lifecycle _ _) eqn:Hs; cbn in Hd.
  - destruct (als_dirty (sv_state w)); [|by right; split; [apply Hd|]]. destruct io; [destruct Hd; congruence|]. left. apply Hd.
  - left. destruct io; [destruct Hd; congruence|]. apply Hd.
Qed.

(** ** Runs *)

Inductive AlertOp : Type :=
| CreateRule (io : option string) (rule : AlertRule)
| UpdateRule (io : option string) (id : string) (update : AlertRuleUpdate)
| DeleteRule (io : option string) (id : string)
| Reconcile (io : option string) (alerts : list ActiveAlert) (is_observed : ActiveAlert -> bool)
| Acknowledge (io : option string) (instance_id username now : string)
| Restart (io : option string) (readable : bool).

Section runs.
Context (uuid : nat -> string).

(** The service after an operation, with the acknowledgement it reported. *)
Definition perform (op : AlertOp) (w : AlertService) : AlertService * option AlertAcknowledgement :=
  match op with
  | CreateRule io rule => (fst (create_rule uuid io rule w), None)
  | UpdateRule io id u => (fst (update_rule io id u w), None)
  | DeleteRule io id => (fst (delete_rule io id w), None)
  | Reconcile io alerts observed => (fst (reconcile_active uuid io alerts observed w), None)
  | Acknowledge io id user now =>
      match acknowledge io id user now w with (w', Ok a) => (w', Some a) | (w', Err _) => (w', None) end
  | Restart io readable => (service_new io (if readable then sv_file w else None) w, None)
  end.

Fixpoint run (ops : list AlertOp) (w : AlertService) : AlertService * list AlertAcknowledgement :=
  match ops with
  | [] => (w, [])
  | op :: rest => let '(w1, a) := perform op w in let '(w2, l) := run rest w1 in (w2, match a with Some a => a :: l | None => l end)
  end.

Definition memory (w : AlertService) : list AlertInstanceState := als_active_instances (sv_state w).
Definition stored (w : AlertService) : list AlertInstanceState := als_active_instances (loaded (sv_file w)).

(** An instance carries what was reported for it. *)
Definition settled (acks : list AlertAcknowledgement) (l : list AlertInstanceState) : Prop :=
  forall a i, a ∈ acks -> i ∈ l -> ai_instance_id i = ak_instance_id a ->
    ai_acknowledged_at i = Some (ak_acknowledged_at a) /\ ai_acknowledged_by i = Some (ak_acknowledged_by a).

Definition unused (n : nat) (ids : list string) : Prop := forall k, (n <= k)%nat -> uuid k ∉ ids.

Definition sound (n : nat) (acks : list AlertAcknowledgement) (l : list AlertInstanceState) : Prop :=
  NoDup (ai_instance_id <$> l) /\ unused n (ai_instance_id <$> l) /\ settled acks l.

Definition alerts_ok (w : AlertService) (acks : list AlertAcknowledgement) : Prop :=
  sound (sv_uuids w) acks (memory w) /\ sound (sv_uuids w) acks (stored w) /\ unused (sv_uuids w) (ak_instance_id <$> acks).

(** What does not change in an instance. *)
Definition signature (i : AlertInstanceState) : string * option string * option string :=
  (ai_instance_id i, ai_acknowledged_at i, ai_acknowledged_by i).

Lemma signature_id (l : list AlertInstanceState) : ai_instance_id <$> l = (fun x => fst (fst x)) <$> (signature <$> l).
Proof. rewrite <- list_fmap_compose. done. Qed.

Lemma sound_signature n acks (l l' : list AlertInstanceState) : Permutation (signature <$> l) (signature <$> l') -> sound n acks l -> sound n acks l'.
Proof.
  intros Hp (Hn & Hu & Hs). pose proof (fmap_Permutation (fun x => fst (fst x)) _ _ Hp) as Hid.
  rewrite <- !signature_id in Hid. split_and!.
  - by rewrite <- Hid.
  - intros k Hk. rewrite <- Hid. auto.
  - intros a i Ha Hi. assert (H : signature i ∈ signature <$> l) by (rewrite Hp; by apply list_elem_of_fmap_2).
    apply list_elem_of_fmap in H as (j & Hj & Hjl). injection Hj as -> -> ->. intros He. by apply (Hs a j).
Qed.

Lemma sound_sublist n acks l l' : sublist l' l -> sound n acks l -> sound n acks l'.
Proof.
  intros Hsub (Hn & Hu & Hs). assert (Hin : l' ⊆ l) by (intros x; by apply sublist_subseteq).
  split_and!.
  - eapply sublist_NoDup; [exact Hn|]. by apply fmap_sublist.
  - intros k Hk Hi. apply (Hu k Hk). apply list_elem_of_fmap in Hi as (i & -> & Hi). apply list_elem_of_fmap_2; auto.
  - intros a i Ha Hi. apply (Hs a i Ha). auto.
Qed.

Lemma sound_mono n n' acks l : (n <= n')%nat -> sound n acks l -> sound n' acks l.
Proof. intros Hle (Hn & Hu & Hs). split_and!; [done| |done]. intros k Hk. apply Hu. lia. Qed.

(** The loop only renames alerts and adds new instances. *)
Definition new_signatures (n n' : nat) : list (string * option string * option string) :=
  (fun k => (uuid k, None, None)) <$> seq n (n' - n).

Lemma reconcile_alerts_signatures existing alerts n :
  let '(instances, _, over, n') := reconcile_alerts uuid existing alerts n in
  (n <= n')%nat /\ Permutation (signature <$> (instances ++ over)) (new_signatures n n' ++ (signature <$> existing)).
Proof.
  revert existing n. induction alerts as [|a alerts IH]; intros existing n; cbn.
  { split; [done|]. unfold new_signatures. by rewrite Nat.sub_diag. }
  pose proof (take_first_find (continues a) existing) as Ht.
  destruct (take_first (continues a) existing) as [[x rest]|].
  - destruct Ht as (_ & l1 & l2 & -> & ->). specialize (IH (l1 ++ l2) n).
    destruct (reconcile_alerts uuid (l1 ++ l2) alerts n) as [[[instances occurrences] over] n'].
    destruct IH as [Hle Hp]. split; [done|]. cbn [app]. rewrite fmap_cons, Hp. change (signature (with_alert a x)) with (signature x).
    rewrite !fmap_app, fmap_cons. by rewrite <- !Permutation_middle.
  - specialize (IH existing (S n)). destruct (reconcile_alerts uuid existing alerts (S n)) as [[[instances occurrences] over] n'].
    destruct IH as [Hle Hp]. split; [lia|]. cbn [app]. rewrite fmap_cons, Hp. unfold new_signatures.
    replace (n' - n)%nat with (S (n' - S n)) by lia. done.
Qed.

Context (uuid_inj : forall j k, uuid j = uuid k -> j = k).

Lemma new_signatures_sound n n' acks (l fresh_ones : list AlertInstanceState) :
  (n <= n')%nat -> unused n (ak_instance_id <$> acks) -> sound n acks l -> signature <$> fresh_ones = new_signatures n n' ->
  sound n' acks (fresh_ones ++ l).
Proof.
  intros Hle Hack (Hn & Hu & Hs) Hf.
  assert (Hid : ai_instance_id <$> fresh_ones = uuid <$> seq n (n' - n)).
  { rewrite signature_id, Hf. unfold new_signatures. by rewrite <- list_fmap_compose. }
  unfold sound, unused. rewrite fmap_app, Hid. split_and!.
  - apply NoDup_app. split_and!; [|intros x (k & -> & Hk)%list_elem_of_fmap; apply Hu; apply elem_of_seq in Hk; lia|done].
    apply NoDup_fmap_2_strong; [auto|apply NoDup_seq].
  - intros k Hk [(j & Hj & Hin)%list_elem_of_fmap|Hin]%elem_of_app; [|by apply (Hu k); [lia|]].
    apply uuid_inj in Hj as <-. apply elem_of_seq in Hin. lia.
  - intros a i Ha [Hi|Hi]%elem_of_app He; [|by apply (Hs a i)].
    assert (Hin : ai_instance_id i ∈ uuid <$> seq n (n' - n)) by (rewrite <- Hid; by apply list_elem_of_fmap_2).
    apply list_elem_of_fmap in Hin as (k & Hk & Hseq). destruct (Hack k); [apply elem_of_seq in Hseq; lia|].
    rewrite <- Hk, He. by apply list_elem_of_fmap_2.
Qed.

Lemma reconcile_sound existing alerts observed n acks :
  let '(instances, _, n') := reconcile_instances uuid existing alerts observed n in
  unused n (ak_instance_id <$> acks) -> sound n acks existing -> (n <= n')%nat /\ sound n' acks instances.
Proof.
  unfold reconcile_instances. pose proof (reconcile_alerts_signatures existing alerts n) as Hsig.
  destruct (reconcile_alerts uuid existing alerts n) as [[[instances occurrences] over] n']. destruct Hsig as [Hle Hp].
  intros Hack Hs. split; [done|].
  eapply sound_sublist; [apply sublist_app; [reflexivity|apply (retain_sublist _ over)]|].
  set (blank k := fresh uuid k (mkActiveAlert "" "" SevWarning KernelErrors "" f64_zero f64_zero "")).
  assert (Hf : signature <$> (blank <$> seq n (n' - n)) = new_signatures n n') by (unfold new_signatures; by rewrite <- list_fmap_compose).
  eapply sound_signature; [|exact (new_signatures_sound n n' acks existing _ Hle Hack Hs Hf)].
  by rewrite Hp, fmap_app, Hf.
Qed.

(** ** Acknowledgement *)

Lemma mark_acknowledged_sound n acks l id user now l' a :
  mark_acknowledged l id user now = Ok (l', a) -> sound n acks l -> unused n (ak_instance_id <$> acks) ->
  sound n (a :: acks) l' /\ unused n (ak_instance_id <$> (a :: acks)) /\
  (forall b, b ∈ acks -> ak_instance_id b = ak_instance_id a -> b = a).
Proof.
  unfold mark_acknowledged. destruct (update_first _ _ l) as [l''|] eqn:Hup; [|done].
  apply update_first_Some in Hup as (l1 & x & l2 & -> & -> & Hx & ->). intros [= <- <-] (Hn & Hu & Hs) Hack.
  assert (Hxs : forall b, b ∈ acks -> ak_instance_id b = ai_instance_id x ->
    ai_acknowledged_at x = Some (ak_acknowledged_at b) /\ ai_acknowledged_by x = Some (ak_acknowledged_by b)).
  { intros b Hb He. apply (Hs b x); [done|set_solver|done]. }
  rewrite fmap_app, fmap_cons in Hn, Hu. unfold sound. rewrite fmap_app, !fmap_cons. cbn [acknowledged ai_instance_id ak_instance_id].
  split_and!; try done.
  - intros b i Hb Hi He. apply elem_of_app in Hi. rewrite elem_of_cons in Hi.
    assert (Hc : i = acknowledged user now x \/ i ∈ l1 ++ l2) by set_solver. clear Hi. destruct Hc as [->|Hi].
    + apply elem_of_cons in Hb as [->|Hb]; [done|]. destruct (Hxs b Hb) as [E1 E2]; [done|]. cbn. by rewrite E1, E2.
    + apply elem_of_cons in Hb as [->|Hb]; [|apply (Hs b i); set_solver]. exfalso. cbn in He.
      apply NoDup_app in Hn as (_ & Hd & [Hnx _]%NoDup_cons). apply elem_of_app in Hi as [Hi|Hi].
      * apply (Hd (ai_instance_id i)); [by apply list_elem_of_fmap_2|]. rewrite He. left.
      * apply Hnx. rewrite <- He. by apply list_elem_of_fmap_2.
  - intros k Hk [He|Hin]%elem_of_cons; [|by apply (Hack k)]. apply (Hu k Hk). rewrite He. set_solver.
  - intros b Hb He. destruct (Hxs b Hb He) as [E1 E2]. cbn in He. rewrite E1, E2. cbn. rewrite <- He. by destruct b.
Qed.

(** ** Preservation *)

Lemma alerts_ok_keep w w' acks :
  alerts_ok w acks -> memory w' = memory w -> (stored w' = stored w \/ stored w' = memory w) -> (sv_uuids w <= sv_uuids w')%nat ->
  alerts_ok w' acks.
Proof.
  intros (Hm & Hf & Hu) Em Ef Hle. unfold alerts_ok. rewrite Em. split_and!.
  - by eapply sound_mono.
  - destruct Ef as [->| ->]; by eapply sound_mono.
  - intros k Hk. apply Hu. lia.
Qed.

Lemma commit_rules_ok {A} io s (a : A) w acks :
  alerts_ok w acks -> als_active_instances s = memory w -> alerts_ok (fst (save_rules io s a w)) acks.
Proof. intros Hok H. apply (alerts_ok_keep w); [done|..]; destruct io; cbn; auto. Qed.

Lemma rule_ops_keep op w acks :
  match op with CreateRule _ _ | UpdateRule _ _ _ | DeleteRule _ _ => alerts_ok w acks -> alerts_ok (fst (perform op w)) acks | _ => True end.
Proof.
  destruct op as [io rule|io id u|io id| | |]; try done; intros Hok; cbn [perform fst].
  - unfold create_rule, m_bind, m_get. destruct (existsb _ _); [done|].
    destruct (String.eqb _ _); cbn [next_uuid m_ret]; apply commit_rules_ok; try done.
    apply (alerts_ok_keep w); [done|done|by left|cbn; lia].
  - unfold update_rule, m_bind, m_get. destruct (find_first _ _); [|done]. destruct (update_first _ _ _); [|done]. by apply commit_rules_ok.
  - unfold delete_rule, m_bind, m_get. destruct (Nat.eqb _ _); [done|]. by apply commit_rules_ok.
Qed.

Lemma reconcile_keeps io alerts observed w acks :
  alerts_ok w acks -> alerts_ok (fst (reconcile_active uuid io alerts observed w)) acks.
Proof.
  intros (Hm & Hf & Hu). pose proof (reconcile_active_shape uuid io alerts observed w) as H. cbv zeta in H.
  pose proof (reconcile_sound (retain (fun i => rule_is_enabled (als_rules (sv_state w)) (aa_rule_id (ai_alert i))) (als_active_instances (sv_state w)))
    (List.filter (fun a => rule_is_enabled (als_rules (sv_state w)) (aa_rule_id a)) alerts) observed (sv_uuids w) acks) as Hr.
  unfold retain in Hr. destruct (reconcile_instances _ _ _ _ _) as [[instances occurrences] n']. cbn [fst snd] in H.
  destruct Hr as [Hle Hs]; [done|eapply sound_sublist; [apply (retain_sublist _ (memory w))|exact Hm]|].
  destruct H as (_ & _ & Hi & Hn & _ & Hd). unfold alerts_ok, memory. rewrite Hi, Hn. split_and!.
  - done.
  - assert (Hc : stored (fst (reconcile_active uuid io alerts observed w)) = stored w \/
               stored (fst (reconcile_active uuid io alerts observed w)) = instances).
    { unfold stored. destruct (_ || _); [destruct io|]; destruct Hd as [_ ->]; auto. }
    destruct Hc as [->| ->]; [by eapply sound_mono|done].
  - intros k Hk. apply Hu. lia.
Qed.

Lemma restart_keeps io (readable : bool) w acks :
  alerts_ok w acks -> alerts_ok (service_new io (if readable then sv_file w else None) w) acks.
Proof.
  intros (Hm & Hf & Hu).
  assert (Hnil : sound (sv_uuids w) acks []).
  { split_and!; [constructor|intros k _; by apply not_elem_of_nil|intros a i _ []%elem_of_nil]. }
  assert (Hl : sound (sv_uuids w) acks (als_active_instances (loaded (if readable then sv_file w else None)))).
  { destruct readable; [done|exact Hnil]. }
  unfold service_new. destruct (als_rules _) as [|r rs]; [|destruct (Nat.eqb _ _)]; [destruct io|done|destruct io]; done.
Qed.

Lemma run_ok ops w w' acks acks' :
  alerts_ok w acks -> run ops w = (w', acks') -> alerts_ok w' (rev acks' ++ acks) /\
  (forall a b, a ∈ acks' -> b ∈ acks' ++ acks -> ak_instance_id a = ak_instance_id b -> a = b).
Proof.
  revert w w' acks acks'. induction ops as [|op ops IH]; intros w w' acks acks' Hok; cbn.
  { intros [= <- <-]. split; [done|]. intros a b []%elem_of_nil. }
  destruct (perform op w) as [w1 a1] eqn:Hp. destruct (run ops w1) as [w2 l] eqn:Hr. intros [= <- <-].
  destruct a1 as [a|].
  - destruct op; try done. cbn in Hp. unfold acknowledge, m_bind, m_get, m_lift in Hp.
    destruct (mark_acknowledged _ _ _ _) as [[l' b]|] eqn:Hmark; [|done]. destruct io; cbn in Hp; [done|]. injection Hp as Hw1 <-.
    destruct Hok as (Hm & Hf & Hu). destruct (mark_acknowledged_sound _ _ _ _ _ _ _ _ Hmark Hm Hu) as (Hs & Hu' & Hagree).
    assert (Hok1 : alerts_ok w1 (b :: acks)) by (subst w1; done).
    destruct (IH _ _ (b :: acks) _ Hok1 Hr) as [Hok' Hall]. cbn [rev]. rewrite <- app_assoc. split; [done|].
    intros x y Hx Hy He. apply elem_of_cons in Hx. rewrite <- app_comm_cons, elem_of_cons in Hy.
    destruct Hx as [->|Hx], Hy as [->|Hy]; try done.
    + apply elem_of_app in Hy as [Hy|Hy]; [symmetry; apply Hall; [done|set_solver|done]|]. symmetry. by apply Hagree.
    + apply Hall; [done|set_solver|done].
    + apply Hall; [done|set_solver|done].
  - apply (IH w1); [|done]. destruct op.
    + pose proof (rule_ops_keep (CreateRule io rule) w acks Hok) as H. by rewrite Hp in H.
    + pose proof (rule_ops_keep (UpdateRule io id update) w acks Hok) as H. by rewrite Hp in H.
    + pose proof (rule_ops_keep (DeleteRule io id) w acks Hok) as H. by rewrite Hp in H.
    + injection Hp as <-. by apply reconcile_keeps.
    + cbn in Hp. unfold acknowledge, m_bind, m_get, m_lift in Hp.
      destruct (mark_acknowledged _ _ _ _) as [[l' b]|]; [destruct io; [|done]|]; cbn in Hp; by injection Hp as <-.
    + injection Hp as <-. by apply restart_keeps.
Qed.

(** ** Clean means stored *)

(** When nothing is left to write, a restart brings back the same occurrences. *)
Definition clean (w : AlertService) : Prop := als_dirty (sv_state w) = false -> same_instance_lifecycle (memory w) (stored w) = true.

Definition reads_file (op : AlertOp) : Prop := match op with Restart _ readable => readable = true | _ => True end.

Lemma same_lifecycle_spec l r :
  same_lifecycle l r = true <->
  signature l = signature r /\ aa_rule_id (ai_alert l) = aa_rule_id (ai_alert r) /\ aa_source (ai_alert l) = aa_source (ai_alert r).
Proof.
  unfold same_lifecycle, signature. rewrite !andb_true_iff, !String.eqb_eq, !bool_decide_eq_true. naive_solver congruence.
Qed.

Lemma same_instances_refl l : same_instance_lifecycle l l = true.
Proof.
  unfold same_instance_lifecycle. rewrite Nat.eqb_refl. apply forallb_forall. intros i Hi. apply existsb_exists. exists i.
  split; [done|]. by apply same_lifecycle_spec.
Qed.

Lemma same_instances_trans l m r :
  same_instance_lifecycle l m = true -> same_instance_lifecycle m r = true -> same_instance_lifecycle l r = true.
Proof.
  unfold same_instance_lifecycle. intros [L1%Nat.eqb_eq H1]%andb_true_iff [L2%Nat.eqb_eq H2]%andb_true_iff.
  apply andb_true_iff. split; [apply Nat.eqb_eq; congruence|]. rewrite forallb_forall in *. intros i Hi.
  apply H1, existsb_exists in Hi as (j & Hj & Hij). apply H2, existsb_exists in Hj as (k & Hk & Hjk).
  apply existsb_exists. exists k. split; [done|]. rewrite same_lifecycle_spec in *. intuition congruence.
Qed.

Lemma commit_rules_clean {A} io s (a : A) w :
  als_active_instances s = memory w -> als_dirty s = als_dirty (sv_state w) -> clean w -> clean (fst (save_rules io s a w)).
Proof.
  intros Hi Hd Hc. destruct io; unfold clean, memory at 1; cbn; intros Hd'; [|apply same_instances_refl].
  rewrite Hi. apply Hc. congruence.
Qed.

Lemma perform_clean op w : reads_file op -> clean w -> clean (fst (perform op w)).
Proof.
  intros Hr Hc. destruct op; cbn [perform fst].
  - unfold create_rule, m_bind, m_get. destruct (existsb _ _); [done|].
    destruct (String.eqb _ _); cbn [next_uuid m_ret]; by apply commit_rules_clean.
  - unfold update_rule, m_bind, m_get. destruct (find_first _ _); [|done]. destruct (update_first _ _ _); [|done]. by apply commit_rules_clean.
  - unfold delete_rule, m_bind, m_get. destruct (Nat.eqb _ _); [done|]. by apply commit_rules_clean.
  - pose proof (reconcile_active_shape uuid io alerts is_observed w) as H. cbv zeta in H.
    set (r := reconcile_instances _ _ _ _ _) in H. clearbody r. destruct r as [[instances occurrences] n']. cbn [fst snd] in H.
    destruct H as (_ & _ & Hi & _ & _ & Hd). unfold clean, memory. rewrite Hi. intros Hdirty.
    destruct (negb _ || als_dirty _) eqn:Hch.
    + destruct io; [destruct Hd; congruence|]. destruct Hd as [_ Hf]. unfold stored. rewrite Hf. cbn. rewrite Hi. apply same_instances_refl.
    + bool_hyps. destruct Hd as [_ Hf]. unfold stored. rewrite Hf. eapply same_instances_trans; [done|]. by apply Hc.
  - unfold acknowledge, m_bind, m_get, m_lift. destruct (mark_acknowledged _ _ _ _) as [[l' b]|]; [|done].
    destruct io; [done|]. intros _. apply same_instances_refl.
  - cbn in Hr. subst readable. unfold service_new.
    destruct (als_rules _) as [|r rs]; [|destruct (Nat.eqb _ _)]; [destruct io|..]; try (intros _; apply same_instances_refl).
    destruct io; intros _; apply same_instances_refl.
Qed.

Lemma run_clean ops w w' acks : Forall reads_file ops -> clean w -> run ops w = (w', acks) -> clean w'.
Proof.
  revert w acks. induction ops as [|op ops IH]; intros w acks Hr Hc; cbn; [by intros [= <- _]|].
  apply Forall_cons in Hr as [Ho Hr]. pose proof (perform_clean op w Ho Hc) as H1.
  destruct (perform op w) as [w1 a1]. destruct (run ops w1) as [w2 l] eqn:E. intros [= <- _]. by apply (IH w1 l).
Qed.
End runs.

(** C14. However rules are changed, alerts evaluated and acknowledged, writes of
    the state file fail and the engine restarts: once an acknowledgement was
    reported, every instance with that identifier, in memory or in the file,
    carries exactly that time and user, and a second report for it says the
    same; identifiers of active instances are unique and never reused; and when
    the service has nothing left to write and no restart failed to read the
    file, a restart would bring back the same occurrences. *)
Theorem acknowledgements_survive (uuid : nat -> string) (uuid_inj : forall j k, uuid j = uuid k -> j = k) ops w w' acks :
  alerts_ok uuid w [] -> clean w -> run uuid ops w = (w', acks) ->
  (forall a i, a ∈ acks -> i ∈ memory w' ++ stored w' -> ai_instance_id i = ak_instance_id a ->
     ai_acknowledged_at i = Some (ak_acknowledged_at a) /\ ai_acknowledged_by i = Some (ak_acknowledged_by a)) /\
  (forall a b, a ∈ acks -> b ∈ acks -> ak_instance_id a = ak_instance_id b -> a = b) /\
  NoDup (ai_instance_id <$> memory w') /\
  (forall k, (sv_uuids w' <= k)%nat -> uuid k ∉ (ai_instance_id <$> memory w' ++ stored w') ++ (ak_instance_id <$> acks)) /\
  (Forall reads_file ops -> clean w').
Proof.
  intros Hok Hc Hrun. destruct (run_ok uuid uuid_inj ops w w' [] acks Hok Hrun) as [((Hn & Hu & Hs) & (Hn' & Hu' & Hs') & Hack) Hagree].
  rewrite app_nil_r in Hs, Hs', Hack, Hagree.
  assert (Hrev : forall a, a ∈ acks -> a ∈ rev acks) by (intros a; rewrite !list_elem_of_In; apply in_rev).
  split_and!.
  - intros a i Ha [Hi|Hi]%elem_of_app; [apply (Hs a i)|apply (Hs' a i)]; auto.
  - done.
  - done.
  - intros k Hk. rewrite fmap_app, !not_elem_of_app. split_and!; [by apply Hu|by apply Hu'|].
    intros Hin. apply (Hack k Hk). apply list_elem_of_fmap in Hin as (a & -> & Ha). apply list_elem_of_fmap_2. auto.
  - intros Hr. by apply (run_clean uuid ops w w' acks).
Qed.

(** ** Examples *)

Definition demo_uuid (k : nat) : string := String "u" (zeros k).

Lemma demo_uuid_inj j k : demo_uuid j = demo_uuid k -> j = k.
Proof.
  assert (H : forall n, String.length (zeros n) = n) by (induction n as [|n IH]; cbn; [done|by rewrite IH]).
  intros [= E%(f_equal String.length)]. by rewrite !H in E.
Qed.

Definition demo_alert (source : string) (pct : Z) : ActiveAlert :=
  mkActiveAlert "fs-usage-warn" "Filesystem usage warning" SevWarning FsUsagePercent "usage" (f64_of_Z pct) (f64_of_Z 80) source.

Definition demo_service : AlertService := mkAlertService (mkAlertState default_rules [] false) 0 (Some (mkAlertFile default_rules [])) 0.

Definition demo_ops : list AlertOp :=
  [Reconcile None [demo_alert "tank" 81; demo_alert "pool" 90] (fun _ => true);
   Acknowledge None (demo_uuid 0) "admin" "09:00";
   Reconcile (Some "disk full") [demo_alert "tank" 85] (fun _ => true);
   DeleteRule (Some "disk full") "cpu-load-warn";
   Restart None true;
   Acknowledge None (demo_uuid 0) "eve" "10:00"].

Lemma demo_service_ok : alerts_ok demo_uuid demo_service [] /\ clean demo_service.
Proof.
  assert (Hnil : sound demo_uuid 0 [] []).
  { split_and!; [constructor|intros k _; by apply not_elem_of_nil|intros a i _ []%elem_of_nil]. }
  split; [|done]. split_and!; [exact Hnil|exact Hnil|]. intros k _. by apply not_elem_of_nil.
Qed.

Lemma acknowledgements_survive_witness :
  exists w' acks, run demo_uuid demo_ops demo_service = (w', acks) /\
    signature <$> memory w' = [(demo_uuid 0, Some "09:00", Some "admin"); (demo_uuid 1, None, None)] /\
    (forall a b, a ∈ acks -> b ∈ acks -> ak_instance_id a = ak_instance_id b -> a = b) /\ clean w'.
Proof.
  destruct (run demo_uuid demo_ops demo_service) as [w' acks] eqn:E. exists w', acks.
  destruct (acknowledgements_survive demo_uuid demo_uuid_inj demo_ops demo_service w' acks (proj1 demo_service_ok) (proj2 demo_service_ok) E)
    as (_ & Hagree & _ & _ & Hclean).
  split; [done|]. split; [|split; [exact Hagree|apply Hclean; repeat constructor]].
  replace w' with (fst (run demo_uuid demo_ops demo_service)) by (by rewrite E). vm_compute. reflexivity.
Defined.

Lemma alerts_reconciled_exactly_witness :
  let i0 := mkInstance "a" (demo_alert "tank" 81) (Some "09:00") (Some "admin") in
  let i1 := mkInstance "b" (demo_alert "pool" 90) None None in
  let w := mkAlertService (mkAlertState default_rules [i0; i1] false) 0 None 0 in
  let w' := fst (reconcile_active demo_uuid None [demo_alert "tank" 85; demo_alert "new" 99] (fun _ => false) w) in
  als_active_instances (sv_state w') =
    [mkInstance "a" (demo_alert "tank" 85) (Some "09:00") (Some "admin"); mkInstance "u" (demo_alert "new" 99) None None; i1].
Proof.
  intros i0 i1 w w'. destruct (alerts_reconciled_exactly demo_uuid None [demo_alert "tank" 85; demo_alert "new" 99] (fun _ => false) w) as [H _].
  - vm_compute. apply NoDup_cons. split; [set_solver|]. apply NoDup_singleton.
  - intros a b Ha Hb _. vm_compute in Ha, Hb. repeat (apply elem_of_cons in Ha as [->|Ha]); try (by apply elem_of_nil in Ha);
      repeat (apply elem_of_cons in Hb as [->|Hb]); try (by apply elem_of_nil in Hb); reflexivity.
  - unfold w' at 1. rewrite H. vm_compute. reflexivity.
Defined.

(** A rule whose creation was refused because the file could not be written
    still fires. *)
Lemma refused_rule_stays :
  let rule := mkAlertRule "mine" "Mine" true CpuLoadPercent Above (f64_of_Z 1) SevWarning in
  let r := create_rule demo_uuid (Some "disk full") rule demo_service in
  snd r = Err "disk full" /\ als_rules (sv_state (fst r)) = default_rules ++ [rule] /\ als_dirty (sv_state (fst r)) = false /\
  sv_file (fst r) = sv_file demo_service.
Proof. repeat split. Qed.

(** The missing members of two filesystems in the same slot have the same name,
    and their alerts the same source: when the first filesystem recovers, the
    alert of the second takes over the instance of the first and with it an
    acknowledgement that was not given for it. *)
Definition missing_member (fs : string) : list ActiveAlert :=
  evaluate_rules default_rules (mkSystemStats 4 f64_zero 100 10 0 0) [] []
    [mkBcachefsHealth fs false [mkDeviceHealth "(missing dev-1)" "offline" false] 0 false false]
    (mkKernelErrorAlert 0 []) (mkDiskFree None None).

Lemma missing_members_share_alerts :
  let states w := (fun i => (aa_message (ai_alert i), ai_acknowledged_by i)) <$> als_active_instances (sv_state w) in
  let both := fst (reconcile_active demo_uuid None (missing_member "tank" ++ missing_member "pool") (fun _ => true) demo_service) in
  let acked := fst (acknowledge None (ai_instance_id (hd (mkInstance "" (demo_alert "" 0) None None) (als_active_instances (sv_state both)))) "admin" "09:00" both) in
  exists m1 m2, states acked = [(m1, Some "admin"); (m2, None)] /\ m1 <> m2 /\
    states (fst (reconcile_active demo_uuid None (missing_member "pool") (fun _ => true) acked)) = [(m2, Some "admin")].
Proof. cbv zeta. eexists _, _. split_and!; [vm_compute; reflexivity|vm_compute; discriminate|vm_compute; reflexivity]. Qed.
