(* ===== verification/Stall.v ===== *)
(** * The reconcile stall detector (nasty-engine/src/router/mod.rs)

    A filesystem whose reconcile thread has pending work, is not reported as
    active, and whose counters have not moved for a whole window is stalled.  The
    tracker remembers, per filesystem, the counters last seen and since when they
    are unchanged.  Instants are nanoseconds. *)

From Stdlib Require Import ZArith Lia Ascii String List.
From stdpp Require Import base list gmap strings.
From S2P Require Import Prelude.
From S2P Require Import RustStr.

Record ReconcileProgress : Type := mkProgress { rp_keys_moved : Z; rp_bytes_seen : Z; rp_bytes_moved : Z }.
#[export] Instance ReconcileProgress_eq : EqDecision ReconcileProgress. Proof. solve_decision. Defined.

Inductive ReconcileProgressSample : Type := Available (p : option ReconcileProgress) | Unavailable.
#[export] Instance ReconcileProgressSample_eq : EqDecision ReconcileProgressSample. Proof. solve_decision. Defined.

Record ReconcileSample : Type := mkSample { rs_pending : option string; rs_active : bool }.

Record ReconcileTrackerEntry : Type := mkEntry { te_pending : string; te_progress : ReconcileProgressSample; te_unchanged_since : Z }.

Record MoveCtx : Type := mkMoveCtx { mc_kind : string; mc_keys_moved : Z; mc_bytes_seen : Z; mc_bytes_moved : Z }.

Definition u64_saturating_add (x y : Z) : Z := Z.min (x + y) (u64_modulus - 1).

Definition add_context (p : option ReconcileProgress) (c : MoveCtx) : option ReconcileProgress :=
  let a := default (mkProgress 0 0 0) p in
  Some (mkProgress (u64_saturating_add (rp_keys_moved a) (mc_keys_moved c)) (u64_saturating_add (rp_bytes_seen a) (mc_bytes_seen c))
          (u64_saturating_add (rp_bytes_moved a) (mc_bytes_moved c))).

Definition reconcile_progress (contexts : list MoveCtx) : option ReconcileProgress :=
  fold_left add_context (List.filter (fun c => String.eqb (mc_kind c) "reconcile") contexts) None.

Definition Tracker : Type := gmap string ReconcileTrackerEntry.

(** [RECONCILE_STALL_WINDOW]: half an hour. *)
Definition RECONCILE_STALL_WINDOW : Z := 30 * 60 * 1000000000.

Definition saturating_duration_since (now earlier : Z) : Z := Z.max 0 (now - earlier).

Definition reconcile_stall_check_at (fs_name : string) (sample : ReconcileSample) (progress : ReconcileProgressSample) (now window : Z)
    (tracker : Tracker) : bool * Tracker :=
  match (if rs_active sample then None else rs_pending sample) with
  | None => (false, delete fs_name tracker)
  | Some fingerprint =>
      match tracker !! fs_name with
      | Some previous =>
          if negb (String.eqb (te_pending previous) fingerprint)
          then (false, <[fs_name := mkEntry fingerprint progress now]> tracker)
          else match progress with
               | Unavailable => (false, tracker)
               | Available _ =>
                   if bool_decide (te_progress previous = progress)
                   then (window <=? saturating_duration_since now (te_unchanged_since previous), tracker)
                   else (false, <[fs_name := mkEntry (te_pending previous) progress now]> tracker)
               end
      | None => (false, <[fs_name := mkEntry fingerprint progress now]> tracker)
      end
  end.

Definition reconcile_stall_check (fs_name : string) (sample : ReconcileSample) (progress : ReconcileProgressSample) (now : Z) (tracker : Tracker)
    : bool * Tracker :=
  reconcile_stall_check_at fs_name sample progress now RECONCILE_STALL_WINDOW tracker.

Definition clear_reconcile_tracker (fs_name : string) (tracker : Tracker) : Tracker := delete fs_name tracker.

(** ** Histories *)

(** What happens to one filesystem's entry. *)
Inductive Observation : Type :=
| Sampled (at_ : Z) (sample : ReconcileSample) (progress : ReconcileProgressSample)
| Cleared.

Definition observe (window : Z) (e : string * Observation) (tracker : Tracker) : Tracker :=
  match e.2 with
  | Sampled at_ sample progress => snd (reconcile_stall_check_at e.1 sample progress at_ window tracker)
  | Cleared => clear_reconcile_tracker e.1 tracker
  end.

(** The tracker after events of any filesystems, the latest first. *)
Definition track (window : Z) (events : list (string * Observation)) : Tracker := foldr (observe window) ∅ events.

Definition of_fs (fs : string) (events : list (string * Observation)) : list Observation :=
  omap (fun e => if String.eqb e.1 fs then Some e.2 else None) events.

(** The samples of a history are in order of time, the latest first, none after [now]. *)
Fixpoint ordered (now : Z) (h : list Observation) : Prop :=
  match h with
  | [] => True
  | Sampled at_ _ _ :: rest => at_ <= now /\ ordered at_ rest
  | Cleared :: rest => ordered now rest
  end.

Definition stuck_on (fp : string) (o : Observation) : Prop :=
  match o with Sampled _ sample _ => rs_pending sample = Some fp /\ rs_active sample = false | Cleared => False end.

(** The history, latest first, ends in an unbroken stretch that starts at [t]
    with the counters [p] and has the same pending work throughout, with the
    counters either the same or not readable. *)
Inductive steady (fp : string) (p : option ReconcileProgress) (t : Z) : list Observation -> Prop :=
| steady_start sample h :
    stuck_on fp (Sampled t sample (Available p)) -> steady fp p t (Sampled t sample (Available p) :: h)
| steady_keep at_ sample progress h :
    stuck_on fp (Sampled at_ sample progress) -> progress = Available p \/ progress = Unavailable ->
    steady fp p t h -> steady fp p t (Sampled at_ sample progress :: h).

(** What the entry says about the history. *)
Definition entry_right (h : list Observation) (e : option ReconcileTrackerEntry) : Prop :=
  match e with
  | None => forall fp p t, ~ steady fp p t h
  | Some e =>
      (forall fp p t, steady fp p t h -> fp = te_pending e /\ te_progress e = Available p /\ te_unchanged_since e <= t) /\
      (forall p, te_progress e = Available p -> steady (te_pending e) p (te_unchanged_since e) h)
  end.

Definition entry_before (now : Z) (e : option ReconcileTrackerEntry) : Prop :=
  match e with Some e => te_unchanged_since e <= now | None => True end.

(** ** The entry of one filesystem *)

(** What a sample does to the entry of its filesystem. *)
Definition sampled_entry (at_ : Z) (sample : ReconcileSample) (progress : ReconcileProgressSample) (e : option ReconcileTrackerEntry)
    : option ReconcileTrackerEntry :=
  match (if rs_active sample then None else rs_pending sample) with
  | None => None
  | Some fp =>
      match e with
      | Some e =>
          if negb (String.eqb (te_pending e) fp) then Some (mkEntry fp progress at_)
          else if bool_decide (progress = Unavailable \/ te_progress e = progress) then Some e
          else Some (mkEntry (te_pending e) progress at_)
      | None => Some (mkEntry fp progress at_)
      end
  end.

Lemma check_entry fs sample progress now window (T : Tracker) :
  snd (reconcile_stall_check_at fs sample progress now window T) !! fs = sampled_entry now sample progress (T !! fs).
Proof.
  unfold reconcile_stall_check_at, sampled_entry. destruct (if rs_active sample then _ else _); cbn; [|apply lookup_delete_eq].
  destruct (T !! fs) as [e|] eqn:E; cbn; [|apply lookup_insert_eq].
  destruct (negb _); cbn; [apply lookup_insert_eq|].
  destruct progress as [p|]; cbn; [|by rewrite bool_decide_true by auto].
  repeat case_bool_decide; cbn; try done; [|naive_solver|apply lookup_insert_eq]. naive_solver.
Qed.

Lemma check_other_fs fs fs' sample progress now window (T : Tracker) :
  fs <> fs' -> snd (reconcile_stall_check_at fs sample progress now window T) !! fs' = T !! fs'.
Proof.
  intros Hne. unfold reconcile_stall_check_at. destruct (if rs_active sample then _ else _); cbn; [|by apply lookup_delete_ne].
  destruct (T !! fs); cbn; [|by apply lookup_insert_ne]. destruct (negb _); cbn; [by apply lookup_insert_ne|].
  destruct progress; cbn; [|done]. case_bool_decide; cbn; [done|by apply lookup_insert_ne].
Qed.

Lemma stuck_spec (sample : ReconcileSample) fp : 
  (if rs_active sample then None else rs_pending sample) = Some fp <-> rs_pending sample = Some fp /\ rs_active sample = false.
Proof. destruct (rs_active sample); naive_solver. Qed.

Lemma steady_sampled fp p t at_ sample progress h :
  steady fp p t (Sampled at_ sample progress :: h) ->
  rs_pending sample = Some fp /\ rs_active sample = false /\ (progress = Available p \/ progress = Unavailable) /\
  (t = at_ /\ progress = Available p \/ steady fp p t h).
Proof. inversion 1; subst; cbn in *; naive_solver. Qed.

Lemma sampled_entry_right at_ sample progress h e :
  entry_right h e -> entry_before at_ e ->
  entry_right (Sampled at_ sample progress :: h) (sampled_entry at_ sample progress e) /\
  entry_before at_ (sampled_entry at_ sample progress e).
Proof.
  intros He Hb. unfold sampled_entry. destruct (if rs_active sample then _ else _) as [fp|] eqn:Hs.
  2: { split; [|done]. intros fp p t (H1 & H2 & _)%steady_sampled. rewrite H1, H2 in Hs. done. }
  apply stuck_spec in Hs as [Hp Ha].
  (* a new entry: the stretch can only start now *)
  assert (Hnew : (forall fp' p t, steady fp' p t h -> fp' = fp -> progress = Available p \/ progress = Unavailable -> False) ->
            entry_right (Sampled at_ sample progress :: h) (Some (mkEntry fp progress at_))).
  { intros Hno. split; cbn.
    - intros fp' p t (H1 & _ & H3 & [[-> ->]|Hst])%steady_sampled; [split_and!; [congruence|done|lia]|].
      exfalso. by eapply Hno; [exact Hst|congruence|].
    - intros p ->. by constructor. }
  destruct e as [e|]; [|by split; [apply Hnew; intros fp' p t Hst; by destruct (He fp' p t)|cbn; lia]].
  destruct He as [He1 He2]. destruct (String.eqb_spec (te_pending e) fp) as [Hfp|Hfp]; cbn.
  2: { split; [|cbn; lia]. apply Hnew. intros fp' p t (H & _)%He1 ->. congruence. }
  case_bool_decide as Hpr.
  - split; [|done]. split.
    + intros fp' p t (H1 & _ & H3 & [[-> ->]|Hst])%steady_sampled; [|by apply He1].
      destruct Hpr as [Hpr|Hpr]; [done|]. split_and!; [congruence|done|done].
    + intros p Hep. apply steady_keep; [split; congruence| |by apply He2]. destruct Hpr as [->|Hpr]; [by right|left; congruence].
  - subst fp. split; [|cbn; lia]. apply Hnew. intros fp' p t (_ & H & _)%He1 _ [->| ->]; apply Hpr; auto.
Qed.

Lemma ordered_mono now now' h : now <= now' -> ordered now h -> ordered now' h.
Proof. revert now. induction h as [|[] h IH]; intros now Hle; cbn; [done|intuition lia|by apply IH]. Qed.

Lemma entry_before_mono now now' e : now <= now' -> entry_before now e -> entry_before now' e.
Proof. destruct e; cbn; [lia|done]. Qed.

Lemma track_right window fs events now :
  ordered now (of_fs fs events) ->
  entry_right (of_fs fs events) (track window events !! fs) /\ entry_before now (track window events !! fs).
Proof.
  revert now. induction events as [|[fs' o] events IH]; intros now Ho.
  { replace (track window [] !! fs) with (@None ReconcileTrackerEntry) by (symmetry; apply lookup_empty).
    split; [|done]. intros fp p t H. inversion H. }
  cbn [track foldr]. fold (track window events). unfold of_fs in *. cbn [omap list_omap fst snd] in *.
  destruct (String.eqb_spec fs' fs) as [->|Hne].
  - destruct o as [at_ sample progress|]; unfold observe; cbn [fst snd] in *.
    + destruct Ho as [Hle Ho]. destruct (IH _ Ho) as [Hr Hb]. rewrite check_entry.
      destruct (sampled_entry_right at_ sample progress _ _ Hr Hb) as [Hr' Hb']. split; [done|by eapply entry_before_mono].
    + replace (clear_reconcile_tracker fs (track window events) !! fs) with (@None ReconcileTrackerEntry)
        by (symmetry; apply lookup_delete_eq).
      split; [|done]. intros fp p t H. inversion H.
  - replace (observe window (fs', o) (track window events) !! fs) with (track window events !! fs); [by apply IH|].
    unfold observe. destruct o; cbn; [by rewrite check_other_fs|]. symmetry. by apply lookup_delete_ne.
Qed.

(** C17. The detector is exact.  After any history of samples and resets of any
    filesystems, with each one's samples in order of time, a sample of [fs] at
    [now] is reported as a stall if and only if it has pending work, its thread is
    not active, its counters could be read, and it continues an unbroken stretch
    of the samples of [fs] that began a whole window ago or earlier with the very
    same pending work and counters, in which the work never changed and the
    counters were the same whenever they could be read. *)
Theorem stall_detector_exact window events fs sample progress now :
  0 < window -> ordered now (of_fs fs events) ->
  fst (reconcile_stall_check_at fs sample progress now window (track window events)) = true <->
  exists fp p t, rs_pending sample = Some fp /\ rs_active sample = false /\ progress = Available p /\
    steady fp p t (of_fs fs events) /\ window <= now - t.
Proof.
  intros Hw Ho. destruct (track_right window fs events now Ho) as [Hr Hb]. unfold reconcile_stall_check_at.
  destruct (if rs_active sample then _ else _) as [fp|] eqn:Hs.
  2: { split; [done|]. intros (fp & p & t & H1 & H2 & _). rewrite H1, H2 in Hs. done. }
  apply stuck_spec in Hs as [Hp Ha]. destruct (track window events !! fs) as [e|]; cbn [fst snd].
  2: { split; [done|]. intros (fp' & p & t & _ & _ & _ & Hst & _). by destruct (Hr fp' p t). }
  destruct Hr as [Hr1 Hr2]. destruct (String.eqb_spec (te_pending e) fp) as [Hfp|Hfp]; cbn [negb fst].
  2: { split; [done|]. intros (fp' & p & t & ? & _ & _ & (? & _)%Hr1 & _). congruence. }
  destruct progress as [p|]; cbn [fst]; [|split; [done|intros (? & ? & ? & _ & _ & ? & _); done]].
  case_bool_decide as Hpr; cbn [fst].
  - unfold saturating_duration_since. rewrite Z.leb_le. split.
    + intros Hle. exists fp, p, (te_unchanged_since e). split_and!; [done|done|done|subst fp; by apply Hr2|lia].
    + intros (fp' & p' & t & _ & _ & _ & (_ & _ & Ht)%Hr1 & Hle). lia.
  - split; [done|]. intros (fp' & p' & t & _ & _ & ? & (_ & Ht & _)%Hr1 & _). congruence.
Qed.

Definition demo_sample : ReconcileSample := mkSample (Some "target: 204k 15.3M") false.
Definition demo_counters : ReconcileProgressSample := Available (Some (mkProgress 7 4096 4096)).

(** The newest first: an unreadable sample in the middle, another filesystem in between. *)
Definition demo_events : list (string * Observation) :=
  [("tank", Sampled 900 demo_sample Unavailable); ("pool", Cleared); ("tank", Sampled 100 demo_sample demo_counters);
   ("tank", Sampled 50 (mkSample None false) Unavailable)].

Lemma stall_detector_exact_witness :
  fst (reconcile_stall_check_at "tank" demo_sample demo_counters 1800 1700 (track 1700 demo_events)) = true /\
  fst (reconcile_stall_check_at "tank" demo_sample demo_counters 1799 1700 (track 1700 demo_events)) = false.
Proof.
  split; [|vm_compute; reflexivity].
  apply (stall_detector_exact 1700 demo_events "tank" demo_sample demo_counters 1800); [lia|cbn; lia|].
  exists "target: 204k 15.3M", (Some (mkProgress 7 4096 4096)), 100. split_and!; try done.
  apply steady_keep; [done|by right|]. by apply steady_start.
Defined.
