(* ===== verification/AlertEval.v ===== *)
(** * Evaluating the alerts (nasty-engine/src/router/mod.rs)

    One evaluation reads the metrics service, the filesystems, their health and
    the certificates, each of which may fail, raises the alerts of the enabled
    rules, and reconciles them with the active instances.  [AlertCoverage] records
    what could not be read, so that an alert whose signal was not read is kept.
    [Readings] are the answers of one evaluation: [rd_probe] is what the health
    task of a filesystem read, if it did not panic, and [rd_join] the order in
    which the tasks complete. *)

From Stdlib Require Import ZArith Lia Ascii String List.
From stdpp Require Import base list gmap strings.
From S2P Require Import Prelude.
From S2P Require Import RustStr.
From S2P Require Import Net.
From S2P Require Import Float64.
From S2P Require Import Alerts.
From S2P Require Import Stall.

(** [rsplit_once(c)]: at the last occurrence. *)
Definition rsplit_once (c : ascii) (s : string) : option (string * string) :=
  match split_once_bytes c (rev (to_bytes s)) with
  | Some (a, b) => Some (of_bytes (rev b), of_bytes (rev a))
  | None => None
  end.

(** ** Coverage *)

Record AlertCoverage : Type := mkCoverage {
  cv_unavailable_metrics : list AlertMetric;
  cv_unavailable_sources : list (AlertMetric * string);
  cv_observed_smart_attributes : gmap string (list Z);
}.

Definition no_coverage : AlertCoverage := mkCoverage [] [] ∅.

Definition mark_metric (c : AlertCoverage) (m : AlertMetric) : AlertCoverage :=
  mkCoverage (m :: cv_unavailable_metrics c) (cv_unavailable_sources c) (cv_observed_smart_attributes c).

Definition mark_source (c : AlertCoverage) (m : AlertMetric) (source : string) : AlertCoverage :=
  mkCoverage (cv_unavailable_metrics c) ((m, source) :: cv_unavailable_sources c) (cv_observed_smart_attributes c).

Definition observe_smart_attributes (c : AlertCoverage) (source : string) (ids : list Z) : AlertCoverage :=
  mkCoverage (cv_unavailable_metrics c) (cv_unavailable_sources c) (<[source := ids]> (cv_observed_smart_attributes c)).

Definition mark_metrics (c : AlertCoverage) (ms : list AlertMetric) : AlertCoverage := fold_left mark_metric ms c.

(** The resource an alert is about: an attribute's disk. *)
Definition resource (alert : ActiveAlert) : string :=
  if bool_decide (aa_metric alert = MetricSmartAttribute)
  then match rsplit_once "#" (aa_source alert) with Some (device, _) => device | None => aa_source alert end
  else aa_source alert.

(** The attribute an alert is about. *)
Definition attribute_id (alert : ActiveAlert) : option Z :=
  match rsplit_once "#" (aa_source alert) with Some (_, id) => parse_uint (2 ^ 32 - 1) id | None => None end.

Definition is_observed (c : AlertCoverage) (alert : ActiveAlert) : bool :=
  if bool_decide (aa_metric alert ∈ cv_unavailable_metrics c) then false
  else if bool_decide ((aa_metric alert, resource alert) ∈ cv_unavailable_sources c) then false
  else if bool_decide (aa_metric alert = MetricSmartAttribute)
       then match cv_observed_smart_attributes c !! resource alert with
            | Some observed => match attribute_id alert with Some id => bool_decide (id ∈ observed) | None => false end
            | None => true
            end
       else true.

(** ** Readings *)

Record BackupRunResult : Type := mkRunResult { br_timestamp : string; br_success : bool; br_message : string }.
Record ProfileRun : Type := mkProfileRun { pr_id : string; pr_name : string; pr_last_run : option BackupRunResult }.

Record DiskHealth : Type := mkDiskHealth {
  dk_device : string;
  dk_transport : option string;
  dk_temperature_c : option Z;
  dk_health_passed : bool;
  dk_smart_status : string;
  dk_rotational : option bool;
  dk_attributes : list SmartAttribute;
}.

Record FsDevice : Type := mkFsDevice { fd_path : string; fd_state : option string; fd_has_data : option string }.

Record AlertFs : Type := mkAlertFs {
  xf_name : string;
  xf_devices : list FsDevice;
  xf_mounted : bool;
  xf_total_bytes : Z;
  xf_used_bytes : Z;
  xf_degraded : option bool;
  xf_encrypted : option bool;
}.

Inductive ScrubOutcome : Type := ScrubOk | ScrubErrors | ScrubFailed | ScrubCancelled.

Inductive ScrubErrorKind : Type := Corrected | Uncorrected.

Record ScrubReading : Type := mkScrubReading { sr_last_error_kind : option ScrubErrorKind; sr_last_outcome : option ScrubOutcome }.

Record ReconcileReading : Type := mkReconcileReading { rr_enabled : bool; rr_sample : ReconcileSample }.

(** What a health task reads: the three counter files, the scrub and reconcile
    status, the movement counters and the clock. *)
Record FsProbe : Type := mkFsProbe {
  pb_counters : list (option string);
  pb_scrub : option ScrubReading;
  pb_reconcile : option ReconcileReading;
  pb_progress : ReconcileProgressSample;
  pb_now : Z;
}.

Record HostTlsStatus : Type := mkHostTls {
  ht_host : string;
  ht_expires_in_days : option Z;
  ht_renewal_error : option string;
  ht_renewal_observed : bool;
}.

Record Readings : Type := mkReadings {
  rd_profiles : list ProfileRun;
  rd_stats : option SystemStats;
  rd_filesystems : option (list AlertFs);
  rd_smart_enabled : bool;
  rd_disks : option (list DiskHealth);
  rd_probe : AlertFs -> option FsProbe;
  rd_join : list AlertFs -> list AlertFs;
  rd_kernel : option KernelErrorAlert;
  rd_tls : list HostTlsStatus;
  rd_tls_complete : bool;
  rd_free : DiskFreeSpace;
  rd_mount_failures : list string;
  rd_filesystems_later : option (list AlertFs);
}.

(** ** Health of a filesystem *)

Definition add_counter (acc : Z * bool) (file : option string) : Z * bool :=
  match file with
  | Some value => match parse_uint (u64_modulus - 1) (trim value) with Some v => (u64_add acc.1 v, acc.2) | None => (acc.1, false) end
  | None => (acc.1, false)
  end.

Definition read_bcachefs_error_count (files : list (option string)) : Z * bool := fold_left add_counter files (0, true).

Definition device_health (d : FsDevice) : BcachefsDeviceHealth :=
  mkDeviceHealth (fd_path d) (default "rw" (fd_state d)) (match fd_has_data d with Some s => str_contains "error" s | None => false end).

Definition scrub_found_errors (s : option ScrubReading) : bool :=
  match s with
  | Some s => is_some (sr_last_error_kind s) || match sr_last_outcome s with Some ScrubErrors => true | _ => false end
  | None => false
  end.

(** The movement counters are read only when there is something to stall on. *)
Definition may_stall (sample : ReconcileSample) : bool := is_some (rs_pending sample) && negb (rs_active sample).

Definition reconcile_health (fs_name : string) (p : FsProbe) (tracker : Tracker) : bool * list AlertMetric * Tracker :=
  match pb_reconcile p with
  | Some s =>
      if rr_enabled s then
        let sample := rr_sample s in
        let progress := if may_stall sample then pb_progress p else Unavailable in
        let unavailable := if may_stall sample && bool_decide (progress = Unavailable) then [BcachefsReconcileStalled] else [] in
        let '(stalled, tracker') := reconcile_stall_check fs_name sample progress (pb_now p) tracker in
        (stalled, unavailable, tracker')
      else (false, [], clear_reconcile_tracker fs_name tracker)
  | None => (false, [BcachefsReconcileStalled], clear_reconcile_tracker fs_name tracker)
  end.

Definition fs_health (fs : AlertFs) (p : FsProbe) (tracker : Tracker) : BcachefsHealth * list AlertMetric * Tracker :=
  let '(count, complete) := read_bcachefs_error_count (pb_counters p) in
  let '(stalled, unavailable, tracker') := reconcile_health (xf_name fs) p tracker in
  (mkBcachefsHealth (xf_name fs) (default false (xf_degraded fs)) (device_health <$> xf_devices fs) count (scrub_found_errors (pb_scrub p)) stalled,
   (if complete then [] else [BcachefsIOErrors]) ++ (if is_some (pb_scrub p) then [] else [BcachefsScrubErrors]) ++ unavailable, tracker').

(** ** One evaluation *)

Definition backup_failures (profiles : list ProfileRun) : list BackupFailure :=
  omap (fun p => match pr_last_run p with
                 | Some run => if br_success run then None else Some (mkBackupFailure (pr_id p) (pr_name p) (br_timestamp run) (br_message run))
                 | None => None
                 end) profiles.

Definition FS_METRICS : list AlertMetric :=
  [FsUsagePercent; BcachefsDegraded; BcachefsDeviceError; BcachefsDeviceState; BcachefsIOErrors; BcachefsScrubErrors; BcachefsReconcileStalled].
Definition SMART_METRICS : list AlertMetric := [DiskTemperature; SmartHealth; MetricSmartAttribute].
Definition HEALTH_METRICS : list AlertMetric :=
  [BcachefsDegraded; BcachefsDeviceError; BcachefsDeviceState; BcachefsIOErrors; BcachefsScrubErrors; BcachefsReconcileStalled].

(** The disks read, and whether reading them failed. *)
Definition disk_health (r : Readings) : list DiskHealth * bool :=
  if rd_smart_enabled r then match rd_disks r with Some disks => (disks, false) | None => ([], true) end else ([], false).

Definition dk_label (d : DiskHealth) : string := disk_label (dk_device d) (dk_transport d).

Definition cover_disk (c : AlertCoverage) (d : DiskHealth) : AlertCoverage :=
  let label := dk_label d in
  let c := match dk_temperature_c d with None => mark_source c DiskTemperature label | Some _ => c end in
  if String.eqb (dk_smart_status d) "UNAVAILABLE" then mark_source (mark_source c SmartHealth label) MetricSmartAttribute label
  else match dk_rotational d, dk_attributes d with
       | None, _ | Some true, [] => mark_source c MetricSmartAttribute label
       | Some true, attributes => observe_smart_attributes c label (sma_id <$> attributes)
       | Some false, _ => c
       end.

Definition disk_summary (d : DiskHealth) : DiskHealthSummary :=
  mkDiskHealthSummary (dk_device d) (dk_transport d) (dk_temperature_c d) (dk_health_passed d) (dk_smart_status d)
    (collect_critical_ata_attrs (dk_smart_status d) (dk_rotational d) (dk_attributes d)).

(** A task is spawned for every mounted filesystem. *)
Definition mounted_filesystems (r : Readings) : list AlertFs := List.filter xf_mounted (default [] (rd_filesystems r)).

Definition tasks (r : Readings) : list (AlertFs * option FsProbe) := (fun fs => (fs, rd_probe r fs)) <$> rd_join r (mounted_filesystems r).

(** The health tasks as they complete; a task that panicked has no reading. *)
Fixpoint join_tasks (ts : list (AlertFs * option FsProbe)) (c : AlertCoverage) (health : list BcachefsHealth) (tracker : Tracker)
    : AlertCoverage * list BcachefsHealth * Tracker :=
  match ts with
  | [] => (c, health, tracker)
  | (fs, Some p) :: rest =>
      let '(h, unavailable, tracker') := fs_health fs p tracker in
      join_tasks rest (fold_left (fun c m => mark_source c m (bh_fs_name h)) unavailable c) (health ++ [h]) tracker'
  | (_, None) :: rest => join_tasks rest (mark_metrics c HEALTH_METRICS) health tracker
  end.

(** Certificates of addresses are Caddy's own and do not count. *)
Definition is_address (host : string) : bool := is_some (parse_ip_addr host).

Definition cover_tls (c : AlertCoverage) (s : HostTlsStatus) : AlertCoverage :=
  let c := match ht_expires_in_days s with None => mark_source c CertificateExpiryDays (ht_host s) | Some _ => c end in
  if ht_renewal_observed s then c else mark_source c CertificateRenewalFailure (ht_host s).

Definition public_tls (r : Readings) : list HostTlsStatus := List.filter (fun s => negb (is_address (ht_host s))) (rd_tls r).

Definition certificate (s : HostTlsStatus) : CertificateHealth := mkCertificateHealth (ht_host s) (ht_expires_in_days s) (ht_renewal_error s).

Definition cover_free (c : AlertCoverage) (free : DiskFreeSpace) : AlertCoverage :=
  let c := match df_root_free_gb free with None => mark_metric c RootDiskFreeGb | Some _ => c end in
  match df_boot_free_mb free with None => mark_metric c BootDiskFreeMb | Some _ => c end.

(** The alert of a filesystem that failed to mount at boot, unless it has been
    mounted since. *)
Definition mount_alert (current : list AlertFs) (name : string) : list ActiveAlert :=
  let fs := find_first (fun f => String.eqb (xf_name f) name) current in
  if match fs with Some f => xf_mounted f | None => false end then []
  else
    let '(rule_name, severity, message) :=
      match fs with
      | Some f => if bool_decide (xf_encrypted f = Some true)
                  then ("Encrypted filesystem locked", SevWarning,
                        "Filesystem " +:+ in_quotes name +:+ " is encrypted and locked — unlock it to mount.")
                  else ("Filesystem failed to mount", SevCritical,
                        "Filesystem " +:+ in_quotes name +:+ " failed to mount after boot. Check disk connectivity and logs.")
      | None => ("Filesystem failed to mount", SevCritical,
                 "Filesystem " +:+ in_quotes name +:+ " failed to mount after boot. Check disk connectivity and logs.")
      end in
    [mkActiveAlert "mount-failure" rule_name severity BcachefsDegraded message f64_one f64_zero name].

(** The coverage and the alerts of the mount failures; the filesystems are
    listed again only if there are some. *)
Definition cover_mounts (c : AlertCoverage) (r : Readings) : AlertCoverage :=
  match rd_filesystems_later r with
  | Some _ => c
  | None => fold_left (fun c name => mark_source c BcachefsDegraded name) (rd_mount_failures r) c
  end.

Definition mount_alerts (r : Readings) : list ActiveAlert := flat_map (mount_alert (default [] (rd_filesystems_later r))) (rd_mount_failures r).

(** The coverage up to the health tasks. *)
Definition coverage_before_tasks (r : Readings) : AlertCoverage :=
  let c := match rd_filesystems r with None => mark_metrics no_coverage FS_METRICS | Some _ => no_coverage end in
  let c := if snd (disk_health r) then mark_metrics c SMART_METRICS else c in
  fold_left cover_disk (fst (disk_health r)) c.

(** And from there on. *)
Definition coverage_after_tasks (r : Readings) (c : AlertCoverage) : AlertCoverage :=
  let c := match rd_kernel r with None => mark_metric c KernelErrors | Some _ => c end in
  let c := if rd_tls_complete r then c else mark_metric (mark_metric c CertificateExpiryDays) CertificateRenewalFailure in
  let c := fold_left cover_tls (public_tls r) c in
  cover_mounts (cover_free c (rd_free r)) r.

Definition fs_usage (f : AlertFs) : FsUsage := mkFsUsage (xf_name f) (xf_used_bytes f) (xf_total_bytes f).

Definition coverage (r : Readings) (tracker : Tracker) : AlertCoverage :=
  coverage_after_tasks r (fst (fst (join_tasks (tasks r) (coverage_before_tasks r) [] tracker))).

Definition raised (rules : list AlertRule) (r : Readings) (stats : SystemStats) (tracker : Tracker) : list ActiveAlert :=
  let health := snd (fst (join_tasks (tasks r) (coverage_before_tasks r) [] tracker)) in
  let kernel := default (mkKernelErrorAlert 0 []) (rd_kernel r) in
  evaluate_rules rules stats (fs_usage <$> default [] (rd_filesystems r)) (disk_summary <$> fst (disk_health r)) health kernel (rd_free r) ++
  evaluate_certificate_rules rules (certificate <$> public_tls r) ++
  evaluate_backup_rules rules (backup_failures (rd_profiles r)) ++ mount_alerts r.

Section evaluation.
Context (uuid_v4 : nat -> string).

Definition evaluate_active_alerts_inner (io : option string) (r : Readings) (tracker : Tracker) (w : AlertService)
    : AlertService * Tracker * list AlertOccurrence :=
  let rules := als_rules (sv_state w) in
  match rd_stats r with
  | None =>
      let '(w', occurrences) := reconcile_active uuid_v4 io (evaluate_backup_rules rules (backup_failures (rd_profiles r)))
                                  (fun a => bool_decide (aa_metric a = MetricBackupFailure)) w in
      (w', tracker, occurrences)
  | Some stats =>
      let tracker' := snd (join_tasks (tasks r) (coverage_before_tasks r) [] tracker) in
      let '(w', occurrences) := reconcile_active uuid_v4 io (raised rules r stats tracker) (is_observed (coverage r tracker)) w in
      (w', tracker', occurrences)
  end.

Definition acknowledge_active_alert (io io' : option string) (r : Readings) (now instance_id username : string) (tracker : Tracker) (w : AlertService)
    : AlertService * Tracker * result AlertAcknowledgement string :=
  let '(w', tracker', active) := evaluate_active_alerts_inner io r tracker w in
  if existsb (fun o => String.eqb (ao_instance_id o) instance_id) active
  then let '(w'', res) := acknowledge io' instance_id username now w' in (w'', tracker', res)
  else (w', tracker', Err "alert is no longer active").
End evaluation.
