(* ===== verification/AlertEvalProps.v ===== *)
(** * What an evaluation may conclude

    [lost] says, from the readings alone, that the signal of an alert was not
    read, and the coverage kept by the code is exactly that; [settled] says that
    it was read, or that what it is about is gone.  An alert ends only when it is
    settled. *)

From Stdlib Require Import ZArith Lia Ascii String List.
From stdpp Require Import base list gmap strings.
From S2P Require Import Prelude.
From S2P Require Import RustStr.
From S2P Require Import Net.
From S2P Require Import Float64.
From S2P Require Import Alerts.
From S2P Require Import AlertProps.
From S2P Require Import Stall.
From S2P Require Import AlertEval.

(** ** Signals that were not read *)

(** The whole metric was not read. *)
Definition unread_metric (r : Readings) (m : AlertMetric) : Prop :=
  (rd_filesystems r = None /\ m ∈ FS_METRICS) \/
  (snd (disk_health r) = true /\ m ∈ SMART_METRICS) \/
  (exists fs, fs ∈ mounted_filesystems r /\ rd_probe r fs = None /\ m ∈ HEALTH_METRICS) \/
  (rd_kernel r = None /\ m = KernelErrors) \/
  (rd_tls_complete r = false /\ m ∈ [CertificateExpiryDays; CertificateRenewalFailure]) \/
  (df_root_free_gb (rd_free r) = None /\ m = RootDiskFreeGb) \/
  (df_boot_free_mb (rd_free r) = None /\ m = BootDiskFreeMb).

Definition unread_of_disk (d : DiskHealth) (m : AlertMetric) : Prop :=
  (m = DiskTemperature /\ dk_temperature_c d = None) \/
  (m = SmartHealth /\ dk_smart_status d = "UNAVAILABLE") \/
  (m = MetricSmartAttribute /\
   (dk_smart_status d = "UNAVAILABLE" \/ dk_rotational d = None \/ (dk_rotational d = Some true /\ dk_attributes d = []))).

Definition unread_of_probe (p : FsProbe) (m : AlertMetric) : Prop :=
  (m = BcachefsIOErrors /\ snd (read_bcachefs_error_count (pb_counters p)) = false) \/
  (m = BcachefsScrubErrors /\ pb_scrub p = None) \/
  (m = BcachefsReconcileStalled /\
   match pb_reconcile p with
   | None => True
   | Some s => rr_enabled s = true /\ may_stall (rr_sample s) = true /\ pb_progress p = Unavailable
   end).

Definition unread_of_tls (s : HostTlsStatus) (m : AlertMetric) : Prop :=
  (m = CertificateExpiryDays /\ ht_expires_in_days s = None) \/ (m = CertificateRenewalFailure /\ ht_renewal_observed s = false).

(** The metric was not read for one resource. *)
Definition unread_source (r : Readings) (m : AlertMetric) (source : string) : Prop :=
  (exists d, d ∈ fst (disk_health r) /\ dk_label d = source /\ unread_of_disk d m) \/
  (exists fs p, fs ∈ mounted_filesystems r /\ rd_probe r fs = Some p /\ xf_name fs = source /\ unread_of_probe p m) \/
  (exists s, s ∈ public_tls r /\ ht_host s = source /\ unread_of_tls s m) \/
  (rd_filesystems_later r = None /\ m = BcachefsDegraded /\ source ∈ rd_mount_failures r).

(** A spinning disk answered with a table of attributes. *)
Definition reports (d : DiskHealth) (source : string) (ids : list Z) : Prop :=
  dk_label d = source /\ dk_smart_status d <> "UNAVAILABLE" /\ dk_rotational d = Some true /\ dk_attributes d <> [] /\
  ids = sma_id <$> dk_attributes d.

(** The table lacks the attribute the alert is about. *)
Definition unread_attribute (r : Readings) (a : ActiveAlert) : Prop :=
  aa_metric a = MetricSmartAttribute /\
  exists d ids, d ∈ fst (disk_health r) /\ reports d (resource a) ids /\ (forall id, attribute_id a = Some id -> id ∉ ids).

Definition lost (r : Readings) (a : ActiveAlert) : Prop :=
  match rd_stats r with
  | None => aa_metric a <> MetricBackupFailure
  | Some _ => unread_metric r (aa_metric a) \/ unread_source r (aa_metric a) (resource a) \/ unread_attribute r a
  end.

(** ** Signals that were read

    Independently of what the code marks: the reading an alert depends on is
    there, for its own resource if that resource is among those read.  A resource
    that is not (an unmounted filesystem, a disk that is gone, a host without
    certificate) or whose checks are switched off (SMART) settles its alerts. *)

Definition disk_answers (d : DiskHealth) (a : ActiveAlert) : Prop :=
  match aa_metric a with
  | DiskTemperature => is_Some (dk_temperature_c d)
  | SmartHealth => dk_smart_status d <> "UNAVAILABLE"
  | _ => dk_smart_status d <> "UNAVAILABLE" /\
         (dk_rotational d = Some false \/
          dk_rotational d = Some true /\ exists id, attribute_id a = Some id /\ id ∈ sma_id <$> dk_attributes d)
  end.

Definition disks_settle (r : Readings) (a : ActiveAlert) : Prop :=
  rd_smart_enabled r = false \/
  exists disks, rd_disks r = Some disks /\ forall d, d ∈ disks -> dk_label d = resource a -> disk_answers d a.

(** The filesystems are listed, every mounted one was probed, and the one the
    alert is about gave the signal. *)
Definition probes_settle (r : Readings) (a : ActiveAlert) (signal : FsProbe -> Prop) : Prop :=
  is_Some (rd_filesystems r) /\
  forall fs, fs ∈ mounted_filesystems r -> exists p, rd_probe r fs = Some p /\ (xf_name fs = resource a -> signal p).

Definition hosts_settle (r : Readings) (a : ActiveAlert) (signal : HostTlsStatus -> Prop) : Prop :=
  rd_tls_complete r = true /\ forall s, s ∈ public_tls r -> ht_host s = resource a -> signal s.

Definition settled (r : Readings) (a : ActiveAlert) : Prop :=
  match rd_stats r with
  | None => aa_metric a = MetricBackupFailure
  | Some _ =>
      match aa_metric a with
      | CpuLoadPercent | MemoryUsagePercent | SwapUsagePercent | MetricBackupFailure => True
      | KernelErrors => is_Some (rd_kernel r)
      | RootDiskFreeGb => is_Some (df_root_free_gb (rd_free r))
      | BootDiskFreeMb => is_Some (df_boot_free_mb (rd_free r))
      | CertificateExpiryDays => hosts_settle r a (fun s => is_Some (ht_expires_in_days s))
      | CertificateRenewalFailure => hosts_settle r a (fun s => ht_renewal_observed s = true)
      | DiskTemperature | SmartHealth | MetricSmartAttribute => disks_settle r a
      | FsUsagePercent => is_Some (rd_filesystems r)
      | BcachefsDeviceError | BcachefsDeviceState => probes_settle r a (fun _ => True)
      | BcachefsDegraded => probes_settle r a (fun _ => True) /\ (resource a ∈ rd_mount_failures r -> is_Some (rd_filesystems_later r))
      | BcachefsIOErrors => probes_settle r a (fun p => snd (read_bcachefs_error_count (pb_counters p)) = true)
      | BcachefsScrubErrors => probes_settle r a (fun p => is_Some (pb_scrub p))
      | BcachefsReconcileStalled => probes_settle r a (fun p => exists s, pb_reconcile p = Some s /\
          (rr_enabled s = true -> may_stall (rr_sample s) = true -> pb_progress p <> Unavailable))
      end
  end.

Section settling.
Context (r : Readings) (a : ActiveAlert) (Hl : ~ lost r a) (Hs : is_Some (rd_stats r)).

Lemma not_lost : ~ unread_metric r (aa_metric a) /\ ~ unread_source r (aa_metric a) (resource a) /\ ~ unread_attribute r a.
Proof. unfold lost in Hl. destruct Hs as [stats Hst]. rewrite Hst in Hl. tauto. Qed.

Lemma settle_disks : aa_metric a ∈ SMART_METRICS -> disks_settle r a.
Proof.
  intros Hm. destruct not_lost as (H1 & H2 & H3). unfold disks_settle. destruct (rd_smart_enabled r) eqn:Ee; [right|by left].
  destruct (rd_disks r) as [disks|] eqn:Ed.
  2:{ exfalso. apply H1. right; left. unfold disk_health. by rewrite Ee, Ed. }
  assert (fst (disk_health r) = disks) as Ef by (unfold disk_health; by rewrite Ee, Ed). exists disks. split; [done|]. intros d Hd Hlabel.
  assert (~ unread_of_disk d (aa_metric a)) as Hu by (intros H; apply H2; left; exists d; by rewrite Ef).
  unfold unread_of_disk in Hu. unfold disk_answers. destruct (aa_metric a) eqn:Em; try (apply (bool_decide_eq_true_2 _) in Hm; vm_compute in Hm; discriminate Hm).
  - destruct (dk_temperature_c d); [by eexists|exfalso; auto].
  - intros E. apply Hu. auto.
  - assert (dk_smart_status d <> "UNAVAILABLE") as Hst by (intros E; apply Hu; auto 10). split; [done|].
    destruct (dk_rotational d) as [[]|] eqn:Er; [right; split; [done|]|by left|exfalso; apply Hu; auto 10].
    assert (dk_attributes d <> []) as Hne by (intros E; apply Hu; auto 10). destruct (attribute_id a) as [id|] eqn:Ea.
    + exists id. split; [done|]. destruct (decide (id ∈ sma_id <$> dk_attributes d)) as [|Hn]; [done|]. exfalso. apply H3. split; [done|].
      exists d, (sma_id <$> dk_attributes d). rewrite Ef. split_and!; [done|by split|]. intros id'. rewrite Ea. intros [= <-]. done.
    + exfalso. apply H3. split; [done|]. exists d, (sma_id <$> dk_attributes d). rewrite Ef. split_and!; [done|by split|by rewrite Ea].
Qed.

Lemma settle_probes (signal : FsProbe -> Prop) : aa_metric a ∈ HEALTH_METRICS ->
  (forall p, ~ unread_of_probe p (aa_metric a) -> signal p) -> probes_settle r a signal.
Proof.
  intros Hm Hsig. destruct not_lost as (H1 & H2 & _). split.
  - destruct (rd_filesystems r) eqn:E; [by eexists|]. exfalso. apply H1. left. split; [done|]. by right.
  - intros fs Hfs. destruct (rd_probe r fs) as [p|] eqn:Ep; [|exfalso; apply H1; right; right; left; by exists fs].
    exists p. split; [done|]. intros Hn. apply Hsig. intros Hu. apply H2. right. left. by exists fs, p.
Qed.

Lemma settle_hosts (signal : HostTlsStatus -> Prop) : aa_metric a ∈ [CertificateExpiryDays; CertificateRenewalFailure] ->
  (forall s, ~ unread_of_tls s (aa_metric a) -> signal s) -> hosts_settle r a signal.
Proof.
  intros Hm Hsig. destruct not_lost as (H1 & H2 & _). split.
  - destruct (rd_tls_complete r) eqn:E; [done|]. exfalso. apply H1. do 4 right. by left.
  - intros s Hin Hh. apply Hsig. intros Hu. apply H2. right. right. left. by exists s.
Qed.
End settling.

(** What is not lost is settled. *)
Lemma not_lost_settled r a : ~ lost r a -> settled r a.
Proof.
  intros Hl. unfold settled. destruct (rd_stats r) as [stats|] eqn:Es.
  2:{ unfold lost in Hl. rewrite Es in Hl. destruct (decide (aa_metric a = MetricBackupFailure)); tauto. }
  assert (is_Some (rd_stats r)) as Hs by (by eexists). destruct (not_lost r a Hl Hs) as (H1 & H2 & _).
  destruct (aa_metric a) eqn:Em; try exact I.
  - destruct (rd_filesystems r) eqn:E; [by eexists|]. exfalso. apply H1. left. split; [done|left].
  - apply settle_disks; [done..|]. rewrite Em. left.
  - apply settle_disks; [done..|]. rewrite Em. right; left.
  - apply settle_disks; [done..|]. rewrite Em. right; right; left.
  - split; [apply settle_probes; [done..| |done]; rewrite Em; left|]. intros Hf.
    destruct (rd_filesystems_later r) eqn:E; [by eexists|]. exfalso. apply H2. right; right; right. done.
  - apply settle_probes; [done..| |done]. rewrite Em. right; left.
  - apply settle_probes; [done..| |done]. rewrite Em. right; right; left.
  - apply settle_probes; [done..| |]; rewrite Em; [do 3 right; left|]. intros p Hu. destruct (snd _) eqn:E; [done|]. exfalso. apply Hu. by left.
  - apply settle_probes; [done..| |]; rewrite Em; [do 4 right; left|]. intros p Hu. destruct (pb_scrub p) eqn:E; [by eexists|]. exfalso. apply Hu. right; by left.
  - apply settle_probes; [done..| |]; rewrite Em; [do 5 right; left|]. intros p Hu. destruct (pb_reconcile p) as [x|] eqn:E.
    + exists x. split; [done|]. intros H3 H4 H5. apply Hu. right; right. split; [done|]. by rewrite E.
    + exfalso. apply Hu. right; right. split; [done|]. by rewrite E.
  - destruct (df_root_free_gb (rd_free r)) eqn:E; [by eexists|]. exfalso. apply H1. do 5 right. by left.
  - destruct (df_boot_free_mb (rd_free r)) eqn:E; [by eexists|]. exfalso. apply H1. do 6 right. done.
  - apply settle_hosts; [done..| |]; rewrite Em; [left|]. intros s Hu. destruct (ht_expires_in_days s) eqn:E; [by eexists|]. exfalso. apply Hu. by left.
  - apply settle_hosts; [done..| |]; rewrite Em; [right; left|]. intros s Hu. destruct (ht_renewal_observed s) eqn:E; [done|]. exfalso. apply Hu. by right.
  - destruct (rd_kernel r) eqn:E; [by eexists|]. exfalso. apply H1. do 3 right. by left.
Qed.

(** ** The coverage is exact *)

Lemma fold_left_adds {A B C} (f : A -> B -> A) (proj : A -> list C) (add : B -> C -> Prop) (l : list B) (a : A) (x : C) :
  (forall a b, x ∈ proj (f a b) <-> add b x \/ x ∈ proj a) ->
  x ∈ proj (fold_left f l a) <-> (exists b, b ∈ l /\ add b x) \/ x ∈ proj a.
Proof.
  intros Hf. revert a. induction l as [|b l IH]; intros a; cbn [fold_left].
  { split; [by right|]. intros [(b & []%elem_of_nil & _)|H]; done. }
  rewrite IH, Hf. setoid_rewrite elem_of_cons. naive_solver.
Qed.

Lemma fold_left_same {A B C} (f : A -> B -> A) (proj : A -> C) (l : list B) (a : A) :
  (forall a b, proj (f a b) = proj a) -> proj (fold_left f l a) = proj a.
Proof. intros Hf. revert a. induction l as [|b l IH]; intros a; cbn; [done|]. by rewrite IH. Qed.

Lemma mark_metrics_metrics c ms m : m ∈ cv_unavailable_metrics (mark_metrics c ms) <-> m ∈ ms \/ m ∈ cv_unavailable_metrics c.
Proof.
  unfold mark_metrics. rewrite (fold_left_adds mark_metric cv_unavailable_metrics (fun b x => x = b)); [|intros; cbn; by rewrite elem_of_cons].
  naive_solver.
Qed.

Lemma mark_metrics_rest c ms :
  cv_unavailable_sources (mark_metrics c ms) = cv_unavailable_sources c /\
  cv_observed_smart_attributes (mark_metrics c ms) = cv_observed_smart_attributes c.
Proof. split; unfold mark_metrics; [apply (fold_left_same mark_metric cv_unavailable_sources)|apply (fold_left_same mark_metric cv_observed_smart_attributes)]; done. Qed.

Lemma cover_disk_metrics c d : cv_unavailable_metrics (cover_disk c d) = cv_unavailable_metrics c.
Proof.
  unfold cover_disk. destruct (dk_temperature_c d), (String.eqb _ _), (dk_rotational d) as [[]|], (dk_attributes d); done.
Qed.

Lemma cover_disk_sources c d x :
  x ∈ cv_unavailable_sources (cover_disk c d) <-> (x.2 = dk_label d /\ unread_of_disk d x.1) \/ x ∈ cv_unavailable_sources c.
Proof.
  unfold cover_disk, unread_of_disk. destruct x as [m s]. cbn [fst snd].
  destruct (dk_temperature_c d), (String.eqb_spec (dk_smart_status d) "UNAVAILABLE"), (dk_rotational d) as [[]|], (dk_attributes d);
    cbn; rewrite ?elem_of_cons; naive_solver.
Qed.

Lemma cover_tls_metrics c s : cv_unavailable_metrics (cover_tls c s) = cv_unavailable_metrics c.
Proof. unfold cover_tls. destruct (ht_expires_in_days s), (ht_renewal_observed s); done. Qed.

Lemma cover_tls_attrs c s : cv_observed_smart_attributes (cover_tls c s) = cv_observed_smart_attributes c.
Proof. unfold cover_tls. destruct (ht_expires_in_days s), (ht_renewal_observed s); done. Qed.

Lemma cover_tls_sources c s x :
  x ∈ cv_unavailable_sources (cover_tls c s) <-> (x.2 = ht_host s /\ unread_of_tls s x.1) \/ x ∈ cv_unavailable_sources c.
Proof.
  unfold cover_tls, unread_of_tls. destruct x as [m src]. cbn [fst snd].
  destruct (ht_expires_in_days s), (ht_renewal_observed s); cbn; rewrite ?elem_of_cons; naive_solver.
Qed.

(** ** The health tasks *)

Definition probe_unread (p : FsProbe) : list AlertMetric :=
  (if snd (read_bcachefs_error_count (pb_counters p)) then [] else [BcachefsIOErrors]) ++
  (if is_some (pb_scrub p) then [] else [BcachefsScrubErrors]) ++ snd (fst (reconcile_health "" p ∅)).

Lemma reconcile_health_unread fs p T : snd (fst (reconcile_health fs p T)) = snd (fst (reconcile_health "" p ∅)).
Proof.
  unfold reconcile_health. destruct (pb_reconcile p) as [s|]; [|done]. destruct (rr_enabled s); [|done].
  by destruct (reconcile_stall_check fs _ _ _ T), (reconcile_stall_check "" _ _ _ ∅).
Qed.

Lemma fs_health_unread fs p T : bh_fs_name (fst (fst (fs_health fs p T))) = xf_name fs /\ snd (fst (fs_health fs p T)) = probe_unread p.
Proof.
  unfold fs_health, probe_unread. pose proof (reconcile_health_unread (xf_name fs) p T) as Hr.
  destruct (read_bcachefs_error_count _) as [count complete]. destruct (reconcile_health (xf_name fs) p T) as [[stalled unavailable] T'].
  cbn in *. by rewrite Hr.
Qed.

Lemma probe_unread_spec p m : m ∈ probe_unread p <-> unread_of_probe p m.
Proof.
  unfold probe_unread, unread_of_probe. rewrite !elem_of_app.
  assert (Hr : m ∈ snd (fst (reconcile_health "" p ∅)) <->
    m = BcachefsReconcileStalled /\ match pb_reconcile p with None => True
      | Some s => rr_enabled s = true /\ may_stall (rr_sample s) = true /\ pb_progress p = Unavailable end).
  { unfold reconcile_health. destruct (pb_reconcile p) as [s|]; cbn; [|rewrite list_elem_of_singleton; naive_solver].
    destruct (rr_enabled s); cbn; [|rewrite elem_of_nil; naive_solver]. destruct (reconcile_stall_check _ _ _ _ _). cbn.
    destruct (may_stall _) eqn:E; cbn; [|rewrite elem_of_nil; naive_solver].
    case_bool_decide; rewrite ?elem_of_nil, ?list_elem_of_singleton; naive_solver. }
  rewrite Hr. destruct (snd (read_bcachefs_error_count _)), (pb_scrub p); cbn; rewrite ?elem_of_nil, ?list_elem_of_singleton; naive_solver.
Qed.

Lemma mark_sources_sources name ms c x :
  x ∈ cv_unavailable_sources (fold_left (fun c m => mark_source c m name) ms c) <->
  (x.2 = name /\ x.1 ∈ ms) \/ x ∈ cv_unavailable_sources c.
Proof.
  rewrite (fold_left_adds (fun c m => mark_source c m name) cv_unavailable_sources (fun b x => x = (b, name)));
    [|intros; cbn; by rewrite elem_of_cons]. destruct x; naive_solver.
Qed.

Lemma join_tasks_coverage ts c health T :
  let c' := fst (fst (join_tasks ts c health T)) in
  (forall m, m ∈ cv_unavailable_metrics c' <-> (exists fs, (fs, None) ∈ ts /\ m ∈ HEALTH_METRICS) \/ m ∈ cv_unavailable_metrics c) /\
  (forall x, x ∈ cv_unavailable_sources c' <->
     (exists fs p, (fs, Some p) ∈ ts /\ x.2 = xf_name fs /\ unread_of_probe p x.1) \/ x ∈ cv_unavailable_sources c) /\
  cv_observed_smart_attributes c' = cv_observed_smart_attributes c.
Proof.
  cbv zeta. revert c health T. induction ts as [|[fs [p|]] ts IH]; intros c health T; cbn [join_tasks].
  { split_and!; [intros m|intros x|done]; split; try (by right); intros [H|H]; try done; [destruct H as (? & []%elem_of_nil & _)|
      destruct H as (? & ? & []%elem_of_nil & _)]. }
  - destruct (fs_health_unread fs p T) as [Hn Hu]. destruct (fs_health fs p T) as [[h unavailable] T']. cbn in Hn, Hu. subst unavailable. rewrite Hn.
    specialize (IH (fold_left (fun c m => mark_source c m (xf_name fs)) (probe_unread p) c) (health ++ [h]) T') as (I1 & I2 & I3).
    split_and!.
    + intros m. rewrite I1, (fold_left_same (fun c m => mark_source c m (xf_name fs)) cv_unavailable_metrics) by done.
      setoid_rewrite elem_of_cons. naive_solver.
    + intros x. rewrite I2, mark_sources_sources, probe_unread_spec. setoid_rewrite elem_of_cons. naive_solver.
    + rewrite I3. by apply (fold_left_same (fun c m => mark_source c m (xf_name fs)) cv_observed_smart_attributes).
  - specialize (IH (mark_metrics c HEALTH_METRICS) health T) as (I1 & I2 & I3). destruct (mark_metrics_rest c HEALTH_METRICS) as [R1 R2].
    split_and!; [intros m|intros x|by rewrite I3].
    + rewrite I1, mark_metrics_metrics. setoid_rewrite elem_of_cons. naive_solver.
    + rewrite I2, R1. setoid_rewrite elem_of_cons. naive_solver.
Qed.

(** ** The attribute tables *)

Lemma cover_disk_attrs c d l :
  (exists ids, reports d l ids /\ cv_observed_smart_attributes (cover_disk c d) !! l = Some ids) \/
  (~ (exists ids, reports d l ids) /\ cv_observed_smart_attributes (cover_disk c d) !! l = cv_observed_smart_attributes c !! l).
Proof.
  unfold cover_disk, reports.
  destruct (String.eqb_spec (dk_smart_status d) "UNAVAILABLE") as [Hu|Hu].
  { right. split; [naive_solver|]. by destruct (dk_temperature_c d). }
  destruct (dk_rotational d) as [[]|]; [|right; split; [naive_solver|]; by destruct (dk_temperature_c d)..].
  destruct (dk_attributes d) as [|a l0] eqn:Ha; [right; split; [naive_solver|]; by destruct (dk_temperature_c d)|].
  destruct (decide (dk_label d = l)) as [<-|Hne].
  - left. exists (sma_id <$> a :: l0). split; [done|]. cbn. apply lookup_insert_eq.
  - right. split; [naive_solver|]. cbn. rewrite lookup_insert_ne by done. by destruct (dk_temperature_c d).
Qed.

Lemma cover_disks_attrs ds c l :
  NoDup (dk_label <$> ds) ->
  (forall d ids, d ∈ ds -> reports d l ids -> cv_observed_smart_attributes (fold_left cover_disk ds c) !! l = Some ids) /\
  ((forall d ids, d ∈ ds -> ~ reports d l ids) ->
   cv_observed_smart_attributes (fold_left cover_disk ds c) !! l = cv_observed_smart_attributes c !! l).
Proof.
  revert c. induction ds as [|d ds IH]; intros c Hnd; cbn [fold_left]; [split; [intros d ids []%elem_of_nil|done]|].
  rewrite fmap_cons in Hnd. apply NoDup_cons in Hnd as [Hd Hnd]. destruct (IH (cover_disk c d) Hnd) as [I1 I2].
  destruct (cover_disk_attrs c d l) as [(ids & Hr & Hl)|[Hr Hl]].
  - assert (Hno : forall d' ids', d' ∈ ds -> ~ reports d' l ids').
    { intros d' ids' Hin [Hl' _]. apply Hd. destruct Hr as [-> _]. rewrite <- Hl'. by apply list_elem_of_fmap_2. }
    split; [|intros H; by destruct (H d ids ltac:(left))].
    intros d' ids' [->|Hin]%elem_of_cons Hr'; [|by destruct (Hno d' ids')].
    rewrite I2, Hl by done. f_equal. destruct Hr as (_ & _ & _ & _ & ->), Hr' as (_ & _ & _ & _ & ->). done.
  - split.
    + intros d' ids' [->|Hin]%elem_of_cons Hr'; [by destruct Hr; exists ids'|]. by apply (I1 d').
    + intros H. rewrite I2, Hl; [done|]. intros d' ids' Hin. apply H. by right.
Qed.

(** ** The whole coverage *)

Lemma cover_mounts_spec c r :
  cv_unavailable_metrics (cover_mounts c r) = cv_unavailable_metrics c /\
  cv_observed_smart_attributes (cover_mounts c r) = cv_observed_smart_attributes c /\
  (forall x, x ∈ cv_unavailable_sources (cover_mounts c r) <->
     (rd_filesystems_later r = None /\ x.1 = BcachefsDegraded /\ x.2 ∈ rd_mount_failures r) \/ x ∈ cv_unavailable_sources c).
Proof.
  unfold cover_mounts. destruct (rd_filesystems_later r); [split_and!; naive_solver|]. split_and!.
  - by apply (fold_left_same (fun c name => mark_source c BcachefsDegraded name) cv_unavailable_metrics).
  - by apply (fold_left_same (fun c name => mark_source c BcachefsDegraded name) cv_observed_smart_attributes).
  - intros [m s]. rewrite (fold_left_adds (fun c name => mark_source c BcachefsDegraded name) cv_unavailable_sources
      (fun b x => x = (BcachefsDegraded, b))); [|intros; cbn; by rewrite elem_of_cons]. naive_solver.
Qed.

Lemma before_tasks_spec r :
  let c := coverage_before_tasks r in
  (forall m, m ∈ cv_unavailable_metrics c <->
     (rd_filesystems r = None /\ m ∈ FS_METRICS) \/ (snd (disk_health r) = true /\ m ∈ SMART_METRICS)) /\
  (forall x, x ∈ cv_unavailable_sources c <-> exists d, d ∈ fst (disk_health r) /\ dk_label d = x.2 /\ unread_of_disk d x.1).
Proof.
  cbv zeta. unfold coverage_before_tasks. split.
  - intros m. rewrite (fold_left_same cover_disk cv_unavailable_metrics) by apply cover_disk_metrics.
    destruct (snd (disk_health r)), (rd_filesystems r); rewrite ?mark_metrics_metrics; cbn [no_coverage cv_unavailable_metrics];
      rewrite ?elem_of_nil; naive_solver.
  - intros x. rewrite (fold_left_adds cover_disk cv_unavailable_sources (fun d x => x.2 = dk_label d /\ unread_of_disk d x.1))
      by (intros; apply cover_disk_sources).
    replace (cv_unavailable_sources _) with (@nil (AlertMetric * string)); [rewrite elem_of_nil; naive_solver|].
    destruct (snd (disk_health r)), (rd_filesystems r); rewrite ?(proj1 (mark_metrics_rest _ _)); done.
Qed.

Lemma before_tasks_attrs r l :
  NoDup (dk_label <$> fst (disk_health r)) ->
  (forall d ids, d ∈ fst (disk_health r) -> reports d l ids -> cv_observed_smart_attributes (coverage_before_tasks r) !! l = Some ids) /\
  ((forall d ids, d ∈ fst (disk_health r) -> ~ reports d l ids) -> cv_observed_smart_attributes (coverage_before_tasks r) !! l = None).
Proof.
  intros Hnd. unfold coverage_before_tasks. set (c := if snd (disk_health r) then _ else _).
  destruct (cover_disks_attrs (fst (disk_health r)) c l Hnd) as [H1 H2]. split; [done|]. intros H. rewrite H2 by done.
  subst c. destruct (snd (disk_health r)), (rd_filesystems r); rewrite ?(proj2 (mark_metrics_rest _ _)); apply lookup_empty.
Qed.

Lemma after_tasks_spec r c :
  let c' := coverage_after_tasks r c in
  (forall m, m ∈ cv_unavailable_metrics c' <->
     (rd_kernel r = None /\ m = KernelErrors) \/ (rd_tls_complete r = false /\ m ∈ [CertificateExpiryDays; CertificateRenewalFailure]) \/
     (df_root_free_gb (rd_free r) = None /\ m = RootDiskFreeGb) \/ (df_boot_free_mb (rd_free r) = None /\ m = BootDiskFreeMb) \/
     m ∈ cv_unavailable_metrics c) /\
  (forall x, x ∈ cv_unavailable_sources c' <->
     (exists s, s ∈ public_tls r /\ ht_host s = x.2 /\ unread_of_tls s x.1) \/
     (rd_filesystems_later r = None /\ x.1 = BcachefsDegraded /\ x.2 ∈ rd_mount_failures r) \/ x ∈ cv_unavailable_sources c) /\
  cv_observed_smart_attributes c' = cv_observed_smart_attributes c.
Proof.
  cbv zeta. unfold coverage_after_tasks. match goal with |- context [cover_mounts ?c0 r] => destruct (cover_mounts_spec c0 r) as (M1 & M2 & M3) end.
  rewrite M1, M2. split_and!.
  - intros m. unfold cover_free. destruct (df_boot_free_mb _), (df_root_free_gb _); cbn [mark_metric cv_unavailable_metrics];
      rewrite ?elem_of_cons, (fold_left_same cover_tls cv_unavailable_metrics) by apply cover_tls_metrics;
      destruct (rd_tls_complete r), (rd_kernel r); cbn [mark_metric cv_unavailable_metrics]; rewrite ?elem_of_cons, ?elem_of_nil; naive_solver.
  - intros x. rewrite M3. unfold cover_free.
    assert (Hs : forall c0, x ∈ cv_unavailable_sources (fold_left cover_tls (public_tls r) c0) <->
      (exists s, s ∈ public_tls r /\ ht_host s = x.2 /\ unread_of_tls s x.1) \/ x ∈ cv_unavailable_sources c0).
    { intros c0. rewrite (fold_left_adds cover_tls cv_unavailable_sources (fun s x => x.2 = ht_host s /\ unread_of_tls s x.1)) by (intros; apply cover_tls_sources).
      naive_solver. }
    destruct (df_boot_free_mb _), (df_root_free_gb _), (rd_tls_complete r), (rd_kernel r); cbn [mark_metric cv_unavailable_sources]; rewrite Hs; naive_solver.
  - unfold cover_free. destruct (df_boot_free_mb _), (df_root_free_gb _); cbn [mark_metric cv_observed_smart_attributes];
      rewrite (fold_left_same cover_tls cv_observed_smart_attributes) by apply cover_tls_attrs; by destruct (rd_tls_complete r), (rd_kernel r).
Qed.

Lemma elem_of_tasks r fs p : (forall l, Permutation (rd_join r l) l) -> (fs, p) ∈ tasks r <-> fs ∈ mounted_filesystems r /\ rd_probe r fs = p.
Proof.
  intros Hj. unfold tasks. rewrite list_elem_of_fmap. setoid_rewrite (Hj (mounted_filesystems r)). naive_solver.
Qed.

Section coverage_right.
Context (r : Readings) (T : Tracker) (stats : SystemStats).
Context (Hstats : rd_stats r = Some stats) (Hjoin : forall l, Permutation (rd_join r l) l).
Context (Hlabels : NoDup (dk_label <$> fst (disk_health r))).

Lemma coverage_metrics m : m ∈ cv_unavailable_metrics (coverage r T) <-> unread_metric r m.
Proof.
  unfold coverage. destruct (after_tasks_spec r (fst (fst (join_tasks (tasks r) (coverage_before_tasks r) [] T)))) as (A & _ & _).
  destruct (join_tasks_coverage (tasks r) (coverage_before_tasks r) [] T) as (J & _ & _). destruct (before_tasks_spec r) as [B _].
  assert (Ht : (exists fs, (fs, None) ∈ tasks r /\ m ∈ HEALTH_METRICS) <->
               (exists fs, fs ∈ mounted_filesystems r /\ rd_probe r fs = None /\ m ∈ HEALTH_METRICS)).
  { setoid_rewrite (elem_of_tasks r _ _ Hjoin). naive_solver. }
  rewrite A, J, B, Ht. unfold unread_metric. tauto.
Qed.

Lemma coverage_sources m s : (m, s) ∈ cv_unavailable_sources (coverage r T) <-> unread_source r m s.
Proof.
  unfold coverage. destruct (after_tasks_spec r (fst (fst (join_tasks (tasks r) (coverage_before_tasks r) [] T)))) as (_ & A & _).
  destruct (join_tasks_coverage (tasks r) (coverage_before_tasks r) [] T) as (_ & J & _). destruct (before_tasks_spec r) as [_ B].
  assert (Ht : (exists fs p, (fs, Some p) ∈ tasks r /\ s = xf_name fs /\ unread_of_probe p m) <->
               (exists fs p, fs ∈ mounted_filesystems r /\ rd_probe r fs = Some p /\ xf_name fs = s /\ unread_of_probe p m)).
  { setoid_rewrite (elem_of_tasks r _ _ Hjoin). naive_solver. }
  rewrite A, J, B. cbn [fst snd]. rewrite Ht. unfold unread_source. tauto.
Qed.

Lemma coverage_attrs l :
  (forall d ids, d ∈ fst (disk_health r) -> reports d l ids -> cv_observed_smart_attributes (coverage r T) !! l = Some ids) /\
  ((forall d ids, d ∈ fst (disk_health r) -> ~ reports d l ids) -> cv_observed_smart_attributes (coverage r T) !! l = None).
Proof.
  unfold coverage. destruct (after_tasks_spec r (fst (fst (join_tasks (tasks r) (coverage_before_tasks r) [] T)))) as (_ & _ & ->).
  destruct (join_tasks_coverage (tasks r) (coverage_before_tasks r) [] T) as (_ & _ & ->). by apply before_tasks_attrs.
Qed.

Lemma reports_dec d l : Decision (exists ids, reports d l ids).
Proof.
  refine (cast_if (decide (dk_label d = l /\ dk_smart_status d <> "UNAVAILABLE" /\ dk_rotational d = Some true /\ length (dk_attributes d) <> 0%nat))).
  - destruct a as (H1 & H2 & H3 & H4). exists (sma_id <$> dk_attributes d). split_and!; try done. intros E. by rewrite E in H4.
  - intros (ids & H1 & H2 & H3 & H4 & _). apply n. split_and!; try done. by intros ?%nil_length_inv.
Defined.

Lemma reporter l : (exists d ids, d ∈ fst (disk_health r) /\ reports d l ids) \/ (forall d ids, d ∈ fst (disk_health r) -> ~ reports d l ids).
Proof.
  generalize (fst (disk_health r)). intros ds. induction ds as [|d ds IH]; [right; intros d ids []%elem_of_nil|].
  destruct (reports_dec d l) as [[ids H]|H]; [left; exists d, ids; split; [left|done]|].
  destruct IH as [(d' & ids & Hd & Hr)|IH]; [left; exists d', ids; split; [by right|done]|].
  right. intros d' ids [->|Hd]%elem_of_cons Hr; [apply H; by exists ids|by apply (IH d' ids)].
Qed.

Lemma coverage_right a : is_observed (coverage r T) a = false <-> lost r a.
Proof.
  unfold lost. rewrite Hstats. unfold is_observed. rewrite <- coverage_metrics, <- coverage_sources.
  case_bool_decide as Hm; [split; auto|]. case_bool_decide as Hs; [split; auto|].
  unfold unread_attribute. case_bool_decide as Ha; [|split; [done|naive_solver]].
  destruct (coverage_attrs (resource a)) as [C1 C2]. destruct (reporter (resource a)) as [(d & ids & Hd & Hr)|Hno].
  - rewrite (C1 d ids Hd Hr). split.
    + intros H. right. right. split; [done|]. exists d, ids. split_and!; [done|done|]. intros id Hid. rewrite Hid in H. by apply bool_decide_eq_false in H.
    + intros [?|[?|(_ & d' & ids' & Hd' & Hr' & Hlost)]]; [done|done|].
      assert (ids' = ids) as -> by (pose proof (C1 d' ids' Hd' Hr'); pose proof (C1 d ids Hd Hr); congruence).
      destruct (attribute_id a) as [id|]; [|done]. apply bool_decide_eq_false. by apply Hlost.
  - rewrite (C2 Hno). split; [done|]. intros [?|[?|(_ & d' & ids' & Hd' & Hr' & _)]]; [done|done|]. by destruct (Hno d' ids').
Qed.
End coverage_right.

(** ** The instances of an evaluation *)

Lemma reconcile_alerts_members uuid existing alerts n :
  let '(instances, _, over, _) := reconcile_alerts uuid existing alerts n in
  ai_alert <$> instances = alerts /\ (forall i, i ∈ over -> i ∈ existing) /\
  (forall i, i ∈ existing -> i ∈ over \/ exists j, j ∈ instances /\ signature j = signature i /\ continues (ai_alert j) i = true).
Proof.
  revert existing n. induction alerts as [|a alerts IH]; intros existing n; cbn [reconcile_alerts].
  { split_and!; [done|done|by left]. }
  pose proof (take_first_find (continues a) existing) as Ht. destruct (take_first (continues a) existing) as [[x rest]|].
  - destruct Ht as (Hf & l1 & l2 & -> & ->). apply find_first_Some in Hf as [_ Hf]. specialize (IH (l1 ++ l2) n).
    destruct (reconcile_alerts uuid (l1 ++ l2) alerts n) as [[[instances occurrences] over] n']. destruct IH as (I1 & I2 & I3).
    split_and!; [by rewrite fmap_cons, I1|intros i Hi%I2; set_solver|]. intros i Hi.
    assert (Hc : i = x \/ i ∈ l1 ++ l2) by set_solver. destruct Hc as [->|Hc].
    + right. exists (with_alert a x). split_and!; [left|done|done].
    + destruct (I3 i Hc) as [?|(j & Hj & ?)]; [by left|]. right. exists j. split; [by right|done].
  - specialize (IH existing (S n)). destruct (reconcile_alerts uuid existing alerts (S n)) as [[[instances occurrences] over] n'].
    destruct IH as (I1 & I2 & I3). split_and!; [by rewrite fmap_cons, I1|done|].
    intros i Hi. destruct (I3 i Hi) as [?|(j & Hj & ?)]; [by left|]. right. exists j. split; [by right|done].
Qed.

(** What a reconciliation keeps and drops. *)
Lemma reconcile_active_members uuid io alerts observed w :
  let on a := rule_is_enabled (als_rules (sv_state w)) (aa_rule_id a) = true in
  let w' := fst (reconcile_active uuid io alerts observed w) in
  (forall i, i ∈ memory w' -> (ai_alert i ∈ alerts /\ on (ai_alert i)) \/ (i ∈ memory w /\ on (ai_alert i) /\ observed (ai_alert i) = false)) /\
  (forall i, i ∈ memory w -> on (ai_alert i) ->
     (exists j, j ∈ memory w' /\ signature j = signature i /\ (j = i \/ ai_alert j ∈ alerts /\ continues (ai_alert j) i = true)) \/ observed (ai_alert i) = true) /\
  (forall a, a ∈ alerts -> on a -> exists j, j ∈ memory w' /\ ai_alert j = a).
Proof.
  cbv zeta. pose proof (reconcile_active_shape uuid io alerts observed w) as H. cbv zeta in H. destruct H as (_ & _ & Hi & _).
  change (als_active_instances (sv_state (fst (reconcile_active uuid io alerts observed w))))
    with (memory (fst (reconcile_active uuid io alerts observed w))) in Hi.
  rewrite Hi. unfold reconcile_instances.
  set (ex := List.filter _ (als_active_instances _)). set (al := List.filter _ alerts).
  pose proof (reconcile_alerts_members uuid ex al (sv_uuids w)) as Hm.
  destruct (reconcile_alerts uuid ex al (sv_uuids w)) as [[[instances occurrences] over] n']. destruct Hm as (M1 & M2 & M3). cbn [fst snd].
  assert (Hex : forall i, i ∈ ex <-> i ∈ memory w /\ rule_is_enabled (als_rules (sv_state w)) (aa_rule_id (ai_alert i)) = true)
    by (intros i; apply (elem_of_retain (fun i => rule_is_enabled (als_rules (sv_state w)) (aa_rule_id (ai_alert i))))).
  assert (Hal : forall a, a ∈ al <-> a ∈ alerts /\ rule_is_enabled (als_rules (sv_state w)) (aa_rule_id a) = true)
    by (intros a; apply (elem_of_retain (fun a => rule_is_enabled (als_rules (sv_state w)) (aa_rule_id a)))).
  assert (Hk : forall i, i ∈ List.filter (fun i => negb (observed (ai_alert i))) over <-> i ∈ over /\ observed (ai_alert i) = false).
  { intros i. rewrite (elem_of_retain (fun i => negb (observed (ai_alert i))) over i). by rewrite negb_true_iff. }
  split_and!.
  - intros i [Hin|[Hin Ho]%Hk]%elem_of_app.
    + left. apply Hal. rewrite <- M1. by apply list_elem_of_fmap_2.
    + right. apply M2, Hex in Hin as [? ?]. done.
  - intros i Hin Hon. destruct (M3 i (proj2 (Hex i) (conj Hin Hon))) as [Ho|(j & Hj & Hs & Hc)].
    + destruct (observed (ai_alert i)) eqn:E; [by right|]. left. exists i. split_and!; [|done|by left]. apply elem_of_app. right. by apply Hk.
    + left. exists j. split_and!; [apply elem_of_app; by left|done|right; split; [|done]].
      apply Hal. rewrite <- M1. by apply list_elem_of_fmap_2.
  - intros a Ha Hon. assert (Hin : a ∈ ai_alert <$> instances) by (rewrite M1; by apply Hal).
    apply list_elem_of_fmap in Hin as (j & -> & Hj). exists j. split; [apply elem_of_app; by left|done].
Qed.

(** The alerts an evaluation raises. *)
Definition raised_alerts (rules : list AlertRule) (r : Readings) (T : Tracker) : list ActiveAlert :=
  match rd_stats r with
  | None => evaluate_backup_rules rules (backup_failures (rd_profiles r))
  | Some stats => raised rules r stats T
  end.

(** C15. An alert ends only when its own signal was read, or what it is about is
    gone.  After an evaluation, whatever part of the readings failed and whether
    or not the state could be written, provided that no two disks share a label:
    an active alert of an enabled rule is still there with its identifier and
    acknowledgement, unchanged or as the newly raised alert that continues it,
    unless it is settled, that is, the reading it depends on succeeded and gave
    its signal for its resource, or does not list its resource (an unmounted
    filesystem, a disk that is gone, a host without certificate), or SMART
    checks are off; conversely an active alert is either raised by this
    evaluation or was active before with its signal not read; and every alert
    raised for an enabled rule is active. *)
Theorem alerts_end_only_when_read uuid io r T w :
  (forall l, Permutation (rd_join r l) l) -> NoDup (dk_label <$> fst (disk_health r)) ->
  let on a := rule_is_enabled (als_rules (sv_state w)) (aa_rule_id a) = true in
  let w' := fst (fst (evaluate_active_alerts_inner uuid io r T w)) in
  let alerts := raised_alerts (als_rules (sv_state w)) r T in
  (forall i, i ∈ memory w -> on (ai_alert i) ->
     (exists j, j ∈ memory w' /\ signature j = signature i /\ (j = i \/ ai_alert j ∈ alerts /\ continues (ai_alert j) i = true)) \/
     settled r (ai_alert i)) /\
  (forall i, i ∈ memory w' -> ai_alert i ∈ alerts \/ (i ∈ memory w /\ lost r (ai_alert i))) /\
  (forall a, a ∈ alerts -> on a -> exists j, j ∈ memory w' /\ ai_alert j = a).
Proof.
  intros Hj Hl. cbv zeta.
  assert (Hw : exists observed, fst (fst (evaluate_active_alerts_inner uuid io r T w)) =
      fst (reconcile_active uuid io (raised_alerts (als_rules (sv_state w)) r T) observed w) /\
    (forall a, observed a = false <-> lost r a)).
  { unfold evaluate_active_alerts_inner, raised_alerts. destruct (rd_stats r) as [stats|] eqn:E.
    - exists (is_observed (coverage r T)). split; [by destruct (reconcile_active _ _ _ _ _)|]. intros a. by apply (coverage_right r T stats).
    - exists (fun a => bool_decide (aa_metric a = MetricBackupFailure)). split; [by destruct (reconcile_active _ _ _ _ _)|].
      intros a. unfold lost. rewrite E. apply bool_decide_eq_false. }
  destruct Hw as (observed & -> & Hobs).
  destruct (reconcile_active_members uuid io (raised_alerts (als_rules (sv_state w)) r T) observed w) as (R1 & R2 & R3).
  split_and!; [|intros i [[? _]|(? & _ & ?%Hobs)]%R1; auto|done].
  intros i Hi Hon. destruct (R2 i Hi Hon) as [Hk|Ho]; [by left|]. right. apply not_lost_settled. rewrite <- Hobs. congruence.
Qed.

(** The disks cannot be read: a SMART alert stays, a memory alert that was read
    as fine ends. *)
Definition demo_readings : Readings :=
  mkReadings [] (Some (mkSystemStats 4 (f64_of_Z 1) 100 10 0 0)) (Some []) true None (fun _ => None) (fun l => l)
    (Some (mkKernelErrorAlert 0 [])) [] true (mkDiskFree (Some (f64_of_Z 50)) (Some (f64_of_Z 500))) ["tank"] (Some []).

Definition demo_smart : AlertInstanceState :=
  mkInstance "a" (mkActiveAlert "smart-health" "SMART health failure" SevCritical SmartHealth "failed" f64_zero f64_one "/dev/sda")
    (Some "09:00") (Some "admin").
Definition demo_memory : AlertInstanceState :=
  mkInstance "b" (mkActiveAlert "memory-warn" "Memory usage warning" SevWarning MemoryUsagePercent "high" f64_zero f64_one "memory") None None.

Lemma alerts_end_only_when_read_witness :
  let w := mkAlertService (mkAlertState default_rules [demo_smart; demo_memory] false) 0 None 0 in
  let w' := fst (fst (evaluate_active_alerts_inner demo_uuid None demo_readings ∅ w)) in
  (forall i, i ∈ memory w' -> ai_alert i ∈ raised_alerts default_rules demo_readings ∅ \/ (i ∈ memory w /\ lost demo_readings (ai_alert i))) /\
  (fun i => (ai_instance_id i, aa_rule_id (ai_alert i))) <$> memory w' = [("u", "mount-failure"); ("a", "smart-health")].
Proof.
  intros w w'. destruct (alerts_end_only_when_read demo_uuid None demo_readings ∅ w) as (_ & H & _).
  - intros l. reflexivity.
  - constructor.
  - split; [exact H|]. vm_compute. reflexivity.
Defined.
