(* ===== verification/Vm.v ===== *)
(** * Virtual machines (nasty-vm/src/lib.rs)

    One state file per VM; a running VM is a QEMU process, kept with the
    arguments it was started with.  What the system answers, canonicalize,
    losetup, QEMU and its monitor included, is an argument. *)

From Stdlib Require Import ZArith Lia Ascii String.
From stdpp Require Import base list gmap strings.
From S2P Require Import Prelude.
From S2P Require Import RustStr.
From S2P Require Import Text.
From S2P Require Import StateDir.

Definition VM_STATE_DIR : string := "/var/lib/nasty/vms".
Definition QMP_DIR : string := "/run/nasty/vm".
Definition OVMF_CODE : string := "/etc/nasty/ovmf/OVMF_CODE.fd".

(** ** Data *)

Inductive VmError : Type :=
| VmNotFound (id : string)
| VmAlreadyExists (name : string)
| VmAlreadyRunning (e : string)
| VmNotRunning (name : string)
| KvmNotAvailable
| InvalidDiskPath (e : string)
| InvalidUsbDevice (e : string)
| VmInvalidNetwork (e : string)
| PassthroughFailed (e : string)
| QemuFailed (e : string)
| QmpError (e : string)
| VmIo (e : string).

Record VmDisk : Type := mkVmDisk {
  vd_path : string;
  vd_source : option string;
  vd_interface : string;
  vd_readonly : bool;
  vd_cache : option string;
  vd_aio : option string;
  vd_discard : option string;
  vd_iops_rd : option Z;
  vd_iops_wr : option Z;
}.

Record VmNetwork : Type := mkVmNetwork { vn_mode : string; vn_bridge : option string; vn_mac : option string }.
Record PassthroughDevice : Type := mkPassthrough { pd_address : string; pd_label : option string }.
Record UsbPassthrough : Type := mkUsb { ub_vendor_id : string; ub_product_id : string; ub_label : option string }.

Record VmConfig : Type := mkVmConfig {
  vc_id : string;
  vc_name : string;
  vc_cpus : Z;
  vc_memory_mib : Z;
  vc_disks : list VmDisk;
  vc_networks : list VmNetwork;
  vc_passthrough_devices : list PassthroughDevice;
  vc_usb_devices : list UsbPassthrough;
  vc_cdroms : list string;
  vc_boot_iso : option string;
  vc_boot_order : string;
  vc_uefi : bool;
  vc_description : option string;
  vc_autostart : bool;
  vc_cpu_model : option string;
  vc_machine_type : option string;
  vc_vga : option string;
  vc_extra_args : option (list string);
}.

Record CreateVmRequest : Type := mkCreateVm {
  cr_name : string;
  cr_cpus : option Z;
  cr_memory_mib : option Z;
  cr_disks : option (list VmDisk);
  cr_networks : option (list VmNetwork);
  cr_passthrough_devices : option (list PassthroughDevice);
  cr_usb_devices : option (list UsbPassthrough);
  cr_cdroms : option (list string);
  cr_boot_iso : option string;
  cr_boot_order : option string;
  cr_uefi : option bool;
  cr_description : option string;
  cr_autostart : option bool;
}.

Record UpdateVmRequest : Type := mkUpdateVm {
  ur_id : string;
  ur_name : option string;
  ur_cpus : option Z;
  ur_memory_mib : option Z;
  ur_disks : option (list VmDisk);
  ur_networks : option (list VmNetwork);
  ur_passthrough_devices : option (list PassthroughDevice);
  ur_usb_devices : option (list UsbPassthrough);
  ur_cdroms : option (list string);
  ur_boot_iso : option string;
  ur_boot_order : option string;
  ur_uefi : option bool;
  ur_description : option string;
  ur_autostart : option bool;
  ur_cpu_model : option string;
  ur_machine_type : option string;
  ur_vga : option string;
  ur_extra_args : option (list string);
}.

(** Record updates. *)
Definition with_disks (c : VmConfig) (disks : list VmDisk) : VmConfig :=
  mkVmConfig (vc_id c) (vc_name c) (vc_cpus c) (vc_memory_mib c) disks (vc_networks c) (vc_passthrough_devices c)
    (vc_usb_devices c) (vc_cdroms c) (vc_boot_iso c) (vc_boot_order c) (vc_uefi c) (vc_description c) (vc_autostart c)
    (vc_cpu_model c) (vc_machine_type c) (vc_vga c) (vc_extra_args c).

Definition with_cdroms (c : VmConfig) (cdroms : list string) (boot_iso : option string) : VmConfig :=
  mkVmConfig (vc_id c) (vc_name c) (vc_cpus c) (vc_memory_mib c) (vc_disks c) (vc_networks c) (vc_passthrough_devices c)
    (vc_usb_devices c) cdroms boot_iso (vc_boot_order c) (vc_uefi c) (vc_description c) (vc_autostart c)
    (vc_cpu_model c) (vc_machine_type c) (vc_vga c) (vc_extra_args c).

Definition with_source (d : VmDisk) (source : option string) : VmDisk :=
  mkVmDisk (vd_path d) source (vd_interface d) (vd_readonly d) (vd_cache d) (vd_aio d) (vd_discard d) (vd_iops_rd d) (vd_iops_wr d).

Definition with_disk_path (d : VmDisk) (path : string) : VmDisk :=
  mkVmDisk path (vd_source d) (vd_interface d) (vd_readonly d) (vd_cache d) (vd_aio d) (vd_discard d) (vd_iops_rd d) (vd_iops_wr d).

Definition migrate_cdroms (c : VmConfig) : VmConfig :=
  match vc_cdroms c, vc_boot_iso c with
  | [], Some iso => if String.eqb iso "" then c else with_cdroms c [iso] (vc_boot_iso c)
  | _, _ => c
  end.

Record VmEnv : Type := mkVmEnv {
  vn_kvm : bool;
  vn_aarch64 : bool;
  vn_canonicalize : string -> option string;
  vn_exists : string -> bool;
  vn_losetup : option string;
  vn_uuid : string;
  vn_save : option string;
  vn_remove : option string;
  vn_bridge_exists : string -> bool;
  vn_mkdir : option string;
  vn_copy_vars : option string;
  vn_bind : string -> option string;
  vn_spawn : option string;
  vn_qemu_fails : option string;      (** the reason QEMU gives *)
  vn_negotiate : option string;
  vn_powerdown : option string;
  vn_dies : bool;                     (** whether quit or SIGKILL ends the process *)
}.

(** [vm_running] are the VMs whose monitor answers a ping, with their command
    lines; [vm_silent] are the QEMU processes that run without answering, with
    the VMs they were started for. *)
Record VmWorld : Type := mkVmWorld {
  vm_store : StateDir VmConfig;
  vm_running : gmap string (list string);
  vm_silent : list (string * list string);
}.

Abbreviation vmm A := (stm VmWorld VmError A).

(** The socket is there, and [qmp::ping] gets its answer in time. *)
Definition is_running (w : VmWorld) (id : string) : bool := bool_decide (is_Some (vm_running w !! id)).

Definition vm_save (env : VmEnv) (id : string) (c : VmConfig) : vmm unit := fun w =>
  match save (vn_save env) id c (vm_store w) with
  | Ok d => (mkVmWorld d (vm_running w) (vm_silent w), Ok tt)
  | Err e => (w, Err (VmIo e))
  end.

(** ** Checks *)

Definition validate_vm_path (env : VmEnv) (path : string) : result unit VmError :=
  canonical <-? ok_or (vn_canonicalize env path) (InvalidDiskPath (path +:+ " does not exist or cannot be resolved")) ;;
  if negb (starts_with "/fs/" canonical) && negb (starts_with "/dev/" canonical)
  then Err (InvalidDiskPath (path +:+ " resolves to " +:+ canonical +:+ " which is not under /fs/ or /dev/"))
  else Ok tt.

Definition validate_qemu_drive_value (field value : string) : result unit VmError :=
  if str_contains_char "," value || str_contains_char (chr 10) value || str_contains_char (chr 13) value
     || str_contains_char (chr 0) value
  then Err (InvalidDiskPath (field +:+ " contains characters that alter QEMU drive options"))
  else Ok tt.

(** A value given that is not among those allowed. *)
Definition unsupported (allowed : list string) (o : option string) : bool :=
  match o with Some v => negb (one_of allowed v) | None => false end.

Definition validate_vm_disk (disk : VmDisk) : result unit VmError :=
  _ <-? validate_qemu_drive_value "disk path" (vd_path disk) ;;
  if negb (one_of [""; "virtio"; "scsi"; "ide"] (vd_interface disk))
  then Err (InvalidDiskPath ("unsupported disk interface '" +:+ vd_interface disk +:+ "'"))
  else if unsupported ["writeback"; "writethrough"; "none"; "unsafe"] (vd_cache disk)
  then Err (InvalidDiskPath "unsupported cache mode")
  else if unsupported ["threads"; "native"] (vd_aio disk) then Err (InvalidDiskPath "unsupported I/O mode")
  else if unsupported ["unmap"; "ignore"] (vd_discard disk) then Err (InvalidDiskPath "unsupported discard mode")
  else Ok tt.

Definition bridge_char (ch : bytes) : bool :=
  one_byte (fun c => is_ascii_alphanumeric c || existsb (Ascii.eqb c) ["."; "_"; "-"]%char) ch.

Definition hex_octet (s : string) : bool := (String.length s =? 2)%nat && forallb (one_byte is_ascii_hexdigit) (chars s).

Definition valid_mac (mac : string) : bool :=
  let octets := str_split ":" mac in (length octets =? 6)%nat && forallb hex_octet octets.

Definition validate_vm_network (network : VmNetwork) : result unit VmError :=
  if negb (one_of ["user"; "bridge"] (vn_mode network))
  then Err (VmInvalidNetwork ("unsupported network mode '" +:+ vn_mode network +:+ "'"))
  else if match vn_bridge network with
          | Some bridge => String.eqb bridge "" || (15 <? String.length bridge)%nat || negb (forallb bridge_char (chars bridge))
          | None => false
          end
  then Err (VmInvalidNetwork "bridge name contains unsupported characters")
  else if match vn_mac network with Some mac => negb (valid_mac mac) | None => false end
  then Err (VmInvalidNetwork "MAC address must contain six hexadecimal octets")
  else Ok tt.

Definition validate_vm_network_values (networks : list VmNetwork) : result unit VmError := try_each validate_vm_network networks.

Definition validate_usb_id (id : string) : result unit VmError :=
  if negb (String.length id =? 4)%nat || negb (forallb (one_byte is_ascii_hexdigit) (chars id))
  then Err (InvalidUsbDevice ("USB id '" +:+ id +:+ "' must be 4 hex digits"))
  else Ok tt.

Definition validate_usb_passthroughs (devices : list UsbPassthrough) : result unit VmError :=
  try_each (fun d => _ <-? validate_usb_id (ub_vendor_id d) ;; validate_usb_id (ub_product_id d)) devices.

Definition validate_bridge_networks (env : VmEnv) (networks : list VmNetwork) : result unit VmError :=
  try_each (fun net =>
    if String.eqb (vn_mode net) "bridge" then
      let br := default "br0" (vn_bridge net) in
      if vn_bridge_exists env br then Ok tt else Err (VmInvalidNetwork ("bridge '" +:+ br +:+ "' does not exist"))
    else Ok tt) networks.

(** ** Loop devices *)

Definition parse_losetup_line (l : string) : option (string * string) :=
  match split_whitespace l with dev :: back :: _ => Some (dev, back) | _ => None end.

Definition parse_losetup_pairs (output : string) : list (string * string) := omap parse_losetup_line (str_lines output).

Definition losetup_pairs (env : VmEnv) : list (string * string) :=
  match vn_losetup env with Some output => parse_losetup_pairs output | None => [] end.

Definition backing_file_for_device (pairs : list (string * string)) (device : string) : option string :=
  snd <$> find_first (fun p => String.eqb p.1 device) pairs.

Definition device_for_backing_file (pairs : list (string * string)) (backing : string) : option string :=
  fst <$> find_first (fun p => String.eqb p.2 backing) pairs.

Definition backfill_disk_source (pairs : list (string * string)) (disk : VmDisk) : VmDisk :=
  match vd_source disk with
  | Some _ => disk
  | None => if starts_with "/dev/loop" (vd_path disk)
            then match backing_file_for_device pairs (vd_path disk) with Some back => with_source disk (Some back) | None => disk end
            else disk
  end.

(** The disks, and whether any has changed. *)
Definition backfill_disk_sources (pairs : list (string * string)) (disks : list VmDisk) : list VmDisk * bool :=
  let disks' := backfill_disk_source pairs <$> disks in
  (disks', existsb (fun p => bool_decide (vd_source p.1 <> vd_source p.2)) (zip disks disks')).

Definition resolve_disk_path (pairs : list (string * string)) (disk : VmDisk) : result VmDisk VmError :=
  match vd_source disk with
  | None => Ok disk
  | Some source =>
      dev <-? ok_or (device_for_backing_file pairs source)
                (InvalidDiskPath ("backing file " +:+ source +:+ " is not attached to any loop device")) ;;
      Ok (if String.eqb (vd_path disk) dev then disk else with_disk_path disk dev)
  end.

Fixpoint map_result {A B E} (f : A -> result B E) (l : list A) : result (list B) E :=
  match l with
  | [] => Ok []
  | x :: l' => y <-? f x ;; ys <-? map_result f l' ;; Ok (y :: ys)
  end.

Definition resolve_disk_paths (pairs : list (string * string)) (disks : list VmDisk) : result (list VmDisk * bool) VmError :=
  disks' <-? map_result (resolve_disk_path pairs) disks ;;
  Ok (disks', existsb (fun p => negb (String.eqb (vd_path p.1) (vd_path p.2))) (zip disks disks')).

(** ** The command line *)

Definition qmp_socket_path (id : string) : string := QMP_DIR +:+ "/" +:+ id +:+ ".qmp".
Definition vnc_socket_path (id : string) : string := QMP_DIR +:+ "/" +:+ id +:+ ".vnc".
Definition serial_socket_path (id : string) : string := QMP_DIR +:+ "/" +:+ id +:+ ".serial".
Definition ovmf_vars_path (id : string) : string := VM_STATE_DIR +:+ "/" +:+ id +:+ ".ovmf_vars.fd".

Definition opt_text {A} (o : option A) (f : A -> string) : string := match o with Some x => f x | None => "" end.

Definition throttle_text (key : string) (o : option Z) : string :=
  match o with Some v => if 0 <? v then key +:+ fmt_dec v else "" | None => "" end.

Definition drive_text (i : nat) (disk : VmDisk) : string :=
  "file=" +:+ vd_path disk +:+ ",format=raw,if=" +:+ (if String.eqb (vd_interface disk) "ide" then "ide" else "none")
  +:+ ",id=drive" +:+ fmt_dec (Z.of_nat i) +:+ (if vd_readonly disk then ",readonly=on" else "")
  +:+ opt_text (vd_cache disk) (fun c => ",cache=" +:+ c) +:+ opt_text (vd_aio disk) (fun a => ",aio=" +:+ a)
  +:+ opt_text (vd_discard disk) (fun d => ",discard=" +:+ d)
  +:+ throttle_text ",throttling.iops-read=" (vd_iops_rd disk) +:+ throttle_text ",throttling.iops-write=" (vd_iops_wr disk).

Definition disk_args (i : nat) (disk : VmDisk) : list string :=
  ["-drive"; drive_text i disk] ++
  (if String.eqb (vd_interface disk) "virtio" || String.eqb (vd_interface disk) ""
   then ["-device"; "virtio-blk-pci,drive=drive" +:+ fmt_dec (Z.of_nat i)] else []).

Definition cdrom_args (i : nat) (iso : string) : list string :=
  ["-drive"; "file=" +:+ iso +:+ ",media=cdrom,if=ide,index=" +:+ fmt_dec (Z.of_nat i) +:+ ",readonly=on,id=cd" +:+ fmt_dec (Z.of_nat i)].

Definition network_args (i : nat) (net : VmNetwork) : list string :=
  let mac_opt := opt_text (vn_mac net) (fun m => ",mac=" +:+ m) in
  let n := fmt_dec (Z.of_nat i) in
  ["-netdev";
   (if String.eqb (vn_mode net) "bridge"
    then "bridge,id=net" +:+ n +:+ ",br=" +:+ default "br0" (vn_bridge net) +:+ ",helper=/run/wrappers/bin/qemu-bridge-helper"
    else "user,id=net" +:+ n);
   "-device"; "virtio-net-pci,netdev=net" +:+ n +:+ mac_opt].

Definition usb_args (devices : list UsbPassthrough) : list string :=
  match devices with
  | [] => []
  | _ => ["-device"; "qemu-xhci,id=xhci"] ++
         flat_map (fun d => ["-device"; "usb-host,bus=xhci.0,vendorid=0x" +:+ ub_vendor_id d +:+ ",productid=0x" +:+ ub_product_id d]) devices
  end.

Definition boot_char (order : string) : string :=
  if String.eqb order "cdrom" then "d" else if String.eqb order "network" then "n" else "c".

Definition build_qemu_args (env : VmEnv) (config : VmConfig) : list string :=
  ["-daemonize"; "-machine";
   (if vn_aarch64 env then "virt,gic-version=3" else default "q35" (vc_machine_type config) +:+ ",accel=kvm");
   "-cpu"; default "host" (vc_cpu_model config); "-enable-kvm";
   "-smp"; fmt_dec (vc_cpus config); "-m"; fmt_dec (vc_memory_mib config) +:+ "M"] ++
  (if vc_uefi config then
     ["-drive"; "if=pflash,format=raw,readonly=on,file=" +:+ OVMF_CODE;
      "-drive"; "if=pflash,format=raw,file=" +:+ ovmf_vars_path (vc_id config)] else []) ++
  mjoin (imap disk_args (vc_disks config)) ++
  mjoin (imap cdrom_args (vc_cdroms config)) ++
  ["-boot"; "order=" +:+ boot_char (vc_boot_order config)] ++
  mjoin (imap network_args (vc_networks config)) ++
  flat_map (fun d => ["-device"; "vfio-pci,host=" +:+ pd_address d]) (vc_passthrough_devices config) ++
  usb_args (vc_usb_devices config) ++
  ["-qmp"; "unix:" +:+ qmp_socket_path (vc_id config) +:+ ",server,nowait";
   "-vnc"; "unix:" +:+ vnc_socket_path (vc_id config);
   "-serial"; "unix:" +:+ serial_socket_path (vc_id config) +:+ ",server,nowait"] ++
  (let vga := default "virtio" (vc_vga config) in if String.eqb vga "none" then [] else ["-vga"; vga]) ++
  ["-display"; "none"] ++
  default [] (vc_extra_args config).

(** ** Operations *)

Definition statuses (w : VmWorld) (configs : list VmConfig) : list (VmConfig * bool) :=
  (fun c => (migrate_cdroms c, is_running w (vc_id c))) <$> configs.

Definition vm_list (w : VmWorld) : list (VmConfig * bool) := statuses w (load_all (vm_store w)).

Definition vm_get (id : string) : vmm (VmConfig * bool) := fun w =>
  (w, c <-? ok_or (load (vm_store w) id) (VmNotFound id) ;; Ok (migrate_cdroms c, is_running w id)).

Definition check_disk (env : VmEnv) (disk : VmDisk) : result unit VmError :=
  _ <-? validate_vm_disk disk ;;
  guard? vn_exists env (vd_path disk) else InvalidDiskPath ("disk path " +:+ vd_path disk +:+ " does not exist") ;;
  validate_vm_path env (vd_path disk).

Definition check_iso (env : VmEnv) (iso : string) : result unit VmError :=
  _ <-? validate_qemu_drive_value "CD-ROM path" iso ;;
  guard? vn_exists env iso else InvalidDiskPath ("CD-ROM ISO " +:+ iso +:+ " does not exist") ;;
  validate_vm_path env iso.

Definition not_blank (iso : string) : bool := negb (String.eqb (trim iso) "").

Definition requested_cdroms (req : CreateVmRequest) : list string :=
  List.filter not_blank
    (match cr_cdroms req, cr_boot_iso req with
     | Some l, _ => l
     | None, Some iso => if String.eqb iso "" then [] else [iso]
     | None, None => []
     end).

Definition on_given {A E} (o : option A) (check : A -> result unit E) : result unit E :=
  match o with Some x => check x | None => Ok tt end.

Definition new_vm_config (env : VmEnv) (req : CreateVmRequest) (cdroms : list string) : VmConfig :=
  mkVmConfig (vn_uuid env) (cr_name req) (default 1 (cr_cpus req)) (default 1024 (cr_memory_mib req))
    (fst (backfill_disk_sources (losetup_pairs env) (default [] (cr_disks req))))
    (default [mkVmNetwork "user" None None] (cr_networks req)) (default [] (cr_passthrough_devices req))
    (default [] (cr_usb_devices req)) cdroms (head cdroms) (default "disk" (cr_boot_order req)) (default true (cr_uefi req))
    (cr_description req) (default false (cr_autostart req)) None None None None.

Definition check_new_vm (env : VmEnv) (req : CreateVmRequest) (w : VmWorld) : result unit VmError :=
  guard? vn_kvm env else KvmNotAvailable ;;
  guard? negb (existsb (fun v => String.eqb (vc_name v) (cr_name req)) (load_all (vm_store w))) else VmAlreadyExists (cr_name req) ;;
  _ <-? on_given (cr_disks req) (try_each (check_disk env)) ;;
  _ <-? try_each (check_iso env) (requested_cdroms req) ;;
  _ <-? on_given (cr_usb_devices req) validate_usb_passthroughs ;;
  on_given (cr_networks req) validate_vm_network_values.

Definition vm_create (env : VmEnv) (req : CreateVmRequest) : vmm VmConfig :=
  w <~ m_get ;;
  m_lift (check_new_vm env req w) ;;;
  let config := new_vm_config env req (requested_cdroms req) in
  vm_save env (vc_id config) config ;;;
  m_ret config.

(** Whether a request changes the hardware. *)
Definition changes_hardware (req : UpdateVmRequest) : bool :=
  is_some (ur_cpus req) || is_some (ur_memory_mib req) || is_some (ur_disks req) || is_some (ur_networks req)
  || is_some (ur_passthrough_devices req) || is_some (ur_usb_devices req) || is_some (ur_cdroms req) || is_some (ur_boot_iso req)
  || is_some (ur_boot_order req) || is_some (ur_uefi req) || is_some (ur_cpu_model req) || is_some (ur_machine_type req)
  || is_some (ur_vga req) || is_some (ur_extra_args req).

Definition new_cdroms (req : UpdateVmRequest) : option (list string) :=
  List.filter not_blank <$>
    match ur_cdroms req, ur_boot_iso req with
    | Some l, _ => Some l
    | None, Some iso => Some (if String.eqb iso "" then [] else [iso])
    | None, None => None
    end.

Definition given_or {A} (o : option A) (x : option A) : option A := match o with Some _ => o | None => x end.

(** The new record; [Err] is the first check that fails. *)
Definition updated_vm (env : VmEnv) (req : UpdateVmRequest) (running : bool) (c : VmConfig) : result VmConfig VmError :=
  let name := default (vc_name c) (ur_name req) in
  let description := given_or (ur_description req) (vc_description c) in
  let autostart := default (vc_autostart c) (ur_autostart req) in
  if running then
    guard? negb (changes_hardware req) else VmAlreadyRunning "stop the VM before changing hardware settings" ;;
    Ok (mkVmConfig (vc_id c) name (vc_cpus c) (vc_memory_mib c) (vc_disks c) (vc_networks c) (vc_passthrough_devices c)
          (vc_usb_devices c) (vc_cdroms c) (vc_boot_iso c) (vc_boot_order c) (vc_uefi c) description autostart
          (vc_cpu_model c) (vc_machine_type c) (vc_vga c) (vc_extra_args c))
  else
    _ <-? on_given (ur_disks req) (try_each validate_vm_disk) ;;
    _ <-? on_given (ur_networks req) validate_vm_network_values ;;
    _ <-? on_given (ur_usb_devices req) validate_usb_passthroughs ;;
    _ <-? on_given (new_cdroms req) (try_each (check_iso env)) ;;
    Ok (mkVmConfig (vc_id c) name (default (vc_cpus c) (ur_cpus req)) (default (vc_memory_mib c) (ur_memory_mib req))
          (match ur_disks req with Some disks => fst (backfill_disk_sources (losetup_pairs env) disks) | None => vc_disks c end)
          (default (vc_networks c) (ur_networks req)) (default (vc_passthrough_devices c) (ur_passthrough_devices req))
          (default (vc_usb_devices c) (ur_usb_devices req)) (default (vc_cdroms c) (new_cdroms req))
          (match new_cdroms req with Some l => head l | None => vc_boot_iso c end)
          (default (vc_boot_order c) (ur_boot_order req)) (default (vc_uefi c) (ur_uefi req)) description autostart
          (given_or (ur_cpu_model req) (vc_cpu_model c)) (given_or (ur_machine_type req) (vc_machine_type c))
          (given_or (ur_vga req) (vc_vga c)) (given_or (ur_extra_args req) (vc_extra_args c))).

Definition vm_update (env : VmEnv) (req : UpdateVmRequest) : vmm VmConfig :=
  w <~ m_get ;;
  c <~ m_lift (ok_or (load (vm_store w) (ur_id req)) (VmNotFound (ur_id req))) ;;
  config <~ m_lift (updated_vm env req (is_running w (ur_id req)) (migrate_cdroms c)) ;;
  vm_save env (vc_id config) config ;;;
  m_ret config.

Definition vm_delete (env : VmEnv) (id : string) : vmm unit :=
  w <~ m_get ;;
  m_lift (ok_or (load (vm_store w) id) (VmNotFound id)) ;;;
  if is_running w id then m_throw (VmAlreadyRunning "stop the VM before deleting")
  else fun w => match remove (vn_remove env) id (vm_store w) with
                | Ok d => (mkVmWorld d (vm_running w) (vm_silent w), Ok tt)
                | Err e => (w, Err (VmIo e))
                end.

(** The disks of a VM about to start, saved when they have changed. *)
Definition heal_disks (env : VmEnv) (id : string) (config : VmConfig) : vmm VmConfig :=
  let pairs := losetup_pairs env in
  let '(disks1, filled) := backfill_disk_sources pairs (vc_disks config) in
  r <~ m_lift (resolve_disk_paths pairs disks1) ;;
  let config' := with_disks config (fst r) in
  (if filled || snd r then vm_save env id config' else m_ret tt) ;;;
  m_ret config'.

Definition ready_to_start (env : VmEnv) (config : VmConfig) : result unit VmError :=
  _ <-? try_each (check_disk env) (vc_disks config) ;;
  _ <-? try_each (check_iso env) (vc_cdroms config) ;;
  _ <-? validate_vm_network_values (vc_networks config) ;;
  _ <-? validate_bridge_networks env (vc_networks config) ;;
  _ <-? match vn_mkdir env with Some e => Err (VmIo e) | None => Ok tt end ;;
  _ <-? (if vc_uefi config && negb (vn_exists env (ovmf_vars_path (vc_id config)))
         then match vn_copy_vars env with Some e => Err (QemuFailed ("failed to copy OVMF_VARS: " +:+ e)) | None => Ok tt end
         else Ok tt) ;;
  try_each (fun d => match vn_bind env (pd_address d) with
                     | Some e => Err (PassthroughFailed ("VM '" +:+ vc_name config +:+ "': device " +:+ pd_address d +:+ ": " +:+ e))
                     | None => Ok tt
                     end) (vc_passthrough_devices config).

(** QEMU itself: it reports a failure to come up, and keeps running when only
    its monitor cannot be reached. *)
Definition launch (env : VmEnv) (id : string) (config : VmConfig) : vmm unit :=
  m_lift (match vn_spawn env with Some e => Err (QemuFailed e) | None => Ok tt end) ;;;
  m_lift (match vn_qemu_fails env with
          | Some reason => Err (QemuFailed ("VM '" +:+ vc_name config +:+ "' failed to start: " +:+ reason))
          | None => Ok tt
          end) ;;;
  let args := build_qemu_args env config in
  match vn_negotiate env with
  | Some e =>
      m_modify (fun w => mkVmWorld (vm_store w) (vm_running w) ((id, args) :: vm_silent w)) ;;;
      m_throw (QmpError ("VM '" +:+ vc_name config +:+ "' launched but its monitor is unreachable: " +:+ e))
  | None => m_modify (fun w => mkVmWorld (vm_store w) (<[id := args]> (vm_running w)) (vm_silent w))
  end.

Definition vm_start (env : VmEnv) (id : string) : vmm (VmConfig * bool) :=
  w <~ m_get ;;
  c <~ m_lift (ok_or (load (vm_store w) id) (VmNotFound id)) ;;
  let config := migrate_cdroms c in
  if is_running w id then m_throw (VmAlreadyRunning (vc_name config))
  else if negb (vn_kvm env) then m_throw KvmNotAvailable
  else
    config <~ heal_disks env id config ;;
    m_lift (ready_to_start env config) ;;;
    launch env id config ;;;
    m_ret (config, true).

(** The guest is asked to shut down; it does so later, or not at all. *)
Definition vm_stop (env : VmEnv) (id : string) : vmm unit :=
  w <~ m_get ;;
  c <~ m_lift (ok_or (load (vm_store w) id) (VmNotFound id)) ;;
  if negb (is_running w id) then m_throw (VmNotRunning (vc_name c))
  else m_lift (match vn_powerdown env with Some e => Err (QmpError ("system_powerdown: " +:+ e)) | None => Ok tt end).

(** The monitor's socket is removed in any case. *)
Definition vm_kill (env : VmEnv) (id : string) : vmm unit :=
  w <~ m_get ;;
  c <~ m_lift (ok_or (load (vm_store w) id) (VmNotFound id)) ;;
  if negb (is_running w id) then m_throw (VmNotRunning (vc_name c))
  else m_modify (fun w => mkVmWorld (vm_store w) (delete id (vm_running w))
                            (if vn_dies env then vm_silent w else (pair id <$> option_list (vm_running w !! id)) ++ vm_silent w)).

(** At boot; a VM that does not start is reported and left. *)
Definition vm_restore (env : VmEnv) : vmm unit := fun w =>
  (foldl (fun w c => if vc_autostart c then fst (vm_start env (vc_id c) w) else w) w (load_all (vm_store w)), Ok tt).
