(* ===== verification/VmProps.v ===== *)
(** * What a VM runs on

    A reader of QEMU's command line, and from it: the drives and interfaces of a
    VM are exactly those of its record, and the files it opens have passed the
    checks; what runs is what is stored. *)

From Stdlib Require Import ZArith Lia Ascii String.
From stdpp Require Import base list gmap strings.
From S2P Require Import Prelude.
From S2P Require Import RustStr.
From S2P Require Import Text.
From S2P Require Import StateDir.
From S2P Require Import Vm.

(** ** Reading QEMU's command line *)

(** Values are separated by commas; a doubled comma stands for one. *)
Fixpoint qemu_split (l : bytes) : list bytes :=
  let push c r := match r with [] => [[c]] | p :: ps => (c :: p) :: ps end in
  match l with
  | [] => [[]]
  | c :: l' =>
      if Ascii.eqb c "," then
        match l' with
        | d :: l'' => if Ascii.eqb d "," then push c (qemu_split l'') else [] :: qemu_split l'
        | [] => [[]; []]
        end
      else push c (qemu_split l')
  end.

Definition opt_of (piece : string) : string * string := default (piece, "") (split_once "=" piece).

Definition qemu_opts (s : string) : list (string * string) := (fun p => opt_of (of_bytes p)) <$> qemu_split (to_bytes s).

(** Of the options used, two take no value. *)
Fixpoint qemu_read (args : list string) : list (string * string) :=
  match args with
  | [] => []
  | f :: rest =>
      if one_of ["-daemonize"; "-enable-kvm"] f then (f, "") :: qemu_read rest
      else match rest with
           | v :: rest' => (f, v) :: qemu_read rest'
           | [] => [(f, "")]
           end
  end.

(** The values of one option. *)
Definition values_of (flag : string) (args : list string) : list (list (string * string)) :=
  omap (fun fv => if String.eqb fv.1 flag then Some (qemu_opts fv.2) else None) (qemu_read args).

(** ** Pieces *)

Lemma qemu_split_cons c l : c <> ","%char -> qemu_split (c :: l) = match qemu_split l with [] => [[c]] | p :: ps => (c :: p) :: ps end.
Proof. intros H. cbn. by destruct (Ascii.eqb_spec c ","). Qed.

Lemma qemu_split_last p : ","%char ∉ p -> qemu_split p = [p].
Proof. induction p as [|c p IH]; [done|]. intros H. rewrite qemu_split_cons, IH; [done|set_solver..]. Qed.

Lemma qemu_split_app p q l : ","%char ∉ p -> q <> ","%char -> qemu_split (p ++ ","%char :: q :: l) = p :: qemu_split (q :: l).
Proof.
  intros Hp Hq. induction p as [|c p IH]; [cbn; by destruct (Ascii.eqb_spec q ",")|].
  rewrite <- app_comm_cons, qemu_split_cons by set_solver. rewrite IH by set_solver. done.
Qed.

(** A value: its first piece and further ones. *)
Definition opt_tail (pieces : list string) : string := foldr (fun p s => "," +:+ p +:+ s) "" pieces.

Definition piece_ok (p : string) : Prop := p <> "" /\ no_char "," p.

Lemma qemu_opts_tail p pieces : no_char "," p -> Forall piece_ok pieces -> qemu_opts (p +:+ opt_tail pieces) = opt_of <$> p :: pieces.
Proof.
  intros Hp HF. unfold qemu_opts. change (fun p0 => opt_of (of_bytes p0)) with (opt_of ∘ of_bytes). rewrite list_fmap_compose. f_equal.
  revert p Hp. induction HF as [|q qs [Hne Hq] HF IH]; intros p Hp; cbn [opt_tail foldr].
  - rewrite string_app_nil, qemu_split_last by done. cbn. by rewrite of_to_bytes.
  - fold (opt_tail qs). rewrite to_bytes_app. change (to_bytes ("," +:+ q +:+ opt_tail qs)) with (","%char :: to_bytes (q +:+ opt_tail qs)).
    destruct q as [|c q']; [done|]. change (to_bytes (String c q' +:+ opt_tail qs)) with (c :: to_bytes (q' +:+ opt_tail qs)).
    apply no_char_cons in Hq as Hcq. rewrite qemu_split_app by (try done; apply not_eq_sym, Hcq).
    change (c :: to_bytes (q' +:+ opt_tail qs)) with (to_bytes (String c q' +:+ opt_tail qs)). cbn [fmap list_fmap].
    rewrite of_to_bytes. f_equal. by apply IH.
Qed.

(** ** What the record says *)

Definition given {A} (key : string) (f : A -> string) (o : option A) : list (string * string) :=
  match o with Some x => [(key, f x)] | None => [] end.

Definition positive_z (o : option Z) : option Z := match o with Some v => if 0 <? v then Some v else None | None => None end.

Definition drive_of (i : nat) (d : VmDisk) : list (string * string) :=
  [("file", vd_path d); ("format", "raw"); ("if", if String.eqb (vd_interface d) "ide" then "ide" else "none");
   ("id", "drive" +:+ fmt_dec (Z.of_nat i))] ++
  (if vd_readonly d then [("readonly", "on")] else []) ++
  given "cache" id (vd_cache d) ++ given "aio" id (vd_aio d) ++ given "discard" id (vd_discard d) ++
  given "throttling.iops-read" fmt_dec (positive_z (vd_iops_rd d)) ++
  given "throttling.iops-write" fmt_dec (positive_z (vd_iops_wr d)).

Definition cdrom_of (i : nat) (iso : string) : list (string * string) :=
  [("file", iso); ("media", "cdrom"); ("if", "ide"); ("index", fmt_dec (Z.of_nat i)); ("readonly", "on"); ("id", "cd" +:+ fmt_dec (Z.of_nat i))].

Definition firmware_of (c : VmConfig) : list (list (string * string)) :=
  if vc_uefi c then
    [[("if", "pflash"); ("format", "raw"); ("readonly", "on"); ("file", OVMF_CODE)];
     [("if", "pflash"); ("format", "raw"); ("file", ovmf_vars_path (vc_id c))]]
  else [].

Definition drives_of (c : VmConfig) : list (list (string * string)) :=
  firmware_of c ++ imap drive_of (vc_disks c) ++ imap cdrom_of (vc_cdroms c).

Definition netdev_of (i : nat) (n : VmNetwork) : list (string * string) :=
  if String.eqb (vn_mode n) "bridge"
  then [("bridge", ""); ("id", "net" +:+ fmt_dec (Z.of_nat i)); ("br", default "br0" (vn_bridge n));
        ("helper", "/run/wrappers/bin/qemu-bridge-helper")]
  else [("user", ""); ("id", "net" +:+ fmt_dec (Z.of_nat i))].

Definition device_of_disk (i : nat) (d : VmDisk) : list (list (string * string)) :=
  if String.eqb (vd_interface d) "virtio" || String.eqb (vd_interface d) ""
  then [[("virtio-blk-pci", ""); ("drive", "drive" +:+ fmt_dec (Z.of_nat i))]] else [].

Definition device_of_net (i : nat) (n : VmNetwork) : list (string * string) :=
  [("virtio-net-pci", ""); ("netdev", "net" +:+ fmt_dec (Z.of_nat i))] ++ given "mac" id (vn_mac n).

Definition device_of_usb (d : UsbPassthrough) : list (string * string) :=
  [("usb-host", ""); ("bus", "xhci.0"); ("vendorid", "0x" +:+ ub_vendor_id d); ("productid", "0x" +:+ ub_product_id d)].

Definition devices_of (c : VmConfig) : list (list (string * string)) :=
  mjoin (imap device_of_disk (vc_disks c)) ++ imap device_of_net (vc_networks c) ++
  ((fun d => [("vfio-pci", ""); ("host", pd_address d)]) <$> vc_passthrough_devices c) ++
  (match vc_usb_devices c with [] => [] | us => [("qemu-xhci", ""); ("id", "xhci")] :: (device_of_usb <$> us) end).

(** A record whose disks, CD-ROMs, networks and USB devices have passed the
    service's checks, and whose id and PCI addresses, which it does not check, have
    no comma. *)
Record vm_plain (c : VmConfig) : Prop := {
  vp_id : no_char "," (vc_id c);
  vp_disks : Forall (fun d => validate_vm_disk d = Ok tt) (vc_disks c);
  vp_cdroms : Forall (fun iso => validate_qemu_drive_value "CD-ROM path" iso = Ok tt) (vc_cdroms c);
  vp_networks : Forall (fun n => validate_vm_network n = Ok tt) (vc_networks c);
  vp_usb : Forall (fun d => validate_usb_id (ub_vendor_id d) = Ok tt /\ validate_usb_id (ub_product_id d) = Ok tt) (vc_usb_devices c);
  vp_passthrough : Forall (fun d => no_char "," (pd_address d)) (vc_passthrough_devices c);
}.

(** ** Reading back *)

Lemma opt_of_key k v : no_char "=" k -> opt_of (k +:+ "=" +:+ v) = (k, v).
Proof. intros H. unfold opt_of. change ("=" +:+ v) with (String "=" v). by rewrite split_once_app. Qed.

(** With the key and the sign in one literal. *)
Lemma opt_of_lit k k' v : k' = k +:+ "=" -> bool_decide ("="%char ∉ to_bytes k) = true -> opt_of (k' +:+ v) = (k, v).
Proof. intros -> H. rewrite string_app_assoc. by apply opt_of_key, no_char_dec. Qed.

Lemma nat_no c i : is_ascii_digit c = false -> no_char c (fmt_dec (Z.of_nat i)).
Proof. apply fmt_dec_no. lia. Qed.

Lemma piece_key k v : k <> "" -> no_char "," k -> no_char "," v -> piece_ok (k +:+ v).
Proof. intros Hk H1 H2. split; [by destruct k|]. by apply no_char_app. Qed.

Lemma drive_value_plain f v : validate_qemu_drive_value f v = Ok tt -> no_char "," v.
Proof.
  unfold validate_qemu_drive_value. destruct (str_contains_char "," v) eqn:E; [done|]. intros _. by apply contains_char_no.
Qed.

Lemma one_of_plain vs v : forallb (fun x => bool_decide (","%char ∉ to_bytes x)) vs = true -> one_of vs v = true -> no_char "," v.
Proof.
  unfold one_of. rewrite forallb_forall, existsb_exists. intros H (x & Hx & E). apply String.eqb_eq in E as ->.
  apply H, bool_decide_eq_true in Hx. done.
Qed.

Lemma supported_plain vs o v : forallb (fun x => bool_decide (","%char ∉ to_bytes x)) vs = true -> unsupported vs o = false -> o = Some v ->
  no_char "," v.
Proof. intros H Hu ->. cbn in Hu. apply negb_false_iff in Hu. by eapply one_of_plain. Qed.

Record disk_plain (d : VmDisk) : Prop := {
  dp_path : no_char "," (vd_path d);
  dp_cache : forall v, vd_cache d = Some v -> no_char "," v;
  dp_aio : forall v, vd_aio d = Some v -> no_char "," v;
  dp_discard : forall v, vd_discard d = Some v -> no_char "," v;
}.

Lemma valid_disk_plain d : validate_vm_disk d = Ok tt -> disk_plain d.
Proof.
  unfold validate_vm_disk, result_bind. destruct (validate_qemu_drive_value _ _) as [[]|] eqn:E1; [|done].
  destruct (negb _); [done|]. destruct (unsupported _ (vd_cache d)) eqn:E2; [done|].
  destruct (unsupported _ (vd_aio d)) eqn:E3; [done|]. destruct (unsupported _ (vd_discard d)) eqn:E4; [done|]. intros _.
  split; [by eapply drive_value_plain|..]; intros v Hv; [eapply supported_plain, Hv; [|exact E2]|eapply supported_plain, Hv; [|exact E3]|eapply supported_plain, Hv; [|exact E4]]; reflexivity.
Qed.

Lemma opt_tail_app a b : opt_tail (a ++ b) = opt_tail a +:+ opt_tail b.
Proof. induction a as [|p a IH]; [done|]. cbn [opt_tail foldr app]. fold (opt_tail (a ++ b)). fold (opt_tail a). rewrite IH. by rewrite !string_app_assoc. Qed.

(** An optional piece: its text, its value, and that it is a piece. *)
Definition opt_piece {A} (key : string) (f : A -> string) (o : option A) : list string := option_list ((fun x => key +:+ "=" +:+ f x) <$> o).

Lemma opt_piece_text {A} key (f : A -> string) o : opt_text o (fun x => "," +:+ key +:+ "=" +:+ f x) = opt_tail (opt_piece key f o).
Proof. destruct o as [x|]; [|done]. cbn. by rewrite string_app_nil. Qed.

Lemma opt_piece_value {A} key (f : A -> string) o : no_char "=" key -> opt_of <$> opt_piece key f o = given key f o.
Proof. intros H. destruct o as [x|]; [|done]. change (opt_of <$> opt_piece key f (Some x)) with [opt_of (key +:+ "=" +:+ f x)]. by rewrite opt_of_key. Qed.

Lemma opt_piece_ok {A} key (f : A -> string) o : key <> "" -> no_char "," key -> (forall x, o = Some x -> no_char "," (f x)) ->
  Forall piece_ok (opt_piece key f o).
Proof.
  intros Hk Hn Hf. destruct o as [x|]; [|constructor]. constructor; [|constructor]. apply piece_key; [done..|].
  apply no_char_app. split; [apply no_char_dec; reflexivity|by apply Hf].
Qed.

Lemma throttle_piece key o : throttle_text ("," +:+ key +:+ "=") o = opt_tail (opt_piece key fmt_dec (positive_z o)).
Proof.
  rewrite <- opt_piece_text. destruct o as [v|]; [|done]. cbn. destruct (0 <? v); [|done]. cbn. by rewrite !string_app_assoc.
Qed.

Lemma positive_plain o v : positive_z o = Some v -> no_char "," (fmt_dec v).
Proof. destruct o as [z|]; [|done]. cbn. destruct (0 <? z) eqn:E; [|done]. intros [= <-]. apply fmt_dec_no; [lia|done]. Qed.

Definition drive_pieces (i : nat) (d : VmDisk) : list string :=
  ["format=raw"; "if=" +:+ (if String.eqb (vd_interface d) "ide" then "ide" else "none"); "id=drive" +:+ fmt_dec (Z.of_nat i)]
  ++ (if vd_readonly d then ["readonly=on"] else [])
  ++ opt_piece "cache" id (vd_cache d) ++ opt_piece "aio" id (vd_aio d) ++ opt_piece "discard" id (vd_discard d)
  ++ opt_piece "throttling.iops-read" fmt_dec (positive_z (vd_iops_rd d))
  ++ opt_piece "throttling.iops-write" fmt_dec (positive_z (vd_iops_wr d)).

Lemma drive_text_pieces i d : drive_text i d = ("file=" +:+ vd_path d) +:+ opt_tail (drive_pieces i d).
Proof.
  unfold drive_pieces. rewrite !opt_tail_app, <- !throttle_piece, <- !opt_piece_text. unfold drive_text.
  rewrite !string_app_assoc. do 2 f_equal. cbn [opt_tail foldr]. rewrite !string_app_assoc.
  replace (if vd_readonly d then ",readonly=on" else "") with (opt_tail (if vd_readonly d then ["readonly=on"] else [])) by (by destruct (vd_readonly d)).
  reflexivity.
Qed.

Lemma drive_reads_back i d : disk_plain d -> qemu_opts (drive_text i d) = drive_of i d.
Proof.
  intros [Hp Hc Ha Hd]. rewrite drive_text_pieces, qemu_opts_tail.
  - unfold drive_pieces, drive_of. rewrite fmap_cons, !fmap_app, !opt_piece_value by (apply no_char_dec; reflexivity).
    rewrite (opt_of_lit "file" "file=") by reflexivity. cbn [app fmap list_fmap].
    change ("id=drive" +:+ fmt_dec (Z.of_nat i)) with ("id=" +:+ ("drive" +:+ fmt_dec (Z.of_nat i))).
    rewrite (opt_of_lit "id" "id=") by reflexivity.
    by destruct (vd_readonly d), (String.eqb (vd_interface d) "ide").
  - apply no_char_app. split; [apply no_char_dec; reflexivity|done].
  - unfold drive_pieces. rewrite !Forall_app. split_and!; try (apply opt_piece_ok; [done|apply no_char_dec; reflexivity|eauto using positive_plain]).
    + repeat constructor; try done; try (apply no_char_dec; reflexivity).
      * by destruct (String.eqb _ _); apply no_char_dec.
      * rewrite no_char_app. split; [apply no_char_dec; reflexivity|by apply nat_no].
    + destruct (vd_readonly d); repeat constructor; [done|by apply no_char_dec].
Qed.

Lemma literal_piece p : bool_decide (","%char ∉ to_bytes p) = true -> p <> "" -> piece_ok p.
Proof. intros H Hne. split; [done|by apply no_char_dec]. Qed.

Lemma number_piece k i : bool_decide (","%char ∉ to_bytes k) = true -> k <> "" -> piece_ok (k +:+ fmt_dec (Z.of_nat i)).
Proof. intros H Hne. apply piece_key; [done|by apply no_char_dec|by apply nat_no]. Qed.

Ltac text := f_equal; cbn [opt_tail foldr]; rewrite ?string_app_assoc, ?string_app_nil; reflexivity.

Ltac pieces :=
  repeat first [apply Forall_nil_2
    | apply Forall_cons; split;
      [first [by apply literal_piece | by apply number_piece | by (apply piece_key; [done|by apply no_char_dec|first [assumption|apply no_char_app; split; [by apply no_char_dec|assumption]]])]|]].

Lemma cdrom_reads_back i iso : no_char "," iso ->
  qemu_opts ("file=" +:+ iso +:+ ",media=cdrom,if=ide,index=" +:+ fmt_dec (Z.of_nat i) +:+ ",readonly=on,id=cd" +:+ fmt_dec (Z.of_nat i)) = cdrom_of i iso.
Proof.
  intros H. set (n := fmt_dec (Z.of_nat i)).
  transitivity (qemu_opts (("file=" +:+ iso) +:+ opt_tail ["media=cdrom"; "if=ide"; "index=" +:+ n; "readonly=on"; "id=cd" +:+ n])).
  { text. }
  rewrite qemu_opts_tail.
  - cbn [fmap list_fmap]. rewrite (opt_of_lit "file" "file=") by reflexivity. rewrite (opt_of_lit "index" "index=") by reflexivity.
    change ("id=cd" +:+ n) with ("id=" +:+ ("cd" +:+ n)). rewrite (opt_of_lit "id" "id=") by reflexivity. reflexivity.
  - apply no_char_app. split; [by apply no_char_dec|done].
  - pieces.
Qed.

Lemma bridge_plain b : forallb bridge_char (chars b) = true -> no_char "," b.
Proof.
  intros H%all_chars_class. eapply (class_no_char (fun c => is_ascii_alphanumeric c || existsb (Ascii.eqb c) ["."; "_"; "-"]%char)); done.
Qed.

Lemma mac_plain mac : valid_mac mac = true -> no_char "," mac.
Proof.
  unfold valid_mac. intros [_ H]%andb_true_iff. rewrite forallb_forall in H.
  assert (Forall (fun p => no_char "," p) (str_split ":" mac)) as HF.
  { apply Forall_forall. intros p Hp. apply list_elem_of_In, H in Hp. unfold hex_octet in Hp. apply andb_true_iff in Hp as [_ Hp].
    apply all_chars_class in Hp. by eapply (class_no_char is_ascii_hexdigit). }
  rewrite <- (split_join_str ":" mac). apply join_no_char; [by apply no_char_dec|done].
Qed.

Record net_plain (n : VmNetwork) : Prop := {
  np_bridge : no_char "," (default "br0" (vn_bridge n));
  np_mac : forall m, vn_mac n = Some m -> no_char "," m;
}.

Lemma valid_net_plain n : validate_vm_network n = Ok tt -> net_plain n.
Proof.
  unfold validate_vm_network. destruct (negb _); [done|]. destruct (vn_bridge n) as [b|] eqn:Eb.
  - destruct (String.eqb b "" || _) eqn:E1; [done|]. cbn [orb]. destruct (negb (forallb bridge_char (chars b))) eqn:E2; [done|].
    apply negb_false_iff in E2. destruct (vn_mac n) as [m|] eqn:Em; [destruct (negb (valid_mac m)) eqn:E3; [done|]|]; intros _; split;
      rewrite ?Eb; try (by apply bridge_plain); intros m' Hm'; rewrite Em in Hm'; simplify_eq. by apply mac_plain, negb_false_iff.
  - destruct (vn_mac n) as [m|] eqn:Em; [destruct (negb (valid_mac m)) eqn:E3; [done|]|]; intros _; split;
      rewrite ?Eb; try (by apply no_char_dec); intros m' Hm'; rewrite Em in Hm'; simplify_eq. by apply mac_plain, negb_false_iff.
Qed.

Lemma netdev_reads_back i n : net_plain n ->
  qemu_opts (if String.eqb (vn_mode n) "bridge"
    then "bridge,id=net" +:+ fmt_dec (Z.of_nat i) +:+ ",br=" +:+ default "br0" (vn_bridge n) +:+ ",helper=/run/wrappers/bin/qemu-bridge-helper"
    else "user,id=net" +:+ fmt_dec (Z.of_nat i)) = netdev_of i n.
Proof.
  intros [Hb _]. unfold netdev_of. set (k := fmt_dec (Z.of_nat i)). destruct (String.eqb _ _).
  - transitivity (qemu_opts ("bridge" +:+ opt_tail ["id=net" +:+ k; "br=" +:+ default "br0" (vn_bridge n); "helper=/run/wrappers/bin/qemu-bridge-helper"])).
    { text. }
    rewrite qemu_opts_tail; [|by apply no_char_dec|].
    + cbn [fmap list_fmap]. change ("id=net" +:+ k) with ("id=" +:+ ("net" +:+ k)).
      rewrite (opt_of_lit "id" "id="), (opt_of_lit "br" "br=") by reflexivity. reflexivity.
    + pieces.
  - transitivity (qemu_opts ("user" +:+ opt_tail ["id=net" +:+ k])); [text|].
    rewrite qemu_opts_tail; [|by apply no_char_dec|pieces].
    cbn [fmap list_fmap]. change ("id=net" +:+ k) with ("id=" +:+ ("net" +:+ k)). rewrite (opt_of_lit "id" "id=") by reflexivity. reflexivity.
Qed.

Lemma disk_device_reads_back i : qemu_opts ("virtio-blk-pci,drive=drive" +:+ fmt_dec (Z.of_nat i)) = [("virtio-blk-pci", ""); ("drive", "drive" +:+ fmt_dec (Z.of_nat i))].
Proof.
  set (k := fmt_dec (Z.of_nat i)).
  transitivity (qemu_opts ("virtio-blk-pci" +:+ opt_tail ["drive=drive" +:+ k])); [text|].
  rewrite qemu_opts_tail; [|by apply no_char_dec|pieces].
  cbn [fmap list_fmap]. change ("drive=drive" +:+ k) with ("drive=" +:+ ("drive" +:+ k)). by rewrite (opt_of_lit "drive" "drive=") by reflexivity.
Qed.

Lemma net_device_reads_back i n : net_plain n ->
  qemu_opts ("virtio-net-pci,netdev=net" +:+ fmt_dec (Z.of_nat i) +:+ opt_text (vn_mac n) (fun m => ",mac=" +:+ m)) = device_of_net i n.
Proof.
  intros [_ Hm]. set (k := fmt_dec (Z.of_nat i)).
  transitivity (qemu_opts ("virtio-net-pci" +:+ opt_tail (["netdev=net" +:+ k] ++ opt_piece "mac" id (vn_mac n)))).
  { f_equal. rewrite opt_tail_app, <- opt_piece_text. cbn [opt_tail foldr]. rewrite ?string_app_assoc. reflexivity. }
  rewrite qemu_opts_tail; [|by apply no_char_dec|].
  - rewrite fmap_cons, fmap_app, opt_piece_value by (by apply no_char_dec). cbn [fmap list_fmap].
    change ("netdev=net" +:+ k) with ("netdev=" +:+ ("net" +:+ k)). by rewrite (opt_of_lit "netdev" "netdev=") by reflexivity.
  - apply Forall_app. split; [pieces|]. apply opt_piece_ok; [done|by apply no_char_dec|done].
Qed.

Lemma usb_id_plain i : validate_usb_id i = Ok tt -> no_char "," i.
Proof.
  unfold validate_usb_id. destruct (negb _); [done|]. cbn [orb]. destruct (negb (forallb _ _)) eqn:E; [done|]. intros _.
  apply negb_false_iff in E. apply all_chars_class in E. by eapply (class_no_char is_ascii_hexdigit).
Qed.

Lemma usb_device_reads_back d : no_char "," (ub_vendor_id d) -> no_char "," (ub_product_id d) ->
  qemu_opts ("usb-host,bus=xhci.0,vendorid=0x" +:+ ub_vendor_id d +:+ ",productid=0x" +:+ ub_product_id d) = device_of_usb d.
Proof.
  intros Hv Hp.
  transitivity (qemu_opts ("usb-host" +:+ opt_tail ["bus=xhci.0"; "vendorid=0x" +:+ ub_vendor_id d; "productid=0x" +:+ ub_product_id d])).
  { text. }
  rewrite qemu_opts_tail; [|by apply no_char_dec|].
  - cbn [fmap list_fmap]. change ("vendorid=0x" +:+ ub_vendor_id d) with ("vendorid=" +:+ ("0x" +:+ ub_vendor_id d)).
    change ("productid=0x" +:+ ub_product_id d) with ("productid=" +:+ ("0x" +:+ ub_product_id d)).
    rewrite (opt_of_lit "vendorid" "vendorid="), (opt_of_lit "productid" "productid=") by reflexivity. reflexivity.
  - pieces.
Qed.

Lemma vfio_reads_back a : no_char "," a -> qemu_opts ("vfio-pci,host=" +:+ a) = [("vfio-pci", ""); ("host", a)].
Proof.
  intros H. transitivity (qemu_opts ("vfio-pci" +:+ opt_tail ["host=" +:+ a])); [text|].
  rewrite qemu_opts_tail; [|by apply no_char_dec|pieces].
  cbn [fmap list_fmap]. by rewrite (opt_of_lit "host" "host=") by reflexivity.
Qed.

(** ** The options of a command line *)

Definition flat (ps : list (string * string)) : list string := flat_map (fun fv => [fv.1; fv.2]) ps.

Lemma flat_app a b : flat (a ++ b) = flat a ++ flat b.
Proof. apply flat_map_app. Qed.

Lemma read_flat ps rest : Forall (fun fv => one_of ["-daemonize"; "-enable-kvm"] fv.1 = false) ps ->
  qemu_read (flat ps ++ rest) = ps ++ qemu_read rest.
Proof. induction 1 as [|[f v] ps Hf HF IH]; [done|]. cbn [flat flat_map app fst snd] in *. cbn [qemu_read]. cbn [fst] in Hf. rewrite Hf. f_equal. apply IH. Qed.

Lemma flat_join {A} (f : nat -> A -> list string) g l : (forall i x, f i x = flat (g i x)) -> mjoin (imap f l) = flat (mjoin (imap g l)).
Proof.
  intros H. revert f g H. induction l as [|x l IH]; intros f g H; [done|]. cbn. rewrite flat_app, H. f_equal. apply IH. intros i y. apply H.
Qed.

Lemma flat_map_flat {A} (f : A -> list string) g l : (forall x, f x = flat (g x)) -> flat_map f l = flat (flat_map g l).
Proof. intros H. induction l as [|x l IH]; [done|]. cbn. by rewrite flat_app, H, IH. Qed.

Definition disk_pairs (i : nat) (d : VmDisk) : list (string * string) :=
  [("-drive", drive_text i d)] ++
  (if String.eqb (vd_interface d) "virtio" || String.eqb (vd_interface d) ""
   then [("-device", "virtio-blk-pci,drive=drive" +:+ fmt_dec (Z.of_nat i))] else []).

Definition cdrom_pairs (i : nat) (iso : string) : list (string * string) :=
  [("-drive", "file=" +:+ iso +:+ ",media=cdrom,if=ide,index=" +:+ fmt_dec (Z.of_nat i) +:+ ",readonly=on,id=cd" +:+ fmt_dec (Z.of_nat i))].

Definition net_pairs (i : nat) (n : VmNetwork) : list (string * string) :=
  [("-netdev", if String.eqb (vn_mode n) "bridge"
    then "bridge,id=net" +:+ fmt_dec (Z.of_nat i) +:+ ",br=" +:+ default "br0" (vn_bridge n) +:+ ",helper=/run/wrappers/bin/qemu-bridge-helper"
    else "user,id=net" +:+ fmt_dec (Z.of_nat i));
   ("-device", "virtio-net-pci,netdev=net" +:+ fmt_dec (Z.of_nat i) +:+ opt_text (vn_mac n) (fun m => ",mac=" +:+ m))].

Definition usb_pairs (us : list UsbPassthrough) : list (string * string) :=
  match us with
  | [] => []
  | _ => ("-device", "qemu-xhci,id=xhci") ::
         flat_map (fun d => [("-device", "usb-host,bus=xhci.0,vendorid=0x" +:+ ub_vendor_id d +:+ ",productid=0x" +:+ ub_product_id d)]) us
  end.

Definition first_pairs (env : VmEnv) (c : VmConfig) : list (string * string) :=
  [("-machine", if vn_aarch64 env then "virt,gic-version=3" else default "q35" (vc_machine_type c) +:+ ",accel=kvm");
   ("-cpu", default "host" (vc_cpu_model c))].

Definition last_pairs (c : VmConfig) : list (string * string) :=
  [("-qmp", "unix:" +:+ qmp_socket_path (vc_id c) +:+ ",server,nowait"); ("-vnc", "unix:" +:+ vnc_socket_path (vc_id c));
   ("-serial", "unix:" +:+ serial_socket_path (vc_id c) +:+ ",server,nowait")] ++
  (let vga := default "virtio" (vc_vga c) in if String.eqb vga "none" then [] else [("-vga", vga)]) ++ [("-display", "none")].

Definition middle_pairs (c : VmConfig) : list (string * string) :=
  [("-smp", fmt_dec (vc_cpus c)); ("-m", fmt_dec (vc_memory_mib c) +:+ "M")] ++
  (if vc_uefi c then
     [("-drive", "if=pflash,format=raw,readonly=on,file=" +:+ OVMF_CODE); ("-drive", "if=pflash,format=raw,file=" +:+ ovmf_vars_path (vc_id c))] else []) ++
  mjoin (imap disk_pairs (vc_disks c)) ++ mjoin (imap cdrom_pairs (vc_cdroms c)) ++ [("-boot", "order=" +:+ boot_char (vc_boot_order c))] ++
  mjoin (imap net_pairs (vc_networks c)) ++
  flat_map (fun d => [("-device", "vfio-pci,host=" +:+ pd_address d)]) (vc_passthrough_devices c) ++ usb_pairs (vc_usb_devices c) ++ last_pairs c.

Lemma disk_args_flat i d : disk_args i d = flat (disk_pairs i d).
Proof. unfold disk_args, disk_pairs. by destruct (_ || _). Qed.

Lemma usb_args_flat us : usb_args us = flat (usb_pairs us).
Proof.
  destruct us as [|u us]; [done|]. unfold usb_args, usb_pairs.
  rewrite (flat_map_flat _ (fun d => [("-device", "usb-host,bus=xhci.0,vendorid=0x" +:+ ub_vendor_id d +:+ ",productid=0x" +:+ ub_product_id d)])) by done.
  reflexivity.
Qed.

Lemma build_flat env c :
  build_qemu_args env c = "-daemonize" :: flat (first_pairs env c) ++ "-enable-kvm" :: flat (middle_pairs c) ++ default [] (vc_extra_args c).
Proof.
  unfold build_qemu_args, middle_pairs, last_pairs. generalize (default [] (vc_extra_args c)) as extra. intros extra. rewrite !flat_app, <- usb_args_flat.
  rewrite (flat_join _ disk_pairs) by apply disk_args_flat. rewrite (flat_join cdrom_args cdrom_pairs), (flat_join network_args net_pairs) by done.
  rewrite (flat_map_flat (fun d => ["-device"; "vfio-pci,host=" +:+ pd_address d]) (fun d => [("-device", "vfio-pci,host=" +:+ pd_address d)])) by done.
  destruct (vc_uefi c), (String.eqb (default "virtio" (vc_vga c)) "none"); cbn [flat flat_map app first_pairs fst snd]; repeat (rewrite <- app_assoc; cbn [app]); reflexivity.
Qed.

Definition takes_value (fv : string * string) : Prop := one_of ["-daemonize"; "-enable-kvm"] fv.1 = false.

Lemma Forall_join_imap {A B} (P : B -> Prop) (g : nat -> A -> list B) l : (forall i x, Forall P (g i x)) -> Forall P (mjoin (imap g l)).
Proof. revert g. induction l as [|x l IH]; intros g H; [constructor|]. cbn. apply Forall_app. split; [apply H|apply IH; intros i y; apply H]. Qed.

Lemma Forall_flat_map_all {A B} (P : B -> Prop) (g : A -> list B) l : (forall x, Forall P (g x)) -> Forall P (flat_map g l).
Proof. intros H. induction l as [|x l IH]; [constructor|]. cbn. by apply Forall_app. Qed.

Lemma middle_takes_value c : Forall takes_value (middle_pairs c).
Proof.
  unfold middle_pairs, last_pairs. rewrite !Forall_app. split_and!; try (by repeat constructor).
  - destruct (vc_uefi c); by repeat constructor.
  - apply Forall_join_imap. intros i d. unfold disk_pairs. destruct (_ || _); by repeat constructor.
  - apply Forall_join_imap. intros i d. by repeat constructor.
  - apply Forall_join_imap. intros i d. by repeat constructor.
  - apply Forall_flat_map_all. intros d. by repeat constructor.
  - unfold usb_pairs. destruct (vc_usb_devices c); [constructor|]. constructor; [done|]. apply Forall_flat_map_all. intros d. by repeat constructor.
  - cbn zeta. destruct (String.eqb _ _); by repeat constructor.
Qed.

Lemma build_read env c :
  qemu_read (build_qemu_args env c) =
  ("-daemonize", "") :: first_pairs env c ++ ("-enable-kvm", "") :: middle_pairs c ++ qemu_read (default [] (vc_extra_args c)).
Proof.
  rewrite build_flat. cbn [qemu_read]. cbn [one_of existsb]. change (str_eqb "-daemonize" "-daemonize") with true.
  cbn [orb]. f_equal. rewrite read_flat by (by repeat constructor). f_equal. cbn [qemu_read].
  change (one_of ["-daemonize"; "-enable-kvm"] "-enable-kvm") with true. cbv iota. f_equal. by rewrite read_flat by apply middle_takes_value.
Qed.

Definition vals (flag : string) (ps : list (string * string)) : list (list (string * string)) :=
  omap (fun fv => if String.eqb fv.1 flag then Some (qemu_opts fv.2) else None) ps.

Lemma vals_app flag a b : vals flag (a ++ b) = vals flag a ++ vals flag b.
Proof. apply omap_app. Qed.

Lemma vals_join {A} flag (g : nat -> A -> list (string * string)) k (l : list A) :
  (forall i x, x ∈ l -> vals flag (g i x) = k i x) -> vals flag (mjoin (imap g l)) = mjoin (imap k l).
Proof.
  revert g k. induction l as [|x l IH]; intros g k H; [done|].
  change (vals flag (g 0%nat x ++ mjoin (imap (g ∘ S) l)) = k 0%nat x ++ mjoin (imap (k ∘ S) l)).
  rewrite vals_app. f_equal; [apply H; by left|]. apply IH. intros i y Hy. apply H. by right.
Qed.

Lemma vals_flat_map {A} flag (g : A -> list (string * string)) k (l : list A) :
  (forall x, x ∈ l -> vals flag (g x) = k x) -> vals flag (flat_map g l) = flat_map k l.
Proof.
  induction l as [|x l IH]; intros H; [done|]. cbn [flat_map]. rewrite vals_app. f_equal; [apply H; by left|]. apply IH. intros y Hy. apply H. by right.
Qed.

Lemma join_single {A B} (k : nat -> A -> B) l : mjoin (imap (fun i x => [k i x]) l) = imap k l.
Proof. revert k. induction l as [|x l IH]; intros k; [done|]. cbn. f_equal. apply IH. Qed.

Lemma join_empty {A B} (l : list A) : mjoin (imap (fun _ _ => @nil B) l) = [].
Proof. induction l as [|x l IH]; [done|]. cbn. exact IH. Qed.

Lemma flat_map_single {A B} (k : A -> B) l : flat_map (fun x => [k x]) l = k <$> l.
Proof. induction l as [|x l IH]; [done|]. cbn. by rewrite IH. Qed.

Lemma flat_map_empty {A B} (l : list A) : flat_map (fun _ => @nil B) l = [].
Proof. by induction l. Qed.

Lemma values_of_middle env flag c : String.eqb "-daemonize" flag = false -> String.eqb "-enable-kvm" flag = false ->
  String.eqb "-machine" flag = false -> String.eqb "-cpu" flag = false ->
  values_of flag (build_qemu_args env c) = vals flag (middle_pairs c) ++ values_of flag (default [] (vc_extra_args c)).
Proof.
  intros H1 H2 H3 H4. unfold values_of. rewrite build_read. unfold first_pairs. cbn [omap list_omap app fst snd].
  rewrite H1, H2, H3, H4. apply omap_app.
Qed.

Lemma firmware_reads_back vid : no_char "," vid ->
  qemu_opts ("if=pflash,format=raw,file=" +:+ ovmf_vars_path vid) = [("if", "pflash"); ("format", "raw"); ("file", ovmf_vars_path vid)].
Proof.
  intros H. transitivity (qemu_opts ("if=pflash" +:+ opt_tail ["format=raw"; "file=" +:+ ovmf_vars_path vid])); [text|].
  assert (no_char "," (ovmf_vars_path vid)) by (unfold ovmf_vars_path; rewrite !no_char_app; split_and!; first [done|by apply no_char_dec]).
  rewrite qemu_opts_tail; [|by apply no_char_dec|pieces]. cbn [fmap list_fmap]. by rewrite (opt_of_lit "file" "file=") by reflexivity.
Qed.

Lemma vals_usb_other flag us : String.eqb "-device" flag = false -> vals flag (usb_pairs us) = [].
Proof.
  intros Hf. assert (forall ps, Forall (fun fv => fv.1 = "-device") ps -> vals flag ps = []) as H.
  { induction 1 as [|[f v] ps Hfv HF IH]; [done|]. cbn in Hfv. subst f. cbn [vals omap list_omap fst snd]. by rewrite Hf. }
  apply H. destruct us as [|u us]; [constructor|]. constructor; [done|]. apply Forall_flat_map_all. intros d. by repeat constructor.
Qed.

Lemma vals_usb us : Forall (fun d => validate_usb_id (ub_vendor_id d) = Ok tt /\ validate_usb_id (ub_product_id d) = Ok tt) us ->
  vals "-device" (usb_pairs us) = match us with [] => [] | us => [("qemu-xhci", ""); ("id", "xhci")] :: (device_of_usb <$> us) end.
Proof.
  intros HF. destruct us as [|u us]; [done|]. unfold usb_pairs. set (l := u :: us) in *.
  change (?p :: flat_map ?g l) with ([p] ++ flat_map g l). rewrite vals_app, (vals_flat_map _ _ (fun d => [device_of_usb d])).
  - by rewrite flat_map_single.
  - intros d Hd. rewrite Forall_forall in HF. apply HF in Hd as [Hv Hp]. unfold vals. cbn [omap list_omap fst snd].
    rewrite usb_device_reads_back by (by apply usb_id_plain). done.
Qed.

Lemma vals_last flag c : one_of ["-qmp"; "-vnc"; "-serial"; "-vga"; "-display"] flag = false -> vals flag (last_pairs c) = [].
Proof.
  unfold one_of, str_eqb. cbn [existsb]. rewrite !orb_false_iff. intros (H1 & H2 & H3 & H4 & H5 & _).
  unfold last_pairs. cbn zeta. destruct (String.eqb (default "virtio" (vc_vga c)) "none"); cbn [vals app omap list_omap fst snd];
    rewrite ?(String.eqb_sym _ flag), ?H1, ?H2, ?H3, ?H4, ?H5; done.
Qed.

(** What is read for each of the three options. *)
Lemma drives_read c : vm_plain c -> vals "-drive" (middle_pairs c) = drives_of c.
Proof.
  intros [Hid Hd Hc _ _ _]. unfold middle_pairs, drives_of. rewrite !vals_app, vals_last, vals_usb_other by done.
  rewrite (vals_join _ disk_pairs (fun i d => [drive_of i d])), (vals_join _ cdrom_pairs (fun i iso => [cdrom_of i iso])), !join_single.
  - rewrite (vals_join _ net_pairs (fun _ _ => [])), join_empty, (vals_flat_map _ _ (fun _ => [])), flat_map_empty by done.
    replace (vals "-drive" (if vc_uefi c then _ else [])) with (firmware_of c); [by rewrite !app_nil_r|].
    unfold firmware_of. destruct (vc_uefi c); [|done]. cbn [vals omap list_omap fst snd]. cbn [String.eqb]. rewrite (firmware_reads_back _ Hid). done.
  - intros i iso Hin. rewrite Forall_forall in Hc. unfold cdrom_pairs, vals. cbn [omap list_omap fst snd].
    rewrite cdrom_reads_back; [done|]. by eapply drive_value_plain, Hc.
  - intros i d Hin. rewrite Forall_forall in Hd. unfold disk_pairs. rewrite vals_app. cbn [vals omap list_omap fst snd].
    rewrite drive_reads_back by (by apply valid_disk_plain, Hd). by destruct (_ || _).
Qed.

Lemma netdevs_read c : vm_plain c -> vals "-netdev" (middle_pairs c) = imap netdev_of (vc_networks c).
Proof.
  intros [_ _ _ Hn _ _]. unfold middle_pairs. rewrite !vals_app, vals_last, vals_usb_other by done.
  rewrite (vals_join _ disk_pairs (fun _ _ => [])) by (intros i d _; unfold disk_pairs; by destruct (_ || _)).
  rewrite (vals_join _ cdrom_pairs (fun _ _ => [])), (vals_join _ net_pairs (fun i n => [netdev_of i n])), join_single, !join_empty;
    [|intros i n Hin; rewrite Forall_forall in Hn; unfold net_pairs, vals; cbn [omap list_omap fst snd];
      rewrite netdev_reads_back by (by apply valid_net_plain, Hn); done|done].
  rewrite (vals_flat_map _ _ (fun _ => [])), flat_map_empty by done. destruct (vc_uefi c); rewrite ?app_nil_r; reflexivity.
Qed.

Lemma devices_read c : vm_plain c -> vals "-device" (middle_pairs c) = devices_of c.
Proof.
  intros [_ _ _ Hn Hu Hp]. unfold middle_pairs, devices_of. rewrite !vals_app, vals_last, vals_usb by done.
  rewrite (vals_join _ disk_pairs device_of_disk), (vals_join _ cdrom_pairs (fun _ _ => [])), join_empty,
    (vals_join _ net_pairs (fun i n => [device_of_net i n])), join_single,
    (vals_flat_map _ _ (fun d => [[("vfio-pci", ""); ("host", pd_address d)]])), flat_map_single.
  - destruct (vc_uefi c), (vc_usb_devices c); rewrite ?app_nil_r; reflexivity.
  - intros d Hin. rewrite Forall_forall in Hp. unfold vals. cbn [omap list_omap fst snd]. rewrite vfio_reads_back by (by apply Hp). done.
  - intros i n Hin. rewrite Forall_forall in Hn. unfold net_pairs, vals. cbn [omap list_omap fst snd].
    rewrite net_device_reads_back by (by apply valid_net_plain, Hn). done.
  - done.
  - intros i d Hin. unfold disk_pairs, device_of_disk. rewrite vals_app. destruct (_ || _); [|done]. cbn [vals omap list_omap app fst snd].
    rewrite disk_device_reads_back. done.
Qed.

(** The guest sees the drive [i]: it is on the IDE bus, or a device uses it. *)
Definition attached (i : nat) (args : list string) : Prop :=
  let drive := "drive" +:+ fmt_dec (Z.of_nat i) in
  exists opts, opts ∈ values_of "-drive" args /\ ("id", drive) ∈ opts /\
    (("if", "ide") ∈ opts \/ exists dev, dev ∈ values_of "-device" args /\ ("drive", drive) ∈ dev).

(** The disks of all interfaces but [scsi] are attached. *)
Lemma disk_attached c i d args : vc_disks c !! i = Some d -> validate_vm_disk d = Ok tt -> vd_interface d <> "scsi" ->
  (forall o, o ∈ drives_of c -> o ∈ values_of "-drive" args) -> (forall o, o ∈ devices_of c -> o ∈ values_of "-device" args) -> attached i args.
Proof.
  intros Hi Hd Hscsi Hdr Hdev. exists (drive_of i d). split_and!.
  - apply Hdr. unfold drives_of. apply elem_of_app. right. apply elem_of_app. left. apply elem_of_lookup_imap. by exists i, d.
  - unfold drive_of. apply elem_of_app. left. right. right. right. left.
  - unfold validate_vm_disk in Hd. destruct (validate_qemu_drive_value "disk path" (vd_path d)); [|done]. cbn [result_bind] in Hd.
    destruct (one_of ["" ; "virtio"; "scsi"; "ide"] (vd_interface d)) eqn:Eo; [|done]. clear Hd.
    destruct (String.eqb_spec (vd_interface d) "ide") as [E|E].
    + left. unfold drive_of. rewrite E. apply elem_of_app. left. right. right. left.
    + right. exists [("virtio-blk-pci", ""); ("drive", "drive" +:+ fmt_dec (Z.of_nat i))]. split; [|right; left].
      apply Hdev. unfold devices_of. apply elem_of_app. left. apply list_elem_of_join. exists (device_of_disk i d). split; [|apply elem_of_lookup_imap; by exists i, d].
      unfold device_of_disk. cbn in Eo. destruct (String.eqb_spec (vd_interface d) "virtio"), (String.eqb_spec (vd_interface d) ""); try (by left).
      exfalso. rewrite !orb_true_iff in Eo. unfold str_eqb in Eo. rewrite !String.eqb_eq in Eo. naive_solver.
Qed.

(** C24. The command line says what the record says.  For a VM whose disks,
    CD-ROMs, networks and USB devices have passed the checks, and whose id and
    PCI addresses have no comma (nothing checks those), the command line, read as
    QEMU reads it, has exactly the firmware, disks and CD-ROMs of the record as
    drives, each with its own path and options, exactly its interfaces, and
    exactly its disk controllers, network cards and passed-through devices,
    followed by what the raw extra arguments of the record say, if it has any: no
    other value adds an option or another drive.  Every disk is seen by the guest,
    except those with the [scsi] interface, for which the builder names no device
    ([scsi_disk_has_no_device]). *)
Theorem vm_command_line_reads_back env c :
  vm_plain c ->
  let args := build_qemu_args env c in
  let extra flag := values_of flag (default [] (vc_extra_args c)) in
  values_of "-drive" args = drives_of c ++ extra "-drive" /\
  values_of "-netdev" args = imap netdev_of (vc_networks c) ++ extra "-netdev" /\
  values_of "-device" args = devices_of c ++ extra "-device" /\
  forall i d, vc_disks c !! i = Some d -> vd_interface d <> "scsi" -> attached i args.
Proof.
  intros Hp args extra. subst args extra. cbv beta. rewrite !values_of_middle by done.
  rewrite drives_read, netdevs_read, devices_read by done. split_and!; [done..|].
  intros i d Hi Hs. apply (disk_attached c i d); [done| |done|..].
  - pose proof (vp_disks _ Hp) as Hd. rewrite Forall_forall in Hd. by apply Hd, (list_elem_of_lookup_2 _ i).
  - intros o Ho. rewrite values_of_middle, drives_read by done. apply elem_of_app. by left.
  - intros o Ho. rewrite values_of_middle, devices_read by done. apply elem_of_app. by left.
Qed.

Definition sample_disk : VmDisk := mkVmDisk "/fs/tank/a=b.img" None "virtio" true (Some "none") None None (Some 100) None.

Definition sample_vm : VmConfig :=
  mkVmConfig "7c9e" "web" 2 2048 [sample_disk] [mkVmNetwork "bridge" (Some "br1") (Some "52:54:00:12:34:56")]
    [mkPassthrough "0000:03:00.0" None] [mkUsb "0bda" "8153" None] ["/fs/tank/install.iso"] (Some "/fs/tank/install.iso") "disk" false
    None false None None None None.

Definition quiet_host : VmEnv :=
  mkVmEnv true false Some (fun _ => true) (Some "") "7c9e" None None (fun _ => true) None None (fun _ => None) None None None None true.

Lemma sample_vm_plain : vm_plain sample_vm.
Proof.
  split; cbn [vc_id vc_disks vc_cdroms vc_networks vc_usb_devices vc_passthrough_devices vc_extra_args sample_vm].
  - by apply no_char_dec.
  - repeat constructor.
  - repeat constructor.
  - repeat constructor.
  - repeat constructor.
  - constructor; [by apply no_char_dec|constructor].
Qed.

Lemma vm_command_line_reads_back_witness :
  values_of "-drive" (build_qemu_args quiet_host sample_vm) =
    [[("file", "/fs/tank/a=b.img"); ("format", "raw"); ("if", "none"); ("id", "drive0"); ("readonly", "on"); ("cache", "none"); ("throttling.iops-read", "100")];
     [("file", "/fs/tank/install.iso"); ("media", "cdrom"); ("if", "ide"); ("index", "0"); ("readonly", "on"); ("id", "cd0")]] /\
  attached 0 (build_qemu_args quiet_host sample_vm).
Proof.
  destruct (vm_command_line_reads_back quiet_host sample_vm sample_vm_plain) as (H & _ & _ & Ha).
  split; [exact H|]. apply (Ha 0%nat sample_disk); [reflexivity|discriminate].
Defined.

(** A disk with the [scsi] interface passes the checks but no device uses its
    drive: the guest does not see it. *)
Lemma scsi_disk_has_no_device :
  validate_vm_disk (mkVmDisk "/dev/loop0" None "scsi" false None None None None None) = Ok tt /\
  devices_of (with_disks (mkVmConfig "1" "a" 1 1024 [] [] [] [] [] None "disk" true None false None None None None)
    [mkVmDisk "/dev/loop0" None "scsi" false None None None None None]) = [].
Proof. split; reflexivity. Qed.
