(* ===== verification/VmLife.v ===== *)
(** * What runs is what is stored

    How the disks of a VM are found when it starts, and the invariant of the
    service: the command line of every running VM is that of its record. *)

From Stdlib Require Import ZArith Lia Ascii String.
From stdpp Require Import base list gmap strings.
From S2P Require Import Prelude.
From S2P Require Import RustStr.
From S2P Require Import Text.
From S2P Require Import StateDir.
From S2P Require Import Vm.

(** ** Disks *)

(** A disk before and after its loop device is looked up. *)
Record healed (pairs : list (string * string)) (d d' : VmDisk) : Prop := {
  hl_rest : with_source (with_disk_path d' "") None = with_source (with_disk_path d "") None;
  hl_path : match vd_source d' with
            | Some s => device_for_backing_file pairs s = Some (vd_path d')
            | None => vd_path d' = vd_path d
            end;
  hl_kept : forall s, vd_source d = Some s -> vd_source d' = Some s;
  hl_new : forall s, vd_source d = None -> vd_source d' = Some s ->
    starts_with "/dev/loop" (vd_path d) = true /\ backing_file_for_device pairs (vd_path d) = Some s;
}.

Lemma healed_disk pairs d d' : resolve_disk_path pairs (backfill_disk_source pairs d) = Ok d' -> healed pairs d d'.
Proof.
  unfold resolve_disk_path, backfill_disk_source. destruct (vd_source d) as [s|] eqn:Es.
  - rewrite Es. destruct (device_for_backing_file pairs s) as [dev|] eqn:Ed; [|done]. cbn [ok_or result_bind].
    destruct (String.eqb_spec (vd_path d) dev) as [Ep|]; intros [= <-]; split; cbn; rewrite ?Es; try done; congruence.
  - destruct (starts_with "/dev/loop" (vd_path d)) eqn:El; [destruct (backing_file_for_device pairs (vd_path d)) as [b|] eqn:Eb|].
    + cbn [vd_source with_source]. destruct (device_for_backing_file pairs b) as [dev|] eqn:Ed; [|done]. cbn [ok_or result_bind].
      destruct (String.eqb_spec (vd_path (with_source d (Some b))) dev) as [Ep|]; cbn in *; intros [= <-]; split; cbn; try done; try congruence; intros s _ [= <-]; by split.
    + rewrite Es. intros [= <-]. split; rewrite ?Es; try done; congruence.
    + rewrite Es. intros [= <-]. split; rewrite ?Es; try done; congruence.
Qed.

Lemma map_result_Forall2 {A B E} (f : A -> result B E) l l' : map_result f l = Ok l' <-> Forall2 (fun x y => f x = Ok y) l l'.
Proof.
  revert l'. induction l as [|x l IH]; intros l'; cbn.
  - split; [by intros [= <-]|]. intros H. by inversion H.
  - destruct (f x) as [y|e] eqn:Ex; cbn [result_bind].
    + destruct (map_result f l) as [ys|e] eqn:El; cbn [result_bind].
      * split; [intros [= <-]; constructor; [done|by apply IH]|]. intros H. inversion H as [|? y' ? ys' Hy Hys]; subst.
        apply IH in Hys. congruence.
      * split; [done|]. intros H. inversion H as [|? y' ? ys' Hy Hys]; subst. apply IH in Hys. congruence.
    + split; [done|]. intros H. inversion H. congruence.
Qed.

(** A disk whose source and path are what they were is the disk. *)
Lemma healed_same pairs d d' : healed pairs d d' -> vd_source d' = vd_source d -> vd_path d' = vd_path d -> d' = d.
Proof. intros [H _ _ _] Hs Hp. destruct d, d'. unfold with_source, with_disk_path in H. cbn in *. injection H as -> -> -> -> -> -> ->. by rewrite Hs, Hp. Qed.

Lemma backfill_keeps_path pairs d : vd_path (backfill_disk_source pairs d) = vd_path d.
Proof. unfold backfill_disk_source. destruct (vd_source d); [done|]. destruct (starts_with _ _); [|done]. by destruct (backing_file_for_device _ _). Qed.

Lemma resolve_keeps_source pairs d d' : resolve_disk_path pairs d = Ok d' -> vd_source d' = vd_source d.
Proof.
  unfold resolve_disk_path. destruct (vd_source d) as [s|] eqn:E; [|by intros [= <-]].
  destruct (device_for_backing_file pairs s) as [dev|]; [|done]. cbn [ok_or result_bind]. destruct (String.eqb _ _); by intros [= <-].
Qed.

(** Without a change flagged, nothing has changed. *)
Lemma unflagged_same {A} (changed : A * A -> bool) l l' : length l = length l' -> existsb changed (zip l l') = false ->
  Forall2 (fun x y => changed (x, y) = false) l l'.
Proof.
  revert l'. induction l as [|x l IH]; intros [|y l'] Hl; try done. cbn. intros [H1 H2]%orb_false_iff.
  constructor; [done|]. apply IH; [cbn in Hl; lia|done].
Qed.

Lemma unchanged_disks pairs l l' : Forall2 (healed pairs) l l' ->
  Forall2 (fun x y => bool_decide (vd_source x <> vd_source (backfill_disk_source pairs y)) = false) l l ->
  Forall2 (fun x y => negb (String.eqb (vd_path (backfill_disk_source pairs x)) (vd_path y)) = false) l l' ->
  Forall2 (fun x y => resolve_disk_path pairs (backfill_disk_source pairs x) = Ok y) l l' -> l' = l.
Proof.
  induction 1 as [|d d' l l' Hh _ IH]; [done|]. intros F1 F2 F3.
  inversion F1 as [|? ? ? ? G1 F1']; subst. inversion F2 as [|? ? ? ? G2 F2']; subst. inversion F3 as [|? ? ? ? G3 F3']; subst.
  f_equal; [|by apply IH]. apply (healed_same pairs); [done| |].
  - apply bool_decide_eq_false, dec_stable in G1. rewrite G1. by apply resolve_keeps_source in G3.
  - apply negb_false_iff, String.eqb_eq in G2. rewrite <- G2. apply backfill_keeps_path.
Qed.

Lemma heal_disks_ok env id c w w' c' :
  heal_disks env id c w = (w', Ok c') ->
  c' = with_disks c (vc_disks c') /\ Forall2 (healed (losetup_pairs env)) (vc_disks c) (vc_disks c') /\
  vm_running w' = vm_running w /\ vm_silent w' = vm_silent w /\
  (vm_store w' = <[id := Some c']> (vm_store w) \/ vm_store w' = vm_store w /\ c' = c).
Proof.
  unfold heal_disks. set (pairs := losetup_pairs env). unfold backfill_disk_sources. set (ds := backfill_disk_source pairs <$> vc_disks c).
  unfold m_bind at 1, m_lift, resolve_disk_paths. destruct (map_result (resolve_disk_path pairs) ds) as [ds'|e] eqn:Em; [|done].
  cbn [result_bind fst snd]. apply map_result_Forall2 in Em. subst ds.
  assert (Forall2 (healed pairs) (vc_disks c) ds') as HF.
  { apply Forall2_fmap_l in Em. eapply Forall2_impl; [exact Em|]. intros d d' H. by apply healed_disk. }
  assert (forall w', (m_ret (with_disks c ds') : vmm VmConfig) w' = (w', Ok (with_disks c ds'))) as Hret by done.
  destruct (existsb _ (zip (vc_disks c) _) || existsb _ (zip _ ds')) eqn:Eflag; unfold m_bind.
  - unfold vm_save, save. destruct (vn_save env); [done|]. rewrite Hret. intros [= <- <-]. cbn. split_and!; try done. by left.
  - unfold m_ret. intros [= <- <-]. split_and!; try done. right. split; [done|]. cbn. apply orb_false_iff in Eflag as [F1 F2].
    apply unflagged_same in F1; [|by rewrite length_fmap]. apply unflagged_same in F2; [|by apply Forall2_length in Em].
    apply Forall2_fmap_r in F1. apply Forall2_fmap_l in F2. apply Forall2_fmap_l in Em. rewrite (unchanged_disks pairs (vc_disks c) ds'); [by destruct c|done..].
Qed.

(** ** Starting *)

Lemma migrated c : vc_cdroms (migrate_cdroms c) = [] -> forall iso, vc_boot_iso (migrate_cdroms c) = Some iso -> iso = "".
Proof.
  unfold migrate_cdroms. destruct (vc_cdroms c) as [|x l] eqn:E1; [|intros H; congruence].
  destruct (vc_boot_iso c) as [iso|] eqn:E2; [|congruence]. destruct (String.eqb_spec iso ""); [congruence|done].
Qed.

(** A record with the CD-ROMs of a migrated one is migrated. *)
Lemma migrate_stable c c' : vc_cdroms c' = vc_cdroms (migrate_cdroms c) -> vc_boot_iso c' = vc_boot_iso (migrate_cdroms c) -> migrate_cdroms c' = c'.
Proof.
  intros H1 H2. pose proof (migrated c) as Hm. rewrite <- H1, <- H2 in Hm. unfold migrate_cdroms.
  destruct (vc_cdroms c'); [|done]. destruct (vc_boot_iso c') as [iso|]; [|done]. by rewrite (Hm eq_refl iso eq_refl).
Qed.

Lemma migrate_disks c ds : migrate_cdroms (with_disks (migrate_cdroms c) ds) = with_disks (migrate_cdroms c) ds.
Proof. by apply (migrate_stable c). Qed.

Lemma migrate_id c : vc_id (migrate_cdroms c) = vc_id c /\ vc_disks (migrate_cdroms c) = vc_disks c.
Proof. unfold migrate_cdroms. destruct (vc_cdroms c); [|done]. destruct (vc_boot_iso c) as [iso|]; [|done]. by destruct (String.eqb iso ""). Qed.

Definition record_at (w : VmWorld) (id : string) : option VmConfig := migrate_cdroms <$> load (vm_store w) id.

(** What a start has done, whether it succeeds or not. *)
Record start_outcome (env : VmEnv) (id : string) (c : VmConfig) (w w' : VmWorld) (r : result (VmConfig * bool) VmError) : Prop := {
  so_others : forall id', id' <> id -> load (vm_store w') id' = load (vm_store w) id' /\ vm_running w' !! id' = vm_running w !! id';
  so_store : exists c0, load (vm_store w') id = Some c0 /\ (c0 = c \/ vc_id c0 = vc_id c);
  so_running : (w' = w \/ vm_running w !! id = None) /\
    (vm_running w' !! id = vm_running w !! id \/ exists c', record_at w' id = Some c' /\ vm_running w' !! id = Some (build_qemu_args env c'));
  so_done : forall c' b, r = Ok (c', b) ->
    is_running w id = false /\ c' = with_disks (migrate_cdroms c) (vc_disks c') /\
    Forall2 (healed (losetup_pairs env)) (vc_disks c) (vc_disks c') /\ ready_to_start env c' = Ok tt /\
    vm_running w' = <[id := build_qemu_args env c']> (vm_running w);
  so_silent : forall p, p ∈ vm_silent w' -> p ∈ vm_silent w \/ exists c', record_at w' id = Some c' /\ p = (id, build_qemu_args env c');
}.

Lemma start_refused env id c w e : load (vm_store w) id = Some c -> start_outcome env id c w w (Err e).
Proof. intros Hc. split; [done| |by split; left|done|by left]. exists c. by split; [|left]. Qed.

Lemma not_running w id : is_running w id = false -> vm_running w !! id = None.
Proof. unfold is_running. intros H%bool_decide_eq_false. by apply eq_None_not_Some. Qed.

Lemma launch_outcome env id c w w' r : launch env id c w = (w', r) ->
  vm_store w' = vm_store w /\ (forall id', id' <> id -> vm_running w' !! id' = vm_running w !! id') /\
  (vm_running w' = vm_running w \/ vm_running w' = <[id := build_qemu_args env c]> (vm_running w)) /\
  (r = Ok tt -> vm_running w' = <[id := build_qemu_args env c]> (vm_running w)) /\
  (forall p, p ∈ vm_silent w' -> p ∈ vm_silent w \/ p = (id, build_qemu_args env c)).
Proof.
  unfold launch, m_bind, m_lift. generalize (build_qemu_args env c) as args. intros args. destruct (vn_spawn env); [intros [= <- <-]; split_and!; auto; done|].
  destruct (vn_qemu_fails env); [intros [= <- <-]; split_and!; auto; done|]. cbn zeta. destruct (vn_negotiate env); cbn; intros [= <- <-]; cbn.
  - split_and!; [done..|by left|done|]. intros p [->|H]%elem_of_cons; auto.
  - split_and!; [done|intros id' Hne; by apply lookup_insert_ne|by right|done|auto].
Qed.

Lemma vm_start_outcome env id c w : load (vm_store w) id = Some c ->
  let '(w', r) := vm_start env id w in start_outcome env id c w w' r.
Proof.
  intros Hc. unfold vm_start. unfold m_bind at 1, m_get. unfold m_bind at 1, m_lift at 1. rewrite Hc. cbn [ok_or].
  destruct (is_running w id) eqn:Er; [by apply start_refused|]. destruct (negb (vn_kvm env)); [by apply start_refused|].
  apply not_running in Er as Hn. unfold m_bind at 1. destruct (heal_disks env id (migrate_cdroms c) w) as [w1 [c1|e]] eqn:Eh.
  2:{ unfold heal_disks, m_bind, m_lift, vm_save, save in Eh. destruct (backfill_disk_sources _ _) as [ds b].
      destruct (resolve_disk_paths _ _) as [[ds' b']|]; [|injection Eh as <- _; by apply start_refused]. cbn in Eh.
      destruct (b || b'); [destruct (vn_save env)|]; try done. injection Eh as <- _. by apply start_refused. }
  apply heal_disks_ok in Eh as (Hc1 & HF & Hr1 & Hsl1 & Hst). destruct (migrate_id c) as [Hid Hds]. rewrite Hds in HF.
  assert (record_at w1 id = Some c1 /\ exists c0, load (vm_store w1) id = Some c0 /\ (c0 = c \/ vc_id c0 = vc_id c)) as [Hrec Hst1].
  { unfold record_at. destruct Hst as [->|[-> ->]]; [rewrite load_save_same|rewrite Hc]; (split; [|eexists; split; [done|]]); [| |done|by left].
    - rewrite Hc1. cbn. by rewrite migrate_disks.
    - right. rewrite Hc1. exact Hid. }
  assert (forall id', id' <> id -> load (vm_store w1) id' = load (vm_store w) id') as Hoth.
  { intros id' Hne. destruct Hst as [->|[-> _]]; [by apply load_save_other|done]. }
  unfold m_bind at 1, m_lift at 1. destruct (ready_to_start env c1) as [[]|e] eqn:Ey.
  2:{ split; [intros id' Hne; rewrite Hr1; auto|done| |done|rewrite Hsl1; auto]. split; [by right|]. left. by rewrite Hr1. }
  unfold m_bind. destruct (launch env id c1 w1) as [w2 r] eqn:El. apply launch_outcome in El as (Hs2 & Ho2 & Hr2 & Hd2 & Hsl2).
  assert (start_outcome env id c w w2 (match r with Ok _ => Ok (c1, true) | Err e => Err e end)); [|by destruct r as [[]|]].
  split.
  - intros id' Hne. rewrite Hs2, Ho2, Hr1 by done. auto.
  - by rewrite Hs2.
  - split; [by right|]. destruct Hr2 as [->| ->]; [left; by rewrite Hr1|]. right. exists c1. unfold record_at. by rewrite Hs2, lookup_insert_eq.
  - intros c' b E. destruct r as [[]|]; [|done]. injection E as <- <-. rewrite (Hd2 eq_refl), Hr1. by split_and!.
  - intros p Hp. apply Hsl2 in Hp. rewrite Hsl1 in Hp. destruct Hp as [Hp|Hp]; [by left|]. right. exists c1. unfold record_at. by rewrite Hs2.
Qed.

(** ** The invariant *)

(** A QEMU process started for [id], whether its monitor answers or not. *)
Definition runs (w : VmWorld) (id : string) (args : list string) : Prop :=
  vm_running w !! id = Some args \/ (id, args) ∈ vm_silent w.

(** [args] is the command line built from the record of [id]. *)
Definition as_stored (aarch64 : bool) (w : VmWorld) (id : string) (args : list string) : Prop :=
  exists c, record_at w id = Some c /\ forall env, vn_aarch64 env = aarch64 -> args = build_qemu_args env c.

(** Records are filed under their identifiers, and what runs is what is stored,
    but for the VMs [out]. *)
Record vm_inv (aarch64 : bool) (out : gset string) (w : VmWorld) : Prop := {
  vi_id : forall id c, load (vm_store w) id = Some c -> vc_id c = id;
  vi_runs : forall id args, id ∉ out -> runs w id args -> as_stored aarch64 w id args;
}.

Lemma build_arch env env' c : vn_aarch64 env = vn_aarch64 env' -> build_qemu_args env c = build_qemu_args env' c.
Proof. intros H. unfold build_qemu_args. by rewrite H. Qed.

Inductive VmOp : Type :=
  | VmOpCreate (req : CreateVmRequest)
  | VmOpUpdate (req : UpdateVmRequest)
  | VmOpDelete (id : string)
  | VmOpStart (id : string)
  | VmOpStop (id : string)
  | VmOpKill (id : string)
  | VmOpRestore
  | VmOpExit (id : string).     (** the guest shuts down *)

Definition vm_step (env : VmEnv) (op : VmOp) (w : VmWorld) : VmWorld :=
  match op with
  | VmOpCreate req => fst (vm_create env req w)
  | VmOpUpdate req => fst (vm_update env req w)
  | VmOpDelete id => fst (vm_delete env id w)
  | VmOpStart id => fst (vm_start env id w)
  | VmOpStop id => fst (vm_stop env id w)
  | VmOpKill id => fst (vm_kill env id w)
  | VmOpRestore => fst (vm_restore env w)
  | VmOpExit id => mkVmWorld (vm_store w) (delete id (vm_running w)) (vm_silent w)
  end.

(** *** VMs that do not answer

    [ru_touched] are the VMs that the service has updated, deleted or started
    while a process of theirs ran without answering. *)
Record VmRun : Type := mkVmRun {
  ru_world : VmWorld;
  ru_touched : gset string;
}.

Definition touched_silent (w : VmWorld) (id : string) : gset string :=
  if decide (id ∈ (vm_silent w).*1) then {[id]} else ∅.

Definition restore_touched (env : VmEnv) (w : VmWorld) : VmWorld * gset string :=
  foldl (fun '(w, t) c => if vc_autostart c then (fst (vm_start env (vc_id c) w), t ∪ touched_silent w (vc_id c)) else (w, t))
    (w, ∅) (load_all (vm_store w)).

Definition touched_by (env : VmEnv) (op : VmOp) (w : VmWorld) : gset string :=
  match op with
  | VmOpUpdate req => touched_silent w (ur_id req)
  | VmOpDelete id | VmOpStart id => touched_silent w id
  | VmOpRestore => snd (restore_touched env w)
  | _ => ∅
  end.

Inductive VmEvent : Type :=
  | VmOperation (env : VmEnv) (op : VmOp)
  | VmFallsSilent (id : string)      (** a ping gets no answer in time *)
  | VmAnswersAgain (n : nat)         (** one of the silent processes *)
  | VmEnds (n : nat).

Definition run_event (ev : VmEvent) (r : VmRun) : VmRun :=
  let w := ru_world r in
  match ev with
  | VmOperation env op => mkVmRun (vm_step env op w) (ru_touched r ∪ touched_by env op w)
  | VmFallsSilent id =>
      match vm_running w !! id with
      | Some args => mkVmRun (mkVmWorld (vm_store w) (delete id (vm_running w)) ((id, args) :: vm_silent w)) (ru_touched r)
      | None => r
      end
  | VmAnswersAgain n =>
      match vm_silent w !! n with
      | Some (id, args) =>
          match vm_running w !! id with
          | None => mkVmRun (mkVmWorld (vm_store w) (<[id := args]> (vm_running w)) (delete n (vm_silent w))) (ru_touched r)
          | Some _ => r
          end
      | None => r
      end
  | VmEnds n => mkVmRun (mkVmWorld (vm_store w) (vm_running w) (delete n (vm_silent w))) (ru_touched r)
  end.

Definition event_allowed (aarch64 : bool) (ev : VmEvent) (w : VmWorld) : Prop :=
  match ev with
  | VmOperation env _ => vn_aarch64 env = aarch64 /\ vm_store w !! vn_uuid env = None
  | _ => True
  end.

(** Any operations, each with what the system answers then, and a new
    identifier for a new VM; and monitors that stop and resume answering. *)
Inductive vm_reachable (aarch64 : bool) : VmRun -> Prop :=
  | vm_reach_init : vm_reachable aarch64 (mkVmRun (mkVmWorld ∅ ∅ []) ∅)
  | vm_reach_step r ev : vm_reachable aarch64 r -> event_allowed aarch64 ev (ru_world r) -> vm_reachable aarch64 (run_event ev r).

Lemma runs_mk st running silent id args : runs (mkVmWorld st running silent) id args <-> running !! id = Some args \/ (id, args) ∈ silent.
Proof. done. Qed.

(** Fewer processes, the same records. *)
Lemma inv_fewer a out w w' : vm_inv a out w -> vm_store w' = vm_store w -> (forall id args, runs w' id args -> runs w id args) -> vm_inv a out w'.
Proof. intros [H1 H2] Hs Hr. split; rewrite ?Hs; [done|]. intros id args Hid Ha. unfold as_stored, record_at. rewrite Hs. by apply H2, Hr. Qed.

(** A record replaced by one that runs as it does, or that does not run. *)
Lemma inv_put a out w id c : vm_inv a out w -> vc_id c = id ->
  (forall args, id ∉ out -> runs w id args -> forall env, vn_aarch64 env = a -> args = build_qemu_args env (migrate_cdroms c)) ->
  vm_inv a out (mkVmWorld (<[id := Some c]> (vm_store w)) (vm_running w) (vm_silent w)).
Proof.
  intros [H1 H2] Hid Hr. split; cbn.
  - intros i x. destruct (decide (i = id)) as [->|Hne]; [rewrite load_save_same; by intros [= <-]|rewrite load_save_other by done; apply H1].
  - intros i args Hi Ha. unfold as_stored, record_at. cbn. destruct (decide (i = id)) as [->|Hne].
    + rewrite load_save_same. exists (migrate_cdroms c). split; [done|by apply Hr].
    + rewrite load_save_other by done. by apply H2.
Qed.

Lemma vm_save_inv a out env id c w : vm_inv a out w -> vc_id c = id ->
  (forall args, id ∉ out -> runs w id args -> forall env, vn_aarch64 env = a -> args = build_qemu_args env (migrate_cdroms c)) ->
  vm_inv a out (fst (vm_save env id c w)).
Proof. intros Hw Hid Hr. unfold vm_save, save. destruct (vn_save env); [done|]. by apply inv_put. Qed.

(** Excusing more VMs. *)
Lemma vm_inv_weaken a out out' w : out ⊆ out' -> vm_inv a out w -> vm_inv a out' w.
Proof. intros Hs [H1 H2]. split; [done|]. intros id args Hid. apply H2. set_solver. Qed.

(** A VM that is not excused and does not answer does not run. *)
Lemma stopped out w id args : id ∉ out ∪ touched_silent w id -> is_running w id = false -> runs w id args -> False.
Proof.
  intros Hid Hr%not_running [H|H]; [congruence|]. unfold touched_silent in Hid. rewrite decide_True in Hid; [set_solver|].
  apply list_elem_of_fmap. by exists (id, args).
Qed.

Lemma running_update c name description autostart env :
  build_qemu_args env (mkVmConfig (vc_id c) name (vc_cpus c) (vc_memory_mib c) (vc_disks c) (vc_networks c) (vc_passthrough_devices c)
    (vc_usb_devices c) (vc_cdroms c) (vc_boot_iso c) (vc_boot_order c) (vc_uefi c) description autostart
    (vc_cpu_model c) (vc_machine_type c) (vc_vga c) (vc_extra_args c)) = build_qemu_args env c.
Proof. reflexivity. Qed.

Lemma vm_start_inv out env id w : vm_inv (vn_aarch64 env) out w -> vm_inv (vn_aarch64 env) (out ∪ touched_silent w id) (fst (vm_start env id w)).
Proof.
  intros Hw. destruct (load (vm_store w) id) as [c|] eqn:Hc.
  2:{ unfold vm_start, m_bind at 1, m_get, m_bind at 1, m_lift at 1. rewrite Hc. apply (vm_inv_weaken _ out); [set_solver|done]. }
  pose proof (vm_start_outcome env id c w Hc) as H. destruct (vm_start env id w) as [w' r]. cbn. destruct H as [Ho (c0 & Hs & Hc0) [Hn Hr] _ Hsl].
  destruct Hw as [H1 H2]. split.
  - intros i x. destruct (decide (i = id)) as [->|Hne].
    + rewrite Hs. intros [= <-]. destruct Hc0 as [->|E]; [|rewrite E]; by apply H1.
    + destruct (Ho i Hne) as [-> _]. apply H1.
  - intros i args Hi Ha. assert (i ∉ out) as Hout by set_solver. unfold as_stored, record_at. destruct (decide (i = id)) as [->|Hne].
    + assert (forall c', record_at w' id = Some c' -> args = build_qemu_args env c' ->
               exists c, migrate_cdroms <$> load (vm_store w') id = Some c /\ forall env', vn_aarch64 env' = vn_aarch64 env -> args = build_qemu_args env' c) as Hnew.
      { intros c' Hrec ->. exists c'. split; [exact Hrec|]. intros env' He. by apply build_arch. }
      destruct Ha as [Ha|Ha].
      * destruct Hr as [Hr|(c' & Hrec & Hrun)]; [|rewrite Hrun in Ha; injection Ha as <-; by apply (Hnew c')].
        rewrite Hr in Ha. destruct Hn as [->|Hn]; [apply H2; [done|by left]|congruence].
      * destruct (Hsl _ Ha) as [Hold|(c' & Hrec & [= ->])]; [|by apply (Hnew c')].
        exfalso. unfold touched_silent in Hi. rewrite decide_True in Hi; [set_solver|]. apply list_elem_of_fmap. by exists (id, args).
    + destruct (Ho i Hne) as [Hl Hrun]. rewrite Hl. apply H2; [done|]. destruct Ha as [Ha|Ha]; [left; congruence|].
      destruct (Hsl _ Ha) as [Hold|(c' & _ & [= ? _])]; [by right|done].
Qed.

Lemma updated_id env req running c c' : updated_vm env req running c = Ok c' -> vc_id c' = vc_id c.
Proof.
  unfold updated_vm. cbn zeta. destruct running.
  - destruct (changes_hardware req); [done|]. cbn [negb]. by intros [= <-].
  - destruct (on_given (ur_disks req) _) as [[]|]; [|done]. destruct (on_given (ur_networks req) _) as [[]|]; [|done].
    destruct (on_given (ur_usb_devices req) _) as [[]|]; [|done]. destruct (on_given (new_cdroms req) _) as [[]|]; [|done].
    cbn [result_bind]. by intros [= <-].
Qed.

Lemma vm_update_inv a out env req w : vm_inv a out w -> vm_inv a (out ∪ touched_silent w (ur_id req)) (fst (vm_update env req w)).
Proof.
  intros Hw. apply (vm_inv_weaken _ _ (out ∪ touched_silent w (ur_id req))) in Hw; [|set_solver].
  unfold vm_update, m_bind at 1, m_get, m_bind at 1, m_lift at 1. destruct (load (vm_store w) (ur_id req)) as [c|] eqn:Hc; [|done]. cbn [ok_or].
  unfold m_bind at 1, m_lift at 1. destruct (updated_vm env req _ (migrate_cdroms c)) as [c'|] eqn:Eu; [|done].
  assert (vc_id c' = ur_id req) as Hid.
  { rewrite (updated_id _ _ _ _ _ Eu). destruct (migrate_id c) as [-> _]. exact (vi_id _ _ _ Hw _ _ Hc). }
  assert (vm_inv a (out ∪ touched_silent w (ur_id req)) (fst (vm_save env (ur_id req) c' w))) as Hs.
  { apply vm_save_inv; [done..|]. intros args Hout Ha env' He. destruct (is_running w (ur_id req)) eqn:Er; [|exfalso; by eapply stopped].
    unfold updated_vm in Eu. cbn zeta in Eu. destruct (changes_hardware req); [done|]. cbn [negb] in Eu. injection Eu as <-.
    destruct (vi_runs _ _ _ Hw _ _ Hout Ha) as (c1 & Hc1 & Hargs). unfold record_at in Hc1. rewrite Hc in Hc1. injection Hc1 as <-.
    rewrite (Hargs env' He). symmetry. etransitivity; [apply (f_equal (build_qemu_args env')), (migrate_stable c); reflexivity|apply running_update]. }
  rewrite Hid. unfold m_bind. by destruct (vm_save env (ur_id req) c' w) as [w1 [[]|]].
Qed.

Lemma vm_create_inv a out env req w : vm_inv a out w -> vm_store w !! vn_uuid env = None -> vm_inv a out (fst (vm_create env req w)).
Proof.
  intros Hw Hu. unfold vm_create, m_bind at 1, m_get, m_bind at 1, m_lift at 1. destruct (check_new_vm env req w) as [[]|]; [|done].
  set (c := new_vm_config env req (requested_cdroms req)). pose proof (vm_save_inv a out env (vc_id c) c w Hw eq_refl) as Hs. unfold m_bind.
  assert (vm_inv a out (fst (vm_save env (vc_id c) c w))) as Hi; [|by destruct (vm_save env (vc_id c) c w) as [w1 [[]|]]].
  apply Hs. intros args Hout Ha. apply (vi_runs _ _ _ Hw _ _ Hout) in Ha as (c1 & Hc1 & _). unfold record_at, load in Hc1. change (vc_id c) with (vn_uuid env) in Hc1.
  by rewrite Hu in Hc1.
Qed.

Lemma vm_delete_inv a out env id w : vm_inv a out w -> vm_inv a (out ∪ touched_silent w id) (fst (vm_delete env id w)).
Proof.
  intros Hw. apply (vm_inv_weaken _ _ (out ∪ touched_silent w id)) in Hw; [|set_solver].
  unfold vm_delete, m_bind at 1, m_get, m_bind at 1, m_lift at 1. destruct (load (vm_store w) id) as [c|]; [|done]. cbn [ok_or].
  destruct (is_running w id) eqn:Er; [done|]. unfold remove. destruct (vn_remove env); [done|]. cbn. destruct Hw as [H1 H2]. split; cbn.
  - intros i x. destruct (decide (i = id)) as [->|Hne]; [by rewrite load_remove_same|rewrite load_remove_other by done; apply H1].
  - intros i args Hi Ha. destruct (decide (i = id)) as [->|Hne]; [exfalso; by eapply stopped|].
    unfold as_stored, record_at. cbn. rewrite load_remove_other by done. by apply H2.
Qed.

Lemma vm_kill_inv a out env id w : vm_inv a out w -> vm_inv a out (fst (vm_kill env id w)).
Proof.
  intros Hw. unfold vm_kill, m_bind, m_get, m_lift. destruct (load (vm_store w) id); [|done]. cbn [ok_or]. destruct (negb _); [done|]. cbn.
  apply (inv_fewer _ _ w); [done..|]. intros i args [[_ H]%lookup_delete_Some|H]%runs_mk; [by left|].
  destruct (vn_dies env); [by right|]. destruct (vm_running w !! id) as [x|] eqn:Ex; [|by right]. cbn in H.
  apply elem_of_cons in H as [[= -> ->]|H]; [by left|by right].
Qed.

Lemma vm_restore_inv out env w : vm_inv (vn_aarch64 env) out w ->
  vm_inv (vn_aarch64 env) (out ∪ snd (restore_touched env w)) (fst (vm_restore env w)).
Proof.
  unfold vm_restore, restore_touched. cbn [fst]. generalize (load_all (vm_store w)) as l.
  assert (forall l w t, vm_inv (vn_aarch64 env) (out ∪ t) w ->
    vm_inv (vn_aarch64 env)
      (out ∪ (foldl (fun '(w, t) c => if vc_autostart c then (fst (vm_start env (vc_id c) w), t ∪ touched_silent w (vc_id c)) else (w, t)) (w, t) l).2)
      (foldl (fun w c => if vc_autostart c then fst (vm_start env (vc_id c) w) else w) w l)) as H.
  { clear w. induction l as [|c l IH]; intros w t Hw; [done|]. cbn [foldl]. destruct (vc_autostart c); [|by apply IH].
    apply IH. rewrite (assoc_L (∪)). by apply vm_start_inv. }
  intros l Hw. apply H. apply (vm_inv_weaken _ out); [set_solver|done].
Qed.

Lemma vm_step_inv out env op w : vm_inv (vn_aarch64 env) out w -> vm_store w !! vn_uuid env = None ->
  vm_inv (vn_aarch64 env) (out ∪ touched_by env op w) (vm_step env op w).
Proof.
  intros IH Hu. destruct op as [req|req|id|id|id|id| |id]; cbn [vm_step touched_by].
  - apply (vm_inv_weaken _ out); [set_solver|]. by apply vm_create_inv.
  - by apply vm_update_inv.
  - by apply vm_delete_inv.
  - by apply vm_start_inv.
  - apply (vm_inv_weaken _ out); [set_solver|]. unfold vm_stop, m_bind, m_get, m_lift. destruct (load (vm_store w) id); [|done]. cbn [ok_or].
    by destruct (negb _).
  - apply (vm_inv_weaken _ out); [set_solver|]. by apply vm_kill_inv.
  - by apply vm_restore_inv.
  - apply (vm_inv_weaken _ out); [set_solver|]. apply (inv_fewer _ _ w); [done..|]. intros i args [[_ H]%lookup_delete_Some|H]%runs_mk; [by left|by right].
Qed.

(** C23. What runs is what is stored.  After any operations on VMs, with any
    failures, and any moments at which the monitor of a VM does not answer a
    ping, every record is filed under its identifier, and the command line of
    every QEMU process, answering or not, is the one built from its VM's record
    now: hardware changes to a running VM, its deletion and a second start are
    refused, and names, descriptions and autostart may change without effect on
    it.  A VM is excepted once an update, a delete, a start or a restore was
    called on it at a moment when it ran without answering, since the service
    takes it for stopped then ([silent_vm_deleted]). *)
Theorem running_vm_matches_record aarch64 r :
  vm_reachable aarch64 r -> vm_inv aarch64 (ru_touched r) (ru_world r).
Proof.
  induction 1 as [|r ev Hr IH Hev]; [split; [done|]; intros id args _ [H|H]; inversion H|]. destruct ev as [env op|id|n|n]; cbn.
  - destruct Hev as [<- Hu]. by apply vm_step_inv.
  - destruct (vm_running (ru_world r) !! id) as [x|] eqn:Ex; [|done]. apply (inv_fewer _ _ (ru_world r)); [done..|].
    intros i args [[_ H]%lookup_delete_Some|H]%runs_mk; [by left|]. cbn in H. apply elem_of_cons in H as [[= -> ->]|H]; [by left|by right].
  - destruct (vm_silent (ru_world r) !! n) as [[id x]|] eqn:Es; [|done]. destruct (vm_running (ru_world r) !! id) eqn:Er; [done|].
    apply (inv_fewer _ _ (ru_world r)); [done..|]. intros i args [[[<- <-]|[_ H]]%lookup_insert_Some|H]%runs_mk; [right|by left|right].
    + by eapply list_elem_of_lookup_2.
    + by eapply list_elem_of_delete_inv.
  - apply (inv_fewer _ _ (ru_world r)); [done..|]. intros i args [H|H]%runs_mk; [by left|right]. by eapply list_elem_of_delete_inv.
Qed.

Definition plain_request : CreateVmRequest :=
  mkCreateVm "web" None None (Some [mkVmDisk "/dev/loop3" None "virtio" false None None None None None]) None None None None None None None None None.

Definition some_host : VmEnv :=
  mkVmEnv true false Some (fun _ => true) (Some ("/dev/loop4 /fs/tank/web/vol.img" +:+ nl +:+ "/dev/loop3 /fs/tank/db/vol.img" +:+ nl)) "7c9e" None None (fun _ => true)
    None None (fun _ => None) None None None None true.

Definition other_host : VmEnv :=
  mkVmEnv true false Some (fun _ => true) (vn_losetup some_host) "fresh" None None (fun _ => true) None None (fun _ => None) None None None None true.

(** A VM created and started, which stops answering, answers again, and is then
    asked to be deleted. *)
Definition ping_lost : list VmEvent :=
  [VmOperation some_host (VmOpCreate plain_request); VmOperation other_host (VmOpStart "7c9e"); VmFallsSilent "7c9e";
   VmAnswersAgain 0; VmOperation other_host (VmOpDelete "7c9e")].

Definition after (evs : list VmEvent) : VmRun := foldl (fun r ev => run_event ev r) (mkVmRun (mkVmWorld ∅ ∅ []) ∅) evs.

Lemma running_vm_matches_record_witness :
  vm_inv false (ru_touched (after ping_lost)) (ru_world (after ping_lost)) /\
  is_running (ru_world (after ping_lost)) "7c9e" = true /\ ru_touched (after ping_lost) = ∅.
Proof.
  split; [|split; vm_compute; reflexivity]. apply running_vm_matches_record.
  unfold after, ping_lost. cbn [foldl].
  apply vm_reach_step; [|split; vm_compute; reflexivity]. apply vm_reach_step; [|exact I]. apply vm_reach_step; [|exact I].
  apply vm_reach_step; [|split; vm_compute; reflexivity]. apply vm_reach_step; [constructor|split; vm_compute; reflexivity].
Defined.

(** The record of a VM that runs without answering is deleted. *)
Lemma silent_vm_deleted :
  let r := after [VmOperation some_host (VmOpCreate plain_request); VmOperation other_host (VmOpStart "7c9e"); VmFallsSilent "7c9e"; VmOperation other_host (VmOpDelete "7c9e")] in
  (vm_silent (ru_world r)).*1 = ["7c9e"] /\ load (vm_store (ru_world r)) "7c9e" = None.
Proof. vm_compute. split; reflexivity. Qed.

(** Two subvolumes whose names share the text before a blank: the loop device of
    one is taken for that of the other. *)
Lemma blank_in_backing_file_swaps_disks :
  let pairs := parse_losetup_pairs ("/dev/loop0 /fs/tank/my secrets/vol.img" +:+ nl +:+ "/dev/loop5 /fs/tank/my docs/vol.img" +:+ nl) in
  let disk path source := mkVmDisk path source "virtio" false None None None None None in
  resolve_disk_paths pairs (fst (backfill_disk_sources pairs [disk "/dev/loop5" None])) =
  Ok ([disk "/dev/loop0" (Some "/fs/tank/my")], true).
Proof. vm_compute. reflexivity. Qed.
