(* ===== verification/VmRoute.v ===== *)
(** * The VM requests (nasty-engine/src/router/vm.rs)

    The arms [vm.create], [vm.update], [vm.delete], [vm.start], [vm.stop] and
    [vm.kill], with requests already parsed: which fields of a VM make it
    equivalent to root, which disks an operator may attach, and whether a disk
    is in use elsewhere. *)

From Stdlib Require Import ZArith Lia Ascii String.
From stdpp Require Import base list gmap strings.
From S2P Require Import Prelude.
From S2P Require Import RustStr.
From S2P Require Import Text.
From S2P Require Import RustPath.
From S2P Require Import StateDir.
From S2P Require Import Net.
From S2P Require Import Auth.
From S2P Require Import ShareScope.
From S2P Require Import Subvol.
From S2P Require Import Vm.

Record Namespace : Type := mkNamespace {
  nn_nsid : Z;
  nn_device_path : string;
  nn_enabled : bool;
  nn_backing_volume : option BlockVolumeId;
  nn_backing_volume_unresolved : bool;
}.

(** What the other services answer. *)
Record VmRouteEnv : Type := mkVmRouteEnv {
  vr_vm : VmEnv;
  vr_subvolumes : result (list Subvolume) string;
  vr_vms_readable : result unit string;
  vr_iscsi : result (list (string * list Lun)) string;
  vr_nvmeof : result (list (string * list Namespace)) string;
  vr_mounts : result string string;
}.

Record VmRouteState : Type := mkVmRouteState { vs_vms : VmWorld; vs_audit : list (string * string) }.

Definition prefixed {A} (text : string) (r : result A string) : result A string :=
  match r with Ok a => Ok a | Err e => Err (text +:+ e) end.

Inductive VmRefusal : Type := VmRefused (msg : string) | VmFailed (e : VmError).

Abbreviation vmr A := (stm VmRouteState VmRefusal A).

Definition on_vms {A} (m : vmm A) : vmr A := fun st =>
  let '(w, r) := m (vs_vms st) in
  (mkVmRouteState w (vs_audit st), match r with Ok a => Ok a | Err e => Err (VmFailed e) end).

Definition refuse {A} (r : result A string) : vmr A := m_lift (match r with Ok a => Ok a | Err e => Err (VmRefused e) end).

Definition audit_vm (event reason : string) : vmr unit :=
  m_modify (fun st => mkVmRouteState (vs_vms st) (vs_audit st ++ [(event, reason)])).

Definition require_endpoint_access (session : Session) (access : EndpointAccess) (reason : string) (audit_allowed : bool) : vmr unit :=
  match authorize_session session access with
  | Ok _ => if audit_allowed then audit_vm "root_equivalent_requested" reason else m_ret tt
  | Err denied => audit_vm "permission_denied" reason ;;; m_throw (VmRefused (message denied))
  end.

Definition require_root_equivalent (session : Session) (reason : string) : vmr unit :=
  require_endpoint_access session RootEquivalent reason true.

Definition require_unscoped_mutation (session : Session) (reason : string) : vmr unit :=
  require_endpoint_access session UnscopedMutation reason false.

(** ** Disks *)

Definition canon_or_self (env : VmRouteEnv) (p : string) : string := default p (vn_canonicalize (vr_vm env) p).

(** Two paths are compared by component. *)
Definition paths_match (env : VmRouteEnv) (left right : string) : bool :=
  bool_decide (components (canon_or_self env left) = components (canon_or_self env right)).

Definition path_resolves_under_dev (env : VmRouteEnv) (path : string) : bool := path_starts_with (canon_or_self env path) "/dev".

Definition csi_consumer (properties : Options) : option string :=
  if existsb (fun kv : string * string => starts_with "nasty-csi:" kv.1) (map_to_list properties) then
    Some ("Kubernetes CSI volume (PVC " +:+ default "?" (properties !! "nasty-csi:pvc_namespace") +:+ "/" +:+
          default "?" (properties !! "nasty-csi:pvc_name") +:+ "); reserved even when not mounted")
  else None.

Definition volume_image (sv : Subvolume) : string := path_join (sb_path sv) "vol.img".

Definition disk_matches_subvolume (env : VmRouteEnv) (sv : Subvolume) (disk : VmDisk) : bool :=
  match vd_source disk with
  | Some saved => paths_match env saved (volume_image sv)
  | None => paths_match env (vd_path disk) (volume_image sv) ||
            match sb_block_device sv with Some p => paths_match env p (vd_path disk) | None => false end
  end.

Definition backing_key (d : VmDisk) : string := default (vd_path d) (vd_source d).

Definition disks_share_backing (env : VmRouteEnv) (left right : VmDisk) : bool := paths_match env (backing_key left) (backing_key right).

(** The escapes of /proc/mounts. *)
Fixpoint replace_text (fuel : nat) (from to l : bytes) : bytes :=
  match fuel with
  | O => l
  | S f => match bytes_prefix from l with
           | Some rest => to ++ replace_text f from to rest
           | None => match l with [] => [] | c :: l' => c :: replace_text f from to l' end
           end
  end.

Definition str_replace (from to s : string) : string :=
  of_bytes (replace_text (S (String.length s)) (to_bytes from) (to_bytes to) (to_bytes s)).

Definition decode_mount_field (field : string) : string :=
  str_replace "\134" "\" (str_replace "\012" (String (chr 10) "") (str_replace "\011" (String (chr 9) "") (str_replace "\040" " " field))).

Definition mounted_disk_consumers (env : VmRouteEnv) (device mounts : string) : list string :=
  omap (fun l => match split_whitespace l with
                 | source :: mountpoint :: _ =>
                     if paths_match env device (decode_mount_field source)
                     then Some ("Local mount '" +:+ decode_mount_field mountpoint +:+ "'") else None
                 | _ => None
                 end) (str_lines mounts).

(** The device or the identity of the subvolume. *)
Definition backs (env : VmRouteEnv) (sv : Subvolume) (identity : option BlockVolumeId) (path : string) : bool :=
  match sb_block_volume_id sv with Some id => bool_decide (identity = Some id) | None => false end ||
  match sb_block_device sv with Some p => paths_match env p path | None => false end.

Definition vms_strict (env : VmRouteEnv) (w : VmWorld) : result (list (VmConfig * bool)) string :=
  _ <-? prefixed "cannot verify VM disk usage: " (vr_vms_readable env) ;; Ok (vm_list w).

Definition vm_consumers (env : VmRouteEnv) (sv : Subvolume) (except_vm : option string) (vms : list (VmConfig * bool)) : list string :=
  omap (fun v : VmConfig * bool =>
    if bool_decide (except_vm = Some (vc_id v.1)) then None
    else if existsb (disk_matches_subvolume env sv) (vc_disks v.1)
    then Some ("VM '" +:+ vc_name v.1 +:+ "' (" +:+ (if v.2 then "running" else "stopped") +:+ ")") else None) vms.

Definition disk_consumers (env : VmRouteEnv) (w : VmWorld) (sv : Subvolume) (except_vm : option string) : result (list string) string :=
  vms <-? vms_strict env w ;;
  targets <-? prefixed "cannot verify iSCSI usage: " (vr_iscsi env) ;;
  subsystems <-? prefixed "cannot verify NVMe-oF usage: " (vr_nvmeof env) ;;
  mounts <-? prefixed "cannot verify local mounts: " (vr_mounts env) ;;
  Ok (option_list (csi_consumer (sb_properties sv)) ++ vm_consumers env sv except_vm vms ++
      omap (fun t : string * list Lun => if existsb (fun l => backs env sv (backing_volume l) (backstore_path l)) t.2
                    then Some ("iSCSI target '" +:+ t.1 +:+ "'") else None) targets ++
      omap (fun s : string * list Namespace => if existsb (fun n => backs env sv (nn_backing_volume n) (nn_device_path n)) s.2
                    then Some ("NVMe-oF subsystem '" +:+ s.1 +:+ "'") else None) subsystems ++
      match sb_block_device sv with Some device => mounted_disk_consumers env device mounts | None => [] end).

Definition block_volume_id_for_device (env : VmRouteEnv) (device_path : string) : result (option BlockVolumeId) string :=
  all <-? vr_subvolumes env ;;
  match find_first (fun sv => bool_decide (sb_type sv = SvBlock) && bool_decide (sb_block_device sv = Some device_path)) all with
  | Some sv => match sb_block_volume_id sv with
               | Some id => Ok (Some id)
               | None => Err ("command failed: managed block device " +:+ device_path +:+ " has no stable bcachefs identity")
               end
  | None => Ok None
  end.

(** The device, or a volume with the same identity. *)
Definition exports (identity : option BlockVolumeId) (device_path : string) (backing : option BlockVolumeId) (path : string) : bool :=
  String.eqb path device_path || match identity with Some id => bool_decide (backing = Some id) | None => false end.

(** [check_block_device_conflict] with the protocol [vm] excluded. *)
Definition check_block_device_conflict (env : VmRouteEnv) (device_path : string) : option string :=
  match block_volume_id_for_device env device_path with
  | Err e => Some e
  | Ok identity =>
      match vr_iscsi env with
      | Err e => Some ("cannot verify iSCSI device conflicts because state failed to load: " +:+ e)
      | Ok targets =>
          match find_first (fun t : string * list Lun => existsb (fun l => exports identity device_path (backing_volume l) (backstore_path l)) t.2) targets with
          | Some t => Some ("device " +:+ device_path +:+ " is already exported via iSCSI (target '" +:+ t.1 +:+ "')")
          | None =>
              match vr_nvmeof env with
              | Err e => Some ("cannot verify NVMe-oF device conflicts because state failed to load: " +:+ e)
              | Ok subs =>
                  match find_first (fun s : string * list Namespace => existsb (fun n => exports identity device_path (nn_backing_volume n) (nn_device_path n)) s.2) subs with
                  | Some s => Some ("device " +:+ device_path +:+ " is already exported via NVMe-oF (subsystem '" +:+ s.1 +:+ "')")
                  | None => None
                  end
              end
          end
      end
  end.

(** No disk twice in one VM. *)
Fixpoint no_repeats (env : VmRouteEnv) (seen disks : list VmDisk) : bool :=
  match disks with
  | [] => true
  | d :: rest => negb (existsb (disks_share_backing env d) seen) && no_repeats env (seen ++ [d]) rest
  end.

Definition check_new_vm_disk (env : VmRouteEnv) (w : VmWorld) (managed : list Subvolume) (vms : list (VmConfig * bool))
    (disks existing : list VmDisk) (vm_id : option string) (disk : VmDisk) : result unit string :=
  if existsb (fun d => bool_decide (vd_source d = vd_source disk) && paths_match env (vd_path d) (vd_path disk)) existing then Ok tt
  else
    match find_first (fun v : VmConfig * bool => negb (bool_decide (vm_id = Some (vc_id v.1))) && existsb (fun d => disks_share_backing env d disk) (vc_disks v.1)) vms with
    | Some v => Err ("Disk is already attached to VM '" +:+ vc_name v.1 +:+ "'. Detach it there first.")
    | None =>
        match find_first (fun sv => disk_matches_subvolume env sv disk) managed with
        | Some sv =>
            guard? (length (List.filter (disk_matches_subvolume env sv) disks) <=? 1)%nat
              else "The same backing disk cannot be attached twice to one VM" ;;
            consumers <-? disk_consumers env w sv vm_id ;;
            match consumers with
            | [] => Ok tt
            | _ => Err ("Cannot attach " +:+ sb_filesystem sv +:+ "/" +:+ sb_name sv +:+ ": " +:+ str_join "; " consumers)
            end
        | None => match check_block_device_conflict env (vd_path disk) with Some reason => Err reason | None => Ok tt end
        end
    end.

Definition check_new_vm_disks (env : VmRouteEnv) (w : VmWorld) (disks existing : list VmDisk) (vm_id : option string) : result unit string :=
  match disks with
  | [] => Ok tt
  | _ =>
      guard? no_repeats env [] disks else "The same backing disk cannot be attached twice to one VM" ;;
      managed <-? prefixed "cannot verify disk inventory: " (vr_subvolumes env) ;;
      vms <-? vms_strict env w ;;
      try_each (check_new_vm_disk env w managed vms disks existing vm_id) disks
  end.

(** ** Payloads *)

Record VmSecurityFields : Type := mkSecurityFields {
  sf_disks : list VmDisk;
  sf_cdroms : list string;
  sf_legacy_boot_iso : option string;
  sf_passthrough_devices : list PassthroughDevice;
  sf_usb_devices : list UsbPassthrough;
  sf_extra_args : option (list string);
  sf_cpu_model : option string;
  sf_machine_type : option string;
  sf_vga : option string;
}.

Record ManagedVmDisk : Type := mkManagedVmDisk { md_device : option string; md_source : string }.

Definition operator_disk_is_safe (env : VmRouteEnv) (managed : list ManagedVmDisk) (disk : VmDisk) : bool :=
  match vd_source disk with
  | Some source => existsb (fun m => paths_match env source (md_source m)) managed
  | None => if negb (path_resolves_under_dev env (vd_path disk)) then true
            else existsb (fun m => match md_device m with Some device => paths_match env (vd_path disk) device | None => false end) managed
  end.

Definition nonempty {A} (l : list A) : bool := match l with [] => false | _ => true end.

Definition vm_security_reason (env : VmRouteEnv) (fields : VmSecurityFields) (managed : list ManagedVmDisk) : option string :=
  if nonempty (sf_passthrough_devices fields) then Some "pci_passthrough"
  else if nonempty (sf_usb_devices fields) then Some "usb_passthrough"
  else if match sf_extra_args fields with Some args => nonempty args | None => false end then Some "raw_qemu_arguments"
  else if unsupported [""; "host"; "max"; "qemu64"] (sf_cpu_model fields) || unsupported [""; "q35"; "i440fx"] (sf_machine_type fields)
          || unsupported [""; "virtio"; "qxl"; "std"; "none"] (sf_vga fields)
  then Some "custom_qemu_hardware"
  else if existsb (path_resolves_under_dev env) (sf_cdroms fields)
          || match sf_legacy_boot_iso fields with Some iso => path_resolves_under_dev env iso | None => false end
  then Some "raw_vm_cdrom"
  else if existsb (fun d => negb (operator_disk_is_safe env managed d)) (sf_disks fields) then Some "unmanaged_vm_disk"
  else None.

(** The block subvolumes of the session's scope. *)
Definition is_managed_disk (session : Session) (sv : Subvolume) : bool :=
  resource_matches_scope (sb_filesystem sv) (sb_owner sv) (s_filesystem session) (s_owner session)
  && bool_decide (sb_type sv = SvBlock) && is_some (sb_block_volume_id sv).

Definition managed_vm_disks (env : VmRouteEnv) (session : Session) : result (list ManagedVmDisk) string :=
  subvolumes <-? vr_subvolumes env ;;
  Ok ((fun sv => mkManagedVmDisk (sb_block_device sv) (volume_image sv)) <$> List.filter (is_managed_disk session) subvolumes).

(** The scope test of shares sees the same subvolumes. *)
Definition scope_view (sv : Subvolume) : ScopeSubvolume :=
  mkScopeSubvolume (sb_filesystem sv) (sb_owner sv) (sb_type sv) (sb_path sv) (sb_block_device sv) (sb_block_volume_id sv).

Definition scope_env (env : VmRouteEnv) : ScopeEnv :=
  mkScopeEnv (vn_canonicalize (vr_vm env)) (vn_exists (vr_vm env))
    (subvolumes <-? vr_subvolumes env ;; Ok (scope_view <$> subvolumes)) (block_volume_id_for_device env).

(** The files of a VM that are not managed disks. *)
Definition plain_files (env : VmRouteEnv) (fields : VmSecurityFields) : list string :=
  (vd_path <$> List.filter (fun d => negb (is_some (vd_source d)) && negb (path_resolves_under_dev env (vd_path d))) (sf_disks fields))
  ++ sf_cdroms fields ++ option_list (sf_legacy_boot_iso fields).

(** The files of a scoped session are of its scope. *)
Definition require_scoped_files (env : VmRouteEnv) (session : Session) (fields : VmSecurityFields) : vmr unit :=
  if session_is_scoped session
  then refuse (try_each (fun p => _ <-? authorize_path_source (scope_env env) session p ;; Ok tt) (plain_files env fields))
  else m_ret tt.

Definition require_vm_payload_access (env : VmRouteEnv) (session : Session) (fields : VmSecurityFields) : vmr unit :=
  if session_is_scoped session && negb (nonempty (sf_disks fields))
  then require_unscoped_mutation session "vm_without_scoped_backing_disk"
  else
  require_scoped_files env session fields ;;;
  match vm_security_reason env fields [] with
  | None => m_ret tt
  | Some reason =>
      if negb (String.eqb reason "unmanaged_vm_disk") || (role_eqb (s_role session) Admin && negb (session_is_scoped session))
      then require_root_equivalent session reason
      else
        managed <~ refuse (managed_vm_disks env session) ;;
        match vm_security_reason env fields managed with
        | Some reason => require_root_equivalent session reason
        | None => m_ret tt
        end
  end.

Definition fields_of (c : VmConfig) : VmSecurityFields :=
  mkSecurityFields (vc_disks c) (vc_cdroms c) (vc_boot_iso c) (vc_passthrough_devices c) (vc_usb_devices c) (vc_extra_args c)
    (vc_cpu_model c) (vc_machine_type c) (vc_vga c).

Definition existing_vm_access_error (env : VmRouteEnv) (session : Session) (id : string) : vmr unit :=
  if negb (session_is_scoped session) then m_ret tt
  else status <~ on_vms (vm_get id) ;; require_vm_payload_access env session (fields_of (fst status)).

(** ** Requests *)

Definition route_vm_create (env : VmRouteEnv) (session : Session) (p : CreateVmRequest) : vmr VmConfig :=
  require_vm_payload_access env session
    (mkSecurityFields (default [] (cr_disks p)) (default [] (cr_cdroms p)) (cr_boot_iso p) (default [] (cr_passthrough_devices p))
       (default [] (cr_usb_devices p)) None None None None) ;;;
  st <~ m_get ;;
  refuse (check_new_vm_disks env (vs_vms st) (default [] (cr_disks p)) [] None) ;;;
  on_vms (vm_create (vr_vm env) p).

Definition changes_security (p : UpdateVmRequest) : bool :=
  is_some (ur_disks p) || is_some (ur_passthrough_devices p) || is_some (ur_usb_devices p) || is_some (ur_cdroms p)
  || is_some (ur_boot_iso p) || is_some (ur_extra_args p) || is_some (ur_cpu_model p) || is_some (ur_machine_type p)
  || is_some (ur_vga p) || bool_decide (ur_autostart p = Some true).

Definition updated_fields (p : UpdateVmRequest) (existing : VmConfig) : VmSecurityFields :=
  mkSecurityFields (default (vc_disks existing) (ur_disks p))
    (match ur_cdroms p, ur_boot_iso p with Some cdroms, _ => cdroms | None, Some _ => [] | None, None => vc_cdroms existing end)
    (if is_some (ur_cdroms p) || is_some (ur_boot_iso p) then ur_boot_iso p else vc_boot_iso existing)
    (default (vc_passthrough_devices existing) (ur_passthrough_devices p)) (default (vc_usb_devices existing) (ur_usb_devices p))
    (given_or (ur_extra_args p) (vc_extra_args existing)) (given_or (ur_cpu_model p) (vc_cpu_model existing))
    (given_or (ur_machine_type p) (vc_machine_type existing)) (given_or (ur_vga p) (vc_vga existing)).

Definition route_vm_update (env : VmRouteEnv) (session : Session) (p : UpdateVmRequest) : vmr VmConfig :=
  existing_vm_access_error env session (ur_id p) ;;;
  (if changes_security p then
     status <~ on_vms (vm_get (ur_id p)) ;; require_vm_payload_access env session (updated_fields p (fst status))
   else m_ret tt) ;;;
  match ur_disks p with
  | Some disks =>
      status <~ on_vms (vm_get (ur_id p)) ;;
      st <~ m_get ;;
      refuse (check_new_vm_disks env (vs_vms st) disks (vc_disks (fst status)) (Some (ur_id p)))
  | None => m_ret tt
  end ;;;
  on_vms (vm_update (vr_vm env) p).

Definition route_vm_delete (env : VmRouteEnv) (session : Session) (id : string) : vmr unit :=
  existing_vm_access_error env session id ;;; on_vms (vm_delete (vr_vm env) id).

Definition route_vm_start (env : VmRouteEnv) (session : Session) (id : string) : vmr (VmConfig * bool) :=
  status <~ on_vms (vm_get id) ;;
  require_vm_payload_access env session (fields_of (fst status)) ;;;
  st <~ m_get ;;
  refuse (check_new_vm_disks env (vs_vms st) (vc_disks (fst status)) [] (Some id)) ;;;
  on_vms (vm_start (vr_vm env) id).

Definition route_vm_stop (env : VmRouteEnv) (session : Session) (id : string) : vmr unit :=
  existing_vm_access_error env session id ;;; on_vms (vm_stop (vr_vm env) id).

Definition route_vm_kill (env : VmRouteEnv) (session : Session) (id : string) : vmr unit :=
  existing_vm_access_error env session id ;;; on_vms (vm_kill (vr_vm env) id).
