(* ===== verification/VmConfine.v ===== *)
(** * What an operator's VM can reach

    A VM started by anyone but an unscoped administrator opens only files of the
    filesystems, in the scope of the session, and the block subvolumes of that
    scope, and gets no host device; and a disk attached is not in use
    elsewhere. *)

From Stdlib Require Import ZArith Lia Ascii String.
From stdpp Require Import base list gmap strings.
From S2P Require Import Prelude.
From S2P Require Import RustStr.
From S2P Require Import Text.
From S2P Require Import RustPath.
From S2P Require Import StateDir.
From S2P Require Import Net.
From S2P Require Import Auth.
From S2P Require Import ShareScope.
From S2P Require Import Subvol.
From S2P Require Import SubvolNames.
From S2P Require Import Vm.
From S2P Require Import VmProps.
From S2P Require Import VmLife.
From S2P Require Import VmRoute.

(** A file below the filesystems, in the scope of the session. *)
Definition open_file (env : VmRouteEnv) (session : Session) (f : string) : Prop :=
  exists p, vn_canonicalize (vr_vm env) f = Some p /\ starts_with "/fs/" p = true /\
    (session_is_scoped session = true -> exists c, authorize_path_source (scope_env env) session f = Ok c).

(** The loop device of a block subvolume of the scope. *)
Definition managed_device (env : VmRouteEnv) (session : Session) (f : string) : Prop :=
  exists all sv, vr_subvolumes env = Ok all /\ sv ∈ all /\ is_managed_disk session sv = true /\
    ((exists s, paths_match env s (volume_image sv) = true /\ device_for_backing_file (losetup_pairs (vr_vm env)) s = Some f) \/
     (exists dev, sb_block_device sv = Some dev /\ paths_match env f dev = true)).

(** losetup's output, whose backing files are read up to the first blank, lists
    another device under the same file. *)
Definition shared_entry (env : VmRouteEnv) (f : string) : Prop :=
  exists s other, other <> f /\ (f, s) ∈ losetup_pairs (vr_vm env) /\ (other, s) ∈ losetup_pairs (vr_vm env).

Lemma existsb_exists_false {A} (f : A -> bool) l x : existsb f l = false -> In x l -> f x = true -> False.
Proof. intros H Hx Hf. assert (existsb f l = true); [apply existsb_exists; by exists x|congruence]. Qed.

Section Operator.
Context (env : VmRouteEnv) (session : Session).
Hypothesis Hnot_root : authorize_session session RootEquivalent <> Ok tt.

Lemma root_denied reason st : exists st' e, require_root_equivalent session reason st = (st', Err e).
Proof.
  unfold require_root_equivalent, require_endpoint_access. destruct (authorize_session session RootEquivalent) as [[]|]; [done|].
  eexists _, _. reflexivity.
Qed.

Lemma try_each_ok {A E} (f : A -> result unit E) l : try_each f l = Ok tt -> Forall (fun x => f x = Ok tt) l.
Proof. rewrite try_each_spec. intros H. apply Forall_forall. intros x Hx. by apply H. Qed.

Lemma scoped_files_ok fields st st' : require_scoped_files env session fields st = (st', Ok tt) ->
  vs_vms st' = vs_vms st /\
  (session_is_scoped session = true -> Forall (fun p => exists c, authorize_path_source (scope_env env) session p = Ok c) (plain_files env fields)).
Proof.
  unfold require_scoped_files. destruct (session_is_scoped session); [|by intros [= <-]].
  unfold refuse, m_lift. destruct (try_each _ _) as [[]|] eqn:Et; [|done]. intros [= <-]. split; [done|]. intros _.
  apply try_each_ok in Et. eapply Forall_impl; [exact Et|]. intros p Hp. cbn in Hp. destruct (authorize_path_source _ _ p) as [c|]; [by exists c|done].
Qed.

Lemma scoped_no_mutation reason st st' : session_is_scoped session = true -> require_unscoped_mutation session reason st <> (st', Ok tt).
Proof.
  unfold require_unscoped_mutation, require_endpoint_access. intros Hs. destruct (authorize_session session UnscopedMutation) as [[]|] eqn:E; [|done].
  exfalso. revert E. unfold session_is_scoped in Hs. unfold authorize_session. rewrite Hs.
  by destruct (s_must_change_password session), (s_role session).
Qed.

(** What passing the gate says. *)
Lemma payload_ok fields st st' :
  require_vm_payload_access env session fields st = (st', Ok tt) ->
  vs_vms st' = vs_vms st /\
  (session_is_scoped session = true -> Forall (fun p => exists c, authorize_path_source (scope_env env) session p = Ok c) (plain_files env fields)) /\
  exists managed, (managed = [] \/ managed_vm_disks env session = Ok managed) /\ vm_security_reason env fields managed = None.
Proof.
  unfold require_vm_payload_access. destruct (session_is_scoped session && _) eqn:Esc.
  { apply andb_prop in Esc as [Esc _]. intros E. exfalso. exact (scoped_no_mutation _ _ _ Esc E). }
  unfold m_bind at 1. destruct (require_scoped_files env session fields st) as [st1 [[]|]] eqn:E1; [|done].
  apply scoped_files_ok in E1 as [Hs1 Hs2].
  destruct (vm_security_reason env fields []) as [reason|] eqn:Er.
  2:{ intros [= <-]. split_and!; [done..|]. exists []. by split; [left|]. }
  destruct (_ || _); [destruct (root_denied reason st1) as (s & e & ->); done|].
  unfold m_bind, refuse, m_lift. destruct (managed_vm_disks env session) as [managed|] eqn:Em; [|done].
  destruct (vm_security_reason env fields managed) as [reason2|] eqn:Er2; [destruct (root_denied reason2 st1) as (s & e & ->); done|].
  intros [= <-]. split_and!; [done..|]. exists managed. by split; [right|].
Qed.

(** A VM without a reason for refusal. *)
Lemma security_none fields managed : vm_security_reason env fields managed = None ->
  sf_passthrough_devices fields = [] /\ sf_usb_devices fields = [] /\ default [] (sf_extra_args fields) = [] /\
  Forall (fun iso => path_resolves_under_dev env iso = false) (sf_cdroms fields) /\
  Forall (fun d => operator_disk_is_safe env managed d = true) (sf_disks fields).
Proof.
  unfold vm_security_reason. destruct (sf_passthrough_devices fields); [|done]. destruct (sf_usb_devices fields); [|done]. cbn [nonempty].
  destruct (match sf_extra_args fields with Some args => nonempty args | None => false end) eqn:Ex; [done|].
  destruct (unsupported _ _ || _ || _); [done|]. destruct (existsb (path_resolves_under_dev env) (sf_cdroms fields)) eqn:Ec; [done|]. cbn [orb].
  destruct (match sf_legacy_boot_iso fields with Some _ => _ | None => _ end); [done|]. destruct (existsb _ (sf_disks fields)) eqn:Ed; [done|]. intros _.
  split_and!; [done..| | |].
  - destruct (sf_extra_args fields) as [[|]|]; done.
  - apply Forall_forall. intros x Hx. apply not_true_is_false. intros E. apply (existsb_exists_false _ _ x Ec); [by apply list_elem_of_In|done].
  - apply Forall_forall. intros x Hx. destruct (operator_disk_is_safe env managed x) eqn:E; [done|].
    exfalso. apply (existsb_exists_false _ _ x Ed); [by apply list_elem_of_In|by rewrite E].
Qed.

(** ** Files and devices *)

Lemma below_dev p : starts_with "/dev/" p = true -> path_starts_with p "/dev" = true.
Proof.
  intros [r ->]%starts_with_spec. apply starts_with_prefix. change ("/dev/" +:+ r) with ("/dev" +:+ String "/" r).
  rewrite components_below by reflexivity. by eexists.
Qed.

Lemma file_not_device path : validate_vm_path (vr_vm env) path = Ok tt -> path_resolves_under_dev env path = false ->
  exists p, vn_canonicalize (vr_vm env) path = Some p /\ starts_with "/fs/" p = true.
Proof.
  unfold validate_vm_path, path_resolves_under_dev, canon_or_self. destruct (vn_canonicalize (vr_vm env) path) as [p|]; [|done]. cbn [ok_or result_bind default].
  destruct (starts_with "/fs/" p) eqn:Ef; [by exists p|]. destruct (starts_with "/dev/" p) eqn:Ed; [|done]. intros _ H. apply below_dev in Ed. cbn in H. congruence.
Qed.

Lemma check_disk_path vm d : check_disk vm d = Ok tt -> validate_vm_disk d = Ok tt /\ validate_vm_path vm (vd_path d) = Ok tt.
Proof. unfold check_disk. destruct (validate_vm_disk d) as [[]|]; [|done]. cbn. by destruct (vn_exists _ _). Qed.

Lemma check_iso_path vm iso : check_iso vm iso = Ok tt -> validate_qemu_drive_value "CD-ROM path" iso = Ok tt /\ validate_vm_path vm iso = Ok tt.
Proof. unfold check_iso. destruct (validate_qemu_drive_value _ iso) as [[]|]; [|done]. cbn. by destruct (vn_exists _ _). Qed.

(** A disk found by its path keeps it, unless another device is listed under the
    same backing file. *)
Lemma healed_path pairs d d' : healed pairs d d' -> vd_source d = None ->
  vd_path d' = vd_path d \/ exists s, vd_path d <> vd_path d' /\ (vd_path d', s) ∈ pairs /\ (vd_path d, s) ∈ pairs.
Proof.
  intros [_ Hp _ Hn] Hs. destruct (vd_source d') as [s|] eqn:Es; [|by left]. destruct (Hn s Hs eq_refl) as [_ Hb].
  unfold device_for_backing_file in Hp. unfold backing_file_for_device in Hb.
  destruct (find_first _ pairs) as [[a b]|] eqn:E1 in Hp; [|done]. destruct (find_first _ pairs) as [[a' b']|] eqn:E2 in Hb; [|done].
  apply find_first_Some in E1 as [H1 F1%String.eqb_eq], E2 as [H2 F2%String.eqb_eq]. cbn in *. simplify_eq.
  destruct (decide (vd_path d = vd_path d')) as [|Hne]; [by left|right]. by exists s.
Qed.

Lemma managed_elem managed m : (managed = [] \/ managed_vm_disks env session = Ok managed) -> In m managed ->
  exists all sv, vr_subvolumes env = Ok all /\ sv ∈ all /\ is_managed_disk session sv = true /\ m = mkManagedVmDisk (sb_block_device sv) (volume_image sv).
Proof.
  intros [->|H] Hm; [done|]. unfold managed_vm_disks in H. destruct (vr_subvolumes env) as [all|]; [|done]. cbn in H. injection H as <-.
  apply list_elem_of_In, list_elem_of_fmap in Hm as (sv & -> & Hsv). apply elem_of_filter_bool in Hsv as [Hsv Hs]. by exists all, sv.
Qed.

(** A safe disk, as it is when the VM starts. *)
Lemma safe_disk managed files d d' :
  (managed = [] \/ managed_vm_disks env session = Ok managed) ->
  (session_is_scoped session = true -> Forall (fun p => exists c, authorize_path_source (scope_env env) session p = Ok c) files) ->
  (vd_source d = None -> path_resolves_under_dev env (vd_path d) = false -> vd_path d ∈ files) ->
  operator_disk_is_safe env managed d = true -> healed (losetup_pairs (vr_vm env)) d d' -> validate_vm_path (vr_vm env) (vd_path d') = Ok tt ->
  open_file env session (vd_path d') \/ managed_device env session (vd_path d') \/ shared_entry env (vd_path d').
Proof.
  intros Hman Hsc Hin Hsafe Hh Hv. unfold operator_disk_is_safe in Hsafe. destruct (vd_source d) as [s|] eqn:Es.
  - right. left. apply existsb_exists in Hsafe as (m & Hm & Hp). destruct (managed_elem _ _ Hman Hm) as (all & sv & Hall & Hsv & Hms & ->).
    exists all, sv. split_and!; [done..|]. left. exists s. split; [done|]. pose proof (hl_path _ _ _ Hh) as Hpath. by rewrite (hl_kept _ _ _ Hh s Es) in Hpath.
  - destruct (healed_path _ _ _ Hh Es) as [Heq|(s & Hs)]; [|right; right; by exists s, (vd_path d)].
    rewrite Heq in *. destruct (path_resolves_under_dev env (vd_path d)) eqn:Ed; cbn [negb] in Hsafe.
    + right. left. apply existsb_exists in Hsafe as (m & Hm & Hp). destruct (managed_elem _ _ Hman Hm) as (all & sv & Hall & Hsv & Hms & ->).
      exists all, sv. split_and!; [done..|]. right. cbn in Hp. destruct (sb_block_device sv) as [dev|]; [|done]. by exists dev.
    + left. destruct (file_not_device _ Hv Ed) as (p & Hp & Hf). exists p. split_and!; [done..|]. intros Hs.
      specialize (Hsc Hs). rewrite Forall_forall in Hsc. by apply Hsc, Hin.
Qed.
End Operator.

(** Where an entry of a list of options comes from. *)
Ltac entries H :=
  first [by apply elem_of_nil in H | apply elem_of_app in H as [H|H]; entries H
        | apply elem_of_cons in H as [H|H]; [first [discriminate H|injection H as H; try subst]|entries H]].

Lemma given_no_key {A} k (g : A -> string) o key v : k <> key -> (key, v) ∉ given k g o.
Proof. intros Hk H. destruct o; cbn in H; [|by apply elem_of_nil in H]. apply list_elem_of_singleton in H. congruence. Qed.

(** The files of the drives of a VM. *)
Lemma drive_files c f opts : opts ∈ drives_of c -> ("file", f) ∈ opts ->
  f = OVMF_CODE \/ f = ovmf_vars_path (vc_id c) \/ (exists d, d ∈ vc_disks c /\ f = vd_path d) \/ f ∈ vc_cdroms c.
Proof.
  unfold drives_of, firmware_of. rewrite !elem_of_app. intros [Ho|[Ho|Ho]] Hf.
  - destruct (vc_uefi c); [|by apply elem_of_nil in Ho]. apply elem_of_cons in Ho as [->|Ho%list_elem_of_singleton]; [|subst opts]; entries Hf; auto.
  - right; right; left. apply elem_of_lookup_imap in Ho as (i & d & -> & Hd). apply list_elem_of_lookup_2 in Hd. exists d. split; [done|].
    unfold drive_of in Hf. rewrite !elem_of_app in Hf. destruct Hf as [Hf|[Hf|[Hf|[Hf|[Hf|[Hf|Hf]]]]]]; try (by apply given_no_key in Hf); [by entries Hf|].
    destruct (vd_readonly d); entries Hf.
  - right; right; right. apply elem_of_lookup_imap in Ho as (i & iso & -> & Hd). apply list_elem_of_lookup_2 in Hd. unfold cdrom_of in Hf. by entries Hf.
Qed.

Lemma try_each_bind {A B E} (f : A -> result unit E) l (k : result B E) r : (_ <-? try_each f l ;; k) = Ok r -> Forall (fun x => f x = Ok tt) l /\ k = Ok r.
Proof. destruct (try_each f l) as [[]|] eqn:E1; [|done]. intros H. split; [by apply try_each_ok|done]. Qed.

Lemma ready_checks vm c : ready_to_start vm c = Ok tt ->
  Forall (fun d => check_disk vm d = Ok tt) (vc_disks c) /\ Forall (fun iso => check_iso vm iso = Ok tt) (vc_cdroms c) /\
  Forall (fun n => validate_vm_network n = Ok tt) (vc_networks c).
Proof. unfold ready_to_start, validate_vm_network_values. intros (H1 & (H2 & (H3 & _)%try_each_bind)%try_each_bind)%try_each_bind. done. Qed.

(** The record of a VM that an operator has started. *)
Lemma started_plain vm c : ready_to_start vm c = Ok tt -> no_char "," (vc_id c) -> vc_passthrough_devices c = [] -> vc_usb_devices c = [] ->
  vm_plain c.
Proof.
  intros (Hd & Hi & Hn)%ready_checks Hid Hp Hu. split; try done.
  - eapply Forall_impl; [exact Hd|]. intros d H. by apply check_disk_path in H as [H _].
  - eapply Forall_impl; [exact Hi|]. intros d H. by apply check_iso_path in H as [H _].
  - by rewrite Hu.
  - by rewrite Hp.
Qed.

(** What starting a VM over the API has established. *)
Lemma route_start_ok env session id st st' r :
  authorize_session session RootEquivalent <> Ok tt -> route_vm_start env session id st = (st', Ok r) ->
  exists c st1 c', load (vm_store (vs_vms st)) id = Some c /\
    require_vm_payload_access env session (fields_of (migrate_cdroms c)) st = (st1, Ok tt) /\ vs_vms st1 = vs_vms st /\
    check_new_vm_disks env (vs_vms st) (vc_disks c) [] (Some id) = Ok tt /\
    start_outcome (vr_vm env) id c (vs_vms st) (vs_vms st') (Ok (c', true)).
Proof.
  intros Hroot. unfold route_vm_start, m_bind at 1, on_vms at 1, vm_get. destruct (load (vm_store (vs_vms st)) id) as [c|] eqn:Hc; [|done].
  cbn [ok_or result_bind fst]. destruct st as [w audit]. cbn [vs_vms vs_audit] in *. unfold m_bind at 1.
  destruct (require_vm_payload_access env session (fields_of (migrate_cdroms c)) (mkVmRouteState w audit)) as [st1 [[]|]] eqn:Ep; [|done].
  destruct (payload_ok env session Hroot _ _ _ Ep) as (Hw & _ & _). cbn [vs_vms] in Hw.
  unfold m_bind at 1, m_get, m_bind at 1, refuse, m_lift. destruct (migrate_id c) as [_ ->]. rewrite Hw.
  destruct (check_new_vm_disks env w (vc_disks c) [] (Some id)) as [[]|] eqn:Ec; [|done].
  unfold on_vms. rewrite Hw. pose proof (vm_start_outcome (vr_vm env) id c w Hc) as Hs. destruct (vm_start (vr_vm env) id w) as [w' [[c' b]|e]] eqn:Es; [|done].
  intros [= <- <-]. exists c, st1, c'. cbn [vs_vms]. split_and!; try done. assert (b = true) as ->; [|done].
  unfold vm_start, m_bind, m_lift, m_get, m_ret, m_throw in Es. rewrite Hc in Es. cbn [ok_or] in Es. destruct (is_running w id); [done|].
  destruct (negb (vn_kvm (vr_vm env))); [done|]. destruct (heal_disks _ _ _ _) as [w1 [c1|]]; [|done]. destruct (ready_to_start _ _); [|done].
  destruct (launch _ _ _ _) as [w2 [[]|]]; [|done]. by injection Es as _ _ <-.
Qed.

(** C11. An operator's VM stays inside.  When a session that is not an unscoped
    administrator's starts a VM whose record is kept under its id, an id without
    commas, QEMU opens as drives only the firmware, the VM's own firmware
    variables, files below /fs that are in the scope of the session if it has
    one, and the loop devices of block subvolumes in that scope, whatever the
    loop devices are numbered now; it gets no device of the host, and no raw
    argument.  The one exception is a drive on a loop device that shares its
    backing file, as losetup's output is read, with another device: names that
    agree up to a blank are then confused, see
    [VmLife.blank_in_backing_file_swaps_disks]. *)
Theorem operator_vm_confined env session id st st' r :
  authorize_session session RootEquivalent <> Ok tt ->
  (forall c, load (vm_store (vs_vms st)) id = Some c -> vc_id c = id) -> no_char "," id ->
  route_vm_start env session id st = (st', Ok r) ->
  exists args, vm_running (vs_vms st') = <[id := args]> (vm_running (vs_vms st)) /\
    (forall opts f, opts ∈ values_of "-drive" args -> ("file", f) ∈ opts ->
       f = OVMF_CODE \/ f = ovmf_vars_path id \/ open_file env session f \/ managed_device env session f \/ shared_entry env f) /\
    (forall opts, opts ∈ values_of "-device" args -> ~ (("vfio-pci", "") ∈ opts) /\ ~ (("usb-host", "") ∈ opts)) /\
    exists c, args = build_qemu_args (vr_vm env) c /\ default [] (vc_extra_args c) = [].
Proof.
  intros Hroot Hkey Hcomma (c & st1 & c' & Hc & Hp & _ & _ & Hs)%route_start_ok; [|done].
  destruct (payload_ok env session Hroot _ _ _ Hp) as (_ & Hscope & managed & Hman & Hreason).
  destruct (security_none _ _ _ Hreason) as (Hpt & Husb & Hex & Hcd & Hdisks). cbn [fields_of sf_disks sf_cdroms sf_passthrough_devices sf_usb_devices sf_extra_args] in *.
  destruct (so_done _ _ _ _ _ _ Hs c' true eq_refl) as (_ & Hc' & Hheal & Hready & Hrun). destruct (migrate_id c) as [Hid Hds]. rewrite Hds in *.
  pose proof (f_equal vc_id Hc') as Eid. pose proof (f_equal vc_passthrough_devices Hc') as E1. pose proof (f_equal vc_usb_devices Hc') as E2.
  pose proof (f_equal vc_extra_args Hc') as E3. pose proof (f_equal vc_cdroms Hc') as Ecd.
  cbn [vc_id vc_passthrough_devices vc_usb_devices vc_extra_args vc_cdroms with_disks] in Eid, E1, E2, E3, Ecd.
  rewrite Hid, (Hkey c Hc) in Eid. rewrite Hpt in E1. rewrite Husb in E2. rewrite <- E3 in Hex.
  assert (vm_plain c') as Hplain by (apply (started_plain (vr_vm env)); [done|by rewrite Eid|done..]).
  exists (build_qemu_args (vr_vm env) c'). rewrite !values_of_middle, drives_read, devices_read, Hex, !app_nil_r by done.
  apply ready_checks in Hready as (Hrd & Hri & _). split_and!; [done| | |by exists c'].
  - intros opts f Ho Hf. destruct (drive_files _ _ _ Ho Hf) as [->|[->|[(d' & Hd' & ->)|Hiso]]]; [by left|right; left| |].
    + by rewrite Eid.
    + right; right. apply list_elem_of_lookup in Hd' as [i Hi]. destruct (Forall2_lookup_r _ _ _ _ _ Hheal Hi) as (d & Hd & Hh).
      rewrite Forall_forall in Hdisks, Hrd. apply (safe_disk env session managed (plain_files env (fields_of (migrate_cdroms c))) d d'); try done.
      * intros Hsrc Hdev. unfold plain_files. apply elem_of_app. left. apply list_elem_of_fmap. exists d. split; [done|]. cbn [fields_of sf_disks].
        rewrite Hds. apply elem_of_filter_bool. split; [by apply list_elem_of_lookup_2 in Hd|]. by rewrite Hsrc, Hdev.
      * apply Hdisks. by apply list_elem_of_lookup_2 in Hd.
      * apply list_elem_of_lookup_2, Hrd, check_disk_path in Hi. by destruct Hi.
    + right; right; left. rewrite Forall_forall in Hri, Hcd.
      destruct (check_iso_path _ _ (Hri _ Hiso)) as [_ Hv]. rewrite Ecd in Hiso. destruct (file_not_device env _ Hv (Hcd _ Hiso)) as (p & Hcan & Hfs).
      exists p. split_and!; [done..|]. intros Hsc. specialize (Hscope Hsc). rewrite Forall_forall in Hscope. apply Hscope.
      unfold plain_files. rewrite !elem_of_app. right; left. exact Hiso.
  - unfold devices_of. rewrite E1, E2. cbn [fmap list_fmap]. rewrite app_nil_r.
    intros opts [H|H]%elem_of_app.
    + apply list_elem_of_join in H as (l & Ho & H). apply elem_of_lookup_imap in H as (i & d & -> & _). unfold device_of_disk in Ho.
      destruct (_ || _); [|by apply elem_of_nil in Ho]. apply list_elem_of_singleton in Ho as ->. split; intros Hin; entries Hin.
    + apply elem_of_lookup_imap in H as (i & n & -> & _). unfold device_of_net. split; intros [Hin|Hin]%elem_of_app; first [by apply given_no_key in Hin|entries Hin].
Qed.

(** ** Exclusive use *)

(** Nothing else uses a block subvolume. *)
Record unused (env : VmRouteEnv) (w : VmWorld) (except_vm : option string) (sv : Subvolume) : Prop := {
  uu_vms : forall id c d, load (vm_store w) id = Some c -> except_vm <> Some (vc_id c) -> d ∈ vc_disks c -> disk_matches_subvolume env sv d = false;
  uu_iscsi : exists targets, vr_iscsi env = Ok targets /\
    forall t l, t ∈ targets -> l ∈ t.2 -> backs env sv (backing_volume l) (backstore_path l) = false;
  uu_nvmeof : exists subsystems, vr_nvmeof env = Ok subsystems /\
    forall s n, s ∈ subsystems -> n ∈ s.2 -> backs env sv (nn_backing_volume n) (nn_device_path n) = false;
  uu_csi : csi_consumer (sb_properties sv) = None;
  uu_mounts : forall dev, sb_block_device sv = Some dev -> exists mounts, vr_mounts env = Ok mounts /\ mounted_disk_consumers env dev mounts = [];
}.

Lemma omap_nil {A B} (f : A -> option B) l x : omap f l = [] -> x ∈ l -> f x = None.
Proof. intros H Hx. destruct (f x) as [y|] eqn:E; [|done]. assert (y ∈ omap f l) as Hy by (apply list_elem_of_omap; by exists x). rewrite H in Hy. by apply elem_of_nil in Hy. Qed.

Lemma existsb_none {A B} (p : A -> bool) (b : B) l x : (if existsb p l then Some b else None) = None -> x ∈ l -> p x = false.
Proof.
  destruct (existsb p l) eqn:E; [done|]. intros _ Hx. apply not_true_is_false. intros Hp.
  apply (existsb_exists_false _ _ x E); [by apply list_elem_of_In|done].
Qed.

Lemma consumers_none env w sv except_vm : disk_consumers env w sv except_vm = Ok [] -> unused env w except_vm sv.
Proof.
  unfold disk_consumers, vms_strict, prefixed. destruct (vr_vms_readable env); [|done]. cbn [result_bind].
  destruct (vr_iscsi env) as [targets|] eqn:E1; [|done]. destruct (vr_nvmeof env) as [subs|] eqn:E2; [|done].
  destruct (vr_mounts env) as [mounts|] eqn:E3; [|done]. cbn [result_bind]. intros [= H].
  apply app_eq_nil in H as [Hc [Hv [Hi [Hn Hm]%app_eq_nil]%app_eq_nil]%app_eq_nil]. split.
  - intros id c d Hl He Hd. assert ((migrate_cdroms c, is_running w (vc_id c)) ∈ vm_list w) as Hin.
    { unfold vm_list, statuses. apply list_elem_of_fmap. exists c. split; [done|]. apply elem_of_load_all. by exists id. }
    apply (omap_nil _ _ _ Hv) in Hin. cbn [fst snd] in Hin. destruct (migrate_id c) as [Hid Hds]. rewrite Hid, Hds in Hin.
    rewrite bool_decide_eq_false_2 in Hin by done. by apply (existsb_none _ _ _ d Hin).
  - exists targets. split; [done|]. intros t l Ht Hl. apply (omap_nil _ _ _ Hi) in Ht. by apply (existsb_none _ _ _ l Ht).
  - exists subs. split; [done|]. intros s n Hs Hnn. apply (omap_nil _ _ _ Hn) in Hs. by apply (existsb_none _ _ _ n Hs).
  - by destruct (csi_consumer _).
  - intros dev Hdev. rewrite Hdev in Hm. by exists mounts.
Qed.

Lemma no_repeats_pairs env seen disks : no_repeats env seen disks = true ->
  forall i j d e, (i < j)%nat -> disks !! i = Some d -> disks !! j = Some e -> disks_share_backing env e d = false.
Proof.
  revert seen. assert (forall seen disks, no_repeats env seen disks = true -> forall d e, d ∈ seen -> e ∈ disks -> disks_share_backing env e d = false) as Hseen.
  { intros seen disks0. revert seen. induction disks0 as [|x l IH]; intros seen H d e Hd He; [by apply elem_of_nil in He|].
    cbn in H. apply andb_true_iff in H as [H1 H2]. apply elem_of_cons in He as [->|He].
    - apply negb_true_iff in H1. apply not_true_is_false. intros E. apply (existsb_exists_false _ _ d H1); [by apply list_elem_of_In|done].
    - apply (IH _ H2 d e); [apply elem_of_app; by left|done]. }
  induction disks as [|x l IH]; intros seen H i j d e Hij Hi Hj; [done|]. cbn in H. apply andb_true_iff in H as [H1 H2].
  destruct j as [|j]; [lia|]. cbn in Hj. destruct i as [|i].
  - injection Hi as <-. apply (Hseen _ _ H2 x e); [apply elem_of_app; right; by apply list_elem_of_singleton|by apply list_elem_of_lookup_2 in Hj].
  - cbn in Hi. apply (IH _ H2 i j d e); [lia|done|done].
Qed.

Lemma payload_keeps env session fields st st' r : require_vm_payload_access env session fields st = (st', r) -> vs_vms st' = vs_vms st.
Proof.
  assert (forall access reason b st, vs_vms (fst (require_endpoint_access session access reason b st)) = vs_vms st) as He.
  { intros access reason b st0. unfold require_endpoint_access. destruct (authorize_session session access); [by destruct b|done]. }
  unfold require_vm_payload_access. destruct (session_is_scoped session && _).
  { intros H. specialize (He UnscopedMutation "vm_without_scoped_backing_disk" false st). unfold require_unscoped_mutation in H. rewrite H in He. exact He. }
  unfold m_bind at 1. destruct (require_scoped_files env session fields st) as [st1 r1] eqn:E1.
  assert (vs_vms st1 = vs_vms st) as Hs1.
  { unfold require_scoped_files, refuse, m_lift in E1. by destruct (session_is_scoped session); injection E1 as <-. }
  destruct r1 as [[]|]; [|by intros [= <- _]]. unfold require_root_equivalent. destruct (vm_security_reason env fields []) as [reason|]; [|by intros [= <- _]].
  destruct (_ || _); [intros H; specialize (He RootEquivalent reason true st1); rewrite H in He; cbn in He; congruence|].
  unfold m_bind, refuse, m_lift. destruct (managed_vm_disks env session); [|by intros [= <- _]]. destruct (vm_security_reason env fields _) as [r2|]; [|by intros [= <- _]].
  intros H. specialize (He RootEquivalent r2 true st1). rewrite H in He. cbn in He. congruence.
Qed.

(** A disk has one user.  When a VM is created over the API, by anyone, no
    two of its disks have the same backing file, none is a disk of another VM,
    running or not, and a disk on a block subvolume is on one that is not
    exported over iSCSI or NVMe-oF, not a Kubernetes volume, not mounted and not
    matched by any other VM. *)
Theorem created_vm_disks_exclusive env session p st st' c :
  route_vm_create env session p st = (st', Ok c) ->
  let disks := default [] (cr_disks p) in
  (forall i j d e, (i < j)%nat -> disks !! i = Some d -> disks !! j = Some e -> disks_share_backing env e d = false) /\
  (forall id v d e, load (vm_store (vs_vms st)) id = Some v -> d ∈ vc_disks v -> e ∈ disks -> disks_share_backing env d e = false) /\
  (forall all sv d, d ∈ disks -> vr_subvolumes env = Ok all -> find_first (fun sv => disk_matches_subvolume env sv d) all = Some sv ->
     unused env (vs_vms st) None sv).
Proof.
  unfold route_vm_create. set (disks := default [] (cr_disks p)). unfold m_bind at 1.
  destruct (require_vm_payload_access _ _ _ st) as [st1 [[]|]] eqn:Ep; [|done]. apply payload_keeps in Ep as Hw.
  unfold m_bind at 1, m_get, m_bind at 1, refuse, m_lift. rewrite Hw. destruct (check_new_vm_disks env (vs_vms st) disks [] None) as [[]|] eqn:Ec; [|done]. intros _.
  clear Ep. clearbody disks. unfold check_new_vm_disks in Ec. destruct disks as [|d0 rest]; [split_and!; [done| |]; intros *; rewrite ?elem_of_nil; done|]. set (disks := d0 :: rest) in *.
  destruct (no_repeats env [] disks) eqn:En; [|done]. unfold prefixed in Ec. destruct (vr_subvolumes env) as [managed|] eqn:Em; [|done].
  destruct (vms_strict env (vs_vms st)) as [vms|] eqn:Ev; [|done]. cbn [result_bind] in Ec. apply try_each_ok in Ec. rewrite Forall_forall in Ec.
  split_and!; [by apply (no_repeats_pairs env [])| |].
  - intros id v d e Hv Hd He. apply Ec in He. unfold check_new_vm_disk in He. cbn [existsb] in He.
    destruct (find_first _ vms) as [u|] eqn:Ef; [done|]. rewrite find_first_None in Ef. specialize (Ef (migrate_cdroms v, is_running (vs_vms st) (vc_id v))). lapply Ef; clear Ef.
    + intros Ef. cbn [fst negb andb] in Ef. destruct (migrate_id v) as [_ Hds]. rewrite Hds in Ef. apply not_true_is_false. intros E.
      apply (existsb_exists_false _ _ d Ef); [by apply list_elem_of_In|done].
    + unfold vms_strict, prefixed in Ev. destruct (vr_vms_readable env); [|done]. injection Ev as <-. unfold vm_list, statuses. apply list_elem_of_fmap.
      exists v. split; [done|]. apply elem_of_load_all. by exists id.
  - intros all sv d Hd [= <-] Hf. apply Ec in Hd. unfold check_new_vm_disk in Hd. cbn [existsb] in Hd. destruct (find_first _ vms); [done|].
    rewrite Hf in Hd. destruct (_ <=? 1)%nat; [|done]. destruct (disk_consumers env (vs_vms st) sv None) as [[|]|] eqn:Edc; [|done..]. by apply consumers_none.
Qed.

(** ** An example *)

Definition web_volume : Subvolume :=
  mkSubvolume "web" "tank" SvBlock "/fs/tank/web" None None None None (Some 4096) (Some "/dev/loop4") (Some (mkBlockVolumeId "uuid" 5)) None None []
    (Some "csi") ∅ None false ∅ ∅ ∅ false.

Definition vm_host : VmRouteEnv :=
  mkVmRouteEnv some_host (Ok [web_volume]) (Ok tt) (Ok [("iqn.a", [mkLun 0 "/dev/loop3" "db" "block" None (Some (mkBlockVolumeId "uuid" 6)) false])]) (Ok []) (Ok "").

Definition vm_owner : Session := mkSession "t" "csi" Operator None None (Some "csi") 0 false None.

Definition web_request : CreateVmRequest :=
  mkCreateVm "web" None None (Some [mkVmDisk "/dev/loop4" None "virtio" false None None None None None]) None None None None None None None None None.

Definition with_web : VmRouteState := mkVmRouteState (fst (vm_create some_host web_request (mkVmWorld ∅ ∅ []))) [].

Lemma operator_vm_confined_witness : exists st' r args,
  route_vm_start vm_host vm_owner "7c9e" with_web = (st', Ok r) /\ vm_running (vs_vms st') = <["7c9e" := args]> (vm_running (vs_vms with_web)) /\
  (forall opts f, opts ∈ values_of "-drive" args -> ("file", f) ∈ opts ->
     f = OVMF_CODE \/ f = ovmf_vars_path "7c9e" \/ open_file vm_host vm_owner f \/ managed_device vm_host vm_owner f \/ shared_entry vm_host f).
Proof.
  destruct (route_vm_start vm_host vm_owner "7c9e" with_web) as [st' [r|e]] eqn:E; [|vm_compute in E; discriminate E].
  assert (authorize_session vm_owner RootEquivalent <> Ok tt) as Hroot by (vm_compute; discriminate).
  assert (forall c, load (vm_store (vs_vms with_web)) "7c9e" = Some c -> vc_id c = "7c9e") as Hkey by (intros c; vm_compute; intros [= <-]; reflexivity).
  assert (no_char "," "7c9e") as Hcomma by (apply no_char_dec; reflexivity).
  destruct (operator_vm_confined vm_host vm_owner "7c9e" with_web st' r Hroot Hkey Hcomma E) as (args & H1 & H2 & _).
  exists st', r, args. exact (conj eq_refl (conj H1 H2)).
Defined.

Lemma created_vm_disks_exclusive_witness : exists st' c,
  route_vm_create vm_host vm_owner web_request (mkVmRouteState (mkVmWorld ∅ ∅ []) []) = (st', Ok c) /\
  unused vm_host (mkVmWorld ∅ ∅ []) None web_volume.
Proof.
  destruct (route_vm_create vm_host vm_owner web_request (mkVmRouteState (mkVmWorld ∅ ∅ []) [])) as [st' [c|e]] eqn:E; [|vm_compute in E; discriminate E].
  exists st', c. split; [reflexivity|]. destruct (created_vm_disks_exclusive _ _ _ _ _ _ E) as (_ & _ & H).
  apply (H [web_volume] web_volume (mkVmDisk "/dev/loop4" None "virtio" false None None None None None)); [left; reflexivity|reflexivity|vm_compute; reflexivity].
Defined.
