(* ===== verification/Dependents.v ===== *)
(** * What stands on a subvolume or a filesystem
    (nasty-engine/src/subvolume_dependents.rs, nasty-engine/src/fs_dependents.rs)

    Apps, VMs, backups and shares are attributed to subvolumes by path, device
    or volume identity.  The inventories of VMs, NFS and SMB shares and
    subvolumes are those of the other models; apps, backup profiles, iSCSI
    targets and NVMe-oF subsystems are what their services answer. *)

From Stdlib Require Import ZArith Lia Ascii String.
From stdpp Require Import base list gmap strings.
From S2P Require Import Prelude.
From S2P Require Import RustStr.
From S2P Require Import Text.
From S2P Require Import RustPath.
From S2P Require Import StateDir.
From S2P Require Import Nfs.
From S2P Require Import Smb.
From S2P Require Import ShareScope.
From S2P Require Import Subvol.
From S2P Require Import Vm.
From S2P Require Import VmRoute.

(** ** Inventories *)

Record BackupProfile : Type := mkBackupProfile { bp_name : string; bp_sources : list string }.

Record FsStatus : Type := mkFsStatus { fs_name : string; fs_mounted : bool; fs_encrypted : option bool; fs_locked : option bool }.

Record DepEnv : Type := mkDepEnv {
  dn_vol : VolEnv;
  dn_filesystems : result (list FsStatus) string;
  dn_apps_config : result (option string * option string) string;   (** storage_path, appdata_path *)
  dn_apps_storage : option string;                                  (** of the running service *)
  dn_apps : result (list string) string;
  dn_profiles : list BackupProfile;
  dn_profiles_healthy : option string;
  dn_shares_unreadable : string;                                    (** the error of a state file that does not parse *)
  dn_iscsi : result (list (string * list Lun)) string;
  dn_nvmeof : result (list (string * list Namespace)) string;
}.

(** What the services keep. *)
Record DepWorld : Type := mkDepWorld { dw_vol : VolWorld; dw_vms : VmWorld; dw_smb : SmbWorld; dw_nfs : NfsWorld }.

Definition sv_error_text (e : SubvolumeError) : string :=
  match e with
  | FilesystemNotFound f => "filesystem not found: " +:+ f
  | FilesystemNotMounted f => "filesystem not mounted: " +:+ f
  | SvAlreadyExists n => "subvolume already exists: " +:+ n
  | SvNotFound n => "subvolume not found: " +:+ n
  | SvAccessDenied => "access denied"
  | VolsizeRequired => "volsize is required for block subvolumes"
  | BlockFilesystemRequiresBlock => "block_filesystem is only valid for block subvolumes"
  | ReservedProperty k => "property key is reserved for internal metadata: " +:+ k
  | ExistingIncompatible m => "existing subvolume is incompatible with the create request: " +:+ m
  | SvInvalidName m => "invalid name: " +:+ m
  | InvalidVolsize m => "invalid volsize: " +:+ m
  | InvalidStoragePolicy m => "invalid storage policy: " +:+ m
  | ShrinkNotSupported c r => "cannot shrink subvolume from " +:+ fmt_dec c +:+ " to " +:+ fmt_dec r +:+ " bytes"
  | ChildrenStuck m => "child subvolume(s) must be deleted first: " +:+ m
  | LoopDetachFailed d r => "could not detach loop device " +:+ d +:+ ": " +:+ r
  | SvCommandFailed m => "command failed: " +:+ m
  | SvIo m => "io error: " +:+ m
  end.

(** The subvolumes of the mounted filesystems, one filesystem after the other. *)
Fixpoint list_each (env : VolEnv) (w : VolWorld) (owner_filter : option string) (names : list string)
    : result (list Subvolume) SubvolumeError :=
  match names with
  | [] => Ok []
  | n :: rest =>
      subvols <-? sv_list env n owner_filter w ;;
      others <-? list_each env w owner_filter rest ;;
      Ok (subvols ++ others)
  end.

Definition wanted (fs_filter : option string) (fs : FsStatus) : bool :=
  fs_mounted fs && match fs_filter with Some f => String.eqb (fs_name fs) f | None => true end.

Definition list_all (env : DepEnv) (fs_filter owner_filter : option string) (w : VolWorld) : result (list Subvolume) SubvolumeError :=
  match dn_filesystems env with
  | Err e => Err (SvCommandFailed e)
  | Ok all_fs => list_each (dn_vol env) w owner_filter (fs_name <$> List.filter (wanted fs_filter) all_fs)
  end.

(** ** Attribution to subvolumes *)

Record SubvolumeDependents : Type := mkDependents {
  sd_filesystem : string;
  sd_name : string;
  sd_path : string;
  sd_apps_storage : list string;
  sd_apps : list string;
  sd_vms : list string;
  sd_backup_jobs : list string;
  sd_nfs_shares : list string;
  sd_smb_shares : list string;
  sd_iscsi_targets : list string;
  sd_nvmeof_subsystems : list string;
  sd_state_errors : list string;
}.

Definition no_dependents (filesystem name path : string) : SubvolumeDependents :=
  mkDependents filesystem name path [] [] [] [] [] [] [] [] [].

(** The lists a service adds to. *)
Inductive DepKind : Type := DepAppsStorage | DepVms | DepBackup | DepNfs | DepSmb | DepIscsi | DepNvmeof | DepErrors.
#[export] Instance DepKind_eq : EqDecision DepKind. Proof. solve_decision. Defined.

Definition push (k : DepKind) (x : string) (d : SubvolumeDependents) : SubvolumeDependents :=
  let add k' l := if decide (k = k') then l ++ [x] else l in
  mkDependents (sd_filesystem d) (sd_name d) (sd_path d) (add DepAppsStorage (sd_apps_storage d)) (sd_apps d) (add DepVms (sd_vms d))
    (add DepBackup (sd_backup_jobs d)) (add DepNfs (sd_nfs_shares d)) (add DepSmb (sd_smb_shares d)) (add DepIscsi (sd_iscsi_targets d))
    (add DepNvmeof (sd_nvmeof_subsystems d)) (add DepErrors (sd_state_errors d)).

Definition set_apps (apps : list string) (d : SubvolumeDependents) : SubvolumeDependents :=
  mkDependents (sd_filesystem d) (sd_name d) (sd_path d) (sd_apps_storage d) apps (sd_vms d) (sd_backup_jobs d) (sd_nfs_shares d)
    (sd_smb_shares d) (sd_iscsi_targets d) (sd_nvmeof_subsystems d) (sd_state_errors d).

(** The path of the subvolume or one below. *)
Definition path_in_subvol (path subvol_path : string) : bool :=
  String.eqb path subvol_path || starts_with (subvol_path +:+ "/") path.

Definition owning_subvol (paths_desc : list string) (target : string) : option string :=
  find_first (path_in_subvol target) paths_desc.

Definition owner_visible (owner owner_filter : option string) : bool :=
  match owner_filter with Some f => bool_decide (owner = Some f) | None => true end.

(** Longest first; equals keep their order. *)
Fixpoint insert_desc (p : string) (l : list string) : list string :=
  match l with
  | [] => [p]
  | q :: r => if (String.length q <=? String.length p)%nat then p :: q :: r else q :: insert_desc p r
  end.

Definition paths_desc (subvols : list Subvolume) : list string := foldr insert_desc [] (sb_path <$> subvols).

(** The maps keyed by device and by identity: a later subvolume replaces an earlier one. *)
Definition by_block_dev (subvols : list Subvolume) (device : string) : option string :=
  sb_path <$> find_first (fun sv => bool_decide (sb_block_device sv = Some device)) (reverse subvols).

Definition by_block_id (subvols : list Subvolume) (identity : option BlockVolumeId) : option string :=
  match identity with
  | Some id => sb_path <$> find_first (fun sv => bool_decide (sb_block_volume_id sv = Some id)) (reverse subvols)
  | None => None
  end.

Definition by_path (subvols : list Subvolume) : gmap string SubvolumeDependents :=
  foldl (fun m sv => <[sb_path sv := no_dependents (sb_filesystem sv) (sb_name sv) (sb_path sv)]> m) ∅ subvols.

(** The set of owners of the paths of one entity. *)
Definition file_owners (subvols : list Subvolume) (paths : list string) : list string :=
  remove_dups (omap (owning_subvol (paths_desc subvols)) paths).

Definition device_owners (subvols : list Subvolume) (refs : list (string * option BlockVolumeId)) : list string :=
  remove_dups (flat_map (fun r : string * option BlockVolumeId =>
    option_list (owning_subvol (paths_desc subvols) r.1) ++ option_list (by_block_dev subvols r.1) ++ option_list (by_block_id subvols r.2)) refs).

(** Each entity, with its owners, is added to the list of each owner. *)
Definition attribute (k : DepKind) (entries : list (list string * string)) (m : gmap string SubvolumeDependents)
    : gmap string SubvolumeDependents :=
  foldl (fun m e => foldr (fun p m => alter (push k e.2) p m) m e.1) m entries.

Definition report (error : string) (m : gmap string SubvolumeDependents) : gmap string SubvolumeDependents := push DepErrors error <$> m.

Definition attribute_apps_storage (env : DepEnv) (subvols : list Subvolume) (m : gmap string SubvolumeDependents) :=
  match dn_apps_config env with
  | Ok (storage_path, appdata_path) =>
      attribute DepAppsStorage
        (omap (fun rp : string * option string => (fun path => (file_owners subvols [path], rp.1)) <$> rp.2)
           [("Docker storage", storage_path); ("application data storage", appdata_path)]) m
  | Err e => report ("Apps configuration: " +:+ e) m
  end.

Definition attribute_apps (env : DepEnv) (subvols : list Subvolume) (m : gmap string SubvolumeDependents) :=
  match dn_apps_storage env with
  | Some storage_path =>
      match owning_subvol (paths_desc subvols) storage_path, dn_apps env with
      | Some owning, Ok apps => alter (set_apps apps) owning m
      | _, _ => m
      end
  | None => m
  end.

Definition attribute_iscsi (env : DepEnv) (subvols : list Subvolume) (m : gmap string SubvolumeDependents) :=
  match dn_iscsi env with
  | Ok targets => attribute DepIscsi ((fun t : string * list Lun =>
                    (device_owners subvols ((fun l => (backstore_path l, backing_volume l)) <$> t.2), t.1)) <$> targets) m
  | Err e => report ("iSCSI state failed to load: " +:+ e) m
  end.

Definition attribute_nvmeof (env : DepEnv) (subvols : list Subvolume) (m : gmap string SubvolumeDependents) :=
  match dn_nvmeof env with
  | Ok subs => attribute DepNvmeof ((fun s : string * list Namespace =>
                 (device_owners subvols ((fun n => (nn_device_path n, nn_backing_volume n)) <$> s.2), s.1)) <$> subs) m
  | Err e => report ("NVMe-oF state failed to load: " +:+ e) m
  end.

Definition all_attributed (env : DepEnv) (w : DepWorld) (subvols : list Subvolume) : gmap string SubvolumeDependents :=
  attribute_nvmeof env subvols (attribute_iscsi env subvols
    (attribute DepSmb ((fun s => (file_owners subvols [ss_path s], ss_name s)) <$> load_all (sw_state (dw_smb w)))
      (attribute DepNfs ((fun s => (file_owners subvols [ns_path s], ns_id s)) <$> load_all (nw_state (dw_nfs w)))
        (attribute DepBackup ((fun p => (file_owners subvols (bp_sources p), bp_name p)) <$> dn_profiles env)
          (attribute DepVms ((fun v : VmConfig * bool =>
               (device_owners subvols ((fun d => (vd_path d, None)) <$> vc_disks v.1), vc_name v.1)) <$> vm_list (dw_vms w))
            (attribute_apps env subvols (attribute_apps_storage env subvols (by_path subvols)))))))).

(** In the order of the subvolumes, each entry once. *)
Fixpoint take_out (m : gmap string SubvolumeDependents) (l : list Subvolume) : list SubvolumeDependents :=
  match l with
  | [] => []
  | sv :: l' => match m !! sb_path sv with
                | Some d => d :: take_out (delete (sb_path sv) m) l'
                | None => take_out m l'
                end
  end.

Definition find_all_subvolume_dependents (env : DepEnv) (w : DepWorld) (filesystem_filter owner_filter : option string)
    : list SubvolumeDependents :=
  let subvols := match list_all env filesystem_filter None (dw_vol w) with Ok l => l | Err _ => [] end in
  take_out (all_attributed env w subvols) (List.filter (fun sv => owner_visible (sb_owner sv) owner_filter) subvols).

(** ** Dependents of a filesystem *)

Record FsDependents : Type := mkFsDependents {
  fd_filesystem : string;
  fd_mounted : bool;
  fd_subvolumes : list string;
  fd_apps_storage : bool;
  fd_apps : list string;
  fd_vms : list string;
  fd_backup_jobs : list string;
  fd_nfs_shares : list string;
  fd_smb_shares : list string;
  fd_iscsi_targets : list string;
  fd_nvmeof_subsystems : list string;
  fd_state_errors : list string;
}.

Definition has_dependents (d : FsDependents) : bool :=
  nonempty (fd_subvolumes d) || fd_apps_storage d || nonempty (fd_apps d) || nonempty (fd_vms d) || nonempty (fd_backup_jobs d)
  || nonempty (fd_nfs_shares d) || nonempty (fd_smb_shares d) || nonempty (fd_iscsi_targets d) || nonempty (fd_nvmeof_subsystems d).

Definition path_belongs_to_fs (path fs_name : string) : bool :=
  starts_with ("/fs/" +:+ fs_name +:+ "/") path || String.eqb path ("/fs/" +:+ fs_name).

(** A failed read leaves the list empty and is reported. *)
Definition or_report {A} (text : string) (r : result (list A) string) : list A * list string :=
  match r with Ok l => (l, []) | Err e => ([], [text +:+ e]) end.

Definition apps_of_fs (env : DepEnv) (fs_name : string) : bool * list string * list string :=
  match dn_apps_config env with
  | Ok (storage_path, appdata_path) =>
      if existsb (fun p => path_belongs_to_fs p fs_name) (option_list storage_path ++ option_list appdata_path)
      then let (apps, errors) := or_report "app state failed to load: " (dn_apps env) in (true, apps, errors)
      else (false, [], [])
  | Err e => (false, [], ["app config failed to load: " +:+ e])
  end.

Definition disk_touches_fs (fs_name : string) (subvols : list Subvolume) (disk : VmDisk) : bool :=
  path_belongs_to_fs (vd_path disk) fs_name
  || match vd_source disk with Some s => path_belongs_to_fs s fs_name | None => false end
  || existsb (fun sv => bool_decide (sb_block_device sv = Some (vd_path disk))) subvols.

Definition volume_touches_fs (fs_name : string) (filesystem_uuid : option string) (subvols : list Subvolume)
    (path : string) (identity : option BlockVolumeId) : bool :=
  path_belongs_to_fs path fs_name
  || existsb (fun sv => bool_decide (sb_block_device sv = Some path)) subvols
  || match identity with
     | Some id => existsb (fun sv => bool_decide (sb_block_volume_id sv = Some id)) subvols || bool_decide (filesystem_uuid = Some (bv_filesystem_uuid id))
     | None => false
     end.

Definition unresolved (what : string) (flags : list (bool * option BlockVolumeId)) (name : string) : list string :=
  if existsb (fun f : bool * option BlockVolumeId => f.1 && negb (is_some f.2)) flags
  then [what +:+ " '" +:+ name +:+ "' has unresolved legacy block-volume ownership"] else [].

Definition iscsi_errors (env : DepEnv) : list string :=
  match dn_iscsi env with
  | Ok targets => flat_map (fun t : string * list Lun =>
      unresolved "iSCSI target" ((fun l => (backing_volume_unresolved l, backing_volume l)) <$> t.2) t.1) targets
  | Err e => ["iSCSI state failed to load: " +:+ e]
  end.

Definition nvmeof_errors (env : DepEnv) : list string :=
  match dn_nvmeof env with
  | Ok subs => flat_map (fun s : string * list Namespace =>
      unresolved "NVMe-oF subsystem" ((fun n => (nn_backing_volume_unresolved n, nn_backing_volume n)) <$> s.2) s.1) subs
  | Err e => ["NVMe-oF state failed to load: " +:+ e]
  end.

Definition or_none {A} (r : result (list A) string) : list A := match r with Ok l => l | Err _ => [] end.

Definition fs_is_mounted (env : DepEnv) (name : string) : bool :=
  match find_first (fun f => String.eqb (fs_name f) name) (or_none (dn_filesystems env)) with Some f => fs_mounted f | None => false end.

Definition find_dependents_with_uuid (env : DepEnv) (w : DepWorld) (name : string) (filesystem_uuid : option string) : FsDependents :=
  let (subvols, e1) := or_report "subvolume state failed to load: "
    (match list_all env (Some name) None (dw_vol w) with Ok l => Ok l | Err e => Err (sv_error_text e) end) in
  let '(storage, apps, e2) := apps_of_fs env name in
  let (profiles, e3) := or_report "backup state failed to load: "
    (match dn_profiles_healthy env with Some e => Err e | None => Ok (dn_profiles env) end) in
  let (nfs_list, e4) := or_report "NFS state failed to load: " (load_all_strict (nw_state (dw_nfs w)) (dn_shares_unreadable env)) in
  let (smb_list, e5) := or_report "SMB state failed to load: " (load_all_strict (sw_state (dw_smb w)) (dn_shares_unreadable env)) in
  let touches := volume_touches_fs name filesystem_uuid subvols in
  mkFsDependents name (fs_is_mounted env name) (sb_name <$> subvols) storage apps
    ((fun v : VmConfig * bool => vc_name v.1) <$> List.filter (fun v : VmConfig * bool => existsb (disk_touches_fs name subvols) (vc_disks v.1)) (vm_list (dw_vms w)))
    (bp_name <$> List.filter (fun p => existsb (fun s => path_belongs_to_fs s name) (bp_sources p)) profiles)
    (ns_id <$> List.filter (fun s => path_belongs_to_fs (ns_path s) name) nfs_list)
    (ss_name <$> List.filter (fun s => path_belongs_to_fs (ss_path s) name) smb_list)
    (fst <$> List.filter (fun t : string * list Lun => existsb (fun l => touches (backstore_path l) (backing_volume l)) t.2) (or_none (dn_iscsi env)))
    (fst <$> List.filter (fun s : string * list Namespace => existsb (fun n => touches (nn_device_path n) (nn_backing_volume n)) s.2) (or_none (dn_nvmeof env)))
    (e1 ++ e2 ++ e3 ++ e4 ++ e5 ++ iscsi_errors env ++ nvmeof_errors env).

Definition find_dependents (env : DepEnv) (w : DepWorld) (name : string) : FsDependents := find_dependents_with_uuid env w name None.

Definition find_locked_dependents (env : DepEnv) (w : DepWorld) : list FsDependents :=
  omap (fun fs =>
    if bool_decide (fs_encrypted fs = Some true) && bool_decide (fs_locked fs = Some true) then
      let deps := find_dependents env w (fs_name fs) in
      if nonempty (fd_apps deps) || nonempty (fd_vms deps) then Some deps else None
    else None) (or_none (dn_filesystems env)).
