(* ===== verification/DepProps.v ===== *)
(** * Attribution is exact

    Every VM, backup, share and target is listed under the deepest subvolume
    that holds one of its paths, or whose device or identity it uses, and under
    no other. *)

From Stdlib Require Import ZArith Lia Ascii String Sorting.Sorted.
From stdpp Require Import base list gmap strings.
From S2P Require Import Prelude.
From S2P Require Import RustStr.
From S2P Require Import Text.
From S2P Require Import RustPath.
From S2P Require Import StateDir.
From S2P Require Import Nfs.
From S2P Require Import Smb.
From S2P Require Import ShareScope.
From S2P Require Import Subvol.
From S2P Require Import SubvolProps.
From S2P Require Import Vm.
From S2P Require Import VmRoute.
From S2P Require Import Dependents.

(** ** The deepest subvolume *)

Lemma path_in_spec t p : path_in_subvol t p = true <-> t = p \/ exists r, t = p +:+ "/" +:+ r.
Proof.
  unfold path_in_subvol. rewrite orb_true_iff, String.eqb_eq, starts_with_spec. by setoid_rewrite string_app_assoc.
Qed.

(** Of the subvolumes that hold the path, none has a longer one. *)
Definition deepest (all : list Subvolume) (sv : Subvolume) (path : string) : Prop :=
  path_in_subvol path (sb_path sv) = true /\
  forall sv', sv' ∈ all -> path_in_subvol path (sb_path sv') = true -> (String.length (sb_path sv') <= String.length (sb_path sv))%nat.

Lemma elem_of_insert_desc p l x : x ∈ insert_desc p l <-> x = p \/ x ∈ l.
Proof.
  induction l as [|q r IH]; cbn; [by rewrite list_elem_of_singleton, elem_of_nil; naive_solver|].
  destruct (_ <=? _)%nat; rewrite !elem_of_cons; [done|]. rewrite IH. naive_solver.
Qed.

Lemma elem_of_paths_desc all p : p ∈ paths_desc all <-> exists sv, sv ∈ all /\ sb_path sv = p.
Proof.
  unfold paths_desc. induction all as [|sv all IH]; cbn; [split; [by intros ?%elem_of_nil|by intros (? & ?%elem_of_nil & _)]|].
  rewrite elem_of_insert_desc, IH. setoid_rewrite elem_of_cons. naive_solver.
Qed.

Definition longer (p q : string) : Prop := (String.length q <= String.length p)%nat.

Lemma insert_desc_sorted p l : StronglySorted longer l -> StronglySorted longer (insert_desc p l).
Proof.
  induction 1 as [|q r Hr IH Hq]; cbn; [by repeat constructor|]. destruct (Nat.leb_spec (String.length q) (String.length p)).
  - constructor; [by constructor|]. constructor; [done|]. eapply Forall_impl; [exact Hq|]. unfold longer. lia.
  - constructor; [done|]. apply Forall_forall. intros x [->|Hx]%elem_of_insert_desc; [unfold longer; lia|]. by eapply Forall_forall in Hq.
Qed.

Lemma paths_desc_sorted all : StronglySorted longer (paths_desc all).
Proof. unfold paths_desc. induction all as [|sv all IH]; cbn; [constructor|by apply insert_desc_sorted]. Qed.

(** In a sorted list the first hit is a longest one. *)
Lemma find_first_longest (f : string -> bool) l p :
  StronglySorted longer l -> find_first f l = Some p -> forall q, q ∈ l -> f q = true -> longer p q.
Proof.
  induction 1 as [|x r Hr IH Hx]; [done|]. cbn. destruct (f x) eqn:E.
  - intros [= ->] q [->|Hq]%elem_of_cons _; [unfold longer; lia|]. by eapply Forall_forall in Hx.
  - intros Hf q [->|Hq]%elem_of_cons Hq2; [congruence|by apply IH].
Qed.

Lemma app_inj_length a b c d : String.length a = String.length b -> a +:+ c = b +:+ d -> a = b.
Proof.
  revert b. induction a as [|x a IH]; intros [|y b]; try done. cbn. intros [= Hl] [= -> H]. f_equal. by eapply IH.
Qed.

(** Two subvolumes that hold one path and are as deep are one. *)
Lemma same_depth t p q : path_in_subvol t p = true -> path_in_subvol t q = true -> String.length p = String.length q -> p = q.
Proof.
  rewrite !path_in_spec. intros Hp Hq Hl. assert (forall u, t = u \/ (exists r, t = u +:+ "/" +:+ r) -> exists r, t = u +:+ r) as Hx.
  { intros u [->|[r ->]]; [exists ""; by rewrite string_app_nil|by eexists]. }
  apply Hx in Hp as [r ->], Hq as [r' E]. by eapply app_inj_length.
Qed.

Lemma owning_deepest all sv t : sv ∈ all -> owning_subvol (paths_desc all) t = Some (sb_path sv) <-> deepest all sv t.
Proof.
  intros Hsv. unfold owning_subvol. split.
  - intros H. pose proof (find_first_longest _ _ _ (paths_desc_sorted all) H) as Hl. apply find_first_Some in H as [_ H]. split; [done|].
    intros sv' Hsv' H'. apply Hl; [apply elem_of_paths_desc; by exists sv'|done].
  - intros [H1 H2]. destruct (find_first (path_in_subvol t) (paths_desc all)) as [p|] eqn:E.
    + pose proof (find_first_longest _ _ _ (paths_desc_sorted all) E (sb_path sv)) as Hl.
      apply find_first_Some in E as [(sv' & Hsv' & <-)%elem_of_paths_desc E]. f_equal. apply (same_depth t); [done..|].
      unfold longer in Hl. specialize (Hl (proj2 (elem_of_paths_desc _ _) (ex_intro _ sv (conj Hsv eq_refl))) H1). specialize (H2 sv' Hsv' E). lia.
    + rewrite find_first_None in E. rewrite E in H1; [done|]. apply elem_of_paths_desc. by exists sv.
Qed.

(** ** Entries *)

Definition dep_list (k : DepKind) (d : SubvolumeDependents) : list string :=
  match k with
  | DepAppsStorage => sd_apps_storage d
  | DepVms => sd_vms d
  | DepBackup => sd_backup_jobs d
  | DepNfs => sd_nfs_shares d
  | DepSmb => sd_smb_shares d
  | DepIscsi => sd_iscsi_targets d
  | DepNvmeof => sd_nvmeof_subsystems d
  | DepErrors => sd_state_errors d
  end.

Definition dep_id (d : SubvolumeDependents) : string * string * string := (sd_filesystem d, sd_name d, sd_path d).

(** The same subvolume, with the entries [A] added. *)
Record adds (A : DepKind -> string -> Prop) (d d' : SubvolumeDependents) : Prop := {
  ad_id : dep_id d' = dep_id d;
  ad_list : forall k n, n ∈ dep_list k d' <-> n ∈ dep_list k d \/ A k n;
}.

Definition extends (A : string -> DepKind -> string -> Prop) (m m' : gmap string SubvolumeDependents) : Prop :=
  forall p, option_Forall2 (adds (A p)) (m !! p) (m' !! p).

Lemma adds_push k x d : adds (fun k' n => k' = k /\ n = x) d (push k x d).
Proof.
  split; [done|]. intros k' n. assert (dep_list k' (push k x d) = if decide (k = k') then dep_list k' d ++ [x] else dep_list k' d) as ->.
  { by destruct k', k. }
  destruct (decide (k = k')) as [->|Hne]; [rewrite elem_of_app, list_elem_of_singleton; naive_solver|naive_solver].
Qed.

Lemma adds_none A d : (forall k n, ~ A k n) -> adds A d d.
Proof. intros H. split; [done|]. intros k n. specialize (H k n). tauto. Qed.

Lemma adds_trans A B C d1 d2 d3 : adds A d1 d2 -> adds B d2 d3 -> (forall k n, C k n <-> A k n \/ B k n) -> adds C d1 d3.
Proof. intros [I1 L1] [I2 L2] HC. split; [congruence|]. intros k n. rewrite L2, L1, HC. tauto. Qed.

Lemma extends_trans A B C m1 m2 m3 : extends A m1 m2 -> extends B m2 m3 -> (forall p k n, C p k n <-> A p k n \/ B p k n) -> extends C m1 m3.
Proof.
  intros H1 H2 HC p. specialize (H1 p). specialize (H2 p). destruct H1 as [d1 d2 H1|]; inversion H2; subst; constructor.
  by eapply adds_trans.
Qed.

Lemma extends_none A m : (forall p k n, ~ A p k n) -> extends A m m.
Proof. intros H p. destruct (m !! p); constructor. by apply adds_none. Qed.

Lemma extends_alter A f q m : (forall d, adds (A q) d (f d)) -> (forall p k n, A p k n -> p = q) -> extends A m (alter f q m).
Proof.
  intros Hf HA p. destruct (decide (p = q)) as [->|Hne].
  - rewrite lookup_alter_eq. destruct (m !! q); constructor. apply Hf.
  - rewrite lookup_alter_ne by done. destruct (m !! p); constructor. apply adds_none. intros k n H. by apply HA in H.
Qed.

Lemma extends_owners k x owners m :
  extends (fun p k' n => p ∈ owners /\ k' = k /\ n = x) m (foldr (fun p m => alter (push k x) p m) m owners).
Proof.
  induction owners as [|o owners IH]; cbn [foldr]; [apply extends_none; by intros p k' n [?%elem_of_nil _]|].
  eapply extends_trans; [exact IH|apply (extends_alter (fun p k' n => p = o /\ k' = k /\ n = x)); [|by intros ??? [-> _]]|].
  - intros d. eapply adds_trans; [apply (adds_none (fun _ _ => False)); tauto|apply adds_push|naive_solver].
  - intros p k' n. rewrite elem_of_cons. naive_solver.
Qed.

Lemma extends_attribute k entries m :
  extends (fun p k' n => k' = k /\ exists owners, (owners, n) ∈ entries /\ p ∈ owners) m (attribute k entries m).
Proof.
  unfold attribute. revert m. induction entries as [|[owners x] entries IH]; intros m; cbn [foldl fst snd].
  { apply extends_none. by intros p k' n (_ & ? & ?%elem_of_nil & _). }
  eapply extends_trans; [apply extends_owners|apply IH|]. intros p k' n. setoid_rewrite elem_of_cons. split; [|naive_solver].
  intros (-> & o & [[= <- <-]|H] & Hp); [by left|right]. split; [done|by exists o].
Qed.

Lemma extends_report e m : extends (fun _ k n => k = DepErrors /\ n = e) m (report e m).
Proof. intros p. unfold report. rewrite lookup_fmap. destruct (m !! p); constructor. apply adds_push. Qed.

(** An attribution of one kind, read at the other kinds. *)
Lemma extends_kind k P A m m' : extends A m m' -> (forall p k' n, A p k' n -> k' = k) -> (forall p n, A p k n <-> P p n) ->
  extends (fun p k' n => k' = k /\ P p n) m m'.
Proof.
  intros H Hk HP. eapply extends_trans; [apply (extends_none (fun _ _ _ => False)); tauto|exact H|].
  intros p k' n. split; [intros [-> H1]; right; by apply HP|]. intros [[]|H1]. specialize (Hk _ _ _ H1) as ->. by rewrite <- HP.
Qed.

Lemma extends_apps env all m : extends (fun _ _ _ => False) m (attribute_apps env all m).
Proof.
  assert (extends (fun _ _ _ => False) m m) as Hid by (apply extends_none; tauto).
  unfold attribute_apps. destruct (dn_apps_storage env); [|done]. destruct (owning_subvol _ _); [|done]. destruct (dn_apps env); [|done].
  apply extends_alter; [|done]. intros d. split; [done|]. intros k n. destruct k; cbn; tauto.
Qed.

(** ** Owners *)

(** No two subvolumes share a path, a device or an identity. *)
Record inventory_ok (all : list Subvolume) : Prop := {
  iv_paths : NoDup (sb_path <$> all);
  iv_devices : forall sv sv' dev, sv ∈ all -> sv' ∈ all -> sb_block_device sv = Some dev -> sb_block_device sv' = Some dev -> sb_path sv = sb_path sv';
  iv_ids : forall sv sv' id, sv ∈ all -> sv' ∈ all -> sb_block_volume_id sv = Some id -> sb_block_volume_id sv' = Some id -> sb_path sv = sb_path sv';
}.

Lemma path_inj all sv sv' : NoDup (sb_path <$> all) -> sv ∈ all -> sv' ∈ all -> sb_path sv = sb_path sv' -> sv = sv'.
Proof.
  intros Hnd [i Hi]%list_elem_of_lookup [j Hj]%list_elem_of_lookup E. assert (i = j) as ->; [|congruence].
  apply (NoDup_lookup _ _ _ (sb_path sv) Hnd); rewrite list_lookup_fmap; [by rewrite Hi|by rewrite Hj, E].
Qed.

(** A reference to a subvolume: below it, by its device, or by its identity. *)
Definition refers (all : list Subvolume) (sv : Subvolume) (path : string) (identity : option BlockVolumeId) : Prop :=
  deepest all sv path \/ sb_block_device sv = Some path \/ (is_Some identity /\ sb_block_volume_id sv = identity).

Section Owners.
Context (all : list Subvolume) (sv : Subvolume) (Hok : inventory_ok all) (Hsv : sv ∈ all).

Lemma keyed_owner {K} `{EqDecision K} (key : Subvolume -> option K) (x : K) :
  (forall sv sv', sv ∈ all -> sv' ∈ all -> key sv = Some x -> key sv' = Some x -> sb_path sv = sb_path sv') ->
  (sb_path <$> find_first (fun sv => bool_decide (key sv = Some x)) (reverse all)) = Some (sb_path sv) <-> key sv = Some x.
Proof.
  intros Hinj. destruct (find_first _ _) as [sv'|] eqn:E; cbn.
  - apply find_first_Some in E as [Hin E%bool_decide_eq_true]. rewrite elem_of_reverse in Hin. split.
    + intros [= Hp]. by rewrite <- (path_inj all sv' sv (iv_paths _ Hok) Hin Hsv Hp).
    + intros H. f_equal. by apply Hinj.
  - rewrite find_first_None in E. split; [done|]. intros H. specialize (E sv). rewrite elem_of_reverse in E. specialize (E Hsv). by apply bool_decide_eq_false in E.
Qed.

Lemma by_block_dev_spec dev : by_block_dev all dev = Some (sb_path sv) <-> sb_block_device sv = Some dev.
Proof. apply (keyed_owner sb_block_device). intros. by eapply (iv_devices all Hok). Qed.

Lemma by_block_id_spec id : by_block_id all id = Some (sb_path sv) <-> is_Some id /\ sb_block_volume_id sv = id.
Proof.
  unfold by_block_id. destruct id as [id|]; [|split; [done|by intros [[? ?] _]]].
  rewrite (keyed_owner sb_block_volume_id) by (intros; by eapply (iv_ids all Hok)). split; [intros H; by split|by intros [_ ?]].
Qed.

Lemma elem_of_file_owners paths : sb_path sv ∈ file_owners all paths <-> exists t, t ∈ paths /\ deepest all sv t.
Proof.
  unfold file_owners. rewrite elem_of_remove_dups, list_elem_of_omap. by setoid_rewrite (owning_deepest all sv _ Hsv).
Qed.

Lemma elem_of_device_owners refs :
  sb_path sv ∈ device_owners all refs <-> exists path id, (path, id) ∈ refs /\ refers all sv path id.
Proof.
  unfold device_owners, refers. rewrite elem_of_remove_dups, list_elem_of_In, in_flat_map. setoid_rewrite <- list_elem_of_In.
  assert (forall (o : option string) x, x ∈ option_list o <-> o = Some x) as Ho.
  { intros [y|] x; cbn; [rewrite list_elem_of_singleton; naive_solver|rewrite elem_of_nil; naive_solver]. }
  setoid_rewrite elem_of_app. setoid_rewrite elem_of_app. setoid_rewrite Ho.
  setoid_rewrite (owning_deepest all sv _ Hsv). setoid_rewrite by_block_dev_spec. setoid_rewrite by_block_id_spec.
  split; [intros ([path id] & H1 & H2); by exists path, id|intros (path & id & H1 & H2); by exists (path, id)].
Qed.
End Owners.

(** ** The listing *)

Lemma by_path_lookup all sv : NoDup (sb_path <$> all) -> sv ∈ all -> by_path all !! sb_path sv = Some (no_dependents (sb_filesystem sv) (sb_name sv) (sb_path sv)).
Proof.
  unfold by_path. generalize (∅ : gmap string SubvolumeDependents) as m. induction all as [|x all IH] using rev_ind; intros m Hnd Hin; [by apply elem_of_nil in Hin|].
  rewrite foldl_snoc. rewrite fmap_app in Hnd. apply NoDup_app in Hnd as (Hnd & Hx & _). apply elem_of_app in Hin as [Hin|Hin%list_elem_of_singleton].
  - rewrite lookup_insert_ne; [by apply IH|]. intros E. apply (Hx (sb_path sv)); [by apply list_elem_of_fmap_2|rewrite <- E; cbn; by left].
  - subst x. by rewrite lookup_insert_eq.
Qed.

Lemma take_out_spec (m0 m : gmap string SubvolumeDependents) l : NoDup (sb_path <$> l) -> (forall sv, sv ∈ l -> is_Some (m0 !! sb_path sv) /\ m !! sb_path sv = m0 !! sb_path sv) ->
  Forall2 (fun sv d => m0 !! sb_path sv = Some d) l (take_out m l).
Proof.
  revert m. induction l as [|sv l IH]; intros m Hnd Hs; [constructor|]. cbn. destruct (Hs sv) as [[d Hd] Hm]; [by left|]. rewrite Hm, Hd.
  cbn in Hnd. apply NoDup_cons in Hnd as [Hn Hnd]. constructor; [done|]. apply IH; [done|]. intros x Hx.
  destruct (Hs x) as [H1 H2]; [by right|]. split; [done|]. rewrite lookup_delete_ne; [done|]. intros E. apply Hn. rewrite E. by apply list_elem_of_fmap_2.
Qed.

(** What a subvolume's entry lists. *)
Record listed_right (env : DepEnv) (w : DepWorld) (all : list Subvolume) (sv : Subvolume) (d : SubvolumeDependents) : Prop := {
  lr_id : dep_id d = (sb_filesystem sv, sb_name sv, sb_path sv);
  lr_vms : forall n, n ∈ sd_vms d <->
    exists v disk, v ∈ vm_list (dw_vms w) /\ vc_name v.1 = n /\ disk ∈ vc_disks v.1 /\
                   (deepest all sv (vd_path disk) \/ sb_block_device sv = Some (vd_path disk));
  lr_backup : forall n, n ∈ sd_backup_jobs d <-> exists p src, p ∈ dn_profiles env /\ bp_name p = n /\ src ∈ bp_sources p /\ deepest all sv src;
  lr_nfs : forall n, n ∈ sd_nfs_shares d <-> exists s, s ∈ load_all (nw_state (dw_nfs w)) /\ ns_id s = n /\ deepest all sv (ns_path s);
  lr_smb : forall n, n ∈ sd_smb_shares d <-> exists s, s ∈ load_all (sw_state (dw_smb w)) /\ ss_name s = n /\ deepest all sv (ss_path s);
  lr_iscsi : forall n, n ∈ sd_iscsi_targets d <->
    exists ts luns l, dn_iscsi env = Ok ts /\ (n, luns) ∈ ts /\ l ∈ luns /\ refers all sv (backstore_path l) (backing_volume l);
  lr_nvmeof : forall n, n ∈ sd_nvmeof_subsystems d <->
    exists ss nss ns, dn_nvmeof env = Ok ss /\ (n, nss) ∈ ss /\ ns ∈ nss /\ refers all sv (nn_device_path ns) (nn_backing_volume ns);
}.

(** The entries of one service, at a subvolume. *)
Definition at_owner (entries : list (list string * string)) (p n : string) : Prop := exists owners, (owners, n) ∈ entries /\ p ∈ owners.

Lemma at_owner_fmap {X} (f : X -> list string * string) l p n : at_owner (f <$> l) p n <-> exists x, x ∈ l /\ (f x).2 = n /\ p ∈ (f x).1.
Proof.
  unfold at_owner. setoid_rewrite list_elem_of_fmap. split.
  - intros (o & (x & E & Hx) & Hp). exists x. by rewrite <- E.
  - intros (x & Hx & <- & Hp). exists (f x).1. split; [exists x; by rewrite <- surjective_pairing|done].
Qed.

(** A service that may fail to load. *)
Lemma extends_service {X} k (r : result (list X) string) (f : X -> list string * string) e m :
  extends (fun p k' n => (k' = k /\ exists l, r = Ok l /\ at_owner (f <$> l) p n) \/ (k' = DepErrors /\ exists x, r = Err x /\ n = e +:+ x)) m
    (match r with Ok l => attribute k (f <$> l) m | Err x => report (e +:+ x) m end).
Proof.
  destruct r as [l|x].
  - eapply extends_trans; [apply (extends_none (fun _ _ _ => False)); tauto|apply extends_attribute|]. intros p k' n. unfold at_owner. naive_solver.
  - eapply extends_trans; [apply (extends_none (fun _ _ _ => False)); tauto|apply extends_report|]. intros p k' n. unfold at_owner. naive_solver.
Qed.

Definition vm_entry (all : list Subvolume) (v : VmConfig * bool) : list string * string :=
  (device_owners all ((fun d => (vd_path d, None)) <$> vc_disks v.1), vc_name v.1).
Definition lun_entry (all : list Subvolume) (t : string * list Lun) : list string * string :=
  (device_owners all ((fun l => (backstore_path l, backing_volume l)) <$> t.2), t.1).
Definition namespace_entry (all : list Subvolume) (s : string * list Namespace) : list string * string :=
  (device_owners all ((fun n => (nn_device_path n, nn_backing_volume n)) <$> s.2), s.1).
Definition profile_entry (all : list Subvolume) (p : BackupProfile) : list string * string := (file_owners all (bp_sources p), bp_name p).
Definition nfs_entry (all : list Subvolume) (s : NfsShare) : list string * string := (file_owners all [ns_path s], ns_id s).
Definition smb_entry (all : list Subvolume) (s : SmbShare) : list string * string := (file_owners all [ss_path s], ss_name s).

(** All the services. *)
Definition attributed (env : DepEnv) (w : DepWorld) (all : list Subvolume) (p : string) (k : DepKind) (n : string) : Prop :=
  match k with
  | DepVms => at_owner (vm_entry all <$> vm_list (dw_vms w)) p n
  | DepBackup => at_owner (profile_entry all <$> dn_profiles env) p n
  | DepNfs => at_owner (nfs_entry all <$> load_all (nw_state (dw_nfs w))) p n
  | DepSmb => at_owner (smb_entry all <$> load_all (sw_state (dw_smb w))) p n
  | DepIscsi => exists ts, dn_iscsi env = Ok ts /\ at_owner (lun_entry all <$> ts) p n
  | DepNvmeof => exists ss, dn_nvmeof env = Ok ss /\ at_owner (namespace_entry all <$> ss) p n
  | DepAppsStorage | DepErrors => True
  end.

(** The lists that hold entities. *)
Definition entity_kind (k : DepKind) : Prop := k <> DepAppsStorage /\ k <> DepErrors.

Definition extends_to (A : string -> DepKind -> string -> Prop) (m m' : gmap string SubvolumeDependents) : Prop :=
  exists B, extends B m m' /\ forall p k n, entity_kind k -> B p k n <-> A p k n.

Lemma extends_to_or A B m1 m2 m3 : extends_to A m1 m2 -> extends_to B m2 m3 -> extends_to (fun p k n => A p k n \/ B p k n) m1 m3.
Proof.
  intros (A' & H1 & E1) (B' & H2 & E2). exists (fun p k n => A' p k n \/ B' p k n). split; [by eapply extends_trans|].
  intros p k n Hk. by rewrite E1, E2.
Qed.

Lemma extends_to_iff A B m m' : extends_to A m m' -> (forall p k n, entity_kind k -> A p k n <-> B p k n) -> extends_to B m m'.
Proof. intros (A' & H & E) HB. exists A'. split; [done|]. intros p k n Hk. by rewrite E, HB. Qed.

Lemma extends_to_of A B m m' : extends A m m' -> (forall p k n, entity_kind k -> A p k n <-> B p k n) -> extends_to B m m'.
Proof. intros H E. by exists A. Qed.

Lemma all_attributed_extends env w all : extends_to (attributed env w all) (by_path all) (all_attributed env w all).
Proof.
  assert (forall k entries m, extends_to (fun p k' n => k' = k /\ at_owner entries p n) m (attribute k entries m)) as Ha.
  { intros k entries m. eexists. split; [apply extends_attribute|done]. }
  assert (forall env all m, extends_to (fun p k n => False) m (attribute_apps_storage env all m)) as Hs.
  { intros. unfold attribute_apps_storage. destruct (dn_apps_config env0) as [[a b]|e].
    - eexists. split; [apply extends_attribute|]. unfold entity_kind. naive_solver.
    - eexists. split; [apply extends_report|]. unfold entity_kind. naive_solver. }
  unfold all_attributed. eapply extends_to_iff.
  - eapply extends_to_or; [|eapply (extends_to_of _ (fun p k n => k = DepNvmeof /\ exists ss, dn_nvmeof env = Ok ss /\ at_owner (namespace_entry all <$> ss) p n));
      [apply extends_service|unfold entity_kind; naive_solver]].
    eapply extends_to_or; [|eapply (extends_to_of _ (fun p k n => k = DepIscsi /\ exists ts, dn_iscsi env = Ok ts /\ at_owner (lun_entry all <$> ts) p n));
      [apply extends_service|unfold entity_kind; naive_solver]].
    eapply extends_to_or; [|apply Ha]. eapply extends_to_or; [|apply Ha]. eapply extends_to_or; [|apply Ha].
    eapply extends_to_or; [|apply Ha]. eapply extends_to_or; [apply Hs|]. eapply extends_to_of; [apply extends_apps|done].
  - intros p k n [H1 H2]. cbn beta. destruct k; cbn [attributed]; try done.
    all: intuition (try done); congruence.
Qed.

Lemma at_file_owner {X} (paths : X -> list string) (name : X -> string) all sv l n : sv ∈ all ->
  at_owner ((fun x => (file_owners all (paths x), name x)) <$> l) (sb_path sv) n <->
  exists x t, x ∈ l /\ name x = n /\ t ∈ paths x /\ deepest all sv t.
Proof.
  intros Hsv. rewrite at_owner_fmap. cbn. setoid_rewrite (elem_of_file_owners all sv Hsv). split.
  - intros (x & H1 & H2 & t & H3). by exists x, t.
  - intros (x & t & H1 & H2 & H3). exists x. split_and!; [done..|by exists t].
Qed.

Lemma at_device_owner {X Y} (items : X -> list Y) (ref : Y -> string * option BlockVolumeId) (name : X -> string) all sv l n :
  inventory_ok all -> sv ∈ all ->
  at_owner ((fun x => (device_owners all (ref <$> items x), name x)) <$> l) (sb_path sv) n <->
  exists x y, x ∈ l /\ name x = n /\ y ∈ items x /\ refers all sv (ref y).1 (ref y).2.
Proof.
  intros Hok Hsv. rewrite at_owner_fmap. cbn. setoid_rewrite (elem_of_device_owners all sv Hok Hsv). setoid_rewrite list_elem_of_fmap. split.
  - intros (x & H1 & H2 & path & id & (y & E & H3) & H4). exists x, y. by rewrite <- E.
  - intros (x & y & H1 & H2 & H3 & H4). exists x. split_and!; [done..|]. exists (ref y).1, (ref y).2. split; [|done]. exists y. by rewrite <- surjective_pairing.
Qed.

Lemma attributed_right env w all sv d : inventory_ok all -> sv ∈ all ->
  dep_id d = (sb_filesystem sv, sb_name sv, sb_path sv) ->
  (forall k n, entity_kind k -> n ∈ dep_list k d <-> attributed env w all (sb_path sv) k n) -> listed_right env w all sv d.
Proof.
  intros Hok Hsv Hid H. assert (forall path, refers all sv path None <-> deepest all sv path \/ sb_block_device sv = Some path) as Hnone.
  { intros path. unfold refers. split; [intros [?|[?|[[x Hx] _]]]; [by left|by right|done]|tauto]. }
  split; [done|..]; intros n.
  - etransitivity; [by apply (H DepVms)|]. etransitivity; [by apply (at_device_owner (fun v : VmConfig * bool => vc_disks v.1) (fun d => (vd_path d, None)))|].
    cbn [fst snd]. by setoid_rewrite Hnone.
  - etransitivity; [by apply (H DepBackup)|]. by apply (at_file_owner bp_sources bp_name).
  - etransitivity; [by apply (H DepNfs)|]. etransitivity; [by apply (at_file_owner (fun s => [ns_path s]) ns_id)|].
    setoid_rewrite list_elem_of_singleton. naive_solver.
  - etransitivity; [by apply (H DepSmb)|]. etransitivity; [by apply (at_file_owner (fun s => [ss_path s]) ss_name)|].
    setoid_rewrite list_elem_of_singleton. naive_solver.
  - etransitivity; [by apply (H DepIscsi)|]. cbn [attributed]. unfold lun_entry.
    setoid_rewrite (at_device_owner (fun t : string * list Lun => t.2) (fun l => (backstore_path l, backing_volume l)) fst all sv _ n Hok Hsv). split.
    + intros (ts & E & [i luns] & l & H1 & <- & H2 & H3). by exists ts, luns, l.
    + intros (ts & luns & l & E & H1 & H2 & H3). exists ts. split; [done|]. by exists (n, luns), l.
  - etransitivity; [by apply (H DepNvmeof)|]. cbn [attributed]. unfold namespace_entry.
    setoid_rewrite (at_device_owner (fun t : string * list Namespace => t.2) (fun l => (nn_device_path l, nn_backing_volume l)) fst all sv _ n Hok Hsv). split.
    + intros (ts & E & [i luns] & l & H1 & <- & H2 & H3). by exists ts, luns, l.
    + intros (ts & luns & l & E & H1 & H2 & H3). exists ts. split; [done|]. by exists (n, luns), l.
Qed.

Lemma attributed_lists env w all sv : inventory_ok all -> sv ∈ all ->
  exists d, all_attributed env w all !! sb_path sv = Some d /\ listed_right env w all sv d.
Proof.
  intros Hok Hsv. pose proof (by_path_lookup all sv (iv_paths _ Hok) Hsv) as Hbase.
  destruct (all_attributed_extends env w all) as (B & Hx & HB). specialize (Hx (sb_path sv)). rewrite Hbase in Hx.
  inversion Hx as [d0 d [Hid Hl] E1 E2|]; subst. exists d. split; [done|]. apply attributed_right; [done..|].
  intros k n Hk. rewrite Hl, HB by done. split; [|by right]. intros [H|H]; [|done]. by destruct k; apply elem_of_nil in H.
Qed.

Lemma Forall2_with {A B} (P : A -> Prop) (R : A -> B -> Prop) l k : Forall P l -> Forall2 R l k -> Forall2 (fun a b => P a /\ R a b) l k.
Proof. intros HP HR. revert HP. induction HR as [|a b l k H HR IH]; [constructor|]. intros [Ha Hl]%Forall_cons. constructor; [done|by apply IH]. Qed.

Lemma listing_right env w fs_filter owner_filter all :
  list_all env fs_filter None (dw_vol w) = Ok all -> inventory_ok all ->
  Forall2 (listed_right env w all) (List.filter (fun sv => owner_visible (sb_owner sv) owner_filter) all)
    (find_all_subvolume_dependents env w fs_filter owner_filter).
Proof.
  intros Hall Hok. unfold find_all_subvolume_dependents. rewrite Hall. set (visible := List.filter _ all).
  assert (forall sv, sv ∈ visible -> sv ∈ all) as Hsub by (intros sv; unfold visible; rewrite !list_elem_of_In, filter_In; tauto).
  assert (NoDup (sb_path <$> visible)) as Hnd.
  { pose proof (iv_paths _ Hok) as Hnd. clear -Hnd. unfold visible. induction all as [|x l IH]; cbn; [constructor|]. cbn in Hnd. apply NoDup_cons in Hnd as [Hn Hnd].
    destruct (owner_visible _ _); cbn; [|by apply IH]. apply NoDup_cons. split; [|by apply IH]. intros (y & E & Hy)%list_elem_of_fmap. apply Hn.
    rewrite E. apply list_elem_of_fmap_2. apply list_elem_of_In in Hy. apply filter_In in Hy as [Hy _]. by apply list_elem_of_In. }
  assert (Forall (fun sv => sv ∈ all) visible) as Hall2 by (apply Forall_forall; exact Hsub).
  eapply Forall2_impl.
  - apply Forall2_with; [exact Hall2|]. apply (take_out_spec (all_attributed env w all)); [done|]. intros sv Hsv. split; [|done].
    destruct (attributed_lists env w all sv Hok (Hsub sv Hsv)) as (d & -> & _). by eexists.
  - intros sv d [Hsv Hd]. destruct (attributed_lists env w all sv Hok Hsv) as (d' & Hd' & H). congruence.
Qed.

(** C21. Dependents go to the deepest subvolume.  When the subvolumes can be
    listed and no two of them share a path, a device or an identity, the answer
    has one entry for each visible subvolume, in order; it names a VM, backup,
    share or target exactly if one of its paths lies in that subvolume and in no
    deeper one, or if it uses the subvolume's volume identity or the device that
    losetup's list gives for it, hidden subvolumes counted.  When the subvolumes
    cannot be listed the answer is empty. *)
Theorem dependents_attributed_exactly env w fs_filter owner_filter :
  match list_all env fs_filter None (dw_vol w) with
  | Ok all => inventory_ok all ->
      Forall2 (listed_right env w all) (List.filter (fun sv => owner_visible (sb_owner sv) owner_filter) all)
        (find_all_subvolume_dependents env w fs_filter owner_filter)
  | Err _ => find_all_subvolume_dependents env w fs_filter owner_filter = []
  end.
Proof.
  destruct (list_all env fs_filter None (dw_vol w)) as [all|e] eqn:E; [intros Hok; by apply listing_right|].
  unfold find_all_subvolume_dependents. by rewrite E.
Qed.

(** The list is cut at blanks: the device of a subvolume with a blank in its path
    is not found, and a failing losetup hides every device. *)
Lemma blank_hides_device :
  let w := mkVolWorld ∅ {["/fs/tank/my disk/vol.img" := "/dev/loop0"]} ∅ [] [] in
  find_loop_device_from_map plain_env (build_losetup_map plain_env w) "/fs/tank/my disk/vol.img" = None /\
  build_losetup_map plain_env w !! "/fs/tank/my" = Some "/dev/loop0".
Proof. split; vm_compute; reflexivity. Qed.

(** ** An example *)

Definition demo_deps : DepEnv :=
  mkDepEnv plain_env (Ok [mkFsStatus "tank" true None None]) (Ok (Some "/fs/tank/docs/apps", None)) (Some "/fs/tank/docs/apps") (Ok ["wiki"])
    [mkBackupProfile "nightly" ["/fs/tank/pics/2024"; "/fs/tank/pics"]] None "" (Ok []) (Ok []).

Definition demo_dep_world : DepWorld :=
  mkDepWorld plain_vols (mkVmWorld ∅ ∅ [])
    (mkSmbWorld ∅ ∅ "" None) (mkNfsWorld {["n1" := Some (mkNfsShare "n1" "/fs/tank/docs/letters" None [] true)]} ∅).

Definition demo_all : list Subvolume := match list_all demo_deps None None plain_vols with Ok l => l | Err _ => [] end.

Lemma demo_inventory : inventory_ok demo_all.
Proof.
  assert (Forall (fun sv => sb_block_device sv = None) demo_all) as Hd by (vm_compute; repeat constructor).
  assert (Forall (fun sv => sb_block_volume_id sv = None) demo_all) as Hi by (vm_compute; repeat constructor).
  rewrite Forall_forall in Hd, Hi. split.
  - apply (bool_decide_eq_true (NoDup (sb_path <$> demo_all))). vm_compute. reflexivity.
  - intros sv sv' dev H _ E _. rewrite (Hd sv H) in E. discriminate E.
  - intros sv sv' id H _ E _. rewrite (Hi sv H) in E. discriminate E.
Qed.

(** A share in one subvolume and a backup of the other. *)
Lemma dependents_attributed_exactly_witness :
  Forall2 (listed_right demo_deps demo_dep_world demo_all) (List.filter (fun sv => owner_visible (sb_owner sv) None) demo_all)
    (find_all_subvolume_dependents demo_deps demo_dep_world None None) /\
  ((fun d => (sd_name d, sd_nfs_shares d, sd_backup_jobs d, sd_apps d)) <$> find_all_subvolume_dependents demo_deps demo_dep_world None None) =
  [("docs", ["n1"], [], ["wiki"]); ("pics", [], ["nightly"], [])].
Proof.
  split; [|vm_compute; reflexivity]. pose proof (dependents_attributed_exactly demo_deps demo_dep_world None None) as H.
  assert (list_all demo_deps None None (dw_vol demo_dep_world) = Ok demo_all) as E by (vm_compute; reflexivity). rewrite E in H. exact (H demo_inventory).
Defined.
