(* ===== verification/Cascade.v ===== *)
(** * Cascades over the services
    (nasty-engine/src/fs_lock.rs, nasty-engine/src/subvol_rollback.rs)

    Before a filesystem is locked or a subvolume rolled back, what stands on it
    is stopped: apps, then VMs (a request to power down, a wait, then a kill),
    then, for a rollback, the SMB and NFS shares; afterwards shares, VMs and apps
    are brought back.  The operations on VMs, shares and subvolumes are those of
    the other models.  Docker, the clock, and the moment a guest powers off are
    parameters. *)

From Stdlib Require Import ZArith Lia Ascii String.
From stdpp Require Import base list gmap strings.
From S2P Require Import Prelude.
From S2P Require Import RustStr.
From S2P Require Import Text.
From S2P Require Import RustPath.
From S2P Require Import StateDir.
From S2P Require Import Nfs.
From S2P Require Import Smb.
From S2P Require Import ShareScope.
From S2P Require Import Subvol.
From S2P Require Import Vm.
From S2P Require Import VmRoute.
From S2P Require Import Dependents.

(** ** Waiting *)

(** The [i]-th time round the loop: [stopped i] is the predicate, [now i] the
    clock when it is compared with the deadline. *)
Fixpoint wait_loop (fuel : nat) (stopped : nat -> bool) (now : nat -> Z) (deadline : Z) (i : nat) : option bool :=
  match fuel with
  | O => None
  | S f => if stopped i then Some true
           else if deadline <=? now i then Some false
           else wait_loop f stopped now deadline (S i)
  end.

Definition wait_fuel (timeout interval : Z) : nat := S (S (Z.to_nat (timeout / interval))).

Definition wait_until_stopped (stopped : nat -> bool) (start : Z) (now : nat -> Z) (timeout interval : Z) : option bool :=
  wait_loop (wait_fuel timeout interval) stopped now (start + timeout) 0.

(** In milliseconds. *)
Definition VM_SHUTDOWN_TIMEOUT : Z := 60000.
Definition VM_POLL_INTERVAL : Z := 1000.

(** ** State *)

(** What [FilesystemService::get] says of a filesystem: [options.encrypted],
    [mounted] and [mount_point]. *)
Record FsSeen : Type := mkFsSeen { fse_encrypted : option bool; fse_mounted : bool; fse_mount_point : option string }.

(** The answers and outcomes of one [FilesystemService::lock]: the filesystem as
    found by it and by [unmount], whether a scrub runs, whether the mount point
    has another filesystem, [umount], whether the keyring has the key,
    [keyctl unlink], and the last look. *)
Record LockEnv : Type := mkLockEnv {
  lk_get : result FsSeen string;
  lk_get_unmount : result FsSeen string;
  lk_scrub : result bool string;
  lk_identity : option string;
  lk_umount : Outcome;
  lk_key : bool;
  lk_unlink : Outcome;
  lk_get_after : option string;
}.

(** What is mounted, and whose key the kernel has. *)
Record FsWorld : Type := mkFsWorld { fw_mounted : gset string; fw_keyed : gset string }.

Record CascadeEnv : Type := mkCascadeEnv {
  ca_dep : DepEnv;
  ca_swap : VolEnv;                       (** while the subvolume is exchanged *)
  ca_vm : VmEnv;
  ca_smb : bool -> string -> SmbEnv;      (** by the flag set and the share *)
  ca_nfs : bool -> string -> NfsEnv;
  ca_stop_app : string -> option string;
  ca_start_app : string -> option string;
  ca_guest : string -> nat -> bool;       (** whether the guest is off at the poll *)
  ca_start : Z;
  ca_clock : nat -> Z;
  ca_lock : LockEnv;                      (** the storage layer's lock *)
}.

Record CascadeWorld : Type := mkCascadeWorld {
  cw_dep : DepWorld;
  cw_apps : gset string;                  (** the apps that run *)
  cw_fs : FsWorld;
}.

Abbreviation cas A := (stm CascadeWorld string A).

Definition on_dep (f : DepWorld -> DepWorld) (w : CascadeWorld) : CascadeWorld := mkCascadeWorld (f (cw_dep w)) (cw_apps w) (cw_fs w).
Definition set_vol (v : VolWorld) (d : DepWorld) : DepWorld := mkDepWorld v (dw_vms d) (dw_smb d) (dw_nfs d).
Definition set_vms (v : VmWorld) (d : DepWorld) : DepWorld := mkDepWorld (dw_vol d) v (dw_smb d) (dw_nfs d).
Definition set_smb (s : SmbWorld) (d : DepWorld) : DepWorld := mkDepWorld (dw_vol d) (dw_vms d) s (dw_nfs d).
Definition set_nfs (s : NfsWorld) (d : DepWorld) : DepWorld := mkDepWorld (dw_vol d) (dw_vms d) (dw_smb d) s.

Definition at_vol {A} (m : stm VolWorld SubvolumeError A) : cas A := fun w =>
  let '(v, r) := m (dw_vol (cw_dep w)) in
  (on_dep (set_vol v) w, match r with Ok a => Ok a | Err e => Err (sv_error_text e) end).

Definition at_vms {A} (m : stm VmWorld VmError A) : stm CascadeWorld VmError A := fun w =>
  let '(v, r) := m (dw_vms (cw_dep w)) in (on_dep (set_vms v) w, r).

Definition at_smb {A} (m : stm SmbWorld SmbError A) : stm CascadeWorld SmbError A := fun w =>
  let '(s, r) := m (dw_smb (cw_dep w)) in (on_dep (set_smb s) w, r).

Definition at_nfs {A} (m : stm NfsWorld NfsError A) : stm CascadeWorld NfsError A := fun w =>
  let '(s, r) := m (dw_nfs (cw_dep w)) in (on_dep (set_nfs s) w, r).

Definition vm_error_text (e : VmError) : string :=
  match e with
  | VmNotFound x => "VM not found: " +:+ x
  | VmAlreadyExists x => "VM already exists: " +:+ x
  | VmAlreadyRunning x => "VM is already running: " +:+ x
  | VmNotRunning x => "VM is not running: " +:+ x
  | KvmNotAvailable => "KVM not available: /dev/kvm not found"
  | InvalidDiskPath x => "invalid disk path: " +:+ x
  | InvalidUsbDevice x => "invalid USB device: " +:+ x
  | VmInvalidNetwork x => "invalid network configuration: " +:+ x
  | PassthroughFailed x => "PCI passthrough failed: " +:+ x
  | QemuFailed x => "QEMU command failed: " +:+ x
  | QmpError x => "QMP error: " +:+ x
  | VmIo x => "io error: " +:+ x
  end.

(** The items of a loop that stops at the first error. *)
Fixpoint each_item {X S E} (f : X -> stm S E unit) (l : list X) : stm S E unit :=
  match l with [] => m_ret tt | x :: r => f x ;;; each_item f r end.

(** One that logs errors and goes on. *)
Fixpoint each_logged {X S E F} (f : X -> stm S E unit) (l : list X) : stm S F unit :=
  match l with [] => m_ret tt | x :: r => fun w => each_logged f r (fst (f x w)) end.

(** ** Apps *)

Definition stop_app (env : CascadeEnv) (app : string) : cas unit := fun w =>
  match ca_stop_app env app with
  | None => (mkCascadeWorld (cw_dep w) (cw_apps w ∖ {[app]}) (cw_fs w), Ok tt)
  | Some e => (w, Err e)
  end.

Definition start_app (env : CascadeEnv) (app : string) : cas unit := fun w =>
  match ca_start_app env app with
  | None => (mkCascadeWorld (cw_dep w) (cw_apps w ∪ {[app]}) (cw_fs w), Ok tt)
  | Some e => (w, Err e)
  end.

Definition resume_apps (env : CascadeEnv) (apps : list string) : cas unit := each_logged (start_app env) apps.

(** An error is reworded. *)
Definition reword {A E} (f : E -> string) (m : stm CascadeWorld E A) : cas A := fun w =>
  let '(w', r) := m w in (w', match r with Ok a => Ok a | Err e => Err (f e) end).

(** ** VMs *)

Definition vms_now (w : CascadeWorld) : list (VmConfig * bool) := vm_list (dw_vms (cw_dep w)).

(** [subvol_rollback.rs] looks VMs up by id, [fs_lock.rs] by name. *)
Definition is_vm_running (key : VmConfig -> string) (w : CascadeWorld) (k : string) : bool :=
  match find_first (fun v : VmConfig * bool => String.eqb (key v.1) k) (vms_now w) with Some v => v.2 | None => false end.

Definition resolve_vm_ids (w : CascadeWorld) (names : list string) : list (string * string) :=
  omap (fun n => (fun v : VmConfig * bool => (vc_id v.1, n)) <$> find_first (fun v : VmConfig * bool => String.eqb (vc_name v.1) n) (vms_now w)) names.

(** The guest powers off at the poll that finds it off. *)
Definition guest_off (id : string) (w : CascadeWorld) : CascadeWorld :=
  on_dep (fun d => set_vms (mkVmWorld (vm_store (dw_vms d)) (delete id (vm_running (dw_vms d))) (vm_silent (dw_vms d))) d) w.

Definition wait_vm (env : CascadeEnv) (id : string) : cas bool := fun w =>
  match wait_until_stopped (ca_guest env id) (ca_start env) (ca_clock env) VM_SHUTDOWN_TIMEOUT VM_POLL_INTERVAL with
  | Some true => (guest_off id w, Ok true)
  | _ => (w, Ok false)
  end.

(** A powerdown and a wait, when the request is taken. *)
Definition graceful_stop (env : CascadeEnv) (id : string) : cas bool := fun w =>
  match at_vms (vm_stop (ca_vm env) id) w with
  | (w', Ok _) => wait_vm env id w'
  | (w', Err _) => (w', Ok false)
  end.

Definition stop_vm (env : CascadeEnv) (id : string) : stm CascadeWorld VmError unit := fun w =>
  match graceful_stop env id w with
  | (w', Ok true) => (w', Ok tt)
  | (w', _) => at_vms (vm_kill (ca_vm env) id) w'
  end.

(** ** Lock *)

Definition lock_app (env : CascadeEnv) (app : string) : cas unit :=
  reword (fun e => "lock aborted: app '" +:+ app +:+ "' failed to stop (" +:+ e +:+ "). Stopped apps are not restarted automatically — see Apps page once the issue is resolved.")
    (stop_app env app).

Definition lock_vm (env : CascadeEnv) (vm_name : string) : cas unit := fun w =>
  if negb (is_vm_running vc_name w vm_name) then (w, Ok tt)
  else reword (fun e => "lock aborted: VM '" +:+ vm_name +:+ "' didn't shut down gracefully and force-kill failed (" +:+ vm_error_text e
                        +:+ "). Manually stop the VM, then retry.") (stop_vm env vm_name) w.

Definition set_fs (f : FsWorld -> FsWorld) (w : CascadeWorld) : CascadeWorld := mkCascadeWorld (cw_dep w) (cw_apps w) (f (cw_fs w)).

(** A command whose failure may come after its effect. *)
Definition fs_command (o : Outcome) (effect : FsWorld -> FsWorld) : cas unit := fun w =>
  match o with
  | Done => (set_fs effect w, Ok tt)
  | Failed applied e => (if applied then set_fs effect w else w, Err e)
  end.

(** [FilesystemService::unmount]; the note of what was mounted is not part of
    this state. *)
Definition storage_unmount (env : LockEnv) (fs : string) : cas unit :=
  seen <~ m_lift (lk_get_unmount env) ;;
  scrub <~ m_lift (lk_scrub env) ;;
  if scrub : bool then m_throw ("cannot unmount filesystem '" +:+ fs +:+ "' while a scrub is running")
  else if fse_mounted seen && is_some (fse_mount_point seen) then
    m_lift (match lk_identity env with Some e => Err e | None => Ok tt end) ;;;
    fs_command (lk_umount env) (fun f => mkFsWorld (fw_mounted f ∖ {[fs]}) (fw_keyed f))
  else m_ret tt.

(** [FilesystemService::lock] *)
Definition storage_lock (env : LockEnv) (fs : string) : cas unit :=
  seen <~ m_lift (lk_get env) ;;
  if negb (bool_decide (fse_encrypted seen = Some true)) then m_throw ("filesystem '" +:+ fs +:+ "' is not encrypted")
  else
    (if fse_mounted seen then storage_unmount env fs else m_ret tt) ;;;
    (if lk_key env then fs_command (lk_unlink env) (fun f => mkFsWorld (fw_mounted f) (fw_keyed f ∖ {[fs]})) else m_ret tt) ;;;
    m_lift (match lk_get_after env with Some e => Err e | None => Ok tt end).

Definition lock_with_dependents (env : CascadeEnv) (fs : string) : cas unit := fun w =>
  let deps := find_dependents (ca_dep env) (cw_dep w) fs in
  if nonempty (fd_state_errors deps)
  then (w, Err ("lock aborted because dependent state could not be verified: " +:+ str_join "; " (fd_state_errors deps)))
  else (each_item (lock_app env) (fd_apps deps) ;;; each_item (lock_vm env) (fd_vms deps) ;;; storage_lock (ca_lock env) fs) w.

(** ** Shares *)

Definition smb_enabled_req (id : string) (enabled : bool) : UpdateSmbShareRequest :=
  mkUpdateSmb id None None None None None None None None None (Some enabled).

Definition nfs_enabled_req (id : string) (enabled : bool) : UpdateNfsShareRequest := mkUpdateNfs id None None (Some enabled).

Definition toggle_smb (env : CascadeEnv) (enabled : bool) (id : string) : stm CascadeWorld SmbError unit :=
  at_smb (smb_update (ca_smb env enabled id) (smb_enabled_req id enabled)) ;;; m_ret tt.

Definition toggle_nfs (env : CascadeEnv) (enabled : bool) (id : string) : stm CascadeWorld NfsError unit :=
  at_nfs (nfs_update (ca_nfs env enabled id) (nfs_enabled_req id enabled)) ;;; m_ret tt.

(** The ids whose change succeeded. *)
Fixpoint touch_each {E F} (f : string -> stm CascadeWorld E unit) (ids : list string) : stm CascadeWorld F (list string) :=
  match ids with
  | [] => m_ret []
  | id :: r => fun w =>
      let '(w1, res) := f id w in
      let '(w2, touched) := touch_each f r w1 in
      (w2, match touched with Ok l => Ok (if is_ok res then id :: l else l) | Err e => Err e end)
  end.

Definition smb_to_change (subvol_path : string) (enabled : bool) (w : CascadeWorld) : list string :=
  ss_id <$> List.filter (fun s => negb (Bool.eqb (ss_enabled s) enabled) && path_in_subvol (ss_path s) subvol_path) (load_all (sw_state (dw_smb (cw_dep w)))).

Definition nfs_to_change (subvol_path : string) (enabled : bool) (w : CascadeWorld) : list string :=
  ns_id <$> List.filter (fun s => negb (Bool.eqb (ns_enabled s) enabled) && path_in_subvol (ns_path s) subvol_path) (load_all (nw_state (dw_nfs (cw_dep w)))).

Definition set_smb_shares_enabled (env : CascadeEnv) (subvol_path : string) (enabled : bool) : cas (list string) := fun w =>
  touch_each (toggle_smb env enabled) (smb_to_change subvol_path enabled w) w.

Definition set_nfs_shares_enabled (env : CascadeEnv) (subvol_path : string) (enabled : bool) : cas (list string) := fun w =>
  touch_each (toggle_nfs env enabled) (nfs_to_change subvol_path enabled w) w.

Definition reenable_smb_shares (env : CascadeEnv) (ids : list string) : cas unit := each_logged (toggle_smb env true) ids.
Definition reenable_nfs_shares (env : CascadeEnv) (ids : list string) : cas unit := each_logged (toggle_nfs env true) ids.

(** ** Rollback *)

Record RollbackSnapshotRequest : Type := mkRollback { rr_filesystem : string; rr_subvolume : string; rr_snapshot : string }.

Definition rollback_app (env : CascadeEnv) (app : string) : cas unit :=
  reword (fun e => "rollback aborted before any change: app '" +:+ app +:+ "' failed to stop (" +:+ e +:+ ")") (stop_app env app).

(** When the kill fails, the apps are started again. *)
Definition rollback_vm (env : CascadeEnv) (apps : list string) (vm : string * string) : cas unit := fun w =>
  if negb (is_vm_running vc_id w vm.1) then (w, Ok tt)
  else match stop_vm env vm.1 w with
       | (w', Ok _) => (w', Ok tt)
       | (w', Err e) => (fst (resume_apps env apps w'),
                         Err ("rollback aborted: VM '" +:+ vm.2 +:+ "' wouldn't shut down and force-kill failed (" +:+ vm_error_text e
                              +:+ "). Stopped apps were restarted; manually stop the VM and retry."))
       end.

Definition rollback_dependents (env : CascadeEnv) (req : RollbackSnapshotRequest) (w : CascadeWorld) : SubvolumeDependents :=
  default (no_dependents "" "" "")
    (find_first (fun d => String.eqb (sd_filesystem d) (rr_filesystem req) && String.eqb (sd_name d) (rr_subvolume req))
       (find_all_subvolume_dependents (ca_dep env) (cw_dep w) None None)).

(** The checks before anything is stopped. *)
Definition rollback_subvolume (env : CascadeEnv) (req : RollbackSnapshotRequest) (owner_filter : option string) : cas Subvolume :=
  at_vol (m_lift (validate_existing_snapshot_name (rr_subvolume req) (rr_snapshot req))) ;;;
  sv <~ at_vol (sv_get (dn_vol (ca_dep env)) (rr_filesystem req) (rr_subvolume req) owner_filter) ;;
  if bool_decide (sb_type sv = SvBlock) || is_some (sb_block_device sv)
  then m_throw "rollback is not yet supported for block subvolumes (iSCSI / NVMe-oF / VM disks)"
  else m_ret sv.

(** What was stopped: VMs and shares. *)
Record Quiesced : Type := mkQuiesced { qu_vms : list (string * string); qu_smb : list string; qu_nfs : list string }.

Definition quiesce_all (env : CascadeEnv) (deps : SubvolumeDependents) (subvol_path : string) : cas Quiesced :=
  each_item (rollback_app env) (sd_apps deps) ;;;
  w <~ m_get ;;
  let vm_ids := resolve_vm_ids w (sd_vms deps) in
  each_item (rollback_vm env (sd_apps deps)) vm_ids ;;;
  smb_ids <~ set_smb_shares_enabled env subvol_path false ;;
  nfs_ids <~ set_nfs_shares_enabled env subvol_path false ;;
  m_ret (mkQuiesced vm_ids smb_ids nfs_ids).

Definition start_vm (env : CascadeEnv) (vm : string * string) : stm CascadeWorld VmError unit :=
  at_vms (vm_start (ca_vm env) vm.1) ;;; m_ret tt.

Definition resume (env : CascadeEnv) (apps : list string) (q : Quiesced) : cas unit :=
  reenable_nfs_shares env (qu_nfs q) ;;;
  reenable_smb_shares env (qu_smb q) ;;;
  each_logged (start_vm env) (qu_vms q) ;;;
  resume_apps env apps.

Definition swap (env : CascadeEnv) (req : RollbackSnapshotRequest) (owner_filter : option string) (allow_admin_override : bool)
    : cas (Subvolume * string) :=
  at_vol (sv_rollback (ca_swap env) (rr_filesystem req) (rr_subvolume req) (rr_snapshot req) owner_filter allow_admin_override).

Definition rollback_with_dependents (env : CascadeEnv) (req : RollbackSnapshotRequest) (owner_filter : option string)
    (allow_admin_override : bool) : cas (Subvolume * string) :=
  sv <~ rollback_subvolume env req owner_filter ;;
  w <~ m_get ;;
  let deps := rollback_dependents env req w in
  q <~ quiesce_all env deps (sb_path sv) ;;
  fun w => let '(w1, result) := swap env req owner_filter allow_admin_override w in
           (fst (resume env (sd_apps deps) q w1), result).
