(* ===== verification/CascadeProps.v ===== *)
(** * The cascades stop what they must, and give it back *)

From Stdlib Require Import ZArith Lia Ascii String.
From stdpp Require Import base list gmap strings.
From S2P Require Import Prelude.
From S2P Require Import RustStr.
From S2P Require Import Text.
From S2P Require Import RustPath.
From S2P Require Import StateDir.
From S2P Require Import Nfs.
From S2P Require Import NfsProps.
From S2P Require Import Smb.
From S2P Require Import SmbProps.
From S2P Require Import ShareScope.
From S2P Require Import Subvol.
From S2P Require Import SubvolProps.
From S2P Require Import Vm.
From S2P Require Import VmProps.
From S2P Require Import VmLife.
From S2P Require Import VmRoute.
From S2P Require Import Dependents.
From S2P Require Import DepProps.
From S2P Require Import Cascade.

(** ** The wait ends *)

(** The clock when the loop looks at it: not before the start, and an interval
    apart, since the loop sleeps in between. *)
Record ticks (start interval : Z) (now : nat -> Z) : Prop := {
  tk_start : start <= now 0%nat;
  tk_sleep : forall i, now i + interval <= now (S i);
}.

Lemma ticks_at start interval now i : ticks start interval now -> start + Z.of_nat i * interval <= now i.
Proof. intros [H0 HS]. induction i as [|i IH]; [lia|]. specialize (HS i). lia. Qed.

(** Where the loop ends: at the first poll that finds the guest off or the
    deadline passed. *)
Record wait_ends (stopped : nat -> bool) (now : nat -> Z) (deadline : Z) (n : nat) (b : bool) : Prop := {
  we_before : forall i, (i < n)%nat -> stopped i = false /\ now i < deadline;
  we_at : stopped n = b;
  we_late : b = false -> deadline <= now n;
}.

Lemma wait_loop_ends stopped start now interval timeout fuel i :
  ticks start interval now -> 0 < interval -> timeout < (Z.of_nat i + Z.of_nat fuel - 1) * interval ->
  (forall j, (j < i)%nat -> stopped j = false /\ now j < start + timeout) -> (0 < fuel)%nat ->
  exists n b, wait_loop fuel stopped now (start + timeout) i = Some b /\ (n < i + fuel)%nat /\ wait_ends stopped now (start + timeout) n b.
Proof.
  intros Ht Hi. revert i. induction fuel as [|fuel IH]; intros i Hf Hb Hpos; [lia|]. cbn [wait_loop].
  destruct (stopped i) eqn:Es; [exists i, true; split_and!; [done|lia|by split]|].
  destruct (Z.leb_spec (start + timeout) (now i)) as [Hl|Hl]; [exists i, false; split_and!; [done|lia|by split]|].
  destruct (IH (S i)) as (n & b & E & Hn & Hw).
  - lia.
  - intros j Hj. destruct (decide (j = i)) as [->|]; [done|]. apply Hb. lia.
  - pose proof (ticks_at _ _ _ i Ht). assert (Z.of_nat i * interval < (Z.of_nat i + Z.of_nat fuel) * interval) by nia. nia.
  - exists n, b. split_and!; [done|lia|done].
Qed.

(** C34. The wait for a VM ends.  Whatever the guest does, with a clock that runs
    and a positive interval the loop returns after at most one poll per interval
    and one more at each end; it says yes exactly if it found the guest off at a
    poll before the deadline passed, and gives up only once it has. *)
Theorem wait_until_stopped_returns stopped start now timeout interval :
  ticks start interval now -> 0 < interval -> 0 <= timeout ->
  exists n b, wait_until_stopped stopped start now timeout interval = Some b /\
    Z.of_nat n <= timeout / interval + 1 /\ wait_ends stopped now (start + timeout) n b.
Proof.
  intros Ht Hi H0. pose proof (Z.div_pos timeout interval H0 Hi). pose proof (Z.mul_succ_div_gt timeout interval Hi).
  destruct (wait_loop_ends stopped start now interval timeout (wait_fuel timeout interval) 0 Ht Hi) as (n & b & E & Hn & Hw).
  - unfold wait_fuel. rewrite !Nat2Z.inj_succ, Z2Nat.id by lia. nia.
  - intros j Hj. lia.
  - unfold wait_fuel. lia.
  - exists n, b. split_and!; [done| |done]. unfold wait_fuel in Hn. lia.
Qed.

(** A guest that is off at the third poll, and one that stays on. *)
Lemma wait_until_stopped_returns_witness :
  (exists n, Z.of_nat n <= 61 /\ wait_ends (fun i => Nat.leb 2 i) (fun i => 5 + 1000 * Z.of_nat i) 60000 n true) /\
  (exists n, Z.of_nat n <= 61 /\ wait_ends (fun _ => false) (fun i => 1000 * Z.of_nat i) 60000 n false).
Proof.
  assert (forall d, 0 <= d -> ticks 0 1000 (fun i => d + 1000 * Z.of_nat i)) as Ht by (intros d Hd; split; intros; lia).
  split.
  - destruct (wait_until_stopped_returns (fun i => Nat.leb 2 i) 0 (fun i => 5 + 1000 * Z.of_nat i) 60000 1000) as (n & b & E & Hn & Hw); [apply Ht; lia|lia|lia|].
    vm_compute in E. injection E as <-. exists n. split; [exact Hn|exact Hw].
  - destruct (wait_until_stopped_returns (fun _ => false) 0 (fun i => 1000 * Z.of_nat i) 60000 1000) as (n & b & E & Hn & Hw); [split; intros; lia|lia|lia|].
    vm_compute in E. injection E as <-. exists n. split; [exact Hn|exact Hw].
Defined.

(** ** Apps *)

Lemma each_stop_apps env (say : string -> string -> string) apps w :
  let '(w', r) := each_item (fun a => reword (say a) (stop_app env a)) apps w in
  cw_dep w' = cw_dep w /\ cw_fs w' = cw_fs w /\ cw_apps w' ⊆ cw_apps w /\
  (r = Ok tt -> forall a, a ∈ apps -> a ∉ cw_apps w').
Proof.
  revert w. induction apps as [|a apps IH]; intros w; cbn [each_item].
  { unfold m_ret. split_and!; try done. by intros _ a ?%elem_of_nil. }
  unfold m_bind, reword at 1, stop_app at 1. destruct (ca_stop_app env a) as [e|]; [by split_and!|].
  specialize (IH (mkCascadeWorld (cw_dep w) (cw_apps w ∖ {[a]}) (cw_fs w))). destruct (each_item _ apps _) as [w' r]. cbn in IH.
  destruct IH as (H1 & H2 & H3 & H4). split_and!; [done|done|set_solver|]. intros Hr b [->|Hb]%elem_of_cons; [set_solver|by apply H4].
Qed.

Lemma resume_apps_frame env apps w : cw_dep (fst (resume_apps env apps w)) = cw_dep w /\ cw_fs (fst (resume_apps env apps w)) = cw_fs w.
Proof.
  unfold resume_apps. revert w. induction apps as [|a apps IH]; intros w; [done|]. cbn [each_logged].
  unfold start_app at 2 4. destruct (ca_start_app env a); cbn [fst]; [apply IH|].
  destruct (IH (mkCascadeWorld (cw_dep w) (cw_apps w ∪ {[a]}) (cw_fs w))) as [H1 H2]. by rewrite H1, H2.
Qed.

(** ** VMs *)

(** Only the set of running VMs shrinks. *)
Record vm_shrinks (w w' : CascadeWorld) : Prop := {
  vs_vol : dw_vol (cw_dep w') = dw_vol (cw_dep w);
  vs_smb : dw_smb (cw_dep w') = dw_smb (cw_dep w);
  vs_nfs : dw_nfs (cw_dep w') = dw_nfs (cw_dep w);
  vs_store : vm_store (dw_vms (cw_dep w')) = vm_store (dw_vms (cw_dep w));
  vs_running : forall id, vm_running (dw_vms (cw_dep w)) !! id = None -> vm_running (dw_vms (cw_dep w')) !! id = None;
  vs_locked : cw_fs w' = cw_fs w;
}.

#[export] Instance vm_shrinks_refl : Reflexive vm_shrinks. Proof. by split. Qed.
#[export] Instance vm_shrinks_trans : Transitive vm_shrinks.
Proof. intros w1 w2 w3 [] []. split; try congruence. auto. Qed.

Lemma guest_off_shrinks id w : vm_shrinks w (guest_off id w).
Proof. split; try done. intros i Hi. cbn. by apply lookup_delete_None; right. Qed.

Lemma stop_vm_spec env id w : let '(w', r) := stop_vm env id w in
  vm_shrinks w w' /\ cw_apps w' = cw_apps w /\ (r = Ok tt -> vm_running (dw_vms (cw_dep w')) !! id = None).
Proof.
  unfold stop_vm, graceful_stop. unfold at_vms at 1.
  assert (forall v, fst (vm_stop (ca_vm env) id v) = v) as Hs.
  { intros v. unfold vm_stop, m_bind, m_get, m_lift. destruct (load (vm_store v) id); [|done]. cbn. by destruct (negb _). }
  specialize (Hs (dw_vms (cw_dep w))). destruct (vm_stop (ca_vm env) id _) as [v rs]. cbn in Hs. subst v.
  assert (on_dep (set_vms (dw_vms (cw_dep w))) w = w) as -> by (by destruct w as [[]]).
  assert (let '(w', r) := at_vms (vm_kill (ca_vm env) id) w in
    vm_shrinks w w' /\ cw_apps w' = cw_apps w /\ (r = Ok tt -> vm_running (dw_vms (cw_dep w')) !! id = None)) as Hk.
  { unfold at_vms, vm_kill, m_bind, m_get, m_lift. destruct (load _ id); cbn [ok_or]; [|by destruct w as [[]]].
    destruct (negb _); [by destruct w as [[]]|]. cbn. split; [|split; [done|by rewrite lookup_delete_eq]].
    split; try done. intros i Hi. cbn. by apply lookup_delete_None; right. }
  destruct rs as [[]|e]; [|done]. unfold wait_vm. destruct (wait_until_stopped _ _ _ _ _) as [[]|]; [|done..].
  split; [apply guest_off_shrinks|]. split; [done|]. intros _. cbn. by rewrite lookup_delete_eq.
Qed.

Lemma listed_running v w : v ∈ vms_now w -> v.2 = is_running (dw_vms (cw_dep w)) (vc_id v.1).
Proof.
  unfold vms_now, vm_list, statuses. intros (c & -> & Hc)%list_elem_of_fmap. cbn. by rewrite (proj1 (migrate_id c)).
Qed.

(** A VM that the look-up does not find running is not running. *)
Lemma looked_up_running key w k v : v ∈ vms_now w -> key v.1 = k ->
  (forall u, u ∈ vms_now w -> key u.1 = k -> vc_id u.1 = vc_id v.1) -> is_vm_running key w k = v.2.
Proof.
  intros Hv Hk Hu. unfold is_vm_running. destruct (find_first _ _) as [u|] eqn:E.
  - apply find_first_Some in E as [Hin E%String.eqb_eq]. rewrite (listed_running u w), (listed_running v w), (Hu u) by done. done.
  - rewrite find_first_None in E. specialize (E v Hv). apply String.eqb_neq in E. done.
Qed.

(** The VMs of two states with the same records. *)
Lemma vms_now_store w w' v : vm_store (dw_vms (cw_dep w')) = vm_store (dw_vms (cw_dep w)) -> v ∈ vms_now w' ->
  (v.1, is_running (dw_vms (cw_dep w)) (vc_id v.1)) ∈ vms_now w.
Proof.
  unfold vms_now, vm_list, statuses. intros -> (c & -> & Hc)%list_elem_of_fmap. apply list_elem_of_fmap. exists c. cbn. by rewrite (proj1 (migrate_id c)).
Qed.

Definition names_unique (w : CascadeWorld) : Prop :=
  forall u v, u ∈ vms_now w -> v ∈ vms_now w -> vc_name u.1 = vc_name v.1 -> vc_id u.1 = vc_id v.1.

(** Records are filed under identifiers, and no identifier is the name of a VM. *)
Definition ids_not_names (w : CascadeWorld) : Prop :=
  forall v, v ∈ vms_now w -> load (vm_store (dw_vms (cw_dep w))) (vc_name v.1) = None.

(** ** Locking *)

(** Given a name in place of an identifier, nothing is stopped. *)
Lemma stop_vm_unknown env name w : load (vm_store (dw_vms (cw_dep w))) name = None -> stop_vm env name w = (w, Err (VmNotFound name)).
Proof.
  intros Hn. assert (on_dep (set_vms (dw_vms (cw_dep w))) w = w) as Hw by (by destruct w as [[]]).
  unfold stop_vm, graceful_stop, at_vms, vm_stop, vm_kill, m_bind, m_get, m_lift. rewrite Hn. cbn [ok_or]. rewrite Hw. rewrite Hn. cbn [ok_or]. by rewrite Hw.
Qed.

Lemma lock_vms_spec env names w : (forall n, n ∈ names -> load (vm_store (dw_vms (cw_dep w))) n = None) ->
  let '(w', r) := each_item (lock_vm env) names w in
  w' = w /\ (r = Ok tt <-> forall n, n ∈ names -> is_vm_running vc_name w n = false).
Proof.
  induction names as [|n names IH]; intros Hn; cbn [each_item].
  { unfold m_ret. split; [done|]. split; [by intros _ n ?%elem_of_nil|done]. }
  unfold m_bind, lock_vm at 1. destruct (is_vm_running vc_name w n) eqn:En; cbn [negb].
  - unfold reword. rewrite stop_vm_unknown by (apply Hn; by left). split; [done|]. split; [done|]. intros H. rewrite H in En; [done|by left].
  - lapply IH; [|intros m Hm; apply Hn; by right]. destruct (each_item _ names w) as [w' r]. intros [-> H]. split; [done|]. rewrite H.
    setoid_rewrite elem_of_cons. naive_solver.
Qed.

Lemma dependents_no_errors env w fs : fd_state_errors (find_dependents env w fs) = [] ->
  exists all, list_all env (Some fs) None (dw_vol w) = Ok all /\
    forall n, n ∈ fd_vms (find_dependents env w fs) <->
      exists v, v ∈ vm_list (dw_vms w) /\ vc_name v.1 = n /\ existsb (disk_touches_fs fs all) (vc_disks v.1) = true.
Proof.
  unfold find_dependents, find_dependents_with_uuid. destruct (list_all env (Some fs) None (dw_vol w)) as [all|e]; cbn [or_report].
  2:{ destruct (apps_of_fs env fs) as [[]]. destruct (or_report _ _), (or_report _ (load_all_strict _ _)), (or_report _ (load_all_strict _ _)). done. }
  intros _. exists all. split; [done|]. intros n. destruct (apps_of_fs env fs) as [[]].
  destruct (or_report _ _), (or_report _ (load_all_strict _ _)), (or_report _ (load_all_strict _ _)). cbn [fd_vms].
  rewrite list_elem_of_fmap. setoid_rewrite list_elem_of_In. setoid_rewrite filter_In. naive_solver.
Qed.

(** Nothing runs on the filesystem: every inventory was read, no app that depends
    on it runs, and no running VM has a disk on it, by path, by backing file or
    by the device of one of its subvolumes. *)
Definition fs_quiet (env : CascadeEnv) (fs : string) (w w' : CascadeWorld) : Prop :=
  let deps := find_dependents (ca_dep env) (cw_dep w) fs in
  fd_state_errors deps = [] /\ (forall a, a ∈ fd_apps deps -> a ∉ cw_apps w') /\
  exists all, list_all (ca_dep env) (Some fs) None (dw_vol (cw_dep w)) = Ok all /\
    forall v, v ∈ vms_now w' -> existsb (disk_touches_fs fs all) (vc_disks v.1) = true -> v.2 = false.

(** The storage layer changes mounts and keys only. *)
Definition fs_only {A} (m : stm CascadeWorld string A) : Prop := forall w, exists f, fst (m w) = set_fs f w.

Lemma set_fs_id w : set_fs id w = w.
Proof. by destruct w. Qed.

Lemma fs_only_lift {A} (r : result A string) : fs_only (m_lift r).
Proof. intros w. exists id. by rewrite set_fs_id. Qed.

Lemma fs_only_throw {A} e : fs_only (m_throw (A:=A) e).
Proof. intros w. exists id. by rewrite set_fs_id. Qed.

Lemma fs_only_ret {A} (x : A) : fs_only (m_ret x).
Proof. intros w. exists id. by rewrite set_fs_id. Qed.

Lemma fs_only_command o effect : fs_only (fs_command o effect).
Proof. intros w. unfold fs_command. destruct o as [|[] e]; [by exists effect..|]. exists id. by rewrite set_fs_id. Qed.

Lemma fs_only_bind {A B} (m : stm CascadeWorld string A) (k : A -> stm CascadeWorld string B) :
  fs_only m -> (forall a, fs_only (k a)) -> fs_only (m_bind m k).
Proof.
  intros Hm Hk w. unfold m_bind. destruct (Hm w) as [f Hf]. destruct (m w) as [w1 [a|e]]; cbn in Hf; subst w1; [|by exists f].
  destruct (Hk a (set_fs f w)) as [g Hg]. rewrite Hg. by exists (g ∘ f).
Qed.

#[local] Hint Resolve fs_only_lift fs_only_throw fs_only_ret fs_only_command : nasty.

Lemma storage_lock_frame env fs : fs_only (storage_lock env fs).
Proof.
  assert (fs_only (storage_unmount env fs)).
  { unfold storage_unmount. apply fs_only_bind; [auto with nasty|]. intros seen. apply fs_only_bind; [auto with nasty|].
    intros []; [auto with nasty|]. destruct (_ && _); [|auto with nasty]. apply fs_only_bind; auto with nasty. }
  unfold storage_lock. apply fs_only_bind; [auto with nasty|]. intros seen. destruct (negb _); [auto with nasty|].
  apply fs_only_bind; [destruct (fse_mounted seen); auto with nasty|]. intros _.
  apply fs_only_bind; [destruct (lk_key env); auto with nasty|auto with nasty].
Qed.

(** A lock that succeeds has unmounted the filesystem and removed its key, as far
    as the listing and the keyring showed them. *)
Lemma storage_lock_ok env fs w w' : storage_lock env fs w = (w', Ok tt) ->
  (fs ∈ fw_mounted (cw_fs w') -> exists seen, (lk_get env = Ok seen \/ lk_get_unmount env = Ok seen) /\ fse_mounted seen && is_some (fse_mount_point seen) = false) /\
  (fs ∈ fw_keyed (cw_fs w') -> lk_key env = false).
Proof.
  unfold storage_lock, storage_unmount, fs_command, m_bind, m_lift, m_throw, m_ret.
  destruct (lk_get env) as [seen|] eqn:Eg; [|done]. destruct (negb _); [done|]. destruct (fse_mounted seen) eqn:Em.
  - destruct (lk_get_unmount env) as [seen2|] eqn:Eg2; [|done]. destruct (lk_scrub env) as [[]|]; [done| |done].
    destruct (fse_mounted seen2 && is_some (fse_mount_point seen2)) eqn:Em2.
    + destruct (lk_identity env); [done|]. destruct (lk_umount env) as [|]; [|done].
      destruct (lk_key env); [destruct (lk_unlink env); [|done]|]; destruct (lk_get_after env); try done; intros [= <-]; cbn; split; try done; set_solver.
    + destruct (lk_key env); [destruct (lk_unlink env); [|done]|]; destruct (lk_get_after env); try done; intros [= <-]; cbn; (split; [intros _; exists seen2; auto|]); try done; set_solver.
  - destruct (lk_key env); [destruct (lk_unlink env); [|done]|]; destruct (lk_get_after env); try done; intros [= <-]; cbn;
      (split; [intros _; exists seen; rewrite Em; auto|]); try done; set_solver.
Qed.

Lemma lock_outcome env fs w w' r :
  names_unique w -> ids_not_names w -> lock_with_dependents env fs w = (w', r) ->
  cw_dep w' = cw_dep w /\
  ((cw_fs w' = cw_fs w /\ r <> Ok tt) \/
   exists w1, fs_quiet env fs w w1 /\ cw_dep w1 = cw_dep w /\ cw_fs w1 = cw_fs w /\ storage_lock (ca_lock env) fs w1 = (w', r)).
Proof.
  intros Hu Hi. unfold lock_with_dependents. set (deps := find_dependents _ _ fs).
  destruct (fd_state_errors deps) as [|e es] eqn:Ee; cbn [nonempty]; [|intros [= <- <-]; split; [done|by left]].
  destruct (dependents_no_errors _ _ _ Ee) as (all & Hall & Hvms). fold deps in Hvms.
  unfold m_bind. pose proof (each_stop_apps env (fun app e => "lock aborted: app '" +:+ app +:+ "' failed to stop (" +:+ e +:+ "). Stopped apps are not restarted automatically — see Apps page once the issue is resolved.") (fd_apps deps) w) as Ha.
  change (fun a => reword _ (stop_app env a)) with (lock_app env) in Ha. destruct (each_item (lock_app env) (fd_apps deps) w) as [w1 [[]|e]].
  2:{ destruct Ha as (H1 & H2 & _). intros [= <- <-]. split; [done|by left]. }
  destruct Ha as (H1 & H2 & H3 & H4). pose proof (lock_vms_spec env (fd_vms deps) w1) as Hl. lapply Hl; clear Hl.
  2:{ intros n (v & Hv & <- & _)%Hvms. rewrite H1. by apply Hi. }
  destruct (each_item (lock_vm env) (fd_vms deps) w1) as [w2 rv]. intros [-> Hr]. destruct rv as [[]|e]; [|intros [= <- <-]; split; [done|by left]].
  intros E. pose proof (storage_lock_frame (ca_lock env) fs w1) as [f Hf]. rewrite E in Hf. cbn in Hf. split; [by rewrite Hf|]. right.
  exists w1. split; [|done]. split; [done|]. split; [by apply H4|]. exists all. split; [done|].
  intros v Hv Ht. assert (names_unique w1) as Hu1 by (unfold names_unique, vms_now; rewrite H1; exact Hu).
  rewrite <- (looked_up_running vc_name w1 (vc_name v.1) v Hv eq_refl); [|intros u Hin E'; by apply Hu1].
  apply Hr; [done|]. apply Hvms. exists v. split_and!; [|done..]. unfold vms_now in Hv. by rewrite H1 in Hv.
Qed.

(** A running VM on the filesystem is never shut down: the lock fails. *)
Lemma lock_never_stops_vms env fs w : names_unique w -> ids_not_names w ->
  (exists v, v ∈ vms_now w /\ v.2 = true /\ vc_name v.1 ∈ fd_vms (find_dependents (ca_dep env) (cw_dep w) fs)) ->
  snd (lock_with_dependents env fs w) <> Ok tt.
Proof.
  intros Hu Hi (v & Hv & Hr & Hd) E. destruct (lock_with_dependents env fs w) as [w' r] eqn:El. cbn in E. subst r.
  destruct (lock_outcome env fs w w' _ Hu Hi El) as (_ & [[_ ?]|(w1 & (Ee & _ & all & Hall & Hq) & H1 & _)]); [done|].
  destruct (dependents_no_errors _ _ _ Ee) as (all' & Hall' & Hvms). rewrite Hall in Hall'. injection Hall' as <-.
  apply Hvms in Hd as (u & Hu1 & En & Ht). assert (u ∈ vms_now w1) as Hu2 by (unfold vms_now; by rewrite H1).
  specialize (Hq u Hu2 Ht). rewrite (listed_running u w) in Hq by done. rewrite (listed_running v w) in Hr by done.
  rewrite (Hu u v) in Hq by done. congruence.
Qed.


(** ** An example: an app, a VM and a share on one subvolume *)

Definition docs_vm : VmConfig :=
  mkVmConfig "7c9e" "mail" 1 1024 [mkVmDisk "/fs/tank/docs/mail.img" None "virtio" false None None None None None] [] [] [] [] None "disk" false None false
    None None None None.

Definition docs_fs : FsWorld := mkFsWorld {["tank"]} {["tank"]}.
Definition docs_lock : LockEnv :=
  let seen := Ok (mkFsSeen (Some true) true (Some "/fs/tank")) in mkLockEnv seen seen (Ok false) None Done true Done None.

Definition docs_world : CascadeWorld :=
  mkCascadeWorld (mkDepWorld plain_vols (mkVmWorld {["7c9e" := Some docs_vm]} {["7c9e" := []]} []) (mkSmbWorld ∅ ∅ "" None)
    (mkNfsWorld {["n1" := Some (mkNfsShare "n1" "/fs/tank/docs/letters" None [] true)]} ∅)) {["wiki"]} docs_fs.

Definition working_smb : SmbEnv := mkSmbEnv true None "" None None None true WriteOk None None WriteOk ReloadOk true true.
Definition working_nfs : NfsEnv := mkNfsEnv true None "" None None None true true WriteOk ReloadOk.

Definition docs_env (nfs : bool -> string -> NfsEnv) (stop_app : string -> option string) : CascadeEnv :=
  mkCascadeEnv demo_deps plain_env some_host (fun _ _ => working_smb) nfs stop_app (fun _ => None) (fun _ i => Nat.leb 3 i)
    0 (fun i => 1000 * Z.of_nat i) docs_lock.

Lemma one_vm w b : vms_now w = [(docs_vm, b)] -> names_unique w.
Proof. intros H u v. rewrite H, !list_elem_of_singleton. by intros -> ->. Qed.

