(* ===== verification/CascadeRollback.v ===== *)
(** * A rollback runs on a quiet subvolume

    What [rollback_with_dependents] has stopped when the subvolume is exchanged,
    and what is as before when it returns. *)

From Stdlib Require Import ZArith Lia Ascii String.
From stdpp Require Import base list gmap strings.
From S2P Require Import Prelude.
From S2P Require Import RustStr.
From S2P Require Import Text.
From S2P Require Import RustPath.
From S2P Require Import StateDir.
From S2P Require Import Nfs.
From S2P Require Import NfsProps.
From S2P Require Import Smb.
From S2P Require Import SmbProps.
From S2P Require Import ShareScope.
From S2P Require Import Subvol.
From S2P Require Import SubvolProps.
From S2P Require Import Vm.
From S2P Require Import VmProps.
From S2P Require Import VmLife.
From S2P Require Import VmRoute.
From S2P Require Import Dependents.
From S2P Require Import DepProps.
From S2P Require Import Cascade.
From S2P Require Import CascadeProps.

(** ** VMs *)

Lemma running_None w id : vm_running w !! id = None <-> is_running w id = false.
Proof. unfold is_running. rewrite bool_decide_eq_false, eq_None_not_Some. done. Qed.

Lemma rollback_vms_spec env apps vms w : let '(w', r) := each_item (rollback_vm env apps) vms w in
  vm_shrinks w w' /\ (r = Ok tt -> cw_apps w' = cw_apps w /\
    forall vm v, vm ∈ vms -> v ∈ vms_now w' -> vc_id v.1 = vm.1 -> v.2 = false).
Proof.
  revert w. induction vms as [|vm vms IH]; intros w; cbn [each_item].
  { unfold m_ret. split; [done|]. intros _. split; [done|]. by intros vm v ?%elem_of_nil. }
  assert (exists w1 r1, rollback_vm env apps vm w = (w1, r1) /\ vm_shrinks w w1 /\
    (r1 = Ok tt -> cw_apps w1 = cw_apps w /\ forall v, v ∈ vms_now w1 -> vc_id v.1 = vm.1 -> v.2 = false)) as (w1 & r1 & E & Hs & H1).
  { unfold rollback_vm. destruct (is_vm_running vc_id w vm.1) eqn:Er; cbn [negb].
    - pose proof (stop_vm_spec env vm.1 w) as H. destruct (stop_vm env vm.1 w) as [w1 [[]|e]]; destruct H as (Hs & Ha & Hr).
      + eexists _, _. split; [done|]. split; [done|]. intros _. split; [done|]. intros v Hv E. rewrite (listed_running v w1 Hv), E. by apply running_None, Hr.
      + eexists _, _. split; [done|]. split; [|done]. destruct (resume_apps_frame env apps w1) as [F1 F2]. etransitivity; [exact Hs|]. by split; rewrite ?F1, ?F2.
    - eexists _, _. split; [done|]. split; [done|]. intros _. split; [done|]. intros v Hv E.
      rewrite <- (looked_up_running vc_id w vm.1 v Hv E); [done|]. intros u _ ->. done. }
  unfold m_bind. rewrite E. destruct r1 as [[]|e]; [|done]. specialize (IH w1). destruct (each_item _ vms w1) as [w' r]. destruct IH as [IHs IH].
  split; [by etransitivity|]. intros Hr. destruct (H1 eq_refl) as [Ha1 Hv1], (IH Hr) as [Ha2 Hv2]. split; [congruence|].
  intros vm' v [->|Hin]%elem_of_cons Hv Eid; [|by eapply Hv2].
  pose proof (vms_now_store w1 w' v (vs_store _ _ IHs) Hv) as Hv'. specialize (Hv1 _ Hv' Eid). cbn in Hv1. apply running_None in Hv1.
  rewrite (listed_running v w' Hv). apply running_None. by apply (vs_running _ _ IHs).
Qed.

(** ** Toggling shares *)

Section Toggle.
Context {T E R : Type} (store : CascadeWorld -> StateDir T) (rest : CascadeWorld -> R) (on : bool -> T -> T)
  (toggle : bool -> string -> stm CascadeWorld E unit) (good : string -> T -> Prop).
Hypothesis toggle_ok : forall b id w s, load (store w) id = Some s -> good id s ->
  exists w', toggle b id w = (w', Ok tt) /\ store w' = <[id := Some (on b s)]> (store w) /\ rest w' = rest w.
Hypothesis good_on : forall b id s, good id s -> good id (on b s).

Definition toggled (b : bool) (ids : list string) (d : StateDir T) (i : string) : option (option T) :=
  if bool_decide (i ∈ ids) then option_map (option_map (on b)) (d !! i) else d !! i.

Lemma load_lookup (d : StateDir T) id s : load d id = Some s <-> d !! id = Some (Some s).
Proof. unfold load. destruct (d !! id) as [[x|]|]; cbn; split; congruence. Qed.

Lemma toggled_step b id ids d s i : id ∉ ids -> load d id = Some s ->
  toggled b ids (<[id := Some (on b s)]> d) i = toggled b (id :: ids) d i.
Proof.
  intros Hid Hs%load_lookup. unfold toggled. destruct (decide (i = id)) as [->|Hne].
  - rewrite (bool_decide_eq_false_2 _ Hid), lookup_insert_eq, bool_decide_eq_true_2 by (by left). by rewrite Hs.
  - rewrite lookup_insert_ne by done. assert (i ∈ id :: ids <-> i ∈ ids) as Hi by (rewrite elem_of_cons; naive_solver). by rewrite (bool_decide_ext _ _ Hi).
Qed.

Definition all_good (ids : list string) (d : StateDir T) : Prop := forall id, id ∈ ids -> exists s, load d id = Some s /\ good id s.

Lemma all_good_step b id ids d s : id ∉ ids -> all_good (id :: ids) d -> all_good ids (<[id := Some (on b s)]> d).
Proof.
  intros Hid H i Hi. destruct (H i) as (x & H1 & H2); [by right|]. exists x. split; [|done]. rewrite load_save_other; [done|]. by intros ->.
Qed.

Lemma touch_all {F} b ids w : NoDup ids -> all_good ids (store w) ->
  exists w', touch_each (F := F) (toggle b) ids w = (w', Ok ids) /\ rest w' = rest w /\ forall i, store w' !! i = toggled b ids (store w) i.
Proof.
  revert w. induction ids as [|id ids IH]; intros w Hnd Hg; cbn [touch_each].
  { exists w. split; [done|]. split; [done|]. intros i. unfold toggled. by rewrite bool_decide_eq_false_2 by apply not_elem_of_nil. }
  apply NoDup_cons in Hnd as [Hid Hnd]. destruct (Hg id) as (s & Hs & Hgs); [by left|]. destruct (toggle_ok b id w s Hs Hgs) as (w1 & -> & Hst & Hr).
  destruct (IH w1) as (w2 & -> & Hr2 & H2); [done|rewrite Hst; by apply all_good_step|]. exists w2. split; [done|]. split; [congruence|].
  intros i. rewrite H2, Hst. by apply toggled_step.
Qed.

Lemma log_all {F} b ids w : NoDup ids -> all_good ids (store w) ->
  exists w', each_logged (F := F) (toggle b) ids w = (w', Ok tt) /\ rest w' = rest w /\ forall i, store w' !! i = toggled b ids (store w) i.
Proof.
  revert w. induction ids as [|id ids IH]; intros w Hnd Hg; cbn [each_logged].
  { exists w. split; [done|]. split; [done|]. intros i. unfold toggled. by rewrite bool_decide_eq_false_2 by apply not_elem_of_nil. }
  apply NoDup_cons in Hnd as [Hid Hnd]. destruct (Hg id) as (s & Hs & Hgs); [by left|]. destruct (toggle_ok b id w s Hs Hgs) as (w1 & -> & Hst & Hr). cbn [fst].
  destruct (IH w1) as (w2 & -> & Hr2 & H2); [done|rewrite Hst; by apply all_good_step|]. exists w2. split; [done|]. split; [congruence|].
  intros i. rewrite H2, Hst. by apply toggled_step.
Qed.

(** Off and on again. *)
Lemma toggled_back ids d d1 d2 : (forall i, d1 !! i = toggled false ids d i) -> (forall i, d2 !! i = toggled true ids d1 i) ->
  (forall id s, id ∈ ids -> load d id = Some s -> on true (on false s) = s) -> d2 = d.
Proof.
  intros H1 H2 Hb. apply map_eq. intros i. rewrite H2. unfold toggled. rewrite H1. unfold toggled. destruct (bool_decide_reflect (i ∈ ids)) as [Hi|]; [|done].
  destruct (d !! i) as [[s|]|] eqn:Ed; cbn; [|done..]. rewrite (Hb i s Hi); [done|by apply load_lookup].
Qed.

Lemma toggled_good b ids d d1 : (forall i, d1 !! i = toggled b ids d i) -> all_good ids d -> all_good ids d1.
Proof.
  intros H1 Hg id Hid. destruct (Hg id Hid) as (s & Hs & Hgs). exists (on b s). split; [|by apply good_on]. apply load_lookup. rewrite H1. unfold toggled.
  rewrite bool_decide_eq_true_2 by done. apply load_lookup in Hs. by rewrite Hs.
Qed.
End Toggle.

(** ** SMB and NFS *)

(** No write and no reload fails. *)
Record smb_works (e : SmbEnv) : Prop := {
  sm_save : se_save e = None;
  sm_mkdir : se_mkdir e = None;
  sm_write : se_write e = WriteOk;
  sm_mkdir_again : se_mkdir_again e = None;
  sm_read_dir : se_read_dir e = None;
  sm_include : se_write_include e = WriteOk;
  sm_reload : se_reload e = ReloadOk;
}.

Record nfs_works (e : NfsEnv) : Prop := {
  nf_save : ne_save e = None;
  nf_mkdir : ne_mkdir e = None;
  nf_write : ne_write e = WriteOk;
  nf_reload : ne_reload e = ReloadOk;
}.

Definition smb_store (w : CascadeWorld) : StateDir SmbShare := sw_state (dw_smb (cw_dep w)).
Definition nfs_store (w : CascadeWorld) : StateDir NfsShare := nw_state (dw_nfs (cw_dep w)).
Definition smb_rest (w : CascadeWorld) := (dw_vol (cw_dep w), dw_vms (cw_dep w), dw_nfs (cw_dep w), cw_apps w, cw_fs w).
Definition nfs_rest (w : CascadeWorld) := (dw_vol (cw_dep w), dw_vms (cw_dep w), dw_smb (cw_dep w), cw_apps w, cw_fs w).
Definition smb_on (b : bool) (s : SmbShare) : SmbShare := updated_smb_share s (smb_enabled_req (ss_id s) b).
Definition nfs_on (b : bool) (s : NfsShare) : NfsShare := updated_share s (nfs_enabled_req (ns_id s) b).
Definition smb_good (id : string) (s : SmbShare) : Prop := ss_id s = id /\ validate_time_machine s = Ok tt.
Definition nfs_good (id : string) (s : NfsShare) : Prop := ns_id s = id /\ share_valid s.

Lemma toggle_smb_ok env : (forall b id, smb_works (ca_smb env b id)) -> forall b id w s, load (smb_store w) id = Some s -> smb_good id s ->
  exists w', toggle_smb env b id w = (w', Ok tt) /\ smb_store w' = <[id := Some (smb_on b s)]> (smb_store w) /\ smb_rest w' = smb_rest w.
Proof.
  intros Hw b id w s Hs [Hid Htm]. destruct (Hw b id) as [H1 H2 H3 H4 H5 H6 H7]. unfold smb_store, smb_rest in *. unfold toggle_smb, at_smb, smb_update, m_bind at 1.
  unfold m_bind at 1, m_lift at 1. cbn [us_name smb_enabled_req us_id].
  unfold m_bind at 1, smb_get, m_get, m_bind at 1, m_lift at 1. rewrite Hs. cbn [ok_or].
  unfold m_bind at 1, m_lift at 1. unfold m_bind at 1. cbn [us_name smb_enabled_req us_valid_users default validate_valid_users try_each].
  unfold m_bind at 1, m_lift at 1. unfold smb_publish, smb_put_state, save, smb_io, m_bind, m_lift, m_get, m_modify. rewrite H1.
  change (validate_time_machine (updated_smb_share s _)) with (validate_time_machine s). rewrite Htm.
  unfold apply_smb, write_share_conf, rebuild_include_list, reload_samba, sync_timemachine_avahi, unlink_conf, put_files, fault, m_bind, m_lift, m_get, m_modify, m_ret.
  rewrite H2, H3, H4, H5, H6, H7.
  destruct (negb (ss_enabled _)); (eexists; split; [reflexivity|]); cbn [cw_dep on_dep set_smb dw_smb dw_vol dw_vms dw_nfs cw_apps cw_fs sw_state].
  all: destruct (build_timemachine_avahi_xml _); [destruct (se_avahi_write (ca_smb env b id))|destruct (se_avahi_remove (ca_smb env b id))].
  all: cbn [sw_state]; (split; [|done]); unfold smb_on; by rewrite <- Hid.
Qed.

Lemma toggle_nfs_ok env : (forall b id, nfs_works (ca_nfs env b id)) -> forall b id w s, load (nfs_store w) id = Some s -> nfs_good id s ->
  exists w', toggle_nfs env b id w = (w', Ok tt) /\ nfs_store w' = <[id := Some (nfs_on b s)]> (nfs_store w) /\ nfs_rest w' = nfs_rest w.
Proof.
  intros Hw b id w s Hs [Hid Hv]. destruct (Hw b id) as [H1 H2 H3 H4]. unfold nfs_store, nfs_rest in *. unfold toggle_nfs, at_nfs, nfs_update, m_bind at 1.
  unfold m_bind at 1, nfs_get, m_get, m_bind at 1, m_lift at 1. cbn [un_id nfs_enabled_req]. rewrite Hs. cbn [ok_or].
  unfold m_bind at 1, m_lift at 1. cbn [un_clients nfs_enabled_req default try_each]. unfold publish, nfs_put_state, save, nfs_io, m_bind, m_lift, m_get, m_modify. rewrite H1.
  unfold write_export_file, reload_exports, unlink_export, m_bind, m_lift, m_modify, m_ret. rewrite H2, H4.
  assert (share_valid (updated_share s (nfs_enabled_req id b))) as Hv' by (destruct Hv; by split).
  destruct (render_valid _ Hv') as [text Ht]. destruct (_ || _).
  - eexists. split; [reflexivity|]. cbn. destruct (ne_unlink _); cbn; (split; [|done]); unfold nfs_on; by rewrite <- Hid.
  - rewrite Ht. unfold write_file. rewrite H3. eexists. split; [reflexivity|]. cbn. split; [|done]. unfold nfs_on. by rewrite <- Hid.
Qed.

(** ** Shares of a subvolume *)

Lemma keyed_nodup {T} (kid kname : T -> string) valid (d : StateDir T) (p : T -> bool) : keyed kid kname valid d ->
  NoDup (kid <$> List.filter p (load_all d)).
Proof.
  intros [Hk _]. assert (NoDup (kid <$> load_all d)) as Hnd.
  { unfold load_all. assert (forall k x, (k, Some x) ∈ map_to_list d -> kid x = k) as Hx.
    { intros k x H%elem_of_map_to_list. apply (Hk k x). by apply load_lookup. }
    revert Hx. pose proof (NoDup_fst_map_to_list d) as Hnd. revert Hnd. generalize (map_to_list d) as l. induction l as [|[k [x|]] l IH]; intros Hnd Hx; [constructor| |].
    - cbn in Hnd. apply NoDup_cons in Hnd as [Hn Hnd]. cbn. apply NoDup_cons. split; [|apply IH; [done|]; intros; apply Hx; by right].
      rewrite (Hx k x) by (by left). intros (y & E & ([k' o] & Hin & Eo)%list_elem_of_omap)%list_elem_of_fmap. cbn in Eo. subst o. apply Hn.
      rewrite E, (Hx k' y) by (by right). apply (list_elem_of_fmap_2 fst _ _ Hin).
    - cbn in Hnd. apply NoDup_cons in Hnd as [_ Hnd]. cbn. apply IH; [done|]. intros; apply Hx; by right. }
  revert Hnd. generalize (load_all d) as l. induction l as [|x l IH]; intros Hnd; [constructor|]. cbn in Hnd. apply NoDup_cons in Hnd as [Hn Hnd]. cbn.
  destruct (p x); [|by apply IH]. cbn. apply NoDup_cons. split; [|by apply IH]. intros (y & E & Hy)%list_elem_of_fmap. apply Hn. rewrite E.
  apply list_elem_of_fmap_2. apply list_elem_of_In in Hy. apply filter_In in Hy as [Hy _]. by apply list_elem_of_In.
Qed.

(** The shares to switch off are those of the subvolume that are on; switched
    off, none of the subvolume is on. *)
Section Quieten.
Context {T : Type} (kid kname : T -> string) (valid : T -> Prop) (enabled : T -> bool) (path : T -> string) (on : bool -> T -> T) (subvol : string).
Hypothesis on_off : forall s, enabled (on false s) = false.
Hypothesis on_path : forall b s, path (on b s) = path s.

Definition to_switch (d : StateDir T) : list string :=
  kid <$> List.filter (fun s => negb (Bool.eqb (enabled s) false) && path_in_subvol (path s) subvol) (load_all d).

Lemma elem_of_to_switch d id s : keyed kid kname valid d -> load d id = Some s ->
  id ∈ to_switch d <-> enabled s = true /\ path_in_subvol (path s) subvol = true.
Proof.
  intros [Hk _] Hs. unfold to_switch. rewrite list_elem_of_fmap. setoid_rewrite list_elem_of_In. setoid_rewrite filter_In. setoid_rewrite <- list_elem_of_In.
  setoid_rewrite elem_of_load_all. destruct (Hk id s Hs) as [Hid _]. split.
  - intros (x & E & (id' & Hx) & [H1 H2]%andb_prop). destruct (Hk id' x Hx) as [Hid' _]. assert (id' = id) as -> by congruence. rewrite Hs in Hx. injection Hx as <-.
    by destruct (enabled s).
  - intros [H1 H2]. exists s. split; [done|]. split; [by exists id|]. by rewrite H1, H2.
Qed.

Lemma switched_off d d1 : keyed kid kname valid d -> (forall i, d1 !! i = toggled on false (to_switch d) d i) ->
  forall s, s ∈ load_all d1 -> path_in_subvol (path s) subvol = true -> enabled s = false.
Proof.
  intros Hk H1 s (id & Hs%load_lookup)%elem_of_load_all Hp. rewrite H1 in Hs. unfold toggled in Hs.
  destruct (bool_decide_reflect (id ∈ to_switch d)) as [Hi|Hi].
  - destruct (d !! id) as [[x|]|]; cbn in Hs; simplify_eq. apply on_off.
  - apply load_lookup in Hs. rewrite (elem_of_to_switch d id s Hk Hs) in Hi. destruct (enabled s); [|done]. tauto.
Qed.
End Quieten.

Lemma smb_good_on b id s : smb_good id s -> smb_good id (smb_on b s).
Proof. by intros [H1 H2]. Qed.

Lemma nfs_good_on b id s : nfs_good id s -> nfs_good id (nfs_on b s).
Proof. by intros [H1 H2]. Qed.

Lemma smb_back s : ss_enabled s = true -> smb_on true (smb_on false s) = s.
Proof. intros H. destruct s. cbn in *. by subst. Qed.

Lemma nfs_back s : ns_enabled s = true -> nfs_on true (nfs_on false s) = s.
Proof. intros H. destruct s. cbn in *. by subst. Qed.

(** ** The subvolume and its dependents *)

Lemma list_each_in env w owner names n l all x : list_each env w owner names = Ok all -> n ∈ names -> sv_list env n owner w = Ok l -> x ∈ l -> x ∈ all.
Proof.
  revert all. induction names as [|m names IH]; intros all; [by intros _ ?%elem_of_nil|]. cbn [list_each].
  destruct (sv_list env m owner w) as [lm|] eqn:Em; [|done]. cbn [result_bind]. destruct (list_each _ _ _ names) as [rest|]; [|done]. cbn [result_bind].
  intros [= <-] [->|Hn]%elem_of_cons Hl Hx; rewrite elem_of_app; [left; congruence|right; by eapply IH].
Qed.

Lemma sv_list_fs env fs owner w l x : sv_list env fs owner w = Ok l -> x ∈ l -> sb_filesystem x = fs.
Proof.
  unfold sv_list. destruct (ve_fs env fs) as [f|]; [|done]. cbn [ok_or result_bind]. destruct (fi_mount_point f) as [m|]; [|done]. cbn [ok_or result_bind].
  destruct (bcachefs_list_all_strict _ _ _) as [info|]; [|done]. cbn [result_bind]. intros [= <-] (n & _ & H)%list_elem_of_omap.
  unfold list_one in H. destruct (bool_decide _); [done|]. destruct (require_owner _ _); [|done]. destruct (size_and_quota _ _ _ _ _ _). by injection H as <-.
Qed.

(** A rollback of a listed subvolume, in a system whose share updates work. *)
Record rollback_setting (env : CascadeEnv) (req : RollbackSnapshotRequest) (w : CascadeWorld) (all : list Subvolume) : Prop := {
  rs_smb_env : forall b id, smb_works (ca_smb env b id);
  rs_nfs_env : forall b id, nfs_works (ca_nfs env b id);
  rs_smb : smb_inv (smb_store w);
  rs_nfs : nfs_inv (nfs_store w);
  rs_names : names_unique w;
  rs_all : list_all (ca_dep env) None None (dw_vol (cw_dep w)) = Ok all;
  rs_inventory : inventory_ok all;
  rs_unique : forall a b, a ∈ all -> b ∈ all -> sb_filesystem a = sb_filesystem b -> sb_name a = sb_name b -> sb_path a = sb_path b;
  rs_mounted : exists fss f, dn_filesystems (ca_dep env) = Ok fss /\ f ∈ fss /\ fs_name f = rr_filesystem req /\ fs_mounted f = true;
}.

Lemma rollback_subvolume_listed env req owner w w' all sv : rollback_setting env req w all ->
  rollback_subvolume env req owner w = (w', Ok sv) ->
  w' = w /\ sv ∈ all /\ sb_filesystem sv = rr_filesystem req /\ sb_name sv = rr_subvolume req /\ sb_block_device sv = None.
Proof.
  intros Hs. assert (on_dep (set_vol (dw_vol (cw_dep w))) w = w) as Hw by (by destruct w as [[]]).
  unfold rollback_subvolume, at_vol, m_bind, m_lift, sv_get. rewrite Hw.
  destruct (validate_existing_snapshot_name _ _); [|done]. destruct (sv_list _ _ _ _) as [l|] eqn:El; [|done]. cbn [result_bind]. rewrite Hw.
  destruct (find_first _ l) as [x|] eqn:Ef; [|done]. cbn [ok_or result_bind]. destruct (require_owner _ _); [|done]. cbn [result_bind].
  apply find_first_Some in Ef as [Hx Hn%String.eqb_eq]. destruct (bool_decide _ || _) eqn:Eb; [done|]. intros [= <- <-].
  split; [done|]. split; [|split; [by eapply sv_list_fs|]].
  - destruct (rs_mounted _ _ _ _ Hs) as (fss & f & Hf & Hin & Hfs & Hm). pose proof (rs_all _ _ _ _ Hs) as Hall. unfold list_all in Hall. rewrite Hf in Hall.
    eapply list_each_in; [exact Hall| |exact El|done]. rewrite <- Hfs. apply list_elem_of_fmap_2. apply list_elem_of_In. apply filter_In.
    split; [by apply list_elem_of_In|]. unfold wanted. by rewrite Hm.
  - split; [done|]. apply orb_false_iff in Eb as [_ Eb]. by destruct (sb_block_device x).
Qed.

Lemma rollback_dependents_listed env req w all sv : rollback_setting env req w all ->
  sv ∈ all -> sb_filesystem sv = rr_filesystem req -> sb_name sv = rr_subvolume req ->
  listed_right (ca_dep env) (cw_dep w) all sv (rollback_dependents env req w).
Proof.
  intros Hs Hsv Hf Hn. pose proof (listing_right (ca_dep env) (cw_dep w) None None all (rs_all _ _ _ _ Hs) (rs_inventory _ _ _ _ Hs)) as Hl.
  assert (List.filter (fun sv => owner_visible (sb_owner sv) None) all = all) as Ev by (clear; induction all as [|x l IH]; [done|]; cbn; f_equal; exact IH).
  rewrite Ev in Hl. unfold rollback_dependents. destruct (find_first _ _) as [d|] eqn:E.
  - apply find_first_Some in E as [Hd [E1%String.eqb_eq E2%String.eqb_eq]%andb_prop]. cbn [default].
    apply list_elem_of_lookup in Hd as [i Hi]. destruct (Forall2_lookup_r _ _ _ _ _ Hl Hi) as (x & Hx & Hr). apply list_elem_of_lookup_2 in Hx as Hxin.
    pose proof (lr_id _ _ _ _ _ Hr) as Hid. unfold dep_id in Hid. injection Hid as I1 I2 I3.
    assert (x = sv) as <-; [|done]. apply (path_inj all); [apply (rs_inventory _ _ _ _ Hs)|done..|]. apply (rs_unique _ _ _ _ Hs); congruence.
  - rewrite find_first_None in E. apply list_elem_of_lookup in Hsv as [i Hi]. destruct (Forall2_lookup_l _ _ _ _ _ Hl Hi) as (d & Hd & Hr).
    specialize (E d (list_elem_of_lookup_2 _ _ _ Hd)). pose proof (lr_id _ _ _ _ _ Hr) as Hid. unfold dep_id in Hid. injection Hid as I1 I2 I3.
    rewrite I1, I2, Hf, Hn, !String.eqb_refl in E. done.
Qed.

(** ** The exchange *)

(** Nothing on the subvolume runs or is shared. *)
Record quiet (all : list Subvolume) (sv : Subvolume) (apps : list string) (w : CascadeWorld) : Prop := {
  qt_apps : forall a, a ∈ apps -> a ∉ cw_apps w;
  qt_vms : forall v disk, v ∈ vms_now w -> disk ∈ vc_disks v.1 -> deepest all sv (vd_path disk) -> v.2 = false;
  qt_smb : forall s, s ∈ load_all (smb_store w) -> path_in_subvol (ss_path s) (sb_path sv) = true -> ss_enabled s = false;
  qt_nfs : forall s, s ∈ load_all (nfs_store w) -> path_in_subvol (ns_path s) (sb_path sv) = true -> ns_enabled s = false;
}.

Definition smb_ids (sv : Subvolume) (w : CascadeWorld) : list string := to_switch ss_id ss_enabled ss_path (sb_path sv) (smb_store w).
Definition nfs_ids (sv : Subvolume) (w : CascadeWorld) : list string := to_switch ns_id ns_enabled ns_path (sb_path sv) (nfs_store w).

(** What quiescing leaves, whether it gives up or not. *)
Record quiesced (env : CascadeEnv) (all : list Subvolume) (sv : Subvolume) (apps : list string) (w w1 : CascadeWorld) (r : result Quiesced string) : Prop := {
  qs_vol : dw_vol (cw_dep w1) = dw_vol (cw_dep w);
  qs_err : (exists e, r = Err e) -> smb_store w1 = smb_store w /\ nfs_store w1 = nfs_store w;
  qs_ok : forall q, r = Ok q -> quiet all sv apps w1 /\ qu_smb q = smb_ids sv w /\ qu_nfs q = nfs_ids sv w /\
    (forall i, smb_store w1 !! i = toggled smb_on false (smb_ids sv w) (smb_store w) i) /\
    (forall i, nfs_store w1 !! i = toggled nfs_on false (nfs_ids sv w) (nfs_store w) i);
}.

Lemma resolved env req w all sv v disk : rollback_setting env req w all ->
  listed_right (ca_dep env) (cw_dep w) all sv (rollback_dependents env req w) ->
  v ∈ vms_now w -> disk ∈ vc_disks v.1 -> deepest all sv (vd_path disk) ->
  exists n, (vc_id v.1, n) ∈ resolve_vm_ids w (sd_vms (rollback_dependents env req w)).
Proof.
  intros Hs Hr Hv Hd Hp. exists (vc_name v.1). unfold resolve_vm_ids. apply list_elem_of_omap. exists (vc_name v.1). split.
  - apply (lr_vms _ _ _ _ _ Hr). exists v, disk. split_and!; [done..|by left].
  - destruct (find_first _ (vms_now w)) as [u|] eqn:E; cbn.
    + apply find_first_Some in E as [Hu E%String.eqb_eq]. by rewrite (rs_names _ _ _ _ Hs u v).
    + rewrite find_first_None in E. specialize (E v Hv). by rewrite String.eqb_refl in E.
Qed.

Lemma smb_all_good sv w : smb_inv (smb_store w) -> all_good smb_good (smb_ids sv w) (smb_store w).
Proof.
  intros Hk id Hid. unfold smb_ids, to_switch in Hid. apply list_elem_of_fmap in Hid as (s & -> & Hs). apply list_elem_of_In, filter_In in Hs as [Hs _].
  apply list_elem_of_In, elem_of_load_all in Hs as [id Hs]. destruct (kd_id _ _ _ _ Hk id s Hs) as [<- Hv]. exists s. split; [done|]. split; [done|apply Hv].
Qed.

Lemma nfs_all_good sv w : nfs_inv (nfs_store w) -> all_good nfs_good (nfs_ids sv w) (nfs_store w).
Proof.
  intros Hk id Hid. unfold nfs_ids, to_switch in Hid. apply list_elem_of_fmap in Hid as (s & -> & Hs). apply list_elem_of_In, filter_In in Hs as [Hs _].
  apply list_elem_of_In, elem_of_load_all in Hs as [id Hs]. destruct (kd_id _ _ _ _ Hk id s Hs) as [<- Hv]. exists s. by split.
Qed.

(** The shares, once apps and VMs are stopped. *)
Lemma quiesce_shares env sv w : (forall b id, smb_works (ca_smb env b id)) -> (forall b id, nfs_works (ca_nfs env b id)) ->
  smb_inv (smb_store w) -> nfs_inv (nfs_store w) ->
  exists w1 w2, set_smb_shares_enabled env (sb_path sv) false w = (w1, Ok (smb_ids sv w)) /\
    set_nfs_shares_enabled env (sb_path sv) false w1 = (w2, Ok (nfs_ids sv w)) /\
    dw_vol (cw_dep w2) = dw_vol (cw_dep w) /\ dw_vms (cw_dep w2) = dw_vms (cw_dep w) /\ cw_apps w2 = cw_apps w /\
    (forall i, smb_store w2 !! i = toggled smb_on false (smb_ids sv w) (smb_store w) i) /\
    (forall i, nfs_store w2 !! i = toggled nfs_on false (nfs_ids sv w) (nfs_store w) i).
Proof.
  intros Hs Hn Ks Kn.
  destruct (touch_all (F := string) smb_store smb_rest smb_on (toggle_smb env) smb_good (toggle_smb_ok env Hs) false (smb_ids sv w) w) as (w1 & E1 & R1 & T1).
  { by apply (keyed_nodup _ _ _ _ _ Ks). } { by apply smb_all_good. }
  unfold smb_rest in R1. injection R1 as R1a R1b R1c R1d R1e. assert (nfs_store w1 = nfs_store w) as N1 by (unfold nfs_store; by rewrite R1c).
  destruct (touch_all (F := string) nfs_store nfs_rest nfs_on (toggle_nfs env) nfs_good (toggle_nfs_ok env Hn) false (nfs_ids sv w) w1) as (w2 & E2 & R2 & T2).
  { by apply (keyed_nodup _ _ _ _ _ Kn). } { rewrite N1. by apply nfs_all_good. }
  unfold nfs_rest in R2. injection R2 as R2a R2b R2c R2d R2e.
  exists w1, w2. split; [exact E1|]. split; [|split_and!; try congruence].
  - unfold set_nfs_shares_enabled. replace (nfs_to_change (sb_path sv) false w1) with (nfs_ids sv w); [exact E2|]. unfold nfs_to_change. by rewrite R1c.
  - intros i. rewrite <- T1. unfold smb_store. by rewrite R2c.
Qed.

Lemma quiesce_spec env req w all sv : rollback_setting env req w all -> 
  listed_right (ca_dep env) (cw_dep w) all sv (rollback_dependents env req w) ->
  let deps := rollback_dependents env req w in
  let '(w1, r) := quiesce_all env deps (sb_path sv) w in quiesced env all sv (sd_apps deps) w w1 r.
Proof.
  intros Hs Hr. cbn zeta. set (deps := rollback_dependents env req w) in *. unfold quiesce_all, m_bind at 1.
  pose proof (each_stop_apps env (fun app e => "rollback aborted before any change: app '" +:+ app +:+ "' failed to stop (" +:+ e +:+ ")") (sd_apps deps) w) as Ha.
  change (fun a => reword _ (stop_app env a)) with (rollback_app env) in Ha. destruct (each_item (rollback_app env) (sd_apps deps) w) as [wa [[]|e]].
  2:{ destruct Ha as (H1 & _). unfold smb_store, nfs_store. split; [by rewrite H1| |done]. intros _. unfold smb_store, nfs_store. by rewrite H1. }
  destruct Ha as (A1 & A2 & _ & A3). unfold m_bind at 1, m_get. unfold m_bind at 1.
  pose proof (rollback_vms_spec env (sd_apps deps) (resolve_vm_ids wa (sd_vms deps)) wa) as Hv.
  destruct (each_item (rollback_vm env (sd_apps deps)) (resolve_vm_ids wa (sd_vms deps)) wa) as [wb [[]|e]]; destruct Hv as [Hsh Hv].
  2:{ destruct Hsh. split; [congruence| |done]. intros _. unfold smb_store, nfs_store. split; congruence. }
  destruct (Hv eq_refl) as [Ab Vb]. assert (smb_store wb = smb_store w /\ nfs_store wb = nfs_store w) as [Sb Nb].
  { unfold smb_store, nfs_store. destruct Hsh. split; congruence. }
  destruct (quiesce_shares env sv wb) as (w1 & w2 & E1 & E2 & V2 & M2 & P2 & S2 & N2); try apply Hs; [rewrite Sb; apply Hs|rewrite Nb; apply Hs|].
  unfold m_bind at 1. rewrite E1. unfold m_bind. rewrite E2. unfold m_ret, smb_ids, nfs_ids in *. rewrite Sb in *. rewrite Nb in *.
  split; [destruct Hsh; congruence|by intros [e ?]|]. intros q [= <-]. cbn [qu_smb qu_nfs]. split_and!; try done. split.
  - intros a Ha. rewrite P2, Ab. by apply A3.
  - intros v disk Hin Hd Hp. assert (vms_now w2 = vms_now wb) as Em by (unfold vms_now; by rewrite M2). rewrite Em in Hin.
    assert (vm_store (dw_vms (cw_dep wb)) = vm_store (dw_vms (cw_dep w))) as Est by (rewrite (vs_store _ _ Hsh); by rewrite A1).
    pose proof (vms_now_store w wb v Est Hin) as Hv0. destruct (resolved env req w all sv _ disk Hs Hr Hv0 Hd Hp) as [n Hn]. cbn [fst] in Hn.
    refine (Vb (vc_id v.1, n) v _ Hin eq_refl). unfold resolve_vm_ids, vms_now in *. by rewrite A1.
  - apply (switched_off ss_id ss_name smb_share_valid ss_enabled ss_path smb_on (sb_path sv)) with (d := smb_store w); [done|apply Hs|done].
  - apply (switched_off ns_id ns_path share_valid ns_enabled ns_path nfs_on (sb_path sv)) with (d := nfs_store w); [done|apply Hs|done].
Qed.

Lemma start_vms_frame env vms w : let w' := fst (each_logged (F := string) (start_vm env) vms w) in
  dw_vol (cw_dep w') = dw_vol (cw_dep w) /\ dw_smb (cw_dep w') = dw_smb (cw_dep w) /\ dw_nfs (cw_dep w') = dw_nfs (cw_dep w).
Proof.
  revert w. induction vms as [|vm vms IH]; intros w; [done|]. cbn [each_logged].
  assert (dw_vol (cw_dep (fst (start_vm env vm w))) = dw_vol (cw_dep w) /\ dw_smb (cw_dep (fst (start_vm env vm w))) = dw_smb (cw_dep w) /\
          dw_nfs (cw_dep (fst (start_vm env vm w))) = dw_nfs (cw_dep w)) as (H1 & H2 & H3).
  { unfold start_vm, m_bind, at_vms. destruct (vm_start (ca_vm env) vm.1 _) as [v [x|]]; done. }
  destruct (IH (fst (start_vm env vm w))) as (I1 & I2 & I3). by rewrite I1, I2, I3, H1, H2, H3.
Qed.

(** Resuming gives the shares back. *)
Lemma resume_spec env req w all sv q w1 apps : rollback_setting env req w all ->
  qu_smb q = smb_ids sv w -> qu_nfs q = nfs_ids sv w ->
  (forall i, smb_store w1 !! i = toggled smb_on false (smb_ids sv w) (smb_store w) i) ->
  (forall i, nfs_store w1 !! i = toggled nfs_on false (nfs_ids sv w) (nfs_store w) i) ->
  let w2 := fst (resume env apps q w1) in
  dw_vol (cw_dep w2) = dw_vol (cw_dep w1) /\ smb_store w2 = smb_store w /\ nfs_store w2 = nfs_store w.
Proof.
  intros Hs Qs Qn Ts Tn. pose proof (rs_smb _ _ _ _ Hs) as Ks. pose proof (rs_nfs _ _ _ _ Hs) as Kn.
  cbn zeta. remember (resume env apps q w1) as res eqn:Eres. revert Eres.
  unfold resume, reenable_nfs_shares, reenable_smb_shares. rewrite Qs, Qn. unfold m_bind at 1.
  destruct (log_all (F := string) nfs_store nfs_rest nfs_on (toggle_nfs env) nfs_good (toggle_nfs_ok env (rs_nfs_env _ _ _ _ Hs)) true (nfs_ids sv w) w1) as (wn & -> & Rn & Un).
  { apply (keyed_nodup _ _ _ _ _ Kn). } { eapply toggled_good; [exact nfs_good_on|exact Tn|by apply nfs_all_good]. }
  unfold nfs_rest in Rn. injection Rn as Rna Rnb Rnc Rnd Rne. unfold m_bind at 1. assert (smb_store wn = smb_store w1) as Sn by (unfold smb_store; by rewrite Rnc).
  destruct (log_all (F := string) smb_store smb_rest smb_on (toggle_smb env) smb_good (toggle_smb_ok env (rs_smb_env _ _ _ _ Hs)) true (smb_ids sv w) wn) as (ws & -> & Rs & Us).
  { apply (keyed_nodup _ _ _ _ _ Ks). } { rewrite Sn. eapply toggled_good; [exact smb_good_on|exact Ts|by apply smb_all_good]. }
  unfold smb_rest in Rs. injection Rs as Rsa Rsb Rsc Rsd Rse. unfold m_bind.
  pose proof (start_vms_frame env (qu_vms q) ws) as (F1 & F2 & F3).
  destruct (each_logged (start_vm env) (qu_vms q) ws) as [wv rv] eqn:Ev. cbn [fst] in F1, F2, F3.
  assert (nfs_store ws = nfs_store w) as Fn.
  { unfold nfs_store. rewrite Rsc. apply (toggled_back nfs_on (nfs_ids sv w) _ (nfs_store w1)); [exact Tn|exact Un|].
    intros id s Hid Hl. apply nfs_back. by apply (elem_of_to_switch ns_id ns_path share_valid ns_enabled ns_path (sb_path sv) (nfs_store w) id s Kn Hl) in Hid as [? _]. }
  assert (smb_store ws = smb_store w) as Fs.
  { apply (toggled_back smb_on (smb_ids sv w) _ (smb_store w1)); [exact Ts|by intros i; rewrite Us, Sn|].
    intros id s Hid Hl. apply smb_back. by apply (elem_of_to_switch ss_id ss_name smb_share_valid ss_enabled ss_path (sb_path sv) (smb_store w) id s Ks Hl) in Hid as [? _]. }
  assert (rv = Ok tt) as ->. { clear -Ev. revert ws Ev. generalize (qu_vms q) as l. induction l as [|x l IH]; intros ws E; [by injection E|]. by apply (IH _ E). }
  destruct (resume_apps_frame env apps wv) as [G1 _]. intros ->. unfold smb_store, nfs_store in *. rewrite G1. split_and!; congruence.
Qed.


(** ** An example: an app, a VM and a share on one subvolume *)

Definition docs_request : RollbackSnapshotRequest := mkRollback "tank" "docs" "monday".

Definition docs_rollback : CascadeWorld * result (Subvolume * string) string :=
  rollback_with_dependents (docs_env (fun _ _ => working_nfs) (fun _ => None)) docs_request (Some "alice") false docs_world.

Lemma docs_setting : rollback_setting (docs_env (fun _ _ => working_nfs) (fun _ => None)) docs_request docs_world demo_all.
Proof.
  split.
  - intros b id. by split.
  - intros b id. by split.
  - apply keyed_empty.
  - assert (forall id x, load (nfs_store docs_world) id = Some x -> id = "n1" /\ x = mkNfsShare "n1" "/fs/tank/docs/letters" None [] true) as H.
    { intros id x Hx%load_lookup. unfold nfs_store in Hx. cbn in Hx. apply lookup_singleton_Some in Hx as [<- [= <-]]. done. }
    split.
    + intros id x [-> ->]%H. split; [done|]. split; [vm_compute; reflexivity|]. by intros c ?%elem_of_nil.
    + intros id id' x y [-> _]%H [-> _]%H _. done.
  - apply (one_vm docs_world true eq_refl).
  - vm_compute. reflexivity.
  - apply demo_inventory.
  - assert (NoDup ((fun s => (sb_filesystem s, sb_name s)) <$> demo_all)) as H by (apply (bool_decide_eq_true (NoDup ((fun s => (sb_filesystem s, sb_name s)) <$> demo_all))); vm_compute; reflexivity).
    intros a b [i Hi]%list_elem_of_lookup [j Hj]%list_elem_of_lookup E1 E2. assert (i = j) as ->; [|congruence].
    apply (NoDup_lookup _ _ _ (sb_filesystem a, sb_name a) H); rewrite list_lookup_fmap; [by rewrite Hi|by rewrite Hj, E1, E2].
  - exists [mkFsStatus "tank" true None None], (mkFsStatus "tank" true None None). split_and!; [done|by left|done|done].
Qed.


(** ** What the cascade does not give back *)

(** An app that was stopped before the rollback runs after it. *)
Lemma rollback_starts_stopped_app :
  let stopped := mkCascadeWorld (cw_dep docs_world) ∅ docs_fs in
  cw_apps (rollback_with_dependents (docs_env (fun _ _ => working_nfs) (fun _ => None)) docs_request (Some "alice") false stopped).1 = {["wiki"]}.
Proof. vm_compute. reflexivity. Qed.

(** A share whose export cannot be reloaded while it is disabled stays disabled. *)
Lemma rollback_loses_share :
  let failing (b : bool) (_ : string) := if b then working_nfs else mkNfsEnv true None "" None None None true true WriteOk (ReloadExit "busy") in
  let w' := (rollback_with_dependents (docs_env failing (fun _ => None)) docs_request (Some "alice") false docs_world).1 in
  ns_enabled <$> load (nfs_store docs_world) "n1" = Some true /\ ns_enabled <$> load (nfs_store w') "n1" = Some false.
Proof. vm_compute. split; reflexivity. Qed.

(** A second app that does not stop leaves the first one stopped, while the error
    says that nothing has changed. *)
Lemma rollback_leaves_app_stopped env a b w : ca_stop_app env a = None -> is_Some (ca_stop_app env b) -> a <> b ->
  let '(w', r) := each_item (rollback_app env) [a; b] w in a ∉ cw_apps w' /\ is_ok r = false.
Proof.
  intros Ha [e Hb] Hne. cbn [each_item]. unfold rollback_app, reword, stop_app, m_bind. rewrite Ha, Hb. cbn. split; [set_solver|done].
Qed.
