(* ===== verification/BlockDev.v ===== *)
(** * Block devices (nasty-storage/src/filesystem.rs)

    The inventory of block devices read from lsblk, the devices below a device,
    and the checks that decide whether a device is free: what [fs.create],
    [device.wipe] and [device.prepare.inspect] rest on before they destroy
    data.  serde_json's values are [JValue]; the sets of the source are listed
    in the order of [elements], an order Rust leaves open. *)

From Stdlib Require Import ZArith Lia Ascii String.
From stdpp Require Import base list gmap strings relations.
From S2P Require Import Prelude.
From S2P Require Import RustStr.
From S2P Require Import RustVec.

Inductive FilesystemError : Type :=
| CommandFailed (e : string)
| NotFound (e : string)
| AlreadyExists (e : string)
| DeviceInUse (e : string)
| InvalidInput (e : string)
| NoDevices
| DeviceNotFound (e : string)
| Io (e : string).

Abbreviation fsres A := (result A FilesystemError).

(** ** Data *)

Record BlockIdentity : Type := mkBlockIdentity {
  id_devno : string;
  id_size_bytes : Z;
  id_dev_type : string;
  id_parent_devno : option string;
  id_start_512_sector : option Z;
  id_partition_number : option Z;
  id_partition_uuid : option string;
  id_partition_table_uuid : option string;
  id_disk_sequence : option Z;
  id_serial : option string;
  id_wwn : option string;
  id_logical_sector_bytes : Z;
}.

#[export] Instance BlockIdentity_eq_dec : EqDecision BlockIdentity.
Proof. solve_decision. Defined.

Record DiskPreparation : Type := mkDiskPreparation {
  dp_path : string;
  dp_identity : BlockIdentity;
  dp_partition_table_type : option string;
  dp_fs_type : option string;
  dp_children : list (string * BlockIdentity * option string);
}.

#[export] Instance DiskPreparation_eq_dec : EqDecision DiskPreparation.
Proof. solve_decision. Defined.

Record PreflightBlockDevice : Type := mkPreflight {
  pd_path : string;
  pd_parent_path : option string;
  pd_identity : BlockIdentity;
  pd_fs_type : option string;
  pd_partition_table_type : option string;
  pd_read_only : bool;
  pd_mount_points : list string;
  pd_children : gset string;
  pd_holders : list string;
}.

Record BlockInventory : Type := mkInventory {
  bi_devices : gmap string PreflightBlockDevice;
  bi_paths : gmap string string;
}.

Definition get_path (inv : BlockInventory) (path : string) : option PreflightBlockDevice :=
  devno ← bi_paths inv !! path; bi_devices inv !! devno.

Definition get_identity (inv : BlockInventory) (i : BlockIdentity) : option PreflightBlockDevice :=
  bi_devices inv !! id_devno i.

(** ** Reading lsblk *)

(** A [serde_json::Value]; of numbers, what [as_u64] gives. *)
Inductive JValue : Type :=
| JNull
| JBool (b : bool)
| JNum (as_u64 : option Z)
| JStr (s : string)
| JArr (l : list JValue)
| JObj (l : list (string * JValue)).

Definition jget (v : JValue) (key : string) : option JValue :=
  match v with
  | JObj l => snd <$> find_first (fun kv => String.eqb (fst kv) key) l
  | _ => None
  end.

Definition non_empty (s : string) : option string := if String.eqb s "" then None else Some s.

Definition json_string (v : JValue) (key : string) : option string :=
  match jget v key with Some (JStr s) => non_empty (trim s) | _ => None end.

Definition u64_max : Z := 2 ^ 64 - 1.

Definition json_u64 (v : JValue) (key : string) : option Z :=
  match jget v key with
  | Some (JNum n) => n
  | Some (JStr s) => parse_uint u64_max (trim s)
  | _ => None
  end.

Definition json_bool (v : JValue) (key : string) : bool :=
  match jget v key with
  | Some (JBool b) => b
  | Some (JNum (Some n)) => negb (n =? 0)
  | Some (JStr s) => String.eqb s "1" || String.eqb s "true"
  | _ => false
  end.

Definition normalize_device_path (path : string) : string :=
  if starts_with "/" path then path else "/dev/" +:+ path.

Definition newline : ascii := chr 10.

Definition parse_mount_points (v : JValue) : list string :=
  match jget v "mountpoints" with
  | Some (JArr l) => omap (fun x => match x with JStr s => non_empty (trim s) | _ => None end) l
  | Some (JStr s) => omap (fun x => non_empty (trim x)) (str_split newline s)
  | _ => option_list (json_string v "mountpoint")
  end.

Record Collected : Type := mkCollected {
  cl_devices : gmap string PreflightBlockDevice;
  cl_paths : gmap string string;
  cl_edges : list (string * string);
}.

Definition node_identity (v : JValue) (devno : string) : BlockIdentity :=
  mkBlockIdentity devno (default 0 (json_u64 v "size")) (default "" (json_string v "type")) None
    (json_u64 v "start") (n ← json_u64 v "partn"; if n <? 2 ^ 32 then Some n else None)
    (json_string v "partuuid") (json_string v "ptuuid") (json_u64 v "disk-seq")
    (json_string v "serial") (json_string v "wwn") (default 512 (json_u64 v "log-sec")).

Definition node_of (v : JValue) (devno path : string) : PreflightBlockDevice :=
  mkPreflight path (normalize_device_path <$> json_string v "pkname") (node_identity v devno)
    (json_string v "fstype") (json_string v "pttype") (json_bool v "ro") (parse_mount_points v) ∅ [].

Definition add_alias (v : JValue) (key devno : string) (m : gmap string string) : gmap string string :=
  match json_string v key with Some n => <[normalize_device_path n := devno]> m | None => m end.

(** One device: the first entry of a number stays, every name leads to it. *)
Definition collect_one (v : JValue) (parent : option string) (acc : Collected)
    : fsres (string * Collected) :=
  match json_string v "maj:min" with
  | None => Err (CommandFailed "lsblk device is missing MAJ:MIN")
  | Some devno =>
      match match json_string v "path" with Some p => Some p | None => json_string v "name" end with
      | None => Err (CommandFailed "lsblk device is missing PATH")
      | Some p =>
          let path := normalize_device_path p in
          Ok (devno, mkCollected
            (match cl_devices acc !! devno with
             | Some _ => cl_devices acc
             | None => <[devno := node_of v devno path]> (cl_devices acc)
             end)
            (add_alias v "kname" devno (add_alias v "name" devno (<[path := devno]> (cl_paths acc))))
            (cl_edges acc ++ match parent with Some q => [(devno, q)] | None => [] end))
      end
  end.

Fixpoint collect_value (v : JValue) (parent : option string) (acc : Collected) : fsres Collected :=
  match collect_one v parent acc with
  | Err e => Err e
  | Ok (devno, acc') =>
      match v with
      | JObj l =>
          (fix kids (l : list (string * JValue)) : fsres Collected :=
             match l with
             | [] => Ok acc'
             | (k, x) :: l' =>
                 if String.eqb k "children" then
                   match x with
                   | JArr vs =>
                       (fix all (vs : list JValue) (acc : Collected) : fsres Collected :=
                          match vs with
                          | [] => Ok acc
                          | y :: vs' => match collect_value y (Some devno) acc with
                                        | Ok acc2 => all vs' acc2
                                        | Err e => Err e
                                        end
                          end) vs acc'
                   | _ => Ok acc'
                   end
                 else kids l'
             end) l
      | _ => Ok acc'
      end
  end.

Fixpoint collect (vs : list JValue) (acc : Collected) : fsres Collected :=
  match vs with
  | [] => Ok acc
  | v :: vs' => match collect_value v None acc with Ok acc' => collect vs' acc' | Err e => Err e end
  end.

Definition set_parent (p : string) (n : PreflightBlockDevice) : PreflightBlockDevice :=
  let i := pd_identity n in
  mkPreflight (pd_path n) (pd_parent_path n)
    (mkBlockIdentity (id_devno i) (id_size_bytes i) (id_dev_type i) (Some p) (id_start_512_sector i)
       (id_partition_number i) (id_partition_uuid i) (id_partition_table_uuid i) (id_disk_sequence i)
       (id_serial i) (id_wwn i) (id_logical_sector_bytes i))
    (pd_fs_type n) (pd_partition_table_type n) (pd_read_only n) (pd_mount_points n) (pd_children n) (pd_holders n).

Definition add_child (c : string) (n : PreflightBlockDevice) : PreflightBlockDevice :=
  mkPreflight (pd_path n) (pd_parent_path n) (pd_identity n) (pd_fs_type n) (pd_partition_table_type n)
    (pd_read_only n) (pd_mount_points n) ({[ c ]} ∪ pd_children n) (pd_holders n).

Definition add_holders (h : list string) (n : PreflightBlockDevice) : PreflightBlockDevice :=
  mkPreflight (pd_path n) (pd_parent_path n) (pd_identity n) (pd_fs_type n) (pd_partition_table_type n)
    (pd_read_only n) (pd_mount_points n) (pd_children n) (pd_holders n ++ h).

Definition link_edge (devices : gmap string PreflightBlockDevice) (e : string * string)
    : gmap string PreflightBlockDevice :=
  alter (add_child (fst e)) (snd e) (alter (set_parent (snd e)) (fst e) devices).

Definition path_parents (devices : gmap string PreflightBlockDevice) (paths : gmap string string)
    : list (string * string) :=
  omap (fun '(devno, node) => pp ← pd_parent_path node; p ← paths !! pp; Some (devno, p)) (map_to_list devices).

Definition parse_lsblk_inventory (parsed : JValue) : fsres BlockInventory :=
  match jget parsed "blockdevices" with
  | Some (JArr roots) =>
      match collect roots (mkCollected ∅ ∅ []) with
      | Err e => Err e
      | Ok c =>
          Ok (mkInventory
            (foldl link_edge (cl_devices c) (cl_edges c ++ path_parents (cl_devices c) (cl_paths c)))
            (cl_paths c))
      end
  | _ => Err (CommandFailed "lsblk returned no blockdevices")
  end.

(** ** The devices below a device

    The worklist of [descendants]; [pop] takes from the end.  The fuel given is
    the number of edges of the inventory, which [descendants_spec] shows to be
    enough. *)

Definition children_of (inv : BlockInventory) (devno : string) : list string :=
  from_option (fun n => elements (pd_children n)) [] (bi_devices inv !! devno).

Fixpoint desc_loop (fuel : nat) (inv : BlockInventory) (pending : list string) (seen : gset string)
    (found : list PreflightBlockDevice) : list PreflightBlockDevice :=
  match fuel with
  | O => found
  | S fuel' =>
      match pending with
      | [] => found
      | devno :: pending' =>
          if bool_decide (devno ∈ seen) then desc_loop fuel' inv pending' seen found
          else match bi_devices inv !! devno with
               | Some node => desc_loop fuel' inv (rev (elements (pd_children node)) ++ pending')
                                ({[ devno ]} ∪ seen) (found ++ [node])
               | None => desc_loop fuel' inv pending' ({[ devno ]} ∪ seen) found
               end
      end
  end.

Definition edge_count (inv : BlockInventory) : nat :=
  sum_list_with (fun d => length (children_of inv d)) (elements (dom (bi_devices inv))).

Definition descendants (inv : BlockInventory) (root : PreflightBlockDevice) : list PreflightBlockDevice :=
  desc_loop (S (size (pd_children root) + edge_count inv)) inv (rev (elements (pd_children root))) ∅ [].

(** ** Whether a device is free *)

(** The first reason a device itself cannot be taken. *)
Definition device_busy (swaps : gset string) (reject_signatures : bool) (n : PreflightBlockDevice)
    : option string :=
  if pd_read_only n then Some (pd_path n +:+ " is read-only")
  else match pd_mount_points n with
  | mount :: _ => Some (pd_path n +:+ " is mounted at " +:+ mount)
  | [] =>
  if bool_decide (id_devno (pd_identity n) ∈ swaps) then Some (pd_path n +:+ " is active swap")
  else if negb (bool_decide (pd_holders n = []))
  then Some (pd_path n +:+ " is held by " +:+ str_join ", " (pd_holders n))
  else match reject_signatures, pd_fs_type n with
  | true, Some fs_type => Some (pd_path n +:+ " contains a " +:+ fs_type +:+ " signature")
  | _, _ => None
  end
  end.

Definition node_usage_error (inv : BlockInventory) (node : PreflightBlockDevice) (swaps : gset string)
    (include_descendants reject_signatures : bool) : option string :=
  find_map (device_busy swaps reject_signatures)
    (node :: (if include_descendants then descendants inv node else [])).

Definition in_use (node : PreflightBlockDevice) (reason : string) : FilesystemError :=
  DeviceInUse (pd_path node +:+ " (" +:+ reason +:+ ")").

Definition validate_existing_create_target (inv : BlockInventory) (node : PreflightBlockDevice)
    (swaps : gset string) : fsres unit :=
  let ty := id_dev_type (pd_identity node) in
  if negb (one_of ["disk"; "part"] ty)
  then Err (InvalidInput (pd_path node +:+ " is a " +:+ ty +:+ " device, not a disk or partition"))
  else match node_usage_error inv node swaps true true with
  | Some reason => Err (in_use node reason)
  | None =>
  if String.eqb ty "disk" &&
     (negb (bool_decide (pd_children node = ∅)) || bool_decide (is_Some (pd_partition_table_type node)))
  then Err (in_use node "whole disk has a partition table or child devices")
  else if id_size_bytes (pd_identity node) =? 0
  then Err (InvalidInput (pd_path node +:+ " reports zero capacity"))
  else Ok tt
  end.

Definition validate_free_space_parent (inv : BlockInventory) (node : PreflightBlockDevice)
    (swaps : gset string) : fsres unit :=
  let ty := id_dev_type (pd_identity node) in
  if negb (String.eqb ty "disk")
  then Err (InvalidInput (pd_path node +:+ ":free requires a whole disk, got " +:+ ty))
  else if negb (bool_decide (pd_partition_table_type node = Some "gpt"))
  then Err (InvalidInput (pd_path node +:+ ":free requires an existing GPT partition table"))
  else match node_usage_error inv node swaps false true with
  | Some reason => Err (in_use node reason)
  | None => Ok tt
  end.

(** ** Whole disks confirmed for erasure *)

Definition child_entry (c : PreflightBlockDevice) : string * BlockIdentity * option string :=
  (pd_path c, pd_identity c, pd_fs_type c).

Definition disk_preparation_snapshot (inv : BlockInventory) (disk : PreflightBlockDevice)
    : fsres DiskPreparation :=
  if negb (String.eqb (id_dev_type (pd_identity disk)) "disk")
  then Err (InvalidInput (pd_path disk +:+ " is not a whole disk"))
  else Ok (mkDiskPreparation (pd_path disk) (pd_identity disk) (pd_partition_table_type disk)
             (pd_fs_type disk)
             (sort_by (fun a b => String.leb a.1.1 b.1.1) (child_entry <$> descendants inv disk))).

Definition preparation_matches (inv : BlockInventory) (disk : PreflightBlockDevice)
    (expected : DiskPreparation) : fsres bool :=
  match disk_preparation_snapshot inv disk with
  | Ok s => Ok (bool_decide (s = expected))
  | Err e => Err e
  end.

Definition check_preparation_node (disk : PreflightBlockDevice) (registered : gset string)
    (node : PreflightBlockDevice) : fsres unit :=
  let ty := id_dev_type (pd_identity node) in
  if negb (String.eqb ty "disk") && negb (String.eqb ty "part")
  then Err (DeviceInUse (pd_path disk +:+ " has a non-partition child " +:+ pd_path node))
  else if bool_decide (pd_path node ∈ registered)
  then Err (DeviceInUse (pd_path node +:+ " is referenced by a registered filesystem"))
  else Ok tt.

Definition validate_preparation_usage (inv : BlockInventory) (disk : PreflightBlockDevice)
    (swaps registered : gset string) : fsres unit :=
  match node_usage_error inv disk swaps true false with
  | Some reason => Err (in_use disk reason)
  | None => try_each (check_preparation_node disk registered) (disk :: descendants inv disk)
  end.

Definition identity_changed (expected : BlockIdentity) (current : option PreflightBlockDevice)
    (path : string) : fsres PreflightBlockDevice :=
  match current with
  | None => Err (InvalidInput ("device " +:+ path +:+ " disappeared after preflight; no changes were made"))
  | Some c =>
      if bool_decide (pd_identity c = expected) then Ok c
      else Err (InvalidInput ("device " +:+ path +:+ " changed after preflight; refusing destructive operation"))
  end.
