(* ===== verification/AppPolicy.v ===== *)
(** * What an app may be given of the host
    (nasty-engine/src/app_deploy.rs, nasty-apps/src/lib.rs)

    Names of apps and of their volumes, the volumes of simple apps, and the policy
    on Compose files.  What the kernel answers ([HostFs]) does not change during
    one check; the YAML parser is an argument, its result a JSON value. *)

From Stdlib Require Import ZArith Lia Ascii String.
From stdpp Require Import base list strings.
From S2P Require Import Prelude.
From S2P Require Import RustStr.
From S2P Require Import Text.
From S2P Require Import RustPath.
From S2P Require Import BlockDev.

(** [Path::exists], [fs::canonicalize] and the device of [fs::metadata]. *)
Record HostFs : Type := mkHostFs {
  hf_exists : string -> bool;
  hf_canonicalize : string -> option string;
  hf_dev : string -> option Z;
}.

Inductive AppsError : Type :=
| AeInvalidName (msg : string)
| AeForbiddenBind (msg : string).

(** ** Names *)

Definition app_name_char (c : ascii) : bool := is_ascii_alphanumeric c || (bool_decide (c = "_"%char)) || (bool_decide (c = "-"%char)) || (bool_decide (c = "."%char)).

Definition new_app_name_char (c : ascii) : bool := is_ascii_lowercase c || is_ascii_digit c || (bool_decide (c = "_"%char)) || (bool_decide (c = "-"%char)).

Definition validate_app_name (name : string) : result unit AppsError :=
  if Nat.eqb (String.length name) 0 || Nat.ltb 250 (String.length name) then Err (AeInvalidName "name must be 1-250 bytes")
  else match chars name with
       | c :: rest =>
           if one_byte is_ascii_alphanumeric c && forallb (one_byte app_name_char) rest then Ok tt
           else Err (AeInvalidName "existing app names must be a single component of [A-Za-z0-9._-] starting with a letter or number")
       | [] => Err (AeInvalidName "existing app names must be a single component of [A-Za-z0-9._-] starting with a letter or number")
       end.

Definition validate_new_app_name (name : string) : result unit AppsError :=
  if Nat.eqb (String.length name) 0 || Nat.ltb 63 (String.length name) then Err (AeInvalidName "name must be 1-63 bytes")
  else match to_bytes name with
       | c :: rest =>
           if (is_ascii_lowercase c || is_ascii_digit c) && forallb new_app_name_char rest then Ok tt
           else Err (AeInvalidName "new app names must match [a-z0-9][a-z0-9_-]{0,62}")
       | [] => Err (AeInvalidName "new app names must match [a-z0-9][a-z0-9_-]{0,62}")
       end.

Definition validate_volume_name (name : string) : result unit AppsError :=
  if Nat.eqb (String.length name) 0 || Nat.ltb 255 (String.length name) then Err (AeInvalidName "volume name must be 1-255 bytes")
  else if one_of ["."; ".."] name || str_contains_char "/" name || existsb is_control (chars name)
  then Err (AeInvalidName "volume name must be one normal path component without control characters")
  else Ok tt.

Record AppVolume : Type := mkAppVolume { av_name : string; av_host_path : string }.

Definition validate_auto_volume_names (volumes : list AppVolume) : result unit AppsError :=
  try_each (fun v => if String.eqb (av_host_path v) "" then validate_volume_name (av_name v) else Ok tt) volumes.

Definition validate_new_app_request (name : string) (volumes : list AppVolume) : result unit AppsError :=
  _ <-? validate_new_app_name name ;; validate_auto_volume_names volumes.

Definition validate_existing_app_request (name : string) (volumes : list AppVolume) : result unit AppsError :=
  _ <-? validate_app_name name ;; validate_auto_volume_names volumes.

(** ** Where a path leads *)

(** Pieces that are not components, at the end of a path. *)
Fixpoint drop_junk (rp : list string) : list string :=
  match rp with
  | p :: rest => match component_of p with None => drop_junk rest | Some _ => rp end
  | [] => []
  end.

(** The absolute path with these pieces, the last first. *)
Definition text_of (rp : list string) : string :=
  match drop_junk rp with [] => "/" | real => str_join "/" (rev real) end.

(** [PathBuf::push] and [Path::join] of a relative path *)
Definition path_push (base name : string) : string :=
  if String.eqb base "" then name else if ends_with "/" base then base +:+ name else base +:+ "/" +:+ name.

Section policy.
Context (fs : HostFs).

(** The deepest ancestor that exists, and the names below it. *)
Fixpoint climb (text : string) (rp missing : list string) : string * list string :=
  if hf_exists fs text then (text, missing)
  else match rp with
       | [] => (text, missing)
       | p :: rest =>
           match component_of p with
           | None => climb text rest missing
           | Some (Normal n) => climb (text_of rest) rest (n :: missing)
           | Some _ => (text, missing)
           end
       end.

Definition projected_canonical_path (path : string) : string :=
  if negb (is_absolute path) then path
  else
    let '(existing, missing) := climb path (rev (str_split "/" path)) [] in
    fold_left path_push missing (default existing (hf_canonicalize fs existing)).

Definition projected_compose_path (path project_dir : string) : string :=
  if is_absolute path then projected_canonical_path path else projected_canonical_path (path_push project_dir path).

(** [root != Path::new("/") && path.starts_with(root)] *)
Definition under_root (path root : string) : bool :=
  negb (bool_decide (components root = components "/")) && path_starts_with path root.

(** ** Volumes of simple apps *)

Definition path_within (path root : string) : bool := under_root path (projected_canonical_path root).

Definition APPDATA_LINK : string := "/appdata".
Definition ENGINE_STATE : string := "/var/lib/nasty".

Fixpoint trim_end_slashes (rb : bytes) : bytes :=
  match rb with c :: rest => if bool_decide (c = "/"%char) then trim_end_slashes rest else rb | [] => [] end.

Definition app_data_dir (storage_base app_name : string) : string :=
  of_bytes (rev (trim_end_slashes (rev (to_bytes storage_base)))) +:+ "/" +:+ app_name.

Definition check_simple_volume (app_data_dir : string) (allow_unsafe : bool) (v : AppVolume) : result unit AppsError :=
  let src := av_host_path v in
  if String.eqb src "" then Ok tt
  else if str_contains ".." src then Err (AeForbiddenBind ("'" +:+ src +:+ "' escapes via '..'"))
  else
    let resolved := projected_canonical_path src in
    if bool_decide (components resolved = components "/") then Err (AeForbiddenBind "host root '/' is never allowed as a bind mount")
    else
      let in_app_dir := path_within resolved app_data_dir in
      if path_within resolved ENGINE_STATE && negb in_app_dir
      then Err (AeForbiddenBind ("'" +:+ src +:+ "' targets engine state — not allowed even with allow_unsafe"))
      else if allow_unsafe then Ok tt
      else if in_app_dir || path_within resolved APPDATA_LINK || path_within resolved "/fs" then Ok tt
      else Err (AeForbiddenBind ("'" +:+ src +:+ "' is outside '" +:+ app_data_dir +:+ "/', '/appdata/' and '/fs/'. Set allow_unsafe to override.")).

Definition validate_simple_volumes (app_name storage_base : string) (volumes : list AppVolume) (allow_unsafe : bool) : result unit AppsError :=
  try_each (check_simple_volume (app_data_dir storage_base app_name) allow_unsafe) volumes.

End policy.

(** ** Compose files *)

Definition FORBIDDEN_CAPS : list string :=
  ["ALL"; "SYS_ADMIN"; "SYS_PTRACE"; "SYS_MODULE"; "SYS_RAWIO"; "SYS_BOOT"; "SYS_TIME"; "NET_ADMIN"; "DAC_READ_SEARCH"; "DAC_OVERRIDE";
   "MAC_ADMIN"; "MAC_OVERRIDE"; "AUDIT_CONTROL"; "AUDIT_WRITE"].

Definition FORBIDDEN_SECURITY_OPTS : list string :=
  ["seccomp=unconfined"; "seccomp:unconfined"; "apparmor=unconfined"; "apparmor:unconfined"; "label=disable"; "label:disable";
   "label=type:spc_t"; "label:type:spc_t"; "no-new-privileges=false"; "no-new-privileges:false"; "systempaths=unconfined"; "systempaths:unconfined"].

Definition NAMESPACE_FIELDS : list string := ["pid"; "ipc"; "uts"; "userns_mode"; "cgroup"; "cgroupns_mode"; "network_mode"].

Definition to_ascii_uppercase (s : string) : string :=
  of_bytes ((fun c => if is_ascii_lowercase c then chr (code c - 32) else c) <$> to_bytes s).

Definition dollar (s : string) : bool := str_contains_char "$" s.

Definition jstr (v : JValue) : option string := match v with JStr s => Some s | _ => None end.
Definition jarr (v : JValue) : option (list JValue) := match v with JArr l => Some l | _ => None end.
Definition jobj (v : JValue) : option (list (string * JValue)) := match v with JObj l => Some l | _ => None end.

(** [as_bool() == Some(true)], or text to be expanded later *)
Definition switched_on (v : JValue) : bool := match v with JBool b => b | JStr s => dollar s | _ => false end.

Inductive BindReject : Type := Hard (why : string) | EngineState.

Section compose.
Context (fs : HostFs).

Definition has_parent_dir (source : string) : bool := existsb (fun c => bool_decide (c = ParentDir)) (components source).

Definition always_forbidden_bind (source : string) : option BindReject :=
  if has_parent_dir source then Some (Hard "'..' traversal is never allowed in bind sources")
  else if String.eqb source "/" then Some (Hard "'/' (host root) is never allowed as a bind source")
  else if String.eqb source "/var/lib/nasty" || starts_with "/var/lib/nasty/" source ||
          (is_absolute source && path_starts_with (projected_canonical_path fs source) (projected_canonical_path fs ENGINE_STATE))
  then Some EngineState
  else None.

Definition operator_bind_allowed (source allowed_app_dir : string) : bool :=
  if negb (starts_with "/" source) && negb (starts_with "." source) then false
  else existsb (fun root => under_root (projected_compose_path fs source allowed_app_dir) (projected_canonical_path fs root))
         [allowed_app_dir; "/appdata"; "/fs"].

Fixpoint value_has_unsafe_host_reference (v : JValue) : bool :=
  match v with
  | JStr s => starts_with "/" s || starts_with "~" s || dollar s || str_contains ".." s
  | JArr l => existsb value_has_unsafe_host_reference l
  | _ => false
  end.

Definition protected_path (path allowed_app_dir : string) : bool :=
  let resolved := projected_compose_path fs path allowed_app_dir in
  dollar path ||
  match always_forbidden_bind path with Some (Hard _) => true | _ => false end ||
  match always_forbidden_bind resolved with
  | Some (Hard _) => true
  | Some EngineState => negb (path_starts_with resolved (projected_canonical_path fs allowed_app_dir))
  | None => false
  end.

Fixpoint value_has_protected_host_reference (allowed_app_dir : string) (v : JValue) : bool :=
  match v with
  | JStr path => protected_path path allowed_app_dir
  | JArr l => existsb (value_has_protected_host_reference allowed_app_dir) l
  | JObj l => existsb (fun kv => value_has_protected_host_reference allowed_app_dir kv.2) l
  | _ => false
  end.

Definition scope (svc field : string) : string := "services." +:+ svc +:+ "." +:+ field.

Definition refuse_if (b : bool) (msg : string) : result unit string := if b then Err msg else Ok tt.

Definition if_some {A} (o : option A) (f : A -> result unit string) : result unit string := match o with Some a => f a | None => Ok tt end.

(** What only an administrator's override permits. *)
Definition check_sandbox (name : string) (svc : JValue) : result unit string :=
  _ <-? refuse_if (from_option switched_on false (jget svc "privileged"))
          (scope name "privileged" +:+ " sets privileged: true (host-root equivalent). Set allow_unsafe to override.") ;;
  _ <-? try_each (fun field => if_some (jget svc field ≫= jstr) (fun v =>
          let lower := to_ascii_lowercase v in
          refuse_if (dollar v || String.eqb lower "host" || starts_with "host:" lower)
            (scope name field +:+ " = '" +:+ v +:+ "' shares the host namespace. Set allow_unsafe to override."))) NAMESPACE_FIELDS ;;
  _ <-? if_some (jget svc "ipc" ≫= jstr) (fun v => refuse_if (eq_ignore_ascii_case v "shareable")
          (scope name "ipc" +:+ " = 'shareable' lets other containers attach. Set allow_unsafe to override.")) ;;
  _ <-? if_some (jget svc "cap_add" ≫= jarr) (try_each (fun c => if_some (jstr c) (fun s =>
          let bare := to_ascii_uppercase (default s (strip_prefix "CAP_" s)) in
          refuse_if (dollar s || one_of FORBIDDEN_CAPS bare)
            (scope name "cap_add" +:+ " includes '" +:+ s +:+ "' — grants host-equivalent privilege. Set allow_unsafe to override.")))) ;;
  _ <-? if_some (jget svc "security_opt" ≫= jarr) (try_each (fun o => if_some (jstr o) (fun s =>
          let normalized := to_ascii_lowercase (of_bytes (List.filter (fun c => negb (bool_decide (c = " "%char))) (to_bytes s))) in
          refuse_if (dollar s || one_of FORBIDDEN_SECURITY_OPTS normalized)
            (scope name "security_opt" +:+ " includes '" +:+ s +:+ "' — disables container sandbox. Set allow_unsafe to override.")))) ;;
  _ <-? if_some (jget svc "devices" ≫= jarr) (fun devices => refuse_if (negb (Nat.eqb (length devices) 0))
          (scope name "devices" +:+ " maps host devices. Set allow_unsafe to override.")) ;;
  _ <-? refuse_if (is_some (jget svc "device_cgroup_rules"))
          (scope name "device_cgroup_rules" +:+ " bypasses the device cgroup. Set allow_unsafe to override.") ;;
  _ <-? refuse_if (from_option switched_on false (jget svc "use_api_socket"))
          (scope name "use_api_socket" +:+ " exposes the Docker API socket. Set allow_unsafe to override.") ;;
  try_each (fun field => refuse_if (from_option value_has_unsafe_host_reference false (jget svc field))
    (scope name field +:+ " reads an absolute, escaping, or interpolated host path. Set allow_unsafe to override.")) ["env_file"; "label_file"].

(** The source a volume entry names, if its form can name one. *)
Definition volume_source (name : string) (vol : JValue) : result (option string) string :=
  match vol with
  | JStr s => Ok (Some (default "" (head (str_split ":" s))))
  | JObj _ =>
      let kind := default "volume" (jget vol "type" ≫= jstr) in
      if dollar kind then Err (scope name "volumes" +:+ " has an interpolated mount type, which cannot be safety-checked")
      else if String.eqb kind "bind" then Ok (Some (default "" (jget vol "source" ≫= jstr)))
      else Ok None
  | _ => Ok None
  end.

(** The tests on a path that the Compose file mounts, whatever the mode. *)
Definition check_protected (prefix source allowed_app_dir : string) : result unit string :=
  let resolved := projected_compose_path fs source allowed_app_dir in
  let in_app_dir := starts_with (allowed_app_dir +:+ "/") source || String.eqb source allowed_app_dir ||
                    path_starts_with resolved (projected_canonical_path fs allowed_app_dir) in
  match (match always_forbidden_bind source with Some r => Some r | None => always_forbidden_bind resolved end) with
  | Some (Hard why) => Err (prefix +:+ " bind-mounts '" +:+ source +:+ "' — " +:+ why +:+ " (off-limits even with allow_unsafe)")
  | Some EngineState => refuse_if (negb in_app_dir) (prefix +:+ " bind-mounts '" +:+ source +:+ "' — engine state under /var/lib/nasty is off-limits even with allow_unsafe")
  | None => Ok tt
  end.

Definition check_allowed (prefix source allowed_app_dir : string) (allow_unsafe : bool) : result unit string :=
  refuse_if (negb allow_unsafe && negb (operator_bind_allowed source allowed_app_dir))
    (prefix +:+ " bind-mounts '" +:+ source +:+ "' — only paths under '" +:+ allowed_app_dir +:+ "/', '/appdata/' or '/fs/' are allowed. Set allow_unsafe to override.").

(** A path below /fs must be on a filesystem mounted there. *)
Definition fs_mounted (fs_name : string) : bool :=
  match hf_dev fs ("/fs/" +:+ fs_name), hf_dev fs "/fs" with Some c, Some p => negb (c =? p)%Z | _, _ => false end.

Definition check_fs_root (prefix source : string) : result unit string :=
  if_some (strip_prefix "/fs/" source) (fun rest =>
    let fs_name := default "" (head (str_split "/" rest)) in
    refuse_if (negb (String.eqb fs_name "") && negb (fs_mounted fs_name))
      (prefix +:+ " bind-mounts '" +:+ source +:+ "' — no filesystem is mounted at /fs/" +:+ fs_name +:+ " (typo? pick an existing filesystem from Storage → Filesystems)")).

Definition check_volume (name allowed_app_dir : string) (allow_unsafe : bool) (vol : JValue) : result unit string :=
  source <-? volume_source name vol ;;
  match source with
  | None => Ok tt
  | Some source =>
      if String.eqb source "" then Ok tt
      else if dollar source then Err (scope name "volumes" +:+ " bind source '" +:+ source +:+ "' is interpolated and cannot be safety-checked")
      else if negb (starts_with "/" source) && negb (starts_with "." source) && negb (starts_with "~" source) then Ok tt
      else
        _ <-? check_protected (scope name "volumes") source allowed_app_dir ;;
        _ <-? check_fs_root (scope name "volumes") source ;;
        check_allowed (scope name "volumes") source allowed_app_dir allow_unsafe
  end.

Definition check_service (allowed_app_dir : string) (allow_unsafe : bool) (entry : string * JValue) : result unit string :=
  let '(name, svc) := entry in
  _ <-? (if allow_unsafe then Ok tt else check_sandbox name svc) ;;
  _ <-? try_each (fun field => refuse_if (from_option (value_has_protected_host_reference allowed_app_dir) false (jget svc field))
          (scope name field +:+ " reads an interpolated or protected host path")) ["env_file"; "label_file"] ;;
  _ <-? refuse_if (is_some (jget svc "extends") || is_some (jget svc "volumes_from"))
          (scope name "extends/volumes_from" +:+ " imports content that cannot be checked against the protected host-path policy") ;;
  if_some (jget svc "volumes" ≫= jarr) (try_each (check_volume name allowed_app_dir allow_unsafe)).

(** Volumes at the top can be bind mounts too. *)
Definition check_top_volume (allowed_app_dir : string) (allow_unsafe : bool) (entry : string * JValue) : result unit string :=
  let '(name, vol) := entry in
  if_some (jget vol "driver_opts" ≫= jobj) (fun o =>
    let opts := JObj o in
    let is_bind := bool_decide (jget opts "type" ≫= jstr = Some "none") || from_option (str_contains "bind") false (jget opts "o" ≫= jstr) in
    if existsb (fun key => from_option dollar false (jget opts key ≫= jstr)) ["type"; "o"; "device"]
    then Err ("volumes." +:+ name +:+ ".driver_opts contains interpolation that cannot be safety-checked")
    else if negb is_bind then Ok tt
    else
      let device := default "" (jget opts "device" ≫= jstr) in
      if String.eqb device "" then Ok tt
      else
        _ <-? check_protected ("volumes." +:+ name) device allowed_app_dir ;;
        check_allowed ("volumes." +:+ name) device allowed_app_dir allow_unsafe).

Definition check_file_entry (section allowed_app_dir : string) (allow_unsafe : bool) (entry : string * JValue) : result unit string :=
  if_some (jget entry.2 "file") (fun file =>
    _ <-? refuse_if (value_has_protected_host_reference allowed_app_dir file)
            (section +:+ "." +:+ entry.1 +:+ ".file reads an interpolated or protected host path") ;;
    refuse_if (negb allow_unsafe && value_has_unsafe_host_reference file)
      (section +:+ "." +:+ entry.1 +:+ ".file reads an absolute or escaping host path and requires Admin access")).

Definition allowed_app_dir (app_name : string) : string := "/var/lib/nasty/apps/" +:+ app_name.

(** [yaml]: what [parse_compose_yaml] made of the text. *)
Definition validate_compose (yaml : result JValue string) (app_name : string) (allow_unsafe : bool) : result unit string :=
  match yaml with
  | Err e => Err ("compose YAML failed to parse: " +:+ e)
  | Ok parsed =>
      match jget parsed "services" ≫= jobj with
      | None => Err "compose file has no `services:` map"
      | Some services =>
          let dir := allowed_app_dir app_name in
          _ <-? try_each (check_service dir allow_unsafe) services ;;
          _ <-? if_some (jget parsed "volumes" ≫= jobj) (try_each (check_top_volume dir allow_unsafe)) ;;
          _ <-? refuse_if (is_some (jget parsed "include")) "top-level include imports content that cannot be checked against the protected host-path policy" ;;
          try_each (fun section => if_some (jget parsed section ≫= jobj) (try_each (check_file_entry section dir allow_unsafe))) ["configs"; "secrets"]
      end
  end.

End compose.
