(* ===== verification/ComposeProps.v ===== *)
(** * Compose files that pass the policy stay on their side

    Where the mounts of an accepted Compose file lead, after Compose has expanded
    its variables, and what its services are not given; then files that pass and
    should not. *)

From Stdlib Require Import ZArith Lia Ascii String.
From stdpp Require Import base list gmap strings.
From S2P Require Import Prelude.
From S2P Require Import RustStr.
From S2P Require Import Text.
From S2P Require Import RustPath.
From S2P Require Import Subvol.
From S2P Require Import SubvolNames.
From S2P Require Import ShareScope.
From S2P Require Import BlockDev.
From S2P Require Import AppPolicy.

(** ** Paths *)

Lemma split_join (c : ascii) ps : ps <> [] -> Forall (no_char c) ps -> str_split c (str_join (String c "") ps) = ps.
Proof.
  intros Hne Hps. induction Hps as [|p ps Hp Hps IH]; [done|]. destruct ps as [|q ps].
  - unfold str_join. cbn. unfold str_split. rewrite to_of_bytes, split_bytes_no_sep_id by done. cbn. by rewrite of_to_bytes.
  - assert (str_join (String c "") (p :: q :: ps) = p +:+ String c (str_join (String c "") (q :: ps))) as ->.
    { apply to_bytes_inj. rewrite to_bytes_app. unfold str_join. rewrite to_of_bytes. cbn [fmap list_fmap join_bytes].
      f_equal. cbn. f_equal. by rewrite to_of_bytes. }
    rewrite str_split_app_sep, IH by done. unfold str_split at 1. rewrite split_bytes_no_sep_id by done. cbn. by rewrite of_to_bytes.
Qed.

(** An absolute path without [..]. *)
Definition clean (p : string) : Prop := is_absolute p = true /\ ParentDir ∉ components p.

Lemma no_parent_dir p : has_parent_dir p = false <-> ParentDir ∉ components p.
Proof.
  unfold has_parent_dir. rewrite <- not_true_iff_false, existsb_exists. split.
  - intros H Hp. apply H. exists ParentDir. split; [by apply list_elem_of_In|by apply bool_decide_eq_true].
  - intros H (c & Hc & ->%bool_decide_eq_true). apply H. by apply list_elem_of_In.
Qed.

(** Pieces of an absolute path below the root, the last first. *)
Definition pieces_ok (rp : list string) : Prop := Forall (no_char "/") rp /\ ParentDir ∉ omap component_of rp.

Lemma split_no_sep c s : Forall (no_char c) (str_split c s).
Proof.
  unfold str_split. apply Forall_fmap, Forall_forall. intros p Hp. unfold compose, no_char. rewrite to_of_bytes. by eapply split_bytes_no_sep.
Qed.

Lemma components_root r : components ("/" +:+ r) = RootDir :: omap component_of (str_split "/" r).
Proof.
  unfold components. assert (starts_with "/" ("/" +:+ r) = true) as -> by (apply starts_with_spec; by eexists).
  change ("/" +:+ r) with ("" +:+ String "/" r). rewrite str_split_app_sep. reflexivity.
Qed.

Lemma absolute_app a b : is_absolute a = true -> is_absolute (a +:+ b) = true.
Proof. unfold is_absolute. intros [r ->]%starts_with_spec. rewrite string_app_assoc. apply starts_with_spec. by eexists. Qed.

Lemma omap_rev {A B} (f : A -> option B) l : omap f (rev l) = rev (omap f l).
Proof. induction l as [|x l IH]; [done|]. cbn. rewrite omap_app, IH. cbn. destruct (f x); cbn; [done|by rewrite app_nil_r]. Qed.

Lemma drop_junk_omap rp : omap component_of (drop_junk rp) = omap component_of rp.
Proof. induction rp as [|p rp IH]; [done|]. cbn. destruct (component_of p) as [c|] eqn:E; [|done]. cbn. by rewrite E. Qed.

Lemma drop_junk_sub rp p : p ∈ drop_junk rp -> p ∈ rp.
Proof. induction rp as [|q rp IH]; [done|]. cbn. destruct (component_of q); [done|]. intros H. right. auto. Qed.

Lemma drop_junk_root rp : drop_junk (rp ++ [""]) = [] \/ exists q l, drop_junk (rp ++ [""]) = q :: l ++ [""].
Proof.
  induction rp as [|q rp IH]; [by left|]. cbn. destruct (component_of q) as [c|]; [|done]. right. by exists q, rp.
Qed.

Lemma text_of_root rp : pieces_ok rp -> is_absolute (text_of (rp ++ [""])) = true /\ components (text_of (rp ++ [""])) = RootDir :: omap component_of (rev rp).
Proof.
  intros [Hs Hp]. unfold text_of. pose proof (drop_junk_omap (rp ++ [""])) as Ho. rewrite omap_app in Ho. cbn in Ho. rewrite app_nil_r in Ho.
  destruct (drop_junk_root rp) as [E|(q & l & E)]; rewrite E in *.
  - split; [done|]. rewrite omap_rev, <- Ho. done.
  - assert (Forall (no_char "/") (q :: l)) as Hq.
    { apply Forall_forall. intros x Hx. rewrite Forall_forall in Hs. assert (x ∈ q :: l ++ [""]) as Hx' by set_solver.
      rewrite <- E in Hx'. apply drop_junk_sub, elem_of_app in Hx' as [?| ->%list_elem_of_singleton]; [auto|]. unfold no_char. cbn. set_solver. }
    assert (rev (q :: l ++ [""]) = "" :: rev (q :: l)) as -> by (cbn; by rewrite rev_app_distr).
    assert (str_join "/" ("" :: rev (q :: l)) = "/" +:+ str_join "/" (rev (q :: l))) as ->.
    { destruct (rev (q :: l)) as [|x y] eqn:Er; [apply (f_equal (@length _)) in Er; rewrite length_rev in Er; done|].
      apply to_bytes_inj. rewrite to_bytes_app. unfold str_join. by rewrite !to_of_bytes. }
    split; [by apply starts_with_spec; eexists|]. rewrite components_root, (split_join "/").
    + rewrite !omap_rev, <- Ho. f_equal. f_equal. change (q :: l ++ [""]) with ((q :: l) ++ [""]). rewrite omap_app. cbn [omap list_omap component_of]. by rewrite app_nil_r.
    + intros Er. apply (f_equal (@length _)) in Er. rewrite length_rev in Er. done.
    + by apply Forall_rev.
Qed.

(** A plain name is one component. *)
Definition plain (n : string) : Prop := normal n /\ no_char "/" n.

Lemma ends_with_slash b : ends_with "/" b = true -> exists b', b = b' +:+ "/".
Proof.
  unfold ends_with. destruct (bytes_prefix _ _) as [r|] eqn:E; [|done]. intros _. apply bytes_prefix_Some in E.
  exists (of_bytes (rev r)). apply to_bytes_inj. rewrite to_bytes_app, to_of_bytes, <- (rev_involutive (to_bytes b)), E. cbn. done.
Qed.

Lemma components_push b p : is_absolute b = true -> components (path_push b p) = components b ++ omap component_of (str_split "/" p).
Proof.
  intros Hb. unfold path_push. destruct (String.eqb b "") eqn:E0; [apply String.eqb_eq in E0 as ->; done|].
  destruct (ends_with "/" b) eqn:E.
  - apply ends_with_slash in E as [b' ->]. rewrite string_app_assoc. change ("/" +:+ p) with (String "/" p).
    destruct (String.eqb b' "") eqn:E1.
    + apply String.eqb_eq in E1 as ->. exact (components_root p).
    + assert (starts_with "/" b' = true) as Hb'.
      { unfold is_absolute in Hb. apply starts_with_spec in Hb as [r Hr]. destruct b' as [|c b']; [done|]. cbn in Hr. injection Hr as -> _.
        apply starts_with_spec. by exists b'. }
      rewrite components_below by done. change (b' +:+ "/") with (b' +:+ String "/" ""). rewrite components_below by done. cbn. by rewrite app_nil_r.
  - change (b +:+ "/" +:+ p) with (b +:+ String "/" p). by apply components_below.
Qed.

Lemma push_absolute b p : is_absolute b = true -> is_absolute (path_push b p) = true.
Proof. intros Hb. unfold path_push. destruct (String.eqb b "") eqn:E; [apply String.eqb_eq in E as ->; done|]. destruct (ends_with _ _); by apply absolute_app. Qed.

(** The absolute path with these names. *)
Definition absolute (names : list string) : string := "/" +:+ str_join "/" names.

Lemma absolute_split names : names <> [] -> Forall plain names -> str_split "/" (absolute names) = "" :: names.
Proof.
  intros Hne Hn. unfold absolute. change ("/" +:+ str_join "/" names) with ("" +:+ String "/" (str_join "/" names)).
  rewrite str_split_app_sep, (split_join "/"); [done|done|]. eapply Forall_impl; [exact Hn|]. by intros x [].
Qed.

Lemma absolute_components names : Forall plain names -> components (absolute names) = RootDir :: (Normal <$> names).
Proof.
  intros Hn. destruct names as [|n names]; [done|]. unfold components. rewrite absolute_split by done.
  assert (starts_with "/" (absolute (n :: names)) = true) as -> by (by apply starts_with_spec; eexists). cbn [omap list_omap component_of app].
  f_equal. cbn. pose proof (omap_normal (n :: names)) as H. cbn in H. apply H. eapply Forall_impl; [exact Hn|]. by intros x [].
Qed.

Lemma absolute_snoc names n : names <> [] -> absolute (names ++ [n]) = absolute names +:+ "/" +:+ n.
Proof.
  intros Hne. unfold absolute. apply to_bytes_inj. rewrite !to_bytes_app. cbn [to_bytes list_ascii_of_string app]. f_equal. unfold str_join. rewrite !to_of_bytes.
  induction names as [|x names IH]; [done|]. destruct names as [|y names]; [done|]. cbn [fmap list_fmap app join_bytes] in *.
  cbn [fmap list_fmap app] in IH. rewrite IH by done. by rewrite <- !app_assoc.
Qed.

Lemma absolute_push names n : Forall plain names -> plain n -> path_push (absolute names) n = absolute (names ++ [n]).
Proof.
  intros Hn Hp. destruct names as [|x names]; [destruct n as [|c n]; [by destruct Hp|]; unfold absolute, str_join; cbn; by rewrite of_to_bytes|].
  rewrite absolute_snoc by done. unfold path_push. destruct (String.eqb _ "") eqn:E0; [by apply String.eqb_eq in E0|].
  destruct (ends_with "/" _) eqn:E; [|done]. exfalso. apply ends_with_slash in E as [b Hb]. apply (f_equal (str_split "/")) in Hb.
  rewrite absolute_split in Hb by done. change (b +:+ "/") with (b +:+ String "/" "") in Hb. rewrite str_split_app_sep in Hb. change (str_split "/" "") with [""] in Hb.
  apply (f_equal last) in Hb. rewrite last_snoc in Hb. change ("" :: x :: names) with ([""] ++ x :: names) in Hb. rewrite last_app in Hb.
  destruct (last (x :: names)) as [y|] eqn:Ey; [|by apply last_None in Ey]. injection Hb as ->. apply last_Some_elem_of in Ey.
  rewrite Forall_forall in Hn. by destruct (Hn _ Ey).
Qed.

(** What [fs::canonicalize] promises: an absolute path of plain names, for every
    path that exists, and the root does. *)
Record canonical_paths (fs : HostFs) : Prop := {
  cp_form : forall p q, hf_canonicalize fs p = Some q -> exists names, Forall plain names /\ q = absolute names;
  cp_exists : forall p, hf_exists fs p = true -> hf_canonicalize fs p <> None;
  cp_root : forall p, components p = [RootDir] -> hf_exists fs p = true;
}.

Section paths.
Context (fs : HostFs) (Hfs : canonical_paths fs).

Lemma climb_ends text rp missing t ms :
  components text = RootDir :: omap component_of (rev rp) -> pieces_ok rp -> Forall plain missing ->
  climb fs text (rp ++ [""]) missing = (t, ms) -> hf_exists fs t = true /\ Forall plain ms.
Proof.
  revert text missing. induction rp as [|p rp IH]; intros text missing Ht Hrp Hm; cbn [app climb].
  { rewrite (cp_root fs Hfs) by done. intros [= <- <-]. split; [by apply (cp_root fs Hfs)|done]. }
  destruct (hf_exists fs text) eqn:Ex; [by intros [= <- <-]|]. destruct Hrp as [Hs Hp]. apply Forall_cons in Hs as [Hsp Hs]. cbn in Hp, Ht.
  rewrite omap_app in Ht. cbn in Ht.
  destruct (component_of p) as [[| | |n]|] eqn:E.
  - unfold component_of in E. destruct (_ || _); [done|]. by destruct (String.eqb p "..").
  - unfold component_of in E. destruct (_ || _); [done|]. by destruct (String.eqb p "..").
  - set_solver.
  - assert (n = p) as ->. { unfold component_of in E. destruct (_ || _); [done|]. destruct (String.eqb p ".."); [done|]. by injection E. }
    assert (pieces_ok rp) as Hrp by (split; [done|]; set_solver). apply IH; [|done|by constructor]. by apply text_of_root.
  - apply IH; [|by split|done]. by rewrite app_nil_r in Ht.
Qed.

Lemma projected_form p : clean p -> exists names, Forall plain names /\ projected_canonical_path fs p = absolute names.
Proof.
  intros [Ha Hp]. unfold projected_canonical_path. rewrite Ha. cbn [negb].
  destruct (climb fs p (rev (str_split "/" p)) []) as [t ms] eqn:E. unfold is_absolute in Ha. apply starts_with_spec in Ha as [r ->].
  assert (str_split "/" ("/" +:+ r) = "" :: str_split "/" r) as Hs.
  { change ("/" +:+ r) with ("" +:+ String "/" r). by rewrite str_split_app_sep. }
  rewrite Hs in E. cbn [rev] in E. rewrite components_root in Hp.
  apply climb_ends in E as [Ht Hms]; [|by rewrite components_root, rev_involutive| |done].
  2:{ split; [apply Forall_rev, split_no_sep|]. rewrite omap_rev. intros H. apply Hp. right. by rewrite list_elem_of_In, <- in_rev, <- list_elem_of_In in H. }
  apply (cp_exists fs Hfs) in Ht. destruct (hf_canonicalize fs t) as [q|] eqn:Eq; [|done]. cbn [from_option id].
  destruct (cp_form fs Hfs _ _ Eq) as (names & Hn & ->). clear -Hn Hms. revert names Hn. induction Hms as [|m ms Hm _ IH]; intros names Hn; [by exists names|].
  cbn [fold_left]. rewrite absolute_push by done. apply IH. apply Forall_app. by split; [|constructor].
Qed.

End paths.

(** ** What a Compose file asks for *)

(** Variables are expanded in every text, after the policy has seen the file;
    what stands before the first dollar sign stays. *)
Record interpolation (σ : string -> string) : Prop := {
  in_empty : σ "" = "";
  in_prefix : forall a b, dollar a = false -> σ (a +:+ b) = a +:+ σ b;
}.

Fixpoint expand (σ : string -> string) (v : JValue) : JValue :=
  match v with
  | JStr s => JStr (σ s)
  | JArr l => JArr (expand σ <$> l)
  | JObj l => JObj ((fun kv => (kv.1, expand σ kv.2)) <$> l)
  | v => v
  end.

(** Compose's reading of a short volume entry: a host path or the name of a
    volume. *)
Definition host_path (p : string) : Prop := starts_with "/" p = true \/ starts_with "." p = true \/ starts_with "~" p = true.

Definition service (doc : JValue) (name : string) (svc : JValue) : Prop :=
  exists services, jget doc "services" = Some (JObj services) /\ (name, svc) ∈ services.

(** A host path a file makes Compose or Docker mount: the host part of a short
    volume entry, the source of a long one of type bind, which Compose resolves
    against the project's directory however it begins, or the device of a volume
    at the top, which the local driver mounts whatever type it is given. *)
Inductive mounts (doc : JValue) (path : string) : Prop :=
| mounts_short name svc vols s :
    service doc name svc -> jget svc "volumes" = Some (JArr vols) -> JStr s ∈ vols ->
    head (str_split ":" s) = Some path -> host_path path -> mounts doc path
| mounts_long name svc vols o :
    service doc name svc -> jget svc "volumes" = Some (JArr vols) -> JObj o ∈ vols ->
    jget (JObj o) "type" = Some (JStr "bind") -> jget (JObj o) "source" = Some (JStr path) -> mounts doc path
| mounts_driver vs name v o :
    jget doc "volumes" = Some (JObj vs) -> (name, v) ∈ vs -> jget v "driver_opts" = Some (JObj o) ->
    jget (JObj o) "device" = Some (JStr path) -> path <> "" -> mounts doc path.

Definition bind_options (o : list (string * JValue)) : Prop :=
  jget (JObj o) "type" = Some (JStr "none") \/ exists s, jget (JObj o) "o" = Some (JStr s) /\ str_contains "bind" s = true.

(** The mounts the policy does not look at: a long bind whose source begins with
    none of the three characters, which it takes for the name of a volume, and
    the device of a volume that is neither of type none nor has a bind option. *)
Inductive unseen_mount (doc : JValue) (path : string) : Prop :=
| unseen_relative name svc vols o :
    service doc name svc -> jget svc "volumes" = Some (JArr vols) -> JObj o ∈ vols ->
    jget (JObj o) "type" = Some (JStr "bind") -> jget (JObj o) "source" = Some (JStr path) -> ~ host_path path -> unseen_mount doc path
| unseen_device vs name v o :
    jget doc "volumes" = Some (JObj vs) -> (name, v) ∈ vs -> jget v "driver_opts" = Some (JObj o) ->
    jget (JObj o) "device" = Some (JStr path) -> ~ bind_options o -> unseen_mount doc path.

(** The capability [x], with or without the prefix, in any case. *)
Definition cap_spelled (c x : string) : Prop := to_ascii_uppercase c = x \/ to_ascii_uppercase c = "CAP_" +:+ x.

Definition despaced (s : string) : string := of_bytes (List.filter (fun c => negb (bool_decide (c = " "%char))) (to_bytes s)).

(** What Compose takes for true. *)
Definition truthy (v : JValue) : Prop :=
  v = JBool true \/ exists s, v = JStr s /\ to_ascii_lowercase s ∈ ["true"; "t"; "1"; "y"; "yes"; "on"].

(** A file an entry names: as a text, in a list of entries, or, with [long], as
    the path of an object. *)
Inductive names_file (long : bool) : JValue -> string -> Prop :=
| names_text s : long = false -> names_file long (JStr s) s
| names_in l v s : v ∈ l -> names_file long v s -> names_file long (JArr l) s
| names_path o s : long = true -> jget (JObj o) "path" = Some (JStr s) -> names_file long (JObj o) s.

Definition outside_path (s : string) : Prop := starts_with "/" s = true \/ starts_with "~" s = true \/ str_contains ".." s = true.

Definition FILE_FIELDS : list string := ["env_file"; "label_file"].
Definition SWITCHES : list string := ["privileged"; "use_api_socket"].

Inductive elevated (svc : JValue) : Prop :=
| el_switch f v : f ∈ SWITCHES -> jget svc f = Some v -> truthy v -> elevated svc
| el_namespace f v : f ∈ NAMESPACE_FIELDS -> jget svc f = Some (JStr v) ->
    to_ascii_lowercase v = "host" \/ starts_with "host:" (to_ascii_lowercase v) = true -> elevated svc
| el_shared v : jget svc "ipc" = Some (JStr v) -> to_ascii_lowercase v = "shareable" -> elevated svc
| el_cap caps c x : jget svc "cap_add" = Some (JArr caps) -> JStr c ∈ caps -> x ∈ FORBIDDEN_CAPS -> cap_spelled c x -> elevated svc
| el_option opts o : jget svc "security_opt" = Some (JArr opts) -> JStr o ∈ opts ->
    to_ascii_lowercase (despaced o) ∈ FORBIDDEN_SECURITY_OPTS -> elevated svc
| el_devices d ds : jget svc "devices" = Some (JArr (d :: ds)) -> elevated svc
| el_rules v : jget svc "device_cgroup_rules" = Some v -> elevated svc
| el_file f v long s : f ∈ FILE_FIELDS -> jget svc f = Some v -> names_file long v s -> outside_path s -> elevated svc
| el_import f v : f ∈ ["extends"; "volumes_from"] -> jget svc f = Some v -> elevated svc.

(** What the policy does not recognise: a switch written as a text, a capability
    whose prefix is not in capitals, and a file named in the long form. *)
Inductive unseen_privilege (svc : JValue) : Prop :=
| unseen_switch f s : f ∈ SWITCHES -> jget svc f = Some (JStr s) -> unseen_privilege svc
| unseen_prefix caps c : jget svc "cap_add" = Some (JArr caps) -> JStr c ∈ caps ->
    starts_with "CAP_" c = false -> starts_with "CAP_" (to_ascii_uppercase c) = true -> unseen_privilege svc
| unseen_file f v s : f ∈ FILE_FIELDS -> jget svc f = Some v -> names_file true v s -> unseen_privilege svc.

(** ** Expansion keeps what was checked *)

Section expansion.
Context (σ : string -> string) (Hσ : interpolation σ).

Lemma expand_plain s : dollar s = false -> σ s = s.
Proof. intros H. rewrite <- (string_app_nil s) at 1. rewrite (in_prefix σ Hσ) by done. by rewrite (in_empty σ Hσ), string_app_nil. Qed.

Lemma jget_expand v k : jget (expand σ v) k = expand σ <$> jget v k.
Proof.
  destruct v as [| | | | |l]; try done. cbn. induction l as [|[k' x] l IH]; [done|]. cbn. destruct (String.eqb k' k); [done|exact IH].
Qed.

Lemma expand_str v s : expand σ v = JStr s -> exists s0, v = JStr s0 /\ σ s0 = s.
Proof. destruct v; try done. intros [= <-]. eauto. Qed.
Lemma expand_arr v l : expand σ v = JArr l -> exists l0, v = JArr l0 /\ expand σ <$> l0 = l.
Proof. destruct v; try done. intros [= <-]. eauto. Qed.
Lemma expand_obj v l : expand σ v = JObj l -> exists l0, v = JObj l0 /\ (fun kv => (kv.1, expand σ kv.2)) <$> l0 = l.
Proof. destruct v; try done. intros [= <-]. eauto. Qed.
Lemma expand_bool v b : expand σ v = JBool b -> v = JBool b.
Proof. by destruct v. Qed.

Lemma jget_str v k s : jget (expand σ v) k = Some (JStr s) -> exists s0, jget v k = Some (JStr s0) /\ σ s0 = s.
Proof. rewrite jget_expand. intros (x & Hx & (s0 & -> & ?)%eq_sym%expand_str)%fmap_Some. eauto. Qed.
Lemma jget_arr v k l : jget (expand σ v) k = Some (JArr l) -> exists l0, jget v k = Some (JArr l0) /\ expand σ <$> l0 = l.
Proof. rewrite jget_expand. intros (x & Hx & (s0 & -> & ?)%eq_sym%expand_arr)%fmap_Some. eauto. Qed.
Lemma jget_obj v k l : jget (expand σ v) k = Some (JObj l) -> exists l0, jget v k = Some (JObj l0) /\ (fun kv => (kv.1, expand σ kv.2)) <$> l0 = l.
Proof. rewrite jget_expand. intros (x & Hx & (s0 & -> & ?)%eq_sym%expand_obj)%fmap_Some. eauto. Qed.
Lemma jget_bool v k b : jget (expand σ v) k = Some (JBool b) -> jget v k = Some (JBool b).
Proof. rewrite jget_expand. intros (x & Hx & ->%eq_sym%expand_bool)%fmap_Some. done. Qed.
Lemma jget_any v k x : jget (expand σ v) k = Some x -> is_some (jget v k) = true.
Proof. rewrite jget_expand. by destruct (jget v k). Qed.

Lemma in_expanded (l : list JValue) s : JStr s ∈ expand σ <$> l -> exists s0, JStr s0 ∈ l /\ σ s0 = s.
Proof. intros (x & (s0 & -> & ?)%eq_sym%expand_str & Hx)%list_elem_of_fmap. eauto. Qed.

Lemma in_expanded_obj (l : list JValue) o : JObj o ∈ expand σ <$> l -> exists o0, JObj o0 ∈ l /\ JObj o = expand σ (JObj o0).
Proof. intros (x & Hx & Hin)%list_elem_of_fmap. pose proof Hx as Hx'. apply eq_sym, expand_obj in Hx' as (o0 & -> & _). eauto. Qed.

Lemma service_expand doc name svc : service (expand σ doc) name svc -> exists svc0, service doc name svc0 /\ svc = expand σ svc0.
Proof.
  intros (l & (l0 & Hl & <-)%jget_obj & ([n x] & [= -> ->] & Hx)%list_elem_of_fmap). exists x. split; [by exists l0|done].
Qed.

End expansion.

Lemma refuse_ok b msg : refuse_if b msg = Ok tt -> b = false.
Proof. by destruct b. Qed.

Lemma if_some_ok {A} (o : option A) f a : if_some o f = Ok tt -> o = Some a -> f a = Ok tt.
Proof. by intros H ->. Qed.

Lemma upper_app a b : to_ascii_uppercase (a +:+ b) = to_ascii_uppercase a +:+ to_ascii_uppercase b.
Proof. apply to_bytes_inj. unfold to_ascii_uppercase. by rewrite to_of_bytes, !to_bytes_app, !to_of_bytes, fmap_app. Qed.

(** No forbidden capability begins like the prefix. *)
Lemma cap_bare c x : x ∈ FORBIDDEN_CAPS -> cap_spelled c x ->
  to_ascii_uppercase (default c (strip_prefix "CAP_" c)) = x \/
  (starts_with "CAP_" c = false /\ starts_with "CAP_" (to_ascii_uppercase c) = true).
Proof.
  intros Hx Hc. destruct (strip_prefix "CAP_" c) as [r|] eqn:E.
  - left. apply strip_prefix_Some in E as ->. unfold cap_spelled in Hc. rewrite upper_app in Hc. change (to_ascii_uppercase "CAP_") with "CAP_" in Hc.
    destruct Hc as [Hc|Hc]; [|cbn; by apply (inj (String.append "CAP_")) in Hc]. exfalso. rewrite <- Hc in Hx.
    assert (forallb (fun x => negb (starts_with "CAP_" x)) FORBIDDEN_CAPS = true) as Hall by (vm_compute; reflexivity).
    rewrite forallb_forall in Hall. apply list_elem_of_In, Hall, negb_true_iff in Hx.
    assert (starts_with "CAP_" ("CAP_" +:+ to_ascii_uppercase r) = true); [|congruence]. apply starts_with_spec. by eexists.
  - destruct Hc as [Hc|Hc]; [by left|right]. split; [|apply starts_with_spec; by exists x].
    destruct (starts_with "CAP_" c) eqn:Es; [|done]. apply starts_with_spec in Es as [r ->]. by rewrite strip_prefix_app in E.
Qed.

Lemma lower_ignore s t : to_ascii_lowercase s = t -> to_ascii_lowercase t = t -> eq_ignore_ascii_case s t = true.
Proof. intros H1 H2. unfold eq_ignore_ascii_case. by rewrite H1, H2, String.eqb_refl. Qed.

Section sandbox.
Context (σ : string -> string) (Hσ : interpolation σ).

(** A file named outside the long form is seen. *)
Lemma file_seen v s : value_has_unsafe_host_reference v = false -> names_file false (expand σ v) s -> ~ outside_path s.
Proof.
  intros Hv Hn. remember (expand σ v) as w eqn:Ew. revert v Hv Ew. induction Hn as [s _|l w s Hw Hn IH|o s Hl Hp]; intros v Hv Ew; [| |done].
  - apply eq_sym, expand_str in Ew as (s0 & -> & Hs). cbn in Hv. rewrite !orb_false_iff in Hv. destruct Hv as [[[H1 H2] Hd] H3].
    rewrite (expand_plain σ Hσ) in Hs by done. subst s0. intros [H|[H|H]]; congruence.
  - apply eq_sym, expand_arr in Ew as (l0 & -> & <-). apply list_elem_of_fmap in Hw as (v & -> & Hin). apply (IH v); [|done].
    cbn in Hv. rewrite <- not_true_iff_false in Hv |- *. intros H. apply Hv, existsb_exists. exists v. by rewrite <- list_elem_of_In.
Qed.

Lemma truthy_seen v : truthy (expand σ v) -> switched_on v = true \/ exists s, expand σ v = JStr s.
Proof. intros [H|(s & H & _)]; [left; by apply expand_bool in H as ->|eauto]. Qed.

Lemma sandbox_ok name svc : check_sandbox name svc = Ok tt -> elevated (expand σ svc) ->
  unseen_privilege (expand σ svc) \/ exists f, f ∈ ["extends"; "volumes_from"] /\ is_some (jget svc f) = true.
Proof.
  unfold check_sandbox. intros H El. repeat apply result_bind_ok in H as ([] & ? & H).
  repeat match goal with K : refuse_if _ _ = Ok tt |- _ => apply refuse_ok in K end.
  destruct El as [f v Hf E Hv|f v Hf E Hv|v E Hv|caps c x E Hc Hx Hcx|opts o E Ho Hopt|d ds E|v E|f v long t Hf E Hn Hout|f v Hf E].
  - left. pose proof E as E'. rewrite jget_expand in E'. apply fmap_Some in E' as (v0 & E0 & ->).
    apply truthy_seen in Hv as [Hv|[t Ht]]; [|rewrite Ht in E; by eapply unseen_switch].
    exfalso. apply elem_of_cons in Hf as [->|[->|?%elem_of_nil]%elem_of_cons]; [| |done]; rewrite E0 in *; cbn in *; congruence.
  - apply jget_str in E as (v0 & E & <-). rewrite try_each_spec in H1. specialize (H1 f Hf).
    rewrite E in H1. cbn [mbind option_bind jarr jstr if_some] in H1. apply refuse_ok in H1. rewrite !orb_false_iff in H1. destruct H1 as [[Hd Hh] Hs].
    rewrite (expand_plain σ Hσ) in Hv by done. destruct Hv as [Hv|Hv]; [by rewrite Hv in Hh|congruence].
  - apply jget_str in E as (v0 & E & <-). exfalso. rewrite E in *. cbn [mbind option_bind jarr jstr if_some] in H2. apply refuse_ok in H2.
    rewrite try_each_spec in H1. specialize (H1 "ipc" ltac:(vm_compute; set_solver)). rewrite E in H1. cbn [mbind option_bind jarr jstr if_some] in H1. apply refuse_ok in H1.
    rewrite !orb_false_iff in H1. destruct H1 as [[Hd _] _]. rewrite (expand_plain σ Hσ) in Hv by done. rewrite (lower_ignore _ "shareable") in H2; done.
  - left. pose proof E as E'. pose proof Hc as Hc'. apply jget_arr in E as (caps0 & E & <-). apply in_expanded in Hc as (c0 & Hc & <-). rewrite E in H3. cbn [mbind option_bind jarr jstr if_some] in H3.
    rewrite try_each_spec in H3. specialize (H3 _ Hc). cbn [mbind option_bind jarr jstr if_some] in H3. apply refuse_ok in H3. rewrite orb_false_iff in H3. destruct H3 as [Hd Hb].
    rewrite (expand_plain σ Hσ) in Hcx, Hc' by done. destruct (cap_bare c0 x Hx Hcx) as [Hcb|[? ?]]; [|by eapply unseen_prefix].
    exfalso. rewrite Hcb in Hb. rewrite <- not_true_iff_false, one_of_spec in Hb. done.
  - exfalso. apply jget_arr in E as (opts0 & E & <-). apply in_expanded in Ho as (o0 & Ho & <-). rewrite E in H4. cbn [mbind option_bind jarr jstr if_some] in H4.
    rewrite try_each_spec in H4. specialize (H4 _ Ho). cbn [mbind option_bind jarr jstr if_some] in H4. apply refuse_ok in H4. rewrite orb_false_iff in H4. destruct H4 as [Hd Hb].
    rewrite (expand_plain σ Hσ) in Hopt by done. rewrite <- not_true_iff_false, one_of_spec in Hb. done.
  - exfalso. apply jget_arr in E as ([|d0 ds0] & E & Eds); [done|]. rewrite E in H5. done.
  - exfalso. apply jget_any in E. congruence.
  - left. destruct long; [by eapply unseen_file|]. exfalso. rewrite jget_expand in E. apply fmap_Some in E as (v0 & E & ->).
    assert (value_has_unsafe_host_reference v0 = false) as Hsafe; [|by eapply file_seen].
    apply elem_of_cons in Hf as [->|[->|?%elem_of_nil]%elem_of_cons]; [| |done]; rewrite E in *; done.
  - right. apply jget_any in E. eauto.
Qed.

End sandbox.

(** ** Where the mounts lead *)

(** [q] is at or below where [root] leads. *)
Definition under (fs : HostFs) (root q : string) : Prop := components (projected_canonical_path fs root) `prefix_of` components q.

(** The directories are where the appliance has them: the engine's state is no
    link, the app's directory is in it, and the other two are apart from it. *)
Record layout (fs : HostFs) (app : string) : Prop := {
  lay_state : projected_canonical_path fs ENGINE_STATE = ENGINE_STATE;
  lay_own : under fs ENGINE_STATE (projected_canonical_path fs (allowed_app_dir app));
  lay_apart : forall root, root ∈ ["/appdata"; "/fs"] ->
    ~ under fs ENGINE_STATE (projected_canonical_path fs root) /\ ~ under fs root ENGINE_STATE;
}.

Definition lands (fs : HostFs) (app path : string) : string := projected_compose_path fs path (allowed_app_dir app).

(** Written as a path in the app's own directory. *)
Definition own_text (app path : string) : Prop := path = allowed_app_dir app \/ starts_with (allowed_app_dir app +:+ "/") path = true.

Definition confined (fs : HostFs) (app : string) (allow_unsafe : bool) (path : string) : Prop :=
  clean (lands fs app path) /\
  (allow_unsafe = true /\ own_text app path \/
   components (lands fs app path) <> [RootDir] /\ (under fs ENGINE_STATE (lands fs app path) -> under fs (allowed_app_dir app) (lands fs app path))) /\
  (allow_unsafe = false -> exists root, root ∈ [allowed_app_dir app; "/appdata"; "/fs"] /\ under fs root (lands fs app path)).

Lemma app_name_plain app : validate_app_name app = Ok tt -> plain app.
Proof.
  unfold validate_app_name. destruct (_ || _); [done|]. destruct (chars app) as [|c rest] eqn:E; [done|].
  destruct (_ && _) eqn:Hc; [|done]. intros _. apply andb_true_iff in Hc as [Hc Hr].
  assert (all_chars app_name_char app = true) as Hall.
  { unfold all_chars. rewrite E. cbn. rewrite Hr, andb_true_r. destruct c as [|c []]; try done. cbn in *. unfold app_name_char. by rewrite Hc. }
  apply all_chars_class in Hall. split.
  - unfold normal, component_of. destruct (String.eqb app "" || String.eqb app ".") eqn:E1.
    + apply orb_true_iff in E1 as [->%String.eqb_eq| ->%String.eqb_eq]; [done|]. cbn in E. by injection E as <- <-.
    + destruct (String.eqb app "..") eqn:E2; [|done]. apply String.eqb_eq in E2 as ->. cbn in E. by injection E as <- <-.
  - eapply class_no_char; [exact Hall|done].
Qed.

Lemma own_dir app : plain app -> allowed_app_dir app = absolute ["var"; "lib"; "nasty"; "apps"; app].
Proof. intros _. unfold allowed_app_dir, absolute, str_join. cbn. by rewrite of_to_bytes. Qed.

Lemma state_names : ENGINE_STATE = absolute ["var"; "lib"; "nasty"].
Proof. reflexivity. Qed.

Lemma absolute_clean names : Forall plain names -> clean (absolute names).
Proof. intros Hn. split; [by apply starts_with_spec; eexists|]. rewrite absolute_components by done. set_solver. Qed.

Lemma own_clean app : plain app -> clean (allowed_app_dir app).
Proof. intros H. rewrite own_dir by done. apply absolute_clean. repeat constructor; try done; try (by apply no_char_dec). all: apply H. Qed.

(** A path in normal form below the engine's state is spelled like one. *)
Lemma below_state names : Forall plain names -> ENGINE_STATE = absolute ["var"; "lib"; "nasty"] ->
  components ENGINE_STATE `prefix_of` components (absolute names) ->
  String.eqb (absolute names) "/var/lib/nasty" || starts_with "/var/lib/nasty/" (absolute names) = true.
Proof.
  intros Hn _ [k Hk]. rewrite absolute_components in Hk by done. change (components ENGINE_STATE) with (RootDir :: (Normal <$> ["var"; "lib"; "nasty"])) in Hk.
  injection Hk as Hk. destruct names as [|a [|b [|c names]]]; try done. injection Hk as -> -> -> Hk. destruct names as [|d names]; [reflexivity|].
  apply orb_true_iff. right. apply starts_with_spec. exists (str_join "/" (d :: names)). unfold absolute. apply to_bytes_inj. rewrite !to_bytes_app.
  unfold str_join. rewrite !to_of_bytes. reflexivity.
Qed.

Section confinement.
Context (fs : HostFs) (Hfs : canonical_paths fs) (app : string) (Happ : plain app) (Hlay : layout fs app).

Lemma lands_form path : ParentDir ∉ components path -> exists names, Forall plain names /\ lands fs app path = absolute names.
Proof.
  intros Hp. unfold lands, projected_compose_path. destruct (is_absolute path) eqn:Ha; apply projected_form; try done.
  destruct (own_clean app Happ) as [Hoa Hop]. split; [by apply push_absolute|]. rewrite components_push by done.
  intros [H|H]%elem_of_app; [done|]. apply Hp. unfold components. apply elem_of_app. by right.
Qed.

Lemma state_prefix_root q : under fs ENGINE_STATE q -> components q <> [RootDir].
Proof. unfold under. rewrite (lay_state fs app Hlay). change (components ENGINE_STATE) with [RootDir; Normal "var"; Normal "lib"; Normal "nasty"]. intros [k ->]. done. Qed.

(** The own directory is the only way into the engine's state. *)
Lemma roots_apart root q : root ∈ [allowed_app_dir app; "/appdata"; "/fs"] -> under fs root q -> under fs ENGINE_STATE q -> under fs (allowed_app_dir app) q.
Proof.
  intros [->|Hr]%elem_of_cons Hq Hs; [done|]. exfalso. destruct (lay_apart fs app Hlay root Hr) as [H1 H2]. unfold under in *.
  rewrite (lay_state fs app Hlay) in *. destruct (prefix_weak_total _ _ _ Hq Hs) as [H|H]; [by apply H2|by apply H1].
Qed.

Lemma strict_root source : operator_bind_allowed fs source (allowed_app_dir app) = true ->
  exists root, root ∈ [allowed_app_dir app; "/appdata"; "/fs"] /\ under fs root (lands fs app source) /\ components (projected_canonical_path fs root) <> [RootDir].
Proof.
  unfold operator_bind_allowed. destruct (_ && _); [done|]. intros (root & Hr & Hu)%existsb_exists. apply list_elem_of_In in Hr.
  unfold under_root in Hu. apply andb_true_iff in Hu as [Hne Hp]. exists root. split_and!; [done|by apply bool_decide_eq_true in Hp|].
  apply negb_true_iff, bool_decide_eq_false in Hne. done.
Qed.

Lemma under_not_root root q names : Forall plain names -> projected_canonical_path fs root = absolute names -> under fs root q ->
  components (projected_canonical_path fs root) <> [RootDir] -> components q <> [RootDir].
Proof.
  unfold under. intros Hn -> [k Hk]. rewrite absolute_components in * by done. intros H Hq. apply H. rewrite Hq in Hk. by destruct names.
Qed.

Lemma root_clean root : root ∈ [allowed_app_dir app; "/appdata"; "/fs"] -> clean root.
Proof.
  intros [->|[->|[->|?%elem_of_nil]%elem_of_cons]%elem_of_cons]%elem_of_cons; [by apply own_clean| | |done];
    (split; [done|]; apply no_parent_dir; vm_compute; reflexivity).
Qed.

Lemma checked_confined prefix source allow_unsafe :
  check_protected fs prefix source (allowed_app_dir app) = Ok tt ->
  check_allowed fs prefix source (allowed_app_dir app) allow_unsafe = Ok tt -> confined fs app allow_unsafe source.
Proof.
  unfold check_protected, check_allowed. intros Hp Ha. apply refuse_ok in Ha. fold (lands fs app source) in Hp.
  assert (ParentDir ∉ components source) as Hc.
  { apply no_parent_dir. destruct (has_parent_dir source) eqn:E; [|done]. unfold always_forbidden_bind in Hp at 1. by rewrite E in Hp. }
  destruct (lands_form source Hc) as (names & Hn & El). split; [rewrite El; by apply absolute_clean|].
  assert (allow_unsafe = false -> exists root, root ∈ [allowed_app_dir app; "/appdata"; "/fs"] /\ under fs root (lands fs app source) /\
            components (projected_canonical_path fs root) <> [RootDir]) as Hstrict.
  { intros ->. cbn in Ha. apply negb_false_iff in Ha. by apply strict_root. }
  split; [|intros Hs; destruct (Hstrict Hs) as (root & ? & ? & _); eauto].
  destruct allow_unsafe.
  2:{ right. destruct (Hstrict eq_refl) as (root & Hr & Hu & Hne). destruct (projected_form fs Hfs root (root_clean root Hr)) as (rn & Hrn & Er).
      split; [by eapply under_not_root|]. intros Hs. by eapply roots_apart. }
  destruct (starts_with (allowed_app_dir app +:+ "/") source || String.eqb source (allowed_app_dir app)) eqn:Eo.
  { left. split; [done|]. apply orb_true_iff in Eo as [?| ->%String.eqb_eq]; [by right|by left]. }
  right. cbn [orb] in Hp. destruct (path_starts_with (lands fs app source) _) eqn:Ew.
  { apply starts_with_prefix in Ew. fold (under fs (allowed_app_dir app) (lands fs app source)) in Ew. split; [|done].
    apply state_prefix_root. unfold under in *. etrans; [apply (lay_own fs app Hlay)|exact Ew]. }
  destruct (always_forbidden_bind fs source) as [[]|] eqn:E1; [done|done|].
  destruct (always_forbidden_bind fs (lands fs app source)) as [[]|] eqn:E2; [done|done|]. clear E1.
  unfold always_forbidden_bind in E2. destruct (has_parent_dir _); [done|]. destruct (String.eqb (lands fs app source) "/") eqn:Er; [done|].
  destruct (_ || _ || _) eqn:Es; [done|]. apply orb_false_iff in Es as [Es _]. rewrite El in *. split.
  - intros H. rewrite absolute_components in H by done. destruct names; [|done]. done.
  - unfold under. rewrite (lay_state fs app Hlay). intros H. apply (below_state names Hn state_names) in H. congruence.
Qed.

End confinement.

Lemma split_head c s : exists h, head (str_split c s) = Some h /\ no_char c h /\ (s = h \/ exists r, s = h +:+ String c r).
Proof.
  pose proof (split_join_str c s) as Hj. pose proof (split_no_sep c s) as Hn. destruct (str_split c s) as [|h t] eqn:E.
  { unfold str_split in E. by apply fmap_nil_inv, split_bytes_nonempty in E. }
  exists h. apply Forall_cons in Hn as [Hh _]. split_and!; [done|done|]. destruct t as [|x t].
  - left. rewrite <- Hj. unfold str_join. cbn. by rewrite of_to_bytes.
  - right. exists (str_join (String c "") (x :: t)). rewrite <- Hj. apply to_bytes_inj. rewrite to_bytes_app. unfold str_join.
    rewrite to_of_bytes. cbn [fmap list_fmap join_bytes]. f_equal. cbn. f_equal. by rewrite to_of_bytes.
Qed.

Section validated.
Context (fs : HostFs) (σ : string -> string) (Hσ : interpolation σ) (dir : string) (allow_unsafe : bool).

Definition checked (path : string) : Prop :=
  exists prefix, check_protected fs prefix path dir = Ok tt /\ check_allowed fs prefix path dir allow_unsafe = Ok tt.

(** The checks on a source that is a host path. *)
Lemma source_checked name vol source : volume_source name vol = Ok (Some source) -> check_volume fs name dir allow_unsafe vol = Ok tt ->
  dollar source = false /\ (host_path source -> checked source).
Proof.
  intros Hs. unfold check_volume. rewrite Hs. cbn [result_bind]. destruct (String.eqb source "") eqn:E0.
  { apply String.eqb_eq in E0 as ->. intros _. split; [done|]. intros [H|[H|H]]; done. }
  destruct (dollar source); [done|]. destruct (_ && _ && _) eqn:Eh.
  { intros _. split; [done|]. rewrite !andb_true_iff, !negb_true_iff in Eh. intros [H|[H|H]]; destruct Eh as [[? ?] ?]; congruence. }
  intros H. apply result_bind_ok in H as ([] & H1 & H). apply result_bind_ok in H as ([] & _ & H2). split; [done|]. intros _. by eexists.
Qed.

Lemma short_checked name s path : check_volume fs name dir allow_unsafe (JStr s) = Ok tt -> head (str_split ":" (σ s)) = Some path -> host_path path -> checked path.
Proof.
  intros Hc Hp. destruct (split_head ":" s) as (h & Hh & Hn & Hs). pose proof (source_checked name (JStr s) h) as H.
  cbn [volume_source] in H. rewrite Hh in H. specialize (H eq_refl Hc) as [Hd H]. assert (path = h) as ->; [|exact H].
  destruct Hs as [->|[r ->]].
  - rewrite (expand_plain σ Hσ) in Hp by done. congruence.
  - rewrite (in_prefix σ Hσ) in Hp by done. change (String ":" r) with (":" +:+ r) in Hp. rewrite (in_prefix σ Hσ) in Hp by done.
    change (":" +:+ σ r) with (String ":" (σ r)) in Hp. rewrite str_split_app_sep in Hp. unfold str_split at 1 in Hp.
    rewrite split_bytes_no_sep_id in Hp by done. cbn in Hp. rewrite of_to_bytes in Hp. congruence.
Qed.

Lemma long_checked name o path : check_volume fs name dir allow_unsafe (JObj o) = Ok tt ->
  jget (expand σ (JObj o)) "type" = Some (JStr "bind") -> jget (expand σ (JObj o)) "source" = Some (JStr path) -> host_path path -> checked path.
Proof.
  intros Hc (t & Ht & Et)%jget_str (p & Hp & Ep)%jget_str. assert (dollar t = false) as Hd.
  { destruct (dollar t) eqn:E; [|done]. unfold check_volume, volume_source in Hc. rewrite Ht in Hc. cbn [mbind option_bind jstr from_option id] in Hc. by rewrite E in Hc. }
  rewrite (expand_plain σ Hσ) in Et by done. subst t. destruct (source_checked name (JObj o) p) as [Hdp H]; [|done|].
  - unfold volume_source. rewrite Ht, Hp. reflexivity.
  - rewrite (expand_plain σ Hσ) in Ep by done. by subst.
Qed.

Lemma driver_checked name v o path : check_top_volume fs dir allow_unsafe (name, v) = Ok tt -> jget v "driver_opts" = Some (JObj o) ->
  (jget (expand σ (JObj o)) "type" = Some (JStr "none") \/ exists s, jget (expand σ (JObj o)) "o" = Some (JStr s) /\ str_contains "bind" s = true) ->
  jget (expand σ (JObj o)) "device" = Some (JStr path) -> path <> "" -> checked path.
Proof.
  intros Hc Ho Hb (p & Hp & Ep)%jget_str Hne. unfold check_top_volume in Hc. rewrite Ho in Hc. cbn [mbind option_bind jobj if_some] in Hc.
  destruct (existsb _ _) eqn:Ei in Hc; [done|]. rewrite <- not_true_iff_false, existsb_exists in Ei.
  assert (forall k s, In k ["type"; "o"; "device"] -> jget (JObj o) k = Some (JStr s) -> σ s = s) as Hkeep.
  { intros k s Hk Hs. apply (expand_plain σ Hσ). destruct (dollar s) eqn:E; [|done]. exfalso. apply Ei. exists k. split; [done|]. by rewrite Hs. }
  rewrite (Hkeep "device" p) in Ep by (done || cbn; tauto). subst p.
  destruct (negb _) eqn:En in Hc.
  { exfalso. apply negb_true_iff, orb_false_iff in En as [En1 En2]. destruct Hb as [(t & Ht & Et)%jget_str|(s & (t & Ht & Et)%jget_str & Hs)].
    - rewrite (Hkeep "type" t) in Et by (done || cbn; tauto). subst t. rewrite Ht in En1. by apply bool_decide_eq_false in En1.
    - rewrite (Hkeep "o" t) in Et by (done || cbn; tauto). subst t. rewrite Ht in En2. cbn [mbind option_bind jstr from_option] in En2. congruence. }
  rewrite Hp in Hc. cbn [mbind option_bind jstr from_option id] in Hc. destruct (String.eqb path "") eqn:E0; [by apply String.eqb_eq in E0|].
  apply result_bind_ok in Hc as ([] & H1 & H2). by eexists.
Qed.

Lemma service_volume name svc vols vol : check_service fs dir allow_unsafe (name, svc) = Ok tt -> jget svc "volumes" = Some (JArr vols) -> vol ∈ vols ->
  check_volume fs name dir allow_unsafe vol = Ok tt.
Proof.
  unfold check_service. intros H Hv Hin. repeat apply result_bind_ok in H as ([] & _ & H). rewrite Hv in H.
  cbn [mbind option_bind jarr if_some] in H. rewrite try_each_spec in H. auto.
Qed.

End validated.

Lemma host_path_dec p : host_path p \/ ~ host_path p.
Proof. unfold host_path. destruct (starts_with "/" p), (starts_with "." p), (starts_with "~" p); naive_solver. Qed.

Lemma bind_options_dec o : bind_options o \/ ~ bind_options o.
Proof.
  set (b := match jget (JObj o) "type" with Some (JStr t) => String.eqb t "none" | _ => false end ||
            match jget (JObj o) "o" with Some (JStr x) => str_contains "bind" x | _ => false end).
  assert (bind_options o <-> b = true) as ->; [|destruct b; naive_solver]. unfold bind_options, b. rewrite orb_true_iff. split.
  - intros [->|(x & -> & Hx)]; [by left|by right].
  - intros [H|H]; [left|right]; repeat case_match; try done; [by apply String.eqb_eq in H as ->|eauto].
Qed.

Section accepted.
Context (fs : HostFs) (σ : string -> string) (Hσ : interpolation σ) (parsed : JValue) (app : string) (allow_unsafe : bool).
Context (Hok : validate_compose fs (Ok parsed) app allow_unsafe = Ok tt).

Lemma accepted_parts :
  (forall name svc, service parsed name svc -> check_service fs (allowed_app_dir app) allow_unsafe (name, svc) = Ok tt) /\
  (forall vs entry, jget parsed "volumes" = Some (JObj vs) -> entry ∈ vs -> check_top_volume fs (allowed_app_dir app) allow_unsafe entry = Ok tt).
Proof.
  revert Hok. unfold validate_compose. destruct (jget parsed "services" ≫= jobj) as [services|] eqn:Es; [|done]. intros H.
  apply result_bind_ok in H as ([] & Hsv & H). apply result_bind_ok in H as ([] & Htop & _). rewrite try_each_spec in Hsv. split.
  - intros name svc (l & Hl & Hin). rewrite Hl in Es. injection Es as <-. by apply Hsv.
  - intros vs entry Hvs Hin. rewrite Hvs in Htop. cbn [mbind option_bind jobj if_some] in Htop. rewrite try_each_spec in Htop. by apply Htop.
Qed.

(** Each mount is checked, or is one of those not looked at. *)
Lemma mount_checked path : mounts (expand σ parsed) path -> checked fs (allowed_app_dir app) allow_unsafe path \/ unseen_mount (expand σ parsed) path.
Proof.
  destruct accepted_parts as [Hsvc Htop].
  intros [name svc vols s Hs Hv Hin Hh Hp|name svc vols o Hs Hv Hin Ht Hsrc|vs name v o Hvs Hin Ho Hd Hne].
  - left. apply service_expand in Hs as (svc0 & Hs & ->). apply jget_arr in Hv as (vols0 & Hv & <-). apply in_expanded in Hin as (s0 & Hin & <-).
    eapply short_checked; [done|eapply service_volume; by eauto|done..].
  - destruct (host_path_dec path) as [Hp|Hp]; [|by right; eapply unseen_relative]. left.
    apply service_expand in Hs as (svc0 & Hs & ->). apply jget_arr in Hv as (vols0 & Hv & <-). apply in_expanded_obj in Hin as (o0 & Hin & Eo). rewrite Eo in *.
    eapply long_checked; [done|eapply service_volume; by eauto|done..].
  - destruct (bind_options_dec o) as [Hb|Hb]; [|by right; eapply unseen_device]. left.
    apply jget_obj in Hvs as (vs0 & Hvs & <-). apply list_elem_of_fmap in Hin as ([n v0] & [= -> ->] & Hin). apply jget_obj in Ho as (o0 & Ho & Eo).
    assert (JObj o = expand σ (JObj o0)) as Eo' by (cbn; by rewrite Eo). unfold bind_options in Hb. rewrite Eo' in *.
    by eapply driver_checked; [|by apply (Htop _ _ Hvs Hin)|..].
Qed.
End accepted.


(** ** A host without links *)

Definition names_of (p : string) : list string := omap (fun c => match c with Normal n => Some n | _ => None end) (components p).

Definition linkless : HostFs :=
  mkHostFs (fun _ => true) (fun p => Some (absolute (names_of p))) (fun p => if String.eqb p "/fs" then Some 1%Z else Some 2%Z).

Lemma names_plain p : Forall plain (names_of p).
Proof.
  apply Forall_forall. intros n (c & Hc & Hn)%list_elem_of_omap. destruct c as [| | |m]; try done. injection Hn as ->.
  unfold components in Hc. apply elem_of_app in Hc as [Hc|Hc].
  { destruct (starts_with "/" p); [set_solver|]. destruct (str_split "/" p) as [|[] ?]; [set_solver| |]; repeat case_match; set_solver. }
  apply list_elem_of_omap in Hc as (x & Hx & E). assert (x = n) as ->.
  { unfold component_of in E. destruct (_ || _); [done|]. destruct (String.eqb x ".."); [done|]. by injection E. }
  split; [done|]. by eapply (Forall_forall (no_char "/")) in Hx; [|apply split_no_sep].
Qed.

Lemma linkless_ok : canonical_paths linkless.
Proof. split; [|done..]. intros p q [= <-]. exists (names_of p). split; [apply names_plain|done]. Qed.

Definition svc_doc (fields : list (string * JValue)) : JValue := JObj [("services", JObj [("web", JObj fields)])].

Definition demo_doc : JValue := svc_doc [("image", JStr "nginx"); ("volumes", JArr [JStr "/fs/tank/www:/srv"; JStr "./conf:/etc/nginx"])].

Lemma layout_linkless : layout linkless "web".
Proof.
  split; [reflexivity|by exists [Normal "apps"; Normal "web"]|].
  intros root [->|[->|?%elem_of_nil]%elem_of_cons]%elem_of_cons; [| |done]; split; intros [k Hk]; vm_compute in Hk; done.
Qed.


(** ** Files that pass *)

(** The long form may name a relative source without a leading dot; it is taken
    for a volume name, and its [..] are not seen. *)
Lemma relative_bind_unchecked :
  validate_compose linkless (Ok (svc_doc [("volumes", JArr [JObj [("type", JStr "bind"); ("source", JStr "data/../../../../../etc"); ("target", JStr "/mnt")]])])) "web" false = Ok tt /\
  has_parent_dir "data/../../../../../etc" = true.
Proof. split; vm_compute; reflexivity. Qed.

(** Compose takes the quoted word for the boolean. *)
Lemma quoted_privileged_unchecked : validate_compose linkless (Ok (svc_doc [("privileged", JStr "true")])) "web" false = Ok tt.
Proof. vm_compute; reflexivity. Qed.

(** Docker upper-cases capabilities before it looks for their prefix. *)
Lemma lowercase_prefix_unchecked : validate_compose linkless (Ok (svc_doc [("cap_add", JArr [JStr "cap_sys_admin"])])) "web" false = Ok tt.
Proof. vm_compute; reflexivity. Qed.

(** The long form of an environment file is not searched for absolute paths. *)
Lemma long_env_file_unchecked : validate_compose linkless (Ok (svc_doc [("env_file", JArr [JObj [("path", JStr "/etc/shadow")]])])) "web" false = Ok tt.
Proof. vm_compute; reflexivity. Qed.

(** The volume driver can mount more than directories. *)
Lemma driver_device_unchecked :
  validate_compose linkless (Ok (JObj [("services", JObj [("web", JObj [("volumes", JArr [JStr "disk:/mnt"])])]);
    ("volumes", JObj [("disk", JObj [("driver_opts", JObj [("type", JStr "ext4"); ("device", JStr "/dev/sda1")])])])])) "web" false = Ok tt.
Proof. vm_compute; reflexivity. Qed.

(** A link in the app's directory leads anywhere with the override. *)
Lemma own_link_unchecked :
  let fs := mkHostFs (fun _ => true) (fun p => Some (if String.eqb p "/var/lib/nasty/apps/web/link" then "/" else absolute (names_of p))) (fun _ => None) in
  let doc := svc_doc [("volumes", JArr [JStr "/var/lib/nasty/apps/web/link:/host"])] in
  validate_compose fs (Ok doc) "web" true = Ok tt /\ lands fs "web" "/var/lib/nasty/apps/web/link" = "/".
Proof. split; vm_compute; reflexivity. Qed.

(** The directory above the engine's state is not the engine's state. *)
Lemma state_parent_unchecked :
  validate_compose linkless (Ok (svc_doc [("volumes", JArr [JStr "/var/lib:/mnt"])])) "web" true = Ok tt /\
  validate_simple_volumes linkless "web" "/fs/tank/apps" [mkAppVolume "v" "/var/lib"] true = Ok tt.
Proof. split; vm_compute; reflexivity. Qed.

(** ** Volumes of simple apps *)

(** An accepted volume of a simple app is where the policy says: never the root,
    in the engine's state only in the app's own directory, and without the
    override in one of the three places. *)
Lemma simple_volumes_confined fs app base volumes allow_unsafe v :
  validate_simple_volumes fs app base volumes allow_unsafe = Ok tt -> v ∈ volumes -> av_host_path v <> "" ->
  let q := projected_canonical_path fs (av_host_path v) in
  let inside root := path_within fs q root = true in
  components q <> [RootDir] /\ (inside ENGINE_STATE -> inside (app_data_dir base app)) /\
  (allow_unsafe = false -> inside (app_data_dir base app) \/ inside APPDATA_LINK \/ inside "/fs").
Proof.
  unfold validate_simple_volumes. rewrite try_each_spec. intros H Hv Hne. specialize (H v Hv). unfold check_simple_volume in H.
  destruct (String.eqb (av_host_path v) "") eqn:E0; [by apply String.eqb_eq in E0|]. destruct (str_contains ".." _); [done|]. cbn zeta in H |- *.
  set (q := projected_canonical_path fs (av_host_path v)) in *. destruct (bool_decide (components q = components "/")) eqn:Er; [done|].
  apply bool_decide_eq_false in Er. split; [exact Er|]. destruct (path_within fs q (app_data_dir base app)) eqn:E1.
  { split; [done|]. intros _. by left. }
  rewrite andb_true_r in H. destruct (path_within fs q ENGINE_STATE) eqn:E2; [done|]. split; [done|]. intros ->. cbn [orb] in H.
  destruct (path_within fs q APPDATA_LINK) eqn:E3; [tauto|]. destruct (path_within fs q "/fs"); [tauto|done].
Qed.
