(* ===== verification/Deploy.v ===== *)
(** * Deploying a Compose app
    (nasty-engine/src/app_deploy.rs, nasty-apps/src/lib.rs)

    A deployment replaces the files of an app's project directory and the
    credentials in its sidecar under the protection of a journal: a file in the
    directory that holds what was there before.  The world is what one app has on
    disk and in Docker.  Every call may fail ([de_fault], numbered in the order
    they are made); a write that fails, or that is under way when the engine dies,
    leaves any content; a directory being removed has lost any of its files.  The
    world keeps every state passed through: those are the states in which the
    engine may die.  A serialized journal is kept as the value it is parsed to. *)

From Stdlib Require Import ZArith Lia Ascii String.
From stdpp Require Import base list gmap strings.
From S2P Require Import Prelude.
From S2P Require Import RustStr.
From S2P Require Import Text.
From S2P Require Import RustPath.
From S2P Require Import BlockDev.
From S2P Require Import AppPolicy.

Record ComposeDeploymentTransaction : Type := mkTransaction {
  previous_compose : option string;
  previous_env : option string;
  previous_meta : option string;
  previous_registry_credential_ids : list string;
  previous_images : list (string * string);
}.

Inductive Content : Type := Bytes (s : string) | Journal (t : ComposeDeploymentTransaction).

(** <name>.json: the credentials and the rest of the object. *)
Inductive Sidecar : Type := Broken (e : string) | Manifest (ids : list string) (rest : string).

Record Disk : Type := mkDisk {
  dk_dir : option (gmap string Content);
  dk_sidecar : option Sidecar;
}.

Record DeployWorld : Type := mkDeployWorld {
  dw_disk : Disk;
  dw_past : list Disk;
  dw_running : option (option Content * option Content);
  dw_tags : gmap string string;
  dw_calls : nat;
}.

Record DeployEnv : Type := mkDeployEnv {
  de_fault : nat -> option string;
  de_keep_fault : nat -> option string;
  de_torn : nat -> option string;
  de_left : nat -> string -> bool;
  de_text : ComposeDeploymentTransaction -> string;
  de_fs : HostFs;
  de_yaml : string -> result JValue string;
  de_name_free : result unit string;
  de_credentials : list string;
  de_containers : list (option string * option string);
  de_plan : result (list string * list string) string;
  de_bindings : result unit string;
  de_attempt : string;
  de_uuid : string;
}.

Record DeployRequest : Type := mkDeployRequest {
  dr_name : string;
  dr_compose_file : option string;
  dr_env_file : option string;
  dr_allow_unsafe : bool;
  dr_registry_credential_ids : option (list string);
}.

Definition COMPOSE_FILE : string := "docker-compose.yml".
Definition ENV_FILE : string := ".env".
Definition META_FILE : string := ".nasty-meta.json".
Definition COMPOSE_TRANSACTION_FILE : string := ".nasty-deployment-transaction.json".
Definition META_UNSAFE : string := "{" +:+ dq +:+ "allow_unsafe" +:+ dq +:+ ":true}".

Definition ENV_USER_MARKER : string := "# >>> NASty: user-provided .env >>>".

Definition render_env_file (app_name : string) (user_env : option string) : string :=
  ("COMPOSE_PROJECT_NAME=" +:+ app_name +:+ nl) +:+
  match user_env with
  | Some user => if String.eqb (trim user) "" then "" else ENV_USER_MARKER +:+ nl +:+ trim user +:+ nl
  | None => ""
  end.

(** Files that only a deployment under way needs. *)
Definition is_staging (name : string) : bool :=
  starts_with ".nasty-compose-" name || starts_with ".nasty-env-" name || starts_with ".nasty-deployment-transaction." name.

Abbreviation deploy A := (stm DeployWorld string A).

Section deploy.
Context (env : DeployEnv).

(** ** Calls *)

Definition put_disk (d : Disk) : deploy unit :=
  m_modify (fun w => mkDeployWorld d (d :: dw_past w) (dw_running w) (dw_tags w) (dw_calls w)).

Definition put_running (r : option (option Content * option Content)) : deploy unit :=
  m_modify (fun w => mkDeployWorld (dw_disk w) (dw_past w) r (dw_tags w) (dw_calls w)).

Definition put_tags (t : gmap string string) : deploy unit :=
  m_modify (fun w => mkDeployWorld (dw_disk w) (dw_past w) (dw_running w) t (dw_calls w)).

(** The number of the next call. *)
Definition next_number : deploy nat :=
  fun w => (mkDeployWorld (dw_disk w) (dw_past w) (dw_running w) (dw_tags w) (S (dw_calls w)), Ok (dw_calls w)).

(** A call that may fail and changes nothing here. *)
Definition attempt_call : deploy unit :=
  n <~ next_number ;;
  match de_fault env n with Some e => m_throw e | None => m_ret tt end.

Definition the_disk : deploy Disk := w <~ m_get ;; m_ret (dw_disk w).

Definition files (d : Disk) : gmap string Content := default ∅ (dk_dir d).

Definition with_files (d : Disk) (f : gmap string Content) : Disk := mkDisk (Some f) (dk_sidecar d).

Definition no_such_file : string := "No such file or directory (os error 2)".

Definition create_project_dir : deploy unit :=
  attempt_call ;;; d <~ the_disk ;; put_disk (with_files d (files d)).

(** [tokio::fs::write]: the file is truncated before it is filled, unless the call
    fails at once ([None]). *)
Definition write_file (name : string) (c : Content) : deploy unit :=
  n <~ next_number ;;
  d <~ the_disk ;;
  match dk_dir d with
  | None => m_throw no_such_file
  | Some f =>
      match de_torn env n with Some torn => put_disk (with_files d (<[name := Bytes torn]> f)) | None => m_ret tt end ;;;
      match de_fault env n with
      | Some e => m_throw e
      | None => put_disk (with_files d (<[name := c]> f))
      end
  end.

Definition rename_file (from to : string) : deploy unit :=
  attempt_call ;;;
  d <~ the_disk ;;
  match files d !! from with
  | None => m_throw no_such_file
  | Some c => put_disk (with_files d (<[to := c]> (delete from (files d))))
  end.

(** [remove_file] of one of the app's own files; a missing file is an error too. *)
Definition remove_own_file (name : string) : deploy unit :=
  n <~ next_number ;;
  d <~ the_disk ;;
  match de_keep_fault env n, files d !! name with
  | Some e, _ => m_throw e
  | None, None => m_throw no_such_file
  | None, Some _ => put_disk (with_files d (delete name (files d)))
  end.

Definition remove_other_file (name : string) : deploy unit :=
  attempt_call ;;;
  d <~ the_disk ;;
  match files d !! name with
  | None => m_throw no_such_file
  | Some _ => put_disk (with_files d (delete name (files d)))
  end.

Definition remove_project_dir : deploy unit :=
  n <~ next_number ;;
  d <~ the_disk ;;
  match dk_dir d with
  | None => m_throw no_such_file
  | Some f =>
      put_disk (with_files d (filter (fun kv => de_left env n kv.1 = true) f)) ;;;
      match de_fault env n with
      | Some e => m_throw e
      | None => put_disk (mkDisk None (dk_sidecar d))
      end
  end.

Definition read_optional (name : string) : deploy (option string) :=
  attempt_call ;;;
  d <~ the_disk ;;
  match files d !! name with
  | Some (Bytes s) => m_ret (Some s)
  | Some (Journal t) => m_ret (Some (de_text env t))
  | None => m_ret None
  end.

Definition file_exists (d : Disk) (name : string) : bool := is_some (files d !! name).

(** ** The sidecar *)

Definition load_registry_credential_ids_strict : deploy (list string) :=
  attempt_call ;;;
  d <~ the_disk ;;
  match dk_sidecar d with
  | None => m_ret []
  | Some (Manifest ids _) => m_ret ids
  | Some (Broken e) => m_throw e
  end.

(** A failed reading counts as no credentials. *)
Definition load_registry_credential_ids : deploy (list string) :=
  m_catch load_registry_credential_ids_strict (fun _ => m_ret []).

Fixpoint validate_ids (seen ids : list string) : result unit string :=
  match ids with
  | [] => Ok tt
  | id :: rest =>
      if one_of seen id then Err ("credential '" +:+ id +:+ "' was selected more than once")
      else if negb (one_of (de_credentials env) id) then Err ("credential '" +:+ id +:+ "' does not exist")
      else validate_ids (id :: seen) rest
  end.

Definition validate_registry_credential_ids (ids : list string) : deploy unit := attempt_call ;;; m_lift (validate_ids [] ids).

(** The new manifest replaces the old one by a rename; what follows may still
    fail. *)
Definition save_registry_credential_ids (ids : list string) : deploy unit :=
  attempt_call ;;;
  d <~ the_disk ;;
  match dk_sidecar d with
  | Some (Broken e) => m_throw ("manifest parse: " +:+ e)
  | Some (Manifest _ rest) => attempt_call ;;; put_disk (mkDisk (dk_dir d) (Some (Manifest ids rest))) ;;; attempt_call
  | None => attempt_call ;;; put_disk (mkDisk (dk_dir d) (Some (Manifest ids ""))) ;;; attempt_call
  end.

Definition with_valid_name (app : string) (m : deploy unit) : deploy unit :=
  match validate_app_name app with Err (AeInvalidName e) | Err (AeForbiddenBind e) => m_throw e | Ok _ => m end.

Definition set_app_registry_credential_ids (app : string) (ids : list string) : deploy unit :=
  with_valid_name app (validate_registry_credential_ids ids ;;; save_registry_credential_ids ids).

(** ** The journal *)

Fixpoint each {A} (f : A -> deploy unit) (l : list A) : deploy unit :=
  match l with [] => m_ret tt | x :: rest => f x ;;; each f rest end.

(** Each file that is there, the directory, and the directory above it. *)
Definition sync_compose_deployment_files (app : string) : deploy unit := with_valid_name app (
  d <~ the_disk ;;
  each (fun name => if file_exists d name then attempt_call else m_ret tt) [COMPOSE_FILE; ENV_FILE; META_FILE] ;;;
  match dk_sidecar d with Some _ => attempt_call | None => m_ret tt end ;;;
  attempt_call ;;; attempt_call).

Definition finish_compose_deployment_transaction (app : string) : deploy unit := with_valid_name app (
  sync_compose_deployment_files app ;;;
  attempt_call ;;;
  d <~ the_disk ;;
  each remove_other_file (List.filter (fun name => is_staging name && negb (String.eqb name COMPOSE_TRANSACTION_FILE)) (map_to_list (files d)).*1) ;;;
  attempt_call ;;; attempt_call ;;;
  d <~ the_disk ;;
  if file_exists d COMPOSE_TRANSACTION_FILE then remove_other_file COMPOSE_TRANSACTION_FILE ;;; attempt_call else attempt_call).

(** Containers, then networks. *)
Definition remove_compose_project_runtime : deploy unit :=
  attempt_call ;;; attempt_call ;;; put_running None.

Definition stop_compose_project_containers : deploy unit := m_ignore (attempt_call ;;; put_running None).

(** [docker compose up]: when it fails some containers may be running. *)
Definition compose_up : deploy unit :=
  d <~ the_disk ;;
  put_running (Some (files d !! COMPOSE_FILE, files d !! ENV_FILE)) ;;; attempt_call.

Definition restore_file (name : string) (previous : option string) : deploy unit :=
  match previous with
  | Some content => write_file name (Bytes content)
  | None => m_ignore (remove_own_file name)
  end.

Definition tag_image (p : string * string) : deploy unit :=
  attempt_call ;;; w <~ m_get ;; put_tags (<[p.1 := p.2]> (dw_tags w)).

Definition remove_sidecar : deploy unit :=
  d <~ the_disk ;;
  match dk_sidecar d with
  | Some _ => attempt_call ;;; put_disk (mkDisk (dk_dir d) None)
  | None => m_ret tt
  end.

Definition undo_transaction (app : string) (t : ComposeDeploymentTransaction) (reconcile_docker : bool) : deploy unit :=
  (if reconcile_docker && negb (is_some (previous_compose t)) then remove_compose_project_runtime else m_ret tt) ;;;
  restore_file COMPOSE_FILE (previous_compose t) ;;;
  restore_file ENV_FILE (previous_env t) ;;;
  restore_file META_FILE (previous_meta t) ;;;
  set_app_registry_credential_ids app (previous_registry_credential_ids t) ;;;
  d <~ the_disk ;;
  if negb (file_exists d COMPOSE_FILE) then remove_sidecar ;;; remove_project_dir ;;; attempt_call
  else
    each tag_image (previous_images t) ;;;
    (if reconcile_docker then compose_up else m_ret tt) ;;;
    finish_compose_deployment_transaction app.

Definition rollback_compose_deployment_transaction (app : string) (reconcile_docker : bool) : deploy unit :=
  attempt_call ;;;
  d <~ the_disk ;;
  match files d !! COMPOSE_TRANSACTION_FILE with
  | None => m_ret tt
  | Some (Bytes _) => m_throw "parse compose transaction"
  | Some (Journal t) => undo_transaction app t reconcile_docker
  end.

Definition previous_images_of (containers : list (option string * option string)) : list (string * string) :=
  List.filter (fun p => negb (str_contains_char "@" p.1))
    (omap (fun c => match c with (Some image, Some id) => Some (image, id) | _ => None end) containers).

Definition temp_journal : string := ".nasty-deployment-transaction." +:+ de_uuid env +:+ ".tmp".

(** The journal is written beside its place and renamed. *)
Definition write_journal (t : ComposeDeploymentTransaction) : deploy unit :=
  m_catch (write_file temp_journal (Journal t) ;;; rename_file temp_journal COMPOSE_TRANSACTION_FILE ;;; attempt_call)
    (fun e => m_ignore (remove_other_file temp_journal) ;;; m_throw e).

Definition begin_compose_deployment_transaction (app : string) : deploy unit := with_valid_name app (
  create_project_dir ;;;
  d <~ the_disk ;;
  (if file_exists d COMPOSE_TRANSACTION_FILE then rollback_compose_deployment_transaction app true ;;; create_project_dir else m_ret tt) ;;;
  attempt_call ;;;
  compose <~ read_optional COMPOSE_FILE ;;
  envf <~ read_optional ENV_FILE ;;
  meta <~ read_optional META_FILE ;;
  ids <~ load_registry_credential_ids_strict ;;
  write_journal (mkTransaction compose envf meta ids (previous_images_of (de_containers env)))).

(** What the engine does at start for a directory under the apps directory; the
    error is logged. *)
Definition recover_compose_deployment (app : string) : deploy unit :=
  d <~ the_disk ;;
  match dk_dir d with
  | None => m_ret tt
  | Some f =>
      if negb (file_exists d COMPOSE_TRANSACTION_FILE) then
        if negb (file_exists d COMPOSE_FILE)
        then m_ignore (attempt_call ;;; if forallb (fun kv => is_staging kv.1) (map_to_list f) then remove_project_dir else m_ret tt)
        else m_ret tt
      else
        match validate_app_name app with
        | Err _ => m_ret tt
        | Ok _ => m_catch (rollback_compose_deployment_transaction app true) (fun e => stop_compose_project_containers ;;; m_throw e)
        end
  end.

(** ** A deployment *)

Definition staged_compose : string := ".nasty-compose-" +:+ de_attempt env +:+ ".yml".
Definition staged_env : string := ".nasty-env-" +:+ de_attempt env.
Definition compose_backup : string := ".nasty-compose-" +:+ de_attempt env +:+ ".backup".
Definition env_backup : string := ".nasty-env-" +:+ de_attempt env +:+ ".backup".

Definition install_staged_file (staged canonical backup : string) : deploy bool :=
  d <~ the_disk ;;
  let had_original := file_exists d canonical in
  (if had_original then rename_file canonical backup else m_ret tt) ;;;
  m_catch (rename_file staged canonical) (fun e => (if had_original then m_ignore (rename_file backup canonical) else m_ret tt) ;;; m_throw e) ;;;
  m_ret had_original.

Definition restore_staged_file (canonical backup : string) (had_original : bool) : deploy unit :=
  m_ignore (remove_own_file canonical) ;;;
  (if had_original then m_ignore (rename_file backup canonical) else m_ret tt).

Definition discard_compose_stage (names : list string) (remove_dir : bool) : deploy unit :=
  if remove_dir then m_ignore remove_project_dir else each (fun name => m_ignore (remove_other_file name)) names.

Definition abort_compose_stage (had_env remove_dir : bool) : deploy unit :=
  if remove_dir then m_ret tt else restore_staged_file ENV_FILE env_backup had_env ;;; discard_compose_stage [staged_compose] false.

Definition rollback_compose_transaction (app : string) (reconcile_docker : bool) : deploy unit :=
  m_ignore (rollback_compose_deployment_transaction app reconcile_docker).

(** Report [stage] after undoing; the wording of the report is shortened. *)
Definition failing {A} (stage : string) (m : deploy A) (undo : deploy unit) : deploy A :=
  m_catch m (fun e => undo ;;; m_throw (stage +:+ ": " +:+ e)).

Definition write_app_meta (allow_unsafe : bool) : deploy unit :=
  if allow_unsafe then write_file META_FILE (Bytes META_UNSAFE) else m_ignore (remove_own_file META_FILE).

Definition project_dir_exists (d : Disk) : bool := is_some (dk_dir d).

(** The app directory or its sidecar, or anything of that name in Docker. *)
Definition ensure_new_app_name_available (app : string) : deploy unit :=
  match validate_new_app_name app with
  | Err (AeInvalidName e) | Err (AeForbiddenBind e) => m_throw e
  | Ok _ =>
      attempt_call ;;;
      d <~ the_disk ;;
      if project_dir_exists d || is_some (dk_sidecar d) || negb (is_ok (de_name_free env)) then m_throw ("app already exists: " +:+ app) else m_ret tt
  end.

(** From the journal to the commit. *)
Definition deploy_under_journal (req : DeployRequest) (compose : string) (ids : list string) (is_update : bool) : deploy unit :=
  let app := dr_name req in
  let undo := rollback_compose_transaction app false in
  failing "write-compose" (write_file staged_compose (Bytes compose)) undo ;;;
  failing "write-env" (write_file staged_env (Bytes (render_env_file app (dr_env_file req)))) undo ;;;
  had_env <~ failing "stage-env" (install_staged_file staged_env ENV_FILE env_backup) undo ;;
  let unstage := abort_compose_stage had_env (negb is_update) ;;; undo in
  failing "validate-compose" attempt_call unstage ;;;
  plan <~ failing "resolve-images" (attempt_call ;;; m_lift (de_plan env)) unstage ;;
  failing "validate-credentials" (validate_registry_credential_ids ids ;;; m_lift (de_bindings env)) unstage ;;;
  failing "pull" (each (fun image => attempt_call) plan.2) unstage ;;;
  previous_ids <~ load_registry_credential_ids ;;
  failing "write-credentials" (set_app_registry_credential_ids app ids) unstage ;;;
  failing "stage-compose" (install_staged_file staged_compose COMPOSE_FILE compose_backup)
    (m_ignore (set_app_registry_credential_ids app previous_ids) ;;; unstage) ;;;
  failing "sync-compose" (sync_compose_deployment_files app) undo ;;;
  failing "compose-up" compose_up (rollback_compose_transaction app true) ;;;
  failing "commit-compose" (write_app_meta (dr_allow_unsafe req)) (rollback_compose_transaction app true) ;;;
  failing "commit-compose" (finish_compose_deployment_transaction app) (m_ret tt).

Definition deploy_compose (req : DeployRequest) : deploy unit :=
  match dr_compose_file req with
  | None => m_throw "validate: missing compose_file"
  | Some compose =>
      match validate_compose (de_fs env) (de_yaml env compose) (dr_name req) (dr_allow_unsafe req) with
      | Err e => m_throw ("validate: compose rejected: " +:+ e)
      | Ok _ =>
          d <~ the_disk ;;
          let is_update := file_exists d COMPOSE_FILE in
          if project_dir_exists d && negb is_update then m_throw "validate: app state directory already exists without a compose file"
          else
            (if is_update then m_ret tt else failing "validate" (ensure_new_app_name_available (dr_name req)) (m_ret tt)) ;;;
            ids <~ match dr_registry_credential_ids req with
                   | Some ids => m_ret ids
                   | None => if is_update then load_registry_credential_ids else m_ret []
                   end ;;
            failing "validate-credentials" (validate_registry_credential_ids ids) (m_ret tt) ;;;
            failing "write-compose" create_project_dir (m_ret tt) ;;;
            failing "stage-transaction" (begin_compose_deployment_transaction (dr_name req)) (discard_compose_stage [] (negb is_update)) ;;;
            deploy_under_journal req compose ids is_update ;;;
            each (fun backup => m_ignore (remove_other_file backup)) [compose_backup; env_backup]
      end
  end.

End deploy.
