(* ===== verification/DeployProps.v ===== *)
(** * A deployment happens completely or not at all

    A Hoare logic over the states of the disk, with the invariant that every state
    passed through is safe: the journal is there and holds the old state, or the
    app is in its old or its new state. *)

From Stdlib Require Import ZArith Lia Ascii String.
From stdpp Require Import base list gmap strings.
From S2P Require Import Prelude.
From S2P Require Import RustStr.
From S2P Require Import Text.
From S2P Require Import RustPath.
From S2P Require Import BlockDev.
From S2P Require Import AppPolicy.
From S2P Require Import Deploy.

(** ** States of an app *)

Section states.
Context (env : DeployEnv).

Definition text_content (c : Content) : string := match c with Bytes s => s | Journal t => de_text env t end.

(** Compose file, environment, marker of an unsafe deployment, credentials. *)
Definition AppState : Type := option string * option string * option string * list string.

Definition ids_of (s : option Sidecar) : list string := match s with Some (Manifest ids _) => ids | _ => [] end.

Definition state (f : gmap string Content) (s : option Sidecar) : AppState :=
  (text_content <$> f !! COMPOSE_FILE, text_content <$> f !! ENV_FILE, text_content <$> f !! META_FILE, ids_of s).

Definition state_of (d : Disk) : AppState := state (files d) (dk_sidecar d).

Definition journal_state (t : ComposeDeploymentTransaction) : AppState :=
  (previous_compose t, previous_env t, previous_meta t, previous_registry_credential_ids t).

(** An app without a Compose file has nothing. *)
Definition whole (st : AppState) : Prop := st.1.1.1 = None -> st = (None, None, None, []).

Definition readable (s : option Sidecar) : Prop := forall e, s <> Some (Broken e).

Definition safe (old new : AppState) (d : Disk) : Prop :=
  match files d !! COMPOSE_TRANSACTION_FILE with
  | Some (Journal t) => journal_state t = old /\ readable (dk_sidecar d)
  | Some (Bytes _) => False
  | None => state_of d = old \/ state_of d = new
  end.

End states.

(** ** Triples *)

Section triples.
Context (env : DeployEnv) (Safe : Disk -> Prop).

(** The calls do not all succeed. *)
Definition faulty : Prop := exists n, de_fault env n <> None.

Definition triple {A} (P : Disk -> Prop) (m : deploy A) (Q : A -> Disk -> Prop) (R : Disk -> Prop) : Prop :=
  forall w, Forall Safe (dw_past w) -> P (dw_disk w) ->
    Forall Safe (dw_past (m w).1) /\ match (m w).2 with Ok a => Q a (dw_disk (m w).1) | Err _ => R (dw_disk (m w).1) end.

Lemma dt_ret {A} (a : A) P Q R : (forall d, P d -> Q a d) -> triple P (m_ret a) Q R.
Proof. intros H w Hw Hp. cbn. auto. Qed.

Lemma dt_throw {A} e (P : Disk -> Prop) (Q : A -> Disk -> Prop) R : (forall d, P d -> R d) -> triple P (m_throw e) Q R.
Proof. intros H w Hw Hp. cbn. auto. Qed.

Lemma dt_bind {A B} (m : deploy A) (k : A -> deploy B) P Q R S : triple P m Q R -> (forall a, triple (Q a) (k a) S R) -> triple P (m_bind m k) S R.
Proof.
  intros Hm Hk w Hw Hp. destruct (Hm w Hw Hp) as [H1 H2]. unfold m_bind. destruct (m w) as [w1 [a|e]]; cbn in *; [by apply Hk|done].
Qed.

Lemma dt_catch {A} (m : deploy A) h P Q R R' : triple P m Q R -> (forall e, triple R (h e) Q R') -> triple P (m_catch m h) Q R'.
Proof.
  intros Hm Hh w Hw Hp. destruct (Hm w Hw Hp) as [H1 H2]. unfold m_catch. destruct (m w) as [w1 [a|e]]; cbn in *; [done|by apply Hh].
Qed.

Lemma dt_ignore {A} (m : deploy A) P Q R : triple P m (fun _ => Q) Q -> triple P (m_ignore m) (fun _ => Q) R.
Proof. intros Hm w Hw Hp. destruct (Hm w Hw Hp) as [H1 H2]. unfold m_ignore. cbn. split; [done|]. by destruct (snd (m w)). Qed.

Lemma dt_conseq {A} (m : deploy A) (P P' : Disk -> Prop) (Q Q' : A -> Disk -> Prop) (R R' : Disk -> Prop) :
  triple P m Q R -> (forall d, P' d -> P d) -> (forall a d, Q a d -> Q' a d) -> (forall d, R d -> R' d) -> triple P' m Q' R'.
Proof. intros Hm HP HQ HR w Hw Hp. destruct (Hm w Hw (HP _ Hp)) as [H1 H2]. split; [done|]. destruct (snd (m w)); auto. Qed.

Lemma dt_lift {A} (r : result A string) P Q R : (forall a d, r = Ok a -> P d -> Q a d) -> (forall e d, r = Err e -> P d -> R d) -> triple P (m_lift r) Q R.
Proof. intros H1 H2 w Hw Hp. cbn. split; [done|]. destruct r; eauto. Qed.

Lemma dt_disk P R : triple P the_disk (fun x d => x = d /\ P d) R.
Proof. intros w Hw Hp. by cbn. Qed.

Lemma dt_put d P (Q : unit -> Disk -> Prop) R : (forall d0, P d0 -> Safe d /\ Q tt d) -> triple P (put_disk d) Q R.
Proof. intros H w Hw Hp. destruct (H _ Hp). cbn. split; [by constructor|done]. Qed.

Lemma dt_running r P R : triple P (put_running r) (fun _ => P) R.
Proof. intros w Hw Hp. by cbn. Qed.

Lemma dt_tags t P R : triple P (put_tags t) (fun _ => P) R.
Proof. intros w Hw Hp. by cbn. Qed.

Lemma dt_world P R : triple P m_get (fun _ => P) R.
Proof. intros w Hw Hp. by cbn. Qed.

Lemma dt_number P R : triple P next_number (fun _ => P) R.
Proof. intros w Hw Hp. by cbn. Qed.

Lemma dt_call P : triple P (attempt_call env) (fun _ => P) (fun d => P d /\ faulty).
Proof.
  intros w Hw Hp. unfold attempt_call, m_bind, next_number. cbn. destruct (de_fault env (dw_calls w)) eqn:E; cbn; [|done].
  split; [done|]. split; [done|]. exists (dw_calls w). by rewrite E.
Qed.

Lemma dt_each {A} (f : A -> deploy unit) l P R : (forall x, x ∈ l -> triple P (f x) (fun _ => P) R) -> triple P (each f l) (fun _ => P) R.
Proof.
  induction l as [|x l IH]; intros H; [by apply dt_ret|]. cbn. eapply dt_bind; [apply H; by left|]. intros []. apply IH. intros y Hy. apply H. by right.
Qed.

Lemma dt_pure {A} (φ : Prop) (m : deploy A) P Q R : (φ -> triple P m Q R) -> triple (fun d => P d /\ φ) m Q R.
Proof. intros H w Hw [Hp Hφ]. by apply H. Qed.

(** Reads the disk, then acts on it. *)
Lemma dt_with_disk {A} (k : Disk -> deploy A) P Q R : (forall d, P d -> triple (fun d' => d' = d) (k d) Q R) -> triple P (d <~ the_disk ;; k d) Q R.
Proof. intros H. eapply dt_bind; [apply dt_disk|]. intros d w Hw [Hd Hp]. apply (H d); [by rewrite Hd|done|done]. Qed.

End triples.

(** ** Under the journal *)

Section journal.
Context (env : DeployEnv) (old new : AppState).

Abbreviation Safe := (safe env old new).

(** The journal is there, and [F] holds of the files and the sidecar. *)
Definition J (F : gmap string Content -> option Sidecar -> Prop) (d : Disk) : Prop :=
  exists f t, dk_dir d = Some f /\ f !! COMPOSE_TRANSACTION_FILE = Some (Journal t) /\ journal_state t = old /\ readable (dk_sidecar d) /\ F f (dk_sidecar d).

Definition any (f : gmap string Content) (s : option Sidecar) : Prop := True.

Lemma J_safe F d : J F d -> Safe d.
Proof. intros (f & t & Hf & Ht & Hj & Hs & _). unfold safe, files. rewrite Hf. cbn. by rewrite Ht. Qed.

Lemma J_mono (F F' : gmap string Content -> option Sidecar -> Prop) d : (forall f s, F f s -> F' f s) -> J F d -> J F' d.
Proof. intros H (f & t & Hf & Ht & Hj & Hs & HF). exists f, t. eauto 10. Qed.

Lemma J_any F d : J F d -> J any d.
Proof. by apply J_mono. Qed.

Lemma J_files F d : J F d -> exists f, dk_dir d = Some f /\ files d = f /\ F f (dk_sidecar d).
Proof. intros (f & t & Hf & Ht & Hj & Hs & HF). exists f. unfold files. by rewrite Hf. Qed.

(** Another file changes. *)
Lemma J_update (F F' : gmap string Content -> option Sidecar -> Prop) d f (g : gmap string Content) : dk_dir d = Some f -> J F d ->
  g !! COMPOSE_TRANSACTION_FILE = f !! COMPOSE_TRANSACTION_FILE -> F' g (dk_sidecar d) -> J F' (with_files d g).
Proof. intros Hf (f' & t & Hf' & Ht & Hj & Hs & HF) Hg HF'. rewrite Hf in Hf'. injection Hf' as <-. exists g, t. rewrite Hg. done. Qed.

Definition Jerr (d : Disk) : Prop := J any d /\ faulty env.

Lemma J_call F : triple Safe (J F) (attempt_call env) (fun _ => J F) Jerr.
Proof. eapply dt_conseq; [apply dt_call|done|done|]. intros d [H ?]. split; [by eapply J_any|done]. Qed.

Lemma J_write (F F' : gmap string Content -> option Sidecar -> Prop) name c : name <> COMPOSE_TRANSACTION_FILE -> (forall f s, F f s -> F' (<[name := c]> f) s) ->
  triple Safe (J F) (write_file env name c) (fun _ => J F') Jerr.
Proof.
  intros Hn HF. unfold write_file. eapply dt_bind; [apply dt_number|]. intros n. apply dt_with_disk. intros d Hd.
  destruct (J_files F d Hd) as (f & Hf & _ & HFf). rewrite Hf.
  assert (forall x, J any (with_files d (<[name := x]> f))) as Hany by (intros x; eapply J_update; [done|done|by rewrite lookup_insert_ne|done]).
  eapply dt_bind with (Q := fun _ => J any).
  - destruct (de_torn env n) as [torn|]; [|apply dt_ret; intros ? ->; by eapply J_any]. apply dt_put. intros _ _. split; [by eapply J_safe|done].
  - intros []. destruct (de_fault env n) eqn:E; [apply dt_throw; intros d' ?; split; [done|exists n; by rewrite E]|].
    apply dt_put. intros _ _. assert (J F' (with_files d (<[name := c]> f))); [|split; [by eapply J_safe|done]].
    eapply J_update; [done|done|by rewrite lookup_insert_ne|by apply HF].
Qed.

Lemma J_rename (F F' : gmap string Content -> option Sidecar -> Prop) from to : from <> COMPOSE_TRANSACTION_FILE -> to <> COMPOSE_TRANSACTION_FILE ->
  (forall f s, F f s -> exists c, f !! from = Some c /\ F' (<[to := c]> (delete from f)) s) ->
  triple Safe (J F) (rename_file env from to) (fun _ => J F') (fun d => J F d /\ faulty env).
Proof.
  intros H1 H2 HF. unfold rename_file. eapply dt_bind; [apply dt_call|]. intros []. apply dt_with_disk. intros d Hd.
  destruct (J_files F d Hd) as (f & Hf & -> & HFf). destruct (HF _ _ HFf) as (c & Hc & HF'). rewrite Hc. apply dt_put. intros _ _.
  assert (J F' (with_files d (<[to := c]> (delete from f)))); [|split; [by eapply J_safe|done]].
  eapply J_update; [done|done|by rewrite lookup_insert_ne, lookup_delete_ne|done].
Qed.

(** Whatever becomes of it. *)
Lemma J_rename_any from to : from <> COMPOSE_TRANSACTION_FILE -> to <> COMPOSE_TRANSACTION_FILE ->
  triple Safe (J any) (rename_file env from to) (fun _ => J any) (J any).
Proof.
  intros H1 H2. unfold rename_file. eapply dt_bind; [eapply dt_conseq; [apply J_call|done|done|by intros d []]|]. intros []. apply dt_with_disk. intros d Hd.
  destruct (J_files any d Hd) as (f & Hf & -> & _). destruct (f !! from) as [c|]; [|apply dt_throw; by intros ? ->].
  apply dt_put. intros _ _. assert (J any (with_files d (<[to := c]> (delete from f)))); [|split; [by eapply J_safe|done]].
  eapply J_update; [done|done|by rewrite lookup_insert_ne, lookup_delete_ne|done].
Qed.

Lemma J_delete (F F' : gmap string Content -> option Sidecar -> Prop) d f name : dk_dir d = Some f -> J F d -> name <> COMPOSE_TRANSACTION_FILE ->
  F' (delete name f) (dk_sidecar d) -> Safe (with_files d (delete name f)) /\ J F' (with_files d (delete name f)).
Proof.
  intros Hf Hd Hn HF'. assert (J F' (with_files d (delete name f))); [|split; [by eapply J_safe|done]].
  eapply J_update; [done|done|by rewrite lookup_delete_ne|done].
Qed.

Lemma J_remove_own (F F' : gmap string Content -> option Sidecar -> Prop) name R : (forall n, de_keep_fault env n = None) -> name <> COMPOSE_TRANSACTION_FILE ->
  (forall f s, F f s -> F' (delete name f) s) -> triple Safe (J F) (m_ignore (remove_own_file env name)) (fun _ => J F') R.
Proof.
  intros Hk Hn HF. apply dt_ignore. unfold remove_own_file. eapply dt_bind; [apply dt_number|]. intros n. apply dt_with_disk. intros d Hd.
  destruct (J_files F d Hd) as (f & Hf & -> & HFf). rewrite Hk. destruct (f !! name) as [c|] eqn:E.
  - apply dt_put. intros _ _. eapply J_delete; eauto.
  - apply dt_throw. intros ? ->. assert (delete name f = f) as Hdel by (by apply delete_id). destruct Hd as (f' & t & Hf' & Ht & Hj & Hs & _).
    rewrite Hf in Hf'. injection Hf' as <-. exists f, t. split_and!; try done. rewrite <- Hdel. by apply HF.
Qed.

(** Whether or not it can be removed. *)
Lemma J_remove_any name R : name <> COMPOSE_TRANSACTION_FILE -> triple Safe (J any) (m_ignore (remove_own_file env name)) (fun _ => J any) R.
Proof.
  intros Hn. apply dt_ignore. unfold remove_own_file. eapply dt_bind; [apply dt_number|]. intros n. apply dt_with_disk. intros d Hd.
  destruct (J_files any d Hd) as (f & Hf & -> & _). destruct (de_keep_fault env n); [apply dt_throw; by intros ? ->|].
  destruct (f !! name); [|apply dt_throw; by intros ? ->]. apply dt_put. intros _ _. by eapply J_delete.
Qed.

Lemma J_remove_other (F F' : gmap string Content -> option Sidecar -> Prop) name : name <> COMPOSE_TRANSACTION_FILE ->
  (forall f s, F f s -> is_Some (f !! name) /\ F' (delete name f) s) -> triple Safe (J F) (remove_other_file env name) (fun _ => J F') (fun d => J F d /\ faulty env).
Proof.
  intros Hn HF. unfold remove_other_file. eapply dt_bind; [apply dt_call|]. intros []. apply dt_with_disk. intros d Hd.
  destruct (J_files F d Hd) as (f & Hf & -> & HFf). destruct (HF _ _ HFf) as [[c Hc] HF']. rewrite Hc. apply dt_put. intros _ _. by eapply J_delete.
Qed.

Lemma J_remove_other_any name R : name <> COMPOSE_TRANSACTION_FILE -> triple Safe (J any) (m_ignore (remove_other_file env name)) (fun _ => J any) R.
Proof.
  intros Hn. apply dt_ignore. unfold remove_other_file. eapply dt_bind; [eapply dt_conseq; [apply J_call|done|done|by intros d []]|]. intros []. apply dt_with_disk. intros d Hd.
  destruct (J_files any d Hd) as (f & Hf & -> & _). destruct (f !! name); [|apply dt_throw; by intros ? ->]. apply dt_put. intros _ _. by eapply J_delete.
Qed.

(** ** Credentials *)

Lemma J_ids (F F' : gmap string Content -> option Sidecar -> Prop) app ids : validate_app_name app = Ok tt ->
  (forall f s rest, F f s -> F' f (Some (Manifest ids rest))) ->
  triple Safe (J F) (set_app_registry_credential_ids env app ids) (fun _ => J F') (fun d => J any d /\ (faulty env \/ validate_ids env [] ids <> Ok tt)).
Proof.
  intros Happ HF. unfold set_app_registry_credential_ids, with_valid_name. rewrite Happ.
  assert (forall G, triple Safe (J G) (attempt_call env) (fun _ => J G) (fun d => J any d /\ (faulty env \/ validate_ids env [] ids <> Ok tt))) as Hcall.
  { intros G. eapply dt_conseq; [apply J_call|done|done|]. intros d [? ?]. tauto. }
  eapply dt_bind with (Q := fun _ => J F).
  { eapply dt_bind; [apply Hcall|]. intros []. apply dt_lift; [done|]. intros e d E Hd. split; [by eapply J_any|]. right. by rewrite E. }
  intros []. unfold save_registry_credential_ids. eapply dt_bind; [apply Hcall|]. intros []. apply dt_with_disk. intros d Hd.
  assert (forall rest, triple Safe (fun d' => d' = d) (attempt_call env ;;; put_disk (mkDisk (dk_dir d) (Some (Manifest ids rest))) ;;; attempt_call env)
    (fun _ => J F') (fun d' => J any d' /\ (faulty env \/ validate_ids env [] ids <> Ok tt))) as Hput.
  { intros rest. eapply dt_bind; [eapply dt_conseq; [apply (Hcall F)|by intros ? ->|done|done]|]. intros []. eapply dt_bind with (Q := fun _ => J F'); [|intros []; apply (Hcall F')].
    apply dt_put. intros _ _. assert (J F' (mkDisk (dk_dir d) (Some (Manifest ids rest)))); [|split; [by eapply J_safe|done]].
    destruct Hd as (f & t & Hf & Ht & Hj & Hs & HFf). exists f, t. cbn. split_and!; try done. by eapply HF. }
  destruct Hd as (f & t & Hf & Ht & Hj & Hs & HFf). destruct (dk_sidecar d) as [[e|ids' rest]|] eqn:Es; [by destruct (Hs e)|apply Hput|apply Hput].
Qed.

(** ** Committing *)

(** No journal, and the app is in state [st]. *)
Definition clear (st : AppState) (d : Disk) : Prop := files d !! COMPOSE_TRANSACTION_FILE = None /\ state_of env d = st.

Lemma clear_safe st d : st = old \/ st = new -> clear st d -> Safe d.
Proof. intros H [H1 H2]. unfold safe. rewrite H1, H2. destruct H as [->| ->]; tauto. Qed.

Lemma staging_state n f s : is_staging n = true -> state env (delete n f) s = state env f s.
Proof.
  intros Hn. unfold state. rewrite !lookup_delete_ne; [done| | |]; intros ->; done.
Qed.

Definition in_state (st : AppState) (f : gmap string Content) (s : option Sidecar) : Prop := state env f s = st.

Lemma J_clean st l : NoDup l -> Forall (fun n => is_staging n = true /\ n <> COMPOSE_TRANSACTION_FILE) l ->
  triple Safe (J (fun f s => in_state st f s /\ Forall (fun n => is_Some (f !! n)) l)) (each (remove_other_file env) l) (fun _ => J (in_state st)) (Jerr).
Proof.
  intros Hnd Hl. induction Hl as [|n l [Hn Hm] Hl IH]; cbn; [apply dt_ret; intros d; by apply J_mono; intros f s []|].
  apply NoDup_cons in Hnd as [Hnl Hnd]. eapply dt_bind with (Q := fun _ => J (fun f s => in_state st f s /\ Forall (fun n => is_Some (f !! n)) l)); [|intros []; by apply IH].
  eapply dt_conseq; [apply (J_remove_other (fun f s => in_state st f s /\ Forall (fun n => is_Some (f !! n)) (n :: l)) (fun f s => in_state st f s /\ Forall (fun n => is_Some (f !! n)) l)); [done|]|done|done|].
  - intros f s [Hst Hf]. apply Forall_cons in Hf as [Hfn Hf]. split; [done|]. split; [unfold in_state; by rewrite staging_state|].
    apply Forall_forall. intros m Hml. rewrite Forall_forall in Hf. rewrite lookup_delete_ne; [by apply Hf|]. intros ->. done.
  - intros d [H ?]. split; [by eapply J_any|done].
Qed.

Lemma J_sync F app : validate_app_name app = Ok tt -> triple Safe (J F) (sync_compose_deployment_files env app) (fun _ => J F) Jerr.
Proof.
  intros Happ. unfold sync_compose_deployment_files, with_valid_name. rewrite Happ. apply dt_with_disk. intros d Hd.
  eapply dt_bind with (Q := fun _ => J F).
  { eapply dt_conseq; [apply (dt_each _ _ _ (J F) Jerr)|by intros ? ->|done|done]. intros x _. destruct (file_exists d x); [apply J_call|by apply dt_ret]. }
  intros []. eapply dt_bind with (Q := fun _ => J F); [destruct (dk_sidecar d); [apply J_call|by apply dt_ret]|]. intros [].
  eapply dt_bind; [apply J_call|]. intros []. apply J_call.
Qed.

Lemma J_finish app st : validate_app_name app = Ok tt -> st = old \/ st = new ->
  triple Safe (J (in_state st)) (finish_compose_deployment_transaction env app) (fun _ => clear st) (fun d => (J any d \/ clear st d) /\ faulty env).
Proof.
  intros Happ Hst. unfold finish_compose_deployment_transaction, with_valid_name. rewrite Happ.
  assert (forall A (m : deploy A) P Q, triple Safe P m Q Jerr -> triple Safe P m Q (fun d => (J any d \/ clear st d) /\ faulty env)) as Hw.
  { intros A m P Q H. eapply dt_conseq; [exact H|done|done|]. intros d [? ?]. tauto. }
  eapply dt_bind; [by apply Hw, J_sync|]. intros []. eapply dt_bind; [apply Hw, J_call|]. intros []. apply dt_with_disk. intros d Hd.
  destruct (J_files _ d Hd) as (f & Hf & -> & HFf). eapply dt_bind with (Q := fun _ => J (in_state st)).
  { apply Hw. eapply dt_conseq; [apply (J_clean st)|intros ? ->|done|done].
    - apply NoDup_ListNoDup, List.NoDup_filter, NoDup_ListNoDup, NoDup_fst_map_to_list.
    - apply Forall_forall. intros n Hn. apply list_elem_of_In, filter_In in Hn as [_ Hn]. apply andb_true_iff in Hn as [Hn Hm].
      split; [done|]. intros ->. by rewrite String.eqb_refl in Hm.
    - destruct Hd as (f1 & t & Hf1 & Ht & Hj & Hs & _). rewrite Hf in Hf1. injection Hf1 as <-. exists f, t. split_and!; try done.
      apply Forall_forall. intros n Hn. apply list_elem_of_In, filter_In in Hn as [Hn _]. apply list_elem_of_In, list_elem_of_fmap in Hn as ([k c] & -> & Hkc).
      apply elem_of_map_to_list in Hkc. by exists c. }
  intros []. eapply dt_bind; [apply Hw, J_call|]. intros []. eapply dt_bind; [apply Hw, J_call|]. intros []. clear d Hd f Hf HFf.
  apply dt_with_disk. intros d Hd. pose proof Hd as (f & t & Hf & Ht & _ & Hs & HFf).
  assert (files d = f) as Hfs by (unfold files; by rewrite Hf). unfold file_exists. rewrite Hfs, Ht. cbn [is_some].
  eapply dt_bind with (Q := fun _ => clear st).
  - unfold remove_other_file. eapply dt_bind with (Q := fun _ d' => d' = d).
    + eapply dt_conseq; [apply (dt_call _ _ (fun d' => d' = d))|done|done|]. intros d' [-> ?]. split; [|done]. left. by eapply J_any.
    + intros []. apply dt_with_disk. intros ? ->. rewrite Hfs, Ht. apply dt_put. intros _ _.
      assert (clear st (with_files d (delete COMPOSE_TRANSACTION_FILE f))); [|split; [by eapply clear_safe|done]].
      split; [by cbn; rewrite lookup_delete_eq|]. unfold state_of. cbn. by rewrite staging_state.
  - intros []. eapply dt_conseq; [apply (dt_call _ _ (clear st))|done|done|]. intros d' [? ?]. tauto.
Qed.

(** ** Undoing *)

Lemma J_restore (F F' : gmap string Content -> option Sidecar -> Prop) name previous : (forall n, de_keep_fault env n = None) -> name <> COMPOSE_TRANSACTION_FILE ->
  (forall f s, F f s -> match previous with Some c => F' (<[name := Bytes c]> f) s | None => F' (delete name f) s end) ->
  triple Safe (J F) (restore_file env name previous) (fun _ => J F') Jerr.
Proof. intros Hk Hn HF. destruct previous as [c|]; cbn; [by apply J_write|by apply J_remove_own]. Qed.

Lemma J_tag F p : triple Safe (J F) (tag_image env p) (fun _ => J F) Jerr.
Proof. eapply dt_bind; [apply J_call|]. intros []. eapply dt_bind; [apply dt_world|]. intros w. apply dt_tags. Qed.

Lemma J_up F : triple Safe (J F) (compose_up env) (fun _ => J F) Jerr.
Proof.
  apply dt_with_disk. intros d Hd. eapply dt_bind with (Q := fun _ => J F); [|intros []; apply J_call].
  eapply dt_conseq; [apply (dt_running _ _ (fun d' => d' = d) Jerr)|done|by intros ? ? ->|done].
Qed.

Lemma J_runtime F : triple Safe (J F) (remove_compose_project_runtime env) (fun _ => J F) Jerr.
Proof. eapply dt_bind; [apply J_call|]. intros []. eapply dt_bind; [apply J_call|]. intros []. apply dt_running. Qed.

Context (app : string) (Happ : validate_app_name app = Ok tt) (Hkeep : forall n, de_keep_fault env n = None) (Hwhole : whole old).

(** The calls fail, or the old credentials are gone. *)
Definition excuse : Prop := faulty env \/ validate_ids env [] old.2 <> Ok tt.

Definition undone (d : Disk) : Prop := J any d \/ clear old d.

Lemma weaken_err {A} (m : deploy A) P Q : triple Safe P m Q Jerr -> triple Safe P m Q (fun d => undone d /\ excuse).
Proof. intros H. eapply dt_conseq; [exact H|done|done|]. intros d [? ?]. unfold undone, excuse. tauto. Qed.

(** Nothing is left but the journal and what was staged. *)
Definition emptied (f : gmap string Content) (s : option Sidecar) : Prop :=
  f !! COMPOSE_FILE = None /\ f !! ENV_FILE = None /\ f !! META_FILE = None /\ ids_of s = [].

Lemma emptied_clear f s d : old = (None, None, None, []) -> dk_dir d = Some f -> dk_sidecar d = s -> emptied f s ->
  f !! COMPOSE_TRANSACTION_FILE = None -> clear old d.
Proof.
  intros -> Hf <- (H1 & H2 & H3 & H4) Hm. split; unfold state_of, files; rewrite Hf; cbn; [done|]. unfold state. by rewrite H1, H2, H3, H4.
Qed.

Lemma J_remove_dir : old = (None, None, None, []) ->
  triple Safe (J emptied) (remove_project_dir env) (fun _ => clear old) (fun d => undone d /\ excuse).
Proof.
  intros Ho. unfold remove_project_dir. eapply dt_bind; [apply dt_number|]. intros n. apply dt_with_disk. intros d Hd.
  pose proof Hd as (f & t & Hf & Ht & Hj & Hs & H1 & H2 & H3 & H4). rewrite Hf.
  set (g := filter (fun kv => de_left env n kv.1 = true) f).
  assert (emptied g (dk_sidecar d)) as Hg by (split_and!; try done; apply map_lookup_filter_None; left; done).
  assert (undone (with_files d g) /\ Safe (with_files d g)) as [Hu Hsafe].
  { destruct (g !! COMPOSE_TRANSACTION_FILE) as [c|] eqn:E.
    - pose proof E as E'. apply map_lookup_filter_Some in E' as [E' _]. rewrite Ht in E'. injection E' as <-.
      assert (J any (with_files d g)) as HJ by (exists g, t; done). split; [by left|by eapply J_safe].
    - assert (clear old (with_files d g)) as Hc by (by apply (emptied_clear g (dk_sidecar d))). split; [by right|]. apply (clear_safe old); [by left|exact Hc]. }
  eapply dt_bind with (Q := fun _ d' => d' = with_files d g); [by apply dt_put|]. intros []. destruct (de_fault env n) eqn:E.
  - apply dt_throw. intros ? ->. split; [done|]. left. exists n. by rewrite E.
  - apply dt_put. intros _ _. assert (clear old (mkDisk None (dk_sidecar d))) as Hc; [|split; [apply (clear_safe old); [by left|exact Hc]|done]].
    split; [done|]. unfold state_of, state, files. cbn. by rewrite Ho, H4.
Qed.

Lemma J_undo t reconcile : journal_state t = old ->
  triple Safe (J any) (undo_transaction env app t reconcile) (fun _ => clear old) (fun d => undone d /\ excuse).
Proof.
  intros Hj. unfold undo_transaction.
  eapply dt_bind with (Q := fun _ => J any); [destruct (_ && _); [apply weaken_err, J_runtime|by apply dt_ret]|]. intros [].
  set (F1 := fun (f : gmap string Content) (s : option Sidecar) => text_content env <$> f !! COMPOSE_FILE = previous_compose t).
  set (F2 := fun f s => F1 f s /\ text_content env <$> f !! ENV_FILE = previous_env t).
  set (F3 := fun f s => F2 f s /\ text_content env <$> f !! META_FILE = previous_meta t).
  eapply dt_bind with (Q := fun _ => J F1).
  { apply weaken_err, J_restore; [done..|]. intros f s _. destruct (previous_compose t) eqn:E; unfold F1; rewrite ?lookup_insert_eq, ?lookup_delete_eq, ?E; done. }
  intros []. eapply dt_bind with (Q := fun _ => J F2).
  { apply weaken_err, J_restore; [done..|]. intros f s H. unfold F2, F1 in *. destruct (previous_env t);
      rewrite ?lookup_insert_eq, ?lookup_delete_eq, ?lookup_insert_ne, ?lookup_delete_ne by done; done. }
  intros []. eapply dt_bind with (Q := fun _ => J F3).
  { apply weaken_err, J_restore; [done..|]. intros f s [H1 H2]. unfold F3, F2, F1 in *. destruct (previous_meta t);
      rewrite ?lookup_insert_eq, ?lookup_delete_eq, ?lookup_insert_ne, ?lookup_delete_ne by done; done. }
  intros []. eapply dt_bind with (Q := fun _ => J (in_state old)).
  { eapply dt_conseq; [apply (J_ids F3 (in_state old)); [done|]|done|done|].
    - intros f s rest [[H1 H2] H3]. unfold in_state, state. rewrite <- Hj. unfold journal_state. unfold F1 in H1. by rewrite H1, H2, H3.
    - intros d [H1 H2]. split; [by left|]. unfold excuse. rewrite <- Hj. cbn. tauto. }
  intros []. apply dt_with_disk. intros d Hd. destruct (J_files _ d Hd) as (f & Hf & Hfs & Hst).
  unfold file_exists. rewrite Hfs. destruct (f !! COMPOSE_FILE) as [c|] eqn:Ec; cbn [is_some negb].
  - eapply dt_bind with (Q := fun _ => J (in_state old)).
    { apply weaken_err. eapply dt_conseq; [apply (dt_each _ _ _ (J (in_state old)) Jerr)|by intros ? ->|done|done]. intros p _. apply J_tag. }
    intros []. eapply dt_bind with (Q := fun _ => J (in_state old)); [destruct reconcile; [apply weaken_err, J_up|by apply dt_ret]|].
    intros []. eapply dt_conseq; [apply (J_finish app old); [done|by left]|done|done|]. intros d' [? ?]. unfold undone, excuse. tauto.
  - assert (old = (None, None, None, [])) as Ho by (apply Hwhole; rewrite <- Hst; unfold state; cbn; by rewrite Ec).
    eapply dt_bind with (Q := fun _ => J emptied).
    + unfold remove_sidecar. apply dt_with_disk. intros ? ->. pose proof Hd as (f1 & t1 & Hf1 & Ht1 & Hj1 & Hs1 & _). rewrite Hf in Hf1. injection Hf1 as <-.
      assert (f !! ENV_FILE = None /\ f !! META_FILE = None) as [He Hm].
      { rewrite Ho in Hst. unfold in_state, state in Hst. injection Hst as _ He Hm _. by destruct (f !! ENV_FILE), (f !! META_FILE). }
      destruct (dk_sidecar d) as [sc|] eqn:Es.
      * eapply dt_bind with (Q := fun _ d' => d' = d).
        { eapply dt_conseq; [apply (dt_call _ _ (fun d' => d' = d))|done|done|]. intros d' [-> ?]. split; [left; by eapply J_any|by left]. }
        intros []. apply dt_put. intros _ _. assert (J emptied (mkDisk (dk_dir d) None)); [|split; [by eapply J_safe|done]].
        exists f, t1. cbn. rewrite Hf. split_and!; done.
      * apply dt_ret. intros ? ->. exists f, t1. rewrite Es. split_and!; done.
    + intros []. eapply dt_bind; [by apply J_remove_dir|]. intros []. eapply dt_conseq; [apply (dt_call _ _ (clear old))|done|done|].
      intros d' [? ?]. unfold undone, excuse. tauto.
Qed.

Lemma J_rollback reconcile :
  triple Safe undone (rollback_compose_deployment_transaction env app reconcile) (fun _ => clear old) (fun d => undone d /\ excuse).
Proof.
  unfold rollback_compose_deployment_transaction. eapply dt_bind with (Q := fun _ => undone).
  { eapply dt_conseq; [apply (dt_call _ _ undone)|done|done|]. intros d [? ?]. unfold excuse. tauto. }
  intros []. apply dt_with_disk. intros d [Hd|Hd].
  - pose proof Hd as (f & t & Hf & Ht & Hj & _). unfold files. rewrite Hf. cbn. rewrite Ht. eapply dt_conseq; [by apply J_undo|by intros ? ->|done|done].
  - pose proof Hd as [Hm _]. rewrite Hm. apply dt_ret. by intros ? ->.
Qed.

(** ** Recovery *)

Lemma J_recover :
  triple Safe Safe (recover_compose_deployment env app) (fun _ d => clear old d \/ clear new d) (fun d => Safe d /\ excuse).
Proof.
  unfold recover_compose_deployment. apply dt_with_disk. intros d Hd. destruct (dk_dir d) as [f|] eqn:Hf.
  2:{ apply dt_ret. intros ? ->. unfold safe in Hd. assert (files d = ∅) as Hfs by (unfold files; by rewrite Hf). rewrite Hfs, lookup_empty in Hd.
      unfold clear. rewrite Hfs, lookup_empty. tauto. }
  assert (files d = f) as Hfs by (unfold files; by rewrite Hf). unfold file_exists. rewrite Hfs. unfold safe in Hd. rewrite Hfs in Hd.
  destruct (f !! COMPOSE_TRANSACTION_FILE) as [[b|t]|] eqn:Em; [done| |]; cbn [is_some negb].
  - rewrite Happ. destruct Hd as [Hj Hs]. eapply dt_catch.
    + eapply dt_conseq; [apply (J_rollback true)|intros ? ->|by left|done]. left. exists f, t. done.
    + intros e. cbn beta. eapply dt_bind with (Q := fun _ d => undone d /\ excuse).
      * apply dt_ignore. eapply dt_bind; [eapply dt_conseq; [apply (dt_call _ _ (fun d => undone d /\ excuse))|done|done|by intros d' []]|]. intros []. apply dt_running.
      * intros []. apply dt_throw. intros d' [[H|H] ?]; (split; [|done]); [by eapply J_safe|]. apply (clear_safe old); [by left|done].
  - assert (clear old d \/ clear new d) as Hc by (unfold clear; rewrite Hfs; tauto).
    destruct (negb (is_some (f !! COMPOSE_FILE))); [|apply dt_ret; by intros ? ->]. apply dt_ignore.
    eapply dt_bind with (Q := fun _ d' => d' = d); [eapply dt_conseq; [apply (dt_call _ _ (fun d' => d' = d))|done|done|by intros d' [-> _]]|]. intros [].
    destruct (forallb _ _) eqn:Eg; [|apply dt_ret; by intros ? ->]. rewrite forallb_forall in Eg.
    assert (forall k, is_staging k = false -> f !! k = None) as Hno.
    { intros k Hk. destruct (f !! k) as [x|] eqn:E; [|done]. apply elem_of_map_to_list, list_elem_of_In, Eg in E. cbn in E. congruence. }
    set (st := (None, None, None, ids_of (dk_sidecar d)) : AppState).
    assert (forall g, (forall k, f !! k = None -> g !! k = None) -> clear st (with_files d g)) as Hclear.
    { intros g Hg. split; [by cbn; apply Hg|]. unfold state_of. cbn. unfold state. rewrite !Hg; [done|..]; by apply Hno. }
    assert (st = old \/ st = new) as Hst.
    { destruct Hc as [[_ Hc]|[_ Hc]]; [left|right]; rewrite <- Hc; unfold state_of, state; rewrite Hfs, !Hno by done; done. }
    assert (forall d', clear st d' -> clear old d' \/ clear new d') as Hend by (intros d' ?; destruct Hst as [<-|<-]; tauto).
    eapply dt_conseq with (Q := fun _ => clear st) (R := clear st) (P := fun d' => d' = d); [|done|auto|auto].
    unfold remove_project_dir. eapply dt_bind; [apply dt_number|]. intros n. apply dt_with_disk. intros ? ->. rewrite Hf.
    eapply dt_bind with (Q := fun _ => clear st).
    + apply dt_put. intros _ _. assert (clear st (with_files d (filter (fun kv => de_left env n kv.1 = true) f))); [|split; [by eapply clear_safe|done]].
      apply Hclear. intros k Hk. apply map_lookup_filter_None. by left.
    + intros []. destruct (de_fault env n); [by apply dt_throw|]. apply dt_put. intros _ _.
      assert (clear st (mkDisk None (dk_sidecar d))); [|split; [by eapply clear_safe|done]]. done.
Qed.

(** ** Writing the journal *)

(** Before the journal is there. *)
Definition before (d : Disk) : Prop := clear old d /\ readable (dk_sidecar d) /\ exists f, dk_dir d = Some f.

Lemma before_update d f n g : clear old d -> dk_dir d = Some f -> is_staging n = true -> n <> COMPOSE_TRANSACTION_FILE ->
  (forall k, k <> n -> g !! k = f !! k) -> clear old (with_files d g).
Proof.
  intros [Hm Hst] Hf Hn Hm' Hg. assert (files d = f) as Hfs by (unfold files; by rewrite Hf). unfold state_of in Hst. rewrite Hfs in *. split.
  - change (g !! COMPOSE_TRANSACTION_FILE = None). by rewrite Hg.
  - change (state env g (dk_sidecar d) = old). rewrite <- Hst. unfold state. rewrite !Hg; [done|..]; intros <-; done.
Qed.

Lemma temp_apart : is_staging (temp_journal env) = true /\ temp_journal env <> COMPOSE_TRANSACTION_FILE.
Proof.
  unfold is_staging, temp_journal. split.
  - rewrite !orb_true_iff. right. apply starts_with_spec. by eexists.
  - intros H. apply (f_equal to_bytes) in H. rewrite !to_bytes_app in H. pose proof (f_equal (@length _) H) as Hl. rewrite !length_app in Hl. cbn in Hl.
    destruct (to_bytes (de_uuid env)) as [|c l]; [discriminate H|cbn in Hl; lia].
Qed.

(** The journal may be there already. *)
Definition started (d : Disk) : Prop := J (in_state old) d \/ clear old d.

Lemma J_write_journal t : journal_state t = old -> triple Safe before (write_journal env t) (fun _ => J (in_state old)) started.
Proof.
  intros Hj. destruct temp_apart as [Ht1 Ht2]. unfold write_journal. eapply dt_catch with (R := started).
  - eapply dt_bind with (Q := fun _ d => before d /\ files d !! temp_journal env = Some (Journal t)).
    + unfold write_file. eapply dt_bind; [apply dt_number|]. intros n. apply dt_with_disk. intros d (Hc & Hs & f & Hf). rewrite Hf.
      assert (forall x, clear old (with_files d (<[temp_journal env := x]> f))) as Hup.
      { intros x. eapply before_update; [done|done|done|done|]. intros k Hk. by rewrite lookup_insert_ne. }
      eapply dt_bind with (Q := fun _ => clear old).
      * destruct (de_torn env n) as [torn|]; [|apply dt_ret; by intros ? ->]. apply dt_put. intros _ _. split; [|done]. by apply (clear_safe old); [left|].
      * intros []. destruct (de_fault env n); [apply dt_throw; by right|]. apply dt_put. intros _ _. split; [by apply (clear_safe old); [left|]|].
        split; [|by cbn; rewrite lookup_insert_eq]. split_and!; [done|done|by eexists].
    + intros []. eapply dt_bind with (Q := fun _ => J (in_state old)).
      * unfold rename_file. eapply dt_bind with (Q := fun _ d => before d /\ files d !! temp_journal env = Some (Journal t)).
        { eapply dt_conseq; [apply (dt_call _ _ (fun d => before d /\ files d !! temp_journal env = Some (Journal t)))|done|done|]. intros d [[[? _] _] _]. by right. }
        intros []. apply dt_with_disk. intros d [([Hm Hst] & Hs & f & Hf) Htj]. rewrite Htj. apply dt_put. intros _ _.
        assert (J (in_state old) (with_files d (<[COMPOSE_TRANSACTION_FILE := Journal t]> (delete (temp_journal env) (files d))))); [|split; [by eapply J_safe|done]].
        eexists _, t. split; [reflexivity|]. rewrite lookup_insert_eq. split_and!; [done|done|done|]. unfold in_state. rewrite <- Hst. unfold state_of.
        rewrite <- (staging_state (temp_journal env) (files d)) by done. unfold state. by rewrite !lookup_insert_ne.
      * intros []. eapply dt_conseq; [apply (dt_call _ _ (J (in_state old)))|done|done|]. intros d []. by left.
  - intros e. eapply dt_bind with (Q := fun _ => started); [|intros []; by apply dt_throw]. apply dt_ignore. unfold remove_other_file.
    eapply dt_bind with (Q := fun _ => started); [eapply dt_conseq; [apply (dt_call _ _ started)|done|done|by intros d []]|]. intros []. apply dt_with_disk. intros d Hd.
    destruct (files d !! temp_journal env) as [c|] eqn:E; [|apply dt_throw; by intros ? ->]. apply dt_put. intros _ _.
    assert (exists f, dk_dir d = Some f /\ files d = f) as (f & Hf & Hfs).
    { unfold files in *. destruct (dk_dir d) as [f|]; [by eexists|]. cbn in E. by rewrite lookup_empty in E. }
    rewrite Hfs. destruct Hd as [Hd|Hd].
    + destruct (J_files _ d Hd) as (f' & Hf' & _ & HF). rewrite Hf in Hf'. injection Hf' as <-.
      destruct (J_delete (in_state old) (in_state old) d f (temp_journal env) Hf Hd Ht2) as [? ?]; [unfold in_state; by rewrite staging_state|]. split; [done|by left].
    + assert (clear old (with_files d (delete (temp_journal env) f))); [|split; [by apply (clear_safe old); [left|]|by right]].
      eapply before_update; [done|done|done|done|]. intros k Hk. by rewrite lookup_delete_ne.
Qed.

Definition opened (d : Disk) : Prop := clear old d /\ exists f, dk_dir d = Some f.

Lemma dt_create_dir : triple Safe (clear old) (create_project_dir env) (fun _ => opened) (clear old).
Proof.
  unfold create_project_dir. eapply dt_bind with (Q := fun _ => clear old); [eapply dt_conseq; [apply (dt_call _ _ (clear old))|done|done|by intros d []]|].
  intros []. apply dt_with_disk. intros d [Hm Hst]. apply dt_put. intros _ _. assert (clear old (with_files d (files d))) as Hc by done.
  split; [apply (clear_safe old); [by left|done]|]. split; [done|]. by eexists.
Qed.

Lemma dt_opened_call : triple Safe opened (attempt_call env) (fun _ => opened) (clear old).
Proof. eapply dt_conseq; [apply (dt_call _ _ opened)|done|done|]. by intros d [[? _] _]. Qed.

Lemma dt_read name : triple Safe opened (read_optional env name) (fun v d => opened d /\ v = text_content env <$> files d !! name) (clear old).
Proof.
  unfold read_optional. eapply dt_bind; [apply dt_opened_call|]. intros []. apply dt_with_disk. intros d Hd.
  destruct (files d !! name) as [[b|t]|] eqn:E; apply dt_ret; intros ? ->; rewrite E; done.
Qed.

Lemma dt_load_ids : triple Safe opened (load_registry_credential_ids_strict env) (fun v d => before d /\ v = old.2) (clear old).
Proof.
  unfold load_registry_credential_ids_strict. eapply dt_bind; [apply dt_opened_call|]. intros []. apply dt_with_disk. intros d [[Hm Hst] Hf].
  assert (ids_of (dk_sidecar d) = old.2) as Hids by (by rewrite <- Hst). destruct (dk_sidecar d) as [[e|ids rest]|] eqn:Es.
  - apply dt_throw. by intros ? ->.
  - apply dt_ret. intros ? ->. unfold before, readable. rewrite Es. split; [split_and!|]; done.
  - apply dt_ret. intros ? ->. unfold before, readable. rewrite Es. split; [split_and!|]; done.
Qed.

Lemma J_begin : triple Safe (clear old) (begin_compose_deployment_transaction env app) (fun _ => J (in_state old)) started.
Proof.
  assert (forall A (m : deploy A) P Q, triple Safe P m Q (clear old) -> triple Safe P m Q started) as Hw.
  { intros A m P Q H. eapply dt_conseq; [exact H|done|done|]. intros d ?. by right. }
  unfold begin_compose_deployment_transaction, with_valid_name. rewrite Happ. eapply dt_bind; [apply Hw, dt_create_dir|]. intros [].
  apply dt_with_disk. intros d Hd. assert (file_exists d COMPOSE_TRANSACTION_FILE = false) as ->.
  { destruct Hd as [[Hm _] _]. unfold file_exists. by rewrite Hm. }
  eapply dt_bind with (Q := fun _ => opened); [apply dt_ret; by intros ? ->|]. intros []. eapply dt_bind; [apply Hw, dt_opened_call|]. intros [].
  assert (forall name (v : option string), (forall d, opened d -> text_content env <$> files d !! name = v) ->
    triple Safe opened (read_optional env name) (fun x d => opened d /\ x = v) started) as Hread.
  { intros name v Hv. apply Hw. eapply dt_conseq; [apply dt_read|done| |done]. intros x d' [Ho ->]. split; [done|]. by apply Hv. }
  eapply dt_bind; [apply (Hread _ old.1.1.1); intros d' [[_ <-] _]; done|]. intros c. apply dt_pure. intros Hc.
  eapply dt_bind; [apply (Hread _ old.1.1.2); intros d' [[_ <-] _]; done|]. intros e. apply dt_pure. intros He.
  eapply dt_bind; [apply (Hread _ old.1.2); intros d' [[_ <-] _]; done|]. intros m. apply dt_pure. intros Hm.
  eapply dt_bind; [apply Hw, dt_load_ids|]. intros ids. apply dt_pure. intros Hids. apply J_write_journal. unfold journal_state. cbn. subst. by destruct old as [[[? ?] ?] ?].
Qed.

(** ** From the journal to the commit *)

Definition settled (d : Disk) : Prop := undone d \/ clear new d.

Lemma dt_failing {A} stage (m : deploy A) undo P Q R : triple Safe P m Q R -> triple Safe R undo (fun _ => settled) settled -> triple Safe P (failing stage m undo) Q settled.
Proof. intros Hm Hu. unfold failing. eapply dt_catch; [exact Hm|]. intros e. eapply dt_bind; [exact Hu|]. intros []. by apply dt_throw. Qed.

Lemma dt_undo reconcile : triple Safe (J any) (rollback_compose_transaction env app reconcile) (fun _ => settled) settled.
Proof.
  unfold rollback_compose_transaction. apply dt_ignore. eapply dt_conseq; [apply (J_rollback reconcile)|by left| |].
  - intros [] d ?. by left; right.
  - intros d [? _]. by left.
Qed.

Lemma staged_apart : Forall (fun n => n <> COMPOSE_TRANSACTION_FILE /\ is_staging n = true) [staged_compose env; staged_env env; compose_backup env; env_backup env] /\
  staged_compose env <> staged_env env /\ staged_compose env <> env_backup env /\ staged_env env <> env_backup env.
Proof.
  unfold staged_compose, staged_env, compose_backup, env_backup, is_staging. split_and!; try discriminate.
  - repeat constructor; try discriminate; rewrite !orb_true_iff; (do 2 left; by apply starts_with_spec; eexists) || (left; right; by apply starts_with_spec; eexists).
  - intros H. apply (f_equal to_bytes) in H. rewrite !to_bytes_app in H. apply app_inv_head in H.
    apply (f_equal (@length _)) in H. rewrite length_app in H. cbn in H. lia.
Qed.

Lemma J_install (F F' : gmap string Content -> option Sidecar -> Prop) staged canonical backup :
  staged <> COMPOSE_TRANSACTION_FILE -> canonical <> COMPOSE_TRANSACTION_FILE -> backup <> COMPOSE_TRANSACTION_FILE -> staged <> canonical -> staged <> backup ->
  (forall f s, F f s -> exists c, f !! staged = Some c /\ forall o, F' (<[canonical := c]> (delete staged (<[backup := o]> (delete canonical f)))) s /\ F' (<[canonical := c]> (delete staged f)) s) ->
  triple Safe (J F) (install_staged_file env staged canonical backup) (fun _ => J F') (J any).
Proof.
  intros H1 H2 H3 H4 H5 HF. unfold install_staged_file. apply dt_with_disk. intros d Hd.
  set (F1 := fun f s => exists c, f !! staged = Some c /\ F' (<[canonical := c]> (delete staged f)) s).
  eapply dt_bind with (Q := fun _ => J F1).
  { destruct (file_exists d canonical) eqn:E.
    - eapply dt_conseq; [apply (J_rename (fun f s => F f s /\ is_Some (f !! canonical)) F1); [done|done|]|intros ? ->|done|intros d' [? _]; by eapply J_any].
      + intros f s [HFf [o Ho]]. exists o. split; [done|]. destruct (HF f s HFf) as (c & Hc & HF'). exists c. rewrite lookup_insert_ne, lookup_delete_ne by done. split; [done|apply HF'].
      + destruct Hd as (f & t & Hf & Ht & Hj & Hs & HFf). exists f, t. split_and!; try done. unfold file_exists, files in E. rewrite Hf in E. cbn in E. by destruct (f !! canonical).
    - apply dt_ret. intros ? ->. eapply J_mono; [|exact Hd]. intros f s HFf. destruct (HF f s HFf) as (c & Hc & HF'). exists c. split; [done|]. by apply (HF' (Bytes "")). }
  intros []. eapply dt_bind with (Q := fun _ => J F'); [|intros []; by apply dt_ret]. eapply dt_catch with (R := J any).
  - eapply dt_conseq; [by apply (J_rename F1 F'); [..|intros f s (c & Hc & ?); eauto]|done|done|]. intros d' [? _]. by eapply J_any.
  - intros e. eapply dt_bind with (Q := fun _ => J any); [|intros []; by apply dt_throw]. destruct (file_exists d canonical); [|by apply dt_ret].
    apply dt_ignore. by apply J_rename_any.
Qed.

Lemma dt_unstage had_env remove_dir : triple Safe (J any) (abort_compose_stage env had_env remove_dir ;;; rollback_compose_transaction env app false) (fun _ => settled) settled.
Proof.
  eapply dt_bind with (Q := fun _ => J any); [|intros []; apply dt_undo]. unfold abort_compose_stage. destruct remove_dir; [by apply dt_ret|].
  destruct staged_apart as [Hst _]. rewrite !Forall_cons in Hst. destruct Hst as ([Hs1 _] & [Hs2 _] & [Hs3 _] & [Hs4 _] & _).
  eapply dt_bind with (Q := fun _ => J any).
  - unfold restore_staged_file. eapply dt_bind with (Q := fun _ => J any); [by apply J_remove_any|]. intros []. destruct had_env; [|by apply dt_ret].
    apply dt_ignore. by apply J_rename_any.
  - intros []. cbn. eapply dt_bind with (Q := fun _ => J any); [by apply J_remove_other_any|]. intros []. by apply dt_ret.
Qed.

Lemma J_meta (F : gmap string Content -> option Sidecar -> Prop) allow_unsafe :
  (forall f s c, F f s -> F (<[META_FILE := c]> f) s) -> (forall f s, F f s -> F (delete META_FILE f) s) ->
  triple Safe (J F) (write_app_meta env allow_unsafe)
    (fun _ => J (fun f s => F f s /\ text_content env <$> f !! META_FILE = (if allow_unsafe then Some META_UNSAFE else None))) (J any).
Proof.
  intros H1 H2. destruct allow_unsafe; cbn.
  - eapply dt_conseq; [apply (J_write F (fun f s => F f s /\ text_content env <$> f !! META_FILE = Some META_UNSAFE)); [done|]|done|done|by intros d []].
    intros f s HF. split; [by apply H1|]. by rewrite lookup_insert_eq.
  - apply J_remove_own; [done|done|]. intros f s HF. split; [by apply H2|]. by rewrite lookup_delete_eq.
Qed.

Lemma J_deploy req compose ids is_update : dr_name req = app ->
  new = (Some compose, Some (render_env_file app (dr_env_file req)), (if dr_allow_unsafe req then Some META_UNSAFE else None), ids) ->
  triple Safe (J any) (deploy_under_journal env req compose ids is_update) (fun _ => clear new) settled.
Proof.
  intros Hreq Hnew. unfold deploy_under_journal. rewrite Hreq. set (e := render_env_file app (dr_env_file req)) in *.
  destruct staged_apart as (Hst & Hd1 & Hd2 & Hd3). rewrite !Forall_cons in Hst. destruct Hst as ([Hs1 Hg1] & [Hs2 Hg2] & [Hs3 Hg3] & [Hs4 Hg4] & _).
  assert (forall n, is_staging n = true -> n <> ENV_FILE /\ n <> COMPOSE_FILE /\ n <> META_FILE) as Hcan by (intros n Hn; split_and!; intros ->; done).
  destruct (Hcan _ Hg1) as (? & ? & ?), (Hcan _ Hg2) as (? & ? & ?), (Hcan _ Hg3) as (? & ? & ?), (Hcan _ Hg4) as (? & ? & ?).
  assert (staged_compose env <> compose_backup env) as Hd4.
  { unfold staged_compose, compose_backup. intros Hx. apply (f_equal to_bytes) in Hx. rewrite !to_bytes_app in Hx. do 2 apply app_inv_head in Hx. done. }
  set (G1 := fun (f : gmap string Content) (s : option Sidecar) => f !! staged_compose env = Some (Bytes compose)).
  set (G2 := fun f s => G1 f s /\ f !! staged_env env = Some (Bytes e)).
  set (G3 := fun f s => G1 f s /\ f !! ENV_FILE = Some (Bytes e)).
  set (G4 := fun f s => G3 f s /\ ids_of s = ids).
  set (G5 := fun (f : gmap string Content) s => f !! COMPOSE_FILE = Some (Bytes compose) /\ f !! ENV_FILE = Some (Bytes e) /\ ids_of s = ids).
  assert (forall A stage (m : deploy A) P Q undo, triple Safe P m Q Jerr -> triple Safe (J any) undo (fun _ => settled) settled ->
            triple Safe P (failing stage m undo) Q settled) as Hf.
  { intros A stage m P Q undo Hm Hu. eapply dt_failing; [exact Hm|]. eapply dt_conseq; [exact Hu|by intros d []|done|done]. }
  eapply dt_bind with (Q := fun _ => J G1).
  { apply Hf; [|apply dt_undo]. apply J_write; [done|]. intros f s _. apply lookup_insert_eq. }
  intros []. eapply dt_bind with (Q := fun _ => J G2).
  { apply Hf; [|apply dt_undo]. apply J_write; [done|]. intros f s HG. split; [unfold G1; by rewrite lookup_insert_ne|apply lookup_insert_eq]. }
  intros []. eapply dt_bind with (Q := fun _ => J G3).
  { eapply dt_failing; [|apply dt_undo]. apply J_install; try done. intros f s [HG1 HG2]. exists (Bytes e). split; [done|]. intros o. unfold G3, G1.
    rewrite !lookup_insert_eq. rewrite !lookup_insert_ne by done. rewrite !lookup_delete_ne by done. rewrite !lookup_insert_ne by done. by rewrite !lookup_delete_ne. }
  intros had_env. eapply dt_bind with (Q := fun _ => J G3); [apply Hf; [apply J_call|apply dt_unstage]|].
  intros []. eapply dt_bind with (Q := fun _ => J G3).
  { eapply dt_failing with (R := J any); [|apply dt_unstage]. eapply dt_bind; [eapply dt_conseq; [apply J_call|done|done|by intros d []]|]. intros [].
    apply dt_lift; [done|]. intros ? d _ Hd. by eapply J_any. }
  intros plan. eapply dt_bind with (Q := fun _ => J G3).
  { eapply dt_failing with (R := J any); [|apply dt_unstage]. eapply dt_bind with (Q := fun _ => J G3).
    - unfold validate_registry_credential_ids. eapply dt_bind; [eapply dt_conseq; [apply J_call|done|done|by intros d []]|]. intros []. apply dt_lift; [done|]. intros ? d _ Hd. by eapply J_any.
    - intros []. apply dt_lift; [done|]. intros ? d _ Hd. by eapply J_any. }
  intros []. eapply dt_bind with (Q := fun _ => J G3).
  { apply Hf; [|apply dt_unstage]. apply dt_each. intros x _. apply J_call. }
  intros []. eapply dt_bind with (Q := fun _ => J G3).
  { unfold load_registry_credential_ids. eapply dt_catch with (R := J G3); [|intros er; by apply dt_ret]. unfold load_registry_credential_ids_strict.
    eapply dt_bind with (Q := fun _ => J G3); [eapply dt_conseq; [apply (dt_call _ _ (J G3))|done|done|by intros d []]|]. intros []. apply dt_with_disk. intros d Hd.
    destruct (dk_sidecar d) as [[]|]; [apply dt_throw|apply dt_ret|apply dt_ret]; by intros ? ->. }
  intros previous_ids. eapply dt_bind with (Q := fun _ => J G4).
  { eapply dt_failing with (R := J any); [|apply dt_unstage]. eapply dt_conseq; [apply (J_ids G3 G4); [done|]|done|done|by intros d []]. done. }
  intros []. eapply dt_bind with (Q := fun _ => J G5).
  { eapply dt_failing with (R := J any); [|].
    - apply J_install; try done. intros f s [[HG1 HG3] HG4]. exists (Bytes compose). split; [done|]. intros o. unfold G5.
      rewrite !lookup_insert_eq. rewrite !lookup_insert_ne by done. rewrite !lookup_delete_ne by done. rewrite !lookup_insert_ne by done. by rewrite !lookup_delete_ne.
    - eapply dt_bind with (Q := fun _ => J any); [|intros []; apply dt_unstage]. apply dt_ignore. eapply dt_conseq; [apply (J_ids any any); done|done|done|by intros d []]. }
  intros _. eapply dt_bind with (Q := fun _ => J G5); [apply Hf; [by apply J_sync|apply dt_undo]|].
  intros []. eapply dt_bind with (Q := fun _ => J G5); [apply Hf; [apply J_up|apply dt_undo]|].
  intros []. eapply dt_bind with (Q := fun _ => J (in_state new)).
  { eapply dt_failing; [|apply dt_undo]. eapply dt_conseq; [apply (J_meta G5)|done| |done].
    - intros f s c HG. unfold G5. by rewrite !lookup_insert_ne.
    - intros f s HG. unfold G5. by rewrite !lookup_delete_ne.
    - intros [] d. apply J_mono. intros f s [(Hc & He & Hi) Hm]. unfold in_state, state. by rewrite Hc, He, Hm, Hi, Hnew. }
  intros []. eapply dt_failing; [apply J_finish; [done|by right]|]. apply dt_ret. intros d [[?|?] _]; [by left; left|by right].
Qed.

(** Giving up before anything was staged. *)
Lemma dt_discard is_update : (is_update = false -> old = (None, None, None, [])) ->
  triple Safe started (discard_compose_stage env [] (negb is_update)) (fun _ => settled) settled.
Proof.
  intros Hold. destruct is_update; cbn [negb discard_compose_stage each].
  { apply dt_ret. intros d [H|H]; left; [left; by eapply J_any|by right]. }
  specialize (Hold eq_refl). unfold discard_compose_stage. apply dt_ignore. intros w Hw [Hd|Hd].
  - assert (J emptied (dw_disk w)) as He.
    { eapply J_mono; [|exact Hd]. intros f s Hst. unfold in_state, state in Hst. rewrite Hold in Hst. injection Hst as H1 H2 H3 H4.
      split_and!; [| | |done]; [by destruct (f !! COMPOSE_FILE)|by destruct (f !! ENV_FILE)|by destruct (f !! META_FILE)]. }
    destruct (J_remove_dir Hold w Hw He) as [H1 H2]. split; [done|]. destruct (snd _); [by left; right|left; apply H2].
  - assert (triple Safe (clear old) (remove_project_dir env) (fun _ => settled) settled) as H; [|by apply H].
    unfold remove_project_dir. eapply dt_bind; [apply dt_number|]. intros n. apply dt_with_disk. intros d [Hm Hst].
    destruct (dk_dir d) as [f|] eqn:Hf; [|apply dt_throw; intros ? ->; by left; right]. assert (files d = f) as Hfs by (unfold files; by rewrite Hf).
    assert (forall g : gmap string Content, (forall k, f !! k = None -> g !! k = None) -> clear old (mkDisk (Some g) (dk_sidecar d)) /\ clear old (mkDisk None (dk_sidecar d))) as Hclear.
    { intros g Hg. unfold clear, state_of in *. rewrite Hfs in *. rewrite Hold in *. unfold state in Hst. injection Hst as H1 H2 H3 H4.
      split; (split; [by try apply Hg|]); unfold state, files; cbn; rewrite H4; [|done]. rewrite !Hg; [done|..]; [by destruct (f !! META_FILE)|by destruct (f !! ENV_FILE)|by destruct (f !! COMPOSE_FILE)]. }
    destruct (Hclear (filter (fun kv => de_left env n kv.1 = true) f)) as [Hc1 Hc2]; [intros k Hk; apply map_lookup_filter_None; by left|].
    eapply dt_bind with (Q := fun _ => settled).
    + apply dt_put. intros _ _. split; [by apply (clear_safe old); [left|]|by left; right].
    + intros []. destruct (de_fault env n); [by apply dt_throw|]. apply dt_put. intros _ _. split; [by apply (clear_safe old); [left|]|by left; right].
Qed.

(** From the point where the credentials are known. *)
Lemma J_commit req compose ids is_update : dr_name req = app -> (is_update = false -> old = (None, None, None, [])) ->
  new = (Some compose, Some (render_env_file app (dr_env_file req)), (if dr_allow_unsafe req then Some META_UNSAFE else None), ids) ->
  triple Safe (clear old)
    (failing "write-compose" (create_project_dir env) (m_ret tt) ;;;
     failing "stage-transaction" (begin_compose_deployment_transaction env app) (discard_compose_stage env [] (negb is_update)) ;;;
     deploy_under_journal env req compose ids is_update ;;;
     each (fun backup => m_ignore (remove_other_file env backup)) [compose_backup env; env_backup env]) (fun _ => clear new) settled.
Proof.
  intros Hreq Hold Hnew. eapply dt_bind with (Q := fun _ => clear old).
  { eapply dt_failing; [eapply dt_conseq; [apply dt_create_dir|done|by intros [] d []|done]|]. apply dt_ret. intros d ?. by left; right. }
  intros []. eapply dt_bind with (Q := fun _ => J any).
  { eapply dt_failing; [eapply dt_conseq; [apply J_begin|done|by intros [] d; apply J_any|done]|by apply dt_discard]. }
  intros []. eapply dt_bind; [by apply J_deploy|]. intros [].
  destruct staged_apart as [Hst _]. rewrite !Forall_cons in Hst. destruct Hst as (_ & _ & [Hs3 Hg3] & [Hs4 Hg4] & _).
  assert (forall n R, n <> COMPOSE_TRANSACTION_FILE -> is_staging n = true -> triple Safe (clear new) (m_ignore (remove_other_file env n)) (fun _ => clear new) R) as Hrm.
  { intros n R Hn Hsn. apply dt_ignore. unfold remove_other_file. eapply dt_bind with (Q := fun _ => clear new); [eapply dt_conseq; [apply (dt_call _ _ (clear new))|done|done|by intros d []]|].
    intros []. apply dt_with_disk. intros d [Hm Hst]. destruct (files d !! n); [|apply dt_throw; by intros ? ->]. apply dt_put. intros _ _.
    assert (clear new (with_files d (delete n (files d)))); [|split; [by apply (clear_safe new); [right|]|done]].
    split; [change (delete n (files d) !! COMPOSE_TRANSACTION_FILE = None); by rewrite lookup_delete_ne|]. rewrite <- Hst. by apply staging_state. }
  cbn [each]. eapply dt_bind; [by apply Hrm|]. intros []. eapply dt_bind; [by apply Hrm|]. intros []. by apply dt_ret.
Qed.

Lemma settled_safe d : settled d -> Safe d.
Proof. intros [[H|H]|H]; [by eapply J_safe|by apply (clear_safe old); [left|]|by apply (clear_safe new); [right|]]. Qed.

End journal.

(** ** The whole deployment *)

(** Does not touch the disk. *)
Definition quiet {A} (m : deploy A) : Prop := forall w, dw_disk (m w).1 = dw_disk w /\ dw_past (m w).1 = dw_past w.

Lemma quiet_bind {A B} (m : deploy A) (k : A -> deploy B) : quiet m -> (forall a, quiet (k a)) -> quiet (m_bind m k).
Proof.
  intros Hm Hk w. destruct (Hm w) as [H1 H2]. unfold m_bind. destruct (m w) as [w1 [a|e]]; cbn in *; [|done].
  destruct (Hk a w1) as [H3 H4]. split; congruence.
Qed.

Lemma quiet_ret {A} (a : A) : quiet (m_ret a).
Proof. done. Qed.
Lemma quiet_throw {A} e : quiet (A := A) (m_throw e).
Proof. done. Qed.
Lemma quiet_lift {A} (r : result A string) : quiet (m_lift r).
Proof. done. Qed.
Lemma quiet_disk : quiet the_disk.
Proof. done. Qed.

Lemma quiet_call env : quiet (attempt_call env).
Proof. intros w. unfold attempt_call, m_bind, next_number. cbn. by destruct (de_fault env (dw_calls w)). Qed.

Create HintDb deploy_db discriminated.
#[export] Hint Resolve quiet_bind quiet_ret quiet_throw quiet_lift quiet_disk quiet_call : deploy_db.

Lemma quiet_available env app : quiet (ensure_new_app_name_available env app).
Proof.
  unfold ensure_new_app_name_available. destruct (validate_new_app_name app) as [|[]]; auto with deploy_db.
  apply quiet_bind; [auto with deploy_db|]. intros []. apply quiet_bind; [auto with deploy_db|]. intros d. destruct (_ || _); auto with deploy_db.
Qed.

Lemma quiet_failing {A} stage (m : deploy A) : quiet m -> quiet (failing stage m (m_ret tt)).
Proof. intros H w. destruct (H w) as [H1 H2]. unfold failing, m_catch. by destruct (m w) as [w1 []]. Qed.

Lemma quiet_load env : quiet (load_registry_credential_ids env).
Proof.
  assert (quiet (load_registry_credential_ids_strict env)) as H.
  { apply quiet_bind; [auto with deploy_db|]. intros []. apply quiet_bind; [auto with deploy_db|]. intros d. destruct (dk_sidecar d) as [[]|]; auto with deploy_db. }
  intros w. destruct (H w) as [H1 H2]. unfold load_registry_credential_ids, m_catch. by destruct (load_registry_credential_ids_strict env w) as [w1 []].
Qed.

(** What is read is what is there, or nothing. *)
Lemma load_value env w ids : (load_registry_credential_ids env w).2 = Ok ids -> ids = ids_of (dk_sidecar (dw_disk w)) \/ ids = [].
Proof.
  unfold load_registry_credential_ids, m_catch, load_registry_credential_ids_strict, m_bind, attempt_call, next_number, the_disk, m_get. cbn.
  destruct (de_fault env (dw_calls w)); cbn; [intros [= <-]; by right|]. destruct (dk_sidecar (dw_disk w)) as [[]|]; cbn; intros [= <-]; tauto.
Qed.

(** What the app is after the deployment, with these credentials. *)
Definition deployed (req : DeployRequest) (ids : list string) : AppState :=
  (Some (default "" (dr_compose_file req)), Some (render_env_file (dr_name req) (dr_env_file req)), (if dr_allow_unsafe req then Some META_UNSAFE else None), ids).

(** The credentials asked for, or else those the app has; these are lost when they
    cannot be read. *)
Definition pinned (req : DeployRequest) (old : AppState) (ids : list string) : Prop :=
  match dr_registry_credential_ids req with Some asked => ids = asked | None => ids = old.2 \/ ids = [] end.

Lemma bind_run {A B} (m : deploy A) (k : A -> deploy B) w :
  m_bind m k w = match m w with (w1, Ok a) => k a w1 | (w1, Err e) => (w1, Err e) end.
Proof. reflexivity. Qed.

Lemma disk_run {A} (k : Disk -> deploy A) w : m_bind the_disk k w = k (dw_disk w) w.
Proof. reflexivity. Qed.

Lemma deploy_runs env req w old :
  (forall n, de_keep_fault env n = None) -> validate_app_name (dr_name req) = Ok tt -> dw_past w = [] -> clear env old (dw_disk w) -> whole old ->
  exists ids, pinned req old ids /\ let r := deploy_compose env req w in
    Forall (safe env old (deployed req ids)) (dw_past r.1) /\ match r.2 with Ok _ => clear env (deployed req ids) (dw_disk r.1) | Err _ => settled env old (deployed req ids) (dw_disk r.1) end.
Proof.
  intros Hk Happ Hw Hd Hwhole.
  assert (exists ids0, pinned req old ids0) as [ids0 Hp0] by (unfold pinned; destruct (dr_registry_credential_ids req); eauto).
  (* a run that ends without touching the disk *)
  assert (forall (r : DeployWorld * result unit string), dw_disk r.1 = dw_disk w -> dw_past r.1 = dw_past w -> is_ok r.2 = false ->
    exists ids, pinned req old ids /\ Forall (safe env old (deployed req ids)) (dw_past r.1) /\
      match r.2 with Ok _ => clear env (deployed req ids) (dw_disk r.1) | Err _ => settled env old (deployed req ids) (dw_disk r.1) end) as Hstop.
  { intros [w1 [u|e]] H1 H2 H3; [done|]. cbn in *. exists ids0. rewrite H2, Hw, H1. split_and!; [done|constructor|]. by left; right. }
  unfold deploy_compose. destruct (dr_compose_file req) as [compose|] eqn:Ec; [|by apply Hstop].
  destruct (validate_compose _ _ _ _); [|by apply Hstop]. rewrite disk_run.
  destruct (_ && negb _) eqn:Eg; [by apply Hstop|].
  set (is_update := file_exists (dw_disk w) COMPOSE_FILE) in *.
  assert (is_update = false -> old = (None, None, None, [])) as Hold.
  { intros Hu. apply Hwhole. destruct Hd as [_ <-]. unfold state_of, state. cbn. unfold is_update, file_exists in Hu. by destruct (files (dw_disk w) !! COMPOSE_FILE). }
  rewrite bind_run. set (m1 := if is_update then _ else _). assert (quiet m1) as Hq1 by (unfold m1; destruct is_update; [apply quiet_ret|apply quiet_failing, quiet_available]).
  destruct (Hq1 w) as [Hd1 Hp1]. destruct (m1 w) as [w1 [[]|e]] eqn:E1; [|by apply Hstop]. cbn in Hd1, Hp1.
  rewrite bind_run. set (m2 := match dr_registry_credential_ids req with Some _ => _ | None => _ end).
  assert (quiet m2) as Hq2 by (unfold m2; destruct (dr_registry_credential_ids req); [apply quiet_ret|destruct is_update; [apply quiet_load|apply quiet_ret]]).
  destruct (Hq2 w1) as [Hd2 Hp2]. destruct (m2 w1) as [w2 [ids|e]] eqn:E2; [|apply Hstop; cbn in *; congruence || done]. cbn in Hd2, Hp2.
  assert (pinned req old ids) as Hpin.
  { unfold pinned. unfold m2 in E2. destruct (dr_registry_credential_ids req); [by injection E2|]. destruct is_update; [|injection E2 as <-; by right].
    pose proof (load_value env w1 ids) as Hl. rewrite E2, Hd1 in Hl. destruct (Hl eq_refl) as [->| ->]; [left|by right]. by destruct Hd as [_ <-]. }
  rewrite bind_run. set (m3 := failing _ (validate_registry_credential_ids env ids) _).
  assert (quiet m3) as Hq3 by (apply quiet_failing, quiet_bind; [apply quiet_call|intros []; apply quiet_lift]).
  destruct (Hq3 w2) as [Hd3 Hp3]. destruct (m3 w2) as [w3 [[]|e]] eqn:E3; [|apply Hstop; cbn in *; congruence || done].
  cbn in Hd3, Hp3. exists ids. split; [done|].
  apply (J_commit env old (deployed req ids) (dr_name req) Happ Hk Hwhole req compose ids is_update eq_refl Hold); [unfold deployed; by rewrite Ec| |].
  - rewrite Hp3, Hp2, Hp1, Hw. constructor.
  - by rewrite Hd3, Hd2, Hd1.
Qed.

(** ** Dying and starting again *)

Definition keeps_no_file (env : DeployEnv) : Prop := forall n, de_keep_fault env n = None.

(** The engine is started on [d] and dies, or ends, in a state it passes through. *)
Definition dies_in (env : DeployEnv) (app : string) (d d' : Disk) : Prop :=
  exists w, dw_disk w = d /\ dw_past w = [] /\ let r := recover_compose_deployment env app w in d' ∈ dw_disk r.1 :: dw_past r.1.

(** What any number of restarts may make of [d]. *)
Inductive restarted (text : ComposeDeploymentTransaction -> string) (app : string) : Disk -> Disk -> Prop :=
  | not_restarted d : restarted text app d d
  | restarted_again env d d1 d2 : de_text env = text -> keeps_no_file env -> restarted text app d d1 -> dies_in env app d1 d2 -> restarted text app d d2.

Lemma clear_same env env' st d : de_text env' = de_text env -> clear env' st d -> clear env st d.
Proof. intros H. unfold clear, state_of, state, text_content. by rewrite H. Qed.

Lemma safe_same env env' old new d : de_text env' = de_text env -> safe env' old new d <-> safe env old new d.
Proof. intros H. unfold safe, state_of, state, text_content. by rewrite H. Qed.

Section restart.
Context (env : DeployEnv) (app : string) (old new : AppState).
Hypotheses (Happ : validate_app_name app = Ok tt) (Hwhole : whole old).

Lemma recover_safe env' w : de_text env' = de_text env -> keeps_no_file env' -> dw_past w = [] -> safe env old new (dw_disk w) ->
  let r := recover_compose_deployment env' app w in
  (forall d, d ∈ dw_disk r.1 :: dw_past r.1 -> safe env old new d) /\
  match r.2 with Ok _ => clear env old (dw_disk r.1) \/ clear env new (dw_disk r.1) | Err _ => excuse env' old end.
Proof.
  intros Ht Hk Hw Hd. apply (safe_same env env') in Hd; [|done].
  destruct (J_recover env' old new app Happ Hk Hwhole w) as [H1 H2]; [by rewrite Hw|done|].
  destruct (recover_compose_deployment env' app w) as [w1 [[]|e]]; cbn in *.
  - split; [|destruct H2 as [H2|H2]; apply (clear_same env) in H2; tauto]. intros d [->|Hin]%elem_of_cons; apply (safe_same env env'); try done.
    + destruct H2; [by apply (clear_safe _ _ _ old); [left|]|by apply (clear_safe _ _ _ new); [right|]].
    + by eapply Forall_forall in Hin.
  - destruct H2 as [H2 H3]. split; [|done]. intros d [->|Hin]%elem_of_cons; apply (safe_same env env'); try done. by eapply Forall_forall in Hin.
Qed.

Lemma restarted_safe d d' : restarted (de_text env) app d d' -> safe env old new d -> safe env old new d'.
Proof.
  induction 1 as [|env' d d1 d2 Ht Hk _ IH (w & <- & Hw & Hin)]; intros Hd; [done|]. destruct (recover_safe env' w) as [H _]; auto.
Qed.

End restart.

(** C8. Unless one of the app's own files cannot be removed, a Compose
    deployment happens completely or not at all, whatever other calls fail,
    whatever a failing write leaves behind, and whenever the engine dies.  The
    app has a valid name and no journal of an earlier deployment, and has
    nothing if it has no Compose file.  When [deploy_compose] reports success
    the app's Compose file, environment and marker of an unsafe deployment are
    the requested ones, and so are its credentials; if the request names none
    they are the app's old ones, or none if those could not be read.  From the
    state it ends in and from every state [d] it passes through, and after any
    number of restarts that die or fail in turn, a recovery that reports success
    has brought back the old state completely or leaves the new one complete, and
    nothing of the journal; it does report success when its calls succeed and the
    old credentials still exist.  A removal that fails ([keeps_no_file]) is left
    out because the code ignores it in a rollback, see
    [rollback_starts_failed_app]. *)
Theorem compose_deploy_atomic env req w :
  keeps_no_file env -> validate_app_name (dr_name req) = Ok tt -> dw_past w = [] ->
  files (dw_disk w) !! COMPOSE_TRANSACTION_FILE = None -> whole (state_of env (dw_disk w)) ->
  let old := state_of env (dw_disk w) in
  let r := deploy_compose env req w in
  exists ids, pinned req old ids /\ (is_ok r.2 = true -> clear env (deployed req ids) (dw_disk r.1)) /\
    forall d d' env' w', d ∈ dw_disk r.1 :: dw_past r.1 -> restarted (de_text env) (dr_name req) d d' ->
      de_text env' = de_text env -> keeps_no_file env' -> dw_disk w' = d' -> dw_past w' = [] ->
      let r' := recover_compose_deployment env' (dr_name req) w' in
      (is_ok r'.2 = true -> clear env old (dw_disk r'.1) \/ clear env (deployed req ids) (dw_disk r'.1)) /\
      (~ faulty env' -> validate_ids env' [] old.2 = Ok tt -> is_ok r'.2 = true).
Proof.
  intros Hk Happ Hw Hm Hwhole old r. destruct (deploy_runs env req w old Hk Happ Hw (conj Hm eq_refl) Hwhole) as (ids & Hpin & Hpast & Hend).
  fold r in Hpast, Hend. exists ids. split; [done|]. split; [intros Hok; by destruct (r.2)|].
  intros d d' env' w' Hd Hr Ht Hk' <- Hw' r'.
  assert (safe env old (deployed req ids) d) as Hs.
  { apply elem_of_cons in Hd as [->|Hin]; [|by eapply Forall_forall in Hin].
    destruct (r.2); [by apply (clear_safe _ _ _ (deployed req ids)); [right|]|by apply settled_safe]. }
  pose proof (restarted_safe env (dr_name req) old _ Happ Hwhole _ _ Hr Hs) as Hs'.
  destruct (recover_safe env (dr_name req) old _ Happ Hwhole env' w' Ht Hk' Hw' Hs') as [_ H]. fold r' in H.
  destruct (r'.2) as [u|e]; cbn; [tauto|]. split; [done|]. unfold excuse in H. tauto.
Qed.

(** ** Examples *)

(** A host where every call succeeds but those [fault] and [keep] name. *)
Definition demo_env (fault keep : nat -> option string) : DeployEnv :=
  mkDeployEnv fault keep (fun _ => Some "torn") (fun _ _ => true) (fun _ => "journal")
    (mkHostFs (fun _ => false) (fun _ => None) (fun _ => None))
    (fun text => Ok (JObj [("services", JObj [("web", JObj [("image", JStr text)])])]))
    (Ok tt) ["hub"] [] (Ok (["nginx"], ["nginx"])) (Ok tt) "1" "2".

Definition demo_none : nat -> option string := fun _ => None.

Definition demo_only (k : nat) : nat -> option string := fun n => if Nat.eqb n k then Some "EIO" else None.

Definition demo_request (ids : option (list string)) : DeployRequest := mkDeployRequest "web" (Some "nginx:2") (Some "A=1") false ids.

Definition demo_world (d : Disk) : DeployWorld := mkDeployWorld d [] None ∅ 0.

(** The app is deployed and uses a credential. *)
Definition demo_old : Disk :=
  mkDisk (Some {[COMPOSE_FILE := Bytes "nginx:1"; ENV_FILE := Bytes "A=0"; META_FILE := Bytes META_UNSAFE]}) (Some (Manifest ["hub"] "ports")).

(** The update ends with the new state; the engine dies in the middle of it, and
    the next one brings the old state back. *)
Lemma compose_deploy_atomic_witness :
  let env := demo_env demo_none demo_none in
  let req := demo_request (Some ["hub"]) in
  let r := deploy_compose env req (demo_world demo_old) in
  clear env (deployed req ["hub"]) (dw_disk r.1) /\
  exists d, dw_past r.1 !! 5%nat = Some d /\ is_some (files d !! COMPOSE_TRANSACTION_FILE) = true /\
    let r' := recover_compose_deployment env "web" (demo_world d) in
    is_ok r'.2 = true /\ (clear env (state_of env demo_old) (dw_disk r'.1) \/ clear env (deployed req ["hub"]) (dw_disk r'.1)).
Proof.
  intros env req r.
  destruct (compose_deploy_atomic env req (demo_world demo_old) (fun _ => eq_refl) ltac:(vm_compute; reflexivity) eq_refl
    ltac:(vm_compute; reflexivity) ltac:(intros H; vm_compute in H; discriminate)) as (ids & Hids & Hok & Hcrash).
  cbn in Hids. subst ids. split; [apply Hok; vm_compute; reflexivity|].
  eexists. split; [vm_compute; reflexivity|]. split; [vm_compute; reflexivity|].
  match goal with |- context [demo_world ?d] => destruct (Hcrash d d env (demo_world d)) as [H1 H2] end; [|apply not_restarted|done|done|done|done|].
  - right. eapply (list_elem_of_lookup_2 _ 5%nat). vm_compute. reflexivity.
  - split; [|apply H1]; apply H2; (vm_compute; reflexivity) || (intros [n Hn]; by apply Hn).
Defined.

(** A new app fails to start and its Compose file cannot be removed: the error of
    the removal is ignored, the file counts as the app's previous one, and the
    rollback starts the app it was to remove and commits. *)
Lemma rollback_starts_failed_app :
  let env := demo_env (demo_only 30) (demo_only 34) in
  let r := deploy_compose env (demo_request None) (demo_world (mkDisk None None)) in
  r.2 = Err "compose-up: EIO" /\ dw_running r.1 = Some (Some (Bytes "nginx:2"), None) /\
  state_of env (dw_disk r.1) = (Some "nginx:2", None, None, []) /\ files (dw_disk r.1) !! COMPOSE_TRANSACTION_FILE = None.
Proof. split_and!; vm_compute; reflexivity. Qed.

(** An update that does not name credentials keeps the app's own, but loses them
    when the sidecar cannot be read at that moment. *)
Lemma unread_credentials_dropped :
  let env := demo_env (demo_only 0) demo_none in
  let r := deploy_compose env (demo_request None) (demo_world demo_old) in
  is_ok r.2 = true /\ (state_of env demo_old).2 = ["hub"] /\ (state_of env (dw_disk r.1)).2 = [].
Proof. split_and!; vm_compute; reflexivity. Qed.
