(* ===== verification/Iscsi.v ===== *)
(** * iSCSI targets: data, names, portals and the boot-time remapping
    (nasty-sharing/src/iscsi.rs, nasty-common/src/block_volume.rs)

    What a target is, which names and portals are accepted, the plan that turns
    one set of portals into another, and the pass at engine start that points
    every LUN at the device its volume has now, in the records and in the file
    targetcli restores from. *)

From Stdlib Require Import ZArith Lia Ascii String List.
From stdpp Require Import base list gmap strings.
From S2P Require Import Prelude.
From S2P Require Import RustStr.
From S2P Require Import Net.
From S2P Require Import StateDir.
From S2P Require Import ShareScope.
From S2P Require Import BlockDev.

Inductive IscsiError : Type :=
| IeNotFound (s : string)
| IeAlreadyExists (s : string)
| IeBackstoreNotFound (s : string)
| IePathNotInPool (s : string)
| IeInvalidBackingVolume (s : string)
| IeConfigFs (s : string)
| IeCommandFailed (s : string)
| IeIo (s : string).

Definition iscsi_error_text (e : IscsiError) : string :=
  match e with
  | IeNotFound s => "target not found: " +:+ s
  | IeAlreadyExists s => "target already exists: " +:+ s
  | IeBackstoreNotFound s => "backing device/file not found: " +:+ s
  | IePathNotInPool s => "path is not within a NASty filesystem: " +:+ s
  | IeInvalidBackingVolume s => "LUN backing volume cannot be repaired: " +:+ s
  | IeConfigFs s => "configfs error: " +:+ s
  | IeCommandFailed s => "command failed: " +:+ s
  | IeIo s => "io error: " +:+ s
  end.

Record Portal : Type := mkPortal { po_ip : string; po_port : Z; po_iser : bool }.
#[export] Instance Portal_eq : EqDecision Portal. Proof. solve_decision. Defined.

Record Lun : Type := mkLun {
  lu_lun_id : Z;
  lu_backstore_path : string;
  lu_backstore_name : string;
  lu_backstore_type : string;
  lu_size_bytes : option Z;
  lu_backing_volume : option BlockVolumeId;
  lu_backing_volume_unresolved : bool;
}.

(** A sealed password is opaque: [EncryptedBlob] is whatever systemd-creds gave. *)
Record Acl : Type := mkAcl {
  ac_initiator_iqn : string;
  ac_userid : option string;
  ac_password : option string;
  ac_password_encrypted : option string;
}.

Record IscsiTarget : Type := mkIscsiTarget {
  it_id : string;
  it_iqn : string;
  it_alias : option string;
  it_portals : list Portal;
  it_luns : list Lun;
  it_acls : list Acl;
  it_enabled : bool;
}.

(** ** Redaction *)

Definition acl_redacted (a : Acl) : Acl :=
  mkAcl (ac_initiator_iqn a) (ac_userid a)
    (if is_some (ac_password a) || is_some (ac_password_encrypted a) then Some "***" else None) None.

Definition target_redacted (t : IscsiTarget) : IscsiTarget :=
  mkIscsiTarget (it_id t) (it_iqn t) (it_alias t) (it_portals t) (it_luns t) (acl_redacted <$> it_acls t) (it_enabled t).

(** ** Names *)

Definition DEFAULT_IQN_PREFIX : string := "iqn.2137-04.storage.nasty".

Definition iqn_label_char (c : ascii) : bool := is_ascii_lowercase c || is_ascii_digit c || Ascii.eqb c "-".

(** The month is parsed as [u8]: a sign is accepted by [parse]. *)
Definition iqn_date (date : string) : bool :=
  let '(year, month) := default ("", "") (split_once "-" date) in
  Nat.eqb (String.length year) 4 && forallb is_ascii_digit (to_bytes year) && Nat.eqb (String.length month) 2 &&
  match parse_uint 255 month with Some m => (1 <=? m) && (m <=? 12) | None => false end.

Definition iqn_domain (domain : string) : bool :=
  Nat.leb 2 (length (str_split "." domain)) &&
  forallb (fun l => negb (String.eqb l "") && forallb iqn_label_char (to_bytes l)) (str_split "." domain).

Definition normalize_iqn_prefix (value : string) : result string IscsiError :=
  let prefix := to_ascii_lowercase (trim value) in
  let valid := match strip_prefix "iqn." prefix with
               | Some rest => match split_once "." rest with Some (date, domain) => iqn_date date && iqn_domain domain | None => false end
               | None => false
               end in
  if valid then Ok prefix
  else Err (IeCommandFailed "Base IQN must look like iqn.YYYY-MM.reversed.domain (letters, digits, '-' and '.' only)").

Definition target_name_char (c : ascii) : bool :=
  is_ascii_alphanumeric c || Ascii.eqb c "-" || Ascii.eqb c "." || Ascii.eqb c ":".

Definition validate_target_name (name : string) : result unit IscsiError :=
  if String.eqb name "" then Err (IeCommandFailed "iSCSI target name is empty")
  else if Nat.ltb 200 (String.length name) then Err (IeCommandFailed "iSCSI target name exceeds 200 chars")
  else if negb (forallb (one_byte target_name_char) (chars name))
  then Err (IeCommandFailed ("iSCSI target name '" +:+ name +:+
         "' contains invalid characters (allowed: A-Z, a-z, 0-9, '-', '.', ':'; use '-' instead of '_')"))
  else Ok tt.

Definition build_target_iqn (prefix name : string) : result string IscsiError :=
  _ <-? validate_target_name name ;;
  p <-? normalize_iqn_prefix prefix ;;
  let iqn := p +:+ ":" +:+ to_ascii_lowercase name in
  if Nat.ltb 223 (String.length iqn) then Err (IeCommandFailed "iSCSI target IQN exceeds 223 characters") else Ok iqn.

(** The configured base: the file may be missing ([Ok None]). *)
Definition iqn_for_target_name (base : result (option string) string) (name : string) : result string IscsiError :=
  match base with
  | Ok (Some prefix) => build_target_iqn prefix name
  | Ok None => build_target_iqn DEFAULT_IQN_PREFIX name
  | Err e => Err (IeIo e)
  end.

Definition chap_enabled (userid password : option string) : result bool IscsiError :=
  match userid, password with
  | None, None => Ok false
  | Some u, Some p => if negb (String.eqb u "") && negb (String.eqb p "") then Ok true
                      else Err (IeCommandFailed "CHAP username and password must be provided together and must not be empty")
  | _, _ => Err (IeCommandFailed "CHAP username and password must be provided together and must not be empty")
  end.

(** ** Portals *)

Definition validate_portal_ip (ip : string) : result string IscsiError :=
  let trimmed := trim ip in
  if String.eqb trimmed "" then Err (IeCommandFailed "portal IP is empty")
  else
    let unwrapped := match strip_prefix "[" trimmed with
                     | Some s => default trimmed (strip_suffix "]" s)
                     | None => trimmed
                     end in
    match parse_ip_addr unwrapped with
    | Some _ => Ok unwrapped
    | None => Err (IeCommandFailed ("portal IP '" +:+ ip +:+ "' is not a valid IPv4 or IPv6 address"))
    end.

Inductive PortalStep : Type := Add (p : Portal) | Remove (p : Portal).

Definition same_np (p q : Portal) : bool := String.eqb (po_ip p) (po_ip q) && (po_port p =? po_port q).

(** The requested set, each address normalized; duplicates are refused. *)
Fixpoint normalize_portals (normalized desired : list Portal) : result (list Portal) IscsiError :=
  match desired with
  | [] => Ok normalized
  | p :: rest =>
      ip <-? validate_portal_ip (po_ip p) ;;
      if po_port p =? 0 then Err (IeCommandFailed "portal port must be non-zero")
      else let q := mkPortal ip (po_port p) (po_iser p) in
           if existsb (fun n => same_np n q) normalized
           then Err (IeCommandFailed ("duplicate portal " +:+ ip +:+ ":" +:+ fmt_dec (po_port p) +:+ " in requested set"))
           else normalize_portals (normalized ++ [q]) rest
  end.

Definition is_v6 (ip : string) : bool := str_contains_char ":" ip.
Definition is_wildcard (ip : string) : bool := String.eqb ip "0.0.0.0" || String.eqb ip "::".

Definition conflicts (a r : Portal) : bool :=
  (po_port a =? po_port r) && Bool.eqb (is_v6 (po_ip a)) (is_v6 (po_ip r)) &&
  (String.eqb (po_ip a) (po_ip r) || is_wildcard (po_ip a) || is_wildcard (po_ip r)).

Definition has_portal (l : list Portal) (p : Portal) : bool := bool_decide (p ∈ l).

Definition plan_portal_transition (current desired : list Portal) : result (list PortalStep) IscsiError :=
  match desired with
  | [] => Err (IeCommandFailed "portal set cannot be empty — target would become unreachable")
  | _ =>
      normalized <-? normalize_portals [] desired ;;
      let removes := List.filter (fun c => negb (has_portal normalized c)) current in
      let adds := List.filter (fun d => negb (has_portal current d)) normalized in
      let deferred := List.filter (fun a => existsb (conflicts a) removes) adds in
      let immediate := List.filter (fun a => negb (existsb (conflicts a) removes)) adds in
      Ok ((Add <$> immediate) ++ (Remove <$> removes) ++ (Add <$> deferred))
  end.

(** What a step does to the target's list of portals. *)
Definition apply_step (portals : list Portal) (s : PortalStep) : list Portal :=
  match s with
  | Add p => portals ++ [p]
  | Remove p => retain (fun q => negb (same_np q p)) portals
  end.

(** ** Remapping at engine start *)

Record BlockDeviceMappings : Type := mkMappings {
  bm_current : list (BlockVolumeId * string);
  bm_preexisting : gmap string BlockVolumeId;
}.

Definition current_device (m : BlockDeviceMappings) (i : BlockVolumeId) : option string :=
  snd <$> find_first (fun kv => bool_decide (kv.1 = i)) (bm_current m).

Definition legacy_identity_for_exact_path (m : BlockDeviceMappings) (path : string) : option BlockVolumeId := bm_preexisting m !! path.

Definition UNRESOLVED_BACKSTORE : string := "/dev/nasty-unresolved-block-volume".

Definition is_managed_lun (l : Lun) : bool :=
  String.eqb (lu_backstore_type l) "block" &&
  (is_some (lu_backing_volume l) || lu_backing_volume_unresolved l || starts_with "/dev/loop" (lu_backstore_path l)).

Definition set_backing (l : Lun) (path : string) (identity : option BlockVolumeId) (unresolved : bool) : Lun :=
  mkLun (lu_lun_id l) path (lu_backstore_name l) (lu_backstore_type l) (lu_size_bytes l) identity unresolved.

(** One LUN: changed, safe, the patch of its backstore. *)
Definition remap_lun (m : BlockDeviceMappings) (l : Lun) : Lun * bool * bool * list (string * string) :=
  if negb (is_managed_lun l) then (l, false, true, [])
  else
    let identity := match lu_backing_volume l with Some i => Some i | None => legacy_identity_for_exact_path m (lu_backstore_path l) end in
    match identity, identity ≫= current_device m with
    | Some i, Some device =>
        let changed := negb (bool_decide (lu_backing_volume l = Some i)) || negb (String.eqb (lu_backstore_path l) device) ||
                       lu_backing_volume_unresolved l in
        (set_backing l device (Some i) false, changed, true, [(lu_backstore_name l, device)])
    | _, _ => (set_backing l (lu_backstore_path l) (lu_backing_volume l) true, negb (lu_backing_volume_unresolved l), false,
               [(lu_backstore_name l, UNRESOLVED_BACKSTORE)])
    end.

Fixpoint remap_luns (m : BlockDeviceMappings) (ls : list Lun) : list Lun * bool * bool * list (string * string) :=
  match ls with
  | [] => ([], false, true, [])
  | l :: rest =>
      let '(l', changed, safe, patch) := remap_lun m l in
      let '(ls', changed', safe', patches) := remap_luns m rest in
      (l' :: ls', changed || changed', safe && safe', patch ++ patches)
  end.

Definition with_luns (t : IscsiTarget) (ls : list Lun) : IscsiTarget :=
  mkIscsiTarget (it_id t) (it_iqn t) (it_alias t) (it_portals t) ls (it_acls t) (it_enabled t).

Definition remap_target (m : BlockDeviceMappings) (t : IscsiTarget) : IscsiTarget * bool * bool * list (string * string) :=
  let '(ls, changed, safe, patches) := remap_luns m (it_luns t) in (with_luns t ls, changed, safe, patches).

(** The patches so far and whether it is still safe to restore. *)
Definition insert_backstore_patch (acc : gmap string string * bool) (p : string * string) : gmap string string * bool :=
  match acc.1 !! p.1 with
  | None => (<[p.1 := p.2]> acc.1, acc.2)
  | Some path => (acc.1, acc.2 && String.eqb path p.2)
  end.

(** *** The file targetcli restores from *)

Definition jset (v : JValue) (key : string) (x : JValue) : JValue :=
  match v with
  | JObj l => match update_first (fun kv => String.eqb (fst kv) key) (fun kv => (fst kv, x)) l with
              | Some l' => JObj l'
              | None => JObj (l ++ [(key, x)])
              end
  | _ => v
  end.

Definition as_array (v : option JValue) : option (list JValue) := match v with Some (JArr l) => Some l | _ => None end.
Definition as_str (v : option JValue) : option string := match v with Some (JStr s) => Some s | _ => None end.

Definition bump (counts : gmap string nat) (k : string) : gmap string nat := <[k := S (default 0%nat (counts !! k))]> counts.

(** The storage objects in turn: the objects so far, how often each name was
    matched, and whether anything changed. *)
Fixpoint patch_objects (backstores : gmap string string) (objects : list JValue) (matched : gmap string nat) (changed : bool)
    : result (list JValue * gmap string nat * bool) string :=
  match objects with
  | [] => Ok ([], matched, changed)
  | obj :: rest =>
      let name := default "" (as_str (jget obj "name")) in
      match backstores !! name with
      | None => Err ("saveconfig contains unexpected backstore '" +:+ name +:+ "'")
      | Some new_dev =>
          let '(obj', matched', changed') :=
            match as_str (jget obj "dev") with
            | Some dev => if String.eqb dev new_dev then (obj, bump matched name, changed)
                          else (jset obj "dev" (JStr new_dev), bump matched name, true)
            | None => (obj, matched, changed)
            end in
          r <-? patch_objects backstores rest matched' changed' ;;
          Ok (obj' :: r.1.1, r.1.2, r.2)
      end
  end.

(** Each name exactly once. *)
Definition count_text (n : nat) : string := fmt_dec (Z.of_nat n).

Definition each_once (missing : string -> string) (many : nat -> string -> string) (counts : gmap string nat) (names : list string) : result unit string :=
  try_each (fun n => match default 0%nat (counts !! n) with
                     | 1%nat => Ok tt
                     | O => Err (missing n)
                     | count => Err (many count n)
                     end) names.

Fixpoint count_targets (targets : list string) (saved : list JValue) (counts : gmap string nat) : result (gmap string nat) string :=
  match saved with
  | [] => Ok counts
  | t :: rest =>
      match as_str (jget t "wwn") with
      | None => Err "saveconfig target has no wwn"
      | Some wwn => if bool_decide (wwn ∈ targets) then count_targets targets rest (bump counts wwn)
                    else Err ("saveconfig contains unexpected target '" +:+ wwn +:+ "'")
      end
  end.

Definition patch_saveconfig_value (json : JValue) (backstores : gmap string string) (targets : list string) : result (JValue * bool) string :=
  match as_array (jget json "storage_objects") with
  | None => Err "saveconfig has no storage_objects array"
  | Some objects =>
      r <-? patch_objects backstores objects ∅ false ;;
      let '(objects', matched, changed) := r in
      if negb (Nat.eqb (length objects) (size backstores)) then Err ("saveconfig contains " +:+ count_text (length objects) +:+ " backstores but persisted state expects " +:+ count_text (size backstores))
      else
        _ <-? each_once (fun n => "saveconfig is missing backstore '" +:+ n +:+ "'")
                (fun count n => "saveconfig contains " +:+ count_text count +:+ " backstores named '" +:+ n +:+ "'")
                matched (map_to_list backstores).*1 ;;
        match as_array (jget json "targets") with
        | None => Err "saveconfig has no targets array"
        | Some saved =>
            counts <-? count_targets targets saved ∅ ;;
            _ <-? each_once (fun n => "saveconfig is missing target '" +:+ n +:+ "'")
                    (fun count n => "saveconfig contains target '" +:+ n +:+ "' " +:+ count_text count +:+ " times") counts targets ;;
            Ok (jset json "storage_objects" (JArr objects'), changed)
        end
  end.

Definition validate_empty_saveconfig_value (json : JValue) : result unit string :=
  try_each (fun key => match as_array (jget json key) with
                       | None => Err ("saveconfig has no " +:+ key +:+ " array")
                       | Some [] => Ok tt
                       | Some l => Err ("saveconfig contains " +:+ count_text (length l) +:+ " stale " +:+ key +:+ " entries but iSCSI state is empty")
                       end) ["storage_objects"; "targets"].

(** The file: absent, not readable or not JSON, or its value. *)
Inductive SaveFile : Type := SfMissing | SfBroken (e : string) | SfJson (v : JValue).

Definition patch_saveconfig (write_fault : option string) (file : SaveFile) (backstores : gmap string string) (targets : list string)
    : SaveFile * result unit string :=
  match file with
  | SfMissing => (file, Err "read /etc/target/saveconfig.json: not found")
  | SfBroken e => (file, Err e)
  | SfJson v =>
      match patch_saveconfig_value v backstores targets with
      | Err e => (file, Err e)
      | Ok (v', true) => match write_fault with Some e => (file, Err e) | None => (SfJson v', Ok tt) end
      | Ok (_, false) => (file, Ok tt)
      end
  end.

Definition validate_no_saved_exports (file : SaveFile) : result unit string :=
  match file with
  | SfMissing => Ok tt
  | SfBroken e => Err e
  | SfJson v => validate_empty_saveconfig_value v
  end.

(** *** The pass *)

(** The paths the LUNs of a remapped target must have in the file. *)
Definition lun_patches (persisted : bool) (t : IscsiTarget) : list (string * string) :=
  (fun l => (lu_backstore_name l, if persisted || negb (is_managed_lun l) then lu_backstore_path l else UNRESOLVED_BACKSTORE)) <$> it_luns t.

Record RemapState : Type := mkRemap {
  rm_store : StateDir IscsiTarget;
  rm_patches : gmap string string;
  rm_safe : bool;
  rm_changed : bool;
  rm_targets : list IscsiTarget;
}.

Definition remap_one (save_fault : string -> option string) (m : BlockDeviceMappings) (s : RemapState) (t : IscsiTarget) : RemapState :=
  let '(t', changed, safe, patches) := remap_target m t in
  let '(store, persisted) := if changed then match save (save_fault (it_id t)) (it_id t) t' (rm_store s) with
                                             | Ok d => (d, true)
                                             | Err _ => (rm_store s, false)
                                             end
                             else (rm_store s, true) in
  let acc := (rm_patches s, rm_safe s && persisted && safe) in
  let acc := if persisted then fold_left insert_backstore_patch patches acc else acc in
  let acc := fold_left insert_backstore_patch (lun_patches persisted t') acc in
  mkRemap store acc.1 acc.2 (rm_changed s || changed) (rm_targets s ++ [t']).

Record DeviceRemapOutcome : Type := mkRemapOutcome { ro_safe_to_restore : bool; ro_changed : bool }.

Definition remap_device_paths (save_fault : string -> option string) (write_fault : option string) (m : BlockDeviceMappings)
    (store : StateDir IscsiTarget) (file : SaveFile) : StateDir IscsiTarget * SaveFile * DeviceRemapOutcome :=
  match load_all_strict store "unreadable state file" with
  | Err _ => (store, file, mkRemapOutcome false false)
  | Ok [] => (store, file, mkRemapOutcome (is_ok (validate_no_saved_exports file)) false)
  | Ok targets =>
      let s := fold_left (remap_one save_fault m) targets (mkRemap store ∅ true false []) in
      let '(file', r) := patch_saveconfig write_fault file (rm_patches s) (it_iqn <$> rm_targets s) in
      (rm_store s, file', mkRemapOutcome (rm_safe s && is_ok r) (rm_changed s))
  end.

(** *** Repair *)

Definition repair_target_lun (t : IscsiTarget) (lun_id : Z) (device_path : string) (identity : BlockVolumeId) : result IscsiTarget IscsiError :=
  match find_first (fun l => lu_lun_id l =? lun_id) (it_luns t) with
  | None => Err (IeNotFound ("LUN " +:+ fmt_dec lun_id))
  | Some l =>
      if negb (lu_backing_volume_unresolved l) && is_some (lu_backing_volume l)
      then Err (IeInvalidBackingVolume ("LUN " +:+ fmt_dec lun_id +:+ " is already resolved"))
      else if negb (String.eqb (lu_backstore_type l) "block") || negb (starts_with "/dev/loop" (lu_backstore_path l))
      then Err (IeInvalidBackingVolume ("LUN " +:+ fmt_dec lun_id +:+ " is not an unresolved managed block volume"))
      else match update_first (fun l => lu_lun_id l =? lun_id) (fun l => set_backing l device_path (Some identity) false) (it_luns t) with
           | Some ls => Ok (with_luns t ls)
           | None => Ok t
           end
  end.
