(* ===== verification/IscsiRemap.v ===== *)
(** * iSCSI at engine start: only the right volumes are restored

    The pass over the targets declares the saved configuration safe to restore
    only when every managed LUN names the device its volume has now and the file
    lists exactly the stored targets and backstores, with those devices. *)

From Stdlib Require Import ZArith Lia Ascii String List.
From stdpp Require Import base list gmap strings.
From S2P Require Import Prelude.
From S2P Require Import RustStr.
From S2P Require Import StateDir.
From S2P Require Import ShareScope.
From S2P Require Import BlockDev.
From S2P Require Import Iscsi.

(** ** LUNs *)

(** A managed LUN points at the device its volume has now. *)
Definition resolved (m : BlockDeviceMappings) (l : Lun) : Prop :=
  is_managed_lun l = true ->
  lu_backing_volume_unresolved l = false /\ exists i, lu_backing_volume l = Some i /\ current_device m i = Some (lu_backstore_path l).

Lemma remap_lun_resolved m l l' changed patches :
  remap_lun m l = (l', changed, true, patches) ->
  resolved m l' /\ lu_backstore_name l' = lu_backstore_name l /\ Forall (fun p => p = (lu_backstore_name l', lu_backstore_path l')) patches /\
  (changed = false -> l' = l).
Proof.
  unfold remap_lun. destruct (is_managed_lun l) eqn:Hm; cbn [negb].
  2: { intros [= <- <- <-]. split_and!; try done. intros H. congruence. }
  destruct (match lu_backing_volume l with Some i => Some i | None => _ end) as [i|] eqn:Hi; [|done]. cbn.
  destruct (current_device m i) as [device|] eqn:Hd; [|done]. intros [= <- <- <-]. split_and!; [|done|by constructor|].
  - intros _. split; [done|]. by exists i.
  - intros [[H1 H2]%orb_false_iff H3]%orb_false_iff. apply negb_false_iff in H1, H2. apply bool_decide_eq_true in H1.
    apply String.eqb_eq in H2. unfold set_backing. destruct l; cbn in *. congruence.
Qed.

Lemma remap_luns_resolved m ls ls' changed patches :
  remap_luns m ls = (ls', changed, true, patches) ->
  Forall (resolved m) ls' /\ lu_backstore_name <$> ls' = lu_backstore_name <$> ls /\
  (forall p, p ∈ patches -> exists l, l ∈ ls' /\ p = (lu_backstore_name l, lu_backstore_path l)) /\ (changed = false -> ls' = ls).
Proof.
  revert ls' changed patches. induction ls as [|l ls IH]; intros ls' changed patches; cbn.
  { intros [= <- <- <-]. split_and!; try done. intros p []%elem_of_nil. }
  destruct (remap_lun m l) as [[[l' c1] s1] p1] eqn:E1. destruct (remap_luns m ls) as [[[ls1 c2] s2] p2] eqn:E2.
  intros [= <- <- Hs <-]. apply andb_true_iff in Hs as [-> ->].
  destruct (remap_lun_resolved _ _ _ _ _ E1) as (R1 & N1 & P1 & C1). destruct (IH _ _ _ eq_refl) as (R2 & N2 & P2 & C2). split_and!.
  - by constructor.
  - rewrite !fmap_cons. by f_equal.
  - intros p [Hp|Hp]%elem_of_app.
    + rewrite Forall_forall in P1. exists l'. split; [left|by apply P1].
    + destruct (P2 p Hp) as (l0 & Hl0 & ->). exists l0. split; [by right|done].
  - intros [H1 H2]%orb_false_iff. f_equal; auto.
Qed.

(** ** Patches *)

Definition agrees (P : gmap string string) (l : Lun) : Prop := P !! lu_backstore_name l = Some (lu_backstore_path l).

Lemma insert_patches ps (P P' : gmap string string) safe :
  fold_left insert_backstore_patch ps (P, safe) = (P', true) ->
  safe = true /\ P ⊆ P' /\ (forall p, p ∈ ps -> P' !! p.1 = Some p.2) /\
  (forall n, is_Some (P' !! n) -> is_Some (P !! n) \/ n ∈ ps.*1).
Proof.
  revert P safe. induction ps as [|[n d] ps IH]; intros P safe; cbn.
  { intros [= <- ->]. split_and!; [done|done|intros p []%elem_of_nil|by left]. }
  unfold insert_backstore_patch at 2. cbn [fst snd]. destruct (P !! n) as [d0|] eqn:En; intros H.
  - apply IH in H as (Hs & Hsub & Hall & Hk). apply andb_true_iff in Hs as [-> ->%String.eqb_eq]. split_and!; [done|done| |].
    + intros p [->|Hp]%elem_of_cons; [|by apply Hall]. cbn. by eapply lookup_weaken.
    + intros n' Hn'. destruct (Hk n' Hn'); [by left|right; by right].
  - apply IH in H as (Hs & Hsub & Hall & Hk). split_and!; [done| | |].
    + etrans; [|exact Hsub]. by apply insert_subseteq.
    + intros p [->|Hp]%elem_of_cons; [|by apply Hall]. cbn. eapply lookup_weaken; [|exact Hsub]. apply lookup_insert_eq.
    + intros n' Hn'. destruct (Hk n' Hn') as [H|H]; [|right; by right].
      destruct (decide (n' = n)) as [->|Hne]; [right; left|]. rewrite lookup_insert_ne in H by done. by left.
Qed.

(** ** The pass over the targets *)

Definition remap_right (m : BlockDeviceMappings) (s : RemapState) : Prop :=
  rm_safe s = true ->
  (forall t, t ∈ rm_targets s -> Forall (resolved m) (it_luns t) /\ Forall (agrees (rm_patches s)) (it_luns t)) /\
  (forall n, is_Some (rm_patches s !! n) -> exists t l, t ∈ rm_targets s /\ l ∈ it_luns t /\ lu_backstore_name l = n).

(** A step after which it is still safe. *)
Lemma remap_one_safe fault m s t :
  rm_safe (remap_one fault m s t) = true ->
  exists ls changed patches P1, remap_luns m (it_luns t) = (ls, changed, true, patches) /\ rm_safe s = true /\
    rm_targets (remap_one fault m s t) = rm_targets s ++ [with_luns t ls] /\
    rm_store (remap_one fault m s t) = (if changed then <[it_id t := Some (with_luns t ls)]> (rm_store s) else rm_store s) /\
    rm_patches s ⊆ P1 /\ P1 ⊆ rm_patches (remap_one fault m s t) /\
    (forall p, p ∈ lun_patches true (with_luns t ls) -> rm_patches (remap_one fault m s t) !! p.1 = Some p.2) /\
    (forall n, is_Some (rm_patches (remap_one fault m s t) !! n) -> is_Some (P1 !! n) \/ n ∈ (lun_patches true (with_luns t ls)).*1) /\
    (forall n, is_Some (P1 !! n) -> is_Some (rm_patches s !! n) \/ n ∈ patches.*1).
Proof.
  unfold remap_one, remap_target. destruct (remap_luns m (it_luns t)) as [[[ls changed] safe] patches] eqn:E.
  assert (Hp : exists store persisted, (if changed then match save (fault (it_id t)) (it_id t) (with_luns t ls) (rm_store s) with
       Ok d => (d, true) | Err _ => (rm_store s, false) end else (rm_store s, true)) = (store, persisted) /\
    (persisted = true -> store = if changed then <[it_id t := Some (with_luns t ls)]> (rm_store s) else rm_store s)).
  { destruct changed; [|by eexists _, _]. unfold save. destruct (fault (it_id t)); by eexists _, _. }
  destruct Hp as (store & persisted & -> & Hstore).
  destruct (fold_left insert_backstore_patch (lun_patches persisted (with_luns t ls)) _) as [P2 s2] eqn:F2.
  cbn [rm_safe rm_patches rm_targets rm_store fst snd]. intros ->. destruct persisted.
  - destruct (fold_left insert_backstore_patch patches _) as [P1 s1] eqn:F1. apply insert_patches in F2 as (-> & Hsub & Hall & Hk).
    apply insert_patches in F1 as (H1 & Hsub1 & _ & Hk1). rewrite andb_true_r in H1. apply andb_true_iff in H1 as [H1 ->].
    exists ls, changed, patches, P1. split_and!; auto.
  - apply insert_patches in F2 as (H & _). rewrite andb_false_r in H. done.
Qed.

Lemma remap_one_right fault m s t : remap_right m s -> remap_right m (remap_one fault m s t).
Proof.
  intros Hs Hsafe. destruct (remap_one_safe _ _ _ _ Hsafe) as (ls & changed & patches & P1 & E & Hs0 & -> & _ & Hsub & Hsub1 & Hall & Hk & Hk1).
  destruct (Hs Hs0) as [S1 S2]. destruct (remap_luns_resolved _ _ _ _ _ E) as (R & _ & Hp & _). split.
  - intros t' [Ht'|Ht'%list_elem_of_singleton]%elem_of_app; [|subst t'].
    + destruct (S1 t' Ht') as [A1 A2]. split; [done|]. eapply Forall_impl; [exact A2|]. intros l Hl. unfold agrees in *.
      eapply lookup_weaken; [|exact Hsub1]. by eapply lookup_weaken.
    + split; [done|]. apply Forall_forall. intros l Hl. unfold agrees.
      apply (Hall (lu_backstore_name l, lu_backstore_path l)). apply list_elem_of_fmap. by exists l.
  - assert (Hnew : forall n l, l ∈ ls -> lu_backstore_name l = n ->
      exists t' l', t' ∈ rm_targets s ++ [with_luns t ls] /\ l' ∈ it_luns t' /\ lu_backstore_name l' = n).
    { intros n l Hl Hn. exists (with_luns t ls), l. split_and!; [apply elem_of_app; right; left|done|done]. }
    intros n Hn. destruct (Hk n Hn) as [Hn1|Hn1].
    + destruct (Hk1 n Hn1) as [Hn0|Hn0].
      * destruct (S2 n Hn0) as (t' & l & Ht & Hl & <-). exists t', l. split_and!; [apply elem_of_app; by left|done|done].
      * apply list_elem_of_fmap in Hn0 as (p & -> & Hpp). destruct (Hp p Hpp) as (l & Hl & ->). by eapply Hnew.
    + apply list_elem_of_fmap in Hn1 as (p & -> & (l & -> & Hl)%list_elem_of_fmap). by eapply Hnew.
Qed.

Lemma remap_fold_right fault m ts s : remap_right m s -> remap_right m (fold_left (remap_one fault m) ts s).
Proof. revert s. induction ts as [|t ts IH]; intros s Hs; cbn; [done|]. apply IH. by apply remap_one_right. Qed.

Lemma remap_fold_safe fault m ts s : rm_safe (fold_left (remap_one fault m) ts s) = true -> rm_safe s = true.
Proof.
  revert s. induction ts as [|t ts IH]; intros s; cbn; [done|]. intros (? & ? & ? & ? & _ & H & _)%IH%remap_one_safe. done.
Qed.

(** The records: what is stored afterwards is what the pass went through. *)
Definition keyed_by_id (d : StateDir IscsiTarget) : Prop := forall id t, load d id = Some t -> it_id t = id.

Lemma remap_one_stored fault m s t rest :
  keyed_by_id (rm_store s) -> (forall id x, load (rm_store s) id = Some x -> x ∈ rm_targets s \/ x ∈ t :: rest) ->
  rm_safe (remap_one fault m s t) = true ->
  keyed_by_id (rm_store (remap_one fault m s t)) /\
  (forall id x, load (rm_store (remap_one fault m s t)) id = Some x -> x ∈ rm_targets (remap_one fault m s t) \/ x ∈ rest).
Proof.
  intros Hk Hin Hsafe. destruct (remap_one_safe _ _ _ _ Hsafe) as (ls & changed & patches & P1 & E & _ & -> & -> & _).
  destruct (remap_luns_resolved _ _ _ _ _ E) as (_ & _ & _ & Hsame).
  destruct changed.
  - split; intros id x; (destruct (decide (id = it_id t)) as [->|Hne]; [rewrite load_save_same; intros [= <-]|rewrite load_save_other by done]).
    + done.
    + apply Hk.
    + left. apply elem_of_app. right. left.
    + intros Hx. destruct (Hin id x Hx) as [H|[->|H]%elem_of_cons]; [left; apply elem_of_app; by left| |by right].
      destruct Hne. symmetry. by apply Hk.
  - split; [done|]. intros id x Hx. destruct (Hin id x Hx) as [H|[->|H]%elem_of_cons]; [left; apply elem_of_app; by left| |by right].
    left. apply elem_of_app. right. rewrite (Hsame eq_refl). destruct t. left.
Qed.

Lemma remap_fold_stored fault m ts s :
  keyed_by_id (rm_store s) -> (forall id x, load (rm_store s) id = Some x -> x ∈ rm_targets s \/ x ∈ ts) ->
  rm_safe (fold_left (remap_one fault m) ts s) = true ->
  forall id x, load (rm_store (fold_left (remap_one fault m) ts s)) id = Some x -> x ∈ rm_targets (fold_left (remap_one fault m) ts s).
Proof.
  revert s. induction ts as [|t ts IH]; intros s Hk Hin Hsafe; cbn in *.
  { intros id x Hx. destruct (Hin id x Hx) as [H|[]%elem_of_nil]. done. }
  destruct (remap_one_stored fault m s t ts Hk Hin) as [Hk' Hin']; [by eapply remap_fold_safe|]. by apply IH.
Qed.

(** Every target of the pass stays stored as the pass left it. *)
Definition all_stored (s : RemapState) (rest : list IscsiTarget) : Prop :=
  NoDup (it_id <$> rm_targets s ++ rest) /\ forall x, x ∈ rm_targets s ++ rest -> load (rm_store s) (it_id x) = Some x.

Lemma remap_one_all_stored fault m s t rest :
  all_stored s (t :: rest) -> rm_safe (remap_one fault m s t) = true -> all_stored (remap_one fault m s t) rest.
Proof.
  intros [Hnd Hall] Hsafe. destruct (remap_one_safe _ _ _ _ Hsafe) as (ls & changed & patches & P1 & E & _ & Ht & Hst & _).
  unfold all_stored. rewrite Ht, Hst. destruct (remap_luns_resolved _ _ _ _ _ E) as (_ & _ & _ & Hsame).
  rewrite <- app_assoc. cbn [app]. split; [by rewrite fmap_app, fmap_cons in *|].
  destruct changed.
  - rewrite fmap_app, fmap_cons in Hnd. apply NoDup_app in Hnd as (_ & Hd & [Hr _]%NoDup_cons).
    intros x Hx. rewrite elem_of_app, elem_of_cons in Hx. destruct Hx as [Hx|[->|Hx]]; [|apply load_save_same|].
    + rewrite load_save_other; [apply Hall, elem_of_app; by left|]. intros He. apply (Hd (it_id x)); [by apply list_elem_of_fmap_2|]. rewrite He. left.
    + rewrite load_save_other; [apply Hall, elem_of_app; right; by right|]. intros He. apply Hr. rewrite <- He. by apply list_elem_of_fmap_2.
  - intros x Hx. apply Hall. rewrite (Hsame eq_refl) in Hx. by destruct t.
Qed.

Lemma remap_fold_all_stored fault m ts s :
  all_stored s ts -> rm_safe (fold_left (remap_one fault m) ts s) = true -> all_stored (fold_left (remap_one fault m) ts s) [].
Proof.
  revert s. induction ts as [|t ts IH]; intros s Hs Hsafe; cbn in *; [done|]. apply IH; [|done].
  apply remap_one_all_stored; [done|]. by eapply remap_fold_safe.
Qed.

Lemma load_all_distinct (d : StateDir IscsiTarget) : keyed_by_id d -> NoDup (it_id <$> load_all d).
Proof.
  intros Hk. eapply sublist_NoDup; [exact (NoDup_fst_map_to_list d)|]. unfold load_all.
  assert (H : forall k t, (k, Some t) ∈ map_to_list d -> it_id t = k).
  { intros k t Hin%elem_of_map_to_list. apply Hk. unfold load. by rewrite Hin. }
  revert H. generalize (map_to_list d). intros l. induction l as [|[k [t|]] l IH]; intros H; cbn; [constructor|..].
  - rewrite (H k t) by left. constructor. apply IH. intros k' t' Hin. apply H. by right.
  - constructor. apply IH. intros k' t' Hin. apply H. by right.
Qed.

(** ** The saved configuration *)

Definition obj_name (o : JValue) : string := default "" (as_str (jget o "name")).
Definition obj_dev (o : JValue) : option string := as_str (jget o "dev").
Definition target_wwn (x : JValue) : option string := as_str (jget x "wwn").

Lemma jget_jset o key x : is_Some (jget o key) -> jget (jset o key x) key = Some x.
Proof.
  destruct o as [| | | | |l]; try by intros []. intros _. cbn.
  destruct (update_first _ _ l) as [l'|] eqn:E; cbn.
  - revert l' E. induction l as [|[k v] l IH]; intros l' E; cbn in *; [done|].
    destruct (String.eqb k key) eqn:Ek; [injection E as <-; cbn; by rewrite Ek|].
    destruct (update_first _ _ l) as [l''|]; [|done]. injection E as <-. cbn. rewrite Ek. by apply IH.
  - apply update_first_None in E. induction l as [|[k v] l IH]; cbn in *; [by rewrite String.eqb_refl|].
    destruct (String.eqb k key); [done|]. by apply IH.
Qed.

Lemma jget_jset_other o key key' x : key' <> key -> jget (jset o key x) key' = jget o key'.
Proof.
  intros Hne. destruct o as [| | | | |l]; try done. cbn. destruct (update_first _ _ l) as [l'|] eqn:E; cbn; f_equal.
  - apply update_first_Some in E as (l1 & [k v] & l2 & -> & -> & Hk & _). cbn in *. apply String.eqb_eq in Hk as ->.
    induction l1 as [|[k1 v1] l1 IH]; cbn; [|by rewrite IH]. by rewrite (proj2 (String.eqb_neq key key')) by congruence.
  - clear E. induction l as [|[k v] l IH]; cbn; [by rewrite (proj2 (String.eqb_neq key key')) by congruence|by rewrite IH].
Qed.

Lemma as_str_is_Some v s : as_str v = Some s -> is_Some v.
Proof. by destruct v. Qed.

(** The objects that name [n] and carry a device. *)
Definition carriers (n : string) (objects : list JValue) : list JValue :=
  List.filter (fun o => String.eqb (obj_name o) n && is_some (obj_dev o)) objects.

Definition count (m : gmap string nat) (n : string) : nat := default 0%nat (m !! n).

Lemma count_bump m k n : count (bump m k) n = (count m n + if String.eqb k n then 1 else 0)%nat.
Proof.
  unfold count, bump. destruct (String.eqb_spec k n) as [->|Hne]; [rewrite lookup_insert_eq; cbn; lia|].
  rewrite lookup_insert_ne by done. lia.
Qed.

Lemma patch_objects_spec B objects matched changed objects' matched' changed' :
  patch_objects B objects matched changed = Ok (objects', matched', changed') ->
  (forall o, o ∈ objects' -> exists dev, B !! obj_name o = Some dev /\ forall d, obj_dev o = Some d -> d = dev) /\
  (forall n, count matched' n = (count matched n + length (carriers n objects'))%nat) /\
  (changed' = false -> changed = false /\ objects' = objects).
Proof.
  revert matched changed objects' matched' changed'. induction objects as [|o objects IH]; intros matched changed objects' matched' changed'; cbn.
  { intros [= <- <- <-]. split_and!; [intros o []%elem_of_nil|intros n; unfold carriers; cbn; lia|done]. }
  fold (obj_name o). fold (obj_dev o). destruct (B !! obj_name o) as [new|] eqn:HB; [|done].
  assert (Hone : exists o' c', match obj_dev o with
      | Some dev => if String.eqb dev new then (o, bump matched (obj_name o), changed) else (jset o "dev" (JStr new), bump matched (obj_name o), true)
      | None => (o, matched, changed) end = (o', if is_some (obj_dev o') then bump matched (obj_name o') else matched, c') /\
    obj_name o' = obj_name o /\ (forall d, obj_dev o' = Some d -> d = new) /\ (c' = false -> changed = false /\ o' = o)).
  { destruct (obj_dev o) as [dev|] eqn:Hd; [|exists o, changed; rewrite Hd; by split_and!].
    destruct (String.eqb_spec dev new) as [->|Hne]; [exists o, changed; rewrite Hd; split_and!; [done|done|by intros d [= <-]|done]|].
    exists (jset o "dev" (JStr new)), true.
    assert (Hn : obj_name (jset o "dev" (JStr new)) = obj_name o) by (unfold obj_name; by rewrite jget_jset_other).
    assert (Hv : obj_dev (jset o "dev" (JStr new)) = Some new) by (unfold obj_dev; rewrite jget_jset; [done|by eapply as_str_is_Some]).
    rewrite Hn, Hv. split_and!; [done|done|by intros d [= <-]|done]. }
  destruct Hone as (o' & c' & -> & Hn & Hv & Hc).
  destruct (patch_objects B objects _ c') as [[[os mm] cc]|] eqn:E; [|done]. cbn. intros [= <- <- <-].
  destruct (IH _ _ _ _ _ E) as (I1 & I2 & I3). split_and!.
  - intros x [->|Hx]%elem_of_cons; [|by apply I1]. exists new. rewrite Hn. done.
  - intros n. rewrite I2. unfold carriers. cbn. destruct (is_some (obj_dev o')) eqn:Hs; rewrite ?andb_true_r, ?andb_false_r; [|done].
    rewrite count_bump. destruct (String.eqb (obj_name o') n); cbn; lia.
  - intros ->. destruct (I3 eq_refl) as [-> ->]. destruct (Hc eq_refl) as [-> ->]. done.
Qed.

Lemma count_targets_spec ts saved counts counts' :
  count_targets ts saved counts = Ok counts' ->
  (forall x, x ∈ saved -> exists wwn, target_wwn x = Some wwn /\ wwn ∈ ts) /\
  (forall n, count counts' n = (count counts n + length (List.filter (fun x => bool_decide (target_wwn x = Some n)) saved))%nat).
Proof.
  revert counts. induction saved as [|x saved IH]; intros counts; cbn.
  { intros [= <-]. split; [intros x []%elem_of_nil|intros n; lia]. }
  fold (target_wwn x). destruct (target_wwn x) as [wwn|] eqn:Hw; [|done]. case_bool_decide as Hin; [|done].
  intros H%IH. destruct H as [I1 I2]. split.
  - intros y [->|Hy]%elem_of_cons; [by exists wwn|by apply I1].
  - intros n. rewrite I2, count_bump. destruct (String.eqb_spec wwn n) as [->|Hne].
    + rewrite bool_decide_true by done. cbn. lia.
    + rewrite bool_decide_false by congruence. lia.
Qed.

Lemma each_once_spec missing many counts names : each_once missing many counts names = Ok tt -> forall n, n ∈ names -> count counts n = 1%nat.
Proof.
  unfold each_once. intros H n Hn. rewrite try_each_spec in H. specialize (H n Hn). unfold count. by destruct (default 0%nat (counts !! n)) as [|[|k]].
Qed.

(** ** The file agrees with the records *)

Definition listed_in (store : StateDir IscsiTarget) (t : IscsiTarget) : Prop := exists id, load store id = Some t.

(** The file has exactly the stored targets, and exactly the stored LUNs with
    the devices of their records. *)
Definition file_matches (store : StateDir IscsiTarget) (v : JValue) : Prop :=
  exists objects saved, as_array (jget v "storage_objects") = Some objects /\ as_array (jget v "targets") = Some saved /\
    (forall o, o ∈ objects -> exists t l, listed_in store t /\ l ∈ it_luns t /\ obj_name o = lu_backstore_name l /\
       forall d, obj_dev o = Some d -> d = lu_backstore_path l) /\
    (forall t l, listed_in store t -> l ∈ it_luns t -> length (carriers (lu_backstore_name l) objects) = 1%nat) /\
    (forall x, x ∈ saved -> exists t, listed_in store t /\ target_wwn x = Some (it_iqn t)) /\
    (forall t, listed_in store t -> length (List.filter (fun x => bool_decide (target_wwn x = Some (it_iqn t))) saved) = 1%nat).

Lemma patch_value_matches (P : gmap string string) (ts : list IscsiTarget) (store : StateDir IscsiTarget) v v' changed :
  (forall t, listed_in store t <-> t ∈ ts) ->
  (forall t, t ∈ ts -> Forall (agrees P) (it_luns t)) ->
  (forall n, is_Some (P !! n) -> exists t l, t ∈ ts /\ l ∈ it_luns t /\ lu_backstore_name l = n) ->
  patch_saveconfig_value v P (it_iqn <$> ts) = Ok (v', changed) ->
  file_matches store v' /\ (changed = false -> file_matches store v).
Proof.
  intros Hst Hag Hk. unfold patch_saveconfig_value. destruct (as_array (jget v "storage_objects")) as [objects|] eqn:Ho; [|done].
  destruct (patch_objects P objects ∅ false) as [[[objects' matched] ch]|] eqn:Ep; [|done]. cbn [result_bind].
  destruct (negb _); [done|]. destruct (each_once _ _ matched _) as [[]|] eqn:E1; [|done]. cbn [result_bind].
  destruct (as_array (jget v "targets")) as [saved|] eqn:Hsv; [|done].
  destruct (count_targets _ saved ∅) as [counts|] eqn:Ec; [|done]. cbn [result_bind].
  destruct (each_once _ _ counts _) as [[]|] eqn:E2; [|done]. cbn [result_bind]. intros [= <- <-].
  destruct (patch_objects_spec _ _ _ _ _ _ _ Ep) as (O1 & O2 & O3). destruct (count_targets_spec _ _ _ _ Ec) as (T1 & T2).
  pose proof (each_once_spec _ _ _ _ E1) as C1. pose proof (each_once_spec _ _ _ _ E2) as C2.
  assert (Hm : forall w, as_array (jget w "storage_objects") = Some objects' -> as_array (jget w "targets") = Some saved -> file_matches store w).
  { intros w Hw1 Hw2. exists objects', saved. split_and!; [done|done|..].
    - intros o Hin. destruct (O1 o Hin) as (dev & HP & Hdev). destruct (Hk (obj_name o)) as (t & l & Ht & Hl & Hn); [by exists dev|].
      exists t, l. rewrite Hst. split_and!; [done|done|done|]. intros d ->%Hdev. specialize (Hag t Ht). rewrite Forall_forall in Hag.
      specialize (Hag l Hl). unfold agrees in Hag. congruence.
    - intros t l Ht%Hst Hl. specialize (Hag t Ht). rewrite Forall_forall in Hag. specialize (Hag l Hl). unfold agrees in Hag.
      rewrite <- (C1 (lu_backstore_name l)); [by rewrite O2|]. apply list_elem_of_fmap. eexists (_, _). split; [done|by apply elem_of_map_to_list].
    - intros x Hx. destruct (T1 x Hx) as (wwn & Hw & (t & -> & Ht)%list_elem_of_fmap). exists t. by rewrite Hst.
    - intros t Ht%Hst. rewrite <- (C2 (it_iqn t)); [by rewrite T2|]. by apply list_elem_of_fmap_2. }
  split.
  - apply Hm; [|by rewrite jget_jset_other]. rewrite jget_jset; [done|]. destruct (jget v "storage_objects"); [by eexists|done].
  - intros ->. destruct (O3 eq_refl) as [_ ->]. by apply Hm.
Qed.

(** C18. When the pass at engine start says that the saved configuration may be
    restored, then whatever the records and the file were before and whichever
    writes fail: every LUN of every stored target that stands on a managed volume
    names the device that volume has now and is not marked unresolved; and the
    file has exactly the stored targets and backstores, once each, every device
    in it the one of its LUN's record; with no stored target the file is absent
    or lists neither targets nor backstores. *)
Theorem iscsi_restore_is_safe fault wf m store file store' file' out :
  keyed_by_id store -> remap_device_paths fault wf m store file = (store', file', out) -> ro_safe_to_restore out = true ->
  (forall t l, listed_in store' t -> l ∈ it_luns t -> resolved m l) /\
  ((exists v, file' = SfJson v /\ file_matches store' v) \/
   (load_all store' = [] /\ (file' = SfMissing \/ exists v, file' = SfJson v /\
      as_array (jget v "storage_objects") = Some [] /\ as_array (jget v "targets") = Some []))).
Proof.
  intros Hk. unfold remap_device_paths, load_all_strict. case_bool_decide; [by intros [= <- <- <-]|].
  destruct (load_all store) as [|t0 ts0] eqn:Hload.
  { intros [= <- <- <-]. cbn. intros Hok. split.
    - intros t l [id Hid]. assert (Hin : t ∈ load_all store) by (apply elem_of_load_all; by exists id). rewrite Hload in Hin. by apply elem_of_nil in Hin.
    - right. split; [done|]. destruct file as [| |v]; [by left|done|]. right. exists v. split; [done|]. revert Hok. unfold validate_no_saved_exports,
        validate_empty_saveconfig_value. cbn [try_each]. by destruct (as_array (jget v "storage_objects")) as [[]|], (as_array (jget v "targets")) as [[]|]. }
  rewrite <- Hload. clear Hload t0 ts0. set (s0 := mkRemap store ∅ true false []). set (s := fold_left (remap_one fault m) (load_all store) s0).
  destruct (patch_saveconfig wf file (rm_patches s) (it_iqn <$> rm_targets s)) as [file1 r] eqn:Ep.
  intros [= <- <- <-]. cbn [ro_safe_to_restore]. intros [Hsafe Hr]%andb_true_iff.
  assert (R : remap_right m s) by (apply remap_fold_right; intros _; split; [intros t []%elem_of_nil|cbn; intros n [? Hn]; by rewrite lookup_empty in Hn]).
  destruct (R Hsafe) as [R1 R2].
  assert (Hst : forall t, listed_in (rm_store s) t <-> t ∈ rm_targets s).
  { intros t. split.
    - intros [id Hid]. eapply (remap_fold_stored fault m (load_all store) s0); [done| |done|exact Hid].
      intros id' x Hx. right. apply elem_of_load_all. by exists id'.
    - intros Ht. destruct (remap_fold_all_stored fault m (load_all store) s0) as [_ Hall]; [|done|].
      + split; [by apply load_all_distinct|]. intros x (id & Hx)%elem_of_load_all. cbn. by rewrite (Hk id x Hx).
      + exists (it_id t). apply Hall. rewrite app_nil_r. done. }
  split.
  - intros t l Ht%Hst Hl. destruct (R1 t Ht) as [Hres _]. rewrite Forall_forall in Hres. by apply Hres.
  - left. unfold patch_saveconfig in Ep. destruct file as [| |v]; [by simplify_eq|by simplify_eq|].
    destruct (patch_saveconfig_value v _ _) as [[v' changed]|] eqn:Ev; [|by simplify_eq].
    destruct (patch_value_matches (rm_patches s) (rm_targets s) (rm_store s) v v' changed Hst (fun t Ht => proj2 (R1 t Ht)) R2 Ev) as [M1 M2].
    destruct changed; [destruct wf; simplify_eq; by exists v'|]. simplify_eq. exists v. auto.
Qed.
