(* ===== verification/IscsiPortals.v ===== *)
(** * Changing the portals of a target

    The plan turns the current portals into the requested ones, and on the way
    the target never listens on two portals that the kernel would refuse
    together. *)

From Stdlib Require Import ZArith Lia Ascii String List.
From stdpp Require Import base list gmap strings.
From S2P Require Import Prelude.
From S2P Require Import RustStr.
From S2P Require Import Net.
From S2P Require Import Nft.
From S2P Require Import Iscsi.

(** Portals that can be open together. *)
Definition conflict_free (l : list Portal) : Prop := forall p q, p ∈ l -> q ∈ l -> conflicts p q = true -> p = q.

Lemma conflicts_sym p q : conflicts p q = conflicts q p.
Proof.
  unfold conflicts. rewrite Z.eqb_sym, (String.eqb_sym (po_ip p)).
  destruct (po_port q =? po_port p), (is_v6 (po_ip p)), (is_v6 (po_ip q)), (String.eqb (po_ip q) (po_ip p)), (is_wildcard (po_ip p)),
    (is_wildcard (po_ip q)); done.
Qed.

Lemma same_np_conflicts p q : same_np p q = true -> conflicts p q = true.
Proof.
  unfold same_np, conflicts. intros [->%String.eqb_eq ->]%andb_true_iff. rewrite eqb_reflx, String.eqb_refl. done.
Qed.

Lemma same_np_refl p : same_np p p = true.
Proof. unfold same_np. by rewrite String.eqb_refl, Z.eqb_refl. Qed.

(** ** What the kernel refuses

    Two portals on the same port, of the same address family, whose addresses are
    equal or one of which is the address that stands for all. *)

Definition unspecified (a : ip_addr) : bool := match a with V4 l | V6 l => forallb (Z.eqb 0) l end.
Definition same_family (a b : ip_addr) : bool := match a, b with V4 _, V4 _ | V6 _, V6 _ => true | _, _ => false end.

Definition clash (p q : Portal) : Prop :=
  po_port p = po_port q /\ exists a b, parse_ip_addr (po_ip p) = Some a /\ parse_ip_addr (po_ip q) = Some b /\
    same_family a b = true /\ (a = b \/ unspecified a = true \/ unspecified b = true).

(** Portals that can be open together. *)
Definition clash_free (l : list Portal) : Prop := forall p q, p ∈ l -> q ∈ l -> clash p q -> p = q.

(** Each address is written in one way, and the one for all as the plan knows
    it. *)
Record plainly_written (l : list Portal) : Prop := {
  pw_address : forall p, p ∈ l -> is_Some (parse_ip_addr (po_ip p));
  pw_one : forall p q, p ∈ l -> q ∈ l -> parse_ip_addr (po_ip p) = parse_ip_addr (po_ip q) -> po_ip p = po_ip q;
  pw_all : forall p a, p ∈ l -> parse_ip_addr (po_ip p) = Some a -> unspecified a = true -> is_wildcard (po_ip p) = true;
}.

Lemma digits_no_colon radix acc n l v k r : read_digits radix acc n l = (v, k, r) -> exists pre, l = pre ++ r /\ (":"%char ∉ pre).
Proof.
  revert acc n. induction l as [|c l IH]; simpl; intros acc n; [intros [= <- <- <-]; exists []; split; [done|set_solver]|].
  destruct (to_digit radix c) as [d|] eqn:E; [|intros [= <- <- <-]; exists []; split; [done|set_solver]].
  intros (pre & -> & HF)%IH. exists (c :: pre). split; [done|]. intros [<-|?]%elem_of_cons; [|done]. unfold to_digit in E. break_in E; bool_hyps; done.
Qed.

Lemma octets_no_colon i n l a r : read_octets i n l = Some (a, r) -> exists pre, l = pre ++ r /\ (":"%char ∉ pre).
Proof.
  revert i l a r. induction n as [|n IH]; intros i l a r; cbn [read_octets]; [intros [= <- <-]; exists []; split; [done|set_solver]|].
  destruct (read_separator "." i (read_number 10 3 255 false) l) as [[v l1]|] eqn:E; [|done].
  destruct (read_octets (S i) n l1) as [[vs l2]|] eqn:E2; [|done]. intros [= <- <-]. apply IH in E2 as (p2 & -> & H2).
  assert (exists p1, l = p1 ++ p2 ++ l2 /\ (":"%char ∉ p1)) as (p1 & -> & H1); [|exists (p1 ++ p2); rewrite <- app_assoc; split; [done|set_solver]].
  assert (forall m, read_number 10 3 255 false m = Some (v, p2 ++ l2) -> exists p1, m = p1 ++ p2 ++ l2 /\ (":"%char ∉ p1)) as Hn.
  { intros m. unfold read_number. destruct (read_digits 10 0 0 m) as [[x k] r'] eqn:Ed. intros H. break_in H. by apply digits_no_colon in Ed. }
  unfold read_separator in E. destruct i; [by apply Hn|]. destruct l as [|d l]; [done|]. cbn [read_given_char] in E. destruct (Ascii.eqb_spec "." d) as [<-|]; [|done].
  apply Hn in E as (p1 & -> & H1). exists ("."%char :: p1). split; [done|]. intros [?|?]%elem_of_cons; done.
Qed.

(** Every group but the first is read after a colon. *)
Lemma groups_colon i n l g gs b r : read_groups (S i) n l = (g :: gs, b, r) -> exists l', l = ":"%char :: l'.
Proof.
  destruct n as [|n]; [done|]. cbn [read_groups read_separator]. destruct l as [|d l]; cbn [read_given_char].
  { by destruct n. }
  destruct (Ascii.eqb_spec ":" d) as [<-|]; [by exists l|]. by destruct n.
Qed.

Lemma many_groups_colon m l h b r : read_groups 0 (S m) l = (h, b, r) -> (2 < length h)%nat -> ":"%char ∈ l.
Proof.
  intros E Hlen. cbn [read_groups] in E. set (v4 := match m with O => None | S _ => read_separator ":" 0 read_ipv4_addr l end) in E.
  assert (forall g l', read_number 16 4 65535 true l = Some (g, l') -> (let '(gs, t, rest) := read_groups 1 m l' in (g :: gs, t, rest)) = (h, b, r) -> ":"%char ∈ l) as Hhex.
  { intros g l' En Eg. destruct (read_groups 1 m l') as [[gs t] rest] eqn:Eg'. injection Eg as <- _ _. destruct gs as [|g2 gs]; [cbn in Hlen; lia|].
    apply groups_colon in Eg' as [l'' ->]. apply read_number_consumes in En as (pre & -> & _). apply elem_of_app. right. left. }
  cbn [read_separator] in E. destruct v4 as [[[|x1 [|x2 [|x3 [|x4 [|]]]]] r']|]; try (injection E as <- _ _; cbn in Hlen; lia);
    destruct (read_number 16 4 65535 true l) as [[g l']|] eqn:En; try (injection E as <- _ _; cbn in Hlen; lia); by eapply Hhex.
Qed.

Lemma ipv6_colon l a r : read_ipv6_addr l = Some (a, r) -> ":"%char ∈ l.
Proof.
  unfold read_ipv6_addr. destruct (read_groups 0 8 l) as [[h b] l1] eqn:E. destruct (length h =? 8)%nat eqn:El.
  - intros _. apply Nat.eqb_eq in El. eapply many_groups_colon; [exact E|lia].
  - destruct b; [done|]. destruct l1 as [|d l1]; [done|]. cbn [read_given_char]. destruct (Ascii.eqb_spec ":" d) as [<-|]; [|done]. intros _.
    apply read_groups_consumes in E as (pre & -> & _). apply elem_of_app. right. left.
Qed.

(** The family shows in the text. *)
Lemma family_text ip a : parse_ip_addr ip = Some a -> is_v6 ip = match a with V4 _ => false | V6 _ => true end.
Proof.
  unfold parse_ip_addr, is_v6. destruct (read_ipv4_addr (to_bytes ip)) as [[o [|]]|] eqn:E4; [|done|].
  - intros [= <-]. apply octets_no_colon in E4 as (pre & E & Hno). rewrite app_nil_r in E. subst pre.
    unfold str_contains_char. apply not_true_iff_false. rewrite existsb_exists. intros (c & Hc%list_elem_of_In & <-%Ascii.eqb_eq). done.
  - destruct (read_ipv6_addr (to_bytes ip)) as [[g [|]]|] eqn:E6; [|done..]. intros [= <-]. apply ipv6_colon in E6.
    unfold str_contains_char. apply existsb_exists. exists ":"%char. split; [by apply list_elem_of_In|done].
Qed.

Lemma wildcard_unspecified ip : is_wildcard ip = true -> exists a, parse_ip_addr ip = Some a /\ unspecified a = true.
Proof. unfold is_wildcard. intros [->%String.eqb_eq| ->%String.eqb_eq]%orb_true_iff; eexists; split; vm_compute; reflexivity. Qed.

(** On plainly written portals the plan's test is the kernel's. *)
Lemma conflicts_clash l p q : plainly_written l -> p ∈ l -> q ∈ l -> conflicts p q = true <-> clash p q.
Proof.
  intros Hw Hp Hq. destruct (pw_address l Hw p Hp) as [a Ha], (pw_address l Hw q Hq) as [b Hb].
  unfold conflicts, clash. rewrite !andb_true_iff, Z.eqb_eq, (family_text _ _ Ha), (family_text _ _ Hb), !orb_true_iff, String.eqb_eq. split.
  - intros [[Hport Hfam] Hc]. split; [done|]. exists a, b. split_and!; [done..|by destruct a, b|].
    destruct Hc as [[Hc|Hc]|Hc]; [left; congruence|right; left|right; right]; apply wildcard_unspecified in Hc as (x & Hx & ?); congruence.
  - intros (Hport & a' & b' & Ha' & Hb' & Hfam & Hc). simplify_eq. split; [split; [done|by destruct a, b]|].
    destruct Hc as [->|[Hc|Hc]]; [left; left; apply (pw_one l Hw); congruence|left; right; by eapply pw_all|right; by eapply pw_all].
Qed.

(** ** The requested set *)

Definition accepted (p : Portal) : Prop := is_Some (parse_ip_addr (po_ip p)) /\ po_port p <> 0.

Definition distinct_np (l : list Portal) : Prop := forall i j p q, l !! i = Some p -> l !! j = Some q -> same_np p q = true -> i = j.

Lemma validate_portal_ip_ok ip ip' : validate_portal_ip ip = Ok ip' -> is_Some (parse_ip_addr ip').
Proof.
  unfold validate_portal_ip. destruct (String.eqb _ _); [done|].
  destruct (parse_ip_addr _) as [a|] eqn:E; [|done]. intros [= <-]. by exists a.
Qed.

Lemma distinct_np_snoc l p : distinct_np l -> existsb (fun n => same_np n p) l = false -> distinct_np (l ++ [p]).
Proof.
  intros Hd Hno i j a b Ha Hb Hab. rewrite existsb_false_elem in Hno.
  apply lookup_app_Some in Ha, Hb.
  assert (Hsym : forall x y, same_np x y = same_np y x) by (intros; unfold same_np; by rewrite Z.eqb_sym, String.eqb_sym).
  destruct Ha as [Ha|[Hi [Ha1 Ha2]%list_lookup_singleton_Some]], Hb as [Hb|[Hj [Hb1 Hb2]%list_lookup_singleton_Some]].
  - by eapply Hd.
  - subst b. rewrite (Hno a) in Hab; [done|]. by eapply list_elem_of_lookup_2.
  - subst a. rewrite Hsym, (Hno b) in Hab; [done|]. by eapply list_elem_of_lookup_2.
  - lia.
Qed.

Lemma normalize_portals_ok acc desired n :
  normalize_portals acc desired = Ok n -> Forall accepted acc -> distinct_np acc ->
  Forall accepted n /\ distinct_np n /\ length n = (length acc + length desired)%nat.
Proof.
  revert acc. induction desired as [|p desired IH]; intros acc; cbn.
  { intros [= <-] Ha Hd. split_and!; [done|done|lia]. }
  destruct (validate_portal_ip (po_ip p)) as [ip|] eqn:Hip; [|done]. cbn.
  destruct (Z.eqb_spec (po_port p) 0) as [|Hport]; [done|]. destruct (existsb _ acc) eqn:Hdup; [done|]. intros H Ha Hd.
  apply IH in H as (H1 & H2 & H3).
  - split_and!; [done|done|]. rewrite H3, length_app. cbn. lia.
  - apply Forall_app. split; [done|]. constructor; [|constructor]. split; [by eapply validate_portal_ip_ok|done].
  - by apply distinct_np_snoc.
Qed.

Lemma distinct_np_NoDup l : distinct_np l -> NoDup l.
Proof. intros Hd. apply NoDup_alt. intros i j x Hi Hj. eapply Hd; [exact Hi|exact Hj|]. apply same_np_refl. Qed.

(** ** Steps *)

Lemma apply_adds ps l : fold_left apply_step (Add <$> ps) l = l ++ ps.
Proof. revert l. induction ps as [|p ps IH]; intros l; cbn; [by rewrite app_nil_r|]. by rewrite IH, <- app_assoc. Qed.

Lemma apply_removes rs l :
  fold_left apply_step (Remove <$> rs) l = retain (fun q => negb (existsb (same_np q) rs)) l.
Proof.
  revert l. induction rs as [|r rs IH]; intros l; cbn; [symmetry; apply retain_all; done|]. rewrite IH. unfold retain.
  clear IH. induction l as [|q l IH]; cbn; [done|]. destruct (same_np q r); cbn; [done|]. destruct (negb _); by rewrite IH.
Qed.

(** Steps only bring in what they add. *)
Lemma apply_steps_subset steps l x : x ∈ fold_left apply_step steps l -> x ∈ l \/ Add x ∈ steps.
Proof.
  revert l. induction steps as [|s steps IH]; intros l; cbn; [by left|]. intros [H|H]%IH; [|right; by right].
  destruct s as [p|p]; cbn in H.
  - apply elem_of_app in H as [H|H%list_elem_of_singleton]; [by left|]. subst x. right. left.
  - apply elem_of_retain in H as [H _]. by left.
Qed.

Lemma filter_split {A} (f : A -> bool) l : Permutation (List.filter (fun a => negb (f a)) l ++ List.filter f l) l.
Proof. induction l as [|a l IH]; cbn; [done|]. destruct (f a); cbn; [|by rewrite IH]. rewrite <- Permutation_middle. by rewrite IH. Qed.

(** A portal that no step removes stays open. *)
Lemma apply_steps_keeps steps l x :
  x ∈ l -> (forall r, Remove r ∈ steps -> same_np x r = false) -> x ∈ fold_left apply_step steps l.
Proof.
  revert l. induction steps as [|s steps IH]; intros l Hx Hno; cbn; [done|]. apply IH; [|intros r Hr; apply Hno; by right].
  destruct s as [p|p]; cbn; [apply elem_of_app; by left|]. apply elem_of_retain. split; [done|]. rewrite Hno; [done|left].
Qed.

Section plan.
Context (current n : list Portal) (Hnd : NoDup current) (Hcf : conflict_free current) (Hn : NoDup n) (Hnf : conflict_free n).

Let removes := List.filter (fun c => negb (has_portal n c)) current.
Let adds := List.filter (fun d => negb (has_portal current d)) n.
Let deferred := List.filter (fun a => existsb (conflicts a) removes) adds.
Let immediate := List.filter (fun a => negb (existsb (conflicts a) removes)) adds.
Let kept := List.filter (has_portal n) current.

Lemma elem_removes p : p ∈ removes <-> p ∈ current /\ p ∉ n.
Proof.
  unfold removes. rewrite (elem_of_retain (fun c => negb (has_portal n c))). unfold has_portal. rewrite negb_true_iff, bool_decide_eq_false. done.
Qed.

Lemma elem_adds p : p ∈ adds <-> p ∈ n /\ p ∉ current.
Proof.
  unfold adds. rewrite (elem_of_retain (fun c => negb (has_portal current c))). unfold has_portal. rewrite negb_true_iff, bool_decide_eq_false. done.
Qed.

Lemma elem_kept p : p ∈ kept <-> p ∈ current /\ p ∈ n.
Proof. unfold kept. rewrite (elem_of_retain (has_portal n)). unfold has_portal. by rewrite bool_decide_eq_true. Qed.

Lemma elem_immediate p : p ∈ immediate <-> p ∈ adds /\ forall r, r ∈ removes -> conflicts p r = false.
Proof.
  unfold immediate. rewrite (elem_of_retain (fun a => negb (existsb (conflicts a) removes))). by rewrite negb_true_iff, existsb_false_elem.
Qed.

Lemma removed_exactly : retain (fun q => negb (existsb (same_np q) removes)) (current ++ immediate) = kept ++ immediate.
Proof.
  unfold retain. rewrite List.filter_app. f_equal.
  - unfold kept. apply filter_ext_in. intros c Hc%list_elem_of_In. unfold has_portal.
    destruct (existsb (same_np c) removes) eqn:E; cbn.
    + apply existsb_true_elem in E as (r & Hr & Hs). symmetry. apply bool_decide_eq_false. intros Hcn.
      apply elem_removes in Hr as [Hr Hrn]. apply Hrn. rewrite <- (Hcf c r); [done|done|done|by apply same_np_conflicts].
    + symmetry. apply bool_decide_eq_true. destruct (decide (c ∈ n)) as [|Hcn]; [done|].
      rewrite existsb_false_elem in E. specialize (E c (proj2 (elem_removes c) (conj Hc Hcn))). by rewrite same_np_refl in E.
  - apply (retain_all (fun q => negb (existsb (same_np q) removes))). intros q [_ Hq]%elem_immediate. apply negb_true_iff, existsb_false_elem. intros r Hr.
    destruct (same_np q r) eqn:E; [|done]. specialize (Hq r Hr). by rewrite (same_np_conflicts _ _ E) in Hq.
Qed.

Lemma immediate_deferred : Permutation (immediate ++ deferred) adds.
Proof. apply filter_split. Qed.

Lemma kept_adds : Permutation (kept ++ adds) n.
Proof.
  apply NoDup_Permutation; [|done|].
  - apply NoDup_app. split_and!; [by apply (sublist_NoDup _ current), retain_sublist|intros x [H _]%elem_kept [_ Hx]%elem_adds; done|].
    by apply (sublist_NoDup _ n), retain_sublist.
  - intros x. rewrite elem_of_app, elem_kept, elem_adds. destruct (decide (x ∈ current)); tauto.
Qed.

(** What is open after the first steps of the plan. *)
Lemma plan_stages k :
  let P := fold_left apply_step (take k ((Add <$> immediate) ++ (Remove <$> removes) ++ (Add <$> deferred))) current in
  (forall x, x ∈ P -> x ∈ current ++ immediate) \/ (forall x, x ∈ P -> x ∈ n).
Proof.
  cbv zeta. rewrite app_assoc. set (first := (Add <$> immediate) ++ (Remove <$> removes)).
  destruct (decide (k <= length first)%nat) as [Hle|Hgt].
  - left. rewrite take_app_le by done. intros x [H|H]%apply_steps_subset; [apply elem_of_app; by left|].
    apply elem_of_app. right. assert (Hin : Add x ∈ first) by (rewrite <- (take_drop k first); apply elem_of_app; by left).
    unfold first in Hin. apply elem_of_app in Hin as [(y & [= <-] & Hy)%list_elem_of_fmap|(y & ? & _)%list_elem_of_fmap]; done.
  - right. rewrite take_app_ge, fold_left_app by lia. unfold first. rewrite fold_left_app, apply_adds, apply_removes, removed_exactly.
    intros x [H|H]%apply_steps_subset.
    + rewrite <- kept_adds, <- immediate_deferred, app_assoc. apply elem_of_app. by left.
    + assert (Hin : Add x ∈ Add <$> deferred) by (rewrite <- (take_drop (k - length first) (Add <$> deferred)); apply elem_of_app; by left).
      apply list_elem_of_fmap in Hin as (y & [= <-] & Hy). rewrite <- kept_adds, <- immediate_deferred. set_solver.
Qed.

Lemma current_immediate_free : conflict_free (current ++ immediate).
Proof.
  assert (Hci : forall c i, c ∈ current -> i ∈ immediate -> conflicts c i = true -> c = i).
  { intros c i Hc Hi Hx. apply elem_immediate in Hi as [Hi Hno]. destruct (decide (c ∈ n)) as [Hcn|Hcn].
    - apply (Hnf c i); [done|by apply elem_adds|done].
    - rewrite conflicts_sym, (Hno c) in Hx; [done|by apply elem_removes]. }
  intros p q [Hp|Hp]%elem_of_app [Hq|Hq]%elem_of_app Hx.
  - by apply Hcf.
  - by apply Hci.
  - symmetry. apply Hci; [done|done|]. by rewrite conflicts_sym.
  - apply elem_immediate in Hp as [Hp _], Hq as [Hq _]. apply Hnf; [by apply elem_adds|by apply elem_adds|done].
Qed.

Lemma not_removed x r : x ∈ kept ++ immediate -> r ∈ removes -> same_np x r = false.
Proof.
  intros Hx Hr. destruct (same_np x r) eqn:E; [|done]. apply same_np_conflicts in E. apply elem_of_app in Hx as [Hx|Hx].
  - apply elem_kept in Hx as [Hc Hxn]. apply elem_removes in Hr as [Hr Hrn]. by rewrite <- (Hcf x r Hc Hr E) in Hrn.
  - apply elem_immediate in Hx as [_ Hx]. by rewrite Hx in E.
Qed.

Lemma plan_listens k :
  let P := fold_left apply_step (take k ((Add <$> immediate) ++ (Remove <$> removes) ++ (Add <$> deferred))) current in
  (forall x, x ∈ kept -> x ∈ P) /\ ((forall x, x ∈ current -> x ∈ P) \/ (forall x, x ∈ immediate -> x ∈ P)).
Proof.
  cbv zeta. set (steps := (Add <$> immediate) ++ _).
  assert (Hrem : forall r, Remove r ∈ take k steps -> r ∈ removes).
  { intros r Hr. assert (Hin : Remove r ∈ steps) by (rewrite <- (take_drop k steps); apply elem_of_app; by left).
    unfold steps in Hin. rewrite !elem_of_app, !list_elem_of_fmap in Hin. naive_solver. }
  split.
  - intros x Hx. apply apply_steps_keeps; [by apply elem_kept|]. intros r Hr. apply not_removed; [apply elem_of_app; by left|by apply Hrem].
  - unfold steps in *. destruct (decide (k <= length (Add <$> immediate))%nat) as [Hle|Hgt].
    + left. rewrite take_app_le by done. rewrite take_app_le in Hrem by done. intros x Hx. apply apply_steps_keeps; [done|]. intros r Hr. exfalso.
      assert (Hin : Remove r ∈ Add <$> immediate) by (rewrite <- (take_drop k (Add <$> immediate)); apply elem_of_app; by left).
      apply list_elem_of_fmap in Hin as (y & ? & _). done.
    + right. rewrite take_app_ge in Hrem |- * by lia. rewrite fold_left_app, apply_adds. intros x Hx.
      apply apply_steps_keeps; [apply elem_of_app; by right|]. intros r Hr. apply not_removed; [apply elem_of_app; by right|].
      apply Hrem. apply elem_of_app. by right.
Qed.
End plan.

(** C20. An accepted request to replace the portals of a target names at least
    one portal, all with a numeric address, a port and no address and port twice.
    Let the current portals be distinct, let the kernel accept the current
    portals together and the requested ones together (no two of either on the
    same port and family with equal addresses or the address for all), and let
    every address be written in one way, the one for all as 0.0.0.0 or ::. Run on
    the current portals, the plan then ends in exactly the requested set; at
    every point between its steps no two open portals are ones the kernel refuses
    together; portals that are in both sets are open all the time; and none is
    closed before every new one that clashes with no portal to be removed is
    open. Other spellings are missed, see [wildcard_spelling_missed]. *)
Theorem portal_plan_exact current desired steps :
  plan_portal_transition current desired = Ok steps ->
  exists n, normalize_portals [] desired = Ok n /\ n <> [] /\ Forall accepted n /\ distinct_np n /\
  (NoDup current -> clash_free current -> clash_free n -> plainly_written (current ++ n) ->
   Permutation (fold_left apply_step steps current) n /\
   (forall k, clash_free (fold_left apply_step (take k steps) current)) /\
   (forall k x, x ∈ current -> x ∈ n -> x ∈ fold_left apply_step (take k steps) current) /\
   (forall k r a, r ∈ current -> r ∉ fold_left apply_step (take k steps) current -> a ∈ n -> a ∉ current ->
      (forall c, c ∈ current -> c ∉ n -> ~ clash a c) -> a ∈ fold_left apply_step (take k steps) current)).
Proof.
  unfold plan_portal_transition. destruct desired as [|d desired]; [done|].
  destruct (normalize_portals [] (d :: desired)) as [n|] eqn:E; [|done]. cbn [result_bind]. intros [= <-]. exists n. split; [done|].
  destruct (normalize_portals_ok [] (d :: desired) n E) as (Ha & Hd & Hl); [constructor|intros i j p q Hp; by rewrite lookup_nil in Hp|].
  split; [by intros ->|]. split; [done|]. split; [done|]. intros Hnd Hcc Hnc Hw. pose proof (distinct_np_NoDup _ Hd) as Hn.
  assert (forall l, (forall x, x ∈ l -> x ∈ current ++ n) -> clash_free l <-> conflict_free l) as Hsame.
  { intros l Hin. unfold clash_free, conflict_free. split; intros H p q Hp Hq Hpq; apply H; try done; by apply (conflicts_clash _ p q Hw); [apply Hin..|]. }
  assert (conflict_free current) as Hcf by (apply Hsame; [intros; apply elem_of_app; by left|done]).
  assert (conflict_free n) as Hnf by (apply Hsame; [intros; apply elem_of_app; by right|done]). split_and!.
  - rewrite !fold_left_app, !apply_adds, apply_removes, removed_exactly by done. rewrite <- app_assoc, immediate_deferred. by apply kept_adds.
  - intros k. apply Hsame.
    { intros x Hx. destruct (plan_stages current n Hnd Hcf Hn Hnf k) as [Hs|Hs]; apply Hs in Hx; [|apply elem_of_app; by right].
      apply elem_of_app in Hx as [Hx|Hx]; apply elem_of_app; [by left|right]. apply elem_immediate in Hx as [Hx _]. by apply elem_adds in Hx as [? _]. }
    destruct (plan_stages current n Hnd Hcf Hn Hnf k) as [Hs|Hs]; intros p q Hp%Hs Hq%Hs; [|by apply Hnf].
    by apply (current_immediate_free current n Hcf Hnf).
  - intros k x Hc Hx. apply (plan_listens current n Hcf k). by apply elem_kept.
  - intros k r a Hr Hgone Ha1 Ha2 Hac. destruct (plan_listens current n Hcf k) as [_ [H|H]]; [by destruct Hgone; apply H|].
    apply H. apply elem_immediate. split; [by apply elem_adds|]. intros c [Hc1 Hc2]%elem_removes. apply not_true_iff_false. intros Hcon. apply (Hac c Hc1 Hc2).
    apply (conflicts_clash _ a c Hw); [apply elem_of_app; by right|apply elem_of_app; by left|done].
Qed.

Lemma plainly_written_sub l l' : (forall x, x ∈ l' -> x ∈ l) -> plainly_written l -> plainly_written l'.
Proof. intros Hs [H1 H2 H3]. split; [intros p ?%Hs|intros p q ?%Hs ?%Hs|intros p a ?%Hs]; [by apply H1|by apply H2|by apply (H3 p a)]. Qed.

Lemma clash_free_by l : plainly_written l -> conflict_free l -> clash_free l.
Proof. intros Hw H p q Hp Hq Hc. apply H; [done..|]. by apply (conflicts_clash l p q Hw). Qed.

(** Moving from the wildcard to an address on the same port, and adding another port. *)
Lemma portal_plan_exact_witness :
  let current := [mkPortal "0.0.0.0" 3260 false] in
  let desired := [mkPortal "10.0.0.5" 3260 false; mkPortal "[fd00::1]" 3261 false] in
  exists steps, plan_portal_transition current desired = Ok steps /\
    Permutation (fold_left apply_step steps current) [mkPortal "10.0.0.5" 3260 false; mkPortal "fd00::1" 3261 false] /\
    (forall k, clash_free (fold_left apply_step (take k steps) current)).
Proof.
  intros current desired. eexists. split; [vm_compute; reflexivity|].
  destruct (portal_plan_exact current desired _ ltac:(vm_compute; reflexivity)) as (n & En & _ & _ & _ & H).
  assert (n = [mkPortal "10.0.0.5" 3260 false; mkPortal "fd00::1" 3261 false]) as -> by (revert En; vm_compute; congruence).
  assert (plainly_written (current ++ [mkPortal "10.0.0.5" 3260 false; mkPortal "fd00::1" 3261 false])) as Hw.
  { split.
    - intros p Hp. repeat (apply elem_of_cons in Hp as [->|Hp]); [vm_compute; eexists; reflexivity..|by apply elem_of_nil in Hp].
    - intros p q Hp Hq. repeat (apply elem_of_cons in Hp as [->|Hp]); [..|by apply elem_of_nil in Hp];
        (repeat (apply elem_of_cons in Hq as [->|Hq]); [..|by apply elem_of_nil in Hq]); vm_compute; intros E; first [reflexivity|discriminate E].
    - intros p a Hp. repeat (apply elem_of_cons in Hp as [->|Hp]); [..|by apply elem_of_nil in Hp]; vm_compute; intros [= <-] E; first [reflexivity|discriminate E]. }
  destruct H as (H1 & H2 & _).
  - apply NoDup_singleton.
  - intros p q ->%list_elem_of_singleton ->%list_elem_of_singleton _. reflexivity.
  - apply clash_free_by; [eapply plainly_written_sub; [|exact Hw]; intros x Hx; apply elem_of_app; by right|].
    intros p q Hp Hq. rewrite !elem_of_cons, elem_of_nil in Hp, Hq. destruct Hp as [->|[->|[]]], Hq as [->|[->|[]]]; vm_compute; congruence.
  - exact Hw.
  - split; [exact H1|exact H2].
Defined.

(** The wildcard has other spellings, which the plan does not know: it opens an
    address on the port while the wildcard is still bound to it. *)
Lemma wildcard_spelling_missed :
  plan_portal_transition [mkPortal "::0" 3260 false] [mkPortal "fd00::1" 3260 false] =
    Ok [Add (mkPortal "fd00::1" 3260 false); Remove (mkPortal "::0" 3260 false)] /\
  plan_portal_transition [mkPortal "::" 3260 false] [mkPortal "fd00::1" 3260 false] =
    Ok [Remove (mkPortal "::" 3260 false); Add (mkPortal "fd00::1" 3260 false)] /\
  parse_ip_addr "::0" = parse_ip_addr "::".
Proof. vm_compute. repeat split. Qed.
