(* ===== verification/IscsiOps.v ===== *)
(** * iSCSI targets: the operations (nasty-sharing/src/iscsi.rs)

    The kernel's target configuration is a tree of directories, attribute files
    and links under configfs ([Lio]); an operation is a sequence of system calls
    on it, of writes of the target's record, and of runs of targetcli, each of
    which may fail without effect ([ie_fault], numbered in the order they are
    made).  The world keeps every kernel state passed through. *)

From Stdlib Require Import ZArith Lia Ascii String List.
From stdpp Require Import base list gmap strings.
From S2P Require Import Prelude.
From S2P Require Import RustStr.
From S2P Require Import RustPath.
From S2P Require Import StateDir.
From S2P Require Import ShareScope.
From S2P Require Import Iscsi.

Definition ISCSI_BASE : string := "/sys/kernel/config/target/iscsi".
Definition CORE_BASE : string := "/sys/kernel/config/target/core".

Record Lio : Type := mkLio { li_dirs : gset string; li_files : gmap string string; li_links : gmap string string }.

Record IscsiWorld : Type := mkIscsiWorld {
  iw_lio : Lio;
  iw_past : list Lio;
  iw_store : StateDir IscsiTarget;
  iw_saved : option Lio;
  iw_calls : nat;
}.

(** [ie_default]: the content of an attribute never written; [ie_seal]: what
    systemd-creds makes of a secret, if it works. *)
Record IscsiEnv : Type := mkIscsiEnv {
  ie_fault : nat -> option string;
  ie_default : string -> string;
  ie_uuid : string;
  ie_base_iqn : result (option string) string;
  ie_has_ipv6 : bool;
  ie_exists : list Component -> bool;
  ie_is_file : string -> bool;
  ie_seal : string -> string -> option string;
}.

Abbreviation iscsi A := (stm IscsiWorld IscsiError A).

(** ** System calls *)

Definition parts_below (p q : string) : bool := starts_with (p +:+ "/") q.

(** A path and its parents. *)
Definition with_parents (p : string) : list string :=
  let segs := str_split "/" p in (fun k => str_join "/" (take k segs)) <$> seq 1 (length segs).

Definition lio_mkdir (p : string) (l : Lio) : Lio := mkLio (list_to_set (with_parents p) ∪ {[p]} ∪ li_dirs l) (li_files l) (li_links l).

(** A directory goes with everything below it. *)
Definition lio_rmdir (p : string) (l : Lio) : Lio :=
  mkLio (filter (fun d => d <> p /\ parts_below p d = false) (li_dirs l))
    (filter (fun kv : string * string => parts_below p kv.1 = false) (li_files l))
    (filter (fun kv : string * string => parts_below p kv.1 = false) (li_links l)).

Definition lio_write (p v : string) (l : Lio) : Lio := mkLio (li_dirs l) (<[p := v]> (li_files l)) (li_links l).
Definition lio_symlink (target link : string) (l : Lio) : Lio := mkLio (li_dirs l) (li_files l) (<[link := target]> (li_links l)).
Definition lio_unlink (link : string) (l : Lio) : Lio := mkLio (li_dirs l) (li_files l) (delete link (li_links l)).

Section ops.
Context (env : IscsiEnv).

(** The next call fails or not. *)
Definition next_call : stm IscsiWorld IscsiError (option string) :=
  fun w => (mkIscsiWorld (iw_lio w) (iw_past w) (iw_store w) (iw_saved w) (S (iw_calls w)), Ok (ie_fault env (iw_calls w))).

Definition put_lio (l : Lio) : iscsi unit :=
  m_modify (fun w => mkIscsiWorld l (l :: iw_past w) (iw_store w) (iw_saved w) (iw_calls w)).

(** A call that changes the kernel's tree; [refused] when it cannot succeed. *)
Definition lio_call (what : string) (refused : Lio -> option string) (effect : Lio -> Lio) : iscsi unit :=
  fault <~ next_call ;;
  w <~ m_get ;;
  match fault, refused (iw_lio w) with
  | Some e, _ | None, Some e => m_throw (IeConfigFs (what +:+ ": " +:+ e))
  | None, None => put_lio (effect (iw_lio w))
  end.

Definition allowed (l : Lio) : option string := None.

Definition configfs_mkdir (p : string) : iscsi unit := lio_call ("mkdir " +:+ p) allowed (lio_mkdir p).

Definition configfs_mkdir_new (p : string) : iscsi unit :=
  lio_call ("mkdir " +:+ p) (fun l => if bool_decide (p ∈ li_dirs l) then Some "File exists (os error 17)" else None) (lio_mkdir p).

Definition configfs_rmdir (p : string) : iscsi unit :=
  lio_call ("rmdir " +:+ p) (fun l => if bool_decide (p ∈ li_dirs l) then None else Some "No such file or directory (os error 2)") (lio_rmdir p).

Definition configfs_write (p v : string) : iscsi unit := lio_call ("write " +:+ p +:+ "=" +:+ v) allowed (lio_write p v).

(** The value is not in the error. *)
Definition configfs_write_secret (p v : string) : iscsi unit := lio_call ("write " +:+ p +:+ "=<redacted>") allowed (lio_write p v).

Definition configfs_symlink (target link : string) : iscsi unit :=
  lio_call ("symlink " +:+ link +:+ " -> " +:+ target)
    (fun l => if bool_decide (is_Some (li_links l !! link)) then Some "File exists (os error 17)" else None) (lio_symlink target link).

Definition configfs_unlink (link : string) : iscsi unit :=
  lio_call ("unlink " +:+ link)
    (fun l => if bool_decide (is_Some (li_links l !! link)) then None else Some "No such file or directory (os error 2)") (lio_unlink link).

Definition read_file (p : string) : iscsi string :=
  fault <~ next_call ;;
  w <~ m_get ;;
  match fault with Some e => m_throw (IeIo e) | None => m_ret (default (ie_default env p) (li_files (iw_lio w) !! p)) end.

Definition save_target (t : IscsiTarget) : iscsi unit :=
  fault <~ next_call ;;
  w <~ m_get ;;
  match save fault (it_id t) t (iw_store w) with
  | Ok d => m_modify (fun w => mkIscsiWorld (iw_lio w) (iw_past w) d (iw_saved w) (iw_calls w))
  | Err e => m_throw (IeIo e)
  end.

Definition remove_target (id : string) : iscsi unit :=
  fault <~ next_call ;;
  w <~ m_get ;;
  match remove fault id (iw_store w) with
  | Ok d => m_modify (fun w => mkIscsiWorld (iw_lio w) (iw_past w) d (iw_saved w) (iw_calls w))
  | Err e => m_throw (IeIo e)
  end.

Definition load_target (id : string) : iscsi IscsiTarget :=
  w <~ m_get ;;
  match load (iw_store w) id with Some t => m_ret t | None => m_throw (IeNotFound id) end.

(** [targetcli saveconfig] *)
Definition save_lio_config_checked : iscsi unit :=
  fault <~ next_call ;;
  match fault with
  | Some e => m_throw (IeCommandFailed ("targetcli saveconfig: " +:+ e))
  | None => m_modify (fun w => mkIscsiWorld (iw_lio w) (iw_past w) (iw_store w) (Some (iw_lio w)) (iw_calls w))
  end.

Definition save_lio_config : iscsi unit := m_ignore save_lio_config_checked.

(** ** Paths *)

Definition target_path (iqn : string) : string := ISCSI_BASE +:+ "/" +:+ iqn.
Definition tpg_path (iqn : string) : string := target_path iqn +:+ "/tpgt_1".
Definition enable_path (tpg : string) : string := tpg +:+ "/enable".
Definition generate_path (tpg : string) : string := tpg +:+ "/attrib/generate_node_acls".
Definition authentication_path (p : string) : string := p +:+ "/attrib/authentication".
Definition acl_path (tpg initiator : string) : string := tpg +:+ "/acls/" +:+ initiator.
Definition lun_path (tpg : string) (lun_id : Z) : string := tpg +:+ "/lun/lun_" +:+ fmt_dec lun_id.

Definition np_path_for (tpg ip : string) (port : Z) : string :=
  if str_contains_char ":" ip then tpg +:+ "/np/[" +:+ ip +:+ "]:" +:+ fmt_dec port else tpg +:+ "/np/" +:+ ip +:+ ":" +:+ fmt_dec port.

(** ** Portals *)

Definition create_np (tpg : string) (p : Portal) : iscsi unit :=
  let np := np_path_for tpg (po_ip p) (po_port p) in
  configfs_mkdir np ;;;
  (if po_iser p then m_catch (configfs_write (np +:+ "/iser") "1") (fun e => m_ignore (configfs_rmdir np) ;;; m_throw e) else m_ret tt).

Definition remove_np (tpg : string) (p : Portal) : iscsi unit := configfs_rmdir (np_path_for tpg (po_ip p) (po_port p)).

Fixpoint for_each {A} (f : A -> iscsi unit) (l : list A) : iscsi unit :=
  match l with [] => m_ret tt | x :: rest => f x ;;; for_each f rest end.

Definition cleanup_unpersisted_target (target tpg : string) (portals : list Portal) : iscsi unit :=
  m_ignore (configfs_write (enable_path tpg) "0") ;;;
  for_each (fun p => m_ignore (remove_np tpg p)) (rev portals) ;;;
  m_ignore (configfs_rmdir tpg) ;;;
  m_ignore (configfs_rmdir target).

Definition create_target_dirs (iqn : string) : iscsi unit :=
  configfs_mkdir ISCSI_BASE ;;;
  configfs_mkdir_new (target_path iqn) ;;;
  m_catch (configfs_mkdir (tpg_path iqn)) (fun e => m_ignore (configfs_rmdir (target_path iqn)) ;;; m_throw e).

Definition with_portals (t : IscsiTarget) (ps : list Portal) : IscsiTarget :=
  mkIscsiTarget (it_id t) (it_iqn t) (it_alias t) ps (it_luns t) (it_acls t) (it_enabled t).
Definition with_acls (t : IscsiTarget) (acls : list Acl) : IscsiTarget :=
  mkIscsiTarget (it_id t) (it_iqn t) (it_alias t) (it_portals t) (it_luns t) acls (it_enabled t).

Definition add_portal (target_id ip : string) (port : Z) (iser : bool) : iscsi IscsiTarget :=
  t <~ load_target target_id ;;
  ip <~ m_lift (validate_portal_ip ip) ;;
  if existsb (fun p => String.eqb (po_ip p) ip && (po_port p =? port)) (it_portals t) then m_ret (target_redacted t)
  else
    let p := mkPortal ip port iser in
    create_np (tpg_path (it_iqn t)) p ;;;
    let t' := with_portals t (it_portals t ++ [p]) in
    save_target t' ;;; save_lio_config ;;; m_ret (target_redacted t').

Fixpoint remove_at {A} (i : nat) (l : list A) : list A :=
  match l, i with [], _ => [] | _ :: rest, O => rest | x :: rest, S k => x :: remove_at k rest end.

Fixpoint position_of {A} (p : A -> bool) (l : list A) : option nat :=
  match l with [] => None | x :: rest => if p x then Some O else S <$> position_of p rest end.

Definition remove_portal (target_id ip : string) (port : Z) : iscsi IscsiTarget :=
  t <~ load_target target_id ;;
  match position_of (fun p => String.eqb (po_ip p) ip && (po_port p =? port)) (it_portals t) with
  | None => m_throw (IeNotFound ("portal " +:+ ip +:+ ":" +:+ fmt_dec port +:+ " not found"))
  | Some i =>
      if Nat.eqb (length (it_portals t)) 1
      then m_throw (IeCommandFailed "Cannot remove the last portal — target would become unreachable. Add a replacement portal first.")
      else
        m_ignore (configfs_rmdir (np_path_for (tpg_path (it_iqn t)) ip port)) ;;;
        let t' := with_portals t (remove_at i (it_portals t)) in
        save_target t' ;;; save_lio_config ;;; m_ret (target_redacted t')
  end.

Definition run_step (tpg : string) (s : PortalStep) : iscsi unit :=
  match s with Add p => create_np tpg p | Remove p => remove_np tpg p end.

Definition undo_step (tpg : string) (s : PortalStep) : iscsi unit :=
  match s with Add p => m_ignore (remove_np tpg p) | Remove p => m_ignore (create_np tpg p) end.

(** The steps in turn; at a failure the ones done are undone, the latest first. *)
Fixpoint run_steps (tpg : string) (steps applied : list PortalStep) (portals : list Portal) : iscsi (list Portal) :=
  match steps with
  | [] => m_ret portals
  | s :: rest =>
      m_catch (run_step tpg s) (fun e => for_each (undo_step tpg) applied ;;; m_throw e) ;;;
      run_steps tpg rest (s :: applied) (apply_step portals s)
  end.

Definition set_portals (target_id : string) (portals : list Portal) : iscsi IscsiTarget :=
  t <~ load_target target_id ;;
  steps <~ m_lift (plan_portal_transition (it_portals t) portals) ;;
  match steps with
  | [] => m_ret (target_redacted t)
  | _ =>
      ps <~ run_steps (tpg_path (it_iqn t)) steps [] (it_portals t) ;;
      let t' := with_portals t ps in
      save_target t' ;;; save_lio_config ;;; m_ret (target_redacted t')
  end.

(** ** Access control *)

Definition rollback_new_acl (acl tpg original_generate original_enable : string) : iscsi unit :=
  configfs_write (enable_path tpg) "0" ;;;
  configfs_rmdir acl ;;;
  configfs_write (generate_path tpg) original_generate ;;;
  configfs_write (enable_path tpg) original_enable.

Definition chap_secret_name (target_id initiator : string) : string := "nasty.iscsi." +:+ target_id +:+ "." +:+ initiator +:+ ".password".

(** The password to store and its sealed form. *)
Definition seal_chap_password (target_id initiator : string) (plaintext : option string) : option string * option string :=
  match plaintext with
  | Some plain => if String.eqb plain "" then (None, None)
                  else match ie_seal env (chap_secret_name target_id initiator) plain with
                       | Some blob => (None, Some blob)
                       | None => (Some plain, None)
                       end
  | None => (None, None)
  end.

(** The errors of the state file are printed without their prefix there. *)
Definition raw_text (e : IscsiError) : string := match e with IeIo s => s | _ => iscsi_error_text e end.

Definition both (e e' : IscsiError) (what : string) : IscsiError := IeConfigFs (raw_text e +:+ "; " +:+ what +:+ ": " +:+ raw_text e').

(** Undo, and report the error with what went wrong on the way. *)
Definition undoing {A} (e : IscsiError) (what : string) (undo : iscsi unit) : iscsi A :=
  m_catch undo (fun e' => m_throw (both e e' what)) ;;; m_throw e.

Definition acl_failed : string := "ACL rollback failed with the TPG disabled".

Definition configure_acl (tpg acl : string) (chap : option (string * string)) : iscsi unit :=
  match chap with
  | Some (userid, password) =>
      configfs_write (authentication_path acl) "1" ;;;
      configfs_write (acl +:+ "/auth/userid") userid ;;;
      configfs_write_secret (acl +:+ "/auth/password") password
  | None => m_ret tt
  end ;;;
  configfs_write (generate_path tpg) "0" ;;;
  configfs_write (authentication_path tpg) "0".

Definition chap_of (enable : bool) (userid password : option string) : option (string * string) :=
  match enable, userid, password with true, Some u, Some p => Some (u, p) | _, _, _ => None end.

(** Everything after the directory of the ACL exists. *)
Definition finish_acl (t t' : IscsiTarget) (tpg acl original_generate original_enable : string) : iscsi unit :=
  let undo := rollback_new_acl acl tpg original_generate original_enable in
  m_catch (save_target t') (fun e => undoing e acl_failed undo) ;;;
  m_catch (configfs_write (enable_path tpg) original_enable) (fun e =>
    m_catch (save_target t) (fun e' => m_throw (both e e' "failed to restore target state with the TPG disabled")) ;;;
    undoing e acl_failed undo) ;;;
  m_catch save_lio_config_checked (fun e =>
    m_catch (configfs_write (enable_path tpg) "0") (fun e' => m_throw (both e e' "failed to disable TPG for rollback")) ;;;
    m_catch (save_target t) (fun e' => m_throw (both e e' "failed to restore target state with the TPG disabled")) ;;;
    m_catch undo (fun e' => m_throw (both e e' acl_failed)) ;;;
    undoing e "failed to persist ACL rollback" save_lio_config_checked).

(** The record with the new entry. *)
Definition entered (t : IscsiTarget) (initiator : string) (userid password : option string) : IscsiTarget :=
  let '(stored, sealed) := seal_chap_password (it_id t) initiator password in
  with_acls t (it_acls t ++ [mkAcl initiator userid stored sealed]).

(** From the moment the old attributes are known. *)
Definition enter_acl (t : IscsiTarget) (initiator : string) (userid password : option string) (enable_chap : bool) (generate enable : string)
    : iscsi IscsiTarget :=
  let tpg := tpg_path (it_iqn t) in
  let acl := acl_path tpg initiator in
  configfs_write (enable_path tpg) "0" ;;;
  m_catch (configfs_mkdir acl) (fun e => undoing e "failed to restore TPG enable state" (configfs_write (enable_path tpg) enable)) ;;;
  m_catch (configure_acl tpg acl (chap_of enable_chap userid password)) (fun e => undoing e acl_failed (rollback_new_acl acl tpg generate enable)) ;;;
  let t' := entered t initiator userid password in
  finish_acl t t' tpg acl generate enable ;;;
  m_ret (target_redacted t').

Definition add_acl (target_id initiator : string) (userid password : option string) : iscsi IscsiTarget :=
  enable_chap <~ m_lift (chap_enabled userid password) ;;
  t <~ load_target target_id ;;
  if existsb (fun a => eq_ignore_ascii_case (ac_initiator_iqn a) initiator) (it_acls t) then m_throw (IeAlreadyExists initiator)
  else
    generate <~ read_file (generate_path (tpg_path (it_iqn t))) ;;
    enable <~ read_file (enable_path (tpg_path (it_iqn t))) ;;
    enter_acl t initiator userid password enable_chap (trim generate) (trim enable).

Definition remove_acl (target_id initiator : string) : iscsi IscsiTarget :=
  t <~ load_target target_id ;;
  let tpg := tpg_path (it_iqn t) in
  m_ignore (configfs_rmdir (acl_path tpg initiator)) ;;;
  let t' := with_acls t (retain (fun a => negb (String.eqb (ac_initiator_iqn a) initiator)) (it_acls t)) in
  (match it_acls t' with [] => configfs_write (generate_path tpg) "1" | _ => m_ret tt end) ;;;
  save_target t' ;;; save_lio_config ;;; m_ret (target_redacted t').

(** ** LUNs *)

Definition backstore_hba_type (bs_type : string) : string :=
  if String.eqb bs_type "block" then "iblock" else if String.eqb bs_type "fileio" then "fileio" else "iblock".

(** The names in a directory; reading it may fail. *)
Definition read_dir (base : string) : iscsi (list string) :=
  fault <~ next_call ;;
  w <~ m_get ;;
  match fault with
  | Some _ => m_ret []
  | None => m_ret (omap (fun d => match strip_prefix (base +:+ "/") d with
                                  | Some n => if str_contains_char "/" n then None else Some n
                                  | None => None
                                  end) (elements (li_dirs (iw_lio w))))
  end.

Definition hba_index (hba_type name : string) : option Z :=
  match strip_prefix (hba_type +:+ "_") name with Some suffix => parse_uint (2 ^ 32 - 1) suffix | None => None end.

Definition max_index (l : list Z) : option Z := fold_left (fun m i => Some (match m with Some m => Z.max m i | None => i end)) l None.

Definition u32_succ (n : Z) : Z := (n + 1) mod 2 ^ 32.

Definition next_hba_index (hba_type : string) : iscsi Z :=
  names <~ read_dir CORE_BASE ;;
  m_ret (match max_index (omap (hba_index hba_type) names) with Some m => u32_succ m | None => 0 end).

Definition find_backstore_hba (hba_type bs_name : string) : iscsi (option Z) :=
  names <~ read_dir CORE_BASE ;;
  w <~ m_get ;;
  m_ret (find_map (fun n => match hba_index hba_type n with
                            | Some i => if bool_decide (CORE_BASE +:+ "/" +:+ n +:+ "/" +:+ bs_name ∈ li_dirs (iw_lio w)) then Some i else None
                            | None => None
                            end) names).

Definition hba_path (hba_type : string) (i : Z) : string := CORE_BASE +:+ "/" +:+ hba_type +:+ "_" +:+ fmt_dec i.

(** Only [hba_info] and [hba_mode] are left. *)
Definition hba_is_empty (path : string) : iscsi bool := names <~ read_dir path ;; m_ret (match names with [] => true | _ => false end).

Definition remove_backstore (l : Lun) : iscsi unit :=
  let hba_type := backstore_hba_type (lu_backstore_type l) in
  found <~ find_backstore_hba hba_type (lu_backstore_name l) ;;
  match found with
  | None => m_ret tt
  | Some i =>
      let bs := hba_path hba_type i +:+ "/" +:+ lu_backstore_name l in
      m_ignore (configfs_write (bs +:+ "/enable") "0") ;;;
      m_ignore (configfs_rmdir bs) ;;;
      empty <~ hba_is_empty (hba_path hba_type i) ;;
      if empty : bool then m_ignore (configfs_rmdir (hba_path hba_type i)) else m_ret tt
  end.

Definition unlink_lun (tpg : string) (l : Lun) : iscsi unit :=
  m_ignore (configfs_unlink (lun_path tpg (lu_lun_id l) +:+ "/" +:+ lu_backstore_name l)) ;;;
  m_ignore (configfs_rmdir (lun_path tpg (lu_lun_id l))).

(** The text after the last colon of the IQN names the backstore. *)
Definition backstore_name (iqn : string) (lun_id : Z) : string :=
  "nasty_" +:+ default "unknown" (last (str_split ":" iqn)) +:+ "_lun" +:+ fmt_dec lun_id.

Record AddLunRequest : Type := mkAddLun {
  al_target_id : string;
  al_backstore_path : string;
  al_backstore_type : option string;
  al_size_bytes : option Z;
  al_backing_volume : option BlockVolumeId;
}.

Definition path_text (cs : list Component) : string :=
  let name c := match c with RootDir => "" | CurDir => "." | ParentDir => ".." | Normal n => n end in
  match cs with [RootDir] => "/" | _ => str_join "/" (name <$> cs) end.

Definition check_backstore (bs_type path : string) : result unit IscsiError :=
  if String.eqb bs_type "block" then if ie_exists env (components path) then Ok tt else Err (IeBackstoreNotFound path)
  else if String.eqb bs_type "fileio"
  then match parent path with
       | Some p => if ie_exists env p then Ok tt else Err (IeBackstoreNotFound (path_text p))
       | None => Ok tt
       end
  else Err (IeCommandFailed ("Unknown backstore type: " +:+ bs_type)).

Definition add_lun (req : AddLunRequest) : iscsi IscsiTarget :=
  t <~ load_target (al_target_id req) ;;
  let path := al_backstore_path req in
  let bs_type := match al_backstore_type req with Some ty => ty | None => if ie_is_file env path then "fileio" else "block" end in
  _ <~ m_lift (check_backstore bs_type path) ;;
  let lun_id := match max_index (lu_lun_id <$> it_luns t) with Some m => u32_succ m | None => 0 end in
  let name := backstore_name (it_iqn t) lun_id in
  let hba_type := backstore_hba_type bs_type in
  i <~ next_hba_index hba_type ;;
  let bs := hba_path hba_type i +:+ "/" +:+ name in
  configfs_mkdir bs ;;;
  (if String.eqb bs_type "block" then configfs_write (bs +:+ "/control") ("udev_path=" +:+ path)
   else configfs_write (bs +:+ "/control") ("fd_dev_name=" +:+ path +:+ ",fd_dev_size=" +:+ fmt_dec (default 1073741824 (al_size_bytes req)))) ;;;
  configfs_write (bs +:+ "/enable") "1" ;;;
  let lun := lun_path (tpg_path (it_iqn t)) lun_id in
  configfs_mkdir lun ;;;
  configfs_symlink bs (lun +:+ "/" +:+ name) ;;;
  let t' := with_luns t (it_luns t ++ [mkLun lun_id path name bs_type (al_size_bytes req) (al_backing_volume req) false]) in
  save_target t' ;;; save_lio_config ;;; m_ret (target_redacted t').

Definition remove_lun (target_id : string) (lun_id : Z) : iscsi IscsiTarget :=
  t <~ load_target target_id ;;
  match position_of (fun l => lu_lun_id l =? lun_id) (it_luns t), find_first (fun l => lu_lun_id l =? lun_id) (it_luns t) with
  | Some i, Some l =>
      unlink_lun (tpg_path (it_iqn t)) l ;;;
      remove_backstore l ;;;
      let t' := with_luns t (remove_at i (it_luns t)) in
      save_target t' ;;; save_lio_config ;;; m_ret (target_redacted t')
  | _, _ => m_throw (IeNotFound ("LUN " +:+ fmt_dec lun_id +:+ " not found"))
  end.

Definition repair_lun (target_id : string) (lun_id : Z) (device_path : string) (identity : BlockVolumeId) : iscsi (IscsiTarget * IscsiTarget) :=
  t <~ load_target target_id ;;
  t' <~ m_lift (repair_target_lun t lun_id device_path identity) ;;
  save_target t' ;;; m_ret (t', t).

(** ** Targets *)

Definition delete_target (id : string) : iscsi unit :=
  t <~ load_target id ;;
  let tpg := tpg_path (it_iqn t) in
  m_ignore (configfs_write (enable_path tpg) "0") ;;;
  for_each (fun a => m_ignore (configfs_rmdir (acl_path tpg (ac_initiator_iqn a)))) (it_acls t) ;;;
  for_each (unlink_lun tpg) (it_luns t) ;;;
  for_each (fun p => m_ignore (remove_np tpg p)) (it_portals t) ;;;
  m_ignore (configfs_rmdir tpg) ;;;
  m_ignore (configfs_rmdir (target_path (it_iqn t))) ;;;
  for_each remove_backstore (it_luns t) ;;;
  remove_target id ;;; save_lio_config.

Definition with_cleanup (e e' : IscsiError) (what : string) : IscsiError :=
  IeConfigFs (iscsi_error_text e +:+ "; " +:+ what +:+ ": " +:+ iscsi_error_text e').

Definition cleanup_failed_create {A} (id : string) (e : IscsiError) : iscsi A :=
  m_catch (delete_target id) (fun e' => m_throw (with_cleanup e e' "failed to clean up target")) ;;;
  m_catch save_lio_config_checked (fun e' => m_throw (with_cleanup e e' "failed to persist target cleanup")) ;;;
  m_throw e.

Record AclEntry : Type := mkAclEntry { ae_initiator_iqn : string; ae_userid : option string; ae_password : option string }.

Record CreateTargetRequest : Type := mkCreateTarget {
  ct_name : string;
  ct_alias : option string;
  ct_portals : option (list Portal);
  ct_device_path : option string;
  ct_backing_volume : option BlockVolumeId;
  ct_resolved_iqn : option string;
  ct_cmdsn_depth : option Z;
  ct_acls : option (list AclEntry);
}.

Fixpoint check_acl_entries (seen : list string) (acls : list AclEntry) : result unit IscsiError :=
  match acls with
  | [] => Ok tt
  | a :: rest =>
      _ <-? chap_enabled (ae_userid a) (ae_password a) ;;
      let key := to_ascii_lowercase (ae_initiator_iqn a) in
      if bool_decide (key ∈ seen) then Err (IeAlreadyExists (ae_initiator_iqn a)) else check_acl_entries (key :: seen) rest
  end.

(** The portals created, in order; at a failure the target is cleaned up. *)
Fixpoint create_portals (target tpg : string) (portals created : list Portal) : iscsi (list Portal) :=
  match portals with
  | [] => m_ret created
  | p :: rest =>
      m_catch (create_np tpg p) (fun e => cleanup_unpersisted_target target tpg created ;;; m_throw e) ;;;
      create_portals target tpg rest (created ++ [p])
  end.

Definition configure_tpg (tpg : string) (depth : option Z) (explicit_acls : bool) : iscsi unit :=
  (match depth with Some d => configfs_write (tpg +:+ "/attrib/default_cmdsn_depth") (fmt_dec d) | None => m_ret tt end) ;;;
  configfs_write (authentication_path tpg) "0" ;;;
  configfs_write (generate_path tpg) (if explicit_acls then "0" else "1") ;;;
  configfs_write (tpg +:+ "/attrib/demo_mode_write_protect") "0" ;;;
  configfs_write (enable_path tpg) "1".

Fixpoint add_acls (t : IscsiTarget) (acls : list AclEntry) : iscsi IscsiTarget :=
  match acls with
  | [] => m_ret t
  | a :: rest =>
      t' <~ m_catch (add_acl (it_id t) (ae_initiator_iqn a) (ae_userid a) (ae_password a)) (cleanup_failed_create (it_id t)) ;;
      add_acls t' rest
  end.

Definition V6_PORTAL : Portal := mkPortal "::" 3260 false.

Definition create_target (req : CreateTargetRequest) : iscsi IscsiTarget :=
  iqn <~ m_lift (match ct_resolved_iqn req with Some iqn => Ok iqn | None => iqn_for_target_name (ie_base_iqn env) (ct_name req) end) ;;
  _ <~ m_lift (match ct_acls req with Some acls => check_acl_entries [] acls | None => Ok tt end) ;;
  w <~ m_get ;;
  targets <~ m_lift (match load_all_strict (iw_store w) "unreadable state file" with Ok ts => Ok ts | Err e => Err (IeIo e) end) ;;
  match find_first (fun t => eq_ignore_ascii_case (it_iqn t) iqn) targets with
  | Some existing => m_ret (target_redacted existing)
  | None =>
      let mandatory := default [mkPortal "0.0.0.0" 3260 false] (ct_portals req) in
      let try_v6 := match ct_portals req with Some _ => false | None => ie_has_ipv6 env end in
      let target := target_path iqn in
      let tpg := tpg_path iqn in
      create_target_dirs iqn ;;;
      created <~ create_portals target tpg mandatory [] ;;
      created <~ (if try_v6 : bool then m_catch (configfs_mkdir (np_path_for tpg "::" 3260) ;;; m_ret (created ++ [V6_PORTAL])) (fun _ => m_ret created)
                  else m_ret created) ;;
      m_catch (configure_tpg tpg (ct_cmdsn_depth req) (is_some (ct_acls req)))
        (fun e => cleanup_unpersisted_target target tpg created ;;; m_throw e) ;;;
      let t := mkIscsiTarget (ie_uuid env) iqn (ct_alias req) created [] [] true in
      m_catch (save_target t) (fun e => cleanup_unpersisted_target target tpg created ;;; m_throw e) ;;;
      save_lio_config ;;;
      t <~ (match ct_device_path req with
            | Some path => m_catch (add_lun (mkAddLun (it_id t) path (Some "block") None (ct_backing_volume req))) (cleanup_failed_create (it_id t))
            | None => m_ret t
            end) ;;
      t <~ add_acls t (default [] (ct_acls req)) ;;
      m_catch save_lio_config_checked (cleanup_failed_create (it_id t)) ;;;
      m_ret (target_redacted t)
  end.
End ops.
