(* ===== verification/IscsiAcl.v ===== *)
(** * Adding an initiator to a target fails closed

    A Hoare logic for the operations, over what matters of the kernel's tree for
    one target group and one initiator ([View]) and the target's record, with the
    invariant that every kernel state passed through is safe. *)

From Stdlib Require Import ZArith Lia Ascii String List.
From stdpp Require Import base list gmap strings.
From S2P Require Import Prelude.
From S2P Require Import RustStr.
From S2P Require Import RustPath.
From S2P Require Import Text.
From S2P Require Import StateDir.
From S2P Require Import ShareScope.
From S2P Require Import Iscsi.
From S2P Require Import IscsiOps.

Record View : Type := mkView {
  v_enable : option string;
  v_generate : option string;
  v_acl : bool;
  v_auth : option string;
  v_userid : option string;
  v_password : option string;
}.

Definition userid_path (acl : string) : string := acl +:+ "/auth/userid".
Definition password_path (acl : string) : string := acl +:+ "/auth/password".

Definition view (tpg acl : string) (l : Lio) : View :=
  mkView (li_files l !! enable_path tpg) (li_files l !! generate_path tpg) (bool_decide (acl ∈ li_dirs l))
    (li_files l !! authentication_path acl) (li_files l !! userid_path acl) (li_files l !! password_path acl).

(** ** Paths are distinct *)

Lemma str_app_inj (a b c : string) : a +:+ b = a +:+ c -> b = c.
Proof. induction a as [|x a IH]; cbn; [done|]. by intros [= ->%IH]. Qed.

Ltac path_differs :=
  unfold enable_path, generate_path, authentication_path, acl_path, userid_path, password_path; rewrite ?string_app_assoc;
  let H := fresh in intros H; repeat apply str_app_inj in H; discriminate H.

Section paths.
Context (tpg i : string).
Let acl := acl_path tpg i.

Lemma paths_distinct :
  enable_path tpg <> generate_path tpg /\ enable_path tpg <> authentication_path tpg /\ generate_path tpg <> authentication_path tpg /\
  (forall p, p ∈ [authentication_path acl; userid_path acl; password_path acl] -> p ∉ [enable_path tpg; generate_path tpg; authentication_path tpg]) /\
  authentication_path acl <> userid_path acl /\ authentication_path acl <> password_path acl /\ userid_path acl <> password_path acl.
Proof.
  unfold acl. split_and!; try path_differs.
  intros p Hp Hq. rewrite !elem_of_cons, elem_of_nil in Hp, Hq.
  destruct Hp as [->|[->|[->|[]]]], Hq as [Hq|[Hq|[Hq|[]]]]; revert Hq; path_differs.
Qed.
End paths.

(** ** What the calls do to the view *)

Section views.
Context (tpg i : string).
Let acl := acl_path tpg i.

Definition set_enable (x : string) (v : View) : View := mkView (Some x) (v_generate v) (v_acl v) (v_auth v) (v_userid v) (v_password v).
Definition set_generate (x : string) (v : View) : View := mkView (v_enable v) (Some x) (v_acl v) (v_auth v) (v_userid v) (v_password v).
Definition set_auth (x : string) (v : View) : View := mkView (v_enable v) (v_generate v) (v_acl v) (Some x) (v_userid v) (v_password v).
Definition set_userid (x : string) (v : View) : View := mkView (v_enable v) (v_generate v) (v_acl v) (v_auth v) (Some x) (v_password v).
Definition set_password (x : string) (v : View) : View := mkView (v_enable v) (v_generate v) (v_acl v) (v_auth v) (v_userid v) (Some x).
Definition make_acl (v : View) : View := mkView (v_enable v) (v_generate v) true (v_auth v) (v_userid v) (v_password v).
Definition drop_acl (v : View) : View := mkView (v_enable v) (v_generate v) false None None None.

Lemma view_write p x l :
  view tpg acl (lio_write p x l) =
  mkView (if decide (p = enable_path tpg) then Some x else v_enable (view tpg acl l))
    (if decide (p = generate_path tpg) then Some x else v_generate (view tpg acl l)) (v_acl (view tpg acl l))
    (if decide (p = authentication_path acl) then Some x else v_auth (view tpg acl l))
    (if decide (p = userid_path acl) then Some x else v_userid (view tpg acl l))
    (if decide (p = password_path acl) then Some x else v_password (view tpg acl l)).
Proof.
  unfold view, lio_write. cbn. f_equal; match goal with |- <[?a := _]> _ !! ?b = _ => destruct (decide (a = b)) as [->|] end;
    (apply lookup_insert_eq || by apply lookup_insert_ne).
Qed.

Lemma view_writes l x :
  view tpg acl (lio_write (enable_path tpg) x l) = set_enable x (view tpg acl l) /\
  view tpg acl (lio_write (generate_path tpg) x l) = set_generate x (view tpg acl l) /\
  view tpg acl (lio_write (authentication_path tpg) x l) = view tpg acl l /\
  view tpg acl (lio_write (authentication_path acl) x l) = set_auth x (view tpg acl l) /\
  view tpg acl (lio_write (userid_path acl) x l) = set_userid x (view tpg acl l) /\
  view tpg acl (lio_write (password_path acl) x l) = set_password x (view tpg acl l).
Proof.
  destruct (paths_distinct tpg i) as (D1 & D2 & D3 & D4 & D5 & D6 & D7). fold acl in D4, D5, D6, D7.
  assert (E : forall p q, p ∈ [authentication_path acl; userid_path acl; password_path acl] ->
                q ∈ [enable_path tpg; generate_path tpg; authentication_path tpg] -> p <> q) by (intros p q Hp Hq ->; by apply (D4 q)).
  assert (Ea := fun q => E (authentication_path acl) q ltac:(set_solver)). assert (Eu := fun q => E (userid_path acl) q ltac:(set_solver)).
  assert (Ep := fun q => E (password_path acl) q ltac:(set_solver)).
  pose proof (Ea (enable_path tpg) ltac:(set_solver)). pose proof (Ea (generate_path tpg) ltac:(set_solver)). pose proof (Ea (authentication_path tpg) ltac:(set_solver)).
  pose proof (Eu (enable_path tpg) ltac:(set_solver)). pose proof (Eu (generate_path tpg) ltac:(set_solver)). pose proof (Eu (authentication_path tpg) ltac:(set_solver)).
  pose proof (Ep (enable_path tpg) ltac:(set_solver)). pose proof (Ep (generate_path tpg) ltac:(set_solver)). pose proof (Ep (authentication_path tpg) ltac:(set_solver)).
  clear E Ea Eu Ep D4. split_and!; rewrite view_write; unfold set_enable, set_generate, set_auth, set_userid, set_password, view; cbn;
    repeat case_decide; congruence.
Qed.

Lemma below_acl p : p ∈ [authentication_path acl; userid_path acl; password_path acl] -> parts_below acl p = true.
Proof.
  assert (H : forall s, parts_below acl (acl +:+ "/" +:+ s) = true).
  { intros s. apply starts_with_spec. exists s. by rewrite string_app_assoc. }
  rewrite !elem_of_cons, elem_of_nil. intros [->|[->|[->|[]]]].
  - apply (H "attrib/authentication").
  - apply (H "auth/userid").
  - apply (H "auth/password").
Qed.

Lemma not_below_acl p : p ∈ [enable_path tpg; generate_path tpg] -> parts_below acl p = false.
Proof.
  intros Hp. destruct (parts_below acl p) eqn:E; [|done]. unfold parts_below in E. apply starts_with_spec in E as [s E]. exfalso. revert E.
  rewrite !elem_of_cons, elem_of_nil in Hp. unfold acl. destruct Hp as [->|[->|[]]]; path_differs.
Qed.

Lemma view_rmdir l : view tpg acl (lio_rmdir acl l) = drop_acl (view tpg acl l).
Proof.
  assert (Hf : forall p, parts_below acl p = true -> li_files (lio_rmdir acl l) !! p = None).
  { intros p Hp. cbn. apply map_lookup_filter_None. right. intros x _. cbn. by rewrite Hp. }
  assert (Hk : forall p, parts_below acl p = false -> li_files (lio_rmdir acl l) !! p = li_files l !! p).
  { intros p Hp. cbn. destruct (li_files l !! p) as [x|] eqn:E.
    - by apply map_lookup_filter_Some.
    - apply map_lookup_filter_None. by left. }
  unfold view, drop_acl.
  rewrite (Hk (enable_path tpg)), (Hk (generate_path tpg)) by (apply not_below_acl; rewrite !elem_of_cons; auto).
  rewrite (Hf (authentication_path acl)), (Hf (userid_path acl)), (Hf (password_path acl)) by (apply below_acl; rewrite !elem_of_cons; auto).
  cbn. f_equal.
  apply bool_decide_eq_false. set_solver.
Qed.

Lemma view_mkdir l : view tpg acl (lio_mkdir acl l) = make_acl (view tpg acl l).
Proof. unfold view, make_acl. cbn. f_equal. apply bool_decide_eq_true. set_solver. Qed.
End views.

(** ** A logic for the operations *)

Section logic.
Context (env : IscsiEnv) (tpg i id : string) (safe : View -> Prop).
Let acl := acl_path tpg i.

Definition Abs : Type := View * option IscsiTarget.

Definition abs (w : IscsiWorld) : Abs := (view tpg acl (iw_lio w), load (iw_store w) id).

Definition all_safe (w : IscsiWorld) : Prop := Forall (fun l => safe (view tpg acl l)) (iw_past w).

(** From a state with [P], all states passed through are safe, and the end has
    [Q] after success and [R] after an error. *)
Definition hoare {A} (P : Abs -> Prop) (m : stm IscsiWorld IscsiError A) (Q R : Abs -> Prop) : Prop :=
  forall w, all_safe w -> P (abs w) ->
    all_safe (fst (m w)) /\ match snd (m w) with Ok _ => Q (abs (fst (m w))) | Err _ => R (abs (fst (m w))) end.

Lemma hoare_bind {A B} P Q R Q' (m : stm IscsiWorld IscsiError A) (k : A -> stm IscsiWorld IscsiError B) :
  hoare P m Q R -> (forall a, hoare Q (k a) Q' R) -> hoare P (m_bind m k) Q' R.
Proof.
  intros Hm Hk w Hs Hp. destruct (Hm w Hs Hp) as [Hs1 H1]. unfold m_bind. destruct (m w) as [w1 [a|e]]; cbn in *; [by apply Hk|done].
Qed.

Lemma hoare_catch {A} P Q R R1 (m : stm IscsiWorld IscsiError A) (h : IscsiError -> stm IscsiWorld IscsiError A) :
  hoare P m Q R1 -> (forall e, hoare R1 (h e) Q R) -> hoare P (m_catch m h) Q R.
Proof.
  intros Hm Hh w Hs Hp. destruct (Hm w Hs Hp) as [Hs1 H1]. unfold m_catch. destruct (m w) as [w1 [a|e]]; cbn in *; [done|by apply Hh].
Qed.

Lemma hoare_throw {A} (P Q R : Abs -> Prop) e : (forall a, P a -> R a) -> hoare P (m_throw e : stm IscsiWorld IscsiError A) Q R.
Proof. intros H w Hs Hp. by split; [|apply H]. Qed.

Lemma hoare_ret {A} (P Q R : Abs -> Prop) (x : A) : (forall a, P a -> Q a) -> hoare P (m_ret x) Q R.
Proof. intros H w Hs Hp. by split; [|apply H]. Qed.

Lemma hoare_conseq {A} (P Q R P' Q' R' : Abs -> Prop) (m : stm IscsiWorld IscsiError A) :
  hoare P' m Q' R' -> (forall a, P a -> P' a) -> (forall a, Q' a -> Q a) -> (forall a, R' a -> R a) -> hoare P m Q R.
Proof.
  intros Hm HP HQ HR w Hs Hp. destruct (Hm w Hs (HP _ Hp)) as [Hs1 H1]. split; [done|]. destruct (snd (m w)); auto.
Qed.

(** A call that changes the view by [f]. *)
Lemma hoare_call (P Q : Abs -> Prop) what refused effect f :
  (forall l, view tpg acl (effect l) = f (view tpg acl l)) ->
  (forall v s, P (v, s) -> safe (f v) /\ Q (f v, s)) ->
  hoare P (lio_call env what refused effect) Q P.
Proof.
  intros He HP w Hs Hp. unfold lio_call, m_bind, next_call, m_get. cbn.
  destruct (ie_fault env (iw_calls w)); [done|]. destruct (refused (iw_lio w)); [done|]. destruct (HP _ _ Hp) as [H1 H2]. split.
  - constructor; [by rewrite He|done].
  - unfold abs. cbn. by rewrite He.
Qed.

Lemma hoare_save (P Q : Abs -> Prop) t :
  it_id t = id -> (forall v s, P (v, s) -> Q (v, Some t)) -> hoare P (save_target env t) Q P.
Proof.
  intros Hid HP w Hs Hp. unfold save_target, m_bind, next_call, m_get, save. cbn.
  destruct (ie_fault env (iw_calls w)); [done|]. split; [done|]. unfold abs. cbn. rewrite Hid, load_save_same. by eapply HP.
Qed.

Lemma hoare_saveconfig (P : Abs -> Prop) : hoare P (save_lio_config_checked env) P P.
Proof. intros w Hs Hp. unfold save_lio_config_checked, m_bind, next_call. cbn. by destruct (ie_fault env (iw_calls w)). Qed.
End logic.

(** ** Adding an initiator *)

Section add_acl.
Context (env : IscsiEnv) (t : IscsiTarget) (i : string) (userid password : option string) (chap : option (string * string)).
Let tpg := tpg_path (it_iqn t).
Let acl := acl_path tpg i.
Let id := it_id t.
Context (v0 : View) (generate enable : string).

(** The initiator's entry is complete: its CHAP credentials are in force, if it
    has some, and nobody else is let in. *)
Definition complete (v : View) : Prop :=
  v_acl v = true /\ v_generate v = Some "0" /\
  match chap with Some (u, p) => v_auth v = Some "1" /\ v_userid v = Some u /\ v_password v = Some p | None => True end.

(** A target that is not disabled never has an incomplete entry. *)
Definition admission_safe (v : View) : Prop := v_acl v = true -> v_enable v = Some "0" \/ complete v.

Definition disabled (a : Abs) : Prop := v_enable (fst a) = Some "0".

(** No trace of the entry, the attributes as they were read, the old record. *)
Definition as_before (a : Abs) : Prop :=
  (v_enable (fst a) = v_enable v0 \/ v_enable (fst a) = Some enable) /\
  (v_generate (fst a) = v_generate v0 \/ v_generate (fst a) = Some generate) /\
  v_acl (fst a) = false /\ v_auth (fst a) = None /\ v_userid (fst a) = None /\ v_password (fst a) = None /\ snd a = Some t.

Definition added (t' : IscsiTarget) (a : Abs) : Prop := complete (fst a) /\ v_enable (fst a) = Some enable /\ snd a = Some t'.

Definition closed (t' : IscsiTarget) (a : Abs) : Prop := as_before a \/ disabled a \/ added t' a.

Let triple {A} := @hoare tpg i id admission_safe A.

Lemma hoare_write_enable (P Q : Abs -> Prop) x :
  (forall v s, P (v, s) -> admission_safe (set_enable x v) /\ Q (set_enable x v, s)) -> triple P (configfs_write env (enable_path tpg) x) Q P.
Proof. intros HP. eapply hoare_call; [|exact HP]. intros l. apply (view_writes tpg i l x). Qed.

Lemma hoare_write_generate (P Q : Abs -> Prop) x :
  (forall v s, P (v, s) -> admission_safe (set_generate x v) /\ Q (set_generate x v, s)) -> triple P (configfs_write env (generate_path tpg) x) Q P.
Proof. intros HP. eapply hoare_call; [|exact HP]. intros l. apply (view_writes tpg i l x). Qed.

Lemma hoare_rmdir_acl (P Q : Abs -> Prop) :
  (forall v s, P (v, s) -> Q (drop_acl v, s)) -> triple P (configfs_rmdir env acl) Q P.
Proof. intros HP. eapply (hoare_call env) with (f := drop_acl); [apply view_rmdir|]. intros v s Hp. split; [done|by apply HP]. Qed.

(** Undoing, from any state with the target disabled and the old record. *)
Lemma hoare_rollback :
  triple (fun a => disabled a /\ snd a = Some t) (rollback_new_acl env acl tpg generate enable) as_before disabled.
Proof.
  unfold rollback_new_acl. set (P0 := fun a : Abs => disabled a /\ snd a = Some t).
  set (P1 := fun a : Abs => P0 a /\ v_acl (fst a) = false /\ v_auth (fst a) = None /\ v_userid (fst a) = None /\ v_password (fst a) = None).
  set (P2 := fun a : Abs => P1 a /\ v_generate (fst a) = Some generate).
  apply (hoare_bind _ _ _ _ _ P0); [|intros _; apply (hoare_bind _ _ _ _ _ P1); [|intros _; apply (hoare_bind _ _ _ _ _ P2); [|intros _]]].
  - eapply (hoare_conseq _ _ _ _ _ _ _ P0 P0 P0); [apply hoare_write_enable|done|done|by intros a []].
    intros v s [_ Hs]. split; [by left|by split].
  - eapply (hoare_conseq _ _ _ _ _ _ _ P0 P1 P0); [apply hoare_rmdir_acl|done|done|by intros a []].
    intros v s [Hd Hs]. by split_and!.
  - eapply (hoare_conseq _ _ _ _ _ _ _ P1 P2 P1); [apply hoare_write_generate|done|done|by intros a [[] _]].
    intros v s ([Hd Hs] & H1 & H2 & H3 & H4). split; [by intros Hacl; cbn in *; congruence|]. by split_and!.
  - eapply (hoare_conseq _ _ _ _ _ _ _ P2 as_before P2); [apply hoare_write_enable|done|done|by intros a [[[]]]].
    intros v s (([Hd Hs] & H1 & H2 & H3 & H4) & Hg). split; [by intros Hacl; cbn in *; congruence|]. split_and!; cbn in *; auto.
Qed.

Definition off_with (r : option IscsiTarget) (a : Abs) : Prop := disabled a /\ snd a = r.

Lemma hoare_undoing {A} (P Q R : Abs -> Prop) e what undo : triple P undo R R -> triple P (@undoing A e what undo) Q R.
Proof.
  intros Hu. unfold undoing. apply (hoare_bind _ _ _ _ _ R); [|intros _; by apply hoare_throw].
  eapply hoare_catch; [exact Hu|]. intros e'. by apply hoare_throw.
Qed.

Lemma hoare_save_record (P Q : Abs -> Prop) x :
  it_id x = it_id t -> (forall v s, P (v, s) -> Q (v, Some x)) -> triple P (save_target env x) Q P.
Proof. apply hoare_save. Qed.

Lemma hoare_undo_acl {A} Q e t' : triple (off_with (Some t)) (@undoing A e acl_failed (rollback_new_acl env acl tpg generate enable)) Q (closed t').
Proof.
  apply hoare_undoing. eapply hoare_conseq; [apply hoare_rollback|done|by left|by right; left].
Qed.

(** The writes that complete the entry; the target is disabled throughout. *)
Definition entering (a : Abs) : Prop := off_with (Some t) a /\ v_acl (fst a) = true.

Lemma hoare_entry_write (P Q : Abs -> Prop) what p x f :
  (forall l, view tpg acl (lio_write p x l) = f (view tpg acl l)) -> (forall v, v_enable (f v) = v_enable v /\ v_acl (f v) = v_acl v) ->
  (forall a, P a -> entering a) -> (forall v s, P (v, s) -> Q (f v, s)) ->
  triple P (lio_call env what allowed (lio_write p x)) Q P.
Proof.
  intros Hf Hk HP HQ. eapply (hoare_call env) with (f := f); [exact Hf|]. intros v s Hp. split; [|by apply HQ].
  intros _. left. rewrite (proj1 (Hk v)). by destruct (HP _ Hp) as [[Hd _] _].
Qed.

Lemma hoare_configure :
  triple entering (configure_acl env tpg acl chap) (fun a => entering a /\ complete (fst a)) (off_with (Some t)).
Proof.
  set (C := fun v : View => match chap with Some (u, p) => v_auth v = Some "1" /\ v_userid v = Some u /\ v_password v = Some p | None => True end).
  set (P1 := fun a : Abs => entering a /\ C (fst a)). set (P2 := fun a : Abs => entering a /\ complete (fst a)).
  assert (Hoff : forall a, entering a -> off_with (Some t) a) by (by intros a []).
  pose proof (view_writes tpg i) as W. unfold configure_acl. apply (hoare_bind _ _ _ _ _ P1); [|intros _; apply (hoare_bind _ _ _ _ _ P2); [|intros _]].
  - destruct chap as [[u p]|] eqn:Ec; [|by apply hoare_ret; intros a Ha; split].
    set (A1 := fun a : Abs => entering a /\ v_auth (fst a) = Some "1"). set (A2 := fun a : Abs => A1 a /\ v_userid (fst a) = Some u).
    apply (hoare_bind _ _ _ _ _ A1); [|intros _; apply (hoare_bind _ _ _ _ _ A2); [|intros _]].
    + eapply hoare_conseq; [apply (hoare_entry_write entering A1 _ _ _ (set_auth "1")); [intros l; apply (W l "1")|done|done|]|done|done|exact Hoff].
      intros v s H1. by split.
    + eapply hoare_conseq; [apply (hoare_entry_write A1 A2 _ _ _ (set_userid u)); [intros l; apply (W l u)|done|by intros a []|]|done|done|].
      * intros v s [H1 H2]. by split_and!.
      * intros a [H1 _]. by apply Hoff.
    + eapply hoare_conseq; [apply (hoare_entry_write A2 P1 _ _ _ (set_password p)); [intros l; apply (W l p)|done|by intros a [[]]|]|done|done|].
      * intros v s [[H1 H2] H3]. split; [done|]. unfold C. by split_and!.
      * intros a [[H1 _] _]. by apply Hoff.
  - eapply hoare_conseq; [apply (hoare_entry_write P1 P2 _ _ _ (set_generate "0")); [intros l; apply (W l "0")|done|by intros a []|]|done|done|].
    + intros v s [H1 H2]. split; [done|]. split_and!; [apply H1|done|exact H2].
    + intros a [H1 _]. by apply Hoff.
  - eapply hoare_conseq; [apply (hoare_entry_write P2 P2 _ _ _ (fun v => v)); [intros l; apply (W l "0")|done|by intros a []|done]|done|done|].
    intros a [H1 _]. by apply Hoff.
Qed.

Lemma hoare_finish t' :
  it_id t' = it_id t -> triple (fun a => entering a /\ complete (fst a)) (finish_acl env t t' tpg acl generate enable) (added t') (closed t').
Proof.
  intros Hid. set (P4 := fun a : Abs => off_with (Some t') a /\ complete (fst a)). unfold finish_acl.
  assert (Hsafe : forall x v, complete v -> admission_safe (set_enable x v)) by (intros x v Hc _; right; exact Hc).
  assert (Hd : forall r a, off_with r a -> closed t' a) by (intros r a [H _]; right; by left).
  assert (Hrestore : forall e what, triple (off_with (Some t')) (m_catch (save_target env t) (fun e' => m_throw (both e e' what))) (off_with (Some t)) (closed t')).
  { intros e what. eapply hoare_catch; [apply hoare_save_record; [done|]|intros e'; apply hoare_throw; apply Hd]. intros v s [H _]. by split. }
  apply (hoare_bind _ _ _ _ _ P4); [|intros _; apply (hoare_bind _ _ _ _ _ (added t')); [|intros _]].
  - eapply hoare_catch; [apply (hoare_save_record _ P4); [done|]|].
    + intros v s [[[H1 _] H2] H3]. by split_and!.
    + intros e. eapply hoare_conseq; [apply (hoare_undo_acl _ e t')|by intros a [[]]|done|done].
  - eapply hoare_catch; [apply (hoare_write_enable P4 (added t'))|].
    + intros v s [[_ Hs] Hc]. split; [by apply Hsafe|]. by split_and!.
    + intros e. apply (hoare_bind _ _ _ _ _ (off_with (Some t))); [|intros _; apply hoare_undo_acl].
      eapply hoare_conseq; [apply Hrestore|by intros a []|done|done].
  - eapply hoare_catch; [apply hoare_saveconfig|]. intros e.
    apply (hoare_bind _ _ _ _ _ (off_with (Some t'))); [|intros _; apply (hoare_bind _ _ _ _ _ (off_with (Some t)));
      [apply Hrestore|intros _; apply (hoare_bind _ _ _ _ _ as_before); [|intros _]]].
    + eapply hoare_catch; [apply (hoare_write_enable (added t') (off_with (Some t')))|intros e'; apply hoare_throw; by right; right].
      intros v s (Hc & _ & Hs). split; [by apply Hsafe|by split].
    + eapply hoare_catch; [apply hoare_rollback|intros e'; apply hoare_throw; intros a Ha; right; by left].
    + apply hoare_undoing. eapply hoare_conseq; [apply hoare_saveconfig|done|by left|by left].
Qed.
End add_acl.

(** A name that is one component of a path. *)
Definition plain_name (s : string) : Prop := s <> "" /\ s <> "." /\ s <> ".." /\ str_contains_char "/" s = false.

Definition requested_chap (userid password : option string) : option (string * string) :=
  match userid, password with Some u, Some p => Some (u, p) | _, _ => None end.

Lemma chap_of_enabled userid password b : chap_enabled userid password = Ok b -> chap_of b userid password = requested_chap userid password.
Proof. destruct userid as [u|], password as [p|]; cbn; try (by intros [= <-]); try done. destruct (_ && _); [by intros [= <-]|done]. Qed.

Section result.
Context (env : IscsiEnv) (w : IscsiWorld) (t : IscsiTarget) (i : string) (userid password : option string).
Let tpg := tpg_path (it_iqn t).
Let acl := acl_path tpg i.
Let v0 := view tpg acl (iw_lio w).
Let chap := requested_chap userid password.
Let attr p := trim (default (ie_default env p) (li_files (iw_lio w) !! p)).
Let generate := attr (generate_path tpg).
Let enable := attr (enable_path tpg).
Context (Hload : load (iw_store w) (it_id t) = Some t).
Context (Habsent : v_acl v0 = false /\ v_auth v0 = None /\ v_userid v0 = None /\ v_password v0 = None).

Let start (a : Abs) : Prop := a = (v0, Some t).

Lemma start_as_before a : start a -> as_before t v0 generate enable a.
Proof. intros ->. destruct Habsent as (H1 & H2 & H3 & H4). split_and!; cbn; auto. Qed.

Lemma hoare_add_entry b :
  chap_enabled userid password = Ok b ->
  hoare tpg i (it_id t) (admission_safe chap) start
    (enter_acl env t i userid password b generate enable)
    (added chap enable (entered env t i userid password)) (closed t chap v0 generate enable (entered env t i userid password)).
Proof.
  intros Hb. unfold enter_acl. rewrite (chap_of_enabled _ _ _ Hb). fold chap. set (t' := entered env t i userid password).
  set (S1 := fun a : Abs => a = (set_enable "0" v0, Some t)).
  assert (Hnone : forall x, admission_safe chap (set_enable x v0)) by (intros x Hacl; unfold set_enable in Hacl; cbn [v_acl] in Hacl; destruct Habsent; congruence).
  apply (hoare_bind _ _ _ _ _ S1); [|intros _; apply (hoare_bind _ _ _ _ _ (entering t)); [|intros _;
    apply (hoare_bind _ _ _ _ _ (fun a => entering t a /\ complete chap (fst a))); [|intros _]]].
  - eapply hoare_conseq; [apply (hoare_write_enable env t i chap start S1)|done|done|].
    + intros v s [= -> ->]. split; [apply Hnone|done].
    + intros a Ha. left. by apply start_as_before.
  - eapply hoare_catch; [eapply (hoare_call env) with (f := make_acl) (Q := entering t); [apply view_mkdir|]|].
    + intros v s [= -> ->]. split; [intros _; by left|by split_and!].
    + intros e. apply hoare_undoing. set (S2 := fun a : Abs => a = (set_enable enable v0, Some t)).
      eapply hoare_conseq; [apply (hoare_write_enable env t i chap S1 S2)|done| |].
      * intros v s [= -> ->]. split; [apply Hnone|done].
      * intros a ->. left. destruct Habsent as (H1 & H2 & H3 & H4). split_and!; cbn; auto.
      * intros a ->. right. by left.
  - eapply hoare_catch; [apply hoare_configure|]. intros e. apply hoare_undo_acl.
  - apply (hoare_bind _ _ _ _ _ (added chap enable t')); [|intros _; by apply hoare_ret].
    apply hoare_finish. unfold t', entered. by destruct (seal_chap_password _ _ _ _).
Qed.

Lemma enter_acl_value b g e w0 r : snd (enter_acl env t i userid password b g e w0) = Ok r -> r = target_redacted (entered env t i userid password).
Proof.
  assert (Hseq : forall (m : stm IscsiWorld IscsiError unit) k w1, snd ((m ;;; k) w1) = Ok r -> exists w2, snd (k w2) = Ok r).
  { intros m k w1. unfold m_bind. destruct (m w1) as [w2 [[]|]]; [|done]. by exists w2. }
  unfold enter_acl. intros (w1 & (w2 & (w3 & (w4 & H)%Hseq)%Hseq)%Hseq)%Hseq. by injection H.
Qed.
End result.

(** Up to the first change, an operation only reads. *)
Definition same_state (w w1 : IscsiWorld) : Prop := iw_lio w1 = iw_lio w /\ iw_past w1 = iw_past w /\ iw_store w1 = iw_store w.

Lemma read_file_cases env p w w1 :
  same_state w w1 -> exists w2, same_state w w2 /\
    (read_file env p w1 = (w2, Ok (default (ie_default env p) (li_files (iw_lio w) !! p))) \/ exists e, read_file env p w1 = (w2, Err e)).
Proof.
  intros (H1 & H2 & H3). exists (mkIscsiWorld (iw_lio w1) (iw_past w1) (iw_store w1) (iw_saved w1) (S (iw_calls w1))). split; [by split_and!|].
  unfold read_file, m_bind, next_call, m_get. cbn. rewrite <- H1. destruct (ie_fault env (iw_calls w1)); [by right; eexists|by left].
Qed.

Lemma add_acl_cases env w t i userid password :
  load (iw_store w) (it_id t) = Some t ->
  let attr p := trim (default (ie_default env p) (li_files (iw_lio w) !! p)) in
  let tpg := tpg_path (it_iqn t) in
  exists w1, same_state w w1 /\
    ((exists e, add_acl env (it_id t) i userid password w = (w1, Err e)) \/
     (exists b, chap_enabled userid password = Ok b /\
        add_acl env (it_id t) i userid password w =
          enter_acl env t i userid password b (attr (generate_path tpg)) (attr (enable_path tpg)) w1)).
Proof.
  intros Hload attr tpg. assert (Hs : same_state w w) by done.
  remember (add_acl env (it_id t) i userid password w) as r eqn:Er. unfold add_acl, m_bind at 1, m_lift in Er.
  destruct (chap_enabled userid password) as [b|e] eqn:Hb; [|exists w; split; [done|left; by exists e]].
  assert (Hl : load_target (it_id t) w = (w, Ok t)) by (unfold load_target, m_bind, m_get; by rewrite Hload).
  unfold m_bind at 1 in Er. rewrite Hl in Er. destruct (existsb _ (it_acls t)); [exists w; split; [done|left; by eexists]|].
  destruct (read_file_cases env (generate_path tpg) w w Hs) as (w1 & S1 & [R1|[e R1]]); fold tpg in Er; unfold m_bind at 1 in Er; rewrite R1 in Er;
    [|exists w1; split; [done|left; by exists e]].
  destruct (read_file_cases env (enable_path tpg) w w1 S1) as (w2 & S2 & [R2|[e R2]]); unfold m_bind at 1 in Er; rewrite R2 in Er;
    [|exists w2; split; [done|left; by exists e]].
  exists w2. split; [done|]. right. exists b. split; [done|exact Er].
Qed.

(** C19. Adding an initiator to a target fails closed.  Whatever calls fail,
    configfs, the record or targetcli: at no moment is the target group enabled
    with an entry for the initiator that lacks its requested CHAP credentials or
    while others are still let in.  A success leaves the entry complete, the group
    enabled as it was and the entry in the record; an error leaves everything as
    it was, or the group disabled, or, if it could not even be disabled again,
    the complete entry with its record. *)
Theorem acl_setup_fails_closed env w t i userid password :
  let tpg := tpg_path (it_iqn t) in
  let seen := view tpg (acl_path tpg i) in
  let attr p := trim (default (ie_default env p) (li_files (iw_lio w) !! p)) in
  let chap := requested_chap userid password in
  let w' := fst (add_acl env (it_id t) i userid password w) in
  let t' := entered env t i userid password in
  plain_name i -> load (iw_store w) (it_id t) = Some t -> iw_past w = [] ->
  v_acl (seen (iw_lio w)) = false /\ v_auth (seen (iw_lio w)) = None /\ v_userid (seen (iw_lio w)) = None /\ v_password (seen (iw_lio w)) = None ->
  Forall (fun l => admission_safe chap (seen l)) (iw_past w') /\
  let a := (seen (iw_lio w'), load (iw_store w') (it_id t)) in
  match snd (add_acl env (it_id t) i userid password w) with
  | Ok r => added chap (attr (enable_path tpg)) t' a /\ r = target_redacted t'
  | Err _ => closed t chap (seen (iw_lio w)) (attr (generate_path tpg)) (attr (enable_path tpg)) t' a
  end.
Proof.
  cbv zeta. intros _ Hload Hpast Habsent. pose proof (add_acl_cases env w t i userid password Hload) as Hc. cbv zeta in Hc.
  destruct Hc as (w1 & (L & P & S) & [[e He]|(b & Hb & He)]); rewrite He.
  - cbn [fst snd]. rewrite L, P, S, Hpast, Hload. split; [constructor|]. left. destruct Habsent as (H1 & H2 & H3 & H4). split_and!; auto.
  - destruct (hoare_add_entry env w t i userid password Habsent b Hb w1) as [Hs Hq].
    + unfold all_safe. rewrite P, Hpast. constructor.
    + unfold abs. by rewrite L, S, Hload.
    + split; [exact Hs|]. unfold abs in Hq. clear He Hs.
      match goal with |- match snd ?x with _ => _ end => destruct (snd x) as [r|e] eqn:Er end; [|exact Hq].
      split; [exact Hq|]. by apply enter_acl_value in Er.
Qed.
