(* ===== verification/IscsiNames.v ===== *)
(** * Names of iSCSI targets

    Every accepted name gives an IQN that is one lowercase component of a path;
    and what the name does not determine: backstores and access entries. *)

From Stdlib Require Import ZArith Lia Ascii String List.
From stdpp Require Import base list gmap strings.
From S2P Require Import Prelude.
From S2P Require Import RustStr.
From S2P Require Import RustPath.
From S2P Require Import Text.
From S2P Require Import StateDir.
From S2P Require Import ShareScope.
From S2P Require Import BlockDev.
From S2P Require Import Iscsi.
From S2P Require Import IscsiRemap.
From S2P Require Import IscsiOps.
From S2P Require Import IscsiAcl.

(** ** The characters of an IQN *)

Definition iqn_char (c : ascii) : bool :=
  is_ascii_lowercase c || is_ascii_digit c || Ascii.eqb c "-" || Ascii.eqb c "." || Ascii.eqb c ":" || Ascii.eqb c "+".

Definition iqn_text (l : bytes) : Prop := Forall (fun c => iqn_char c = true) l.

Lemma char_cases (P : ascii -> bool) : forallb (fun n => P (ascii_of_nat n)) (seq 0 256) = true -> forall c, P c = true.
Proof.
  intros H c. rewrite forallb_forall in H. rewrite <- (ascii_nat_embedding c). apply H. apply in_seq.
  pose proof (nat_ascii_bounded c). lia.
Qed.

Lemma iqn_char_lower c : iqn_char c = true -> to_ascii_lowercase_char c = c.
Proof.
  pose proof (char_cases (fun c => implb (iqn_char c) (Ascii.eqb (to_ascii_lowercase_char c) c)) ltac:(vm_compute; reflexivity) c) as H.
  cbn in H. intros Hc. rewrite Hc in H. by apply Ascii.eqb_eq.
Qed.

Lemma iqn_char_not_slash c : iqn_char c = true -> c <> "/"%char.
Proof. by intros Hc ->. Qed.

Lemma name_char_lower c : target_name_char c = true -> iqn_char (to_ascii_lowercase_char c) = true.
Proof.
  pose proof (char_cases (fun c => implb (target_name_char c) (iqn_char (to_ascii_lowercase_char c))) ltac:(vm_compute; reflexivity) c) as H.
  cbn in H. intros Hc. by rewrite Hc in H.
Qed.

Lemma label_char_iqn c : iqn_label_char c = true -> iqn_char c = true.
Proof. unfold iqn_label_char, iqn_char. intros H. by rewrite H. Qed.

Lemma digit_iqn c : is_ascii_digit c = true -> iqn_char c = true.
Proof. unfold iqn_char. intros ->. by rewrite orb_true_r. Qed.

Lemma join_Forall (P : ascii -> Prop) (c : ascii) (ls : list bytes) : P c -> Forall (Forall P) ls -> Forall P (join_bytes [c] ls).
Proof.
  intros Hc. induction 1 as [|l ls Hl Hls IH]; cbn; [done|]. destruct ls; [done|]. apply Forall_app. split; [done|by constructor].
Qed.

Lemma parsed_chars max s v : parse_uint max s = Some v -> iqn_text (to_bytes s).
Proof.
  unfold parse_uint. assert (Hd : forall acc l x, parse_digits 10 acc l = Some x -> iqn_text l).
  { intros acc l. revert acc. induction l as [|c l IH]; intros acc x; cbn; [by constructor|].
    destruct (to_digit 10 c) as [d|] eqn:Ed; [|done]. intros H. constructor; [|by eapply IH].
    pose proof (char_cases (fun c => implb (is_some (to_digit 10 c)) (iqn_char c)) ltac:(vm_compute; reflexivity) c) as Hc. cbn in Hc. by rewrite Ed in Hc. }
  destruct (to_bytes s) as [|c [|c2 l]]; [done|intros H; destruct (parse_digits 10 0 [c]) eqn:E; [by eapply Hd|done]|].
  destruct (Ascii.eqb_spec c "+") as [->|Hne]; cbn [tail]; intros H.
  - constructor; [done|]. destruct (parse_digits 10 0 (c2 :: l)) eqn:E; [by eapply Hd|done].
  - destruct (parse_digits 10 0 (c :: c2 :: l)) eqn:E; [by eapply Hd|done].
Qed.

(** ** Accepted names *)

Lemma lower_bytes s : to_bytes (to_ascii_lowercase s) = to_ascii_lowercase_char <$> to_bytes s.
Proof. unfold to_ascii_lowercase. by rewrite to_of_bytes. Qed.

Lemma iqn_text_lower s : iqn_text (to_bytes s) -> to_ascii_lowercase s = s.
Proof.
  intros H. apply to_bytes_inj. rewrite lower_bytes. induction H as [|c l Hc Hl IH]; [done|]. rewrite fmap_cons, IH. by rewrite iqn_char_lower.
Qed.

Lemma split_once_text c s a b : split_once c s = Some (a, b) -> to_bytes s = to_bytes a ++ c :: to_bytes b.
Proof.
  unfold split_once. pose proof (split_once_bytes_spec c (to_bytes s)) as H. destruct (split_once_bytes c (to_bytes s)) as [[x y]|]; [|done].
  intros [= <- <-]. rewrite !to_of_bytes. apply H.
Qed.

Lemma normalize_iqn_prefix_ok value p :
  normalize_iqn_prefix value = Ok p -> iqn_text (to_bytes p) /\ exists rest, p = "iqn." +:+ rest.
Proof.
  unfold normalize_iqn_prefix. set (q := to_ascii_lowercase (trim value)). destruct (strip_prefix "iqn." q) as [rest|] eqn:Ep; [|done].
  destruct (split_once "." rest) as [[date domain]|] eqn:Es; [|done]. destruct (iqn_date date && iqn_domain domain) eqn:Ev; [|done].
  intros [= <-]. apply strip_prefix_Some in Ep. split; [|by exists rest]. rewrite Ep, to_bytes_app, (split_once_text _ _ _ _ Es).
  apply andb_true_iff in Ev as [Hdate Hdom]. apply Forall_app. split; [repeat constructor|]. apply Forall_app. split; [|constructor; [done|]].
  - unfold iqn_date in Hdate. destruct (split_once "-" date) as [[year month]|] eqn:Ed; cbn in Hdate; [|done]. bool_hyps.
    rewrite (split_once_text _ _ _ _ Ed). destruct (parse_uint 255 month) as [mm|] eqn:Em; [|done].
    apply Forall_app. split; [|constructor; [done|by eapply parsed_chars]].
    match goal with H : forallb is_ascii_digit _ = true |- _ => rewrite forallb_forall in H; rename H into Hy end.
    apply Forall_forall. intros c Hc. apply digit_iqn. by apply Hy, list_elem_of_In.
  - unfold iqn_domain in Hdom. apply andb_true_iff in Hdom as [_ Hdom]. rewrite <- (join_split_bytes "." (to_bytes domain)).
    apply join_Forall; [done|]. apply Forall_forall. intros l Hl. rewrite forallb_forall in Hdom.
    specialize (Hdom (of_bytes l)). rewrite to_of_bytes in Hdom. apply andb_true_iff in Hdom as [_ Hdom].
    + rewrite forallb_forall in Hdom. apply Forall_forall. intros c Hc. apply label_char_iqn, Hdom. by apply list_elem_of_In.
    + apply list_elem_of_In. unfold str_split. by apply list_elem_of_fmap_2.
Qed.

Lemma validate_target_name_ok name : validate_target_name name = Ok tt -> Forall (fun c => target_name_char c = true) (to_bytes name).
Proof.
  unfold validate_target_name. destruct (String.eqb _ _); [done|]. destruct (Nat.ltb _ _); [done|].
  destruct (forallb _ _) eqn:E; [|done]. intros _. by apply all_chars_class.
Qed.

(** Every target name that is accepted gives a well-formed IQN, whatever the
    configured base: it starts with [iqn.], has at most 223 bytes, all of them
    lowercase letters, digits, ['-'], ['.'], [':'] or ['+'], so that it is its own
    lowercase spelling, which rtslib looks for, and one component of a path, which
    cannot leave its configfs directory; and two names give the same IQN under the
    same base exactly if they differ at most in case. *)
Theorem target_iqn_well_formed prefix name iqn :
  build_target_iqn prefix name = Ok iqn ->
  iqn_text (to_bytes iqn) /\ (String.length iqn <= 223)%nat /\ starts_with "iqn." iqn = true /\ to_ascii_lowercase iqn = iqn /\ plain_name iqn /\
  forall name' iqn', build_target_iqn prefix name' = Ok iqn' -> (iqn' = iqn <-> eq_ignore_ascii_case name' name = true).
Proof.
  unfold build_target_iqn. destruct (validate_target_name name) as [[]|] eqn:Hn; [|done]. cbn [result_bind].
  destruct (normalize_iqn_prefix prefix) as [p|] eqn:Hp; [|done]. cbn [result_bind]. destruct (Nat.ltb_spec 223 (String.length (p +:+ ":" +:+ to_ascii_lowercase name))) as [|Hlen]; [done|].
  intros [= <-]. destruct (normalize_iqn_prefix_ok _ _ Hp) as [Hpt [rest ->]].
  assert (Ht : iqn_text (to_bytes (("iqn." +:+ rest) +:+ ":" +:+ to_ascii_lowercase name))).
  { rewrite !(to_bytes_app (_ +:+ _)). apply Forall_app. split; [done|]. rewrite to_bytes_app. apply Forall_app. split; [by repeat constructor|].
    rewrite lower_bytes. apply Forall_fmap. eapply Forall_impl; [by apply validate_target_name_ok|]. intros c. apply name_char_lower. }
  rewrite string_app_assoc in *. split_and!; [done|done|apply starts_with_spec; by eexists|by apply iqn_text_lower|..].
  - split_and!; [done|done|done|]. destruct (str_contains_char "/" _) eqn:E; [|done]. apply contains_char_spec in E.
    unfold iqn_text in Ht. rewrite Forall_forall in Ht. by specialize (Ht _ E).
  - intros name' iqn'. destruct (validate_target_name name') as [[]|]; [|done]. cbn [result_bind].
    destruct (Nat.ltb _ _); [done|]. intros [= <-]. rewrite string_app_assoc. unfold eq_ignore_ascii_case. rewrite String.eqb_eq. split; [|by intros ->].
    intros H. do 3 apply str_app_inj in H. done.
Qed.

Lemma target_iqn_well_formed_witness :
  build_target_iqn " IQN.2137-04.storage.nasty " "Tank-Vol.1" = Ok "iqn.2137-04.storage.nasty:tank-vol.1" /\
  plain_name "iqn.2137-04.storage.nasty:tank-vol.1".
Proof.
  assert (H : build_target_iqn " IQN.2137-04.storage.nasty " "Tank-Vol.1" = Ok "iqn.2137-04.storage.nasty:tank-vol.1") by (vm_compute; reflexivity).
  split; [exact H|]. exact (proj1 (proj2 (proj2 (proj2 (proj2 (target_iqn_well_formed _ _ _ H)))))).
Defined.

(** ** What names do not keep apart *)

(** The month of the base is read by [parse], which accepts a sign. *)
Lemma signed_month_accepted : normalize_iqn_prefix "iqn.2137-+4.storage.nasty" = Ok "iqn.2137-+4.storage.nasty".
Proof. vm_compute. reflexivity. Qed.

(** Two accepted names with the same last part share the name of their backstore. *)
Lemma colon_names_share_backstore :
  exists a b, build_target_iqn DEFAULT_IQN_PREFIX "lab:disk" = Ok a /\ build_target_iqn DEFAULT_IQN_PREFIX "prod:disk" = Ok b /\
    a <> b /\ backstore_name a 0 = backstore_name b 0.
Proof. eexists _, _. split; [vm_compute; reflexivity|]. split; [vm_compute; reflexivity|]. split; [done|vm_compute; reflexivity]. Qed.

(** ** Examples *)

Definition demo_volume : BlockVolumeId := mkBlockVolumeId "pool" 7.
Definition demo_lun (name path : string) (v : option BlockVolumeId) : Lun := mkLun 0 path name "block" None v false.
Definition demo_target (id iqn : string) (luns : list Lun) (acls : list Acl) : IscsiTarget :=
  mkIscsiTarget id iqn None [mkPortal "0.0.0.0" 3260 false] luns acls true.
Definition demo_mappings : BlockDeviceMappings := mkMappings [(demo_volume, "/dev/loop5"); (mkBlockVolumeId "pool" 8, "/dev/loop3")] ∅.

Definition saved_object (name dev : string) : JValue := JObj [("name", JStr name); ("plugin", JStr "block"); ("dev", JStr dev)].
Definition saved_config (objects : list JValue) (wwns : list string) : JValue :=
  JObj [("storage_objects", JArr objects); ("targets", JArr ((fun w => JObj [("wwn", JStr w)]) <$> wwns))].

Definition demo_store : StateDir IscsiTarget := {[ "t1" := Some (demo_target "t1" "iqn.x:a" [demo_lun "nasty_a_lun0" "/dev/loop3" (Some demo_volume)] []) ]}.
Definition demo_file : SaveFile := SfJson (saved_config [saved_object "nasty_a_lun0" "/dev/loop3"] ["iqn.x:a"]).

(** The volume moved from loop3, which another volume has now, to loop5. *)
Lemma iscsi_restore_is_safe_witness :
  exists store', remap_device_paths (fun _ => None) None demo_mappings demo_store demo_file =
    (store', SfJson (saved_config [saved_object "nasty_a_lun0" "/dev/loop5"] ["iqn.x:a"]), mkRemapOutcome true true) /\
  forall t l, listed_in store' t -> l ∈ it_luns t -> resolved demo_mappings l.
Proof.
  assert (Hk : keyed_by_id demo_store).
  { intros id t Ht. unfold demo_store, load in Ht. destruct (decide (id = "t1")) as [->|Hne]; [rewrite lookup_singleton_eq in Ht; by injection Ht as <-|].
    by rewrite lookup_singleton_ne in Ht. }
  eexists. split; [vm_compute; reflexivity|].
  eapply (iscsi_restore_is_safe (fun _ => None) None demo_mappings demo_store demo_file); [exact Hk|vm_compute; reflexivity|reflexivity].
Defined.

Definition demo_env (faults : list Z) : IscsiEnv :=
  mkIscsiEnv (fun k => if bool_decide (Z.of_nat k ∈ faults) then Some "I/O error" else None) (fun p => "1") "new" (Ok None) false (fun _ => true) (fun _ => false)
    (fun name plain => Some ("sealed")).

Definition demo_open : IscsiTarget := demo_target "t1" "iqn.x:a" [] [].
Definition demo_world : IscsiWorld := mkIscsiWorld (mkLio ∅ ∅ ∅) [] {[ "t1" := Some demo_open ]} None 0.

(** The password cannot be written and the rollback succeeds: as before; and
    the entry cannot be removed either: the group stays disabled. *)
Lemma acl_setup_fails_closed_witness :
  let tpg := tpg_path "iqn.x:a" in
  let seen := view tpg (acl_path tpg "iqn.y:host") in
  let w' := fst (add_acl (demo_env [6; 8]) "t1" "iqn.y:host" (Some "u") (Some "secret") demo_world) in
  Forall (fun l => admission_safe (Some ("u", "secret")) (seen l)) (iw_past w') /\ v_enable (seen (iw_lio w')) = Some "0" /\
  v_enable (seen (iw_lio (fst (add_acl (demo_env [6]) "t1" "iqn.y:host" (Some "u") (Some "secret") demo_world)))) = Some "1".
Proof.
  intros tpg seen w'.
  destruct (acl_setup_fails_closed (demo_env [6; 8]) demo_world demo_open "iqn.y:host" (Some "u") (Some "secret")) as [H _].
  - repeat split; discriminate.
  - reflexivity.
  - reflexivity.
  - repeat split; vm_compute; reflexivity.
  - split; [exact H|]. split; vm_compute; reflexivity.
Defined.

(** ** Defects of [remove_acl] *)

Definition demo_entry : Acl := mkAcl "iqn.y:host" None None None.

(** A target that admits nobody is opened to everybody by removing an initiator
    it does not have. *)
Lemma remove_acl_opens_target :
  let w' := fst (remove_acl (demo_env []) "t1" "iqn.y:unknown" demo_world) in
  is_ok (snd (remove_acl (demo_env []) "t1" "iqn.y:unknown" demo_world)) = true /\
  li_files (iw_lio w') !! generate_path (tpg_path "iqn.x:a") = Some "1".
Proof. vm_compute. split; reflexivity. Qed.

(** The initiator in another case: success, and nothing is removed. *)
Lemma remove_acl_misses_case :
  let w := mkIscsiWorld (mkLio {[ acl_path (tpg_path "iqn.x:a") "iqn.y:host" ]} ∅ ∅) [] {[ "t1" := Some (demo_target "t1" "iqn.x:a" [] [demo_entry]) ]} None 0 in
  let r := remove_acl (demo_env []) "t1" "IQN.Y:host" w in
  is_ok (snd r) = true /\ load (iw_store (fst r)) "t1" = Some (demo_target "t1" "iqn.x:a" [] [demo_entry]) /\
  bool_decide (acl_path (tpg_path "iqn.x:a") "iqn.y:host" ∈ li_dirs (iw_lio (fst r))) = true.
Proof. vm_compute. repeat split. Qed.

(** The record cannot be written: the error leaves the target open to everybody
    while its record still lists the initiator. *)
Lemma remove_acl_fails_open :
  let w := mkIscsiWorld (mkLio {[ acl_path (tpg_path "iqn.x:a") "iqn.y:host" ]} ∅ ∅) [] {[ "t1" := Some (demo_target "t1" "iqn.x:a" [] [demo_entry]) ]} None 0 in
  let r := remove_acl (demo_env [2]) "t1" "iqn.y:host" w in
  is_ok (snd r) = false /\ load (iw_store (fst r)) "t1" = Some (demo_target "t1" "iqn.x:a" [] [demo_entry]) /\
  li_files (iw_lio (fst r)) !! generate_path (tpg_path "iqn.x:a") = Some "1".
Proof. vm_compute. repeat split. Qed.

(** The name of an initiator is not checked: with parent components the entry is
    made below another target. *)
Lemma initiator_name_escapes :
  let name := "../../../iqn.x:victim/tpgt_1/acls/iqn.y:evil" in
  let r := add_acl (demo_env []) "t1" name None None demo_world in
  is_ok (snd r) = true /\ bool_decide (acl_path (tpg_path "iqn.x:a") name ∈ li_dirs (iw_lio (fst r))) = true /\
  drop 7 (components (acl_path (tpg_path "iqn.x:a") name)) =
    [Normal "tpgt_1"; Normal "acls"; ParentDir; ParentDir; ParentDir; Normal "iqn.x:victim"; Normal "tpgt_1"; Normal "acls"; Normal "iqn.y:evil"].
Proof. vm_compute. repeat split. Qed.
