(* ===== verification/BlockProps.v ===== *)
(** * The device inventory and the checks on it are right

    The walk over child devices terminates and finds exactly the devices below;
    the inventory made from lsblk knows every child of a device; and what the
    checks accept is free in the sense of [idle]. *)

From Stdlib Require Import ZArith Lia Ascii String.
From stdpp Require Import base list gmap strings relations list_numbers.
From S2P Require Import Prelude.
From S2P Require Import RustStr.
From S2P Require Import RustVec.
From S2P Require Import BlockDev.

(** ** Reachability *)

Section Reach.
Context (inv : BlockInventory).

Definition child_step (a b : string) : Prop :=
  exists n, bi_devices inv !! a = Some n /\ b ∈ pd_children n.

Definition below (root : PreflightBlockDevice) (d : string) : Prop :=
  exists c, c ∈ pd_children root /\ rtc child_step c d.

Context (root : PreflightBlockDevice).

(** Edges that still can be followed. *)
Definition open_edges (seen : gset string) : nat :=
  sum_list_with (fun d => length (children_of inv d)) (elements (dom (bi_devices inv) ∖ seen)).

Lemma open_edges_step (seen : gset string) d :
  d ∈ dom (bi_devices inv) -> d ∉ seen ->
  open_edges seen = (length (children_of inv d) + open_edges ({[ d ]} ∪ seen))%nat.
Proof.
  intros Hd Hs. unfold open_edges.
  assert (dom (bi_devices inv) ∖ seen = {[ d ]} ∪ (dom (bi_devices inv) ∖ ({[ d ]} ∪ seen))) as ->.
  { apply set_eq. intros x. rewrite elem_of_union, !elem_of_difference, elem_of_union, elem_of_singleton.
    destruct (decide (x = d)) as [->|]; [tauto|tauto]. }
  rewrite elements_union_singleton by set_solver. done.
Qed.

Lemma open_edges_skip (seen : gset string) d :
  d ∉ dom (bi_devices inv) -> open_edges ({[ d ]} ∪ seen) = open_edges seen.
Proof.
  intros Hd. unfold open_edges. f_equal. f_equal. apply set_eq. set_solver.
Qed.

(** What the worklist has established. *)
Record walk (pending : list string) (seen : gset string) (found : list PreflightBlockDevice) : Prop := {
  walk_found : forall n, n ∈ found <-> exists d, d ∈ seen /\ bi_devices inv !! d = Some n;
  walk_below : forall d, d ∈ seen \/ d ∈ pending -> below root d;
  walk_root : forall c, c ∈ pd_children root -> c ∈ seen \/ c ∈ pending;
  walk_closed : forall d e, d ∈ seen -> child_step d e -> e ∈ seen \/ e ∈ pending;
}.

Lemma below_step d e : below root d -> child_step d e -> below root e.
Proof. intros (c & Hc & Hr) Hs. exists c. split; [done|]. by eapply rtc_r. Qed.

Lemma walk_done seen found :
  walk [] seen found -> forall n, n ∈ found <-> exists d, below root d /\ bi_devices inv !! d = Some n.
Proof.
  intros [Hf Hb Hr Hc] n. rewrite Hf. split.
  - intros (d & Hd & Hn). exists d. split; [|done]. apply Hb. by left.
  - intros (d & (c & Hch & Hrtc) & Hn). exists d. split; [|done].
    assert (c ∈ seen) as Hs by (destruct (Hr c Hch) as [?|?%elem_of_nil]; done). clear Hch Hn.
    induction Hrtc as [x|x y z Hxy _ IH]; [done|]. apply IH.
    by destruct (Hc x y Hs Hxy) as [?|?%elem_of_nil].
Qed.

Lemma walk_skip d pending seen found : d ∈ seen -> walk (d :: pending) seen found -> walk pending seen found.
Proof. intros Hd [Hf Hb Hr Hc]. split; [done| | |]; set_solver. Qed.

Lemma walk_visit d pending seen found n :
  bi_devices inv !! d = Some n -> walk (d :: pending) seen found ->
  walk (rev (elements (pd_children n)) ++ pending) ({[ d ]} ∪ seen) (found ++ [n]).
Proof.
  intros Hn [Hf Hb Hr Hc]. assert (below root d) as Hd by (apply Hb; set_solver).
  assert (forall e, e ∈ rev (elements (pd_children n)) <-> e ∈ pd_children n) as Hrev.
  { intros e. by rewrite list_elem_of_In, <- in_rev, <- list_elem_of_In, elem_of_elements. }
  split.
  - intros m. rewrite elem_of_app, list_elem_of_singleton, Hf. split.
    + intros [(e & He & Hm)| ->]; [exists e|exists d]; set_solver.
    + intros (e & [->%elem_of_singleton|He]%elem_of_union & Hm); [right; congruence|left; by exists e].
  - intros e He. rewrite elem_of_union, elem_of_singleton, elem_of_app, Hrev in He.
    destruct He as [[->|He]|[He|He]]; [done|apply Hb; set_solver|eapply below_step; [done|by exists n]|apply Hb; set_solver].
  - intros c Hch. rewrite elem_of_union, elem_of_singleton, elem_of_app. destruct (Hr c Hch); set_solver.
  - intros x e Hx Hxe. rewrite elem_of_union, elem_of_singleton in *. rewrite elem_of_app, Hrev.
    destruct Hx as [->|Hx].
    + destruct Hxe as (n' & Hn' & He). right. left. congruence.
    + destruct (Hc x e Hx Hxe); set_solver.
Qed.

Lemma walk_absent d pending seen found :
  bi_devices inv !! d = None -> walk (d :: pending) seen found -> walk pending ({[ d ]} ∪ seen) found.
Proof.
  intros Hn [Hf Hb Hr Hc]. split.
  - intros m. rewrite Hf. split; [set_solver|].
    intros (e & [->%elem_of_singleton|He]%elem_of_union & Hm); [congruence|by exists e].
  - set_solver.
  - intros c Hch. destruct (Hr c Hch); set_solver.
  - intros x e Hx Hxe. rewrite elem_of_union, elem_of_singleton in Hx. destruct Hx as [->|Hx].
    + destruct Hxe as (n' & Hn' & _). congruence.
    + destruct (Hc x e Hx Hxe); set_solver.
Qed.

Lemma desc_loop_spec fuel pending seen found :
  walk pending seen found -> (length pending + open_edges seen < fuel)%nat ->
  forall n, n ∈ desc_loop fuel inv pending seen found <->
    exists d, below root d /\ bi_devices inv !! d = Some n.
Proof.
  revert pending seen found. induction fuel as [|fuel IH]; intros pending seen found Hw Hf; [lia|].
  destruct pending as [|d pending]; [by eapply walk_done|]. cbn [desc_loop length] in *.
  destruct (bool_decide (d ∈ seen)) eqn:Es.
  - apply bool_decide_eq_true in Es. apply IH; [by eapply walk_skip|lia].
  - apply bool_decide_eq_false in Es. destruct (bi_devices inv !! d) as [n|] eqn:En.
    + apply IH; [by apply walk_visit|]. rewrite length_app, length_rev.
      rewrite (open_edges_step seen d) in Hf by (done || by apply elem_of_dom). unfold children_of in Hf.
      rewrite En in Hf. simpl in Hf. lia.
    + apply IH; [by apply walk_absent|]. rewrite open_edges_skip; [lia|by apply not_elem_of_dom].
Qed.
End Reach.

(** The walk ends, and finds exactly the devices below. *)
Lemma descendants_spec inv root n :
  n ∈ descendants inv root <-> exists d, below inv root d /\ bi_devices inv !! d = Some n.
Proof.
  unfold descendants. apply desc_loop_spec.
  - split.
    + intros m. split; [by intros ?%elem_of_nil|intros (d & Hd & _); set_solver].
    + intros d [Hd|Hd]; [set_solver|]. exists d. split; [|done].
      by rewrite list_elem_of_In, <- in_rev, <- list_elem_of_In, elem_of_elements in Hd.
    + intros c Hc. right. by rewrite list_elem_of_In, <- in_rev, <- list_elem_of_In, elem_of_elements.
    + set_solver.
  - rewrite length_rev. unfold open_edges, edge_count, size, set_size. simpl.
    rewrite difference_empty_L. lia.
Qed.

(** ** What the checks accept *)

(** Nothing uses the device itself. *)
Definition idle (swaps : gset string) (sig : bool) (n : PreflightBlockDevice) : Prop :=
  pd_read_only n = false /\ pd_mount_points n = [] /\ (id_devno (pd_identity n) ∉ swaps) /\
  pd_holders n = [] /\ (sig = true -> pd_fs_type n = None).

Lemma device_busy_None swaps sig n : device_busy swaps sig n = None <-> idle swaps sig n.
Proof.
  unfold device_busy, idle. destruct (pd_read_only n); [naive_solver|].
  destruct (pd_mount_points n); [|naive_solver].
  case_bool_decide; [naive_solver|]. case_bool_decide; [|naive_solver]. simpl.
  destruct sig, (pd_fs_type n); naive_solver.
Qed.

(** Nothing uses the device or any device below it. *)
Definition unused (inv : BlockInventory) (swaps : gset string) (sig : bool) (node : PreflightBlockDevice) : Prop :=
  idle swaps sig node /\
  forall d n, below inv node d -> bi_devices inv !! d = Some n -> idle swaps sig n.

Lemma node_usage_error_None inv node swaps sig :
  node_usage_error inv node swaps true sig = None <-> unused inv swaps sig node.
Proof.
  unfold node_usage_error, unused. rewrite find_map_None. split.
  - intros H. split; [apply device_busy_None, H; set_solver|]. intros d n Hd Hn.
    apply device_busy_None, H. right. apply descendants_spec. by exists d.
  - intros [H0 H] x [->|Hx]%elem_of_cons; apply device_busy_None; [done|].
    apply descendants_spec in Hx as (d & Hd & Hn). by eapply H.
Qed.

(** Free to be formatted. *)
Definition formattable (inv : BlockInventory) (swaps : gset string) (node : PreflightBlockDevice) : Prop :=
  id_dev_type (pd_identity node) ∈ ["disk"; "part"] /\ unused inv swaps true node /\
  (id_dev_type (pd_identity node) = "disk" -> pd_children node = ∅ /\ pd_partition_table_type node = None) /\
  id_size_bytes (pd_identity node) <> 0.

Lemma validate_existing_spec inv node swaps :
  validate_existing_create_target inv node swaps = Ok tt <-> formattable inv swaps node.
Proof.
  unfold validate_existing_create_target, formattable.
  destruct (one_of _ _) eqn:Ety; simpl.
  2:{ split; [done|]. intros [H _]. apply one_of_spec in H. congruence. }
  apply one_of_spec in Ety. pose proof (node_usage_error_None inv node swaps true) as Hu.
  destruct (node_usage_error inv node swaps true true) as [r|].
  { split; [done|]. intros (_ & H & _). by apply Hu in H. }
  assert (unused inv swaps true node) as Hun by (by apply Hu).
  destruct (String.eqb_spec (id_dev_type (pd_identity node)) "disk") as [Hd|Hd]; simpl.
  - case_bool_decide; [|naive_solver]. simpl.
    destruct (pd_partition_table_type node); simpl; [naive_solver|].
    destruct (Z.eqb_spec (id_size_bytes (pd_identity node)) 0); naive_solver.
  - destruct (Z.eqb_spec (id_size_bytes (pd_identity node)) 0); naive_solver.
Qed.

(** A disk to which a partition may be added. *)
Definition splittable (swaps : gset string) (node : PreflightBlockDevice) : Prop :=
  id_dev_type (pd_identity node) = "disk" /\ pd_partition_table_type node = Some "gpt" /\ idle swaps true node.

Lemma validate_free_space_spec inv node swaps :
  validate_free_space_parent inv node swaps = Ok tt <-> splittable swaps node.
Proof.
  unfold validate_free_space_parent, splittable, node_usage_error.
  destruct (String.eqb_spec (id_dev_type (pd_identity node)) "disk"); simpl; [|naive_solver].
  case_bool_decide; [|naive_solver]. simpl.
  pose proof (device_busy_None swaps true node). destruct (device_busy swaps true node); naive_solver.
Qed.

(** Free to be erased with everything on it, and no member of a filesystem. *)
Definition erasable (inv : BlockInventory) (swaps registered : gset string) (disk : PreflightBlockDevice) : Prop :=
  unused inv swaps false disk /\
  forall n, n = disk \/ (exists d, below inv disk d /\ bi_devices inv !! d = Some n) ->
    id_dev_type (pd_identity n) ∈ ["disk"; "part"] /\ (pd_path n ∉ registered).

Lemma check_preparation_node_spec disk registered n :
  check_preparation_node disk registered n = Ok tt <->
  id_dev_type (pd_identity n) ∈ ["disk"; "part"] /\ (pd_path n ∉ registered).
Proof.
  unfold check_preparation_node. rewrite !elem_of_cons, elem_of_nil.
  destruct (String.eqb_spec (id_dev_type (pd_identity n)) "disk"), (String.eqb_spec (id_dev_type (pd_identity n)) "part");
    simpl; try case_bool_decide; naive_solver.
Qed.

Lemma validate_preparation_spec inv disk swaps registered :
  validate_preparation_usage inv disk swaps registered = Ok tt <-> erasable inv swaps registered disk.
Proof.
  unfold validate_preparation_usage, erasable. pose proof (node_usage_error_None inv disk swaps false) as Hu.
  destruct (node_usage_error inv disk swaps true false) as [r|].
  { split; [done|]. intros [H _]. by apply Hu in H. }
  assert (unused inv swaps false disk) as Hun by (by apply Hu). rewrite try_each_spec. split.
  - intros H. split; [done|]. intros n Hn. apply (check_preparation_node_spec disk), H.
    destruct Hn as [->|Hn]; [by left|right; by apply descendants_spec].
  - intros [_ H] n Hn. apply check_preparation_node_spec, H.
    apply elem_of_cons in Hn as [->|Hn]; [by left|right; by apply descendants_spec].
Qed.

Lemma identity_changed_ok i c p n : identity_changed i c p = Ok n <-> c = Some n /\ pd_identity n = i.
Proof.
  unfold identity_changed. destruct c as [m|]; [|naive_solver].
  case_bool_decide; naive_solver.
Qed.

Lemma preparation_matches_ok inv disk expected :
  preparation_matches inv disk expected = Ok true <-> disk_preparation_snapshot inv disk = Ok expected.
Proof.
  unfold preparation_matches. destruct (disk_preparation_snapshot inv disk) as [s|e]; [|naive_solver].
  case_bool_decide; naive_solver.
Qed.

(** ** The inventory read from lsblk *)

Lemma JValue_rect' (P : JValue -> Prop) :
  P JNull -> (forall b, P (JBool b)) -> (forall n, P (JNum n)) -> (forall s, P (JStr s)) ->
  (forall l, Forall P l -> P (JArr l)) -> (forall l, Forall (fun kv => P (snd kv)) l -> P (JObj l)) ->
  forall v, P v.
Proof.
  intros H1 H2 H3 H4 H5 H6. fix IH 1. intros [|b|n|s|l|l]; [apply H1|apply H2|apply H3|apply H4| |].
  - apply H5. induction l as [|x l IHl]; constructor; [apply IH|apply IHl].
  - apply H6. induction l as [|[k x] l IHl]; constructor; [apply IH|apply IHl].
Qed.

(** What collecting maintains: fresh nodes under their own number, names of
    devices that are there. *)
Record collected_ok (c : Collected) : Prop := {
  co_fresh : forall d n, cl_devices c !! d = Some n ->
    id_devno (pd_identity n) = d /\ id_parent_devno (pd_identity n) = None /\ pd_children n = ∅;
  co_paths : forall x d, cl_paths c !! x = Some d -> is_Some (cl_devices c !! d);
}.

Lemma add_alias_lookup v k devno m x d :
  add_alias v k devno m !! x = Some d -> d = devno \/ m !! x = Some d.
Proof.
  unfold add_alias. destruct (json_string v k) as [n|]; [|by right].
  intros [[_ <-]|[_ H]]%lookup_insert_Some; [by left|by right].
Qed.

Lemma collect_one_ok v parent acc devno acc' :
  collect_one v parent acc = Ok (devno, acc') -> collected_ok acc -> collected_ok acc'.
Proof.
  unfold collect_one. destruct (json_string v "maj:min") as [d|]; [|done].
  destruct (match json_string v "path" with Some p => Some p | None => json_string v "name" end) as [p|]; [|done].
  intros [= <- <-] [Hf Hp].
  assert (forall x, is_Some (cl_devices acc !! x) \/ x = d ->
    is_Some (match cl_devices acc !! d with
             | Some _ => cl_devices acc
             | None => <[d := node_of v d (normalize_device_path p)]> (cl_devices acc) end !! x)) as Hdom.
  { intros x Hx. destruct (cl_devices acc !! d) eqn:E; [destruct Hx as [?| ->]; [done|by rewrite E]|].
    rewrite lookup_insert_is_Some'. naive_solver. }
  split; cbn.
  - intros x n. destruct (cl_devices acc !! d) eqn:E; [apply Hf|].
    intros [[<- <-]|[_ H]]%lookup_insert_Some; [done|by apply Hf].
  - intros x e [->|[->|[[_ <-]|[_ H]]%lookup_insert_Some]%add_alias_lookup]%add_alias_lookup; apply Hdom;
      [by right..|]. left. by eapply Hp.
Qed.

Lemma collect_value_ok v parent acc acc' :
  collect_value v parent acc = Ok acc' -> collected_ok acc -> collected_ok acc'.
Proof.
  revert parent acc acc'.
  enough (forall v, (forall parent acc acc', collect_value v parent acc = Ok acc' -> collected_ok acc -> collected_ok acc')
    /\ match v with JArr vs => Forall (fun y => forall parent acc acc',
         collect_value y parent acc = Ok acc' -> collected_ok acc -> collected_ok acc') vs | _ => True end) as H
    by apply H.
  clear v. intros v. induction v as [| | | |l IH|l IH] using JValue_rect';
    try (split; [|done]; intros parent acc acc'; unfold collect_value;
         destruct (collect_one _ parent acc) as [[devno acc1]|e] eqn:E1; [|done]; intros [= <-];
         by eapply collect_one_ok).
  - split.
    + intros parent acc acc'; unfold collect_value.
      destruct (collect_one _ parent acc) as [[devno acc1]|e] eqn:E1; [|done]. intros [= <-]. by eapply collect_one_ok.
    + eapply Forall_impl; [exact IH|]. by intros x [Hx _].
  - split; [|done]. intros parent acc acc' H Hacc. cbn [collect_value] in H.
    destruct (collect_one (JObj l) parent acc) as [[devno acc1]|e] eqn:E1; [|done].
    assert (collected_ok acc1) as H1 by (by eapply collect_one_ok). clear E1 Hacc.
    induction IH as [|[k x] l Hx IHl IHf]; [by injection H as <-|].
    destruct (String.eqb k "children"); [|by apply IHf].
    destruct x as [| | | |vs|]; try (by injection H as <-). destruct Hx as [_ Hvs]. cbn [snd] in Hvs.
    clear IHf. revert acc1 H H1. induction Hvs as [|y vs Hy Hvs IHv]; intros acc1 H H1; [by injection H as <-|].
    destruct (collect_value y (Some devno) acc1) as [acc2|e] eqn:E2; [|done].
    eapply IHv; [exact H|]. by eapply Hy.
Qed.

Lemma collect_ok vs acc acc' : collect vs acc = Ok acc' -> collected_ok acc -> collected_ok acc'.
Proof.
  revert acc. induction vs as [|v vs IH]; intros acc; cbn; [by intros [= <-]|].
  destruct (collect_value v None acc) as [acc1|e] eqn:E; [|done]. intros H Ha.
  eapply IH; [done|]. by eapply collect_value_ok.
Qed.

(** The inventory is consistent: devices are listed under their own number,
    names lead to devices, the parent lsblk names is the parent recorded, and a
    device's recorded parent has it among its children. *)
Record inventory_ok (inv : BlockInventory) : Prop := {
  io_key : forall d n, bi_devices inv !! d = Some n -> id_devno (pd_identity n) = d;
  io_paths : forall x d, bi_paths inv !! x = Some d -> is_Some (bi_devices inv !! d);
  io_pkname : forall d n pp p, bi_devices inv !! d = Some n -> pd_parent_path n = Some pp ->
    bi_paths inv !! pp = Some p -> id_parent_devno (pd_identity n) = Some p;
  io_child : forall d n p m, bi_devices inv !! d = Some n -> id_parent_devno (pd_identity n) = Some p ->
    bi_devices inv !! p = Some m -> d ∈ pd_children m;
}.

(** The part of it the edges do not touch. *)
Definition same_node (n m : PreflightBlockDevice) : Prop :=
  id_devno (pd_identity n) = id_devno (pd_identity m) /\ pd_parent_path n = pd_parent_path m /\
  pd_path n = pd_path m /\ pd_mount_points n = pd_mount_points m.

Lemma link_edge_lookup devices e d :
  link_edge devices e !! d =
  (fun n => let n1 := if decide (fst e = d) then set_parent (snd e) n else n in
            if decide (snd e = d) then add_child (fst e) n1 else n1) <$> devices !! d.
Proof.
  unfold link_edge. rewrite !lookup_alter. destruct e as [c q]. cbn.
  repeat case_decide; subst; try done; destruct (devices !! _); done.
Qed.

(** Adding edges keeps the nodes' own facts, and links both ends. *)
Lemma link_all_facts es devices d n :
  foldl link_edge devices es !! d = Some n -> exists n0, devices !! d = Some n0 /\ same_node n n0.
Proof.
  revert devices. induction es as [|e es IH]; intros devices; cbn; [intros ->; by exists n|].
  intros (n1 & H1 & Hs)%IH. rewrite link_edge_lookup in H1. apply fmap_Some in H1 as (n0 & H0 & ->).
  exists n0. split; [done|]. destruct Hs as (Ha & Hb & Hc & Hd). unfold same_node.
  repeat case_decide; done.
Qed.

Definition linked (devices : gmap string PreflightBlockDevice) : Prop :=
  forall d n p m, devices !! d = Some n -> id_parent_devno (pd_identity n) = Some p ->
    devices !! p = Some m -> d ∈ pd_children m.

Lemma link_edge_linked devices e : linked devices -> linked (link_edge devices e).
Proof.
  intros H d n p m. rewrite !link_edge_lookup. destruct e as [c q]. cbn [fst snd].
  intros (n0 & Hn & ->)%fmap_Some Hp (m0 & Hm & ->)%fmap_Some.
  destruct (decide (c = d)) as [->|Hcd].
  - assert (p = q) as -> by (destruct (decide (q = d)); cbn in Hp; congruence).
    destruct (decide (q = q)); [|done]. cbn. set_solver.
  - assert (id_parent_devno (pd_identity n0) = Some p) as Hp0 by (destruct (decide (q = d)); done).
    pose proof (H d n0 p m0 Hn Hp0 Hm) as Hin.
    destruct (decide (c = p)), (decide (q = p)); cbn; set_solver.
Qed.

Lemma link_all_linked es devices : linked devices -> linked (foldl link_edge devices es).
Proof. revert devices. induction es as [|e es IH]; intros devices H; [done|]. apply IH. by apply link_edge_linked. Qed.

(** The last edge of a child decides its parent. *)
Lemma link_all_parent es devices d n p :
  foldl link_edge devices es !! d = Some n ->
  (forall q, (d, q) ∈ es -> q = p) -> (d, p) ∈ es \/ (exists n0, devices !! d = Some n0 /\ id_parent_devno (pd_identity n0) = Some p) ->
  id_parent_devno (pd_identity n) = Some p.
Proof.
  revert devices. induction es as [|[c q] es IH]; intros devices; cbn [foldl].
  - intros Hn _ [?%elem_of_nil|(n0 & Hn0 & Hp)]; [done|congruence].
  - intros Hn Hq Hor. eapply IH; [exact Hn|set_solver|].
    destruct (link_all_facts _ _ _ _ Hn) as (n1 & Hn1 & _). pose proof Hn1 as Hl. rewrite link_edge_lookup in Hl.
    apply fmap_Some in Hl as (n0 & Hn0 & ->). cbn [fst snd] in *.
    destruct (decide (c = d)) as [->|Hcd].
    + right. eexists. split; [exact Hn1|]. rewrite (Hq q) by set_solver. by destruct (decide (p = d)).
    + destruct Hor as [[[= <- <-]|Hin]%elem_of_cons|(n0' & Hn0' & Hp)]; [done|by left|].
      right. eexists. split; [exact Hn1|]. destruct (decide (q = d)); cbn; congruence.
Qed.

Lemma path_parents_elem devices paths d p :
  (d, p) ∈ path_parents devices paths <->
  exists n pp, devices !! d = Some n /\ pd_parent_path n = Some pp /\ paths !! pp = Some p.
Proof.
  unfold path_parents. rewrite list_elem_of_omap. split.
  - intros ([d' n] & Hin%elem_of_map_to_list & H). apply bind_Some in H as (pp & Hpp & H).
    apply bind_Some in H as (p' & Hp & [= -> ->]). by exists n, pp.
  - intros (n & pp & Hn & Hpp & Hp). exists (d, n). split; [by apply elem_of_map_to_list|]. by rewrite Hpp; cbn; rewrite Hp.
Qed.

Lemma parse_lsblk_ok v inv : parse_lsblk_inventory v = Ok inv -> inventory_ok inv.
Proof.
  unfold parse_lsblk_inventory. destruct (jget v "blockdevices") as [[| | | |roots|]|]; try done.
  destruct (collect roots (mkCollected ∅ ∅ [])) as [c|e] eqn:Ec; [|done]. intros [= <-].
  assert (collected_ok c) as [Hf Hp].
  { eapply collect_ok; [exact Ec|]. split; cbn; intros *; by rewrite lookup_empty. }
  split; cbn.
  - intros d n (n0 & H0 & (Hd & _))%link_all_facts. rewrite Hd. by apply Hf.
  - intros x d Hx%Hp. destruct Hx as [n0 Hn0].
    assert (forall es m, is_Some (m !! d) -> is_Some (foldl link_edge m es !! d)) as Hkeep.
    { induction es as [|e es IH]; intros m Hm; [done|]. apply IH. rewrite link_edge_lookup. by apply fmap_is_Some. }
    apply Hkeep. by eexists.
  - intros d n pp p Hn Hpp Hpath. rewrite foldl_app in Hn.
    destruct (link_all_facts _ _ _ _ Hn) as (n1 & Hn1 & (_ & Hs & _)).
    destruct (link_all_facts _ _ _ _ Hn1) as (n0 & Hn0 & (_ & Hs0 & _)).
    eapply link_all_parent; [exact Hn| |left].
    + intros q (n' & pp' & Hn' & Hpp' & Hq)%path_parents_elem. congruence.
    + apply path_parents_elem. exists n0, pp. split_and!; [done|congruence|done].
  - apply link_all_linked. intros d n p m Hn Hpar _. destruct (Hf d n Hn) as (_ & Hnone & _). congruence.
Qed.

(** ** The tree that lsblk prints *)

Definition child_of (v c : JValue) : Prop := exists vs, jget v "children" = Some (JArr vs) /\ c ∈ vs.

(** An entry of the tree, at any depth. *)
Definition in_tree (roots : list JValue) (v : JValue) : Prop := exists r, r ∈ roots /\ rtc child_of r v.

(** Some entry of device [p] has an entry of device [d] right below it. *)
Definition nested_in (roots : list JValue) (p d : string) : Prop :=
  exists v c, in_tree roots v /\ child_of v c /\ json_string v "maj:min" = Some p /\ json_string c "maj:min" = Some d.

(** What collecting [v] adds: an edge for each nesting in it, a device for each
    entry. *)
Record covers (v : JValue) (parent : option string) (acc acc' : Collected) : Prop := {
  cv_edges : forall e, e ∈ cl_edges acc -> e ∈ cl_edges acc';
  cv_devices : forall d, is_Some (cl_devices acc !! d) -> is_Some (cl_devices acc' !! d);
  cv_parent : forall d q, json_string v "maj:min" = Some d -> parent = Some q -> (d, q) ∈ cl_edges acc';
  cv_nested : forall x c p d, rtc child_of v x -> child_of x c -> json_string x "maj:min" = Some p -> json_string c "maj:min" = Some d -> (d, p) ∈ cl_edges acc';
  cv_listed : forall x d, rtc child_of v x -> json_string x "maj:min" = Some d -> is_Some (cl_devices acc' !! d);
}.

Lemma collect_one_covers v parent acc devno acc' : collect_one v parent acc = Ok (devno, acc') ->
  json_string v "maj:min" = Some devno /\
  (forall e, e ∈ cl_edges acc -> e ∈ cl_edges acc') /\ (forall d, is_Some (cl_devices acc !! d) -> is_Some (cl_devices acc' !! d)) /\
  (forall q, parent = Some q -> (devno, q) ∈ cl_edges acc') /\ is_Some (cl_devices acc' !! devno).
Proof.
  unfold collect_one. destruct (json_string v "maj:min") as [d|]; [|done].
  destruct (match json_string v "path" with Some p => Some p | None => json_string v "name" end) as [p|]; [|done].
  intros [= <- <-]. cbn. split_and!; [done|intros e He; apply elem_of_app; by left| |intros q ->; apply elem_of_app; right; by left|].
  - intros x Hx. destruct (cl_devices acc !! d) eqn:E; [done|]. rewrite lookup_insert_is_Some'. by right.
  - destruct (cl_devices acc !! d) eqn:E; [by rewrite E|]. rewrite lookup_insert_eq. by eexists.
Qed.

(** Collecting the children of device [devno] one after the other. *)
Fixpoint collect_children (devno : string) (vs : list JValue) (acc : Collected) : fsres Collected :=
  match vs with
  | [] => Ok acc
  | y :: vs' => match collect_value y (Some devno) acc with Ok acc2 => collect_children devno vs' acc2 | Err e => Err e end
  end.

(** The children are those of the first field of that name. *)
Lemma collect_value_children v parent acc acc' : collect_value v parent acc = Ok acc' ->
  exists devno acc1, collect_one v parent acc = Ok (devno, acc1) /\
    match jget v "children" with Some (JArr vs) => collect_children devno vs acc1 = Ok acc' | _ => acc' = acc1 end.
Proof.
  intros H. destruct v as [| | | |l|l]; cbn [collect_value] in H;
    try (destruct (collect_one _ parent acc) as [[devno acc1]|e] eqn:E1; [|done]; injection H as <-; by exists devno, acc1).
  destruct (collect_one (JObj l) parent acc) as [[devno acc1]|e] eqn:E1; [|done]. exists devno, acc1. split; [done|]. clear E1. unfold jget.
  induction l as [|[k x] l IH]; [by injection H as <-|]. cbn [find_first fst]. destruct (String.eqb k "children"); [|by apply IH].
  cbn [fmap option_fmap option_map snd]. destruct x as [| | | |vs|]; try (by injection H as <-). clear IH. revert acc1 H.
  induction vs as [|y vs IH]; intros acc1 H; [done|]. cbn. destruct (collect_value y (Some devno) acc1); [by apply IH|done].
Qed.

Lemma children_covered devno vs acc acc' : Forall (fun y => forall parent acc acc', collect_value y parent acc = Ok acc' -> covers y parent acc acc') vs ->
  collect_children devno vs acc = Ok acc' ->
  (forall e, e ∈ cl_edges acc -> e ∈ cl_edges acc') /\ (forall d, is_Some (cl_devices acc !! d) -> is_Some (cl_devices acc' !! d)) /\
  forall c, c ∈ vs -> exists a1 a2, covers c (Some devno) a1 a2 /\ (forall e, e ∈ cl_edges a2 -> e ∈ cl_edges acc') /\
    forall d, is_Some (cl_devices a2 !! d) -> is_Some (cl_devices acc' !! d).
Proof.
  intros HF. revert acc. induction HF as [|y vs Hy HF IH]; intros acc; cbn; [intros [= <-]; split_and!; [done..|by intros c ?%elem_of_nil]|].
  destruct (collect_value y (Some devno) acc) as [acc2|e] eqn:E; [|done]. intros (H1 & H2 & H3)%IH. apply Hy in E as Hc. split_and!.
  - intros e He. apply H1. by apply (cv_edges _ _ _ _ Hc).
  - intros d Hd. apply H2. by apply (cv_devices _ _ _ _ Hc).
  - intros c [->|Hin]%elem_of_cons; [by exists acc, acc2|by apply H3].
Qed.

Lemma collect_value_covers v parent acc acc' : collect_value v parent acc = Ok acc' -> covers v parent acc acc'.
Proof.
  revert parent acc acc'.
  enough (forall v, (forall parent acc acc', collect_value v parent acc = Ok acc' -> covers v parent acc acc')
    /\ match v with JArr vs => Forall (fun y => forall parent acc acc', collect_value y parent acc = Ok acc' -> covers y parent acc acc') vs | _ => True end) as H
    by apply H.
  clear v. assert (forall v, (forall vs, jget v "children" = Some (JArr vs) -> Forall (fun y => forall parent acc acc', collect_value y parent acc = Ok acc' -> covers y parent acc acc') vs) ->
    forall parent acc acc', collect_value v parent acc = Ok acc' -> covers v parent acc acc') as Hstep.
  { intros v HF parent acc acc' (devno & acc1 & (Hno & H1 & H2 & H3 & H4)%collect_one_covers & Hk)%collect_value_children.
    destruct (jget v "children") as [[| | | |vs|]|] eqn:Ej; try subst acc'.
    5:{ destruct (children_covered _ _ _ _ (HF vs eq_refl) Hk) as (K1 & K2 & K3). split; [intros e He; by apply K1, H1|intros d Hd; by apply K2, H2| | |].
        - intros d q Hd ->. rewrite Hno in Hd. injection Hd as <-. by apply K1, H3.
        - intros x c p d Hr Hc Hp Hd. apply rtc_inv in Hr as [<-|(y & (vs' & Hvs' & Hy) & Hr)].
          + destruct Hc as (vs' & Hvs' & Hc). rewrite Ej in Hvs'. injection Hvs' as <-. destruct (K3 c Hc) as (a1 & a2 & Hcov & L1 & _).
            rewrite Hno in Hp. injection Hp as <-. apply L1. by eapply (cv_parent _ _ _ _ Hcov).
          + rewrite Ej in Hvs'. injection Hvs' as <-. destruct (K3 y Hy) as (a1 & a2 & Hcov & L1 & _). apply L1. by eapply (cv_nested _ _ _ _ Hcov).
        - intros x d Hr Hd. apply rtc_inv in Hr as [<-|(y & (vs' & Hvs' & Hy) & Hr)]; [rewrite Hno in Hd; injection Hd as <-; by apply K2|].
          rewrite Ej in Hvs'. injection Hvs' as <-. destruct (K3 y Hy) as (a1 & a2 & Hcov & _ & L2). apply L2. by eapply (cv_listed _ _ _ _ Hcov). }
    all: split; [by auto..| | |]; [by intros d q Hd ->; rewrite Hno in Hd; injection Hd as <-; auto| |];
      [intros x c p d Hr (vs' & Hvs' & Hc)|intros x d Hr]; apply rtc_inv in Hr as [<-|(y & (vs2 & Hvs2 & _) & _)]; congruence. }
  intros v. induction v as [| | | |l IH|l IH] using JValue_rect'.
  1-4: split; [apply Hstep; intros vs Hvs; discriminate Hvs|done].
  - split; [apply Hstep; intros vs Hvs; discriminate Hvs|]. eapply Forall_impl; [exact IH|]. intros x Hx. exact (proj1 Hx).
  - split; [|done]. apply Hstep. intros vs Hvs. unfold jget in Hvs. apply fmap_Some in Hvs as ([k x] & Hf & Hx). cbn in Hx. subst x.
    apply find_first_Some in Hf as [Hin _]. rewrite Forall_forall in IH. exact (proj2 (IH _ Hin)).
Qed.

Lemma collect_covers vs acc acc' : collect vs acc = Ok acc' ->
  (forall e, e ∈ cl_edges acc -> e ∈ cl_edges acc') /\ (forall d, is_Some (cl_devices acc !! d) -> is_Some (cl_devices acc' !! d)) /\
  (forall p d, nested_in vs p d -> (d, p) ∈ cl_edges acc') /\ (forall v d, in_tree vs v -> json_string v "maj:min" = Some d -> is_Some (cl_devices acc' !! d)).
Proof.
  revert acc. induction vs as [|v vs IH]; intros acc; cbn.
  - intros [= <-]. split_and!; [done..| |]; [intros p d (x & c & (r & ?%elem_of_nil & _) & _)|intros x d (r & ?%elem_of_nil & _)]; done.
  - destruct (collect_value v None acc) as [acc1|e] eqn:E; [|done]. apply collect_value_covers in E as [C1 C2 _ C4 C5].
    intros (H1 & H2 & H3 & H4)%IH. split_and!; [intros e He; by apply H1, C1|intros d Hd; by apply H2, C2| |].
    + intros p d (x & c & (r & [->|Hr]%elem_of_cons & Hx) & Hrest); [destruct Hrest as (Hc & Hp & Hd); by eapply H1, C4|]. apply H3. by exists x, c; split; [exists r|].
    + intros x d (r & [->|Hr]%elem_of_cons & Hx) Hd; [by eapply H2, C5|]. eapply H4; [by exists r|done].
Qed.

(** Every edge makes a child. *)
Lemma link_all_child es devices p m d : foldl link_edge devices es !! p = Some m -> (d, p) ∈ es -> d ∈ pd_children m.
Proof.
  assert (forall es devices m, foldl link_edge devices es !! p = Some m -> exists m0, devices !! p = Some m0 /\ pd_children m0 ⊆ pd_children m) as Hmono.
  { clear. intros es. induction es as [|[c q] es IH]; intros devices m; cbn [foldl]; [intros H; by exists m|].
    intros (m1 & H1 & Hs)%IH. rewrite link_edge_lookup in H1. apply fmap_Some in H1 as (m0 & H0 & ->). exists m0. split; [done|]. cbn in Hs.
    repeat case_decide; cbn in Hs; set_solver. }
  revert devices. induction es as [|e es IH]; intros devices; cbn [foldl]; [by intros _ ?%elem_of_nil|].
  intros Hm [<-|Hin]%elem_of_cons; [|by eapply IH]. apply Hmono in Hm as (m0 & H0 & Hs). rewrite link_edge_lookup in H0. apply fmap_Some in H0 as (m1 & _ & ->).
  cbn in Hs. destruct (decide (p = p)); [|done]. cbn in Hs. set_solver.
Qed.

Definition roots_of (v : JValue) : list JValue := match jget v "blockdevices" with Some (JArr roots) => roots | _ => [] end.

(** The inventory has every nesting of the tree. *)
Lemma parse_lsblk_nested v inv : parse_lsblk_inventory v = Ok inv ->
  (forall p d m, nested_in (roots_of v) p d -> bi_devices inv !! p = Some m -> d ∈ pd_children m) /\
  (forall p d, nested_in (roots_of v) p d -> is_Some (bi_devices inv !! d)).
Proof.
  unfold parse_lsblk_inventory, roots_of. destruct (jget v "blockdevices") as [[| | | |roots|]|]; try done.
  destruct (collect roots (mkCollected ∅ ∅ [])) as [c|e] eqn:Ec; [|done]. intros [= <-]. apply collect_covers in Ec as (_ & _ & H3 & H4). cbn. split.
  - intros p d m Hn Hm. eapply link_all_child; [exact Hm|]. apply elem_of_app. left. by apply H3.
  - intros p d (x & y & (r & Hr & Hx) & Hc & _ & Hd). assert (forall es m, is_Some (m !! d) -> is_Some (foldl link_edge m es !! d)) as Hkeep.
    { induction es as [|e es IH]; intros m Hm; [done|]. apply IH. rewrite link_edge_lookup. by apply fmap_is_Some. }
    apply Hkeep, (H4 y d); [|done]. exists r. split; [done|]. eapply rtc_r; done.
Qed.
