(* ===== verification/HumanBytes.v ===== *)
(** * Human-readable sizes (parse_human_bytes, nasty-storage/src/filesystem.rs)

    Sizes such as "512K" or "2.3G".  The source computes with [f64]: a decimal
    is rounded to the nearest binary64 number, ties to even; the multiplication
    by a power of two is exact up to infinity; and [as u64] truncates and
    saturates.  An [f64] of the range that can occur here is a mantissa and an
    exponent of two, so the result is computed over [Z]. *)

From Stdlib Require Import ZArith Lia Ascii String.
From stdpp Require Import base list strings.
From S2P Require Import Prelude.
From S2P Require Import RustStr.

(** The quotient rounded to the nearest integer, ties to even. *)
Definition round_half_even (n d : Z) : Z :=
  let q := n / d in
  match 2 * (n mod d) ?= d with
  | Lt => q
  | Gt => q + 1
  | Eq => if Z.even q then q else q + 1
  end.

(** [a / b] over a power of two. *)
Definition scaled (a b e : Z) : Z * Z := if 0 <=? e then (a, b * 2 ^ e) else (a * 2 ^ (- e), b).

(** The binary64 number nearest to [a / b], for [0 <= a] and [0 < b]: mantissa
    and exponent. *)
Definition f64_nearest (a b : Z) : Z * Z :=
  if a =? 0 then (0, 0)
  else
    let e0 := Z.log2 a - Z.log2 b - 53 in
    let '(n0, d0) := scaled a b e0 in
    let e := Z.max (-1074) (if d0 * 2 ^ 53 <=? n0 then e0 + 1 else e0) in
    let '(n, d) := scaled a b e in
    (round_half_even n d, e).

(** [(m * 2^e) as u64] for a finite or infinite number. *)
Definition f64_as_u64 (m e : Z) : Z :=
  Z.min (2 ^ 64 - 1) (if 0 <=? e then m * 2 ^ e else m / 2 ^ (- e)).

(** The decimals [str::parse::<f64>] accepts, without exponent: whether
    negative, the digits as an integer, and how many follow the point. *)
Definition parse_decimal (l : bytes) : option (bool * Z * nat) :=
  let '(neg, ds) := match l with
                    | c :: rest => if Ascii.eqb c "-" then (true, rest)
                                   else if Ascii.eqb c "+" then (false, rest) else (false, l)
                    | [] => (false, l)
                    end in
  let '(whole, frac) := match split_once_bytes "." ds with Some wf => wf | None => (ds, []) end in
  match whole ++ frac with
  | [] => None
  | digits => n ← parse_digits 10 0 digits; Some (neg, n, length frac)
  end.

(** [str::parse::<f64>] of such a decimal, times [2^shift], [as u64]. *)
Definition decimal_bytes (l : bytes) (shift : Z) : option Z :=
  '(neg, n, places) ← parse_decimal l;
  let '(m, e) := f64_nearest n (10 ^ Z.of_nat places) in
  Some (if neg : bool then 0 else f64_as_u64 m (e + shift)).

(** [char::is_alphabetic]: characters outside ASCII count as letters, since
    neither a number nor a suffix may have one, except as below. *)
Definition letter (c : ascii) : bool := is_ascii_alphabetic c || (128 <=? code c).

Definition to_uppercase_char (c : ascii) : ascii :=
  if is_ascii_lowercase c then chr (code c - 32) else c.

(** [to_uppercase]; the dotless i is the one letter outside ASCII whose capital
    occurs in a suffix. *)
Fixpoint uppercase_suffix (l : bytes) : bytes :=
  match l with
  | c :: rest =>
      match rest with
      | d :: rest' => if Ascii.eqb c (chr 196) && Ascii.eqb d (chr 177) then "I"%char :: uppercase_suffix rest'
                      else to_uppercase_char c :: uppercase_suffix rest
      | [] => [to_uppercase_char c]
      end
  | [] => []
  end.

Definition suffix_shift (suffix : string) : option Z :=
  if String.eqb suffix "B" then Some 0
  else if one_of ["K"; "KIB"; "KB"] suffix then Some 10
  else if one_of ["M"; "MIB"; "MB"] suffix then Some 20
  else if one_of ["G"; "GIB"; "GB"] suffix then Some 30
  else if one_of ["T"; "TIB"; "TB"] suffix then Some 40
  else None.

(** [s.find(|c| c.is_alphabetic())] as a split. *)
Fixpoint split_letters (l : bytes) : bytes * bytes :=
  match l with
  | [] => ([], [])
  | c :: rest => if letter c then ([], l) else let '(a, b) := split_letters rest in (c :: a, b)
  end.

Definition parse_human_bytes (s0 : string) : option Z :=
  match parse_uint (2 ^ 64 - 1) s0 with
  | Some n => Some n
  | None =>
      let s := trim s0 in
      if String.eqb s "" then None
      else
        match split_letters (to_bytes s) with
        | (num, []) => decimal_bytes num 0
        | (num, suffix) => shift ← suffix_shift (of_bytes (uppercase_suffix suffix)); decimal_bytes num shift
        end
  end.

(** ** Correctness *)

Lemma round_half_even_exact q d : 0 < d -> round_half_even (q * d) d = q.
Proof.
  intros Hd. unfold round_half_even. rewrite Z.mod_mul, Z.div_mul by lia. simpl Z.mul at 1.
  by destruct (Z.compare_spec (2 * 0) d); [lia| |lia].
Qed.

Lemma round_half_even_nonneg n d : 0 <= n -> 0 < d -> 0 <= round_half_even n d.
Proof.
  intros Hn Hd. unfold round_half_even. pose proof (Z.div_pos n d Hn Hd).
  destruct (_ ?= _); [destruct (Z.even _); lia|lia|lia].
Qed.

Lemma f64_nearest_nonneg a b m e : 0 <= a -> 0 < b -> f64_nearest a b = (m, e) -> 0 <= m.
Proof.
  intros Ha Hb. unfold f64_nearest. destruct (a =? 0); [by intros [= <- _]|].
  destruct (scaled a b _) as [n0 d0]. set (e' := Z.max _ _).
  destruct (scaled a b e') as [n d] eqn:E. intros [= <- _]. unfold scaled in E.
  destruct (Z.leb_spec 0 e'); simplify_eq; apply round_half_even_nonneg; nia.
Qed.

(** Every result is a [u64]. *)
Lemma f64_as_u64_range m e : 0 <= m -> 0 <= f64_as_u64 m e < 2 ^ 64.
Proof.
  intros Hm. unfold f64_as_u64. destruct (Z.leb_spec 0 e).
  - assert (0 <= m * 2 ^ e) by (apply Z.mul_nonneg_nonneg; [done|apply Z.pow_nonneg; lia]). lia.
  - assert (0 <= m / 2 ^ (- e)) by (apply Z.div_pos; [done|apply Z.pow_pos_nonneg; lia]). lia.
Qed.

Lemma decimal_bytes_range l sh n : decimal_bytes l sh = Some n -> 0 <= n < 2 ^ 64.
Proof.
  unfold decimal_bytes. destruct (parse_decimal l) as [[[neg v] places]|] eqn:E; [|done]. cbn.
  destruct (f64_nearest v (10 ^ Z.of_nat places)) as [m e] eqn:Ef. intros [= <-].
  assert (0 <= v) as Hv.
  { unfold parse_decimal in E. destruct (match l with [] => _ | _ => _ end) as [ng ds].
    destruct (match split_once_bytes _ _ with Some _ => _ | None => _ end) as [wh fr].
    destruct (wh ++ fr) as [|c dg]; [done|]. apply bind_Some in E as (v' & Hp & E'). injection E' as ? <- ?.
    by eapply parse_digits_nonneg in Hp. }
  apply f64_nearest_nonneg in Ef; [|done|apply Z.pow_pos_nonneg; lia].
  destruct neg; [lia|by apply f64_as_u64_range].
Qed.

(** Sizes are [u64]s. *)
Lemma parse_human_bytes_range s n : parse_human_bytes s = Some n -> 0 <= n < 2 ^ 64.
Proof.
  unfold parse_human_bytes. destruct (parse_uint _ s) as [v|] eqn:E.
  - intros [= <-]. apply parse_uint_range in E. lia.
  - destruct (String.eqb _ _); [done|]. destruct (split_letters _) as [num [|c suf]]; [apply decimal_bytes_range|].
    intros (sh & _ & H)%bind_Some. by eapply decimal_bytes_range.
Qed.

(** A whole number below [2^53] is not rounded. *)
Lemma f64_nearest_whole n : 0 < n < 2 ^ 53 -> exists k, 0 <= k <= 52 /\ f64_nearest n 1 = (n * 2 ^ k, - k).
Proof.
  intros Hn. pose proof (Z.log2_spec n (proj1 Hn)) as [Hl _]. pose proof (Z.log2_nonneg n).
  assert (Z.log2 n < 53) by (apply Z.log2_lt_pow2; lia). exists (52 - Z.log2 n). split; [lia|].
  unfold f64_nearest. destruct (Z.eqb_spec n 0); [lia|]. change (Z.log2 1) with 0.
  unfold scaled at 1. destruct (Z.leb_spec 0 (Z.log2 n - 0 - 53)); [lia|].
  replace (- (Z.log2 n - 0 - 53)) with (53 - Z.log2 n) by lia.
  assert (2 ^ 53 <= n * 2 ^ (53 - Z.log2 n)) as Hbig.
  { replace (2 ^ 53) with (2 ^ Z.log2 n * 2 ^ (53 - Z.log2 n)) by (rewrite <- Z.pow_add_r by lia; f_equal; lia).
    apply Z.mul_le_mono_nonneg_r; [apply Z.pow_nonneg; lia|done]. }
  destruct (Z.leb_spec (1 * 2 ^ 53) (n * 2 ^ (53 - Z.log2 n))); [|lia].
  replace (Z.max (-1074) (Z.log2 n - 0 - 53 + 1)) with (- (52 - Z.log2 n)) by lia.
  unfold scaled. destruct (Z.leb_spec 0 (- (52 - Z.log2 n))) as [Hz|Hz].
  - replace (52 - Z.log2 n) with 0 by lia. change (1 * 2 ^ (- 0)) with 1. change (2 ^ 0) with 1.
    f_equal. etransitivity; [|by apply (round_half_even_exact (n * 1) 1)]. f_equal. lia.
  - rewrite Z.opp_involutive. f_equal. etransitivity; [|by apply (round_half_even_exact _ 1)]. f_equal. lia.
Qed.

Lemma digits_are_digits fuel n c : 0 <= n -> c ∈ digits_of fuel 10 n -> is_ascii_digit c = true.
Proof.
  assert (forall d, 0 <= d < 10 -> is_ascii_digit (digit_char d) = true) as Hd.
  { intros d Hd. unfold digit_char. destruct (Z.ltb_spec d 10); [|lia]. unfold is_ascii_digit, in_range.
    rewrite code_chr by lia. lia. }
  revert n. induction fuel as [|k IH]; intros n Hn; cbn [digits_of]; [by intros ?%elem_of_nil|].
  destruct (Z.ltb_spec n 10).
  - intros ->%list_elem_of_singleton. apply Hd. lia.
  - intros [H1|H1%list_elem_of_singleton]%elem_of_app.
    + eapply IH; [|exact H1]. apply Z.div_pos; lia.
    + subst. apply Hd, Z.mod_pos_bound. lia.
Qed.

Lemma split_once_no_sep c l : (forall x, x ∈ l -> x <> c) -> split_once_bytes c l = None.
Proof.
  induction l as [|x l IH]; intros H; [done|]. cbn. destruct (Ascii.eqb_spec c x) as [->|]; [exfalso; eapply H; [by left|done]|].
  rewrite IH; [done|]. intros y Hy. apply H. by right.
Qed.

Lemma parse_decimal_whole n : 0 <= n < 10 ^ 40 -> parse_decimal (to_bytes (fmt_dec n)) = Some (false, n, 0%nat).
Proof.
  intros Hn. unfold fmt_dec. rewrite to_of_bytes. pose proof (parse_digits_digits_of 10 40 n) as Hp.
  pose proof (fun c => digits_are_digits 40 n c (proj1 Hn)) as Hd.
  destruct (digits_of 40 10 n) as [|c l] eqn:E; [exfalso|].
  { apply (f_equal length) in E. cbn [digits_of] in E. destruct (n <? 10); [done|].
    rewrite length_app in E. cbn in E. lia. }
  unfold parse_decimal.
  destruct (Ascii.eqb_spec c "-") as [->|]; [by specialize (Hd "-"%char (ltac:(by left)))|].
  destruct (Ascii.eqb_spec c "+") as [->|]; [by specialize (Hd "+"%char (ltac:(by left)))|].
  rewrite split_once_no_sep by (intros x Hx ->; by specialize (Hd _ Hx)).
  rewrite app_nil_r, Hp by lia. done.
Qed.

(** Whole sizes are exact, up to saturation. *)
Lemma decimal_bytes_whole n sh :
  0 <= n < 2 ^ 53 -> 0 <= sh -> decimal_bytes (to_bytes (fmt_dec n)) sh = Some (Z.min (2 ^ 64 - 1) (n * 2 ^ sh)).
Proof.
  intros Hn Hs. unfold decimal_bytes.
  rewrite parse_decimal_whole by lia.
  cbn [mbind option_bind]. change (10 ^ Z.of_nat 0) with 1. destruct (decide (n = 0)) as [->|Hne].
  { change (f64_nearest 0 1) with (0, 0). unfold f64_as_u64. by destruct (Z.leb_spec 0 (0 + sh)); [|lia]. }
  destruct (f64_nearest_whole n) as (k & Hk & ->); [lia|]. f_equal. unfold f64_as_u64. f_equal.
  destruct (Z.leb_spec 0 (- k + sh)).
  - rewrite <- Z.mul_assoc, <- Z.pow_add_r by lia. do 2 f_equal. lia.
  - replace k with (sh + - (- k + sh)) at 1 by lia. rewrite Z.pow_add_r, Z.mul_assoc by lia.
    apply Z.div_mul. apply Z.pow_nonzero; lia.
Qed.

Example human_sizes :
  parse_human_bytes "512K" = Some 524288 /\ parse_human_bytes "2.3G" = Some 2469606195 /\
  parse_human_bytes " 109.8 M" = None /\ parse_human_bytes "109.8MiB " = Some 115133644 /\
  parse_human_bytes "99999999999T" = Some (2 ^ 64 - 1) /\ parse_human_bytes "-1K" = Some 0 /\
  parse_human_bytes ".5K" = Some 512 /\ parse_human_bytes "K" = None.
Proof. split_and!; vm_compute; reflexivity. Qed.
