(* ===== verification/FsCreate.v ===== *)
(** * Creating filesystems and wiping devices (nasty-storage/src/filesystem.rs)

    [fs.create] and [device.wipe] as they observe block devices and run the
    commands that destroy data.  Everything outside the engine answers through
    [World], one answer per question asked, so devices may change between any
    two observations; observations and commands are recorded in a trace.
    serde_json's parser is a parameter; [registered_block_paths] is an
    observation of its own. *)

From Stdlib Require Import ZArith Lia Ascii String.
From stdpp Require Import base list gmap strings.
From S2P Require Import Prelude.
From S2P Require Import RustStr.
From S2P Require Import RustVec.
From S2P Require Import BlockDev.
From S2P Require Import HumanBytes.

(** ** Requests *)

Record DeviceSpec : Type := mkDeviceSpec {
  ds_path : string;
  ds_label : option string;
  ds_durability : option Z;
}.

Record CreateFilesystemRequest : Type := mkCreateRequest {
  cr_name : string;
  cr_devices : list DeviceSpec;
  cr_prepare_disks : list DiskPreparation;
  cr_replicas : Z;
  cr_compression : option string;
  cr_encryption : option bool;
  cr_passphrase : option string;
  cr_store_key : option bool;
  cr_bind_to_tpm : option bool;
  cr_label : option string;
  cr_foreground_target : option string;
  cr_metadata_target : option string;
  cr_background_target : option string;
  cr_promote_target : option string;
  cr_erasure_code : option bool;
  cr_data_checksum : option string;
  cr_metadata_checksum : option string;
  cr_bucket_size : option string;
  cr_encoded_extent_max : option string;
  cr_version_upgrade : option string;
  cr_journal_flush_delay : option Z;
}.

Definition name_byte (c : ascii) : bool :=
  is_ascii_alphanumeric c || Ascii.eqb c "-" || Ascii.eqb c "_" || Ascii.eqb c ".".

Definition validate_create_name (name : string) : fsres unit :=
  if String.eqb name "" || (32 <? String.length name)%nat
  then Err (InvalidInput "filesystem name must be between 1 and 32 bytes")
  else if String.eqb name "." || String.eqb name ".." || negb (forallb name_byte (to_bytes name))
  then Err (InvalidInput "filesystem name may contain only ASCII letters, digits, '.', '-', and '_'")
  else Ok tt.

Definition validate_create_label (field label : string) : fsres unit :=
  if String.eqb label "" || (32 <? String.length label)%nat || negb (forallb name_byte (to_bytes label))
  then Err (InvalidInput (field +:+ " must be 1-32 ASCII letters, digits, '.', '-', or '_'"))
  else Ok tt.

Definition validate_compression (spec0 : string) : result unit string :=
  let spec := trim spec0 in
  if String.eqb spec "" || String.eqb spec "none" then Ok tt
  else
    let '(algo, level) := match split_once ":" spec with Some (a, l) => (a, Some l) | None => (spec, None) end in
    let checked (max_level : option Z) : result unit string :=
      match level with
      | None => Ok tt
      | Some l =>
          match max_level with
          | None => Err (algo +:+ " does not take a compression level")
          | Some max =>
              match parse_uint (2 ^ 32 - 1) l with
              | None => Err ("compression level '" +:+ l +:+ "' is not a number")
              | Some n =>
                  if (n <? 1) || (max <? n)
                  then Err (algo +:+ " compression level must be between 1 and " +:+ fmt_dec max +:+
                            " (got " +:+ fmt_dec n +:+ ")")
                  else Ok tt
              end
          end
      end in
    if String.eqb algo "lz4" then checked None
    else if String.eqb algo "zstd" then checked (Some 22)
    else if String.eqb algo "gzip" then checked (Some 9)
    else Err ("unknown compression algorithm '" +:+ algo +:+ "'").

Definition of_str_error (r : result unit string) : fsres unit :=
  match r with Ok _ => Ok tt | Err e => Err (InvalidInput e) end.

Definition optional {A} (o : option A) (f : A -> fsres unit) : fsres unit :=
  match o with Some x => f x | None => Ok tt end.

(** The checks of one device, and its durability added. *)
Definition check_device (total : Z) (dev : DeviceSpec) : fsres Z :=
  if String.eqb (ds_path dev) "" then Err (InvalidInput "device path must not be empty")
  else
    let durability := default 1 (ds_durability dev) in
    if 2 <? durability
    then Err (InvalidInput ("device " +:+ ds_path dev +:+ " has invalid durability " +:+
                            fmt_dec durability +:+ "; expected 0, 1, or 2"))
    else _ <-? optional (ds_label dev) (validate_create_label "device label") ;;
         Ok (Z.min (2 ^ 32 - 1) (total + durability)).

Fixpoint check_devices (total : Z) (devs : list DeviceSpec) : fsres Z :=
  match devs with
  | [] => Ok total
  | d :: rest => total' <-? check_device total d ;; check_devices total' rest
  end.

Definition requested_targets (req : CreateFilesystemRequest) : list string :=
  option_list (cr_foreground_target req) ++ option_list (cr_metadata_target req) ++
  option_list (cr_background_target req) ++ option_list (cr_promote_target req).

Definition default_label (req : CreateFilesystemRequest) : string := default (cr_name req) (cr_label req).

Definition check_target (labels : list string) (target : string) : fsres unit :=
  if existsb (fun l => String.eqb l target || starts_with (target +:+ ".") l) labels then Ok tt
  else Err (InvalidInput ("tiering target '" +:+ target +:+ "' does not match any selected device label")).

Definition is_power_of_two (n : Z) : bool := (0 <? n) && (2 ^ Z.log2 n =? n).

Definition check_size (field value : string) : fsres unit :=
  match parse_human_bytes value with
  | None => Err (InvalidInput ("invalid " +:+ field +:+ " value '" +:+ value +:+ "'"))
  | Some bytes =>
      if (bytes =? 0) || negb (is_power_of_two bytes)
      then Err (InvalidInput (field +:+ " must be a non-zero power-of-two size"))
      else Ok tt
  end.

Definition check_one_of (allowed : list string) (field value : string) : fsres unit :=
  if one_of allowed value then Ok tt
  else Err (InvalidInput ("invalid " +:+ field +:+ " value '" +:+ value +:+ "'")).

Definition check_erasure (req : CreateFilesystemRequest) : fsres unit :=
  if negb (bool_decide (cr_erasure_code req = Some true)) then Ok tt
  else if cr_replicas req <? 2 then Err (InvalidInput "erasure coding requires replicas >= 2")
  else if Z.of_nat (length (cr_devices req)) <? cr_replicas req + 1
  then Err (InvalidInput ("erasure coding with " +:+ fmt_dec (cr_replicas req) +:+ " replicas requires at least " +:+
                          fmt_dec ((cr_replicas req + 1) mod 2 ^ 32) +:+ " devices (got " +:+
                          fmt_dec (Z.of_nat (length (cr_devices req))) +:+ ")"))
  else Ok tt.

Definition validate_create_request (req : CreateFilesystemRequest) : fsres unit :=
  _ <-? validate_create_name (cr_name req) ;;
  guard? negb (bool_decide (length (cr_devices req) = 0%nat)) else NoDevices ;;
  _ <-? optional (cr_compression req) (fun c => of_str_error (validate_compression c)) ;;
  guard? negb (bool_decide (cr_encryption req = Some true) && String.eqb (default "" (cr_passphrase req)) "")
    else InvalidInput "passphrase is required when encryption=true" ;;
  guard? negb (cr_replicas req =? 0) else InvalidInput "replicas must be at least 1" ;;
  total <-? check_devices 0 (cr_devices req) ;;
  guard? negb (total <? cr_replicas req)
    else InvalidInput (fmt_dec (cr_replicas req) +:+
           " replicas require at least that much total device durability (got " +:+ fmt_dec total +:+ ")") ;;
  _ <-? check_erasure req ;;
  _ <-? optional (cr_label req) (validate_create_label "filesystem label") ;;
  _ <-? optional (cr_foreground_target req) (validate_create_label "foreground target") ;;
  _ <-? optional (cr_metadata_target req) (validate_create_label "metadata target") ;;
  _ <-? optional (cr_background_target req) (validate_create_label "background target") ;;
  _ <-? optional (cr_promote_target req) (validate_create_label "promote target") ;;
  _ <-? try_each (check_target ((fun d => default (default_label req) (ds_label d)) <$> cr_devices req))
          (requested_targets req) ;;
  _ <-? optional (cr_data_checksum req) (check_one_of ["none"; "crc32c"; "crc64"; "xxhash"] "data_checksum") ;;
  _ <-? optional (cr_metadata_checksum req) (check_one_of ["none"; "crc32c"; "crc64"; "xxhash"] "metadata_checksum") ;;
  _ <-? optional (cr_bucket_size req) (check_size "bucket_size") ;;
  _ <-? optional (cr_encoded_extent_max req) (check_size "encoded_extent_max") ;;
  optional (cr_version_upgrade req) (check_one_of ["compatible"; "incompatible"; "none"] "version_upgrade").

(** ** The world and the trace *)

Inductive Cmd : Type :=
| CWipefs (path : string)
| CZap (path : string)
| CNewPartition (number first last : Z) (disk : string)
| CPartprobe (disk : string)
| CSettle
| CFormat (req : CreateFilesystemRequest) (devices : list DeviceSpec)
| CUnlock (device secret : string)
| CMount (opts devices mount_point : string)
| CUmount (mount_point : string).

(** What the engine saw of the devices, and the commands it ran. *)
Inductive Event : Type :=
| SawInventory (inv : BlockInventory)
| SawSwaps (swaps : gset string)
| SawRegistered (paths : gset string)
| SawSignature (path : string) (present : bool)
| SawPath (path canonical : string)
| SawFree (disk : string) (first last : Z) (used : gset Z)
| Ran (c : Cmd) (ok : bool).

(** How [bcachefs format] ends. *)
Inductive FormatOut : Type := FormatOk | FormatNotStarted (e : string) | FormatExit (status stderr : string).

(** How a directory operation ends. *)
Inductive DirOut : Type := DirOk | DirExists | DirMissing | DirNotEmpty | DirError (e : string).

(** The answers, by the number of the question. *)
Record World : Type := mkWorld {
  w_lsblk : nat -> result string string;
  w_holders : nat -> string -> result (list string) string;
  w_swapon : nat -> result string string;
  w_canonicalize : nat -> string -> option string;
  w_probe : nat -> string -> result string string;         (** wipefs --no-act *)
  w_registered : nat -> fsres (gset string);
  w_sgdisk : nat -> string -> result string string;        (** sgdisk queries *)
  w_run : nat -> Cmd -> option string;                     (** an error message, if it failed *)
  w_format : nat -> FormatOut;
  w_dir : nat -> DirOut;                                   (** create_dir, remove_dir *)
  w_is_dir : nat -> fsres bool;                            (** symlink_metadata *)
  w_is_mountpoint : nat -> bool;
  w_dir_empty : nat -> fsres bool;                         (** read_dir *)
  w_tpm : nat -> bool;
  w_is_bcachefs : nat -> bool;                             (** blkid's type of the first device *)
  w_uuid : nat -> string -> option string;                 (** get_fs_uuid *)
  w_stored_key : nat -> fsres (option string);             (** read_unlock_key *)
  w_write_key : nat -> option string;
  w_mounted_uuid : nat -> option string;
  w_save : nat -> bool;                                    (** writing the registered filesystems *)
  w_tpm_bind : nat -> option string;
}.

(** The stored options of a filesystem, without legacy fields. *)
Record FsMountOptions : Type := mkFsMountOptions {
  mo_uuid : option string;
  mo_devices : list string;
  mo_mounted : option bool;
  mo_encrypted : option bool;
  mo_version_upgrade : option string;
  mo_degraded : option bool;
  mo_verbose : option bool;
  mo_fsck : option bool;
  mo_journal_flush_disabled : option bool;
  mo_journal_flush_delay : option Z;
}.

Record Disks : Type := mkDisks {
  dk_tick : nat;
  dk_trace : list Event;             (** the latest first *)
  dk_state : gmap string FsMountOptions;   (** the registered filesystems *)
}.

Abbreviation dop := (stm Disks FilesystemError).

Section Create.
Context (json : string -> result JValue string) (w : World).

(** One question, with what it leaves in the trace. *)
Definition ask {A} (f : nat -> A) (ev : A -> list Event) : dop A := fun s =>
  let a := f (dk_tick s) in
  (mkDisks (S (dk_tick s)) (ev a ++ dk_trace s) (dk_state s), Ok a).

Definition ask_ {A} (f : nat -> fsres A) (ev : A -> list Event) : dop A :=
  r <~ ask f (fun r => match r with Ok a => ev a | Err _ => [] end) ;; m_lift r.

(** [cmd::run_ok] of a command that changes something. *)
Definition run (c : Cmd) : dop unit := fun s =>
  match w_run w (dk_tick s) c with
  | None => (mkDisks (S (dk_tick s)) (Ran c true :: dk_trace s) (dk_state s), Ok tt)
  | Some e => (mkDisks (S (dk_tick s)) (Ran c false :: dk_trace s) (dk_state s), Err (CommandFailed e))
  end.

Definition or_command_failed {A} (r : result A string) : fsres A :=
  match r with Ok a => Ok a | Err e => Err (CommandFailed e) end.

(** ** Observations *)

Definition with_holders (holders : string -> result (list string) string) (inv : BlockInventory)
    : fsres BlockInventory :=
  let devno n := id_devno (pd_identity n) in
  match find_map (fun kv : string * PreflightBlockDevice =>
      match holders (devno kv.2) with
      | Err e => Some ("failed to inspect /sys/dev/block/" +:+ devno kv.2 +:+ "/holders: " +:+ e)
      | Ok _ => None
      end) (map_to_list (bi_devices inv)) with
  | Some e => Err (CommandFailed e)
  | None =>
      Ok (mkInventory ((fun n => match holders (devno n) with Ok h => add_holders h n | Err _ => n end)
                       <$> bi_devices inv) (bi_paths inv))
  end.

Definition inventory_at (t : nat) : fsres BlockInventory :=
  out <-? or_command_failed (w_lsblk w t) ;;
  v <-? match json out with
        | Ok v => Ok v
        | Err e => Err (CommandFailed ("failed to parse lsblk device inventory: " +:+ e))
        end ;;
  inv <-? parse_lsblk_inventory v ;;
  with_holders (w_holders w t) inv.

Definition read_block_inventory : dop BlockInventory := ask_ inventory_at (fun inv => [SawInventory inv]).

Definition swaps_at (inv : BlockInventory) (t : nat) : fsres (gset string) :=
  out <-? or_command_failed (w_swapon w t) ;;
  Ok (foldl (fun swaps line =>
        match non_empty (trim line) with
        | None => swaps
        | Some path =>
            match get_path inv (default path (w_canonicalize w t path)) with
            | Some node => {[ id_devno (pd_identity node) ]} ∪ swaps
            | None => swaps
            end
        end) ∅ (str_split newline out)).

Definition read_active_swaps (inv : BlockInventory) : dop (gset string) :=
  ask_ (swaps_at inv) (fun s => [SawSwaps s]).

Definition canonical_block_path (path : string) : dop string :=
  ask_ (fun t =>
    match w_canonicalize w t path with
    | None => Err (DeviceNotFound path)
    | Some c => if starts_with "/dev/" c then Ok c
                else Err (InvalidInput (path +:+ " does not resolve to a /dev block device"))
    end) (fun c => [SawPath path c]).

Definition has_block_signatures (path : string) : dop bool :=
  ask_ (fun t =>
    out <-? or_command_failed (w_probe w t path) ;;
    Ok (existsb (fun l => negb (String.eqb (trim l) "")) (str_split newline out)))
    (fun b => [SawSignature path b]).

Definition registered_block_paths : dop (gset string) :=
  ask_ (w_registered w) (fun r => [SawRegistered r]).

Definition checked_preparation (inv : BlockInventory) (expected : DiskPreparation) : dop PreflightBlockDevice :=
  path <~ canonical_block_path (dp_path expected) ;;
  match get_path inv path with
  | None => m_throw (DeviceNotFound (dp_path expected))
  | Some disk =>
      same <~ m_lift (preparation_matches inv disk expected) ;;
      if same : bool then m_ret disk
      else m_throw (InvalidInput (dp_path expected +:+
             " or its partitions changed since confirmation; refresh and try again"))
  end.

(** ** Planning *)

Inductive CreateTargetPlan : Type :=
| Existing (spec : DeviceSpec) (identity : BlockIdentity) (prepare : option DiskPreparation)
| FreeSpace (spec : DeviceSpec) (parent : BlockIdentity) (partition_number start_sector end_sector : Z)
    (path : string).

Record CreateFilesystemPlan : Type := mkPlan {
  pl_request : CreateFilesystemRequest;
  pl_targets : list CreateTargetPlan;
  pl_mount_point : string;
}.

Definition parse_sgdisk_sector (output what : string) : fsres Z :=
  match find_map (fun l => parse_uint u64_max (trim l)) (str_split newline output) with
  | Some n => Ok n
  | None => Err (CommandFailed ("sgdisk returned no " +:+ what +:+ " sector"))
  end.

Definition sgdisk_row (line : string) : option Z :=
  match split_whitespace line with
  | a :: b :: c :: _ =>
      n ← parse_uint (2 ^ 32 - 1) a; _ ← parse_uint u64_max b; _ ← parse_uint u64_max c; Some n
  | _ => None
  end.

Definition parse_sgdisk_partition_numbers (output : string) : gset Z :=
  list_to_set (omap sgdisk_row (str_split newline output)).

Definition partition_device_path (disk_path : string) (number : Z) : string :=
  match last (to_bytes disk_path) with
  | Some c => if is_ascii_digit c then disk_path +:+ "p" +:+ fmt_dec number else disk_path +:+ fmt_dec number
  | None => disk_path +:+ fmt_dec number
  end.

Definition MIN_CREATE_FREE_BYTES : Z := 1073741824.

(** [end - start + 1], wrapping. *)
Definition sector_count (start_sector end_sector : Z) : Z := u64_add (u64_sub end_sector start_sector) 1.

Definition u64_checked_mul (a b : Z) (e : FilesystemError) : fsres Z :=
  if a * b <=? u64_max then Ok (a * b) else Err e.

(** The partition the answers of sgdisk describe. *)
Definition free_partition (disk : PreflightBlockDevice) (start_sector end_sector : Z) (used : gset Z)
    : fsres (Z * Z * Z * string) :=
  guard? negb (end_sector <? start_sector)
    else InvalidInput (pd_path disk +:+ " has no usable contiguous free space") ;;
  bytes <-? u64_checked_mul (sector_count start_sector end_sector) (id_logical_sector_bytes (pd_identity disk))
              (InvalidInput "free-space size overflow") ;;
  guard? negb (bytes <? MIN_CREATE_FREE_BYTES)
    else InvalidInput (pd_path disk +:+ " has only " +:+ fmt_dec bytes +:+
           " bytes in its largest aligned free extent; at least 1073741824 are required") ;;
  match find_first (fun n => negb (bool_decide (n ∈ used))) (Z.of_nat <$> seq 1 128) with
  | None => Err (InvalidInput (pd_path disk +:+ " has no free GPT partition slots"))
  | Some number => Ok (number, start_sector, end_sector, partition_device_path (pd_path disk) number)
  end.

Definition sgdisk (arg : string) : dop string :=
  ask_ (fun t => or_command_failed (w_sgdisk w t arg)) (fun _ => []).

Definition note (e : Event) : dop unit :=
  m_modify (fun s => mkDisks (dk_tick s) (e :: dk_trace s) (dk_state s)).

Definition plan_free_partition (disk : PreflightBlockDevice) : dop (Z * Z * Z * string) :=
  let sector := id_logical_sector_bytes (pd_identity disk) in
  if (sector <? 512) || negb (sector mod 512 =? 0)
  then m_throw (InvalidInput (pd_path disk +:+ " reports unsupported logical sector size " +:+ fmt_dec sector))
  else
    first <~ sgdisk "--first-aligned-in-largest" ;;
    end_ <~ sgdisk "--end-of-largest" ;;
    table <~ sgdisk "--print" ;;
    start_sector <~ m_lift (parse_sgdisk_sector first "first free") ;;
    end_sector <~ m_lift (parse_sgdisk_sector end_ "last free") ;;
    let used := parse_sgdisk_partition_numbers table in
    note (SawFree (pd_path disk) start_sector end_sector used) ;;;
    m_lift (free_partition disk start_sector end_sector used).

Definition target_containing_disk (inv : BlockInventory) (node : PreflightBlockDevice) : option string :=
  if String.eqb (id_dev_type (pd_identity node)) "disk" then Some (id_devno (pd_identity node))
  else
    parent ← id_parent_devno (pd_identity node);
    p ← bi_devices inv !! parent;
    if String.eqb (id_dev_type (pd_identity p)) "disk" then Some parent else None.

(** A device of the request, found in the inventory. *)
Record Resolved : Type := mkResolved {
  rs_spec : DeviceSpec;
  rs_free : bool;
  rs_node : PreflightBlockDevice;
  rs_prepare : option DiskPreparation;
}.

Definition devno_of (r : Resolved) : string := id_devno (pd_identity (rs_node r)).
Definition whole_disk (r : Resolved) : bool :=
  negb (rs_free r) && String.eqb (id_dev_type (pd_identity (rs_node r))) "disk".

Definition check_overlap (inv : BlockInventory) (r : Resolved) (disk : string) (other : Resolved) : fsres unit :=
  if String.eqb (devno_of r) (devno_of other) then Ok tt
  else if bool_decide (target_containing_disk inv (rs_node other) = Some disk) && (whole_disk r || whole_disk other)
  then Err (InvalidInput (pd_path (rs_node r) +:+ " overlaps selected device " +:+ pd_path (rs_node other)))
  else Ok tt.

Fixpoint check_selection (inv : BlockInventory) (all : list Resolved) (seen : gset string) (rs : list Resolved)
    : fsres unit :=
  match rs with
  | [] => Ok tt
  | r :: rest =>
      guard? negb (bool_decide (devno_of r ∈ seen))
        else InvalidInput (pd_path (rs_node r) +:+ " is selected more than once, possibly through aliases") ;;
      disk <-? ok_or (target_containing_disk inv (rs_node r))
                 (InvalidInput ("could not determine the parent disk for " +:+ pd_path (rs_node r))) ;;
      _ <-? try_each (check_overlap inv r disk) all ;;
      check_selection inv all ({[ devno_of r ]} ∪ seen) rest
  end.

Fixpoint confirmations (ps : list DiskPreparation) (m : gmap string DiskPreparation)
    : fsres (gmap string DiskPreparation) :=
  match ps with
  | [] => Ok m
  | p :: rest =>
      match m !! dp_path p with
      | Some _ => Err (InvalidInput (dp_path p +:+ " was confirmed more than once"))
      | None => confirmations rest (<[dp_path p := p]> m)
      end
  end.

(** [strip_suffix(":free")] *)
Definition split_free (path : string) : string * bool :=
  match strip_suffix ":free" path with Some p => (p, true) | None => (path, false) end.

Definition resolve_device (inv : BlockInventory) (swaps registered : gset string)
    (m : gmap string DiskPreparation) (spec : DeviceSpec) : dop (Resolved * gmap string DiskPreparation) :=
  let '(raw, free) := split_free (ds_path spec) in
  path <~ canonical_block_path raw ;;
  match get_path inv path with
  | None => m_throw (DeviceNotFound (ds_path spec))
  | Some node =>
      let prepare := m !! path in
      match free, prepare with
      | true, Some _ => m_throw (InvalidInput (path +:+ ":free cannot be erased as a whole disk"))
      | true, None => m_lift (validate_free_space_parent inv node swaps)
      | false, Some expected =>
          checked_preparation inv expected ;;;
          m_lift (validate_preparation_usage inv node swaps registered)
      | false, None =>
          m_lift (validate_existing_create_target inv node swaps) ;;;
          sig <~ has_block_signatures (pd_path node) ;;
          if sig : bool
          then m_throw (in_use node "existing disk, partition-table, RAID, LVM, or filesystem signature")
          else m_ret tt
      end ;;;
      m_ret (mkResolved spec free node prepare, delete path m)
  end.

Fixpoint resolve_all (inv : BlockInventory) (swaps registered : gset string)
    (m : gmap string DiskPreparation) (specs : list DeviceSpec)
    : dop (list Resolved * gmap string DiskPreparation) :=
  match specs with
  | [] => m_ret ([], m)
  | spec :: rest =>
      r <~ resolve_device inv swaps registered m spec ;;
      rs <~ resolve_all inv swaps registered (snd r) rest ;;
      m_ret (fst r :: fst rs, snd rs)
  end.

Definition plan_target (r : Resolved) : dop CreateTargetPlan :=
  if rs_free r then
    q <~ plan_free_partition (rs_node r) ;;
    let '(number, first, last, path) := q in
    m_ret (FreeSpace (rs_spec r) (pd_identity (rs_node r)) number first last path)
  else m_ret (Existing (rs_spec r) (pd_identity (rs_node r)) (rs_prepare r)).

Fixpoint plan_targets (rs : list Resolved) : dop (list CreateTargetPlan) :=
  match rs with
  | [] => m_ret []
  | r :: rest => t <~ plan_target r ;; ts <~ plan_targets rest ;; m_ret (t :: ts)
  end.

Definition check_tpm_request (req : CreateFilesystemRequest) : dop unit :=
  if negb (bool_decide (cr_bind_to_tpm req = Some true)) then m_ret tt
  else if negb (bool_decide (cr_encryption req = Some true))
  then m_throw (InvalidInput "bind_to_tpm requires encryption=true")
  else if bool_decide (cr_store_key req = Some false)
  then m_throw (InvalidInput "bind_to_tpm requires store_key=true")
  else
    available <~ ask (w_tpm w) (fun _ => []) ;;
    if available : bool then m_ret tt
    else m_throw (InvalidInput "bind_to_tpm requested but no TPM2 is available on this host").

Definition build_create_plan (req : CreateFilesystemRequest) (registered : gset string)
    : dop CreateFilesystemPlan :=
  m_lift (validate_create_request req) ;;;
  check_tpm_request req ;;;
  inv <~ read_block_inventory ;;
  swaps <~ read_active_swaps inv ;;
  m <~ m_lift (confirmations (cr_prepare_disks req) ∅) ;;
  rs <~ resolve_all inv swaps registered m (cr_devices req) ;;
  match map_to_list (snd rs) with
  | (path, _) :: _ =>
      m_throw (InvalidInput (path +:+ " was confirmed for erasure but not selected as a whole disk"))
  | [] =>
      m_lift (check_selection inv (fst rs) ∅ (fst rs)) ;;;
      targets <~ plan_targets (fst rs) ;;
      m_ret (mkPlan req targets ("/fs/" +:+ cr_name req))
  end.

(** ** Checking again *)

Definition no_signature (path : string) (e : FilesystemError) : dop unit :=
  sig <~ has_block_signatures path ;;
  if sig : bool then m_throw e else m_ret tt.

Definition path_or_devno (c : option PreflightBlockDevice) (i : BlockIdentity) : string :=
  match c with Some n => pd_path n | None => id_devno i end.

Definition revalidate_source (inv : BlockInventory) (swaps : gset string) (t : CreateTargetPlan) : dop unit :=
  match t with
  | Existing _ identity prepare =>
      let current := get_identity inv identity in
      c <~ m_lift (identity_changed identity current (path_or_devno current identity)) ;;
      match prepare with
      | Some expected =>
          checked_preparation inv expected ;;;
          match node_usage_error inv c swaps true false with
          | Some reason => m_throw (in_use c reason)
          | None => m_ret tt
          end
      | None =>
          m_lift (validate_existing_create_target inv c swaps) ;;;
          no_signature (pd_path c) (in_use c "a signature appeared after preflight")
      end
  | FreeSpace _ parent _ _ _ _ =>
      let current := get_identity inv parent in
      c <~ m_lift (identity_changed parent current (path_or_devno current parent)) ;;
      m_lift (validate_free_space_parent inv c swaps)
  end.

Fixpoint each {A} (f : A -> dop unit) (l : list A) : dop unit :=
  match l with
  | [] => m_ret tt
  | x :: rest => f x ;;; each f rest
  end.

Definition revalidate_create_sources (targets : list CreateTargetPlan) : dop unit :=
  inv <~ read_block_inventory ;;
  swaps <~ read_active_swaps inv ;;
  each (revalidate_source inv swaps) targets.

Definition verify_created_partition (inv : BlockInventory) (parent : BlockIdentity)
    (partition_number start_sector end_sector : Z) (path : string) : fsres BlockIdentity :=
  match get_path inv path with
  | None => Err (CommandFailed ("created partition " +:+ path +:+ " did not appear in the kernel device inventory"))
  | Some node =>
      let i := pd_identity node in
      expected_size <-? u64_checked_mul (sector_count start_sector end_sector) (id_logical_sector_bytes parent)
                          (InvalidInput "partition size overflow") ;;
      expected_start <-? u64_checked_mul start_sector (id_logical_sector_bytes parent / 512)
                           (InvalidInput "partition start overflow") ;;
      guard? (String.eqb (id_dev_type i) "part" && bool_decide (id_parent_devno i = Some (id_devno parent))
              && bool_decide (id_partition_number i = Some partition_number)
              && bool_decide (id_start_512_sector i = Some expected_start)
              && (id_size_bytes i =? expected_size))
        else InvalidInput ("created node " +:+ path +:+ " does not match planned partition " +:+
               fmt_dec partition_number +:+ " (" +:+ fmt_dec start_sector +:+ "-" +:+ fmt_dec end_sector +:+
               "); refusing to format it") ;;
      Ok i
  end.

Definition revalidate_target (inv : BlockInventory) (swaps : gset string) (td : CreateTargetPlan * DeviceSpec)
    : dop unit :=
  let '(t, device) := td in
  match get_path inv (ds_path device) with
  | None => m_throw (DeviceNotFound (ds_path device))
  | Some node =>
      match t with
      | Existing _ identity _ => m_lift (identity_changed identity (Some node) (ds_path device)) ;;; m_ret tt
      | FreeSpace _ parent number first last path =>
          if negb (String.eqb path (ds_path device))
          then m_throw (InvalidInput "resolved partition path changed after preflight")
          else m_lift (verify_created_partition inv parent number first last path) ;;; m_ret tt
      end ;;;
      m_lift (validate_existing_create_target inv node swaps) ;;;
      no_signature (pd_path node) (in_use node "a signature appeared before format")
  end.

Definition revalidate_create_targets (targets : list CreateTargetPlan) (devices : list DeviceSpec) : dop unit :=
  inv <~ read_block_inventory ;;
  swaps <~ read_active_swaps inv ;;
  each (revalidate_target inv swaps) (zip targets devices).

(** ** Partitions *)

Definition set_path (p : string) (d : DeviceSpec) : DeviceSpec := mkDeviceSpec p (ds_label d) (ds_durability d).

(** The ten looks for the new partition. *)
Fixpoint wait_created (looks : nat) (parent : BlockIdentity) (number first last : Z) (path : string)
    : dop BlockIdentity :=
  match looks with
  | O => m_throw (CommandFailed ("created partition " +:+ path +:+ " did not appear after partprobe"))
  | S looks' =>
      inv <~ read_block_inventory ;;
      if bool_decide (is_Some (get_path inv path))
      then m_lift (verify_created_partition inv parent number first last path)
      else wait_created looks' parent number first last path
  end.

(** The device a target stands for, and the partition created for it. *)
Definition realize_target (t : CreateTargetPlan) : dop (DeviceSpec * option (string * BlockIdentity)) :=
  match t with
  | Existing spec identity _ =>
      inv <~ read_block_inventory ;;
      match get_identity inv identity with
      | None => m_throw (InvalidInput ("device " +:+ ds_path spec +:+ " disappeared after preflight"))
      | Some node => m_ret (set_path (pd_path node) spec, None)
      end
  | FreeSpace spec parent number first last path =>
      inv <~ read_block_inventory ;;
      swaps <~ read_active_swaps inv ;;
      let disk := get_identity inv parent in
      d <~ m_lift (identity_changed parent disk (path_or_devno disk parent)) ;;
      m_lift (validate_free_space_parent inv d swaps) ;;;
      run (CNewPartition number first last (pd_path d)) ;;;
      m_ignore (run (CPartprobe (pd_path d))) ;;;
      m_ignore (run CSettle) ;;;
      i <~ wait_created 10 parent number first last path ;;
      m_ret (set_path path spec, Some (path, i))
  end.

Fixpoint realize_targets (ts : list CreateTargetPlan)
    : dop (list DeviceSpec * list (string * BlockIdentity)) :=
  match ts with
  | [] => m_ret ([], [])
  | t :: rest =>
      d <~ realize_target t ;;
      ds <~ realize_targets rest ;;
      m_ret (fst d :: fst ds, option_list (snd d) ++ snd ds)
  end.

(** A new partition is wiped only while it is the one created and unused. *)
Definition wipe_created (pi : string * BlockIdentity) : dop unit :=
  let '(path, expected) := pi in
  inv <~ read_block_inventory ;;
  swaps <~ read_active_swaps inv ;;
  c <~ m_lift (identity_changed expected (get_path inv path) path) ;;
  match node_usage_error inv c swaps true false with
  | Some reason => m_throw (DeviceInUse (path +:+ " (" +:+ reason +:+ ")"))
  | None => run (CWipefs path)
  end.

Definition execute_partition_plan (targets : list CreateTargetPlan) : dop (list DeviceSpec) :=
  revalidate_create_sources targets ;;;
  r <~ realize_targets targets ;;
  each wipe_created (snd r) ;;;
  m_ret (fst r).

(** ** Erasing *)

(** What is looked at before each wipe of a confirmed disk: the disk is the one
    confirmed, and still free. *)
Definition confirmed_disk (expected : DiskPreparation) : dop (BlockInventory * PreflightBlockDevice) :=
  inv <~ read_block_inventory ;;
  swaps <~ read_active_swaps inv ;;
  registered <~ registered_block_paths ;;
  disk <~ m_lift (identity_changed (dp_identity expected) (get_path inv (dp_path expected)) (dp_path expected)) ;;
  m_lift (validate_preparation_usage inv disk swaps registered) ;;;
  m_ret (inv, disk).

Definition signature_changed (path : string) : FilesystemError :=
  InvalidInput (path +:+ " signature changed since confirmation; refusing to erase it").

Definition wipe_child (expected : DiskPreparation) (child : string * BlockIdentity * option string) : dop unit :=
  let '(path, identity, fs_type) := child in
  iv <~ confirmed_disk expected ;;
  c <~ m_lift (identity_changed identity (get_path (fst iv) path) path) ;;
  if bool_decide (pd_fs_type c = fs_type) then run (CWipefs path) else m_throw (signature_changed path).

Definition same_disk (disk : PreflightBlockDevice) (expected : BlockIdentity) : bool :=
  let i := pd_identity disk in
  String.eqb (id_devno i) (id_devno expected) && bool_decide (id_disk_sequence i = id_disk_sequence expected)
  && (id_size_bytes i =? id_size_bytes expected) && bool_decide (id_serial i = id_serial expected)
  && bool_decide (id_wwn i = id_wwn expected).

Fixpoint wait_clean (looks : nat) (expected : DiskPreparation) : dop unit :=
  match looks with
  | O => m_throw (CommandFailed (dp_path expected +:+
           " was wiped but partitions or signatures remain visible; inspect the device before retrying"))
  | S looks' =>
      inv <~ read_block_inventory ;;
      match get_path inv (dp_path expected) with
      | Some disk =>
          if same_disk disk (dp_identity expected) && bool_decide (pd_children disk = ∅)
             && bool_decide (pd_partition_table_type disk = None)
          then sig <~ has_block_signatures (pd_path disk) ;;
               if sig : bool then wait_clean looks' expected else m_ret tt
          else wait_clean looks' expected
      | None => wait_clean looks' expected
      end
  end.

Definition prepare_whole_disk (expected : DiskPreparation) : dop unit :=
  inv <~ read_block_inventory ;;
  swaps <~ read_active_swaps inv ;;
  registered <~ registered_block_paths ;;
  disk <~ checked_preparation inv expected ;;
  m_lift (validate_preparation_usage inv disk swaps registered) ;;;
  each (wipe_child expected) (dp_children expected) ;;;
  iv <~ confirmed_disk expected ;;
  (if bool_decide (pd_fs_type (snd iv) = dp_fs_type expected) then m_ret tt
   else m_throw (signature_changed (dp_path expected))) ;;;
  run (CWipefs (dp_path expected)) ;;;
  m_ignore (run (CZap (dp_path expected))) ;;;
  run (CPartprobe (dp_path expected)) ;;;
  m_ignore (run CSettle) ;;;
  wait_clean 10 expected.

(** [Display] of an error. *)
Definition error_text (e : FilesystemError) : string :=
  match e with
  | CommandFailed s => "bcachefs command failed: " +:+ s
  | NotFound s => "filesystem not found: " +:+ s
  | AlreadyExists s => "filesystem already exists: " +:+ s
  | DeviceInUse s => "device " +:+ s +:+ " is already in use"
  | InvalidInput s => "invalid input: " +:+ s
  | NoDevices => "no devices specified"
  | DeviceNotFound s => "device not found: " +:+ s
  | Io s => "io error: " +:+ s
  end.

Definition m_map_err {A} (f : FilesystemError -> FilesystemError) (m : dop A) : dop A := fun s =>
  match m s with
  | (s', Ok a) => (s', Ok a)
  | (s', Err e) => (s', Err (f e))
  end.

Definition device_wipe (request_path : string) (expected : option DiskPreparation) : dop unit :=
  path <~ canonical_block_path request_path ;;
  inv <~ read_block_inventory ;;
  match get_path inv path with
  | None => m_throw (DeviceNotFound path)
  | Some node =>
      let ty := id_dev_type (pd_identity node) in
      if String.eqb ty "disk" then
        match expected with
        | None => m_throw (InvalidInput "whole-disk wipe requires a fresh inspection")
        | Some e =>
            if negb (String.eqb (dp_path e) path) then m_throw (InvalidInput "confirmed disk path differs")
            else m_map_err (fun err => CommandFailed (error_text err +:+ "; if preparation started, " +:+ dp_path e +:+
                   " may be partly erased. Refresh the device list before retrying")) (prepare_whole_disk e)
        end
      else if String.eqb ty "part" then
        swaps <~ read_active_swaps inv ;;
        registered <~ registered_block_paths ;;
        m_lift (validate_preparation_usage inv node swaps registered) ;;;
        inv2 <~ read_block_inventory ;;
        swaps2 <~ read_active_swaps inv2 ;;
        registered2 <~ registered_block_paths ;;
        node2 <~ m_lift (identity_changed (pd_identity node) (get_path inv2 path) path) ;;
        m_lift (validate_preparation_usage inv2 node2 swaps2 registered2) ;;;
        run (CWipefs path)
      else m_throw (InvalidInput (path +:+ " is not a disk or partition"))
  end.

(** ** Creating *)

Definition build_create_format_args (req : CreateFilesystemRequest) (devices : list DeviceSpec) : list string :=
  let opt (name : string) (v : option string) : list string :=
    match v with Some x => ["--" +:+ name +:+ "=" +:+ x] | None => [] end in
  let has_targets := negb (bool_decide (requested_targets req = [])) in
  ["format"; "--fs_label=" +:+ cr_name req] ++
  (if 1 <? cr_replicas req then ["--replicas=" +:+ fmt_dec (cr_replicas req)] else []) ++
  opt "compression" (cr_compression req) ++
  (if bool_decide (cr_encryption req = Some true) then ["--encrypted"] else []) ++
  opt "foreground_target" (cr_foreground_target req) ++ opt "metadata_target" (cr_metadata_target req) ++
  opt "background_target" (cr_background_target req) ++ opt "promote_target" (cr_promote_target req) ++
  (if bool_decide (cr_erasure_code req = Some true) then ["--erasure_code"] else []) ++
  opt "data_checksum" (cr_data_checksum req) ++ opt "metadata_checksum" (cr_metadata_checksum req) ++
  opt "bucket" (cr_bucket_size req) ++ opt "encoded_extent_max" (cr_encoded_extent_max req) ++
  (devices ≫= fun dev =>
     match ds_label dev with
     | Some l => ["--label=" +:+ l]
     | None => if has_targets then ["--label=" +:+ default_label req] else []
     end ++
     match ds_durability dev with Some d => ["--durability=" +:+ fmt_dec d] | None => [] end ++
     [ds_path dev]).

Definition dir_error {A} (o : DirOut) : fsres A :=
  Err (Io (match o with DirError e => e | DirExists => "File exists" | DirMissing => "No such file or directory"
           | DirNotEmpty => "Directory not empty" | DirOk => "" end)).

Definition reserve_create_mount_point (mount_point name : string) : dop unit :=
  base <~ ask (w_dir w) (fun _ => []) ;;
  match base with
  | DirOk =>
      made <~ ask (w_dir w) (fun _ => []) ;;
      match made with
      | DirOk => m_ret tt
      | DirExists =>
          is_dir <~ ask_ (w_is_dir w) (fun _ => []) ;;
          if negb is_dir
          then m_throw (InvalidInput ("mount point " +:+ mount_point +:+ " already exists and is not a plain directory"))
          else
            mounted <~ ask (w_is_mountpoint w) (fun _ => []) ;;
            if mounted : bool then m_throw (InvalidInput ("mount point " +:+ mount_point +:+ " is occupied"))
            else
              removed <~ ask (w_dir w) (fun _ => []) ;;
              match removed with
              | DirOk | DirMissing =>
                  again <~ ask (w_dir w) (fun _ => []) ;;
                  match again with
                  | DirOk => m_ret tt
                  | DirExists => m_throw (AlreadyExists name)
                  | o => m_lift (dir_error o)
                  end
              | DirNotEmpty =>
                  m_throw (InvalidInput ("mount point " +:+ mount_point +:+ " already exists and is not empty"))
              | o => m_lift (dir_error o)
              end
      | o => m_lift (dir_error o)
      end
  | o => m_lift (dir_error o)
  end.

Definition verify_create_mount_point_reserved (mount_point : string) : dop unit :=
  is_dir <~ ask_ (w_is_dir w) (fun _ => []) ;;
  mounted <~ (if is_dir : bool then ask (w_is_mountpoint w) (fun _ => []) else m_ret true) ;;
  if mounted : bool
  then m_throw (InvalidInput ("mount point " +:+ mount_point +:+ " changed after preflight; refusing to format devices"))
  else
    empty <~ ask_ (w_dir_empty w) (fun _ => []) ;;
    if empty : bool then m_ret tt
    else m_throw (InvalidInput ("mount point " +:+ mount_point +:+ " is no longer empty; refusing to format devices")).

(** On an error the reserved directory is removed, best effort. *)
Definition or_remove_dir {A} (m : dop A) : dop A := fun s =>
  match m s with
  | (s', Ok a) => (s', Ok a)
  | (s', Err e) => (fst (ask (w_dir w) (fun _ => []) s'), Err e)
  end.

(** The preparation of one target.  The lists of started and prepared disks
    only word the error report. *)
Definition prepare_target (t : CreateTargetPlan) : dop CreateTargetPlan :=
  match t with
  | Existing spec identity (Some expected) =>
      or_remove_dir (prepare_whole_disk expected) ;;;
      inv <~ read_block_inventory ;;
      match get_path inv (dp_path expected) with
      | None => m_throw (DeviceNotFound (dp_path expected))
      | Some node => m_ret (Existing spec (pd_identity node) None)
      end
  | _ => m_ret t
  end.

Fixpoint prepare_targets (ts : list CreateTargetPlan) : dop (list CreateTargetPlan) :=
  match ts with
  | [] => m_ret []
  | t :: rest => t' <~ prepare_target t ;; ts' <~ prepare_targets rest ;; m_ret (t' :: ts')
  end.

(** [bcachefs format]; a failed exit counts as success when the superblock of
    the first device is there. *)
Definition format_devices (req : CreateFilesystemRequest) (devices : list DeviceSpec) : dop unit :=
  out <~ ask (w_format w) (fun o => [Ran (CFormat req devices) match o with FormatOk => true | _ => false end]) ;;
  match out with
  | FormatOk => m_ret tt
  | FormatNotStarted e => or_remove_dir (m_throw (CommandFailed ("failed to execute bcachefs: " +:+ e)))
  | FormatExit status stderr =>
      there <~ ask (w_is_bcachefs w) (fun _ => []) ;;
      if there : bool then m_ret tt
      else or_remove_dir (m_throw (CommandFailed ("bcachefs exited with " +:+ status +:+ ": " +:+ stderr)))
  end.

Definition verify_device_paths_uuid (paths : list string) (uuid : string) : dop unit :=
  each (fun p =>
    actual <~ ask (fun t => w_uuid w t p) (fun _ => []) ;;
    if bool_decide (actual = Some uuid) then m_ret tt
    else m_throw (CommandFailed ("device " +:+ p +:+ " no longer belongs to filesystem UUID " +:+ uuid +:+
                    "; refusing the operation"))) paths.

Definition encrypted (req : CreateFilesystemRequest) : bool := bool_decide (cr_encryption req = Some true).

Definition opt_io (o : option string) : fsres unit := match o with Some e => Err (Io e) | None => Ok tt end.

(** The key file of an encrypted filesystem. *)
Definition store_key (req : CreateFilesystemRequest) : dop unit :=
  if encrypted req && negb (bool_decide (cr_store_key req = Some false))
  then ask_ (fun t => opt_io (w_write_key w t)) (fun _ => [])
  else m_ret tt.

Definition unlock_created (req : CreateFilesystemRequest) (device : string) : dop unit :=
  if encrypted req then
    key <~ ask_ (w_stored_key w) (fun _ => []) ;;
    match key, cr_passphrase req with
    | Some k, _ => run (CUnlock device k)
    | None, Some p => run (CUnlock device p)
    | None, None => m_ret tt
    end
  else m_ret tt.

Definition created_opts (req : CreateFilesystemRequest) : FsMountOptions :=
  mkFsMountOptions None [] None (if encrypted req then Some true else None) (cr_version_upgrade req)
    None None None None (cr_journal_flush_delay req).

Definition build_mount_opts (o : FsMountOptions) : string :=
  let flag (b : option bool) (name : string) : list string :=
    if bool_decide (b = Some true) then [name] else [] in
  str_join "," (["prjquota"] ++
    match mo_version_upgrade o with
    | Some v => if String.eqb v "" || String.eqb v "none" then [] else ["version_upgrade=" +:+ v]
    | None => []
    end ++
    flag (mo_degraded o) "degraded" ++ flag (mo_verbose o) "verbose" ++ flag (mo_fsck o) "fsck" ++
    flag (mo_journal_flush_disabled o) "journal_flush_disabled" ++
    match mo_journal_flush_delay o with Some d => ["journal_flush_delay=" +:+ fmt_dec d] | None => [] end).

Definition mount_created (req : CreateFilesystemRequest) (devices : list string) (mount_point uuid : string) : dop unit :=
  run (CMount (build_mount_opts (created_opts req)) (str_join ":" devices) mount_point) ;;;
  mounted <~ ask (w_mounted_uuid w) (fun _ => []) ;;
  if bool_decide (mounted = Some uuid) then m_ret tt
  else fun s =>
    let '(s', r) := run (CUmount mount_point) s in
    let suffix := match r with Ok _ => "" | Err e =>
      "; rollback unmount also failed: " +:+ match e with CommandFailed m => m | _ => "" end end in
    (s', Err (CommandFailed ("mounted filesystem UUID did not match expected UUID " +:+ uuid +:+ suffix))).

(** A failed write is only logged. *)
Definition save_fs_mounted_with_opts (name : string) (o : FsMountOptions) : dop unit :=
  saved <~ ask (w_save w) (fun _ => []) ;;
  if saved : bool
  then m_modify (fun s => mkDisks (dk_tick s) (dk_trace s)
         (<[name := mkFsMountOptions (mo_uuid o) (mo_devices o) (Some true) (mo_encrypted o) (mo_version_upgrade o)
              (mo_degraded o) (mo_verbose o) (mo_fsck o) (mo_journal_flush_disabled o) (mo_journal_flush_delay o)]>
            (dk_state s)))
  else m_ret tt.

Definition with_identity (uuid : string) (devices : list string) (o : FsMountOptions) : FsMountOptions :=
  mkFsMountOptions (Some uuid) devices (mo_mounted o) (mo_encrypted o) (mo_version_upgrade o)
    (mo_degraded o) (mo_verbose o) (mo_fsck o) (mo_journal_flush_disabled o) (mo_journal_flush_delay o).

Definition bind_tpm (req : CreateFilesystemRequest) : dop unit :=
  if bool_decide (cr_bind_to_tpm req = Some true) then
    r <~ ask (w_tpm_bind w) (fun _ => []) ;;
    match r with
    | Some e => m_throw (CommandFailed ("filesystem '" +:+ cr_name req +:+ "' created but TPM seal failed: " +:+ e))
    | None => m_ret tt
    end
  else m_ret tt.

(** The filesystem made: its UUID, devices and mount point. *)
Definition create_locked (request : CreateFilesystemRequest) : dop (string * list DeviceSpec * string) :=
  registered <~ registered_block_paths ;;
  plan <~ build_create_plan request registered ;;
  let req := pl_request plan in
  let mount_point := pl_mount_point plan in
  s <~ m_get ;;
  if bool_decide (is_Some (dk_state s !! cr_name req)) then m_throw (AlreadyExists (cr_name req)) else
  reserve_create_mount_point mount_point (cr_name req) ;;;
  or_remove_dir (revalidate_create_sources (pl_targets plan)) ;;;
  targets <~ prepare_targets (pl_targets plan) ;;
  devices <~ or_remove_dir (execute_partition_plan targets) ;;
  or_remove_dir (revalidate_create_targets targets devices) ;;;
  verify_create_mount_point_reserved mount_point ;;;
  format_devices req devices ;;;
  store_key req ;;;
  let first := match devices with d :: _ => ds_path d | [] => "" end in
  id <~ ask (fun t => w_uuid w t first) (fun _ => []) ;;
  match id ≫= non_empty with
  | None => m_throw (CommandFailed ("filesystem '" +:+ cr_name req +:+
              "' was formatted, but its UUID could not be verified; refusing to mount it"))
  | Some uuid =>
      verify_device_paths_uuid (ds_path <$> devices) uuid ;;;
      unlock_created req first ;;;
      mount_created req (ds_path <$> devices) mount_point uuid ;;;
      save_fs_mounted_with_opts (cr_name req) (with_identity uuid (ds_path <$> devices) (created_opts req)) ;;;
      bind_tpm req ;;;
      m_ret (uuid, devices, mount_point)
  end.
End Create.
