(* ===== verification/FsProps.v ===== *)
(** * Creating and wiping destroy only what they may

    Every command that destroys data is preceded, with no other command in
    between, by observations that show its device to be the one meant and free.
    [safe] states this of a trace; the operations keep it whatever the devices
    do between two observations. *)

From Stdlib Require Import ZArith Lia Ascii String.
From stdpp Require Import base list gmap strings relations.
From S2P Require Import Prelude.
From S2P Require Import RustStr.
From S2P Require Import BlockDev.
From S2P Require Import BlockProps.
From S2P Require Import FsCreate.

Abbreviation trace := (list Event).

(** ** What has been seen since the last command *)

(** The last inventory. *)
Fixpoint view (t : trace) : option BlockInventory :=
  match t with
  | SawInventory inv :: _ => Some inv
  | Ran _ _ :: _ | [] => None
  | _ :: t' => view t'
  end.

(** The swap devices and registered paths read after it. *)
Fixpoint swaps_seen (t : trace) : option (gset string) :=
  match t with
  | SawSwaps s :: _ => Some s
  | SawInventory _ :: _ | Ran _ _ :: _ | [] => None
  | _ :: t' => swaps_seen t'
  end.

Fixpoint registered_seen (t : trace) : option (gset string) :=
  match t with
  | SawRegistered r :: _ => Some r
  | SawInventory _ :: _ | Ran _ _ :: _ | [] => None
  | _ :: t' => registered_seen t'
  end.

(** The device was probed after it and carried no signature. *)
Fixpoint clean_seen (t : trace) (p : string) : Prop :=
  match t with
  | SawSignature q b :: t' => (q = p /\ b = false) \/ clean_seen t' p
  | SawInventory _ :: _ | Ran _ _ :: _ | [] => False
  | _ :: t' => clean_seen t' p
  end.

(** ** What the administrator asked for *)

Record Grants : Type := mkGrants {
  gr_devices : list DeviceSpec;               (** devices of a create request *)
  gr_confirmed : list DiskPreparation;        (** disks confirmed for erasure *)
  gr_parts : list string;                     (** paths of partitions to be wiped *)
}.

(** A device of the request, as it was found: the canonical path of the
    request's path, and the device an inventory showed there. *)
Definition requested (g : Grants) (t : trace) (node : PreflightBlockDevice) : Prop :=
  exists spec path inv, spec ∈ gr_devices g /\ SawPath (fst (split_free (ds_path spec))) path ∈ t /\
    SawInventory inv ∈ t /\ get_path inv path = Some node.

(** The partition is what was asked for on the parent: its number, its place
    (in sectors of 512 bytes) and its size. *)
Definition carved (parent : BlockIdentity) (n f l : Z) (i : BlockIdentity) : Prop :=
  id_dev_type i = "part" /\ id_parent_devno i = Some (id_devno parent) /\ id_partition_number i = Some n /\
  id_start_512_sector i = Some (f * (id_logical_sector_bytes parent / 512)) /\
  id_size_bytes i = sector_count f l * id_logical_sector_bytes parent.

(** A command made the partition, and the inventory it acted on showed the
    parent at the path it was given. *)
Definition made_on (t : trace) (parent : BlockIdentity) (n f l : Z) : Prop :=
  exists later earlier inv node, t = later ++ Ran (CNewPartition n f l (pd_path node)) true :: earlier /\
    view earlier = Some inv /\ bi_devices inv !! id_devno parent = Some node /\ pd_identity node = parent.

(** The partition made on a disk of the request. *)
Definition partition_made (g : Grants) (t : trace) (i : BlockIdentity) : Prop :=
  exists parent n f l, requested g t parent /\ made_on t (pd_identity parent) n f l /\ carved (pd_identity parent) n f l i.

(** The device is one of the request's, or a partition made on one of them. *)
Definition meant (g : Grants) (t : trace) (i : BlockIdentity) : Prop :=
  (exists node, requested g t node /\ i = pd_identity node) \/ partition_made g t i.

(** ** When a destructive command is in order *)

Definition format_ok (g : Grants) (t : trace) (path : string) : Prop :=
  exists inv swaps node, view t = Some inv /\ swaps_seen t = Some swaps /\ get_path inv path = Some node /\
    formattable inv swaps node /\ clean_seen t (pd_path node) /\ meant g t (pd_identity node).

(** Just before a command on a confirmed disk: it is the disk confirmed, and no
    registered filesystem uses it. *)
Definition disk_confirmed (e : DiskPreparation) (iv : BlockInventory * PreflightBlockDevice) (t : trace) : Prop :=
  exists swaps reg, view t = Some (fst iv) /\ swaps_seen t = Some swaps /\ registered_seen t = Some reg /\
    get_path (fst iv) (dp_path e) = Some (snd iv) /\ pd_identity (snd iv) = dp_identity e /\
    erasable (fst iv) swaps reg (snd iv).

(** The disk confirmed, with the filesystem type confirmed. *)
Definition disk_wipe_ok (g : Grants) (t : trace) (path : string) : Prop :=
  exists e iv, e ∈ gr_confirmed g /\ disk_confirmed e iv t /\ path = dp_path e /\ pd_fs_type (snd iv) = dp_fs_type e.

(** A child of the disk, as it was confirmed with the disk. *)
Definition child_wipe_ok (g : Grants) (t : trace) (path : string) : Prop :=
  exists e iv child, e ∈ gr_confirmed g /\ disk_confirmed e iv t /\ get_path (fst iv) path = Some child /\
    (path, pd_identity child, pd_fs_type child) ∈ dp_children e.

(** A partition the administrator named. *)
Definition part_wipe_ok (g : Grants) (t : trace) (path : string) : Prop :=
  exists inv swaps node reg raw, view t = Some inv /\ swaps_seen t = Some swaps /\ registered_seen t = Some reg /\
    raw ∈ gr_parts g /\ SawPath raw path ∈ t /\
    get_path inv path = Some node /\ id_dev_type (pd_identity node) = "part" /\ erasable inv swaps reg node.

(** A partition just made on a disk of the request, whatever signature the
    sectors had left, but not mounted, held or otherwise used. *)
Definition new_wipe_ok (g : Grants) (t : trace) (path : string) : Prop :=
  exists inv swaps node, view t = Some inv /\ swaps_seen t = Some swaps /\
    get_path inv path = Some node /\ partition_made g t (pd_identity node) /\ unused inv swaps false node.

Definition wipe_ok (g : Grants) (t : trace) (path : string) : Prop :=
  disk_wipe_ok g t path \/ child_wipe_ok g t path \/ part_wipe_ok g t path \/ new_wipe_ok g t path.

Definition partition_ok (g : Grants) (t : trace) (number first last : Z) (disk : string) : Prop :=
  exists inv swaps node parent, view t = Some inv /\ swaps_seen t = Some swaps /\
    bi_devices inv !! id_devno (pd_identity parent) = Some node /\ pd_path node = disk /\
    requested g t parent /\ pd_identity node = pd_identity parent /\ splittable swaps node /\
    exists used, SawFree (pd_path parent) first last used ∈ t /\ (number ∉ used) /\ first <= last.

Definition event_ok (g : Grants) (e : Event) (t : trace) : Prop :=
  match e with
  | Ran (CWipefs p) _ => wipe_ok g t p
  | Ran (CZap p) _ => exists t', t = Ran (CWipefs p) true :: t' /\ disk_wipe_ok g t' p
  | Ran (CNewPartition n f l d) _ => partition_ok g t n f l d
  | Ran (CFormat _ devices) _ => Forall (fun d => format_ok g t (ds_path d)) devices
  | _ => True
  end.

Fixpoint safe (g : Grants) (t : trace) : Prop :=
  match t with
  | [] => True
  | e :: t' => event_ok g e t' /\ safe g t'
  end.

(** ** Reasoning about operations

    Facts that later events keep are [Mono]; those that only a command or a new
    reading of the devices can end are [Stable]. *)

Definition calm (e : Event) : Prop :=
  match e with
  | Ran _ _ | SawInventory _ | SawSwaps _ | SawRegistered _ => False
  | _ => True
  end.

Class Mono (R : trace -> Prop) : Prop := mono e t : R t -> R (e :: t).
Class Stable (S : trace -> Prop) : Prop := stable e t : calm e -> S t -> S (e :: t).

#[export] Instance mono_stable R : Mono R -> Stable R | 100.
Proof. intros H e t _. apply H. Qed.
#[export] Instance mono_pure (P : Prop) : Mono (fun _ => P).
Proof. by intros e t. Qed.
#[export] Instance mono_and P Q : Mono P -> Mono Q -> Mono (fun t => P t /\ Q t).
Proof. intros HP HQ e t [? ?]. split; [by apply HP|by apply HQ]. Qed.
#[export] Instance mono_elem (x : Event) : Mono (elem_of x).
Proof. intros e t H. by right. Qed.
#[export] Instance mono_ex {A} (P : A -> trace -> Prop) : (forall a, Mono (P a)) -> Mono (fun t => exists a, P a t).
Proof. intros H e t [a Ha]. exists a. by apply H. Qed.
#[export] Instance mono_forall {A} (P : A -> trace -> Prop) (l : list A) :
  (forall a, Mono (P a)) -> Mono (fun t => Forall (fun a => P a t) l).
Proof. intros H e t HF. eapply Forall_impl; [exact HF|]. intros a Ha. by apply H. Qed.
#[export] Instance mono_requested g n : Mono (fun t => requested g t n).
Proof.
  intros e t (spec & path & inv & ? & ? & ? & ?). exists spec, path, inv. split_and!; [done|by right..|done].
Qed.
#[export] Instance mono_made_on i n f l : Mono (fun t => made_on t i n f l).
Proof. intros e t (later & earlier & inv & node & -> & H). by exists (e :: later), earlier, inv, node. Qed.
#[export] Instance mono_partition_made g i : Mono (fun t => partition_made g t i).
Proof.
  intros e t (p & n & f & l & Hr & Hm & Hc). exists p, n, f, l. split_and!; [by apply mono_requested|by apply mono_made_on|done].
Qed.
#[export] Instance mono_meant g i : Mono (fun t => meant g t i).
Proof.
  intros e t [(n & Hr & Hi)|H]; [left; exists n; split; [by apply mono_requested|done]|right; by apply mono_partition_made].
Qed.

#[export] Instance stable_and P Q : Stable P -> Stable Q -> Stable (fun t => P t /\ Q t).
Proof. intros HP HQ e t Hc [? ?]. split; [by apply HP|by apply HQ]. Qed.
#[export] Instance stable_view inv : Stable (fun t => view t = Some inv).
Proof. by intros [] t Hc. Qed.
#[export] Instance stable_swaps s : Stable (fun t => swaps_seen t = Some s).
Proof. by intros [] t Hc. Qed.
#[export] Instance stable_registered r : Stable (fun t => registered_seen t = Some r).
Proof. by intros [] t Hc. Qed.
#[export] Instance stable_clean p : Stable (fun t => clean_seen t p).
Proof. intros [] t Hc H; try done. by right. Qed.
#[export] Instance stable_forall {A} (P : A -> trace -> Prop) (l : list A) :
  (forall a, Stable (P a)) -> Stable (fun t => Forall (fun a => P a t) l).
Proof. intros H e t Hc HF. eapply Forall_impl; [exact HF|]. intros a Ha. by apply H. Qed.
#[export] Instance stable_format_ok g p : Stable (fun t => format_ok g t p).
Proof.
  intros e t Hc (inv & s & n & H1 & H2 & H3 & H4 & H5 & H6). exists inv, s, n.
  split_and!; [by apply stable_view|by apply stable_swaps|done|done|by apply stable_clean|by apply mono_meant].
Qed.

Section Triples.
Context (json : string -> result JValue string) (w : World) (g : Grants).

(** From a safe trace with [P], [m] makes a safe longer one, and a value it
    returns has [Q]. *)
Definition triple {A} (P : trace -> Prop) (m : stm Disks FilesystemError A) (Q : A -> trace -> Prop) : Prop :=
  forall s, safe g (dk_trace s) -> P (dk_trace s) ->
    exists ex, dk_trace (fst (m s)) = ex ++ dk_trace s /\ safe g (dk_trace (fst (m s))) /\
      match snd (m s) with Ok a => Q a (dk_trace (fst (m s))) | Err _ => True end.

Lemma t_ret {A} (a : A) P (Q : A -> trace -> Prop) : (forall t, P t -> Q a t) -> triple P (m_ret a) Q.
Proof. intros H s Hs HP. exists []. cbn. auto. Qed.

Lemma t_throw {A} e P (Q : A -> trace -> Prop) : triple P (m_throw e) Q.
Proof. intros s Hs HP. exists []. cbn. auto. Qed.

Lemma t_lift {A} (r : fsres A) P : triple P (m_lift r) (fun a t => P t /\ r = Ok a).
Proof. intros s Hs HP. exists []. unfold m_lift. cbn. destruct r; auto. Qed.

Lemma t_lift_post {A} (r : fsres A) P (Q : A -> trace -> Prop) :
  (forall a t, r = Ok a -> P t -> Q a t) -> triple P (m_lift r) Q.
Proof. intros H s Hs HP. exists []. unfold m_lift. cbn. destruct r; auto. Qed.

Lemma t_bind {A B} (m : stm Disks FilesystemError A) (k : A -> stm Disks FilesystemError B) P Q R :
  triple P m Q -> (forall a, triple (Q a) (k a) R) -> triple P (m_bind m k) R.
Proof.
  intros Hm Hk s Hs HP. destruct (Hm s Hs HP) as (ex & Ht & Hsafe & HQ). unfold m_bind.
  destruct (m s) as [s' [a|e]]; cbn [fst snd] in *; [|by exists ex].
  destruct (Hk a s' Hsafe HQ) as (ex' & Ht' & ? & ?). exists (ex' ++ ex). rewrite <- app_assoc, <- Ht. done.
Qed.

Lemma t_weaken {A} (m : stm Disks FilesystemError A) (P P' : trace -> Prop) (Q Q' : A -> trace -> Prop) :
  triple P' m Q' -> (forall t, P t -> P' t) -> (forall a t, Q' a t -> Q a t) -> triple P m Q.
Proof.
  intros Hm HP HQ s Hs H. destruct (Hm s Hs (HP _ H)) as (ex & ? & ? & Hr). exists ex. split_and!; [done..|].
  destruct (snd (m s)); auto.
Qed.

Lemma mono_app R ex t : Mono R -> R t -> R (ex ++ t).
Proof. intros HR H. induction ex as [|e ex IH]; [done|]. by apply HR. Qed.

Lemma t_frame {A} (m : stm Disks FilesystemError A) P Q R `{!Mono R} :
  triple P m Q -> triple (fun t => P t /\ R t) m (fun a t => Q a t /\ R t).
Proof.
  intros Hm s Hs [HP HR]. destruct (Hm s Hs HP) as (ex & Ht & ? & Hr). exists ex. split_and!; [done..|].
  destruct (snd (m s)); [|done]. split; [done|]. rewrite Ht. by apply mono_app.
Qed.

Lemma t_ignore {A} (m : stm Disks FilesystemError A) P R `{!Mono R} :
  triple P m (fun _ _ => True) -> (forall t, P t -> R t) -> triple P (m_ignore m) (fun _ t => R t).
Proof.
  intros Hm HR s Hs HP. destruct (Hm s Hs HP) as (ex & Ht & ? & _). exists ex. cbn. split_and!; [done..|].
  rewrite Ht. by apply mono_app, HR.
Qed.

(** *** Questions *)

Lemma t_ask {A} (f : nat -> A) P : triple P (ask f (fun _ => [])) (fun _ t => P t).
Proof. intros s Hs HP. exists []. cbn. auto. Qed.

Lemma t_ask_quiet {A} (f : nat -> fsres A) P : triple P (ask_ f (fun _ => [])) (fun _ t => P t).
Proof.
  intros s Hs HP. unfold ask_, m_bind, ask, m_lift. cbn. destruct (f (dk_tick s)) as [a|e]; exists []; cbn; auto.
Qed.

(** One observation that no rule restricts. *)
Lemma t_observe {A} (f : nat -> fsres A) (ev : A -> Event) P (Q : A -> trace -> Prop) :
  (forall a t, event_ok g (ev a) t) -> (forall a t, (exists n, f n = Ok a) -> P t -> Q a (ev a :: t)) ->
  triple P (ask_ f (fun a => [ev a])) Q.
Proof.
  intros Hev HQ s Hs HP. unfold ask_, m_bind, ask, m_lift. cbn.
  destruct (f (dk_tick s)) as [a|e] eqn:E; [exists [ev a]|exists []]; cbn; [|auto].
  split; [done|]. split; [split; [by apply Hev|done]|]. apply HQ; [by eexists|done].
Qed.

Lemma t_inventory R `{!Mono R} :
  triple R (read_block_inventory json w) (fun inv t => view t = Some inv /\ SawInventory inv ∈ t /\ R t).
Proof.
  apply t_observe; [done|]. intros inv t _ HR. split_and!; [done|by left|by apply mono].
Qed.

Lemma t_swaps inv R `{!Mono R} :
  triple (fun t => view t = Some inv /\ R t) (read_active_swaps w inv)
    (fun swaps t => view t = Some inv /\ swaps_seen t = Some swaps /\ R t).
Proof. apply t_observe; [done|]. intros swaps t _ [Hv HR]. split_and!; [done..|by apply mono]. Qed.

Lemma t_registered inv swaps R `{!Mono R} :
  triple (fun t => view t = Some inv /\ swaps_seen t = Some swaps /\ R t) (registered_block_paths w)
    (fun reg t => view t = Some inv /\ swaps_seen t = Some swaps /\ registered_seen t = Some reg /\ R t).
Proof. apply t_observe; [done|]. intros reg t _ (Hv & Hs & HR). split_and!; [done..|by apply mono]. Qed.

Lemma t_canonical p S `{!Stable S} :
  triple S (canonical_block_path w p) (fun c t => SawPath p c ∈ t /\ S t).
Proof. apply t_observe; [done|]. intros c t _ HS. split; [by left|by apply stable]. Qed.

Lemma t_signature p S `{!Stable S} :
  triple S (has_block_signatures w p) (fun b t => (b = false -> clean_seen t p) /\ S t).
Proof. apply t_observe; [done|]. intros b t _ HS. split; [intros ->; by left|by apply stable]. Qed.

(** A command, in order where it is run. *)
Lemma t_run c P R `{!Mono R} :
  (forall t, P t -> event_ok g (Ran c true) t /\ event_ok g (Ran c false) t) -> (forall t, P t -> R t) ->
  triple P (run w c) (fun _ t => (exists t', t = Ran c true :: t' /\ P t') /\ R t).
Proof.
  intros Hok HR s Hs HP. destruct (Hok _ HP). unfold run. destruct (w_run w (dk_tick s) c) as [e|]; cbn.
  - by exists [Ran c false].
  - exists [Ran c true]. split; [done|]. split; [done|]. split; [by eexists|]. by apply mono, HR.
Qed.

Lemma t_or_remove_dir {A} (m : stm Disks FilesystemError A) P Q : triple P m Q -> triple P (or_remove_dir w m) Q.
Proof.
  intros Hm s Hs HP. destruct (Hm s Hs HP) as (ex & Ht & Hsafe & HQ). unfold or_remove_dir.
  destruct (m s) as [s' [a|e]]; cbn in *; exists ex; auto.
Qed.

Lemma t_map_err {A} f (m : stm Disks FilesystemError A) P Q : triple P m Q -> triple P (m_map_err f m) Q.
Proof.
  intros Hm s Hs HP. destruct (Hm s Hs HP) as (ex & Ht & Hsafe & HQ). unfold m_map_err.
  destruct (m s) as [s' [a|e]]; cbn in *; exists ex; auto.
Qed.
End Triples.
