(* ===== verification/FsSafety.v ===== *)
(** * The operations on block devices are safe

    The steps of [fs.create] and [device.wipe] one by one, then the theorems. *)

From Stdlib Require Import ZArith Lia Ascii String.
From stdpp Require Import base list gmap strings relations.
From S2P Require Import Prelude.
From S2P Require Import RustStr.
From S2P Require Import BlockDev.
From S2P Require Import BlockProps.
From S2P Require Import FsCreate.
From S2P Require Import FsProps.

Section Steps.
Context (json : string -> result JValue string) (w : World) (g : Grants).

Abbreviation triple := (triple g).

Lemma t_each {A} (f : A -> stm Disks FilesystemError unit) (l : list A) P :
  (forall x, x ∈ l -> triple P (f x) (fun _ t => P t)) -> triple P (each f l) (fun _ t => P t).
Proof.
  induction l as [|x l IH]; intros H; cbn; [by apply t_ret|].
  eapply t_bind; [apply H; by left|]. intros ?. apply IH. intros y Hy. apply H. by right.
Qed.

(** A loop of observations that establishes a fact for each element. *)
Lemma t_each_acc {A} (f : A -> stm Disks FilesystemError unit) (X : A -> trace -> Prop) (base : trace -> Prop) (l : list A) :
  (forall x, Stable (X x)) ->
  (forall x S, x ∈ l -> Stable S -> (forall t, S t -> base t) -> triple S (f x) (fun _ t => X x t /\ S t)) ->
  forall S, Stable S -> (forall t, S t -> base t) -> triple S (each f l) (fun _ t => Forall (fun x => X x t) l /\ S t).
Proof.
  intros HX. induction l as [|x l IH]; intros H S HS Hb; cbn.
  - apply t_ret. intros t Ht. split; [constructor|done].
  - eapply t_bind; [apply H; [by left|done|done]|]. intros ?.
    eapply t_weaken; [apply (IH ltac:(intros; apply H; [by right|done|done]) (fun t => X x t /\ S t))| |].
    + apply _.
    + intros t [_ Ht]. by apply Hb.
    + done.
    + intros _ t (Hl & Hx & Ht). split; [by constructor|done].
Qed.

Lemma t_checked_preparation inv e S `{!Stable S} :
  triple S (checked_preparation w inv e) (fun disk t => S t /\ disk_preparation_snapshot inv disk = Ok e).
Proof.
  unfold checked_preparation. eapply t_bind; [by apply (t_canonical w g _ S)|]. intros p.
  destruct (get_path inv p) as [disk|]; [|apply t_throw].
  eapply t_bind; [apply t_lift|]. intros [|]; [|apply t_throw].
  apply t_ret. intros t [[_ HS] Hm]. split; [done|]. by apply preparation_matches_ok.
Qed.

Lemma t_no_signature p e S `{!Stable S} :
  triple S (no_signature w p e) (fun _ t => clean_seen t p /\ S t).
Proof.
  unfold no_signature. eapply t_bind; [by apply (t_signature w g _ S)|].
  intros [|]; [apply t_throw|]. apply t_ret. intros t [Hc HS]. split; [by apply Hc|done].
Qed.

(** ** Sources *)

Lemma t_revalidate_source inv swaps tg S `{!Stable S} :
  triple S (revalidate_source w inv swaps tg) (fun _ t => S t).
Proof.
  destruct tg as [spec i prep|spec parent n f l p]; unfold revalidate_source.
  - eapply t_bind; [apply t_lift|]. intros c. destruct prep as [e|].
    + eapply t_bind; [apply (t_checked_preparation inv e _)|]. intros d.
      destruct (node_usage_error inv c swaps true false); [apply t_throw|]. apply t_ret. naive_solver.
    + eapply t_bind; [apply t_lift|]. intros [].
      eapply t_weaken; [apply (t_no_signature _ _ S)| |]; naive_solver.
  - eapply t_bind; [apply t_lift|]. intros c.
    apply t_lift_post. naive_solver.
Qed.

Lemma t_revalidate_sources ts R `{!Mono R} :
  triple R (revalidate_create_sources json w ts) (fun _ t => R t).
Proof.
  unfold revalidate_create_sources. eapply t_bind; [by apply t_inventory|]. intros inv.
  eapply t_bind; [eapply t_weaken; [apply (t_swaps w g inv R)| |]; [naive_solver|]|].
  { intros swaps t H. exact (proj2 (proj2 H)). }
  intros swaps. apply t_each. intros tg _. apply t_revalidate_source, _.
Qed.

(** ** Partitions *)

Lemma u64_checked_mul_ok a b e r : u64_checked_mul a b e = Ok r -> r = a * b.
Proof. unfold u64_checked_mul. destruct (_ <=? _); congruence. Qed.

Lemma verify_created_ok inv parent n f l p i :
  verify_created_partition inv parent n f l p = Ok i ->
  exists node, get_path inv p = Some node /\ i = pd_identity node /\ carved parent n f l i.
Proof.
  unfold verify_created_partition. destruct (get_path inv p) as [node|]; [|done]. intros H.
  apply result_bind_ok in H as (sz & Hsz & H). apply result_bind_ok in H as (st & Hst & H).
  destruct (_ && _) eqn:E; [|done]. injection H as <-. bool_hyps.
  repeat match goal with H : bool_decide _ = true |- _ => apply bool_decide_eq_true in H end.
  apply u64_checked_mul_ok in Hsz. apply u64_checked_mul_ok in Hst. exists node. unfold carved. split_and!; try done; congruence.
Qed.

(** What the plan knows of a target. *)
Definition target_meant (t : trace) (tg : CreateTargetPlan) : Prop :=
  match tg with
  | Existing _ i prep =>
      exists node, requested g t node /\ pd_identity node = i /\
        (forall e, prep = Some e -> e ∈ gr_confirmed g /\
           exists spec, spec ∈ gr_devices g /\ SawPath (fst (split_free (ds_path spec))) (dp_path e) ∈ t)
  | FreeSpace _ parent n f l _ =>
      exists node used, requested g t node /\ pd_identity node = parent /\
        SawFree (pd_path node) f l used ∈ t /\ (n ∉ used) /\ f <= l
  end.

#[local] Instance mono_target_meant tg : Mono (fun t => target_meant t tg).
Proof.
  intros e t. destruct tg as [spec i prep|spec parent n f l p]; cbn.
  - intros (node & Hr & Hi & He). exists node. split; [by apply mono_requested|]. split; [done|].
    intros x Hx. destruct (He x Hx) as (Hc & spec' & Hs & Hp). split; [done|]. exists spec'. split; [done|by right].
  - intros (node & used & Hr & Hi & Hs & Hn). exists node, used.
    split; [by apply mono_requested|]. split; [done|]. split; [by right|done].
Qed.

(** The partition a target asked for has been made. *)
Definition target_made (t : trace) (tg : CreateTargetPlan) : Prop :=
  target_meant t tg /\
  match tg with
  | Existing _ _ _ => True
  | FreeSpace _ parent n f l _ => made_on t parent n f l
  end.

#[local] Instance mono_target_made tg : Mono (fun t => target_made t tg).
Proof.
  intros e t [H1 H2]. split; [by apply mono_target_meant|]. destruct tg; [done|]. by apply mono_made_on.
Qed.

Lemma t_wait_created looks parent n f l p R `{!Mono R} :
  triple R (wait_created json w looks parent n f l p) (fun i t => carved parent n f l i /\ R t).
Proof.
  induction looks as [|looks IH]; cbn; [apply t_throw|].
  eapply t_bind; [by apply t_inventory|]. intros inv. case_bool_decide.
  - apply t_lift_post. intros i t Hv (_ & _ & HR). split; [|done].
    by apply verify_created_ok in Hv as (node & _ & _ & Hc).
  - eapply t_weaken; [apply IH| |]; naive_solver.
Qed.

Lemma t_run_end c P R `{!Mono R} :
  (forall t b, P t -> event_ok g (Ran c b) t) -> (forall t, P t -> R t) -> triple P (run w c) (fun _ t => R t).
Proof.
  intros H HR. eapply t_weaken; [apply (t_run w g c P R)| |]; [auto|auto|done|]. intros [] t [_ H']. exact H'.
Qed.

(** A command no rule restricts. *)
Lemma t_run_free c R `{!Mono R} :
  (forall t b, event_ok g (Ran c b) t) -> triple R (run w c) (fun _ t => R t).
Proof. intros H. apply t_run_end; auto. Qed.

(** The device of a target, and the partition made for it. *)
Lemma t_realize_target tg R `{!Mono R} :
  triple (fun t => target_meant t tg /\ R t) (realize_target json w tg)
    (fun d t => target_made t tg /\ Forall (fun pi => partition_made g t (snd pi)) (option_list (snd d)) /\ R t).
Proof.
  destruct tg as [spec i prep|spec parent n f l p]; unfold realize_target.
  - eapply t_bind; [apply t_inventory, _|]. intros inv. destruct (get_identity inv i); [|apply t_throw].
    apply t_ret. intros t (_ & _ & Hm & HR). split; [by split|]. split; [constructor|done].
  - eapply t_bind; [apply t_inventory, _|]. intros inv.
    eapply t_bind; [eapply t_weaken; [apply (t_swaps w g inv (fun t =>
      target_meant t (FreeSpace spec parent n f l p) /\ R t))| |]; [naive_solver|intros ?? HQ; exact HQ]|].
    intros swaps. eapply t_bind; [apply t_lift|]. intros d. eapply t_bind; [apply t_lift|]. intros [].
    eapply t_bind.
    { apply (t_run w g _ _ (fun t => target_meant t (FreeSpace spec parent n f l p) /\ R t)); [|naive_solver].
      intros t (((Hv & Hs & (node & used & Hr & Hi & Hfree & Hn & Hfl) & _) & Hid) & Hval).
      apply identity_changed_ok in Hid as [Hget Hd]. apply validate_free_space_spec in Hval.
      assert (partition_ok g t n f l (pd_path d)); [|by split]. exists inv, swaps, d, node.
      unfold get_identity in Hget. rewrite <- Hi in Hget. split_and!; try done; [congruence|by exists used]. }
    intros []. eapply t_bind.
    { apply (t_ignore g _ _ (fun t => (target_made t (FreeSpace spec parent n f l p)) /\ R t)).
      - eapply t_weaken; [apply (t_run_free _ (fun _ => True)); done|done|done].
      - intros t ((t' & -> & ((Hv & _) & Hid) & _) & Hm & HR). split; [|done]. split; [done|].
        apply identity_changed_ok in Hid as [Hget Hd]. by exists [], t', inv, d. }
    intros []. eapply t_bind.
    { apply (t_ignore g _ _ (fun t => (target_made t (FreeSpace spec parent n f l p)) /\ R t)); [|done].
      eapply t_weaken; [apply (t_run_free _ (fun _ => True)); done|done|done]. }
    intros []. eapply t_bind; [apply (t_wait_created 10), _|]. intros i. apply t_ret.
    intros t (Hc & [Hm Hrun] & HR). split; [by split|]. split; [|done]. constructor; [|constructor].
    pose proof Hm as (node & used & Hr & Hi & _). subst parent. by exists node, n, f, l.
Qed.

Lemma t_realize_targets ts R `{!Mono R} :
  triple (fun t => Forall (target_meant t) ts /\ R t) (realize_targets json w ts)
    (fun r t => Forall (target_made t) ts /\ Forall (fun pi => partition_made g t (snd pi)) (snd r) /\ length (fst r) = length ts /\ R t).
Proof.
  revert R Mono0. induction ts as [|tg ts IH]; intros R HR; cbn [realize_targets].
  { apply t_ret. intros t [_ H]. split_and!; [constructor|constructor|done|done]. }
  eapply t_bind.
  { eapply t_weaken; [apply (t_realize_target tg (fun t => Forall (target_meant t) ts /\ R t))| |].
    - intros t [[Ht Hts]%Forall_cons H]. done.
    - intros d t H. exact H. }
  intros d. eapply t_bind.
  { eapply t_weaken; [apply (IH (fun t => target_made t tg /\ Forall (fun pi => partition_made g t (snd pi)) (option_list (snd d)) /\ R t) _)| |].
    - intros t (Ht & Hp & Hts & H). done.
    - intros r t H. exact H. }
  intros r. apply t_ret. intros t (Hts & Hps & Hl & Ht & Hp & H). cbn. split_and!; [by constructor| |lia|done].
  apply Forall_app. done.
Qed.

Lemma t_wipe_created pi R `{!Mono R} :
  triple (fun t => partition_made g t (snd pi) /\ R t) (wipe_created json w pi) (fun _ t => R t).
Proof.
  destruct pi as [path expected]. unfold wipe_created.
  eapply t_bind; [apply t_inventory, _|]. intros inv.
  eapply t_bind; [eapply t_weaken; [apply (t_swaps w g inv (fun t => partition_made g t expected /\ R t))| |];
    [naive_solver|intros ?? HQ; exact HQ]|].
  intros swaps. eapply t_bind; [apply t_lift|]. intros c.
  destruct (node_usage_error inv c swaps true false) eqn:Eu; [apply t_throw|].
  apply t_run_end; [done| |].
  - intros t b ((Hv & Hs & Hmade & _) & Hid). apply identity_changed_ok in Hid as [Hget <-].
    right. right. right. exists inv, swaps, c. split_and!; try done. by apply node_usage_error_None.
  - intros t ((_ & _ & _ & HR) & _). done.
Qed.

Lemma t_wipe_all l R `{!Mono R} :
  triple (fun t => Forall (fun pi => partition_made g t (snd pi)) l /\ R t) (each (wipe_created json w) l) (fun _ t => R t).
Proof.
  revert R Mono0. induction l as [|pi l IH]; intros R HR; cbn [each]; [apply t_ret; naive_solver|].
  eapply t_bind.
  { eapply t_weaken; [apply (t_wipe_created pi (fun t => Forall (fun pi => partition_made g t (snd pi)) l /\ R t))| |].
    - intros t [[H1 H2]%Forall_cons H]. done.
    - intros u t H. exact H. }
  intros u. by apply IH.
Qed.

Lemma t_execute ts R `{!Mono R} :
  triple (fun t => Forall (target_meant t) ts /\ R t) (execute_partition_plan json w ts)
    (fun ds t => Forall (target_made t) ts /\ length ds = length ts /\ R t).
Proof.
  unfold execute_partition_plan. eapply t_bind; [apply t_revalidate_sources, _|]. intros [].
  eapply t_bind; [by apply (t_realize_targets ts R)|]. intros r.
  eapply t_bind.
  { eapply t_weaken; [apply (t_wipe_all (snd r) (fun t => Forall (target_made t) ts /\ length (fst r) = length ts /\ R t))| |].
    - intros t (H1 & H2 & H3 & H4). done.
    - intros u t H. exact H. }
  intros []. by apply t_ret.
Qed.

(** ** Targets *)

Lemma made_meant t tg inv node device :
  target_made t tg ->
  match tg with
  | Existing _ i _ => pd_identity node = i
  | FreeSpace _ parent n f l path =>
      path = ds_path device /\ exists i, verify_created_partition inv parent n f l path = Ok i
  end -> get_path inv (ds_path device) = Some node -> meant g t (pd_identity node).
Proof.
  destruct tg as [spec i prep|spec parent n f l path]; intros [Hm Hmade] Hid Hget.
  - destruct Hm as (node0 & Hr & Hi & _). left. exists node0. split; [done|]. congruence.
  - destruct Hm as (node0 & used & Hr & Hi & _), Hid as [-> [i Hv]].
    apply verify_created_ok in Hv as (node' & Hget' & -> & Hc). simplify_eq. right. by exists node0, n, f, l.
Qed.

Lemma t_revalidate_target inv swaps td S `{!Stable S} :
  (forall t, S t -> view t = Some inv /\ swaps_seen t = Some swaps /\ target_made t (fst td)) ->
  triple S (revalidate_target w inv swaps td) (fun _ t => format_ok g t (ds_path (snd td)) /\ S t).
Proof.
  intros HS. destruct td as [tg device]. cbn [fst snd] in *. unfold revalidate_target.
  destruct (get_path inv (ds_path device)) as [node|] eqn:Eg; [|apply t_throw].
  eapply (t_bind g _ _ _ (fun _ t => match tg with
    | Existing _ i _ => pd_identity node = i
    | FreeSpace _ parent n f l path =>
        path = ds_path device /\ exists i, verify_created_partition inv parent n f l path = Ok i
    end /\ S t)).
  { destruct tg as [spec i prep|spec parent n f l path].
    - eapply t_bind; [apply t_lift|]. intros c. apply t_ret. intros t [H Hc].
      apply identity_changed_ok in Hc as [[= ->] ?]. done.
    - destruct (String.eqb_spec path (ds_path device)) as [Hp|]; cbn [negb]; [|apply t_throw].
      eapply t_bind; [apply t_lift|]. intros c. apply t_ret. intros t [H Hc]. split; [|done]. split; [done|by eexists]. }
  intros u. eapply t_bind; [apply t_lift|]. intros [].
  eapply t_weaken; [apply (t_no_signature _ _ (fun t => (match tg with
    | Existing _ i _ => pd_identity node = i
    | FreeSpace _ parent n f l path =>
        path = ds_path device /\ exists i, verify_created_partition inv parent n f l path = Ok i
    end /\ validate_existing_create_target inv node swaps = Ok tt) /\ S t))| |].
  - naive_solver.
  - intros _ t (Hclean & [Hid Hval] & Ht). split; [|done]. destruct (HS t Ht) as (Hv & Hs & Hm).
    exists inv, swaps, node. split_and!; try done; [by apply validate_existing_spec|].
    by eapply made_meant.
Qed.

Lemma t_revalidate_targets ts ds R `{!Mono R} :
  length ds = length ts ->
  triple (fun t => Forall (target_made t) ts /\ R t) (revalidate_create_targets json w ts ds)
    (fun _ t => Forall (fun d => format_ok g t (ds_path d)) ds /\ R t).
Proof.
  intros Hlen. unfold revalidate_create_targets. eapply t_bind; [apply t_inventory, _|]. intros inv.
  eapply t_bind; [eapply t_weaken; [apply (t_swaps w g inv (fun t => Forall (target_made t) ts /\ R t))| |];
    [naive_solver|intros ?? HQ; exact HQ]|].
  intros swaps. eapply t_weaken; [apply (t_each_acc _ (fun td t => format_ok g t (ds_path (snd td)))
    (fun t => view t = Some inv /\ swaps_seen t = Some swaps /\ Forall (target_made t) ts))| |].
  - apply _.
  - intros [tg d] S Hin HS Hb. apply t_revalidate_target; [done|]. intros t Ht. destruct (Hb t Ht) as (? & ? & Hts).
    split_and!; [done..|]. rewrite Forall_forall in Hts. apply Hts. cbn. by apply elem_of_zip_l in Hin.
  - apply (stable_and _ _ (stable_view inv) (stable_and _ _ (stable_swaps swaps)
      (mono_stable (fun t => Forall (target_made t) ts /\ R t) _))).
  - naive_solver.
  - naive_solver.
  - intros u t (HF & _ & _ & _ & HR). split; [|done]. apply Forall_forall. intros d [i Hi]%list_elem_of_lookup.
    destruct (lookup_lt_is_Some_2 ts i) as [tg Htg]; [rewrite <- Hlen; by eapply lookup_lt_Some|].
    rewrite Forall_forall in HF. apply (HF (tg, d)). apply list_elem_of_lookup. exists i.
    rewrite lookup_zip_with, Htg. cbn. by rewrite Hi.
Qed.

(** ** Erasing confirmed disks *)

Lemma t_confirmed_disk e R `{!Mono R} :
  triple R (confirmed_disk json w e) (fun iv t => disk_confirmed e iv t /\ R t).
Proof.
  unfold confirmed_disk. eapply t_bind; [by apply t_inventory|]. intros inv.
  eapply t_bind; [eapply t_weaken; [apply (t_swaps w g inv R)| |]; [naive_solver|intros ?? HQ; exact HQ]|].
  intros swaps. eapply t_bind; [by apply (t_registered w g inv swaps R)|]. intros reg.
  eapply t_bind; [apply t_lift|]. intros disk. eapply t_bind; [apply t_lift|]. intros []. apply t_ret.
  intros t (((Hv & Hs & Hr & HR) & Hid) & Hval). split; [|done].
  apply identity_changed_ok in Hid as [Hget Hid]. apply validate_preparation_spec in Hval.
  exists swaps, reg. done.
Qed.

Lemma t_wipe_child e child R `{!Mono R} :
  e ∈ gr_confirmed g -> child ∈ dp_children e ->
  triple R (wipe_child json w e child) (fun _ t => R t).
Proof.
  intros He Hc. destruct child as [[path i] fs]. unfold wipe_child.
  eapply t_bind; [by apply (t_confirmed_disk e R)|]. intros iv. eapply t_bind; [apply t_lift|]. intros c.
  case_bool_decide as Hfs; [|apply t_throw]. apply t_run_end; [done| |naive_solver].
  intros t b ((Hd & _) & Hid). apply identity_changed_ok in Hid as [Hget <-]. cbn.
  right. left. exists e, iv, c. split_and!; try done. by rewrite Hfs.
Qed.

Lemma t_wait_clean looks e R `{!Mono R} : triple R (wait_clean json w looks e) (fun _ t => R t).
Proof.
  induction looks as [|looks IH]; cbn [wait_clean]; [apply t_throw|].
  eapply t_bind; [by apply t_inventory|]. intros inv.
  assert (triple (fun t => view t = Some inv /\ SawInventory inv ∈ t /\ R t) (wait_clean json w looks e) (fun _ t => R t)) as IH'
    by (eapply t_weaken; [exact IH|naive_solver|done]).
  destruct (get_path inv (dp_path e)) as [disk|]; [|done].
  destruct (_ && _ && _); [|done].
  eapply t_bind; [eapply t_weaken; [apply (t_signature w g (pd_path disk) R)|naive_solver|intros ?? HQ; exact HQ]|].
  intros [|]; [|apply t_ret; naive_solver].
  eapply t_weaken; [exact IH|naive_solver|done].
Qed.

Lemma t_prepare e R `{!Mono R} :
  e ∈ gr_confirmed g -> triple R (prepare_whole_disk json w e) (fun _ t => R t).
Proof.
  intros He. unfold prepare_whole_disk. eapply t_bind; [by apply t_inventory|]. intros inv.
  eapply t_bind; [eapply t_weaken; [apply (t_swaps w g inv R)| |]; [naive_solver|intros ?? HQ; exact HQ]|].
  intros swaps. eapply t_bind; [by apply (t_registered w g inv swaps R)|]. intros reg.
  eapply t_bind; [apply (t_checked_preparation inv e _)|]. intros disk.
  eapply t_bind; [apply t_lift|]. intros [].
  eapply (t_bind g _ _ _ (fun _ t => R t)).
  { eapply t_weaken; [apply (t_each (wipe_child json w e) (dp_children e) R)| |]; [|naive_solver|done].
    intros child Hc. by apply t_wipe_child. }
  intros []. eapply t_bind; [by apply (t_confirmed_disk e R)|]. intros iv.
  eapply (t_bind g _ _ _ (fun _ t => (disk_confirmed e iv t /\ R t) /\ pd_fs_type (snd iv) = dp_fs_type e)).
  { case_bool_decide; [|apply t_throw]. apply t_ret. done. }
  intros []. eapply t_bind.
  { apply (t_run w g _ _ R); [|naive_solver]. intros t ((Hd & HR) & Hfs).
    assert (disk_wipe_ok g t (dp_path e)) by (by exists e, iv). by split; left. }
  intros []. eapply t_bind.
  { apply (t_ignore g _ _ R); [|naive_solver].
    eapply t_weaken; [apply (t_run_end (CZap (dp_path e)) (fun t => exists t', t = Ran (CWipefs (dp_path e)) true :: t' /\ disk_wipe_ok g t' (dp_path e)) (fun _ => True))| |];
      [done|done| |done].
    intros t ((t' & -> & (Hd & _) & Hfs) & _). exists t'. split; [done|]. by exists e, iv. }
  intros []. eapply t_bind; [by apply (t_run_free _ R)|]. intros [].
  eapply t_bind; [apply (t_ignore g _ _ R); [eapply t_weaken; [by apply (t_run_free CSettle R)|done|done]|done]|].
  intros []. by apply t_wait_clean.
Qed.

Lemma t_prepare_target tg R `{!Mono R} :
  triple (fun t => target_meant t tg /\ R t) (prepare_target json w tg) (fun tg' t => target_meant t tg' /\ R t).
Proof.
  unfold prepare_target. destruct tg as [spec i [e|]|spec parent n f l p]; [|by apply t_ret..].
  intros s Hs [Hm HR]. pose proof Hm as (node & Hr & Hi & He). destruct (He e eq_refl) as (Hc & spec' & Hspec & Hpath).
  clear He Hm Hr. revert s Hs HR Hpath.
  enough (triple (fun t => SawPath (fst (split_free (ds_path spec'))) (dp_path e) ∈ t /\ R t)
    (or_remove_dir w (prepare_whole_disk json w e) ;;;
      inv <~ read_block_inventory json w ;;
      match get_path inv (dp_path e) with
      | Some node => m_ret (Existing spec (pd_identity node) None)
      | None => m_throw (DeviceNotFound (dp_path e))
      end) (fun tg' t => target_meant t tg' /\ R t)) as H by (intros s Hs HR Hp; by apply H).
  eapply t_bind; [apply t_or_remove_dir, (t_prepare e _ Hc)|]. intros [].
  eapply t_bind; [apply t_inventory, _|]. intros inv. destruct (get_path inv (dp_path e)) as [node'|] eqn:Eg; [|apply t_throw].
  apply t_ret. intros t (_ & Hinv & Hp & HR). split; [|done]. exists node'. split_and!; [|done|done].
  exists spec', (dp_path e), inv. done.
Qed.

Lemma t_prepare_targets ts R `{!Mono R} :
  triple (fun t => Forall (target_meant t) ts /\ R t) (prepare_targets json w ts)
    (fun ts' t => Forall (target_meant t) ts' /\ R t).
Proof.
  revert R Mono0. induction ts as [|tg ts IH]; intros R HR; cbn [prepare_targets]; [by apply t_ret|].
  eapply t_bind.
  { eapply t_weaken; [apply (t_prepare_target tg (fun t => Forall (target_meant t) ts /\ R t))| |].
    - intros t [[H1 H2]%Forall_cons H]. done.
    - intros tg' t H. exact H. }
  intros tg'. eapply t_bind.
  { eapply t_weaken; [apply (IH (fun t => target_meant t tg' /\ R t) _)| |]; [naive_solver|intros ?? HQ; exact HQ]. }
  intros ts'. apply t_ret. intros t (H1 & H2 & H3). split; [by constructor|done].
Qed.

(** ** Planning *)

Definition resolved_ok (t : trace) (r : Resolved) : Prop :=
  exists path inv, rs_spec r ∈ gr_devices g /\ SawPath (fst (split_free (ds_path (rs_spec r)))) path ∈ t /\
    SawInventory inv ∈ t /\ get_path inv path = Some (rs_node r) /\
    forall e, rs_prepare r = Some e -> e ∈ gr_confirmed g /\ dp_path e = path.

#[local] Instance mono_resolved_ok r : Mono (fun t => resolved_ok t r).
Proof.
  intros e t (path & inv & H1 & H2 & H3 & H4 & H5). exists path, inv. split_and!; [done|by right|by right|done|done].
Qed.

Lemma resolved_requested t r : resolved_ok t r -> requested g t (rs_node r).
Proof. intros (path & inv & H1 & H2 & H3 & H4 & _). by exists (rs_spec r), path, inv. Qed.

(** The confirmations, under their own paths. *)
Definition confirmed_map (m : gmap string DiskPreparation) : Prop :=
  forall k e, m !! k = Some e -> dp_path e = k /\ e ∈ gr_confirmed g.

Lemma confirmations_ok ps m m' :
  (forall e, e ∈ ps -> e ∈ gr_confirmed g) -> confirmed_map m -> confirmations ps m = Ok m' -> confirmed_map m'.
Proof.
  revert m. induction ps as [|p ps IH]; intros m Hps Hm; cbn; [by intros [= <-]|].
  destruct (m !! dp_path p); [done|]. apply IH; [intros; apply Hps; by right|].
  intros k e [[<- <-]|[_ H]]%lookup_insert_Some; [|by apply Hm]. split; [done|]. apply Hps. by left.
Qed.

Lemma t_resolve_device inv swaps reg m spec R `{!Mono R} :
  spec ∈ gr_devices g -> confirmed_map m -> (forall t, R t -> SawInventory inv ∈ t) ->
  triple R (resolve_device w inv swaps reg m spec)
    (fun r t => resolved_ok t (fst r) /\ confirmed_map (snd r) /\ R t).
Proof.
  intros Hspec Hm Hinv. unfold resolve_device. destruct (split_free (ds_path spec)) as [raw free] eqn:Es.
  eapply t_bind; [by apply (t_canonical w g raw R)|]. intros path.
  destruct (get_path inv path) as [node|] eqn:Eg; [|apply t_throw].
  eapply (t_bind g _ _ _ (fun _ t => SawPath raw path ∈ t /\ R t)).
  { destruct free, (m !! path) as [e|].
    - apply t_throw.
    - apply t_lift_post. naive_solver.
    - eapply t_bind; [apply (t_checked_preparation inv e _)|]. intros d. apply t_lift_post. naive_solver.
    - eapply t_bind; [apply t_lift|]. intros []. eapply t_bind.
      { eapply t_weaken; [apply (t_signature w g (pd_path node) (fun t => SawPath raw path ∈ t /\ R t))|naive_solver|].
        intros b t [_ H]. exact H. }
      intros [|]; [apply t_throw|by apply t_ret]. }
  intros []. apply t_ret. intros t [Hp HR]. cbn. split_and!; [| |done].
  - exists path, inv. cbn. rewrite Es. split_and!; [done|done|by apply Hinv|done|].
    intros e He. destruct (Hm path e He). done.
  - intros k e [_ H]%lookup_delete_Some. by apply Hm.
Qed.

Lemma t_resolve_all inv swaps reg specs m R `{!Mono R} :
  (forall x, x ∈ specs -> x ∈ gr_devices g) -> confirmed_map m -> (forall t, R t -> SawInventory inv ∈ t) ->
  triple R (resolve_all w inv swaps reg m specs) (fun r t => Forall (resolved_ok t) (fst r) /\ R t).
Proof.
  revert m R Mono0. induction specs as [|spec specs IH]; intros m R HR Hs Hm Hinv; cbn [resolve_all].
  { apply t_ret. intros t H. split; [constructor|done]. }
  eapply t_bind; [apply (t_resolve_device inv swaps reg m spec R); [apply Hs; by left|done|done]|]. intros r.
  eapply t_bind.
  { intros s Hsafe (H1 & H2 & H3).
    assert (triple (fun t => resolved_ok t (fst r) /\ R t) (resolve_all w inv swaps reg (snd r) specs)
      (fun q t => Forall (resolved_ok t) (fst q) /\ resolved_ok t (fst r) /\ R t)) as H.
    { apply (IH (snd r) (fun t => resolved_ok t (fst r) /\ R t) _); [intros; apply Hs; by right|done|naive_solver]. }
    exact (H s Hsafe (conj H1 H3)). }
  intros q. apply t_ret. intros t (H1 & H2 & H3). split; [by constructor|done].
Qed.

Lemma t_sgdisk arg P : triple P (sgdisk w arg) (fun _ t => P t).
Proof. apply t_ask_quiet. Qed.

Lemma find_slot_ok (used : gset Z) n :
  find_first (fun n => negb (bool_decide (n ∈ used))) (Z.of_nat <$> seq 1 128) = Some n -> n ∉ used.
Proof. intros [_ H]%find_first_Some. apply negb_true_iff, bool_decide_eq_false in H. done. Qed.

Lemma free_partition_ok disk first last_ used n f l p :
  free_partition disk first last_ used = Ok (n, f, l, p) -> f = first /\ l = last_ /\ (n ∉ used) /\ f <= l.
Proof.
  unfold free_partition. destruct (negb _) eqn:E1; [|done]. intros H.
  apply result_bind_ok in H as (bytes & _ & H). destruct (negb (bytes <? _)); [|done].
  destruct (find_first _ _) as [k|] eqn:Ef; [|done]. injection H as -> -> -> <-.
  apply find_slot_ok in Ef. bool_hyps. done.
Qed.

Lemma t_plan_target r R `{!Mono R} :
  triple (fun t => resolved_ok t r /\ R t) (plan_target w r) (fun tg t => target_meant t tg /\ R t).
Proof.
  unfold plan_target. destruct (rs_free r).
  - unfold plan_free_partition. destruct (_ || _); [apply (t_bind g _ _ _ (fun _ _ => False)); [apply t_throw|by intros ? s Hs []]|].
    eapply (t_bind g _ _ _ (fun q t => (let '(n, f, l, p) := q in exists used,
       SawFree (pd_path (rs_node r)) f l used ∈ t /\ (n ∉ used) /\ f <= l) /\ resolved_ok t r /\ R t)).
    + do 3 (eapply t_bind; [apply t_sgdisk|]; intros ?).
      eapply t_bind; [apply t_lift|]. intros f. eapply t_bind; [apply t_lift|]. intros l.
      eapply (t_bind g _ _ _ (fun _ t => SawFree (pd_path (rs_node r)) f l (parse_sgdisk_partition_numbers a1) ∈ t /\
        resolved_ok t r /\ R t)).
      { intros s Hs [[[Hr HR] _] _]. exists [SawFree (pd_path (rs_node r)) f l (parse_sgdisk_partition_numbers a1)].
        cbn. split; [done|]. split; [done|]. split; [by left|]. split; [by apply mono_resolved_ok|by apply mono]. }
      intros []. apply t_lift_post. intros [[[n f'] l'] p] t Hf (Hs & H).
      apply free_partition_ok in Hf as (-> & -> & Hn & Hle). split; [|done]. by eexists.
    + intros [[[n f] l] p]. apply t_ret. intros t ((used & Hs & Hn & Hle) & Hr & HR). split; [|done].
      exists (rs_node r), used. split_and!; [by apply resolved_requested|done..].
  - apply t_ret. intros t [Hr HR]. split; [|done]. exists (rs_node r). split_and!; [by apply resolved_requested|done|].
    intros e He. destruct Hr as (path & inv & H1 & H2 & _ & _ & H5). destruct (H5 e He) as [Hc ->].
    split; [done|]. by exists (rs_spec r).
Qed.

Lemma t_plan_targets rs R `{!Mono R} :
  triple (fun t => Forall (resolved_ok t) rs /\ R t) (plan_targets w rs)
    (fun ts t => Forall (target_meant t) ts /\ R t).
Proof.
  revert R Mono0. induction rs as [|r rs IH]; intros R HR; cbn [plan_targets]; [apply t_ret; intros t [_ H]; by split|].
  eapply t_bind.
  { eapply t_weaken; [apply (t_plan_target r (fun t => Forall (resolved_ok t) rs /\ R t))| |].
    - intros t [[H1 H2]%Forall_cons H]. done.
    - intros tg t H. exact H. }
  intros tg. eapply t_bind.
  { eapply t_weaken; [apply (IH (fun t => target_meant t tg /\ R t) _)| |]; [naive_solver|intros ?? HQ; exact HQ]. }
  intros ts. apply t_ret. intros t (H1 & H2 & H3). split; [by constructor|done].
Qed.

Lemma t_build_plan req reg :
  gr_devices g = cr_devices req -> gr_confirmed g = cr_prepare_disks req ->
  triple (fun _ => True) (build_create_plan json w req reg)
    (fun plan t => Forall (target_meant t) (pl_targets plan) /\ pl_request plan = req).
Proof.
  intros Hgd Hgc. unfold build_create_plan. eapply t_bind; [apply t_lift|]. intros [].
  eapply (t_bind g _ _ _ (fun _ _ => True)).
  { unfold check_tpm_request. repeat case_bool_decide; cbn [negb]; try apply t_throw; try by apply t_ret.
    eapply t_bind; [apply t_ask|]. intros [|]; [by apply t_ret|apply t_throw]. }
  intros []. eapply t_bind; [apply t_inventory, _|]. intros inv.
  eapply t_bind; [eapply t_weaken; [apply (t_swaps w g inv (elem_of (SawInventory inv)))| |]; [naive_solver|intros ?? HQ; exact HQ]|].
  intros swaps. eapply t_bind; [apply t_lift|]. intros m.
  eapply (t_bind g _ _ _ (fun r t => Forall (resolved_ok t) (fst r) /\ SawInventory inv ∈ t)).
  { intros s Hs [(_ & _ & Hi) Hm].
    apply (t_resolve_all inv swaps reg (cr_devices req) m (elem_of (SawInventory inv))); try done.
    - intros x Hx. by rewrite Hgd.
    - eapply confirmations_ok; [|intros k e; by rewrite lookup_empty|exact Hm]. intros e He. by rewrite Hgc. }
  intros [rs m']. cbn [fst snd]. destruct (map_to_list m') as [|[path ?] ?]; [|apply t_throw].
  eapply t_bind; [apply t_lift|]. intros [].
  eapply t_bind; [eapply t_weaken; [apply (t_plan_targets rs (fun _ => True))|naive_solver|intros ?? HQ; exact HQ]|].
  intros ts. apply t_ret. cbn. naive_solver.
Qed.

(** ** The operations *)

Lemma t_reserve mp name P : triple P (reserve_create_mount_point w mp name) (fun _ t => P t).
Proof.
  unfold reserve_create_mount_point. eapply t_bind; [apply t_ask|]. intros []; try (by apply t_lift_post).
  eapply t_bind; [apply t_ask|]. intros []; try (by apply t_lift_post).
  eapply t_bind; [apply t_ask_quiet|]. intros [|]; cbn [negb]; [|apply t_throw].
  eapply t_bind; [apply t_ask|]. intros [|]; [apply t_throw|].
  eapply t_bind; [apply t_ask|]. intros []; try (by apply t_lift_post); try apply t_throw;
    (eapply t_bind; [apply t_ask|]; intros []; try (by apply t_lift_post); apply t_throw).
Qed.

Lemma t_verify_reserved mp P : triple P (verify_create_mount_point_reserved w mp) (fun _ t => P t).
Proof.
  unfold verify_create_mount_point_reserved. eapply t_bind; [apply t_ask_quiet|]. intros b.
  eapply (t_bind g _ _ _ (fun _ t => P t)); [destruct b; [apply t_ask|by apply t_ret]|].
  intros [|]; [apply t_throw|]. eapply t_bind; [apply t_ask_quiet|]. intros [|]; [by apply t_ret|apply t_throw].
Qed.

Lemma t_format req ds :
  triple (fun t => Forall (fun d => format_ok g t (ds_path d)) ds) (format_devices w req ds) (fun _ _ => True).
Proof.
  unfold format_devices. eapply (t_bind g _ _ _ (fun _ _ => True)).
  { intros s Hs HF. eexists [_]. cbn. split; [done|]. by split. }
  intros []; [by apply t_ret|apply t_or_remove_dir, t_throw|].
  eapply t_bind; [apply t_ask|]. intros [|]; [by apply t_ret|apply t_or_remove_dir, t_throw].
Qed.

Definition anything (t : trace) : Prop := True.

Lemma t_mount_created req ds mp uuid :
  triple anything (mount_created w req ds mp uuid) (fun _ => anything).
Proof.
  unfold mount_created. eapply t_bind; [by apply (t_run_free _ anything)|]. intros [].
  eapply t_bind; [apply t_ask|]. intros o. case_bool_decide; [by apply t_ret|].
  intros s Hs _. destruct (t_run_free (CUmount mp) anything ltac:(done) s Hs I) as (ex & Ht & Hsafe & _).
  destruct (run w (CUmount mp) s) as [s' r]. by exists ex.
Qed.

Lemma t_create req :
  gr_devices g = cr_devices req -> gr_confirmed g = cr_prepare_disks req ->
  triple anything (create_locked json w req) (fun _ => anything).
Proof.
  intros Hd Hc. unfold create_locked.
  eapply t_bind; [apply (t_observe g _ _ _ (fun _ _ => True)); done|]. intros reg.
  eapply t_bind; [by apply t_build_plan|]. intros plan.
  eapply (t_bind g _ _ _ (fun _ t => Forall (target_meant t) (pl_targets plan))).
  { intros s Hs [H _]. by exists []. }
  intros s. case_bool_decide; [apply t_throw|].
  eapply t_bind; [apply t_reserve|]. intros []. eapply t_bind; [apply t_or_remove_dir, t_revalidate_sources, _|]. intros [].
  eapply t_bind; [eapply t_weaken; [apply (t_prepare_targets (pl_targets plan) (fun _ => True))|done|intros ?? HQ; exact HQ]|].
  intros ts. eapply t_bind; [apply t_or_remove_dir, t_execute, _|]. intros ds.
  eapply (t_bind g _ _ _ (fun _ t => Forall (fun d => format_ok g t (ds_path d)) ds)).
  { intros s' Hs' (Hm & Hl & _).
    assert (triple (fun t => Forall (target_made t) ts /\ True) (or_remove_dir w (revalidate_create_targets json w ts ds))
      (fun _ t => Forall (fun d => format_ok g t (ds_path d)) ds)) as Hrt; [|by apply Hrt].
    apply t_or_remove_dir. eapply t_weaken; [apply (t_revalidate_targets ts ds (fun _ => True) Hl)|done|naive_solver]. }
  intros []. eapply t_bind; [apply t_verify_reserved|]. intros [].
  eapply t_bind; [apply t_format|]. intros [].
  eapply (t_bind g _ _ _ (fun _ _ => True)).
  { unfold store_key. destruct (_ && _); [|by apply t_ret]. eapply t_weaken; [apply (t_ask_quiet g _ anything)|done|done]. }
  intros []. eapply t_bind; [apply t_ask|]. intros id. destruct (id ≫= non_empty) as [uuid|]; [|apply t_throw].
  eapply (t_bind g _ _ _ (fun _ => anything)).
  { eapply t_weaken; [apply (t_each _ _ anything)|done|done]. intros p _.
    eapply t_bind; [apply t_ask|]. intros o. case_bool_decide; [by apply t_ret|apply t_throw]. }
  intros []. eapply (t_bind g _ _ _ (fun _ => anything)).
  { unfold unlock_created. destruct (encrypted _); [|by apply t_ret]. eapply t_bind; [apply t_ask_quiet|].
    intros [k|]; [by apply (t_run_free _ anything)|]. destruct (cr_passphrase _); [by apply (t_run_free _ anything)|by apply t_ret]. }
  intros []. eapply t_bind; [apply t_mount_created|]. intros [].
  eapply (t_bind g _ _ _ (fun _ => anything)).
  { unfold save_fs_mounted_with_opts. eapply t_bind; [apply t_ask|]. intros [|]; [|by apply t_ret].
    intros s' Hs' _. by exists []. }
  intros []. eapply (t_bind g _ _ _ (fun _ => anything)); [|intros []; by apply t_ret].
  unfold bind_tpm. case_bool_decide; [|by apply t_ret]. eapply t_bind; [apply t_ask|]. intros [|]; [apply t_throw|by apply t_ret].
Qed.

Lemma t_device_wipe path expected :
  path ∈ gr_parts g -> (forall e, expected = Some e -> e ∈ gr_confirmed g) ->
  triple anything (device_wipe json w path expected) (fun _ => anything).
Proof.
  intros Hp He. unfold device_wipe. eapply t_bind; [apply (t_canonical w g path anything)|]. intros c.
  eapply t_bind; [apply t_inventory, _|]. intros inv. destruct (get_path inv c) as [node|]; [|apply t_throw].
  destruct (String.eqb (id_dev_type (pd_identity node)) "disk").
  { destruct expected as [e|]; [|apply t_throw]. destruct (negb _); [apply t_throw|].
    apply t_map_err. eapply t_weaken; [apply (t_prepare e anything); by apply He|done|done]. }
  destruct (String.eqb_spec (id_dev_type (pd_identity node)) "part") as [Hty|]; [|apply t_throw].
  eapply t_bind; [eapply t_weaken; [apply (t_swaps w g inv (elem_of (SawPath path c)))|naive_solver|intros ?? HQ; exact HQ]|].
  intros swaps. eapply t_bind; [apply (t_registered w g inv swaps (elem_of (SawPath path c)))|]. intros reg.
  eapply t_bind; [apply t_lift|]. intros [].
  eapply t_bind; [eapply t_weaken; [apply (t_inventory json w g (elem_of (SawPath path c)))|naive_solver|intros ?? HQ; exact HQ]|].
  intros inv2. eapply t_bind; [eapply t_weaken; [apply (t_swaps w g inv2 (elem_of (SawPath path c)))|naive_solver|intros ?? HQ; exact HQ]|].
  intros swaps2. eapply t_bind; [apply (t_registered w g inv2 swaps2 (elem_of (SawPath path c)))|]. intros reg2.
  eapply t_bind; [apply t_lift|]. intros n2. eapply t_bind; [apply t_lift|]. intros [].
  apply t_run_end; [apply _| |done].
  intros t b (((Hv & Hs & Hr & Hpath) & Hid) & Hval). apply identity_changed_ok in Hid as [Hget Hid].
  apply validate_preparation_spec in Hval. right. right. left.
  exists inv2, swaps2, n2, reg2, path. split_and!; try done. congruence.
Qed.
End Steps.

(** ** The inventory sees everything that stands on a device *)

Lemma with_holders_ok holders inv0 inv :
  with_holders holders inv0 = Ok inv ->
  bi_paths inv = bi_paths inv0 /\
  (forall d n, bi_devices inv !! d = Some n -> exists n0 h, bi_devices inv0 !! d = Some n0 /\
     holders (id_devno (pd_identity n0)) = Ok h /\ n = add_holders h n0) /\
  (forall d n0, bi_devices inv0 !! d = Some n0 -> is_Some (bi_devices inv !! d)).
Proof.
  unfold with_holders. destruct (find_map _ _) as [e|] eqn:E; [done|]. intros [= <-]. cbn.
  rewrite find_map_None in E. split_and!; [done| |].
  - intros d n Hn. rewrite lookup_fmap in Hn. apply fmap_Some in Hn as (n0 & H0 & ->).
    specialize (E (d, n0)). cbn in E. destruct (holders (id_devno (pd_identity n0))) as [h|e] eqn:Eh.
    + by exists n0, h.
    + discriminate E. by apply elem_of_map_to_list.
  - intros d n0 H0. rewrite lookup_fmap, H0. by eexists.
Qed.

Lemma with_holders_inventory holders inv0 inv :
  with_holders holders inv0 = Ok inv -> inventory_ok inv0 -> inventory_ok inv.
Proof.
  intros (Hp & Hd & Hk)%with_holders_ok [K P N C]. split.
  - intros d n Hn. destruct (Hd d n Hn) as (n0 & h & H0 & _ & ->). cbn. by apply (K d n0).
  - intros x d. rewrite Hp. intros [n0 H0]%P. by apply (Hk _ n0).
  - intros d n pp p Hn. destruct (Hd d n Hn) as (n0 & h & H0 & _ & ->). rewrite Hp. by apply (N d n0).
  - intros d n p m Hn Hpar Hm. destruct (Hd d n Hn) as (n0 & h & H0 & _ & ->).
    destruct (Hd p m Hm) as (m0 & hm & H1 & _ & ->). cbn in *. by eapply C.
Qed.

(** The tree lsblk printed at [t]. *)
Definition lsblk_tree (json : string -> result JValue string) (w : World) (t : nat) : list JValue :=
  match w_lsblk w t with
  | Ok out => match json out with Ok v => roots_of v | Err _ => [] end
  | Err _ => []
  end.

Lemma inventory_at_ok json w t inv :
  inventory_at json w t = Ok inv ->
  inventory_ok inv /\ (forall d n, bi_devices inv !! d = Some n -> pd_holders n = [] -> w_holders w t d = Ok []) /\
  (forall p d m, nested_in (lsblk_tree json w t) p d -> bi_devices inv !! p = Some m -> d ∈ pd_children m) /\
  (forall p d, nested_in (lsblk_tree json w t) p d -> is_Some (bi_devices inv !! d)).
Proof.
  unfold inventory_at, lsblk_tree. destruct (w_lsblk w t) as [out|e]; [|done]. cbn.
  destruct (json out) as [v|e]; [|done]. cbn.
  destruct (parse_lsblk_inventory v) as [inv0|e] eqn:E0; [|done]. cbn. intros Hw.
  pose proof (parse_lsblk_ok _ _ E0) as Hok. pose proof (parse_lsblk_nested _ _ E0) as [Hkid Hdev].
  split; [by eapply with_holders_inventory|]. apply with_holders_ok in Hw as (_ & Hd & Hk). split_and!.
  - intros d n Hn Hh. destruct (Hd d n Hn) as (n0 & h & H0 & Hol & ->). rewrite (io_key _ Hok _ _ H0) in Hol. rewrite Hol. cbn in Hh.
    by apply app_eq_nil in Hh as [_ ->].
  - intros p d m Hn Hm. destruct (Hd p m Hm) as (m0 & h & H0 & _ & ->). exact (Hkid p d m0 Hn H0).
  - intros p d Hn. destruct (Hdev p d Hn) as [n0 H0]. by eapply Hk.
Qed.

(** Device [d] stands on device [p]: some entry of [d] in the tree is right
    below an entry of [p] (a RAID set has an entry below each of its members),
    or the node of [d] names [p] as its parent ([pkname]). *)
Definition stands_on (tree : list JValue) (inv : BlockInventory) (p d : string) : Prop :=
  nested_in tree p d \/
  exists n pp, bi_devices inv !! d = Some n /\ pd_parent_path n = Some pp /\ bi_paths inv !! pp = Some p.

Section StandsOn.
Context (json : string -> result JValue string) (w : World) (t : nat) (inv : BlockInventory).
Context (Hat : inventory_at json w t = Ok inv).

Lemma stands_on_device p d : stands_on (lsblk_tree json w t) inv p d -> is_Some (bi_devices inv !! d).
Proof. destruct (inventory_at_ok _ _ _ _ Hat) as (_ & _ & _ & H). intros [Hn|(n & pp & Hn & _)]; [by eapply H|by eexists]. Qed.

Lemma stands_on_child p d m : stands_on (lsblk_tree json w t) inv p d -> bi_devices inv !! p = Some m -> d ∈ pd_children m.
Proof.
  destruct (inventory_at_ok _ _ _ _ Hat) as (Hok & _ & H & _). intros [Hn|(n & pp & Hn & Hpp & Hpath)] Hm; [by eapply H|].
  eapply io_child; [done|exact Hn| |exact Hm]. by eapply io_pkname.
Qed.

Lemma stands_on_steps c d : is_Some (bi_devices inv !! c) ->
  rtc (stands_on (lsblk_tree json w t) inv) c d -> rtc (child_step inv) c d /\ is_Some (bi_devices inv !! d).
Proof.
  intros Hc Hr. induction Hr as [x|x y z Hxy Hr IH]; [by split; [constructor|]|]. destruct Hc as [nx Hnx].
  destruct IH as [IH Hz]; [by eapply stands_on_device|]. split; [|done].
  eapply rtc_l; [exists nx; split; [done|by eapply stands_on_child]|done].
Qed.

Lemma stands_on_below p c d m : stands_on (lsblk_tree json w t) inv p c -> rtc (stands_on (lsblk_tree json w t) inv) c d ->
  bi_devices inv !! p = Some m -> below inv m d.
Proof.
  intros Hpc Hr Hm. exists c. split; [by eapply stands_on_child|].
  eapply stands_on_steps; [by eapply stands_on_device|done].
Qed.
End StandsOn.

(** C6. The check that lets a device be formatted misses nothing that stands
    on it. Let the inventory be read from the tree lsblk printed and from
    sysfs, and let the check accept a device. Then that device and every device
    reached from it by going, any number of times, to a device nested right
    below in the printed tree, under whichever of its parents, or to one whose
    node names it as parent, is in the inventory, is not mounted, is no swap,
    carries no signature, is writable, and has no holder in sysfs. And nothing
    stands on an accepted whole disk. *)
Theorem accepted_target_is_unused json w t inv swaps path node :
  inventory_at json w t = Ok inv -> get_path inv path = Some node ->
  validate_existing_create_target inv node swaps = Ok tt ->
  (forall d, rtc (stands_on (lsblk_tree json w t) inv) (id_devno (pd_identity node)) d ->
     exists n, bi_devices inv !! d = Some n /\ idle swaps true n /\ w_holders w t d = Ok []) /\
  (id_dev_type (pd_identity node) = "disk" -> forall d, ~ stands_on (lsblk_tree json w t) inv (id_devno (pd_identity node)) d).
Proof.
  intros Hat Hnode (_ & [Hi Hb] & Hdisk & _)%validate_existing_spec. destruct (inventory_at_ok _ _ _ _ Hat) as (Hok & Hh & _).
  unfold get_path in Hnode. apply bind_Some in Hnode as (dev & _ & Hdev).
  pose proof (io_key _ Hok _ _ Hdev) as Hkey. rewrite Hkey. split.
  - intros d Hr. destruct (stands_on_steps _ _ _ _ Hat dev d (mk_is_Some _ _ Hdev) Hr) as [_ [n Hn]].
    exists n. split; [done|]. assert (idle swaps true n) as Hn'.
    { destruct Hr as [dev|dev c d Hc Hr]; [congruence|]. eapply Hb; [by eapply stands_on_below|done]. }
    split; [done|]. eapply Hh; [done|]. apply Hn'.
  - intros [Hc _]%Hdisk d Hs. eapply stands_on_child in Hs; [|done|done]. set_solver.
Qed.

(** ** What the operations destroy *)

Definition create_grants (req : CreateFilesystemRequest) : Grants :=
  mkGrants (cr_devices req) (cr_prepare_disks req) [].

Definition wipe_grants (path : string) (expected : option DiskPreparation) : Grants :=
  mkGrants [] (option_list expected) [path].

(** C4. Creating a filesystem destroys only what was asked for and is free.
    However the devices change meanwhile, and whatever fails: each device given
    to [bcachefs format] was, after the last command, seen to be free and
    without signature, and is the device the request named or a partition made
    by this request on the disk it named (the number, start and size asked for,
    and that disk as parent); a partition is added only to a disk the request
    named, while idle, in a slot seen to be free when the plan was made; a wipe
    hits only a confirmed disk, while it is the one confirmed and no registered
    filesystem uses it, one of the children confirmed with it, or such a
    partition of this request, which may carry an old signature but is otherwise
    unused, each as seen after the last command; and a partition table is erased
    only right after, with nothing in between, such a wipe of the same confirmed
    whole disk. *)
Theorem fs_create_destroys_only_vetted json w req tick state :
  safe (create_grants req) (dk_trace (fst (create_locked json w req (mkDisks tick [] state)))).
Proof.
  destruct (t_create json w (create_grants req) req) with (s := mkDisks tick [] state)
    as (ex & _ & Hs & _); done.
Qed.

(** Wiping a device destroys only that device: a whole disk only as it was
    confirmed, with the children confirmed, its partition table right after it,
    and a partition only while nothing uses it and no registered filesystem has
    it, each seen after the last command and before the wipe. *)
Theorem device_wipe_destroys_only_vetted json w path expected tick state :
  safe (wipe_grants path expected) (dk_trace (fst (device_wipe json w path expected (mkDisks tick [] state)))).
Proof.
  destruct (t_device_wipe json w (wipe_grants path expected) path expected) with (s := mkDisks tick [] state)
    as (ex & _ & Hs & _); try done; cbn; [by left|]. intros e ->. by left.
Qed.

(** ** A run *)

Module Demo.
Definition entry (name ty : string) (no size : string) (extra : list (string * JValue)) : JValue :=
  JObj ([("name", JStr name); ("path", JStr ("/dev/" +:+ name)); ("maj:min", JStr no); ("type", JStr ty);
         ("size", JStr size)] ++ extra).

(** A blank disk, a disk with a table, and that disk with a new partition. *)
Definition blank : JValue := entry "sdb" "disk" "8:16" "8000000000" [].
Definition table (kids : list JValue) : JValue :=
  entry "sdc" "disk" "8:32" "4000000000" [("pttype", JStr "gpt"); ("log-sec", JNum (Some 512)); ("children", JArr kids)].
Definition made : JValue :=
  entry "sdc1" "part" "8:33" "2146435072" [("partn", JNum (Some 1)); ("start", JNum (Some 2048)); ("pkname", JStr "sdc")].

Definition json (out : string) : result JValue string :=
  Ok (JObj [("blockdevices", JArr [blank; table (if String.eqb out "split" then [made] else [])])]).

(** The partition is there after question [split]. *)
Definition world (split : nat) : World :=
  mkWorld (fun t => Ok (if (split <? t)%nat then "split" else "")) (fun _ _ => Ok []) (fun _ => Ok "")
    (fun _ p => Some p) (fun _ _ => Ok "") (fun _ => Ok ∅)
    (fun _ arg => Ok (if String.eqb arg "--end-of-largest" then "4194303" else if String.eqb arg "--print" then "" else "2048"))
    (fun _ _ => None) (fun _ => FormatOk) (fun _ => DirOk) (fun _ => Ok true) (fun _ => false) (fun _ => Ok true)
    (fun _ => true) (fun _ => false) (fun _ _ => Some "u1") (fun _ => Ok None) (fun _ => None) (fun _ => Some "u1")
    (fun _ => true) (fun _ => None).

Definition request : CreateFilesystemRequest :=
  mkCreateRequest "tank" [mkDeviceSpec "/dev/sdb" None None; mkDeviceSpec "/dev/sdc:free" None None] [] 2
    None None None None None None None None None None None None None None None None None.

(** The partition is made by question 20, and its kernel node is slow to appear. *)
Definition run : Disks * fsres (string * list DeviceSpec * string) :=
  create_locked json (world 26) request (mkDisks 0 [] ∅).

Definition destructive (e : Event) : option (string * list string) :=
  match e with
  | Ran (CNewPartition _ _ _ d) true => Some ("new", [d])
  | Ran (CWipefs p) true => Some ("wipe", [p])
  | Ran (CFormat _ ds) true => Some ("format", ds_path <$> ds)
  | _ => None
  end.

(** The request succeeds: a partition is made and wiped, and the disk and the
    partition are formatted. *)
Example run_succeeds :
  snd run = Ok ("u1", [mkDeviceSpec "/dev/sdb" None None; mkDeviceSpec "/dev/sdc1" None None], "/fs/tank") /\
  omap destructive (rev (dk_trace (fst run))) =
    [("new", ["/dev/sdc"]); ("wipe", ["/dev/sdc1"]); ("format", ["/dev/sdb"; "/dev/sdc1"])] /\
  mo_devices <$> dk_state (fst run) !! "tank" = Some ["/dev/sdb"; "/dev/sdc1"].
Proof. split_and!; vm_compute; reflexivity. Qed.

(** The inventory with the partition, and its node. *)
Definition seen : BlockInventory := match inventory_at json (world 26) 30 with Ok i => i | Err _ => mkInventory ∅ ∅ end.
Definition part : PreflightBlockDevice :=
  default (mkPreflight "" None (mkBlockIdentity "" 0 "" None None None None None None None None 0) None None false [] ∅ [])
    (get_path seen "/dev/sdc1").
End Demo.

Lemma accepted_target_is_unused_witness :
  validate_existing_create_target Demo.seen Demo.part ∅ = Ok tt /\
  (forall d, rtc (stands_on (lsblk_tree Demo.json (Demo.world 26) 30) Demo.seen) "8:33" d ->
     exists n, bi_devices Demo.seen !! d = Some n /\ idle ∅ true n /\ w_holders (Demo.world 26) 30 d = Ok []).
Proof.
  split; [vm_compute; reflexivity|].
  assert (id_devno (pd_identity Demo.part) = "8:33") as <- by (vm_compute; reflexivity).
  refine (proj1 (accepted_target_is_unused Demo.json (Demo.world 26) 30 Demo.seen ∅ "/dev/sdc1" Demo.part _ _ _));
    vm_compute; reflexivity.
Defined.
