(* ===== verification/Jobs.v ===== *)
(** * Backup jobs (nasty-backup/src/jobs.rs and the start functions of lib.rs)

    The registry of background jobs, the worker task each job runs in, and the
    monitor task that recovers jobs whose worker died.  A worker or monitor
    may be interrupted between any two operations on the registry, and a worker
    may panic or be cancelled anywhere: a state is the registry, the [running]
    marker and the phase of every worker.  Time stamps are instants (the code
    keeps them as RFC 3339 text written and read by chrono); job results and
    floating-point fractions are abstract. *)

From Stdlib Require Import ZArith Lia Ascii String.
From stdpp Require Import base list gmap strings relations.
From S2P Require Import Prelude.

Inductive BackupJobKind : Type := InitRepo | RunBackup | CheckRepo | Restore.

#[export] Instance BackupJobKind_eq_dec : EqDecision BackupJobKind.
Proof. solve_decision. Defined.

Inductive BackupJobState : Type := Pending | Running | Succeeded | JFailed.

#[export] Instance BackupJobState_eq_dec : EqDecision BackupJobState.
Proof. solve_decision. Defined.

Definition is_terminal (s : BackupJobState) : bool :=
  match s with Succeeded | JFailed => true | Pending | Running => false end.

(** One hour, in seconds. *)
Definition JOB_RETENTION : Z := 3600.

Definition UNEXPECTED_TASK_ERROR : string :=
  "Backup operation stopped unexpectedly; retry the operation".

Inductive JobError : Type := AlreadyRunning (profile job_id : string).

Section jobs.
(** serde_json values and [f64], with [clamp(0.0, 1.0)]. *)
Context {V F : Type} (clamp01 : F -> F).

Record BackupJob : Type := mkJob {
  j_id : string;
  j_profile_id : string;
  j_kind : BackupJobKind;
  j_state : BackupJobState;
  j_created_at : Z;
  j_started_at : option Z;
  j_finished_at : option Z;
  j_progress : option string;
  j_progress_fraction : option F;
  j_result : option V;
  j_error : option string;
}.

Definition job_new (now : Z) (id profile_id : string) (kind : BackupJobKind) : BackupJob :=
  mkJob id profile_id kind Pending now None None None None None None.

Abbreviation registry := (gmap string BackupJob).

Definition gc_keep (now : Z) (job : BackupJob) : bool :=
  if negb (is_terminal (j_state job)) then true
  else match j_finished_at job with
       | Some ts => now - JOB_RETENTION <? ts
       | None => true
       end.

Definition gc_locked (now : Z) (m : registry) : registry :=
  filter (fun kv => gc_keep now (snd kv) = true) m.

Definition active_for (profile_id : string) (job : BackupJob) : bool :=
  String.eqb (j_profile_id job) profile_id && negb (is_terminal (j_state job)).

Definition start (now : Z) (id profile_id : string) (kind : BackupJobKind)
    : stm registry JobError BackupJob := fun m =>
  let m := gc_locked now m in
  match find_first (active_for profile_id) (snd <$> map_to_list m) with
  | Some existing => (m, Err (AlreadyRunning profile_id (j_id existing)))
  | None =>
      let job := job_new now id profile_id kind in
      (<[id := job]> m, Ok job)
  end.

(** [map.get_mut(job_id)] followed by an assignment of fields. *)
Definition job_update (id : string) (f : BackupJob -> BackupJob) (m : registry) : registry :=
  alter f id m.

Definition mark_running (now : Z) (id : string) : registry -> registry :=
  job_update id (fun j => mkJob (j_id j) (j_profile_id j) (j_kind j) Running (j_created_at j)
    (Some now) (j_finished_at j) (j_progress j) (j_progress_fraction j) (j_result j) (j_error j)).

Definition mark_progress (id : string) (fraction : F) : registry -> registry :=
  job_update id (fun j => mkJob (j_id j) (j_profile_id j) (j_kind j) (j_state j) (j_created_at j)
    (j_started_at j) (j_finished_at j) (j_progress j) (Some (clamp01 fraction)) (j_result j)
    (j_error j)).

Definition mark_succeeded (now : Z) (id : string) (res : V) : registry -> registry :=
  job_update id (fun j => mkJob (j_id j) (j_profile_id j) (j_kind j) Succeeded (j_created_at j)
    (j_started_at j) (Some now) (j_progress j) (j_progress_fraction j) (Some res) (j_error j)).

Definition mark_failed (now : Z) (id : string) (err : string) : registry -> registry :=
  job_update id (fun j => mkJob (j_id j) (j_profile_id j) (j_kind j) JFailed (j_created_at j)
    (j_started_at j) (Some now) (j_progress j) (j_progress_fraction j) (j_result j) (Some err)).

(** The registry and the [running] marker of the service; [true] when the job
    was recovered. *)
Definition recover_abandoned (now : Z) (id : string) (m : registry) (running : option string)
    : registry * option string * bool :=
  match m !! id with
  | None => (m, running, false)
  | Some job =>
      if is_terminal (j_state job) then (m, running, false)
      else
        let running' :=
          if bool_decide (running = Some (j_profile_id job)) then None else running in
        (mark_failed now id UNEXPECTED_TASK_ERROR m, running', true)
  end.

Definition job_get (now : Z) (id : string) (m : registry) : registry * option BackupJob :=
  let m := gc_locked now m in (m, m !! id).

(** Newest first; jobs created at the same instant keep the map's order. *)
Fixpoint insert_newest (j : BackupJob) (l : list BackupJob) : list BackupJob :=
  match l with
  | [] => [j]
  | k :: l' => if j_created_at j <? j_created_at k then k :: insert_newest j l' else j :: l
  end.

Definition job_list (now : Z) (profile : option string) (m : registry)
    : registry * list BackupJob :=
  let m := gc_locked now m in
  let jobs := retain (fun j => match profile with
                               | None => true
                               | Some p => String.eqb (j_profile_id j) p
                               end) (snd <$> map_to_list m) in
  (m, foldr insert_newest [] jobs).

(** ** Workers and monitors

    [start_init_repo], [start_run_backup], [start_check_repo] and
    [start_restore] of lib.rs start a worker: [mark_running], the work, then
    [mark_succeeded] or [mark_failed].  The work of a backup, [run_backup],
    sets the [running] marker of the service and clears it again. *)
Inductive Phase : Type :=
| Spawned      (** before [mark_running] *)
| Working      (** after [mark_running]; for a backup, before [run_backup] sets the marker *)
| InRun        (** inside [run_backup], the marker set *)
| Ran          (** [run_backup] has cleared the marker *)
| Returned     (** the outcome is marked *)
| Exited.      (** the task has ended, by returning or not; the monitor has not run yet *)

#[export] Instance Phase_eq_dec : EqDecision Phase.
Proof. solve_decision. Defined.

Record Worker : Type := mkWorker {
  wk_profile : string;
  wk_kind : BackupJobKind;
  wk_phase : Phase;
}.

Record Svc : Type := mkSvc {
  sv_jobs : registry;
  sv_running : option string;
  sv_workers : gmap string Worker;
}.

Definition set_phase (id : string) (w : Worker) (ph : Phase) (s : Svc) : gmap string Worker :=
  <[id := mkWorker (wk_profile w) (wk_kind w) ph]> (sv_workers s).

(** [backup.status]: is a backup running? *)
Definition status_running (s : Svc) : bool := bool_decide (is_Some (sv_running s)).

Inductive svc_step (s : Svc) : Svc -> Prop :=
| st_start now id profile kind m job :
    (** uuid never repeats *)
    sv_jobs s !! id = None -> sv_workers s !! id = None ->
    start now id profile kind (sv_jobs s) = (m, Ok job) ->
    svc_step s (mkSvc m (sv_running s)
      (<[id := mkWorker profile kind Spawned]> (sv_workers s)))
| st_start_refused now id profile kind m e :
    start now id profile kind (sv_jobs s) = (m, Err e) ->
    svc_step s (mkSvc m (sv_running s) (sv_workers s))
| st_read now :
    svc_step s (mkSvc (gc_locked now (sv_jobs s)) (sv_running s) (sv_workers s))
| st_running now id w :
    sv_workers s !! id = Some w -> wk_phase w = Spawned ->
    svc_step s (mkSvc (mark_running now id (sv_jobs s)) (sv_running s) (set_phase id w Working s))
| st_progress id w fraction :
    sv_workers s !! id = Some w -> wk_phase w = Working -> wk_kind w = Restore ->
    svc_step s (mkSvc (mark_progress id fraction (sv_jobs s)) (sv_running s) (sv_workers s))
| st_run_begin id w :
    sv_workers s !! id = Some w -> wk_phase w = Working -> wk_kind w = RunBackup ->
    svc_step s (mkSvc (sv_jobs s) (Some (wk_profile w)) (set_phase id w InRun s))
| st_run_end id w :
    sv_workers s !! id = Some w -> wk_phase w = InRun ->
    svc_step s (mkSvc (sv_jobs s) None (set_phase id w Ran s))
| st_succeed now id w res :
    sv_workers s !! id = Some w ->
    (wk_phase w = Ran \/ (wk_phase w = Working /\ wk_kind w <> RunBackup)) ->
    svc_step s (mkSvc (mark_succeeded now id res (sv_jobs s)) (sv_running s)
      (set_phase id w Returned s))
| st_fail now id w err :
    sv_workers s !! id = Some w -> (wk_phase w = Ran \/ wk_phase w = Working) ->
    svc_step s (mkSvc (mark_failed now id err (sv_jobs s)) (sv_running s)
      (set_phase id w Returned s))
| st_exit id w :
    (** returns after [Returned]; anywhere else a panic or a cancellation *)
    sv_workers s !! id = Some w -> wk_phase w <> Exited ->
    svc_step s (mkSvc (sv_jobs s) (sv_running s) (set_phase id w Exited s))
| st_monitor now id w m running b :
    sv_workers s !! id = Some w -> wk_phase w = Exited ->
    recover_abandoned now id (sv_jobs s) (sv_running s) = (m, running, b) ->
    svc_step s (mkSvc m running (delete id (sv_workers s))).

Definition svc0 : Svc := mkSvc ∅ None ∅.

Definition svc_reachable (s : Svc) : Prop := rtc svc_step svc0 s.
End jobs.

(** ** Invariants *)

Section jobs_props.
Context {V F : Type} (clamp01 : F -> F).
Abbreviation Job := (BackupJob (V:=V) (F:=F)).
Abbreviation State := (Svc (V:=V) (F:=F)).
Implicit Types (j : Job) (s : State) (m : gmap string Job).

Definition is_active j : bool := negb (is_terminal (j_state j)).

(** The fields of a job match its state. *)
Definition job_wf (id : string) j : Prop :=
  j_id j = id /\
  match j_state j with
  | Pending => j_started_at j = None /\ j_finished_at j = None /\ j_result j = None /\ j_error j = None
  | Running => is_Some (j_started_at j) /\ j_finished_at j = None /\ j_result j = None /\
               j_error j = None
  | Succeeded => is_Some (j_finished_at j) /\ is_Some (j_result j) /\ j_error j = None
  | JFailed => is_Some (j_finished_at j) /\ is_Some (j_error j) /\ j_result j = None
  end.

(** What the phase of a worker says about its job. *)
Definition phase_ok (ph : Phase) (oj : option Job) : Prop :=
  match ph with
  | Spawned => exists j, oj = Some j /\ j_state j = Pending
  | Working | InRun | Ran => exists j, oj = Some j /\ j_state j = Running
  | Returned => forall j, oj = Some j -> is_active j = false
  | Exited => True
  end.

Record inv s : Prop := {
  inv_wf id j : sv_jobs s !! id = Some j -> job_wf id j;
  inv_phase id w : sv_workers s !! id = Some w -> phase_ok (wk_phase w) (sv_jobs s !! id);
  inv_active id j : sv_jobs s !! id = Some j -> is_active j = true ->
    exists w, sv_workers s !! id = Some w /\ wk_profile w = j_profile_id j;
  inv_unique i k a b : sv_jobs s !! i = Some a -> sv_jobs s !! k = Some b ->
    is_active a = true -> is_active b = true -> j_profile_id a = j_profile_id b -> i = k;
}.

Lemma gc_lookup now m id j :
  gc_locked now m !! id = Some j <-> m !! id = Some j /\ gc_keep now j = true.
Proof. unfold gc_locked. by rewrite map_lookup_filter_Some. Qed.

Lemma gc_keep_active now j : is_active j = true -> gc_keep now j = true.
Proof. unfold gc_keep, is_active. by intros ->. Qed.

Lemma gc_phase_ok now m id ph : phase_ok ph (m !! id) -> phase_ok ph (gc_locked now m !! id).
Proof.
  assert (forall j, m !! id = Some j -> is_active j = true -> gc_locked now m !! id = Some j) as Hk.
  { intros j Hj Ha. apply gc_lookup. split; [done|by apply gc_keep_active]. }
  destruct ph; simpl; try done.
  1-4: intros (j & Hj & Hs); exists j; split; [apply Hk; [done|]|done];
    unfold is_active; by rewrite Hs.
  intros H j (Hj & _)%gc_lookup. eauto.
Qed.

Lemma inv_gc now s : inv s -> inv (mkSvc (gc_locked now (sv_jobs s)) (sv_running s) (sv_workers s)).
Proof.
  intros [Hwf Hph Hac Hun]. constructor; cbn.
  - intros id j (Hj & _)%gc_lookup. eauto.
  - intros id w Hw. apply gc_phase_ok. eauto.
  - intros id j (Hj & _)%gc_lookup. eauto.
  - intros i k a b (Ha & _)%gc_lookup (Hb & _)%gc_lookup. eauto.
Qed.

(** [find] over the values of the map. *)
Lemma find_active m profile :
  match find_first (active_for profile) (snd <$> map_to_list m) with
  | Some j => active_for profile j = true /\ exists id, m !! id = Some j
  | None => forall id j, m !! id = Some j -> active_for profile j = false
  end.
Proof.
  destruct (find_first _ _) as [j|] eqn:E.
  - apply find_first_Some in E as [Hin Ha]. split; [done|].
    apply list_elem_of_fmap in Hin as ([id k] & -> & Hin). exists id. by apply elem_of_map_to_list.
  - intros id j Hj. rewrite find_first_None in E. apply E.
    apply list_elem_of_fmap. exists (id, j). split; [done|]. by apply elem_of_map_to_list.
Qed.

(** Every write of a worker to the entry of its own, still active, job. *)
Lemma inv_alter s id w (f : Job -> Job) ph r :
  inv s -> sv_workers s !! id = Some w ->
  (exists j, sv_jobs s !! id = Some j /\ is_active j = true /\ j_profile_id (f j) = j_profile_id j /\
     job_wf id (f j) /\ phase_ok ph (Some (f j))) ->
  inv (mkSvc (alter f id (sv_jobs s)) r (set_phase id w ph s)).
Proof.
  intros [Hwf Hph Hac Hun] Hw (j & Hj & Ha & Hp & Hwf' & Hph'). unfold set_phase.
  assert (alter f id (sv_jobs s) !! id = Some (f j)) as Hfj by (by rewrite lookup_alter_eq, Hj).
  destruct (Hac id j Hj Ha) as (w0 & Hw0 & Hpw). rewrite Hw in Hw0. injection Hw0 as <-.
  constructor; cbn.
  - intros i k. destruct (decide (i = id)) as [->|Hne].
    + rewrite Hfj. intros [= <-]. done.
    + rewrite lookup_alter_ne by done. eauto.
  - intros i w1. destruct (decide (i = id)) as [->|Hne].
    + rewrite lookup_insert_eq. intros [= <-]. cbn. by rewrite Hfj.
    + rewrite lookup_insert_ne, lookup_alter_ne by done. eauto.
  - intros i k. destruct (decide (i = id)) as [->|Hne].
    + rewrite Hfj, lookup_insert_eq. intros [= <-] _. eexists. split; [done|]. cbn. congruence.
    + rewrite lookup_insert_ne, lookup_alter_ne by done. eauto.
  - assert (forall i a, alter f id (sv_jobs s) !! i = Some a -> is_active a = true ->
      exists a', sv_jobs s !! i = Some a' /\ is_active a' = true /\
        j_profile_id a = j_profile_id a') as Hback.
    { intros i a. destruct (decide (i = id)) as [->|Hne].
      - rewrite Hfj. intros [= <-] _. eauto.
      - rewrite lookup_alter_ne by done. eauto. }
    intros i k a b Hi Hk Hai Hbk Hpab.
    destruct (Hback i a Hi Hai) as (a' & ? & ? & ?), (Hback k b Hk Hbk) as (b' & ? & ? & ?).
    eapply (Hun i k a' b'); congruence.
Qed.

Lemma inv_set_phase s id w ph r :
  inv s -> sv_workers s !! id = Some w -> phase_ok ph (sv_jobs s !! id) ->
  inv (mkSvc (sv_jobs s) r (set_phase id w ph s)).
Proof.
  intros [Hwf Hph Hac Hun] Hw Hok. constructor; cbn; [done| | |done]; unfold set_phase.
  - intros i w1. destruct (decide (i = id)) as [->|Hne].
    + rewrite lookup_insert_eq. intros [= <-]. done.
    + rewrite lookup_insert_ne by done. eauto.
  - intros i j Hj Ha. destruct (Hac i j Hj Ha) as (w1 & Hw1 & Hp).
    destruct (decide (i = id)) as [->|Hne].
    + rewrite lookup_insert_eq. eexists. split; [done|]. cbn. congruence.
    + rewrite lookup_insert_ne by done. eauto.
Qed.

Lemma inv_start s now id profile kind m job :
  inv s -> sv_jobs s !! id = None -> sv_workers s !! id = None ->
  start now id profile kind (sv_jobs s) = (m, Ok job) ->
  inv (mkSvc m (sv_running s) (<[id := mkWorker profile kind Spawned]> (sv_workers s))).
Proof.
  intros Hi Hid Hwid. apply (inv_gc now) in Hi. unfold start.
  pose proof (find_active (gc_locked now (sv_jobs s)) profile) as Hfind.
  destruct (find_first _ _); [done|]. intros [= <- <-].
  destruct Hi as [Hwf Hph Hac Hun]; cbn in *.
  constructor; cbn.
  - intros i k [[<- <-]|[Hne Hk]]%lookup_insert_Some; [|eauto]. by repeat split.
  - intros i w [[<- <-]|[Hne Hk]]%lookup_insert_Some.
    + rewrite lookup_insert_eq. cbn. eauto.
    + rewrite lookup_insert_ne by done. eauto.
  - intros i k [[<- <-]|[Hne Hk]]%lookup_insert_Some Ha.
    + rewrite lookup_insert_eq. eauto.
    + rewrite lookup_insert_ne by done. eauto.
  - assert (forall i j, gc_locked now (sv_jobs s) !! i = Some j -> is_active j = true ->
      j_profile_id j <> profile) as Hno.
    { intros i j Hj Ha Hp. specialize (Hfind i j Hj). unfold active_for, is_active in *.
      by rewrite Hp, String.eqb_refl, Ha in Hfind. }
    intros i k a b [[<- <-]|[? Hk]]%lookup_insert_Some [[<- <-]|[? Hk']]%lookup_insert_Some Ha Hb Hp;
      cbn in *; [done| | |eauto].
    + destruct (Hno _ _ Hk' Hb). done.
    + destruct (Hno _ _ Hk Ha). done.
Qed.

Lemma inv_delete_worker s id r :
  inv s -> (forall j, sv_jobs s !! id = Some j -> is_active j = false) ->
  inv (mkSvc (sv_jobs s) r (delete id (sv_workers s))).
Proof.
  intros [Hwf Hph Hac Hun] Hno. constructor; cbn; [done| | |done].
  - intros i w [_ Hw]%lookup_delete_Some. eauto.
  - intros i j Hj Ha. destruct (decide (i = id)) as [->|Hne].
    + by rewrite Hno in Ha.
    + rewrite lookup_delete_ne by done. eauto.
Qed.

Lemma recover_spec now id m r m' r' b :
  recover_abandoned now id m r = (m', r', b) ->
  (m' = m /\ forall j, m !! id = Some j -> is_active j = false) \/
  (m' = mark_failed now id UNEXPECTED_TASK_ERROR m /\ exists j, m !! id = Some j /\ is_active j = true).
Proof.
  unfold recover_abandoned, is_active. destruct (m !! id) as [j|] eqn:E.
  - destruct (is_terminal (j_state j)) eqn:Ht; intros [= <- <- <-].
    + left. split; [done|]. intros k [= <-]. by rewrite Ht.
    + right. split; [done|]. exists j. by rewrite Ht.
  - intros [= <- <- <-]. by left.
Qed.

Lemma phase_running s id w :
  inv s -> sv_workers s !! id = Some w ->
  wk_phase w = Working \/ wk_phase w = InRun \/ wk_phase w = Ran ->
  exists j, sv_jobs s !! id = Some j /\ j_state j = Running /\ job_wf id j.
Proof.
  intros [Hwf Hph _ _] Hw Hp. specialize (Hph id w Hw).
  assert (exists j, sv_jobs s !! id = Some j /\ j_state j = Running) as (j & ? & ?)
    by (destruct Hp as [Hp|[Hp|Hp]]; rewrite Hp in Hph; exact Hph).
  eauto.
Qed.

Lemma set_phase_same s id w : sv_workers s !! id = Some w -> set_phase id w (wk_phase w) s = sv_workers s.
Proof. intros H. unfold set_phase. destruct w. by rewrite insert_id. Qed.

Lemma step_inv s s' : inv s -> svc_step clamp01 s s' -> inv s'.
Proof.
  intros Hi Hs. destruct Hs as
    [now id profile kind m job Hid Hw E|now id profile kind m e E|now|now id w Hw Hp
    |id w fr Hw Hp Hk|id w Hw Hp Hk|id w Hw Hp|now id w res Hw Hp|now id w err Hw Hp|id w Hw Hp
    |now id w m r b Hw Hp E].
  - by eapply inv_start.
  - unfold start in E. destruct (find_first _ _); [|done]. injection E as <- _. by apply inv_gc.
  - by apply inv_gc.
  - apply inv_alter; [done..|]. pose proof (inv_phase _ Hi id w Hw) as Hph. rewrite Hp in Hph.
    destruct Hph as (j & Hj & Hst). exists j. pose proof (inv_wf _ Hi id j Hj) as Hwf.
    unfold job_wf, is_active in *. rewrite Hst in *. naive_solver.
  - rewrite <- (set_phase_same s id w Hw), Hp. apply inv_alter; [done..|].
    destruct (phase_running s id w Hi Hw) as (j & Hj & Hst & Hwf); [tauto|]. exists j.
    unfold job_wf, is_active in *. cbn. rewrite Hst in *. naive_solver.
  - apply inv_set_phase; [done..|].
    destruct (phase_running s id w Hi Hw) as (j & Hj & Hst & _); [tauto|]. cbn. eauto.
  - apply inv_set_phase; [done..|].
    destruct (phase_running s id w Hi Hw) as (j & Hj & Hst & _); [tauto|]. cbn. eauto.
  - apply inv_alter; [done..|].
    destruct (phase_running s id w Hi Hw) as (j & Hj & Hst & Hwf); [tauto|]. exists j.
    unfold job_wf, is_active in *. cbn. rewrite Hst in *. naive_solver.
  - apply inv_alter; [done..|].
    destruct (phase_running s id w Hi Hw) as (j & Hj & Hst & Hwf); [tauto|]. exists j.
    unfold job_wf, is_active in *. cbn. rewrite Hst in *. naive_solver.
  - by apply inv_set_phase.
  - apply recover_spec in E as [[-> Hno]|[-> (j & Hj & Ha)]]; [by apply inv_delete_worker|].
    assert (inv (mkSvc (mark_failed now id UNEXPECTED_TASK_ERROR (sv_jobs s)) r
      (set_phase id w Returned s))) as Hi'.
    { apply inv_alter; [done..|]. exists j. pose proof (inv_wf _ Hi id j Hj) as Hwf.
      unfold job_wf, is_active in *. cbn. destruct (j_state j); naive_solver. }
    apply (inv_delete_worker _ id r) in Hi'; cbn in *.
    + unfold set_phase in Hi'. by rewrite delete_insert_eq in Hi'.
    + intros k. unfold mark_failed, job_update. rewrite lookup_alter_eq, Hj. by intros [= <-].
Qed.

Lemma reachable_inv s : svc_reachable clamp01 s -> inv s.
Proof.
  intros Hr. assert (inv svc0) as H0 by (constructor; cbn; intros *; by rewrite lookup_empty).
  unfold svc_reachable in Hr. induction Hr; eauto using step_inv.
Qed.

(** A finished job keeps its record until it is old enough to be collected. *)
Lemma step_terminal_final s s' id j :
  inv s -> svc_step clamp01 s s' -> sv_jobs s !! id = Some j -> is_active j = false ->
  sv_jobs s' !! id = Some j \/
  (sv_jobs s' !! id = None /\ exists now ts, j_finished_at j = Some ts /\ ts <= now - JOB_RETENTION).
Proof.
  intros Hi Hs Hj Ha.
  assert (forall now, gc_locked now (sv_jobs s) !! id = Some j \/
    (gc_locked now (sv_jobs s) !! id = None /\
     exists ts, j_finished_at j = Some ts /\ ts <= now - JOB_RETENTION)) as Hgc.
  { intros now. destruct (gc_keep now j) eqn:E; [left; by apply gc_lookup|]. right. split.
    - destruct (gc_locked now _ !! id) as [k|] eqn:Ek; [|done].
      apply gc_lookup in Ek as [? ?]. congruence.
    - unfold gc_keep, is_active in *. rewrite Ha in E.
      destruct (j_finished_at j) as [ts|]; [|done]. bool_hyps. eauto. }
  assert (forall i w f, sv_workers s !! i = Some w -> phase_ok (wk_phase w) (sv_jobs s !! i) ->
    wk_phase w <> Returned -> wk_phase w <> Exited -> alter f i (sv_jobs s) !! id = Some j) as Halt.
  { intros i w f Hw Hp Hr He. destruct (decide (i = id)) as [->|Hne]; [|by rewrite lookup_alter_ne].
    exfalso. rewrite Hj in Hp. unfold is_active in Ha.
    destruct (wk_phase w); cbn in Hp; try done; destruct Hp as (k & [= <-] & Hst);
      by rewrite Hst in Ha. }
  destruct Hs as
    [now i profile kind m job Hid Hw E|now i profile kind m e E|now|now i w Hw Hp
    |i w fr Hw Hp Hk|i w Hw Hp Hk|i w Hw Hp|now i w res Hw Hp|now i w err Hw Hp|i w Hw Hp
    |now i w m r b Hw Hp E]; cbn; try (by left).
  - unfold start in E. destruct (find_first _ _); [done|]. injection E as <- _.
    rewrite lookup_insert_ne by congruence. destruct (Hgc now); [by left|right; naive_solver].
  - unfold start in E. destruct (find_first _ _); [|done]. injection E as <- _.
    destruct (Hgc now); [by left|right; naive_solver].
  - destruct (Hgc now); [by left|right; naive_solver].
  - left. eapply Halt; [done|by apply (inv_phase _ Hi)|congruence..].
  - left. eapply Halt; [done|by apply (inv_phase _ Hi)|congruence..].
  - left. eapply Halt; [done|by apply (inv_phase _ Hi)|intuition congruence..].
  - left. eapply Halt; [done|by apply (inv_phase _ Hi)|intuition congruence..].
  - apply recover_spec in E as [[-> _]|[-> (k & Hk & Hak)]]; [by left|]. left.
    unfold mark_failed, job_update. rewrite lookup_alter_ne; [done|]. congruence.
Qed.

(** C38. However workers, monitors and requests interleave, and wherever workers
    panic or are cancelled: a profile has at most one job that is pending or
    running, every such job still has its worker or the monitor that will
    recover it, the time stamps, result and error of a job match its state, and
    a finished job keeps its outcome until it is collected, an hour or more
    after it finished. *)
Theorem backup_jobs_sound s :
  svc_reachable clamp01 s ->
  (forall i k a b, sv_jobs s !! i = Some a -> sv_jobs s !! k = Some b ->
     is_active a = true -> is_active b = true -> j_profile_id a = j_profile_id b -> i = k) /\
  (forall id j, sv_jobs s !! id = Some j -> is_active j = true ->
     exists w, sv_workers s !! id = Some w /\ wk_profile w = j_profile_id j) /\
  (forall id j, sv_jobs s !! id = Some j -> job_wf id j) /\
  (forall s' id j, svc_step clamp01 s s' -> sv_jobs s !! id = Some j -> is_active j = false ->
     sv_jobs s' !! id = Some j \/
     (sv_jobs s' !! id = None /\
      exists now ts, j_finished_at j = Some ts /\ ts <= now - JOB_RETENTION)).
Proof.
  intros Hi%reachable_inv. split_and!; [apply (inv_unique _ Hi)|apply (inv_active _ Hi)
    |apply (inv_wf _ Hi)|]. intros. by eapply step_terminal_final.
Qed.

Lemma start_ok s now id profile kind :
  (forall i j, sv_jobs s !! i = Some j -> is_active j = true -> j_profile_id j <> profile) ->
  exists m job, start now id profile kind (sv_jobs s) = (m, Ok job) /\ j_state job = Pending.
Proof.
  intros Hno. unfold start. pose proof (find_active (gc_locked now (sv_jobs s)) profile) as Hf.
  destruct (find_first _ _) as [j|]; [|eauto]. exfalso.
  destruct Hf as (Ha & i & (Hj & _)%gc_lookup). unfold active_for in Ha. bool_hyps.
  apply (Hno i j Hj); [|done]. unfold is_active. by apply negb_true_iff.
Qed.

(** No profile is blocked for good: in every reachable state either a new
    job can start for it at once, or the one job in its way can be ended by its
    worker stopping, in whatever way, and its monitor running, after which a new
    job can start. *)
Theorem backup_profile_recovers s now id profile kind :
  svc_reachable clamp01 s ->
  (exists m job, start now id profile kind (sv_jobs s) = (m, Ok job) /\ j_state job = Pending) \/
  (exists old j s2, sv_jobs s !! old = Some j /\ is_active j = true /\ j_profile_id j = profile /\
     rtc (svc_step clamp01) s s2 /\
     exists m job, start now id profile kind (sv_jobs s2) = (m, Ok job) /\ j_state job = Pending).
Proof.
  intros Hi%reachable_inv.
  destruct (find_first (active_for profile) (snd <$> map_to_list (sv_jobs s))) as [j|] eqn:E;
    pose proof (find_active (sv_jobs s) profile) as Hf; rewrite E in Hf.
  - right. destruct Hf as (Ha & old & Hj). unfold active_for in Ha. bool_hyps. subst profile.
    assert (is_active j = true) as Hact by (unfold is_active; by apply negb_true_iff).
    destruct (inv_active _ Hi old j Hj Hact) as (w & Hw & _).
    set (s1 := if decide (wk_phase w = Exited) then s
               else mkSvc (sv_jobs s) (sv_running s) (set_phase old w Exited s)).
    assert (rtc (svc_step clamp01) s s1) as Hs1.
    { unfold s1. case_decide; [apply rtc_refl|]. apply rtc_once. by apply st_exit. }
    assert (sv_jobs s1 = sv_jobs s /\ exists w1, sv_workers s1 !! old = Some w1 /\
      wk_phase w1 = Exited) as (Hj1 & w1 & Hw1 & Hp1).
    { unfold s1. case_decide; [eauto|]. split; [done|]. cbn. unfold set_phase.
      rewrite lookup_insert_eq. eauto. }
    destruct (recover_abandoned now old (sv_jobs s1) (sv_running s1)) as [[m r] b] eqn:Er.
    exists old, j, (mkSvc m r (delete old (sv_workers s1))). split_and!; [done..| |].
    { eapply rtc_r; [exact Hs1|]. by eapply st_monitor. }
    apply start_ok. cbn. apply recover_spec in Er as [[-> Hno]|[-> _]]; rewrite Hj1 in *.
    { by rewrite (Hno j Hj) in Hact. }
    intros i k. unfold mark_failed, job_update. destruct (decide (i = old)) as [->|Hne].
    + rewrite lookup_alter_eq, Hj. by intros [= <-].
    + rewrite lookup_alter_ne by done. intros Hk Hak Hpk. destruct Hne.
      by apply (inv_unique _ Hi i old k j).
  - left. apply start_ok. intros i j Hj Ha Hp. specialize (Hf i j Hj).
    unfold active_for, is_active in *. by rewrite Hp, String.eqb_refl, Ha in Hf.
Qed.
End jobs_props.

(** ** Concrete runs *)

Abbreviation Svc_t := (Svc (V:=unit) (F:=Z)).
Abbreviation step_t := (svc_step (V:=unit) (fun z : Z => Z.max 0 (Z.min 1 z))).

(** Two profiles back up at the same time; the first to finish. *)
Definition two_backups : Svc_t :=
  let m := mark_running 3 "2" (mark_running 2 "1"
             (fst (start 1 "2" "b" RunBackup (fst (start 0 "1" "a" RunBackup ∅))))) in
  mkSvc m None (<["2" := mkWorker "b" RunBackup InRun]> {[ "1" := mkWorker "a" RunBackup Ran ]}).

Lemma two_backups_reachable : svc_reachable (V:=unit) (fun z : Z => Z.max 0 (Z.min 1 z)) two_backups.
Proof.
  unfold svc_reachable.
  eapply rtc_l; [eapply (st_start _ _ 0 "1" "a" RunBackup); reflexivity|].
  eapply rtc_l; [eapply (st_start _ _ 1 "2" "b" RunBackup); reflexivity|].
  eapply rtc_l; [eapply (st_running _ _ 2 "1"); reflexivity|].
  eapply rtc_l; [eapply (st_running _ _ 3 "2"); reflexivity|].
  eapply rtc_l; [eapply (st_run_begin _ _ "1"); reflexivity|].
  eapply rtc_l; [eapply (st_run_begin _ _ "2"); reflexivity|].
  eapply rtc_l; [eapply (st_run_end _ _ "1"); reflexivity|].
  match goal with |- rtc _ ?s _ => replace s with two_backups; [apply rtc_refl|] end.
  vm_compute. reflexivity.
Qed.

(** The [running] marker does not survive overlapping backups: with two
    profiles backing up at once, the first to finish clears the marker, and
    [backup.status] reports that nothing runs while the other backup is still
    inside [run_backup]. *)
Theorem status_misses_overlapping_backup :
  exists s : Svc_t, svc_reachable (fun z : Z => Z.max 0 (Z.min 1 z)) s /\
    sv_workers s !! "2" = Some (mkWorker "b" RunBackup InRun) /\ status_running s = false.
Proof. exists two_backups. split; [exact two_backups_reachable|]. by vm_compute. Qed.

Lemma backup_jobs_sound_witness :
  exists w, sv_workers two_backups !! "2" = Some w /\ wk_profile w = "b".
Proof.
  destruct (backup_jobs_sound _ two_backups two_backups_reachable) as (_ & H & _).
  exact (H "2" _ eq_refl eq_refl).
Defined.

Lemma backup_profile_recovers_witness :
  exists old j s2, sv_jobs two_backups !! old = Some j /\ is_active j = true /\
    j_profile_id j = "b" /\ rtc step_t two_backups s2 /\
    exists m job, start 9 "3" "b" Restore (sv_jobs s2) = (m, Ok job) /\ j_state job = Pending.
Proof.
  destruct (backup_profile_recovers _ two_backups 9 "3" "b" Restore two_backups_reachable)
    as [(m & job & E & _)|H]; [vm_compute in E; discriminate E|exact H].
Defined.
