(* ===== verification/Scheduler.v ===== *)
(** * The backup scheduler (nasty-backup/src/scheduler.rs)

    Translation of five-field POSIX cron expressions to the [cron] crate's
    syntax, and the tick that decides which profiles are due.  The [cron] crate
    is the class [Cron]; its documented behaviour is the class [CronOk]. *)

From Stdlib Require Import ZArith Lia Ascii String.
From stdpp Require Import base list gmap strings.
From S2P Require Import Prelude RustStr.

(** ** The cron crate *)
Class Cron : Type := {
  Schedule : Type;
  (** [Schedule::from_str]. *)
  schedule_from_str : string -> option Schedule;
  (** [schedule.after(t).next()]. *)
  next_occurrence : Schedule -> Z -> option Z;
}.

(** [after(t)] yields the occurrences after [t] in ascending order. *)
Class CronOk (C : Cron) : Type := {
  occurs : Schedule -> Z -> Prop;
  next_occurrence_Some s t n : next_occurrence s t = Some n ->
    occurs s n /\ t < n /\ forall k, occurs s k -> t < k -> n <= k;
  next_occurrence_None s t : next_occurrence s t = None -> forall k, occurs s k -> k <= t;
}.

(** ** Weekday fields *)

(** [iter.step_by(step)]: the elements at positions 0, step, 2 step, ... *)
Definition step_by (step : Z) (l : list Z) : list Z :=
  omap (fun x => x) (imap (fun i v => if Z.of_nat i mod step =? 0 then Some v else None) l).

(** [(start..=end)]. *)
Definition range_inclusive (lo hi : Z) : list Z := (fun i => lo + Z.of_nat i) <$> seq 0 (Z.to_nat (hi - lo + 1)).

Definition parse_weekday_value (value : string) : result Z string :=
  match parse_uint 255 value with
  | None => Err ("'" +:+ value +:+ "' is not a weekday number")
  | Some v => if 7 <? v then Err ("numeric value '" +:+ fmt_dec v +:+ "' must be between 0 and 7")
              else Ok v
  end.

(** [part.split_once('/').map_or((part, 1), ..)]: a step that does not parse
    counts as 0. *)
Definition split_step (part : string) : string * Z :=
  match split_once "/" part with
  | None => (part, 1)
  | Some (base, step) => (base, default 0 (parse_uint (2 ^ 64 - 1) step))
  end.

Definition weekday_values (base : string) : result (list Z) string :=
  if String.eqb base "*" then Ok (range_inclusive 0 6)
  else match split_once "-" base with
  | Some (start, fin) =>
      lo <-? parse_weekday_value start ;;
      hi <-? parse_weekday_value fin ;;
      if hi <? lo then Err ("range '" +:+ base +:+ "' must be ascending")
      else Ok (range_inclusive lo hi)
  | None =>
      v <-? parse_weekday_value base ;;
      Ok [v]
  end.

(** [selected[v % 7] = true] for each value. *)
Definition select (selected : list bool) (values : list Z) : list bool :=
  foldl (fun sel v => <[Z.to_nat (v mod 7) := true]> sel) selected values.

Fixpoint select_parts (parts : list string) (selected : list bool) : result (list bool) string :=
  match parts with
  | [] => Ok selected
  | part :: parts' =>
      let '(base, step) := split_step part in
      if step =? 0 then Err ("'" +:+ part +:+ "' has an invalid step")
      else
        values <-? weekday_values base ;;
        select_parts parts' (select selected (step_by step values))
  end.

Definition mixes_numeric_values (field : string) : bool :=
  existsb (fun part => existsb (fun value => forallb is_ascii_digit (to_bytes value))
                         (str_split "-" (fst (split_step part))))
    (str_split "," field).

Definition selected_days (selected : list bool) : list Z :=
  omap (fun x => x) (imap (fun i b => if (b : bool) then Some (Z.of_nat i) else None) selected).

Definition normalize_posix_weekday (field : string) : result string string :=
  if existsb is_ascii_alphabetic (to_bytes field)
  then if mixes_numeric_values field then Err "cannot mix named and numeric weekdays"
       else Ok field
  else
    selected <-? select_parts (str_split "," field) (replicate 7 false) ;;
    if negb (existsb (fun b => b) selected) then Err "weekday field selects no days"
    else Ok (str_join "," ((fun d => fmt_dec (d + 1)) <$> selected_days selected)).

(** ** Expressions *)

Section scheduler.
Context {C : Cron}.

Inductive SchedulerError : Type := InvalidCron (expr reason : string).

Abbreviation CronSchedule := (list Schedule).

(** The message of a [cron] parse error. *)
Context (cron_error : string -> string).

(** [iter().filter_map(..).min()]. *)
Definition option_min (a b : option Z) : option Z :=
  match a, b with
  | Some x, Some y => Some (Z.min x y)
  | Some x, None => Some x
  | None, _ => b
  end.

Definition next_after (cs : CronSchedule) (t : Z) : option Z :=
  foldr (fun s acc => option_min (next_occurrence s t) acc) None cs.

Fixpoint parse_all (expr : string) (exprs : list (list string)) : result CronSchedule SchedulerError :=
  match exprs with
  | [] => Ok []
  | fields :: rest =>
      let text := "0 " +:+ str_join " " fields in
      match schedule_from_str text with
      | None => Err (InvalidCron expr (cron_error text))
      | Some s => ss <-? parse_all expr rest ;; Ok (s :: ss)
      end
  end.

Definition parse_cron (expr : string) : result CronSchedule SchedulerError :=
  match split_whitespace (trim expr) with
  | [minute; hour; month_day; month; weekday] =>
      if existsb (str_contains_char "?") [minute; hour; month_day; month; weekday]
      then Err (InvalidCron expr "'?' is not part of five-field POSIX cron")
      else
        let month_day_restricted := negb (String.eqb month_day "*") in
        let weekday_restricted := negb (String.eqb weekday "*") in
        match normalize_posix_weekday weekday with
        | Err e => Err (InvalidCron expr ("weekday: " +:+ e))
        | Ok weekday' =>
            parse_all expr
              (if month_day_restricted && weekday_restricted
               then [[minute; hour; month_day; month; "*"]; [minute; hour; "*"; month; weekday']]
               else [[minute; hour; month_day; month; weekday']])
        end
  | fields => Err (InvalidCron expr ("expected 5 fields; got " +:+ fmt_dec (Z.of_nat (length fields))))
  end.

Definition should_fire (cs : CronSchedule) (last_attempted_at now : Z) : option Z :=
  match next_after cs last_attempted_at with
  | Some next => if next <=? now then Some next else None
  | None => None
  end.

(** ** The tick *)

(** The fields of [BackupProfile] the scheduler reads. *)
Record Profile : Type := mkProfile {
  p_id : string;
  p_enabled : bool;
  p_schedule : option string;
}.

Definition active_schedule (p : Profile) : option string :=
  if p_enabled p
  then match p_schedule p with
       | Some s => if String.eqb (trim s) "" then None else Some (trim s)
       | None => None
       end
  else None.

Record SchedulerTick : Type := mkTick {
  last_attempted : gmap string Z;
  started_at : Z;
  schedules : gmap string string;
}.

Definition tick_new (started : Z) : SchedulerTick := mkTick ∅ started ∅.

Definition seed_profiles (profiles : list Profile) (t : SchedulerTick) : SchedulerTick :=
  foldl (fun t p =>
    match active_schedule p with
    | Some schedule =>
        mkTick (<[p_id p := started_at t]> (last_attempted t)) (started_at t)
          (<[p_id p := schedule]> (schedules t))
    | None => t
    end) t profiles.

Definition prune_tick (profiles : list Profile) (t : SchedulerTick) : SchedulerTick :=
  mkTick (filter (fun kv => one_of (p_id <$> profiles) (fst kv) = true) (last_attempted t))
    (started_at t)
    (filter (fun kv => one_of (p_id <$> profiles) (fst kv) = true) (schedules t)).

(** One profile of the loop: the new state and whether the profile is due. *)
Definition evaluate_profile (now : Z) (p : Profile) (t : SchedulerTick) : SchedulerTick * bool :=
  match active_schedule p with
  | None =>
      (mkTick (delete (p_id p) (last_attempted t)) (started_at t) (delete (p_id p) (schedules t)),
       false)
  | Some expr =>
      if negb (bool_decide (schedules t !! p_id p = Some expr))
      then (mkTick (<[p_id p := now]> (last_attempted t)) (started_at t)
              (<[p_id p := expr]> (schedules t)), false)
      else match parse_cron expr with
      | Err _ => (t, false)
      | Ok schedule =>
          let last := default (started_at t) (last_attempted t !! p_id p) in
          (mkTick (<[p_id p := last]> (last_attempted t)) (started_at t) (schedules t),
           match should_fire schedule last now with Some _ => true | None => false end)
      end
  end.

Fixpoint evaluate_profiles (now : Z) (profiles : list Profile) (t : SchedulerTick)
    : SchedulerTick * list string :=
  match profiles with
  | [] => (t, [])
  | p :: profiles' =>
      let '(t1, due) := evaluate_profile now p t in
      let '(t2, to_fire) := evaluate_profiles now profiles' t1 in
      (t2, if due then p_id p :: to_fire else to_fire)
  end.

Definition evaluate (profiles : list Profile) (now : Z) (t : SchedulerTick)
    : SchedulerTick * list string :=
  evaluate_profiles now profiles (prune_tick profiles t).

Definition mark_attempted (id : string) (attempted_at : Z) (t : SchedulerTick) : SchedulerTick :=
  mkTick (<[id := attempted_at]> (last_attempted t)) (started_at t) (schedules t).

(** One iteration of [run_scheduler_loop]; [accepts] is the outcome of
    [start_run_backup]. *)
Definition scheduler_iteration (profiles : list Profile) (now : Z) (accepts : string -> bool)
    (t : SchedulerTick) : SchedulerTick * list string :=
  let '(t1, due) := evaluate profiles now t in
  (foldl (fun t id => if accepts id then mark_attempted id now t else t) t1 due,
   retain accepts due).
End scheduler.

(** ** Weekdays mean what POSIX says *)

(** The values of one part of a numeric field: from [lo] to [hi] by [step]. *)
Definition posix_part (part : string) : option (Z * Z * Z) :=
  let '(base, step) := split_step part in
  if step =? 0 then None
  else if String.eqb base "*" then Some (0, 6, step)
  else match split_once "-" base with
  | Some (a, b) =>
      match parse_uint 255 a, parse_uint 255 b with
      | Some lo, Some hi => if (lo <=? hi) && (hi <=? 7) then Some (lo, hi, step) else None
      | _, _ => None
      end
  | None => match parse_uint 255 base with
            | Some v => if v <=? 7 then Some (v, v, step) else None
            | None => None
            end
  end.

(** Day [d] (Sunday is 0) is selected by one of the parts; 7 is Sunday too. *)
Definition posix_selects (field : string) (d : Z) : Prop :=
  exists part lo hi step k, part ∈ str_split "," field /\ posix_part part = Some (lo, hi, step) /\
    0 <= k /\ lo + k * step <= hi /\ (lo + k * step) mod 7 = d.

Lemma elem_of_omap_imap {A} (f : nat -> A -> option Z) (l : list A) x :
  x ∈ omap (fun y => y) (imap f l) <-> exists i a, l !! i = Some a /\ f i a = Some x.
Proof.
  rewrite list_elem_of_omap. split.
  - intros (o & (i & Hi)%list_elem_of_lookup & ->). rewrite list_lookup_imap in Hi.
    destruct (l !! i) as [a|] eqn:E; [|done]. simpl in Hi. injection Hi as Hi. eauto.
  - intros (i & a & Ha & Hf). exists (Some x). split; [|done].
    apply list_elem_of_lookup. exists i. rewrite list_lookup_imap, Ha. simpl. by rewrite Hf.
Qed.

Lemma elem_of_step_range lo hi step v :
  0 < step -> v ∈ step_by step (range_inclusive lo hi) <->
  exists k, 0 <= k /\ v = lo + k * step /\ v <= hi.
Proof.
  intros Hs. unfold step_by. rewrite elem_of_omap_imap. unfold range_inclusive.
  setoid_rewrite list_lookup_fmap. split.
  - intros (i & a & Ha & Hf).
    destruct (seq 0 _ !! i) as [i'|] eqn:E; [|done]. simpl in Ha. injection Ha as <-.
    apply lookup_seq in E as [-> Hlt]. destruct (Z.eqb_spec (Z.of_nat i mod step) 0) as [Hm|]; [|done].
    injection Hf as <-. exists (Z.of_nat i / step).
    pose proof (Z.div_mod (Z.of_nat i) step). pose proof (Z.div_pos (Z.of_nat i) step).
    split_and!; [lia| |lia]. simpl. lia.
  - intros (k & Hk & -> & Hle). exists (Z.to_nat (k * step)).
    rewrite (proj2 (lookup_seq 0 _ (Z.to_nat (k * step)) (Z.to_nat (k * step)))) by (split; [done|lia]).
    simpl. eexists. split; [done|]. rewrite Z2Nat.id by nia.
    rewrite Z.mod_mul by lia. done.
Qed.

Lemma weekday_value_spec s :
  match parse_weekday_value s with
  | Ok v => parse_uint 255 s = Some v /\ v <= 7
  | Err _ => forall v, parse_uint 255 s = Some v -> 7 < v
  end.
Proof.
  unfold parse_weekday_value. destruct (parse_uint 255 s) as [v|]; [|done].
  destruct (Z.ltb_spec 7 v); naive_solver lia.
Qed.

(** The loop body on one part agrees with the reference. *)
Lemma weekday_values_spec part base step :
  split_step part = (base, step) -> step <> 0 ->
  match weekday_values base with
  | Ok values => exists lo hi, posix_part part = Some (lo, hi, step) /\ values = range_inclusive lo hi /\
      lo <= hi
  | Err _ => posix_part part = None
  end.
Proof.
  intros E Hs. unfold weekday_values, posix_part. rewrite E.
  destruct (Z.eqb_spec step 0); [done|]. destruct (String.eqb base "*"); [naive_solver lia|].
  destruct (split_once "-" base) as [[a b]|].
  - pose proof (weekday_value_spec a) as Ha. pose proof (weekday_value_spec b) as Hb.
    destruct (parse_weekday_value a) as [lo|]; simpl; cycle 1.
    { destruct (parse_uint 255 a), (parse_uint 255 b); try done.
      specialize (Ha _ eq_refl). destruct ((_ <=? _) && _) eqn:E2; [|done]. bool_hyps. lia. }
    destruct Ha as [-> ?]. destruct (parse_weekday_value b) as [hi|]; simpl; cycle 1.
    { destruct (parse_uint 255 b); [|done].
      specialize (Hb _ eq_refl). destruct ((_ <=? _) && _) eqn:E2; [|done]. bool_hyps. lia. }
    destruct Hb as [-> ?]. destruct (Z.ltb_spec hi lo).
    + replace (lo <=? hi) with false by lia. done.
    + replace ((lo <=? hi) && (hi <=? 7)) with true by lia. eauto.
  - pose proof (weekday_value_spec base) as Hb. destruct (parse_weekday_value base) as [v|]; simpl.
    + destruct Hb as [-> ?]. replace (v <=? 7) with true by lia. exists v, v.
      split_and!; [done| |lia]. unfold range_inclusive.
      replace (v - v + 1) with 1 by lia. simpl. f_equal. lia.
    + destruct (parse_uint 255 base) as [v|]; [|done]. specialize (Hb _ eq_refl).
      by replace (v <=? 7) with false by lia.
Qed.

Lemma select_length sel values : length (select sel values) = length sel.
Proof.
  unfold select. revert sel. induction values as [|v values IH]; intros sel; simpl; [done|].
  by rewrite IH, length_insert.
Qed.

Lemma select_spec sel values d :
  length sel = 7%nat ->
  select sel values !! d = Some true <->
  sel !! d = Some true \/ (exists v, v ∈ values /\ Z.to_nat (v mod 7) = d).
Proof.
  unfold select. revert sel. induction values as [|v values IH]; intros sel Hl; simpl; [set_solver|].
  rewrite IH by (by rewrite length_insert).
  assert (Z.to_nat (v mod 7) < length sel)%nat as Hlt.
  { rewrite Hl. pose proof (Z.mod_pos_bound v 7). lia. }
  destruct (decide (Z.to_nat (v mod 7) = d)) as [<-|Hne].
  - rewrite list_lookup_insert_eq by done. split; [intros _; right; exists v; set_solver|auto].
  - rewrite list_lookup_insert_ne by done. set_solver.
Qed.

Lemma split_step_nonneg part base step : split_step part = (base, step) -> 0 <= step.
Proof.
  unfold split_step. destruct (split_once "/" part) as [[b st]|]; intros [= <- <-]; [|lia].
  destruct (parse_uint _ st) eqn:E; simpl; [apply parse_uint_range in E; lia|lia].
Qed.

(** The loop over the parts: it fails exactly on a malformed part and otherwise
    adds exactly the days the parts select. *)
Lemma select_parts_spec parts sel :
  length sel = 7%nat ->
  match select_parts parts sel with
  | Ok out => length out = 7%nat /\ Forall (fun p => is_Some (posix_part p)) parts /\
      forall d, out !! d = Some true <-> sel !! d = Some true \/
        exists part lo hi step k, part ∈ parts /\ posix_part part = Some (lo, hi, step) /\
          0 <= k /\ lo + k * step <= hi /\ Z.to_nat ((lo + k * step) mod 7) = d
  | Err _ => ~ Forall (fun p => is_Some (posix_part p)) parts
  end.
Proof.
  revert sel. induction parts as [|part parts IH]; intros sel Hl; simpl.
  { split_and!; [done|constructor|]. set_solver. }
  destruct (split_step part) as [base step] eqn:E.
  pose proof (split_step_nonneg _ _ _ E) as Hpos.
  destruct (Z.eqb_spec step 0) as [->|Hs].
  { rewrite Forall_cons. unfold posix_part. rewrite E. simpl. by intros [[? ?] _]. }
  pose proof (weekday_values_spec part base step E Hs) as Hv.
  destruct (weekday_values base) as [values|]; simpl; cycle 1.
  { rewrite Forall_cons, Hv. by intros [[? ?] _]. }
  destruct Hv as (lo & hi & Hp & -> & Hle).
  specialize (IH (select sel (step_by step (range_inclusive lo hi)))).
  rewrite select_length in IH. specialize (IH Hl).
  destruct (select_parts parts _) as [out|]; [|rewrite Forall_cons; tauto].
  destruct IH as (Hlo & HF & Hout). split_and!; [done|constructor; eauto|].
  intros d. rewrite Hout, select_spec by done. setoid_rewrite elem_of_step_range; [|lia].
  split.
  - intros [[?|(v & (k & Hk & -> & Hv) & Hd)]|(p & l & h & st & k & Hin & Hrest)]; [by left|..].
    + right. exists part, lo, hi, step, k. split_and!; [by left|done..].
    + right. exists p, l, h, st, k. split_and!; [by right|naive_solver..].
  - intros [?|(p & l & h & st & k & [->|Hin]%elem_of_cons & Hpp & Hk & Hh & Hd)]; [by do 2 left|..].
    + rewrite Hp in Hpp. injection Hpp as <- <- <-. left. right.
      exists (lo + k * step). split; [by exists k|done].
    + right. exists p, l, h, st, k. done.
Qed.

Lemma elem_of_selected_days sel d :
  d ∈ selected_days sel <-> 0 <= d /\ sel !! Z.to_nat d = Some true.
Proof.
  unfold selected_days. rewrite elem_of_omap_imap. split.
  - intros (i & [] & Hi & [= <-]). rewrite Nat2Z.id. split; [lia|done].
  - intros [Hd H]. exists (Z.to_nat d), true. split; [done|]. by rewrite Z2Nat.id.
Qed.

(** Every part selects some day: [k = 0] is in range. *)
Lemma posix_part_nonempty part lo hi step : posix_part part = Some (lo, hi, step) -> lo <= hi.
Proof.
  unfold posix_part. intros H. break_in H; bool_hyps; lia.
Qed.

(** A numeric weekday field is accepted exactly when every comma-separated
    part is well formed (a star, a number or an ascending range from 0 to 7,
    with an optional step of at least 1), and its translation lists, shifted to
    the crate's numbering in which Sunday is 1, exactly the days POSIX selects
    by it, with 0 and 7 both meaning Sunday.  The translated field is never
    empty. *)
Theorem weekday_translation_exact field :
  existsb is_ascii_alphabetic (to_bytes field) = false ->
  (is_ok (normalize_posix_weekday field) = true <->
     Forall (fun part => is_Some (posix_part part)) (str_split "," field)) /\
  (forall out, normalize_posix_weekday field = Ok out ->
     exists days, out = str_join "," ((fun d => fmt_dec (d + 1)) <$> days) /\ days <> [] /\
       forall d, d ∈ days <-> posix_selects field d).
Proof.
  intros Halpha. unfold normalize_posix_weekday. rewrite Halpha.
  pose proof (select_parts_spec (str_split "," field) (replicate 7 false) eq_refl) as Hs.
  destruct (select_parts _ _) as [sel|]; simpl; [|split; [split; [done|tauto]|done]].
  destruct Hs as (Hl & HF & Hsel).
  assert (forall d, d ∈ selected_days sel <-> posix_selects field d) as Hdays.
  { intros d. rewrite elem_of_selected_days, Hsel. unfold posix_selects. split.
    - intros [Hd [Hr|(part & lo & hi & step & k & Hin & Hp & Hk & Hle & Hm)]].
      + apply lookup_replicate in Hr as [? _]. done.
      + exists part, lo, hi, step, k. split_and!; try done.
        pose proof (Z.mod_pos_bound (lo + k * step) 7). lia.
    - intros (part & lo & hi & step & k & Hin & Hp & Hk & Hle & Hm).
      pose proof (Z.mod_pos_bound (lo + k * step) 7). split; [lia|]. right.
      exists part, lo, hi, step, k. split_and!; try done. lia. }
  assert (selected_days sel <> []) as Hne.
  { destruct (str_split "," field) as [|part parts] eqn:Ep.
    { unfold str_split in Ep. apply fmap_nil_inv in Ep. by apply split_bytes_nonempty in Ep. }
    apply Forall_cons in HF as [[[[lo hi] step] Hp] _].
    assert ((lo mod 7) ∈ selected_days sel) as Hin; [|intros E0; rewrite E0 in Hin; set_solver].
    apply Hdays. exists part, lo, hi, step, 0. rewrite Ep.
    pose proof (posix_part_nonempty _ _ _ _ Hp).
    split_and!; [set_solver|done|lia..|]. f_equal. lia. }
  assert (existsb (fun b => b) sel = true) as ->.
  { apply existsb_true_elem. destruct (selected_days sel) as [|d ds] eqn:Ed; [done|].
    assert (d ∈ selected_days sel) as Hin by (rewrite Ed; set_solver).
    apply elem_of_selected_days in Hin as [_ Hd]. exists true. split; [|done].
    by eapply list_elem_of_lookup_2. }
  simpl. split; [done|]. intros out [= <-]. eauto.
Qed.

Lemma weekday_translation_exact_witness :
  normalize_posix_weekday "5-7,1" = Ok "1,2,6,7" /\
  is_ok (normalize_posix_weekday "5-8") = false /\
  Forall (fun part => is_Some (posix_part part)) (str_split "," "5-7,1").
Proof.
  split; [vm_compute; reflexivity|]. split; [vm_compute; reflexivity|].
  apply (proj1 (weekday_translation_exact "5-7,1" eq_refl)). vm_compute. reflexivity.
Defined.

(** ** The tick starts exactly what is due *)

Section tick_props.
Context {C : Cron} {CO : CronOk C} (cron_error : string -> string).
Implicit Types (t : SchedulerTick) (p : Profile).

(** Some schedule of the expression occurs after [last], not later than [now]. *)
Definition occurs_between (cs : list Schedule) (last now : Z) : Prop :=
  exists s o, s ∈ cs /\ occurs s o /\ last < o <= now.

Lemma next_after_spec cs (t : Z) :
  match next_after cs t with
  | Some n => (exists s, s ∈ cs /\ occurs s n) /\ t < n /\
              forall s k, s ∈ cs -> occurs s k -> t < k -> n <= k
  | None => forall s k, s ∈ cs -> occurs s k -> k <= t
  end.
Proof.
  induction cs as [|s cs IH]; simpl; [set_solver|].
  pose proof (next_occurrence_Some s t) as HS. pose proof (next_occurrence_None s t) as HN.
  destruct (next_occurrence s t) as [x|], (next_after cs t) as [y|]; simpl.
  - destruct (HS x eq_refl) as (Ho & Hlt & Hmin), IH as ((s' & Hin & Ho') & Hlt' & Hmin').
    split_and!; [|lia|].
    + destruct (Z.min_spec x y) as [[_ ->]|[_ ->]]; [exists s|exists s']; set_solver.
    + intros s1 k [->|H1]%elem_of_cons Hk Htk; 
        [specialize (Hmin k Hk Htk)|specialize (Hmin' s1 k H1 Hk Htk)]; lia.
  - destruct (HS x eq_refl) as (Ho & Hlt & Hmin). split_and!; [exists s; set_solver|done|].
    intros s1 k [->|H1]%elem_of_cons Hk Htk; [auto|]. specialize (IH s1 k H1 Hk). lia.
  - destruct IH as ((s' & Hin & Ho') & Hlt' & Hmin'). split_and!; [exists s'; set_solver|done|].
    intros s1 k [->|H1]%elem_of_cons Hk Htk; [|eauto]. specialize (HN eq_refl k Hk). lia.
  - intros s1 k [->|H1]%elem_of_cons Hk; eauto.
Qed.

Lemma should_fire_spec cs last now :
  match should_fire cs last now with Some _ => true | None => false end = true <->
  occurs_between cs last now.
Proof.
  unfold should_fire, occurs_between. pose proof (next_after_spec cs last) as H.
  destruct (next_after cs last) as [n|].
  - destruct H as ((s & Hs & Ho) & Hlt & Hmin). destruct (Z.leb_spec n now).
    + split; [intros _|done]. exists s, n. split_and!; done.
    + split; [done|]. intros (s' & o & Hs' & Ho' & ? & ?). specialize (Hmin s' o Hs' Ho'). lia.
  - split; [done|]. intros (s' & o & Hs' & Ho' & ? & ?). specialize (H s' o Hs' Ho'). lia.
Qed.

(** Profile [p] is due in state [t]. *)
Definition due now t p : Prop :=
  exists expr cs, active_schedule p = Some expr /\ schedules t !! p_id p = Some expr /\
    parse_cron cron_error expr = Ok cs /\
    occurs_between cs (default (started_at t) (last_attempted t !! p_id p)) now.

(** The entries of one profile in the tick state. *)
Definition entries t (id : string) : option Z * option string * Z :=
  (last_attempted t !! id, schedules t !! id, started_at t).

Lemma due_entries now t t' p : entries t (p_id p) = entries t' (p_id p) -> due now t p <-> due now t' p.
Proof. unfold due, entries. intros [= -> -> ->]. done. Qed.

Lemma evaluate_profile_frame now p t id :
  id <> p_id p -> entries (fst (evaluate_profile cron_error now p t)) id = entries t id.
Proof.
  intros Hne. unfold evaluate_profile, entries. destruct (active_schedule p); simpl.
  - destruct (negb _); simpl; [by rewrite !lookup_insert_ne|].
    destruct (parse_cron _ _); simpl; [by rewrite lookup_insert_ne|done].
  - by rewrite !lookup_delete_ne.
Qed.

Lemma evaluate_profile_entries now p t t' :
  entries t (p_id p) = entries t' (p_id p) ->
  entries (fst (evaluate_profile cron_error now p t)) (p_id p) =
  entries (fst (evaluate_profile cron_error now p t')) (p_id p).
Proof.
  unfold evaluate_profile, entries. intros [= H1 H2 H3]. rewrite <- H1, <- H2, <- H3.
  destruct (active_schedule p); simpl; [|by rewrite !lookup_delete_eq].
  destruct (negb _); simpl; [by rewrite !lookup_insert_eq|].
  destruct (parse_cron _ _); simpl; [by rewrite !lookup_insert_eq, H2|by rewrite H1, H2, H3].
Qed.

Lemma evaluate_profile_spec now p t :
  let '(t', b) := evaluate_profile cron_error now p t in
  (b = true <-> due now t p) /\
  forall expr, active_schedule p = Some expr ->
    schedules t' !! p_id p = Some expr /\
    (schedules t !! p_id p <> Some expr -> last_attempted t' !! p_id p = Some now) /\
    (schedules t !! p_id p = Some expr -> is_ok (parse_cron cron_error expr) = true ->
       last_attempted t' !! p_id p = Some (default (started_at t) (last_attempted t !! p_id p))).
Proof.
  unfold evaluate_profile, due. destruct (active_schedule p) as [expr|]; [|naive_solver].
  destruct (bool_decide (schedules t !! p_id p = Some expr)) eqn:E; simpl.
  - apply bool_decide_eq_true in E. destruct (parse_cron cron_error expr) as [cs|err] eqn:Ep; simpl.
    + rewrite should_fire_spec. split.
      * split; [intros Ho; by exists expr, cs|].
        intros (ex & cs' & [= <-] & _ & Hc & Ho). rewrite Ep in Hc. by injection Hc as <-.
      * intros ? [= <-]. by rewrite lookup_insert_eq.
    + split; [|intros ? [= <-]; by rewrite Ep].
      split; [done|]. intros (ex & cs' & [= <-] & _ & Hc & _). congruence.
  - apply bool_decide_eq_false in E. split; [naive_solver|]. intros ? [= <-].
    rewrite !lookup_insert_eq. naive_solver.
Qed.

Lemma evaluate_profiles_frame now ps t id :
  id ∉ (p_id <$> ps) -> entries (fst (evaluate_profiles cron_error now ps t)) id = entries t id.
Proof.
  revert t. induction ps as [|p ps IH]; intros t Hid; simpl; [done|].
  rewrite fmap_cons, not_elem_of_cons in Hid. destruct Hid as [Hne Hid].
  pose proof (evaluate_profile_frame now p t id Hne) as Hf.
  destruct (evaluate_profile cron_error now p t) as [t1 b]. specialize (IH t1 Hid).
  destruct (evaluate_profiles cron_error now ps t1) as [t2 fire]. simpl in *. congruence.
Qed.

Lemma evaluate_profiles_ids now ps t id :
  id ∈ snd (evaluate_profiles cron_error now ps t) -> id ∈ (p_id <$> ps).
Proof.
  revert t. induction ps as [|p ps IH]; intros t; simpl; [done|].
  destruct (evaluate_profile cron_error now p t) as [t1 b]. specialize (IH t1).
  destruct (evaluate_profiles cron_error now ps t1) as [t2 fire]. destruct b; set_solver.
Qed.

Lemma evaluate_profiles_spec now ps t p :
  NoDup (p_id <$> ps) -> p ∈ ps ->
  let '(t', fire) := evaluate_profiles cron_error now ps t in
  (p_id p ∈ fire <-> due now t p) /\
  entries t' (p_id p) = entries (fst (evaluate_profile cron_error now p t)) (p_id p).
Proof.
  revert t. induction ps as [|q ps IH]; intros t Hnd Hp; simpl; [set_solver|].
  rewrite fmap_cons in Hnd. apply NoDup_cons in Hnd as [Hq Hnd].
  destruct (evaluate_profile cron_error now q t) as [t1 b] eqn:Eq.
  destruct (evaluate_profiles cron_error now ps t1) as [t2 fire] eqn:Er.
  apply elem_of_cons in Hp as [->|Hp].
  - pose proof (evaluate_profile_spec now q t) as Hs. rewrite Eq in *. destruct Hs as [Hb _].
    pose proof (evaluate_profiles_frame now ps t1 _ Hq) as Hf. rewrite Er in Hf.
    pose proof (evaluate_profiles_ids now ps t1 (p_id q)) as Hids. rewrite Er in Hids.
    split; [|done]. simpl in Hids. destruct b; set_solver.
  - assert (p_id p <> p_id q) as Hne.
    { intros E. apply Hq. rewrite <- E. apply list_elem_of_fmap. eauto. }
    pose proof (evaluate_profile_frame now q t _ Hne) as Hf. rewrite Eq in Hf. simpl in Hf.
    specialize (IH t1 Hnd Hp). rewrite Er in IH. destruct IH as [Hfire Hent].
    rewrite (due_entries now t t1) by done. split.
    + destruct b; [rewrite elem_of_cons|]; naive_solver.
    + rewrite Hent. by apply evaluate_profile_entries.
Qed.

Lemma prune_entries ps t id : id ∈ (p_id <$> ps) -> entries (prune_tick ps t) id = entries t id.
Proof.
  intros Hid%one_of_spec. unfold entries, prune_tick; simpl. f_equal. f_equal.
  - destruct (last_attempted t !! id) as [x|] eqn:E.
    + by apply map_lookup_filter_Some.
    + apply map_lookup_filter_None. by left.
  - destruct (schedules t !! id) as [x|] eqn:E.
    + by apply map_lookup_filter_Some.
    + apply map_lookup_filter_None. by left.
Qed.

Lemma mark_attempted_fold now (accepts : string -> bool) ids t id :
  entries (foldl (fun t i => if accepts i then mark_attempted i now t else t) t ids) id =
  (if bool_decide (id ∈ ids) && accepts id then Some now else last_attempted t !! id,
   schedules t !! id, started_at t).
Proof.
  revert t. induction ids as [|i ids IH]; intros t; simpl; [done|]. rewrite IH.
  destruct (decide (id = i)) as [->|Hne].
  - rewrite (bool_decide_eq_true_2 (i ∈ i :: ids)) by set_solver. simpl.
    destruct (accepts i) eqn:Ea; simpl; [|by rewrite andb_false_r].
    rewrite lookup_insert_eq. by destruct (bool_decide _).
  - rewrite (bool_decide_ext (id ∈ i :: ids) (id ∈ ids)) by set_solver.
    destruct (accepts i); simpl; [|done]. by rewrite lookup_insert_ne.
Qed.

(** One round of the scheduler starts a profile exactly when it is enabled,
    its schedule is the one seen on an earlier round and parses, an occurrence
    lies after its last attempt and not after now, and the job is admitted.
    A started profile counts as attempted now, so the same occurrence never
    starts it twice; one whose job was refused keeps its last attempt and stays
    due; a new or changed schedule starts nothing and counts from now, so past
    occurrences are not caught up. *)
Theorem scheduler_starts_exactly_due profiles now accepts t p :
  NoDup (p_id <$> profiles) -> p ∈ profiles ->
  let '(t', started) := scheduler_iteration cron_error profiles now accepts t in
  (p_id p ∈ started <-> due now t p /\ accepts (p_id p) = true) /\
  forall expr, active_schedule p = Some expr ->
    schedules t' !! p_id p = Some expr /\
    (schedules t !! p_id p <> Some expr ->
       ~ (p_id p ∈ started) /\ last_attempted t' !! p_id p = Some now) /\
    (schedules t !! p_id p = Some expr -> is_ok (parse_cron cron_error expr) = true ->
       p_id p ∈ started -> last_attempted t' !! p_id p = Some now) /\
    (schedules t !! p_id p = Some expr -> is_ok (parse_cron cron_error expr) = true ->
       ~ (p_id p ∈ started) ->
       last_attempted t' !! p_id p = Some (default (started_at t) (last_attempted t !! p_id p))).
Proof.
  intros Hnd Hp. unfold scheduler_iteration, evaluate.
  assert (entries (prune_tick profiles t) (p_id p) = entries t (p_id p)) as Hpr.
  { apply prune_entries, list_elem_of_fmap. eauto. }
  pose proof (evaluate_profiles_spec now profiles (prune_tick profiles t) p Hnd Hp) as He.
  destruct (evaluate_profiles cron_error now profiles (prune_tick profiles t)) as [t1 fire].
  destruct He as [Hfire Hent]. rewrite (due_entries now _ t) in Hfire by done.
  pose proof (mark_attempted_fold now accepts fire t1 (p_id p)) as Hm.
  set (t' := foldl _ t1 fire) in *. unfold entries in Hm. injection Hm as Hla Hsc _.
  pose proof (elem_of_retain accepts fire (p_id p)) as Hret.
  pose proof (evaluate_profile_spec now p (prune_tick profiles t)) as Hs.
  destruct (evaluate_profile cron_error now p (prune_tick profiles t)) as [t0 b].
  destruct Hs as [_ Hs]. unfold entries in Hent.
  assert (last_attempted (prune_tick profiles t) !! p_id p = last_attempted t !! p_id p) as P1
    by exact (f_equal (fun e => fst (fst e)) Hpr).
  assert (schedules (prune_tick profiles t) !! p_id p = schedules t !! p_id p) as P2
    by exact (f_equal (fun e => snd (fst e)) Hpr).
  assert (started_at (prune_tick profiles t) = started_at t) as P3 by done.
  simpl fst in Hent. injection Hent as E1 E2 _.
  split; [tauto|]. intros expr Hex. destruct (Hs expr Hex) as (S1 & S2 & S3).
  rewrite P2 in S2, S3. rewrite P1, P3 in S3. rewrite <- E1 in S2, S3. rewrite <- E2 in S1.
  split_and!.
  - congruence.
  - intros Hne. assert (p_id p ∉ fire) as Hnf.
    { rewrite Hfire. intros (ex & cs & H1 & H2 & _). congruence. }
    split; [tauto|]. rewrite Hla. rewrite bool_decide_eq_false_2 by done. simpl. auto.
  - intros _ _ [Hin Ha]%Hret. rewrite Hla, bool_decide_eq_true_2, Ha by done. done.
  - intros H1 H2 Hns. rewrite Hla.
    destruct (bool_decide (p_id p ∈ fire) && accepts (p_id p)) eqn:E; [|auto].
    apply andb_true_iff in E as [Ein%bool_decide_eq_true ?]. tauto.
Qed.
End tick_props.

(** ** A concrete scheduler *)

(** A crate that knows one expression, three o'clock every day, with times in
    seconds. *)
#[export] Instance daily_cron : Cron := {|
  Schedule := unit;
  schedule_from_str s := if String.eqb s "0 0 3 * * 1,2,3,4,5,6,7" then Some tt else None;
  next_occurrence _ t := Some ((t - 10800) / 86400 * 86400 + 86400 + 10800);
|}.

#[export] Instance daily_cron_ok : CronOk daily_cron.
Proof.
  refine {| occurs (_ : Schedule) t := t mod 86400 = 10800 |}.
  - intros s t n [= <-]. pose proof (Z.div_mod (t - 10800) 86400).
    pose proof (Z.mod_pos_bound (t - 10800) 86400). split_and!; [|lia|].
    + replace (_ + 10800) with (10800 + ((t - 10800) / 86400 + 1) * 86400) by lia.
      by rewrite Z.mod_add.
    + intros k Hk Hlt. pose proof (Z.div_mod k 86400). nia.
  - intros s t [=].
Defined.

Definition nightly : Profile := mkProfile "p1" true (Some "0 3 * * *").

(** Seeded at noon; the round a minute after three the next day starts it. *)
Lemma scheduler_starts_exactly_due_witness :
  let t0 := seed_profiles [nightly] (tick_new 43200) in
  let '(t', started) :=
    scheduler_iteration (fun e => e) [nightly] 97260 (fun _ => true) t0 in
  started = ["p1"] /\ last_attempted t' !! "p1" = Some 97260.
Proof.
  pose proof (scheduler_starts_exactly_due (fun e => e) [nightly] 97260 (fun _ => true)
    (seed_profiles [nightly] (tick_new 43200)) nightly) as H.
  cbv zeta. destruct (scheduler_iteration _ _ _ _ _) as [t' started] eqn:E.
  destruct H as [_ H]; [apply NoDup_singleton|by left|].
  vm_compute in E. injection E as <- <-. split; [reflexivity|].
  destruct (H "0 3 * * *" eq_refl) as (_ & _ & H2 & _). apply H2; [reflexivity..|]. by left.
Defined.
