(* ===== verification/GuestShare.v ===== *)
(** * Guest shares (nasty-engine/src/guestshare.rs, and the unlock handler of main.rs)

    Share records with their expiry, download cap and revocation, the public
    look-up, password-unlock grants, and the bounded sliding-window limiter in
    front of password checks.  The record directory is a map from share id to
    record; a failing save leaves it unchanged (records are replaced by a
    rename).  Every change of a record happens under one lock.  File-system
    look-ups are arguments; serving directories, files and archives through
    descriptors is not modelled. *)

From Stdlib Require Import ZArith Lia Ascii String.
From stdpp Require Import base list gmap strings sorting.
From S2P Require Import Prelude RustStr Net RateLimit Auth AuthInv AuthProps.

Definition GRANT_TTL_SECS : Z := 3600.
Definition UNLOCK_MAX_FAILURES : nat := 10.
Definition UNLOCK_WINDOW_SECS : Z := 15 * 60.
Definition UNLOCK_MAX_TRACKED_KEYS : nat := Z.to_nat 4096.
Definition UNLOCK_REQUEST_MAX : nat := 30.
Definition UNLOCK_REQUEST_WINDOW_SECS : Z := 60.
Definition UNLOCK_MAX_TRACKED_IPS : nat := Z.to_nat 4096.
Definition MAX_PUBLIC_PATH_BYTES : Z := 4096.
Definition MAX_SHARE_ROOTS : nat := 32.

Definition u32_max : Z := 2 ^ 32 - 1.
Definition u32_saturating_add1 (x : Z) : Z := Z.min u32_max (x + 1).

Inductive GuestShareError : Type :=
| ShNotFound (id : string) | ShNotRevoked (id : string) | NoPaths | TooManyPaths
| PathNotFound (p : string) | PathNotInFilesystem (p : string) | InvalidPath (p : string)
| ShHash (e : string) | PasswordCheckBusy | ShIo (e : string).

Record GuestShare : Type := mkShare {
  sh_id : string;
  sh_token_hash : string;
  sh_paths : list string;
  sh_created_by : string;
  sh_created_at : Z;
  sh_expires_at : option Z;
  sh_password_hash : option string;
  sh_max_downloads : option Z;
  sh_downloads : Z;
  sh_views : Z;
  sh_revoked : bool;
  sh_hidden : bool;
  sh_note : option string;
}.

Definition is_accessible (s : GuestShare) (now : Z) : bool :=
  negb (sh_revoked s)
  && match sh_expires_at s with None => true | Some e => now <? e end
  && match sh_max_downloads s with None => true | Some m => sh_downloads s <? m end.

Definition set_revoked (s : GuestShare) : GuestShare :=
  mkShare (sh_id s) (sh_token_hash s) (sh_paths s) (sh_created_by s) (sh_created_at s)
    (sh_expires_at s) (sh_password_hash s) (sh_max_downloads s) (sh_downloads s) (sh_views s)
    true (sh_hidden s) (sh_note s).
Definition set_hidden (s : GuestShare) : GuestShare :=
  mkShare (sh_id s) (sh_token_hash s) (sh_paths s) (sh_created_by s) (sh_created_at s)
    (sh_expires_at s) (sh_password_hash s) (sh_max_downloads s) (sh_downloads s) (sh_views s)
    (sh_revoked s) true (sh_note s).
Definition add_view (s : GuestShare) : GuestShare :=
  mkShare (sh_id s) (sh_token_hash s) (sh_paths s) (sh_created_by s) (sh_created_at s)
    (sh_expires_at s) (sh_password_hash s) (sh_max_downloads s) (sh_downloads s)
    (u32_saturating_add1 (sh_views s)) (sh_revoked s) (sh_hidden s) (sh_note s).
Definition add_download (s : GuestShare) : GuestShare :=
  mkShare (sh_id s) (sh_token_hash s) (sh_paths s) (sh_created_by s) (sh_created_at s)
    (sh_expires_at s) (sh_password_hash s) (sh_max_downloads s)
    (u32_saturating_add1 (sh_downloads s)) (sh_views s) (sh_revoked s) (sh_hidden s) (sh_note s).

(** ** Paths *)

Definition forbidden_char (c : ascii) : bool :=
  (code c =? 34) || (code c =? 39) || (code c =? 92).

Definition has_forbidden (s : string) : bool :=
  has_control (to_bytes s) || existsb forbidden_char (to_bytes s).

(** [Path::components] of a Unix path. *)
Inductive Component : Type := RootDir | CurDir | ParentDir | Normal (name : string).

Definition piece_component (p : bytes) : option Component :=
  match of_bytes p with
  | "" => None
  | "." => None
  | ".." => Some ParentDir
  | s => Some (Normal s)
  end.

(** Empty pieces and [.] are skipped, except that a leading [.] is kept. *)
Definition components (path : string) : list Component :=
  let pieces := split_bytes "/" (to_bytes path) in
  match pieces with
  | [] => []
  | first :: rest =>
      (match of_bytes first with
       | "" => if String.eqb path "" then [] else [RootDir]
       | "." => [CurDir]
       | ".." => [ParentDir]
       | s => [Normal s]
       end) ++ omap piece_component rest
  end.

Definition is_absolute (path : string) : bool := starts_with "/" path.

Definition public_name_is_supported (name : string) : bool :=
  negb (String.eqb name "") && negb (has_forbidden name).

Fixpoint normal_names (cs : list Component) : option (list string) :=
  match cs with
  | [] => Some []
  | Normal name :: cs' =>
      if public_name_is_supported name
      then match normal_names cs' with Some names => Some (name :: names) | None => None end
      else None
  | _ :: _ => None
  end.

(** The components below the shared root, and the path shown to the guest. *)
Definition public_relative_path (requested : string) : option (list string * string) :=
  if (MAX_PUBLIC_PATH_BYTES <? Z.of_nat (String.length requested)) || has_forbidden requested
  then None
  else if is_absolute requested then None
  else match normal_names (components requested) with
  | Some names => Some (names, str_join "/" names)
  | None => None
  end.

(** [Path::starts_with], by components. *)
Fixpoint component_prefix (root path : list bytes) : bool :=
  match root, path with
  | [], _ => true
  | r :: root', p :: path' => bool_decide (r = p) && component_prefix root' path'
  | _ :: _, [] => false
  end.

Definition path_pieces (p : string) : list bytes :=
  retain (fun x => negb (bool_decide (x = []))) (split_bytes "/" (to_bytes p)).

Definition path_starts_with (root path : string) : bool :=
  component_prefix (path_pieces root) (path_pieces path).

(** ** The bounded limiter *)

Record BoundedRateLimiter : Type := mkLimiter {
  bl_entries : gmap string (list Z);
  bl_last_sweep_at : option Z;
}.

Definition limiter_default : BoundedRateLimiter := mkLimiter ∅ None.

(** [timestamps.last().is_some_and(..)]. *)
Definition entry_live (now window : Z) (ts : list Z) : bool :=
  match List.rev ts with
  | last :: _ => (last <=? now) && (now - last <? window)
  | [] => false
  end.

Definition sweep_expired (now window : Z) (l : BoundedRateLimiter) : BoundedRateLimiter :=
  mkLimiter (filter (fun kv => entry_live now window (snd kv) = true) (bl_entries l)) (Some now).

Definition in_window (now window ts : Z) : bool := (ts <=? now) && (now - ts <? window).

Definition reserve (key : string) (now window : Z) (max_attempts max_keys : nat)
    (l : BoundedRateLimiter) : BoundedRateLimiter * bool :=
  let l := match bl_last_sweep_at l with
           | Some last => if now <? last then mkLimiter ∅ (Some now) else l
           | None => l
           end in
  let l := if match bl_last_sweep_at l with
              | None => true
              | Some last => window <=? now - last
              end
           then sweep_expired now window l else l in
  match bl_entries l !! key with
  | Some ts =>
      let ts := retain (in_window now window) ts in
      if (max_attempts <=? length ts)%nat
      then (mkLimiter (<[key := ts]> (bl_entries l)) (bl_last_sweep_at l), false)
      else (mkLimiter (<[key := ts ++ [now]]> (bl_entries l)) (bl_last_sweep_at l), true)
  | None =>
      let l := if (max_keys <=? size (bl_entries l))%nat
                  && match bl_last_sweep_at l with None => true | Some last => 1 <=? now - last end
               then sweep_expired now window l else l in
      if (max_keys <=? size (bl_entries l))%nat then (l, false)
      else (mkLimiter (<[key := [now]]> (bl_entries l)) (bl_last_sweep_at l), true)
  end.

Definition limiter_clear (key : string) (l : BoundedRateLimiter) : BoundedRateLimiter :=
  mkLimiter (delete key (bl_entries l)) (bl_last_sweep_at l).

(** ** The service *)

Section guestshare.
Context {L : AuthLibs}.

Record GrantEntry : Type := mkGrant {
  gr_share_id : string;
  gr_expires_at : Z;
}.

Record GuestShareService : Type := mkGuestShares {
  gs_records : gmap string GuestShare;
  gs_grants : gmap string GrantEntry;
  gs_unlock_failures : BoundedRateLimiter;
  gs_unlock_requests : BoundedRateLimiter;
}.

Abbreviation shop := (stm GuestShareService GuestShareError).

Definition set_records (r : gmap string GuestShare) (s : GuestShareService) : GuestShareService :=
  mkGuestShares r (gs_grants s) (gs_unlock_failures s) (gs_unlock_requests s).

(** [state_dir.load(id)] and [state_dir.save(id, share)]. *)
Definition load_share (id : string) : shop GuestShare := fun s =>
  (s, ok_or (gs_records s !! id) (ShNotFound id)).

Definition save_share (sv : option string) (id : string) (share : GuestShare) : shop unit := fun s =>
  match sv with
  | None => (set_records (<[id := share]> (gs_records s)) s, Ok tt)
  | Some e => (s, Err (ShIo e))
  end.

(** [canonicalize] and [metadata] of the file system: the canonical path, and
    whether a path is a regular file or a directory. *)
Context (fs_canonicalize : string -> option string) (fs_is_file_or_dir : string -> option bool).

Definition canonicalize_under (root requested : string) : result string GuestShareError :=
  if has_forbidden requested then Err (InvalidPath requested)
  else match fs_canonicalize requested with
  | None => Err (PathNotFound requested)
  | Some canonical =>
      if negb (path_starts_with root canonical) then Err (PathNotInFilesystem requested)
      else if bool_decide (path_pieces canonical = path_pieces root) then Err (InvalidPath requested)
      else match fs_is_file_or_dir canonical with
      | None => Err (PathNotFound requested)
      | Some false => Err (InvalidPath requested)
      | Some true => Ok canonical
      end
  end.

Fixpoint canonicalize_all (root : string) (ps : list string) : result (list string) GuestShareError :=
  match ps with
  | [] => Ok []
  | p :: ps' =>
      c <-? canonicalize_under root p ;;
      cs <-? canonicalize_all root ps' ;;
      Ok (c :: cs)
  end.

(** [hash] is the outcome of hashing the password; [id] and [token] are fresh. *)
Definition create_share (now : Z) (id token fs_root : string) (hash : result string string)
    (sv : option string) (paths : list string) (expires_at : option Z) (password : option string)
    (max_downloads : option Z) (note : option string) (created_by : string)
    : shop (GuestShare * string) :=
  m_lift (match paths with [] => Err NoPaths | _ => Ok tt end) ;;;
  m_lift (if (MAX_SHARE_ROOTS <? length paths)%nat then Err TooManyPaths else Ok tt) ;;;
  (canonical_paths <~ m_lift (canonicalize_all fs_root paths) ;;
   password_hash <~ m_lift (match password with
     | Some pw => if String.eqb pw "" then Ok None
                  else match hash with Ok h => Ok (Some h) | Err e => Err (ShHash e) end
     | None => Ok None
     end) ;;
   (let share := mkShare id (sha256_hex token) canonical_paths created_by now expires_at
                   password_hash max_downloads 0 0 false false note in
    save_share sv id share ;;;
    m_ret (share, token))).

Definition revoke (sv : option string) (id : string) : shop GuestShare :=
  share <~ load_share id ;;
  if sh_revoked share then m_ret share
  else save_share sv (sh_id share) (set_revoked share) ;;; m_ret (set_revoked share).

Definition remove (sv : option string) (id : string) : shop unit :=
  share <~ load_share id ;;
  if negb (sh_revoked share) then m_throw (ShNotRevoked id)
  else if sh_hidden share then m_ret tt
  else save_share sv (sh_id share) (set_hidden share).

(** Best effort; [locked]: another mutation holds the lock and the view is
    dropped. *)
Definition record_view (locked : bool) (sv : option string) (id : string) : shop unit :=
  if locked then m_ret tt
  else fun s =>
    match gs_records s !! id with
    | Some share => (fst (save_share sv id (add_view share) s), Ok tt)
    | None => (s, Ok tt)
    end.

Definition register_download (sv : option string) (id : string) (now : Z) : shop unit :=
  share <~ load_share id ;;
  if negb (is_accessible share now) then m_throw (ShNotFound id)
  else save_share sv (sh_id share) (add_download share).

(** The records in some order of the directory. *)
Definition lookup_active (token : string) (now : Z) (s : GuestShareService) : option GuestShare :=
  find_first (fun share => String.eqb (sh_token_hash share) (sha256_hex token)
                           && is_accessible share now)
    (snd <$> map_to_list (gs_records s)).

(** ** Grants and unlocking *)

Definition live_grants (now : Z) (g : gmap string GrantEntry) : gmap string GrantEntry :=
  filter (fun kv => now < gr_expires_at (snd kv)) g.

Definition mint_grant (token share_id : string) (now : Z) (s : GuestShareService)
    : GuestShareService :=
  mkGuestShares (gs_records s)
    (<[token := mkGrant share_id (now + GRANT_TTL_SECS)]> (live_grants now (gs_grants s)))
    (gs_unlock_failures s) (gs_unlock_requests s).

Definition check_grant (grant share_id : string) (now : Z) (s : GuestShareService)
    : GuestShareService * bool :=
  let g := live_grants now (gs_grants s) in
  (mkGuestShares (gs_records s) g (gs_unlock_failures s) (gs_unlock_requests s),
   match g !! grant with
   | Some e => String.eqb (gr_share_id e) share_id && (now <? gr_expires_at e)
   | None => false
   end).

Definition allow_unlock_request (ip : string) (now : Z) (s : GuestShareService)
    : GuestShareService * bool :=
  let '(l, b) := reserve (ip_bucket ip) now UNLOCK_REQUEST_WINDOW_SECS UNLOCK_REQUEST_MAX
                   UNLOCK_MAX_TRACKED_IPS (gs_unlock_requests s) in
  (mkGuestShares (gs_records s) (gs_grants s) (gs_unlock_failures s) l, b).

Definition unlock_failure_key (ip token : string) : string :=
  ip_bucket ip +:+ "|" +:+ sha256_hex token.

Definition reserve_unlock_attempt (ip token : string) (now : Z) (s : GuestShareService)
    : GuestShareService * bool :=
  let '(l, b) := reserve (unlock_failure_key ip token) now UNLOCK_WINDOW_SECS UNLOCK_MAX_FAILURES
                   UNLOCK_MAX_TRACKED_KEYS (gs_unlock_failures s) in
  (mkGuestShares (gs_records s) (gs_grants s) l (gs_unlock_requests s), b).

Definition clear_unlock_failures (ip token : string) (s : GuestShareService) : GuestShareService :=
  mkGuestShares (gs_records s) (gs_grants s)
    (limiter_clear (unlock_failure_key ip token) (gs_unlock_failures s)) (gs_unlock_requests s).

(** [busy]: no permit for a password check; [task_ok]: the worker task did not
    fail. *)
Definition verify_share_password (busy task_ok : bool) (share : GuestShare) (password : string)
    : result bool GuestShareError :=
  match sh_password_hash share with
  | None => Ok true
  | Some hash => if busy then Err PasswordCheckBusy
                 else Ok (task_ok && verify_password password hash)
  end.

Inductive UnlockReply : Type :=
| TooManyRequests | NotAvailable | IncorrectPassword | Unlocked (share_id grant : string).

(** [public_share_unlock_handler] up to the password check, and after a correct
    password.  Other requests run between the two. *)
Definition unlock_begin (now : Z) (busy task_ok : bool) (ip token password : string)
    (s : GuestShareService) : GuestShareService * option UnlockReply :=
  let '(s1, allowed) := allow_unlock_request ip now s in
  if negb allowed then (s1, Some TooManyRequests)
  else match lookup_active token now s1 with
  | None => (s1, Some NotAvailable)
  | Some share =>
      let '(s2, reserved) := reserve_unlock_attempt ip token now s1 in
      if negb reserved then (s2, Some TooManyRequests)
      else match verify_share_password busy task_ok share password with
      | Err PasswordCheckBusy => (s2, Some TooManyRequests)
      | Err _ => (s2, Some NotAvailable)
      | Ok false => (s2, Some IncorrectPassword)
      | Ok true => (s2, None)
      end
  end.

(** [meta_ok]: the metadata of the share could be read. *)
Definition unlock_finish (now : Z) (grant : string) (meta_ok : bool) (ip token : string)
    (s : GuestShareService) : GuestShareService * UnlockReply :=
  let s1 := clear_unlock_failures ip token s in
  match lookup_active token now s1 with
  | None => (s1, NotAvailable)
  | Some share =>
      if meta_ok then (mint_grant grant (sh_id share) now s1, Unlocked (sh_id share) grant)
      else (s1, NotAvailable)
  end.
End guestshare.

(** ** Expiry, cap and revocation hold over any history *)

Section share_props.
Context {L : AuthLibs}.
Context (fs_canonicalize : string -> option string) (fs_is_file_or_dir : string -> option bool).
Implicit Types (s : GuestShareService) (sh : GuestShare).

Inductive ShareOp : Type :=
| SoCreate (now : Z) (id token fs_root : string) (hash : result string string) (sv : option string)
    (paths : list string) (expires_at : option Z) (password : option string)
    (max_downloads : option Z) (note : option string) (created_by : string)
| SoRevoke (sv : option string) (id : string)
| SoRemove (sv : option string) (id : string)
| SoView (locked : bool) (sv : option string) (id : string)
| SoDownload (sv : option string) (id : string) (now : Z).

Definition finish {A} (r : GuestShareService * result A GuestShareError) : GuestShareService * bool :=
  (fst r, is_ok (snd r)).

Definition run_share_op (op : ShareOp) s : GuestShareService * bool :=
  match op with
  | SoCreate now id token root hash sv paths ex pw mx note by_ =>
      finish (create_share fs_canonicalize fs_is_file_or_dir now id token root hash sv paths ex pw
                mx note by_ s)
  | SoRevoke sv id => finish (revoke sv id s)
  | SoRemove sv id => finish (remove sv id s)
  | SoView locked sv id => finish (record_view locked sv id s)
  | SoDownload sv id now => finish (register_download sv id now s)
  end.

(** The history of a run: each operation with its outcome. *)
Fixpoint run_share_ops (ops : list ShareOp) s : GuestShareService * list (ShareOp * bool) :=
  match ops with
  | [] => (s, [])
  | op :: ops' =>
      let '(s1, ok) := run_share_op op s in
      let '(s2, hist) := run_share_ops ops' s1 in
      (s2, (op, ok) :: hist)
  end.

Definition creates (id : string) (op : ShareOp) : bool :=
  match op with SoCreate _ id' _ _ _ _ _ _ _ _ _ _ => String.eqb id' id | _ => false end.

(** The times of the downloads of [id] that were counted and served. *)
Definition served (id : string) (hist : list (ShareOp * bool)) : list Z :=
  omap (fun e => match e with
                 | (SoDownload _ id' now, true) => if String.eqb id' id then Some now else None
                 | _ => None
                 end) hist.

Definition records_wf s : Prop := forall id sh, gs_records s !! id = Some sh -> sh_id sh = id.

(** What no operation changes about a share, besides its counters and flags. *)
Definition same_terms sh sh' : Prop :=
  sh_id sh' = sh_id sh /\ sh_token_hash sh' = sh_token_hash sh /\
  sh_expires_at sh' = sh_expires_at sh /\ sh_max_downloads sh' = sh_max_downloads sh /\
  (sh_revoked sh = true -> sh_revoked sh' = true).

Lemma save_share_frame sv i new s id sh :
  gs_records s !! id = Some sh ->
  exists sh', gs_records (fst (save_share sv i new s)) !! id = Some sh' /\
    (sh' = sh \/ (sv = None /\ i = id /\ sh' = new)).
Proof.
  intros Hs. unfold save_share. destruct sv; simpl; [eauto|].
  destruct (decide (i = id)) as [->|Hne].
  - rewrite lookup_insert_eq. eauto 10.
  - rewrite lookup_insert_ne by done. eauto.
Qed.

Lemma save_share_wf sv i new s :
  records_wf s -> sh_id new = i -> records_wf (fst (save_share sv i new s)).
Proof.
  intros Hwf Hi. unfold save_share. destruct sv; simpl; [done|].
  intros id sh H. cbn in H. apply lookup_insert_Some in H as [[<- <-]|[_ ?]]; eauto.
Qed.

Lemma run_share_op_wf op s : records_wf s -> records_wf (fst (run_share_op op s)).
Proof.
  intros Hwf. destruct op as [now id token root hash sv paths ex pw mx note by_|sv id|sv id
    |locked sv id|sv id now]; unfold run_share_op, finish; cbn [fst].
  - unfold create_share, m_bind, m_lift, m_ret.
    repeat (case_match; cbn [fst]; simplify_eq; try done).
    all: match goal with H : save_share ?sv ?i ?n ?s0 = _ |- _ =>
      pose proof (save_share_wf sv i n s0 Hwf eq_refl) as Hw; by rewrite H in Hw end.
  - unfold revoke, m_bind, load_share, ok_or. destruct (gs_records s !! id) as [sh|]; [|done].
    destruct (sh_revoked sh); [done|].
    pose proof (save_share_wf sv (sh_id sh) (set_revoked sh) s Hwf eq_refl) as Hw.
    unfold m_bind. by destruct (save_share _ _ _ s) as [? []].
  - unfold remove, m_bind, load_share, ok_or. destruct (gs_records s !! id) as [sh|]; [|done].
    destruct (sh_revoked sh); [|done]. simpl. destruct (sh_hidden sh); [done|].
    by apply save_share_wf.
  - unfold record_view. destruct locked; [done|].
    destruct (gs_records s !! id) as [sh|] eqn:E; [|done]. cbn [fst].
    apply save_share_wf; [done|]. simpl. by apply Hwf.
  - unfold register_download, m_bind, load_share, ok_or.
    destruct (gs_records s !! id) as [sh|]; [|done].
    destruct (is_accessible sh now); [|done]. simpl. by apply save_share_wf.
Qed.

(** One operation and one share that it does not create. *)
Lemma run_share_op_spec op s id sh :
  records_wf s -> gs_records s !! id = Some sh -> creates id op = false ->
  let '(s', ok) := run_share_op op s in
  exists sh', gs_records s' !! id = Some sh' /\ same_terms sh sh' /\
    match served id [(op, ok)] with
    | [] => sh_downloads sh' = sh_downloads sh
    | now :: _ => is_accessible sh now = true /\
                  sh_downloads sh' = u32_saturating_add1 (sh_downloads sh)
    end.
Proof.
  intros Hwf Hs Hc. unfold same_terms.
  destruct op as [now id' token root hash sv paths ex pw mx note by_|sv id'|sv id'
    |locked sv id'|sv id' now]; unfold run_share_op, finish; cbn -[save_share].
  - simpl in Hc. apply String.eqb_neq in Hc. unfold create_share, m_bind, m_lift, m_ret.
    repeat (case_match; cbn [fst]; simplify_eq; try (by eauto 10)).
    all: match goal with H : save_share ?sv ?i ?n ?s0 = _ |- _ =>
      destruct (save_share_frame sv i n s0 id sh Hs) as (sh' & Hl & Hor); rewrite H in Hl end;
      exists sh'; destruct Hor as [->|(_ & ? & _)]; [by eauto 10|done].
  - unfold revoke, m_bind, load_share, ok_or.
    destruct (gs_records s !! id') as [sh1|] eqn:E1; [|by eauto 10].
    destruct (sh_revoked sh1) eqn:Hrev; [by eauto 10|]. unfold m_bind.
    destruct (save_share_frame sv (sh_id sh1) (set_revoked sh1) s id sh Hs) as (sh' & Hl & Hor).
    exists sh'. destruct (save_share _ _ _ s) as [s2 [[]|e]]; cbn [fst] in *; (split; [done|]);
      (destruct Hor as [->|(_ & Hid & ->)]; [done|]);
      rewrite (Hwf _ _ E1) in Hid; subst id'; rewrite Hs in E1; injection E1 as <-; done.
  - unfold remove, m_bind, load_share, ok_or.
    destruct (gs_records s !! id') as [sh1|] eqn:E1; [|by eauto 10].
    destruct (sh_revoked sh1) eqn:Hrev; [|by eauto 10]. simpl.
    destruct (sh_hidden sh1); [by eauto 10|].
    destruct (save_share_frame sv (sh_id sh1) (set_hidden sh1) s id sh Hs) as (sh' & Hl & Hor).
    exists sh'. split; [done|]. destruct Hor as [->|(_ & Hid & ->)]; [done|].
    rewrite (Hwf _ _ E1) in Hid. subst id'. rewrite Hs in E1. injection E1 as <-. done.
  - unfold record_view. destruct locked; [by eauto 10|].
    destruct (gs_records s !! id') as [sh1|] eqn:E1; [|by eauto 10].
    destruct (save_share_frame sv id' (add_view sh1) s id sh Hs) as (sh' & Hl & Hor).
    exists sh'. split; [done|]. destruct Hor as [->|(_ & Hid & ->)]; [done|].
    subst id'. rewrite Hs in E1. injection E1 as <-. done.
  - unfold register_download, m_bind, load_share, ok_or.
    destruct (gs_records s !! id') as [sh1|] eqn:E1; [|simpl; by eauto 10].
    destruct (is_accessible sh1 now) eqn:Ha; [|simpl; by eauto 10]. simpl.
    destruct (save_share_frame sv (sh_id sh1) (add_download sh1) s id sh Hs) as (sh' & Hl & Hor).
    exists sh'. split; [done|]. pose proof (Hwf _ _ E1) as Hid1.
    destruct (String.eqb_spec id' id) as [->|Hne].
    + rewrite Hs in E1. injection E1 as <-. unfold save_share in *. rewrite Hid1 in *.
      destruct sv; simpl in *.
      * rewrite Hs in Hl. injection Hl as <-. done.
      * rewrite lookup_insert_eq in Hl. injection Hl as <-. done.
    + destruct Hor as [->|(_ & Hid & ->)]; [|congruence].
      by destruct (is_ok _).
Qed.

Lemma same_terms_trans a b c : same_terms a b -> same_terms b c -> same_terms a c.
Proof. unfold same_terms. naive_solver congruence. Qed.

Lemma accessible_spec sh now :
  is_accessible sh now = true <->
  sh_revoked sh = false /\ (forall e, sh_expires_at sh = Some e -> now < e) /\
  (forall m, sh_max_downloads sh = Some m -> sh_downloads sh < m).
Proof.
  unfold is_accessible. rewrite !andb_true_iff, negb_true_iff.
  destruct (sh_expires_at sh), (sh_max_downloads sh); rewrite ?Z.ltb_lt; naive_solver.
Qed.

Lemma run_share_ops_spec ops s id sh :
  records_wf s -> gs_records s !! id = Some sh -> Forall (fun op => creates id op = false) ops ->
  let '(s', hist) := run_share_ops ops s in
  (exists sh', gs_records s' !! id = Some sh' /\ same_terms sh sh') /\
  (sh_revoked sh = true -> served id hist = []) /\
  (forall e, sh_expires_at sh = Some e -> Forall (fun now => now < e) (served id hist)) /\
  (forall m, sh_max_downloads sh = Some m -> m <= u32_max ->
     Z.of_nat (length (served id hist)) <= Z.max 0 (m - sh_downloads sh)).
Proof.
  revert s sh. induction ops as [|op ops IH]; intros s sh Hwf Hs HF; simpl.
  { split_and!; [exists sh; by split|done|constructor|intros; simpl; lia]. }
  apply Forall_cons in HF as [Hc HF].
  pose proof (run_share_op_spec op s id sh Hwf Hs Hc) as Hop.
  pose proof (run_share_op_wf op s Hwf) as Hwf1.
  destruct (run_share_op op s) as [s1 ok]. destruct Hop as (sh1 & Hs1 & Ht & Hsv).
  specialize (IH s1 sh1 Hwf1 Hs1 HF). destruct (run_share_ops ops s1) as [s2 hist].
  destruct IH as ((sh2 & Hs2 & Ht2) & IHr & IHe & IHm).
  assert (served id ((op, ok) :: hist) = served id [(op, ok)] ++ served id hist) as ->.
  { unfold served. simpl. by destruct (match op with SoDownload _ _ _ => _ | _ => _ end). }
  destruct Ht as (Hid & Hth & Hex & Hmx & Hrv).
  split; [exists sh2; split; [done|]; eapply same_terms_trans; [|done]; by repeat split|].
  rewrite Hex in IHe. rewrite Hmx in IHm.
  destruct (served id [(op, ok)]) as [|now rest] eqn:E.
  - simpl. split_and!; [auto|auto|]. intros m Hm Hmax. specialize (IHm m Hm Hmax). by rewrite <- Hsv.
  - destruct Hsv as [Ha Hd]. apply accessible_spec in Ha as (Hnr & Hne & Hnm).
    assert (rest = []) as ->.
    { revert E. unfold served. simpl. destruct op; try done. destruct ok; [|done].
      destruct (String.eqb _ _); naive_solver. }
    split_and!; [congruence| |].
    + intros e He. constructor; [auto|]. auto.
    + intros m Hm Hmax. specialize (IHm m Hm Hmax). specialize (Hnm m Hm). simpl.
      unfold u32_saturating_add1, u32_max in *. lia.
Qed.

(** C39. Over any history of creations, revocations, removals, views and
    downloads, with record saves failing at will: a share never serves more
    downloads than its cap leaves, serves none at or after its expiry, and none
    after it was revoked; its terms never change and a revocation is never
    undone.  A revocation that reports success has marked the record. *)
Theorem guest_share_limits s id sh ops sv r :
  records_wf s -> gs_records s !! id = Some sh -> Forall (fun op => creates id op = false) ops ->
  (let '(s', hist) := run_share_ops ops s in
   (exists sh', gs_records s' !! id = Some sh' /\ same_terms sh sh') /\
   (sh_revoked sh = true -> served id hist = []) /\
   (forall e, sh_expires_at sh = Some e -> Forall (fun now => now < e) (served id hist)) /\
   (forall m, sh_max_downloads sh = Some m -> m <= u32_max ->
      Z.of_nat (length (served id hist)) <= Z.max 0 (m - sh_downloads sh))) /\
  (snd (revoke sv id s) = Ok r ->
   exists sh', gs_records (fst (revoke sv id s)) !! id = Some sh' /\ sh_revoked sh' = true).
Proof.
  intros Hwf Hs HF. split; [by apply run_share_ops_spec|].
  unfold revoke, m_bind, load_share, ok_or. rewrite Hs.
  destruct (sh_revoked sh) eqn:E; [eauto|]. unfold m_bind, save_share. destruct sv; [done|].
  intros _. exists (set_revoked sh). cbn. rewrite (Hwf _ _ Hs), lookup_insert_eq. done.
Qed.
End share_props.

(** ** The limiter *)

Inductive LimiterEvent : Type :=
| LReserve (key : string) (now : Z)
| LClear (key : string).

Section limiter_props.
Context (window : Z) (max_attempts max_keys : nat) (k : string).
Hypothesis max_positive : (0 < max_attempts)%nat.
Implicit Types (l : BoundedRateLimiter) (acc : list Z).

(** Run the limiter and keep the times of the attempts on [k] it granted since
    [k] was last cleared. *)
Fixpoint limiter_run (evs : list LimiterEvent) l acc : BoundedRateLimiter * list Z :=
  match evs with
  | [] => (l, acc)
  | LReserve key now :: evs' =>
      let '(l', ok) := reserve key now window max_attempts max_keys l in
      limiter_run evs' l' (if ok && String.eqb key k then acc ++ [now] else acc)
  | LClear key :: evs' =>
      limiter_run evs' (limiter_clear key l) (if String.eqb key k then [] else acc)
  end.

(** The clock does not run backwards from [t]. *)
Fixpoint clock_ok (t : Z) (evs : list LimiterEvent) : Prop :=
  match evs with
  | [] => True
  | LReserve _ now :: evs' => t <= now /\ clock_ok now evs'
  | LClear _ :: evs' => clock_ok t evs'
  end.

Definition stamps l : list Z := default [] (bl_entries l !! k).

Record lim_inv l acc (t : Z) : Prop := {
  li_sweep last : bl_last_sweep_at l = Some last -> last <= t;
  li_acc : Forall (fun x => x <= t) acc;
  li_sorted : StronglySorted Z.le (stamps l);
  li_stamps : Forall (fun x => x <= t) (stamps l);
  li_same : retain (in_window t window) (stamps l) = retain (in_window t window) acc;
  li_bound T : (length (retain (in_window T window) acc) <= max_attempts)%nat;
  li_size : (size (bl_entries l) <= max_keys)%nat;
}.

Lemma retain_window_mono t t' (ts : list Z) :
  t <= t' -> Forall (fun x => x <= t) ts ->
  retain (in_window t' window) ts = retain (in_window t' window) (retain (in_window t window) ts).
Proof.
  intros Ht. unfold retain. induction 1 as [|x ts Hx _ IH]; simpl; [done|].
  unfold in_window in *. destruct (Z.leb_spec x t); [|lia]. simpl.
  destruct (Z.ltb_spec (t - x) window); simpl; rewrite IH; [done|].
  replace (t' - x <? window) with false by lia. by rewrite andb_false_r.
Qed.

Lemma lim_inv_later l acc t t' : t <= t' -> lim_inv l acc t -> lim_inv l acc t'.
Proof.
  intros Ht [Hsw Hac Hso Hst Hsa Hbo Hsi]. constructor; try done.
  - intros last Hl. specialize (Hsw last Hl). lia.
  - eapply Forall_impl; [done|]. simpl. lia.
  - eapply Forall_impl; [done|]. simpl. lia.
  - rewrite (retain_window_mono t t' (stamps l)), (retain_window_mono t t' acc) by done.
    by rewrite Hsa.
Qed.

(** An entry dropped by a sweep has no attempt in the window. *)
Lemma entry_dead_window t (ts : list Z) :
  StronglySorted Z.le ts -> Forall (fun x => x <= t) ts -> entry_live t window ts = false ->
  retain (in_window t window) ts = [].
Proof.
  intros Hso Hle. unfold entry_live. destruct (rev ts) as [|last pre] eqn:E.
  { apply (f_equal (@rev Z)) in E. rewrite rev_involutive in E. by rewrite E. }
  assert (ts = rev pre ++ [last]) as Hts.
  { apply (f_equal (@rev Z)) in E. by rewrite rev_involutive in E. }
  intros Hdead.
  assert (Forall (fun x => x <= last) ts) as Hmax.
  { rewrite Hts in *. apply Forall_app. split; [|by repeat constructor].
    apply Forall_forall. intros x Hx.
    eapply StronglySorted_app_1_elem_of; [exact Hso|done|set_solver]. }
  assert (last <= t) as Hlt by (rewrite Hts in Hle; apply Forall_app in Hle as [_ H]; by inversion H).
  replace (last <=? t) with true in Hdead by lia. simpl in Hdead. apply Z.ltb_ge in Hdead.
  clear -Hmax Hdead. unfold retain. induction Hmax as [|x ts Hx _ IH]; simpl; [done|].
  unfold in_window at 1. replace (t - x <? window) with false by lia. by rewrite andb_false_r.
Qed.

Lemma sweep_inv l acc t : lim_inv l acc t -> lim_inv (sweep_expired t window l) acc t.
Proof.
  intros [Hsw Hac Hso Hst Hsa Hbo Hsi].
  assert (stamps (sweep_expired t window l) = stamps l \/
    (stamps (sweep_expired t window l) = [] /\ retain (in_window t window) (stamps l) = [])) as Hcase.
  { unfold stamps, sweep_expired; cbn. unfold stamps in Hso, Hst.
    destruct (bl_entries l !! k) as [ts|] eqn:E; simpl in *.
    - destruct (entry_live t window ts) eqn:El.
      + left. by rewrite (proj2 (map_lookup_filter_Some _ _ _ _)) by done.
      + right. split; [|by apply entry_dead_window].
        rewrite (proj2 (map_lookup_filter_None _ _ _)); [done|]. right. intros x Hx.
        rewrite E in Hx. injection Hx as <-. simpl. by rewrite El.
    - left. by rewrite (proj2 (map_lookup_filter_None _ _ _)) by auto. }
  constructor; try done.
  - intros last [= <-]. lia.
  - destruct Hcase as [->|[-> _]]; [done|constructor].
  - destruct Hcase as [->|[-> _]]; [done|constructor].
  - destruct Hcase as [->|[-> He]]; [done|]. by rewrite <- Hsa, He.
  - cbn. etrans; [|exact Hsi]. apply map_size_filter.
Qed.

Lemma in_window_le T x : in_window T window x = true -> x <= T.
Proof. unfold in_window. intros H. bool_hyps. done. Qed.

(** Granting an attempt on [k] while fewer than the maximum are in the window. *)
Lemma grant_bound acc now T :
  Forall (fun x => x <= now) acc ->
  (length (retain (in_window now window) acc) < max_attempts)%nat ->
  (length (retain (in_window T window) acc) <= max_attempts)%nat ->
  (length (retain (in_window T window) (acc ++ [now])) <= max_attempts)%nat.
Proof.
  intros Hle Hlt HT. unfold retain in *. rewrite List.filter_app, length_app. simpl.
  destruct (in_window T window now) eqn:E; [|simpl; lia].
  apply in_window_le in E.
  assert (length (List.filter (in_window T window) acc) <=
    length (List.filter (in_window now window) acc))%nat; [|simpl; lia].
  clear HT Hlt. induction Hle as [|x acc Hx _ IH]; simpl; [done|].
  unfold in_window in *. replace (x <=? now) with true by lia. simpl.
  destruct (Z.leb_spec x T); simpl; [|destruct (_ <? _); simpl; lia].
  destruct (Z.ltb_spec (T - x) window); simpl; [|destruct (_ <? _); simpl; lia].
  replace (now - x <? window) with true by lia. simpl. lia.
Qed.

Lemma retain_sorted (p : Z -> bool) ts : StronglySorted Z.le ts -> StronglySorted Z.le (retain p ts).
Proof.
  unfold retain. induction 1 as [|x ts Hs IH HF]; simpl; [constructor|].
  destruct (p x); [|done]. constructor; [done|]. rewrite Forall_forall in *.
  intros y Hy. apply HF. apply (elem_of_retain p ts y), Hy.
Qed.

Lemma sorted_snoc ts now :
  StronglySorted Z.le ts -> Forall (fun x => x <= now) ts -> StronglySorted Z.le (ts ++ [now]).
Proof.
  intros Hs HF. apply StronglySorted_app. split_and!; [|done|by repeat constructor].
  intros x y Hx ->%list_elem_of_singleton. rewrite Forall_forall in HF. by apply HF.
Qed.

(** Writing another key's entry. *)
Lemma lim_inv_other l acc t key ts sw :
  key <> k -> lim_inv l acc t -> (forall last, sw = Some last -> last <= t) ->
  (size (<[key := ts]> (bl_entries l)) <= max_keys)%nat ->
  lim_inv (mkLimiter (<[key := ts]> (bl_entries l)) sw) acc t.
Proof.
  intros Hne [Hsw Hac Hso Hst Hsa Hbo Hsi] Hs Hsz.
  assert (stamps (mkLimiter (<[key := ts]> (bl_entries l)) sw) = stamps l) as E
    by (unfold stamps; cbn; by rewrite lookup_insert_ne).
  constructor; rewrite ?E; done.
Qed.

(** Writing the entry of [k] itself: the attempts of the window, with or
    without a new one. *)
Lemma lim_inv_key l acc t sw (grant : bool) :
  lim_inv l acc t -> (forall last, sw = Some last -> last <= t) ->
  (size (<[k := @nil Z]> (bl_entries l)) <= max_keys)%nat ->
  (grant = true -> length (retain (in_window t window) (stamps l)) < max_attempts)%nat ->
  let ts := retain (in_window t window) (stamps l) in
  lim_inv (mkLimiter (<[k := if grant then ts ++ [t] else ts]> (bl_entries l)) sw)
    (if grant then acc ++ [t] else acc) t.
Proof.
  intros [Hsw Hac Hso Hst Hsa Hbo Hsi] Hs Hsz Hg ts.
  set (ts' := if grant then ts ++ [t] else ts).
  assert (stamps (mkLimiter (<[k := ts']> (bl_entries l)) sw) = ts') as E
    by (unfold stamps; cbn; by rewrite lookup_insert_eq).
  assert (Forall (fun x => x <= t) ts) as Hts.
  { apply Forall_forall. intros x Hx. unfold ts in Hx. apply elem_of_retain in Hx as [_ Hx].
    by apply in_window_le in Hx. }
  assert (StronglySorted Z.le ts) as Hsts by (by apply retain_sorted).
  constructor; rewrite ?E; unfold ts'.
  - done.
  - destruct grant; [|done]. apply Forall_app. split; [done|]. by repeat constructor.
  - destruct grant; [|done]. by apply sorted_snoc.
  - destruct grant; [|done]. apply Forall_app. split; [done|]. by repeat constructor.
  - destruct grant; unfold retain in *; rewrite ?List.filter_app.
    + f_equal. unfold ts. rewrite <- Hsa. apply retain_idemp.
    + unfold ts. rewrite <- Hsa. apply retain_idemp.
  - intros T. destruct grant; [|done]. apply grant_bound; [done| |done].
    rewrite <- Hsa. by apply Hg.
  - cbn. rewrite !map_size_insert in *. done.
Qed.

Lemma size_insert_le l (key : string) (ts : list Z) :
  (size (bl_entries l) <= max_keys)%nat ->
  (is_Some (bl_entries l !! key) \/ size (bl_entries l) < max_keys)%nat ->
  (size (<[key := ts]> (bl_entries l)) <= max_keys)%nat.
Proof.
  intros Hle Hor. rewrite map_size_insert. destruct (bl_entries l !! key) eqn:E; [done|].
  destruct Hor as [[? ?]|?]; [done|lia].
Qed.

Lemma reserve_inv l acc t key now :
  lim_inv l acc t -> t <= now ->
  let '(l', ok) := reserve key now window max_attempts max_keys l in
  lim_inv l' (if ok && String.eqb key k then acc ++ [now] else acc) now.
Proof.
  intros Hi Hle. apply (lim_inv_later _ _ _ now Hle) in Hi. unfold reserve.
  assert ((match bl_last_sweep_at l with
           | Some last => if now <? last then mkLimiter ∅ (Some now) else l
           | None => l end) = l) as ->.
  { destruct (bl_last_sweep_at l) as [last|] eqn:E; [|done].
    pose proof (li_sweep _ _ _ Hi last E). by replace (now <? last) with false by lia. }
  match goal with |- context [if ?b then sweep_expired now window l else l] =>
    set (l1 := if b then sweep_expired now window l else l);
    assert (lim_inv l1 acc now) as Hi1 by (unfold l1; destruct b; [by apply sweep_inv|done])
  end.
  clearbody l1. clear Hi l. cbv zeta. destruct (bl_entries l1 !! key) as [ts|] eqn:E.
  - assert (forall ts', (size (<[key := ts']> (bl_entries l1)) <= max_keys)%nat) as Hsz.
    { intros ts'. apply size_insert_le; [apply Hi1|]. left. by rewrite E. }
    destruct (String.eqb_spec key k) as [->|Hne].
    + assert (stamps l1 = ts) as Est by (unfold stamps; by rewrite E).
      destruct (Nat.leb_spec max_attempts (length (retain (in_window now window) ts))); simpl.
      * pose proof (lim_inv_key l1 acc now (bl_last_sweep_at l1) false Hi1) as H1.
        rewrite Est in H1. apply H1; [apply Hi1|apply Hsz|done].
      * pose proof (lim_inv_key l1 acc now (bl_last_sweep_at l1) true Hi1) as H1.
        rewrite Est in H1. apply H1; [apply Hi1|apply Hsz|intros; lia].
    + destruct (_ <=? _)%nat; simpl;
        (apply lim_inv_other; [exact Hne|exact Hi1|apply Hi1|apply Hsz]).
  - assert (forall b : bool, let l2 := if b then sweep_expired now window l1 else l1 in
      lim_inv l2 acc now /\ bl_entries l2 !! key = None) as Hl2.
    { intros []; [|done]. split; [by apply sweep_inv|].
      cbn. apply map_lookup_filter_None. by left. }
    match goal with |- context [if ?b then sweep_expired now window l1 else l1] =>
      specialize (Hl2 b); set (l2 := if b then sweep_expired now window l1 else l1) in * end.
    destruct Hl2 as [Hi2 E2]. clearbody l2. clear Hi1 E l1.
    destruct (Nat.leb_spec max_keys (size (bl_entries l2))); simpl; [done|].
    assert (forall ts', (size (<[key := ts']> (bl_entries l2)) <= max_keys)%nat) as Hsz.
    { intros ts'. apply size_insert_le; [apply Hi2|by right]. }
    destruct (String.eqb_spec key k) as [->|Hne].
    + assert (stamps l2 = []) as Est by (unfold stamps; by rewrite E2).
      pose proof (lim_inv_key l2 acc now (bl_last_sweep_at l2) true Hi2) as H1.
      rewrite Est in H1. apply H1; [apply Hi2|apply Hsz|intros; simpl; lia].
    + apply lim_inv_other; [exact Hne|exact Hi2|apply Hi2|apply Hsz].
Qed.

Lemma clear_inv l acc t key :
  lim_inv l acc t -> lim_inv (limiter_clear key l) (if String.eqb key k then [] else acc) t.
Proof.
  intros [Hsw Hac Hso Hst Hsa Hbo Hsi].
  assert (size (delete key (bl_entries l)) <= max_keys)%nat as Hsz.
  { etrans; [|exact Hsi]. rewrite map_size_delete. destruct (_ !! key); simpl; lia. }
  destruct (String.eqb_spec key k) as [->|Hne].
  - assert (stamps (limiter_clear k l) = []) as E
      by (unfold stamps, limiter_clear; cbn; by rewrite lookup_delete_eq).
    constructor; rewrite ?E; try done; try constructor. intros. simpl. lia.
  - assert (stamps (limiter_clear key l) = stamps l) as E
      by (unfold stamps, limiter_clear; cbn; by rewrite lookup_delete_ne).
    constructor; rewrite ?E; done.
Qed.

Lemma limiter_run_inv evs l acc t :
  lim_inv l acc t -> clock_ok t evs ->
  exists t', lim_inv (fst (limiter_run evs l acc)) (snd (limiter_run evs l acc)) t'.
Proof.
  revert l acc t. induction evs as [|[key now|key] evs IH]; intros l acc t Hi Hc; simpl in *; [eauto| |].
  - destruct Hc as [Hle Hc]. pose proof (reserve_inv l acc t key now Hi Hle) as Hr.
    destruct (reserve _ _ _ _ _ l) as [l' ok]. by eapply IH.
  - eapply IH; [|done]. by apply clear_inv.
Qed.
End limiter_props.

(** However keys, clears and a clock that does not run backwards
    interleave: in every interval of the window's length the limiter grants at
    most the maximum of attempts on a key since that key was last cleared, in
    spite of its sweeps and its bounded table, and the table never holds more
    than its maximum of keys. *)
Theorem limiter_window_bound window max_attempts max_keys k evs t T :
  (0 < max_attempts)%nat -> clock_ok t evs ->
  let '(l, granted) := limiter_run window max_attempts max_keys k evs limiter_default [] in
  (length (retain (in_window T window) granted) <= max_attempts)%nat /\
  (size (bl_entries l) <= max_keys)%nat.
Proof.
  intros Hm Hc.
  assert (lim_inv window max_attempts max_keys k limiter_default [] t) as H0.
  { constructor; [done|constructor|constructor|constructor|done|intros; simpl; lia|].
    cbn. rewrite map_size_empty. lia. }
  destruct (limiter_run_inv window max_attempts max_keys k Hm evs _ _ t H0 Hc) as [t' Hi].
  destruct (limiter_run _ _ _ _ _ _ _) as [l granted].
  split; [apply (li_bound _ _ _ _ _ _ _ Hi)|apply (li_size _ _ _ _ _ _ _ Hi)].
Qed.

(** ** What a guest must have shown *)

Section unlock_props.
Context {L : AuthLibs}.
Implicit Types (s : GuestShareService).

Lemma lookup_active_sound token now s sh :
  lookup_active token now s = Some sh ->
  sh_token_hash sh = sha256_hex token /\ is_accessible sh now = true /\
  exists id, gs_records s !! id = Some sh.
Proof.
  unfold lookup_active. intros [Hin Hp]%find_first_Some. bool_hyps. split_and!; [done..|].
  apply list_elem_of_fmap in Hin as ([id sh'] & -> & Hin). exists id.
  by apply elem_of_map_to_list in Hin.
Qed.

(** A grant opens the share it was minted for, for one hour, and no other. *)
Lemma mint_check_grant token share_id now s g share_id' now' :
  gs_grants s !! token = None -> now <= now' ->
  let s' := mint_grant token share_id now s in
  snd (check_grant token share_id' now' s') =
    (String.eqb share_id share_id' && (now' <? now + GRANT_TTL_SECS)) /\
  (g <> token -> snd (check_grant g share_id' now' s') = snd (check_grant g share_id' now' s)).
Proof.
  intros Hfresh Hle. unfold check_grant, mint_grant, live_grants; cbn. split.
  - destruct (decide (now' < now + GRANT_TTL_SECS)) as [Hlt|Hge].
    + rewrite (proj2 (map_lookup_filter_Some _ _ token (mkGrant share_id (now + GRANT_TTL_SECS))));
        [done|]. by rewrite lookup_insert_eq.
    + rewrite (proj2 (map_lookup_filter_None _ _ token)).
      * replace (now' <? now + GRANT_TTL_SECS) with false by lia. by rewrite andb_false_r.
      * right. intros e. rewrite lookup_insert_eq. intros [= <-]. done.
  - intros Hne. f_equal.
    match goal with |- match ?a with _ => _ end = match ?b with _ => _ end =>
      assert (a = b) as ->; [|done] end.
    apply option_eq. intros e. rewrite !map_lookup_filter_Some, lookup_insert_ne by done.
    rewrite map_lookup_filter_Some. cbn. split; [naive_solver|]. intros [? ?].
    split_and!; try done. lia.
Qed.

(** Names a guest can reach: no way up, no absolute path. *)
Lemma normal_names_safe cs names :
  normal_names cs = Some names ->
  cs = Normal <$> names /\ Forall (fun n => public_name_is_supported n = true) names.
Proof.
  revert names. induction cs as [|[| | |n] cs IH]; intros names; simpl; try done.
  { by intros [= <-]. }
  destruct (public_name_is_supported n) eqn:E; [|done].
  destruct (normal_names cs) as [ns|]; [|done]. intros [= <-].
  destruct (IH ns eq_refl) as [-> HF]. split; [done|by constructor].
Qed.

Lemma allow_unlock_frame ip now s :
  gs_grants (fst (allow_unlock_request ip now s)) = gs_grants s /\
  gs_records (fst (allow_unlock_request ip now s)) = gs_records s.
Proof. unfold allow_unlock_request. by destruct (reserve _ _ _ _ _ _). Qed.

Lemma reserve_unlock_frame ip token now s :
  gs_grants (fst (reserve_unlock_attempt ip token now s)) = gs_grants s /\
  gs_records (fst (reserve_unlock_attempt ip token now s)) = gs_records s.
Proof. unfold reserve_unlock_attempt. by destruct (reserve _ _ _ _ _ _). Qed.

Lemma unlock_finish_sound now grant meta_ok ip token s id g :
  (snd (unlock_finish now grant meta_ok ip token s) = Unlocked id g ->
     g = grant /\ exists rid sh, gs_records s !! rid = Some sh /\ sh_id sh = id /\
       sh_token_hash sh = sha256_hex token /\ is_accessible sh now = true) /\
  ((forall i g', snd (unlock_finish now grant meta_ok ip token s) <> Unlocked i g') ->
     gs_grants (fst (unlock_finish now grant meta_ok ip token s)) = gs_grants s).
Proof.
  unfold unlock_finish.
  destruct (lookup_active token now _) as [sh|] eqn:E; [|done]. destruct meta_ok; [|done].
  split; [|intros H; by destruct (H (sh_id sh) grant)]. intros [= <- <-]. split; [done|].
  apply lookup_active_sound in E as (? & ? & rid & ?). eauto 10.
Qed.

(** Unlocking a password-protected share takes its current token, an
    attempt granted by both limiters, and the right password, while the share
    is neither revoked, expired nor used up; only then is a grant minted, for
    exactly that share. *)
Theorem unlock_needs_password now busy task_ok ip token password s now2 grant meta_ok env id g :
  let '(s1, reply) := unlock_begin now busy task_ok ip token password s in
  (reply = None ->
     snd (allow_unlock_request ip now s) = true /\
     snd (reserve_unlock_attempt ip token now (fst (allow_unlock_request ip now s))) = true /\
     exists rid sh, gs_records s !! rid = Some sh /\ sh_token_hash sh = sha256_hex token /\
       is_accessible sh now = true /\
       (forall hash, sh_password_hash sh = Some hash -> verify_password password hash = true)) /\
  gs_grants s1 = gs_grants s /\ gs_records s1 = gs_records s /\
  (snd (unlock_finish now2 grant meta_ok ip token (env s1)) = Unlocked id g ->
     g = grant /\ exists rid sh, gs_records (env s1) !! rid = Some sh /\ sh_id sh = id /\
       sh_token_hash sh = sha256_hex token /\ is_accessible sh now2 = true) /\
  (forall s2, (forall i g', snd (unlock_finish now2 grant meta_ok ip token s2) <> Unlocked i g') ->
     gs_grants (fst (unlock_finish now2 grant meta_ok ip token s2)) = gs_grants s2).
Proof.
  pose proof (allow_unlock_frame ip now s) as Ha.
  pose proof (fun s0 => unlock_finish_sound now2 grant meta_ok ip token s0 id g) as Hfin.
  unfold unlock_begin.
  destruct (allow_unlock_request ip now s) as [s1 []]; cbn [negb fst snd] in *;
    [|split_and!; [done|apply Ha|apply Ha|apply Hfin|apply Hfin]].
  destruct Ha as [Hg1 Hrec1].
  destruct (lookup_active token now s1) as [sh|] eqn:El;
    [|split_and!; [done|done|done|apply Hfin|apply Hfin]].
  pose proof (reserve_unlock_frame ip token now s1) as Hr.
  destruct (reserve_unlock_attempt ip token now s1) as [s2 []];
    cbn [negb fst snd] in *; destruct Hr as [Hg2 Hrec2];
    [|split_and!; [done|congruence|congruence|apply Hfin|apply Hfin]].
  apply lookup_active_sound in El as (Hth & Hacc & rid & Hrid).
  unfold verify_share_password. destruct (sh_password_hash sh) as [hash|] eqn:Eh.
  - destruct busy; [split_and!; [done|congruence|congruence|apply Hfin|apply Hfin]|].
    destruct (task_ok && verify_password password hash) eqn:Ev;
      (split_and!; [|congruence|congruence|apply Hfin|apply Hfin]); [|done].
    intros _. apply andb_true_iff in Ev as [_ Ev]. split_and!; [done..|].
    exists rid, sh. split_and!; [congruence|done|done|].
    intros h Hh. rewrite Eh in Hh. by injection Hh as <-.
  - split_and!; [|congruence|congruence|apply Hfin|apply Hfin].
    intros _. split_and!; [done..|]. exists rid, sh. split_and!; [congruence|done|done|].
    intros h Hh. congruence.
Qed.
End unlock_props.

(** ** Concrete runs *)

Definition share1 : GuestShare :=
  mkShare "s1" (sha256_hex "tok") ["/fs/tank/photos"] "olga" 0 (Some 1000) None (Some 2) 0 0 false
    false None.

Definition shares1 : GuestShareService :=
  mkGuestShares {[ "s1" := share1 ]} ∅ limiter_default limiter_default.

(** Three downloads of a share with a cap of two, and one after its revocation. *)
Definition history1 : list ShareOp :=
  [SoDownload None "s1" 10; SoDownload (Some "disk full") "s1" 11; SoDownload None "s1" 12;
   SoDownload None "s1" 13; SoRevoke None "s1"; SoDownload None "s1" 14].

Lemma guest_share_limits_witness :
  let '(_, hist) := run_share_ops (fun p => Some p) (fun _ => Some true) history1 shares1 in
  served "s1" hist = [10; 12] /\ Z.of_nat (length (served "s1" hist)) <= 2.
Proof.
  pose proof (guest_share_limits (fun p => Some p) (fun _ => Some true) shares1 "s1" share1 history1
    None share1) as H.
  destruct (run_share_ops _ _ history1 shares1) as [s' hist] eqn:E.
  assert (served "s1" hist = [10; 12]) as Hs.
  { vm_compute in E. injection E as _ <-. reflexivity. }
  split; [exact Hs|]. destruct H as [(_ & _ & _ & Hm) _].
  - intros id sh Hl. unfold shares1 in Hl. cbn [gs_records] in Hl.
    apply lookup_singleton_Some in Hl as [<- <-]. reflexivity.
  - reflexivity.
  - repeat constructor.
  - exact (Hm 2 eq_refl ltac:(vm_compute; discriminate)).
Defined.

(** Ten wrong passwords in a minute; the eleventh attempt is refused, one a
    quarter of an hour later is granted again. *)
Definition attempts1 : list LimiterEvent :=
  (LReserve "k" <$> [0; 1; 2; 3; 4; 5; 6; 7; 8; 9; 10; 60]) ++ [LReserve "other" 70; LReserve "k" 901].

Lemma limiter_window_bound_witness :
  let '(_, granted) := limiter_run 900 10 4096 "k" attempts1 limiter_default [] in
  granted = [0; 1; 2; 3; 4; 5; 6; 7; 8; 9; 901] /\
  (length (retain (in_window 899 900) granted) <= 10)%nat.
Proof.
  pose proof (limiter_window_bound 900 10 4096 "k" attempts1 0 899) as H.
  destruct (limiter_run _ _ _ _ _ _ _) as [l granted] eqn:E.
  assert (granted = [0; 1; 2; 3; 4; 5; 6; 7; 8; 9; 901]) as Hg.
  { vm_compute in E. injection E as _ <-. reflexivity. }
  split; [exact Hg|]. apply H; [lia|]. vm_compute. repeat split; discriminate.
Defined.
